(* ===== verification/_CoqProject ===== *)
-Q . S2P
Prelude.v
RtList.v
KService.v
Memory.v
KString.v
KPrintf.v
PrintfSpec.v
RingBuffer.v
SmallMem.v
HeapLayout.v
SmallMemCorrect.v
MemHeap.v
MemHeapLayout.v
MemHeapCorrect.v
MemHeapResize.v
Kernel.v
Scheduler.v
Object.v
Timer.v
Thread.v
KHeap.v
MemHeapKernel.v
Ipc.v
Semaphore.v
Mutex.v
Event.v
Mailbox.v
MessageQueue.v
MemPool.v
Clock.v
Background.v
Asleep.v
Services.v
System.v
Device.v
Driver.v
Completion.v
DataQueue.v
Board.v
Witness.v
HeapWitness.v
DriverWitness.v
Finsh.v
FinshVm.v
FinshCompiler.v
FinshVmCorrect.v
FinshExpr.v
FinshTree.v
FinshCode.v
FinshRun.v
FinshHeap.v
FinshToken.v
FinshParser.v
FinshLine.v
FinshShell.v
FinshEdit.v
FinshWitness.v
DfsPath.v
Dfs.v
DfsFile.v
DfsPosix.v
DfsTables.v
DfsOpen.v
DfsCalls.v
DfsWitness.v
RamPool.v
Ramfs.v
RamfsCorrect.v
RamfsVfs.v
RamfsWitness.v
