(* ===== verification/Prelude.v ===== *)
(** * RT-Thread 2.0.1 kernel: verification development

    RT-Thread is a small real-time kernel in C.  This library models the kernel
    proper and the containers of the driver framework, function by function, and proves what
    makes it correct: that the scheduler always runs the right thread, that timers
    fire in order and on time, that the IPC objects do what their contracts say, that
    the heap never hands out overlapping blocks, and that all of this stays true under
    any sequence of calls and clock ticks.

    ** The program and its parts

    A thread runs until it gives up the processor in [rt_schedule()]
    (src/scheduler.c), which picks the first thread of the highest non-empty ready
    list from a bitmap.  Threads leave the ready lists by sleeping or by waiting on an
    IPC object (src/thread.c, src/ipc.c, src/mempool.c), with a timer
    (src/timer.c) for the timeout; they come back when another thread or an interrupt
    resumes them, or when the clock tick (src/clock.c) finds their timer due.  Every
    object starts with a header (src/object.c) and is linked on the list of its class.
    Dynamic objects live on the heap of src/mem.c.  All lists are the intrusive
    doubly linked lists of include/rtservice.h.

    ** Files

    - [Prelude]: C integers as [Z] with explicit wrap-around, error codes, the
      state-and-fault monad [M], its tactics and hint databases, generic lemmas.
    - [RtList]: [Module Ptr], the list operations of rtservice.h on a store of
      next/prev pairs; [Module Abs], the same operations on named sequences; the
      refinement between them.  The kernel files use the abstract view.
    - [KService]: [__rt_ffs].  [Memory], [KString]: bytes and words in memory, the
      memory and string routines of src/kservice.c.
    - [SmallMem]: src/mem.c with block headers in memory.  [HeapLayout]: the heap as a
      sequence of blocks and the chain of headers that represents it.
      [SmallMemCorrect]: the heap invariant and what each call does to the blocks.
    - [Kernel]: the structures of rtdef.h as records and [kstate], the global
      variables of the kernel; [KConfig], the configuration (rtconfig.h) as a class;
      [Allocator], the heap as the kernel sees it.
    - [Scheduler], [Object], [Timer], [Thread]: one file each for src/scheduler.c,
      src/object.c, src/timer.c, src/thread.c.  [KHeap]: the laws the kernel needs of
      its [Allocator], their proof for mem.c, and dynamic objects and threads proved
      against the laws.
    - [Ipc], [Semaphore], [Mutex], [Event], [Mailbox], [MessageQueue]: src/ipc.c;
      [MemPool]: src/mempool.c.
    - [Clock]: src/clock.c, src/irq.c and src/idle.c.
    - [Background], [Asleep], [Services]: what calls leave alone, as program logics over the
      code: the kernel state behind timeout functions, a thread that sleeps, and the
      functions an application may give to a timer ([service]: they may stop timers,
      change periods, release semaphores and work on other objects).
    - [System]: threads, semaphores, timers and the clock together, as a transition system
      with any interleaving of calls and ticks.
    - [Board]: the start-up sequence of a board and an executable checker of the
      kernel invariant.  [Witness], [HeapWitness]: every property on a concrete run of
      that board.
    - [Device]: src/device.c, with the functions of a driver as the class [DriverOps].
    - [RingBuffer], [Driver], [Completion], [DataQueue]: the containers of
      components/drivers/src; [Driver] holds what completions and data queues share,
      the interrupt mask among it.  [DriverWitness]: their concrete runs.
    - [KPrintf]: rt_vsnprintf and its family (src/kservice.c).  [PrintfSpec]: formats as
      lists of literal characters and directives, how they are written down and which text
      they stand for, and the proof that rt_vsnprintf prints it.
    - [MemHeap]: src/memheap.c.  [MemHeapLayout]: the rings of headers and the sequence of
      blocks they represent; [MemHeapCorrect]: allocating and freeing; [MemHeapResize]:
      rt_memheap_realloc, rt_memheap_init and the theorems; [MemHeapKernel]: a memory heap
      as the kernel's heap (instance of [AllocatorLaws]) and concrete heaps.
    - The shell, components/finsh.  [Finsh]: its data, variables and symbol tables; [FinshVm]:
      the virtual machine; [FinshCompiler]: type check and code generation; [FinshHeap]:
      its heap and syntax nodes; [FinshToken], [FinshParser]: tokenizer and parser;
      [FinshLine]: finsh_run_line.  [FinshVmCorrect]: the program counter and the effect of
      each operation; [FinshExpr]: an expression language with its meaning and its byte
      code; [FinshTree]: trees in the node table and their type check; [FinshCode]: the code
      emitted for a tree; [FinshRun]: compiling and running.  [FinshShell]: the loop of the
      shell's thread, line editing, history and completion; [FinshEdit]: the command line as
      text with a cursor, which the loop implements.  [FinshWitness]: concrete lines.
    - The virtual file system, components/dfs.  [DfsPath]: the rewriting of paths on the
      bytes of a block, and what a path means; [Dfs], [DfsFile], [DfsPosix]: the tables, the
      operations on files and mount points, and the POSIX calls; a file system is an instance
      of [FsOps].  [DfsTables]: lock, heap, paths and tables; [DfsOpen]: the table of
      descriptors as a map of open files; [DfsCalls]: the laws [FsLaws] of a file system and
      the calls proved from them.  [DfsWitness]: a small system with two mount points.
    - The RAM file system, components/dfs/filesystems/ramfs.  [RamPool]: the blocks of a memory
      heap with their contents; [Ramfs]: the operations, an instance of [FsOps];
      [RamfsCorrect]: the map of files they work on and the instance of [FsLaws];
      [RamfsVfs]: writing and reading through the POSIX calls.  [RamfsWitness]: concrete runs.

    ** How the code is modelled

    A C function is a definition in the monad [M]: it takes the state, returns a value
    and the new state, or a fault.  [Assert] is a failing [RT_ASSERT] or [RT_DEBUG]
    check (both compiled in), [BadPointer] a use of memory that is not there, and
    [OutOfFuel] the end of the fuel of a loop, [Undefined] an operation C leaves undefined, and
    [Waits] a wait inside a call of the file system, whose lock is free in all its theorems.
    Theorems say that the code returns [Ok]
    with the result they describe; none of them holds because the code does not
    return.  Fuel is given in terms of the data a loop walks over (the length of a
    list, the number of bytes plus one), and each such loop is proved to end with it.

    Code between [rt_hw_interrupt_disable] and [rt_hw_interrupt_enable] is one step.
    A call that may block runs up to its [rt_schedule()] and returns [Blocked] with
    the local variables the rest needs; the rest is the definition with the suffix
    [_resume], run when the thread runs again.  Sending to and receiving from a message
    queue drop the interrupt lock half-way, so they are modelled in phases.  A context
    switch is a request recorded in the state, as PendSV sees it.

    Configuration: any number of priorities up to 256 (both bitmap variants), any number of
    timer list levels, 32-bit processor, [char] unsigned.  Hooks are not installed;
    modules and soft timers are off, as in the board configurations.

    Limits of the model.  Heap headers are kept apart from the bytes of the blocks, so the
    programs are those that write within their blocks; the heap semaphore is free between
    calls.  The variables and pointers of the shell's programs reach a memory of their own,
    not the text segment, the stack and the program counter of the machine.  Signed
    overflow (the shell's operators, the counter of rt_memcpy beyond 2^31 bytes) wraps
    around as on the targets, where C leaves it undefined.  The exact effect of a tick
    ([Clock]) is stated for timeout functions that leave threads and timers alone, the
    safety of the system and the sleep of a thread ([System]) for all [service]s; both are
    hypotheses of the theorems.

    ** What the theorems show

    - Scheduler: [rt_schedule] runs the first thread of the highest ready priority;
      bitmap and lists agree after every insertion and removal; a critical section
      defers the switch until its outermost end.
    - Timers and clock: the skip list stays sorted with equal timeouts in order of
      arrival, also when the 32-bit tick wraps; a tick runs exactly the timers that
      are due, wakes their threads and rotates the ready list at the end of a slice.
    - Threads: start, suspend and resume, sleep, yield, exit and clean-up by the idle
      thread, creation from the heap with all error paths.
    - IPC: what each operation does on each branch (success, no wait, waiting, woken,
      timed out); mutexes pass priority on and restore it; mailboxes and message
      queues refine queues; overflow of counters.
    - Heap: the blocks in use are disjoint, inside the heap and keep their contents
      under any sequence of calls; allocate/free round trip; first fit.
    - System: the kernel invariant holds after any interleaving of calls and
      ticks, and a sleeping thread is woken at the right tick, not before, whatever the
      others do meanwhile.
    - Devices and containers: opens and closes balance, a registered device is found;
      ring buffer and data queue (of a power of two) refine bounded queues; the signal of a
      completion is kept until a wait consumes it; the cases in which the code fails to do
      so (a waiter that has timed out, a queue of another size) are theorems too.
    - Shell: the type check types every tree of known names; compiling and running a line
      of well typed statements computes their meaning; the line editor with its history
      refines a text with a cursor.
    - RAM file system: its entries and blocks represent a map from names to contents; what is
      written through the POSIX calls is read back.
    - Files: paths are rewritten to their canonical text inside their block; a path goes to
      the file system mounted deepest above it; descriptors are a finite map of open files
      under open, close, read, write and lseek.
    - Library: list, find-first-set, memory and string routines against reference
      definitions; rt_vsnprintf against a meaning of formats that shares nothing with its
      parser.

    ** Not modelled

    Pure hardware access (board drivers, context switch assembly), soft timers, dynamic
    modules (src/module.c), the slab allocator (src/slab.c), vendored code (lwIP,
    FatFs, SQLite and the like), and the components above the kernel
    listed as open in the plan.

    ** Plan

    Open, in this order: pipes and work queues, romfs and devfs as further instances of the
    file system interface, the parser's round trip, msh, the console (rt_kprintf). *)
From stdpp Require Import base tactics numbers list gmap.
From Stdlib Require Import ZArith Lia Zbitwise.
Local Open Scope Z_scope.

(** ** Machine integers

    Every C integer is a [Z] kept inside its width by an explicit conversion. *)

(** C conversion to an unsigned type of [w] bits. *)
Definition uwrap (w x : Z) : Z := x mod 2 ^ w.

(** C (two's complement) conversion to a signed type of [w] bits. *)
Definition swrap (w x : Z) : Z :=
  let y := x mod 2 ^ w in if y <? 2 ^ (w - 1) then y else y - 2 ^ w.

Abbreviation u8 := (uwrap 8).
Abbreviation u15 := (uwrap 15).
Abbreviation u16 := (uwrap 16).
Abbreviation u32 := (uwrap 32).
Abbreviation s8 := (swrap 8).
Abbreviation s16 := (swrap 16).
Abbreviation s32 := (swrap 32).

(** [RT_ALIGN] and [RT_ALIGN_DOWN] of rtdef.h, on 32-bit unsigned operands. *)
Definition RT_ALIGN (size align : Z) : Z :=
  Z.land (u32 (size + align - 1)) (Z.lnot (align - 1)).
Definition RT_ALIGN_DOWN (size align : Z) : Z :=
  Z.land size (Z.lnot (align - 1)).

(** Error codes of rtdef.h (returned negated). *)
Definition RT_EOK : Z := 0.
Definition RT_ERROR : Z := 1.
Definition RT_ETIMEOUT : Z := 2.
Definition RT_EFULL : Z := 3.
Definition RT_EEMPTY : Z := 4.
Definition RT_ENOMEM : Z := 5.

Definition RT_TICK_MAX : Z := 0xffffffff.
Definition RT_NULL : Z := 0.

Lemma uwrap_range w x : 0 <= w -> 0 <= uwrap w x < 2 ^ w.
Proof. intros. apply Z.mod_pos_bound. lia. Qed.

Lemma uwrap_small w x : 0 <= x < 2 ^ w -> uwrap w x = x.
Proof. apply Z.mod_small. Qed.

Lemma uwrap_idemp w x : uwrap w (uwrap w x) = uwrap w x.
Proof. apply Zmod_mod. Qed.

Lemma swrap_range w x : 0 < w -> - 2 ^ (w - 1) <= swrap w x < 2 ^ (w - 1).
Proof.
  intros Hw. unfold swrap.
  assert (2 ^ w = 2 * 2 ^ (w - 1)) as E.
  { rewrite <- Z.pow_succ_r by lia. f_equal. lia. }
  pose proof (Z.mod_pos_bound x (2 ^ w) ltac:(lia)).
  destruct (Z.ltb_spec (x mod 2 ^ w) (2 ^ (w - 1))); lia.
Qed.

Lemma swrap_small w x : 0 < w -> - 2 ^ (w - 1) <= x < 2 ^ (w - 1) -> swrap w x = x.
Proof.
  intros Hw Hx. unfold swrap.
  assert (2 ^ w = 2 * 2 ^ (w - 1)) as E.
  { rewrite <- Z.pow_succ_r by lia. f_equal. lia. }
  destruct (Z_lt_ge_dec x 0) as [Hn|Hn].
  - rewrite <- (Z.mod_add x 1 (2 ^ w)) by lia. rewrite Z.mod_small by lia.
    destruct (Z.ltb_spec (x + 1 * 2 ^ w) (2 ^ (w - 1))); lia.
  - rewrite Z.mod_small by lia.
    destruct (Z.ltb_spec x (2 ^ (w - 1))); lia.
Qed.

(** ** Bits *)

Lemma testbit_pow2 n m : 0 <= n -> Z.testbit (Z.shiftl 1 n) m = bool_decide (n = m).
Proof.
  intros Hn. rewrite Z.shiftl_mul_pow2, Z.mul_1_l by lia.
  case_bool_decide as E; [subst; by apply Z.pow2_bits_true|by apply Z.pow2_bits_false].
Qed.

Lemma testbit_clear a n m :
  0 <= n -> 0 <= m ->
  Z.testbit (Z.land a (Z.lnot (Z.shiftl 1 n))) m = Z.testbit a m && negb (bool_decide (n = m)).
Proof. intros. by rewrite Z.land_spec, Z.lnot_spec, testbit_pow2. Qed.

Lemma testbit_set a n m :
  0 <= n -> Z.testbit (Z.lor a (Z.shiftl 1 n)) m = Z.testbit a m || bool_decide (n = m).
Proof. intros. by rewrite Z.lor_spec, testbit_pow2. Qed.

Lemma testbit_high w x n : 0 <= x < 2 ^ w -> 0 <= w <= n -> Z.testbit x n = false.
Proof.
  intros Hx Hn. rewrite <- (Z.mod_small x (2 ^ w)) by done.
  apply Z.mod_pow2_bits_high. lia.
Qed.

Lemma bits_range w x :
  0 <= w -> 0 <= x -> (forall n, w <= n -> Z.testbit x n = false) -> x < 2 ^ w.
Proof.
  intros Hw Hx Hb. destruct (Z.eq_dec x 0) as [->|]; [lia|].
  apply Z.log2_lt_pow2; [lia|].
  destruct (Z_lt_ge_dec (Z.log2 x) w) as [|Hge]; [done|exfalso].
  specialize (Hb (Z.log2 x) ltac:(lia)). rewrite Z.bit_log2 in Hb by lia. done.
Qed.

(** Aligning to a power of two is rounding to a multiple. *)
Lemma land_lnot_align x k : 0 <= k -> Z.land x (Z.lnot (2 ^ k - 1)) = x - x mod 2 ^ k.
Proof.
  intros Hk. change (2 ^ k - 1) with (Z.pred (2 ^ k)). rewrite <- Z.ones_equiv.
  rewrite <- Z.ldiff_land, Z.ldiff_ones_r by lia.
  rewrite Z.shiftr_div_pow2, Z.shiftl_mul_pow2 by lia.
  pose proof (Z.div_mod x (2 ^ k) ltac:(lia)). lia.
Qed.

Lemma RT_ALIGN_DOWN_4 x : RT_ALIGN_DOWN x 4 = x - x mod 4.
Proof. apply (land_lnot_align x 2). lia. Qed.

Lemma RT_ALIGN_4 x :
  0 <= x -> x + 3 < 2 ^ 32 -> RT_ALIGN x 4 = (x + 3) - (x + 3) mod 4.
Proof.
  intros. unfold RT_ALIGN. rewrite uwrap_small by lia.
  replace (x + 4 - 1) with (x + 3) by lia. apply (land_lnot_align _ 2). lia.
Qed.

(** ** A state and fault monad

    [M S A] is a computation over a state [S].  A fault is an [RT_ASSERT] that
    fails (the code then spins for ever), an access through a pointer to no
    object, a list operation applied to a node that is already linked, an operation C
    leaves undefined (a division by zero), or a wait inside code whose model follows
    the calls that do not wait. *)

Inductive fault :=
| AssertFail
| BadPointer
| BadList
| OutOfFuel
| Undefined
| StackOverflow
| Waits.

Inductive outcome (S A : Type) :=
| Ok (a : A) (s : S)
| Fault (f : fault).
Arguments Ok {S A} a s.
Arguments Fault {S A} f.

Definition M (S A : Type) : Type := S -> outcome S A.

#[export] Instance M_ret S : MRet (M S) := fun A a s => Ok a s.
#[export] Instance M_bind S : MBind (M S) := fun A B k m s =>
  match m s with
  | Ok a s' => k a s'
  | Fault f => Fault f
  end.

Definition get {S} : M S S := fun s => Ok s s.
Definition gets {S A} (f : S -> A) : M S A := fun s => Ok (f s) s.
Definition modify {S} (f : S -> S) : M S unit := fun s => Ok tt (f s).
Definition throw {S A} (f : fault) : M S A := fun _ => Fault f.

(** [RT_ASSERT(EX)] of rtdebug.h. *)
Definition RT_ASSERT {S} (b : bool) : M S unit :=
  if b then mret tt else throw AssertFail.

Definition opt {S A} (f : fault) (o : option A) : M S A :=
  match o with Some a => mret a | None => throw f end.

Definition when {S} (b : bool) (m : M S unit) : M S unit :=
  if b then m else mret tt.

(** [while (cond) body], the loop-carried variables passed as [a].  The fuel is
    a bound on the number of tests of the condition. *)
Fixpoint while {S A} (fuel : nat) (cond : A -> M S bool) (body : A -> M S A) (a : A) : M S A :=
  match fuel with
  | O => throw OutOfFuel
  | Datatypes.S fuel' =>
      cond a ≫= fun b : bool => if b then body a ≫= while fuel' cond body else mret a
  end.

(** The final state and the result of a computation, for concrete runs *)
Definition run {S A} (m : M S A) (s : S) : S := match m s with Ok _ s' => s' | Fault _ => s end.
Definition result {S A} (m : M S A) (s : S) : option A := match m s with Ok a _ => Some a | Fault _ => None end.

Lemma run_result {S A} (m : M S A) s a : result m s = Some a -> m s = Ok a (run m s).
Proof. unfold result, run. destruct (m s); congruence. Defined.

Lemma Ok_inj {S A} (a a' : A) (s s' : S) : Ok a s = Ok a' s' -> a = a' /\ s = s'.
Proof. intros E. by injection E. Qed.

(** Weakest precondition: the computation does not fault and its result and
    final state satisfy [Q]. *)
Definition wp {S A} (m : M S A) (Q : A -> S -> Prop) (s : S) : Prop :=
  match m s with
  | Ok a s' => Q a s'
  | Fault _ => False
  end.

Section wp.
Context {S : Type}.
Implicit Types s : S.

Lemma wp_ret {A} (a : A) (Q : A -> S -> Prop) s : Q a s -> wp (mret a) Q s.
Proof. done. Qed.

Lemma wp_bind {A B} (m : M S A) (k : A -> M S B) (Q : B -> S -> Prop) s :
  wp m (fun a s' => wp (k a) Q s') s -> wp (m ≫= k) Q s.
Proof. unfold wp, mbind, M_bind. by destruct (m s). Qed.

Lemma wp_bind_inv {A B} (m : M S A) (k : A -> M S B) (Q : B -> S -> Prop) s :
  wp (m ≫= k) Q s -> wp m (fun a s' => wp (k a) Q s') s.
Proof. unfold wp, mbind, M_bind. by destruct (m s). Qed.

Lemma wp_bind_assoc {A B C} (m : M S A) (k : A -> M S B) (k' : B -> M S C) (Q : C -> S -> Prop) s :
  wp ((m ≫= k) ≫= k') Q s -> wp (m ≫= fun a => k a ≫= k') Q s.
Proof. unfold wp, mbind, M_bind. by destruct (m s). Qed.

Lemma run_bind {A B} (m : M S A) (k : A -> M S B) s a s' :
  m s = Ok a s' -> (m ≫= k) s = k a s'.
Proof. unfold mbind, M_bind. by intros ->. Qed.

Lemma wp_mono {A} (m : M S A) (P Q : A -> S -> Prop) s :
  wp m P s -> (forall a s', P a s' -> Q a s') -> wp m Q s.
Proof. unfold wp. destruct (m s); naive_solver. Qed.

Lemma wp_gets {A} (f : S -> A) (Q : A -> S -> Prop) s : Q (f s) s -> wp (gets f) Q s.
Proof. done. Qed.

Lemma wp_get (Q : S -> S -> Prop) s : Q s s -> wp get Q s.
Proof. done. Qed.

Lemma wp_modify (f : S -> S) (Q : unit -> S -> Prop) s : Q tt (f s) -> wp (modify f) Q s.
Proof. done. Qed.

Lemma wp_assert (b : bool) (Q : unit -> S -> Prop) s :
  b = true -> Q tt s -> wp (RT_ASSERT b) Q s.
Proof. by intros ->. Qed.

Lemma wp_opt {A} f (o : option A) a (Q : A -> S -> Prop) s :
  o = Some a -> Q a s -> wp (opt f o) Q s.
Proof. by intros ->. Qed.

Lemma wp_when (b : bool) (m : M S unit) (Q : unit -> S -> Prop) s :
  (b = true -> wp m Q s) -> (b = false -> Q tt s) -> wp (when b m) Q s.
Proof. destruct b; naive_solver. Qed.

(** Total correctness of a loop: an invariant and a variant below the fuel. *)
Lemma wp_while {A} (I : A -> S -> Prop) (V : A -> S -> nat) (cond : A -> M S bool)
    (body : A -> M S A) (Q : A -> S -> Prop) fuel a s :
  I a s -> (V a s < fuel)%nat ->
  (forall a s, I a s -> wp (cond a) (fun b s' =>
     if b then wp (body a) (fun a' s'' => I a' s'' /\ (V a' s'' < V a s)%nat) s'
     else Q a s') s) ->
  wp (while fuel cond body a) Q s.
Proof.
  intros HI HV Hstep. revert a s HI HV. induction fuel as [|fuel IH]; intros a s HI HV; [lia|].
  simpl. apply wp_bind. eapply wp_mono; [by apply Hstep|]. intros [] s' Hb; [|by apply wp_ret].
  apply wp_bind. eapply wp_mono; [exact Hb|]. intros a' s'' [HI' HV']. apply IH; [done|lia].
Qed.

(** One round of a loop, by evaluation *)
Lemma while_true {A} fuel (cond : A -> M S bool) (body : A -> M S A) a a' s s1 s2 :
  cond a s = Ok true s1 -> body a s1 = Ok a' s2 ->
  while (Datatypes.S fuel) cond body a s = while fuel cond body a' s2.
Proof. intros E1 E2. simpl. unfold mbind, M_bind. by rewrite E1, E2. Qed.

Lemma while_false {A} fuel (cond : A -> M S bool) (body : A -> M S A) a s s1 :
  cond a s = Ok false s1 -> while (Datatypes.S fuel) cond body a s = Ok a s1.
Proof. intros E1. simpl. unfold mbind, M_bind. by rewrite E1. Qed.

(** A computation whose [wp] holds returns. *)
Lemma wp_ok {A} (m : M S A) (Q : A -> S -> Prop) s :
  wp m Q s -> exists a s', m s = Ok a s' /\ Q a s'.
Proof. unfold wp. destruct (m s); naive_solver. Qed.

Lemma ok_wp {A} (m : M S A) (Q : A -> S -> Prop) s a s' :
  m s = Ok a s' -> Q a s' -> wp m Q s.
Proof. unfold wp. by intros ->. Qed.
End wp.

(** One step through a monadic program: sequencing, state access, pure values. *)
Ltac wp_step :=
  lazymatch goal with
  | |- wp (mbind _ _) _ _ => apply wp_bind
  | |- wp (mret _) _ _ => apply wp_ret
  | |- wp (gets _) _ _ => apply wp_gets
  | |- wp get _ _ => apply wp_get
  | |- wp (modify _) _ _ => apply wp_modify
  | |- wp (RT_ASSERT _) _ _ => apply wp_assert
  | |- wp (opt _ _) _ _ => eapply wp_opt
  end.

(** ** Lists *)

Section filter.
Context {A : Type} (P : A -> Prop) `{!forall x, Decision (P x)}.

Lemma filter_all l : Forall P l -> filter P l = l.
Proof. induction 1; [done|]. rewrite filter_cons_True by done. by f_equal. Qed.

Lemma filter_none l : Forall (fun x => ~ P x) l -> filter P l = [].
Proof. induction 1; [done|]. by rewrite filter_cons_False. Qed.
End filter.

Section lists.
Context {A : Type} `{EqDecision A}.
Implicit Types l : list A.

(** Remove every occurrence of [x]: the node leaves the list. *)
Definition list_del (x : A) l : list A := filter (fun y => y <> x) l.

Lemma elem_of_list_del x y l : y ∈ list_del x l <-> y <> x /\ y ∈ l.
Proof. unfold list_del. by rewrite list_elem_of_filter. Qed.

Lemma list_del_not_in x l : x ∉ l -> list_del x l = l.
Proof.
  unfold list_del. induction l as [|y l IH]; [done|]. intros Hx.
  apply not_elem_of_cons in Hx as [? ?].
  rewrite filter_cons_True by done. by rewrite IH.
Qed.

Lemma NoDup_list_del x l : NoDup l -> NoDup (list_del x l).
Proof. apply NoDup_filter. Qed.

Lemma list_del_app x l1 l2 : list_del x (l1 ++ l2) = list_del x l1 ++ list_del x l2.
Proof. apply filter_app. Qed.

Lemma list_del_head x l : NoDup (x :: l) -> list_del x (x :: l) = l.
Proof.
  intros [Hx _]%NoDup_cons. unfold list_del. rewrite filter_cons_False by naive_solver.
  by apply list_del_not_in.
Qed.
End lists.
