(* ===== verification/RtList.v ===== *)
(** * Intrusive doubly linked lists (include/rtservice.h)

    The kernel links threads, timers and objects through [rt_list_t] nodes.
    [Module Ptr] is the code: a heap of [next]/[prev] pairs and the operations of
    rtservice.h, assignment by assignment.  [Module Abs] is the view the other
    files use: a finite map from list heads to the sequence of nodes.  The last
    section proves that the pointer operations implement the abstract ones. *)
From stdpp Require Import base tactics list gmap.
From S2P Require Import Prelude.

(** ** The pointer level *)

Module Ptr.
Section ptr.
Context {H N : Type} `{Countable H} `{Countable N}.

(** A list node is either a list head (a bare [rt_list_t]) or the node
    embedded in an object. *)
Abbreviation lptr := (H + N)%type.

Record rt_list_node := Node { next : lptr; prev : lptr }.

Abbreviation lheap := (gmap lptr rt_list_node).

Definition rd (p : lptr) : M lheap rt_list_node :=
  fun hp => match hp !! p with Some nd => Ok nd hp | None => Fault BadPointer end.
Definition wr_next (p v : lptr) : M lheap unit :=
  nd ← rd p; modify (fun hp => <[p := Node v (prev nd)]> hp).
Definition wr_prev (p v : lptr) : M lheap unit :=
  nd ← rd p; modify (fun hp => <[p := Node (next nd) v]> hp).

Definition rt_list_init (l : lptr) : M lheap unit :=
  wr_prev l l;; wr_next l l.

Definition rt_list_insert_after (l n : lptr) : M lheap unit :=
  nl ← rd l; wr_prev (next nl) n;;
  nl ← rd l; wr_next n (next nl);;
  wr_next l n;;
  wr_prev n l.

Definition rt_list_insert_before (l n : lptr) : M lheap unit :=
  nl ← rd l; wr_next (prev nl) n;;
  nl ← rd l; wr_prev n (prev nl);;
  wr_prev l n;;
  wr_next n l.

Definition rt_list_remove (n : lptr) : M lheap unit :=
  nn ← rd n; wr_prev (next nn) (prev nn);;
  nn ← rd n; wr_next (prev nn) (next nn);;
  wr_prev n n;; wr_next n n.

Definition rt_list_isempty (l : lptr) : M lheap bool :=
  nl ← rd l; mret (bool_decide (next nl = l)).
End ptr.
Arguments rt_list_node : clear implicits.
End Ptr.

(** ** The abstract level *)

Module Abs.
Section abs.
Context {H N : Type} `{Countable H} `{Countable N}.
Abbreviation lstore := (gmap H (list N)).
Implicit Types (st : lstore) (h : H) (n m : N).

(** The node is on some list. *)
Definition linked n st : Prop := map_Exists (fun _ l => n ∈ l) st.
#[global] Instance linked_dec n st : Decision (linked n st).
Proof. unfold linked. apply _. Defined.

Definition insert_front h n st : lstore := <[h := n :: st !!! h]> st.
Definition insert_back h n st : lstore := <[h := st !!! h ++ [n]]> st.
Definition remove n st : lstore := list_del n <$> st.

(** [n] in front of the first occurrence of [m]. *)
Fixpoint ins_before (m n : N) (l : list N) : list N :=
  match l with
  | [] => []
  | x :: l' => if decide (x = m) then n :: x :: l' else x :: ins_before m n l'
  end.
Definition insert_before_node h m n st : lstore := <[h := ins_before m n (st !!! h)]> st.

(** [n] behind the first occurrence of [m]. *)
Fixpoint ins_after (m n : N) (l : list N) : list N :=
  match l with
  | [] => []
  | x :: l' => if decide (x = m) then x :: n :: l' else x :: ins_after m n l'
  end.
Definition insert_after_node h m n st : lstore := <[h := ins_after m n (st !!! h)]> st.

(** Every node is at most once on at most one list. *)
Record store_wf st : Prop := {
  wf_nodup : forall h, NoDup (st !!! h);
  wf_disj : forall h1 h2 n, n ∈ st !!! h1 -> n ∈ st !!! h2 -> h1 = h2
}.

Lemma linked_spec n st : linked n st <-> exists h, n ∈ st !!! h.
Proof.
  unfold linked, map_Exists. split.
  - intros (h & l & Hl & Hn). exists h. by rewrite (lookup_total_correct _ _ _ Hl).
  - intros (h & Hn). destruct (st !! h) as [l|] eqn:E.
    + exists h, l. split; [done|]. by rewrite (lookup_total_correct _ _ _ E) in Hn.
    + rewrite lookup_total_alt, E in Hn. by apply not_elem_of_nil in Hn.
Qed.

Lemma lookup_remove n st h : remove n st !!! h = list_del n (st !!! h).
Proof.
  unfold remove. rewrite !lookup_total_alt, lookup_fmap. by destruct (st !! h).
Qed.

Lemma linked_remove n m st : linked n (remove m st) <-> n <> m /\ linked n st.
Proof.
  rewrite !linked_spec. setoid_rewrite lookup_remove. setoid_rewrite elem_of_list_del.
  naive_solver.
Qed.

Lemma remove_unlinked n st : ~ linked n st -> remove n st = st.
Proof.
  intros Hn. unfold remove. apply map_eq. intros h. rewrite lookup_fmap.
  destruct (st !! h) as [l|] eqn:E; [|done]. simpl. f_equal. apply list_del_not_in.
  intros Hin. apply Hn. by exists h, l.
Qed.

Lemma store_wf_remove n st : store_wf st -> store_wf (remove n st).
Proof.
  intros [Hnd Hd]. split.
  - intros h. rewrite lookup_remove. by apply NoDup_list_del.
  - intros h1 h2 m. rewrite !lookup_remove, !elem_of_list_del. naive_solver.
Qed.

(** Replacing one list by one with a single additional node. *)
Lemma store_wf_insert h n l st :
  store_wf st -> ~ linked n st -> l ≡ₚ n :: st !!! h -> store_wf (<[h := l]> st).
Proof.
  intros [Hnd Hd] Hn Hl. rewrite linked_spec in Hn.
  assert (forall x, x ∈ l <-> x = n \/ x ∈ st !!! h) as Hin
    by (intros x; rewrite Hl, elem_of_cons; done).
  split.
  - intros h'. destruct (decide (h = h')) as [<-|].
    + rewrite lookup_total_insert_eq, Hl. apply NoDup_cons. naive_solver.
    + by rewrite lookup_total_insert_ne.
  - intros h1 h2 m.
    destruct (decide (h = h1)) as [<-|], (decide (h = h2)) as [<-|];
      rewrite ?lookup_total_insert_eq, ?lookup_total_insert_ne, ?Hin by done;
      naive_solver.
Qed.

Lemma linked_insert h n m l st :
  l ≡ₚ n :: st !!! h -> linked m (<[h := l]> st) <-> m = n \/ linked m st.
Proof.
  intros Hl. rewrite !linked_spec. split.
  - intros (h' & Hm). destruct (decide (h = h')) as [<-|].
    + rewrite lookup_total_insert_eq, Hl in Hm. apply elem_of_cons in Hm. naive_solver.
    + rewrite lookup_total_insert_ne in Hm by done. eauto.
  - intros Hm. destruct (decide (m = n \/ m ∈ st !!! h)) as [E|E].
    + exists h. by rewrite lookup_total_insert_eq, Hl, elem_of_cons.
    + destruct Hm as [?|(h' & ?)]; [naive_solver|]. exists h'.
      rewrite lookup_total_insert_ne; naive_solver.
Qed.

Lemma ins_before_split m n l1 l2 :
  m ∉ l1 -> ins_before m n (l1 ++ m :: l2) = l1 ++ n :: m :: l2.
Proof.
  induction l1 as [|x l1 IH]; simpl; [by rewrite decide_True|].
  intros Hm. apply not_elem_of_cons in Hm as [? ?].
  rewrite decide_False by done. by rewrite IH.
Qed.

Lemma ins_after_split m n l1 l2 :
  m ∉ l1 -> ins_after m n (l1 ++ m :: l2) = l1 ++ m :: n :: l2.
Proof.
  induction l1 as [|x l1 IH]; simpl; [by rewrite decide_True|].
  intros Hm. apply not_elem_of_cons in Hm as [? ?].
  rewrite decide_False by done. by rewrite IH.
Qed.
End abs.
End Abs.

(** ** The pointer operations implement the abstract ones *)

Section chain.
Context {P : Type} `{EqDecision P}.
Implicit Types (f g : P -> option P) (a b n : P) (xs ys : list P).

(** Following [f] from [a] visits [xs] and ends in [b]. *)
Fixpoint nchain f a xs b : Prop :=
  match xs with
  | [] => f a = Some b
  | x :: xs' => f a = Some x /\ nchain f x xs' b
  end.

(** Pointer function update. *)
Definition upd f a b : P -> option P := fun x => if decide (x = a) then Some b else f x.

Lemma upd_eq f a b : upd f a b a = Some b.
Proof. unfold upd. by rewrite decide_True. Qed.
Lemma upd_ne f a b x : x <> a -> upd f a b x = f x.
Proof. intros. unfold upd. by rewrite decide_False. Qed.

Lemma nchain_ext f g a xs b :
  (forall x, x ∈ a :: xs -> f x = g x) -> nchain f a xs b -> nchain g a xs b.
Proof.
  revert a. induction xs as [|x xs IH]; intros a Hfg; simpl.
  - rewrite Hfg by set_solver. done.
  - rewrite Hfg by set_solver. intros [??]. split; [done|].
    apply IH; [set_solver|done].
Qed.

Lemma nchain_app f a xs y ys b :
  nchain f a (xs ++ y :: ys) b <-> nchain f a xs y /\ nchain f y ys b.
Proof. revert a. induction xs as [|x xs IH]; intros a; simpl; [done|]. rewrite IH. tauto. Qed.

(** The last node of a sequence that starts in [a], and the first of one that
    ends in [b]. *)
Fixpoint lst a xs : P := match xs with [] => a | x :: xs' => lst x xs' end.
Definition hd b xs : P := match xs with [] => b | x :: _ => x end.

Lemma lst_elem a xs : lst a xs ∈ a :: xs.
Proof. revert a. induction xs as [|x xs IH]; intros a; simpl; [set_solver|]. specialize (IH x). set_solver. Qed.
Lemma lst_app a xs y ys : lst a (xs ++ y :: ys) = lst y ys.
Proof. revert a. induction xs; simpl; auto. Qed.
Lemma hd_elem b xs : hd b xs ∈ b :: xs.
Proof. destruct xs; simpl; set_solver. Qed.
Lemma hd_rev b xs : hd b (reverse xs) = lst b xs.
Proof.
  destruct xs as [|x xs _] using rev_ind; [done|].
  by rewrite reverse_snoc, lst_app.
Qed.
Lemma lst_rev a xs : lst a (reverse xs) = hd a xs.
Proof. destruct xs as [|x xs]; [done|]. by rewrite reverse_cons, lst_app. Qed.

Lemma nchain_lst f a xs b : nchain f a xs b -> f (lst a xs) = Some b.
Proof. revert a. induction xs as [|x xs IH]; intros a; simpl; naive_solver. Qed.
Lemma nchain_hd f a xs b : nchain f a xs b -> f a = Some (hd b xs).
Proof. destruct xs; simpl; naive_solver. Qed.

(** Redirecting the last pointer of a chain without repetitions. *)
Lemma nchain_upd_lst f a xs b n :
  NoDup (a :: xs) -> nchain f a xs b -> nchain (upd f (lst a xs) n) a xs n.
Proof.
  revert a. induction xs as [|x xs IH]; intros a Hnd; simpl; [intros _; apply upd_eq|].
  intros [Ha Hc]. apply NoDup_cons in Hnd as [Hax Hnd].
  split; [|by apply IH]. rewrite upd_ne; [done|].
  intros ->. apply Hax, lst_elem.
Qed.

Lemma nchain_upd_notin f a xs b c d :
  c ∉ a :: xs -> nchain f a xs b -> nchain (upd f c d) a xs b.
Proof. intros Hc. apply nchain_ext. intros x Hx. rewrite upd_ne; [done|]. by intros ->. Qed.

(** Inserting [n] into a ring, and taking it out again. *)
Lemma nchain_insert f h xs ys n :
  NoDup (h :: xs ++ ys) -> n ∉ h :: xs ++ ys ->
  nchain f h (xs ++ ys) h ->
  nchain (upd (upd f (lst h xs) n) n (hd h ys)) h (xs ++ n :: ys) h.
Proof.
  intros Hnd Hn Hc. rewrite nchain_app.
  assert (lst h xs ∉ ys) as Hly.
  { rewrite app_comm_cons in Hnd. apply NoDup_app in Hnd as (_ & Hd & _).
    apply Hd, lst_elem. }
  assert (nchain f h xs (hd h ys) /\ (ys <> [] -> nchain f (hd h ys) (tail ys) h)) as [Hx Hy].
  { destruct ys as [|y ys]; simpl in *.
    - rewrite app_nil_r in Hc. done.
    - apply nchain_app in Hc as [? ?]. done. }
  assert (n ∉ h :: xs) by set_solver.
  split.
  - apply nchain_upd_notin; [done|]. eapply nchain_upd_lst; [|done].
    rewrite app_comm_cons in Hnd. by apply NoDup_app in Hnd as (? & _ & _).
  - destruct ys as [|y ys]; simpl in *; [apply upd_eq|].
    split; [apply upd_eq|]. apply nchain_upd_notin; [set_solver|].
    apply nchain_upd_notin; [done|auto].
Qed.

Lemma nchain_delete f h xs ys n :
  NoDup (h :: xs ++ n :: ys) ->
  nchain f h (xs ++ n :: ys) h ->
  nchain (upd (upd f (lst h xs) (hd h ys)) n n) h (xs ++ ys) h.
Proof.
  intros Hnd Hc. apply nchain_app in Hc as [Hx Hy].
  assert (n ∉ h :: xs /\ n ∉ ys /\ NoDup (h :: xs) /\ lst h xs ∉ ys) as (? & ? & ? & ?).
  { rewrite app_comm_cons in Hnd. apply NoDup_app in Hnd as (? & Hd & [? _]%NoDup_cons).
    split_and!; [|done..|]; [intros Hn; by apply (Hd n Hn), elem_of_cons; left|].
    intros Hl. by apply (Hd _ (lst_elem h xs)), elem_of_cons; right. }
  apply nchain_upd_notin; [set_solver|].
  assert (nchain (upd f (lst h xs) (hd h ys)) h xs (hd h ys)) by (by eapply nchain_upd_lst).
  destruct ys as [|y ys]; simpl in *; [by rewrite app_nil_r|].
  apply nchain_app. split; [done|]. apply nchain_upd_notin; [done|naive_solver].
Qed.
End chain.

Section refinement.
Context {H N : Type} `{Countable H} `{Countable N}.
Import Ptr.
Abbreviation lp := (H + N)%type.
Abbreviation lh := (gmap lp (rt_list_node H N)).
Abbreviation lstore := (gmap H (list N)).
Implicit Types (hp : lh) (st : lstore) (p a b : lp) (h : H) (n m : N).

Definition nextf hp p : option lp := next <$> hp !! p.
Definition prevf hp p : option lp := prev <$> hp !! p.

(** The head [h] and the nodes [l] form a circular list. *)
Definition ring hp h (l : list N) : Prop :=
  nchain (nextf hp) (inl h) (inr <$> l) (inl h) /\
  nchain (prevf hp) (inl h) (reverse (inr <$> l)) (inl h).

(** The heap represents the abstract store: each list of the store is a ring,
    and an allocated node on no list is linked to itself. *)
Record repr hp st : Prop := {
  repr_wf : Abs.store_wf st;
  repr_ring : forall h l, st !! h = Some l -> ring hp h l;
  repr_unlinked : forall n, is_Some (hp !! inr n) -> ~ Abs.linked n st ->
                  hp !! inr n = Some (Node (inr n) (inr n))
}.

(** The heaps agree on which nodes are allocated, and the pointers changed as given. *)
Definition relinked hp hp' (fn fp : lp -> option lp) : Prop :=
  (forall p, is_Some (hp' !! p) <-> is_Some (hp !! p)) /\
  (forall p, nextf hp' p = fn p) /\ (forall p, prevf hp' p = fp p).

Lemma wp_rd hp p (Q : rt_list_node H N -> lh -> Prop) nd :
  hp !! p = Some nd -> Q nd hp -> wp (rd p) Q hp.
Proof. unfold wp, rd. by intros ->. Qed.

Lemma wp_wr_next hp p (v : lp) (Q : unit -> lh -> Prop) :
  is_Some (hp !! p) ->
  (forall hp', relinked hp hp' (upd (nextf hp) p v) (prevf hp) -> Q tt hp') ->
  wp (wr_next p v) Q hp.
Proof.
  intros [nd E] HQ. unfold wr_next. apply wp_bind. eapply wp_rd; [done|].
  apply wp_modify, HQ. unfold relinked, nextf, prevf, upd.
  split; [|split]; intros x; rewrite lookup_insert; repeat case_decide; simplify_eq/=;
    rewrite ?E; done.
Qed.

Lemma wp_wr_prev hp p (v : lp) (Q : unit -> lh -> Prop) :
  is_Some (hp !! p) ->
  (forall hp', relinked hp hp' (nextf hp) (upd (prevf hp) p v) -> Q tt hp') ->
  wp (wr_prev p v) Q hp.
Proof.
  intros [nd E] HQ. unfold wr_prev. apply wp_bind. eapply wp_rd; [done|].
  apply wp_modify, HQ. unfold relinked, nextf, prevf, upd.
  split; [|split]; intros x; rewrite lookup_insert; repeat case_decide; simplify_eq/=;
    rewrite ?E; done.
Qed.

Lemma nextf_Some hp p v : nextf hp p = Some v -> exists nd, hp !! p = Some nd /\ next nd = v.
Proof. unfold nextf. destruct (hp !! p); naive_solver. Qed.
Lemma prevf_Some hp p v : prevf hp p = Some v -> exists nd, hp !! p = Some nd /\ prev nd = v.
Proof. unfold prevf. destruct (hp !! p); naive_solver. Qed.

Lemma insert_after_ptr hp a b (n : lp) :
  nextf hp a = Some b -> is_Some (hp !! b) -> is_Some (hp !! n) -> n <> a -> n <> b ->
  wp (rt_list_insert_after a n) (fun _ hp' =>
    relinked hp hp' (upd (upd (nextf hp) a n) n b) (upd (upd (prevf hp) b n) n a)) hp.
Proof.
  intros Ha Hb Hn Hna Hnb. destruct (nextf_Some _ _ _ Ha) as (nda & Ea & <-).
  unfold rt_list_insert_after. wp_step. eapply wp_rd; [done|].
  wp_step. apply wp_wr_prev; [done|]. intros hp1 (D1 & N1 & P1).
  assert (nextf hp1 a = Some (next nda)) as (nda1 & Ea1 & Eq1)%nextf_Some by (by rewrite N1).
  wp_step. eapply wp_rd; [done|]. rewrite Eq1.
  wp_step. apply wp_wr_next; [by apply D1|]. intros hp2 (D2 & N2 & P2).
  wp_step. apply wp_wr_next; [apply D2, D1; naive_solver|]. intros hp3 (D3 & N3 & P3).
  apply wp_wr_prev; [by apply D3, D2, D1|]. intros hp4 (D4 & N4 & P4).
  split; [|split]; intros p.
  - by rewrite D4, D3, D2, D1.
  - rewrite N4, N3. unfold upd. rewrite N2. unfold upd. rewrite N1. repeat case_decide; naive_solver.
  - rewrite P4. unfold upd. rewrite P3, P2, P1. unfold upd. repeat case_decide; naive_solver.
Qed.

Lemma insert_before_ptr hp a b (n : lp) :
  prevf hp b = Some a -> is_Some (hp !! a) -> is_Some (hp !! n) -> n <> a -> n <> b ->
  wp (rt_list_insert_before b n) (fun _ hp' =>
    relinked hp hp' (upd (upd (nextf hp) a n) n b) (upd (upd (prevf hp) b n) n a)) hp.
Proof.
  intros Hb Ha Hn Hna Hnb. destruct (prevf_Some _ _ _ Hb) as (ndb & Eb & <-).
  unfold rt_list_insert_before. wp_step. eapply wp_rd; [done|].
  wp_step. apply wp_wr_next; [done|]. intros hp1 (D1 & N1 & P1).
  assert (prevf hp1 b = Some (prev ndb)) as (ndb1 & Eb1 & Eq1)%prevf_Some by (by rewrite P1).
  wp_step. eapply wp_rd; [done|]. rewrite Eq1.
  wp_step. apply wp_wr_prev; [by apply D1|]. intros hp2 (D2 & N2 & P2).
  wp_step. apply wp_wr_prev; [apply D2, D1; naive_solver|]. intros hp3 (D3 & N3 & P3).
  apply wp_wr_next; [by apply D3, D2, D1|]. intros hp4 (D4 & N4 & P4).
  split; [|split]; intros p.
  - by rewrite D4, D3, D2, D1.
  - rewrite N4. unfold upd. rewrite N3, N2, N1. unfold upd. repeat case_decide; naive_solver.
  - rewrite P4, P3. unfold upd. rewrite P2. unfold upd. rewrite P1. repeat case_decide; naive_solver.
Qed.

Lemma remove_ptr hp a b (n : lp) :
  nextf hp n = Some b -> prevf hp n = Some a -> is_Some (hp !! a) -> is_Some (hp !! b) ->
  (n = a <-> n = b) ->
  wp (rt_list_remove n) (fun _ hp' =>
    relinked hp hp' (upd (upd (nextf hp) a b) n n) (upd (upd (prevf hp) b a) n n)) hp.
Proof.
  intros Hb Ha Sa Sb Hab. destruct (nextf_Some _ _ _ Hb) as (nd & En & Eb).
  assert (prev nd = a) as Ea by (unfold prevf in Ha; rewrite En in Ha; naive_solver).
  unfold rt_list_remove. wp_step. eapply wp_rd; [done|]. rewrite Eb, Ea.
  wp_step. apply wp_wr_prev; [done|]. intros hp1 (D1 & N1 & P1).
  assert (nextf hp1 n = Some b) as (nd1 & En1 & Eq1)%nextf_Some by (by rewrite N1).
  assert (prev nd1 = a) as Eq2.
  { assert (prevf hp1 n = Some a) as HP by (rewrite P1; unfold upd; case_decide; naive_solver).
    unfold prevf in HP. rewrite En1 in HP. naive_solver. }
  wp_step. eapply wp_rd; [done|]. rewrite Eq1, Eq2.
  wp_step. apply wp_wr_next; [by apply D1|]. intros hp2 (D2 & N2 & P2).
  wp_step. apply wp_wr_prev; [apply D2, D1; naive_solver|]. intros hp3 (D3 & N3 & P3).
  apply wp_wr_next; [apply D3, D2, D1; naive_solver|]. intros hp4 (D4 & N4 & P4).
  split; [|split]; intros p.
  - by rewrite D4, D3, D2, D1.
  - rewrite N4. unfold upd. rewrite N3, N2. unfold upd. rewrite N1. repeat case_decide; naive_solver.
  - rewrite P4, P3. unfold upd. rewrite P2, P1. unfold upd. repeat case_decide; naive_solver.
Qed.

Lemma nodup_ring h (l : list N) : NoDup l -> NoDup ((inl h : lp) :: (inr <$> l)).
Proof.
  intros Hl. apply NoDup_cons. split.
  - intros (x & ? & _)%list_elem_of_fmap. done.
  - by apply (NoDup_fmap_2 inr).
Qed.

Lemma notin_ring h (l : list N) n : n ∉ l -> (inr n : lp) ∉ (inl h : lp) :: (inr <$> l).
Proof.
  intros Hl [?|(x & ? & ?)%list_elem_of_fmap]%elem_of_cons; naive_solver.
Qed.

(** A ring without the changed nodes is unaffected. *)
Lemma ring_frame hp hp' h l :
  (forall p, p ∈ (inl h : lp) :: (inr <$> l) -> nextf hp' p = nextf hp p /\ prevf hp' p = prevf hp p) ->
  ring hp h l -> ring hp' h l.
Proof.
  intros Hp [Hn Hv]. split.
  - eapply nchain_ext; [|done]. intros x Hx. symmetry. by apply Hp.
  - eapply nchain_ext; [|done]. intros x Hx. symmetry. apply Hp.
    apply elem_of_cons in Hx as [->|Hx]; [set_solver|].
    apply elem_of_cons. right. by rewrite elem_of_reverse in Hx.
Qed.

Definition before h (l1 : list N) : lp := lst (inl h) (inr <$> l1).
Definition behind h (l2 : list N) : lp := hd (inl h) (inr <$> l2).

Lemma ring_insert hp hp' h l1 l2 n :
  NoDup (l1 ++ l2) -> n ∉ l1 ++ l2 -> ring hp h (l1 ++ l2) ->
  relinked hp hp' (upd (upd (nextf hp) (before h l1) (inr n)) (inr n) (behind h l2))
                  (upd (upd (prevf hp) (behind h l2) (inr n)) (inr n) (before h l1)) ->
  ring hp' h (l1 ++ n :: l2).
Proof.
  intros Hnd Hn [HN HP] (_ & HN' & HP').
  apply (nodup_ring h) in Hnd. apply (notin_ring h) in Hn.
  split; rewrite fmap_app, fmap_cons.
  - eapply nchain_ext; [intros x _; symmetry; apply HN'|].
    rewrite fmap_app in *. by apply nchain_insert.
  - rewrite reverse_app, reverse_cons, <- app_assoc. simpl.
    eapply nchain_ext; [intros x _; symmetry; apply HP'|].
    unfold before, behind. rewrite <- (lst_rev (inl h) (inr <$> l2)), <- (hd_rev (inl h) (inr <$> l1)).
    rewrite fmap_app, reverse_app in *.
    apply nchain_insert; [| |done].
    + by rewrite <- reverse_app, reverse_Permutation.
    + by rewrite <- reverse_app, reverse_Permutation.
Qed.

Lemma ring_delete hp hp' h l1 l2 n :
  NoDup (l1 ++ n :: l2) -> ring hp h (l1 ++ n :: l2) ->
  relinked hp hp' (upd (upd (nextf hp) (before h l1) (behind h l2)) (inr n) (inr n))
                  (upd (upd (prevf hp) (behind h l2) (before h l1)) (inr n) (inr n)) ->
  ring hp' h (l1 ++ l2).
Proof.
  intros Hnd [HN HP] (_ & HN' & HP').
  apply (nodup_ring h) in Hnd.
  split; rewrite fmap_app.
  - eapply nchain_ext; [intros x _; symmetry; apply HN'|].
    rewrite fmap_app, fmap_cons in *. by apply nchain_delete.
  - rewrite reverse_app.
    eapply nchain_ext; [intros x _; symmetry; apply HP'|].
    unfold before, behind. rewrite <- (lst_rev (inl h) (inr <$> l2)), <- (hd_rev (inl h) (inr <$> l1)).
    rewrite fmap_app, fmap_cons, reverse_app, reverse_cons, <- app_assoc in HP. simpl in HP.
    apply nchain_delete; [|done].
    rewrite fmap_app, fmap_cons in Hnd.
    rewrite !reverse_Permutation. rewrite <- Permutation_middle, Permutation_app_comm.
    by rewrite <- Permutation_middle in Hnd.
Qed.

(** The neighbours of an insertion point, read off the heap. *)
Lemma ring_adjacent hp h l1 l2 :
  ring hp h (l1 ++ l2) ->
  nextf hp (before h l1) = Some (behind h l2) /\ prevf hp (behind h l2) = Some (before h l1).
Proof.
  intros [HN HP]. unfold before, behind. rewrite fmap_app in HN, HP. split.
  - destruct l2 as [|y l2]; simpl in *.
    + rewrite app_nil_r in HN. by apply nchain_lst.
    + apply nchain_app in HN as [HN _]. by apply nchain_lst.
  - rewrite reverse_app in HP. rewrite <- (lst_rev (inl h) (inr <$> l2)), <- (hd_rev (inl h) (inr <$> l1)).
    destruct (reverse (inr <$> l1)) as [|y r]; simpl in *.
    + rewrite app_nil_r in HP. by apply nchain_lst.
    + apply nchain_app in HP as [HP _]. by apply nchain_lst.
Qed.

Lemma relinked_before_behind hp h l1 l2 :
  ring hp h (l1 ++ l2) -> is_Some (hp !! before h l1) /\ is_Some (hp !! behind h l2).
Proof.
  intros [HN HP]%ring_adjacent.
  apply nextf_Some in HN as (? & ? & _). apply prevf_Some in HP as (? & ? & _). eauto.
Qed.

Lemma before_elem h l1 l2 : before h l1 ∈ (inl h : lp) :: (inr <$> (l1 ++ l2)).
Proof.
  unfold before. pose proof (lst_elem (inl h : lp) (inr <$> l1)) as E.
  rewrite fmap_app. apply elem_of_cons in E as [->|E]; [by apply elem_of_cons; left|].
  apply elem_of_cons. right. apply elem_of_app. by left.
Qed.
Lemma behind_elem h l1 l2 : behind h l2 ∈ (inl h : lp) :: (inr <$> (l1 ++ l2)).
Proof.
  unfold behind. pose proof (hd_elem (inl h : lp) (inr <$> l2)) as E.
  rewrite fmap_app. apply elem_of_cons in E as [->|E]; [by apply elem_of_cons; left|].
  apply elem_of_cons. right. apply elem_of_app. by right.
Qed.

Lemma ring_elem_disj st h1 h2 l1 l2 (p : lp) :
  Abs.store_wf st -> st !! h1 = Some l1 -> st !! h2 = Some l2 -> h1 <> h2 ->
  p ∈ (inl h1 : lp) :: (inr <$> l1) -> p ∈ (inl h2 : lp) :: (inr <$> l2) -> False.
Proof.
  intros [_ Hd] E1 E2 Hne Hp1 Hp2.
  apply elem_of_cons in Hp1 as [->|(x & -> & Hx)%list_elem_of_fmap];
    apply elem_of_cons in Hp2 as [Hp2|(y & Hy & Hyl)%list_elem_of_fmap]; simplify_eq.
  apply lookup_total_correct in E1, E2. apply Hne, (Hd _ _ y); by rewrite ?E1, ?E2.
Qed.

Lemma repr_insert hp hp' st h l1 l2 n :
  repr hp st -> st !! h = Some (l1 ++ l2) -> ~ Abs.linked n st ->
  relinked hp hp' (upd (upd (nextf hp) (before h l1) (inr n)) (inr n) (behind h l2))
                  (upd (upd (prevf hp) (behind h l2) (inr n)) (inr n) (before h l1)) ->
  repr hp' (<[h := l1 ++ n :: l2]> st).
Proof.
  intros [Hwf Hr Hu] Hst Hn Hrel.
  assert (n ∉ l1 ++ l2) as Hnl.
  { intros Hin. apply Hn, Abs.linked_spec. exists h. by rewrite (lookup_total_correct _ _ _ Hst). }
  assert (st !!! h = l1 ++ l2) as Etot by (by apply lookup_total_correct).
  assert (NoDup (l1 ++ l2)) as Hnd by (rewrite <- Etot; apply Hwf).
  split.
  - eapply Abs.store_wf_insert; [done..|]. rewrite Etot. by rewrite Permutation_middle.
  - intros h' l' [(<- & <-)|(Hne & E')]%lookup_insert_Some.
    { eapply ring_insert; eauto. }
    apply (ring_frame hp); [|by eauto]. intros p Hp. destruct Hrel as (_ & HN & HP).
    rewrite HN, HP. rewrite !upd_ne; [done|..]; intros ->.
    all: try (eapply (ring_elem_disj st h h' _ l' _ Hwf Hst E' Hne); [|exact Hp];
              first [apply before_elem | apply behind_elem]).
    all: apply Hn, Abs.linked_spec; exists h'; rewrite (lookup_total_correct _ _ _ E');
      apply elem_of_cons in Hp as [?|(? & ? & ?)%list_elem_of_fmap]; by simplify_eq.
  - intros m Hm Hml.
    rewrite (Abs.linked_insert h n) in Hml by (by rewrite Etot, Permutation_middle).
    assert (m <> n /\ ~ Abs.linked m st) as [Hmn Hmst] by tauto. destruct Hrel as (HD & HN & HP). apply HD in Hm.
    specialize (Hu m Hm Hmst).
    assert (inr m ∉ (inl h : lp) :: (inr <$> (l1 ++ l2))) as Hmr.
    { apply notin_ring. intros ?. apply Hmst, Abs.linked_spec. exists h. by rewrite Etot. }
    assert (nextf hp' (inr m) = Some (inr m) /\ prevf hp' (inr m) = Some (inr m)) as [EN EP].
    { rewrite HN, HP, !upd_ne; [unfold nextf, prevf; by rewrite Hu|..]; intros E; simplify_eq;
        apply Hmr; rewrite E; first [apply before_elem|apply behind_elem]. }
    apply nextf_Some in EN as (nd & End & ?). unfold prevf in EP. rewrite End in EP.
    destruct nd; naive_solver.
Qed.

Lemma list_del_middle n l1 l2 : NoDup (l1 ++ n :: l2) -> list_del n (l1 ++ n :: l2) = l1 ++ l2.
Proof.
  intros Hnd. apply NoDup_app in Hnd as (_ & Hd & Hnd).
  rewrite list_del_app, list_del_head by done. f_equal. apply list_del_not_in.
  intros Hin. by apply (Hd n Hin), elem_of_cons; left.
Qed.

Lemma repr_delete hp hp' st h l1 l2 n :
  repr hp st -> st !! h = Some (l1 ++ n :: l2) ->
  relinked hp hp' (upd (upd (nextf hp) (before h l1) (behind h l2)) (inr n) (inr n))
                  (upd (upd (prevf hp) (behind h l2) (before h l1)) (inr n) (inr n)) ->
  repr hp' (Abs.remove n st).
Proof.
  intros [Hwf Hr Hu] Hst Hrel.
  assert (st !!! h = l1 ++ n :: l2) as Etot by (by apply lookup_total_correct).
  assert (NoDup (l1 ++ n :: l2)) as Hnd by (rewrite <- Etot; apply Hwf).
  assert (forall p, p ∈ [before h l1; behind h l2; inr n] ->
          p ∈ (inl h : lp) :: (inr <$> (l1 ++ n :: l2))) as Hch.
  { intros p [->|[->|[->|[]%elem_of_nil]%elem_of_cons]%elem_of_cons]%elem_of_cons.
    - apply before_elem.
    - change (l1 ++ n :: l2) with (l1 ++ [n] ++ l2). rewrite app_assoc. apply behind_elem.
    - apply elem_of_cons. right. apply list_elem_of_fmap. exists n. split; [done|set_solver]. }
  assert (forall p, p ∉ (inl h : lp) :: (inr <$> (l1 ++ n :: l2)) ->
          nextf hp' p = nextf hp p /\ prevf hp' p = prevf hp p) as Hsame.
  { intros p Hp. destruct Hrel as (_ & HN & HP).
    rewrite HN, HP, !upd_ne; [done|..]; intros ->; apply Hp, Hch; set_solver. }
  split.
  - by apply Abs.store_wf_remove.
  - intros h' l' E'. unfold Abs.remove in E'. apply lookup_fmap_Some in E' as (l0 & <- & E0).
    destruct (decide (h = h')) as [<-|Hne]; simplify_eq.
    { rewrite list_del_middle by done. eapply ring_delete; eauto. }
    rewrite list_del_not_in.
    + apply (ring_frame hp); [|by eauto]. intros p Hp. apply Hsame. intros Hp'.
      by eapply (ring_elem_disj st h h').
    + intros Hn. eapply (ring_elem_disj st h h' _ _ (inr n)); [done..|apply Hch; set_solver|].
      apply elem_of_cons. right. apply list_elem_of_fmap. eauto.
  - intros m Hm Hml. rewrite Abs.linked_remove in Hml.
    destruct (decide (m = n)) as [->|Hmn].
    + destruct Hrel as (_ & HN & HP). specialize (HN (inr n)). specialize (HP (inr n)).
      rewrite upd_eq in HN, HP. apply nextf_Some in HN as (nd & End & ?).
      unfold prevf in HP. rewrite End in HP. destruct nd; naive_solver.
    + assert (~ Abs.linked m st) as Hmst by tauto.
      specialize (Hu m (proj1 (proj1 Hrel _) Hm) Hmst).
      destruct (Hsame (inr m)) as [EN EP].
      { apply notin_ring. intros ?. apply Hmst, Abs.linked_spec. exists h. by rewrite Etot. }
      unfold nextf, prevf in EN, EP. rewrite Hu in EN, EP.
      destruct (hp' !! inr m) as [[]|]; naive_solver.
Qed.

(** *** The operations *)

Section splice.
Context hp st h l1 l2 n
  (Hr : repr hp st) (Hst : st !! h = Some (l1 ++ l2))
  (Hn : is_Some (hp !! inr n)) (Hl : ~ Abs.linked n st).

Lemma splice_notin : inr n ∉ (inl h : lp) :: (inr <$> (l1 ++ l2)).
Proof.
  apply notin_ring. intros Hin. apply Hl, Abs.linked_spec. exists h.
  by rewrite (lookup_total_correct _ _ _ Hst).
Qed.

Lemma splice_ne : inr n <> before h l1 /\ inr n <> behind h l2.
Proof.
  split; intros E; apply splice_notin; rewrite E; [apply before_elem|apply behind_elem].
Qed.

Lemma splice_after :
  wp (rt_list_insert_after (before h l1) (inr n))
     (fun _ hp' => repr hp' (<[h := l1 ++ n :: l2]> st)) hp.
Proof.
  pose proof (repr_ring _ _ Hr _ _ Hst) as Hring.
  eapply wp_mono; [apply insert_after_ptr|].
  - by apply (ring_adjacent hp h l1 l2).
  - by apply (relinked_before_behind hp h l1 l2).
  - done.
  - apply splice_ne.
  - apply splice_ne.
  - intros ? hp' Hrel. by eapply repr_insert.
Qed.

Lemma splice_before :
  wp (rt_list_insert_before (behind h l2) (inr n))
     (fun _ hp' => repr hp' (<[h := l1 ++ n :: l2]> st)) hp.
Proof.
  pose proof (repr_ring _ _ Hr _ _ Hst) as Hring.
  eapply wp_mono; [apply insert_before_ptr|].
  - by apply (ring_adjacent hp h l1 l2).
  - by apply (relinked_before_behind hp h l1 l2).
  - done.
  - apply splice_ne.
  - apply splice_ne.
  - intros ? hp' Hrel. by eapply repr_insert.
Qed.
End splice.

Section operations.
Context hp st h n (Hr : repr hp st) (Hh : is_Some (st !! h)) (Hn : is_Some (hp !! inr n)).

Lemma insert_front_refines : ~ Abs.linked n st ->
  wp (rt_list_insert_after (inl h) (inr n)) (fun _ hp' => repr hp' (Abs.insert_front h n st)) hp.
Proof.
  intros Hl. destruct Hh as [l El]. unfold Abs.insert_front.
  rewrite (lookup_total_correct _ _ _ El). by apply (splice_after hp st h [] l n).
Qed.

Lemma insert_back_refines : ~ Abs.linked n st ->
  wp (rt_list_insert_before (inl h) (inr n)) (fun _ hp' => repr hp' (Abs.insert_back h n st)) hp.
Proof.
  intros Hl. destruct Hh as [l El]. unfold Abs.insert_back.
  rewrite (lookup_total_correct _ _ _ El).
  apply (splice_before hp st h l [] n); [done|by rewrite app_nil_r|done..].
Qed.

Lemma insert_before_node_refines m : ~ Abs.linked n st -> m ∈ st !!! h ->
  wp (rt_list_insert_before (inr m) (inr n))
     (fun _ hp' => repr hp' (Abs.insert_before_node h m n st)) hp.
Proof.
  intros Hl Hm. destruct Hh as [l El]. unfold Abs.insert_before_node.
  pose proof (Abs.wf_nodup _ (repr_wf _ _ Hr) h) as Hnd.
  rewrite (lookup_total_correct _ _ _ El) in *.
  apply list_elem_of_split in Hm as (l1 & l2 & ->).
  apply NoDup_app in Hnd as (_ & Hd & _).
  rewrite Abs.ins_before_split by (intros Hm; by apply (Hd m Hm), elem_of_cons; left).
  by apply (splice_before hp st h l1 (m :: l2) n).
Qed.

Lemma insert_after_node_refines m : ~ Abs.linked n st -> m ∈ st !!! h ->
  wp (rt_list_insert_after (inr m) (inr n))
     (fun _ hp' => repr hp' (Abs.insert_after_node h m n st)) hp.
Proof.
  intros Hl Hm. destruct Hh as [l El]. unfold Abs.insert_after_node.
  pose proof (Abs.wf_nodup _ (repr_wf _ _ Hr) h) as Hnd.
  rewrite (lookup_total_correct _ _ _ El) in *.
  apply list_elem_of_split in Hm as (l1 & l2 & ->).
  apply NoDup_app in Hnd as (_ & Hd & _).
  rewrite Abs.ins_after_split by (intros Hm; by apply (Hd m Hm), elem_of_cons; left).
  replace (inr m : lp) with (before h (l1 ++ [m]))
    by (unfold before; rewrite fmap_app; apply lst_app).
  change (m :: n :: l2) with ([m] ++ n :: l2). rewrite app_assoc.
  apply (splice_after hp st h (l1 ++ [m]) l2 n); [done|by rewrite <- app_assoc|done..].
Qed.

Lemma isempty_refines :
  wp (rt_list_isempty (inl h))
     (fun r hp' => hp' = hp /\ (r = true <-> st !!! h = [])) hp.
Proof.
  destruct Hh as [l El]. rewrite (lookup_total_correct _ _ _ El).
  destruct (ring_adjacent hp h [] l (repr_ring _ _ Hr _ _ El)) as [E _].
  apply nextf_Some in E as (nd & End & Enx).
  unfold rt_list_isempty. wp_step. eapply wp_rd; [done|]. wp_step.
  split; [done|]. rewrite bool_decide_eq_true, Enx. by destruct l.
Qed.
End operations.

Lemma heap_ext hp hp' :
  (forall p, nextf hp p = nextf hp' p) -> (forall p, prevf hp p = prevf hp' p) -> hp = hp'.
Proof.
  intros HN HP. apply map_eq. intros p. specialize (HN p). specialize (HP p).
  unfold nextf, prevf in *. destruct (hp !! p) as [[]|], (hp' !! p) as [[]|]; naive_solver.
Qed.

Lemma remove_refines hp st n :
  repr hp st -> is_Some (hp !! inr n) ->
  wp (rt_list_remove (inr n)) (fun _ hp' => repr hp' (Abs.remove n st)) hp.
Proof.
  intros Hr Hn. destruct (decide (Abs.linked n st)) as [Hl|Hl].
  - destruct Hl as (h & l & El & Hin). pose proof (repr_ring _ _ Hr _ _ El) as Hring.
    pose proof (Abs.wf_nodup _ (repr_wf _ _ Hr) h) as Hnd.
    rewrite (lookup_total_correct _ _ _ El) in Hnd.
    apply list_elem_of_split in Hin as (l1 & l2 & ->).
    destruct (ring_adjacent hp h l1 (n :: l2) Hring) as [A1 A2].
    destruct (relinked_before_behind hp h l1 (n :: l2) Hring) as [S1 S2].
    pose proof Hring as Hring'. change (n :: l2) with ([n] ++ l2) in Hring'. rewrite app_assoc in Hring'.
    destruct (ring_adjacent hp h (l1 ++ [n]) l2 Hring') as [A3 A4].
    destruct (relinked_before_behind hp h (l1 ++ [n]) l2 Hring') as [S3 S4].
    assert (before h (l1 ++ [n]) = inr n) as E by (unfold before; rewrite fmap_app; apply lst_app).
    rewrite E in *. change (behind h (n :: l2)) with (inr n : lp) in *.
    assert (inr n ∉ (inl h : lp) :: (inr <$> (l1 ++ l2))) as Hnotin.
    { apply notin_ring. apply NoDup_app in Hnd as (_ & Hd & [? _]%NoDup_cons).
      intros [Hi|Hi]%elem_of_app; [|done]. by apply (Hd n Hi), elem_of_cons; left. }
    eapply wp_mono; [eapply (remove_ptr hp (before h l1) (behind h l2))|]; [done..| |].
    + split; intros E'; exfalso; apply Hnotin; rewrite E'; [apply before_elem|apply behind_elem].
    + intros ? hp' Hrel. by eapply repr_delete.
  - pose proof (repr_unlinked _ _ Hr n Hn Hl) as E.
    eapply wp_mono; [eapply (remove_ptr hp (inr n) (inr n))|];
      [unfold nextf, prevf; by rewrite E..|done|done|done|].
    intros ? hp' (_ & HN & HP). rewrite Abs.remove_unlinked by done.
    replace hp' with hp; [done|]. apply heap_ext; intros p; rewrite ?HN, ?HP; unfold upd;
      repeat case_decide; simplify_eq; unfold nextf, prevf; by rewrite ?E.
Qed.

Lemma init_refines hp st h :
  repr hp st -> is_Some (hp !! inl h) -> st !!! h = [] ->
  wp (rt_list_init (inl h)) (fun _ hp' => repr hp' (<[h := []]> st)) hp.
Proof.
  intros [Hwf Hr Hu] Hh He. unfold rt_list_init. wp_step.
  apply wp_wr_prev; [done|]. intros hp1 (D1 & N1 & P1).
  apply wp_wr_next; [by apply D1|]. intros hp2 (D2 & N2 & P2).
  assert (forall p, p <> inl h -> nextf hp2 p = nextf hp p /\ prevf hp2 p = prevf hp p) as Hsame.
  { intros p Hp. rewrite N2, P2, P1, !upd_ne, N1 by done. done. }
  assert (<[h := []]> st !!! h = []) as He' by apply lookup_total_insert_eq.
  assert (forall h', <[h := []]> st !!! h' = st !!! h') as Htot.
  { intros h'. destruct (decide (h = h')) as [<-|]; [congruence|by rewrite lookup_total_insert_ne]. }
  assert (forall m, Abs.linked m (<[h := []]> st) <-> Abs.linked m st) as Hlk.
  { intros m. rewrite !Abs.linked_spec. by setoid_rewrite Htot. }
  split.
  - destruct Hwf as [W1 W2]. split; [intros h'|intros h1 h2 m]; rewrite ?Htot; auto. apply W2.
  - intros h' l' [(<- & <-)|(Hne & E')]%lookup_insert_Some.
    + split; simpl; [rewrite N2; apply upd_eq|rewrite P2, P1; apply upd_eq].
    + apply (ring_frame hp); [|by eauto]. intros p Hp. apply Hsame. intros ->.
      apply elem_of_cons in Hp as [?|(? & ? & ?)%list_elem_of_fmap]; by simplify_eq.
  - intros m Hm Hml. rewrite Hlk in Hml. rewrite D2, D1 in Hm. specialize (Hu m Hm Hml).
    destruct (Hsame (inr m)) as [EN EP]; [done|].
    unfold nextf, prevf in EN, EP. rewrite Hu in EN, EP.
    destruct (hp2 !! inr m) as [[]|]; naive_solver.
Qed.

(** ** Sequences of operations *)

(** The operations of rtservice.h as the kernel calls them *)
Inductive list_op :=
| InsertAfterHead (h : H) (n : N)
| InsertBeforeHead (h : H) (n : N)
| InsertBefore (h : H) (m n : N)
| InsertAfter (h : H) (m n : N)
| Remove (n : N).

Definition ptr_op (op : list_op) : M lh unit :=
  match op with
  | InsertAfterHead h n => rt_list_insert_after (inl h) (inr n)
  | InsertBeforeHead h n => rt_list_insert_before (inl h) (inr n)
  | InsertBefore _ m n => rt_list_insert_before (inr m) (inr n)
  | InsertAfter _ m n => rt_list_insert_after (inr m) (inr n)
  | Remove n => rt_list_remove (inr n)
  end.

Definition abs_op (op : list_op) (st : lstore) : lstore :=
  match op with
  | InsertAfterHead h n => Abs.insert_front h n st
  | InsertBeforeHead h n => Abs.insert_back h n st
  | InsertBefore h m n => Abs.insert_before_node h m n st
  | InsertAfter h m n => Abs.insert_after_node h m n st
  | Remove n => Abs.remove n st
  end.

(** The caller's obligation: lists exist, an inserted node is on no list yet, and a
    neighbour is on the named list. *)
Definition op_ok (nodes : gset N) (op : list_op) (st : lstore) : Prop :=
  match op with
  | InsertAfterHead h n | InsertBeforeHead h n => is_Some (st !! h) /\ n ∈ nodes /\ ~ Abs.linked n st
  | InsertBefore h m n | InsertAfter h m n => is_Some (st !! h) /\ n ∈ nodes /\ ~ Abs.linked n st /\ m ∈ st !!! h
  | Remove n => n ∈ nodes
  end.

Fixpoint ops_ok (nodes : gset N) (ops : list list_op) (st : lstore) : Prop :=
  match ops with [] => True | op :: ops' => op_ok nodes op st /\ ops_ok nodes ops' (abs_op op st) end.

Definition ptr_ops (ops : list list_op) : M lh unit := foldr (fun op k => ptr_op op;; k) (mret tt) ops.
Definition abs_ops (ops : list list_op) (st : lstore) : lstore := foldl (fun st op => abs_op op st) st ops.

(** Every operation keeps the set of allocated nodes. *)
Definition keeps_nodes {A} (m : M lh A) : Prop := forall hp, match m hp with Ok _ hp' => (dom hp' : gset lp) = dom hp | Fault _ => True end.

Lemma keeps_bind {A B : Type} (m : M lh A) (k : A -> M lh B) :
  keeps_nodes m -> (forall x, keeps_nodes (k x)) -> keeps_nodes (m ≫= k).
Proof.
  intros Hm Hk hp. unfold mbind, M_bind. specialize (Hm hp). destruct (m hp) as [a hp'|]; [|done].
  specialize (Hk a hp'). destruct (k a hp'); [congruence|done].
Qed.

Lemma keeps_rd p : keeps_nodes (rd p).
Proof. intros hp. unfold rd. by destruct (hp !! p). Qed.

Lemma keeps_wr_next p v : keeps_nodes (wr_next p v).
Proof.
  intros hp. unfold wr_next, rd, mbind, M_bind, modify. destruct (hp !! p) eqn:E; [|done].
  rewrite dom_insert_lookup_L; [done|by eexists].
Qed.

Lemma keeps_wr_prev p v : keeps_nodes (wr_prev p v).
Proof.
  intros hp. unfold wr_prev, rd, mbind, M_bind, modify. destruct (hp !! p) eqn:E; [|done].
  rewrite dom_insert_lookup_L; [done|by eexists].
Qed.

Lemma keeps_op op : keeps_nodes (ptr_op op).
Proof.
  destruct op; simpl; unfold rt_list_insert_after, rt_list_insert_before, rt_list_remove;
    repeat first [apply keeps_rd|apply keeps_wr_next|apply keeps_wr_prev|apply keeps_bind; [|intros ?]].
Qed.

Lemma wp_keeps {A} (m : M lh A) (Q : A -> lh -> Prop) hp :
  keeps_nodes m -> wp m Q hp -> wp m (fun x hp' => Q x hp' /\ (dom hp' : gset lp) = dom hp) hp.
Proof. intros Hk. specialize (Hk hp). unfold wp. by destruct (m hp). Qed.

Lemma op_refines hp st nodes op :
  repr hp st -> (forall n, n ∈ nodes -> is_Some (hp !! inr n)) -> op_ok nodes op st ->
  wp (ptr_op op) (fun _ hp' => repr hp' (abs_op op st)) hp.
Proof.
  intros Hr Hn. destruct op; simpl; intros Hop; destruct_and?; eauto using insert_front_refines,
    insert_back_refines, insert_before_node_refines, insert_after_node_refines, remove_refines.
Qed.

Lemma ops_refine hp st nodes ops :
  repr hp st -> (forall n, n ∈ nodes -> is_Some (hp !! inr n)) -> ops_ok nodes ops st ->
  wp (ptr_ops ops) (fun _ hp' => repr hp' (abs_ops ops st)) hp.
Proof.
  revert hp st. induction ops as [|op ops IH]; simpl; intros hp st Hr Hn Hops; [by apply wp_ret|].
  destruct Hops as [Hop Hops]. apply wp_bind.
  eapply wp_mono; [apply wp_keeps; [apply keeps_op|by eapply op_refines]|].
  intros ? hp' [Hr' Hd]. apply IH; [done| |done]. intros n Hin. apply elem_of_dom. rewrite Hd. apply elem_of_dom; eauto.
Qed.

Lemma before_cons h k (l1 : list N) : exists x, x ∈ k :: l1 /\ before h (k :: l1) = inr x.
Proof.
  pose proof (lst_elem (inr k : lp) (inr <$> l1)) as Hk. rewrite <- (fmap_cons inr k l1) in Hk.
  apply list_elem_of_fmap in Hk as (x & E & Hx). exists x. by split.
Qed.

(** [n->next != n->prev] tells whether a linked node has company on its list. *)
Lemma ring_alone hp h (l : list N) n nd :
  NoDup l -> ring hp h l -> n ∈ l -> hp !! inr n = Some nd -> next nd = prev nd <-> l = [n].
Proof.
  intros Hd Hring Hin E. apply list_elem_of_split in Hin as (l1 & l2 & ->).
  assert (ring hp h ((l1 ++ [n]) ++ l2)) as Hring' by (by rewrite <- app_assoc).
  destruct (ring_adjacent _ _ _ _ Hring) as [_ Hp]. destruct (ring_adjacent _ _ _ _ Hring') as [Hx _].
  unfold before in Hx. rewrite fmap_app in Hx. simpl in Hx. rewrite lst_app in Hx. simpl in Hx.
  unfold behind in Hp. simpl in Hp. unfold nextf in Hx. unfold prevf in Hp. rewrite E in Hx, Hp. simpl in Hx, Hp.
  simplify_eq. rewrite Hx, Hp. split.
  - intros Eq. destruct l1 as [|k l1], l2 as [|m l2]; [done|done| |].
    + destruct (before_cons h k l1) as (x & _ & Ex). rewrite Ex in Eq. done.
    + destruct (before_cons h k l1) as (x & Hx1 & Ex). rewrite Ex in Eq. unfold behind in Eq. simpl in Eq. simplify_eq.
      apply NoDup_app in Hd as (_ & Hd & _). exfalso. apply (Hd _ Hx1). set_solver.
  - intros El. destruct l1 as [|k l1]; simpl in El; simplify_eq; [done|]. by destruct l1.
Qed.

(** ** Properties *)

(** C32: the pointer operations of rtservice.h implement finite sequences: any sequence
    of insertions behind or before a list head or a linked node and of removals, each
    meeting its obligation, runs without a wild access and ends in a heap that
    represents the sequences the abstract operations give. *)
Theorem list_operations_refine hp st nodes ops :
  repr hp st -> (forall n, n ∈ nodes -> is_Some (hp !! inr n)) -> ops_ok nodes ops st ->
  exists hp', ptr_ops ops hp = Ok tt hp' /\ repr hp' (abs_ops ops st).
Proof.
  intros Hr Hn Hops. destruct (wp_ok _ _ _ (ops_refine hp st nodes ops Hr Hn Hops)) as ([] & hp' & E & Hr'). eauto.
Qed.

(** the test [next != prev] of [rt_thread_yield] and [rt_list_isempty] decide what
    they are used for: a linked node has equal neighbours exactly when it is alone on
    its list, and a head points to itself exactly when its list is empty. *)
Theorem list_tests_correct hp st h n nd :
  repr hp st -> n ∈ st !!! h -> hp !! inr n = Some nd ->
  (next nd = prev nd <-> st !!! h = [n]) /\ rt_list_isempty (inl h) hp = Ok false hp.
Proof.
  intros Hr Hin E. destruct (st !! h) as [l|] eqn:Eh.
  2: { rewrite lookup_total_alt, Eh in Hin. by apply elem_of_nil in Hin. }
  rewrite (lookup_total_correct _ _ _ Eh) in *. split.
  - apply (ring_alone hp h); [|by apply (repr_ring _ _ Hr)|done|done].
    rewrite <- (lookup_total_correct _ _ _ Eh). apply Hr.
  - destruct (wp_ok _ _ _ (isempty_refines hp st h Hr (ex_intro _ l Eh))) as (r & hp' & Er & -> & Hb).
    rewrite Er. f_equal. rewrite (lookup_total_correct _ _ _ Eh) in Hb. destruct r; [|done].
    destruct Hb as [Hb _]. specialize (Hb eq_refl). subst l. by apply elem_of_nil in Hin.
Qed.

End refinement.
