(* ===== verification/KService.v ===== *)
(** * Kernel service functions (src/kservice.c): find first set

    [__rt_ffs] is what the scheduler uses to pick the highest ready priority. *)
From stdpp Require Import base tactics numbers list.
From S2P Require Import Prelude.
Local Open Scope Z_scope.

Definition __lowest_bit_bitmap : list Z :=
  [0; 0; 1; 0; 2; 0; 1; 0; 3; 0; 1; 0; 2; 0; 1; 0;
   4; 0; 1; 0; 2; 0; 1; 0; 3; 0; 1; 0; 2; 0; 1; 0;
   5; 0; 1; 0; 2; 0; 1; 0; 3; 0; 1; 0; 2; 0; 1; 0;
   4; 0; 1; 0; 2; 0; 1; 0; 3; 0; 1; 0; 2; 0; 1; 0;
   6; 0; 1; 0; 2; 0; 1; 0; 3; 0; 1; 0; 2; 0; 1; 0;
   4; 0; 1; 0; 2; 0; 1; 0; 3; 0; 1; 0; 2; 0; 1; 0;
   5; 0; 1; 0; 2; 0; 1; 0; 3; 0; 1; 0; 2; 0; 1; 0;
   4; 0; 1; 0; 2; 0; 1; 0; 3; 0; 1; 0; 2; 0; 1; 0;
   7; 0; 1; 0; 2; 0; 1; 0; 3; 0; 1; 0; 2; 0; 1; 0;
   4; 0; 1; 0; 2; 0; 1; 0; 3; 0; 1; 0; 2; 0; 1; 0;
   5; 0; 1; 0; 2; 0; 1; 0; 3; 0; 1; 0; 2; 0; 1; 0;
   4; 0; 1; 0; 2; 0; 1; 0; 3; 0; 1; 0; 2; 0; 1; 0;
   6; 0; 1; 0; 2; 0; 1; 0; 3; 0; 1; 0; 2; 0; 1; 0;
   4; 0; 1; 0; 2; 0; 1; 0; 3; 0; 1; 0; 2; 0; 1; 0;
   5; 0; 1; 0; 2; 0; 1; 0; 3; 0; 1; 0; 2; 0; 1; 0;
   4; 0; 1; 0; 2; 0; 1; 0; 3; 0; 1; 0; 2; 0; 1; 0].

(** Reading the table; an index outside it reads 0 here, which never happens
    (every index below is masked to one byte). *)
Definition lowest_bit (i : Z) : Z := nth (Z.to_nat i) __lowest_bit_bitmap 0.

(** The argument is an [int]: a group with bit 31 set arrives as a negative number. *)
Definition __rt_ffs (value : Z) : Z :=
  if value =? 0 then 0
  else if negb (Z.land value 0xff =? 0) then lowest_bit (Z.land value 0xff) + 1
  else if negb (Z.land value 0xff00 =? 0) then
    lowest_bit (Z.shiftr (Z.land value 0xff00) 8) + 9
  else if negb (Z.land value 0xff0000 =? 0) then
    lowest_bit (Z.shiftr (Z.land value 0xff0000) 16) + 17
  else lowest_bit (Z.shiftr (Z.land value 0xff000000) 24) + 25.

(** [n] is the lowest bit set in [x]. *)
Definition lowest_set (x n : Z) : Prop :=
  0 <= n /\ Z.testbit x n = true /\ forall m, 0 <= m < n -> Z.testbit x m = false.

Lemma lowest_set_unique x n m : lowest_set x n -> lowest_set x m -> n = m.
Proof.
  intros (? & Hn & Hln) (? & Hm & Hlm).
  destruct (Z.lt_trichotomy n m) as [?|[?|?]]; [|done|].
  - by rewrite Hlm in Hn by lia.
  - by rewrite Hln in Hm by lia.
Qed.

Definition lowest_setb (x n : Z) : bool :=
  (0 <=? n) && Z.testbit x n && forallb (fun m => negb (Z.testbit x (Z.of_nat m))) (seq 0 (Z.to_nat n)).

Lemma lowest_setb_spec x n : lowest_setb x n = true -> lowest_set x n.
Proof.
  unfold lowest_setb. rewrite !andb_true_iff, forallb_forall.
  intros [[? ?] Hf]. split; [lia|]. split; [done|]. intros m Hm.
  specialize (Hf (Z.to_nat m)). rewrite Z2Nat.id in Hf by lia.
  apply negb_true_iff, Hf, in_seq. lia.
Qed.

(** The table gives the lowest set bit of every byte but 0. *)
Lemma lowest_bit_table b : 1 <= b < 256 -> lowest_set b (lowest_bit b).
Proof.
  intros Hb. apply lowest_setb_spec.
  assert (forallb (fun i => lowest_setb (Z.of_nat i) (lowest_bit (Z.of_nat i))) (seq 1 255) = true)
    as Hall by (vm_compute; reflexivity).
  rewrite forallb_forall in Hall. specialize (Hall (Z.to_nat b)).
  rewrite Z2Nat.id in Hall by lia. apply Hall, in_seq. lia.
Qed.

(** A byte of the argument, as the code extracts it. *)
Definition byte_at (value k : Z) : Z := Z.shiftr (Z.land value (Z.shiftl 0xff k)) k.

Lemma byte_at_bit value k m :
  0 <= k -> 0 <= m -> Z.testbit (byte_at value k) m = Z.testbit value (m + k) && (m <? 8).
Proof.
  intros. unfold byte_at. rewrite Z.shiftr_spec, Z.land_spec, Z.shiftl_spec by lia.
  f_equal. replace (m + k - k) with m by lia. change 255 with (Z.ones 8).
  rewrite Z.testbit_ones by lia. destruct (Z.leb_spec 0 m); simpl; lia.
Qed.

Lemma byte_at_range value k : 0 <= k -> 0 <= byte_at value k < 256.
Proof.
  intros. split.
  - apply Z.shiftr_nonneg, Z.land_nonneg. right. apply Z.shiftl_nonneg. lia.
  - change 256 with (2 ^ 8). apply bits_range; [lia| |].
    + apply Z.shiftr_nonneg, Z.land_nonneg. right. apply Z.shiftl_nonneg. lia.
    + intros n Hn. rewrite byte_at_bit by lia.
      replace (n <? 8) with false by lia. apply andb_false_r.
Qed.

Lemma byte_at_zero value k :
  0 <= k -> Z.land value (Z.shiftl 0xff k) = 0 ->
  forall m, k <= m < k + 8 -> Z.testbit value m = false.
Proof.
  intros Hk E m Hm. pose proof (byte_at_bit value k (m - k) Hk ltac:(lia)) as B.
  unfold byte_at in B. rewrite E, Z.shiftr_0_l, Z.bits_0 in B.
  replace (m - k + k) with m in B by lia. replace (m - k <? 8) with true in B by lia.
  by rewrite andb_true_r in B.
Qed.

Lemma lowest_set_byte value k :
  0 <= k -> Z.land value (Z.shiftl 0xff k) <> 0 ->
  (forall m, 0 <= m < k -> Z.testbit value m = false) ->
  lowest_set value (lowest_bit (byte_at value k) + k) /\
  0 <= lowest_bit (byte_at value k) < 8.
Proof.
  intros Hk Hne Hlow.
  assert (byte_at value k <> 0) as Hnz.
  { intros E. apply Hne. apply Z.bits_inj'. intros n Hn. rewrite Z.bits_0, Z.land_spec.
    destruct (Z_lt_ge_dec n k) as [|Hge].
    - by rewrite Hlow by lia.
    - pose proof (byte_at_bit value k (n - k) Hk ltac:(lia)) as B. rewrite E, Z.bits_0 in B.
      replace (n - k + k) with n in B by lia. rewrite Z.shiftl_spec by lia.
      change 255 with (Z.ones 8). rewrite Z.testbit_ones by lia.
      replace (0 <=? n - k) with true by lia. by rewrite B. }
  pose proof (byte_at_range value k Hk).
  destruct (lowest_bit_table (byte_at value k) ltac:(lia)) as (L0 & L1 & L2).
  rewrite byte_at_bit in L1 by lia. apply andb_true_iff in L1 as [L1 L8].
  split; [|lia]. split; [lia|]. split; [done|]. intros m Hm.
  destruct (Z_lt_ge_dec m k) as [|Hge]; [apply Hlow; lia|].
  specialize (L2 (m - k) ltac:(lia)). rewrite byte_at_bit in L2 by lia.
  replace (m - k + k) with m in L2 by lia. replace (m - k <? 8) with true in L2 by lia.
  by rewrite andb_true_r in L2.
Qed.

(** For a non-zero 32-bit argument, signed or unsigned, the result is one more
    than the index of the lowest bit set. *)
Lemma ffs_spec value :
  - 2 ^ 31 <= value < 2 ^ 32 -> value <> 0 ->
  1 <= __rt_ffs value <= 32 /\ lowest_set value (__rt_ffs value - 1).
Proof.
  intros Hr Hnz. unfold __rt_ffs. destruct (Z.eqb_spec value 0); [done|].
  pose proof (byte_at_zero value 0 ltac:(lia)) as Z0. pose proof (byte_at_zero value 8 ltac:(lia)) as Z8.
  pose proof (byte_at_zero value 16 ltac:(lia)) as Z16. pose proof (byte_at_zero value 24 ltac:(lia)) as Z24.
  change (Z.shiftl 255 0) with 255 in Z0. change (Z.shiftl 255 8) with 65280 in Z8.
  change (Z.shiftl 255 16) with 16711680 in Z16. change (Z.shiftl 255 24) with 4278190080 in Z24.
  destruct (Z.eqb_spec (Z.land value 255) 0) as [E0|E0]; simpl.
  2: { destruct (lowest_set_byte value 0) as [L B]; [lia|done|lia|].
       unfold byte_at in *. change (Z.shiftl 255 0) with 255 in *. rewrite Z.shiftr_0_r in *.
       replace (_ + 1 - 1) with (lowest_bit (Z.land value 255) + 0) by lia. split; [lia|done]. }
  destruct (Z.eqb_spec (Z.land value 65280) 0) as [E8|E8]; simpl.
  2: { destruct (lowest_set_byte value 8) as [L B]; [lia|done|intros; apply Z0; lia|].
       unfold byte_at in *. change (Z.shiftl 255 8) with 65280 in *.
       replace (_ + 9 - 1) with (lowest_bit (Z.shiftr (Z.land value 65280) 8) + 8) by lia. split; [lia|done]. }
  assert (forall m, 0 <= m < 16 -> Z.testbit value m = false) as L16.
  { intros m Hm. destruct (Z_lt_ge_dec m 8); [apply Z0; lia|apply Z8; lia]. }
  destruct (Z.eqb_spec (Z.land value 16711680) 0) as [E16|E16]; simpl.
  2: { destruct (lowest_set_byte value 16) as [L B]; [lia|done|done|].
       unfold byte_at in *. change (Z.shiftl 255 16) with 16711680 in *.
       replace (_ + 17 - 1) with (lowest_bit (Z.shiftr (Z.land value 16711680) 16) + 16) by lia. split; [lia|done]. }
  assert (forall m, 0 <= m < 24 -> Z.testbit value m = false) as L24.
  { intros m Hm. destruct (Z_lt_ge_dec m 16); [apply L16; lia|apply Z16; lia]. }
  destruct (lowest_set_byte value 24) as [L B]; [lia| |done|].
  { change (Z.shiftl 255 24) with 4278190080. intros E24. apply Hnz.
    assert (value mod 2 ^ 32 = 0) as Hm.
    { apply Z.bits_inj'. intros i Hi. rewrite Z.bits_0.
      destruct (Z_lt_ge_dec i 32); [|apply Z.mod_pow2_bits_high; lia].
      rewrite Z.mod_pow2_bits_low by lia.
      destruct (Z_lt_ge_dec i 24); [apply L24; lia|apply Z24; lia]. }
    apply Z.mod_divide in Hm; [|lia]. destruct Hm as [q Hq]. lia. }
  unfold byte_at in *. change (Z.shiftl 255 24) with 4278190080 in *.
  replace (_ + 25 - 1) with (lowest_bit (Z.shiftr (Z.land value 4278190080) 24) + 24) by lia.
  split; [lia|done].
Qed.

(** The scheduler passes an unsigned group: the conversion to [int] does not
    change the answer. *)
Lemma ffs_u32 g : 0 < g < 2 ^ 32 -> 1 <= __rt_ffs (s32 g) <= 32 /\ lowest_set g (__rt_ffs (s32 g) - 1).
Proof.
  intros Hg. pose proof (swrap_range 32 g ltac:(lia)).
  assert (s32 g mod 2 ^ 32 = g) as E.
  { unfold swrap. rewrite (Z.mod_small g) by lia. destruct (g <? 2 ^ (32 - 1)).
    - apply Z.mod_small. lia.
    - rewrite <- (Z.mod_add (g - 2 ^ 32) 1 (2 ^ 32)) by lia.
      replace (g - 2 ^ 32 + 1 * 2 ^ 32) with g by lia. apply Z.mod_small. lia. }
  destruct (ffs_spec (s32 g)) as [Hr (H0 & H1 & H2)]; [lia| |].
  { intros E0. rewrite E0, Z.mod_0_l in E; lia. }
  split; [done|]. rewrite <- E at 1. split; [done|].
  split; [|intros m Hm]; rewrite Z.mod_pow2_bits_low by lia; [done|by apply H2].
Qed.

(** C33: [__rt_ffs] with its table of 256 entries is find-first-set: 0 for 0, and
    otherwise one more than the index of the lowest bit set, for every 32-bit
    argument, also a group whose conversion to [int] is negative. *)
Theorem rt_ffs_correct g :
  0 <= g < 2 ^ 32 ->
  (g = 0 -> __rt_ffs (s32 g) = 0) /\
  (g <> 0 -> 1 <= __rt_ffs (s32 g) <= 32 /\ Z.testbit g (__rt_ffs (s32 g) - 1) = true /\
     forall m, 0 <= m < __rt_ffs (s32 g) - 1 -> Z.testbit g m = false).
Proof.
  intros Hg. split; [by intros ->|]. intros Hnz.
  destruct (ffs_u32 g ltac:(lia)) as [Hr (_ & H1 & H2)]. done.
Qed.
