(* ===== verification/Memory.v ===== *)
(** * Byte memory

    Memory as a map from addresses to bytes, with the byte and (little endian)
    word accesses the library functions make.  An access outside the map is a
    fault. *)
From stdpp Require Import base tactics numbers list gmap.
From S2P Require Import Prelude.
Local Open Scope Z_scope.

Abbreviation mem := (gmap Z Z).

Definition rd8 (p : Z) : M mem Z := m ← get; opt BadPointer (m !! p).
Definition wr8 (p v : Z) : M mem unit :=
  m ← get; opt BadPointer (m !! p);; modify (<[p := u8 v]>).

Definition rd32 (p : Z) : M mem Z :=
  b0 ← rd8 p; b1 ← rd8 (p + 1); b2 ← rd8 (p + 2); b3 ← rd8 (p + 3);
  mret (b0 + Z.shiftl b1 8 + Z.shiftl b2 16 + Z.shiftl b3 24).
Definition wr32 (p v : Z) : M mem unit :=
  wr8 p v;; wr8 (p + 1) (Z.shiftr v 8);; wr8 (p + 2) (Z.shiftr v 16);; wr8 (p + 3) (Z.shiftr v 24).

(** The bytes of [p, p + n) exist. *)
Definition mapped (m : mem) (p n : Z) : Prop := forall a, p <= a < p + n -> is_Some (m !! a).
(** Memory holds bytes. *)
Definition mem_ok (m : mem) : Prop := forall a b, m !! a = Some b -> 0 <= b < 256.

(** [m'] is [m] with the [n] bytes from [p] given by [f]. *)
Definition written (m m' : mem) (p n : Z) (f : Z -> option Z) : Prop :=
  forall a, m' !! a = if decide (p <= a < p + n) then f (a - p) else m !! a.

Lemma wp_rd8 m p b (Q : Z -> mem -> Prop) : m !! p = Some b -> Q b m -> wp (rd8 p) Q m.
Proof. intros E HQ. unfold rd8. do 2 wp_step. by eapply wp_opt. Qed.

Lemma wp_wr8 m p v (Q : unit -> mem -> Prop) :
  is_Some (m !! p) -> Q tt (<[p := u8 v]> m) -> wp (wr8 p v) Q m.
Proof. intros [b E] HQ. unfold wr8. do 3 wp_step. eapply wp_opt; [done|]. by wp_step. Qed.

Lemma mapped_insert m p n a v : mapped m p n -> mapped (<[a := v]> m) p n.
Proof. intros Hm x Hx. destruct (decide (x = a)) as [->|]; simplify_map_eq; eauto. Qed.

(** A little endian word holds its four bytes. *)
Definition word_byte (v i : Z) : Z := Z.land (Z.shiftr v (8 * i)) 0xff.

Lemma u8_land v : u8 v = Z.land v 0xff.
Proof. change 0xff with (Z.ones 8). by rewrite Z.land_ones. Qed.

Lemma word_byte_bytes b0 b1 b2 b3 i :
  0 <= b0 < 256 -> 0 <= b1 < 256 -> 0 <= b2 < 256 -> 0 <= b3 < 256 -> 0 <= i < 4 ->
  word_byte (b0 + Z.shiftl b1 8 + Z.shiftl b2 16 + Z.shiftl b3 24) i =
  (if decide (i = 0) then b0 else if decide (i = 1) then b1 else if decide (i = 2) then b2 else b3).
Proof.
  intros H0 H1 H2 H3 Hi. unfold word_byte. rewrite !Z.shiftl_mul_pow2 by lia.
  rewrite <- u8_land. unfold uwrap. rewrite Z.shiftr_div_pow2 by lia.
  assert (i = 0 \/ i = 1 \/ i = 2 \/ i = 3) as [E|[E|[E|E]]] by lia; subst i; simpl Z.mul; cbn [Z.pow Z.pow_pos Pos.iter Z.mul].
  all: repeat case_decide; try lia.
  all: Z.to_euclidean_division_equations; lia.
Qed.

Lemma wp_wr32 m p v (Q : unit -> mem -> Prop) :
  mapped m p 4 ->
  (forall m', written m m' p 4 (fun i => Some (word_byte v i)) -> Q tt m') ->
  wp (wr32 p v) Q m.
Proof.
  intros Hm HQ. unfold wr32.
  assert (forall m' : mem, (forall a, is_Some (m !! a) -> is_Some (m' !! a)) ->
            forall i, 0 <= i < 4 -> is_Some (m' !! (p + i))) as Hi.
  { intros m' Hm' i Hi. apply Hm', Hm. lia. }
  assert (forall (m' : mem) a b, is_Some (m' !! b) -> forall w, is_Some (<[a := w]> m' !! b)) as Hins.
  { intros m' a b Hb w. destruct (decide (a = b)) as [<-|]; simplify_map_eq; eauto. }
  wp_step; apply wp_wr8; [apply Hm; lia|].
  do 2 (wp_step; apply wp_wr8; [apply Hi; [eauto|lia]|]). apply wp_wr8; [apply Hi; [eauto 6|lia]|].
  apply HQ. intros a. rewrite !lookup_insert. unfold word_byte. rewrite !u8_land.
  case_decide as Ha; repeat (case_decide; [subst|]); try lia; try done.
  - by replace (p + 3 - p) with 3 by lia.
  - by replace (p + 2 - p) with 2 by lia.
  - by replace (p + 1 - p) with 1 by lia.
  - by rewrite Z.sub_diag, Z.shiftr_0_r.
Qed.

Lemma wp_rd32 m p (Q : Z -> mem -> Prop) :
  mapped m p 4 -> mem_ok m ->
  (forall v, (forall i, 0 <= i < 4 -> Some (word_byte v i) = m !! (p + i)) -> Q v m) ->
  wp (rd32 p) Q m.
Proof.
  intros Hm Hok HQ. unfold rd32.
  destruct (Hm p) as [b0 E0]; [lia|]. destruct (Hm (p + 1)) as [b1 E1]; [lia|].
  destruct (Hm (p + 2)) as [b2 E2]; [lia|]. destruct (Hm (p + 3)) as [b3 E3]; [lia|].
  do 4 (wp_step; eapply wp_rd8; [done|]). wp_step. apply HQ. intros i Hi.
  rewrite word_byte_bytes; [|by eapply Hok..|done].
  repeat case_decide; subst; rewrite ?Z.add_0_r; [done..|]. by replace (p + i) with (p + 3) by lia.
Qed.

Lemma written_refl m p f : written m m p 0 f.
Proof. intros a. by case_decide; [lia|]. Qed.

(** Two adjacent writes are one. *)
Lemma written_app m m1 m2 p n1 n2 f f1 f2 :
  written m m1 p n1 f1 -> written m1 m2 (p + n1) n2 f2 -> 0 <= n1 -> 0 <= n2 ->
  (forall i, 0 <= i < n1 -> f1 i = f i) -> (forall i, 0 <= i < n2 -> f2 i = f (n1 + i)) ->
  written m m2 p (n1 + n2) f.
Proof.
  intros H1 H2 Hn1 Hn2 E1 E2 a. rewrite H2.
  repeat case_decide; try lia.
  - rewrite E2 by lia. f_equal. lia.
  - rewrite H1, decide_True by lia. apply E1. lia.
  - rewrite H1, decide_False by lia. done.
Qed.

Lemma written_mapped m m' p n f q k :
  written m m' p n f -> mapped m q k -> (forall i, 0 <= i < n -> is_Some (f i)) -> mapped m' q k.
Proof. intros Hw Hm Hf a Ha. rewrite Hw. case_decide; [apply Hf; lia|by apply Hm]. Qed.

(** ** Runs of bytes *)

(** The [n] bytes from [p], if they all exist. *)
Fixpoint read_bytes (m : mem) (p : Z) (n : nat) : option (list Z) :=
  match n with
  | O => Some []
  | S n' => b ← m !! p; l ← read_bytes m (p + 1) n'; Some (b :: l)
  end.

Fixpoint write_bytes (m : mem) (p : Z) (l : list Z) : mem :=
  match l with
  | [] => m
  | b :: l' => <[p := b]> (write_bytes m (p + 1) l')
  end.

Lemma read_bytes_length m p n l : read_bytes m p n = Some l -> length l = n.
Proof.
  revert p l. induction n as [|n IH]; intros p l E; simpl in E; [by simplify_eq|].
  destruct (m !! p); [|done]. simpl in E. destruct (read_bytes m (p + 1) n) eqn:E1; [|done].
  simplify_eq/=. f_equal. eauto.
Qed.

Lemma read_bytes_lookup m p n l (i : nat) :
  read_bytes m p n = Some l -> (i < n)%nat -> m !! (p + Z.of_nat i) = l !! i.
Proof.
  revert p l i. induction n as [|n IH]; intros p l i E Hi; [lia|]. simpl in E.
  destruct (m !! p) eqn:Ep; [|done]. simpl in E.
  destruct (read_bytes m (p + 1) n) eqn:E1; [|done]. simplify_eq/=.
  destruct i as [|i]; [by rewrite Z.add_0_r|]. simpl. rewrite <- (IH _ _ _ E1) by lia. f_equal. lia.
Qed.

Lemma read_bytes_mapped m p n l : read_bytes m p n = Some l -> mapped m p (Z.of_nat n).
Proof.
  intros E a Ha. replace a with (p + Z.of_nat (Z.to_nat (a - p))) by lia.
  rewrite (read_bytes_lookup _ _ _ _ _ E) by lia. apply lookup_lt_is_Some.
  rewrite (read_bytes_length _ _ _ _ E). lia.
Qed.

(** The bytes are determined by the lookups. *)
Lemma read_bytes_intro m p l :
  (forall i b, l !! i = Some b -> m !! (p + Z.of_nat i) = Some b) ->
  read_bytes m p (length l) = Some l.
Proof.
  revert p. induction l as [|b l IH]; intros p Hl; [done|]. simpl.
  pose proof (Hl 0%nat b eq_refl) as E. rewrite Z.add_0_r in E. rewrite E. simpl.
  rewrite IH; [done|]. intros i c Hi. rewrite <- (Hl (S i) c Hi). f_equal. lia.
Qed.

Lemma read_bytes_take m p n l (k : nat) :
  read_bytes m p n = Some l -> (k <= n)%nat -> read_bytes m p k = Some (take k l).
Proof.
  intros E Hk. pose proof (read_bytes_length _ _ _ _ E).
  replace k with (length (take k l)) at 1 by (rewrite length_take; lia).
  apply read_bytes_intro. intros i b Hi. apply lookup_take_Some in Hi as [Hi ?].
  by rewrite (read_bytes_lookup _ _ _ _ _ E) by lia.
Qed.

Lemma read_bytes_drop m p n l (k : nat) :
  read_bytes m p n = Some l -> (k <= n)%nat ->
  read_bytes m (p + Z.of_nat k) (n - k) = Some (drop k l).
Proof.
  intros E Hk. pose proof (read_bytes_length _ _ _ _ E).
  replace (n - k)%nat with (length (drop k l)) by (rewrite length_drop; lia).
  apply read_bytes_intro. intros i b Hi. rewrite lookup_drop in Hi.
  rewrite <- Hi, <- (read_bytes_lookup _ _ _ _ (k + i) E); [f_equal; lia|].
  apply lookup_lt_Some in Hi. lia.
Qed.

Lemma lookup_write_bytes m p l a :
  write_bytes m p l !! a =
  if decide (p <= a < p + Z.of_nat (length l)) then l !! Z.to_nat (a - p) else m !! a.
Proof.
  revert p. induction l as [|b l IH]; intros p; simpl; [by case_decide; [lia|]|].
  rewrite lookup_insert, IH. repeat case_decide; subst; try lia; try done.
  - by rewrite Z.sub_diag.
  - replace (Z.to_nat (a - p)) with (S (Z.to_nat (a - (p + 1)))) by lia. done.
Qed.

Lemma write_bytes_ok m p l :
  mem_ok m -> Forall (fun b => 0 <= b < 256) l -> mem_ok (write_bytes m p l).
Proof.
  intros Hm Hl a b. rewrite lookup_write_bytes. case_decide; [|apply Hm].
  intros Hb. exact (Forall_lookup_1 _ _ _ _ Hl Hb).
Qed.

Lemma read_bytes_ok m p n l :
  mem_ok m -> read_bytes m p n = Some l -> Forall (fun b => 0 <= b < 256) l.
Proof.
  intros Hm E. apply Forall_lookup. intros i b Hi. apply (Hm (p + Z.of_nat i)).
  rewrite (read_bytes_lookup _ _ _ _ _ E); [done|].
  rewrite <- (read_bytes_length _ _ _ _ E). by eapply lookup_lt_Some.
Qed.

Lemma mapped_write_bytes m p l q n : mapped m q n -> mapped (write_bytes m p l) q n.
Proof.
  intros Hm a Ha. rewrite lookup_write_bytes. case_decide; [|by apply Hm].
  apply lookup_lt_is_Some. lia.
Qed.
