(* ===== verification/KString.v ===== *)
(** * Memory and string functions of the kernel library (src/kservice.c)

    The routines that replace the C library, on byte memory.  [rt_memset] and
    [rt_memcpy] are the word-at-a-time versions (RT_TINY_SIZE is not defined).  A
    plain [char] is unsigned, as on the ARM ports; the fuel of each loop is the
    number of bytes it may handle, plus one. *)
From stdpp Require Import base tactics numbers list gmap.
From S2P Require Import Prelude Memory.
Local Open Scope Z_scope.

(** ** Memory *)

Section memset.
Context (fuel : nat) (buffer : Z).

(** [while (count >= LBLOCKSIZE * 4)] *)
Definition memset_blocks : Z * Z -> M mem (Z * Z) :=
  while fuel (fun '(_, count) => mret (16 <=? count)) (fun '(p, count) =>
    wr32 p buffer;; wr32 (p + 4) buffer;; wr32 (p + 8) buffer;; wr32 (p + 12) buffer;;
    mret (p + 16, count - 16)).
(** [while (count >= LBLOCKSIZE)] *)
Definition memset_words : Z * Z -> M mem (Z * Z) :=
  while fuel (fun '(_, count) => mret (4 <=? count)) (fun '(p, count) =>
    wr32 p buffer;; mret (p + 4, count - 4)).
(** [while (count--)] *)
Definition memset_bytes (d : Z) : Z * Z -> M mem (Z * Z) :=
  while fuel (fun '(_, count) => mret (negb (count =? 0))) (fun '(p, count) =>
    wr8 p d;; mret (p + 1, count - 1)).
End memset.

Definition rt_memset (s c count : Z) : M mem Z :=
  let fuel := S (Z.to_nat count) in
  let d := Z.land c 0xff in
  st ← (if negb (count <? 4) && (Z.land s 3 =? 0) then
          let buffer := Z.lor (Z.shiftl d 8) d in
          let buffer := Z.lor buffer (u32 (Z.shiftl buffer 16)) in
          memset_blocks fuel buffer (s, count) ≫= memset_words fuel buffer
        else mret (s, count));
  memset_bytes fuel d st;;
  mret s.

Section memcpy.
Context (fuel : nat).

Definition copy_word (d s : Z) : M mem unit := v ← rd32 s; wr32 d v.
Definition copy_byte (d s : Z) : M mem unit := v ← rd8 s; wr8 d v.

(** [while (len >= BIGBLOCKSIZE)] *)
Definition memcpy_blocks : Z * Z * Z -> M mem (Z * Z * Z) :=
  while fuel (fun '(_, _, len) => mret (16 <=? u32 len)) (fun '(d, s, len) =>
    copy_word d s;; copy_word (d + 4) (s + 4);; copy_word (d + 8) (s + 8);;
    copy_word (d + 12) (s + 12);; mret (d + 16, s + 16, s32 (len - 16))).
(** [while (len >= LITTLEBLOCKSIZE)] *)
Definition memcpy_words : Z * Z * Z -> M mem (Z * Z * Z) :=
  while fuel (fun '(_, _, len) => mret (4 <=? u32 len)) (fun '(d, s, len) =>
    copy_word d s;; mret (d + 4, s + 4, s32 (len - 4))).
(** [while (len--)], the forward byte copy (also the one of [rt_memmove]); with [s32] the
    [int] counter of [rt_memcpy] wraps around below INT_MIN, as it does on the targets (a
    count of more than 2^31 bytes is the only case). *)
Definition copy_forward (step : Z -> Z) : Z * Z * Z -> M mem (Z * Z * Z) :=
  while fuel (fun '(_, _, len) => mret (negb (len =? 0))) (fun '(d, s, len) =>
    copy_byte d s;; mret (d + 1, s + 1, step (len - 1))).
(** [while (n--) *(--tmp) = *(--s)] *)
Definition copy_backward : Z * Z * Z -> M mem (Z * Z * Z) :=
  while fuel (fun '(_, _, n) => mret (negb (n =? 0))) (fun '(d, s, n) =>
    copy_byte (d - 1) (s - 1);; mret (d - 1, s - 1, n - 1)).
End memcpy.

(** [int len = count], compared with unsigned constants. *)
Definition rt_memcpy (dst src count : Z) : M mem Z :=
  let fuel := S (Z.to_nat count) in
  let len := s32 count in
  st ← (if negb (u32 len <? 16) && (Z.lor (Z.land src 3) (Z.land dst 3) =? 0) then
          memcpy_blocks fuel (dst, src, len) ≫= memcpy_words fuel
        else mret (dst, src, len));
  copy_forward fuel s32 st;;
  mret dst.

Definition rt_memmove (dest src n : Z) : M mem Z :=
  let fuel := S (Z.to_nat n) in
  (if (src <? dest) && (dest <? src + n)
   then copy_backward fuel (dest + n, src + n, n)
   else copy_forward fuel id (dest, src, n));;
  mret dest.

(** The loop-carried variables are [su1], [su2], [count], [res] and whether the
    loop was left by [break]. *)
Definition rt_memcmp (cs ct count : Z) : M mem Z :=
  r ← while (S (Z.to_nat count))
    (fun '(_, _, count, _, stop) => mret (negb stop && (0 <? count)))
    (fun '(su1, su2, count, res, _) =>
      a ← rd8 su1; b ← rd8 su2;
      if negb (a - b =? 0) then mret (su1, su2, count, a - b, true)
      else mret (su1 + 1, su2 + 1, count - 1, a - b, false))
    (cs, ct, count, 0, false);
  let '(_, _, _, res, _) := r in mret res.

(** ** Strings: a fuel of [fuel] bytes bounds the scan of a string *)

Definition rt_strlen (fuel : nat) (s : Z) : M mem Z :=
  sc ← while fuel (fun sc => c ← rd8 sc; mret (negb (c =? 0))) (fun sc => mret (sc + 1)) s;
  mret (u32 (sc - s)).

Definition rt_strstr (fuel : nat) (s1 s2 : Z) : M mem Z :=
  l2 ← rt_strlen fuel s2;
  if l2 =? 0 then mret s1
  else
    l1 ← rt_strlen fuel s1;
    r ← while fuel
      (fun '(_, l1, found) => mret (negb found && (l2 <=? l1)))
      (fun '(s1, l1, _) =>
        c ← rt_memcmp s1 s2 l2;
        if c =? 0 then mret (s1, l1 - 1, true) else mret (s1 + 1, l1 - 1, false))
      (s1, l1, false);
    let '(p, _, found) := r in mret (if found : bool then p else RT_NULL).

Definition tolower (c : Z) : Z := if (65 <=? c) && (c <=? 90) then c + (97 - 65) else c.

(** [do ... while (ca == cb && ca != '\0')] *)
Fixpoint rt_strcasecmp (fuel : nat) (a b : Z) : M mem Z :=
  match fuel with
  | O => throw OutOfFuel
  | S fuel' =>
      va ← rd8 a; vb ← rd8 b;
      let ca := tolower (Z.land va 0xff) in
      let cb := tolower (Z.land vb 0xff) in
      if (ca =? cb) && negb (ca =? 0) then rt_strcasecmp fuel' (a + 1) (b + 1)
      else mret (u32 (ca - cb))
  end.

(** [while (--n != 0) *d++ = 0] *)
Fixpoint strncpy_pad (n : nat) (d : Z) : M mem unit :=
  match n with
  | O => mret tt
  | S n' => wr8 d 0;; strncpy_pad n' (d + 1)
  end.
(** [do { if (( *d++ = *s++ ) == 0) ... } while (--n != 0)] *)
Fixpoint strncpy_loop (n : nat) (d s : Z) : M mem unit :=
  match n with
  | O => mret tt
  | S n' =>
      c ← rd8 s; wr8 d c;;
      if c =? 0 then strncpy_pad n' (d + 1) else strncpy_loop n' (d + 1) (s + 1)
  end.
Definition rt_strncpy (dst src : Z) (n : nat) : M mem Z :=
  strncpy_loop n dst src;; mret dst.

(** [__res] is a [signed char]; the result is converted to [rt_ubase_t]. *)
Fixpoint strncmp_loop (count : nat) (cs ct res : Z) : M mem Z :=
  match count with
  | O => mret res
  | S count' =>
      a ← rd8 cs; b ← rd8 ct;
      let res := s8 (a - b) in
      if negb (res =? 0) || (a =? 0) then mret res
      else strncmp_loop count' (cs + 1) (ct + 1) res
  end.
Definition rt_strncmp (cs ct : Z) (count : nat) : M mem Z :=
  r ← strncmp_loop count cs ct 0; mret (u32 r).

(** [while ( *cs && *cs == *ct) cs++, ct++; return ( *cs - *ct)] *)
Fixpoint rt_strcmp (fuel : nat) (cs ct : Z) : M mem Z :=
  match fuel with
  | O => throw OutOfFuel
  | S fuel' =>
      a ← rd8 cs;
      if negb (a =? 0) then
        b ← rd8 ct;
        if a =? b then rt_strcmp fuel' (cs + 1) (ct + 1) else mret (u32 (a - b))
      else b ← rd8 ct; mret (u32 (a - b))
  end.

(** ** [rt_memset] is a bytewise fill *)

Lemma memset_buffer d i :
  0 <= d < 256 -> 0 <= i < 4 ->
  word_byte (Z.lor (Z.lor (Z.shiftl d 8) d) (u32 (Z.shiftl (Z.lor (Z.shiftl d 8) d) 16))) i = d.
Proof.
  intros Hd Hi.
  assert (forallb (fun d => forallb (fun i => word_byte (Z.lor (Z.lor (Z.shiftl d 8) d)
    (u32 (Z.shiftl (Z.lor (Z.shiftl d 8) d) 16))) i =? d) (seqZ 0 4)) (seqZ 0 256) = true) as HT
    by (vm_compute; reflexivity).
  rewrite forallb_forall in HT. specialize (HT d). rewrite forallb_forall in HT.
  apply Z.eqb_eq, HT; apply list_elem_of_In, elem_of_seqZ; lia.
Qed.

Section memset_proof.
Context (m0 : mem) (s count d : Z).
Context (Hmap : mapped m0 s count) (Hd : 0 <= d < 256).

(** [p - s] bytes are done and [k] remain. *)
Definition filled (st : Z * Z) (m : mem) : Prop :=
  let '(p, k) := st in
  0 <= k /\ s <= p /\ p + k = s + count /\ written m0 m s (p - s) (fun _ => Some d).

Lemma filled_mapped p k m n : filled (p, k) m -> n <= k -> mapped m p n.
Proof.
  intros (Hk & Hp & E & Hw) Hn a Ha. rewrite Hw. case_decide; [done|]. apply Hmap. lia.
Qed.

Lemma filled_extend p k m m' n :
  filled (p, k) m -> 0 <= n <= k -> written m m' p n (fun _ => Some d) -> filled (p + n, k - n) m'.
Proof.
  intros (Hk & Hp & E & Hw) Hn Hw'. split_and!; try lia.
  replace (p + n - s) with ((p - s) + n) by lia.
  eapply written_app; [done|by replace (s + (p - s)) with p by lia|lia|lia|done|done].
Qed.

Lemma memset_bytes_spec fuel p k m (Q : Z * Z -> mem -> Prop) :
  filled (p, k) m -> (Z.to_nat k < fuel)%nat ->
  (forall m' q, filled (q, 0) m' -> Q (q, 0) m') -> wp (memset_bytes fuel d (p, k)) Q m.
Proof.
  intros Hf Hfuel HQ. unfold memset_bytes.
  apply (wp_while filled (fun st _ => Z.to_nat st.2)); [done|done|].
  intros [q j] m1 Hf1. wp_step. destruct (Z.eqb_spec j 0) as [->|Hj]; [by apply HQ|]. simpl.
  pose proof Hf1 as (? & ? & ? & ?).
  wp_step. apply wp_wr8; [eapply (filled_mapped _ _ _ 1); [done|lia|lia]|]. wp_step. simpl.
  split; [|lia]. eapply filled_extend; [done|lia|].
  intros a. rewrite lookup_insert. repeat case_decide; try lia; [|done].
  by rewrite uwrap_small.
Qed.

Context (buffer : Z) (Hbuf : forall i, 0 <= i < 4 -> word_byte buffer i = d).

Lemma memset_word_spec p k m (Q : unit -> mem -> Prop) :
  filled (p, k) m -> 4 <= k -> (forall m', filled (p + 4, k - 4) m' -> Q tt m') ->
  wp (wr32 p buffer) Q m.
Proof.
  intros Hf Hk HQ. apply wp_wr32; [by eapply filled_mapped|]. intros m' Hw. apply HQ.
  eapply filled_extend; [done|lia|]. intros a. rewrite Hw. case_decide; [|done].
  by rewrite Hbuf by lia.
Qed.

Lemma memset_words_spec fuel p k m (Q : Z * Z -> mem -> Prop) :
  filled (p, k) m -> (Z.to_nat k < fuel)%nat ->
  (forall m' q j, filled (q, j) m' -> j <= k -> Q (q, j) m') -> wp (memset_words fuel buffer (p, k)) Q m.
Proof.
  intros Hf Hfuel HQ. unfold memset_words.
  apply (wp_while (fun st m => filled st m /\ st.2 <= k) (fun st _ => Z.to_nat st.2));
    [split; [done|simpl; lia]|done|].
  intros [q j] m1 [Hf1 Hle]. simpl in Hle. wp_step. destruct (Z.leb_spec 4 j) as [Hj|Hj]; [|by apply HQ].
  wp_step. eapply memset_word_spec; [done..|]. intros m' Hf'. wp_step.
  split; [split; [done|simpl; lia]|simpl; lia].
Qed.

Lemma memset_blocks_spec fuel p k m (Q : Z * Z -> mem -> Prop) :
  filled (p, k) m -> (Z.to_nat k < fuel)%nat ->
  (forall m' q j, filled (q, j) m' -> j <= k -> Q (q, j) m') -> wp (memset_blocks fuel buffer (p, k)) Q m.
Proof.
  intros Hf Hfuel HQ. unfold memset_blocks.
  apply (wp_while (fun st m => filled st m /\ st.2 <= k) (fun st _ => Z.to_nat st.2));
    [split; [done|simpl; lia]|done|].
  intros [q j] m1 [Hf1 Hle]. simpl in Hle. wp_step. destruct (Z.leb_spec 16 j) as [Hj|Hj]; [|by apply HQ].
  wp_step. eapply memset_word_spec; [done|lia|]. intros m2 Hf2.
  wp_step. eapply memset_word_spec; [done|lia|]. intros m3 Hf3.
  replace (q + 4 + 4) with (q + 8) in Hf3 by lia. replace (j - 4 - 4) with (j - 8) in Hf3 by lia.
  wp_step. eapply memset_word_spec; [done|lia|]. intros m4 Hf4.
  replace (q + 8 + 4) with (q + 12) in Hf4 by lia. replace (j - 8 - 4) with (j - 12) in Hf4 by lia.
  wp_step. eapply memset_word_spec; [done|lia|]. intros m5 Hf5.
  replace (q + 12 + 4) with (q + 16) in Hf5 by lia. replace (j - 12 - 4) with (j - 16) in Hf5 by lia.
  wp_step. split; [split; [done|simpl; lia]|simpl; lia].
Qed.
End memset_proof.

Lemma rt_memset_spec m s c count :
  0 <= count -> mapped m s count ->
  wp (rt_memset s c count) (fun r m' => r = s /\ written m m' s count (fun _ => Some (u8 c))) m.
Proof.
  intros Hc Hm. unfold rt_memset. rewrite <- u8_land. set (d := u8 c).
  assert (0 <= d < 256) as Hd by (apply (uwrap_range 8); lia).
  assert (filled m s count d (s, count) m) as Hf.
  { split_and!; try lia. rewrite Z.sub_diag. apply written_refl. }
  set (fuel := S (Z.to_nat count)).
  assert (forall q j m', filled m s count d (q, j) m' -> j <= count ->
    wp (memset_bytes fuel d (q, j);; mret s)
       (fun r m' => r = s /\ written m m' s count (fun _ => Some d)) m') as Htail.
  { intros q j m' Hf' Hj. pose proof Hf' as (? & ? & ? & ?).
    wp_step. eapply memset_bytes_spec; [done|done|done|unfold fuel; lia|].
    intros m'' q' (? & ? & ? & Hw). wp_step. split; [done|].
    by replace count with (q' - s) by lia. }
  wp_step. destruct (negb _ && _); [|wp_step; by apply Htail].
  wp_step. eapply memset_blocks_spec; [done| |done|unfold fuel; lia|];
    [intros i Hi; by apply memset_buffer|]. intros m1 q j Hf1 Hj.
  eapply memset_words_spec; [done| |done|pose proof Hf1 as (? & ? & ? & ?); unfold fuel; lia|];
    [intros i Hi; by apply memset_buffer|]. intros m2 q' j' Hf2 Hj'. apply Htail; [done|lia].
Qed.

(** ** [rt_memcpy] and [rt_memmove] copy the source *)

Section copy_proof.
Context (m0 : mem) (dst src count : Z).
Context (Hok : mem_ok m0) (Hcount : 0 <= count) (Hmd : mapped m0 dst count) (Hms : mapped m0 src count).

(** The first [i] bytes are copied. *)
Definition copied (m : mem) (i : Z) : Prop := written m0 m dst i (fun j => m0 !! (src + j)).

Lemma copied_ok m i : i <= count -> copied m i -> mem_ok m.
Proof.
  intros Hi Hc a b. rewrite Hc. case_decide; [|apply Hok].
  by apply Hok.
Qed.

Lemma copied_mapped m i q n : i <= count -> copied m i -> mapped m0 q n -> mapped m q n.
Proof.
  intros Hi Hc Hm a Ha. rewrite Hc. case_decide; [apply Hms; lia|by apply Hm].
Qed.

Lemma copied_extend m m' i n :
  copied m i -> 0 <= i -> 0 <= n ->
  written m m' (dst + i) n (fun j => m0 !! (src + i + j)) -> copied m' (i + n).
Proof.
  intros Hc Hi Hn Hw. eapply written_app; [done|done|lia|lia|done|].
  intros j Hj. simpl. f_equal. lia.
Qed.

(** The bytes still to be read have not been overwritten. *)
Context (Hfw : dst <= src \/ src + count <= dst).

Lemma copied_src m i j : copied m i -> i <= j < count -> m !! (src + j) = m0 !! (src + j).
Proof. intros Hc Hj. rewrite Hc. case_decide; [lia|done]. Qed.

Lemma copy_byte_spec m i (Q : unit -> mem -> Prop) :
  copied m i -> 0 <= i < count -> (forall m', copied m' (i + 1) -> Q tt m') ->
  wp (copy_byte (dst + i) (src + i)) Q m.
Proof.
  intros Hc Hi HQ. unfold copy_byte. destruct (Hms (src + i)) as [b Eb]; [lia|].
  wp_step. eapply wp_rd8; [rewrite (copied_src m i i) by (done || lia); done|].
  apply wp_wr8; [apply (copied_mapped m i (dst + i) 1); try lia; [done|intros a Ha; apply Hmd; lia]|].
  apply HQ. eapply copied_extend; [done|lia|lia|]. intros a. rewrite lookup_insert.
  repeat case_decide; try lia; [|done].
  rewrite uwrap_small by (by apply Hok in Eb). rewrite <- Eb. f_equal. lia.
Qed.

Lemma copy_word_spec m i (Q : unit -> mem -> Prop) :
  copied m i -> 0 <= i -> i + 4 <= count -> (forall m', copied m' (i + 4) -> Q tt m') ->
  wp (copy_word (dst + i) (src + i)) Q m.
Proof.
  intros Hc Hi Hi4 HQ. unfold copy_word.
  wp_step. apply wp_rd32.
  { apply (copied_mapped m i); [lia|done|]. intros a Ha. apply Hms. lia. }
  { apply (copied_ok m i); [lia|done]. }
  intros v Hv. apply wp_wr32.
  { apply (copied_mapped m i); [lia|done|]. intros a Ha. apply Hmd. lia. }
  intros m' Hw. apply HQ. eapply copied_extend; [done|lia|lia|].
  intros a. rewrite Hw. case_decide; [|done]. rewrite Hv by lia. rewrite <- Z.add_assoc.
  apply (copied_src m i); [done|lia].
Qed.

(** The loop variables when [i] bytes are copied and [count - i] remain; [len]
    is the remaining count in the representation of the loop. *)
Definition copying (rep : Z -> Z) (st : Z * Z * Z) (m : mem) : Prop :=
  exists i, 0 <= i <= count /\ st = (dst + i, src + i, rep (count - i)) /\ copied m i.

Lemma copying_step rep i n m :
  0 <= i -> 0 <= n -> i + n <= count -> copied m (i + n) ->
  copying rep (dst + i + n, src + i + n, rep (count - i - n)) m.
Proof.
  intros Hi Hn Hle Hc. exists (i + n). split; [lia|]. split; [|done].
  by rewrite !Z.add_assoc, Z.sub_add_distr.
Qed.

Definition left_of (st : Z * Z * Z) (m : mem) : nat := Z.to_nat (dst + count - st.1.1).

Lemma copy_forward_spec rep fuel st m (Q : Z * Z * Z -> mem -> Prop) :
  (forall k, 0 <= k <= count -> rep k = 0 <-> k = 0) ->
  (forall k, 0 < k <= count -> rep (rep k - 1) = rep (k - 1)) ->
  copying rep st m -> (Z.to_nat count < fuel)%nat ->
  (forall st' m', copied m' count -> Q st' m') -> wp (copy_forward fuel rep st) Q m.
Proof.
  intros Hrep Hstep Hc Hfuel HQ. unfold copy_forward.
  apply (wp_while (copying rep) left_of); [done| |].
  { destruct Hc as (i & ? & -> & _). unfold left_of. simpl. lia. }
  intros st1 m1 (i & Hi & -> & Hc1). wp_step. destruct (Z.eqb_spec (rep (count - i)) 0) as [E|E].
  { apply HQ. rewrite Hrep in E by lia. by replace count with i by lia. }
  simpl. assert (i < count) by (destruct (decide (i = count)) as [->|]; [exfalso; apply E; rewrite Hrep; lia|lia]).
  wp_step. eapply copy_byte_spec; [done|lia|]. intros m2 Hc2. wp_step. split.
  - rewrite Hstep by lia. apply copying_step; [lia|lia|lia|done].
  - unfold left_of. simpl. lia.
Qed.

Context (Hc32 : count < 2 ^ 32).

Lemma rep_s32 k n : u32 (s32 k) = u32 k /\ s32 (s32 k - n) = s32 (k - n).
Proof.
  unfold swrap, uwrap. split.
  - case_match; [apply Zmod_mod|].
    rewrite <- (Z.mod_add _ 1) by lia.
    replace (k mod 2 ^ 32 - 2 ^ 32 + 1 * 2 ^ 32) with (k mod 2 ^ 32) by lia. apply Zmod_mod.
  - assert ((if k mod 2 ^ 32 <? 2 ^ (32 - 1) then k mod 2 ^ 32 else k mod 2 ^ 32 - 2 ^ 32) - n =
      k - n + (- (k / 2 ^ 32) - (if k mod 2 ^ 32 <? 2 ^ (32 - 1) then 0 else 1)) * 2 ^ 32) as ->.
    { pose proof (Z.div_mod k (2 ^ 32) ltac:(lia)). case_match; lia. }
    by rewrite Z.mod_add by lia.
Qed.

Lemma rep_zero k : 0 <= k <= count -> s32 k = 0 <-> k = 0.
Proof.
  intros Hk. destruct (rep_s32 k 0) as [E _]. split; [|by intros ->].
  intros E0. rewrite E0, (uwrap_small 32 k) in E by lia. symmetry. exact E.
Qed.

Lemma memcpy_words_spec fuel st m (Q : Z * Z * Z -> mem -> Prop) :
  copying s32 st m -> (Z.to_nat count < fuel)%nat ->
  (forall st' m', copying s32 st' m' -> Q st' m') -> wp (memcpy_words fuel st) Q m.
Proof.
  intros Hc Hfuel HQ. unfold memcpy_words.
  apply (wp_while (copying s32) left_of); [done| |].
  { destruct Hc as (i & ? & -> & _). unfold left_of. simpl. lia. }
  intros st1 m1 Hc1. pose proof Hc1 as (i & Hi & -> & Hci). wp_step.
  rewrite (proj1 (rep_s32 (count - i) 0)), uwrap_small by lia.
  destruct (Z.leb_spec 4 (count - i)); [|by apply HQ].
  wp_step. eapply copy_word_spec; [done|lia|lia|]. intros m2 Hc2. wp_step. split.
  - rewrite (proj2 (rep_s32 (count - i) 4)). apply copying_step; [lia|lia|lia|done].
  - unfold left_of. simpl. lia.
Qed.

Lemma memcpy_blocks_spec fuel st m (Q : Z * Z * Z -> mem -> Prop) :
  copying s32 st m -> (Z.to_nat count < fuel)%nat ->
  (forall st' m', copying s32 st' m' -> Q st' m') -> wp (memcpy_blocks fuel st) Q m.
Proof.
  intros Hc Hfuel HQ. unfold memcpy_blocks.
  apply (wp_while (copying s32) left_of); [done| |].
  { destruct Hc as (i & ? & -> & _). unfold left_of. simpl. lia. }
  intros st1 m1 Hc1. pose proof Hc1 as (i & Hi & -> & Hci). wp_step.
  rewrite (proj1 (rep_s32 (count - i) 0)), uwrap_small by lia.
  destruct (Z.leb_spec 16 (count - i)); [|by apply HQ].
  wp_step. eapply copy_word_spec; [done|lia|lia|]. intros m2 Hc2.
  wp_step. rewrite <- !Z.add_assoc. eapply copy_word_spec; [done|lia|lia|]. intros m3 Hc3.
  wp_step. replace (i + 8) with (i + 4 + 4) by lia. eapply copy_word_spec; [done|lia|lia|]. intros m4 Hc4.
  wp_step. replace (i + 12) with (i + 4 + 4 + 4) by lia. eapply copy_word_spec; [done|lia|lia|]. intros m5 Hc5.
  wp_step. split.
  - rewrite (proj2 (rep_s32 (count - i) 16)), !Z.add_assoc.
    apply copying_step; [lia|lia|lia|]. by replace (i + 16) with (i + 4 + 4 + 4 + 4) by lia.
  - unfold left_of. simpl. lia.
Qed.

Lemma rt_memcpy_spec :
  wp (rt_memcpy dst src count) (fun r m' => r = dst /\ copied m' count) m0.
Proof.
  unfold rt_memcpy. set (fuel := S (Z.to_nat count)).
  assert (copying s32 (dst, src, s32 count) m0) as Hc0.
  { exists 0. split; [lia|]. rewrite !Z.add_0_r, Z.sub_0_r. split; [done|]. apply written_refl. }
  assert (forall st m, copying s32 st m ->
    wp (copy_forward fuel s32 st;; mret dst) (fun r m' => r = dst /\ copied m' count) m) as Htail.
  { intros st m Hc. wp_step. eapply copy_forward_spec; [apply rep_zero| |done|unfold fuel; lia|].
    - intros k Hk. apply (rep_s32 k 1).
    - intros _ m' Hc'. by wp_step. }
  wp_step. destruct (negb _ && _); [|wp_step; by apply Htail].
  wp_step. apply memcpy_blocks_spec; [done|unfold fuel; lia|]. intros st1 m1 Hc1.
  apply memcpy_words_spec; [done|unfold fuel; lia|]. intros st2 m2 Hc2. by apply Htail.
Qed.
End copy_proof.

(** Copying backwards: the last [j] bytes are copied. *)
Section backward_proof.
Context (m0 : mem) (dst src n : Z).
Context (Hok : mem_ok m0) (Hmd : mapped m0 dst n) (Hms : mapped m0 src n) (Hlt : src < dst).

Definition copied_back (st : Z * Z * Z) (m : mem) : Prop :=
  exists k, 0 <= k <= n /\ st = (dst + k, src + k, k) /\
    written m0 m (dst + k) (n - k) (fun j => m0 !! (src + k + j)).

Lemma copy_backward_spec fuel st m (Q : Z * Z * Z -> mem -> Prop) :
  copied_back st m -> (Z.to_nat n < fuel)%nat ->
  (forall st' m', copied m0 dst src m' n -> Q st' m') -> wp (copy_backward fuel st) Q m.
Proof.
  intros Hc Hfuel HQ. unfold copy_backward.
  apply (wp_while copied_back (fun st _ => Z.to_nat st.2)); [done| |].
  { destruct Hc as (i & ? & -> & _). simpl. lia. }
  intros st1 m1 (k & Hk & -> & Hw). wp_step. destruct (Z.eqb_spec k 0) as [->|Hk0].
  { apply HQ. rewrite !Z.add_0_r, Z.sub_0_r in Hw. exact Hw. }
  simpl. wp_step. unfold copy_byte. destruct (Hms (src + k - 1)) as [b Eb]; [lia|].
  wp_step. eapply wp_rd8; [rewrite Hw, decide_False by lia; done|].
  apply wp_wr8; [rewrite Hw, decide_False by lia; apply Hmd; lia|]. wp_step. split; [|simpl; lia].
  exists (k - 1). split; [lia|]. split; [by rewrite !Z.add_sub_assoc|].
  intros a. rewrite lookup_insert. repeat case_decide; try lia.
  - rewrite uwrap_small by (by apply Hok in Eb). rewrite <- Eb. f_equal. lia.
  - rewrite Hw, decide_True by lia. f_equal. lia.
  - rewrite Hw, decide_False by lia. done.
Qed.
End backward_proof.

Lemma rt_memmove_spec m dst src n :
  mem_ok m -> 0 <= n -> mapped m dst n -> mapped m src n ->
  wp (rt_memmove dst src n) (fun r m' => r = dst /\ copied m dst src m' n) m.
Proof.
  intros Hok Hn Hmd Hms. unfold rt_memmove. wp_step.
  destruct ((src <? dst) && (dst <? src + n)) eqn:E.
  - apply (copy_backward_spec m dst src n); [done|done|done|lia| |lia|by intros; wp_step].
    exists n. split; [lia|]. split; [done|]. rewrite Z.sub_diag. apply written_refl.
  - apply (copy_forward_spec m dst src n); [done|done|done|done|lia|done|done| |lia|by intros; wp_step].
    exists 0. split; [lia|]. rewrite !Z.add_0_r, Z.sub_0_r. split; [done|]. apply written_refl.
Qed.

(** ** Strings *)

Local Coercion Z.of_nat : nat >-> Z.

(** The bytes [l] are at [p]. *)
Fixpoint bytes_at (m : mem) (p : Z) (l : list Z) : Prop :=
  match l with
  | [] => True
  | c :: l' => m !! p = Some c /\ bytes_at m (p + 1) l'
  end.
(** The C string at [p] has the characters [l]. *)
Definition cstr (m : mem) (p : Z) (l : list Z) : Prop :=
  bytes_at m p (l ++ [0]) /\ Forall (fun c => 0 < c < 256) l.

Lemma bytes_at_app m p l1 l2 :
  bytes_at m p (l1 ++ l2) <-> bytes_at m p l1 /\ bytes_at m (p + length l1) l2.
Proof.
  revert p. induction l1 as [|c l1 IH]; intros p; simpl; [rewrite Z.add_0_r; tauto|].
  rewrite IH. replace (p + 1 + length l1) with (p + S (length l1)) by lia. tauto.
Qed.

Lemma cstr_nil m p : cstr m p [] <-> m !! p = Some 0.
Proof. unfold cstr. simpl. naive_solver. Qed.

Lemma cstr_cons m p c l : cstr m p (c :: l) <-> m !! p = Some c /\ 0 < c < 256 /\ cstr m (p + 1) l.
Proof. unfold cstr. simpl. rewrite Forall_cons. tauto. Qed.

Lemma rt_strlen_spec m p l fuel :
  cstr m p l -> (length l < fuel)%nat -> Z.of_nat (length l) < 2 ^ 32 ->
  wp (rt_strlen fuel p) (fun r m' => r = length l /\ m' = m) m.
Proof.
  intros Hs Hf Hl. unfold rt_strlen. wp_step.
  apply (wp_while (fun sc m' => m' = m /\ exists l1 l2, l = l1 ++ l2 /\ sc = p + length l1 /\ cstr m sc l2)
    (fun sc _ => Z.to_nat (p + length l - sc))).
  - split; [done|]. exists [], l. split_and!; [done|simpl; lia|by simpl].
  - lia.
  - intros sc ? (-> & l1 & l2 & El & -> & Hs2). wp_step. destruct l2 as [|c l2].
    + rewrite cstr_nil in Hs2. eapply wp_rd8; [done|]. wp_step. simpl. wp_step.
      rewrite El, app_nil_r in *. rewrite uwrap_small by lia. split; [lia|done].
    + apply cstr_cons in Hs2 as (Ec & Hc & Hs2). eapply wp_rd8; [done|]. wp_step.
      replace (negb (c =? 0)) with true by lia. wp_step. subst l. rewrite !length_app. simpl.
      split; [|lia]. split; [done|]. exists (l1 ++ [c]), l2. rewrite <- app_assoc, length_app. simpl.
      by split_and!; [|lia|].
Qed.

(** The first difference of two byte sequences. *)
Fixpoint first_diff (l1 l2 : list Z) : Z :=
  match l1, l2 with
  | a :: l1', b :: l2' => if a =? b then first_diff l1' l2' else a - b
  | _, _ => 0
  end.

Lemma first_diff_0 l1 l2 : length l1 = length l2 -> first_diff l1 l2 = 0 <-> l1 = l2.
Proof.
  revert l2. induction l1 as [|a l1 IH]; intros [|b l2]; simpl; intros E; try done.
  destruct (Z.eqb_spec a b) as [->|]; [|split; [lia|congruence]].
  rewrite IH by lia. split; congruence.
Qed.

Lemma rt_memcmp_spec m p q l1 l2 :
  bytes_at m p l1 -> bytes_at m q l2 -> length l1 = length l2 ->
  wp (rt_memcmp p q (length l1)) (fun r m' => r = first_diff l1 l2 /\ m' = m) m.
Proof.
  intros H1 H2 Hl. unfold rt_memcmp. rewrite Nat2Z.id. wp_step.
  eapply (wp_while (fun '(su1, su2, count, res, stop) (m' : mem) => m' = m /\
      if stop : bool then res = first_diff l1 l2
      else res = 0 /\ exists r1 r2, bytes_at m su1 r1 /\ bytes_at m su2 r2 /\ length r1 = length r2 /\
        count = Z.of_nat (length r1) /\ first_diff r1 r2 = first_diff l1 l2)
    (fun '(_, _, count, _, stop) _ => if stop : bool then O else Z.to_nat count)).
  - split; [done|]. split; [done|]. exists l1, l2. by split_and!.
  - lia.
  - intros [[[[su1 su2] count] res] []] m1 [-> HI]; wp_step; simpl; [wp_step; done|].
    destruct HI as (-> & r1 & r2 & B1 & B2 & Elen & -> & Ed).
    destruct r1 as [|a r1], r2 as [|b r2]; try done; simpl in *.
    destruct B1 as [Ea B1], B2 as [Eb B2].
    wp_step. eapply wp_rd8; [done|]. wp_step. eapply wp_rd8; [done|].
    destruct (Z.eqb_spec (a - b) 0) as [Eab|Eab]; simpl; wp_step.
    + assert (a = b) as <- by lia. rewrite Z.eqb_refl in Ed. rewrite Z.sub_diag.
      split; [|lia]. split; [done|]. split; [done|]. exists r1, r2. split_and!; try done; lia.
    + replace (a =? b) with false in Ed by lia. split; [by rewrite Ed|lia].
Qed.

Lemma rt_strcmp_spec m p q l1 l2 fuel :
  cstr m p l1 -> cstr m q l2 -> (length l1 < fuel)%nat ->
  wp (rt_strcmp fuel p q) (fun r m' => m' = m /\ (r = 0 <-> l1 = l2)) m.
Proof.
  revert p q l2 fuel. induction l1 as [|a l1 IH]; intros p q l2 [|fuel] H1 H2 Hf; try (simpl in *; lia).
  - simpl. apply cstr_nil in H1. wp_step. eapply wp_rd8; [done|]. simpl. wp_step.
    destruct l2 as [|b l2]; [apply cstr_nil in H2|apply cstr_cons in H2 as (H2 & Hb & _)].
    all: eapply wp_rd8; [done|]; wp_step; split; try done.
    split; [|done]. unfold uwrap. intros E%Z.mod_divide; [|lia]. destruct E as [k E]. lia.
  - apply cstr_cons in H1 as (E1 & Ha & H1). simpl. wp_step. eapply wp_rd8; [done|].
    replace (negb (a =? 0)) with true by lia. wp_step.
    destruct l2 as [|b l2]; [apply cstr_nil in H2|apply cstr_cons in H2 as (H2 & Hb & H2')].
    all: eapply wp_rd8; [done|].
    + replace (a =? 0) with false by lia. wp_step. split; [done|]. split; [|done].
      rewrite uwrap_small by lia. lia.
    + destruct (Z.eqb_spec a b) as [<-|Hab].
      * eapply wp_mono; [apply IH; [done|done|simpl in Hf; lia]|]. intros r ? [-> Hr].
        split; [done|]. rewrite Hr. split; congruence.
      * wp_step. split; [done|]. split; [|congruence].
        unfold uwrap. intros E%Z.mod_divide; [|lia]. destruct E as [k E]. lia.
Qed.

(** What [rt_strncmp] compares: at most [n] characters, the terminator included. *)
Definition name_prefix (n : nat) (l : list Z) : list Z := take n (l ++ [0]).

Lemma s8_diff a b : 0 <= a < 256 -> 0 <= b < 256 -> s8 (a - b) = 0 <-> a = b.
Proof.
  intros Ha Hb. unfold swrap. split; [|intros ->; by rewrite Z.sub_diag].
  pose proof (Z.mod_pos_bound (a - b) (2 ^ 8) ltac:(lia)). intros E.
  assert ((a - b) mod 2 ^ 8 = 0) as E0 by (destruct (Z.ltb_spec ((a - b) mod 2 ^ 8) (2 ^ (8 - 1))); lia).
  apply Z.mod_divide in E0 as [k E0]; lia.
Qed.

Lemma strncmp_loop_spec m p q l1 l2 n :
  cstr m p l1 -> cstr m q l2 ->
  wp (strncmp_loop n p q 0) (fun r m' => m' = m /\ -128 <= r < 128 /\
    (r = 0 <-> name_prefix n l1 = name_prefix n l2)) m.
Proof.
  revert p q l1 l2. induction n as [|n IH]; intros p q l1 l2 H1 H2; simpl; [by wp_step|].
  assert (exists a t1, m !! p = Some a /\ 0 <= a < 256 /\ l1 ++ [0] = a :: t1 /\
    (a = 0 -> t1 = []) /\ (a <> 0 -> exists l1', t1 = l1' ++ [0] /\ cstr m (p + 1) l1')) as
    (a & t1 & Ea & Ha & El1 & Hz1 & Hnz1).
  { destruct l1 as [|a l1]; [apply cstr_nil in H1; exists 0, []; split_and!; try done; lia|].
    apply cstr_cons in H1 as (? & ? & ?). exists a, (l1 ++ [0]). split_and!; try done; try lia. eauto. }
  assert (exists b t2, m !! q = Some b /\ 0 <= b < 256 /\ l2 ++ [0] = b :: t2 /\
    (b = 0 -> t2 = []) /\ (b <> 0 -> exists l2', t2 = l2' ++ [0] /\ cstr m (q + 1) l2')) as
    (b & t2 & Eb & Hb & El2 & Hz2 & Hnz2).
  { destruct l2 as [|b l2]; [apply cstr_nil in H2; exists 0, []; split_and!; try done; lia|].
    apply cstr_cons in H2 as (? & ? & ?). exists b, (l2 ++ [0]). split_and!; try done; try lia. eauto. }
  unfold name_prefix. rewrite El1, El2. simpl.
  wp_step. eapply wp_rd8; [done|]. wp_step. eapply wp_rd8; [done|].
  pose proof (swrap_range 8 (a - b) ltac:(lia)). pose proof (s8_diff a b Ha Hb) as Hd.
  destruct (Z.eqb_spec (s8 (a - b)) 0) as [E0|E0]; simpl.
  - apply Hd in E0 as Eab. subst b. destruct (Z.eqb_spec a 0) as [Ea0|Ea0].
    + wp_step. split; [done|]. split; [lia|]. rewrite Hz1, Hz2 by done. done.
    + destruct Hnz1 as (l1' & -> & H1'); [done|]. destruct Hnz2 as (l2' & -> & H2'); [done|].
      rewrite E0. eapply wp_mono; [by apply IH|]. intros r ? (-> & Hr & Hiff).
      split; [done|]. split; [done|]. rewrite Hiff. unfold name_prefix. split; congruence.
  - wp_step. split; [done|]. split; [lia|]. split; [done|]. intros E. exfalso. apply E0, Hd. congruence.
Qed.

Lemma rt_strncmp_spec m p q l1 l2 n :
  cstr m p l1 -> cstr m q l2 ->
  wp (rt_strncmp p q n) (fun r m' => m' = m /\ (r = 0 <-> name_prefix n l1 = name_prefix n l2)) m.
Proof.
  intros H1 H2. unfold rt_strncmp. wp_step. eapply wp_mono; [by apply strncmp_loop_spec|].
  intros r ? (-> & Hr & Hiff). wp_step. split; [done|]. rewrite <- Hiff. split; [|by intros ->].
  unfold uwrap. intros [k E]%Z.mod_divide; lia.
Qed.

(** The bytes [rt_strncpy] stores: the string cut to [n] bytes, padded with NUL. *)
Definition strncpy_bytes (n : nat) (l : list Z) : list Z := take n (l ++ replicate n 0).

Lemma strncpy_bytes_length n l : length (strncpy_bytes n l) = n.
Proof. unfold strncpy_bytes. rewrite length_take, length_app, length_replicate. lia. Qed.

(** [m'] is [m] with the bytes [l] written at [p]. *)
Definition stored (m m' : mem) (p : Z) (l : list Z) : Prop :=
  written m m' p (length l) (fun i => l !! Z.to_nat i).

Lemma stored_nil m p : stored m m p [].
Proof. apply written_refl. Qed.

Lemma stored_cons m m' p c l : stored (<[p := c]> m) m' (p + 1) l -> stored m m' p (c :: l).
Proof.
  intros Hs a. rewrite Hs. simpl length. repeat case_decide; try lia.
  - replace (Z.to_nat (a - p)) with (S (Z.to_nat (a - (p + 1)))) by lia. done.
  - assert (a = p) as -> by lia. rewrite lookup_insert_eq, Z.sub_diag. done.
  - by rewrite lookup_insert_ne by lia.
Qed.

Lemma bytes_at_insert m p l a v :
  bytes_at m p l -> (forall i, (i < length l)%nat -> p + i <> a) -> bytes_at (<[a := v]> m) p l.
Proof.
  revert p. induction l as [|c l IH]; intros p; simpl; [done|]. intros [E Hb] Ha. split.
  - rewrite lookup_insert_ne; [done|]. specialize (Ha 0%nat ltac:(lia)). lia.
  - apply IH; [done|]. intros i Hi. specialize (Ha (S i) ltac:(lia)). lia.
Qed.

Lemma strncpy_pad_spec m d (n : nat) :
  mapped m d n -> wp (strncpy_pad n d) (fun _ m' => stored m m' d (replicate n 0)) m.
Proof.
  revert m d. induction n as [|n IH]; intros m d Hm; simpl; [apply stored_nil|].
  wp_step. apply wp_wr8; [apply Hm; lia|].
  eapply wp_mono; [apply IH|].
  - apply mapped_insert. intros a Ha. apply Hm. lia.
  - intros ? m' Hs. by apply stored_cons.
Qed.

Lemma strncpy_loop_spec m d s l (n : nat) :
  cstr m s l -> mapped m d n -> d + n <= s \/ s + length l < d ->
  wp (strncpy_loop n d s) (fun _ m' => stored m m' d (strncpy_bytes n l)) m.
Proof.
  revert m d s l. induction n as [|n IH]; intros m d s l Hs Hm Hdis; simpl; [apply stored_nil|].
  assert (mapped m (d + 1) n) as Hm' by (intros a Ha; apply Hm; lia).
  wp_step. destruct l as [|c l].
  - apply cstr_nil in Hs. eapply wp_rd8; [done|]. wp_step. apply wp_wr8; [apply Hm; lia|]. simpl.
    eapply wp_mono; [apply strncpy_pad_spec; by apply mapped_insert|].
    intros ? m' Hst. unfold strncpy_bytes. simpl. apply stored_cons.
    by rewrite take_ge by (rewrite length_replicate; lia).
  - apply cstr_cons in Hs as (Ec & Hc & [Hs Hl]). eapply wp_rd8; [done|].
    wp_step. apply wp_wr8; [apply Hm; lia|]. replace (c =? 0) with false by lia.
    simpl in Hdis. eapply wp_mono; [apply (IH _ _ _ l)|].
    + split; [|done]. apply bytes_at_insert; [done|]. rewrite length_app. simpl. lia.
    + by apply mapped_insert.
    + lia.
    + intros ? m' Hst. rewrite uwrap_small in Hst by lia. unfold strncpy_bytes in *.
      simpl. apply stored_cons.
      assert (take n (l ++ 0 :: replicate n 0) = take n (l ++ replicate n 0)) as E; [|by rewrite E].
      rewrite !take_app. f_equal. destruct (n - length l)%nat as [|k] eqn:Ek; [done|].
      change (0 :: replicate n 0) with (replicate (S n) 0). rewrite !take_replicate. f_equal. lia.
Qed.

Lemma rt_strncpy_spec m d s l (n : nat) :
  cstr m s l -> mapped m d n -> d + n <= s \/ s + length l < d ->
  wp (rt_strncpy d s n) (fun r m' => r = d /\ stored m m' d (strncpy_bytes n l)) m.
Proof.
  intros. unfold rt_strncpy. wp_step. eapply wp_mono; [by apply strncpy_loop_spec|].
  intros ? m' Hs. by wp_step.
Qed.

(** [l2] occurs in [l1] at offset [k]. *)
Definition occurs (l1 l2 : list Z) (k : nat) : Prop := exists r, drop k l1 = l2 ++ r.

(** [rt_strstr] finds the first occurrence. *)
Lemma rt_strstr_spec m p q l1 l2 fuel :
  cstr m p l1 -> cstr m q l2 -> (length l1 < fuel)%nat -> (length l2 < fuel)%nat ->
  Z.of_nat (length l1) < 2 ^ 31 -> Z.of_nat (length l2) < 2 ^ 31 ->
  wp (rt_strstr fuel p q) (fun r m' => m' = m /\
    ((exists k, occurs l1 l2 k /\ (forall j, (j < k)%nat -> ~ occurs l1 l2 j) /\ r = p + k) \/
     (forall k, ~ occurs l1 l2 k) /\ r = RT_NULL)) m.
Proof.
  intros H1 H2 Hf1 Hf2 Hl1 Hl2. unfold rt_strstr. wp_step.
  eapply wp_mono; [apply (rt_strlen_spec m q l2); [done|done|lia]|]. intros ? ? [-> ->].
  destruct (Z.eqb_spec (length l2) 0) as [E|E].
  { assert (l2 = []) as -> by (apply nil_length_inv; lia). wp_step. split; [done|]. left.
    exists 0%nat. split; [by eexists|]. split; [lia|lia]. }
  wp_step. eapply wp_mono; [apply (rt_strlen_spec m p l1); [done|done|lia]|]. intros ? ? [-> ->].
  wp_step.
  apply (wp_while (fun '(s1, rem, found) (m' : mem) => m' = m /\ exists k, (k <= length l1)%nat /\
      (forall j, (j < k)%nat -> ~ occurs l1 l2 j) /\ s1 = p + k /\
      if found : bool then occurs l1 l2 k else rem = Z.of_nat (length l1) - k)
    (fun '(_, rem, found) _ => if found : bool then O else Z.to_nat rem)).
  - split; [done|]. exists 0%nat. split_and!; lia.
  - lia.
  - intros [[s1 rem] []] ? [-> (k & Hk & Hno & -> & HI)]; wp_step; simpl.
    { split; [done|]. left. eauto. }
    subst rem. destruct (Z.leb_spec (length l2) (length l1 - k)) as [Hle|Hlt].
    + assert (length (take (length l2) (drop k l1)) = length l2) as Elen
        by (rewrite length_take, length_drop; lia).
      wp_step. rewrite <- Elen.
      eapply wp_mono; [apply (rt_memcmp_spec m (p + k) q (take (length l2) (drop k l1)) l2)|].
      * destruct H1 as [H1 _]. rewrite <- (take_drop k l1), <- (take_drop (length l2) (drop k l1)) in H1.
        rewrite <- !app_assoc in H1. apply bytes_at_app in H1 as [_ H1]. apply bytes_at_app in H1 as [H1 _].
        rewrite length_take in H1. replace (k `min` length l1)%nat with k in H1 by lia. done.
      * destruct H2 as [H2 _]. by apply bytes_at_app in H2 as [H2 _].
      * done.
      * intros ? ? [-> ->]. destruct (Z.eqb_spec (first_diff (take (length l2) (drop k l1)) l2) 0) as [E0|E0].
        -- wp_step. apply first_diff_0 in E0; [|done]. split; [|lia]. split; [done|]. exists k.
           split_and!; [done|done|done|]. exists (drop (length l2) (drop k l1)).
           rewrite <- E0 at 1. by rewrite take_drop.
        -- wp_step. split; [|lia]. split; [done|]. exists (S k). split_and!; [lia| |lia|lia].
           intros j Hj Ho. destruct (decide (j = k)) as [->|]; [|eapply Hno; [|done]; lia].
           apply E0. destruct Ho as [r Er]. rewrite Er, take_app_length. by apply first_diff_0.
    + wp_step. split; [done|]. right. split; [|done]. intros j Ho.
      destruct (decide (j < k)%nat) as [Hj|Hj]; [by eapply Hno|].
      destruct Ho as [r Er]. apply (f_equal length) in Er. rewrite length_drop, length_app in Er. lia.
Qed.

Lemma rt_strcasecmp_spec m p q l1 l2 fuel :
  cstr m p l1 -> cstr m q l2 -> (length l1 < fuel)%nat ->
  wp (rt_strcasecmp fuel p q) (fun r m' => m' = m /\ (r = 0 <-> map tolower l1 = map tolower l2)) m.
Proof.
  assert (forall c, 0 <= c < 256 -> Z.land c 0xff = c) as Hand.
  { intros c Hc. change 0xff with (Z.ones 8). rewrite Z.land_ones by lia. apply Z.mod_small. lia. }
  assert (forall c, 0 < c < 256 -> 0 < tolower c < 512) as Hlow.
  { intros c Hc. unfold tolower. destruct (_ && _); lia. }
  assert (forall x, -512 < x < 512 -> u32 x = 0 -> x = 0) as Hu.
  { intros x Hx. unfold uwrap. intros [k E]%Z.mod_divide; lia. }
  revert p q l2 fuel. induction l1 as [|a l1 IH]; intros p q l2 [|fuel] H1 H2 Hf; try (simpl in *; lia).
  - apply cstr_nil in H1. simpl. wp_step. eapply wp_rd8; [done|]. wp_step.
    destruct l2 as [|b l2]; [apply cstr_nil in H2|apply cstr_cons in H2 as (H2 & Hb & _)].
    all: eapply wp_rd8; [done|]; simpl; rewrite ?Hand by lia.
    + wp_step. by split_and!.
    + specialize (Hlow b Hb). rewrite andb_false_r. change (tolower 0) with 0. wp_step. split; [done|].
      split; [|done]. intros E%Hu; lia.
  - apply cstr_cons in H1 as (E1 & Ha & H1). simpl. wp_step. eapply wp_rd8; [done|]. wp_step.
    rewrite Hand by lia. pose proof (Hlow a Ha).
    destruct l2 as [|b l2]; [apply cstr_nil in H2|apply cstr_cons in H2 as (H2 & Hb & H2')].
    all: eapply wp_rd8; [done|]; rewrite ?Hand by lia.
    + change (tolower 0) with 0. replace (tolower a =? 0) with false by lia. simpl. wp_step.
      split; [done|]. split; [intros E%Hu; lia|done].
    + pose proof (Hlow b Hb). destruct (Z.eqb_spec (tolower a) (tolower b)) as [E|E]; simpl.
      * replace (negb (tolower a =? 0)) with true by lia.
        eapply wp_mono; [apply IH; [done|done|simpl in Hf; lia]|]. intros r ? [-> Hr].
        split; [done|]. rewrite Hr, E. split; congruence.
      * wp_step. split; [done|]. split; [intros E'%Hu; lia|congruence].
Qed.
(** ** Properties *)

(** [rt_memset], which fills by words and blocks of four words where the address
    allows it, is the bytewise fill: exactly the [count] bytes from [s] become the low
    byte of [c]. *)
Theorem rt_memset_correct m s c count :
  0 <= count -> mapped m s count ->
  exists m', rt_memset s c count m = Ok s m' /\ written m m' s count (fun _ => Some (u8 c)).
Proof. intros H1 H2. destruct (wp_ok _ _ _ (rt_memset_spec m s c count H1 H2)) as (r & m' & E & -> & Hw). eauto. Qed.

(** C34: [rt_memcpy], which copies by words and blocks of four words where the addresses
    allow it, is the bytewise copy for any count of 32 bits, also one that is negative
    as an [int], when the areas do not overlap or the destination is the lower one. *)
Theorem rt_memcpy_correct m dst src count :
  mem_ok m -> 0 <= count < 2 ^ 32 -> mapped m dst count -> mapped m src count ->
  dst <= src \/ src + count <= dst ->
  exists m', rt_memcpy dst src count m = Ok dst m' /\ written m m' dst count (fun i => m !! (src + i)).
Proof.
  intros Hok Hc Hd Hs Hf.
  destruct (wp_ok _ _ _ (rt_memcpy_spec m dst src count Hok ltac:(lia) Hd Hs Hf ltac:(lia))) as (r & m' & E & -> & Hw). eauto.
Qed.

(** [rt_memmove] copies correctly however the areas overlap: the destination gets
    the bytes the source had before the call, and nothing else changes. *)
Theorem rt_memmove_correct m dst src n :
  mem_ok m -> 0 <= n -> mapped m dst n -> mapped m src n ->
  exists m', rt_memmove dst src n m = Ok dst m' /\ written m m' dst n (fun i => m !! (src + i)).
Proof.
  intros Hok Hn Hd Hs. destruct (wp_ok _ _ _ (rt_memmove_spec m dst src n Hok Hn Hd Hs)) as (r & m' & E & -> & Hw). eauto.
Qed.

(** [rt_strstr] finds the first occurrence of one C string in another, or returns
    RT_NULL when there is none; memory is not changed. *)
Theorem rt_strstr_correct m p q l1 l2 fuel :
  cstr m p l1 -> cstr m q l2 -> (length l1 < fuel)%nat -> (length l2 < fuel)%nat ->
  length l1 < 2 ^ 31 -> length l2 < 2 ^ 31 ->
  (exists k : nat, rt_strstr fuel p q m = Ok (p + k) m /\ occurs l1 l2 k /\ forall j, (j < k)%nat -> ~ occurs l1 l2 j) \/
  rt_strstr fuel p q m = Ok RT_NULL m /\ forall k, ~ occurs l1 l2 k.
Proof.
  intros H1 H2 H3 H4 H5 H6.
  destruct (wp_ok _ _ _ (rt_strstr_spec m p q l1 l2 fuel H1 H2 H3 H4 H5 H6))
    as (r & m' & E & -> & [(k & Ho & Hm & ->)|(Hno & ->)]); [left; by exists k|by right].
Qed.

(** the comparisons decide equality: [rt_strcmp] and [rt_strcasecmp] return 0 exactly
    for equal strings (up to the case of ASCII letters), [rt_strncmp] exactly when the
    first [n] characters agree. *)
Theorem string_comparisons_correct m p q l1 l2 n fuel :
  cstr m p l1 -> cstr m q l2 -> (length l1 < fuel)%nat ->
  (exists r, rt_strcmp fuel p q m = Ok r m /\ (r = 0 <-> l1 = l2)) /\
  (exists r, rt_strcasecmp fuel p q m = Ok r m /\ (r = 0 <-> map tolower l1 = map tolower l2)) /\
  (exists r, rt_strncmp p q n m = Ok r m /\ (r = 0 <-> name_prefix n l1 = name_prefix n l2)).
Proof.
  intros H1 H2 H3. split_and!.
  - destruct (wp_ok _ _ _ (rt_strcmp_spec m p q l1 l2 fuel H1 H2 H3)) as (r & m' & E & -> & Hr). eauto.
  - destruct (wp_ok _ _ _ (rt_strcasecmp_spec m p q l1 l2 fuel H1 H2 H3)) as (r & m' & E & -> & Hr). eauto.
  - destruct (wp_ok _ _ _ (rt_strncmp_spec m p q l1 l2 n H1 H2)) as (r & m' & E & -> & Hr). eauto.
Qed.

