(* ===== verification/KPrintf.v ===== *)
(** * Formatted output (src/kservice.c): rt_vsnprintf

    The formatter behind rt_snprintf, rt_sprintf and rt_kprintf, in the configuration of
    the sources (RT_PRINTF_PRECISION defined, RT_PRINTF_SPECIAL and RT_PRINTF_LONGLONG
    not).  A format string is the list of its bytes without the terminator; the variable
    arguments are 32-bit words, a string argument being its address. *)
From stdpp Require Import base tactics numbers list gmap.
From S2P Require Import Prelude Memory KString.
Local Open Scope Z_scope.

(** The write position and memory *)
Record pstate := mk_pstate { str : Z; pram : mem }.
Abbreviation P := (M pstate).

Definition on_pram {A} (c : M mem A) : P A := fun s =>
  match c (pram s) with
  | Ok a m => Ok a (mk_pstate (str s) m)
  | Fault f => Fault f
  end.

(** [if (str <= end) *str = c; ++str] *)
Definition emit (end_ c : Z) : P unit :=
  s ← get;
  when (str s <=? end_) (on_pram (wr8 (str s) c));;
  modify (fun s => mk_pstate (str s + 1) (pram s)).

(** ** Numbers *)

Definition ZEROPAD : Z := 1.
Definition SIGN : Z := 2.
Definition PLUS : Z := 4.
Definition SPACE : Z := 8.
Definition LEFT : Z := 16.
Definition SPECIAL : Z := 32.
Definition LARGE : Z := 64.

(** [x & bit] as a condition *)
Definition has (x bit : Z) : bool := negb (Z.land x bit =? 0).

Definition isdigit (c : Z) : bool := u32 (c - 48) <? 10.

(** The remainder and the new value of [n] *)
Definition divide (n base : Z) : Z * Z :=
  if base =? 10 then (u32 n mod 10, s32 (u32 n / 10)) else (u32 n mod 16, s32 (u32 n / 16)).

Definition small_digits : list Z := [48; 49; 50; 51; 52; 53; 54; 55; 56; 57; 97; 98; 99; 100; 101; 102].
Definition large_digits : list Z := [48; 49; 50; 51; 52; 53; 54; 55; 56; 57; 65; 66; 67; 68; 69; 70].

(** [while (num != 0) tmp[i++] = digits[divide(&num, base)]]; [tmp] has 16 places. *)
Definition print_digits (digits : list Z) (base num : Z) : P (list Z) :=
  r ← while 33 (fun '(num, _) => mret (negb (num =? 0)))
    (fun '(num, tmp) =>
      let '(d, num') := divide num base in
      c ← opt BadPointer (digits !! Z.to_nat d);
      if (length tmp <? 16)%nat then mret (num', tmp ++ [c]) else throw BadPointer) (num, []);
  mret r.2.

(** [while (size-- > 0) { if (buf <= end) *buf = c; ++buf; }] and the value left in [size] *)
Definition pad (end_ c size : Z) : P Z :=
  r ← while (S (Z.to_nat size)) (fun size => mret (0 <? size)) (fun size => emit end_ c;; mret (size - 1)) size;
  mret (r - 1).

(** [while (i-- > 0) { if (buf <= end) *buf = tmp[i]; ++buf; }] *)
Fixpoint emit_back (end_ : Z) (tmp : list Z) (i : nat) : P unit :=
  match i with
  | O => mret tt
  | S i' => c ← opt BadPointer (tmp !! i'); emit end_ c;; emit_back end_ tmp i'
  end.

Definition print_number (end_ num base s precision type : Z) : P unit :=
  let digits := if has type LARGE then large_digits else small_digits in
  let type := if has type LEFT then Z.land type (Z.lnot ZEROPAD) else type in
  let c := if has type ZEROPAD then 48 else 32 in
  (* get sign *)
  let '(sign, num) :=
    if has type SIGN then
      if num <? 0 then (45, s32 (- num))
      else if has type PLUS then (43, num)
      else if has type SPACE then (32, num)
      else (0, num)
    else (0, num) in
  tmp ← (if num =? 0 then mret [48] else print_digits digits base num);
  let i := Z.of_nat (length tmp) in
  let precision := if precision <? i then i else precision in
  let size := s - precision in
  size ← (if negb (has type (Z.lor ZEROPAD LEFT)) then
            pad end_ 32 (if negb (sign =? 0) && (0 <? size) then size - 1 else size)
          else mret size);
  size ← (if negb (sign =? 0) then
            st ← get;
            emit end_ sign;;
            mret (if str st <=? end_ then size - 1 else size)
          else mret size);
  (* no align to the left *)
  size ← (if negb (has type LEFT) then pad end_ c size else mret size);
  pad end_ 48 (precision - i);;
  (* put number in the temporary buffer *)
  emit_back end_ tmp (length tmp);;
  pad end_ 32 size;;
  mret tt.

(** ** Directives *)

(** What stands between [%] and the conversion character, and the rest *)
Record directive := mk_directive {
  d_flags : Z;
  d_width : Z;
  d_precision : Z;
  d_qualifier : Z;
  d_rest : list Z;   (* from the conversion character on *)
  d_args : list Z
}.

(** The loop over the flags; [++fmt] has skipped the [%]. *)
Fixpoint parse_flags (fmt : list Z) (flags : Z) : Z * list Z :=
  match fmt with
  | [] => (flags, fmt)
  | c :: fmt' =>
      if c =? 45 then parse_flags fmt' (Z.lor flags LEFT)
      else if c =? 43 then parse_flags fmt' (Z.lor flags PLUS)
      else if c =? 32 then parse_flags fmt' (Z.lor flags SPACE)
      else if c =? 35 then parse_flags fmt' (Z.lor flags SPECIAL)
      else if c =? 48 then parse_flags fmt' (Z.lor flags ZEROPAD)
      else (flags, fmt)
  end.

Fixpoint skip_atoi (fmt : list Z) (i : Z) : Z * list Z :=
  match fmt with
  | c :: fmt' => if isdigit c then skip_atoi fmt' (s32 (i * 10 + c - 48)) else (i, fmt)
  | [] => (i, fmt)
  end.

(** [va_arg(args, int)] *)
Definition va_arg (args : list Z) : option (Z * list Z) :=
  match args with w :: args' => Some (w, args') | [] => None end.

Definition first (fmt : list Z) : Z := match fmt with c :: _ => c | [] => 0 end.

(** The field width and the flags it changes *)
Definition parse_width (fmt args : list Z) (flags : Z) : option (Z * Z * list Z * list Z) :=
  if isdigit (first fmt) then let '(w, fmt) := skip_atoi fmt 0 in Some (w, flags, fmt, args)
  else if first fmt =? 42 then
    '(w, args) ← va_arg args;
    let w := s32 w in
    Some (if w <? 0 then (s32 (- w), Z.lor flags LEFT, tail fmt, args) else (w, flags, tail fmt, args))
  else Some (-1, flags, fmt, args).

Definition parse_precision (fmt args : list Z) : option (Z * list Z * list Z) :=
  if first fmt =? 46 then
    let fmt := tail fmt in
    '(p, fmt, args) ←
      (if isdigit (first fmt) then let '(p, fmt) := skip_atoi fmt 0 in Some (p, fmt, args)
       else if first fmt =? 42 then '(p, args) ← va_arg args; Some (s32 p, tail fmt, args)
       else Some (-1, fmt, args));
    Some (if p <? 0 then 0 else p, fmt, args)
  else Some (-1, fmt, args).

Definition parse_directive (fmt args : list Z) : option directive :=
  let '(flags, fmt) := parse_flags fmt 0 in
  '(width, flags, fmt, args) ← parse_width fmt args flags;
  '(precision, fmt, args) ← parse_precision fmt args;
  let '(q, fmt) := if (first fmt =? 104) || (first fmt =? 108) then (first fmt, tail fmt) else (0, fmt) in
  Some (mk_directive (u8 flags) width precision q fmt args).

(** ** Conversions *)

(** [while (--field_width > 0)] and the value left in [field_width] *)
Definition prepad (end_ field_width : Z) : P Z :=
  while (S (Z.to_nat field_width)) (fun w => mret (0 <? w)) (fun w => emit end_ 32;; mret (w - 1)) (field_width - 1).

(** [while (len < field_width--)] *)
Definition strpad (end_ len field_width : Z) : P Z :=
  w ← while (S (Z.to_nat (field_width - len))) (fun w => mret (len <? w)) (fun w => emit end_ 32;; mret (w - 1)) field_width;
  mret (w - 1).

(** [for (i = 0; i < len; ++i) { if (str <= end) *str = *s; ++str; ++s; }] *)
Fixpoint emit_string (end_ s : Z) (len : nat) : P unit :=
  match len with
  | O => mret tt
  | S len' => c ← on_pram (rd8 s); emit end_ c;; emit_string end_ (s + 1) len'
  end.

Fixpoint emit_list (end_ : Z) (l : list Z) : P unit :=
  match l with
  | [] => mret tt
  | c :: l' => emit end_ c;; emit_list end_ l'
  end.

(** The literal used for a null pointer *)
Definition null_string : list Z := [40; 78; 85; 76; 76; 41].

(** [num = va_arg(...)] and its conversions, as the [long] that is printed *)
Definition number_arg (qualifier flags w : Z) : Z :=
  if qualifier =? 104 then s32 (if has flags SIGN then s16 (u16 w) else u16 w) else s32 w.

(** [fuel] bounds the length of a string argument. *)
Definition print_string (fuel : nat) (end_ : Z) (d : directive) (s : Z) : P unit :=
  len ← (if s =? RT_NULL then mret (Z.of_nat (length null_string)) else on_pram (rt_strlen fuel s));
  let len := s32 len in
  let len := if (0 <? d_precision d) && (d_precision d <? len) then d_precision d else len in
  width ← (if negb (has (d_flags d) LEFT) then strpad end_ len (d_width d) else mret (d_width d));
  (if s =? RT_NULL then emit_list end_ (take (Z.to_nat len) null_string)
   else emit_string end_ s (Z.to_nat len));;
  strpad end_ len width;;
  mret tt.

Definition print_char (end_ : Z) (d : directive) (w : Z) : P unit :=
  width ← (if negb (has (d_flags d) LEFT) then prepad end_ (d_width d) else mret (d_width d));
  emit end_ (u8 w);;
  prepad end_ width;;
  mret tt.

(** The base and the flags an integer conversion adds *)
Definition integer_conversion (c : Z) : option (Z * Z) :=
  if c =? 111 then Some (8, 0)
  else if c =? 88 then Some (16, LARGE)
  else if c =? 120 then Some (16, 0)
  else if (c =? 100) || (c =? 105) then Some (10, SIGN)
  else if c =? 117 then Some (10, 0)
  else None.

(** The [switch] on the conversion character; the rest of the format and of the arguments *)
Definition print_directive (fuel : nat) (end_ : Z) (d : directive) : P (list Z * list Z) :=
  let c := first (d_rest d) in
  let rest := tail (d_rest d) in
  if c =? 99 then
    '(w, args) ← opt BadPointer (va_arg (d_args d)); print_char end_ d w;; mret (rest, args)
  else if c =? 115 then
    '(s, args) ← opt BadPointer (va_arg (d_args d)); print_string fuel end_ d (u32 s);; mret (rest, args)
  else if c =? 112 then
    '(w, args) ← opt BadPointer (va_arg (d_args d));
    (if d_width d =? -1 then print_number end_ (s32 w) 16 8 (d_precision d) (Z.lor (d_flags d) ZEROPAD)
     else print_number end_ (s32 w) 16 (d_width d) (d_precision d) (d_flags d));;
    mret (rest, args)
  else if c =? 37 then emit end_ 37;; mret (rest, d_args d)
  else
    match integer_conversion c with
    | Some (base, fl) =>
        '(w, args) ← opt BadPointer (va_arg (d_args d));
        let flags := Z.lor (d_flags d) fl in
        print_number end_ (number_arg (d_qualifier d) flags w) base (d_width d) (d_precision d) flags;;
        mret (rest, args)
    | None =>
        emit end_ 37;;
        when (negb (c =? 0)) (emit end_ c);;
        mret (rest, d_args d)
    end.

(** [for (; *fmt; ++fmt)] *)
Fixpoint format (fuel sfuel : nat) (end_ : Z) (fmt args : list Z) : P unit :=
  match fuel with
  | O => throw OutOfFuel
  | S fuel' =>
      match fmt with
      | [] => mret tt
      | c :: fmt' =>
          if negb (c =? 37) then emit end_ c;; format fuel' sfuel end_ fmt' args
          else
            d ← opt BadPointer (parse_directive fmt' args);
            '(rest, args) ← print_directive sfuel end_ d;
            format fuel' sfuel end_ rest args
      end
  end.

(** The last address that may be written *)
Definition buffer_end (buf size : Z) : Z :=
  let end_ := u32 (buf + size - 1) in if end_ <? buf then 0xffffffff else end_.

Definition rt_vsnprintf (sfuel : nat) (buf size : Z) (fmt args : list Z) : M mem Z := fun m =>
  let end_ := buffer_end buf size in
  match (format (S (length fmt)) sfuel end_ fmt args;;
         s ← get;
         on_pram (wr8 (if str s <=? end_ then str s else end_) 0);;
         mret (s32 (str s - buf))) (mk_pstate buf m) with
  | Ok n s => Ok n (pram s)
  | Fault f => Fault f
  end.

Definition rt_snprintf := rt_vsnprintf.
Definition rt_vsprintf (sfuel : nat) (buf : Z) (fmt args : list Z) : M mem Z :=
  rt_vsnprintf sfuel buf 0xffffffff fmt args.
Definition rt_sprintf := rt_vsprintf.

(** ** What is printed *)

(** The digits of [n] in base [b], least significant first *)
Fixpoint digit_values (fuel : nat) (b n : Z) : list Z :=
  match fuel with
  | O => []
  | S fuel' => if n =? 0 then [] else n mod b :: digit_values fuel' b (n / b)
  end.

(** The sign character (0 for none) and the magnitude of the number *)
Definition sign_of (num flags : Z) : Z :=
  if has flags SIGN then
    if num <? 0 then 45 else if has flags PLUS then 43 else if has flags SPACE then 32 else 0
  else 0.
Definition magnitude (num flags : Z) : Z := if has flags SIGN && (num <? 0) then u32 (- num) else u32 num.

Definition digit_text (large : bool) (d : Z) : Z := if d <? 10 then 48 + d else (if large then 55 else 87) + d.

Definition digits_text (large : bool) (b n : Z) : list Z :=
  if n =? 0 then [48] else digit_text large <$> reverse (digit_values 32 b n).

(** The text of a number; [fits] says whether the sign still fits into the buffer: the
    code takes it off the padding only then. *)
Definition number_text (fits : bool) (num base width precision flags : Z) : list Z :=
  let left := has flags LEFT in
  let zero := has flags ZEROPAD in
  let sign := sign_of num flags in
  let ds := digits_text (has flags LARGE) (if base =? 10 then 10 else 16) (magnitude num flags) in
  let body := replicate (Z.to_nat (precision - Z.of_nat (length ds))) 48 ++ ds in
  let signs := if sign =? 0 then [] else [sign] in
  let space := width - Z.of_nat (length body) in
  let space' := if negb (sign =? 0) && fits then space - 1 else space in
  if left then signs ++ body ++ replicate (Z.to_nat space') 32
  else if zero then signs ++ replicate (Z.to_nat space') 48 ++ body
  else replicate (Z.to_nat (if sign =? 0 then space else space - 1)) 32 ++ signs ++ body.

Definition char_text (d : directive) (w : Z) : list Z :=
  let spaces := replicate (Z.to_nat (d_width d - 1)) 32 in
  if has (d_flags d) LEFT then u8 w :: spaces else spaces ++ [u8 w].

(** A precision of 0 does not cut the string. *)
Definition string_text (d : directive) (s : list Z) : list Z :=
  let s := if 0 <? d_precision d then take (Z.to_nat (d_precision d)) s else s in
  let spaces := replicate (Z.to_nat (d_width d - Z.of_nat (length s))) 32 in
  if has (d_flags d) LEFT then s ++ spaces else spaces ++ s.

(** [strings] gives the strings the arguments may point to. *)
Definition string_arg (strings : gmap Z (list Z)) (p : Z) : option (list Z) :=
  if p =? RT_NULL then Some null_string else strings !! p.

(** The text of a directive, the rest of the format and of the arguments *)
Definition directive_text (fits : bool) (strings : gmap Z (list Z)) (d : directive) : option (list Z * list Z * list Z) :=
  let c := first (d_rest d) in
  let rest := tail (d_rest d) in
  if c =? 99 then '(w, args) ← va_arg (d_args d); Some (char_text d w, rest, args)
  else if c =? 115 then
    '(p, args) ← va_arg (d_args d); s ← string_arg strings (u32 p); Some (string_text d s, rest, args)
  else if c =? 112 then
    '(w, args) ← va_arg (d_args d);
    Some (if d_width d =? -1 then number_text fits (s32 w) 16 8 (d_precision d) (Z.lor (d_flags d) ZEROPAD)
          else number_text fits (s32 w) 16 (d_width d) (d_precision d) (d_flags d), rest, args)
  else if c =? 37 then Some ([37], rest, d_args d)
  else match integer_conversion c with
    | Some (base, fl) =>
        '(w, args) ← va_arg (d_args d);
        let flags := Z.lor (d_flags d) fl in
        Some (number_text fits (number_arg (d_qualifier d) flags w) base (d_width d) (d_precision d) flags, rest, args)
    | None => Some (37 :: if c =? 0 then [] else [c], rest, d_args d)
    end.

(** The text of a format with its arguments: what a buffer without end would get *)
Fixpoint format_text (fuel : nat) (strings : gmap Z (list Z)) (fmt args : list Z) : option (list Z) :=
  match fuel with
  | O => None
  | S fuel' =>
      match fmt with
      | [] => Some []
      | c :: fmt' =>
          if negb (c =? 37) then t ← format_text fuel' strings fmt' args; Some (c :: t)
          else
            d ← parse_directive fmt' args;
            '(x, rest, args) ← directive_text true strings d;
            t ← format_text fuel' strings rest args; Some (x ++ t)
      end
  end.

Definition printf_text (strings : gmap Z (list Z)) (fmt args : list Z) : option (list Z) :=
  format_text (S (length fmt)) strings fmt args.

(** ** Writing into the buffer *)

Section output.
Context (m0 : mem) (buf end_ : Z) (Hend : buf <= end_).
Context (Hmap : mapped m0 buf (end_ - buf + 1)).

(** The number of bytes of the buffer *)
Definition space : nat := Z.to_nat (end_ - buf + 1).

(** The state after [out] has been printed: what does not fit is dropped. *)
Definition printed (out : list Z) : pstate :=
  mk_pstate (buf + Z.of_nat (length out)) (write_bytes m0 buf (take space out)).

Definition fits (out : list Z) : bool := (length out <? space)%nat.

Lemma fits_str out : (str (printed out) <=? end_) = fits out.
Proof.
  unfold fits, space. simpl. destruct (Nat.ltb_spec (length out) (Z.to_nat (end_ - buf + 1)));
    [apply Z.leb_le|apply Z.leb_gt]; lia.
Qed.

Lemma emit_printed out c : 0 <= c < 256 -> emit end_ c (printed out) = Ok tt (printed (out ++ [c])).
Proof.
  intros Hc. unfold emit. erewrite run_bind by done. rewrite fits_str. unfold fits, printed. rewrite length_app. simpl.
  destruct (Nat.ltb_spec (length out) space) as [Hlt|Hge]; simpl.
  - assert (is_Some (write_bytes m0 buf (take space out) !! (buf + Z.of_nat (length out)))) as [v Ev].
    { apply (mapped_write_bytes m0 buf (take space out) buf (end_ - buf + 1) Hmap). unfold space in Hlt. lia. }
    erewrite run_bind; [|unfold on_pram, wr8, get, opt, modify, mbind, M_bind; simpl; rewrite Ev; done].
    unfold modify. simpl. do 2 f_equal; [lia|]. rewrite uwrap_small by lia. apply map_eq. intros a.
    rewrite lookup_insert, !lookup_write_bytes, (take_ge (out ++ [c])), (take_ge out), length_app by (rewrite ?length_app; simpl; lia).
    simpl. repeat case_decide; subst; try lia; try done.
    + rewrite lookup_app_r by lia. replace (Z.to_nat (buf + Z.of_nat (length out) - buf) - length out)%nat with 0%nat by lia. done.
    + rewrite lookup_app_l by lia. done.
  - erewrite run_bind by done. unfold modify. simpl. do 2 f_equal; [lia|].
    by rewrite take_app_le by lia.
Qed.

Lemma emits_printed out (l : list Z) :
  Forall (fun c => 0 <= c < 256) l -> emit_list end_ l (printed out) = Ok tt (printed (out ++ l)).
Proof.
  intros Hl. revert out. induction Hl as [|c l Hc Hl IH]; intros out; simpl; [by rewrite app_nil_r|].
  rewrite (run_bind _ _ _ _ _ (emit_printed out c Hc)), IH. by rewrite <- app_assoc.
Qed.

Lemma emit_back_printed out tmp :
  Forall (fun c => 0 <= c < 256) tmp ->
  emit_back end_ tmp (length tmp) (printed out) = Ok tt (printed (out ++ reverse tmp)).
Proof.
  intros Hl.
  assert (forall i, (i <= length tmp)%nat -> forall out,
    emit_back end_ tmp i (printed out) = Ok tt (printed (out ++ reverse (take i tmp)))) as Hi.
  { induction i as [|i IH]; intros Hle o; simpl; [by rewrite app_nil_r|].
    destruct (lookup_lt_is_Some_2 tmp i) as [c Ec]; [lia|]. rewrite Ec. erewrite run_bind by done.
    rewrite (run_bind _ _ _ _ _ (emit_printed o c (Forall_lookup_1 _ _ _ _ Hl Ec))), IH by lia.
    rewrite (take_S_r _ _ _ Ec), reverse_snoc, <- app_assoc. done. }
  rewrite Hi by lia. by rewrite firstn_all.
Qed.

(** The padding loops: [n] characters while the counter runs down from [k + n] to [k] *)
Lemma pad_loop out c k (n : nat) fuel :
  0 <= c < 256 -> (n < fuel)%nat ->
  while fuel (fun w => mret (k <? w)) (fun w => emit end_ c;; mret (w - 1)) (k + Z.of_nat n) (printed out) =
  Ok k (printed (out ++ replicate n c)).
Proof.
  intros Hc. revert out fuel. induction n as [|n IH]; intros out [|fuel] Hf; try lia.
  - simpl. rewrite Z.add_0_r, Z.ltb_irrefl. simpl. by rewrite app_nil_r.
  - rewrite (while_true _ _ _ _ (k + Z.of_nat n) _ (printed out) (printed (out ++ [c]))).
    + rewrite IH by lia. by rewrite <- app_assoc.
    + by rewrite (proj2 (Z.ltb_lt k (k + Z.of_nat (S n)))) by lia.
    + rewrite (run_bind _ _ _ _ _ (emit_printed out c Hc)). unfold mret, M_ret. f_equal. lia.
Qed.

(** Without a character to print the loop ends at once. *)
Lemma pad_loop_none out c k w fuel :
  w <= k -> while (S fuel) (fun w => mret (k <? w)) (fun w => emit end_ c;; mret (w - 1)) w (printed out) = Ok w (printed out).
Proof. intros Hw. simpl. destruct (Z.ltb_spec k w); [lia|]. done. Qed.

Lemma pad_printed out c size :
  0 <= c < 256 ->
  pad end_ c size (printed out) = Ok (Z.min size 0 - 1) (printed (out ++ replicate (Z.to_nat size) c)).
Proof.
  intros Hc. unfold pad. destruct (Z_le_gt_dec size 0) as [Hs|Hs].
  - rewrite (run_bind _ _ _ _ _ (pad_loop_none out c 0 size (Z.to_nat size) Hs)).
    replace (Z.to_nat size) with 0%nat by lia. simpl. rewrite app_nil_r, Z.min_l by lia. done.
  - pose proof (pad_loop out c 0 (Z.to_nat size) (S (Z.to_nat size)) Hc ltac:(lia)) as Hp.
    rewrite Z.add_0_l, Z2Nat.id in Hp by lia. rewrite (run_bind _ _ _ _ _ Hp), Z.min_r by lia. done.
Qed.

(** *** Digits *)

Definition digit_table (large : bool) : list Z := if large then large_digits else small_digits.

Lemma digit_table_lookup large d : 0 <= d < 16 -> digit_table large !! Z.to_nat d = Some (digit_text large d).
Proof.
  intros Hd. replace d with (Z.of_nat (Z.to_nat d)) at 2 by lia.
  assert (Z.to_nat d < 16)%nat as Hn by lia. revert Hn. generalize (Z.to_nat d). intros n Hn.
  do 16 (destruct n as [|n]; [by destruct large|]). lia.
Qed.

Lemma digit_values_length fuel b n (k : nat) : 1 < b -> 0 <= n < b ^ Z.of_nat k -> (length (digit_values fuel b n) <= k)%nat.
Proof.
  intros Hb. revert n k. induction fuel as [|fuel IH]; intros n k Hn; simpl; [lia|].
  destruct (Z.eqb_spec n 0); simpl; [lia|]. destruct k as [|k]; [simpl in Hn; lia|].
  apply le_n_S, IH. rewrite Nat2Z.inj_succ, Z.pow_succ_r in Hn by lia.
  split; [apply Z.div_pos; lia|]. apply Z.div_lt_upper_bound; lia.
Qed.

Lemma digit_values_range fuel b n : 1 < b -> 0 <= n -> Forall (fun d => 0 <= d < b) (digit_values fuel b n).
Proof.
  intros Hb. revert n. induction fuel as [|fuel IH]; intros n Hn; simpl; [constructor|].
  destruct (Z.eqb_spec n 0); [constructor|]. constructor; [apply Z.mod_pos_bound; lia|]. apply IH, Z.div_pos; lia.
Qed.

Definition number_base (base : Z) : Z := if base =? 10 then 10 else 16.

Lemma divide_spec n base : divide n base = (u32 n mod number_base base, s32 (u32 n / number_base base)).
Proof. unfold divide, number_base. by destruct (base =? 10). Qed.

Lemma u32_s32 x : u32 (s32 x) = u32 x.
Proof.
  unfold swrap. destruct (x mod 2 ^ 32 <? 2 ^ (32 - 1)); [apply Zmod_mod|].
  unfold uwrap. rewrite <- (Z.mod_add (x mod 2 ^ 32 - 2 ^ 32) 1 (2 ^ 32)) by lia.
  replace (x mod 2 ^ 32 - 2 ^ 32 + 1 * 2 ^ 32) with (x mod 2 ^ 32) by lia. apply Zmod_mod.
Qed.

Lemma s32_zero x : s32 x = 0 <-> u32 x = 0.
Proof.
  split; intros E.
  - by rewrite <- u32_s32, E.
  - unfold swrap. unfold uwrap in E. by rewrite E.
Qed.

Lemma digits_loop_run large base (fuel : nat) num tmp (s : pstate) :
  (num = 0 <-> u32 num = 0) -> (length tmp + length (digit_values fuel (number_base base) (u32 num)) <= 16)%nat ->
  u32 num < number_base base ^ Z.of_nat fuel ->
  while (S fuel) (fun '(num, _) => mret (negb (num =? 0)))
    (fun '(num, tmp) =>
      let '(d, num') := divide num base in
      c ← opt BadPointer (digit_table large !! Z.to_nat d);
      if (length tmp <? 16)%nat then mret (num', tmp ++ [c]) else throw BadPointer) (num, tmp) s =
  Ok (0, tmp ++ (digit_text large <$> digit_values fuel (number_base base) (u32 num))) s.
Proof.
  assert (10 <= number_base base <= 16) as Hb by (unfold number_base; destruct (base =? 10); lia).
  revert num tmp. induction fuel as [|fuel IH]; intros num tmp Hz Hlen Hlt; pose proof (uwrap_range 32 num ltac:(lia)).
  - simpl in Hlt. assert (num = 0) as -> by (apply Hz; lia). simpl. by rewrite app_nil_r.
  - cbn [digit_values] in *. destruct (Z.eqb_spec num 0) as [Ez|Ez].
    { rewrite Ez. erewrite while_false by done. simpl. by rewrite app_nil_r. }
    rewrite (proj2 (Z.eqb_neq (u32 num) 0)) in * by tauto.
    pose proof (Z.mod_pos_bound (u32 num) (number_base base) ltac:(lia)) as Hd.
    pose proof (Z.div_pos (u32 num) (number_base base) ltac:(lia) ltac:(lia)).
    assert (u32 num / number_base base <= u32 num) by (apply Z.div_le_upper_bound; nia).
    assert (u32 (s32 (u32 num / number_base base)) = u32 num / number_base base) as Eu.
    { rewrite u32_s32. apply uwrap_small. lia. }
    rewrite (while_true _ _ _ _ (s32 (u32 num / number_base base), tmp ++ [digit_text large (u32 num mod number_base base)]) _ s s).
    + rewrite IH.
      * rewrite Eu. simpl. by rewrite <- app_assoc.
      * rewrite Eu. rewrite s32_zero. by rewrite uwrap_small by lia.
      * rewrite Eu, length_app. simpl in *. lia.
      * rewrite Eu. rewrite Nat2Z.inj_succ, Z.pow_succ_r in Hlt by lia. apply Z.div_lt_upper_bound; lia.
    + by rewrite (proj2 (Z.eqb_neq num 0) Ez).
    + simpl in Hlen. rewrite divide_spec, digit_table_lookup by lia. erewrite run_bind by done.
      destruct (Nat.ltb_spec (length tmp) 16); [done|lia].
Qed.

Lemma print_digits_run large base num (s : pstate) :
  (num = 0 <-> u32 num = 0) ->
  print_digits (digit_table large) base num s = Ok (digit_text large <$> digit_values 32 (number_base base) (u32 num)) s.
Proof.
  intros Hz. unfold print_digits. pose proof (uwrap_range 32 num ltac:(lia)).
  assert (10 <= number_base base <= 16) as Hb by (unfold number_base; destruct (base =? 10); lia).
  assert (u32 num < number_base base ^ 10) as Hlt.
  { apply Z.lt_le_trans with (10 ^ 10); [lia|]. apply Z.pow_le_mono_l. lia. }
  rewrite (run_bind _ _ _ (0, digit_text large <$> digit_values 32 (number_base base) (u32 num)) s); [done|].
  apply (digits_loop_run large base 32 num []); [done| |].
  - change (length [] + ?n)%nat with n. pose proof (digit_values_length 32 (number_base base) (u32 num) 10 ltac:(lia) ltac:(lia)). lia.
  - apply Z.lt_le_trans with (number_base base ^ 10); [done|]. apply Z.pow_le_mono_r; lia.
Qed.

(** *** [print_number] *)

Lemma has_testbit x k : 0 <= k -> has x (2 ^ k) = Z.testbit x k.
Proof.
  intros Hk. unfold has. destruct (Z.testbit x k) eqn:E.
  - apply negb_true_iff, Z.eqb_neq. intros E0.
    assert (Z.testbit (Z.land x (2 ^ k)) k = false) as Hf by (rewrite E0; apply Z.bits_0).
    rewrite Z.land_spec, E, Z.pow2_bits_true in Hf by done. done.
  - apply negb_false_iff, Z.eqb_eq, Z.bits_inj_0. intros n.
    rewrite Z.land_spec, Z.pow2_bits_eqb by done. destruct (Z.eqb_spec k n) as [<-|]; [by rewrite E|by rewrite andb_false_r].
Qed.

(** Clearing ZEROPAD leaves the other flags. *)
Lemma has_clear x k : 0 <= k -> has (Z.land x (Z.lnot ZEROPAD)) (2 ^ k) = has x (2 ^ k) && negb (k =? 0).
Proof.
  intros Hk. rewrite !has_testbit, Z.land_spec, Z.lnot_spec by done. f_equal.
Qed.

Lemma has_lor x a b : has x (Z.lor a b) = has x a || has x b.
Proof.
  unfold has. rewrite Z.land_lor_distr_r.
  destruct (Z.eqb_spec (Z.lor (Z.land x a) (Z.land x b)) 0) as [E|E].
  - apply Z.lor_eq_0_iff in E as [-> ->]. done.
  - destruct (Z.eqb_spec (Z.land x a) 0) as [E1|]; [|done].
    destruct (Z.eqb_spec (Z.land x b) 0) as [E2|]; [|done]. rewrite E1, E2 in E. done.
Qed.

(** The flags [print_number] goes on with *)
Definition effective (type : Z) : Z := if has type LEFT then Z.land type (Z.lnot ZEROPAD) else type.

Lemma has_effective type k : 0 < k -> has (effective type) (2 ^ k) = has type (2 ^ k).
Proof.
  intros Hk. unfold effective. destruct (has type LEFT); [|done]. rewrite has_clear by lia.
  rewrite (proj2 (Z.eqb_neq k 0)) by lia. by rewrite andb_true_r.
Qed.

Lemma has_effective_zeropad type : has (effective type) ZEROPAD = has type ZEROPAD && negb (has type LEFT).
Proof.
  unfold effective. destruct (has type LEFT); [|by rewrite andb_true_r].
  change ZEROPAD with (2 ^ 0) at 2. rewrite has_clear by done. by rewrite !andb_false_r.
Qed.

(** The sign and the digits *)
Lemma sign_number num type :
  (if has (effective type) SIGN then
     if num <? 0 then (45, s32 (- num))
     else if has (effective type) PLUS then (43, num)
     else if has (effective type) SPACE then (32, num)
     else (0, num)
   else (0, num)) = (sign_of num type, if has type SIGN && (num <? 0) then s32 (- num) else num).
Proof.
  change SIGN with (2 ^ 1). change PLUS with (2 ^ 2). change SPACE with (2 ^ 3). rewrite !has_effective by lia.
  unfold sign_of. change SIGN with (2 ^ 1). change PLUS with (2 ^ 2). change SPACE with (2 ^ 3).
  destruct (has type (2 ^ 1)); [|done]. destruct (num <? 0); [done|]. destruct (has type (2 ^ 2)); [done|].
  by destruct (has type (2 ^ 3)).
Qed.

Lemma s32_u32_zero num : - 2 ^ 31 <= num < 2 ^ 31 -> (num = 0 <-> u32 num = 0).
Proof. intros Hn. rewrite <- s32_zero, swrap_small by lia. done. Qed.

Lemma number_digits large num type base (s : pstate) :
  - 2 ^ 31 <= num < 2 ^ 31 ->
  let n := if has type SIGN && (num <? 0) then s32 (- num) else num in
  (if n =? 0 then mret [48] else print_digits (digit_table large) base n) s =
  Ok (reverse (digits_text large (number_base base) (magnitude num type))) s.
Proof.
  intros Hn n.
  assert (u32 n = magnitude num type) as Eu.
  { subst n. unfold magnitude. destruct (has type SIGN && (num <? 0)); [apply u32_s32|done]. }
  assert (n = 0 <-> u32 n = 0) as Hz.
  { subst n. destruct (has type SIGN && (num <? 0)); [|by apply s32_u32_zero].
    rewrite u32_s32. apply s32_zero. }
  unfold digits_text. rewrite <- Eu. destruct (Z.eqb_spec n 0) as [E|E].
  - rewrite (proj2 (Z.eqb_eq (u32 n) 0)) by tauto. done.
  - rewrite (proj2 (Z.eqb_neq (u32 n) 0)) by tauto. rewrite (print_digits_run large base n s Hz).
    rewrite <- fmap_reverse, reverse_involutive. done.
Qed.

Lemma digits_text_range large base n : 0 <= n -> Forall (fun c => 0 <= c < 256) (digits_text large (number_base base) n).
Proof.
  intros Hn. unfold digits_text. destruct (n =? 0); [repeat constructor; lia|].
  apply Forall_fmap, Forall_reverse. eapply Forall_impl; [apply digit_values_range; [|done]|].
  - unfold number_base. destruct (base =? 10); lia.
  - intros d [Hd1 Hd2]. assert (d < 16) by (unfold number_base in Hd2; destruct (base =? 10); lia).
    simpl. unfold digit_text. destruct (d <? 10), large; lia.
Qed.

Lemma magnitude_nonneg num type : 0 <= magnitude num type.
Proof. unfold magnitude. case_match; apply uwrap_range; lia. Qed.

Lemma sign_of_range num type : sign_of num type = 0 \/ 0 < sign_of num type < 256.
Proof. unfold sign_of. repeat case_match; lia. Qed.

(** The sign is printed, and taken off the padding when it fits. *)
Lemma emit_sign out sign size :
  sign = 0 \/ 0 < sign < 256 ->
  (if negb (sign =? 0) then
     st ← get; emit end_ sign;; mret (if str st <=? end_ then size - 1 else size)
   else mret size) (printed out) =
  Ok (if negb (sign =? 0) && fits out then size - 1 else size) (printed (out ++ if sign =? 0 then [] else [sign])).
Proof.
  intros Hs. destruct (Z.eqb_spec sign 0) as [E|E]; simpl; [by rewrite app_nil_r|].
  erewrite run_bind by done. rewrite (run_bind _ _ _ _ _ (emit_printed out sign ltac:(lia))). by rewrite fits_str.
Qed.

(** Everything behind the choice of the padding *)
Lemma number_tail out size k ds :
  Forall (fun c => 0 <= c < 256) ds ->
  (pad end_ 48 k;; emit_back end_ (reverse ds) (length ds);; pad end_ 32 size;; mret tt) (printed out) =
  Ok tt (printed (out ++ replicate (Z.to_nat k) 48 ++ ds ++ replicate (Z.to_nat size) 32)).
Proof.
  intros Hds. rewrite (run_bind _ _ _ _ _ (pad_printed out 48 k ltac:(lia))).
  rewrite <- (length_reverse ds). erewrite run_bind by (apply emit_back_printed; by apply Forall_reverse).
  rewrite (run_bind _ _ _ _ _ (pad_printed _ 32 size ltac:(lia))). rewrite reverse_involutive, <- !app_assoc. done.
Qed.

Lemma print_number_printed out num base s precision type :
  - 2 ^ 31 <= num < 2 ^ 31 ->
  print_number end_ num base s precision type (printed out) =
  Ok tt (printed (out ++ number_text (fits out) num base s precision type)).
Proof.
  intros Hn. unfold print_number. fold (effective type).
  change (if has type LARGE then large_digits else small_digits) with (digit_table (has type LARGE)).
  rewrite sign_number. cbv zeta beta iota.
  erewrite run_bind by (apply number_digits; done). unfold number_text. fold (number_base base).
  pose proof (digits_text_range (has type LARGE) base _ (magnitude_nonneg num type)) as Hds.
  set (ds := digits_text _ _ _) in *. rewrite length_reverse.
  set (k := precision - Z.of_nat (length ds)).
  replace ((if precision <? Z.of_nat (length ds) then Z.of_nat (length ds) else precision) - Z.of_nat (length ds)) with (Z.max 0 k)
    by (subst k; case_match; lia).
  assert (Z.of_nat (length (replicate (Z.to_nat k) 48 ++ ds)) =
    (if precision <? Z.of_nat (length ds) then Z.of_nat (length ds) else precision)) as El.
  { rewrite length_app, length_replicate. subst k. case_match; lia. }
  rewrite El. set (sz := s - _). replace (Z.to_nat k) with (Z.to_nat (Z.max 0 k)) by lia.
  rewrite has_lor, has_effective_zeropad. change LEFT with (2 ^ 4). rewrite has_effective by lia.
  pose proof (sign_of_range num type) as Hsign. set (sign := sign_of num type) in *.
  destruct (has type (2 ^ 4)); [|destruct (has type ZEROPAD)];
    rewrite ?andb_false_r, ?andb_true_r, ?orb_true_r; cbn [negb orb andb].
  - erewrite run_bind by done. rewrite (run_bind _ _ _ _ _ (emit_sign out sign sz Hsign)).
    erewrite run_bind by done. rewrite number_tail by done. by rewrite <- !app_assoc.
  - erewrite run_bind by done. rewrite (run_bind _ _ _ _ _ (emit_sign out sign sz Hsign)).
    rewrite (run_bind _ _ _ _ _ (pad_printed _ 48 _ ltac:(lia))), number_tail by done.
    rewrite (Z2Nat.nonpos (Z.min _ _ - 1)) by lia. simpl. rewrite app_nil_r, <- !app_assoc. done.
  - rewrite (run_bind _ _ _ _ _ (pad_printed _ 32 _ ltac:(lia))), (run_bind _ _ _ _ _ (emit_sign _ sign _ Hsign)).
    rewrite (run_bind _ _ _ _ _ (pad_printed _ 32 _ ltac:(lia))), number_tail by done.
    rewrite !(Z2Nat.nonpos (Z.min _ _ - 1)) by lia. rewrite (Z2Nat.nonpos (if negb (sign =? 0) && fits _ then _ else _)) by (destruct (_ && fits _); lia).
    simpl. rewrite <- !app_assoc. do 3 f_equal.
    destruct (Z.eqb_spec sign 0); simpl; rewrite app_nil_r; [done|]. destruct (Z.ltb_spec 0 sz); [done|].
    rewrite (Z2Nat.nonpos sz), (Z2Nat.nonpos (sz - 1)) by lia. done.
Qed.

(** *** Characters and strings *)

Lemma prepad_printed out w :
  prepad end_ w (printed out) = Ok (Z.min (w - 1) 0) (printed (out ++ replicate (Z.to_nat (w - 1)) 32)).
Proof.
  unfold prepad. destruct (Z_le_gt_dec w 1) as [Hw|Hw].
  - rewrite pad_loop_none by lia. rewrite (Z2Nat.nonpos (w - 1)) by lia. simpl. rewrite app_nil_r, Z.min_l by lia. done.
  - pose proof (pad_loop out 32 0 (Z.to_nat (w - 1)) (S (Z.to_nat w)) ltac:(lia) ltac:(lia)) as Hp.
    rewrite Z.add_0_l, Z2Nat.id in Hp by lia. rewrite Hp, Z.min_r by lia. done.
Qed.

Lemma strpad_printed out len w :
  strpad end_ len w (printed out) = Ok (Z.min w len - 1) (printed (out ++ replicate (Z.to_nat (w - len)) 32)).
Proof.
  unfold strpad. destruct (Z_le_gt_dec w len) as [Hw|Hw].
  - rewrite (run_bind _ _ _ _ _ (pad_loop_none out 32 len w _ Hw)). rewrite (Z2Nat.nonpos (w - len)) by lia.
    simpl. rewrite app_nil_r, Z.min_l by lia. done.
  - pose proof (pad_loop out 32 len (Z.to_nat (w - len)) (S (Z.to_nat (w - len))) ltac:(lia) ltac:(lia)) as Hp.
    replace (len + Z.of_nat (Z.to_nat (w - len))) with w in Hp by lia.
    rewrite (run_bind _ _ _ _ _ Hp), Z.min_r by lia. done.
Qed.

Lemma print_char_printed out d w :
  print_char end_ d w (printed out) = Ok tt (printed (out ++ char_text d w)).
Proof.
  unfold print_char, char_text. pose proof (uwrap_range 8 w ltac:(lia)).
  destruct (has (d_flags d) LEFT); simpl.
  - erewrite run_bind by done. rewrite (run_bind _ _ _ _ _ (emit_printed _ _ ltac:(done))).
    rewrite (run_bind _ _ _ _ _ (prepad_printed _ _)). by rewrite <- app_assoc.
  - rewrite (run_bind _ _ _ _ _ (prepad_printed _ _)), (run_bind _ _ _ _ _ (emit_printed _ _ ltac:(done))).
    rewrite (run_bind _ _ _ _ _ (prepad_printed _ _)), (Z2Nat.nonpos (Z.min _ _ - 1)) by lia.
    simpl. rewrite app_nil_r, <- app_assoc. done.
Qed.

Definition outside (p : Z) (l : list Z) : Prop := p + Z.of_nat (length l) < buf \/ end_ < p.

Lemma printed_outside out a : a < buf \/ end_ < a -> pram (printed out) !! a = m0 !! a.
Proof.
  intros Ha. simpl. rewrite lookup_write_bytes, length_take. unfold space. case_decide; [lia|done].
Qed.

Lemma cstr_printed out p l : outside p l -> cstr m0 p l -> cstr (pram (printed out)) p l.
Proof.
  intros Ho [Hb Hl]. split; [|done]. clear Hl. revert Hb. unfold outside in Ho.
  assert (forall l' q, p <= q -> q + Z.of_nat (length l') <= p + Z.of_nat (length l) + 1 ->
    bytes_at m0 q l' -> bytes_at (pram (printed out)) q l') as Hgen.
  { induction l' as [|c l' IH]; intros q Hq Hle; [done|]. cbn [bytes_at]. simpl length in Hle.
    intros [Hc Hr]. split; [rewrite printed_outside by lia; done|]. apply IH; [lia|lia|done]. }
  apply Hgen; rewrite ?length_app; simpl; lia.
Qed.

Lemma emit_string_printed (k : nat) out p l :
  outside p l -> cstr m0 p l -> (k <= length l)%nat ->
  emit_string end_ p k (printed out) = Ok tt (printed (out ++ take k l)).
Proof.
  revert out p l. induction k as [|k IH]; intros out p l Ho Hs Hk; [by rewrite take_0, app_nil_r|].
  destruct l as [|c l]; [simpl in Hk; lia|]. apply cstr_cons in Hs as (Hc & Hr & Hs).
  unfold outside in Ho. simpl length in *. cbn [emit_string].
  erewrite run_bind.
  2: { unfold on_pram, rd8, get, opt, mbind, M_bind. rewrite printed_outside by lia. by rewrite Hc. }
  change (mk_pstate _ _) with (printed out). rewrite (run_bind _ _ _ _ _ (emit_printed out c ltac:(lia))).
  rewrite (IH _ _ l) by (done || lia || (unfold outside; lia)). by rewrite <- app_assoc.
Qed.

(** The strings of the arguments are in memory, apart from the buffer. *)
Definition strings_ok (sfuel : nat) (strings : gmap Z (list Z)) : Prop :=
  map_Forall (fun p l => cstr m0 p l /\ outside p l /\ (length l < sfuel)%nat /\ Z.of_nat (length l) < 2 ^ 31) strings.

Lemma print_string_printed sfuel strings out d p s :
  strings_ok sfuel strings -> string_arg strings p = Some s ->
  print_string sfuel end_ d p (printed out) = Ok tt (printed (out ++ string_text d s)).
Proof.
  intros Hok Hs. unfold print_string, string_text.
  set (len := if (0 <? d_precision d) && (d_precision d <? Z.of_nat (length s)) then d_precision d else Z.of_nat (length s)).
  assert (forall out, (if p =? RT_NULL then emit_list end_ (take (Z.to_nat len) null_string)
    else emit_string end_ p (Z.to_nat len)) (printed out) = Ok tt (printed (out ++ take (Z.to_nat len) s))) as Hemit.
  { intros o. unfold string_arg in Hs. destruct (p =? RT_NULL).
    - injection Hs as <-. apply emits_printed, Forall_take. repeat constructor; lia.
    - destruct (Hok p s Hs) as (Hc & Ho & _). apply emit_string_printed; [done..|].
      subst len. destruct (_ && _) eqn:E; lia. }
  assert ((if p =? RT_NULL then mret (Z.of_nat (length null_string)) else on_pram (rt_strlen sfuel p)) (printed out) =
    Ok (Z.of_nat (length s)) (printed out) /\ Z.of_nat (length s) < 2 ^ 31) as [Hlen Hsmall].
  { unfold string_arg in Hs. destruct (p =? RT_NULL); [by injection Hs as <-|].
    destruct (Hok p s Hs) as (Hc & Ho & Hf & Hl). split; [|done].
    destruct (wp_ok _ _ _ (rt_strlen_spec _ p s sfuel (cstr_printed out p s Ho Hc) Hf ltac:(lia))) as (r & m' & E & -> & ->).
    unfold on_pram. by rewrite E. }
  rewrite (run_bind _ _ _ _ _ Hlen), swrap_small by lia. fold len.
  assert ((if 0 <? d_precision d then take (Z.to_nat (d_precision d)) s else s) = take (Z.to_nat len) s) as ->.
  { subst len. destruct (Z.ltb_spec 0 (d_precision d)); simpl; [|by rewrite Nat2Z.id, firstn_all].
    destruct (Z.ltb_spec (d_precision d) (Z.of_nat (length s))); [done|]. by rewrite !take_ge by lia. }
  assert (Z.of_nat (length (take (Z.to_nat len) s)) = len) as ->.
  { rewrite length_take. subst len. destruct (_ && _) eqn:E; lia. }
  destruct (has (d_flags d) LEFT); simpl.
  - erewrite run_bind by done. rewrite (run_bind _ _ _ _ _ (Hemit out)).
    rewrite (run_bind _ _ _ _ _ (strpad_printed _ _ _)). by rewrite <- app_assoc.
  - rewrite (run_bind _ _ _ _ _ (strpad_printed _ _ _)), (run_bind _ _ _ _ _ (Hemit _)).
    rewrite (run_bind _ _ _ _ _ (strpad_printed _ _ _)), (Z2Nat.nonpos (Z.min _ _ - 1 - _)) by lia.
    simpl. rewrite app_nil_r, <- app_assoc. done.
Qed.

(** *** Directives *)

Lemma number_arg_range q flags w : - 2 ^ 31 <= number_arg q flags w < 2 ^ 31.
Proof. unfold number_arg. destruct (q =? 104); [destruct (has flags SIGN)|]; apply (swrap_range 32); lia. Qed.

Lemma print_directive_printed sfuel strings out d x rest args :
  strings_ok sfuel strings -> 0 <= first (d_rest d) < 256 ->
  directive_text (fits out) strings d = Some (x, rest, args) ->
  print_directive sfuel end_ d (printed out) = Ok (rest, args) (printed (out ++ x)).
Proof.
  intros Hok Hc Ht. unfold directive_text in Ht. unfold print_directive.
  destruct (first (d_rest d) =? 99); [|destruct (first (d_rest d) =? 115); [|destruct (first (d_rest d) =? 112);
    [|destruct (first (d_rest d) =? 37); [|destruct (integer_conversion _) as [[base fl]|]]]]];
    try (destruct (va_arg (d_args d)) as [[w args']|]; [|done]; simpl in Ht; erewrite run_bind by done; cbv beta iota).
  - injection Ht as <- <- <-. by rewrite (run_bind _ _ _ _ _ (print_char_printed out d w)).
  - destruct (string_arg strings (u32 w)) as [l|] eqn:El; [|done]. injection Ht as <- <- <-.
    by rewrite (run_bind _ _ _ _ _ (print_string_printed _ _ out d _ _ Hok El)).
  - injection Ht as <- <- <-. pose proof (swrap_range 32 w ltac:(lia)).
    destruct (d_width d =? -1); by rewrite (run_bind _ _ _ _ _ (print_number_printed out (s32 w) 16 _ _ _ ltac:(done))).
  - injection Ht as <- <- <-. by rewrite (run_bind _ _ _ _ _ (emit_printed out 37 ltac:(lia))).
  - injection Ht as <- <- <-.
    by rewrite (run_bind _ _ _ _ _ (print_number_printed out _ base _ _ _ (number_arg_range _ _ w))).
  - injection Ht as <- <- <-. rewrite (run_bind _ _ _ _ _ (emit_printed out 37 ltac:(lia))).
    destruct (first (d_rest d) =? 0); simpl; [done|].
    rewrite (run_bind _ _ _ _ _ (emit_printed _ _ Hc)). by rewrite <- app_assoc.
Qed.

(** Parsing takes characters off the front of the format. *)
Lemma parse_flags_suffix fmt flags : (parse_flags fmt flags).2 `suffix_of` fmt.
Proof.
  revert flags. induction fmt as [|c fmt IH]; intros flags; simpl; [done|].
  repeat case_match; simpl; try (apply suffix_cons_r, IH); done.
Qed.

Lemma skip_atoi_suffix fmt i : (skip_atoi fmt i).2 `suffix_of` fmt.
Proof.
  revert i. induction fmt as [|c fmt IH]; intros i; simpl; [done|].
  case_match; [apply suffix_cons_r, IH|done].
Qed.

Lemma tail_suffix (fmt : list Z) : tail fmt `suffix_of` fmt.
Proof. destruct fmt; [done|]. by apply suffix_cons_r. Qed.

Lemma parse_width_suffix fmt args flags w flags' fmt' args' :
  parse_width fmt args flags = Some (w, flags', fmt', args') -> fmt' `suffix_of` fmt.
Proof.
  unfold parse_width. intros E. destruct (isdigit (first fmt)).
  - pose proof (skip_atoi_suffix fmt 0) as Hs. destruct (skip_atoi fmt 0). simpl in Hs. by simplify_eq.
  - destruct (first fmt =? 42); [|by simplify_eq]. destruct (va_arg args) as [[w0 a]|]; [|done]. simpl in E.
    destruct (s32 w0 <? 0); simplify_eq; apply tail_suffix.
Qed.

Lemma parse_precision_suffix fmt args p fmt' args' :
  parse_precision fmt args = Some (p, fmt', args') -> fmt' `suffix_of` fmt.
Proof.
  unfold parse_precision. intros E. destruct (first fmt =? 46); [|by simplify_eq].
  transitivity (tail fmt); [|apply tail_suffix]. destruct (isdigit (first (tail fmt))).
  - pose proof (skip_atoi_suffix (tail fmt) 0) as Hs. destruct (skip_atoi (tail fmt) 0). simpl in Hs, E. by simplify_eq.
  - destruct (first (tail fmt) =? 42); [|by simplify_eq/=].
    destruct (va_arg args) as [[w0 a]|]; [|done]. simpl in E. simplify_eq. apply tail_suffix.
Qed.

Lemma parse_directive_suffix fmt args d : parse_directive fmt args = Some d -> d_rest d `suffix_of` fmt.
Proof.
  unfold parse_directive. pose proof (parse_flags_suffix fmt 0) as Hs. destruct (parse_flags fmt 0) as [flags f1].
  simpl in Hs. destruct (parse_width f1 args flags) as [[[[w fl] f2] a2]|] eqn:E2; [|done]. simpl.
  destruct (parse_precision f2 a2) as [[[p f3] a3]|] eqn:E3; [|done]. simpl.
  apply parse_width_suffix in E2. apply parse_precision_suffix in E3.
  intros E. assert (d_rest d `suffix_of` f3) as E4.
  { destruct (_ || _); simplify_eq/=; [apply tail_suffix|done]. }
  etrans; [done|]. etrans; [done|]. by etrans.
Qed.

Lemma directive_text_rest b strings d x rest args :
  directive_text b strings d = Some (x, rest, args) -> rest = tail (d_rest d).
Proof.
  unfold directive_text. intros E. repeat case_match; simplify_option_eq; try done;
  repeat case_match; simplify_option_eq; done.
Qed.

Lemma bytes_suffix (P : Z -> Prop) (l1 l2 : list Z) : l1 `suffix_of` l2 -> Forall P l2 -> Forall P l1.
Proof. intros [l ->] Hl. by apply Forall_app in Hl as [_ Hl]. Qed.

(** *** The text a buffer without end would get *)

Lemma number_text_fits b num base width precision flags :
  let x := number_text true num base width precision flags in
  let x' := number_text b num base width precision flags in
  (length x <= length x' <= S (length x))%nat.
Proof.
  destruct b; [simpl; lia|]. unfold number_text. rewrite andb_true_r, andb_false_r.
  destruct (sign_of num flags =? 0); simpl negb; cbv iota; [lia|].
  destruct (has flags LEFT); [|destruct (has flags ZEROPAD)]; rewrite !length_app, !length_replicate; lia.
Qed.

Lemma directive_text_fits b strings d x rest args :
  directive_text true strings d = Some (x, rest, args) ->
  exists x', directive_text b strings d = Some (x', rest, args) /\ (b = true -> x' = x) /\
    (length x <= length x' <= S (length x))%nat.
Proof.
  intros E. destruct b; [exists x; repeat split; [done|lia..]|]. unfold directive_text in *.
  destruct (first (d_rest d) =? 99); [|destruct (first (d_rest d) =? 115); [|destruct (first (d_rest d) =? 112);
    [|destruct (first (d_rest d) =? 37); [|destruct (integer_conversion _) as [[base fl]|]]]]];
    try (exists x; repeat split; [done|lia..]);
    (destruct (va_arg (d_args d)) as [[w args']|]; [|done]); simpl in *; injection E as <- <- <-.
  - eexists. split; [done|]. split; [done|]. destruct (d_width d =? -1); apply (number_text_fits false).
  - eexists. split; [done|]. split; [done|]. apply (number_text_fits false).
Qed.

(** [o] has been printed where [t] is meant: they agree as far as the buffer goes. *)
Definition agree (k : nat) (o t : list Z) : Prop :=
  take space o = take space t /\ (length t <= length o <= length t + k)%nat.

Lemma agree_short k o t : agree k o t -> (length o < space)%nat -> o = t.
Proof.
  intros [E _] Hl. rewrite (take_ge o) in E by lia. rewrite E, length_take in Hl.
  rewrite (take_ge t) in E by lia. done.
Qed.

Lemma agree_app k o t x x' :
  agree k o t -> (fits o = true -> x' = x) -> (length x <= length x' <= S (length x))%nat ->
  agree (S k) (o ++ x') (t ++ x).
Proof.
  intros Ha Hx Hl. unfold fits in Hx. pose proof Ha as [E Hk]. split; [|rewrite !length_app; lia].
  destruct (Nat.ltb_spec (length o) space) as [Hs|Hs].
  - rewrite Hx by done. by rewrite (agree_short _ _ _ Ha Hs).
  - rewrite take_app_le by lia. rewrite E. destruct (decide (space <= length t)%nat) as [Ht|Ht].
    + by rewrite take_app_le by lia.
    + exfalso. rewrite (take_ge t) in E by lia. assert (length (take space o) = length t) as El by (by rewrite E).
      rewrite length_take in El. lia.
Qed.

Lemma format_printed fuel sfuel strings fmt args k o t1 t2 :
  strings_ok sfuel strings -> Forall (fun c => 0 < c < 256) fmt -> agree k o t1 ->
  format_text fuel strings fmt args = Some t2 ->
  exists o', format fuel sfuel end_ fmt args (printed o) = Ok tt (printed o') /\ agree (k + length fmt) o' (t1 ++ t2).
Proof.
  intros Hok. revert fmt args k o t1 t2. induction fuel as [|fuel IH]; intros fmt args k o t1 t2 Hb Ha Ht; [done|].
  destruct fmt as [|c fmt]; cbn [format format_text] in *.
  { injection Ht as <-. exists o. rewrite app_nil_r. split; [done|]. destruct Ha. split; [done|]. simpl. lia. }
  inversion_clear Hb as [|?? Hc Hb']. destruct (negb (c =? 37)).
  - destruct (format_text fuel strings fmt args) as [t|] eqn:Et; [|done]. injection Ht as <-.
    destruct (IH fmt args (S k) (o ++ [c]) (t1 ++ [c]) t Hb' (agree_app _ _ _ [c] [c] Ha ltac:(done) ltac:(simpl; lia)) Et)
      as (o' & E & Ha').
    exists o'. rewrite (run_bind _ _ _ _ _ (emit_printed o c ltac:(lia))), E. split; [done|].
    rewrite <- app_assoc in Ha'. cbn [length]. by rewrite Nat.add_succ_r.
  - destruct (parse_directive fmt args) as [d|] eqn:Ed; [|done]. cbn [mbind option_bind] in Ht.
    destruct (directive_text true strings d) as [[[x rest] args']|] eqn:Ex; [|done]. cbn [mbind option_bind] in Ht.
    destruct (format_text fuel strings rest args') as [t|] eqn:Et; [|done]. injection Ht as <-.
    pose proof (parse_directive_suffix _ _ _ Ed) as Hsuf. pose proof (directive_text_rest _ _ _ _ _ _ Ex) as ->.
    destruct (directive_text_fits (fits o) _ _ _ _ _ Ex) as (x' & Ex' & Hx & Hl).
    assert (Forall (fun c => 0 < c < 256) (d_rest d)) as Hr by (by eapply bytes_suffix).
    assert (0 <= first (d_rest d) < 256) as Hf by (destruct Hr; simpl; lia).
    destruct (IH (tail (d_rest d)) args' (S k) (o ++ x') (t1 ++ x) t) as (o' & E & Ha'); [|by apply agree_app|done|].
    { eapply bytes_suffix; [apply tail_suffix|done]. }
    exists o'. erewrite run_bind by done.
    rewrite (run_bind _ _ _ _ _ (print_directive_printed _ _ o d x' _ _ Hok Hf Ex')). cbv beta iota. rewrite E. split; [done|].
    rewrite <- app_assoc in Ha'. destruct Ha' as [Ha1 Ha2]. split; [done|].
    apply suffix_length in Hsuf. pose proof (suffix_length _ _ (tail_suffix (d_rest d))). cbn [length]. lia.
Qed.

End output.

(** ** Properties *)

(** The memory the call needs: the buffer of [size] bytes, and the strings the arguments
    point to, apart from it. *)
Record printf_pre (m : mem) (buf size : Z) (sfuel : nat) (strings : gmap Z (list Z)) (fmt : list Z) : Prop := {
  pp_size : 1 <= size;
  pp_buf : 0 <= buf;
  pp_end : buf + size <= 2 ^ 32;
  pp_mapped : mapped m buf size;
  pp_fmt : Forall (fun c => 0 < c < 256) fmt;
  pp_strings : strings_ok m buf (buf + size - 1) sfuel strings
}.

Lemma buffer_end_small buf size : 1 <= size -> 0 <= buf -> buf + size <= 2 ^ 32 -> buffer_end buf size = buf + size - 1.
Proof.
  intros H1 H2 H3. unfold buffer_end. rewrite uwrap_small by lia. destruct (Z.ltb_spec (buf + size - 1) buf); lia.
Qed.

(** The terminator goes behind the text, or over the last byte of the buffer. *)
Lemma terminate m buf size k o t :
  1 <= size -> mapped m buf size -> agree buf (buf + size - 1) k o t ->
  on_pram (wr8 (if buf + Z.of_nat (length o) <=? buf + size - 1 then buf + Z.of_nat (length o) else buf + size - 1) 0)
    (printed m buf (buf + size - 1) o) =
  Ok tt (mk_pstate (buf + Z.of_nat (length o)) (write_bytes m buf (take (Z.to_nat (size - 1)) t ++ [0]))).
Proof.
  intros Hs Hm Ha. set (a := if _ <=? _ then _ else _).
  assert (is_Some (pram (printed m buf (buf + size - 1) o) !! a)) as [v Ev].
  { apply mapped_write_bytes with (q := buf) (n := size); [done|]. subst a. case_match; lia. }
  unfold on_pram, wr8, get, opt, modify, mbind, M_bind. rewrite Ev. unfold mret, M_ret. do 2 f_equal.
  change (u8 0) with 0. apply map_eq. intros b. rewrite lookup_insert. simpl. rewrite !lookup_write_bytes, !length_app, !length_take.
  unfold space. replace (buf + size - 1 - buf + 1) with size by lia. pose proof Ha as [Et Hlen].
  unfold space in Et. replace (buf + size - 1 - buf + 1) with size in Et by lia.
  assert (length (take (Z.to_nat size) o) = length (take (Z.to_nat size) t)) as El by (by rewrite Et).
  rewrite !length_take in El. simpl length.
  assert (a = buf + Z.of_nat (Z.to_nat (size - 1) `min` length t)) as Ea by (subst a; case_match; lia).
  repeat case_decide; try lia; try done.
  - rewrite lookup_app_r by (rewrite length_take; lia). rewrite length_take.
    replace (Z.to_nat (b - buf) - Z.to_nat (size - 1) `min` length t)%nat with 0%nat by lia. done.
  - rewrite lookup_app_l by (rewrite length_take; lia). rewrite Et. rewrite !lookup_take_lt by lia. done.
Qed.

Lemma rt_vsnprintf_spec m buf size sfuel strings fmt args t :
  printf_pre m buf size sfuel strings fmt -> printf_text strings fmt args = Some t ->
  Z.of_nat (length t + length fmt) < 2 ^ 31 ->
  exists n, rt_vsnprintf sfuel buf size fmt args m = Ok n (write_bytes m buf (take (Z.to_nat (size - 1)) t ++ [0])) /\
    Z.of_nat (length t) <= n /\ (Z.of_nat (length t) < size -> n = Z.of_nat (length t)).
Proof.
  intros [Hs Hb He Hm Hf Hok] Ht Hlen. unfold rt_vsnprintf. rewrite buffer_end_small by done. cbv zeta.
  assert (mapped m buf (buf + size - 1 - buf + 1)) as Hm' by (by replace (buf + size - 1 - buf + 1) with size by lia).
  assert (agree buf (buf + size - 1) 0 [] []) as Ha0 by (split; [done|simpl; lia]).
  destruct (format_printed m buf (buf + size - 1) ltac:(lia) Hm' _ sfuel strings fmt args 0 [] [] t Hok Hf Ha0 Ht) as (o & Ho & Ha).
  exists (Z.of_nat (length o)).
  replace (mk_pstate buf m) with (printed m buf (buf + size - 1) []) by (unfold printed; simpl; by rewrite take_nil, Z.add_0_r).
  rewrite (run_bind _ _ _ _ _ Ho). erewrite run_bind by done. simpl str.
  rewrite (run_bind _ _ _ _ _ (terminate m buf size _ o _ Hs Hm Ha)). pose proof Ha as [Et Hl]. simpl in Hl. unfold mret, M_ret.
  rewrite swrap_small by lia. split; [f_equal; lia|]. split; [lia|]. intros Hfit.
  assert (length o < space buf (buf + size - 1))%nat as Hlo.
  { assert (length (take (space buf (buf + size - 1)) o) = length (take (space buf (buf + size - 1)) t)) as E by (by rewrite Et).
    rewrite !length_take in E. unfold space in *. lia. }
  by rewrite (agree_short _ _ _ _ _ Ha Hlo).
Qed.

(** *** Decimal numbers *)

Lemma skip_atoi_app l1 l2 i :
  Forall (fun c => isdigit c = true) l1 -> skip_atoi (l1 ++ l2) i = skip_atoi l2 (skip_atoi l1 i).1.
Proof.
  intros Hl. revert i. induction Hl as [|c l1 Hc Hl IH]; intros i; simpl; [done|]. by rewrite Hc, IH.
Qed.

Lemma skip_atoi_digits l i : Forall (fun c => isdigit c = true) l -> (skip_atoi l i).2 = [].
Proof.
  intros Hl. revert i. induction Hl as [|c l Hc Hl IH]; intros i; simpl; [done|]. by rewrite Hc.
Qed.

Lemma digit_isdigit d : 0 <= d < 10 -> isdigit (digit_text false d) = true.
Proof.
  intros Hd. unfold isdigit, digit_text. rewrite (proj2 (Z.ltb_lt d 10)) by lia.
  rewrite uwrap_small by lia. apply Z.ltb_lt. lia.
Qed.

Lemma s32_ext x y : u32 x = u32 y -> s32 x = s32 y.
Proof. unfold swrap, uwrap. by intros ->. Qed.

Lemma s32_step x y : s32 (s32 x * 10 + y) = s32 (x * 10 + y).
Proof.
  apply s32_ext. pose proof (u32_s32 x) as Ex. unfold uwrap in *.
  rewrite <- Zplus_mod_idemp_l, <- Zmult_mod_idemp_l, Ex. by rewrite Zmult_mod_idemp_l, Zplus_mod_idemp_l.
Qed.

(** Reading back the digits of [n] *)
Lemma skip_atoi_values fuel n :
  0 <= n < 10 ^ Z.of_nat fuel ->
  (skip_atoi (digit_text false <$> reverse (digit_values fuel 10 n)) 0).1 = s32 n.
Proof.
  revert n. induction fuel as [|fuel IH]; intros n Hn; simpl.
  { simpl in Hn. by replace n with 0 by lia. }
  destruct (Z.eqb_spec n 0) as [->|Hz]; [done|]. rewrite reverse_cons, fmap_app.
  pose proof (Z.mod_pos_bound n 10 ltac:(lia)) as Hm. pose proof (Z.div_mod n 10 ltac:(lia)).
  rewrite Nat2Z.inj_succ, Z.pow_succ_r in Hn by lia.
  rewrite skip_atoi_app.
  - rewrite IH by (split; [apply Z.div_pos|apply Z.div_lt_upper_bound]; lia). simpl. rewrite digit_isdigit by done. simpl.
    unfold digit_text. rewrite (proj2 (Z.ltb_lt (n mod 10) 10)) by lia.
    replace (s32 (n / 10) * 10 + (48 + n mod 10) - 48) with (s32 (n / 10) * 10 + n mod 10) by lia.
    rewrite s32_step. f_equal. lia.
  - apply Forall_fmap, Forall_reverse. eapply Forall_impl; [apply digit_values_range; [lia|]|].
    + apply Z.div_pos; lia.
    + intros d Hd. by apply digit_isdigit.
Qed.

Lemma skip_atoi_text n : 0 <= n < 2 ^ 32 -> skip_atoi (digits_text false 10 n) 0 = (s32 n, []).
Proof.
  intros Hn. unfold digits_text. destruct (Z.eqb_spec n 0) as [->|Hz]; [done|].
  rewrite (surjective_pairing (skip_atoi _ _)). f_equal; [apply skip_atoi_values; lia|]. apply skip_atoi_digits.
  apply Forall_fmap, Forall_reverse. eapply Forall_impl; [apply digit_values_range; lia|].
  intros d Hd. by apply digit_isdigit.
Qed.

(** The format of one decimal number, [%d] *)
Definition percent_d : list Z := [37; 100].
Definition minus (n : Z) : list Z := if n <? 0 then [45] else [].

Lemma s32_u32 n : - 2 ^ 31 <= n < 2 ^ 31 -> s32 (u32 n) = n.
Proof. intros Hn. rewrite <- (swrap_small 32 n) at 2 by lia. apply s32_ext. unfold uwrap. apply Zmod_mod. Qed.

Lemma digits_text_length n : 0 <= n < 10 ^ 10 -> (length (digits_text false 10 n) <= 10)%nat.
Proof.
  intros Hn. unfold digits_text. destruct (n =? 0); [simpl; lia|]. rewrite length_fmap, length_reverse.
  apply digit_values_length; [lia|]. done.
Qed.

Lemma decimal_text n :
  - 2 ^ 31 <= n < 2 ^ 31 ->
  printf_text ∅ percent_d [u32 n] = Some (minus n ++ digits_text false 10 (Z.abs n)).
Proof.
  intros Hn. transitivity (Some (number_text true (s32 (u32 n)) 10 (-1) (-1) 2 ++ [])); [done|].
  rewrite app_nil_r, s32_u32 by done. f_equal. unfold number_text, sign_of, magnitude.
  change (has 2 LEFT) with false. change (has 2 ZEROPAD) with false. change (has 2 SIGN) with true.
  change (has 2 PLUS) with false. change (has 2 SPACE) with false. change (has 2 LARGE) with false.
  change (10 =? 10) with true. rewrite andb_true_l. cbv iota.
  assert ((if n <? 0 then u32 (- n) else u32 n) = Z.abs n) as ->.
  { destruct (Z.ltb_spec n 0); rewrite uwrap_small by lia; lia. }
  rewrite (Z2Nat.nonpos (-1 - Z.of_nat (length _))) by lia. simpl app.
  rewrite (Z2Nat.nonpos (if _ =? 0 then _ else _)) by (destruct (_ =? 0); lia). unfold minus.
  by destruct (Z.ltb_spec n 0).
Qed.

(** *** The theorems *)

(** Print and parse: what [rt_snprintf] prints for [%d] is the number's sign and digits
    that the decimal parser of the formatter reads back as the number, for every 32-bit
    number and any buffer that holds the text. *)
Theorem decimal_roundtrip m buf size sfuel n :
  printf_pre m buf size sfuel ∅ percent_d -> 12 <= size -> - 2 ^ 31 <= n < 2 ^ 31 ->
  exists ds m', rt_snprintf sfuel buf size percent_d [u32 n] m = Ok (Z.of_nat (length (minus n ++ ds))) m' /\
    read_bytes m' buf (length (minus n ++ ds ++ [0])) = Some (minus n ++ ds ++ [0]) /\
    skip_atoi ds 0 = (s32 (Z.abs n), []).
Proof.
  intros Hp Hs Hn. exists (digits_text false 10 (Z.abs n)). pose proof (digits_text_length (Z.abs n) ltac:(lia)) as Hd.
  set (ds := digits_text _ _ _) in *.
  assert (length (minus n ++ ds) <= 11)%nat as Hl by (rewrite length_app; unfold minus; destruct (n <? 0); simpl; lia).
  destruct (rt_vsnprintf_spec m buf size sfuel ∅ percent_d [u32 n] (minus n ++ ds) Hp (decimal_text n Hn) ltac:(simpl; lia))
    as (r & E & _ & Er).
  eexists. split; [unfold rt_snprintf; rewrite E, Er by lia; done|]. split.
  - rewrite take_ge by lia. rewrite app_assoc. apply read_bytes_intro. intros i b Hb.
    pose proof (lookup_lt_Some _ _ _ Hb). rewrite lookup_write_bytes, decide_True by lia.
    by replace (Z.to_nat (buf + Z.of_nat i - buf)) with i by lia.
  - apply skip_atoi_text. lia.
Qed.

(** [%o] prints in hexadecimal: the digits are taken off by sixteens whenever the base is
    not ten. *)
Theorem octal_prints_hexadecimal m buf size sfuel w :
  rt_snprintf sfuel buf size [37; 111] [w] m = rt_snprintf sfuel buf size [37; 120] [w] m.
Proof. reflexivity. Qed.

(** ** Concrete runs *)

Module PrintfDemo.
Import Stdlib.Strings.String.StringSyntax.

Local Open Scope string_scope.
Local Open Scope Z_scope.
Definition text (s : Stdlib.Strings.String.string) : list Z :=
  (fun c => Z.of_N (Stdlib.Strings.Ascii.N_of_ascii c)) <$> Stdlib.Strings.String.list_ascii_of_string s.

(** A buffer of 24 bytes at 0x100 and the string "rtt" at 0x200 *)
Definition buf : Z := 0x100.
Definition name : Z := 0x200.
Definition m0 : mem := write_bytes (write_bytes ∅ buf (replicate 24 7)) name (text "rtt" ++ [0]).
Definition strings : gmap Z (list Z) := {[ name := text "rtt" ]}.

Lemma demo_pre size f : 1 <= size <= 24 -> Forall (fun c => 0 < c < 256) f -> printf_pre m0 buf size 8 strings f.
Proof.
  intros Hs Hf. split; try done; try (unfold buf; lia).
  - intros a Ha. unfold m0. apply mapped_write_bytes with (q := buf) (n := 24); [|lia].
    intros b Hb. rewrite lookup_write_bytes, length_replicate, decide_True by lia.
    rewrite lookup_replicate_2 by lia. done.
  - unfold strings. intros p l. rewrite lookup_singleton_Some. intros [<- <-].
    repeat split; try (vm_compute; done); [|right; unfold buf, name; lia|simpl; lia].
    repeat constructor.
Qed.

Lemma decimal_roundtrip_witness :
  exists ds m', rt_snprintf 8 buf 24 percent_d [u32 (-1234)] m0 = Ok (Z.of_nat (length (minus (-1234) ++ ds))) m' /\
    read_bytes m' buf (length (minus (-1234) ++ ds ++ [0])) = Some (minus (-1234) ++ ds ++ [0]) /\
    skip_atoi ds 0 = (1234, []).
Proof.
  apply (decimal_roundtrip m0 buf 24 8 (-1234)); [|lia..].
  destruct (demo_pre 24 percent_d) as [? ? ? ? ? _]; [lia|repeat constructor|]. split; [done..|]. done.
Defined.

(** The result depends on the buffer: the zero-padded number counts one character more
    when its sign does not fit. *)
Definition length_of (size : Z) : option Z :=
  match rt_snprintf 8 buf size (text "ab%05d") [u32 (-1)] m0 with Ok n _ => Some n | Fault _ => None end.

Example snprintf_length_depends : length_of 24 = Some 7 /\ length_of 2 = Some 8.
Proof. vm_compute. done. Qed.

End PrintfDemo.
