(* ===== verification/PrintfSpec.v ===== *)
(** * What a format means: rt_vsnprintf against a specification of its own

    A format as an abstract object: a list of literal characters and of directives, each
    with its flags, field width, precision, qualifier and conversion.  [show] writes it
    down as the text that is passed to rt_vsnprintf, [format_means] says which text it
    stands for; neither uses the parser, the flag masks or the argument conversions of
    kservice.c.  The theorem at the end says that rt_vsnprintf, given the written format,
    puts that text into the buffer. *)
From stdpp Require Import base tactics numbers list gmap.
From S2P Require Import Prelude Memory KString KPrintf.
Local Open Scope Z_scope.

(** ** Formats *)

Inductive flag := Minus | Plus | Blank | Hash | Zero.
#[global] Instance flag_eq_dec : EqDecision flag.
Proof. solve_decision. Defined.

(** A number that is left out, written down, or taken from the arguments *)
Inductive count := Absent | Given (n : Z) | Star.
(** [%.d] has a precision without a number. *)
Inductive precision := NoPrecision | Dot (n : count).
Inductive qualifier := Plain | Short | Long.

(** The conversions; [Signed] is [d] or [i], [Other] a character that is none. *)
Inductive conversion :=
  | Char | Str | Pointer | Percent
  | Signed (i : bool) | Unsigned | Hex (upper : bool)
  | Other (c : Z).

Record field := mk_field {
  f_flags : list flag;
  f_width : count;
  f_precision : precision;
  f_qualifier : qualifier;
  f_conversion : conversion
}.

Inductive item := Literal (c : Z) | Field (f : field).

(** ** Writing a format down *)

Definition show_flag (x : flag) : Z :=
  match x with Minus => 45 | Plus => 43 | Blank => 32 | Hash => 35 | Zero => 48 end.
Definition show_count (n : count) : list Z :=
  match n with Absent => [] | Given n => digits_text false 10 n | Star => [42] end.
Definition show_precision (p : precision) : list Z :=
  match p with NoPrecision => [] | Dot n => 46 :: show_count n end.
Definition show_qualifier (q : qualifier) : list Z :=
  match q with Plain => [] | Short => [104] | Long => [108] end.
Definition show_conversion (c : conversion) : Z :=
  match c with
  | Char => 99 | Str => 115 | Pointer => 112 | Percent => 37
  | Signed i => if i then 105 else 100
  | Unsigned => 117
  | Hex upper => if upper then 88 else 120
  | Other c => c
  end.

Definition show_field (f : field) : list Z :=
  (show_flag <$> f_flags f) ++ show_count (f_width f) ++ show_precision (f_precision f) ++
  show_qualifier (f_qualifier f) ++ [show_conversion (f_conversion f)].
Definition show_item (x : item) : list Z :=
  match x with Literal c => [c] | Field f => 37 :: show_field f end.
Definition show (fmt : list item) : list Z := mjoin (show_item <$> fmt).

(** The characters with a meaning behind [%], [o] included:
    [%-+ #0123456789*.hlcspoXxdiu] *)
Definition meaningful : list Z :=
  [37; 45; 43; 32; 35; 48; 49; 50; 51; 52; 53; 54; 55; 56; 57; 42; 46; 104; 108;
   99; 115; 112; 111; 88; 120; 100; 105; 117].

(** Numbers fit into an [int], and a width does not begin with 0, which would be a flag. *)
Definition field_ok (f : field) : Prop :=
  match f_width f with Given n => 1 <= n < 2 ^ 31 | _ => True end /\
  match f_precision f with Dot (Given n) => 0 <= n < 2 ^ 31 | _ => True end /\
  match f_conversion f with Other c => 0 < c < 256 /\ c ∉ meaningful | _ => True end.
Definition item_ok (x : item) : Prop :=
  match x with Literal c => 0 < c < 256 /\ c <> 37 | Field f => field_ok f end.

(** ** Meaning *)

(** How a field is laid out: aligned to the left, filled with zeros, with a plus sign or a
    blank where a number is not negative, in so many columns, with so many digits *)
Record layout := mk_layout {
  l_left : bool;
  l_zero : bool;
  l_plus : bool;
  l_blank : bool;
  l_width : option Z;
  l_digits : option Z
}.

(** [pre] is what stands before the fill when that is made of zeros. *)
Definition lay_out (left zero : bool) (width : Z) (pre body : list Z) : list Z :=
  let fill := Z.to_nat (width - Z.of_nat (length pre + length body)) in
  if left then pre ++ body ++ replicate fill 32
  else if zero then pre ++ replicate fill 48 ++ body
  else replicate fill 32 ++ pre ++ body.

(** The digits of [n], at least as many as the precision asks for *)
Definition digits_of (l : layout) (base : Z) (upper : bool) (n : Z) : list Z :=
  let ds := digits_text upper base n in
  replicate (Z.to_nat (default 0 (l_digits l) - Z.of_nat (length ds))) 48 ++ ds.

Definition sign_text (l : layout) (n : Z) : list Z :=
  if n <? 0 then [45] else if l_plus l then [43] else if l_blank l then [32] else [].

Definition number_means (l : layout) (pre : list Z) (base : Z) (upper : bool) (n : Z) : list Z :=
  lay_out (l_left l) (l_zero l) (default 0 (l_width l)) pre (digits_of l base upper n).

(** A pointer without a width has eight digits. *)
Definition pointer_means (l : layout) (n : Z) : list Z :=
  match l_width l with
  | Some _ => number_means l [] 16 false n
  | None => lay_out (l_left l) true 8 [] (digits_of l 16 false n)
  end.

(** A positive precision cuts the string, a precision of 0 does not. *)
Definition string_means (l : layout) (s : list Z) : list Z :=
  let s := match l_digits l with Some p => if 0 <? p then take (Z.to_nat p) s else s | None => s end in
  lay_out (l_left l) false (default 0 (l_width l)) [] s.

(** The value of an argument: the low 16 or 32 bits, with or without a sign *)
Definition bits (q : qualifier) : Z := match q with Short => 16 | _ => 32 end.

(** The next argument as an [int] *)
Definition int_arg (args : list Z) : option (Z * list Z) :=
  match args with w :: args' => Some (swrap 32 w, args') | [] => None end.

Definition count_means (n : count) (args : list Z) : option (option Z * list Z) :=
  match n with
  | Absent => Some (None, args)
  | Given n => Some (Some n, args)
  | Star => '(w, args) ← int_arg args; Some (Some w, args)
  end.

(** The layout of a field and the arguments left: a negative width aligns to the left
    ([INT_MIN] has no meaning), a negative precision is 0. *)
Definition layout_of (f : field) (args : list Z) : option (layout * list Z) :=
  '(w, args) ← count_means (f_width f) args;
  '(p, args) ←
    match f_precision f with
    | NoPrecision => Some (None, args)
    | Dot n => '(p, args) ← count_means n args; Some (Some (Z.max 0 (default 0 p)), args)
    end;
  if bool_decide (w = Some (- 2 ^ 31)) then None else
  Some (mk_layout
    (bool_decide (Minus ∈ f_flags f) || match w with Some w => w <? 0 | None => false end)
    (bool_decide (Zero ∈ f_flags f)) (bool_decide (Plus ∈ f_flags f)) (bool_decide (Blank ∈ f_flags f))
    (Z.abs <$> w) p, args).

(** The string an argument points to; a null pointer stands for "(NULL)". *)
Definition pointed (strings : gmap Z (list Z)) (p : Z) : option (list Z) :=
  if p =? 0 then Some [40; 78; 85; 76; 76; 41] else strings !! p.

(** The text of a conversion that takes the argument [w] *)
Definition argument_means (strings : gmap Z (list Z)) (l : layout) (q : qualifier) (c : conversion) (w : Z) : option (list Z) :=
  match c with
  | Char => Some (lay_out (l_left l) false (default 0 (l_width l)) [] [uwrap 8 w])
  | Str => string_means l <$> pointed strings (uwrap 32 w)
  | Pointer => Some (pointer_means l (uwrap 32 w))
  | Signed _ => let n := swrap (bits q) w in Some (number_means l (sign_text l n) 10 false (Z.abs n))
  | Unsigned => Some (number_means l [] 10 false (uwrap (bits q) w))
  | Hex upper => Some (number_means l [] 16 upper (uwrap (bits q) w))
  | Percent | Other _ => None
  end.

Definition field_means (strings : gmap Z (list Z)) (f : field) (args : list Z) : option (list Z * list Z) :=
  '(l, args) ← layout_of f args;
  match f_conversion f with
  | Percent => Some ([37], args)
  | Other c => Some ([37; c], args)
  | c => match args with
         | w :: args' => t ← argument_means strings l (f_qualifier f) c w; Some (t, args')
         | [] => None
         end
  end.

(** The text of a format with its arguments *)
Fixpoint format_means (strings : gmap Z (list Z)) (fmt : list item) (args : list Z) : option (list Z) :=
  match fmt with
  | [] => Some []
  | Literal c :: fmt' => t ← format_means strings fmt' args; Some (c :: t)
  | Field f :: fmt' =>
      '(x, args) ← field_means strings f args;
      t ← format_means strings fmt' args; Some (x ++ t)
  end.

(** ** Flags and masks *)

Definition mask_of (x : flag) : Z :=
  match x with Minus => LEFT | Plus => PLUS | Blank => SPACE | Hash => SPECIAL | Zero => ZEROPAD end.
Definition masks (fs : list flag) (m : Z) : Z := foldl (fun m x => Z.lor m (mask_of x)) m fs.

Lemma has_lor_l a b x : has (Z.lor a b) x = has a x || has b x.
Proof.
  unfold has. rewrite Z.land_lor_distr_l.
  destruct (Z.eqb_spec (Z.lor (Z.land a x) (Z.land b x)) 0) as [E|E].
  - apply Z.lor_eq_0_iff in E as [-> ->]. done.
  - destruct (Z.eqb_spec (Z.land a x) 0) as [E1|]; [|done].
    destruct (Z.eqb_spec (Z.land b x) 0) as [E2|]; [|done]. rewrite E1, E2 in E. done.
Qed.

Lemma has_masks fs m x :
  x ∈ [LEFT; PLUS; SPACE; ZEROPAD; SIGN; LARGE] ->
  has (masks fs m) x = has m x || existsb (fun y => has (mask_of y) x) fs.
Proof.
  intros Hx. revert m. induction fs as [|y fs IH]; intros m; simpl; [by rewrite orb_false_r|].
  unfold masks in *. rewrite IH, has_lor_l. by rewrite orb_assoc.
Qed.

Lemma has_u8 m k : 0 <= k < 8 -> has (u8 m) (2 ^ k) = has m (2 ^ k).
Proof. intros Hk. rewrite !has_testbit by lia. unfold uwrap. by rewrite Z.mod_pow2_bits_low by lia. Qed.

Lemma existsb_flag (fs : list flag) x y :
  (forall z, has (mask_of z) x = bool_decide (z = y)) -> existsb (fun z => has (mask_of z) x) fs = bool_decide (y ∈ fs).
Proof.
  intros Hy. induction fs as [|z fs IH]; cbn [existsb]; [done|].
  rewrite IH, Hy. repeat case_bool_decide; set_solver.
Qed.

Lemma existsb_none (fs : list flag) x : (forall z, has (mask_of z) x = false) -> existsb (fun z => has (mask_of z) x) fs = false.
Proof. intros Hz. induction fs as [|z fs IH]; simpl; [done|]. by rewrite IH, Hz. Qed.

(** The flags of a directive say what the layout says. *)
Record flags_mean (m : Z) (l : layout) : Prop := {
  fm_left : has m LEFT = l_left l;
  fm_zero : has m ZEROPAD = l_zero l;
  fm_plus : has m PLUS = l_plus l;
  fm_blank : has m SPACE = l_blank l;
  fm_sign : has m SIGN = false;
  fm_large : has m LARGE = false
}.

Lemma masks_mean fs (neg : bool) w p :
  flags_mean (u8 (if neg then Z.lor (masks fs 0) LEFT else masks fs 0))
    (mk_layout (bool_decide (Minus ∈ fs) || neg) (bool_decide (Zero ∈ fs)) (bool_decide (Plus ∈ fs))
       (bool_decide (Blank ∈ fs)) w p).
Proof.
  assert (forall x, x ∈ [LEFT; PLUS; SPACE; ZEROPAD; SIGN; LARGE] ->
    has (u8 (if neg then Z.lor (masks fs 0) LEFT else masks fs 0)) x =
    existsb (fun y => has (mask_of y) x) fs || (neg && has LEFT x)) as Hm.
  { intros x Hx.
    assert (has (u8 (if neg then Z.lor (masks fs 0) LEFT else masks fs 0)) x =
      has (if neg then Z.lor (masks fs 0) LEFT else masks fs 0) x) as ->.
    { rewrite !elem_of_cons, elem_of_nil in Hx. destruct Hx as [->|[->|[->|[->|[->|[->|[]]]]]]];
        [apply (has_u8 _ 4)|apply (has_u8 _ 2)|apply (has_u8 _ 3)|apply (has_u8 _ 0)|apply (has_u8 _ 1)|apply (has_u8 _ 6)]; lia. }
    destruct neg; rewrite ?has_lor_l, has_masks by done; simpl; [done|by rewrite orb_false_r]. }
  split; cbn [l_left l_zero l_plus l_blank]; rewrite Hm by (rewrite !elem_of_cons; tauto);
    first [erewrite existsb_flag with (y := Minus) by (intros []; reflexivity)
          |erewrite existsb_flag with (y := Zero) by (intros []; reflexivity)
          |erewrite existsb_flag with (y := Plus) by (intros []; reflexivity)
          |erewrite existsb_flag with (y := Blank) by (intros []; reflexivity)
          |rewrite existsb_none by (intros []; reflexivity)];
    destruct neg; simpl; rewrite ?orb_false_r, ?orb_true_r; done.
Qed.

(** ** Reading a written field *)

(** The characters the parser looks for before the conversion character *)
Definition flag_chars : list Z := [45; 43; 32; 35; 48].
Definition digit_chars : list Z := [48; 49; 50; 51; 52; 53; 54; 55; 56; 57].

Lemma parse_flags_show fs rest m :
  first rest ∉ flag_chars -> parse_flags ((show_flag <$> fs) ++ rest) m = (masks fs m, rest).
Proof.
  intros Hr. revert m. induction fs as [|x fs IH]; intros m; [|destruct x; simpl; apply IH].
  simpl. destruct rest as [|c rest]; [done|]. simpl in *. unfold flag_chars in Hr. rewrite !not_elem_of_cons in Hr.
  repeat (rewrite (proj2 (Z.eqb_neq _ _)) by tauto). done.
Qed.

Lemma isdigit_false c : c ∉ digit_chars -> 0 <= c < 256 -> isdigit c = false.
Proof.
  intros Hc Hr. unfold isdigit. apply Z.ltb_ge. unfold digit_chars in Hc. rewrite !not_elem_of_cons in Hc.
  destruct (Z_lt_ge_dec c 48) as [Hl|Hl].
  - unfold uwrap. rewrite <- (Z.mod_add _ 1), Z.mod_small by lia. lia.
  - rewrite uwrap_small by lia. lia.
Qed.

Lemma digits_text_digits n : 0 <= n -> Forall (fun c => isdigit c = true) (digits_text false 10 n).
Proof.
  intros Hn. unfold digits_text. destruct (n =? 0); [by repeat constructor|].
  apply Forall_fmap, Forall_reverse. eapply Forall_impl; [apply digit_values_range; lia|].
  intros d Hd. by apply digit_isdigit.
Qed.

Lemma digit_values_ne fuel b n : n <> 0 -> digit_values (S fuel) b n <> [].
Proof. intros Hn. simpl. by rewrite (proj2 (Z.eqb_neq n 0)). Qed.

(** The most significant digit is not 0. *)
Lemma digit_values_last fuel b n d :
  1 < b -> 0 <= n < b ^ Z.of_nat fuel -> last (digit_values fuel b n) = Some d -> d <> 0.
Proof.
  intros Hb. revert n. induction fuel as [|fuel IH]; intros n Hn; [done|]. cbn [digit_values].
  destruct (Z.eqb_spec n 0); [done|]. rewrite Nat2Z.inj_succ, Z.pow_succ_r in Hn by lia.
  destruct (digit_values fuel b (n / b)) as [|e l] eqn:E.
  - simpl. intros [= <-]. assert (n / b = 0) as Hq.
    { destruct fuel as [|fuel]; [|destruct (decide (n / b = 0)) as [|Hne]; [done|by apply (digit_values_ne fuel b) in Hne]].
      apply Z.div_small. simpl in Hn. lia. }
    pose proof (Z.div_mod n b ltac:(lia)). lia.
  - rewrite last_cons_cons, <- E. apply IH. split; [apply Z.div_pos|apply Z.div_lt_upper_bound]; lia.
Qed.

Lemma digits_text_first n rest : 1 <= n < 2 ^ 32 ->
  isdigit (first (digits_text false 10 n ++ rest)) = true /\ first (digits_text false 10 n ++ rest) ∉ flag_chars.
Proof.
  intros Hn. pose proof (digits_text_digits n ltac:(lia)) as Hd. unfold digits_text in *.
  rewrite (proj2 (Z.eqb_neq n 0)) in * by lia.
  destruct (last (digit_values 32 10 n)) as [d|] eqn:El; [|apply last_None in El; by apply digit_values_ne in El; [|lia]].
  pose proof (digit_values_last 32 10 n d ltac:(lia) ltac:(lia) El) as Hne.
  apply last_Some in El as [l E]. rewrite E in *. rewrite reverse_snoc, fmap_cons in *. cbn [first app].
  inversion_clear Hd as [|?? Hc _]. split; [done|].
  assert (0 <= d < 10) as Hr.
  { pose proof (digit_values_range 32 10 n ltac:(lia) ltac:(lia)) as Hr. rewrite E in Hr.
    apply Forall_app in Hr as [_ Hr]. by inversion_clear Hr. }
  unfold digit_text, flag_chars. rewrite (proj2 (Z.ltb_lt d 10)), !not_elem_of_cons by lia.
  repeat split; try lia. apply not_elem_of_nil.
Qed.

Lemma skip_atoi_show n rest : 0 <= n < 2 ^ 31 -> isdigit (first rest) = false ->
  skip_atoi (digits_text false 10 n ++ rest) 0 = (n, rest).
Proof.
  intros Hn Hr. rewrite skip_atoi_app by (apply digits_text_digits; lia).
  rewrite skip_atoi_text, swrap_small by lia. simpl. destruct rest as [|c rest]; [done|]. simpl in *. by rewrite Hr.
Qed.

Lemma digits_text_isdigit n rest : 0 <= n < 2 ^ 32 -> isdigit (first (digits_text false 10 n ++ rest)) = true.
Proof.
  intros Hn. destruct (decide (n = 0)) as [->|]; [done|]. apply digits_text_first. lia.
Qed.

Definition negative (w : option Z) : bool := match w with Some w => w <? 0 | None => false end.

Lemma parse_width_show w rest args m ow args' :
  match w with Given n => 1 <= n < 2 ^ 31 | _ => True end ->
  isdigit (first rest) = false -> first rest <> 42 ->
  count_means w args = Some (ow, args') -> ow <> Some (- 2 ^ 31) ->
  parse_width (show_count w ++ rest) args m =
  Some (default (-1) (Z.abs <$> ow), if negative ow then Z.lor m LEFT else m, rest, args').
Proof.
  intros Hw Hd Hs Hc Hmin. unfold parse_width. destruct w as [|n|]; simpl in Hc.
  - injection Hc as <- <-. simpl app. rewrite Hd, (proj2 (Z.eqb_neq _ _) Hs). done.
  - injection Hc as <- <-. cbn [show_count]. rewrite digits_text_isdigit, skip_atoi_show by (done || lia).
    simpl. rewrite (proj2 (Z.ltb_ge n 0)), Z.abs_eq by lia. done.
  - destruct args as [|a args0]; [done|]. simpl in Hc. injection Hc as <- <-. simpl.
    pose proof (swrap_range 32 a ltac:(lia)). destruct (Z.ltb_spec (s32 a) 0).
    + rewrite swrap_small by (assert (s32 a <> - 2 ^ 31) by congruence; lia). by rewrite Z.abs_neq by lia.
    + by rewrite Z.abs_eq by lia.
Qed.

Definition precision_means (p : precision) (args : list Z) : option (option Z * list Z) :=
  match p with
  | NoPrecision => Some (None, args)
  | Dot n => '(p, args) ← count_means n args; Some (Some (Z.max 0 (default 0 p)), args)
  end.

Lemma parse_precision_show p rest args op args' :
  match p with Dot (Given n) => 0 <= n < 2 ^ 31 | _ => True end ->
  isdigit (first rest) = false -> first rest <> 42 -> first rest <> 46 ->
  precision_means p args = Some (op, args') ->
  parse_precision (show_precision p ++ rest) args = Some (default (-1) op, rest, args').
Proof.
  intros Hp Hd Hs Hdot Hc. unfold parse_precision. destruct p as [|n]; simpl in Hc.
  { injection Hc as <- <-. simpl app. by rewrite (proj2 (Z.eqb_neq _ _) Hdot). }
  cbn [show_precision app first tail]. change (46 =? 46) with true. cbv iota.
  destruct n as [|n|]; simpl in Hc.
  - injection Hc as <- <-. simpl app. rewrite Hd, (proj2 (Z.eqb_neq _ _) Hs). done.
  - injection Hc as <- <-. cbn [show_count]. rewrite digits_text_isdigit, skip_atoi_show by (done || lia).
    simpl. rewrite (proj2 (Z.ltb_ge n 0)), Z.max_r by lia. done.
  - destruct args as [|a args0]; [done|]. simpl in Hc. injection Hc as <- <-. simpl.
    destruct (Z.ltb_spec (s32 a) 0); [rewrite Z.max_l by lia|rewrite Z.max_r by lia]; done.
Qed.

(** The conversion character is none of those the parser looks for before it. *)
Definition parser_chars : list Z := flag_chars ++ digit_chars ++ [42; 46; 104; 108].

Lemma conversion_plain f : field_ok f ->
  show_conversion (f_conversion f) ∉ parser_chars /\ 0 < show_conversion (f_conversion f) < 256.
Proof.
  intros (_ & _ & Hc). destruct (f_conversion f) as [| | | |[]| |[]|c]; simpl in *;
    try (split; [|lia]; apply (bool_decide_unpack _); vm_compute; exact I).
  destruct Hc as [Hr Hc]. split; [|done]. intros Hin. apply Hc. revert Hin.
  unfold parser_chars, flag_chars, digit_chars, meaningful. set_solver.
Qed.

Lemma parser_chars_spec c : c ∉ parser_chars -> 0 <= c < 256 ->
  c ∉ flag_chars /\ isdigit c = false /\ c <> 42 /\ c <> 46 /\ c <> 104 /\ c <> 108.
Proof.
  unfold parser_chars. rewrite !not_elem_of_app, !not_elem_of_cons. intros (H1 & H2 & H3) Hr.
  repeat split; try tauto. by apply isdigit_false.
Qed.

Definition qualifier_char (q : qualifier) : Z := match q with Plain => 0 | Short => 104 | Long => 108 end.

Lemma parse_directive_show f rest args l args' :
  field_ok f -> layout_of f args = Some (l, args') ->
  exists m, flags_mean m l /\
    parse_directive (show_field f ++ rest) args =
    Some (mk_directive m (default (-1) (l_width l)) (default (-1) (l_digits l)) (qualifier_char (f_qualifier f))
      (show_conversion (f_conversion f) :: rest) args').
Proof.
  intros Hok Hl. pose proof (conversion_plain f Hok) as [Hplain Hc]. destruct Hok as (Hw & Hp & _).
  set (c := show_conversion (f_conversion f)) in *.
  destruct (parser_chars_spec c Hplain ltac:(lia)) as (Hf & Hd & Hstar & Hdot & Hh & Hll).
  unfold layout_of in Hl. destruct (count_means (f_width f) args) as [[ow args1]|] eqn:Ew; [|done]. simpl in Hl.
  fold (precision_means (f_precision f) args1) in Hl.
  destruct (precision_means (f_precision f) args1) as [[op args2]|] eqn:Ep; [|done]. simpl in Hl.
  case_bool_decide as Hmin; [done|]. injection Hl as <- <-. fold (negative ow). cbn [l_width l_digits].
  set (r3 := c :: rest). set (r2 := show_qualifier (f_qualifier f) ++ r3).
  set (r1 := show_precision (f_precision f) ++ r2).
  assert (first r2 ∉ flag_chars /\ isdigit (first r2) = false /\ first r2 <> 42 /\ first r2 <> 46) as (Hf2 & Hd2 & Hs2 & Hdot2).
  { subst r2. destruct (f_qualifier f); simpl; [done|..]; (split; [apply (bool_decide_unpack _); vm_compute; exact I|done]). }
  assert (first r1 ∉ flag_chars /\ isdigit (first r1) = false /\ first r1 <> 42) as (Hf1 & Hd1 & Hs1).
  { subst r1. destruct (f_precision f); simpl; [done|]. split; [apply (bool_decide_unpack _); vm_compute; exact I|done]. }
  assert (show_field f ++ rest = (show_flag <$> f_flags f) ++ show_count (f_width f) ++ r1) as ->.
  { unfold show_field. subst r1 r2 r3. by rewrite <- !app_assoc. }
  assert (first (show_count (f_width f) ++ r1) ∉ flag_chars) as Hf0.
  { destruct (f_width f) as [|n|]; simpl; [done| |apply (bool_decide_unpack _); vm_compute; exact I].
    apply digits_text_first. lia. }
  eexists. split; [apply (masks_mean (f_flags f) (negative ow))|].
  unfold parse_directive. rewrite parse_flags_show by done.
  rewrite (parse_width_show _ _ _ _ ow args1) by done. cbn [mbind option_bind].
  unfold r1 at 1. rewrite (parse_precision_show _ _ _ op args2) by done. cbn [mbind option_bind].
  subst r2 r3. destruct (f_qualifier f); simpl; try done.
  rewrite (proj2 (Z.eqb_neq _ _) Hh), (proj2 (Z.eqb_neq _ _) Hll). done.
Qed.

(** ** The text of a field *)

Lemma default_fill (x : option Z) k : 0 <= k -> Z.to_nat (default (-1) x - k) = Z.to_nat (default 0 x - k).
Proof. intros Hk. destruct x; simpl; lia. Qed.

Lemma number_text_means F num base l pre n :
  has F LEFT = l_left l -> has F ZEROPAD = l_zero l ->
  (if sign_of num F =? 0 then [] else [sign_of num F]) = pre -> magnitude num F = n ->
  number_text true num base (default (-1) (l_width l)) (default (-1) (l_digits l)) F =
  number_means l pre (number_base base) (has F LARGE) n.
Proof.
  intros Hl Hz Hs Hm. unfold number_text, number_means, lay_out, digits_of. fold (number_base base).
  rewrite Hl, Hz, Hm, Hs, andb_true_r. set (ds := digits_text _ _ _).
  rewrite (default_fill (l_digits l)) by lia. set (body := replicate _ 48 ++ ds).
  assert (Z.to_nat (if negb (sign_of num F =? 0) then default (-1) (l_width l) - Z.of_nat (length body) - 1
    else default (-1) (l_width l) - Z.of_nat (length body)) =
    Z.to_nat (default 0 (l_width l) - Z.of_nat (length pre + length body))) as E.
  { rewrite <- default_fill by lia. rewrite <- Hs. destruct (_ =? 0); simpl length; cbn [negb]; lia. }
  assert ((if sign_of num F =? 0 then default (-1) (l_width l) - Z.of_nat (length body)
     else default (-1) (l_width l) - Z.of_nat (length body) - 1) =
    (if negb (sign_of num F =? 0) then default (-1) (l_width l) - Z.of_nat (length body) - 1
    else default (-1) (l_width l) - Z.of_nat (length body))) as -> by (by destruct (_ =? 0)).
  by rewrite E.
Qed.

(** Without the sign flag *)
Lemma unsigned_means F num base l n :
  has F LEFT = l_left l -> has F ZEROPAD = l_zero l -> has F SIGN = false -> u32 num = n ->
  number_text true num base (default (-1) (l_width l)) (default (-1) (l_digits l)) F =
  number_means l [] (number_base base) (has F LARGE) n.
Proof.
  intros Hl Hz Hs Hn. apply number_text_means; [done..| |].
  - unfold sign_of. by rewrite Hs.
  - unfold magnitude. by rewrite Hs.
Qed.

Lemma signed_means F num l :
  has F LEFT = l_left l -> has F ZEROPAD = l_zero l -> has F PLUS = l_plus l -> has F SPACE = l_blank l ->
  has F SIGN = true -> has F LARGE = false -> - 2 ^ 31 <= num < 2 ^ 31 ->
  number_text true num 10 (default (-1) (l_width l)) (default (-1) (l_digits l)) F =
  number_means l (sign_text l num) 10 false (Z.abs num).
Proof.
  intros Hl Hz Hp Hb Hs Hg Hn. rewrite <- Hg. apply (number_text_means F num 10); [done..| |].
  - unfold sign_of, sign_text. rewrite Hs, Hp, Hb. by destruct (num <? 0), (l_plus l), (l_blank l).
  - unfold magnitude. rewrite Hs. simpl. destruct (Z.ltb_spec num 0); rewrite uwrap_small by lia; lia.
Qed.

(** The value of a number argument *)
Lemma number_arg_unsigned q F w : has F SIGN = false -> u32 (number_arg (qualifier_char q) F w) = uwrap (bits q) w.
Proof.
  intros Hs. unfold number_arg. rewrite Hs. destruct q; simpl; rewrite u32_s32; try done.
  apply uwrap_small. pose proof (uwrap_range 16 w ltac:(lia)). lia.
Qed.

Lemma number_arg_signed q F w : has F SIGN = true -> number_arg (qualifier_char q) F w = swrap (bits q) w.
Proof.
  intros Hs. unfold number_arg. rewrite Hs. destruct q; simpl; try done.
  assert (s16 (u16 w) = s16 w) as -> by (unfold swrap, uwrap; by rewrite Zmod_mod).
  apply swrap_small; [lia|]. pose proof (swrap_range 16 w ltac:(lia)). lia.
Qed.

Lemma swrap_bits q w : - 2 ^ 31 <= swrap (bits q) w < 2 ^ 31.
Proof.
  destruct q; simpl; [apply (swrap_range 32); lia| |apply (swrap_range 32); lia].
  pose proof (swrap_range 16 w ltac:(lia)). lia.
Qed.

Lemma char_means F w p q r args l c :
  has F LEFT = l_left l -> w = default (-1) (l_width l) ->
  char_text (mk_directive F w p q r args) c = lay_out (l_left l) false (default 0 (l_width l)) [] [u8 c].
Proof.
  intros Hl ->. unfold char_text, lay_out. simpl. rewrite Hl, default_fill by lia. by destruct (l_left l).
Qed.

Lemma string_text_means F w p q r args l s :
  has F LEFT = l_left l -> w = default (-1) (l_width l) -> p = default (-1) (l_digits l) ->
  string_text (mk_directive F w p q r args) s = string_means l s.
Proof.
  intros Hl -> ->. unfold string_text, string_means, lay_out. simpl. rewrite Hl, default_fill by lia.
  by destruct (l_digits l).
Qed.

Lemma pointer_text F p l n :
  flags_mean F l -> match l_width l with Some w => 0 <= w | None => True end -> p = default (-1) (l_digits l) ->
  (if default (-1) (l_width l) =? -1 then number_text true (s32 n) 16 8 p (Z.lor F ZEROPAD)
   else number_text true (s32 n) 16 (default (-1) (l_width l)) p F) = pointer_means l (u32 n).
Proof.
  intros [Hl Hz _ _ Hs Hg] Hw ->. unfold pointer_means. destruct (l_width l) as [w|] eqn:Ew; simpl.
  - rewrite (proj2 (Z.eqb_neq w (-1))) by lia. rewrite <- Hg.
    pose proof (unsigned_means F (s32 n) 16 l (u32 n) Hl Hz Hs (u32_s32 n)) as E. by rewrite Ew in E.
  - pose proof (unsigned_means (Z.lor F ZEROPAD) (s32 n) 16
      (mk_layout (l_left l) true (l_plus l) (l_blank l) (Some 8) (l_digits l)) (u32 n)) as E.
    cbn [l_left l_zero l_width l_digits default id] in E. rewrite E; rewrite ?has_lor_l, ?Hl, ?Hs, ?Hz, ?Hg, ?orb_false_r, ?orb_true_r; try done.
    apply u32_s32.
Qed.

Lemma layout_width f args l args' :
  layout_of f args = Some (l, args') -> match l_width l with Some w => 0 <= w | None => True end.
Proof.
  unfold layout_of. intros E. destruct (count_means (f_width f) args) as [[w a]|]; [|done]. simpl in E.
  destruct (match f_precision f with NoPrecision => _ | Dot _ => _ end) as [[p a']|]; [|done]. simpl in E.
  case_bool_decide; [done|]. injection E as <- _. destruct w; simpl; [lia|done].
Qed.

(** The characters of the conversions are told apart from the others. *)
Lemma other_conversion c : c ∉ meaningful ->
  (c =? 99) = false /\ (c =? 115) = false /\ (c =? 112) = false /\ (c =? 37) = false /\ integer_conversion c = None.
Proof.
  unfold meaningful. rewrite !not_elem_of_cons. intros Hc.
  repeat split; try (apply Z.eqb_neq; tauto). unfold integer_conversion.
  repeat (rewrite (proj2 (Z.eqb_neq _ _)) by tauto). done.
Qed.

Lemma directive_text_means strings f m l args x args' rest :
  field_ok f -> flags_mean m l -> match l_width l with Some w => 0 <= w | None => True end ->
  match f_conversion f with
  | Percent => Some ([37], args)
  | Other c => Some ([37; c], args)
  | c => match args with
         | w :: args' => t ← argument_means strings l (f_qualifier f) c w; Some (t, args')
         | [] => None
         end
  end = Some (x, args') ->
  directive_text true strings (mk_directive m (default (-1) (l_width l)) (default (-1) (l_digits l))
    (qualifier_char (f_qualifier f)) (show_conversion (f_conversion f) :: rest) args) = Some (x, rest, args').
Proof.
  intros (_ & _ & Hc) Hm Hw Ht. pose proof Hm as [Hl Hz Hp Hb Hs Hg]. unfold directive_text. cbn [d_rest d_args d_width d_precision d_flags d_qualifier first tail].
  destruct (f_conversion f) as [| | | |i| |upper|c]; cbn [show_conversion] in *;
    try (destruct args as [|w args0]; [done|]; simpl in Ht).
  - injection Ht as <- <-. simpl. by rewrite (char_means _ _ _ _ _ _ l).
  - change (pointed strings (u32 w)) with (string_arg strings (u32 w)) in Ht. simpl.
    destruct (string_arg strings (u32 w)) as [s|]; [|done]. injection Ht as <- <-. simpl.
    by rewrite (string_text_means _ _ _ _ _ _ l).
  - injection Ht as <- <-. simpl. by rewrite (pointer_text _ _ l).
  - injection Ht as <- <-. done.
  - injection Ht as <- <-.
    destruct i; cbn; rewrite signed_means; rewrite ?has_lor_l, ?Hl, ?Hz, ?Hp, ?Hb, ?Hg, ?orb_false_r; try done;
      rewrite ?number_arg_signed by (rewrite has_lor_l, orb_true_r; done); try done;
      first [apply swrap_bits | by rewrite orb_true_r].
  - injection Ht as <- <-. simpl. rewrite (unsigned_means _ _ _ l (uwrap (bits (f_qualifier f)) w));
      rewrite ?has_lor_l, ?Hl, ?Hz, ?Hs, ?Hg, ?orb_false_r; try done. apply number_arg_unsigned. by rewrite has_lor_l, Hs.
  - injection Ht as <- <-.
    destruct upper; simpl; rewrite (unsigned_means _ _ _ l (uwrap (bits (f_qualifier f)) w));
      rewrite ?has_lor_l, ?Hl, ?Hz, ?Hs, ?Hg, ?orb_false_r; try done; apply number_arg_unsigned; by rewrite has_lor_l, Hs.
  - injection Ht as <- <-. destruct Hc as [Hr Hc]. destruct (other_conversion c Hc) as (-> & -> & -> & -> & ->).
    by rewrite (proj2 (Z.eqb_neq c 0)) by lia.
Qed.

(** ** Formats *)

Lemma format_text_show strings fmt args t fuel :
  Forall item_ok fmt -> format_means strings fmt args = Some t -> (length (show fmt) < fuel)%nat ->
  format_text fuel strings (show fmt) args = Some t.
Proof.
  intros Hok. revert args t fuel. induction Hok as [|x fmt Hx Hok IH]; intros args t [|fuel] Ht Hf; try (simpl in Hf; lia); [done|].
  change (show (x :: fmt)) with (show_item x ++ show fmt) in *. rewrite length_app in Hf.
  destruct x as [c|f]; cbn [show_item app format_text format_means] in *.
  - destruct Hx as [_ Hx]. rewrite (proj2 (Z.eqb_neq c 37) Hx). cbn [negb].
    destruct (format_means strings fmt args) as [t'|] eqn:E; [|done]. by rewrite (IH _ _ fuel E) by (simpl in Hf; lia).
  - change (negb (37 =? 37)) with false. cbv iota. unfold field_means in Ht.
    destruct (layout_of f args) as [[l args1]|] eqn:El; [|done]. cbn [mbind option_bind] in Ht.
    destruct (parse_directive_show f (show fmt) args l args1 Hx El) as (m & Hm & ->). cbn [mbind option_bind].
    destruct (match f_conversion f with Char => _ | _ => _ end) as [[x args2]|] eqn:Ex; [|done].
    cbn [mbind option_bind] in Ht.
    rewrite (directive_text_means _ _ _ _ _ _ _ (show fmt) Hx Hm (layout_width _ _ _ _ El) Ex). cbn [mbind option_bind].
    destruct (format_means strings fmt args2) as [t'|] eqn:E; [|done].
    by rewrite (IH _ _ fuel E) by (simpl in Hf; lia).
Qed.

(** C40: [rt_vsnprintf], given a format as it is written down, stores the text the format stands
    for, cut to [size - 1] characters and terminated, and changes nothing else in memory.
    It returns the length of the text when the text fits; when it does not, the result is
    at least that length, so that the truncation shows. *)
Theorem rt_vsnprintf_correct m buf size sfuel strings fmt args t :
  printf_pre m buf size sfuel strings (show fmt) -> Forall item_ok fmt ->
  format_means strings fmt args = Some t -> Z.of_nat (length t + length (show fmt)) < 2 ^ 31 ->
  exists n, rt_vsnprintf sfuel buf size (show fmt) args m =
      Ok n (write_bytes m buf (take (Z.to_nat (size - 1)) t ++ [0])) /\
    Z.of_nat (length t) <= n /\ (Z.of_nat (length t) < size -> n = Z.of_nat (length t)).
Proof.
  intros Hp Hok Ht Hlen. apply (rt_vsnprintf_spec m buf size sfuel strings); [done| |done].
  apply format_text_show; [done..|lia].
Qed.

(** ** Concrete runs *)

Module FormatDemo.
Import KPrintf.PrintfDemo.

(** [%s:%05hd|%-4x|%+*d%%] *)
Definition demo : list item :=
  [Field (mk_field [] Absent NoPrecision Plain Str); Literal 58;
   Field (mk_field [Zero] (Given 5) NoPrecision Short (Signed false)); Literal 124;
   Field (mk_field [Minus] (Given 4) NoPrecision Plain (Hex false)); Literal 124;
   Field (mk_field [Plus] Star NoPrecision Plain (Signed false));
   Field (mk_field [] Absent NoPrecision Plain Percent)].
Import Stdlib.Strings.String.StringSyntax.
Local Open Scope string_scope.
Local Open Scope Z_scope.

Example demo_shown : show demo = text "%s:%05hd|%-4x|%+*d%%".
Proof. vm_compute. reflexivity. Qed.

Lemma demo_item_ok : Forall item_ok demo.
Proof. repeat constructor; try (vm_compute; done); try lia. Qed.

Lemma printf_witness :
  exists n, rt_vsnprintf 8 buf 10 (show demo) [name; 0x1ffd6; 255; 3; 7] m0 =
      Ok n (write_bytes m0 buf (text "rtt:-0042" ++ [0])) /\
    19 <= n /\ (19 < 10 -> n = 19).
Proof.
  apply (rt_vsnprintf_correct m0 buf 10 8 strings demo [name; 0x1ffd6; 255; 3; 7] (text "rtt:-0042|ff  | +7%")).
  - apply demo_pre; [lia|]. vm_compute. repeat constructor.
  - apply demo_item_ok.
  - vm_compute. done.
  - vm_compute. done.
Defined.

(** A precision of 0 prints the whole string: [%.0s] *)
Example string_precision_zero :
  rt_snprintf 8 buf 24 (text "%.0s") [name] m0 = rt_snprintf 8 buf 24 (text "%s") [name] m0 /\
  rt_snprintf 8 buf 24 (text "%.1s") [name] m0 = Ok 1 (write_bytes m0 buf (text "r" ++ [0])).
Proof.
  assert (forall f n t, length t = Z.to_nat n -> Forall (fun c => 0 < c < 256) f -> (length f < 10)%nat -> 0 <= n < 20 ->
    printf_text strings f [name] = Some t ->
    rt_snprintf 8 buf 24 f [name] m0 = Ok n (write_bytes m0 buf (t ++ [0]))) as Hrun.
  { intros f n t Hn Hf Hl Hr Ht. destruct (rt_vsnprintf_spec m0 buf 24 8 strings f [name] t) as (r & E & _ & Er);
      [apply demo_pre; [lia|done]|done|lia|].
    unfold rt_snprintf. rewrite E, Er, take_ge by lia. f_equal. lia. }
  split; [transitivity (Ok 3 (write_bytes m0 buf (text "rtt" ++ [0])) : outcome mem Z); [|symmetry]|];
    apply Hrun; vm_compute; try done; repeat constructor; done.
Qed.

End FormatDemo.
