(* ===== verification/RingBuffer.v ===== *)
(** * Ring buffers (components/drivers/src/ringbuffer.c, include/rtdevice.h)

    A byte queue in a caller-supplied array.  Read and write position are a 15-bit index
    with a mirror bit that flips each time the index goes round; equal positions mean an
    empty buffer, equal indices in different mirrors a full one.  The array and the
    caller's data are both in byte memory. *)
From stdpp Require Import base tactics numbers list gmap.
From S2P Require Import Prelude Memory KString.
Local Open Scope Z_scope.

Record rt_ringbuffer := mk_ringbuffer {
  buffer_ptr : Z;
  read_mirror : Z;   (* rt_uint16_t : 1 *)
  read_index : Z;    (* rt_uint16_t : 15 *)
  write_mirror : Z;  (* rt_uint16_t : 1 *)
  write_index : Z;   (* rt_uint16_t : 15 *)
  buffer_size : Z    (* rt_int16_t *)
}.

Inductive rt_ringbuffer_state :=
| RT_RINGBUFFER_EMPTY
| RT_RINGBUFFER_FULL
| RT_RINGBUFFER_HALFFULL.

(** The ring buffer [rb] points to, and memory. *)
Record rb_state := mk_rb_state { rb : rt_ringbuffer; ram : mem }.

Abbreviation B := (M rb_state).

(** Assignments to the fields, converted to their widths. *)
Definition set_read (mirror index : Z) (s : rb_state) : rb_state :=
  let b := rb s in
  mk_rb_state (mk_ringbuffer (buffer_ptr b) (uwrap 1 mirror) (u15 index)
    (write_mirror b) (write_index b) (buffer_size b)) (ram s).
Definition set_write (mirror index : Z) (s : rb_state) : rb_state :=
  let b := rb s in
  mk_rb_state (mk_ringbuffer (buffer_ptr b) (read_mirror b) (read_index b)
    (uwrap 1 mirror) (u15 index) (buffer_size b)) (ram s).

(** A memory operation of the code. *)
Definition on_ram {A} (c : M mem A) : B A := fun s =>
  match c (ram s) with
  | Ok a m => Ok a (mk_rb_state (rb s) m)
  | Fault f => Fault f
  end.

(** [memcpy] of the C library, byte by byte. *)
Definition memcpy (dst src n : Z) : M mem unit :=
  copy_forward (S (Z.to_nat n)) id (dst, src, n);; mret tt.

(** ** The inline functions of rtdevice.h *)

Definition rt_ringbuffer_get_size (b : rt_ringbuffer) : Z := u16 (buffer_size b).

Definition rt_ringbuffer_status (b : rt_ringbuffer) : rt_ringbuffer_state :=
  if read_index b =? write_index b then
    if read_mirror b =? write_mirror b then RT_RINGBUFFER_EMPTY else RT_RINGBUFFER_FULL
  else RT_RINGBUFFER_HALFFULL.

Definition rt_ringbuffer_data_len (b : rt_ringbuffer) : Z :=
  u16 match rt_ringbuffer_status b with
      | RT_RINGBUFFER_EMPTY => 0
      | RT_RINGBUFFER_FULL => buffer_size b
      | RT_RINGBUFFER_HALFFULL =>
          if read_index b <? write_index b then write_index b - read_index b
          else buffer_size b - (read_index b - write_index b)
      end.

Definition rt_ringbuffer_space_len (b : rt_ringbuffer) : Z :=
  buffer_size b - rt_ringbuffer_data_len b.

(** ** ringbuffer.c *)

Definition rt_ringbuffer_init (pool size : Z) : B unit :=
  RT_ASSERT (0 <? size);;
  modify (set_read 0 0);;
  modify (set_write 0 0);;
  modify (fun s => mk_rb_state
    (mk_ringbuffer pool (read_mirror (rb s)) (read_index (rb s))
       (write_mirror (rb s)) (write_index (rb s)) (s16 (RT_ALIGN_DOWN size 4))) (ram s)).

Definition rt_ringbuffer_put (ptr length : Z) : B Z :=
  s ← get;
  let b := rb s in
  let size := u16 (rt_ringbuffer_space_len b) in
  if size =? 0 then mret 0
  else
    let length := if size <? length then size else length in
    if length <? buffer_size b - write_index b then
      on_ram (memcpy (buffer_ptr b + write_index b) ptr length);;
      modify (set_write (write_mirror b) (write_index b + length));;
      mret length
    else
      on_ram (memcpy (buffer_ptr b + write_index b) ptr (buffer_size b - write_index b));;
      on_ram (memcpy (buffer_ptr b) (ptr + (buffer_size b - write_index b))
                (length - (buffer_size b - write_index b)));;
      modify (set_write (Z.lnot (write_mirror b)) (length - (buffer_size b - write_index b)));;
      mret length.

Definition rt_ringbuffer_put_force (ptr length : Z) : B Z :=
  s ← get;
  let b := rb s in
  let space_length := u16 (rt_ringbuffer_space_len b) in
  let length := if space_length <? length then u16 (buffer_size b) else length in
  if length <? buffer_size b - write_index b then
    on_ram (memcpy (buffer_ptr b + write_index b) ptr length);;
    modify (set_write (write_mirror b) (write_index b + length));;
    when (space_length <? length)
      (modify (fun s => set_read (read_mirror (rb s)) (write_index (rb s)) s));;
    mret length
  else
    on_ram (memcpy (buffer_ptr b + write_index b) ptr (buffer_size b - write_index b));;
    on_ram (memcpy (buffer_ptr b) (ptr + (buffer_size b - write_index b))
              (length - (buffer_size b - write_index b)));;
    modify (set_write (Z.lnot (write_mirror b)) (length - (buffer_size b - write_index b)));;
    when (space_length <? length)
      (modify (fun s => set_read (Z.lnot (read_mirror (rb s))) (write_index (rb s)) s));;
    mret length.

Definition rt_ringbuffer_get (ptr length : Z) : B Z :=
  s ← get;
  let b := rb s in
  let size := rt_ringbuffer_data_len b in
  if size =? 0 then mret 0
  else
    let length := if size <? length then size else length in
    if length <? buffer_size b - read_index b then
      on_ram (memcpy ptr (buffer_ptr b + read_index b) length);;
      modify (set_read (read_mirror b) (read_index b + length));;
      mret length
    else
      on_ram (memcpy ptr (buffer_ptr b + read_index b) (buffer_size b - read_index b));;
      on_ram (memcpy (ptr + (buffer_size b - read_index b)) (buffer_ptr b)
                (length - (buffer_size b - read_index b)));;
      modify (set_read (Z.lnot (read_mirror b)) (length - (buffer_size b - read_index b)));;
      mret length.

Definition rt_ringbuffer_putchar (ch : Z) : B Z :=
  s ← get;
  let b := rb s in
  if rt_ringbuffer_space_len b =? 0 then mret 0
  else
    on_ram (wr8 (buffer_ptr b + write_index b) ch);;
    (if write_index b =? buffer_size b - 1
     then modify (set_write (Z.lnot (write_mirror b)) 0)
     else modify (set_write (write_mirror b) (write_index b + 1)));;
    mret 1.

Definition rt_ringbuffer_putchar_force (ch : Z) : B Z :=
  s ← get;
  let b := rb s in
  let old_state := rt_ringbuffer_status b in
  let full := match old_state with RT_RINGBUFFER_FULL => true | _ => false end in
  on_ram (wr8 (buffer_ptr b + write_index b) ch);;
  (if write_index b =? buffer_size b - 1 then
     modify (set_write (Z.lnot (write_mirror b)) 0);;
     when full (modify (fun s => set_read (Z.lnot (read_mirror (rb s))) (write_index (rb s)) s))
   else
     modify (set_write (write_mirror b) (write_index b + 1));;
     when full (modify (fun s => set_read (read_mirror (rb s)) (write_index (rb s)) s)));;
  mret 1.

(** [ch] is the address of the variable the byte is stored in. *)
Definition rt_ringbuffer_getchar (ch : Z) : B Z :=
  s ← get;
  let b := rb s in
  if rt_ringbuffer_data_len b =? 0 then mret 0
  else
    on_ram (c ← rd8 (buffer_ptr b + read_index b); wr8 ch c);;
    (if read_index b =? buffer_size b - 1
     then modify (set_read (Z.lnot (read_mirror b)) 0)
     else modify (set_read (read_mirror b) (read_index b + 1)));;
    mret 1.

(** ** The abstract queue

    What a client sees: the queued bytes and its own memory [cm], which does not include
    the array. *)

Inductive rb_op :=
| OPut (ptr length : Z)
| OGet (ptr length : Z)
| OPutchar (ch : Z)
| OPutcharForce (ch : Z)
| OGetchar (ch : Z)
| OStore (p v : Z).  (* the client writes its own memory *)

(** The operations on a queue of at most [cap] bytes: the result, the queue and the
    client's memory afterwards; [None] when the client passes memory it does not have. *)
Definition abs_step (cap : nat) (op : rb_op) (q : list Z) (cm : mem) : option (Z * list Z * mem) :=
  match op with
  | OPut ptr len =>
      let n := (Z.to_nat len `min` (cap - length q))%nat in
      data ← read_bytes cm ptr n; Some (Z.of_nat n, q ++ data, cm)
  | OGet ptr len =>
      let n := (Z.to_nat len `min` length q)%nat in
      _ ← read_bytes cm ptr n; Some (Z.of_nat n, drop n q, write_bytes cm ptr (take n q))
  | OPutchar ch =>
      Some (if decide (length q < cap)%nat then (1, q ++ [ch], cm) else (0, q, cm))
  | OPutcharForce ch =>
      Some (1, (if decide (length q < cap)%nat then q else drop 1 q) ++ [ch], cm)
  | OGetchar p =>
      match q with
      | [] => Some (0, q, cm)
      | c :: q' => _ ← cm !! p; Some (1, q', <[p := c]> cm)
      end
  | OStore p v => _ ← cm !! p; Some (0, q, <[p := v]> cm)
  end.

Fixpoint abs_run (cap : nat) (ops : list rb_op) (q : list Z) (cm : mem) : option (list Z * list Z * mem) :=
  match ops with
  | [] => Some ([], q, cm)
  | op :: ops' =>
      '(r, q1, cm1) ← abs_step cap op q cm;
      '(rs, q2, cm2) ← abs_run cap ops' q1 cm1;
      Some (r :: rs, q2, cm2)
  end.

(** Arguments of the types of the interface. *)
Definition op_ok (op : rb_op) : Prop :=
  match op with
  | OPut _ len | OGet _ len => 0 <= len < 2 ^ 16
  | OPutchar ch | OPutcharForce ch => 0 <= ch < 256
  | OGetchar _ => True
  | OStore _ v => 0 <= v < 256
  end.

#[export] Instance op_ok_dec op : Decision (op_ok op).
Proof. destruct op; apply _. Defined.

(** The same operations of the code. *)
Definition rb_step (op : rb_op) : B Z :=
  match op with
  | OPut ptr len => rt_ringbuffer_put ptr len
  | OGet ptr len => rt_ringbuffer_get ptr len
  | OPutchar ch => rt_ringbuffer_putchar ch
  | OPutcharForce ch => rt_ringbuffer_putchar_force ch
  | OGetchar p => rt_ringbuffer_getchar p
  | OStore p v => on_ram (wr8 p v);; mret 0
  end.

Fixpoint rb_run (ops : list rb_op) : B (list Z) :=
  match ops with
  | [] => mret []
  | op :: ops' => r ← rb_step op; rs ← rb_run ops'; mret (r :: rs)
  end.

(** ** Representation *)

(** The place [k] behind index [i] of an array of [n] bytes. *)
Definition wrap (n i : Z) : Z := if i <? n then i else i - n.

Record rb_repr (s : rb_state) (q : list Z) (cm : mem) : Prop := {
  rr_size : 0 < buffer_size (rb s) < 2 ^ 15;
  rr_read : 0 <= read_index (rb s) < buffer_size (rb s);
  rr_write : 0 <= write_index (rb s) < buffer_size (rb s);
  rr_rm : read_mirror (rb s) = 0 \/ read_mirror (rb s) = 1;
  rr_wm : write_mirror (rb s) = 0 \/ write_mirror (rb s) = 1;
  rr_len : write_index (rb s) + (if read_mirror (rb s) =? write_mirror (rb s) then 0 else buffer_size (rb s)) =
           read_index (rb s) + Z.of_nat (length q);
  rr_cap : Z.of_nat (length q) <= buffer_size (rb s);
  rr_data : forall i b, q !! i = Some b ->
    ram s !! (buffer_ptr (rb s) + wrap (buffer_size (rb s)) (read_index (rb s) + Z.of_nat i)) = Some b;
  rr_pool : mapped (ram s) (buffer_ptr (rb s)) (buffer_size (rb s));
  rr_ok : mem_ok (ram s);
  rr_client : forall a, cm !! a =
    if decide (buffer_ptr (rb s) <= a < buffer_ptr (rb s) + buffer_size (rb s)) then None else ram s !! a
}.

(** The number of bytes is the length of the queue. *)
Lemma data_len_repr s q cm : rb_repr s q cm -> rt_ringbuffer_data_len (rb s) = Z.of_nat (length q).
Proof.
  intros [? ? ? ? ? Hl ? _ _ _ _]. unfold rt_ringbuffer_data_len, rt_ringbuffer_status.
  rewrite uwrap_small; destruct (Z.eqb_spec (read_index (rb s)) (write_index (rb s)));
    destruct (Z.eqb_spec (read_mirror (rb s)) (write_mirror (rb s)));
    destruct (Z.ltb_spec (read_index (rb s)) (write_index (rb s))); lia.
Qed.

Lemma space_len_repr s q cm :
  rb_repr s q cm -> rt_ringbuffer_space_len (rb s) = buffer_size (rb s) - Z.of_nat (length q).
Proof. intros R. unfold rt_ringbuffer_space_len. by erewrite data_len_repr by done. Qed.

Lemma status_repr s q cm :
  rb_repr s q cm ->
  rt_ringbuffer_status (rb s) =
  if decide (q = []) then RT_RINGBUFFER_EMPTY
  else if decide (Z.of_nat (length q) = buffer_size (rb s)) then RT_RINGBUFFER_FULL
  else RT_RINGBUFFER_HALFFULL.
Proof.
  intros [? ? ? ? ? Hl ? _ _ _ _]. unfold rt_ringbuffer_status.
  assert (q = [] <-> Z.of_nat (length q) = 0) as Hq by (destruct q; simpl; split; intros; [done|done|done|lia]).
  destruct (Z.eqb_spec (read_index (rb s)) (write_index (rb s)));
    destruct (Z.eqb_spec (read_mirror (rb s)) (write_mirror (rb s)));
    repeat case_decide; try done; exfalso; rewrite ?Hq in *; lia.
Qed.

(** The client's memory is part of memory, outside the array. *)
Lemma client_lookup s q cm a b :
  rb_repr s q cm -> cm !! a = Some b ->
  ram s !! a = Some b /\ ~ (buffer_ptr (rb s) <= a < buffer_ptr (rb s) + buffer_size (rb s)).
Proof. intros R E. rewrite (rr_client _ _ _ R) in E. by case_decide. Qed.

(** ** [memcpy] *)

Lemma memcpy_spec m dst src (n : nat) l :
  mem_ok m -> mapped m dst (Z.of_nat n) -> read_bytes m src n = Some l ->
  dst + Z.of_nat n <= src \/ src + Z.of_nat n <= dst ->
  memcpy dst src (Z.of_nat n) m = Ok tt (write_bytes m dst l).
Proof.
  intros Hok Hd Hs Hdisj.
  assert (wp (memcpy dst src (Z.of_nat n)) (fun _ m' => m' = write_bytes m dst l) m) as Hw.
  { unfold memcpy. wp_step.
    eapply (copy_forward_spec m dst src (Z.of_nat n)); [done|lia|done|by eapply read_bytes_mapped|lia|..].
    - done.
    - done.
    - exists 0. split; [lia|]. rewrite !Z.add_0_r, Z.sub_0_r. split; [done|]. apply written_refl.
    - lia.
    - intros st m' Hc. wp_step. apply map_eq. intros a.
      rewrite Hc, lookup_write_bytes, (read_bytes_length _ _ _ _ Hs).
      case_decide; [|done]. rewrite <- (read_bytes_lookup _ _ _ _ (Z.to_nat (a - dst)) Hs) by lia.
      f_equal. lia. }
  apply wp_ok in Hw as ([] & m' & E & ->). done.
Qed.

(** ** Copies into and out of the array *)

Section copies.
Context (m : mem) (bp sz ptr : Z) (n : nat).
Context (Hok : mem_ok m) (Hpool : mapped m bp sz) (Hn : Z.of_nat n <= sz).
Context (Hapart : n = 0%nat \/ ptr + Z.of_nat n <= bp \/ bp + sz <= ptr).

(** The array after [l] was written from index [w] on, round the end. *)
Definition ring_write (m : mem) (bp sz w : Z) (l : list Z) : mem :=
  write_bytes (write_bytes m (bp + w) (take (Z.to_nat (sz - w)) l)) bp (drop (Z.to_nat (sz - w)) l).

Lemma mapped_part p k k' : mapped m p k -> 0 <= k' -> forall i, 0 <= i -> i + k' <= k -> mapped m (p + i) k'.
Proof. intros Hm Hk i Hi Hle a Ha. apply Hm. lia. Qed.

Lemma copy_in_short w l :
  read_bytes m ptr n = Some l -> 0 <= w -> Z.of_nat n < sz - w ->
  memcpy (bp + w) ptr (Z.of_nat n) m = Ok tt (ring_write m bp sz w l).
Proof.
  intros Hl Hw Hs. pose proof (read_bytes_length _ _ _ _ Hl).
  unfold ring_write. rewrite take_ge, drop_ge by lia. simpl.
  apply memcpy_spec; [done|eapply mapped_part; [done|lia..]|done|lia].
Qed.

Lemma copy_in_long w l :
  read_bytes m ptr n = Some l -> 0 <= w < sz -> sz - w <= Z.of_nat n ->
  (memcpy (bp + w) ptr (sz - w);; memcpy bp (ptr + (sz - w)) (Z.of_nat n - (sz - w))) m =
  Ok tt (ring_write m bp sz w l).
Proof.
  intros Hl Hw Hs. pose proof (read_bytes_length _ _ _ _ Hl).
  replace (sz - w) with (Z.of_nat (Z.to_nat (sz - w))) by lia. set (k := Z.to_nat (sz - w)).
  erewrite run_bind; [|apply memcpy_spec; [done|eapply mapped_part; [done|lia..]|by apply (read_bytes_take _ _ n); [|lia]|lia]].
  replace (Z.of_nat n - Z.of_nat k) with (Z.of_nat (n - k)) by lia.
  unfold ring_write. replace (Z.to_nat (sz - w)) with k by done.
  apply memcpy_spec; [apply write_bytes_ok; [done|apply Forall_take; by eapply read_bytes_ok]| |..|lia].
  - apply mapped_write_bytes. rewrite <- (Z.add_0_r bp). eapply mapped_part; [done|lia..].
  - replace (n - k)%nat with (length (drop k l)) by (rewrite length_drop; lia).
    apply read_bytes_intro. intros i b Hi. rewrite lookup_write_bytes, length_take.
    rewrite decide_False by (apply lookup_lt_Some in Hi; rewrite length_drop in Hi; lia).
    rewrite (read_bytes_lookup m (ptr + Z.of_nat k) (n - k) (drop k l)); [done|by apply read_bytes_drop; [|lia]|].
    apply lookup_lt_Some in Hi. rewrite length_drop in Hi. lia.
Qed.

(** The [n] bytes from index [r] on, round the end. *)
Context (r : Z) (l : list Z) (Hr : 0 <= r < sz) (Hlen : length l = n).
Context (Hdata : forall i b, l !! i = Some b -> m !! (bp + wrap sz (r + Z.of_nat i)) = Some b).
Context (Hptr : mapped m ptr (Z.of_nat n)).

Lemma ring_bytes (k : nat) :
  (k <= n)%nat -> r + Z.of_nat k <= sz -> read_bytes m (bp + r) k = Some (take k l).
Proof.
  intros Hk Hle. replace k with (length (take k l)) at 1 by (rewrite length_take; lia).
  apply read_bytes_intro. intros i b Hi. apply lookup_take_Some in Hi as [Hi Hlt].
  apply Hdata in Hi. unfold wrap in Hi. destruct (Z.ltb_spec (r + Z.of_nat i) sz); [|lia].
  by rewrite <- Hi, Z.add_assoc.
Qed.

Lemma copy_out_short :
  Z.of_nat n < sz - r ->
  memcpy ptr (bp + r) (Z.of_nat n) m = Ok tt (write_bytes m ptr l).
Proof.
  intros Hs. apply memcpy_spec; [done|done| |lia].
  rewrite ring_bytes by lia. by rewrite take_ge by lia.
Qed.

Lemma copy_out_long :
  sz - r <= Z.of_nat n ->
  (memcpy ptr (bp + r) (sz - r);; memcpy (ptr + (sz - r)) bp (Z.of_nat n - (sz - r))) m =
  Ok tt (write_bytes m ptr l).
Proof.
  intros Hs. replace (sz - r) with (Z.of_nat (Z.to_nat (sz - r))) by lia. set (k := Z.to_nat (sz - r)).
  erewrite run_bind; [|apply memcpy_spec; [done|rewrite <- (Z.add_0_r ptr); eapply mapped_part; [done|lia..]|by apply ring_bytes; lia|lia]].
  replace (Z.of_nat n - Z.of_nat k) with (Z.of_nat (n - k)) by lia.
  rewrite (memcpy_spec _ _ _ _ (drop k l)); [f_equal| | | |lia].
  - apply map_eq. intros a. rewrite !lookup_write_bytes, length_take, length_drop.
    repeat case_decide; try lia; try done.
    + rewrite lookup_drop. f_equal. lia.
    + by rewrite lookup_take_lt by lia.
  - apply write_bytes_ok; [done|]. apply Forall_take, Forall_lookup. intros i b Hi. by eapply Hok, Hdata.
  - apply mapped_write_bytes. eapply mapped_part; [done|lia..].
  - replace (n - k)%nat with (length (drop k l)) by (rewrite length_drop; lia).
    apply read_bytes_intro. intros i b Hi. rewrite lookup_write_bytes, length_take.
    rewrite lookup_drop in Hi. pose proof (lookup_lt_Some _ _ _ Hi).
    rewrite decide_False by lia. apply Hdata in Hi. rewrite <- Hi. f_equal. unfold wrap.
    destruct (Z.ltb_spec (r + Z.of_nat (k + i)) sz); lia.
Qed.
End copies.

(** ** Moving the indices *)

(** A position [k] places further on: the index, and the mirror flipped when it goes round. *)
Definition adv (n k mirror index : Z) : Z * Z :=
  if index + k <? n then (mirror, index + k) else (1 - mirror, index + k - n).

Definition bits (mirror : Z) : Prop := mirror = 0 \/ mirror = 1.

Lemma mirror_same x : bits x -> uwrap 1 x = x.
Proof. by intros [-> | ->]. Qed.

Lemma mirror_flip x : bits x -> uwrap 1 (Z.lnot x) = 1 - x.
Proof. by intros [-> | ->]. Qed.

Definition with_write (p : Z * Z) (m : mem) (s : rb_state) : rb_state :=
  mk_rb_state (mk_ringbuffer (buffer_ptr (rb s)) (read_mirror (rb s)) (read_index (rb s))
    p.1 p.2 (buffer_size (rb s))) m.
Definition with_read (p : Z * Z) (m : mem) (s : rb_state) : rb_state :=
  mk_rb_state (mk_ringbuffer (buffer_ptr (rb s)) p.1 p.2
    (write_mirror (rb s)) (write_index (rb s)) (buffer_size (rb s))) m.

Lemma lookup_ring_write m bp sz w l j :
  0 <= w < sz -> Z.of_nat (length l) <= sz -> 0 <= j < sz ->
  ring_write m bp sz w l !! (bp + j) =
  let i := if j <? w then j + sz - w else j - w in
  if decide (i < Z.of_nat (length l)) then l !! Z.to_nat i else m !! (bp + j).
Proof.
  intros Hw Hl Hj. simpl. unfold ring_write. rewrite !lookup_write_bytes, length_drop, length_take, lookup_drop.
  destruct (Z.ltb_spec j w); repeat case_decide; try lia; try done.
  - f_equal. lia.
  - rewrite lookup_take_lt by lia. f_equal. lia.
Qed.

Lemma lookup_ring_write_out m bp sz w l a :
  0 <= w < sz -> Z.of_nat (length l) <= sz -> ~ (bp <= a < bp + sz) ->
  ring_write m bp sz w l !! a = m !! a.
Proof.
  intros Hw Hl Ha. unfold ring_write. rewrite !lookup_write_bytes, length_drop, length_take.
  by repeat case_decide; try lia.
Qed.

(** Bytes written behind the last one are queued. *)
Lemma push_repr s q cm l :
  rb_repr s q cm -> Z.of_nat (length q + length l) <= buffer_size (rb s) ->
  Forall (fun b => 0 <= b < 256) l ->
  rb_repr (with_write (adv (buffer_size (rb s)) (Z.of_nat (length l)) (write_mirror (rb s)) (write_index (rb s)))
             (ring_write (ram s) (buffer_ptr (rb s)) (buffer_size (rb s)) (write_index (rb s)) l) s)
    (q ++ l) cm.
Proof.
  intros R Hle Hb. destruct R as [Hsz Hr Hw Hrm Hwm Hlen Hcap Hdata Hpool Hok Hcl].
  set (sz := buffer_size (rb s)) in *. set (w := write_index (rb s)) in *. set (bp := buffer_ptr (rb s)) in *.
  unfold adv. split; simpl; rewrite ?length_app; fold sz w bp;
    try (destruct (Z.ltb_spec (w + Z.of_nat (length l)) sz); simpl; lia).
  - destruct (Z.ltb_spec (w + Z.of_nat (length l)) sz); simpl.
    + lia.
    + destruct Hrm as [Er | Er], Hwm as [Ew | Ew]; rewrite Er, Ew in *; simpl in *; lia.
  - intros i b Hi. set (j := wrap sz (read_index (rb s) + Z.of_nat i)).
    pose proof (lookup_lt_Some _ _ _ Hi) as Hil. rewrite length_app in Hil.
    assert (0 <= j < sz) as Hj.
    { unfold j, wrap. destruct (Z.ltb_spec (read_index (rb s) + Z.of_nat i) sz); lia. }
    rewrite lookup_ring_write by lia. simpl.
    destruct (decide (i < length q)%nat) as [Hiq|Hiq].
    + rewrite lookup_app_l in Hi by done. apply Hdata in Hi. rewrite decide_False; [done|].
      unfold j, wrap. destruct (Z.ltb_spec (read_index (rb s) + Z.of_nat i) sz);
        destruct (Z.eqb_spec (read_mirror (rb s)) (write_mirror (rb s)));
        match goal with |- context [?a <? ?b] => destruct (Z.ltb_spec a b) end; lia.
    + rewrite lookup_app_r in Hi by lia.
      assert ((if j <? w then j + sz - w else j - w) = Z.of_nat (i - length q)) as ->.
      { unfold j, wrap. destruct (Z.ltb_spec (read_index (rb s) + Z.of_nat i) sz);
        destruct (Z.eqb_spec (read_mirror (rb s)) (write_mirror (rb s)));
        match goal with |- context [?a <? ?b] => destruct (Z.ltb_spec a b) end; lia. }
      rewrite Nat2Z.id, decide_True by lia. done.
  - unfold ring_write. by do 2 apply mapped_write_bytes.
  - apply write_bytes_ok; [apply write_bytes_ok; [done|by apply Forall_take]|by apply Forall_drop].
  - intros a. rewrite Hcl. case_decide; [done|]. by rewrite lookup_ring_write_out by lia.
Qed.

(** The first bytes leave the queue; memory may change outside the array. *)
Lemma pop_repr s q cm m' cm' (k : nat) :
  rb_repr s q cm -> (k <= length q)%nat -> mem_ok m' ->
  (forall a, m' !! a = if decide (buffer_ptr (rb s) <= a < buffer_ptr (rb s) + buffer_size (rb s))
                       then ram s !! a else cm' !! a) ->
  (forall a, buffer_ptr (rb s) <= a < buffer_ptr (rb s) + buffer_size (rb s) -> cm' !! a = None) ->
  rb_repr (with_read (adv (buffer_size (rb s)) (Z.of_nat k) (read_mirror (rb s)) (read_index (rb s))) m' s)
    (drop k q) cm'.
Proof.
  intros R Hk Hok' Hm' Hout. destruct R as [Hsz Hr Hw Hrm Hwm Hlen Hcap Hdata Hpool Hok Hcl].
  set (sz := buffer_size (rb s)) in *. set (r := read_index (rb s)) in *. set (bp := buffer_ptr (rb s)) in *.
  unfold adv. split; simpl; rewrite ?length_drop; fold sz r bp;
    try (destruct (Z.ltb_spec (r + Z.of_nat k) sz); simpl; lia).
  - destruct (Z.ltb_spec (r + Z.of_nat k) sz); simpl.
    + lia.
    + destruct Hrm as [Er | Er], Hwm as [Ew | Ew]; rewrite Er, Ew in *; simpl in *; lia.
  - intros i b Hi. rewrite lookup_drop in Hi. pose proof (lookup_lt_Some _ _ _ Hi) as Hil.
    apply Hdata in Hi. rewrite <- Hi.
    assert (wrap sz ((if r + Z.of_nat k <? sz then (read_mirror (rb s), r + Z.of_nat k)
              else (1 - read_mirror (rb s), r + Z.of_nat k - sz)).2 + Z.of_nat i) = wrap sz (r + Z.of_nat (k + i))) as ->.
    { unfold wrap. destruct (Z.ltb_spec (r + Z.of_nat k) sz); simpl;
        repeat match goal with |- context [?a <? ?b] => destruct (Z.ltb_spec a b) end; lia. }
    rewrite Hm', decide_True; [done|].
    unfold wrap. destruct (Z.ltb_spec (r + Z.of_nat (k + i)) sz); lia.
  - intros a Ha. rewrite Hm', decide_True by lia. by apply Hpool.
  - done.
  - intros a. case_decide; [by apply Hout|]. by rewrite Hm', decide_False.
Qed.

(** ** What each operation does *)

Lemma on_ram_ok {A} (c : M mem A) s a m : c (ram s) = Ok a m -> on_ram c s = Ok a (mk_rb_state (rb s) m).
Proof. unfold on_ram. by intros ->. Qed.

Lemma on_ram_bind {A} (c1 c2 : M mem unit) (k : B A) s m :
  (c1;; c2) (ram s) = Ok tt m -> (on_ram c1;; on_ram c2;; k) s = k (mk_rb_state (rb s) m).
Proof.
  unfold on_ram, mbind, M_bind. destruct (c1 (ram s)) as [[] m1|]; [|done]. simpl.
  by intros ->.
Qed.

(** The client's memory at [ptr] is apart from the array. *)
Lemma client_apart s q cm ptr n l :
  rb_repr s q cm -> read_bytes cm ptr n = Some l ->
  read_bytes (ram s) ptr n = Some l /\
  (n = 0%nat \/ ptr + Z.of_nat n <= buffer_ptr (rb s) \/ buffer_ptr (rb s) + buffer_size (rb s) <= ptr).
Proof.
  intros R E. pose proof (read_bytes_length _ _ _ _ E) as Hlen. pose proof (rr_size _ _ _ R).
  assert (forall a, ptr <= a < ptr + Z.of_nat n -> is_Some (cm !! a)) as Hm by by eapply read_bytes_mapped.
  split.
  - rewrite <- Hlen. apply read_bytes_intro. intros i b Hi.
    eapply (client_lookup s q cm); [done|]. rewrite (read_bytes_lookup _ _ _ _ _ E); [done|].
    rewrite <- Hlen. by eapply lookup_lt_Some.
  - destruct (decide (n = 0%nat)); [by left|right].
    destruct (decide (ptr + Z.of_nat n <= buffer_ptr (rb s))); [by left|right].
    destruct (decide (buffer_ptr (rb s) + buffer_size (rb s) <= ptr)); [done|exfalso].
    destruct (Hm (Z.max ptr (buffer_ptr (rb s)))) as [b Hb]; [lia|].
    apply (client_lookup _ _ _ _ _ R) in Hb as [_ Hb]. lia.
Qed.

(** The index after [k] more bytes, as the code computes it. *)
Lemma set_write_adv s m k :
  0 < buffer_size (rb s) < 2 ^ 15 -> bits (write_mirror (rb s)) ->
  0 <= write_index (rb s) < buffer_size (rb s) -> 0 <= k <= buffer_size (rb s) ->
  (if k <? buffer_size (rb s) - write_index (rb s)
   then set_write (write_mirror (rb s)) (write_index (rb s) + k)
   else set_write (Z.lnot (write_mirror (rb s))) (k - (buffer_size (rb s) - write_index (rb s))))
    (mk_rb_state (rb s) m) =
  with_write (adv (buffer_size (rb s)) k (write_mirror (rb s)) (write_index (rb s))) m s.
Proof.
  intros Hs Hm Hi Hk. unfold adv, set_write, with_write.
  destruct (Z.ltb_spec k (buffer_size (rb s) - write_index (rb s)));
    destruct (Z.ltb_spec (write_index (rb s) + k) (buffer_size (rb s))); try lia; simpl.
  - by rewrite mirror_same, uwrap_small by (done || lia).
  - rewrite mirror_flip, uwrap_small by (done || lia).
    by replace (k - (buffer_size (rb s) - write_index (rb s))) with (write_index (rb s) + k - buffer_size (rb s)) by lia.
Qed.

Lemma set_read_adv s m k :
  0 < buffer_size (rb s) < 2 ^ 15 -> bits (read_mirror (rb s)) ->
  0 <= read_index (rb s) < buffer_size (rb s) -> 0 <= k <= buffer_size (rb s) ->
  (if k <? buffer_size (rb s) - read_index (rb s)
   then set_read (read_mirror (rb s)) (read_index (rb s) + k)
   else set_read (Z.lnot (read_mirror (rb s))) (k - (buffer_size (rb s) - read_index (rb s))))
    (mk_rb_state (rb s) m) =
  with_read (adv (buffer_size (rb s)) k (read_mirror (rb s)) (read_index (rb s))) m s.
Proof.
  intros Hs Hm Hi Hk. unfold adv, set_read, with_read.
  destruct (Z.ltb_spec k (buffer_size (rb s) - read_index (rb s)));
    destruct (Z.ltb_spec (read_index (rb s) + k) (buffer_size (rb s))); try lia; simpl.
  - by rewrite mirror_same, uwrap_small by (done || lia).
  - rewrite mirror_flip, uwrap_small by (done || lia).
    by replace (k - (buffer_size (rb s) - read_index (rb s))) with (read_index (rb s) + k - buffer_size (rb s)) by lia.
Qed.

(** The array and the index after the copy of [l] behind the last byte. *)
Definition pushed (s : rb_state) (l : list Z) : rb_state :=
  with_write (adv (buffer_size (rb s)) (Z.of_nat (length l)) (write_mirror (rb s)) (write_index (rb s)))
    (ring_write (ram s) (buffer_ptr (rb s)) (buffer_size (rb s)) (write_index (rb s)) l) s.

(** Both branches of the copy of [rt_ringbuffer_put] and [rt_ringbuffer_put_force], with
    what follows them. *)
Lemma put_copy {A} s q cm ptr n l (k1 k2 : B A) :
  rb_repr s q cm -> read_bytes cm ptr n = Some l -> Z.of_nat n <= buffer_size (rb s) ->
  let b := rb s in
  (if Z.of_nat n <? buffer_size b - write_index b then
     on_ram (memcpy (buffer_ptr b + write_index b) ptr (Z.of_nat n));;
     modify (set_write (write_mirror b) (write_index b + Z.of_nat n));; k1
   else
     on_ram (memcpy (buffer_ptr b + write_index b) ptr (buffer_size b - write_index b));;
     on_ram (memcpy (buffer_ptr b) (ptr + (buffer_size b - write_index b))
               (Z.of_nat n - (buffer_size b - write_index b)));;
     modify (set_write (Z.lnot (write_mirror b)) (Z.of_nat n - (buffer_size b - write_index b)));; k2) s =
  (if Z.of_nat n <? buffer_size b - write_index b then k1 else k2) (pushed s l).
Proof.
  intros R E Hn b. destruct (client_apart _ _ _ _ _ _ R E) as [El Ha].
  pose proof (read_bytes_length _ _ _ _ E) as Hlen.
  destruct R as [Hsz Hr Hw Hrm Hwm _ Hcap _ Hpool Hok _].
  pose proof (set_write_adv s (ring_write (ram s) (buffer_ptr b) (buffer_size b) (write_index b) l) (Z.of_nat n) Hsz Hwm Hw ltac:(lia)) as Eadv.
  fold b in Eadv, Hw, Hwm, Hn, Hpool, Ha. unfold pushed. fold b. rewrite Hlen, <- Eadv.
  destruct (Z.ltb_spec (Z.of_nat n) (buffer_size b - write_index b)).
  - erewrite run_bind; [|by apply on_ram_ok, (copy_in_short _ _ (buffer_size b)); try lia]. done.
  - erewrite on_ram_bind; [|by apply copy_in_long; try lia]. done.
Qed.

Definition area (s : rb_state) : Z * Z := (buffer_ptr (rb s), buffer_size (rb s)).
Definition cap (s : rb_state) : nat := Z.to_nat (area s).2.

(** The operation returns [r] and the buffer then represents [q'] and [cm']. *)
Definition simulates (c : B Z) (s : rb_state) (o : Z * list Z * mem) : Prop :=
  exists s', c s = Ok o.1.1 s' /\ rb_repr s' o.1.2 o.2 /\ area s' = area s.

Lemma put_simulates s q cm ptr len o :
  rb_repr s q cm -> 0 <= len < 2 ^ 16 -> abs_step (cap s) (OPut ptr len) q cm = Some o ->
  simulates (rt_ringbuffer_put ptr len) s o.
Proof.
  intros R Hlen E. unfold abs_step in E.
  set (n := (Z.to_nat len `min` (cap s - length q))%nat) in E.
  destruct (read_bytes cm ptr n) as [l|] eqn:El; [|done]. simplify_eq/=.
  pose proof (read_bytes_length _ _ _ _ El) as Hn.
  pose proof (rr_size _ _ _ R). pose proof (rr_cap _ _ _ R).
  unfold rt_ringbuffer_put. unfold simulates. simpl.
  erewrite run_bind by done. rewrite (space_len_repr _ _ _ R), uwrap_small by lia.
  unfold cap, area in *; simpl in *. destruct (Z.eqb_spec (buffer_size (rb s) - Z.of_nat (length q)) 0) as [E0|E0].
  - exists s. assert (n = 0%nat) as En by lia. rewrite En in *. simplify_eq/=. by rewrite app_nil_r.
  - assert ((if buffer_size (rb s) - Z.of_nat (length q) <? len
             then buffer_size (rb s) - Z.of_nat (length q) else len) = Z.of_nat n) as ->.
    { destruct (Z.ltb_spec (buffer_size (rb s) - Z.of_nat (length q)) len); lia. }
    rewrite (put_copy _ _ _ _ _ _ _ _ R El) by lia. exists (pushed s l). split_and!; [by destruct (_ <? _)|..|done].
    apply push_repr; [done|lia|]. eapply read_bytes_ok; [apply (rr_ok _ _ _ R)|].
    by eapply client_apart.
Qed.

(** Both branches of the copy of [rt_ringbuffer_get]. *)
Lemma get_simulates s q cm ptr len o :
  rb_repr s q cm -> 0 <= len < 2 ^ 16 -> abs_step (cap s) (OGet ptr len) q cm = Some o ->
  simulates (rt_ringbuffer_get ptr len) s o.
Proof.
  intros R Hlen E. unfold abs_step in E.
  set (n := (Z.to_nat len `min` length q)%nat) in E.
  destruct (read_bytes cm ptr n) as [l|] eqn:El; [|done]. simplify_eq/=.
  destruct (client_apart _ _ _ _ _ _ R El) as [Em Ha].
  pose proof (rr_size _ _ _ R). pose proof (rr_cap _ _ _ R). pose proof (rr_read _ _ _ R).
  assert (length (take n q) = n) as Hn by (rewrite length_take; lia).
  assert (rb_repr (with_read (adv (buffer_size (rb s)) (Z.of_nat n) (read_mirror (rb s)) (read_index (rb s)))
                     (write_bytes (ram s) ptr (take n q)) s) (drop n q) (write_bytes cm ptr (take n q))) as R'.
  { apply (pop_repr _ _ _ _ _ _ R); [lia|..].
    - apply write_bytes_ok; [apply (rr_ok _ _ _ R)|]. apply Forall_take, Forall_lookup.
      intros i b Hi. by eapply (rr_ok _ _ _ R), (rr_data _ _ _ R).
    - intros a. rewrite !lookup_write_bytes, Hn, (rr_client _ _ _ R).
      repeat case_decide; done || lia.
    - intros a Hi. rewrite lookup_write_bytes, Hn, (rr_client _ _ _ R).
      repeat case_decide; done || lia. }
  pose proof (set_read_adv s (write_bytes (ram s) ptr (take n q)) (Z.of_nat n) (rr_size _ _ _ R) (rr_rm _ _ _ R)
                (rr_read _ _ _ R) ltac:(lia)) as Eadv.
  assert (forall i b, take n q !! i = Some b ->
    ram s !! (buffer_ptr (rb s) + wrap (buffer_size (rb s)) (read_index (rb s) + Z.of_nat i)) = Some b) as Hd.
  { intros i b Hi. apply (rr_data _ _ _ R). by apply lookup_take_Some in Hi as [? _]. }
  unfold rt_ringbuffer_get, simulates. simpl. erewrite run_bind by done.
  rewrite (data_len_repr _ _ _ R).
  destruct (Z.eqb_spec (Z.of_nat (length q)) 0) as [E0|E0].
  - exists s. assert (n = 0%nat) as -> by lia. done.
  - assert ((if Z.of_nat (length q) <? len then Z.of_nat (length q) else len) = Z.of_nat n) as ->.
    { destruct (Z.ltb_spec (Z.of_nat (length q)) len); lia. }
    eexists. split_and!; [|exact R'|done]. rewrite <- Eadv.
    pose proof (read_bytes_mapped _ _ _ _ Em).
    destruct (Z.ltb_spec (Z.of_nat n) (buffer_size (rb s) - read_index (rb s))).
    + erewrite run_bind; [done|]. apply on_ram_ok.
      eapply (copy_out_short _ _ (buffer_size (rb s))); try done; try lia. apply (rr_ok _ _ _ R).
    + erewrite on_ram_bind; [done|].
      eapply (copy_out_long _ _ (buffer_size (rb s))); try done; try lia. apply (rr_ok _ _ _ R).
Qed.

(** The store and the index of a single byte. *)
Lemma putchar_pushes s q cm ch :
  rb_repr s q cm -> 0 <= ch < 256 ->
  let b := rb s in
  exists m1, on_ram (wr8 (buffer_ptr b + write_index b) ch) s = Ok tt (mk_rb_state b m1) /\
    (if write_index b =? buffer_size b - 1 then set_write (Z.lnot (write_mirror b)) 0
     else set_write (write_mirror b) (write_index b + 1)) (mk_rb_state b m1) = pushed s [ch].
Proof.
  intros R Hch b. destruct R as [Hsz Hr Hw Hrm Hwm _ Hcap _ Hpool Hok _]. fold b in Hsz, Hw, Hwm, Hpool.
  destruct (Hpool (buffer_ptr b + write_index b)) as [c Hc]; [lia|].
  eexists. split.
  { apply on_ram_ok. unfold wr8. erewrite run_bind by done. rewrite Hc. by erewrite run_bind by done. }
  assert (ring_write (ram s) (buffer_ptr b) (buffer_size b) (write_index b) [ch] =
          <[buffer_ptr b + write_index b := u8 ch]> (ram s)) as Ew.
  { unfold ring_write. replace (Z.to_nat (buffer_size b - write_index b)) with
      (S (Z.to_nat (buffer_size b - write_index b - 1))) by lia. simpl.
    by rewrite take_nil, drop_nil, uwrap_small. }
  pose proof (set_write_adv s (ring_write (ram s) (buffer_ptr b) (buffer_size b) (write_index b) [ch]) 1
    Hsz Hwm Hw ltac:(subst b; lia)) as Eadv.
  unfold pushed. fold b. fold b in Eadv. change (Z.of_nat (length [ch])) with 1. rewrite Ew in *. rewrite <- Eadv.
  destruct (Z.eqb_spec (write_index b) (buffer_size b - 1)) as [E|E];
    destruct (Z.ltb_spec 1 (buffer_size b - write_index b)); try lia; [|done].
  replace (1 - (buffer_size b - write_index b)) with 0 by lia. done.
Qed.

Lemma putchar_simulates s q cm ch o :
  rb_repr s q cm -> 0 <= ch < 256 -> abs_step (cap s) (OPutchar ch) q cm = Some o ->
  simulates (rt_ringbuffer_putchar ch) s o.
Proof.
  intros R Hch E. simpl in E. pose proof (rr_size _ _ _ R). pose proof (rr_cap _ _ _ R).
  unfold rt_ringbuffer_putchar, simulates. erewrite run_bind by done.
  rewrite (space_len_repr _ _ _ R). unfold cap, area in *; simpl in *.
  destruct (Z.eqb_spec (buffer_size (rb s) - Z.of_nat (length q)) 0) as [E0|E0];
    case_decide; try lia; simplify_eq/=; [by exists s|].
  exists (pushed s [ch]). split_and!; [|apply push_repr; [done|simpl; lia|by constructor]|done].
  destruct (putchar_pushes _ _ _ _ R Hch) as (m1 & E1 & E2). erewrite run_bind by exact E1.
  rewrite <- E2. by destruct (_ =? _).
Qed.

(** The queue without its first bytes. *)
Lemma drop_repr s q cm (k : nat) :
  rb_repr s q cm -> (k <= length q)%nat ->
  rb_repr (with_read (adv (buffer_size (rb s)) (Z.of_nat k) (read_mirror (rb s)) (read_index (rb s))) (ram s) s)
    (drop k q) cm.
Proof.
  intros R Hk. apply (pop_repr _ _ _ _ _ _ R); [done|apply (rr_ok _ _ _ R)|..]; intros a;
    rewrite (rr_client _ _ _ R); by repeat case_decide.
Qed.

(** In a full buffer the two indices are equal and the mirrors differ. *)
Lemma full_repr s q cm :
  rb_repr s q cm -> Z.of_nat (length q) = buffer_size (rb s) ->
  read_index (rb s) = write_index (rb s) /\ read_mirror (rb s) = 1 - write_mirror (rb s).
Proof.
  intros [? ? ? Hr Hw Hl ? _ _ _ _] E. rewrite E in Hl.
  destruct Hr as [Er|Er], Hw as [Ew|Ew]; rewrite Er, Ew in *; simpl in *; lia.
Qed.

Lemma putchar_force_simulates s q cm ch o :
  rb_repr s q cm -> 0 <= ch < 256 -> abs_step (cap s) (OPutcharForce ch) q cm = Some o ->
  simulates (rt_ringbuffer_putchar_force ch) s o.
Proof.
  intros R Hch E. simpl in E. simplify_eq.
  pose proof (rr_size _ _ _ R). pose proof (rr_cap _ _ _ R).
  unfold rt_ringbuffer_putchar_force, simulates. simpl. erewrite run_bind by done.
  rewrite (status_repr _ _ _ R). unfold cap, area in *; simpl in *.
  destruct (putchar_pushes _ _ _ _ R Hch) as (m1 & E1 & E2).
  destruct (decide (length q < Z.to_nat (buffer_size (rb s)))%nat) as [Hc|Hc].
  - exists (pushed s [ch]). split_and!; [|apply push_repr; [done|simpl; lia|by constructor]|done].
    erewrite run_bind by exact E1. rewrite <- E2, (decide_False (P := Z.of_nat (length q) = _)) by lia.
    destruct (decide (q = [])); by destruct (_ =? _).
  - assert (Z.of_nat (length q) = buffer_size (rb s)) as Hfull by lia.
    destruct (full_repr _ _ _ R Hfull) as [Ei Em].
    pose proof (drop_repr _ _ _ 1 R ltac:(lia)) as R1.
    pose proof (push_repr _ _ _ [ch] R1 ltac:(rewrite length_drop; simpl; lia) ltac:(by constructor)) as R2.
    eexists. split_and!; [|exact R2|done].
    erewrite run_bind by exact E1. rewrite decide_False by (intros ->; simpl in *; lia). rewrite decide_True by done.
    pose proof (rr_rm _ _ _ R). pose proof (rr_write _ _ _ R).
    destruct (Z.eqb_spec (write_index (rb s)) (buffer_size (rb s) - 1)) as [Ew|Ew].
    + transitivity (Ok (S:=rb_state) 1 (set_read (Z.lnot (read_mirror (rb s)))
        (write_index (rb (set_write (Z.lnot (write_mirror (rb s))) 0 (mk_rb_state (rb s) m1))))
        (set_write (Z.lnot (write_mirror (rb s))) 0 (mk_rb_state (rb s) m1)))); [reflexivity|].
      rewrite E2. unfold pushed, set_read, with_read, with_write, adv. simpl. change (Z.of_nat 1) with 1. rewrite Ei.
      destruct (Z.ltb_spec (write_index (rb s) + 1) (buffer_size (rb s))); [lia|]. simpl.
      by rewrite mirror_flip, uwrap_small by (done || lia).
    + transitivity (Ok (S:=rb_state) 1 (set_read (read_mirror (rb s))
        (write_index (rb (set_write (write_mirror (rb s)) (write_index (rb s) + 1) (mk_rb_state (rb s) m1))))
        (set_write (write_mirror (rb s)) (write_index (rb s) + 1) (mk_rb_state (rb s) m1)))); [reflexivity|].
      rewrite E2. unfold pushed, set_read, with_read, with_write, adv. simpl. change (Z.of_nat 1) with 1. rewrite Ei.
      destruct (Z.ltb_spec (write_index (rb s) + 1) (buffer_size (rb s))); [|lia]. simpl.
      by rewrite mirror_same, uwrap_small by (done || lia).
Qed.

Lemma getchar_simulates s q cm p o :
  rb_repr s q cm -> abs_step (cap s) (OGetchar p) q cm = Some o ->
  simulates (rt_ringbuffer_getchar p) s o.
Proof.
  intros R E. unfold rt_ringbuffer_getchar, simulates. erewrite run_bind by done.
  rewrite (data_len_repr _ _ _ R). destruct q as [|c q]; simpl in E; [simplify_eq/=; by exists s|].
  destruct (cm !! p) as [v|] eqn:Ep; [|done]. simplify_eq/=.
  destruct (client_lookup _ _ _ _ _ R Ep) as [Em Hout].
  pose proof (rr_size _ _ _ R). pose proof (rr_cap _ _ _ R). pose proof (rr_read _ _ _ R).
  pose proof (rr_data _ _ _ R 0%nat c eq_refl) as Ec.
  unfold wrap in Ec. rewrite Z.add_0_r in Ec.
  destruct (Z.ltb_spec (read_index (rb s)) (buffer_size (rb s))); [|lia].
  pose proof (rr_ok _ _ _ R _ _ Ec) as Hc.
  eexists. split_and!; [|eapply (pop_repr _ _ _ (<[p := c]> (ram s)) (<[p := c]> cm) 1 R); [simpl; lia|..]|done].
  - erewrite run_bind; [|apply on_ram_ok; unfold rd8, wr8, get, modify, opt, mbind, M_bind; rewrite Ec; cbv beta iota delta [mret M_ret]; rewrite Em; done].
    pose proof (set_read_adv s (<[p := c]> (ram s)) 1 (rr_size _ _ _ R) (rr_rm _ _ _ R) (rr_read _ _ _ R) ltac:(lia)) as Eadv.
    change (Z.of_nat 1) with 1. rewrite <- Eadv, uwrap_small by lia.
    destruct (Z.eqb_spec (read_index (rb s)) (buffer_size (rb s) - 1));
      destruct (Z.ltb_spec 1 (buffer_size (rb s) - read_index (rb s))); try lia; [|done].
    by replace (1 - (buffer_size (rb s) - read_index (rb s))) with 0 by lia.
  - intros a b. rewrite lookup_insert. case_decide; [intros; by simplify_eq|apply (rr_ok _ _ _ R)].
  - intros a. rewrite !lookup_insert, (rr_client _ _ _ R). repeat case_decide; subst; done.
  - intros a Ha. rewrite lookup_insert, (rr_client _ _ _ R). repeat case_decide; subst; done.
Qed.

Lemma store_simulates s q cm p v o :
  rb_repr s q cm -> 0 <= v < 256 -> abs_step (cap s) (OStore p v) q cm = Some o ->
  simulates (rb_step (OStore p v)) s o.
Proof.
  intros R Hv E. simpl in E. destruct (cm !! p) as [w|] eqn:Ep; [|done]. simplify_eq/=.
  destruct (client_lookup _ _ _ _ _ R Ep) as [Em Hout]. unfold simulates. simpl.
  eexists. split_and!.
  - erewrite run_bind; [done|]. apply on_ram_ok. unfold wr8. erewrite run_bind by done.
    rewrite Em. by erewrite run_bind by done.
  - rewrite uwrap_small by lia. destruct R as [? ? ? ? ? ? ? Hd Hp Hok Hcl]. split; simpl; try done.
    + intros i b Hi. pose proof (Hd _ _ Hi) as Hb. rewrite lookup_insert_ne; [done|]. intros ->. apply Hout.
      assert (0 <= wrap (buffer_size (rb s)) (read_index (rb s) + Z.of_nat i) < buffer_size (rb s)); [|lia].
      apply lookup_lt_Some in Hi. unfold wrap. destruct (Z.ltb_spec (read_index (rb s) + Z.of_nat i) (buffer_size (rb s))); lia.
    + by apply mapped_insert.
    + intros a b. rewrite lookup_insert. case_decide; [intros; by simplify_eq|apply Hok].
    + intros a. rewrite !lookup_insert, Hcl. repeat case_decide; subst; done.
  - done.
Qed.

#[local] Hint Resolve put_simulates get_simulates putchar_simulates putchar_force_simulates
  getchar_simulates store_simulates : ring.

(** Any operation of the client. *)
Lemma step_simulates s q cm op o :
  rb_repr s q cm -> op_ok op -> abs_step (cap s) op q cm = Some o -> simulates (rb_step op) s o.
Proof. destruct op; simpl op_ok; intros; first [by eauto with ring|unfold rb_step; by eauto with ring]. Qed.

Lemma run_simulates ops s q cm rs q' cm' :
  rb_repr s q cm -> Forall op_ok ops -> abs_run (cap s) ops q cm = Some (rs, q', cm') ->
  exists s', rb_run ops s = Ok rs s' /\ rb_repr s' q' cm' /\ area s' = area s.
Proof.
  revert s q cm rs. induction ops as [|op ops IH]; intros s q cm rs R Hops E; simpl in E.
  { simplify_eq. by exists s. }
  apply Forall_cons in Hops as [Hop Hops].
  destruct (abs_step (cap s) op q cm) as [[[r q1] cm1]|] eqn:E1; [|done]. simpl in E.
  destruct (abs_run (cap s) ops q1 cm1) as [[[rs2 q2] cm2]|] eqn:E2; [|done]. simplify_eq/=.
  destruct (step_simulates _ _ _ _ _ R Hop E1) as (s1 & Er & R1 & Hc). simpl in *.
  assert (cap s1 = cap s) as Hc' by (unfold cap; by rewrite Hc).
  rewrite <- Hc' in E2. destruct (IH _ _ _ _ R1 Hops E2) as (s2 & Er2 & R2 & Ha).
  exists s2. split_and!; [|done|congruence]. erewrite run_bind by exact Er. by erewrite run_bind by exact Er2.
Qed.

(** ** Initialisation *)

(** The array is at least four bytes long and apart from the client's memory [cm]. *)
Lemma init_repr s pool size cm :
  4 <= size < 2 ^ 15 -> mapped (ram s) pool (RT_ALIGN_DOWN size 4) -> mem_ok (ram s) ->
  (forall a, cm !! a = if decide (pool <= a < pool + RT_ALIGN_DOWN size 4) then None else ram s !! a) ->
  exists s', rt_ringbuffer_init pool size s = Ok tt s' /\ rb_repr s' [] cm /\
    area s' = (pool, RT_ALIGN_DOWN size 4) /\ ram s' = ram s.
Proof.
  intros Hs Hp Hok Hc. rewrite RT_ALIGN_DOWN_4 in *.
  pose proof (Z.mod_pos_bound size 4 ltac:(lia)).
  assert (s16 (size - size mod 4) = size - size mod 4) as E by (apply swrap_small; lia).
  eexists. split_and!.
  - unfold rt_ringbuffer_init. destruct (Z.ltb_spec 0 size); [|lia]. done.
  - split; simpl; rewrite ?RT_ALIGN_DOWN_4, ?E; try done; try lia; try by left.
    all: change (u15 0) with 0; lia.
  - unfold area. simpl. by rewrite RT_ALIGN_DOWN_4, E.
  - done.
Qed.

(** ** [rt_ringbuffer_put_force] *)

(** What it leaves in the queue.  When the data do not fit, the code takes as many bytes
    as the array has from [ptr], whatever the length was; they replace the queue, except
    when the queue is neither empty nor has gone round: then nothing is left. *)
Definition force_result (b : rt_ringbuffer) (q : list Z) (cm : mem) (ptr len : Z) : option (Z * list Z) :=
  let sz := buffer_size b in
  if len <=? sz - Z.of_nat (length q) then
    data ← read_bytes cm ptr (Z.to_nat len); Some (len, q ++ data)
  else
    data ← read_bytes cm ptr (Z.to_nat sz);
    Some (sz, if decide (q <> [] /\ read_mirror b = write_mirror b) then [] else data).

(** All bytes dropped: the read position is the write position. *)
Lemma empty_repr s q cm :
  rb_repr s q cm -> rb_repr (with_read (write_mirror (rb s), write_index (rb s)) (ram s) s) [] cm.
Proof.
  intros R. pose proof (drop_repr _ _ _ (length q) R ltac:(lia)) as R'. rewrite drop_all in R'.
  destruct R as [? ? ? Hr Hw Hl ? _ _ _ _].
  replace (write_mirror (rb s), write_index (rb s)) with
    (adv (buffer_size (rb s)) (Z.of_nat (length q)) (read_mirror (rb s)) (read_index (rb s))); [done|].
  unfold adv. destruct Hr as [Er|Er], Hw as [Ew|Ew]; rewrite Er, Ew in *; simpl in Hl |- *;
    destruct (Z.ltb_spec (read_index (rb s) + Z.of_nat (length q)) (buffer_size (rb s))); f_equal; lia.
Qed.

Lemma put_force_simulates s q cm ptr len r q' :
  rb_repr s q cm -> 0 <= len < 2 ^ 16 -> force_result (rb s) q cm ptr len = Some (r, q') ->
  exists s', rt_ringbuffer_put_force ptr len s = Ok r s' /\ rb_repr s' q' cm.
Proof.
  intros R Hlen E. unfold force_result in E.
  pose proof (rr_size _ _ _ R). pose proof (rr_cap _ _ _ R). pose proof (rr_write _ _ _ R).
  unfold rt_ringbuffer_put_force. erewrite run_bind by done.
  rewrite (space_len_repr _ _ _ R), (uwrap_small 16 (_ - _)), (uwrap_small 16 (buffer_size _)) by lia.
  destruct (Z.leb_spec len (buffer_size (rb s) - Z.of_nat (length q))) as [Hle|Hgt];
    destruct (Z.ltb_spec (buffer_size (rb s) - Z.of_nat (length q)) len); try lia; simpl.
  - destruct (read_bytes cm ptr (Z.to_nat len)) as [l|] eqn:El; [|done].
    simpl in E. injection E as Er Eq. subst r q'.
    pose proof (read_bytes_length _ _ _ _ El).
    rewrite (proj2 (Z.ltb_ge (buffer_size (rb s) - Z.of_nat (length q)) len)) by lia.
    replace len with (Z.of_nat (Z.to_nat len)) by lia. rewrite (put_copy _ _ _ _ _ _ _ _ R El) by lia.
    exists (pushed s l). split; [by destruct (_ <? _)|]. apply push_repr; [done|lia|].
    eapply read_bytes_ok; [apply (rr_ok _ _ _ R)|]. by eapply client_apart.
  - destruct (read_bytes cm ptr (Z.to_nat (buffer_size (rb s)))) as [l|] eqn:El; [|done].
    simpl in E. injection E as Er Eq. subst r q'.
    pose proof (read_bytes_length _ _ _ _ El) as Hl.
    assert (Forall (fun b => 0 <= b < 256) l) as Hb.
    { eapply read_bytes_ok; [apply (rr_ok _ _ _ R)|]. by eapply client_apart. }
    pose proof (put_copy s q cm ptr (Z.to_nat (buffer_size (rb s))) l
      (when (buffer_size (rb s) - Z.of_nat (length q) <? buffer_size (rb s))
        (modify (fun s => set_read (read_mirror (rb s)) (write_index (rb s)) s));; mret (buffer_size (rb s)))
      (when (buffer_size (rb s) - Z.of_nat (length q) <? buffer_size (rb s))
        (modify (fun s => set_read (Z.lnot (read_mirror (rb s))) (write_index (rb s)) s));; mret (buffer_size (rb s)))
      R El ltac:(lia)) as Ec.
    simpl in Ec. rewrite Z2Nat.id in Ec by lia. rewrite Ec. clear Ec.
    destruct (Z.ltb_spec (buffer_size (rb s)) (buffer_size (rb s) - write_index (rb s))); [lia|].
    pose proof (push_repr _ _ _ l (empty_repr _ _ _ R) ltac:(simpl; lia) Hb) as R1.
    assert (adv (buffer_size (rb s)) (Z.of_nat (length l)) (write_mirror (rb s)) (write_index (rb s)) =
            (1 - write_mirror (rb s), write_index (rb s))) as Ew.
    { unfold adv. destruct (Z.ltb_spec (write_index (rb s) + Z.of_nat (length l)) (buffer_size (rb s))); [lia|].
      f_equal. lia. }
    destruct (decide (q = [])) as [->|Hq].
    + destruct (Z.ltb_spec (buffer_size (rb s) - Z.of_nat (length (@nil Z))) (buffer_size (rb s))); [simpl in *; lia|].
      exists (pushed s l). split; [done|]. rewrite decide_False by naive_solver.
      apply (push_repr s [] cm l); [done|simpl; lia|done].
    + assert (length q <> 0%nat) by by destruct q.
      destruct (Z.ltb_spec (buffer_size (rb s) - Z.of_nat (length q)) (buffer_size (rb s))); [|lia].
      eexists. split; [reflexivity|]. unfold pushed. rewrite Ew. unfold set_read. simpl.
      rewrite mirror_flip, uwrap_small by (try apply (rr_rm _ _ _ R); lia).
      simpl in R1. rewrite Ew in R1. unfold with_write, with_read in R1 |- *. simpl in R1 |- *.
      destruct (decide (read_mirror (rb s) = write_mirror (rb s))) as [Em|Em].
      * rewrite decide_True by done. apply empty_repr in R1. unfold with_read in R1. simpl in R1.
        rewrite Em. exact R1.
      * rewrite decide_False by naive_solver.
        replace (1 - read_mirror (rb s)) with (write_mirror (rb s)); [done|].
        destruct (rr_rm _ _ _ R), (rr_wm _ _ _ R); lia.
Qed.

(** ** The theorems *)

(** C36: A ring buffer of [n] bytes, once initialised, is a first-in first-out queue of [n]
    bytes rounded down to a multiple of four: every sequence of put, get, putchar,
    putchar_force and getchar returns what the queue returns, stores the bytes the queue
    delivers, changes no other memory of the client, and never faults, for any lengths
    of 16 bits and any number of rounds of the indices. *)
Theorem ringbuffer_is_queue pool size s0 s cm ops rs q' cm' :
  4 <= size < 2 ^ 15 -> mapped (ram s0) pool (RT_ALIGN_DOWN size 4) -> mem_ok (ram s0) ->
  (forall a, cm !! a = if decide (pool <= a < pool + RT_ALIGN_DOWN size 4) then None else ram s0 !! a) ->
  rt_ringbuffer_init pool size s0 = Ok tt s ->
  Forall op_ok ops ->
  abs_run (Z.to_nat (RT_ALIGN_DOWN size 4)) ops [] cm = Some (rs, q', cm') ->
  exists s', rb_run ops s = Ok rs s' /\
    rt_ringbuffer_data_len (rb s') = Z.of_nat (length q') /\
    (forall a, ~ (pool <= a < pool + RT_ALIGN_DOWN size 4) -> ram s' !! a = cm' !! a).
Proof.
  intros Hs Hp Hok Hc Ei Hops Er.
  destruct (init_repr _ _ _ _ Hs Hp Hok Hc) as (s1 & E1 & R & Ea & _).
  rewrite Ei in E1. apply Ok_inj in E1 as [_ <-].
  assert (cap s = Z.to_nat (RT_ALIGN_DOWN size 4)) as Hcap by (unfold cap; by rewrite Ea).
  rewrite <- Hcap in Er. destruct (run_simulates _ _ _ _ _ _ _ R Hops Er) as (s' & E & R' & Ha).
  exists s'. split_and!; [done|by eapply data_len_repr|]. intros a Hout.
  rewrite (rr_client _ _ _ R'). rewrite decide_False; [done|]. rewrite Ea in Ha. unfold area in Ha. congruence.
Qed.

(** [rt_ringbuffer_put_force] on every branch: data that fit are appended; otherwise the
    buffer takes [buffer_size] bytes from the caller's pointer, which then are the whole
    contents, or the buffer is left empty. *)
Theorem rt_ringbuffer_put_force_correct s q cm ptr len r q' :
  rb_repr s q cm -> 0 <= len < 2 ^ 16 -> force_result (rb s) q cm ptr len = Some (r, q') ->
  exists s', rt_ringbuffer_put_force ptr len s = Ok r s' /\ rb_repr s' q' cm.
Proof. apply put_force_simulates. Qed.

(** A forced write that does not fit into a buffer whose reader and writer are in the same
    round reports [buffer_size] bytes written but leaves the buffer empty: the new data
    are lost with the old. *)
Theorem put_force_loses_data s q cm ptr len data :
  rb_repr s q cm -> q <> [] -> read_mirror (rb s) = write_mirror (rb s) ->
  buffer_size (rb s) - Z.of_nat (length q) < len < 2 ^ 16 ->
  read_bytes cm ptr (Z.to_nat (buffer_size (rb s))) = Some data ->
  exists s', rt_ringbuffer_put_force ptr len s = Ok (buffer_size (rb s)) s' /\
    rt_ringbuffer_status (rb s') = RT_RINGBUFFER_EMPTY /\ rt_ringbuffer_data_len (rb s') = 0.
Proof.
  intros R Hq Hm Hlen Hd. pose proof (rr_cap _ _ _ R).
  destruct (put_force_simulates s q cm ptr len (buffer_size (rb s)) [] R) as (s' & E & R'); [lia|..].
  - unfold force_result. destruct (Z.leb_spec len (buffer_size (rb s) - Z.of_nat (length q))); [lia|].
    rewrite Hd. simpl. by rewrite decide_True.
  - exists s'. split_and!; [done|by rewrite (status_repr _ _ _ R')|by rewrite (data_len_repr _ _ _ R')].
Qed.

(** ** Concrete runs *)

Module RingDemo.
(** Eight bytes of buffer and sixteen bytes of the client. *)
Definition pool : Z := 0x100.
Definition user : Z := 0x200.
Definition blank : rt_ringbuffer := mk_ringbuffer 0 0 0 0 0 0.
Definition client : mem := write_bytes ∅ user (seqZ 1 16).
Definition s0 : rb_state := mk_rb_state blank (write_bytes client pool (replicate 8 0)).
Definition s1 : rb_state := run (rt_ringbuffer_init pool 11) s0.
Definition ops : list rb_op :=
  [OPut user 6; OGet (user + 8) 4; OPut user 5; OPutchar 100; OPutchar 101; OPutcharForce 102;
   OPutcharForce 103; OGetchar (user + 15); OGet user 9; OGetchar user].

(** [s2] holds three bytes in the first round. *)
Definition s2 : rb_state := run (rt_ringbuffer_put user 3) s1.

Lemma split_ram a :
  client !! a = if decide (pool <= a < pool + RT_ALIGN_DOWN 11 4) then None else ram s0 !! a.
Proof.
  change (RT_ALIGN_DOWN 11 4) with 8. unfold s0, client. cbn [ram]. rewrite (lookup_write_bytes _ pool), !lookup_write_bytes.
  change (length (seqZ 1 16)) with 16%nat. change (length (replicate 8 0)) with 8%nat. unfold pool, user.
  repeat case_decide; try lia; by rewrite ?lookup_empty.
Defined.

Lemma s0_ok : mem_ok (ram s0).
Proof.
  apply write_bytes_ok; [apply write_bytes_ok; [intros a b E; by rewrite lookup_empty in E|]|];
    apply (bool_decide_unpack _); vm_compute; exact I.
Defined.

Lemma s0_pool : mapped (ram s0) pool (RT_ALIGN_DOWN 11 4).
Proof. apply (read_bytes_mapped _ _ 8 (replicate 8 0)). by vm_compute. Defined.

Lemma ringbuffer_is_queue_witness :
  exists s', rb_run ops s1 = Ok [6; 4; 5; 1; 0; 1; 1; 1; 7; 0] s' /\
    rt_ringbuffer_data_len (rb s') = 0 /\
    (forall a, ~ (pool <= a < pool + RT_ALIGN_DOWN 11 4) ->
      ram s' !! a = write_bytes ∅ user [2; 3; 4; 5; 100; 102; 103; 8; 1; 2; 3; 4; 13; 14; 15; 1] !! a).
Proof.
  apply (ringbuffer_is_queue pool 11 s0 s1 client ops _ []); [lia|exact s0_pool|exact s0_ok|exact split_ram|by vm_compute|..].
  - apply (bool_decide_unpack _); vm_compute; exact I.
  - by vm_compute.
Defined.

Lemma s2_repr : rb_repr s2 [1; 2; 3] client.
Proof.
  destruct (init_repr s0 pool 11 client ltac:(lia) s0_pool s0_ok split_ram) as (s & E & R & Ha & _).
  assert (s = s1) as -> by (unfold s1, run; by rewrite E).
  destruct (put_simulates s1 [] client user 3 (3, [1; 2; 3], client) R ltac:(lia)) as (s & E2 & R2 & _); [by vm_compute|].
  cbn [fst snd] in *. assert (s = s2) as -> by (unfold s2, run; by rewrite E2). exact R2.
Qed.

Lemma put_force_correct_witness :
  exists s', rt_ringbuffer_put_force user 4 s2 = Ok 4 s' /\ rb_repr s' [1; 2; 3; 1; 2; 3; 4] client.
Proof.
  apply (rt_ringbuffer_put_force_correct s2 [1; 2; 3] client user 4); [exact s2_repr|lia|by vm_compute].
Defined.

(** Six bytes into five free ones. *)
Lemma put_force_loses_witness :
  exists s', rt_ringbuffer_put_force user 6 s2 = Ok 8 s' /\
    rt_ringbuffer_status (rb s') = RT_RINGBUFFER_EMPTY /\ rt_ringbuffer_data_len (rb s') = 0.
Proof.
  apply (put_force_loses_data s2 [1; 2; 3] client user 6 [1; 2; 3; 4; 5; 6; 7; 8]); [exact s2_repr|done|by vm_compute|..].
  - change (buffer_size (rb s2)) with 8. simpl. lia.
  - by vm_compute.
Defined.
End RingDemo.
