(* ===== verification/SmallMem.v ===== *)
(** * The small memory manager (src/mem.c)

    The heap is one area cut into blocks; each block starts with a [struct heap_mem]
    that has the offsets of the next and the previous block.  The headers are kept
    apart from the bytes of the blocks: [hdrs] has the header at each address where one
    was ever written, so a merged block leaves a stale header behind, as in memory, and
    a new header starts with whatever was there.  The model is of programs that write
    within their blocks: a write past the end of one cannot reach a header here. *)
From stdpp Require Import base tactics numbers list gmap.
From S2P Require Import Prelude Memory KString.
Local Open Scope Z_scope.

Record heap_mem := mk_heap_mem {
  hm_magic : Z;  (* rt_uint16_t *)
  hm_used : Z;   (* rt_uint16_t *)
  hm_next : Z;
  hm_prev : Z
}.
Definition set_magic (v : Z) (m : heap_mem) : heap_mem := mk_heap_mem v (hm_used m) (hm_next m) (hm_prev m).
Definition set_used (v : Z) (m : heap_mem) : heap_mem := mk_heap_mem (hm_magic m) v (hm_next m) (hm_prev m).
Definition set_next (v : Z) (m : heap_mem) : heap_mem := mk_heap_mem (hm_magic m) (hm_used m) v (hm_prev m).
Definition set_prev (v : Z) (m : heap_mem) : heap_mem := mk_heap_mem (hm_magic m) (hm_used m) (hm_next m) v.

Definition HEAP_MAGIC : Z := 0x1ea0.
Definition RT_ALIGN_SIZE : Z := 4.
Definition MIN_SIZE : Z := 12.
Definition MIN_SIZE_ALIGNED : Z := 12.
Definition SIZEOF_STRUCT_MEM : Z := 12.

(** The static variables of mem.c, the headers and the bytes of the blocks; pointers are
    addresses, [heap_sem] is the value of the semaphore. *)
Record hstate := mk_hstate {
  heap_ptr : Z;
  heap_end : Z;
  lfree : Z;
  heap_sem : Z;
  mem_size_aligned : Z;
  used_mem : Z;
  max_mem : Z;
  hdrs : gmap Z heap_mem;
  bytes : mem
}.
Definition set_lfree (v : Z) (s : hstate) : hstate :=
  mk_hstate (heap_ptr s) (heap_end s) v (heap_sem s) (mem_size_aligned s) (used_mem s) (max_mem s) (hdrs s) (bytes s).
Definition set_heap_sem (v : Z) (s : hstate) : hstate :=
  mk_hstate (heap_ptr s) (heap_end s) (lfree s) v (mem_size_aligned s) (used_mem s) (max_mem s) (hdrs s) (bytes s).
Definition set_used_mem (v : Z) (s : hstate) : hstate :=
  mk_hstate (heap_ptr s) (heap_end s) (lfree s) (heap_sem s) (mem_size_aligned s) v (max_mem s) (hdrs s) (bytes s).
Definition set_max_mem (v : Z) (s : hstate) : hstate :=
  mk_hstate (heap_ptr s) (heap_end s) (lfree s) (heap_sem s) (mem_size_aligned s) (used_mem s) v (hdrs s) (bytes s).
Definition set_hdrs (v : gmap Z heap_mem) (s : hstate) : hstate :=
  mk_hstate (heap_ptr s) (heap_end s) (lfree s) (heap_sem s) (mem_size_aligned s) (used_mem s) (max_mem s) v (bytes s).
Definition set_bytes (v : mem) (s : hstate) : hstate :=
  mk_hstate (heap_ptr s) (heap_end s) (lfree s) (heap_sem s) (mem_size_aligned s) (used_mem s) (max_mem s) (hdrs s) v.

Abbreviation H := (M hstate).

Section smallmem.
(** What memory happens to hold where a header is written for the first time *)
Context (junk : Z -> heap_mem).

Definition hdr (a : Z) : H heap_mem := s ← get; opt BadPointer (hdrs s !! a).
Definition upd_hdr (a : Z) (f : heap_mem -> heap_mem) : H unit :=
  m ← hdr a; modify (fun s => set_hdrs (<[a := f m]> (hdrs s)) s).
Definition new_hdr (a : Z) (f : heap_mem -> heap_mem) : H unit :=
  modify (fun s => set_hdrs (<[a := f (default (junk a) (hdrs s !! a))]> (hdrs s)) s).

(** [rt_sem_take(&heap_sem, RT_WAITING_FOREVER)] and [rt_sem_release(&heap_sem)]: the
    semaphore is free whenever no call is in progress, so a call never waits in a
    sequence of calls; a taken one is a fault here. *)
Definition heap_lock : H unit :=
  s ← get; RT_ASSERT (0 <? heap_sem s);; modify (set_heap_sem (heap_sem s - 1)).
Definition heap_unlock : H unit := modify (fun s => set_heap_sem (heap_sem s + 1) s).

Definition on_bytes {A} (m : M mem A) : H A :=
  fun s => match m (bytes s) with Ok a b => Ok a (set_bytes b s) | Fault f => Fault f end.

Definition plug_holes (mem : Z) : H unit :=
  s ← get;
  RT_ASSERT (heap_ptr s <=? mem);;
  RT_ASSERT (mem <? heap_end s);;
  m ← hdr mem;
  RT_ASSERT (hm_used m =? 0);;
  (* plug hole forward *)
  let nmem := heap_ptr s + hm_next m in
  hole ← (if mem =? nmem then mret false
          else n ← hdr nmem; mret ((hm_used n =? 0) && negb (nmem =? heap_end s)));
  when hole (
    s ← get;
    when (lfree s =? nmem) (modify (set_lfree mem));;
    n ← hdr nmem;
    upd_hdr mem (set_next (hm_next n));;
    n ← hdr nmem;
    upd_hdr (heap_ptr s + hm_next n) (set_prev (mem - heap_ptr s)));;
  (* plug hole backward *)
  m ← hdr mem;
  let pmem := heap_ptr s + hm_prev m in
  hole ← (if pmem =? mem then mret false
          else p ← hdr pmem; mret (hm_used p =? 0));
  when hole (
    s ← get;
    when (lfree s =? mem) (modify (set_lfree pmem));;
    m ← hdr mem;
    upd_hdr pmem (set_next (hm_next m));;
    m ← hdr mem;
    upd_hdr (heap_ptr s + hm_next m) (set_prev (pmem - heap_ptr s))).

(** [rt_sem_init(&heap_sem, "heap", 1, RT_IPC_FLAG_FIFO)] sets the value. *)
Definition rt_system_heap_init (begin_addr end_addr : Z) : H unit :=
  let begin_align := RT_ALIGN begin_addr RT_ALIGN_SIZE in
  let end_align := RT_ALIGN_DOWN end_addr RT_ALIGN_SIZE in
  if (2 * SIZEOF_STRUCT_MEM <? end_align) && (begin_align <=? end_align - 2 * SIZEOF_STRUCT_MEM) then
    let size := end_align - begin_align - 2 * SIZEOF_STRUCT_MEM in
    modify (fun s => mk_hstate begin_align (heap_end s) (lfree s) (heap_sem s) size
                       (used_mem s) (max_mem s) (hdrs s) (bytes s));;
    new_hdr begin_align (fun _ => mk_heap_mem HEAP_MAGIC 0 (size + SIZEOF_STRUCT_MEM) 0);;
    let e := begin_align + (size + SIZEOF_STRUCT_MEM) in
    modify (fun s => mk_hstate (heap_ptr s) e (lfree s) (heap_sem s) (mem_size_aligned s)
                       (used_mem s) (max_mem s) (hdrs s) (bytes s));;
    new_hdr e (fun _ => mk_heap_mem HEAP_MAGIC 1 (size + SIZEOF_STRUCT_MEM) (size + SIZEOF_STRUCT_MEM));;
    modify (set_heap_sem 1);;
    modify (set_lfree begin_align)
  else mret tt.

(** [used_mem += n; if (max_mem < used_mem) max_mem = used_mem] *)
Definition count_used (n : Z) : H unit :=
  modify (fun s => set_used_mem (u32 (used_mem s + n)) s);;
  s ← get; when (max_mem s <? used_mem s) (modify (set_max_mem (used_mem s))).

(** [while (lfree->used && lfree != heap_end) lfree = &heap_ptr[lfree->next]]; every
    round reaches another header. *)
Definition next_lfree : H unit :=
  s ← get;
  while (S (size (hdrs s)))
    (fun _ => s ← get; m ← hdr (lfree s); mret (negb (hm_used m =? 0) && negb (lfree s =? heap_end s)))
    (fun _ => s ← get; m ← hdr (lfree s); modify (set_lfree (heap_ptr s + hm_next m))) tt.

(** The body of the search loop when block [ptr] fits *)
Definition malloc_take (size ptr : Z) : H Z :=
  s ← get;
  let mem := heap_ptr s + ptr in
  m ← hdr mem;
  (if u32 (size + SIZEOF_STRUCT_MEM + MIN_SIZE_ALIGNED) <=? u32 (hm_next m - (ptr + SIZEOF_STRUCT_MEM)) then
     let ptr2 := ptr + SIZEOF_STRUCT_MEM + size in
     let mem2 := heap_ptr s + ptr2 in
     new_hdr mem2 (set_used 0);;
     m ← hdr mem; upd_hdr mem2 (set_next (hm_next m));;
     upd_hdr mem2 (set_prev ptr);;
     upd_hdr mem (set_next ptr2);;
     upd_hdr mem (set_used 1);;
     m2 ← hdr mem2;
     when (negb (hm_next m2 =? mem_size_aligned s + SIZEOF_STRUCT_MEM))
       (upd_hdr (heap_ptr s + hm_next m2) (set_prev ptr2));;
     count_used (size + SIZEOF_STRUCT_MEM)
   else
     upd_hdr mem (set_used 1);;
     m ← hdr mem;
     count_used (u32 (hm_next m - ptr)));;
  upd_hdr mem (set_magic HEAP_MAGIC);;
  s ← get;
  when (mem =? lfree s) (
    next_lfree;;
    s ← get; m ← hdr (lfree s);
    RT_ASSERT ((lfree s =? heap_end s) || (hm_used m =? 0)));;
  heap_unlock;;
  RT_ASSERT (u32 (mem + SIZEOF_STRUCT_MEM + size) <=? heap_end s);;
  RT_ASSERT ((mem + SIZEOF_STRUCT_MEM) mod RT_ALIGN_SIZE =? 0);;
  RT_ASSERT (Z.land mem (RT_ALIGN_SIZE - 1) =? 0);;
  mret (mem + SIZEOF_STRUCT_MEM).

(** The search from block [ptr] on *)
Fixpoint malloc_loop (fuel : nat) (size ptr : Z) : H Z :=
  match fuel with
  | O => throw OutOfFuel
  | S fuel' =>
      s ← get;
      if ptr <? u32 (mem_size_aligned s - size) then
        m ← hdr (heap_ptr s + ptr);
        if (hm_used m =? 0) && (size <=? u32 (hm_next m - (ptr + SIZEOF_STRUCT_MEM)))
        then malloc_take size ptr
        else malloc_loop fuel' size (hm_next m)
      else heap_unlock;; mret RT_NULL
  end.

Definition rt_malloc (size : Z) : H Z :=
  if size =? 0 then mret RT_NULL
  else
    let size := RT_ALIGN size RT_ALIGN_SIZE in
    s ← get;
    if mem_size_aligned s <? size then mret RT_NULL
    else
      let size := if size <? MIN_SIZE_ALIGNED then MIN_SIZE_ALIGNED else size in
      heap_lock;;
      s ← get;
      malloc_loop (S (base.size (hdrs s))) size (lfree s - heap_ptr s).

Definition rt_free (rmem : Z) : H unit :=
  if rmem =? RT_NULL then mret tt
  else
    s ← get;
    RT_ASSERT (Z.land rmem (RT_ALIGN_SIZE - 1) =? 0);;
    RT_ASSERT ((heap_ptr s <=? rmem) && (rmem <? heap_end s));;
    if (rmem <? heap_ptr s) || (heap_end s <=? rmem) then mret tt
    else
      let mem := rmem - SIZEOF_STRUCT_MEM in
      heap_lock;;
      m ← hdr mem;
      RT_ASSERT (negb (hm_used m =? 0));;
      RT_ASSERT (hm_magic m =? HEAP_MAGIC);;
      upd_hdr mem (set_used 0);;
      upd_hdr mem (set_magic 0);;
      s ← get;
      when (mem <? lfree s) (modify (set_lfree mem));;
      m ← hdr mem;
      modify (fun s => set_used_mem (u32 (used_mem s - u32 (hm_next m - (mem - heap_ptr s)))) s);;
      plug_holes mem;;
      heap_unlock.

Definition rt_realloc (rmem newsize : Z) : H Z :=
  let newsize := RT_ALIGN newsize RT_ALIGN_SIZE in
  s ← get;
  if mem_size_aligned s <? newsize then mret RT_NULL
  else if rmem =? RT_NULL then rt_malloc newsize
  else
    heap_lock;;
    if (rmem <? heap_ptr s) || (heap_end s <=? rmem) then heap_unlock;; mret rmem
    else
      let mem := rmem - SIZEOF_STRUCT_MEM in
      let ptr := mem - heap_ptr s in
      m ← hdr mem;
      let size := u32 (hm_next m - ptr - SIZEOF_STRUCT_MEM) in
      if size =? newsize then heap_unlock;; mret rmem
      else if u32 (newsize + SIZEOF_STRUCT_MEM + MIN_SIZE) <? size then
        modify (fun s => set_used_mem (u32 (used_mem s - (size - newsize))) s);;
        let ptr2 := ptr + SIZEOF_STRUCT_MEM + newsize in
        let mem2 := heap_ptr s + ptr2 in
        new_hdr mem2 (set_magic HEAP_MAGIC);;
        upd_hdr mem2 (set_used 0);;
        m ← hdr mem; upd_hdr mem2 (set_next (hm_next m));;
        upd_hdr mem2 (set_prev ptr);;
        upd_hdr mem (set_next ptr2);;
        m2 ← hdr mem2;
        when (negb (hm_next m2 =? mem_size_aligned s + SIZEOF_STRUCT_MEM))
          (upd_hdr (heap_ptr s + hm_next m2) (set_prev ptr2));;
        plug_holes mem2;;
        heap_unlock;;
        mret rmem
      else
        heap_unlock;;
        nmem ← rt_malloc newsize;
        when (negb (nmem =? RT_NULL))
          (on_bytes (rt_memcpy nmem rmem (if size <? newsize then size else newsize));;
           rt_free rmem);;
        mret nmem.

Definition rt_calloc (count size : Z) : H Z :=
  p ← rt_malloc (u32 (count * size));
  when (negb (p =? RT_NULL)) (on_bytes (rt_memset p 0 (u32 (count * size)));; mret tt);;
  mret p.

Definition rt_memory_info : H (Z * Z * Z) := gets (fun s => (mem_size_aligned s, used_mem s, max_mem s)).
End smallmem.
