(* ===== verification/HeapLayout.v ===== *)
(** * The heap as a sequence of blocks

    The abstract view of the heap of mem.c: a list of blocks with their sizes, the chain
    of headers that represents it in memory, the merging of free blocks ([plug_holes])
    and the block a request is served from. *)
From stdpp Require Import base tactics numbers list gmap.
From S2P Require Import Prelude Memory KString SmallMem.
Local Open Scope Z_scope.

(** ** The abstract heap
    A heap is the sequence of its blocks, each with its size (header included) and
    whether it is in use; a block starts where the one before it ends. *)

Abbreviation layout := (list (Z * bool)).

Fixpoint total (l : layout) : Z := match l with [] => 0 | (n, _) :: l' => n + total l' end.
Fixpoint used_total (l : layout) : Z :=
  match l with [] => 0 | (n, u) :: l' => (if u : bool then n else 0) + used_total l' end.

(** A free block, a block in use, starts at offset [x]. *)
Fixpoint free_at (l : layout) (x : Z) : Prop :=
  match l with [] => False | (n, u) :: l' => u = false /\ x = 0 \/ free_at l' (x - n) end.
Fixpoint used_at (l : layout) (x n : Z) : Prop :=
  match l with [] => False | (k, u) :: l' => u = true /\ x = 0 /\ n = k \/ used_at l' (x - k) n end.

(** Every block has room for its header and keeps the alignment. *)
Definition sizes_ok (l : layout) : Prop := Forall (fun b : Z * bool => 12 <= b.1 /\ b.1 mod 4 = 0) l.

(** No two free blocks are neighbours. *)
Definition head_used (l : layout) : Prop := match l with (_, false) :: _ => False | _ => True end.
Fixpoint last_used (l : layout) : Prop :=
  match l with [] => True | [(_, u)] => u = true | _ :: l' => last_used l' end.
Fixpoint coalesced (l : layout) : Prop :=
  match l with [] => True | (_, u) :: l' => (u = false -> head_used l') /\ coalesced l' end.

(** The last block has data, so data never starts at the last entry. *)
Fixpoint last_big (l : layout) : Prop :=
  match l with [] => True | [(n, _)] => 12 < n | _ :: l' => last_big l' end.

Lemma last_big_app l1 b l2 : last_big (l1 ++ b :: l2) <-> last_big (b :: l2).
Proof. induction l1 as [|[n u] l1 IH]; [done|]. rewrite <- IH. by destruct l1. Qed.

Lemma last_big_grow n u m v l : n <= m -> last_big ((n, u) :: l) -> last_big ((m, v) :: l).
Proof. destruct l; simpl; [lia|done]. Qed.

Lemma total_app l1 l2 : total (l1 ++ l2) = total l1 + total l2.
Proof. induction l1 as [|[n u] l1 IH]; simpl; lia. Qed.

Lemma used_total_app l1 l2 : used_total (l1 ++ l2) = used_total l1 + used_total l2.
Proof. induction l1 as [|[n u] l1 IH]; simpl; lia. Qed.

Lemma free_at_app l1 l2 x : free_at (l1 ++ l2) x <-> free_at l1 x \/ free_at l2 (x - total l1).
Proof.
  revert x. induction l1 as [|[n u] l1 IH]; intros x; simpl; [rewrite Z.sub_0_r; tauto|].
  rewrite IH. replace (x - n - total l1) with (x - (n + total l1)) by lia. tauto.
Qed.

Lemma used_at_app l1 l2 x n : used_at (l1 ++ l2) x n <-> used_at l1 x n \/ used_at l2 (x - total l1) n.
Proof.
  revert x. induction l1 as [|[k u] l1 IH]; intros x; simpl; [rewrite Z.sub_0_r; tauto|].
  rewrite IH. replace (x - k - total l1) with (x - (k + total l1)) by lia. tauto.
Qed.

Lemma last_used_snoc l n u : last_used (l ++ [(n, u)]) <-> u = true.
Proof. induction l as [|[k v] [|y l] IH]; simpl in *; done. Qed.

Lemma head_used_app l1 l2 : l1 <> [] -> head_used (l1 ++ l2) <-> head_used l1.
Proof. by destruct l1 as [|[n []] l1]. Qed.

Lemma coalesced_app l1 l2 :
  coalesced (l1 ++ l2) <-> coalesced l1 /\ coalesced l2 /\ (last_used l1 \/ head_used l2).
Proof.
  induction l1 as [|[n u] l1 IH]; simpl; [tauto|]. rewrite IH. destruct l1 as [|[k v] l1]; simpl.
  - destruct u; simpl; intuition congruence.
  - destruct u, v; simpl; intuition congruence.
Qed.

Lemma sizes_ok_total l : sizes_ok l -> 0 <= total l.
Proof. induction 1 as [|[n u] l [H1 _] _ IH]; simpl in *; lia. Qed.

Lemma sizes_ok_mod l : sizes_ok l -> total l mod 4 = 0.
Proof.
  induction 1 as [|[n u] l [_ H2] _ IH]; simpl in *; [done|].
  rewrite Z.add_mod, H2, IH by lia. done.
Qed.

Lemma used_total_bound l : sizes_ok l -> 0 <= used_total l <= total l.
Proof. induction 1 as [|[n u] l [H1 _] _ IH]; simpl in *; [lia|]. destruct u; lia. Qed.

Lemma used_total_free l1 n l2 :
  sizes_ok (l1 ++ (n, false) :: l2) -> used_total (l1 ++ (n, false) :: l2) + n <= total (l1 ++ (n, false) :: l2).
Proof.
  intros [Hs1 [_ Hs2]%Forall_cons]%Forall_app. rewrite used_total_app, total_app. simpl.
  pose proof (used_total_bound _ Hs1). pose proof (used_total_bound _ Hs2). lia.
Qed.

Lemma free_at_range l x : sizes_ok l -> free_at l x -> 0 <= x < total l.
Proof.
  intros Hs. revert x. induction Hs as [|[n u] l [H1 _] Hs IH]; intros x; simpl in *; [done|].
  pose proof (sizes_ok_total l Hs). intros [[_ ->]|Hf]; [lia|]. apply IH in Hf. lia.
Qed.

Lemma used_at_range l x n : sizes_ok l -> used_at l x n -> 0 <= x /\ 12 <= n /\ x + n <= total l.
Proof.
  intros Hs. revert x. induction Hs as [|[k u] l [H1 _] Hs IH]; intros x; simpl in *; [done|].
  pose proof (sizes_ok_total l Hs). intros [(_ & -> & ->)|Hf]; [lia|]. apply IH in Hf. lia.
Qed.

Lemma free_at_split l x :
  free_at l x -> exists l1 n l2, l = l1 ++ (n, false) :: l2 /\ x = total l1.
Proof.
  revert x. induction l as [|[n u] l IH]; intros x; simpl; [done|].
  intros [[-> ->]|Hf]; [by exists [], n, l|]. destruct (IH _ Hf) as (l1 & k & l2 & -> & E).
  exists ((n, u) :: l1), k, l2. simpl. split; [done|lia].
Qed.

Lemma used_at_split l x n :
  used_at l x n -> exists l1 l2, l = l1 ++ (n, true) :: l2 /\ x = total l1.
Proof.
  revert x. induction l as [|[k u] l IH]; intros x; simpl; [done|].
  intros [(-> & -> & ->)|Hf]; [by exists [], l|]. destruct (IH _ Hf) as (l1 & l2 & -> & E).
  exists ((k, u) :: l1), l2. simpl. split; [done|lia].
Qed.

(** Two cuts of a layout are in the order of their offsets. *)
Lemma app_split_total l1 l2 l3 l4 :
  sizes_ok (l1 ++ l2) -> l1 ++ l2 = l3 ++ l4 -> total l1 <= total l3 -> exists l, l3 = l1 ++ l /\ l2 = l ++ l4.
Proof.
  intros Hs Heq Hle. apply app_eq_app in Heq as (l & [[-> ->]|[-> ->]]); [|eauto].
  apply Forall_app in Hs as [Hs _]. rewrite total_app in Hle.
  apply Forall_app in Hs as [_ Hs]. destruct l as [|[n u] l]; [by exists []; rewrite !app_nil_r|].
  apply Forall_cons in Hs as [[? _] Hs]. apply sizes_ok_total in Hs. simpl in *. lia.
Qed.

(** Two blocks in use do not overlap. *)
Lemma used_at_disjoint l x n y m :
  sizes_ok l -> used_at l x n -> used_at l y m -> x = y /\ n = m \/ x + n <= y \/ y + m <= x.
Proof.
  intros Hs. revert x y. induction Hs as [|[k u] l [H1 _] Hs IH]; intros x y; simpl in *; [done|].
  intros [(-> & -> & ->)|Hx] [(E & -> & ->)|Hy].
  - by left.
  - apply (used_at_range l) in Hy; [|done]. lia.
  - apply (used_at_range l) in Hx; [|done]. lia.
  - destruct (IH _ _ Hx Hy) as [[? ?]|[?|?]]; [left; lia|lia|lia].
Qed.

(** ** The headers in memory *)

Record block_hdr (h : gmap Z heap_mem) (b p o n : Z) (u : bool) (m : heap_mem) : Prop := {
  bh_at : h !! (b + o) = Some m;
  bh_used : hm_used m = (if u then 1 else 0);
  bh_next : hm_next m = o + n;
  bh_prev : hm_prev m = p;
  bh_magic : u = true -> hm_magic m = HEAP_MAGIC
}.

(** From offset [o], whose predecessor is [p], the headers describe the blocks [l] and
    end at offset [e]. *)
Fixpoint chain (h : gmap Z heap_mem) (b p o : Z) (l : layout) (e : Z) : Prop :=
  match l with
  | [] => o = e
  | (n, u) :: l' => (exists m, block_hdr h b p o n u m) /\ chain h b o (o + n) l' e
  end.

(** The last entry, always used, which is its own successor *)
Definition end_ok (h : gmap Z heap_mem) (b e : Z) : Prop :=
  exists m, h !! (b + e) = Some m /\ hm_used m = 1 /\ hm_next m = e.

(** The offset of the block before the end of [l] *)
Fixpoint last_off (p o : Z) (l : layout) : Z :=
  match l with [] => p | (n, _) :: l' => last_off o (o + n) l' end.

Lemma chain_total h b p o l e : chain h b p o l e -> e = o + total l.
Proof.
  revert p o. induction l as [|[n u] l IH]; intros p o; simpl; [lia|].
  intros [_ Hc]. apply IH in Hc. lia.
Qed.

Lemma chain_app h b p o l1 l2 e :
  chain h b p o (l1 ++ l2) e <->
  chain h b p o l1 (o + total l1) /\ chain h b (last_off p o l1) (o + total l1) l2 e.
Proof.
  revert p o. induction l1 as [|[n u] l1 IH]; intros p o; simpl.
  - rewrite Z.add_0_r. tauto.
  - rewrite IH. replace (o + n + total l1) with (o + (n + total l1)) by lia. tauto.
Qed.

Lemma last_off_snoc p o l n u : last_off p o (l ++ [(n, u)]) = o + total l.
Proof.
  revert p o. induction l as [|[k v] l IH]; intros p o; simpl; [lia|]. rewrite IH. lia.
Qed.

(** Headers outside the segment do not matter. *)
Lemma chain_ext h h' b p o l e :
  sizes_ok l -> (forall a, b + o <= a < b + e -> h' !! a = h !! a) -> chain h b p o l e -> chain h' b p o l e.
Proof.
  intros Hs. revert p o. induction Hs as [|[n u] l [H1 _] Hs IH]; intros p o Hext; simpl in *; [done|].
  intros [[m [C1 C2 C3 C4 C5]] Hc]. pose proof (chain_total _ _ _ _ _ _ Hc). pose proof (sizes_ok_total l Hs). split.
  - exists m. split; [|done..]. rewrite Hext; [done|lia].
  - apply IH; [|done]. intros a Ha. apply Hext. lia.
Qed.

Lemma chain_insert h b p o l e a m :
  sizes_ok l -> a < b + o \/ b + e <= a -> chain h b p o l e -> chain (<[a := m]> h) b p o l e.
Proof. intros Hs Ha. apply chain_ext; [done|]. intros a' Ha'. apply lookup_insert_ne. lia. Qed.

Lemma end_ok_insert h b e a m : a <> b + e -> end_ok h b e -> end_ok (<[a := m]> h) b e.
Proof. intros Ha (m' & E & Hm). exists m'. by rewrite lookup_insert_ne. Qed.

(** The header at the end of a block that is changed: the first one of [l], or the end *)
Lemma chain_head h b p o l e :
  chain h b p o l e -> end_ok h b e -> exists m, h !! (b + o) = Some m.
Proof.
  destruct l as [|[n u] l]; simpl; [intros -> (m & E & _); eauto|]. intros [[m C] _] _. exists m. apply C.
Qed.

Lemma chain_reprev h b p q o l e m :
  sizes_ok l -> chain h b p o l e -> end_ok h b e -> h !! (b + o) = Some m ->
  chain (<[b + o := set_prev q m]> h) b q o l e /\ end_ok (<[b + o := set_prev q m]> h) b e.
Proof.
  intros Hs Hc He E. destruct l as [|[n u] l]; simpl in *.
  - subst o. split; [done|]. destruct He as (m' & E' & Hm). rewrite E in E'. injection E' as <-.
    exists (set_prev q m). by rewrite lookup_insert_eq.
  - inversion Hs as [|? ? [H1 _] Hs']; subst. simpl in *. destruct Hc as [[m' [C1 C2 C3 C4 C5]] Hc].
    rewrite E in C1. injection C1 as <-.
    pose proof (chain_total _ _ _ _ _ _ Hc). pose proof (sizes_ok_total l Hs'). split.
    + split; [exists (set_prev q m); split; try done; by rewrite lookup_insert_eq|]. apply chain_insert; [done|lia|done].
    + apply end_ok_insert; [lia|done].
Qed.

(** ** Merging free blocks *)

(** A block of size [n] becomes free in front of [l2]. *)
Definition join_fwd (n : Z) (l2 : layout) : Z * layout :=
  match l2 with (m, false) :: l2' => (n + m, l2') | _ => (n, l2) end.
(** A free block of size [n] behind [l1] *)
Fixpoint join_back (l1 : layout) (n : Z) (l2 : layout) : layout :=
  match l1 with
  | [] => (n, false) :: l2
  | [(k, false)] => (k + n, false) :: l2
  | b :: l1' => b :: join_back l1' n l2
  end.
(** The layout after the block between [l1] and [l2] has become free *)
Definition plugged (l1 : layout) (n : Z) (l2 : layout) : layout :=
  let '(n', l2') := join_fwd n l2 in join_back l1 n' l2'.

(** [lfree] follows a block that is merged into another one. *)
Definition lf_fwd (f x n : Z) (l2 : layout) : Z :=
  match l2 with (_, false) :: _ => if f =? x + n then x else f | _ => f end.
Definition lf_back (f x : Z) (l1 : layout) : Z :=
  match last l1 with Some (k, false) => if f =? x then x - k else f | _ => f end.

Lemma join_back_free l k n l2 : join_back (l ++ [(k, false)]) n l2 = l ++ (k + n, false) :: l2.
Proof. induction l as [|[j v] l IH]; simpl; [done|]. rewrite IH. destruct v, l; done. Qed.

Lemma join_back_used l k n l2 : join_back (l ++ [(k, true)]) n l2 = l ++ (k, true) :: (n, false) :: l2.
Proof. induction l as [|[j v] l IH]; simpl; [done|]. rewrite IH. destruct v, l; done. Qed.

Lemma join_back_cases l1 n l2 :
  (last_used l1 /\ join_back l1 n l2 = l1 ++ (n, false) :: l2 /\ forall f x, lf_back f x l1 = f) \/
  (exists l k, l1 = l ++ [(k, false)] /\ join_back l1 n l2 = l ++ (k + n, false) :: l2 /\
     forall f x, lf_back f x l1 = if f =? x then x - k else f).
Proof.
  destruct l1 as [|[k u] l _] using rev_ind; [by left|]. unfold lf_back. rewrite last_snoc. destruct u.
  - left. rewrite last_used_snoc, join_back_used, <- app_assoc. done.
  - right. exists l, k. by rewrite join_back_free.
Qed.

Lemma plugged_total l1 n l2 : total (plugged l1 n l2) = total l1 + n + total l2.
Proof.
  unfold plugged. assert (forall n' l2', total (join_back l1 n' l2') = total l1 + n' + total l2') as Hb.
  { intros n' l2'. destruct (join_back_cases l1 n' l2') as [(_ & -> & _)|(l & k & -> & -> & _)];
      rewrite ?total_app; simpl; lia. }
  destruct l2 as [|[m []] l2]; simpl; rewrite Hb; simpl; lia.
Qed.

Lemma sizes_ok_join l1 k n l2 :
  sizes_ok (l1 ++ (k, false) :: (n, false) :: l2) -> sizes_ok (l1 ++ (k + n, false) :: l2).
Proof.
  unfold sizes_ok. rewrite !Forall_app, !Forall_cons. simpl. intros (H1 & [H2 H3] & [H4 H5] & H6).
  split_and!; [done|lia| |done]. by rewrite Z.add_mod, H3, H5 by lia.
Qed.

Lemma join_back_sizes l1 n l2 : sizes_ok (l1 ++ (n, false) :: l2) -> sizes_ok (join_back l1 n l2).
Proof.
  intros Hs. destruct (join_back_cases l1 n l2) as [(_ & -> & _)|(l & k & -> & -> & _)]; [done|].
  rewrite <- app_assoc in Hs. by apply sizes_ok_join.
Qed.

Lemma join_fwd_sizes l1 n l2 :
  sizes_ok (l1 ++ (n, false) :: l2) -> sizes_ok (l1 ++ ((join_fwd n l2).1, false) :: (join_fwd n l2).2).
Proof. destruct l2 as [|[m []] l2]; simpl; [done|done|]. apply sizes_ok_join. Qed.

Lemma plugged_sizes l1 n l2 : sizes_ok (l1 ++ (n, false) :: l2) -> sizes_ok (plugged l1 n l2).
Proof.
  intros Hs%join_fwd_sizes. unfold plugged. destruct (join_fwd n l2). by apply join_back_sizes.
Qed.

Lemma plugged_used l1 n l2 : used_total (plugged l1 n l2) = used_total l1 + used_total l2.
Proof.
  unfold plugged. assert (forall n' l2', used_total (join_back l1 n' l2') = used_total l1 + used_total l2') as Hb.
  { intros n' l2'. destruct (join_back_cases l1 n' l2') as [(_ & -> & _)|(l & k & -> & -> & _)];
      rewrite ?used_total_app; simpl; lia. }
  destruct l2 as [|[m []] l2]; simpl; rewrite Hb; simpl; lia.
Qed.

(** Merging with the two neighbours is enough to keep free blocks apart. *)
Lemma plugged_coalesced l1 n l2 : coalesced l1 -> coalesced l2 -> coalesced (plugged l1 n l2).
Proof.
  intros H1 H2. assert (coalesced (join_fwd n l2).2 /\ head_used (join_fwd n l2).2) as [H3 H4].
  { destruct l2 as [|[m []] l2]; simpl in *; [done|done|]. destruct H2 as [Hh H2]. auto. }
  unfold plugged. destruct (join_fwd n l2) as [n' l2']. simpl in *.
  destruct (join_back_cases l1 n' l2') as [(Hl & -> & _)|(l & k & -> & -> & _)].
  - rewrite coalesced_app. simpl. auto.
  - rewrite coalesced_app in H1. rewrite coalesced_app. destruct H1 as (H1 & _ & [Hl|[]]). simpl. auto.
Qed.

Lemma plugged_last_big l1 n l2 :
  sizes_ok (l1 ++ (n, false) :: l2) -> last_big (l1 ++ (n, false) :: l2) -> last_big (plugged l1 n l2).
Proof.
  intros [Hs1 [[Hn _] Hs2]%Forall_cons]%Forall_app Hl. rewrite last_big_app in Hl. simpl in Hn.
  assert (last_big (((join_fwd n l2).1, false) :: (join_fwd n l2).2)) as Hf.
  { destruct l2 as [|[m []] l2]; [done|done|]. simpl in *. apply Forall_cons in Hs2 as [[? _] _]. simpl in *.
    destruct l2; [lia|done]. }
  unfold plugged. destruct (join_fwd n l2) as [n' l2']. simpl in Hf.
  destruct (join_back_cases l1 n' l2') as [(_ & -> & _)|(l & k & -> & -> & _)]; rewrite last_big_app; [done|].
  apply Forall_app in Hs1 as [_ [[Hk _] _]%Forall_cons]. simpl in Hk. apply (last_big_grow n' false); [lia|done].
Qed.

(** Blocks in use stay where they are. *)
Lemma plugged_used_at l1 n l2 x k :
  used_at (plugged l1 n l2) x k <-> used_at (l1 ++ (n, false) :: l2) x k.
Proof.
  assert (forall n' l2', used_at (join_back l1 n' l2') x k <-> used_at (l1 ++ (n', false) :: l2') x k) as Hb.
  { intros n' l2'. destruct (join_back_cases l1 n' l2') as [(_ & -> & _)|(l & j & -> & -> & _)]; [done|].
    rewrite <- app_assoc, !used_at_app. simpl.
    rewrite Z.add_0_r. replace (x - total l - (j + n')) with (x - total l - j - n') by lia. naive_solver. }
  unfold plugged. destruct l2 as [|[m []] l2]; simpl; rewrite Hb; try done.
  rewrite !used_at_app. simpl. replace (x - total l1 - (n + m)) with (x - total l1 - n - m) by lia. naive_solver.
Qed.

(** [lfree] stays on a free block. *)
Definition lfree_ok (b e f : Z) (l : layout) : Prop := f = b + e \/ free_at l (f - b).

Lemma lf_fwd_ok b e f l1 n l2 :
  sizes_ok (l1 ++ (n, false) :: l2) -> lfree_ok b e f (l1 ++ (n, false) :: l2) ->
  lfree_ok b e (lf_fwd f (b + total l1) n l2) (l1 ++ ((join_fwd n l2).1, false) :: (join_fwd n l2).2).
Proof.
  intros Hs Hf. destruct l2 as [|[m []] l2]; simpl; [done|done|].
  destruct (Z.eqb_spec f (b + total l1 + n)) as [->|Hne].
  - right. rewrite free_at_app. right. simpl. left. split; [done|lia].
  - destruct Hf as [->|Hf]; [by left|]. right. revert Hf. rewrite !free_at_app. simpl.
    rewrite !Z.sub_add_distr. intros [Hf|[Hf|[[_ Hf]|Hf]]]; [by left|by right; left| |by right; right].
    exfalso. apply Hne. lia.
Qed.

Lemma lf_back_ok b e f l1 n l2 :
  lfree_ok b e f (l1 ++ (n, false) :: l2) -> lfree_ok b e (lf_back f (b + total l1) l1) (join_back l1 n l2).
Proof.
  intros Hf. destruct (join_back_cases l1 n l2) as [(_ & -> & ->)|(l & k & -> & -> & ->)]; [done|].
  rewrite total_app. simpl. destruct (Z.eqb_spec f (b + (total l + (k + 0)))) as [->|Hne].
  - right. rewrite free_at_app. right. simpl. left. split; [done|lia].
  - destruct Hf as [->|Hf]; [by left|]. right. revert Hf. rewrite <- app_assoc, !free_at_app. simpl.
    rewrite Z.add_0_r. replace (f - b - total l - (k + n)) with (f - b - total l - k - n) by lia.
    intros [Hf|[[Hf|[]]|[[_ Hf]|Hf]]]; [by left|by right; left| |by right; right].
    exfalso. apply Hne. lia.
Qed.

Definition lf_plugged (f x : Z) (l1 : layout) (n : Z) (l2 : layout) : Z := lf_back (lf_fwd f x n l2) x l1.

Lemma lf_plugged_ok b e f l1 n l2 :
  sizes_ok (l1 ++ (n, false) :: l2) -> lfree_ok b e f (l1 ++ (n, false) :: l2) ->
  lfree_ok b e (lf_plugged f (b + total l1) l1 n l2) (plugged l1 n l2).
Proof.
  intros Hs Hf. apply lf_fwd_ok in Hf; [|done]. unfold lf_plugged, plugged.
  destruct (join_fwd n l2). by apply lf_back_ok.
Qed.

Lemma wp_hdr a m (Q : heap_mem -> hstate -> Prop) s : hdrs s !! a = Some m -> Q m s -> wp (hdr a) Q s.
Proof. intros E HQ. unfold hdr. wp_step. wp_step. eapply wp_opt; [exact E|done]. Qed.

Lemma wp_upd_hdr a f m (Q : unit -> hstate -> Prop) s :
  hdrs s !! a = Some m -> Q tt (set_hdrs (<[a := f m]> (hdrs s)) s) -> wp (upd_hdr a f) Q s.
Proof. intros E HQ. unfold upd_hdr. wp_step. eapply wp_hdr; [exact E|]. by wp_step. Qed.

(** [if (lfree == x) lfree = y] *)
Lemma wp_when_lfree {A} (c : bool) y s (k : H A) (Q : A -> hstate -> Prop) :
  wp k Q (set_lfree (if c then y else lfree s) s) -> wp (when c (modify (set_lfree y));; k) Q s.
Proof.
  intros Hk. apply wp_bind. destruct c; simpl; [by apply wp_modify|]. apply wp_ret. by destruct s.
Qed.

Lemma set_same s : set_lfree (lfree s) (set_hdrs (hdrs s) s) = s.
Proof. by destruct s. Qed.

Section layout_updates.
Context (h : gmap Z heap_mem) (b e : Z).

Lemma chain_split l1 n u l2 :
  chain h b 0 0 (l1 ++ (n, u) :: l2) e ->
  exists m, chain h b 0 0 l1 (total l1) /\ block_hdr h b (last_off 0 0 l1) (total l1) n u m /\
    chain h b (total l1) (total l1 + n) l2 e.
Proof. rewrite chain_app. simpl. intros (Hc1 & [m Hm] & Hc2). by exists m. Qed.

Lemma chain_glue l1 n u l2 m :
  chain h b 0 0 l1 (total l1) -> block_hdr h b (last_off 0 0 l1) (total l1) n u m ->
  chain h b (total l1) (total l1 + n) l2 e -> chain h b 0 0 (l1 ++ (n, u) :: l2) e.
Proof. intros Hc1 Hm Hc2. rewrite chain_app. simpl. split_and!; eauto. Qed.

Context (l1 : layout) (n k : Z) (v : bool) (l2 : layout).
Context (Hs : sizes_ok (l1 ++ (n, false) :: (k, v) :: l2))
        (Hc : chain h b 0 0 (l1 ++ (n, false) :: (k, v) :: l2) e) (He : end_ok h b e).

(** The block behind a free one is merged into it: its successor's header is [m3]. *)
Lemma chain_join m1 m3 :
  h !! (b + total l1) = Some m1 -> h !! (b + (total l1 + n + k)) = Some m3 ->
  let h' := <[b + (total l1 + n + k) := set_prev (total l1) m3]>
    (<[b + total l1 := set_next (total l1 + n + k) m1]> h) in
  chain h' b 0 0 (l1 ++ (n + k, false) :: l2) e /\ end_ok h' b e.
Proof using Hs Hc He.
  intros E1 E3 h'. destruct (chain_split _ _ _ _ Hc) as (m & Hc1 & [C1 C2 C3 C4 C5] & [_ Hc2]).
  rewrite E1 in C1. injection C1 as <-. apply Forall_app in Hs as [Hs1 Hs'].
  apply Forall_cons in Hs' as [[Hn _] [[Hk _] Hs2]%Forall_cons]. simpl in *.
  pose proof (chain_total _ _ _ _ _ _ Hc2) as Htot. pose proof (sizes_ok_total l2 Hs2).
  assert (chain (<[b + total l1 := set_next (total l1 + n + k) m1]> h) b (total l1 + n) (total l1 + n + k) l2 e) as Hc2'
    by (apply chain_insert; [done|lia|done]).
  assert (end_ok (<[b + total l1 := set_next (total l1 + n + k) m1]> h) b e) as He' by (apply end_ok_insert; [lia|done]).
  destruct (chain_reprev _ b (total l1 + n) (total l1) _ l2 e m3 Hs2 Hc2' He') as [Hc3 He3];
    [by rewrite lookup_insert_ne by lia|].
  split; [|exact He3]. eapply chain_app. simpl. split_and!.
  - apply chain_insert; [done|lia|]. apply chain_insert; [done|lia|]. exact Hc1.
  - exists (set_next (total l1 + n + k) m1). split; [|done|simpl; lia|done|done].
    unfold h'. rewrite lookup_insert_ne by lia. apply lookup_insert_eq.
  - by rewrite Z.add_assoc.
Qed.
End layout_updates.

(** The second half of [plug_holes] *)
Lemma plug_back b e s l1 n l2 (Q : unit -> hstate -> Prop) :
  heap_ptr s = b -> sizes_ok (l1 ++ (n, false) :: l2) -> chain (hdrs s) b 0 0 (l1 ++ (n, false) :: l2) e -> end_ok (hdrs s) b e ->
  (forall h', chain h' b 0 0 (join_back l1 n l2) e -> end_ok h' b e ->
     Q tt (set_lfree (lf_back (lfree s) (b + total l1) l1) (set_hdrs h' s))) ->
  wp (m ← hdr (b + total l1);
      hole ← (if b + hm_prev m =? b + total l1 then mret false
              else p ← hdr (b + hm_prev m); mret (hm_used p =? 0));
      when hole (
        s ← get;
        when (lfree s =? b + total l1) (modify (set_lfree (b + hm_prev m)));;
        m' ← hdr (b + total l1);
        upd_hdr (b + hm_prev m) (set_next (hm_next m'));;
        m' ← hdr (b + total l1);
        upd_hdr (heap_ptr s + hm_next m') (set_prev (b + hm_prev m - heap_ptr s)))) Q s.
Proof.
  intros Hb Hs Hc He HQ. destruct (chain_split _ _ _ _ _ _ _ Hc) as (m & Hc1 & Hm & Hc2). wp_step.
  eapply wp_hdr; [apply Hm|]. rewrite (bh_prev _ _ _ _ _ _ _ Hm).
  destruct l1 as [|[k u] l _] using rev_ind; simpl.
  { rewrite Z.eqb_refl. repeat wp_step. specialize (HQ (hdrs s)). unfold lf_back in HQ. simpl in HQ. rewrite set_same in HQ. by apply HQ. }
  rewrite <- app_assoc in Hs, Hc. simpl in Hs, Hc.
  assert (12 <= k /\ 12 <= n) as [Hk Hn]
    by (apply Forall_app in Hs as [_ [[? _] [[? _] _]%Forall_cons]%Forall_cons]; done).
  destruct (chain_split _ _ _ _ _ _ _ Hc) as (p & Hcl & Hp & _).
  rewrite last_off_snoc, total_app. simpl. rewrite !Z.add_0_r, !Z.add_0_l. replace (b + total l =? b + (total l + k)) with false by lia.
  cbn match. wp_step. wp_step. eapply wp_hdr; [apply Hp|]. repeat wp_step. rewrite (bh_used _ _ _ _ _ _ _ Hp).
  destruct u; simpl.
  - wp_step. specialize (HQ (hdrs s)). revert HQ. unfold lf_back. rewrite last_snoc, join_back_used, set_same. auto.
  - wp_step. wp_step. rewrite total_app in Hm, Hc2, HQ. simpl in Hm, Hc2, HQ. rewrite Z.add_0_r in Hm, Hc2, HQ.
    destruct (chain_head _ _ _ _ _ _ Hc2 He) as [m3 E3].
    destruct (chain_join (hdrs s) b e l k n false l2 Hs Hc He p m3 (bh_at _ _ _ _ _ _ _ Hp) E3) as [Hj Hje].
    apply (wp_when_lfree (lfree s =? b + (total l + k))).
    set (s1 := set_lfree _ s). assert (hdrs s1 = hdrs s) as Eh by done.
    wp_step. eapply wp_hdr; [rewrite Eh; apply Hm|]. rewrite (bh_next _ _ _ _ _ _ _ Hm).
    wp_step. eapply wp_upd_hdr; [rewrite Eh; apply Hp|]. wp_step.
    eapply wp_hdr; [simpl; rewrite lookup_insert_ne by lia; apply Hm|]. rewrite (bh_next _ _ _ _ _ _ _ Hm), Hb.
    eapply wp_upd_hdr; [simpl; rewrite lookup_insert_ne by lia; exact E3|].
    replace (b + total l - b) with (total l) by lia. rewrite join_back_free in HQ. specialize (HQ _ Hj Hje). revert HQ.
    unfold lf_back. rewrite last_snoc. simpl. replace (b + (total l + k) - k) with (b + total l) by lia.
    unfold s1. done.
Qed.

Lemma plug_holes_spec b e s l1 n l2 (Q : unit -> hstate -> Prop) :
  heap_ptr s = b -> heap_end s = b + e -> sizes_ok (l1 ++ (n, false) :: l2) -> chain (hdrs s) b 0 0 (l1 ++ (n, false) :: l2) e -> end_ok (hdrs s) b e ->
  (forall h', chain h' b 0 0 (plugged l1 n l2) e -> end_ok h' b e ->
     Q tt (set_lfree (lf_plugged (lfree s) (b + total l1) l1 n l2) (set_hdrs h' s))) ->
  wp (plug_holes (b + total l1)) Q s.
Proof.
  intros Hb Hend Hs Hc He HQ. destruct (chain_split _ _ _ _ _ _ _ Hc) as (m & Hc1 & Hm & Hc2).
  pose proof Hs as Hs'. apply Forall_app in Hs' as [Hs1 [[Hn _] Hs2]%Forall_cons]. simpl in Hn.
  pose proof (chain_total _ _ _ _ _ _ Hc2). pose proof (sizes_ok_total l1 Hs1). pose proof (sizes_ok_total l2 Hs2).
  unfold plug_holes. wp_step. wp_step. rewrite Hb, Hend. repeat wp_step; [lia|lia|].
  eapply wp_hdr; [apply Hm|]. rewrite (bh_used _ _ _ _ _ _ _ Hm), (bh_next _ _ _ _ _ _ _ Hm).
  wp_step. wp_step; [done|]. replace (b + total l1 =? b + (total l1 + n)) with false by lia. cbn match.
  wp_step. destruct l2 as [|[k u] l2].
  - (* the end of the heap follows *)
    simpl in Hc2. destruct He as (me & Ee & Hue & Hne). wp_step. rewrite Hc2. eapply wp_hdr; [exact Ee|]. rewrite Hue.
    wp_step. simpl. wp_step. wp_step. apply (plug_back b e s l1 n []); [done|done|done|by exists me|exact HQ].
  - simpl in Hc2. destruct Hc2 as [[mn Hmn] Hc3].
    assert (total l1 + n < e) as Hlt.
    { pose proof (chain_total _ _ _ _ _ _ Hc3). apply Forall_cons in Hs2 as [[? _] Hs2].
      pose proof (sizes_ok_total l2 Hs2). simpl in *. lia. }
    wp_step. eapply wp_hdr; [apply Hmn|]. rewrite (bh_used _ _ _ _ _ _ _ Hmn). wp_step.
    replace (b + (total l1 + n) =? b + e) with false by lia. destruct u; simpl.
    + wp_step. wp_step. apply (plug_back b e s l1 n ((k, true) :: l2)); [done..|exact HQ].
    + destruct (chain_head _ _ _ _ _ _ Hc3 He) as [m3 E3].
      apply Forall_cons in Hs2 as [[Hk _] Hs2]. simpl in Hk.
      destruct (chain_join (hdrs s) b e l1 n k false l2 Hs Hc He m m3 (bh_at _ _ _ _ _ _ _ Hm) E3) as [Hj Hje].
      apply sizes_ok_join in Hs.
      wp_step. wp_step. wp_step. apply (wp_when_lfree (lfree s =? b + (total l1 + n))).
      set (s1 := set_lfree _ s). assert (hdrs s1 = hdrs s) as Eh by done.
      wp_step. eapply wp_hdr; [rewrite Eh; apply Hmn|]. rewrite (bh_next _ _ _ _ _ _ _ Hmn).
      wp_step. eapply wp_upd_hdr; [rewrite Eh; apply Hm|]. wp_step.
      eapply wp_hdr; [simpl; rewrite lookup_insert_ne by lia; apply Hmn|]. rewrite (bh_next _ _ _ _ _ _ _ Hmn), Hb.
      eapply wp_upd_hdr; [simpl; rewrite lookup_insert_ne by lia; exact E3|].
      replace (b + total l1 - b) with (total l1) by lia.
      apply (plug_back b e _ l1 (n + k) l2); [done..|]. intros h' Hj' He'. specialize (HQ h' Hj' He'). revert HQ.
      unfold lf_plugged, lf_fwd. by rewrite <- Z.add_assoc.
Qed.

(** ** Allocation *)

(** The block of [n] bytes that is to serve a request of [size] is cut when the rest has
    room for a header and the least data. *)
Definition carve (size n : Z) : layout :=
  if size + 36 <=? n then [(size + 12, true); (n - (size + 12), false)] else [(n, true)].
Definition carved (size n : Z) : Z := if size + 36 <=? n then size + 12 else n.

(** The offset of the first free block of [l], which starts at [x], or its end *)
Fixpoint next_free (x : Z) (l : layout) : Z :=
  match l with (n, true) :: l' => next_free (x + n) l' | _ => x end.

(** The first block that serves a request of [size] bytes.  The search of the code
    stops at offset [msa - size], so the last block is not taken when it fits exactly. *)
Fixpoint first_fit (msa size x : Z) (l : layout) : option (layout * Z * layout) :=
  match l with
  | [] => None
  | (n, u) :: l' =>
      if negb u && (size + 12 <=? n) && (x <? msa - size) then Some ([], n, l')
      else match first_fit msa size (x + n) l' with
           | Some (l1, k, l2) => Some ((n, u) :: l1, k, l2)
           | None => None
           end
  end.

Lemma first_fit_far msa size x l : sizes_ok l -> msa - size <= x -> first_fit msa size x l = None.
Proof.
  intros Hs. revert x. induction Hs as [|[n u] l [Hn _] Hs IH]; intros x Hx; simpl in *; [done|].
  replace (x <? msa - size) with false by lia. rewrite andb_false_r, IH by lia. done.
Qed.

Lemma first_fit_Some msa size x l l1 n l2 :
  first_fit msa size x l = Some (l1, n, l2) ->
  l = l1 ++ (n, false) :: l2 /\ size + 12 <= n /\ x + total l1 < msa - size /\
  (forall l3 k l4, l1 = l3 ++ (k, false) :: l4 -> size + 12 <= k -> msa - size <= x + total l3).
Proof.
  revert x l1. induction l as [|[k u] l IH]; intros x l1; simpl; [done|].
  destruct (negb u && (size + 12 <=? k) && (x <? msa - size)) eqn:Hfit.
  - intros [= <- <- <-]. apply andb_true_iff in Hfit as [[Hu ?]%andb_true_iff ?].
    destruct u; [done|]. simpl. split_and!; [done|lia|lia|]. by intros [].
  - destruct (first_fit msa size (x + k) l) as [[[l3 j] l4]|] eqn:E; [|done]. intros [= <- <- <-].
    destruct (IH _ _ E) as (-> & Hn & Hx & Hmin). simpl. split_and!; [done|done|lia|].
    intros [|[k' u'] l5] i l6 Heq Hi; simplify_eq/=.
    + apply andb_false_iff in Hfit as [Hf|Hf]; lia.
    + specialize (Hmin _ _ _ eq_refl Hi). lia.
Qed.

Lemma first_fit_None msa size x l l1 n l2 :
  first_fit msa size x l = None -> l = l1 ++ (n, false) :: l2 -> size + 12 <= n -> msa - size <= x + total l1.
Proof.
  revert x l1. induction l as [|[k u] l IH]; intros x l1; simpl; [by destruct l1|].
  destruct (negb u && (size + 12 <=? k) && (x <? msa - size)) eqn:Hfit; [done|].
  destruct (first_fit msa size (x + k) l) as [[[l3 j] l4]|] eqn:E; [done|]. intros _ Heq Hn.
  destruct l1 as [|[k' u'] l1]; simplify_eq/=.
  - apply andb_false_iff in Hfit as [Hf|Hf]; lia.
  - specialize (IH _ l1 E eq_refl Hn). lia.
Qed.

Lemma carve_total size n : total (carve size n) = n.
Proof. unfold carve. case_match; simpl; lia. Qed.

Lemma carve_used size n : used_total (carve size n) = carved size n.
Proof. unfold carve, carved. case_match; simpl; lia. Qed.

Lemma carve_sizes size n :
  12 <= size -> size mod 4 = 0 -> size + 12 <= n -> n mod 4 = 0 -> sizes_ok (carve size n).
Proof.
  intros. unfold carve. case_match; repeat constructor; simpl; try lia; Z.to_euclidean_division_equations; lia.
Qed.

(** The headers of a block are replaced: [h'] has those of [mid] in its place, and the
    header that follows has its new predecessor (the last entry may keep the old one). *)
Lemma chain_swap h h' b l1 n u mid l2 e :
  total mid = n -> sizes_ok (l1 ++ (n, u) :: l2) ->
  chain h b 0 0 (l1 ++ (n, u) :: l2) e -> end_ok h b e ->
  (forall a, a < b + total l1 \/ b + (total l1 + n) < a -> h' !! a = h !! a) ->
  chain h' b (last_off 0 0 l1) (total l1) mid (total l1 + n) ->
  h' !! (b + (total l1 + n)) = h !! (b + (total l1 + n)) /\ (l2 = [] \/ last_off 0 (total l1) mid = total l1) \/
  h' !! (b + (total l1 + n)) = set_prev (last_off 0 (total l1) mid) <$> h !! (b + (total l1 + n)) ->
  mid <> [] ->
  chain h' b 0 0 (l1 ++ mid ++ l2) e /\ end_ok h' b e.
Proof.
  intros Ht Hs Hc He Hout Hmid Hnext Hne.
  destruct (chain_split _ _ _ _ _ _ _ Hc) as (m & Hc1 & Hm & Hc2).
  apply Forall_app in Hs as [Hs1 [[Hn _] Hs2]%Forall_cons]. simpl in Hn.
  pose proof (chain_total _ _ _ _ _ _ Hc2). pose proof (sizes_ok_total l2 Hs2). pose proof (sizes_ok_total l1 Hs1).
  assert (forall q, last_off q (total l1) mid = last_off 0 (total l1) mid) as Hlo by (by destruct mid as [|[? ?] ?]).
  rewrite !chain_app, !Z.add_0_l, Ht, Hlo.
  assert (chain h' b (last_off 0 (total l1) mid) (total l1 + n) l2 e /\ end_ok h' b e) as [Hc2' He'].
  { destruct (chain_head _ _ _ _ _ _ Hc2 He) as [m2 E2].
    assert (forall a, b + (total l1 + n) < a -> h' !! a = h !! a) as Hout' by (intros; apply Hout; lia).
    destruct Hnext as [[En Hq]|En].
    - assert (forall a, b + (total l1 + n) <= a -> h' !! a = h !! a) as Hout2.
      { intros a Ha. destruct (decide (a = b + (total l1 + n))) as [->|]; [done|]. apply Hout'. lia. }
      split; [|destruct He as (me & Ee & Hme); exists me; rewrite Hout2 by lia; done].
      destruct Hq as [->| ->]; [done|]. eapply chain_ext; [done| |exact Hc2]. intros; apply Hout2; lia.
    - destruct (chain_reprev h b _ (last_off 0 (total l1) mid) _ l2 e m2 Hs2 Hc2 He E2) as [Hc3 He3].
      rewrite E2 in En. simpl in En.
      assert (forall a, b + (total l1 + n) <= a ->
                h' !! a = <[b + (total l1 + n) := set_prev (last_off 0 (total l1) mid) m2]> h !! a) as Hout2.
      { intros a Ha. destruct (decide (a = b + (total l1 + n))) as [->|]; [by rewrite lookup_insert_eq|].
        rewrite lookup_insert_ne by done. apply Hout'. lia. }
      split; [|destruct He3 as (me & Ee & Hme); exists me; rewrite Hout2 by lia; done].
      eapply chain_ext; [done| |exact Hc3]. intros; apply Hout2; lia. }
  split_and!; [|done..]. eapply chain_ext; [done| |exact Hc1]. intros; apply Hout; lia.
Qed.

(** Every block has a header of its own. *)
Lemma chain_size h b p o l e : sizes_ok l -> chain h b p o l e -> end_ok h b e -> (length l < size h)%nat.
Proof.
  intros Hs. revert h p o. induction Hs as [|[n u] l [Hn _] Hs IH]; intros h p o Hc He; simpl in *.
  - destruct He as (m & E & _). assert (size h <> 0%nat); [|lia].
    apply map_size_non_empty_iff. intros ->. done.
  - destruct Hc as [[m Hm] Hc]. pose proof (chain_total _ _ _ _ _ _ Hc). pose proof (sizes_ok_total l Hs).
    pose proof (map_size_delete_Some (b + o) h (mk_is_Some _ _ (bh_at _ _ _ _ _ _ _ Hm))).
    enough (length l < size (delete (b + o)%Z h))%nat by lia. eapply IH.
    + eapply chain_ext; [done| |exact Hc]. intros a Ha. apply lookup_delete_ne. lia.
    + destruct He as (me & Ee & Hme). exists me. rewrite lookup_delete_ne by lia. done.
Qed.

(** ** The loops of [rt_malloc] *)

Lemma next_lfree_spec h b e p o l fuel s (Q : unit -> hstate -> Prop) :
  hdrs s = h -> heap_ptr s = b -> heap_end s = b + e -> lfree s = b + o ->
  sizes_ok l -> chain h b p o l e -> end_ok h b e -> (length l < fuel)%nat ->
  Q tt (set_lfree (b + next_free o l) s) ->
  wp (while fuel
    (fun _ => s ← get; m ← hdr (lfree s); mret (negb (hm_used m =? 0) && negb (lfree s =? heap_end s)))
    (fun _ => s ← get; m ← hdr (lfree s); modify (set_lfree (heap_ptr s + hm_next m))) tt) Q s.
Proof.
  intros Hh Hb Hend Hlf Hs. revert p o fuel s Hh Hb Hend Hlf.
  induction Hs as [|[n u] l [Hn _] Hs IH]; intros p o fuel s Hh Hb Hend Hlf Hc He Hfuel HQ;
    (destruct fuel as [|fuel]; [simpl in Hfuel; lia|]); simpl in Hc |- *; apply wp_bind; wp_step; wp_step; wp_step.
  - destruct He as (m & E & Hu & _). subst o.
    eapply wp_hdr; [rewrite Hlf, Hh; exact E|]. wp_step. rewrite Hu, Hlf, Hend, Z.eqb_refl. simpl. wp_step.
    simpl in HQ. rewrite <- Hlf in HQ. by destruct s.
  - destruct Hc as [[m Hm] Hc]. pose proof (chain_total _ _ _ _ _ _ Hc). pose proof (sizes_ok_total l Hs). simpl in Hn.
    eapply wp_hdr; [rewrite Hlf, Hh; apply Hm|]. wp_step.
    rewrite Hlf, Hend, (bh_used _ _ _ _ _ _ _ Hm). destruct u; simpl.
    + replace (b + o =? b + e) with false by lia. simpl. wp_step. wp_step. wp_step. wp_step.
      eapply wp_hdr; [rewrite Hlf, Hh; apply Hm|]. wp_step.
      eapply IH; [done..| |exact Hc|done|simpl in Hfuel; lia|exact HQ].
      simpl. by rewrite Hb, (bh_next _ _ _ _ _ _ _ Hm).
    + wp_step. simpl in HQ. rewrite <- Hlf in HQ. by destruct s.
Qed.

(** The block the search for a free block ends at is free or the end. *)
Lemma next_free_hdr h b p o l e :
  sizes_ok l -> chain h b p o l e -> end_ok h b e ->
  exists m, h !! (b + next_free o l) = Some m /\ (next_free o l = e \/ hm_used m = 0).
Proof.
  intros Hs. revert p o. induction Hs as [|[n u] l _ Hs IH]; intros p o Hc He; simpl in *.
  - subst o. destruct He as (m & E & _). eauto.
  - destruct Hc as [[m Hm] Hc]. destruct u; [by eapply IH|]. exists m. split; [apply Hm|right; apply Hm].
Qed.

(** Results and states of an operation that leaves the heap area as it is *)
Definition heap_with (s : hstate) (lf sem used mx : Z) (h : gmap Z heap_mem) : hstate :=
  mk_hstate (heap_ptr s) (heap_end s) lf sem (mem_size_aligned s) used mx h (bytes s).

Lemma wp_count_used n s (Q : unit -> hstate -> Prop) :
  0 <= used_mem s -> 0 <= n -> used_mem s + n < 2 ^ 32 ->
  Q tt (heap_with s (lfree s) (heap_sem s) (used_mem s + n) (Z.max (max_mem s) (used_mem s + n)) (hdrs s)) ->
  wp (count_used n) Q s.
Proof.
  intros H1 H2 H3 HQ. unfold count_used. wp_step. wp_step. wp_step. wp_step. simpl.
  rewrite uwrap_small by lia. apply wp_when; simpl; intros Hc; [wp_step|];
    revert HQ; unfold heap_with; simpl; rewrite ?Z.max_r, ?Z.max_l by lia; by destruct s.
Qed.

Section allocation.
Context (junk : Z -> heap_mem).

Lemma wp_new_hdr a f (Q : unit -> hstate -> Prop) s :
  Q tt (set_hdrs (<[a := f (default (junk a) (hdrs s !! a))]> (hdrs s)) s) -> wp (new_hdr junk a f) Q s.
Proof. intros HQ. unfold new_hdr. by wp_step. Qed.

Section take.
Context (b e : Z) (s : hstate) (l1 l2 : layout) (n size : Z).
Context (Hb : heap_ptr s = b) (Hb4 : b mod 4 = 0) (Hb0 : 0 <= b) (Hend : heap_end s = b + e)
        (He32 : b + e + 12 < 2 ^ 32) (Hmsa : mem_size_aligned s = e - 12).
Context (Hs : sizes_ok (l1 ++ (n, false) :: l2)) (Hc : chain (hdrs s) b 0 0 (l1 ++ (n, false) :: l2) e)
        (He : end_ok (hdrs s) b e).
Context (Hsz : 12 <= size) (Hsz4 : size mod 4 = 0) (Hfit : size + 12 <= n).
Context (Hum : 0 <= used_mem s) (Humn : used_mem s + n < 2 ^ 32).

(** The headers after a block is taken *)
Definition took (h' : gmap Z heap_mem) : Prop :=
  chain h' b 0 0 (l1 ++ carve size n ++ l2) e /\ end_ok h' b e.

(** The block is cut: [r] is the header of the rest. *)
Lemma took_split h m r :
  size + 36 <= n ->
  h !! (b + total l1) = Some m -> hm_used m = 1 -> hm_next m = total l1 + 12 + size -> hm_prev m = last_off 0 0 l1 ->
  h !! (b + (total l1 + 12 + size)) = Some r -> hm_used r = 0 -> hm_next r = total l1 + n -> hm_prev r = total l1 ->
  (forall a, a <> b + total l1 -> a <> b + (total l1 + 12 + size) -> a <> b + (total l1 + n) ->
     h !! a = hdrs s !! a) ->
  h !! (b + (total l1 + n)) = hdrs s !! (b + (total l1 + n)) /\ l2 = [] \/
  h !! (b + (total l1 + n)) = set_prev (total l1 + 12 + size) <$> hdrs s !! (b + (total l1 + n)) ->
  took (<[b + total l1 := set_magic HEAP_MAGIC m]> h).
Proof using Hs Hc He Hsz.
  intros Hn M1 M2 M3 M4 R1 R2 R3 R4 Hout Hnx. unfold took, carve. replace (size + 36 <=? n) with true by lia.
  eapply chain_swap with (n := n) (u := false); [simpl; lia|exact Hs|exact Hc|exact He| | | |done].
  - intros a Ha. rewrite lookup_insert_ne, Hout by lia. done.
  - simpl. split_and!; [|exists r; split; [|done|simpl; lia|simpl; lia|done]|lia].
    + eexists. split; [apply lookup_insert_eq|done|simpl; lia|done|done].
    + rewrite lookup_insert_ne by lia. rewrite <- R1. f_equal. lia.
  - rewrite lookup_insert_ne by lia. simpl.
    replace (total l1 + (size + 12)) with (total l1 + 12 + size) by lia. destruct Hnx as [[? ?]|?]; auto.
Qed.

(** The first part of [malloc_take]: the block is cut or taken whole. *)
Lemma malloc_cut (Q : unit -> hstate -> Prop) m :
  block_hdr (hdrs s) b (last_off 0 0 l1) (total l1) n false m ->
  (forall h' m', h' !! (b + total l1) = Some m' -> took (<[b + total l1 := set_magic HEAP_MAGIC m']> h') ->
     Q tt (heap_with s (lfree s) (heap_sem s) (used_mem s + carved size n)
             (Z.max (max_mem s) (used_mem s + carved size n)) h')) ->
  wp (if u32 (size + SIZEOF_STRUCT_MEM + MIN_SIZE_ALIGNED) <=? u32 (hm_next m - (total l1 + SIZEOF_STRUCT_MEM)) then
     let ptr2 := total l1 + SIZEOF_STRUCT_MEM + size in
     let mem2 := b + ptr2 in
     new_hdr junk mem2 (set_used 0);;
     m ← hdr (b + total l1); upd_hdr mem2 (set_next (hm_next m));;
     upd_hdr mem2 (set_prev (total l1));;
     upd_hdr (b + total l1) (set_next ptr2);;
     upd_hdr (b + total l1) (set_used 1);;
     m2 ← hdr mem2;
     when (negb (hm_next m2 =? mem_size_aligned s + SIZEOF_STRUCT_MEM))
       (upd_hdr (b + hm_next m2) (set_prev ptr2));;
     count_used (size + SIZEOF_STRUCT_MEM)
   else
     upd_hdr (b + total l1) (set_used 1);;
     m ← hdr (b + total l1);
     count_used (u32 (hm_next m - total l1))) Q s.
Proof using All.
  intros Hm HQ. destruct (chain_split _ _ _ _ _ _ _ Hc) as (m1 & Hc1 & Hm1 & Hc2).
  assert (m1 = m) as -> by (destruct Hm1, Hm; congruence).
  pose proof Hs as Hs'. apply Forall_app in Hs' as [Hs1 [[Hn _] Hs2]%Forall_cons]. simpl in Hn.
  pose proof (chain_total _ _ _ _ _ _ Hc2). pose proof (sizes_ok_total l2 Hs2). pose proof (sizes_ok_total l1 Hs1).
  destruct (chain_head _ _ _ _ _ _ Hc2 He) as [m2 E2].
  destruct Hm as [M1 M2 M3 M4 _]. rewrite M3, Hmsa.
  unfold SIZEOF_STRUCT_MEM, MIN_SIZE_ALIGNED. rewrite !uwrap_small by lia.
  replace (total l1 + n - (total l1 + 12)) with (n - 12) by lia. revert HQ. unfold carved.
  destruct (Z.leb_spec (size + 36) n); intros HQ.
  - replace (size + 12 + 12 <=? n - 12) with true by lia. cbn match zeta.
    wp_step. apply wp_new_hdr. set (j := default _ _). wp_step.
    eapply wp_hdr; [simpl; rewrite lookup_insert_ne by lia; exact M1|]. rewrite M3. wp_step.
    eapply wp_upd_hdr; [simpl; apply lookup_insert_eq|]. wp_step.
    eapply wp_upd_hdr; [simpl; apply lookup_insert_eq|]. wp_step.
    eapply wp_upd_hdr; [simpl; rewrite !lookup_insert_ne by lia; exact M1|]. wp_step.
    eapply wp_upd_hdr; [simpl; apply lookup_insert_eq|]. wp_step.
    eapply wp_hdr; [simpl; rewrite !lookup_insert_ne, lookup_insert_eq by lia; reflexivity|]. simpl hm_next.
    simpl hdrs. rewrite !insert_insert_eq. wp_step.
    set (h1 := <[b + total l1 := _]> _).
    assert (h1 !! (b + total l1) = Some (set_used 1 (set_next (total l1 + 12 + size) m))) as A1
      by apply lookup_insert_eq.
    assert (exists r, h1 !! (b + (total l1 + 12 + size)) = Some r /\ hm_used r = 0 /\
              hm_next r = total l1 + n /\ hm_prev r = total l1) as (r & A2 & A3 & A4 & A5)
      by (eexists; unfold h1; rewrite lookup_insert_ne, lookup_insert_eq by lia; split_and!; done).
    assert (forall a, a <> b + total l1 -> a <> b + (total l1 + 12 + size) -> h1 !! a = hdrs s !! a) as A6
      by (intros a ? ?; unfold h1; by rewrite !lookup_insert_ne).
    clearbody h1.
    apply wp_when; rewrite Z.sub_add; intros Hlast.
    + rewrite ?Z.add_assoc. eapply wp_upd_hdr; [simpl; rewrite A6 by lia; rewrite <- Z.add_assoc; exact E2|]. simpl.
      rewrite <- Z.add_assoc. apply wp_count_used; simpl; [lia..|]. eapply HQ; [rewrite lookup_insert_ne by lia; exact A1|].
      apply took_split with r; try done; try (rewrite lookup_insert_ne by lia; done).
      * intros a ???. rewrite lookup_insert_ne by lia. by apply A6.
      * right. by rewrite lookup_insert_eq, E2.
    + assert (l2 = []) as Hl2.
      { destruct l2 as [|[k v] l2']; [done|]. apply Forall_cons in Hs2 as [[? _] Hs2]. simpl in *.
        pose proof (sizes_ok_total _ Hs2). lia. }
      apply wp_count_used; simpl; [lia..|]. eapply HQ; [exact A1|]. apply took_split with r; try done.
      * intros a ???. by apply A6.
      * left. split; [apply A6; lia|done].
  - replace (size + 12 + 12 <=? n - 12) with false by lia. cbn match.
    wp_step. eapply wp_upd_hdr; [exact M1|]. wp_step.
    eapply wp_hdr; [simpl; apply lookup_insert_eq|]. simpl. rewrite M3. rewrite uwrap_small by lia.
    replace (total l1 + n - total l1) with n by lia.
    apply wp_count_used; simpl; [lia..|]. eapply HQ; [simpl; apply lookup_insert_eq|].
    unfold took, carve. replace (size + 36 <=? n) with false by lia. eapply chain_swap with (n := n) (u := false); [simpl; lia|exact Hs|exact Hc|exact He| | | |done].
    + intros a Ha. rewrite !lookup_insert_ne by lia. done.
    + simpl. split; [|lia]. eexists. split; [apply lookup_insert_eq|done..].
    + left. rewrite !lookup_insert_ne by lia. auto.
Qed.

Lemma malloc_take_spec (Q : Z -> hstate -> Prop) :
  lfree_ok b e (lfree s) (l1 ++ (n, false) :: l2) ->
  (forall h', took h' ->
     Q (b + total l1 + 12)
       (heap_with s (if b + total l1 =? lfree s then b + next_free (total l1) (carve size n ++ l2) else lfree s)
          (heap_sem s + 1) (used_mem s + carved size n) (Z.max (max_mem s) (used_mem s + carved size n)) h')) ->
  wp (malloc_take junk size (total l1)) Q s.
Proof using All.
  intros Hlf HQ. destruct (chain_split _ _ _ _ _ _ _ Hc) as (m & Hc1 & Hm & Hc2).
  pose proof Hs as Hs'. apply Forall_app in Hs' as [Hs1 [[Hn Hn4] Hs2]%Forall_cons]. simpl in Hn, Hn4.
  pose proof (chain_total _ _ _ _ _ _ Hc2). pose proof (sizes_ok_total l2 Hs2). pose proof (sizes_ok_total l1 Hs1).
  pose proof (sizes_ok_mod l1 Hs1) as Hm1.
  unfold malloc_take. wp_step. wp_step. rewrite Hb. wp_step. eapply wp_hdr; [apply Hm|]. wp_step.
  eapply (malloc_cut _ _ Hm). intros h' m' Em' [Ht1 Ht2].
  wp_step. eapply wp_upd_hdr; [exact Em'|]. cbn [hdrs heap_with]. set (h2 := <[b + total l1 := set_magic HEAP_MAGIC m']> h') in *.
  wp_step. wp_step. wp_step. eapply wp_mono with (P := fun _ s' => s' = heap_with s
     (if b + total l1 =? lfree s then b + next_free (total l1) (carve size n ++ l2) else lfree s)
     (heap_sem s) (used_mem s + carved size n) (Z.max (max_mem s) (used_mem s + carved size n)) h2).
  - pose proof Ht1 as Hch. rewrite chain_app in Hch. destruct Hch as [_ Hch]. rewrite Z.add_0_l in Hch.
    assert (sizes_ok (carve size n ++ l2)) as Hs3 by (apply Forall_app; split; [by apply carve_sizes|done]).
    apply wp_when; simpl; intros Hlf2.
    + wp_step. unfold next_lfree. wp_step. wp_step.
      eapply next_lfree_spec with (o := total l1); [done|simpl; exact Hb|simpl; exact Hend|simpl; lia|exact Hs3|exact Hch|exact Ht2| |].
      { pose proof (chain_size _ _ _ _ _ _ Hs3 Hch Ht2). simpl. lia. }
      wp_step. wp_step. wp_step.
      destruct (next_free_hdr _ _ _ _ _ _ Hs3 Hch Ht2) as (mf & Ef & Hf).
      eapply wp_hdr; [exact Ef|]. apply wp_assert.
      { simpl. rewrite Hend. destruct Hf as [->| ->]; [|by rewrite orb_true_r]. by rewrite Z.eqb_refl. }
      rewrite Hlf2. done.
    + rewrite Hlf2. done.
  - intros _ s' ->. wp_step. unfold heap_unlock. wp_step. simpl.
    wp_step. apply wp_assert.
    { unfold SIZEOF_STRUCT_MEM. rewrite Hend, uwrap_small by lia. lia. }
    unfold SIZEOF_STRUCT_MEM, RT_ALIGN_SIZE.
    assert ((b + total l1) mod 4 = 0) as Hal by (rewrite Z.add_mod, Hb4, Hm1 by lia; done).
    wp_step. apply wp_assert; [apply Z.eqb_eq; rewrite Z.add_mod, Hal by lia; done|].
    wp_step. apply wp_assert; [apply Z.eqb_eq; change (4 - 1) with (Z.ones 2); rewrite Z.land_ones by lia; exact Hal|].
    wp_step. apply HQ. split; [exact Ht1|exact Ht2].
Qed.
End take.

Lemma malloc_loop_spec b e s la lb size fuel (Q : Z -> hstate -> Prop) :
  heap_ptr s = b -> mem_size_aligned s = e - 12 -> b + e + 12 < 2 ^ 32 -> 0 <= b ->
  sizes_ok (la ++ lb) -> chain (hdrs s) b 0 0 (la ++ lb) e -> 0 <= size <= e - 12 -> (length lb < fuel)%nat ->
  match first_fit (e - 12) size (total la) lb with
  | Some (l1, _, _) => wp (malloc_take junk size (total (la ++ l1))) Q s
  | None => Q RT_NULL (set_heap_sem (heap_sem s + 1) s)
  end ->
  wp (malloc_loop junk fuel size (total la)) Q s.
Proof.
  intros Hb Hmsa H32 Hb0. revert la fuel. induction lb as [|[n u] lb IH]; intros la fuel Hs Hc Hsz Hfuel HQ;
    (destruct fuel as [|fuel]; [simpl in Hfuel; lia|]); simpl malloc_loop; wp_step; wp_step; rewrite Hmsa, uwrap_small by lia.
  - rewrite app_nil_r in Hc. apply chain_total in Hc. replace (total la <? e - 12 - size) with false by lia.
    unfold heap_unlock. by repeat wp_step.
  - destruct (chain_split _ _ _ _ _ _ _ Hc) as (m & _ & Hm & Hc2).
    pose proof Hs as Hs'. apply Forall_app in Hs' as [Hs1 [[Hn _] Hs2]%Forall_cons]. simpl in Hn.
    pose proof (chain_total _ _ _ _ _ _ Hc2). pose proof (sizes_ok_total lb Hs2). pose proof (sizes_ok_total la Hs1).
    destruct (Z.ltb_spec (total la) (e - 12 - size)) as [Hlt|Hge].
    + wp_step. rewrite Hb. eapply wp_hdr; [apply Hm|].
      rewrite (bh_used _ _ _ _ _ _ _ Hm), (bh_next _ _ _ _ _ _ _ Hm). unfold SIZEOF_STRUCT_MEM.
      rewrite uwrap_small by lia. replace (total la + n - (total la + 12)) with (n - 12) by lia.
      simpl in HQ. replace (total la <? e - 12 - size) with true in HQ by lia.
      replace ((if u then 1 else 0) =? 0) with (negb u) by (by destruct u).
      replace (size <=? n - 12) with (size + 12 <=? n) by lia. rewrite andb_true_r in HQ.
      destruct (negb u && (size + 12 <=? n)); [by rewrite app_nil_r in HQ|].
      specialize (IH (la ++ [(n, u)]) fuel). rewrite <- app_assoc, total_app in IH. simpl in IH. rewrite Z.add_0_r in IH.
      apply IH; [done|done|done|simpl in Hfuel; lia|].
      destruct (first_fit _ _ _ lb) as [[[l1 k] l2]|]; [|done]. by rewrite <- app_assoc.
    + apply Forall_app in Hs as [_ Hs]. rewrite (first_fit_far _ _ _ _ Hs Hge) in HQ. unfold heap_unlock. by repeat wp_step.
Qed.
End allocation.
