(* ===== verification/SmallMemCorrect.v ===== *)
(** * Correctness of the small memory manager (src/mem.c)

    The invariant of the heap, what each call does to the blocks in use, and the safety
    of every program that uses the heap as it should. *)
From stdpp Require Import base tactics numbers list gmap.
From S2P Require Import Prelude Memory KString SmallMem HeapLayout.
Local Open Scope Z_scope.

(** ** The invariant of the heap *)

(** The blocks [l] fill the area behind [heap_ptr] up to the last entry; neighbouring
    free blocks are merged, [lfree] is a free block or the last entry, and the counters
    are right.  [heap_ptr + mem_size_aligned + 24] is the end of the memory area. *)
Record heap_inv (s : hstate) (l : layout) : Prop := {
  hi_base : 0 < heap_ptr s /\ heap_ptr s mod 4 = 0;
  hi_room : 12 <= mem_size_aligned s /\ heap_ptr s + mem_size_aligned s + 24 < 2 ^ 32;
  hi_end : heap_end s = heap_ptr s + (mem_size_aligned s + 12);
  hi_sizes : sizes_ok l;
  hi_chain : chain (hdrs s) (heap_ptr s) 0 0 l (mem_size_aligned s + 12);
  hi_last : end_ok (hdrs s) (heap_ptr s) (mem_size_aligned s + 12);
  hi_coalesced : coalesced l;
  hi_tail : last_big l;
  hi_lfree : lfree_ok (heap_ptr s) (mem_size_aligned s + 12) (lfree s) l;
  hi_sem : heap_sem s = 1;
  hi_used : used_mem s = used_total l;
  hi_max : used_mem s <= max_mem s;
  hi_mapped : mapped (bytes s) (heap_ptr s) (mem_size_aligned s + 24);
  hi_bytes : mem_ok (bytes s)
}.

Lemma hi_total s l : heap_inv s l -> total l = mem_size_aligned s + 12.
Proof. intros Hi. pose proof (chain_total _ _ _ _ _ _ (hi_chain _ _ Hi)). lia. Qed.

(** The size a request is served with *)
Definition request (size : Z) : Z :=
  let a := RT_ALIGN size RT_ALIGN_SIZE in if a <? MIN_SIZE_ALIGNED then MIN_SIZE_ALIGNED else a.

Lemma request_spec size :
  0 < size <= 2 ^ 32 - 4 ->
  size <= request size /\ 12 <= request size /\ request size mod 4 = 0 /\
  RT_ALIGN size 4 <= request size /\ size <= RT_ALIGN size 4 < size + 4.
Proof.
  intros Hsz. unfold request, RT_ALIGN_SIZE, MIN_SIZE_ALIGNED. rewrite RT_ALIGN_4 by lia.
  destruct (Z.ltb_spec (size + 3 - (size + 3) mod 4) 12); Z.to_euclidean_division_equations; lia.
Qed.

Lemma lfree_split b e f l :
  total l = e -> lfree_ok b e f l ->
  exists la lb, l = la ++ lb /\ f = b + total la /\ (lb = [] \/ exists n l2, lb = (n, false) :: l2).
Proof.
  intros Ht [->|Hf].
  - exists l, []. rewrite app_nil_r, Ht. auto.
  - apply free_at_split in Hf as (l1 & n & l2 & -> & E). exists l1, ((n, false) :: l2).
    split_and!; [done|lia|eauto].
Qed.

(** The layout after the block of [n] bytes between [l1] and [l2] served a request *)
Lemma carve_coalesced size l1 n l2 :
  coalesced (l1 ++ (n, false) :: l2) -> coalesced (l1 ++ carve size n ++ l2).
Proof.
  rewrite !coalesced_app. simpl. intros (H1 & [Hh H2] & _). specialize (Hh eq_refl).
  unfold carve. destruct (size + 36 <=? n); simpl; intuition done.
Qed.

Lemma carve_last_big size l1 n l2 :
  last_big (l1 ++ (n, false) :: l2) -> 12 < n -> last_big (l1 ++ carve size n ++ l2).
Proof.
  intros Hl Hn. unfold carve. destruct (Z.leb_spec (size + 36) n); simpl; rewrite last_big_app.
  - simpl. rewrite last_big_app in Hl. destruct l2; [lia|done].
  - rewrite last_big_app in Hl. by destruct l2.
Qed.

Lemma next_free_ok b e l1 l2 :
  total (l1 ++ l2) = e -> lfree_ok b e (b + next_free (total l1) l2) (l1 ++ l2).
Proof.
  revert l1. induction l2 as [|[n u] l2 IH]; intros l1 Ht; simpl.
  - left. rewrite app_nil_r in Ht. lia.
  - destruct u.
    + specialize (IH (l1 ++ [(n, true)])). rewrite <- app_assoc in IH.
      replace (total (l1 ++ [(n, true)])) with (total l1 + n) in IH by (rewrite total_app; simpl; lia).
      by apply IH.
    + right. rewrite free_at_app. right. simpl. left. split; [done|lia].
Qed.

(** [lfree] stays on a free block when another block is taken. *)
Lemma carve_lfree_ok b e f size l1 n l2 :
  f <> b + total l1 -> lfree_ok b e f (l1 ++ (n, false) :: l2) -> lfree_ok b e f (l1 ++ carve size n ++ l2).
Proof.
  intros Hne [->|Hf]; [by left|]. right. revert Hf. rewrite !free_at_app, carve_total. simpl.
  intros [?|[[_ ?]|?]]; [by left| |by right; right]. exfalso. apply Hne. lia.
Qed.

(** The heap is still the same area. *)
Definition same_area (s s' : hstate) : Prop :=
  heap_ptr s' = heap_ptr s /\ mem_size_aligned s' = mem_size_aligned s.

(** A block with [n] bytes of data from address [p] on is in use. *)
Definition block_at (s : hstate) (l : layout) (p n : Z) : Prop :=
  used_at l (p - SIZEOF_STRUCT_MEM - heap_ptr s) (n + SIZEOF_STRUCT_MEM).

Lemma carve_used_at size l1 n l2 x k :
  used_at (l1 ++ carve size n ++ l2) x k <->
  used_at (l1 ++ (n, false) :: l2) x k \/ x = total l1 /\ k = carved size n.
Proof.
  rewrite !used_at_app, carve_total. simpl.
  enough (used_at (carve size n) (x - total l1) k <-> x = total l1 /\ k = carved size n) as -> by intuition done.
  unfold carve, carved. case_match; simpl; intuition (lia || done).
Qed.

Lemma used_at_mid l1 n l2 x k :
  used_at (l1 ++ (n, true) :: l2) x k <-> used_at (l1 ++ (n, false) :: l2) x k \/ x = total l1 /\ k = n.
Proof. rewrite !used_at_app. simpl. intuition (lia || done). Qed.

(** A free block and a block in use do not overlap. *)
Lemma used_at_free l1 n l2 x k :
  sizes_ok (l1 ++ (n, false) :: l2) -> used_at (l1 ++ (n, false) :: l2) x k ->
  x + k <= total l1 \/ total l1 + n <= x.
Proof.
  intros [Hs1 [_ Hs2]%Forall_cons]%Forall_app. rewrite used_at_app. simpl.
  intros [Hu|[[? _]|Hu]]; [|done|]; apply used_at_range in Hu; try done; lia.
Qed.

(** Where the blocks are *)
Lemma block_at_range s l p n :
  heap_inv s l -> block_at s l p n ->
  heap_ptr s + 12 <= p /\ 0 <= n /\ p + n <= heap_end s.
Proof.
  intros Hi Hb. pose proof (hi_total _ _ Hi). destruct Hi. unfold block_at, SIZEOF_STRUCT_MEM in Hb.
  apply used_at_range in Hb; [|done]. lia.
Qed.

Lemma block_at_split s l p n :
  block_at s l p n ->
  exists l1 l2, l = l1 ++ (n + 12, true) :: l2 /\ p = heap_ptr s + total l1 + 12.
Proof.
  intros (l1 & l2 & -> & E)%used_at_split. exists l1, l2. split; [done|].
  unfold SIZEOF_STRUCT_MEM in E. lia.
Qed.

(** The header of a block in use *)
Lemma block_start s l p n :
  heap_inv s l -> block_at s l p n ->
  exists m, hdrs s !! (p - 12) = Some m /\ hm_next m = p - 12 - heap_ptr s + (n + 12) /\ p < heap_end s.
Proof.
  intros Hi (l1 & l2 & -> & ->)%block_at_split. pose proof (hi_total _ _ Hi) as Ht. destruct Hi.
  destruct (chain_split _ _ _ _ _ _ _ hi_chain0) as (m & _ & [M1 M2 M3 _ _] & _). exists m.
  rewrite Z.add_simpl_r. split_and!; [done|lia|]. rewrite hi_end0, <- Ht, total_app. simpl.
  pose proof hi_sizes0 as [_ [[Hn _] Hs2]%Forall_cons]%Forall_app. simpl in Hn. rewrite last_big_app in hi_tail0.
  destruct l2 as [|[k v] l2]; simpl in *; [lia|]. apply Forall_cons in Hs2 as [[? _] Hs2].
  pose proof (sizes_ok_total _ Hs2). simpl in *. lia.
Qed.

Section operations.
Context (junk : Z -> heap_mem).

(** The state after the block of [n] bytes between [l1] and [l2] served a request *)
Definition malloced (s : hstate) (l1 : layout) (n : Z) (l2 : layout) (size : Z) (h : gmap Z heap_mem) : hstate :=
  heap_with s (if heap_ptr s + total l1 =? lfree s then heap_ptr s + next_free (total l1) (carve size n ++ l2) else lfree s)
    1 (used_mem s + carved size n) (Z.max (max_mem s) (used_mem s + carved size n)) h.

Lemma malloced_inv s l1 n l2 size h :
  heap_inv s (l1 ++ (n, false) :: l2) -> 12 <= size -> size mod 4 = 0 -> size + 12 <= n ->
  chain h (heap_ptr s) 0 0 (l1 ++ carve size n ++ l2) (mem_size_aligned s + 12) ->
  end_ok h (heap_ptr s) (mem_size_aligned s + 12) ->
  heap_inv (malloced s l1 n l2 size h) (l1 ++ carve size n ++ l2).
Proof.
  intros Hi Hsz Hsz4 Hfit Hc He. pose proof (hi_total _ _ Hi) as Ht. destruct Hi. split; try done; simpl.
  - apply Forall_app in hi_sizes0 as [? [[? ?] ?]%Forall_cons]. apply Forall_app. split; [done|].
    apply Forall_app. split; [by apply carve_sizes|done].
  - by apply carve_coalesced.
  - apply carve_last_big; [done|lia].
  - destruct (Z.eqb_spec (heap_ptr s + total l1) (lfree s)) as [E|E].
    + apply next_free_ok. rewrite <- Ht, !total_app, carve_total. simpl. lia.
    + by apply carve_lfree_ok.
  - rewrite hi_used0, !used_total_app, carve_used. simpl. lia.
  - lia.
Qed.

Lemma rt_malloc_spec s l size :
  heap_inv s l -> 0 < size <= 2 ^ 32 - 4 ->
  exists la lb, l = la ++ lb /\ lfree s = heap_ptr s + total la /\
  (lb = [] \/ exists n l2, lb = (n, false) :: l2) /\
  match first_fit (mem_size_aligned s) (request size) (total la) lb with
  | None => rt_malloc junk size s = Ok RT_NULL s
  | Some (l1, n, l2) => exists h,
      rt_malloc junk size s = Ok (heap_ptr s + total (la ++ l1) + 12) (malloced s (la ++ l1) n l2 (request size) h) /\
      heap_inv (malloced s (la ++ l1) n l2 (request size) h) ((la ++ l1) ++ carve (request size) n ++ l2)
  end.
Proof.
  intros Hi Hsz. pose proof (hi_total _ _ Hi) as Ht. destruct (request_spec size Hsz) as (R1 & R2 & R3 & R4 & R5).
  destruct (lfree_split _ _ _ _ Ht (hi_lfree _ _ Hi)) as (la & lb & -> & Hlf & Hhd). exists la, lb.
  split_and!; [done|done|done|]. pose proof Hi as []. pose proof (sizes_ok_total _ (proj1 (proj1 (Forall_app _ _ _) hi_sizes0))) as Hla.
  assert (wp (rt_malloc junk size) (fun r s' =>
    match first_fit (mem_size_aligned s) (request size) (total la) lb with
    | None => r = RT_NULL /\ s' = s
    | Some (l1, n, l2) => exists h, r = heap_ptr s + total (la ++ l1) + 12 /\
        s' = malloced s (la ++ l1) n l2 (request size) h /\ heap_inv s' ((la ++ l1) ++ carve (request size) n ++ l2)
    end) s) as Hw.
  - unfold rt_malloc. replace (size =? 0) with false by lia. cbn match. wp_step. wp_step.
    change RT_ALIGN_SIZE with 4. change (let s := _ in _) with (request size).
    destruct (Z.ltb_spec (mem_size_aligned s) (RT_ALIGN size 4)) as [Hbig|Hbig].
    { wp_step. destruct (first_fit _ _ _ _) as [[[l1 n] l2]|] eqn:Hff; [|done].
      apply first_fit_Some in Hff as (-> & _ & Hx & _). apply Forall_app in hi_sizes0 as [_ [Hs1 _]%Forall_app].
      apply sizes_ok_total in Hs1. lia. }
    wp_step. unfold heap_lock. wp_step. wp_step. wp_step. apply wp_assert; [by rewrite hi_sem0|]. wp_step. wp_step. wp_step.
    cbn [lfree heap_ptr hdrs set_heap_sem]. rewrite Hlf. replace (heap_ptr s + total la - heap_ptr s) with (total la) by lia.
    apply (malloc_loop_spec junk (heap_ptr s) (mem_size_aligned s + 12) _ la lb); [done|simpl; lia|lia|lia|done|done| | |].
    + unfold request, MIN_SIZE_ALIGNED in *. change RT_ALIGN_SIZE with 4 in *. case_match; lia.
    + apply (chain_size _ _ _ _ _ _ hi_sizes0 hi_chain0) in hi_last0. rewrite length_app in hi_last0. lia.
    + rewrite Z.add_simpl_r. destruct (first_fit _ _ _ lb) as [[[l1 n] l2]|] eqn:Hff.
      * apply first_fit_Some in Hff as (-> & Hn & _). rewrite app_assoc in Hi, hi_sizes0, hi_chain0, hi_lfree0, hi_used0, Ht.
        pose proof (used_total_bound _ hi_sizes0) as Hub. pose proof (used_total_free _ _ _ hi_sizes0) as Huf.
        eapply malloc_take_spec; simpl; try done; try lia. intros h [Hc He]. exists h.
        rewrite hi_sem0. split_and!; [done|done|].
        change (heap_inv (malloced s (la ++ l1) n l2 (request size) h) ((la ++ l1) ++ carve (request size) n ++ l2)).
        by apply malloced_inv.
      * rewrite hi_sem0. by destruct s; simpl in *; subst.
  - apply wp_ok in Hw as (r & s' & -> & Hw).
    destruct (first_fit _ _ _ _) as [[[l1 n] l2]|]; [destruct Hw as (h & -> & -> & ?); eauto|by destruct Hw as [-> ->]].
Qed.

(** What [rt_malloc] does, in terms of blocks *)
Lemma rt_malloc_blocks s l size :
  heap_inv s l -> 0 < size <= 2 ^ 32 - 4 ->
  exists p s' l', rt_malloc junk size s = Ok p s' /\ heap_inv s' l' /\ same_area s s' /\ bytes s' = bytes s /\
    (p = RT_NULL /\ s' = s /\ l' = l /\
     (forall l1 n l2, l = l1 ++ (n, false) :: l2 -> lfree s <= heap_ptr s + total l1 ->
        request size + 12 <= n -> n = request size + 12 /\ l2 = []) \/
     exists n, size <= n /\ p mod 4 = 0 /\
       (forall q k, block_at s' l' q k <-> block_at s l q k \/ q = p /\ k = n) /\
       (forall q k, block_at s l q k -> q + k <= p - 12 \/ p + n <= q - 12)).
Proof.
  intros Hi Hsz. destruct (request_spec size Hsz) as (R1 & R2 & R3 & _).
  destruct (rt_malloc_spec s l size Hi Hsz) as (la & lb & -> & Hlf & Hhd & Hr). pose proof (hi_total _ _ Hi) as Ht.
  destruct (first_fit _ _ _ lb) as [[[l1 n] l2]|] eqn:Hff.
  - destruct Hr as (h & Hr & Hi'). apply first_fit_Some in Hff as (-> & Hn & _). rewrite app_assoc in Hi.
    destruct Hi. pose proof hi_sizes0 as [Hs1 _]%Forall_app. pose proof (sizes_ok_mod _ Hs1).
    do 3 eexists. split_and!; [exact Hr|exact Hi'|done|done|]. right. exists (carved (request size) n - 12).
    unfold block_at, SIZEOF_STRUCT_MEM. cbn [heap_ptr malloced heap_with].
    assert (request size + 12 <= carved (request size) n <= n) by (unfold carved; case_match; lia).
    split_and!; [lia|Z.to_euclidean_division_equations; lia| |].
    + intros q k. rewrite carve_used_at, (app_assoc la). apply or_iff_compat_l. lia.
    + intros q k Hu. rewrite app_assoc in Hu. apply used_at_free in Hu; [lia|done].
  - do 3 eexists. split_and!; [exact Hr|exact Hi|done|done|]. left. split_and!; [done|done|done|].
    intros l1 n l2 E Hle Hn. pose proof Hi as []. rewrite E in hi_sizes0, Ht. rewrite total_app in Ht. simpl in Ht.
    pose proof hi_sizes0 as [Hs1 [_ Hs2]%Forall_cons]%Forall_app. pose proof (sizes_ok_total _ Hs2).
    destruct (app_split_total la lb l1 ((n, false) :: l2)) as (l3 & -> & Hl3); [by rewrite E|done|lia|].
    pose proof (first_fit_None _ _ _ _ _ _ _ Hff Hl3 Hn) as Hf. rewrite total_app in *.
    destruct l2 as [|[k v] l2]; [split; [simpl in *; lia|done]|].
    apply Forall_cons in Hs2 as [[? _] Hs2]. pose proof (sizes_ok_total _ Hs2). simpl in *. lia.
Qed.

(** The state after the block of [n] bytes between [l1] and [l2] was freed *)
Definition freed (s : hstate) (l1 : layout) (n : Z) (l2 : layout) (h : gmap Z heap_mem) : hstate :=
  heap_with s (lf_plugged (if heap_ptr s + total l1 <? lfree s then heap_ptr s + total l1 else lfree s)
      (heap_ptr s + total l1) l1 n l2)
    1 (used_mem s - n) (max_mem s) h.

Lemma free_lfree_ok b e f l1 n l2 :
  lfree_ok b e f (l1 ++ (n, true) :: l2) ->
  lfree_ok b e (if b + total l1 <? f then b + total l1 else f) (l1 ++ (n, false) :: l2).
Proof.
  intros Hf. case_match.
  - right. rewrite free_at_app. right. simpl. left. split; [done|lia].
  - destruct Hf as [->|Hf]; [by left|]. right. revert Hf. rewrite !free_at_app. simpl. intuition done.
Qed.

Lemma freed_inv s l1 n l2 h :
  heap_inv s (l1 ++ (n, true) :: l2) ->
  chain h (heap_ptr s) 0 0 (plugged l1 n l2) (mem_size_aligned s + 12) ->
  end_ok h (heap_ptr s) (mem_size_aligned s + 12) ->
  heap_inv (freed s l1 n l2 h) (plugged l1 n l2).
Proof.
  intros Hi Hc He. destruct Hi. assert (sizes_ok (l1 ++ (n, false) :: l2)) as Hs'.
  { apply Forall_app in hi_sizes0 as [? [? ?]%Forall_cons]. apply Forall_app. split; [done|]. by constructor. }
  rewrite coalesced_app in hi_coalesced0. simpl in hi_coalesced0. destruct hi_coalesced0 as (? & [_ ?] & _).
  split; try done; simpl.
  - by apply plugged_sizes.
  - by apply plugged_coalesced.
  - apply plugged_last_big; [done|]. rewrite last_big_app in *. by destruct l2.
  - by apply lf_plugged_ok, free_lfree_ok.
  - rewrite plugged_used, hi_used0, used_total_app. simpl. lia.
  - apply Forall_app in hi_sizes0 as [_ [[? _] _]%Forall_cons]. simpl in *. lia.
Qed.

Lemma chain_set_free h b l1 n l2 e m x :
  sizes_ok (l1 ++ (n, true) :: l2) -> chain h b 0 0 (l1 ++ (n, true) :: l2) e -> end_ok h b e ->
  h !! (b + total l1) = Some m ->
  let h' := <[b + total l1 := set_magic x (set_used 0 m)]> h in
  chain h' b 0 0 (l1 ++ (n, false) :: l2) e /\ end_ok h' b e.
Proof.
  intros Hs Hc He E h'. destruct (chain_split _ _ _ _ _ _ _ Hc) as (m1 & Hc1 & [M1 M2 M3 M4 _] & Hc2).
  rewrite E in M1. injection M1 as <-. pose proof Hs as [_ [[Hn _] _]%Forall_cons]%Forall_app. simpl in Hn.
  apply (chain_swap h h' b l1 n true [(n, false)] l2 e); try done; simpl.
  - lia.
  - intros a Ha. apply lookup_insert_ne. lia.
  - split; [|lia]. eexists. split; [apply lookup_insert_eq|done..].
  - left. split; [apply lookup_insert_ne; lia|by right].
Qed.

Lemma rt_free_spec s l1 n l2 :
  heap_inv s (l1 ++ (n, true) :: l2) ->
  exists h, rt_free (heap_ptr s + total l1 + 12) s = Ok tt (freed s l1 n l2 h) /\
    heap_inv (freed s l1 n l2 h) (plugged l1 n l2).
Proof.
  intros Hi. pose proof (hi_total _ _ Hi) as Ht. pose proof Hi as [].
  pose proof hi_sizes0 as [Hs1 [[Hn Hn4] Hs2]%Forall_cons]%Forall_app. simpl in Hn, Hn4.
  pose proof (sizes_ok_total _ Hs1). pose proof (sizes_ok_total _ Hs2). pose proof (sizes_ok_mod _ Hs1) as Hm4.
  rewrite total_app in Ht. simpl in Ht.
  assert (total l1 + 12 < mem_size_aligned s + 12) as Hlt.
  { rewrite last_big_app in hi_tail0. destruct l2 as [|[k v] l2]; simpl in *; [lia|].
    apply Forall_cons in Hs2 as [[? _] Hs2]. pose proof (sizes_ok_total _ Hs2). simpl in *. lia. }
  destruct (chain_split _ _ _ _ _ _ _ hi_chain0) as (m & _ & Hm & _). pose proof Hm as [M1 M2 M3 M4 M5].
  assert (wp (rt_free (heap_ptr s + total l1 + 12)) (fun _ s' => exists h, s' = freed s l1 n l2 h /\
    heap_inv (freed s l1 n l2 h) (plugged l1 n l2)) s) as Hw.
  - unfold rt_free, RT_NULL, RT_ALIGN_SIZE. replace (heap_ptr s + total l1 + 12 =? 0) with false by lia. cbn match.
    wp_step. wp_step. wp_step. apply wp_assert.
    { apply Z.eqb_eq. change (4 - 1) with (Z.ones 2). rewrite Z.land_ones by lia.
      change (2 ^ 2) with 4. Z.to_euclidean_division_equations; lia. }
    wp_step. apply wp_assert; [lia|].
    replace (_ || _) with false by lia. cbn match. unfold SIZEOF_STRUCT_MEM. rewrite Z.add_simpl_r.
    wp_step. unfold heap_lock. wp_step. wp_step. wp_step. apply wp_assert; [by rewrite hi_sem0|]. wp_step.
    wp_step. eapply wp_hdr; [exact M1|]. rewrite M2. wp_step. apply wp_assert; [done|].
    wp_step. apply wp_assert; [by rewrite M5|].
    wp_step. eapply wp_upd_hdr; [exact M1|]. wp_step.
    eapply wp_upd_hdr; [simpl; apply lookup_insert_eq|]. simpl. rewrite insert_insert_eq.
    destruct (chain_set_free _ _ _ _ _ _ _ 0 hi_sizes0 hi_chain0 hi_last0 M1) as [Hc He].
    wp_step. wp_step. apply wp_when_lfree. wp_step. eapply wp_hdr; [simpl; apply lookup_insert_eq|].
    wp_step. wp_step. simpl. rewrite M3. replace (total l1 + n - (heap_ptr s + total l1 - heap_ptr s)) with n by lia.
    wp_step. eapply plug_holes_spec; [done|exact hi_end0| |exact Hc|exact He|].
    { apply Forall_app. split; [done|]. by constructor. }
    intros h' Hc' He'. unfold heap_unlock. wp_step. exists h'.
    split; [|by apply freed_inv]. unfold freed, heap_with. simpl.
    pose proof (used_total_bound _ Hs1). pose proof (used_total_bound _ Hs2).
    rewrite hi_used0, used_total_app, hi_sem0. simpl. rewrite !uwrap_small; [done|..]; rewrite ?uwrap_small; lia.
  - apply wp_ok in Hw as ([] & s' & -> & h & -> & Hw). eauto.
Qed.
(** What [rt_free] does, in terms of blocks *)
Lemma rt_free_blocks s l p n :
  heap_inv s l -> block_at s l p n ->
  exists s' l', rt_free p s = Ok tt s' /\ heap_inv s' l' /\ same_area s s' /\ bytes s' = bytes s /\
    used_mem s' = used_mem s - (n + 12) /\
    (forall q k, block_at s' l' q k <-> block_at s l q k /\ q <> p).
Proof.
  intros Hi (l1 & l2 & -> & ->)%block_at_split. destruct (rt_free_spec s l1 (n + 12) l2 Hi) as (h & Hr & Hi').
  do 2 eexists. split_and!; [exact Hr|exact Hi'|done..|]. intros q k. unfold block_at, SIZEOF_STRUCT_MEM.
  cbn [heap_ptr freed heap_with]. rewrite plugged_used_at, used_at_mid. split.
  - intros Hu. split; [by left|]. intros ->. pose proof (hi_sizes _ _ Hi) as [Hs1 [[Hn Hn4] Hs2]%Forall_cons]%Forall_app.
    assert (sizes_ok (l1 ++ (n + 12, false) :: l2)) as Hs by (apply Forall_app; split; [done|by constructor]).
    pose proof (used_at_range _ _ _ Hs Hu). apply (used_at_free _ _ _ _ _ Hs) in Hu. simpl in *. lia.
  - intros [[Hu|[? _]] Hne]; [done|]. lia.
Qed.
(** A block that is taken and given back *)
Lemma carve_plugged size l1 n l2 :
  coalesced (l1 ++ (n, false) :: l2) ->
  exists k l3, carve size n ++ l2 = (k, true) :: l3 /\ carved size n = k /\
    plugged l1 k l3 = l1 ++ (n, false) :: l2 /\ (forall f x, f < x + k -> lf_plugged f x l1 k l3 = f).
Proof.
  rewrite coalesced_app. simpl. intros (_ & [Hh _] & [Hl|[]]). specialize (Hh eq_refl).
  assert (forall m l, join_back l1 m l = l1 ++ (m, false) :: l /\ forall f x, lf_back f x l1 = f) as Hjb.
  { intros m l. destruct (join_back_cases l1 m l) as [(_ & -> & ?)|(l' & k & -> & _)]; [done|].
    by rewrite last_used_snoc in Hl. }
  unfold lf_plugged, plugged, carve, carved. destruct (Z.leb_spec (size + 36) n).
  - exists (size + 12), ((n - (size + 12), false) :: l2). simpl. rewrite (proj1 (Hjb _ _)).
    split_and!; [done|done|by rewrite Zplus_minus|]. intros f x Hf. rewrite (proj2 (Hjb 0 [])).
    by replace (f =? x + (size + 12)) with false by lia.
  - exists n, l2. simpl. split_and!; [done|done| |].
    + destruct l2 as [|[m []] l2]; simpl; try done; apply Hjb.
    + intros f x Hf. rewrite (proj2 (Hjb 0 [])). by destruct l2 as [|[m []] l2].
Qed.

Lemma next_free_le x l : sizes_ok l -> x <= next_free x l.
Proof.
  intros Hs. revert x. induction Hs as [|[n []] l [Hn _] Hs IH]; intros x; simpl in *; [lia| |lia].
  specialize (IH (x + n)). lia.
Qed.

Lemma malloc_free s l size p s' :
  heap_inv s l -> 0 < size <= 2 ^ 32 - 4 -> rt_malloc junk size s = Ok p s' -> p <> RT_NULL ->
  exists s'', rt_free p s' = Ok tt s'' /\ heap_inv s'' l /\ lfree s'' = lfree s /\
    used_mem s'' = used_mem s /\ bytes s'' = bytes s /\ heap_ptr s'' = heap_ptr s.
Proof.
  intros Hi Hsz Hm Hp. destruct (rt_malloc_spec s l size Hi Hsz) as (la & lb & -> & Hlf & Hhd & Hr).
  destruct (first_fit _ _ _ lb) as [[[l1 n] l2]|] eqn:Hff; [|congruence].
  destruct Hr as (h & Hr & Hi'). rewrite Hr in Hm. injection Hm as <- <-.
  apply first_fit_Some in Hff as (-> & Hn & _). rewrite app_assoc in Hi |- *.
  destruct (carve_plugged (request size) (la ++ l1) n l2 (hi_coalesced _ _ Hi)) as (k & l3 & E & Ek & Hpl & Hlfp).
  rewrite E in Hi'. pose proof (hi_sizes _ _ Hi') as [Hs1 [[Hk _] Hs3]%Forall_cons]%Forall_app. simpl in Hk.
  destruct (rt_free_spec _ _ _ _ Hi') as (h' & Hf & Hi''). eexists. split; [exact Hf|]. rewrite Hpl in Hi''.
  split_and!; [exact Hi''| |simpl; lia|done|done]. simpl. rewrite E. simpl next_free.
  pose proof (next_free_le (total (la ++ l1) + k) l3 Hs3). rewrite total_app in *.
  apply Forall_app in Hs1 as [_ Hs1]. pose proof (sizes_ok_total _ Hs1).
  destruct (Z.eqb_spec (heap_ptr s + (total la + total l1)) (lfree s)) as [Ef|Ef].
  - replace (_ <? _) with true by lia. rewrite Hlfp by lia. exact Ef.
  - replace (_ <? _) with false by lia. apply Hlfp. lia.
Qed.
End operations.

(** *** Making a block smaller *)

Section shrink.
Context (s : hstate) (l1 : layout) (n : Z) (l2 : layout) (a : Z).
Context (Hi : heap_inv s (l1 ++ (n, true) :: l2)) (Ha : 0 <= a) (Ha4 : a mod 4 = 0) (Hroom : a + 36 < n).

(** The rest is first a free block of its own. *)
Definition cut_layout : layout := l1 ++ [(a + 12, true); (n - (a + 12), false)] ++ l2.
Definition shrunk_layout : layout := plugged (l1 ++ [(a + 12, true)]) (n - (a + 12)) l2.
Definition shrunk (h : gmap Z heap_mem) : hstate :=
  heap_with s (lf_plugged (lfree s) (heap_ptr s + total (l1 ++ [(a + 12, true)])) (l1 ++ [(a + 12, true)]) (n - (a + 12)) l2)
    1 (used_mem s - (n - 12 - a)) (max_mem s) h.

Lemma cut_layout_eq : cut_layout = (l1 ++ [(a + 12, true)]) ++ (n - (a + 12), false) :: l2.
Proof. unfold cut_layout. by rewrite <- app_assoc. Qed.

Lemma cut_sizes : sizes_ok cut_layout.
Proof using Hi Ha Ha4 Hroom.
  pose proof (hi_sizes _ _ Hi) as [Hs1 [[Hn Hn4] Hs2]%Forall_cons]%Forall_app. simpl in *.
  apply Forall_app. split; [done|]. repeat constructor; simpl; try done; try lia;
    Z.to_euclidean_division_equations; lia.
Qed.

Lemma cut_chain h m r :
  h !! (heap_ptr s + total l1) = Some m -> hm_used m = 1 -> hm_next m = total l1 + 12 + a ->
  hm_prev m = last_off 0 0 l1 -> hm_magic m = HEAP_MAGIC ->
  h !! (heap_ptr s + (total l1 + 12 + a)) = Some r -> hm_used r = 0 -> hm_next r = total l1 + n ->
  hm_prev r = total l1 ->
  (forall x, x <> heap_ptr s + total l1 -> x <> heap_ptr s + (total l1 + 12 + a) ->
     x <> heap_ptr s + (total l1 + n) -> h !! x = hdrs s !! x) ->
  h !! (heap_ptr s + (total l1 + n)) = hdrs s !! (heap_ptr s + (total l1 + n)) /\ l2 = [] \/
  h !! (heap_ptr s + (total l1 + n)) = set_prev (total l1 + 12 + a) <$> hdrs s !! (heap_ptr s + (total l1 + n)) ->
  chain h (heap_ptr s) 0 0 cut_layout (mem_size_aligned s + 12) /\ end_ok h (heap_ptr s) (mem_size_aligned s + 12).
Proof using Hi Ha Hroom.
  intros M1 M2 M3 M4 M5 R1 R2 R3 R4 Hout Hnx. destruct Hi.
  eapply chain_swap with (n := n) (u := true); [simpl; lia|done|done|done| | | |done].
  - intros x Hx. apply Hout; lia.
  - simpl. split_and!; [|exists r; split; [|done|simpl; lia|simpl; lia|done]|lia].
    + eexists. split; [exact M1|done|simpl; lia|done|done].
    + rewrite <- R1. f_equal. lia.
  - simpl. replace (total l1 + (a + 12)) with (total l1 + 12 + a) by lia. destruct Hnx as [[? ?]|?]; auto.
Qed.

Lemma shrunk_inv h :
  chain h (heap_ptr s) 0 0 shrunk_layout (mem_size_aligned s + 12) ->
  end_ok h (heap_ptr s) (mem_size_aligned s + 12) -> heap_inv (shrunk h) shrunk_layout.
Proof using Hi Ha Ha4 Hroom.
  intros Hc He. pose proof cut_sizes as Hs. rewrite cut_layout_eq in Hs. destruct Hi.
  rewrite coalesced_app in hi_coalesced0. simpl in hi_coalesced0. destruct hi_coalesced0 as (? & [_ ?] & _).
  split; try done; simpl.
  - by apply plugged_sizes.
  - apply plugged_coalesced; [|done]. rewrite coalesced_app. simpl. auto.
  - apply plugged_last_big; [done|]. rewrite last_big_app in *. destruct l2; [simpl; lia|done].
  - apply lf_plugged_ok; [done|]. destruct hi_lfree0 as [->|Hf]; [by left|]. right. revert Hf.
    rewrite <- app_assoc, !free_at_app. simpl. replace (a + 12 + 0) with (a + 12) by lia.
    intros [?|[[? ?]|?]]; [by left|done|]. right. right. right.
    by replace (lfree s - heap_ptr s - total l1 - (a + 12) - (n - (a + 12))) with (lfree s - heap_ptr s - total l1 - n) by lia.
  - unfold shrunk_layout. rewrite plugged_used, hi_used0, !used_total_app. simpl. lia.
  - lia.
Qed.

Lemma shrunk_used_at x k :
  used_at shrunk_layout x k <->
  used_at (l1 ++ (n, true) :: l2) x k /\ x <> total l1 \/ x = total l1 /\ k = a + 12.
Proof using Hi Ha Ha4 Hroom.
  unfold shrunk_layout. rewrite plugged_used_at, <- app_assoc. cbn [app]. rewrite !used_at_app. simpl.
  replace (x - total l1 - (a + 12) - (n - (a + 12))) with (x - total l1 - n) by lia.
  pose proof (hi_sizes _ _ Hi) as [Hs1 [[Hn _] Hs2]%Forall_cons]%Forall_app. simpl in Hn.
  pose proof (used_at_range l1 x k Hs1). pose proof (used_at_range l2 (x - total l1 - n) k Hs2).
  assert (used_at l1 x k -> x <> total l1) by (intros Hu; specialize (H Hu); lia).
  assert (used_at l2 (x - total l1 - n) k -> x <> total l1) by (intros Hu; specialize (H0 Hu); lia).
  split.
  - intros [HA|[(_ & ? & ?)|[[? _]|HB]]]; [by left; auto|right; lia|done|left; split; [by right; right|auto]].
  - intros [[[HA|[(_ & ? & _)|HB]] Hne]|[? ?]]; [by left|lia|by right; right; right|right; left; split_and!; [done|lia|done]].
Qed.

Lemma rt_realloc_shrink (junk : Z -> heap_mem) newsize :
  RT_ALIGN newsize 4 = a ->
  exists h, rt_realloc junk (heap_ptr s + total l1 + 12) newsize s = Ok (heap_ptr s + total l1 + 12) (shrunk h) /\
    heap_inv (shrunk h) shrunk_layout.
Proof using All.
  intros Hal. pose proof (hi_total _ _ Hi) as Ht. pose proof cut_sizes as Hsc. pose proof Hi as [].
  pose proof hi_sizes0 as [Hs1 [[Hn Hn4] Hs2]%Forall_cons]%Forall_app. simpl in Hn, Hn4.
  pose proof (sizes_ok_total _ Hs1). pose proof (sizes_ok_total _ Hs2). rewrite total_app in Ht. simpl in Ht.
  destruct (chain_split _ _ _ _ _ _ _ hi_chain0) as (m & _ & [M1 M2 M3 M4 M5] & Hc2). specialize (M5 eq_refl).
  destruct (chain_head _ _ _ _ _ _ Hc2 hi_last0) as [m2 E2].
  assert (wp (rt_realloc junk (heap_ptr s + total l1 + 12) newsize) (fun q s' => q = heap_ptr s + total l1 + 12 /\
    exists h, s' = shrunk h /\ heap_inv (shrunk h) shrunk_layout) s) as Hw.
  - unfold rt_realloc, RT_NULL, RT_ALIGN_SIZE, SIZEOF_STRUCT_MEM, MIN_SIZE. rewrite Hal. wp_step. wp_step.
    replace (mem_size_aligned s <? a) with false by lia. replace (heap_ptr s + total l1 + 12 =? 0) with false by lia.
    cbn match. wp_step. unfold heap_lock. wp_step. wp_step. wp_step. apply wp_assert; [by rewrite hi_sem0|]. wp_step.
    replace (_ || _) with false by lia. cbn match. rewrite Z.add_simpl_r.
    replace (heap_ptr s + total l1 - heap_ptr s) with (total l1) by lia.
    wp_step. eapply wp_hdr; [exact M1|]. rewrite M3. replace (total l1 + n - total l1 - 12) with (n - 12) by lia.
    rewrite !uwrap_small by lia. replace (n - 12 =? a) with false by lia.
    replace (a + 12 + 12 <? n - 12) with true by lia. cbn match zeta.
    wp_step. wp_step. wp_step. apply wp_new_hdr. set (j := default _ _). wp_step.
    eapply wp_upd_hdr; [simpl; apply lookup_insert_eq|]. wp_step.
    eapply wp_hdr; [simpl; rewrite !lookup_insert_ne by lia; exact M1|]. rewrite M3. wp_step.
    eapply wp_upd_hdr; [simpl; apply lookup_insert_eq|]. wp_step.
    eapply wp_upd_hdr; [simpl; apply lookup_insert_eq|]. wp_step.
    eapply wp_upd_hdr; [simpl; rewrite !lookup_insert_ne by lia; exact M1|]. wp_step.
    eapply wp_hdr; [simpl; rewrite !lookup_insert_ne, lookup_insert_eq by lia; reflexivity|]. simpl hm_next.
    simpl hdrs. rewrite !insert_insert_eq. wp_step.
    set (h1 := <[heap_ptr s + total l1 := _]> _).
    assert (h1 !! (heap_ptr s + total l1) = Some (set_next (total l1 + 12 + a) m)) as A1 by apply lookup_insert_eq.
    assert (exists r, h1 !! (heap_ptr s + (total l1 + 12 + a)) = Some r /\ hm_used r = 0 /\
              hm_next r = total l1 + n /\ hm_prev r = total l1) as (r & A2 & A3 & A4 & A5)
      by (eexists; unfold h1; rewrite lookup_insert_ne, lookup_insert_eq by lia; split_and!; done).
    assert (forall x, x <> heap_ptr s + total l1 -> x <> heap_ptr s + (total l1 + 12 + a) -> h1 !! x = hdrs s !! x) as A6
      by (intros x ? ?; unfold h1; by rewrite !lookup_insert_ne).
    clearbody h1.
    apply wp_mono with (P := fun _ s' => exists h,
      s' = heap_with s (lfree s) (heap_sem s - 1) (u32 (used_mem s - (n - 12 - a))) (max_mem s) h /\
      chain h (heap_ptr s) 0 0 cut_layout (mem_size_aligned s + 12) /\ end_ok h (heap_ptr s) (mem_size_aligned s + 12)).
    + apply wp_when; intros Hlast.
      * eapply wp_upd_hdr; [simpl; rewrite A6 by lia; exact E2|]. eexists. split; [done|]. simpl.
        eapply cut_chain; try (rewrite lookup_insert_ne by lia; done); try done.
        -- intros x ???. rewrite lookup_insert_ne by lia. by apply A6.
        -- right. by rewrite lookup_insert_eq, E2.
      * assert (l2 = []) as Hl2.
        { destruct l2 as [|[k v] l2']; [done|]. apply Forall_cons in Hs2 as [[? _] Hs2]. simpl in *.
          pose proof (sizes_ok_total _ Hs2). lia. }
        eexists. split; [done|]. eapply cut_chain; try done.
        -- intros x ???. by apply A6.
        -- left. split; [apply A6; lia|done].
    + intros _ s' (h & -> & Hc & He). wp_step. rewrite cut_layout_eq in Hc, Hsc.
      replace (heap_ptr s + (total l1 + 12 + a)) with (heap_ptr s + total (l1 ++ [(a + 12, true)]))
        by (rewrite total_app; simpl; lia).
      eapply plug_holes_spec; [done|exact hi_end0|exact Hsc|exact Hc|exact He|]. intros h' Hc' He'.
      unfold heap_unlock. wp_step. wp_step. wp_step. split; [done|]. exists h'. split; [|by apply shrunk_inv].
      unfold shrunk, heap_with. simpl. rewrite hi_sem0, hi_used0, used_total_app. simpl.
      pose proof (used_total_bound _ Hs1). pose proof (used_total_bound _ Hs2). rewrite uwrap_small by lia. done.
  - apply wp_ok in Hw as (q & s' & -> & -> & h & -> & Hw). eauto.
Qed.
End shrink.

(** *** [rt_realloc] and [rt_calloc] *)

Section realloc.
Context (junk : Z -> heap_mem).

Lemma wp_on_bytes {A} (m : M mem A) (Q : A -> hstate -> Prop) s :
  wp m (fun x b => Q x (set_bytes b s)) (bytes s) -> wp (on_bytes m) Q s.
Proof. unfold wp, on_bytes. by destruct (m (bytes s)). Qed.

Lemma heap_inv_bytes s l b :
  heap_inv s l -> (forall a, is_Some (bytes s !! a) -> is_Some (b !! a)) -> mem_ok b -> heap_inv (set_bytes b s) l.
Proof. intros [] Hm Hok. split; try done. intros a Ha. by apply Hm, hi_mapped0. Qed.

Lemma block_mapped s l p n : heap_inv s l -> block_at s l p n -> mapped (bytes s) p n.
Proof.
  intros Hi Hb. pose proof (block_at_range _ _ _ _ Hi Hb) as Hr. destruct Hi. intros a Ha. apply hi_mapped0. lia.
Qed.

(** What a call that moves or resizes the block at [p] (of [n] bytes) to [q] does *)
Definition moved (s s' : hstate) (l l' : layout) (p n q newsize : Z) : Prop :=
  exists k, newsize <= k /\
    (forall i, 0 <= i < n `min` newsize -> bytes s' !! (q + i) = bytes s !! (p + i)) /\
    (forall r j, block_at s' l' r j <-> block_at s l r j /\ r <> p \/ r = q /\ j = k) /\
    (forall r j i, block_at s l r j -> r <> p -> 0 <= i < j -> bytes s' !! (r + i) = bytes s !! (r + i)).

Context (s : hstate) (l : layout) (p n newsize : Z).
Context (Hi : heap_inv s l) (Hb : block_at s l p n) (Hnew : 0 <= newsize <= 2 ^ 32 - 4).

(** Two blocks in use are one or apart. *)
Lemma block_at_apart q k : block_at s l q k -> q = p /\ k = n \/ p + n <= q - 12 \/ q + k <= p - 12.
Proof using Hi Hb.
  intros Hq. destruct (used_at_disjoint l _ _ _ _ (hi_sizes _ _ Hi) Hq Hb); unfold SIZEOF_STRUCT_MEM in *; lia.
Qed.

(** The block is copied to a new one. *)
Lemma realloc_move :
  RT_ALIGN newsize 4 <= mem_size_aligned s ->
  wp (nmem ← rt_malloc junk (RT_ALIGN newsize 4);
      when (negb (nmem =? RT_NULL))
        (on_bytes (rt_memcpy nmem p (if n <? RT_ALIGN newsize 4 then n else RT_ALIGN newsize 4));; rt_free p);;
      mret nmem)
    (fun q s' => exists l', heap_inv s' l' /\ same_area s s' /\
       (q = RT_NULL /\ s' = s /\ l' = l \/ moved s s' l l' p n q newsize)) s.
Proof using All.
  intros Hmsa. pose proof (block_at_range _ _ _ _ Hi Hb) as Hpr. pose proof Hi as [].
  assert (newsize <= RT_ALIGN newsize 4 < newsize + 4) as Hal
    by (rewrite RT_ALIGN_4 by lia; Z.to_euclidean_division_equations; lia).
  set (a := RT_ALIGN newsize 4) in *. destruct (Z.eqb_spec a 0) as [Ha|Ha].
  { unfold rt_malloc. rewrite Ha. wp_step. simpl. wp_step. wp_step. simpl. repeat wp_step. exists l. split_and!; [done|done|by left]. }
  destruct (rt_malloc_blocks junk s l a Hi) as (q & s1 & l1 & Hm & Hi1 & [Hp1 Hm1] & Hb1 & Hcase); [lia|].
  wp_step. eapply ok_wp; [exact Hm|]. destruct Hcase as [(-> & -> & -> & _)|(k & Hk & _ & Hblk & Hdisj)].
  { simpl. repeat wp_step. exists l. split_and!; [done|done|by left]. }
  assert (block_at s1 l1 q k) as Hq by (apply Hblk; auto).
  assert (block_at s1 l1 p n) as Hp by (apply Hblk; auto).
  pose proof (block_at_range _ _ _ _ Hi1 Hq) as Hqr. specialize (Hdisj _ _ Hb) as Hd.
  unfold RT_NULL. replace (q =? 0) with false by lia. simpl.
  set (c := if n <? a then n else a). assert (0 <= c /\ c <= n /\ c <= k /\ n `min` newsize <= c) as (C1 & C2 & C3 & C4)
    by (unfold c; case_match; lia).
  wp_step. wp_step. apply wp_on_bytes. rewrite Hb1.
  eapply wp_mono; [apply (rt_memcpy_spec (bytes s) q p c)|].
  - done.
  - lia.
  - rewrite <- Hb1. intros x Hx. apply (block_mapped _ _ _ _ Hi1 Hq). lia.
  - intros x Hx. apply (block_mapped _ _ _ _ Hi Hb). lia.
  - lia.
  - lia.
  - intros _ b' [_ Hcp].
    assert (heap_inv (set_bytes b' s1) l1) as Hi2.
    { apply heap_inv_bytes; [done| |intros x v; rewrite Hcp; case_decide; apply hi_bytes0]. intros x [v Hx]. rewrite Hcp.
      case_decide; [apply (block_mapped _ _ _ _ Hi Hb); lia|]. rewrite <- Hb1. eauto. }
    destruct (rt_free_blocks junk (set_bytes b' s1) l1 p n Hi2) as (s3 & l3 & Hf & Hi3 & [Hp3 Hm3] & Hb3 & _ & Hblk3); [done|].
    eapply ok_wp; [exact Hf|]. wp_step. exists l3. split_and!; [done|by unfold same_area; rewrite Hp3, Hm3|]. right.
    exists k. rewrite Hb3. simpl. split_and!; [lia| | |].
    + intros i Hlt. rewrite Hcp, decide_True by lia. f_equal. lia.
    + intros r j. rewrite Hblk3. change (block_at (set_bytes b' s1) l1 r j) with (block_at s1 l1 r j). rewrite Hblk.
      intuition lia.
    + intros r j i Hr Hne Hlt. rewrite Hcp, decide_False; [done|]. specialize (Hdisj _ _ Hr). lia.
Qed.

Lemma rt_realloc_blocks :
  exists q s' l', rt_realloc junk p newsize s = Ok q s' /\ heap_inv s' l' /\ same_area s s' /\
    (q = RT_NULL /\ s' = s /\ l' = l \/ moved s s' l l' p n q newsize).
Proof using All.
  pose proof (block_at_range _ _ _ _ Hi Hb) as Hpr. pose proof Hi as [].
  assert (newsize <= RT_ALIGN newsize 4 < newsize + 4 /\ RT_ALIGN newsize 4 mod 4 = 0) as [Hal Hal4]
    by (rewrite RT_ALIGN_4 by lia; Z.to_euclidean_division_equations; lia).
  assert (moved s s l l p n p newsize \/ n < newsize) as Hsame.
  { destruct (Z.ltb_spec n newsize); [by right|]. left. exists n. split_and!; [lia|done| |done].
    intros r j. split; [|intros [[? _]|[-> ->]]; done].
    intros Hr. destruct (block_at_apart _ _ Hr) as [?|?]; [auto|]. left. split; [done|]. 
    pose proof (block_at_range _ _ _ _ Hi Hr). lia. }
  destruct (block_at_split _ _ _ _ Hb) as (l1 & l2 & El & Ep).
  destruct (decide (RT_ALIGN newsize 4 + 36 < n + 12)) as [Hshr|Hshr].
  { subst l p. destruct (rt_realloc_shrink s l1 (n + 12) l2 (RT_ALIGN newsize 4) Hi ltac:(lia) Hal4 Hshr junk newsize eq_refl)
      as (h & Hr & Hi').
    do 3 eexists. split_and!; [exact Hr|exact Hi'|done|]. right. exists (RT_ALIGN newsize 4). split_and!; [lia|done| |done].
    intros r j. unfold block_at at 1, SIZEOF_STRUCT_MEM. rewrite (shrunk_used_at s) by (done || lia).
    simpl. unfold block_at, SIZEOF_STRUCT_MEM.
    split; [intros [[? ?]|?]; [left; split; [done|lia]|right; lia]|intros [[? ?]|?]; [left; split; [done|lia]|right; lia]]. }
  assert (wp (rt_realloc junk p newsize) (fun q s' => exists l', heap_inv s' l' /\ same_area s s' /\
    (q = RT_NULL /\ s' = s /\ l' = l \/ moved s s' l l' p n q newsize)) s) as Hw.
  - unfold rt_realloc, RT_NULL, RT_ALIGN_SIZE, SIZEOF_STRUCT_MEM, MIN_SIZE. wp_step. wp_step.
    destruct (Z.ltb_spec (mem_size_aligned s) (RT_ALIGN newsize 4)).
    { wp_step. exists l. split_and!; [done|done|by left]. }
    replace (p =? 0) with false by lia. cbn match. wp_step. unfold heap_lock. wp_step. wp_step. wp_step.
    apply wp_assert; [by rewrite hi_sem0|]. wp_step.
    assert (set_heap_sem (heap_sem s - 1 + 1) (set_heap_sem (heap_sem s - 1) s) = s) as Hres
      by (rewrite hi_sem0; destruct s; simpl in *; by subst).
    pose proof (block_start s l p n Hi Hb) as (m & M1 & M2 & Hlt).
    replace (_ || _) with false by lia. cbn match. wp_step. eapply wp_hdr; [exact M1|]. rewrite M2.
    replace (p - 12 - heap_ptr s + (n + 12) - (p - 12 - heap_ptr s) - 12) with n by lia.
    rewrite !uwrap_small by lia. unfold heap_unlock.
    destruct (Z.eqb_spec n (RT_ALIGN newsize 4)).
    { wp_step. wp_step. wp_step. simpl. rewrite Hres. exists l. split_and!; [done|done|]. right.
      destruct Hsame; [done|lia]. }
    replace (_ <? n) with false by lia. cbn match. wp_step. wp_step. simpl. rewrite Hres. apply realloc_move. lia.
  - apply wp_ok in Hw as (q & s' & -> & l' & Hw). eauto 10.
Qed.
End realloc.

Lemma rt_calloc_blocks junk s l count size :
  heap_inv s l -> 0 <= count * size <= 2 ^ 32 - 4 ->
  exists p s' l', rt_calloc junk count size s = Ok p s' /\ heap_inv s' l' /\ same_area s s' /\
    (p = RT_NULL /\ s' = s /\ l' = l \/
     exists n, count * size <= n /\ written (bytes s) (bytes s') p (count * size) (fun _ => Some 0) /\
       (forall q k, block_at s' l' q k <-> block_at s l q k \/ q = p /\ k = n) /\
       (forall q k, block_at s l q k -> q + k <= p - 12 \/ p + n <= q - 12)).
Proof.
  intros Hi Hsz. unfold rt_calloc. rewrite uwrap_small by lia. destruct (Z.eqb_spec (count * size) 0) as [E|E].
  { rewrite E. exists RT_NULL, s, l. split_and!; [done|done|done|by left]. }
  destruct (rt_malloc_blocks junk s l (count * size) Hi) as (p & s1 & l1 & Hm & Hi1 & [Hp1 Ha1] & Hb1 & Hcase); [lia|].
  rewrite (run_bind _ _ _ _ _ Hm). destruct Hcase as [(-> & -> & -> & _)|(n & Hn & _ & Hblk & Hd)].
  { exists RT_NULL, s, l. split_and!; [done|done|done|by left]. }
  assert (block_at s1 l1 p n) as Hp by (apply Hblk; auto). pose proof (block_at_range _ _ _ _ Hi1 Hp) as Hr.
  pose proof (hi_base _ _ Hi1). unfold RT_NULL. replace (p =? 0) with false by lia. simpl.
  assert (mapped (bytes s1) p (count * size)) as Hmp.
  { intros a Ha. apply (block_mapped _ _ _ _ Hi1 Hp). lia. }
  destruct (wp_ok _ _ _ (rt_memset_spec (bytes s1) p 0 (count * size) ltac:(lia) Hmp)) as (r & b & Er & -> & Hw).
  assert (on_bytes (rt_memset p 0 (count * size)) s1 = Ok p (set_bytes b s1)) as Eb by (unfold on_bytes; by rewrite Er).
  rewrite (run_bind _ _ _ tt (set_bytes b s1)) by (by rewrite (run_bind _ _ _ _ _ Eb)).
  exists p, (set_bytes b s1), l1. rewrite <- Hb1. split_and!; [done| |done|right; exists n; done].
  apply heap_inv_bytes; [done|..].
  - intros a Ha. rewrite Hw. case_decide; [done|exact Ha].
  - intros a v. rewrite Hw. case_decide; [|apply (hi_bytes _ _ Hi1)]. intros [= <-]. done.
Qed.

Lemma RT_ALIGN_bounds x : 0 <= x -> x + 3 < 2 ^ 32 -> x <= RT_ALIGN x 4 < x + 4 /\ RT_ALIGN x 4 mod 4 = 0.
Proof. intros. rewrite RT_ALIGN_4 by lia. Z.to_euclidean_division_equations; lia. Qed.

(** ** The heap after [rt_system_heap_init] *)

(** The variables of mem.c before the call (the counters are zero), and an area with
    room for both headers and some data *)
Record heap_area (s : hstate) (begin_addr end_addr : Z) : Prop := {
  ha_used : used_mem s = 0;
  ha_max : max_mem s = 0;
  ha_range : 0 < begin_addr /\ begin_addr + 48 <= end_addr /\ end_addr < 2 ^ 32;
  ha_mapped : mapped (bytes s) begin_addr (end_addr - begin_addr);
  ha_bytes : mem_ok (bytes s)
}.

Lemma rt_system_heap_init_inv junk s begin_addr end_addr :
  heap_area s begin_addr end_addr ->
  exists s', rt_system_heap_init junk begin_addr end_addr s = Ok tt s' /\
    heap_inv s' [(mem_size_aligned s' + 12, false)] /\
    begin_addr <= heap_ptr s' /\ heap_end s' + 12 <= end_addr /\ bytes s' = bytes s /\
    end_addr - begin_addr - 30 <= mem_size_aligned s'.
Proof.
  intros [Hu Hmx (Hb & Hroom & H32) Hm Hok]. unfold rt_system_heap_init, RT_ALIGN_SIZE, SIZEOF_STRUCT_MEM.
  destruct (RT_ALIGN_bounds begin_addr) as [Hba Hba4]; [lia..|].
  pose proof (RT_ALIGN_DOWN_4 end_addr) as Hea.
  assert (end_addr - 3 <= RT_ALIGN_DOWN end_addr 4 <= end_addr /\ RT_ALIGN_DOWN end_addr 4 mod 4 = 0) as [Hed Hed4]
    by (rewrite Hea; Z.to_euclidean_division_equations; lia).
  set (b := RT_ALIGN begin_addr 4) in *. set (e := RT_ALIGN_DOWN end_addr 4) in *. clearbody b e.
  replace (_ && _) with true by lia. eexists. split; [reflexivity|]. simpl.
  assert (b <> b + (e - b - 24 + 12)) by lia.
  split_and!; [|lia|lia|done|lia]. split; simpl; try done.
  - split; [lia|done].
  - lia.
  - repeat constructor; simpl; Z.to_euclidean_division_equations; lia.
  - split; [|lia]. eexists. split; [rewrite Z.add_0_r, lookup_insert_ne by lia; apply lookup_insert_eq|simpl; lia..|done].
  - eexists. rewrite lookup_insert_eq. split_and!; [done|done|simpl; lia].
  - lia.
  - right. simpl. left. split; [done|lia].
  - rewrite Hu, Hmx. lia.
  - intros a Ha. apply Hm. lia.
Qed.

(** ** Programs that use the heap *)

Section reach.
Context (junk : Z -> heap_mem).

(** What a sequence of calls can lead to, with the blocks the program holds: its
    addresses and the sizes it asked for.  The program frees and resizes only blocks it
    holds, and writes only within them. *)
Inductive heap_reach (begin_addr end_addr : Z) : hstate -> gmap Z Z -> Prop :=
| reach_init s s' :
    heap_area s begin_addr end_addr -> rt_system_heap_init junk begin_addr end_addr s = Ok tt s' ->
    heap_reach begin_addr end_addr s' ∅
| reach_malloc s live size p s' :
    heap_reach begin_addr end_addr s live -> 0 <= size <= 2 ^ 32 - 4 -> rt_malloc junk size s = Ok p s' ->
    heap_reach begin_addr end_addr s' (if decide (p = RT_NULL) then live else <[p := size]> live)
| reach_calloc s live count size p s' :
    heap_reach begin_addr end_addr s live -> 0 <= count * size <= 2 ^ 32 - 4 -> rt_calloc junk count size s = Ok p s' ->
    heap_reach begin_addr end_addr s' (if decide (p = RT_NULL) then live else <[p := count * size]> live)
| reach_free s live p n s' :
    heap_reach begin_addr end_addr s live -> live !! p = Some n -> rt_free p s = Ok tt s' ->
    heap_reach begin_addr end_addr s' (delete p live)
| reach_realloc s live p n newsize q s' :
    heap_reach begin_addr end_addr s live -> live !! p = Some n -> 0 <= newsize <= 2 ^ 32 - 4 ->
    rt_realloc junk p newsize s = Ok q s' ->
    heap_reach begin_addr end_addr s' (if decide (q = RT_NULL) then live else <[q := newsize]> (delete p live))
| reach_write s live p n a v :
    heap_reach begin_addr end_addr s live -> live !! p = Some n -> p <= a < p + n ->
    heap_reach begin_addr end_addr (set_bytes (<[a := u8 v]> (bytes s)) s) live.

(** Every block the program holds is a block of the heap in use, at least as large as
    it was asked for. *)
Definition holds (s : hstate) (l : layout) (live : gmap Z Z) : Prop :=
  forall p n, live !! p = Some n -> 0 <= n /\ exists k, n <= k /\ block_at s l p k.

Lemma holds_mono s s' l l' live :
  holds s l live -> (forall p k, is_Some (live !! p) -> block_at s l p k -> block_at s' l' p k) -> holds s' l' live.
Proof. intros Hh Hb p n Hp. destruct (Hh p n Hp) as (? & k & ? & ?). eauto 10. Qed.

Lemma holds_insert s l live p n k :
  holds s l live -> 0 <= n <= k -> block_at s l p k -> holds s l (<[p := n]> live).
Proof.
  intros Hh Hn Hb q m. destruct (decide (q = p)) as [->|].
  - rewrite lookup_insert_eq. intros [= <-]. split; [lia|]. exists k. split; [lia|done].
  - rewrite lookup_insert_ne by done. apply Hh.
Qed.

Lemma holds_delete s l live p : holds s l live -> holds s l (delete p live).
Proof. intros Hh q n [_ Hq]%lookup_delete_Some. by apply Hh. Qed.

(** The cells of a new block are added to those held *)
Lemma held_malloc size s l live p s' :
  heap_inv s l -> holds s l live -> 0 <= size <= 2 ^ 32 - 4 -> rt_malloc junk size s = Ok p s' ->
  exists l', heap_inv s' l' /\ same_area s s' /\
    holds s' l' (if decide (p = RT_NULL) then live else <[p := size]> live).
Proof.
  intros Hi Hh Hsz Hm. destruct (Z.eqb_spec size 0) as [->|Hne].
  { injection Hm as <- <-. by exists l. }
  destruct (rt_malloc_blocks junk s l size Hi) as (p' & s1 & l1 & Hm' & Hi1 & [Hp1 Ha1] & _ & Hcase); [lia|].
  rewrite Hm in Hm'. injection Hm' as <- <-. exists l1. split_and!; [done..|].
  destruct Hcase as [(-> & -> & -> & _)|(n & Hn & _ & Hblk & _)]; [done|].
  assert (holds s' l1 live) as Hh1 by (eapply holds_mono; [done|]; intros; apply Hblk; auto).
  case_decide; [done|]. apply (holds_insert _ _ _ _ _ n); [done|lia|]. apply Hblk. auto.
Qed.

Lemma held_calloc count size s l live p s' :
  heap_inv s l -> holds s l live -> 0 <= count * size <= 2 ^ 32 - 4 -> rt_calloc junk count size s = Ok p s' ->
  exists l', heap_inv s' l' /\ same_area s s' /\
    holds s' l' (if decide (p = RT_NULL) then live else <[p := count * size]> live).
Proof.
  intros Hi Hh Hsz Hm.
  destruct (rt_calloc_blocks junk s l count size Hi) as (p' & s1 & l1 & Hm' & Hi1 & Ha & Hcase); [lia|].
  rewrite Hm in Hm'. injection Hm' as <- <-. exists l1. split_and!; [done..|].
  destruct Hcase as [(-> & -> & ->)|(n & Hn & _ & Hblk & _)]; [done|].
  assert (holds s' l1 live) as Hh1 by (eapply holds_mono; [done|]; intros; apply Hblk; auto).
  case_decide; [done|]. apply (holds_insert _ _ _ _ _ n); [done|lia|]. apply Hblk. auto.
Qed.

Lemma held_free s l live p n s' :
  heap_inv s l -> holds s l live -> live !! p = Some n -> rt_free p s = Ok tt s' ->
  exists l', heap_inv s' l' /\ same_area s s' /\ holds s' l' (delete p live).
Proof.
  intros Hi Hh Hp Hf. destruct (Hh p n Hp) as (_ & k & _ & Hb).
  destruct (rt_free_blocks junk s l p k Hi Hb) as (s1 & l1 & Hf' & Hi1 & Ha & _ & _ & Hblk).
  rewrite Hf in Hf'. injection Hf' as <-. exists l1. split_and!; [done..|].
  eapply holds_mono; [by apply holds_delete|]. intros q j [m [Hne _]%lookup_delete_Some] Hq. apply Hblk. auto.
Qed.

Lemma held_realloc s l live p n newsize q s' :
  heap_inv s l -> holds s l live -> live !! p = Some n -> 0 <= newsize <= 2 ^ 32 - 4 ->
  rt_realloc junk p newsize s = Ok q s' ->
  exists l', heap_inv s' l' /\ same_area s s' /\
    holds s' l' (if decide (q = RT_NULL) then live else <[q := newsize]> (delete p live)).
Proof.
  intros Hi Hh Hp Hnew Hr. destruct (Hh p n Hp) as (_ & k & _ & Hb).
  destruct (rt_realloc_blocks junk s l p k newsize Hi Hb Hnew) as (q' & s1 & l1 & Hr' & Hi1 & Ha & Hcase).
  rewrite Hr in Hr'. injection Hr' as <- <-. exists l1. split_and!; [done..|].
  destruct Hcase as [(-> & -> & ->)|(j & Hj & _ & Hblk & _)]; [done|].
  assert (block_at s' l1 q j) as Hq by (apply Hblk; auto). case_decide as Hz.
  { pose proof (block_at_range _ _ _ _ Hi1 Hq). pose proof (hi_base _ _ Hi1). unfold RT_NULL in Hz. lia. }
  apply (holds_insert _ _ _ _ _ j); [|lia|done].
  eapply holds_mono; [by apply holds_delete|]. intros r i [m [Hne _]%lookup_delete_Some] Hri. apply Hblk. auto.
Qed.

Lemma heap_reach_inv begin_addr end_addr s live :
  heap_reach begin_addr end_addr s live ->
  exists l, heap_inv s l /\ holds s l live /\ begin_addr <= heap_ptr s /\ heap_end s + 12 <= end_addr.
Proof.
  assert (forall s s' l l', heap_inv s l -> heap_inv s' l' -> same_area s s' ->
    heap_ptr s' = heap_ptr s /\ heap_end s' = heap_end s) as Hend.
  { intros s1 s2 l1 l2 Hi1 Hi2 [Hp Hm]. split; [done|]. rewrite (hi_end _ _ Hi1), (hi_end _ _ Hi2). lia. }
  induction 1 as [s s' Ha Hr|s live size p s' _ IH Hsz Hr|s live count size p s' _ IH Hsz Hr
    |s live p n s' _ IH Hp Hr|s live p n newsize q s' _ IH Hp Hsz Hr|s live p n a v _ IH Hp Hr].
  { destruct (rt_system_heap_init_inv junk s begin_addr end_addr Ha) as (s1 & Hr' & Hi & ? & ? & _).
    rewrite Hr in Hr'. injection Hr' as <-. eexists. split_and!; [exact Hi|by intros ? ?|done..]. }
  all: destruct IH as (l & Hi & Hh & Hb & He).
  - destruct (held_malloc _ _ _ _ _ _ Hi Hh Hsz Hr) as (l' & Hi' & Ha & Hh').
    destruct (Hend _ _ _ _ Hi Hi' Ha) as [-> ->]. eauto.
  - destruct (held_calloc _ _ _ _ _ _ _ Hi Hh Hsz Hr) as (l' & Hi' & Ha & Hh').
    destruct (Hend _ _ _ _ Hi Hi' Ha) as [-> ->]. eauto.
  - destruct (held_free _ _ _ _ _ _ Hi Hh Hp Hr) as (l' & Hi' & Ha & Hh').
    destruct (Hend _ _ _ _ Hi Hi' Ha) as [-> ->]. eauto.
  - destruct (held_realloc _ _ _ _ _ _ _ _ Hi Hh Hp Hsz Hr) as (l' & Hi' & Ha & Hh').
    destruct (Hend _ _ _ _ Hi Hi' Ha) as [-> ->]. eauto.
  - exists l. split_and!; [|done..]. apply heap_inv_bytes; [done|..].
    + intros x Hx. destruct (decide (x = a)) as [->|]; simplify_map_eq; eauto.
    + intros x w. destruct (decide (x = a)) as [->|].
      * rewrite lookup_insert_eq. intros [= <-]. apply Z.mod_pos_bound. done.
      * rewrite lookup_insert_ne by done. apply (hi_bytes _ _ Hi).
Qed.
End reach.

(** ** Correctness *)

Section correctness.
Context (junk : Z -> heap_mem).

(** C22: [rt_malloc] returns an aligned block of at least [size] bytes that does not overlap
    a block in use (nor its header), and leaves every other block and the data as they
    are; or it returns NULL and changes nothing, and then no free block from [lfree] on
    is large enough, except that the last block of the heap is not taken when it fits
    exactly. *)
Theorem rt_malloc_correct s l size :
  heap_inv s l -> 0 < size <= 2 ^ 32 - 4 ->
  exists p s' l', rt_malloc junk size s = Ok p s' /\ heap_inv s' l' /\ same_area s s' /\ bytes s' = bytes s /\
    (p = RT_NULL /\ s' = s /\ l' = l /\
     (forall l1 n l2, l = l1 ++ (n, false) :: l2 -> lfree s <= heap_ptr s + total l1 ->
        request size + 12 <= n -> n = request size + 12 /\ l2 = []) \/
     exists n, size <= n /\ p mod 4 = 0 /\
       (forall q k, block_at s' l' q k <-> block_at s l q k \/ q = p /\ k = n) /\
       (forall q k, block_at s l q k -> q + k <= p - 12 \/ p + n <= q - 12)).
Proof. apply rt_malloc_blocks. Qed.

(** [rt_free] of a block in use takes exactly that block out of the blocks in use,
    merges it with its free neighbours (the invariant has no two free neighbours) and
    counts its bytes; the data stay as they are. *)
Theorem rt_free_correct s l p n :
  heap_inv s l -> block_at s l p n ->
  exists s' l', rt_free p s = Ok tt s' /\ heap_inv s' l' /\ same_area s s' /\ bytes s' = bytes s /\
    used_mem s' = used_mem s - (n + 12) /\ (forall q k, block_at s' l' q k <-> block_at s l q k /\ q <> p).
Proof. apply (rt_free_blocks junk). Qed.

(** C24: A block that is allocated and freed again leaves the heap as it was: the same
    blocks, the same lowest free block, the same count of bytes in use. *)
Theorem malloc_free_roundtrip s l size p s' :
  heap_inv s l -> 0 < size <= 2 ^ 32 - 4 -> rt_malloc junk size s = Ok p s' -> p <> RT_NULL ->
  exists s'', rt_free p s' = Ok tt s'' /\ heap_inv s'' l /\ lfree s'' = lfree s /\
    used_mem s'' = used_mem s /\ bytes s'' = bytes s /\ heap_ptr s'' = heap_ptr s.
Proof. apply malloc_free. Qed.

(** C23: [rt_realloc] of a block in use keeps the data: the result has at least the new size
    and begins with the bytes of the block, up to the smaller of the two sizes, whether
    the block was kept, cut or moved; it takes the place of the old block, and every
    other block stays with its data.  Or it returns NULL and changes nothing. *)
Theorem rt_realloc_correct s l p n newsize :
  heap_inv s l -> block_at s l p n -> 0 <= newsize <= 2 ^ 32 - 4 ->
  exists q s' l', rt_realloc junk p newsize s = Ok q s' /\ heap_inv s' l' /\ same_area s s' /\
    (q = RT_NULL /\ s' = s /\ l' = l \/ moved s s' l l' p n q newsize).
Proof. intros Hi Hb Hn. by apply rt_realloc_blocks. Qed.

(** C6: A program that frees and resizes only blocks it holds, and writes only within them,
    never breaks the heap: at any time the blocks it holds are aligned, lie within the
    memory of the heap and do not overlap, and the next call returns (no assertion
    fails, no search runs on for ever). *)
Theorem heap_safe begin_addr end_addr s live :
  heap_reach junk begin_addr end_addr s live ->
  (forall p n, live !! p = Some n ->
     p mod 4 = 0 /\ begin_addr + 12 <= p /\ p + n + 12 <= end_addr /\ mapped (bytes s) p n) /\
  (forall p n q m, live !! p = Some n -> live !! q = Some m -> p <> q -> p + n <= q \/ q + m <= p) /\
  (forall size, 0 <= size <= 2 ^ 32 - 4 -> exists p s', rt_malloc junk size s = Ok p s') /\
  (forall p n, live !! p = Some n -> exists s', rt_free p s = Ok tt s') /\
  (forall p n newsize, live !! p = Some n -> 0 <= newsize <= 2 ^ 32 - 4 ->
     exists q s', rt_realloc junk p newsize s = Ok q s').
Proof.
  intros (l & Hi & Hh & Hb & He)%heap_reach_inv. split_and!.
  - intros p n Hp. destruct (Hh p n Hp) as (Hn & k & Hk & Hbk). pose proof (block_at_range _ _ _ _ Hi Hbk).
    split_and!; [|lia|lia|intros a Ha; apply (block_mapped _ _ _ _ Hi Hbk); lia].
    destruct (block_at_split _ _ _ _ Hbk) as (l1 & l2 & -> & ->). destruct Hi.
    pose proof hi_sizes0 as [Hs1 _]%Forall_app. pose proof (sizes_ok_mod _ Hs1).
    Z.to_euclidean_division_equations; lia.
  - intros p n q m Hp Hq Hne. destruct (Hh p n Hp) as (_ & k & Hk & Hbk). destruct (Hh q m Hq) as (_ & j & Hj & Hbj).
    destruct (block_at_apart s l p k Hi Hbk q j Hbj); lia.
  - intros size Hsz. destruct (Z.eqb_spec size 0) as [->|Hne]; [by exists RT_NULL, s|].
    destruct (rt_malloc_blocks junk s l size Hi) as (p & s' & l' & Hr & _); [lia|eauto].
  - intros p n Hp. destruct (Hh p n Hp) as (_ & k & _ & Hbk).
    destruct (rt_free_blocks junk s l p k Hi Hbk) as (s' & l' & Hr & _). eauto.
  - intros p n newsize Hp Hsz. destruct (Hh p n Hp) as (_ & k & _ & Hbk).
    destruct (rt_realloc_blocks junk s l p k newsize Hi Hbk Hsz) as (q & s' & l' & Hr & _). eauto.
Qed.

(** A request of one of the three largest sizes wraps to 0 when it is aligned, and is
    then served like a request of one byte: the caller gets a block of 12 bytes. *)
Theorem rt_malloc_size_wraps s size :
  2 ^ 32 - 3 <= size < 2 ^ 32 -> 4 <= mem_size_aligned s -> rt_malloc junk size s = rt_malloc junk 1 s.
Proof.
  intros Hsz Hm. unfold rt_malloc. replace (size =? 0) with false by lia. simpl (1 =? 0). cbn match.
  replace (RT_ALIGN size RT_ALIGN_SIZE) with 0.
  - change (RT_ALIGN 1 RT_ALIGN_SIZE) with 4. unfold mbind, M_bind, get.
    replace (mem_size_aligned s <? 0) with false by lia. replace (mem_size_aligned s <? 4) with false by lia. done.
  - unfold RT_ALIGN, RT_ALIGN_SIZE, uwrap. assert (size = 2 ^ 32 - 3 \/ size = 2 ^ 32 - 2 \/ size = 2 ^ 32 - 1)
      as [->|[->| ->]] by lia; reflexivity.
Qed.

(** On a heap of 4 or 8 bytes of data a small request is raised to 12 bytes after the
    test against the size of the heap; the bound of the search wraps and the search goes
    round the last entry for ever. *)
Theorem rt_malloc_small_heap_loops s fuel :
  mem_size_aligned s = 8 -> heap_end s = heap_ptr s + 20 -> end_ok (hdrs s) (heap_ptr s) 20 ->
  malloc_loop junk fuel (request 4) 20 s = Fault OutOfFuel.
Proof.
  intros Hm He (m & E & Hu & Hn). change (request 4) with 12. induction fuel as [|fuel IH]; [done|]. simpl.
  unfold mbind, M_bind, get, hdr. rewrite Hm. change (20 <? u32 (8 - 12)) with true. cbn match.
  unfold mbind, M_bind, get, opt. rewrite E. unfold mret, M_ret. rewrite Hu, Hn. exact IH.
Qed.

(** [rt_realloc] that cuts a block does not lower [lfree]: when no block was free
    before, the part that is given back is free, but no request is served from it until
    another block is freed. *)
Theorem rt_realloc_hole_not_reused s l p n newsize :
  heap_inv s l -> block_at s l p n -> lfree s = heap_end s -> 0 <= newsize -> RT_ALIGN newsize 4 + 24 < n ->
  newsize < n ->
  exists s' l', rt_realloc junk p newsize s = Ok p s' /\ heap_inv s' l' /\ used_mem s' < used_mem s /\
    forall size, 0 < size <= 2 ^ 32 - 4 -> rt_malloc junk size s' = Ok RT_NULL s'.
Proof.
  intros Hi Hb Hlf Hnew Hroom Hlt. pose proof (block_at_range _ _ _ _ Hi Hb). pose proof Hi as [].
  destruct (RT_ALIGN_bounds newsize) as [Ha Ha4]; [lia..|].
  destruct (block_at_split _ _ _ _ Hb) as (l1 & l2 & -> & ->). set (a := RT_ALIGN newsize 4) in *.
  destruct (rt_realloc_shrink s l1 (n + 12) l2 a Hi ltac:(lia) Ha4 ltac:(lia) junk newsize eq_refl) as (h & Hr & Hi').
  assert (lfree (shrunk s l1 (n + 12) l2 a h) = heap_end s) as Hlf'.
  { simpl. unfold lf_plugged, lf_back. rewrite last_snoc, Hlf. unfold lf_fwd.
    pose proof (hi_total _ _ Hi) as Ht. rewrite total_app in *. simpl in *.
    destruct l2 as [|[m []] l2]; simpl; [done|done|]. simpl in *.
    apply Forall_app in hi_sizes0 as [_ [_ [[? _] Hs2]%Forall_cons]%Forall_cons]. simpl in *.
    apply sizes_ok_total in Hs2. replace (_ =? _) with false by lia. done. }
  do 2 eexists. split_and!; [exact Hr|exact Hi'|simpl; lia|]. intros size Hsz.
  destruct (rt_malloc_spec junk _ _ size Hi' Hsz) as (la & lb & El & Hla & _ & Hm).
  destruct (first_fit _ _ _ lb) as [[[l3 k] l4]|] eqn:Hff; [|exact Hm].
  apply first_fit_Some in Hff as (-> & Hk & Hx & _). rewrite Hlf', hi_end0 in Hla. simpl in *.
  destruct (request_spec size Hsz) as (_ & ? & _). pose proof (hi_sizes _ _ Hi') as Hs. rewrite El in Hs.
  apply Forall_app in Hs as [_ [Hs _]%Forall_app]. apply sizes_ok_total in Hs. lia.
Qed.
End correctness.

(** ** A small heap
    256 bytes from address 4096 on: 232 bytes of data in one block at first. *)
Module HeapDemo.
Definition junk (a : Z) : heap_mem := mk_heap_mem a a a a.
Definition reset : hstate :=
  mk_hstate 0 0 0 0 0 0 0 ∅ (list_to_map ((fun a => (a, 0)) <$> seqZ 4096 256)).
Definition s0 : hstate := run (rt_system_heap_init junk 4096 4352) reset.
Definition l0 : layout := [(244, false)].
(** Two blocks of 100 and 116 bytes fill it. *)
Definition s1 : hstate := run (rt_malloc junk 100) s0.
Definition s2 : hstate := run (rt_malloc junk 116) s1.

Lemma reset_area : heap_area reset 4096 4352.
Proof.
  assert (forall a, 4096 <= a < 4352 -> bytes reset !! a = Some 0) as Hb.
  { intros a Ha. apply elem_of_list_to_map_1.
    - rewrite <- list_fmap_compose. apply NoDup_fmap_2; [by intros ??|apply NoDup_seqZ].
    - apply list_elem_of_fmap. exists a. split; [done|]. apply elem_of_seqZ. lia. }
  split; [done|done|lia| |].
  - intros a Ha. exists 0. apply Hb. lia.
  - intros a b E. apply elem_of_list_to_map_2, list_elem_of_fmap in E as (x & [= -> ->] & _). lia.
Defined.

Lemma s0_init : rt_system_heap_init junk 4096 4352 reset = Ok tt s0.
Proof. apply run_result. vm_compute. reflexivity. Defined.

Lemma s0_inv : heap_inv s0 l0.
Proof.
  destruct (rt_system_heap_init_inv junk reset 4096 4352 reset_area) as (s & E & Hi & _).
  rewrite s0_init in E. apply Ok_inj in E as [_ <-]. exact Hi.
Defined.

(** The blocks that were allocated *)
Lemma s1_blocks : exists l, heap_inv s1 l /\ exists n, 100 <= n /\ block_at s1 l 4108 n.
Proof.
  destruct (rt_malloc_blocks junk s0 l0 100 s0_inv) as (p & s' & l' & E & Hi & _ & _ & Hc); [lia|].
  rewrite (run_result (rt_malloc junk 100) s0 4108) in E by (vm_compute; reflexivity).
  apply Ok_inj in E as [<- <-].
  exists l'. split; [exact Hi|]. destruct Hc as [[? _]|(n & Hn & _ & Hb & _)]; [done|].
  exists n. split; [lia|]. apply Hb. auto.
Defined.

Lemma s2_blocks : exists l, heap_inv s2 l /\ exists n, 100 <= n /\ block_at s2 l 4108 n.
Proof.
  destruct s1_blocks as (l & Hl & n & Hn & Hbn).
  destruct (rt_malloc_blocks junk s1 l 116 Hl) as (p & s' & l' & E & Hi & _ & _ & Hc); [lia|].
  rewrite (run_result (rt_malloc junk 116) s1 4220) in E by (vm_compute; reflexivity).
  apply Ok_inj in E as [<- <-].
  exists l'. split; [exact Hi|]. destruct Hc as [[? _]|(k & Hk & _ & Hb & _)]; [done|].
  exists n. split; [lia|]. apply Hb. auto.
Defined.

Lemma rt_malloc_correct_witness :
  exists p s' l', rt_malloc junk 100 s0 = Ok p s' /\ heap_inv s' l' /\ same_area s0 s' /\ bytes s' = bytes s0 /\
    (p = RT_NULL /\ s' = s0 /\ l' = l0 /\
     (forall l1 n l2, l0 = l1 ++ (n, false) :: l2 -> lfree s0 <= heap_ptr s0 + total l1 ->
        request 100 + 12 <= n -> n = request 100 + 12 /\ l2 = []) \/
     exists n, 100 <= n /\ p mod 4 = 0 /\
       (forall q k, block_at s' l' q k <-> block_at s0 l0 q k \/ q = p /\ k = n) /\
       (forall q k, block_at s0 l0 q k -> q + k <= p - 12 \/ p + n <= q - 12)).
Proof. apply (rt_malloc_correct junk s0 l0 100); [apply s0_inv|lia]. Defined.

Lemma rt_free_correct_witness : exists l n, heap_inv s1 l /\ block_at s1 l 4108 n /\
  exists s' l', rt_free 4108 s1 = Ok tt s' /\ heap_inv s' l' /\ same_area s1 s' /\ bytes s' = bytes s1 /\
    used_mem s' = used_mem s1 - (n + 12) /\ (forall q k, block_at s' l' q k <-> block_at s1 l q k /\ q <> 4108).
Proof.
  destruct s1_blocks as (l & Hl & n & Hn & Hb). exists l, n. split_and!; [done..|].
  by apply (rt_free_correct junk s1 l 4108 n).
Defined.

Lemma malloc_free_roundtrip_witness :
  exists s'', rt_free 4108 s1 = Ok tt s'' /\ heap_inv s'' l0 /\ lfree s'' = lfree s0 /\
    used_mem s'' = used_mem s0 /\ bytes s'' = bytes s0 /\ heap_ptr s'' = heap_ptr s0.
Proof.
  apply (malloc_free_roundtrip junk s0 l0 100 4108 s1); [apply s0_inv|lia| |done].
  unfold s1. apply run_result. vm_compute. reflexivity.
Defined.

Lemma rt_realloc_correct_witness : exists l n, heap_inv s2 l /\ block_at s2 l 4108 n /\
  exists q s' l', rt_realloc junk 4108 20 s2 = Ok q s' /\ heap_inv s' l' /\ same_area s2 s' /\
    (q = RT_NULL /\ s' = s2 /\ l' = l \/ moved s2 s' l l' 4108 n q 20).
Proof.
  destruct s2_blocks as (l & Hl & n & Hn & Hb). exists l, n. split_and!; [done..|].
  apply (rt_realloc_correct junk s2 l 4108 n 20); [done|done|lia].
Defined.

Lemma rt_realloc_hole_not_reused_witness :
  exists s' l', rt_realloc junk 4108 20 s2 = Ok 4108 s' /\ heap_inv s' l' /\ used_mem s' < used_mem s2 /\
    forall size, 0 < size <= 2 ^ 32 - 4 -> rt_malloc junk size s' = Ok RT_NULL s'.
Proof.
  destruct s2_blocks as (l & Hl & n & Hn & Hb).
  apply (rt_realloc_hole_not_reused junk s2 l 4108 n 20); [done|done|vm_compute; reflexivity|lia| |lia].
  change (RT_ALIGN 20 4) with 20. lia.
Defined.

(** Two blocks are allocated, the first is resized and the second freed. *)
Lemma s2_reach : heap_reach junk 4096 4352 s2 {[4108 := 100; 4220 := 116]}.
Proof.
  assert (heap_reach junk 4096 4352 s1 (if decide (4108 = RT_NULL) then ∅ else <[4108 := 100]> ∅)) as R1.
  { eapply (reach_malloc _ _ _ s0 ∅ 100 4108 s1); [eapply reach_init; [apply reset_area|apply s0_init]|lia|].
    unfold s1. apply run_result. vm_compute. reflexivity. }
  assert (heap_reach junk 4096 4352 s2 (if decide (4220 = RT_NULL) then <[4108 := 100]> ∅ else <[4220 := 116]> (<[4108 := 100]> ∅))) as R2.
  { eapply (reach_malloc _ _ _ s1 _ 116 4220 s2); [exact R1|lia|].
    unfold s2. apply run_result. vm_compute. reflexivity. }
  simpl in R2. rewrite insert_insert_ne in R2 by done. exact R2.
Defined.

Definition live3 : gmap Z Z := <[4108 := 20]> (delete 4108 {[4108 := 100; 4220 := 116]}).
Definition s3 : hstate := run (rt_realloc junk 4108 20) s2.

Lemma s3_reach : heap_reach junk 4096 4352 s3 live3.
Proof.
  apply (reach_realloc junk 4096 4352 s2 {[4108 := 100; 4220 := 116]} 4108 100 20 4108 s3); [apply s2_reach|done|lia|].
  unfold s3. apply run_result. vm_compute. reflexivity.
Defined.

Lemma heap_safe_witness :
  (forall p n, live3 !! p = Some n ->
     p mod 4 = 0 /\ 4096 + 12 <= p /\ p + n + 12 <= 4352 /\ mapped (bytes s3) p n) /\
  (forall p n q m, live3 !! p = Some n -> live3 !! q = Some m -> p <> q -> p + n <= q \/ q + m <= p) /\
  (forall size, 0 <= size <= 2 ^ 32 - 4 -> exists p s', rt_malloc junk size s3 = Ok p s') /\
  (forall p n, live3 !! p = Some n -> exists s', rt_free p s3 = Ok tt s') /\
  (forall p n newsize, live3 !! p = Some n -> 0 <= newsize <= 2 ^ 32 - 4 ->
     exists q s', rt_realloc junk p newsize s3 = Ok q s').
Proof. apply (heap_safe junk 4096 4352 s3 live3), s3_reach. Defined.

Lemma rt_malloc_size_wraps_witness : rt_malloc junk (2 ^ 32 - 1) s0 = rt_malloc junk 1 s0.
Proof. apply (rt_malloc_size_wraps junk s0 (2 ^ 32 - 1)); [lia|vm_compute; discriminate]. Defined.

(** A heap with room for 8 bytes *)
Definition tiny : hstate := run (rt_system_heap_init junk 4096 4128) reset.

Lemma rt_malloc_small_heap_loops_witness : malloc_loop junk 1000 (request 4) 20 tiny = Fault OutOfFuel.
Proof.
  apply (rt_malloc_small_heap_loops junk tiny 1000); [vm_compute; reflexivity..|].
  eexists. split_and!; vm_compute; reflexivity.
Defined.
End HeapDemo.
