(* ===== verification/MemHeap.v ===== *)
(** * Memory heap objects (src/memheap.c)

    A memory heap manages one area of memory.  The area is cut into blocks, each headed
    by a [struct rt_memheap_item]; the headers of all blocks form a ring in the order of
    their addresses, which the used block of length 0 at the end of the area closes, and
    the headers of the free blocks form a second ring through [free_header].  As in the
    small memory manager the headers are kept apart from the bytes of the blocks, so the
    programs are those that write within their blocks. *)
From stdpp Require Import base tactics numbers list gmap.
From S2P Require Import Prelude Memory KString.
Local Open Scope Z_scope.

Record rt_memheap_item := mk_item {
  it_magic : Z;
  it_pool_ptr : Z;
  it_next : Z;
  it_prev : Z;
  it_next_free : Z;
  it_prev_free : Z
}.
Definition set_it_magic (v : Z) (i : rt_memheap_item) : rt_memheap_item :=
  mk_item v (it_pool_ptr i) (it_next i) (it_prev i) (it_next_free i) (it_prev_free i).
Definition set_it_pool (v : Z) (i : rt_memheap_item) : rt_memheap_item :=
  mk_item (it_magic i) v (it_next i) (it_prev i) (it_next_free i) (it_prev_free i).
Definition set_it_next (v : Z) (i : rt_memheap_item) : rt_memheap_item :=
  mk_item (it_magic i) (it_pool_ptr i) v (it_prev i) (it_next_free i) (it_prev_free i).
Definition set_it_prev (v : Z) (i : rt_memheap_item) : rt_memheap_item :=
  mk_item (it_magic i) (it_pool_ptr i) (it_next i) v (it_next_free i) (it_prev_free i).
Definition set_it_next_free (v : Z) (i : rt_memheap_item) : rt_memheap_item :=
  mk_item (it_magic i) (it_pool_ptr i) (it_next i) (it_prev i) v (it_prev_free i).
Definition set_it_prev_free (v : Z) (i : rt_memheap_item) : rt_memheap_item :=
  mk_item (it_magic i) (it_pool_ptr i) (it_next i) (it_prev i) (it_next_free i) v.

(** [lock] is the value of the semaphore. *)
Record rt_memheap := mk_memheap {
  mh_start_addr : Z;
  mh_pool_size : Z;
  mh_available_size : Z;
  mh_max_used_size : Z;
  mh_block_list : Z;
  mh_free_list : Z;
  mh_lock : Z
}.
Definition set_mh_available (v : Z) (m : rt_memheap) : rt_memheap :=
  mk_memheap (mh_start_addr m) (mh_pool_size m) v (mh_max_used_size m) (mh_block_list m) (mh_free_list m) (mh_lock m).
Definition set_mh_max_used (v : Z) (m : rt_memheap) : rt_memheap :=
  mk_memheap (mh_start_addr m) (mh_pool_size m) (mh_available_size m) v (mh_block_list m) (mh_free_list m) (mh_lock m).
Definition set_mh_lock (v : Z) (m : rt_memheap) : rt_memheap :=
  mk_memheap (mh_start_addr m) (mh_pool_size m) (mh_available_size m) (mh_max_used_size m) (mh_block_list m) (mh_free_list m) v.

Definition RT_MEMHEAP_MAGIC : Z := 0x1ea01ea0.
Definition RT_MEMHEAP_MASK : Z := 0xfffffffe.
Definition RT_MEMHEAP_USED : Z := 0x01.
Definition RT_MEMHEAP_MINIALLOC : Z := 12.
Definition RT_MEMHEAP_SIZE : Z := 24.

(** The address of [heap->free_header] *)
Definition free_header (heap : Z) : Z := heap + 44.

(** The heap objects, their order in the object container, all headers, and the bytes *)
Record mhstate := mk_mhstate {
  heaps : gmap Z rt_memheap;
  mh_objects : list Z;
  items : gmap Z rt_memheap_item;
  mh_bytes : mem
}.
Definition set_heaps (v : gmap Z rt_memheap) (s : mhstate) : mhstate := mk_mhstate v (mh_objects s) (items s) (mh_bytes s).
Definition set_mh_objects (v : list Z) (s : mhstate) : mhstate := mk_mhstate (heaps s) v (items s) (mh_bytes s).
Definition set_items (v : gmap Z rt_memheap_item) (s : mhstate) : mhstate := mk_mhstate (heaps s) (mh_objects s) v (mh_bytes s).
Definition set_mh_bytes (v : mem) (s : mhstate) : mhstate := mk_mhstate (heaps s) (mh_objects s) (items s) v.

Abbreviation MH := (M mhstate).

Definition get_mh (p : Z) : MH rt_memheap := s ← get; opt BadPointer (heaps s !! p).
Definition upd_mh (p : Z) (f : rt_memheap -> rt_memheap) : MH unit :=
  m ← get_mh p; modify (fun s => set_heaps (<[p := f m]> (heaps s)) s).
Definition item (a : Z) : MH rt_memheap_item := s ← get; opt BadPointer (items s !! a).
Definition upd_item (a : Z) (f : rt_memheap_item -> rt_memheap_item) : MH unit :=
  i ← item a; modify (fun s => set_items (<[a := f i]> (items s)) s).
Definition mh_on_bytes {A} (c : M mem A) : MH A :=
  fun s => match c (mh_bytes s) with Ok a b => Ok a (set_mh_bytes b s) | Fault f => Fault f end.

(** [rt_sem_take(&(heap->lock), RT_WAITING_FOREVER)]: free between calls *)
Definition mh_take_lock (heap : Z) : MH unit :=
  m ← get_mh heap; RT_ASSERT (0 <? mh_lock m);; upd_mh heap (set_mh_lock (mh_lock m - 1)).
Definition mh_release_lock (heap : Z) : MH unit := upd_mh heap (fun m => set_mh_lock (mh_lock m + 1) m).

Definition RT_MEMHEAP_IS_USED (a : Z) : MH bool :=
  i ← item a; mret (negb (Z.land (it_magic i) RT_MEMHEAP_USED =? 0)).
Definition MEMITEM_SIZE (a : Z) : MH Z := i ← item a; mret (u32 (it_next i - a - RT_MEMHEAP_SIZE)).

(** [p] becomes the first block of the free list. *)
Definition insert_free (heap p : Z) : MH unit :=
  m ← get_mh heap;
  l ← item (mh_free_list m); upd_item p (set_it_next_free (it_next_free l));;
  upd_item p (set_it_prev_free (mh_free_list m));;
  l ← item (mh_free_list m); upd_item (it_next_free l) (set_it_prev_free p);;
  upd_item (mh_free_list m) (set_it_next_free p).

(** [p->next_free->prev_free = p->prev_free; p->prev_free->next_free = p->next_free] *)
Definition unlink_free (p : Z) : MH unit :=
  i ← item p; upd_item (it_next_free i) (set_it_prev_free (it_prev_free i));;
  i ← item p; upd_item (it_prev_free i) (set_it_next_free (it_next_free i)).

(** [heap->available_size -= n] and the high water mark *)
Definition count_available (heap n : Z) : MH unit :=
  upd_mh heap (fun m => set_mh_available (u32 (mh_available_size m - n)) m);;
  upd_mh heap (fun m =>
    if mh_max_used_size m <? u32 (mh_pool_size m - mh_available_size m)
    then set_mh_max_used (u32 (mh_pool_size m - mh_available_size m)) m else m).

Section memheap.
(** What memory happens to hold where a header is written for the first time *)
Context (junk : Z -> rt_memheap_item).

Definition new_item (a : Z) (f : rt_memheap_item -> rt_memheap_item) : MH unit :=
  modify (fun s => set_items (<[a := f (default (junk a) (items s !! a))]> (items s)) s).

(** A free block with header [new] is cut off block [header]: the header is set up and
    linked behind [header]. *)
Definition insert_block (heap header new : Z) : MH unit :=
  new_item new (set_it_magic RT_MEMHEAP_MAGIC);;
  upd_item new (set_it_pool heap);;
  upd_item new (set_it_prev header);;
  h ← item header; upd_item new (set_it_next (it_next h));;
  h ← item header; upd_item (it_next h) (set_it_prev new);;
  upd_item header (set_it_next new).

(** [rt_object_init] links the object in front of its container. *)
Definition rt_memheap_init (memheap start_addr size : Z) : MH Z :=
  RT_ASSERT (negb (memheap =? RT_NULL));;
  modify (fun s => set_mh_objects (memheap :: mh_objects s) s);;
  let pool_size := RT_ALIGN_DOWN size 4 in
  let available_size := u32 (pool_size - 2 * RT_MEMHEAP_SIZE) in
  let free_list := free_header memheap in
  modify (fun s => set_heaps (<[memheap :=
    mk_memheap start_addr pool_size available_size (u32 (pool_size - available_size)) start_addr free_list 0]> (heaps s)) s);;
  new_item free_list (fun _ => mk_item RT_MEMHEAP_MAGIC memheap RT_NULL RT_NULL free_list free_list);;
  new_item start_addr (fun _ => mk_item RT_MEMHEAP_MAGIC memheap RT_NULL RT_NULL start_addr start_addr);;
  upd_item start_addr (set_it_next (u32 (start_addr + available_size + RT_MEMHEAP_SIZE)));;
  i ← item start_addr; upd_item start_addr (set_it_prev (it_next i));;
  insert_free memheap start_addr;;
  i ← item start_addr;
  new_item (it_next i) (fun _ =>
    mk_item (Z.lor RT_MEMHEAP_MAGIC RT_MEMHEAP_USED) memheap start_addr start_addr RT_NULL RT_NULL);;
  upd_mh memheap (set_mh_lock 1);;
  mret RT_EOK.

Definition rt_memheap_detach (heap : Z) : MH Z :=
  RT_ASSERT (negb (heap =? RT_NULL));;
  modify (fun s => set_mh_objects (list_del heap (mh_objects s)) s);;
  mret RT_EOK.

(** The requested size: aligned and at least RT_MEMHEAP_MINIALLOC *)
Definition mh_request (size : Z) : Z :=
  let size := RT_ALIGN size 4 in if size <? RT_MEMHEAP_MINIALLOC then RT_MEMHEAP_MINIALLOC else size.

(** The search of the free list: the block where it stopped and the size it saw last *)
Definition find_free (free_list size : Z) : MH (Z * Z) :=
  l ← item free_list;
  s ← get;
  while (S (base.size (items s)))
    (fun '(header_ptr, free_size) => mret (negb (header_ptr =? free_list) && (free_size <? size)))
    (fun '(header_ptr, _) =>
      free_size ← MEMITEM_SIZE header_ptr;
      if free_size <? size then i ← item header_ptr; mret (it_next_free i, free_size)
      else mret (header_ptr, free_size)) (it_next_free l, 0).

(** The block that was found is cut or taken whole. *)
Definition take_block (heap header_ptr free_size size : Z) : MH Z :=
  (if u32 (size + RT_MEMHEAP_SIZE + RT_MEMHEAP_MINIALLOC) <=? free_size then
     let new_ptr := header_ptr + size + RT_MEMHEAP_SIZE in
     insert_block heap header_ptr new_ptr;;
     unlink_free header_ptr;;
     upd_item header_ptr (set_it_next_free RT_NULL);;
     upd_item header_ptr (set_it_prev_free RT_NULL);;
     insert_free heap new_ptr;;
     count_available heap (u32 (size + RT_MEMHEAP_SIZE))
   else
     count_available heap free_size;;
     unlink_free header_ptr;;
     upd_item header_ptr (set_it_next_free RT_NULL);;
     upd_item header_ptr (set_it_prev_free RT_NULL));;
  upd_item header_ptr (fun i => set_it_magic (Z.lor (it_magic i) RT_MEMHEAP_USED) i);;
  mh_release_lock heap;;
  mret (header_ptr + RT_MEMHEAP_SIZE).

Definition rt_memheap_alloc (heap size : Z) : MH Z :=
  RT_ASSERT (negb (heap =? RT_NULL));;
  let size := mh_request size in
  m ← get_mh heap;
  if size <? mh_available_size m then
    mh_take_lock heap;;
    '(header_ptr, free_size) ← find_free (mh_free_list m) size;
    if size <=? free_size then take_block heap header_ptr free_size size
    else mh_release_lock heap;; mret RT_NULL
  else mret RT_NULL.

(** The block is merged with a free block on its left: its header goes, and the block on
    the left is the one to go on with. *)
Definition merge_left (heap header_ptr : Z) : MH (Z * bool) :=
  i ← item header_ptr;
  used ← RT_MEMHEAP_IS_USED (it_prev i);
  if negb used then
    upd_mh heap (fun m => set_mh_available (u32 (mh_available_size m + RT_MEMHEAP_SIZE)) m);;
    i ← item header_ptr; upd_item (it_prev i) (set_it_next (it_next i));;
    i ← item header_ptr; upd_item (it_next i) (set_it_prev (it_prev i));;
    i ← item header_ptr;
    mret (it_prev i, false)
  else mret (header_ptr, true).

(** A free block on the right is merged into [header_ptr]. *)
Definition merge_right (heap header_ptr : Z) : MH unit :=
  i ← item header_ptr;
  used ← RT_MEMHEAP_IS_USED (it_next i);
  when (negb used) (
    upd_mh heap (fun m => set_mh_available (u32 (mh_available_size m + RT_MEMHEAP_SIZE)) m);;
    i ← item header_ptr;
    let new_ptr := it_next i in
    n ← item new_ptr; upd_item (it_next n) (set_it_prev header_ptr);;
    n ← item new_ptr; upd_item header_ptr (set_it_next (it_next n));;
    unlink_free new_ptr).

Definition rt_memheap_free (ptr : Z) : MH unit :=
  if ptr =? RT_NULL then mret tt
  else
    let header_ptr := ptr - RT_MEMHEAP_SIZE in
    i ← item header_ptr;
    RT_ASSERT (Z.land (it_magic i) RT_MEMHEAP_MASK =? RT_MEMHEAP_MAGIC);;
    RT_ASSERT (negb (Z.land (it_magic i) RT_MEMHEAP_USED =? 0));;
    n ← item (it_next i);
    RT_ASSERT (Z.land (it_magic n) RT_MEMHEAP_MASK =? RT_MEMHEAP_MAGIC);;
    let heap := it_pool_ptr i in
    mh_take_lock heap;;
    upd_item header_ptr (fun i => set_it_magic (Z.land (it_magic i) (Z.lnot RT_MEMHEAP_USED)) i);;
    size ← MEMITEM_SIZE header_ptr;
    upd_mh heap (fun m => set_mh_available (u32 (mh_available_size m + size)) m);;
    '(header_ptr, insert_header) ← merge_left heap header_ptr;
    merge_right heap header_ptr;;
    when insert_header (insert_free heap header_ptr);;
    mh_release_lock heap.

(** The part of the free block behind [header_ptr] that the longer block needs is taken
    from it: its header moves to the right. *)
Definition expand_block (heap ptr header_ptr next_ptr oldsize newsize : Z) : MH unit :=
  count_available heap (u32 (newsize - oldsize));;
  unlink_free next_ptr;;
  i ← item next_ptr; upd_item (it_next i) (set_it_prev (it_prev i));;
  i ← item next_ptr; upd_item (it_prev i) (set_it_next (it_next i));;
  let next_ptr := ptr + newsize in
  insert_block heap header_ptr next_ptr;;
  insert_free heap next_ptr.

(** A free block behind the new block [new_ptr] is merged into it. *)
Definition join_next (heap new_ptr : Z) : MH unit :=
  i ← item new_ptr;
  used ← RT_MEMHEAP_IS_USED (it_next i);
  when (negb used) (
    i ← item new_ptr;
    let free_ptr := it_next i in
    size ← MEMITEM_SIZE free_ptr;
    upd_mh heap (fun m => set_mh_available (u32 (mh_available_size m - size)) m);;
    f ← item free_ptr; upd_item (it_next f) (set_it_prev new_ptr);;
    f ← item free_ptr; upd_item new_ptr (set_it_next (it_next f));;
    unlink_free free_ptr).

(** The rest of a block that becomes shorter is made a free block. *)
Definition shrink_block (heap header_ptr newsize : Z) : MH unit :=
  let new_ptr := header_ptr + newsize + RT_MEMHEAP_SIZE in
  insert_block heap header_ptr new_ptr;;
  join_next heap new_ptr;;
  insert_free heap new_ptr;;
  size ← MEMITEM_SIZE new_ptr;
  upd_mh heap (fun m => set_mh_available (u32 (mh_available_size m + size)) m).

Definition rt_memheap_realloc (heap ptr newsize : Z) : MH Z :=
  if newsize =? 0 then rt_memheap_free ptr;; mret RT_NULL
  else
    let newsize := mh_request newsize in
    if ptr =? RT_NULL then rt_memheap_alloc heap newsize
    else
      let header_ptr := ptr - RT_MEMHEAP_SIZE in
      oldsize ← MEMITEM_SIZE header_ptr;
      if oldsize <? newsize then
        mh_take_lock heap;;
        i ← item header_ptr;
        let next_ptr := it_next i in
        RT_ASSERT (header_ptr <? next_ptr);;
        used ← RT_MEMHEAP_IS_USED next_ptr;
        fits ← (if negb used then
                  nextsize ← MEMITEM_SIZE next_ptr;
                  RT_ASSERT (0 <? next_ptr);;
                  mret (u32 (newsize + RT_MEMHEAP_MINIALLOC) <? u32 (nextsize + oldsize))
                else mret false);
        if (fits : bool) then
          expand_block heap ptr header_ptr next_ptr oldsize newsize;;
          mh_release_lock heap;;
          mret ptr
        else
          mh_release_lock heap;;
          new_ptr ← rt_memheap_alloc heap newsize;
          when (negb (new_ptr =? RT_NULL)) (
            mh_on_bytes (rt_memcpy new_ptr ptr (if oldsize <? newsize then oldsize else newsize));;
            rt_memheap_free ptr);;
          mret new_ptr
      else if oldsize <=? u32 (newsize + RT_MEMHEAP_SIZE + RT_MEMHEAP_MINIALLOC) then mret ptr
      else
        mh_take_lock heap;;
        shrink_block heap header_ptr newsize;;
        mh_release_lock heap;;
        mret ptr.

(** ** The memory heap as the system heap (RT_USING_MEMHEAP_AS_HEAP)

    [system] is the address of the static heap object [_heap].  The functions are called
    rt_system_heap_init, rt_malloc, rt_free, rt_realloc and rt_calloc in the source. *)

Context (system : Z).

Definition mh_system_heap_init (begin_addr end_addr : Z) : MH unit :=
  rt_memheap_init system begin_addr (u32 (end_addr - begin_addr));; mret tt.

(** The loop over the other heaps *)
Fixpoint alloc_others (l : list Z) (size : Z) : MH Z :=
  match l with
  | [] => mret RT_NULL
  | heap :: l' =>
      if heap =? system then alloc_others l' size
      else
        ptr ← rt_memheap_alloc heap size;
        if negb (ptr =? RT_NULL) then mret ptr else alloc_others l' size
  end.

Definition mh_malloc (size : Z) : MH Z :=
  ptr ← rt_memheap_alloc system size;
  if ptr =? RT_NULL then l ← gets mh_objects; alloc_others l size else mret ptr.

Definition mh_free (rmem : Z) : MH unit := rt_memheap_free rmem.

Definition mh_realloc (rmem newsize : Z) : MH Z :=
  if rmem =? RT_NULL then mh_malloc newsize
  else
    let header_ptr := rmem - RT_MEMHEAP_SIZE in
    i ← item header_ptr;
    new_ptr ← rt_memheap_realloc (it_pool_ptr i) rmem newsize;
    if (new_ptr =? RT_NULL) && negb (newsize =? 0) then
      new_ptr ← mh_malloc newsize;
      when (negb (new_ptr =? RT_NULL) && negb (rmem =? RT_NULL)) (
        oldsize ← MEMITEM_SIZE header_ptr;
        mh_on_bytes (rt_memcpy new_ptr rmem (if oldsize <? newsize then oldsize else newsize));; mret tt);;
      mret new_ptr
    else mret new_ptr.

Definition mh_calloc (count size : Z) : MH Z :=
  let total_size := u32 (count * size) in
  ptr ← mh_malloc total_size;
  when (negb (ptr =? RT_NULL)) (mh_on_bytes (rt_memset ptr 0 total_size);; mret tt);;
  mret ptr.

End memheap.
