(* ===== verification/MemHeapLayout.v ===== *)
(** * The headers of a memory heap and the sequence of its blocks

    The headers of all blocks and those of the free blocks form two doubly linked rings.
    A layout lists the blocks of the area in order with their sizes (header included) and
    whether they are in use; [mh_inv] relates the state of a heap to its layout and to the
    order of its free list. *)
From stdpp Require Import base tactics numbers list gmap.
From S2P Require Import Prelude RtList Memory KString MemHeap.
Local Open Scope Z_scope.

(** ** Rings of pointers *)

Section ring.
Implicit Types (f g : Z -> option Z) (h n : Z) (xs ys : list Z).

(** [f] leads from [h] through [xs] back to [h], [g] the other way round. *)
Record linked_ring f g h xs : Prop := {
  lr_next : nchain f h xs h;
  lr_prev : nchain g h (reverse xs) h;
  lr_nodup : NoDup (h :: xs)
}.

Lemma lr_ext f g f' g' h xs :
  (forall x, x ∈ h :: xs -> f' x = f x /\ g' x = g x) -> linked_ring f g h xs -> linked_ring f' g' h xs.
Proof.
  intros Hx [Hf Hg Hn]. split; [| |done].
  - eapply nchain_ext; [|done]. intros x Hin. symmetry. by apply Hx.
  - eapply nchain_ext; [|done]. intros x Hin. symmetry. apply Hx. set_solver.
Qed.

Lemma nchain_adj f h xs ys : nchain f h (xs ++ ys) h -> f (lst h xs) = Some (hd h ys).
Proof.
  destruct ys as [|y ys]; [rewrite app_nil_r; apply nchain_lst|].
  intros [Hc _]%nchain_app. by apply nchain_lst in Hc.
Qed.

Lemma lr_adj f g h xs ys :
  linked_ring f g h (xs ++ ys) -> f (lst h xs) = Some (hd h ys) /\ g (hd h ys) = Some (lst h xs).
Proof.
  intros [Hf Hg _]. split; [by apply nchain_adj|].
  rewrite reverse_app in Hg. apply nchain_adj in Hg. by rewrite lst_rev, hd_rev in Hg.
Qed.

Lemma lr_insert f g h xs ys n :
  linked_ring f g h (xs ++ ys) -> n ∉ h :: xs ++ ys ->
  linked_ring (upd (upd f (lst h xs) n) n (hd h ys)) (upd (upd g (hd h ys) n) n (lst h xs)) h (xs ++ n :: ys).
Proof.
  intros [Hf Hg Hn] Hnin. split.
  - by apply nchain_insert.
  - rewrite reverse_app, reverse_cons, <- app_assoc. simpl.
    rewrite <- (lst_rev h ys), <- (hd_rev h xs). apply nchain_insert.
    + rewrite <- reverse_app. by rewrite reverse_Permutation.
    + rewrite <- reverse_app. by rewrite elem_of_cons, elem_of_reverse, <- elem_of_cons.
    + by rewrite <- reverse_app.
  - rewrite <- Permutation_middle, Permutation_swap. by apply NoDup_cons.
Qed.

Lemma nchain_upd_self f h xs n b : nchain (upd f n b) h xs h -> n ∉ h :: xs -> nchain f h xs h.
Proof. intros Hc Hn. eapply nchain_ext; [|done]. intros x Hx. apply upd_ne. set_solver. Qed.

Lemma lr_delete f g h xs ys n :
  linked_ring f g h (xs ++ n :: ys) ->
  linked_ring (upd f (lst h xs) (hd h ys)) (upd g (hd h ys) (lst h xs)) h (xs ++ ys).
Proof.
  intros [Hf Hg Hn].
  assert (n ∉ h :: xs ++ ys) as Hnin.
  { rewrite <- Permutation_middle in Hn. rewrite Permutation_swap in Hn. by apply NoDup_cons in Hn as [? _]. }
  split.
  - apply nchain_delete in Hf; [|done]. by eapply nchain_upd_self.
  - rewrite reverse_app, reverse_cons, <- app_assoc in Hg. simpl in Hg. apply nchain_delete in Hg.
    + rewrite reverse_app, <- (lst_rev h ys), <- (hd_rev h xs). eapply nchain_upd_self; [exact Hg|].
      rewrite <- reverse_app. by rewrite elem_of_cons, elem_of_reverse, <- elem_of_cons.
    + rewrite <- Permutation_middle, <- reverse_app, reverse_Permutation. by rewrite <- Permutation_middle in Hn.
  - rewrite <- Permutation_middle, Permutation_swap in Hn. by apply NoDup_cons in Hn as [_ ?].
Qed.

(** An element and its neighbours *)
Lemma lr_mid f g h xs ys n :
  linked_ring f g h (xs ++ n :: ys) ->
  f n = Some (hd h ys) /\ g n = Some (lst h xs) /\ f (lst h xs) = Some n /\ g (hd h ys) = Some n /\
  n <> lst h xs /\ n <> hd h ys.
Proof.
  intros Hr. destruct (lr_adj f g h xs (n :: ys) Hr) as [H1 H2].
  pose proof (lr_adj f g h (xs ++ [n]) ys) as H3. rewrite <- app_assoc in H3. destruct (H3 Hr) as [H4 H5].
  rewrite lst_app in H4, H5. simpl in *. split_and!; try done.
  all: pose proof (lr_nodup _ _ _ _ Hr) as Hnd; rewrite <- Permutation_middle, Permutation_swap in Hnd;
    apply NoDup_cons in Hnd as [Hnd _]; intros ->; apply Hnd.
  - pose proof (lst_elem h xs). set_solver.
  - pose proof (hd_elem h ys). set_solver.
Qed.
End ring.

(** ** Fields of the headers *)

Abbreviation headers := (gmap Z rt_memheap_item).

Definition field (g : rt_memheap_item -> Z) (h : headers) : Z -> option Z := fun a => g <$> h !! a.

Lemma field_Some g h a v : field g h a = Some v -> exists i, h !! a = Some i /\ g i = v.
Proof. unfold field. intros (i & E & ->)%fmap_Some. eauto. Qed.

Lemma field_is_Some g h a v : field g h a = Some v -> is_Some (h !! a).
Proof. intros (i & E & _)%field_Some. eauto. Qed.

Lemma field_alter_same g f a h x : (forall i, g (f i) = g i) -> field g (alter f a h) x = field g h x.
Proof.
  intros Hg. unfold field. destruct (decide (x = a)) as [->|Hne]; [|by rewrite lookup_alter_ne].
  rewrite lookup_alter_eq. destruct (h !! a); simpl; [by rewrite Hg|done].
Qed.

Lemma field_alter_set g f v a h x :
  is_Some (h !! a) -> (forall i, g (f i) = v) -> field g (alter f a h) x = if decide (x = a) then Some v else field g h x.
Proof.
  intros [i Hi] Hg. unfold field. case_decide as E; [|by rewrite lookup_alter_ne].
  subst x. rewrite lookup_alter_eq, Hi. simpl. by rewrite Hg.
Qed.

Lemma alter_is_Some f a (h : headers) x : is_Some (alter f a h !! x) <-> is_Some (h !! x).
Proof.
  destruct (decide (x = a)) as [->|Hne]; [|by rewrite lookup_alter_ne].
  rewrite lookup_alter_eq. by rewrite fmap_is_Some.
Qed.

(** Computes a field of updated headers. *)
Ltac fields :=
  repeat match goal with
    | |- context [field ?g (alter ?f ?a ?h) ?x] => rewrite (field_alter_same g f a h x) by done
    | |- context [field ?g (alter (?f ?v) ?a ?h) ?x] =>
        rewrite (field_alter_set g (f v) v a h x) by (rewrite ?alter_is_Some; done)
    end.

Lemma wp_item s a i (Q : rt_memheap_item -> mhstate -> Prop) : items s !! a = Some i -> Q i s -> wp (item a) Q s.
Proof. intros E HQ. unfold item. do 2 wp_step. by eapply wp_opt. Qed.

Lemma wp_field g s a v (Q : rt_memheap_item -> mhstate -> Prop) :
  field g (items s) a = Some v -> (forall i, items s !! a = Some i -> g i = v -> Q i s) -> wp (item a) Q s.
Proof. intros (i & E & Hg)%field_Some HQ. eapply wp_item; [done|]. by apply HQ. Qed.

Lemma wp_upd_item s a f (Q : unit -> mhstate -> Prop) :
  is_Some (items s !! a) -> Q tt (set_items (alter f a (items s)) s) -> wp (upd_item a f) Q s.
Proof.
  intros [i E] HQ. unfold upd_item. wp_step. eapply wp_item; [done|]. wp_step.
  replace (<[a := f i]> (items s)) with (alter f a (items s)); [done|].
  apply map_eq. intros x. destruct (decide (x = a)) as [->|]; [|by rewrite lookup_alter_ne, lookup_insert_ne].
  by rewrite lookup_alter_eq, E, lookup_insert_eq.
Qed.

Lemma wp_get_mh s p m (Q : rt_memheap -> mhstate -> Prop) : heaps s !! p = Some m -> Q m s -> wp (get_mh p) Q s.
Proof. intros E HQ. unfold get_mh. do 2 wp_step. by eapply wp_opt. Qed.

Lemma wp_upd_mh s p f m (Q : unit -> mhstate -> Prop) :
  heaps s !! p = Some m -> Q tt (set_heaps (<[p := f m]> (heaps s)) s) -> wp (upd_mh p f) Q s.
Proof. intros E HQ. unfold upd_mh. wp_step. eapply wp_get_mh; [done|]. by wp_step. Qed.

(** ** The operations on the rings *)

(** The fields of the block ring, and those of the free ring, are the same. *)
Definition same_blocks (h h' : headers) : Prop :=
  forall x, field it_next h' x = field it_next h x /\ field it_prev h' x = field it_prev h x /\
    field it_magic h' x = field it_magic h x /\ field it_pool_ptr h' x = field it_pool_ptr h x.
Definition same_free (h h' : headers) : Prop :=
  forall x, field it_next_free h' x = field it_next_free h x /\ field it_prev_free h' x = field it_prev_free h x.

Abbreviation block_ring h := (linked_ring (field it_next h) (field it_prev h)).
Abbreviation free_ring h := (linked_ring (field it_next_free h) (field it_prev_free h)).

Lemma field_same g g' h h' a : field g h' a = field g h a -> is_Some (field g' h' a) <-> is_Some (field g' h a).
Proof. unfold field. intros E. rewrite !fmap_is_Some. destruct (h' !! a), (h !! a); simpl in *; naive_solver. Qed.

Lemma insert_free_spec s p m a fl (Q : unit -> mhstate -> Prop) :
  heaps s !! p = Some m -> free_ring (items s) (mh_free_list m) fl -> is_Some (items s !! a) -> a ∉ mh_free_list m :: fl ->
  (forall h', same_blocks (items s) h' -> free_ring h' (mh_free_list m) (a :: fl) -> Q tt (set_items h' s)) ->
  wp (insert_free p a) Q s.
Proof.
  intros Hm Hr Ha Hna HQ. set (fh := mh_free_list m) in *.
  destruct (lr_adj _ _ _ [] fl Hr) as [Hn Hp]. simpl in Hn, Hp.
  assert (a <> fh) by set_solver. assert (a <> hd fh fl) by (intros ->; apply Hna, hd_elem).
  unfold insert_free. wp_step. eapply wp_get_mh; [done|]. fold fh.
  wp_step. eapply wp_field; [exact Hn|]. intros i _ ->. wp_step. apply wp_upd_item; [done|].
  wp_step. apply wp_upd_item; [simpl; by rewrite alter_is_Some|]. simpl. wp_step.
  eapply (wp_field it_next_free) with (v := hd fh fl); [simpl; fields; by rewrite decide_False|]. simpl. intros j _ ->.
  wp_step. apply wp_upd_item; [simpl; rewrite !alter_is_Some; by eapply field_is_Some|]. simpl.
  apply wp_upd_item; [simpl; rewrite !alter_is_Some; by eapply field_is_Some|]. simpl.
  assert (is_Some (items s !! fh)) by (by eapply field_is_Some).
  assert (is_Some (items s !! hd fh fl)) by (by eapply field_is_Some).
  apply HQ.
  - intros x. split_and!; by fields.
  - eapply lr_ext; [|apply (lr_insert _ _ _ [] fl a Hr Hna)]. intros x _. simpl. unfold upd.
    split; fields; repeat case_decide; congruence.
Qed.

Lemma unlink_free_spec s fh a xs ys (Q : unit -> mhstate -> Prop) :
  free_ring (items s) fh (xs ++ a :: ys) ->
  (forall h', same_blocks (items s) h' -> free_ring h' fh (xs ++ ys) -> Q tt (set_items h' s)) ->
  wp (unlink_free a) Q s.
Proof.
  intros Hr HQ. destruct (lr_mid _ _ _ _ _ _ Hr) as (Hn & Hp & Hna & Hpb & Hne1 & Hne2).
  assert (is_Some (items s !! hd fh ys)) by (by eapply field_is_Some).
  assert (is_Some (items s !! lst fh xs)) by (by eapply field_is_Some).
  unfold unlink_free. wp_step. eapply (wp_field it_next_free); [done|]. intros i Hi Ei.
  assert (it_prev_free i = lst fh xs) as Ep by (unfold field in Hp; rewrite Hi in Hp; by injection Hp).
  wp_step. rewrite Ei, Ep. apply wp_upd_item; [done|]. wp_step.
  eapply wp_item; [simpl; rewrite lookup_alter_ne by done; exact Hi|]. rewrite Ei, Ep.
  apply wp_upd_item; [simpl; by rewrite alter_is_Some|]. simpl. apply HQ.
  - intros x. split_and!; by fields.
  - eapply lr_ext; [|apply (lr_delete _ _ _ xs ys a Hr)]. intros x _. unfold upd. split; by fields.
Qed.

Lemma field_insert_ne g h a i x : x <> a -> field g (<[a := i]> h) x = field g h x.
Proof. intros. unfold field. by rewrite lookup_insert_ne. Qed.

(** [h'] is [h] with a new header at [a]: everything but the block ring at other addresses *)
Record new_header (p a : Z) (h h' : headers) : Prop := {
  nh_magic : field it_magic h' a = Some RT_MEMHEAP_MAGIC;
  nh_pool : field it_pool_ptr h' a = Some p;
  nh_rest : forall x, x <> a -> field it_magic h' x = field it_magic h x /\ field it_pool_ptr h' x = field it_pool_ptr h x /\
    field it_next_free h' x = field it_next_free h x /\ field it_prev_free h' x = field it_prev_free h x
}.

Lemma insert_block_spec junk s p header a e xs ys (Q : unit -> mhstate -> Prop) :
  block_ring (items s) e (xs ++ ys) -> lst e xs = header -> a ∉ e :: xs ++ ys ->
  (forall h', block_ring h' e (xs ++ a :: ys) -> new_header p a (items s) h' -> Q tt (set_items h' s)) ->
  wp (insert_block junk p header a) Q s.
Proof.
  intros Hr Hh Ha HQ. destruct (lr_adj _ _ _ _ _ Hr) as [Hn Hp]. rewrite Hh in *.
  assert (a <> header) by (pose proof (lst_elem e xs); set_solver).
  assert (a <> hd e ys) by (pose proof (hd_elem e ys); set_solver).
  unfold insert_block, new_item. wp_step. wp_step. set (j := set_it_magic _ _). set (h0 := <[a := j]> (items s)).
  assert (forall g x, x <> a -> field g h0 x = field g (items s) x) as Hold by (intros; by apply field_insert_ne).
  assert (is_Some (h0 !! a)) by (unfold h0; rewrite lookup_insert_eq; eauto).
  assert (is_Some (h0 !! header)) by (unfold h0; rewrite lookup_insert_ne by done; by eapply field_is_Some).
  assert (is_Some (h0 !! hd e ys)) by (unfold h0; rewrite lookup_insert_ne by done; by eapply field_is_Some).
  assert (field it_magic h0 a = Some RT_MEMHEAP_MAGIC) as Hmag by (unfold field, h0; by rewrite lookup_insert_eq).
  rewrite <- (Hold it_next header) in Hn by done. clearbody h0. clear j.
  wp_step. apply wp_upd_item; [done|]. wp_step. apply wp_upd_item; [simpl; by rewrite alter_is_Some|]. simpl. wp_step.
  eapply (wp_field it_next) with (v := hd e ys); [simpl; by fields|]. simpl. intros i _ ->.
  wp_step. apply wp_upd_item; [simpl; by rewrite !alter_is_Some|]. simpl. wp_step.
  eapply (wp_field it_next) with (v := hd e ys); [simpl; fields; by rewrite decide_False|]. simpl. intros i' _ ->.
  wp_step. apply wp_upd_item; [simpl; by rewrite !alter_is_Some|]. simpl.
  apply wp_upd_item; [simpl; by rewrite !alter_is_Some|]. simpl.
  apply HQ.
  - eapply lr_ext; [|apply (lr_insert _ _ _ xs ys a Hr Ha)]. rewrite Hh. intros x _. unfold upd.
    split; fields; repeat case_decide; subst; try done; by apply Hold.
  - split.
    + by fields.
    + fields. by rewrite decide_True.
    + intros x Hx. split_and!; fields; rewrite ?decide_False by done; by apply Hold.
Qed.

(** A block is taken out of the ring: its neighbours are linked to each other. *)
Lemma unlink_block_ring h a e xs ys f1 f2 :
  block_ring h e (xs ++ a :: ys) -> (forall x, f1 x = upd (field it_next h) (lst e xs) (hd e ys) x) ->
  (forall x, f2 x = upd (field it_prev h) (hd e ys) (lst e xs) x) -> linked_ring f1 f2 e (xs ++ ys).
Proof. intros Hr H1 H2. eapply lr_ext; [|by apply (lr_delete _ _ _ xs ys a Hr)]. auto. Qed.

(** ** The sequence of blocks *)

(** Size, header included, and whether the block is in use, in the order of the addresses *)
Abbreviation mh_layout := (list (Z * bool)).
Implicit Types (l : mh_layout).

Definition mh_sizes (l : mh_layout) : Prop := Forall (fun b => 36 <= b.1 /\ b.1 mod 4 = 0) l.

Fixpoint mh_total l : Z := match l with [] => 0 | (n, _) :: l' => n + mh_total l' end.

(** The addresses of all headers and of those of the free blocks *)
Fixpoint addrs (a : Z) l : list Z := match l with [] => [] | (n, _) :: l' => a :: addrs (a + n) l' end.
Fixpoint frees (a : Z) l : list Z :=
  match l with
  | [] => []
  | (n, u) :: l' => if u : bool then frees (a + n) l' else a :: frees (a + n) l'
  end.

(** The bytes of the free blocks, without the headers *)
Fixpoint free_bytes l : Z :=
  match l with [] => 0 | (n, u) :: l' => (if u : bool then 0 else n - RT_MEMHEAP_SIZE) + free_bytes l' end.

Definition magic_of (u : bool) : Z := if u then 0x1ea01ea1 else RT_MEMHEAP_MAGIC.

(** The headers have the right magic and belong to the heap. *)
Fixpoint heads (h : headers) (p a : Z) l : Prop :=
  match l with
  | [] => True
  | (n, u) :: l' => field it_magic h a = Some (magic_of u) /\ field it_pool_ptr h a = Some p /\ heads h p (a + n) l'
  end.

(** No two neighbours are free; [b] says whether the block before is in use. *)
Fixpoint coalesced_from (b : bool) l : Prop :=
  match l with [] => True | (_, u) :: l' => b || u = true /\ coalesced_from u l' end.
Definition coalesced l : Prop := coalesced_from true l.

(** Whether the last block is in use *)
Fixpoint last_used (b : bool) l : bool := match l with [] => b | (_, u) :: l' => last_used u l' end.

Lemma mh_coalesced_app b l1 l2 : coalesced_from b (l1 ++ l2) <-> coalesced_from b l1 /\ coalesced_from (last_used b l1) l2.
Proof. revert b. induction l1 as [|[n u] l1 IH]; intros b; simpl; [tauto|]. rewrite IH. tauto. Qed.

Lemma coalesced_weaken l : coalesced_from false l -> coalesced_from true l.
Proof. destruct l as [|[n u] l]; simpl; [done|]. intros [_ ?]. done. Qed.

Lemma mh_total_app l1 l2 : mh_total (l1 ++ l2) = mh_total l1 + mh_total l2.
Proof. induction l1 as [|[n u] l1 IH]; simpl; lia. Qed.
Lemma addrs_app a l1 l2 : addrs a (l1 ++ l2) = addrs a l1 ++ addrs (a + mh_total l1) l2.
Proof. revert a. induction l1 as [|[n u] l1 IH]; intros a; simpl; [by rewrite Z.add_0_r|]. rewrite IH. by rewrite Z.add_assoc. Qed.
Lemma frees_app a l1 l2 : frees a (l1 ++ l2) = frees a l1 ++ frees (a + mh_total l1) l2.
Proof.
  revert a. induction l1 as [|[n u] l1 IH]; intros a; simpl; [by rewrite Z.add_0_r|].
  rewrite IH, Z.add_assoc. by destruct u.
Qed.
Lemma free_bytes_app l1 l2 : free_bytes (l1 ++ l2) = free_bytes l1 + free_bytes l2.
Proof. induction l1 as [|[n u] l1 IH]; simpl; lia. Qed.
Lemma heads_app h p a l1 l2 : heads h p a (l1 ++ l2) <-> heads h p a l1 /\ heads h p (a + mh_total l1) l2.
Proof.
  revert a. induction l1 as [|[n u] l1 IH]; intros a; simpl; [rewrite Z.add_0_r; tauto|].
  rewrite IH, Z.add_assoc. tauto.
Qed.

Lemma heads_ext h h' p a l :
  (forall x, x ∈ addrs a l -> field it_magic h' x = field it_magic h x /\ field it_pool_ptr h' x = field it_pool_ptr h x) ->
  heads h p a l -> heads h' p a l.
Proof.
  revert a. induction l as [|[n u] l IH]; intros a Hx; simpl; [done|]. intros (H1 & H2 & H3).
  destruct (Hx a) as [-> ->]; [simpl; set_solver|]. split_and!; [done..|]. apply IH; [|done]. intros x Hin. apply Hx. simpl. set_solver.
Qed.

Lemma mh_sizes_total l : mh_sizes l -> 0 <= mh_total l.
Proof. induction 1 as [|[n u] l [? _] _ IH]; simpl in *; lia. Qed.

Lemma mh_sizes_mod l : mh_sizes l -> mh_total l mod 4 = 0.
Proof.
  induction 1 as [|[n u] l [_ Hm] _ IH]; simpl in *; [done|]. rewrite Z.add_mod, Hm, IH by lia. done.
Qed.

Lemma addrs_range a l x : mh_sizes l -> x ∈ addrs a l -> a <= x /\ x + 36 <= a + mh_total l.
Proof.
  intros Hs. revert a. induction Hs as [|[n u] l [Hn _] Hs IH]; intros a Hx; simpl in *; [set_solver|].
  pose proof (mh_sizes_total l Hs). apply elem_of_cons in Hx as [->|Hx]; [lia|]. destruct (IH _ Hx). lia.
Qed.

Lemma frees_addrs a l : frees a l ⊆ addrs a l.
Proof. revert a. induction l as [|[n u] l IH]; intros a; simpl; [done|]. specialize (IH (a + n)). destruct u; set_solver. Qed.

Lemma frees_sublist a l : frees a l `sublist_of` addrs a l.
Proof.
  revert a. induction l as [|[n u] l IH]; intros a; simpl; [done|]. destruct u; [by apply sublist_cons|by apply sublist_skip].
Qed.

Lemma addrs_hd a l : hd (a + mh_total l) (addrs a l) = a.
Proof. destruct l as [|[n u] l]; simpl; [lia|done]. Qed.

Lemma addrs_nodup a l : mh_sizes l -> NoDup (addrs a l).
Proof.
  intros Hs. revert a. induction Hs as [|[n u] l [Hn _] Hs IH]; intros a; simpl; [constructor|].
  apply NoDup_cons. split; [|done]. intros Hin%addrs_range; [simpl in *; lia|done].
Qed.

(** A free block is a block of the sequence. *)
Lemma frees_split a l x : x ∈ frees a l -> exists l1 n l2, l = l1 ++ (n, false) :: l2 /\ x = a + mh_total l1.
Proof.
  revert a. induction l as [|[n u] l IH]; intros a; simpl; [set_solver|]. intros Hx.
  assert (x = a /\ u = false \/ x ∈ frees (a + n) l) as [[-> ->]|Hx'] by (destruct u; set_solver).
  - exists [], n, l. simpl. split; [done|lia].
  - destruct (IH _ Hx') as (l1 & k & l2 & -> & ->). exists ((n, u) :: l1), k, l2. simpl. split; [done|lia].
Qed.

Lemma mh_sizes_mid l1 n u l2 : mh_sizes (l1 ++ (n, u) :: l2) -> mh_sizes l1 /\ 36 <= n /\ n mod 4 = 0 /\ mh_sizes l2.
Proof. intros [H1 [[H2 H3] H4]%Forall_cons]%Forall_app. done. Qed.

(** The headers of the area that starts at [start] represent the blocks [l] of heap [p]. *)
Record blocks_wf (h : headers) (p start : Z) l : Prop := {
  bw_sizes : mh_sizes l;
  bw_ring : block_ring h (start + mh_total l) (addrs start l);
  bw_heads : heads h p start l;
  bw_tail : field it_magic h (start + mh_total l) = Some (magic_of true)
}.

Lemma bw_same h h' p start l : same_blocks h h' -> blocks_wf h p start l -> blocks_wf h' p start l.
Proof.
  intros Hs [H1 H2 H3 H4]. split; [done| | |].
  - eapply lr_ext; [|done]. intros x _. split; apply Hs.
  - eapply heads_ext; [|done]. intros x _. split; apply Hs.
  - by rewrite (proj1 (proj2 (proj2 (Hs _)))).
Qed.

Section block.
Context (h : headers) (p start : Z) (l1 : mh_layout) (n : Z) (u : bool) (l2 : mh_layout).
Context (Hw : blocks_wf h p start (l1 ++ (n, u) :: l2)).
Let a := start + mh_total l1.
Let e := start + mh_total (l1 ++ (n, u) :: l2).

Lemma addrs_mid : addrs start (l1 ++ (n, u) :: l2) = addrs start l1 ++ a :: addrs (a + n) l2.
Proof. by rewrite addrs_app. Qed.

Lemma mh_end_eq : e = a + n + mh_total l2.
Proof. unfold e, a. rewrite mh_total_app. simpl. lia. Qed.

Lemma bw_sizes_mid : mh_sizes l1 /\ 36 <= n /\ n mod 4 = 0 /\ mh_sizes l2 /\ 0 <= mh_total l1 /\ 0 <= mh_total l2.
Proof.
  destruct (mh_sizes_mid _ _ _ _ (bw_sizes _ _ _ _ Hw)) as (? & ? & ? & ?). split_and!; auto using mh_sizes_total.
Qed.

(** The header of the block *)
Lemma bw_next : field it_next h a = Some (a + n).
Proof.
  pose proof (bw_ring _ _ _ _ Hw) as Hr. rewrite addrs_mid in Hr. destruct (lr_mid _ _ _ _ _ _ Hr) as (E & _).
  fold e in E. by rewrite mh_end_eq, addrs_hd in E.
Qed.

Lemma bw_prev : field it_prev h a = Some (lst e (addrs start l1)).
Proof.
  pose proof (bw_ring _ _ _ _ Hw) as Hr. rewrite addrs_mid in Hr. by destruct (lr_mid _ _ _ _ _ _ Hr) as (_ & E & _).
Qed.

Lemma bw_magic : field it_magic h a = Some (magic_of u) /\ field it_pool_ptr h a = Some p.
Proof. pose proof (bw_heads _ _ _ _ Hw) as Hh. apply heads_app in Hh as [_ (H1 & H2 & _)]. done. Qed.

(** The block behind it, or the end *)
Lemma bw_next_magic :
  field it_magic h (a + n) = Some (match l2 with (_, v) :: _ => magic_of v | [] => magic_of true end).
Proof.
  destruct l2 as [|[k v] l2'] eqn:E.
  - pose proof (bw_tail _ _ _ _ Hw) as Ht. rewrite mh_total_app in Ht. cbn [mh_total] in Ht.
    replace (a + n) with (start + (mh_total l1 + (n + 0))) by (unfold a; lia). exact Ht.
  - pose proof (bw_heads _ _ _ _ Hw) as Hh. apply heads_app in Hh as [_ (_ & _ & H1 & _)]. done.
Qed.

Lemma bw_apart x : x ∈ addrs start l1 \/ x ∈ addrs (a + n) l2 \/ x = e -> x <> a /\ (x < a \/ a + n <= x).
Proof.
  destruct bw_sizes_mid as (H1 & H2 & _ & H4 & H5 & H6). intros [Hx|[Hx| ->]].
  - apply addrs_range in Hx; [|done]. unfold a. lia.
  - apply addrs_range in Hx; [|done]. lia.
  - rewrite mh_end_eq. lia.
Qed.

(** The block is marked used or free. *)
Lemma bw_mark f v :
  (forall i, it_next (f i) = it_next i) -> (forall i, it_prev (f i) = it_prev i) -> (forall i, it_pool_ptr (f i) = it_pool_ptr i) ->
  (forall i, it_magic i = magic_of u -> it_magic (f i) = magic_of v) ->
  blocks_wf (alter f a h) p start (l1 ++ (n, v) :: l2).
Proof.
  intros F1 F2 F3 F4. pose proof (bw_ring _ _ _ _ Hw) as Hr. pose proof (bw_heads _ _ _ _ Hw) as Hh.
  assert (mh_total (l1 ++ (n, v) :: l2) = mh_total (l1 ++ (n, u) :: l2)) as Et by (by rewrite !mh_total_app).
  assert (addrs start (l1 ++ (n, v) :: l2) = addrs start (l1 ++ (n, u) :: l2)) as Ea by (by rewrite !addrs_app).
  assert (forall x, x <> a -> field it_magic (alter f a h) x = field it_magic h x) as Hm.
  { intros x Hx. unfold field. by rewrite lookup_alter_ne. }
  assert (forall x, field it_pool_ptr (alter f a h) x = field it_pool_ptr h x) as Hp by (intros; by apply field_alter_same).
  split.
  - pose proof (bw_sizes _ _ _ _ Hw) as Hs. unfold mh_sizes in *. rewrite Forall_app, Forall_cons in *. done.
  - rewrite Et, Ea. eapply lr_ext; [|done]. intros x _. split; by apply field_alter_same.
  - apply heads_app in Hh as [Hh1 (Hh2 & Hh3 & Hh4)]. apply heads_app. split; [|split_and!].
    + eapply heads_ext; [|done]. intros x Hx. split; [|done]. apply Hm. by apply bw_apart; auto.
    + apply field_Some in Hh2 as (i & Hi & Ei). unfold field. fold a. fold a in Hi. rewrite lookup_alter_eq, Hi. simpl. f_equal. auto.
    + rewrite Hp. done.
    + eapply heads_ext; [|done]. intros x Hx. split; [|done]. apply Hm. by apply bw_apart; auto.
  - rewrite Et, Hm; [apply Hw|]. apply bw_apart. auto.
Qed.

(** The block is cut: a free block with the header [a + k] begins there. *)
Lemma bw_cut junk s k (Q : unit -> mhstate -> Prop) :
  items s = h -> 36 <= k -> k mod 4 = 0 -> 36 <= n - k ->
  (forall h', blocks_wf h' p start (l1 ++ (k, u) :: (n - k, false) :: l2) -> new_header p (a + k) h h' -> Q tt (set_items h' s)) ->
  wp (insert_block junk p a (a + k)) Q s.
Proof.
  intros Hs Hk Hk4 Hnk HQ. destruct bw_sizes_mid as (S1 & S2 & S3 & S4 & S5 & S6).
  pose proof (bw_ring _ _ _ _ Hw) as Hr. rewrite addrs_mid in Hr. fold e in Hr.
  change (a :: addrs (a + n) l2) with ([a] ++ addrs (a + n) l2) in Hr. rewrite app_assoc in Hr.
  assert (a + k ∉ e :: (addrs start l1 ++ [a]) ++ addrs (a + n) l2) as Hnew.
  { intros [Hx|[[Hx|Hx]%elem_of_app|Hx]%elem_of_app]%elem_of_cons.
    - rewrite mh_end_eq in Hx. lia.
    - apply addrs_range in Hx; [|done]. unfold a in Hx. lia.
    - set_solver by lia.
    - apply addrs_range in Hx; [|done]. lia. }
  eapply insert_block_spec; [rewrite Hs; exact Hr|apply lst_app|exact Hnew|].
  intros h' Hr' Hnh. rewrite Hs in Hnh. apply HQ; [|done].
  assert (mh_total (l1 ++ (k, u) :: (n - k, false) :: l2) = mh_total (l1 ++ (n, u) :: l2)) as Et
    by (rewrite !mh_total_app; simpl; lia).
  pose proof Hnh as [N1 N2 N3]. pose proof (bw_heads _ _ _ _ Hw) as Hh. apply heads_app in Hh as [Hh1 (Hh2 & Hh3 & Hh4)].
  split.
  - unfold mh_sizes. rewrite Forall_app, !Forall_cons. simpl. split_and!; try done. rewrite Zminus_mod, S3, Hk4. done.
  - rewrite Et, addrs_app. simpl. fold a. replace (a + k + (n - k)) with (a + n) by lia. by rewrite <- app_assoc in Hr'.
  - apply heads_app. simpl. fold a. replace (a + k + (n - k)) with (a + n) by lia.
    assert (forall x, x < a + k \/ a + n <= x -> field it_magic h' x = field it_magic h x /\ field it_pool_ptr h' x = field it_pool_ptr h x) as Hx.
    { intros x Hx. destruct (N3 x) as (? & ? & _); [lia|done]. }
    fold a in Hh2, Hh3. destruct (Hx a) as [-> ->]; [lia|]. split_and!; try done.
    + eapply heads_ext; [|done]. intros x Hin. apply Hx. destruct (bw_apart x) as [_ Hlt]; [auto|]. lia.
    + eapply heads_ext; [|done]. intros x Hin. apply Hx. right. apply addrs_range in Hin; [lia|done].
  - rewrite Et. fold e. destruct (N3 e) as (-> & _); [rewrite mh_end_eq; lia|]. apply Hw.
Qed.
End block.

(** The block behind is merged into the block at [a]. *)
Lemma bw_merge h h' p start l1 n u k v l2 :
  let a := start + mh_total l1 in
  blocks_wf h p start (l1 ++ (n, u) :: (k, v) :: l2) ->
  (forall x, field it_next h' x = upd (field it_next h) a (a + n + k) x) ->
  (forall x, field it_prev h' x = upd (field it_prev h) (a + n + k) a x) ->
  (forall x, field it_magic h' x = field it_magic h x) -> (forall x, field it_pool_ptr h' x = field it_pool_ptr h x) ->
  blocks_wf h' p start (l1 ++ (n + k, u) :: l2).
Proof.
  intros a Hw F1 F2 F3 F4. destruct (bw_sizes_mid _ _ _ _ _ _ _ Hw) as (S1 & S2 & S3 & S4 & S5 & S6).
  apply Forall_cons in S4 as [[S7 S8] S9]. simpl in S7, S8.
  pose proof (bw_ring _ _ _ _ Hw) as Hr. pose proof (bw_heads _ _ _ _ Hw) as Hh. rewrite addrs_app in Hr. simpl in Hr. fold a in Hr.
  assert (mh_total (l1 ++ (n + k, u) :: l2) = mh_total (l1 ++ (n, u) :: (k, v) :: l2)) as Et
    by (rewrite !mh_total_app; simpl; lia).
  set (e := start + mh_total (l1 ++ (n, u) :: (k, v) :: l2)) in *.
  change (a :: a + n :: ?r) with ([a] ++ a + n :: r) in Hr. rewrite app_assoc in Hr.
  split.
  - unfold mh_sizes. rewrite Forall_app, !Forall_cons. simpl. split_and!; try done; [lia|].
    rewrite Z.add_mod, S3, S8 by lia. done.
  - rewrite Et, addrs_app. simpl. fold a e. replace (a + (n + k)) with (a + n + k) by lia.
    pose proof (unlink_block_ring h (a + n) e (addrs start l1 ++ [a]) (addrs (a + n + k) l2) (field it_next h') (field it_prev h') Hr) as Hd.
    rewrite lst_app in Hd. simpl in Hd.
    assert (hd e (addrs (a + n + k) l2) = a + n + k) as Ehd.
    { rewrite <- (addrs_hd (a + n + k) l2) at 2. f_equal. unfold e, a. rewrite mh_total_app. simpl. lia. }
    rewrite Ehd in Hd. rewrite <- app_assoc in Hd. by apply Hd.
  - apply heads_app in Hh as [Hh1 (Hh2 & Hh3 & _ & _ & Hh4)]. apply heads_app. simpl. rewrite F3, F4. fold a.
    replace (a + (n + k)) with (a + n + k) by lia. fold a in Hh4.
    split_and!; try done; (eapply heads_ext; [|done]; auto).
  - rewrite Et, F3. apply Hw.
Qed.

(** ** The state of a heap *)

(** The block with header [x], its size with the header and its state *)
Definition block_of (start : Z) l (x n : Z) (u : bool) : Prop :=
  exists l1 l2, l = l1 ++ (n, u) :: l2 /\ x = start + mh_total l1.

(** The area of the heap, of [total] bytes and the closing header, and where [free_header] is *)
Record mh_area (p : Z) (m : rt_memheap) (total : Z) : Prop := {
  ma_ptr : p <> RT_NULL;
  ma_start : 0 < mh_start_addr m;
  ma_align : mh_start_addr m mod 4 = 0;
  ma_pool : mh_pool_size m = total + RT_MEMHEAP_SIZE;
  ma_end : mh_start_addr m + mh_pool_size m < 2 ^ 32;
  ma_list : mh_free_list m = free_header p;
  ma_apart : free_header p < mh_start_addr m \/ mh_start_addr m + total < free_header p
}.

Record mh_inv (s : mhstate) (p : Z) (m : rt_memheap) l (fl : list Z) : Prop := {
  mi_heap : heaps s !! p = Some m;
  mi_area : mh_area p m (mh_total l);
  mi_blocks : blocks_wf (items s) p (mh_start_addr m) l;
  mi_free : free_ring (items s) (free_header p) fl;
  mi_perm : fl ≡ₚ frees (mh_start_addr m) l;
  mi_coalesced : coalesced l;
  mi_available : mh_available_size m = free_bytes l;
  mi_max : mh_pool_size m - mh_available_size m <= mh_max_used_size m;
  mi_lock : mh_lock m = 1
}.

Lemma block_of_elem start l x n u : block_of start l x n u -> x ∈ addrs start l.
Proof. intros (l1 & l2 & -> & ->). rewrite addrs_app. simpl. set_solver. Qed.

Lemma free_bytes_bound l : mh_sizes l -> 0 <= free_bytes l <= mh_total l.
Proof. unfold RT_MEMHEAP_SIZE. induction 1 as [|[n u] l [? _] _ IH]; simpl in *; unfold RT_MEMHEAP_SIZE in *; [lia|]. destruct u; lia. Qed.

Lemma ring_length (h : headers) fh fl : free_ring h fh fl -> (length fl < size h)%nat.
Proof.
  intros Hr. change (length (fh :: fl) <= size h)%nat. rewrite <- size_dom. pose proof (lr_nodup _ _ _ _ Hr) as Hnd.
  rewrite <- (size_list_to_set (C := gset Z) _ Hnd). apply subseteq_size.
  intros x. rewrite elem_of_list_to_set. intros Hx. apply elem_of_dom.
  apply list_elem_of_split in Hx as (xs & ys & E). destruct xs as [|y xs]; simpl in E; simplify_eq.
  - destruct (lr_adj _ _ _ [] _ Hr) as [E _]. by eapply field_is_Some.
  - destruct (lr_mid _ _ _ _ _ _ Hr) as (E & _). by eapply field_is_Some.
Qed.

Lemma wp_memitem_size s x n (Q : Z -> mhstate -> Prop) :
  field it_next (items s) x = Some (x + n) -> 24 <= n < 2 ^ 32 -> Q (n - 24) s -> wp (MEMITEM_SIZE x) Q s.
Proof.
  intros Hn Hr HQ. unfold MEMITEM_SIZE, RT_MEMHEAP_SIZE. wp_step. eapply wp_field; [done|]. intros i _ ->. wp_step.
  rewrite uwrap_small by lia. by replace (x + n - x - 24) with (n - 24) by lia.
Qed.
