(* ===== verification/MemHeapCorrect.v ===== *)
(** * Allocating and freeing blocks of a memory heap (rt_memheap_alloc, rt_memheap_free)

    The search of the free list, cutting a block, merging a block with its free neighbours,
    and what both operations do to the blocks in use. *)
From stdpp Require Import base tactics numbers list gmap.
From S2P Require Import Prelude RtList Memory KString MemHeap MemHeapLayout.
Local Open Scope Z_scope.
Implicit Types (l : mh_layout) (h : headers).

(** ** The search for a free block *)

Section search.
Context (s : mhstate) (p start : Z) (l : mh_layout) (fl : list Z) (sz : Z).
Context (Hw : blocks_wf (items s) p start l) (Hr : free_ring (items s) (free_header p) fl) (Hp : fl ≡ₚ frees start l).
Context (Hend : 0 < start) (Hlt : start + mh_total l < 2 ^ 32) (Hsz : 0 < sz).
Context (Hfh : free_header p < start \/ start + mh_total l < free_header p).

Lemma free_block x : x ∈ fl -> exists n, block_of start l x n false.
Proof. rewrite Hp. intros (l1 & n & l2 & -> & ->)%frees_split. by exists n, l1, l2. Qed.

Lemma free_not_header x : x ∈ fl -> x <> free_header p.
Proof.
  rewrite Hp. intros Hx%frees_addrs%addrs_range; [|apply Hw]. intros ->. lia.
Qed.

Lemma block_of_next x n u : block_of start l x n u -> field it_next (items s) x = Some (x + n) /\ 36 <= n <= mh_total l.
Proof.
  intros (l1 & l2 & -> & ->). split; [eapply bw_next; exact Hw|].
  destruct (bw_sizes_mid _ _ _ _ _ _ _ Hw) as (? & ? & ? & ? & ? & ?). rewrite mh_total_app. simpl. lia.
Qed.

(** The first free block that is large enough, in the order of the free list *)
Definition found (r : Z * Z) : Prop :=
  (r.2 < sz /\ forall x n, x ∈ fl -> block_of start l x n false -> n - RT_MEMHEAP_SIZE < sz) \/
  (sz <= r.2 /\ r.1 ∈ fl /\ block_of start l r.1 (r.2 + RT_MEMHEAP_SIZE) false).

Lemma find_free_loop xs ys fs fuel (Q : Z * Z -> mhstate -> Prop) :
  fl = xs ++ ys -> (forall x n, x ∈ xs -> block_of start l x n false -> n - RT_MEMHEAP_SIZE < sz) -> fs < sz ->
  (length ys + 1 < fuel)%nat -> (forall r, found r -> Q r s) ->
  wp (while fuel
    (fun '(header_ptr, free_size) => mret (negb (header_ptr =? free_header p) && (free_size <? sz)))
    (fun '(header_ptr, _) =>
      free_size ← MEMITEM_SIZE header_ptr;
      if free_size <? sz then i ← item header_ptr; mret (it_next_free i, free_size)
      else mret (header_ptr, free_size)) (hd (free_header p) ys, fs)) Q s.
Proof.
  intros E Hxs Hfs Hfuel HQ. revert xs fs fuel E Hxs Hfs Hfuel.
  induction ys as [|y ys IH]; intros xs fs [|fuel] E Hxs Hfs Hfuel; simpl in Hfuel; try lia.
  - simpl. wp_step. wp_step. rewrite Z.eqb_refl. simpl. wp_step. apply HQ. left. split; [done|].
    rewrite app_nil_r in E. subst xs. done.
  - destruct (free_block y) as [n Hy]; [rewrite E; set_solver|]. destruct (block_of_next _ _ _ Hy) as [Hn Hrg].
    cbn [while hd]. wp_step. wp_step. pose proof (free_not_header y) as Hne. rewrite (proj2 (Z.eqb_neq _ _)) by (apply Hne; rewrite E; set_solver).
    rewrite (proj2 (Z.ltb_lt fs sz)) by done. simpl andb. cbv iota. wp_step. wp_step.
    apply wp_memitem_size with n; [done|lia|]. destruct (Z.ltb_spec (n - 24) sz) as [Hlt'|Hge].
    + pose proof Hr as Hr2. rewrite E in Hr2. destruct (lr_mid _ _ _ _ _ _ Hr2) as (Hnf & _).
      wp_step. eapply wp_field; [exact Hnf|]. intros i _ ->. wp_step.
      apply (IH (xs ++ [y])); [by rewrite <- app_assoc| |done|lia].
      intros x k [Hx|Hx]%elem_of_app; [by apply Hxs|]. assert (x = y) as -> by set_solver. intros Hk.
      destruct (block_of_next _ _ _ Hk) as [Hn' _]. unfold RT_MEMHEAP_SIZE. rewrite Hn in Hn'. injection Hn'. lia.
    + wp_step. destruct fuel as [|fuel]; [lia|]. cbn [while]. wp_step. wp_step.
      rewrite (proj2 (Z.ltb_ge (n - 24) sz)) by done. rewrite andb_false_r. wp_step. apply HQ. right. simpl.
      split_and!; [done|rewrite E; set_solver|]. unfold RT_MEMHEAP_SIZE. by replace (n - 24 + 24) with n by lia.
Qed.

Lemma find_free_spec (Q : Z * Z -> mhstate -> Prop) :
  (forall r, found r -> Q r s) -> wp (find_free (free_header p) sz) Q s.
Proof.
  intros HQ. unfold find_free. destruct (lr_adj _ _ _ [] fl Hr) as [Hn _]. simpl in Hn.
  wp_step. eapply wp_field; [exact Hn|]. intros i _ ->. wp_step. wp_step.
  pose proof (ring_length _ _ _ Hr). apply find_free_loop with []; [done|set_solver|done|lia|done].
Qed.
End search.

(** ** States of one heap *)

Definition at_heap (s : mhstate) (p : Z) (m : rt_memheap) (h : headers) : mhstate :=
  mk_mhstate (<[p := m]> (heaps s)) (mh_objects s) h (mh_bytes s).

Lemma at_heap_id s p m : heaps s !! p = Some m -> s = at_heap s p m (items s).
Proof. intros E. unfold at_heap. rewrite insert_id by done. by destruct s. Qed.

Lemma heaps_at s p m h : heaps (at_heap s p m h) !! p = Some m.
Proof. apply lookup_insert_eq. Qed.

Lemma wp_upd_at s p m h f (Q : unit -> mhstate -> Prop) :
  Q tt (at_heap s p (f m) h) -> wp (upd_mh p f) Q (at_heap s p m h).
Proof.
  intros HQ. eapply wp_upd_mh; [apply heaps_at|]. unfold at_heap in *. simpl. by rewrite insert_insert_eq.
Qed.

Lemma wp_lock_at s p m h (Q : unit -> mhstate -> Prop) :
  mh_lock m = 1 -> Q tt (at_heap s p (set_mh_lock 0 m) h) -> wp (mh_take_lock p) Q (at_heap s p m h).
Proof.
  intros Hl HQ. unfold mh_take_lock. wp_step. eapply wp_get_mh; [apply heaps_at|]. wp_step. wp_step; [by rewrite Hl|].
  apply wp_upd_at. by rewrite Hl.
Qed.

Lemma wp_unlock_at s p m h (Q : unit -> mhstate -> Prop) :
  Q tt (at_heap s p (set_mh_lock (mh_lock m + 1) m) h) -> wp (mh_release_lock p) Q (at_heap s p m h).
Proof. intros HQ. by apply wp_upd_at. Qed.

(** [n] bytes are no longer available. *)
Definition counted (n : Z) (m : rt_memheap) : rt_memheap :=
  mk_memheap (mh_start_addr m) (mh_pool_size m) (mh_available_size m - n)
    (Z.max (mh_max_used_size m) (mh_pool_size m - mh_available_size m + n)) (mh_block_list m) (mh_free_list m) (mh_lock m).

Lemma wp_count_at s p m h n (Q : unit -> mhstate -> Prop) :
  0 <= n <= mh_available_size m -> mh_available_size m <= mh_pool_size m < 2 ^ 32 ->
  Q tt (at_heap s p (counted n m) h) -> wp (count_available p n) Q (at_heap s p m h).
Proof.
  intros Hn Hp HQ. unfold count_available. wp_step. apply wp_upd_at. apply wp_upd_at. simpl.
  rewrite (uwrap_small 32 (mh_available_size m - n)) by lia. rewrite uwrap_small by lia.
  replace (if _ <? _ then _ else _) with (counted n m); [done|]. unfold counted.
  destruct (Z.ltb_spec (mh_max_used_size m) (mh_pool_size m - (mh_available_size m - n))).
  - unfold set_mh_max_used, set_mh_available. simpl. f_equal. lia.
  - unfold set_mh_available. simpl. f_equal. lia.
Qed.

(** ** Allocation *)

(** What becomes of a free block of [n] bytes that serves a request for [sz] bytes, and
    how many bytes are no longer available *)
Definition mh_cuts (sz n : Z) : bool := sz + 60 <=? n.
Definition mh_carve (sz n : Z) : mh_layout := if mh_cuts sz n then [(sz + 24, true); (n - (sz + 24), false)] else [(n, true)].
Definition mh_uses (sz n : Z) : Z := if mh_cuts sz n then sz + 24 else n - 24.

Lemma free_ring_ext h h' fh fl : (forall x, x ∈ fh :: fl -> field it_next_free h' x = field it_next_free h x /\ field it_prev_free h' x = field it_prev_free h x) ->
  free_ring h fh fl -> free_ring h' fh fl.
Proof. apply lr_ext. Qed.

(** [h' = h] but for the free links of [a] *)
Lemma clear_free_links h a :
  let h' := alter (set_it_prev_free RT_NULL) a (alter (set_it_next_free RT_NULL) a h) in
  same_blocks h h' /\ forall fh fl, a ∉ fh :: fl -> free_ring h fh fl -> free_ring h' fh fl.
Proof.
  split.
  - intros x. split_and!; by fields.
  - intros fh fl Ha. apply free_ring_ext. intros x Hx. assert (x <> a) by set_solver.
    unfold field. by rewrite !lookup_alter_ne.
Qed.

Lemma magic_used u i : it_magic i = magic_of u -> it_magic (set_it_magic (Z.lor (it_magic i) RT_MEMHEAP_USED) i) = magic_of true.
Proof. simpl. intros ->. by destruct u. Qed.

Lemma magic_freed u i :
  it_magic i = magic_of u -> it_magic (set_it_magic (Z.land (it_magic i) (Z.lnot RT_MEMHEAP_USED)) i) = magic_of false.
Proof. simpl. intros ->. by destruct u. Qed.

(** Marking a block leaves the free ring alone. *)
Lemma mark_same_free h a (f : rt_memheap_item -> Z) fh fl :
  free_ring h fh fl -> free_ring (alter (fun i => set_it_magic (f i) i) a h) fh fl.
Proof. apply free_ring_ext. intros x _. split; by apply field_alter_same. Qed.

Section take.
Context (s : mhstate) (p : Z) (m : rt_memheap) (h : headers) (l1 : mh_layout) (n sz : Z) (l2 : mh_layout) (xs ys : list Z).
Let a := mh_start_addr m + mh_total l1.
Context (Hw : blocks_wf h p (mh_start_addr m) (l1 ++ (n, false) :: l2)).
Context (Har : mh_area p m (mh_total (l1 ++ (n, false) :: l2))).
Context (Hfr : free_ring h (free_header p) (xs ++ a :: ys)).
Context (Hpm : xs ++ a :: ys ≡ₚ frees (mh_start_addr m) (l1 ++ (n, false) :: l2)).
Context (Hsz : 12 <= sz <= n - 24) (Hsz4 : sz mod 4 = 0).
Context (Hav : n - 24 <= mh_available_size m <= mh_pool_size m).

Definition take_frees : list Z := if mh_cuts sz n then a + sz + 24 :: xs ++ ys else xs ++ ys.

Lemma take_rest : xs ++ ys ≡ₚ frees (mh_start_addr m) l1 ++ frees (a + n) l2.
Proof. apply (Permutation_app_inv _ _ _ _ a). by rewrite Hpm, frees_app. Qed.

Lemma take_frees_perm : take_frees ≡ₚ frees (mh_start_addr m) (l1 ++ mh_carve sz n ++ l2).
Proof.
  unfold take_frees, mh_carve. rewrite frees_app. fold a. destruct (mh_cuts sz n); simpl; rewrite take_rest; [|done].
  replace (a + (sz + 24) + (n - (sz + 24))) with (a + n) by lia. replace (a + (sz + 24)) with (a + sz + 24) by lia.
  apply Permutation_middle.
Qed.

(** The block is marked and the lock given back. *)
Lemma take_done k l3 fl m0 h4 (Q : Z -> mhstate -> Prop) :
  blocks_wf h4 p (mh_start_addr m) (l1 ++ (k, false) :: l3) -> free_ring h4 (free_header p) fl ->
  (forall h', blocks_wf h' p (mh_start_addr m) (l1 ++ (k, true) :: l3) -> free_ring h' (free_header p) fl ->
     Q (a + 24) (at_heap s p (set_mh_lock (mh_lock m0 + 1) m0) h')) ->
  wp (upd_item a (fun i => set_it_magic (Z.lor (it_magic i) RT_MEMHEAP_USED) i);; mh_release_lock p;; mret (a + 24)) Q
    (at_heap s p m0 h4).
Proof.
  intros Hw4 Hf4 HQ. wp_step. apply wp_upd_item; [simpl; by eapply field_is_Some, (bw_next _ _ _ _ _ _ _ Hw4)|]. simpl items.
  change (set_items ?x (at_heap s p ?y h4)) with (at_heap s p y x). wp_step. apply wp_unlock_at. wp_step.
  apply HQ; [|by apply mark_same_free].
  eapply (bw_mark _ _ _ _ _ _ _ Hw4); [done..|]. intros i. apply magic_used.
Qed.

Lemma take_not_free : a ∉ free_header p :: xs ++ ys.
Proof.
  pose proof (lr_nodup _ _ _ _ Hfr) as Hnd. rewrite <- Permutation_middle, Permutation_swap in Hnd.
  by apply NoDup_cons in Hnd as [? _].
Qed.

(** The block leaves the free list [h1] and its links are cleared. *)
Lemma take_unlink m0 h1 k u l3 (Q : unit -> mhstate -> Prop) :
  blocks_wf h1 p (mh_start_addr m) (l1 ++ (k, u) :: l3) -> free_ring h1 (free_header p) (xs ++ a :: ys) ->
  (forall h2, same_blocks h1 h2 -> is_Some (h2 !! a) -> is_Some (alter (set_it_next_free RT_NULL) a h2 !! a) ->
     (let h3 := alter (set_it_prev_free RT_NULL) a (alter (set_it_next_free RT_NULL) a h2) in
      same_blocks h1 h3 /\ free_ring h3 (free_header p) (xs ++ ys)) -> Q tt (at_heap s p m0 h2)) ->
  wp (unlink_free a) Q (at_heap s p m0 h1).
Proof.
  intros Hw1 Hf1 HQ. eapply unlink_free_spec; [exact Hf1|]. intros h2 Hb2 Hf2. simpl in Hb2.
  assert (is_Some (h2 !! a)) as Ha2.
  { eapply field_is_Some. rewrite (proj1 (Hb2 a)). eapply (bw_next _ _ _ _ _ _ _ Hw1). }
  destruct (clear_free_links h2 a) as [Hb3 Hf3].
  apply HQ; [done|done|by rewrite alter_is_Some|]. split; [|exact (Hf3 _ _ take_not_free Hf2)].
  intros x. specialize (Hb2 x). specialize (Hb3 x). intuition congruence.
Qed.

(** A header in the block is not on the free list. *)
Lemma take_new_header k : 0 < k < n -> free_header p <> a + k -> a + k ∉ free_header p :: xs ++ a :: ys.
Proof.
  intros Hk Hne. destruct (bw_sizes_mid _ _ _ _ _ _ _ Hw) as (S1 & S2 & S3 & S4 & S5 & S6).
  intros [Hx|Hx]%elem_of_cons; [done|]. rewrite Hpm in Hx. apply frees_addrs in Hx.
  rewrite addrs_app in Hx. simpl in Hx. fold a in Hx. apply elem_of_app in Hx as [Hx|[Hx|Hx]%elem_of_cons]; [|lia|].
  - apply addrs_range in Hx; [|done]. unfold a in Hx. lia.
  - apply addrs_range in Hx; [|done]. lia.
Qed.

Lemma take_cut (Q : unit -> mhstate -> Prop) junk :
  sz + 60 <= n ->
  (forall h', blocks_wf h' p (mh_start_addr m) (l1 ++ (sz + 24, false) :: (n - (sz + 24), false) :: l2) ->
     free_ring h' (free_header p) (a + (sz + 24) :: xs ++ ys) -> Q tt (at_heap s p (counted (sz + 24) m) h')) ->
  wp (insert_block junk p a (a + (sz + 24));; unlink_free a;; upd_item a (set_it_next_free RT_NULL);;
      upd_item a (set_it_prev_free RT_NULL);; insert_free p (a + (sz + 24));; count_available p (u32 (sz + 24))) Q (at_heap s p m h).
Proof.
  intros Hc HQ. pose proof (ma_list _ _ _ Har) as Hfl. pose proof (ma_end _ _ _ Har) as He. pose proof (ma_start _ _ _ Har) as Hst.
  pose proof (ma_pool _ _ _ Har) as Hpl. pose proof (ma_apart _ _ _ Har) as Hap. unfold RT_MEMHEAP_SIZE in Hpl.
  rewrite mh_total_app in Hpl, Hap. simpl in Hpl, Hap. destruct (bw_sizes_mid _ _ _ _ _ _ _ Hw) as (S1 & S2 & S3 & S4 & S5 & S6).
  wp_step. eapply (bw_cut _ _ _ _ _ _ _ Hw); [done|lia|by rewrite Z.add_mod, Hsz4|lia|]. fold a. intros h1 Hw1 [N1 N2 N3].
  assert (a + (sz + 24) ∉ free_header p :: xs ++ a :: ys) as Hnew by (apply take_new_header; unfold a; lia).
  change (set_items h1 (at_heap s p m h)) with (at_heap s p m h1).
  wp_step. eapply take_unlink; [exact Hw1| |].
  { eapply free_ring_ext; [|exact Hfr]. intros x Hx. apply N3. set_solver. }
  intros h2 _ Ha2 Ha3 [Hb3 Hf3]. wp_step. apply wp_upd_item; [done|]. wp_step. apply wp_upd_item; [done|]. simpl items.
  set (h3 := alter (set_it_prev_free _) a _) in *. change (set_items h3 _) with (at_heap s p m h3).
  wp_step. eapply insert_free_spec; [apply heaps_at|rewrite Hfl; exact Hf3| |rewrite Hfl; set_solver|].
  { simpl. apply (field_is_Some it_magic _ _ RT_MEMHEAP_MAGIC). by rewrite (proj1 (proj2 (proj2 (Hb3 _)))). }
  intros h4 Hb4 Hf4. simpl in Hb4, Hf4. change (set_items h4 _) with (at_heap s p m h4). rewrite Hfl in Hf4.
  rewrite uwrap_small by lia. apply wp_count_at; [lia|lia|].
  exact (HQ _ (bw_same _ _ _ _ _ Hb4 (bw_same _ _ _ _ _ Hb3 Hw1)) Hf4).
Qed.

Lemma take_block_spec (Q : Z -> mhstate -> Prop) :
  (forall h', blocks_wf h' p (mh_start_addr m) (l1 ++ mh_carve sz n ++ l2) -> free_ring h' (free_header p) take_frees ->
     let m' := counted (mh_uses sz n) m in Q (a + 24) (at_heap s p (set_mh_lock (mh_lock m' + 1) m') h')) ->
  forall junk, wp (take_block junk p a (n - 24) sz) Q (at_heap s p m h).
Proof.
  intros HQ junk. destruct (bw_sizes_mid _ _ _ _ _ _ _ Hw) as (S1 & S2 & S3 & S4 & S5 & S6).
  pose proof (ma_end _ _ _ Har) as He. pose proof (ma_start _ _ _ Har) as Hst. pose proof (ma_pool _ _ _ Har) as Hpl.
  unfold RT_MEMHEAP_SIZE in Hpl. rewrite mh_total_app in Hpl. simpl in Hpl.
  unfold take_block, RT_MEMHEAP_SIZE, RT_MEMHEAP_MINIALLOC. rewrite (uwrap_small _ (sz + 24 + 12)) by lia.
  revert HQ. unfold mh_carve, mh_uses, take_frees, mh_cuts.
  destruct (Z.leb_spec (sz + 60) n) as [Hc|Hc]; intros HQ.
  - replace (sz + 24 + 12 <=? n - 24) with true by lia. wp_step. cbv zeta.
    replace (a + sz + 24) with (a + (sz + 24)) in HQ |- * by lia.
    apply take_cut; [done|]. intros h' Hw' Hf'. eapply take_done; [exact Hw'|exact Hf'|]. exact HQ.
  - replace (sz + 24 + 12 <=? n - 24) with false by lia. wp_step. wp_step. apply wp_count_at; [lia|lia|].
    wp_step. eapply take_unlink; [exact Hw|exact Hfr|]. intros h2 _ Ha2 Ha3 [Hb3 Hf3].
    wp_step. apply wp_upd_item; [done|]. apply wp_upd_item; [done|]. simpl items.
    change (set_items ?x (at_heap s p ?y ?z)) with (at_heap s p y x).
    eapply take_done; [exact (bw_same _ _ _ _ _ Hb3 Hw)|exact Hf3|]. exact HQ.
Qed.
End take.

Lemma mh_request_range size : 0 <= size <= 2 ^ 32 - 4 -> 12 <= mh_request size < 2 ^ 32 /\ size <= mh_request size /\ mh_request size mod 4 = 0.
Proof.
  intros Hs. unfold mh_request, RT_MEMHEAP_MINIALLOC. rewrite RT_ALIGN_4 by lia.
  pose proof (Z.mod_pos_bound (size + 3) 4 ltac:(lia)).
  assert ((size + 3 - (size + 3) mod 4) mod 4 = 0) by (rewrite Zminus_mod_idemp_r, Z.sub_diag; done).
  destruct (Z.ltb_spec (size + 3 - (size + 3) mod 4) 12); split_and!; (done || lia).
Qed.

Lemma mh_request_upper size : 0 <= size <= 2 ^ 32 - 4 -> mh_request size <= Z.max 12 (size + 3).
Proof.
  intros Hs. unfold mh_request, RT_MEMHEAP_MINIALLOC. rewrite RT_ALIGN_4 by lia.
  pose proof (Z.mod_pos_bound (size + 3) 4 ltac:(lia)). case_match; lia.
Qed.

Lemma mh_carve_total sz n : mh_total (mh_carve sz n) = n.
Proof. unfold mh_carve. destruct (mh_cuts sz n); simpl; lia. Qed.

Lemma carve_free_bytes sz n : free_bytes (mh_carve sz n) = n - 24 - mh_uses sz n.
Proof. unfold mh_carve, mh_uses. destruct (mh_cuts sz n); simpl; unfold RT_MEMHEAP_SIZE; lia. Qed.

Lemma mh_carve_coalesced l1 sz n l2 : coalesced (l1 ++ (n, false) :: l2) -> coalesced (l1 ++ mh_carve sz n ++ l2).
Proof.
  unfold coalesced. rewrite !mh_coalesced_app. simpl. intros (H1 & H2 & H3). split; [done|].
  unfold mh_carve. destruct (mh_cuts sz n); simpl; rewrite orb_true_r; [done|]. split; [done|]. by apply coalesced_weaken.
Qed.

Lemma mh_uses_range sz n : 12 <= sz <= n - 24 -> 0 <= mh_uses sz n <= n - 24.
Proof. unfold mh_uses, mh_cuts. destruct (Z.leb_spec (sz + 60) n); lia. Qed.

(** A heap and the same heap with other counters *)
Lemma mh_area_same p m m' t :
  mh_start_addr m' = mh_start_addr m -> mh_pool_size m' = mh_pool_size m -> mh_free_list m' = mh_free_list m ->
  mh_area p m t -> mh_area p m' t.
Proof. intros E1 E2 E3 []. split; rewrite ?E1, ?E2, ?E3; done. Qed.

Lemma mh_inv_bounds s p m l fl : mh_inv s p m l fl -> 0 <= mh_available_size m <= mh_pool_size m /\ mh_pool_size m < 2 ^ 32.
Proof.
  intros [_ Ha Hw _ _ _ -> _ _]. destruct (free_bytes_bound l (bw_sizes _ _ _ _ Hw)).
  destruct Ha. unfold RT_MEMHEAP_SIZE in *. lia.
Qed.

(** No free block is large enough. *)
Definition mh_full (m : rt_memheap) l (sz : Z) : Prop :=
  mh_available_size m <= sz \/ forall l1 n l2, l = l1 ++ (n, false) :: l2 -> n - 24 < sz.

Lemma free_bytes_mid l1 n l2 : mh_sizes (l1 ++ (n, false) :: l2) -> n - 24 <= free_bytes (l1 ++ (n, false) :: l2).
Proof.
  intros (H1 & H2 & _ & H4)%mh_sizes_mid. rewrite free_bytes_app. simpl. unfold RT_MEMHEAP_SIZE.
  pose proof (free_bytes_bound l1 H1). pose proof (free_bytes_bound l2 H4). lia.
Qed.

Lemma rt_memheap_alloc_spec junk s p m l fl size (Q : Z -> mhstate -> Prop) :
  mh_inv s p m l fl -> 0 <= size <= 2 ^ 32 - 4 -> let sz := mh_request size in
  (mh_full m l sz -> Q RT_NULL s) ->
  (forall l1 n l2 fl' h', l = l1 ++ (n, false) :: l2 -> sz <= n - 24 ->
     let m' := counted (mh_uses sz n) m in
     mh_inv (at_heap s p m' h') p m' (l1 ++ mh_carve sz n ++ l2) fl' ->
     Q (mh_start_addr m + mh_total l1 + 24) (at_heap s p m' h')) ->
  wp (rt_memheap_alloc junk p size) Q s.
Proof.
  intros Hi Hsize sz Hfail Hok. pose proof (mh_request_range size Hsize) as (R1 & R2 & R3). fold sz in R1, R2, R3.
  destruct (mh_inv_bounds _ _ _ _ _ Hi) as [B1 B2]. pose proof Hi as [I1 I2 I3 I4 I5 I6 I7 I8 I9].
  pose proof I2 as [A1 A2 A3 A4 A5 A6 A7]. unfold RT_MEMHEAP_SIZE in A4.
  unfold rt_memheap_alloc. wp_step. wp_step; [apply negb_true_iff, Z.eqb_neq; done|]. cbv zeta. fold sz.
  wp_step. eapply wp_get_mh; [done|]. destruct (Z.ltb_spec sz (mh_available_size m)) as [Hlt|Hge].
  2: { wp_step. apply Hfail. by left. }
  rewrite (at_heap_id s p m I1). wp_step. apply wp_lock_at; [done|]. wp_step. rewrite A6.
  apply (find_free_spec _ p (mh_start_addr m) l fl sz); [done..|lia|lia|done|].
  intros [x fs] Hfound. unfold found in Hfound. simpl in Hfound. destruct Hfound as [[Hs Hf]|(Hs & Hx & (l1 & l2 & -> & ->))].
  - replace (sz <=? fs) with false by lia. wp_step. apply wp_unlock_at. wp_step.
    replace (at_heap s p _ _) with s; [apply Hfail; right|].
    + intros l1 n l2 ->. specialize (Hf (mh_start_addr m + mh_total l1) n). unfold RT_MEMHEAP_SIZE in Hf. apply Hf; [|by exists l1, l2].
      rewrite I5, frees_app. simpl. set_solver.
    + rewrite (at_heap_id s p m I1) at 1. f_equal. rewrite <- I9. by destruct m.
  - unfold RT_MEMHEAP_SIZE in *. set (n := fs + 24) in *. replace fs with (n - 24) by lia.
    replace (sz <=? n - 24) with true by lia. apply list_elem_of_split in Hx as (xs & ys & ->).
    pose proof (free_bytes_mid l1 n l2 (bw_sizes _ _ _ _ I3)) as Hfb. rewrite <- I7 in Hfb.
    eapply (take_block_spec s p (set_mh_lock 0 m) (items s) l1 n sz l2 xs ys); simpl mh_start_addr; [done|by eapply mh_area_same|done|done|lia|done|simpl; lia|].
    intros h' Hw' Hf' m'. pose proof (mh_uses_range sz n ltac:(lia)) as Hu.
    replace (set_mh_lock (mh_lock m' + 1) m') with (counted (mh_uses sz n) m) by (unfold m'; rewrite <- I9; by destruct m).
    eapply Hok; [done|lia|]. split; try done.
    + apply heaps_at.
    + rewrite !mh_total_app, mh_carve_total in *. by eapply mh_area_same.
    + exact (take_frees_perm (set_mh_lock 0 m) l1 n sz l2 xs ys I5).
    + by apply mh_carve_coalesced.
    + simpl. rewrite I7, !free_bytes_app, carve_free_bytes. simpl. unfold RT_MEMHEAP_SIZE. lia.
    + simpl. lia.
Qed.

(** ** Merging of free blocks *)

Definition gained (n : Z) (m : rt_memheap) : rt_memheap := set_mh_available (mh_available_size m + n) m.

Lemma wp_gain_at s p m h n (Q : unit -> mhstate -> Prop) :
  0 <= mh_available_size m + n < 2 ^ 32 -> Q tt (at_heap s p (gained n m) h) ->
  wp (upd_mh p (fun m => set_mh_available (u32 (mh_available_size m + n)) m)) Q (at_heap s p m h).
Proof. intros Hn HQ. apply wp_upd_at. rewrite uwrap_small by done. exact HQ. Qed.

Lemma wp_is_used s a u (Q : bool -> mhstate -> Prop) :
  field it_magic (items s) a = Some (magic_of u) -> Q u s -> wp (RT_MEMHEAP_IS_USED a) Q s.
Proof.
  intros Hm HQ. unfold RT_MEMHEAP_IS_USED. wp_step. eapply wp_field; [done|]. intros i _ ->. wp_step. by destruct u.
Qed.

(** The block before: none, which the closing header stands for, or the last of [l1] *)
Lemma last_case l1 : l1 = [] \/ exists l0 k v, l1 = l0 ++ [(k, v)].
Proof. destruct l1 as [|[k v] l0 _] using rev_ind; [by left|right; eauto]. Qed.

Lemma mh_last_used_snoc b l0 k v : last_used b (l0 ++ [(k, v)]) = v.
Proof. revert b. induction l0 as [|[n u] l0 IH]; intros b; simpl; [done|]. apply IH. Qed.

Lemma bw_prev_magic h p start l1 n u l2 :
  blocks_wf h p start (l1 ++ (n, u) :: l2) ->
  field it_magic h (lst (start + mh_total (l1 ++ (n, u) :: l2)) (addrs start l1)) = Some (magic_of (last_used true l1)).
Proof.
  intros Hw. destruct (last_case l1) as [->|(l0 & k & v & ->)]; [apply Hw|].
  rewrite addrs_app, mh_last_used_snoc. simpl. rewrite lst_app. simpl. rewrite <- app_assoc in Hw. simpl in Hw.
  by destruct (bw_magic _ _ _ _ _ _ _ Hw).
Qed.

Lemma merge_left_used s p m h l1 n u l2 (Q : Z * bool -> mhstate -> Prop) :
  let a := mh_start_addr m + mh_total l1 in
  blocks_wf h p (mh_start_addr m) (l1 ++ (n, u) :: l2) -> last_used true l1 = true ->
  Q (a, true) (at_heap s p m h) -> wp (merge_left p a) Q (at_heap s p m h).
Proof.
  intros a Hw Hl HQ. unfold merge_left. wp_step. eapply wp_field; [exact (bw_prev _ _ _ _ _ _ _ Hw)|]. intros i _ ->.
  wp_step. eapply wp_is_used; [exact (bw_prev_magic _ _ _ _ _ _ _ Hw)|]. rewrite Hl. simpl. by wp_step.
Qed.

Lemma merge_left_free s p m h l0 k n u l2 (Q : Z * bool -> mhstate -> Prop) :
  let a := mh_start_addr m + mh_total l0 in
  blocks_wf h p (mh_start_addr m) (l0 ++ (k, false) :: (n, u) :: l2) -> 0 <= mh_available_size m + 24 < 2 ^ 32 ->
  (forall h', blocks_wf h' p (mh_start_addr m) (l0 ++ (k + n, false) :: l2) -> same_free h h' ->
     Q (a, false) (at_heap s p (gained 24 m) h')) ->
  wp (merge_left p (a + k)) Q (at_heap s p m h).
Proof.
  intros a Hw Hav HQ. pose proof Hw as Hw'. change (?x :: ?y :: l2) with ([x] ++ y :: l2) in Hw'. rewrite app_assoc in Hw'.
  pose proof (bw_prev _ _ _ _ _ _ _ Hw') as Hp. rewrite addrs_app in Hp. simpl in Hp. rewrite lst_app in Hp. simpl in Hp.
  pose proof (bw_next _ _ _ _ _ _ _ Hw') as Hn.
  assert (mh_start_addr m + mh_total (l0 ++ [(k, false)]) = a + k) as Ea by (rewrite mh_total_app; simpl; unfold a; lia).
  rewrite Ea in *. fold a in Hp. destruct (bw_magic _ _ _ _ _ _ _ Hw) as [Hm _]. fold a in Hm.
  destruct (bw_sizes_mid _ _ _ _ _ _ _ Hw) as (S1 & S2 & S3 & [[S4 _] S5]%Forall_cons & _). simpl in S4.
  assert (is_Some (h !! a)) by (by eapply field_is_Some).
  assert (is_Some (h !! (a + k + n))).
  { pose proof (bw_next_magic _ _ _ _ _ _ _ Hw') as Hx. rewrite Ea in Hx. by eapply field_is_Some. }
  unfold merge_left. wp_step. eapply wp_field; [exact Hp|]. intros i _ ->. wp_step. eapply wp_is_used; [exact Hm|]. simpl.
  wp_step. apply wp_gain_at; [done|]. wp_step. eapply (wp_field it_prev); [exact Hp|]. intros j Hj Ej. simpl in Hj.
  assert (it_next j = a + k + n) as En by (unfold field in Hn; rewrite Hj in Hn; by injection Hn).
  wp_step. rewrite Ej, En. apply wp_upd_item; [done|]. wp_step.
  eapply wp_item; [simpl; rewrite lookup_alter_ne by lia; exact Hj|]. rewrite En, Ej.
  wp_step. apply wp_upd_item; [simpl; by rewrite alter_is_Some|]. wp_step.
  eapply wp_item; [simpl; rewrite !lookup_alter_ne by lia; exact Hj|]. rewrite Ej. wp_step. simpl.
  apply HQ.
  - eapply bw_merge; [exact Hw|..]; fold a; intros x; unfold upd; by fields.
  - intros x. split; by fields.
Qed.

Lemma merge_right_used s p m h l1 n u l2 (Q : unit -> mhstate -> Prop) :
  let a := mh_start_addr m + mh_total l1 in
  blocks_wf h p (mh_start_addr m) (l1 ++ (n, u) :: l2) -> match l2 with (_, v) :: _ => v = true | [] => True end ->
  Q tt (at_heap s p m h) -> wp (merge_right p a) Q (at_heap s p m h).
Proof.
  intros a Hw Hl HQ. unfold merge_right. wp_step. eapply wp_field; [exact (bw_next _ _ _ _ _ _ _ Hw)|]. intros i _ ->.
  wp_step. eapply wp_is_used with (u := true); [|done].
  etransitivity; [exact (bw_next_magic _ _ _ _ _ _ _ Hw)|]. destruct l2 as [|[k v] l2']; [done|]. by subst v.
Qed.

Lemma merge_right_free s p m h l1 n u k l2 xs ys (Q : unit -> mhstate -> Prop) :
  let a := mh_start_addr m + mh_total l1 in
  blocks_wf h p (mh_start_addr m) (l1 ++ (n, u) :: (k, false) :: l2) -> 0 <= mh_available_size m + 24 < 2 ^ 32 ->
  free_ring h (free_header p) (xs ++ a + n :: ys) ->
  (forall h', blocks_wf h' p (mh_start_addr m) (l1 ++ (n + k, u) :: l2) -> free_ring h' (free_header p) (xs ++ ys) ->
     Q tt (at_heap s p (gained 24 m) h')) ->
  wp (merge_right p a) Q (at_heap s p m h).
Proof.
  intros a Hw Hav Hfr HQ. pose proof Hw as Hw'. change (?x :: ?y :: l2) with ([x] ++ y :: l2) in Hw'. rewrite app_assoc in Hw'.
  assert (mh_start_addr m + mh_total (l1 ++ [(n, u)]) = a + n) as Ea by (rewrite mh_total_app; simpl; unfold a; lia).
  pose proof (bw_next _ _ _ _ _ _ _ Hw') as Hn2. pose proof (bw_next _ _ _ _ _ _ _ Hw) as Hn. rewrite Ea in *. fold a in Hn.
  destruct (bw_sizes_mid _ _ _ _ _ _ _ Hw) as (S1 & S2 & S3 & [[S4 _] S5]%Forall_cons & _). simpl in S4.
  assert (is_Some (h !! a)) by (by eapply field_is_Some).
  assert (is_Some (h !! (a + n + k))).
  { pose proof (bw_next_magic _ _ _ _ _ _ _ Hw') as Hx. rewrite Ea in Hx. by eapply field_is_Some. }
  unfold merge_right. wp_step. eapply wp_field; [exact Hn|]. intros i Hi Ei. rewrite Ei.
  wp_step. eapply wp_is_used; [exact (bw_next_magic _ _ _ _ _ _ _ Hw)|]. simpl. wp_step. apply wp_gain_at; [done|].
  wp_step. eapply wp_item; [exact Hi|]. rewrite Ei. wp_step. eapply (wp_field it_next); [exact Hn2|]. intros j Hj Ej. simpl in Hj.
  wp_step. rewrite Ej. apply wp_upd_item; [done|]. wp_step.
  eapply wp_item; [simpl; rewrite lookup_alter_ne by lia; exact Hj|]. rewrite Ej.
  wp_step. apply wp_upd_item; [simpl; by rewrite alter_is_Some|]. simpl items.
  eapply unlink_free_spec with (fh := free_header p) (xs := xs) (ys := ys).
  { simpl. eapply free_ring_ext; [|exact Hfr]. intros x _. split; by fields. }
  intros h' Hb Hf. simpl in Hb. apply HQ; [|exact Hf].
  eapply bw_same; [exact Hb|]. eapply bw_merge; [exact Hw|..]; fold a; intros x; unfold upd; by fields.
Qed.

(** ** Freeing *)

Definition absorb_left l1 (n : Z) : mh_layout * Z :=
  match reverse l1 with (k, false) :: r => (reverse r, k + n) | _ => (l1, n) end.
Definition absorb_right (n : Z) l2 : Z * mh_layout :=
  match l2 with (k, false) :: l3 => (n + k, l3) | _ => (n, l2) end.

(** The blocks after the block of [n] bytes between [l1] and [l2] has become free *)
Definition merged l1 (n : Z) l2 : mh_layout :=
  (absorb_left l1 n).1 ++ ((absorb_right (absorb_left l1 n).2 l2).1, false) :: (absorb_right (absorb_left l1 n).2 l2).2.

(** In the middle of [rt_memheap_free]: the block between [l0] and [l2] is free; it is on the
    free list unless [b] is set. *)
Record freeing (p : Z) (m : rt_memheap) (h : headers) l0 (n : Z) l2 (fl : list Z) (b : bool) : Prop := {
  fg_blocks : blocks_wf h p (mh_start_addr m) (l0 ++ (n, false) :: l2);
  fg_area : mh_area p m (mh_total (l0 ++ (n, false) :: l2));
  fg_free : free_ring h (free_header p) fl;
  fg_perm : (if b then mh_start_addr m + mh_total l0 :: fl else fl) ≡ₚ frees (mh_start_addr m) (l0 ++ (n, false) :: l2);
  fg_available : mh_available_size m = free_bytes (l0 ++ (n, false) :: l2);
  fg_max : mh_pool_size m - mh_available_size m <= mh_max_used_size m;
  fg_lock : mh_lock m = 0
}.

(** What is the same before and after the call *)
Definition mh_same (m m' : rt_memheap) : Prop :=
  mh_start_addr m' = mh_start_addr m /\ mh_pool_size m' = mh_pool_size m.

Lemma freeing_bounds p m h l0 n l2 fl b : freeing p m h l0 n l2 fl b -> 0 <= mh_available_size m /\ mh_available_size m + 24 < 2 ^ 32.
Proof.
  intros [Hw Ha _ _ -> _ _]. destruct (free_bytes_bound _ (bw_sizes _ _ _ _ Hw)). destruct Ha. unfold RT_MEMHEAP_SIZE in *. lia.
Qed.

Lemma perm_second (xs ys : list Z) x y : xs ++ x :: y :: ys ≡ₚ y :: xs ++ x :: ys.
Proof.
  change (xs ++ x :: y :: ys) with (xs ++ [x] ++ y :: ys). rewrite app_assoc, <- Permutation_middle, <- app_assoc. done.
Qed.

Lemma freeing_left s p m h l1 n l2 fl (Q : Z * bool -> mhstate -> Prop) :
  freeing p m h l1 n l2 fl true -> coalesced_from true l1 ->
  (forall m' h' b, let '(l0, n') := absorb_left l1 n in
     freeing p m' h' l0 n' l2 fl b -> mh_same m m' -> coalesced_from true l0 -> last_used true l0 = true ->
     Q (mh_start_addr m + mh_total l0, b) (at_heap s p m' h')) ->
  wp (merge_left p (mh_start_addr m + mh_total l1)) Q (at_heap s p m h).
Proof.
  intros Hf Hc HQ. pose proof (freeing_bounds _ _ _ _ _ _ _ _ Hf) as Hb. pose proof Hf as [F1 F2 F3 F4 F5 F6 F7].
  destruct (last_case l1) as [->|(l0 & k & v & ->)].
  - eapply merge_left_used; [exact F1|done|]. by apply (HQ m h true).
  - apply mh_coalesced_app in Hc as [Hc1 [Hc2 _]]. destruct v.
    + eapply merge_left_used; [exact F1|apply mh_last_used_snoc|]. specialize (HQ m h true).
      unfold absorb_left in HQ. rewrite reverse_snoc in HQ. apply HQ; [done..| |apply mh_last_used_snoc].
      apply mh_coalesced_app. simpl. done.
    + rewrite mh_total_app. simpl. rewrite Z.add_0_r, Z.add_assoc. rewrite <- app_assoc in F1, F2, F4, F5. simpl in F1, F2, F4, F5.
      eapply merge_left_free; [exact F1|lia|]. intros h' Hw' Hs. specialize (HQ (gained 24 m) h' false).
      unfold absorb_left in HQ. rewrite reverse_snoc, reverse_involutive in HQ.
      rewrite orb_false_r in Hc2. apply HQ; [|done|done|done].
      split; simpl; try done.
      * apply (mh_area_same p m); [done..|]. rewrite mh_total_app in F2 |- *. simpl in F2 |- *.
        by replace (k + n + mh_total l2) with (k + (n + mh_total l2)) by lia.
      * eapply free_ring_ext; [|exact F3]. intros x _. apply Hs.
      * rewrite mh_total_app, frees_app in F4. simpl in F4. rewrite frees_app. simpl.
        replace (mh_start_addr m + mh_total l0 + (k + n)) with (mh_start_addr m + mh_total l0 + k + n) by lia.
        rewrite Z.add_0_r, Z.add_assoc in F4.
        eapply Permutation_cons_inv. etransitivity; [exact F4|].
        apply perm_second.
      * rewrite F5, !free_bytes_app. simpl. unfold RT_MEMHEAP_SIZE. lia.
      * lia.
Qed.

Lemma freeing_right s p m h l0 n l2 fl b (Q : unit -> mhstate -> Prop) :
  freeing p m h l0 n l2 fl b ->
  (forall m' h' fl', let '(n', l3) := absorb_right n l2 in
     freeing p m' h' l0 n' l3 fl' b -> mh_same m m' -> Q tt (at_heap s p m' h')) ->
  wp (merge_right p (mh_start_addr m + mh_total l0)) Q (at_heap s p m h).
Proof.
  intros Hf HQ. pose proof (freeing_bounds _ _ _ _ _ _ _ _ Hf) as Hb. pose proof Hf as [F1 F2 F3 F4 F5 F6 F7].
  destruct l2 as [|[k v] l3].
  { eapply merge_right_used; [exact F1|done|]. by apply (HQ m h fl). }
  destruct v.
  { eapply merge_right_used; [exact F1|done|]. by apply (HQ m h fl). }
  set (a := mh_start_addr m + mh_total l0) in *.
  rewrite frees_app in F4. simpl in F4. fold a in F4.
  destruct (bw_sizes_mid _ _ _ _ _ _ _ F1) as (S1 & S2 & S3 & [[S4 _] S5]%Forall_cons & _). simpl in S4.
  assert (a + n ∈ fl) as Hin.
  { assert (a + n ∈ (if b then a :: fl else fl)) as Hx by (rewrite F4; set_solver). destruct b; [|done].
    apply elem_of_cons in Hx as [Hx|Hx]; [lia|done]. }
  apply list_elem_of_split in Hin as (xs & ys & ->).
  eapply merge_right_free; [exact F1|lia|exact F3|]. intros h' Hw' Hf'. apply (HQ (gained 24 m) h' (xs ++ ys)); [|done].
  split; simpl; try done.
  - apply (mh_area_same p m); [done..|]. rewrite mh_total_app in F2 |- *. simpl in F2 |- *.
    by replace (n + k + mh_total l3) with (n + (k + mh_total l3)) by lia.
  - fold a. rewrite frees_app. simpl. fold a. replace (a + (n + k)) with (a + n + k) by lia.
    apply (Permutation_cons_inv (a := a + n)). etransitivity; [|etransitivity; [exact F4|]].
    + destruct b; [rewrite Permutation_swap; apply Permutation_cons; [done|]|]; apply Permutation_middle.
    + apply perm_second.
  - rewrite F5, !free_bytes_app. simpl. unfold RT_MEMHEAP_SIZE. lia.
  - lia.
Qed.

Lemma absorb_right_spec n l2 :
  coalesced_from true l2 -> coalesced_from false (absorb_right n l2).2 /\ n + mh_total l2 = (absorb_right n l2).1 + mh_total (absorb_right n l2).2.
Proof.
  destruct l2 as [|[k [|]] l3]; simpl; [split; [done|lia]|intros [_ ?]; split; [done|lia]|]. intros [_ ?]. split; [done|lia].
Qed.

Lemma absorb_left_total l1 n : mh_total (absorb_left l1 n).1 + (absorb_left l1 n).2 = mh_total l1 + n.
Proof.
  destruct (last_case l1) as [->|(l0 & k & v & ->)]; unfold absorb_left; [done|].
  rewrite reverse_snoc. destruct v; simpl; rewrite ?reverse_involutive, !mh_total_app; simpl; lia.
Qed.

Lemma insert_freed s p m h l0 n l2 fl b (Q : unit -> mhstate -> Prop) :
  freeing p m h l0 n l2 fl b -> coalesced (l0 ++ (n, false) :: l2) ->
  (forall h' m' fl', mh_inv (at_heap s p m' h') p m' (l0 ++ (n, false) :: l2) fl' -> mh_same m m' -> Q tt (at_heap s p m' h')) ->
  wp (when b (insert_free p (mh_start_addr m + mh_total l0));; mh_release_lock p) Q (at_heap s p m h).
Proof.
  intros [F1 F2 F3 F4 F5 F6 F7] Hc HQ. set (a := mh_start_addr m + mh_total l0) in *.
  assert (forall h' fl', blocks_wf h' p (mh_start_addr m) (l0 ++ (n, false) :: l2) -> free_ring h' (free_header p) fl' ->
    fl' ≡ₚ frees (mh_start_addr m) (l0 ++ (n, false) :: l2) -> wp (mh_release_lock p) Q (at_heap s p m h')) as Hend.
  { intros h' fl' G1 G2 G3. apply wp_unlock_at. apply HQ with fl'; [|done]. rewrite F7.
    split; simpl; try done; [apply lookup_insert_eq|by apply (mh_area_same p m)]. }
  destruct b; simpl.
  - wp_step. eapply insert_free_spec; [apply heaps_at| | | |].
    + rewrite (ma_list _ _ _ F2). exact F3.
    + eapply field_is_Some. exact (bw_next _ _ _ _ _ _ _ F1).
    + rewrite (ma_list _ _ _ F2). intros Hx. assert (NoDup (a :: fl)) as Hnd.
      { rewrite F4. eapply sublist_NoDup; [apply (addrs_nodup (mh_start_addr m)), F1|apply frees_sublist]. }
      apply elem_of_cons in Hx as [Hx|Hx]; [|by apply NoDup_cons in Hnd as [? _]].
      pose proof (ma_apart _ _ _ F2) as Hap. rewrite mh_total_app in Hap. simpl in Hap.
      destruct (bw_sizes_mid _ _ _ _ _ _ _ F1) as (_ & ? & _ & _ & ? & ?). unfold a in Hx. lia.
    + intros h' Hb Hf'. apply (Hend h' (a :: fl)); [by eapply bw_same| |done]. rewrite (ma_list _ _ _ F2) in Hf'. exact Hf'.
  - wp_step. wp_step. by apply (Hend h fl).
Qed.

Lemma rt_memheap_free_spec s p m l1 n l2 fl (Q : unit -> mhstate -> Prop) :
  mh_inv s p m (l1 ++ (n, true) :: l2) fl ->
  (forall h' m' fl', mh_inv (at_heap s p m' h') p m' (merged l1 n l2) fl' -> mh_same m m' -> Q tt (at_heap s p m' h')) ->
  wp (rt_memheap_free (mh_start_addr m + mh_total l1 + 24)) Q s.
Proof.
  intros Hi HQ. pose proof Hi as [I1 I2 I3 I4 I5 I6 I7 I8 I9]. pose proof I2 as [A1 A2 A3 A4 A5 A6 A7].
  destruct (bw_sizes_mid _ _ _ _ _ _ _ I3) as (S1 & S2 & S3 & S4 & S5 & S6). unfold RT_MEMHEAP_SIZE in A4.
  set (a := mh_start_addr m + mh_total l1) in *. destruct (bw_magic _ _ _ _ _ _ _ I3) as [M1 M2]. fold a in M1, M2.
  rewrite mh_total_app in A4, A7. simpl in A4, A7.
  unfold rt_memheap_free. rewrite (proj2 (Z.eqb_neq _ _)) by (unfold RT_NULL, a; lia). unfold RT_MEMHEAP_SIZE.
  replace (a + 24 - 24) with a by lia. cbv zeta. wp_step. eapply (wp_field it_magic); [exact M1|]. intros i Hi' ->.
  wp_step. apply wp_assert; [done|]. wp_step. apply wp_assert; [done|].
  assert (it_next i = a + n) as En.
  { pose proof (bw_next _ _ _ _ _ _ _ I3) as Hn. fold a in Hn. unfold field in Hn. rewrite Hi' in Hn. by injection Hn. }
  assert (it_pool_ptr i = p) as -> by (unfold field in M2; rewrite Hi' in M2; by injection M2).
  rewrite En. wp_step. eapply wp_field; [exact (bw_next_magic _ _ _ _ _ _ _ I3)|]. intros j _ Ej. rewrite Ej.
  wp_step. apply wp_assert; [destruct l2 as [|[? []] ?]; done|].
  rewrite (at_heap_id s p m I1). wp_step. apply wp_lock_at; [done|]. wp_step.
  apply wp_upd_item; [simpl; eauto|]. simpl items. set (h1 := alter _ a (items s)).
  assert (blocks_wf h1 p (mh_start_addr m) (l1 ++ (n, false) :: l2)) as Hw1.
  { apply (bw_mark _ _ _ _ _ _ _ I3); [done..|]. intros k. apply magic_freed. }
  change (set_items h1 _) with (at_heap s p (set_mh_lock 0 m) h1).
  wp_step. apply wp_memitem_size with n; [exact (bw_next _ _ _ _ _ _ _ Hw1)|lia|].
  destruct (mh_inv_bounds _ _ _ _ _ Hi) as [B1 B2].
  assert (mh_available_size m + (n - 24) = free_bytes (l1 ++ (n, false) :: l2)) as Hfb.
  { rewrite I7, !free_bytes_app. simpl. unfold RT_MEMHEAP_SIZE. lia. }
  pose proof (free_bytes_bound _ (bw_sizes _ _ _ _ Hw1)) as Hfb2. rewrite mh_total_app in Hfb2. simpl in Hfb2.
  wp_step. apply wp_gain_at; [simpl; lia|]. wp_step.
  assert (freeing p (gained (n - 24) (set_mh_lock 0 m)) h1 l1 n l2 fl true) as Hf.
  { split; simpl; try done; [| | |lia].
    - rewrite mh_total_app. simpl. split; simpl; try done.
    - by apply mark_same_free.
    - rewrite frees_app in *. simpl in *. fold a in I5. rewrite I5. fold a. apply Permutation_middle. }
  unfold coalesced in I6. apply mh_coalesced_app in I6 as [C1 [_ C2]].
  change a with (mh_start_addr (gained (n - 24) (set_mh_lock 0 m)) + mh_total l1). eapply freeing_left; [exact Hf|exact C1|]. intros m2 h2 b. pose proof (absorb_left_total l1 n) as Hal. revert HQ. unfold merged.
  destruct (absorb_left l1 n) as [l0 n1]. simpl in Hal. intros HQ Hf2 Hsm2 Hc2 Hl0. simpl.
  destruct Hsm2 as [E1 E2]. simpl in E1, E2. rewrite <- E1.
  wp_step. eapply freeing_right; [exact Hf2|]. intros m3 h3 fl3. destruct (absorb_right_spec n1 l2 C2) as [C3 C4]. revert HQ C3 C4. simpl.
  destruct (absorb_right n1 l2) as [n2 l3]. simpl. intros HQ C3 C4 Hf3 [E3 E4]. rewrite <- E3.
  apply insert_freed with n2 l3 fl3; [exact Hf3| |].
  - apply mh_coalesced_app. split; [done|]. simpl. by rewrite Hl0.
  - intros h' m' fl' Hinv [E5 E6]. apply HQ with fl'; [done|]. split; congruence.
Qed.

(** ** The blocks in use *)

(** A block with header [x] and [n] bytes, header included, is in use. *)
Fixpoint in_use (a : Z) l (x n : Z) : Prop :=
  match l with
  | [] => False
  | (k, u) :: l' => u = true /\ x = a /\ n = k \/ in_use (a + k) l' x n
  end.

Lemma in_use_app a l1 l2 x n : in_use a (l1 ++ l2) x n <-> in_use a l1 x n \/ in_use (a + mh_total l1) l2 x n.
Proof.
  revert a. induction l1 as [|[k u] l1 IH]; intros a; simpl; [rewrite Z.add_0_r; tauto|]. rewrite IH, Z.add_assoc. tauto.
Qed.

Lemma in_use_split a l x n : in_use a l x n -> exists l1 l2, l = l1 ++ (n, true) :: l2 /\ x = a + mh_total l1.
Proof.
  revert a. induction l as [|[k u] l IH]; intros a; simpl; [done|]. intros [(-> & -> & ->)|Hx].
  - exists [], l. simpl. split; [done|lia].
  - destruct (IH _ Hx) as (l1 & l2 & -> & ->). exists ((k, u) :: l1), l2. simpl. split; [done|lia].
Qed.

Lemma in_use_range a l x n : mh_sizes l -> in_use a l x n -> a <= x /\ 36 <= n /\ x + n <= a + mh_total l /\ (a mod 4 = 0 -> x mod 4 = 0).
Proof.
  intros Hs (l1 & l2 & -> & ->)%in_use_split. destruct (mh_sizes_mid _ _ _ _ Hs) as (S1 & S2 & S3 & S4).
  rewrite mh_total_app. simpl. pose proof (mh_sizes_total _ S1). pose proof (mh_sizes_total _ S4). split_and!; try lia.
  intros Ha. rewrite Z.add_mod, Ha, (mh_sizes_mod _ S1) by lia. done.
Qed.

(** Two blocks in use are the same or apart. *)
Lemma in_use_apart a l x n y k :
  mh_sizes l -> in_use a l x n -> in_use a l y k -> x = y /\ n = k \/ x + n <= y \/ y + k <= x.
Proof.
  intros Hs. revert a. induction Hs as [|[j u] l [Hj _] Hs IH]; intros a; simpl; [done|]. simpl in Hj.
  intros [(-> & -> & ->)|Hx] [(_ & -> & ->)|Hy]; [by left| | |by apply (IH (a + j))].
  - apply in_use_range in Hy; [|done]. lia.
  - apply in_use_range in Hx; [|done]. lia.
Qed.

(** A block in use is apart from a free block. *)
Lemma in_use_free a l1 n l2 x k :
  mh_sizes (l1 ++ (n, false) :: l2) -> in_use a (l1 ++ (n, false) :: l2) x k ->
  x + k <= a + mh_total l1 \/ a + mh_total l1 + n <= x.
Proof.
  intros (S1 & S2 & S3 & S4)%mh_sizes_mid. rewrite in_use_app. simpl. intros [Hx|[[? _]|Hx]]; [|done|]; apply in_use_range in Hx; try done; lia.
Qed.

(** The size of the block in use that serves a request *)
Definition mh_block_size (sz n : Z) : Z := if mh_cuts sz n then sz + 24 else n.

Lemma carve_in_use a l1 sz n l2 x k :
  in_use a (l1 ++ mh_carve sz n ++ l2) x k <->
  in_use a (l1 ++ (n, false) :: l2) x k \/ x = a + mh_total l1 /\ k = mh_block_size sz n.
Proof.
  rewrite !in_use_app. simpl. rewrite mh_carve_total. unfold mh_carve, mh_block_size. destruct (mh_cuts sz n); simpl; intuition (lia || done).
Qed.

Lemma in_use_mid a l1 n l2 x k :
  in_use a (l1 ++ (n, true) :: l2) x k <-> in_use a (l1 ++ (n, false) :: l2) x k \/ x = a + mh_total l1 /\ k = n.
Proof. rewrite !in_use_app. simpl. intuition (lia || done). Qed.

Lemma merged_in_use a l1 n l2 x k : in_use a (merged l1 n l2) x k <-> in_use a (l1 ++ (n, false) :: l2) x k.
Proof.
  assert (forall l0 n', in_use a (l0 ++ ((absorb_right n' l2).1, false) :: (absorb_right n' l2).2) x k <->
    in_use a (l0 ++ (n', false) :: l2) x k) as Hr.
  { intros l0 n'. rewrite !in_use_app. destruct l2 as [|[j [|]] l3]; simpl; [tauto|tauto|].
    replace (a + mh_total l0 + (n' + j)) with (a + mh_total l0 + n' + j) by lia. naive_solver. }
  unfold merged. rewrite Hr. destruct (last_case l1) as [->|(l0 & j & v & ->)]; unfold absorb_left; [done|].
  rewrite reverse_snoc. destruct v; [done|]. simpl. rewrite reverse_involutive, <- app_assoc, !in_use_app. simpl.
  replace (a + mh_total l0 + (j + n)) with (a + mh_total l0 + (j + 0) + n) by lia. intuition done.
Qed.

Lemma merged_total l1 n l2 : mh_total (merged l1 n l2) = mh_total l1 + n + mh_total l2.
Proof.
  unfold merged. rewrite mh_total_app. simpl. rewrite <- (absorb_left_total l1 n).
  destruct l2 as [|[j [|]] l3]; simpl; lia.
Qed.

(** In terms of the caller's addresses: [n] bytes of data from [p] on *)
Definition mh_block (m : rt_memheap) l (p n : Z) : Prop :=
  in_use (mh_start_addr m) l (p - RT_MEMHEAP_SIZE) (n + RT_MEMHEAP_SIZE).

Lemma mh_block_split m l p n :
  mh_block m l p n -> exists l1 l2, l = l1 ++ (n + 24, true) :: l2 /\ p = mh_start_addr m + mh_total l1 + 24.
Proof.
  intros (l1 & l2 & E & Ep)%in_use_split. unfold RT_MEMHEAP_SIZE in *. exists l1, l2. split; [done|lia].
Qed.

Lemma mh_block_range s p m l fl q n :
  mh_inv s p m l fl -> mh_block m l q n ->
  mh_start_addr m + 24 <= q /\ 12 <= n /\ q + n <= mh_start_addr m + mh_pool_size m - 24 /\ q mod 4 = 0.
Proof.
  intros Hi Hb. pose proof (ma_align _ _ _ (mi_area _ _ _ _ _ Hi)) as Hal. pose proof (mi_area _ _ _ _ _ Hi) as []. unfold mh_block, RT_MEMHEAP_SIZE in *.
  apply in_use_range in Hb; [|apply (mi_blocks _ _ _ _ _ Hi)]. destruct Hb as (B1 & B2 & B3 & B4). split_and!; try lia.
  specialize (B4 Hal). replace q with (q - 24 + 6 * 4) by lia. by rewrite Z.mod_add by lia.
Qed.

Lemma mh_block_apart s p m l fl q n r k :
  mh_inv s p m l fl -> mh_block m l q n -> mh_block m l r k -> q = r /\ n = k \/ q + n <= r - 24 \/ r + k <= q - 24.
Proof.
  intros Hi Hq Hr. destruct (in_use_apart _ _ _ _ _ _ (bw_sizes _ _ _ _ (mi_blocks _ _ _ _ _ Hi)) Hq Hr); unfold RT_MEMHEAP_SIZE in *; lia.
Qed.

(** ** What the operations do to the blocks in use *)

Lemma alloc_blocks junk s p m l fl size :
  mh_inv s p m l fl -> 0 <= size <= 2 ^ 32 - 4 ->
  exists r s' m' l' fl', rt_memheap_alloc junk p size s = Ok r s' /\ mh_inv s' p m' l' fl' /\ mh_same m m' /\
    mh_bytes s' = mh_bytes s /\
    (r = RT_NULL /\ s' = s /\ m' = m /\ l' = l /\ mh_full m l (mh_request size) \/
     exists n, size <= n /\ r mod 4 = 0 /\ r <> RT_NULL /\
       (forall q k, mh_block m' l' q k <-> mh_block m l q k \/ q = r /\ k = n) /\
       (forall q k, mh_block m l q k -> q + k <= r - 24 \/ r + n <= q - 24)).
Proof.
  intros Hi Hs. destruct (mh_request_range size Hs) as (R1 & R2 & R3).
  assert (wp (rt_memheap_alloc junk p size) (fun r s' => exists m' l' fl', mh_inv s' p m' l' fl' /\ mh_same m m' /\
    mh_bytes s' = mh_bytes s /\
    (r = RT_NULL /\ s' = s /\ m' = m /\ l' = l /\ mh_full m l (mh_request size) \/
     exists n, size <= n /\ r mod 4 = 0 /\ r <> RT_NULL /\
       (forall q k, mh_block m' l' q k <-> mh_block m l q k \/ q = r /\ k = n) /\
       (forall q k, mh_block m l q k -> q + k <= r - 24 \/ r + n <= q - 24))) s) as Hw.
  2: { apply wp_ok in Hw as (r & s' & E & m' & l' & fl' & Hw). exists r, s', m', l', fl'. tauto. }
  eapply rt_memheap_alloc_spec; [exact Hi|exact Hs| |].
  { intros Hf. exists m, l, fl. split_and!; [done|done|done|]. by left. }
  intros l1 n l2 fl' h' -> Hn m' Hi'. exists m', (l1 ++ mh_carve (mh_request size) n ++ l2), fl'. split_and!; [done|done|done|].
  right. pose proof (ma_align _ _ _ (mi_area _ _ _ _ _ Hi)) as Hal. pose proof (mi_area _ _ _ _ _ Hi) as []. pose proof (bw_sizes _ _ _ _ (mi_blocks _ _ _ _ _ Hi)) as Hsz.
  destruct (mh_sizes_mid _ _ _ _ Hsz) as (S1 & S2 & S3 & S4). pose proof (mh_sizes_total _ S1).
  set (sz := mh_request size) in *. exists (mh_block_size sz n - 24). unfold RT_NULL.
  assert (sz + 24 <= mh_block_size sz n <= n) by (unfold mh_block_size, mh_cuts; case_match; lia).
  split_and!; [lia| |lia| |].
  - change 24 with (6 * 4). rewrite Z.mod_add, Z.add_mod, Hal, (mh_sizes_mod _ S1) by lia. done.
  - intros q k. unfold mh_block, RT_MEMHEAP_SIZE. simpl. rewrite carve_in_use. intuition lia.
  - intros q k Hq. unfold mh_block, RT_MEMHEAP_SIZE in Hq. apply in_use_free in Hq; [|done]. lia.
Qed.

Lemma free_blocks s p m l fl q n :
  mh_inv s p m l fl -> mh_block m l q n ->
  exists s' m' l' fl', rt_memheap_free q s = Ok tt s' /\ mh_inv s' p m' l' fl' /\ mh_same m m' /\ mh_bytes s' = mh_bytes s /\
    mh_total l' = mh_total l /\ (forall r k, mh_block m' l' r k <-> mh_block m l r k /\ r <> q).
Proof.
  intros Hi Hb. pose proof (bw_sizes _ _ _ _ (mi_blocks _ _ _ _ _ Hi)) as Hsz.
  destruct (mh_block_split _ _ _ _ Hb) as (l1 & l2 & -> & ->).
  assert (wp (rt_memheap_free (mh_start_addr m + mh_total l1 + 24)) (fun _ s' => exists h' m' fl', s' = at_heap s p m' h' /\
    mh_inv s' p m' (merged l1 (n + 24) l2) fl' /\ mh_same m m') s) as Hw.
  { eapply rt_memheap_free_spec; [exact Hi|]. intros h' m' fl' Hi' Hs. by exists h', m', fl'. }
  apply wp_ok in Hw as ([] & s' & E & h' & m' & fl' & -> & Hi' & Hsm). exists (at_heap s p m' h'), m', (merged l1 (n + 24) l2), fl'.
  split_and!; [done..| |].
  - rewrite merged_total, mh_total_app. simpl. lia.
  - intros r k. unfold mh_block, RT_MEMHEAP_SIZE. rewrite (proj1 Hsm), merged_in_use, (in_use_mid _ l1 (n + 24) l2).
    assert (mh_sizes (l1 ++ (n + 24, false) :: l2)) as Hsz'.
    { unfold mh_sizes in *. rewrite Forall_app, Forall_cons in *. done. }
    split; [|intros [[?|?] ?]; [done|lia]]. intros Hr. split; [by left|]. pose proof (in_use_free _ _ _ _ _ _ Hsz' Hr).
    apply in_use_range in Hr; [|done]. destruct (mh_sizes_mid _ _ _ _ Hsz) as (_ & ? & _). lia.
Qed.
