(* ===== verification/MemHeapResize.v ===== *)
(** * Resizing blocks, initialisation, and what a memory heap guarantees

    rt_memheap_realloc on all its branches, rt_memheap_init, and the theorems on memory
    heaps, with a heap of 512 bytes they apply to. *)
From stdpp Require Import base tactics numbers list gmap.
From S2P Require Import Prelude RtList Memory KString MemHeap MemHeapLayout MemHeapCorrect.
Local Open Scope Z_scope.
Implicit Types (l : mh_layout) (h : headers).

(** ** Resizing *)

(** The block behind [a], which is free, is taken out of the ring of blocks. *)
Lemma wp_join s p m h l1 n u k l2 (c : MH unit) (Q : unit -> mhstate -> Prop) :
  let a := mh_start_addr m + mh_total l1 in
  blocks_wf h p (mh_start_addr m) (l1 ++ (n, u) :: (k, false) :: l2) ->
  (forall h', blocks_wf h' p (mh_start_addr m) (l1 ++ (n + k, u) :: l2) -> same_free h h' -> wp c Q (at_heap s p m h')) ->
  wp (i ← item (a + n); upd_item (it_next i) (set_it_prev (it_prev i));;
      i ← item (a + n); upd_item (it_prev i) (set_it_next (it_next i));; c) Q (at_heap s p m h).
Proof.
  intros a Hw HQ. pose proof Hw as Hw'. change (?x :: ?y :: l2) with ([x] ++ y :: l2) in Hw'. rewrite app_assoc in Hw'.
  assert (mh_start_addr m + mh_total (l1 ++ [(n, u)]) = a + n) as Ea by (rewrite mh_total_app; simpl; unfold a; lia).
  pose proof (bw_next _ _ _ _ _ _ _ Hw') as Hn. pose proof (bw_prev _ _ _ _ _ _ _ Hw') as Hp.
  rewrite addrs_app in Hp. simpl in Hp. rewrite lst_app in Hp. simpl in Hp. rewrite Ea in Hn, Hp. fold a in Hp.
  destruct (bw_sizes_mid _ _ _ _ _ _ _ Hw) as (S1 & S2 & S3 & [[S4 _] S5]%Forall_cons & _). simpl in S4.
  assert (is_Some (h !! a)) by (by eapply field_is_Some, (bw_next _ _ _ _ _ _ _ Hw)).
  assert (is_Some (h !! (a + n + k))).
  { pose proof (bw_next_magic _ _ _ _ _ _ _ Hw') as Hx. rewrite Ea in Hx. by eapply field_is_Some. }
  wp_step. eapply (wp_field it_next); [exact Hn|]. intros i Hi Ei. simpl in Hi.
  assert (it_prev i = a) as Ep by (unfold field in Hp; rewrite Hi in Hp; by injection Hp).
  rewrite Ei, Ep. wp_step. apply wp_upd_item; [done|]. wp_step.
  eapply wp_item; [simpl; rewrite lookup_alter_ne by lia; exact Hi|]. rewrite Ei, Ep.
  wp_step. apply wp_upd_item; [simpl; by rewrite alter_is_Some|]. simpl items. apply HQ.
  - eapply bw_merge; [exact Hw|..]; fold a; intros x; unfold upd; by fields.
  - intros x. split; by fields.
Qed.

(** A new free block inside a block in use is on no list yet. *)
Lemma fresh_header p m l1 n l2 k fl :
  mh_area p m (mh_total (l1 ++ (n, true) :: l2)) -> mh_sizes (l1 ++ (n, true) :: l2) -> 0 < k < n ->
  fl ≡ₚ frees (mh_start_addr m) (l1 ++ (n, true) :: l2) -> mh_start_addr m + mh_total l1 + k ∉ free_header p :: fl.
Proof.
  intros Ha Hs Hk Hp. destruct (mh_sizes_mid _ _ _ _ Hs) as (S1 & S2 & S3 & S4).
  pose proof (mh_sizes_total _ S1). pose proof (mh_sizes_total _ S4). pose proof (ma_apart _ _ _ Ha) as Hap.
  rewrite mh_total_app in Hap. simpl in Hap. intros [Hx|Hx]%elem_of_cons; [lia|]. rewrite Hp, frees_app in Hx. simpl in Hx.
  apply elem_of_app in Hx as [Hx|Hx]; apply frees_addrs, addrs_range in Hx; try done; lia.
Qed.

Section resize.
Context (junk : Z -> rt_memheap_item) (s : mhstate) (p : Z) (m : rt_memheap) (h : headers) (l1 : mh_layout) (n sz : Z) (l2 : mh_layout).
Let a := mh_start_addr m + mh_total l1.
Context (Hsz4 : sz mod 4 = 0) (Hsz : 12 <= sz).

(** Cutting a block in use: the rest becomes a free block, which is not yet on the free list. *)
Lemma cut_used fl (Q : unit -> mhstate -> Prop) :
  blocks_wf h p (mh_start_addr m) (l1 ++ (n, true) :: l2) -> mh_area p m (mh_total (l1 ++ (n, true) :: l2)) ->
  free_ring h (free_header p) fl -> fl ≡ₚ frees (mh_start_addr m) (l1 ++ (n, true) :: l2) -> sz + 60 <= n ->
  (forall h', blocks_wf h' p (mh_start_addr m) (l1 ++ (sz + 24, true) :: (n - (sz + 24), false) :: l2) ->
     free_ring h' (free_header p) fl -> a + (sz + 24) ∉ free_header p :: fl -> Q tt (at_heap s p m h')) ->
  wp (insert_block junk p a (a + (sz + 24))) Q (at_heap s p m h).
Proof.
  intros Hw Ha Hf Hp Hn HQ. assert (a + (sz + 24) ∉ free_header p :: fl) as Hnew.
  { eapply fresh_header; [exact Ha|apply Hw|lia|done]. }
  eapply (bw_cut _ _ _ _ _ _ _ Hw); [done|lia|by rewrite Z.add_mod, Hsz4|lia|]. intros h' Hw' [N1 N2 N3].
  apply HQ; [done| |done]. eapply free_ring_ext; [|exact Hf]. intros x Hx. apply N3. intros ->. fold a in Hx. done.
Qed.

End resize.

Section expand.
Context (junk : Z -> rt_memheap_item) (s : mhstate) (p : Z) (m : rt_memheap) (h : headers) (l1 : mh_layout) (n sz : Z) (l2 : mh_layout).
Let a := mh_start_addr m + mh_total l1.
Context (Hsz4 : sz mod 4 = 0) (Hsz : 12 <= sz).

Lemma expand_block_spec k xs ys (Q : unit -> mhstate -> Prop) :
  blocks_wf h p (mh_start_addr m) (l1 ++ (n, true) :: (k, false) :: l2) ->
  mh_area p m (mh_total (l1 ++ (n, true) :: (k, false) :: l2)) ->
  free_ring h (free_header p) (xs ++ a + n :: ys) ->
  xs ++ a + n :: ys ≡ₚ frees (mh_start_addr m) (l1 ++ (n, true) :: (k, false) :: l2) ->
  n - 24 < sz -> sz + 60 <= n + k -> k - 24 <= mh_available_size m <= mh_pool_size m ->
  (forall h' fl', blocks_wf h' p (mh_start_addr m) (l1 ++ (sz + 24, true) :: (n + k - (sz + 24), false) :: l2) ->
     free_ring h' (free_header p) fl' -> fl' ≡ₚ frees (mh_start_addr m) (l1 ++ (sz + 24, true) :: (n + k - (sz + 24), false) :: l2) ->
     Q tt (at_heap s p (counted (sz - (n - 24)) m) h')) ->
  wp (expand_block junk p (a + 24) a (a + n) (n - 24) sz) Q (at_heap s p m h).
Proof.
  intros Hw Ha Hf Hp H1 H2 Hav HQ. pose proof Ha as [A1 A2 A3 A4 A5 A6 A7]. unfold RT_MEMHEAP_SIZE in A4.
  destruct (bw_sizes_mid _ _ _ _ _ _ _ Hw) as (S1 & S2 & S3 & S4 & S5 & S6). pose proof S4 as [[S7 _] S8]%Forall_cons. simpl in S6, S7.
  rewrite mh_total_app in A4. simpl in A4.
  unfold expand_block. wp_step. rewrite uwrap_small by lia. apply wp_count_at; [lia|lia|].
  set (m1 := counted _ m) in *.
  wp_step. eapply unlink_free_spec; [exact Hf|]. intros h1 Hb1 Hf1. simpl in Hb1. pose proof (bw_same _ _ _ _ _ Hb1 Hw) as Hw1.
  change (set_items h1 _) with (at_heap s p m1 h1).
  eapply (wp_join s p m1); [exact Hw1|]. intros h2 Hw2 Hs2. cbv zeta.
  assert (mh_total (l1 ++ (n + k, true) :: l2) = mh_total (l1 ++ (n, true) :: (k, false) :: l2)) as Et
    by (rewrite !mh_total_app; simpl; lia).
  assert (xs ++ ys ≡ₚ frees (mh_start_addr m) (l1 ++ (n + k, true) :: l2)) as Hp2.
  { rewrite frees_app in *. simpl in *. fold a in Hp |- *. replace (a + (n + k)) with (a + n + k) by lia.
    by apply (Permutation_app_inv _ _ _ _ (a + n)). }
  replace (a + 24 + sz) with (a + (sz + 24)) by lia. wp_step.
  assert (free_ring h2 (free_header p) (xs ++ ys)) as Hf2.
  { eapply free_ring_ext; [|exact Hf1]. intros x _. apply Hs2. }
  eapply (cut_used junk s p m1 h2 l1 (n + k) sz l2 Hsz4 Hsz (xs ++ ys)); [exact Hw2|rewrite Et; by apply (mh_area_same p m)|done|exact Hp2|lia|].
  intros h3 Hw3 Hf3 Hnew. change (mh_start_addr m1) with (mh_start_addr m) in Hnew, Hw3. fold a in Hnew.
  eapply insert_free_spec; [apply heaps_at| | | |].
  - change (mh_free_list m1) with (mh_free_list m). rewrite A6. exact Hf3.
  - apply (field_is_Some it_next _ _ (a + (sz + 24) + (n + k - (sz + 24)))).
    change (?x :: ?y :: l2) with ([x] ++ y :: l2) in Hw3. rewrite app_assoc in Hw3.
    pose proof (bw_next _ _ _ _ _ _ _ Hw3) as Hn. rewrite mh_total_app in Hn. simpl in Hn.
    by replace (mh_start_addr m + (mh_total l1 + (sz + 24 + 0))) with (a + (sz + 24)) in Hn by (unfold a; lia).
  - change (mh_free_list m1) with (mh_free_list m). by rewrite A6.
  - change (mh_free_list m1) with (mh_free_list m). rewrite A6. intros h4 Hb4 Hf4.
    apply HQ with (a + (sz + 24) :: xs ++ ys); [by eapply bw_same|done|].
    rewrite Hp2, !frees_app. simpl. fold a. replace (a + (sz + 24) + (n + k - (sz + 24))) with (a + (n + k)) by lia.
    apply Permutation_middle.
Qed.
End expand.

Section shrink.
Context (junk : Z -> rt_memheap_item) (s : mhstate) (p : Z) (m : rt_memheap) (h : headers) (l1 : mh_layout) (n sz : Z) (l2 : mh_layout) (fl : list Z).
Let a := mh_start_addr m + mh_total l1.
Let r := n - (sz + 24).
Context (Hsz4 : sz mod 4 = 0) (Hsz : 12 <= sz) (Hn : sz + 60 <= n).
Context (Hw : blocks_wf h p (mh_start_addr m) (l1 ++ (n, true) :: l2)) (Ha : mh_area p m (mh_total (l1 ++ (n, true) :: l2))).
Context (Hf : free_ring h (free_header p) fl) (Hp : fl ≡ₚ frees (mh_start_addr m) (l1 ++ (n, true) :: l2)).
Context (Hav : mh_available_size m = free_bytes (l1 ++ (n, true) :: l2)).

Definition mh_shrunk : mh_layout := l1 ++ (sz + 24, true) :: ((absorb_right r l2).1, false) :: (absorb_right r l2).2.

(** The headers after the cut: the new one at [b], with the rest of the block behind it *)
Section join.
Context (h1 : headers) (Hw1 : blocks_wf h1 p (mh_start_addr m) (l1 ++ (sz + 24, true) :: (r, false) :: l2)).
Context (Hf1 : free_ring h1 (free_header p) fl).
Let b := a + (sz + 24).
Context (Hnew : b ∉ free_header p :: fl).

Definition join_post (Q : unit -> mhstate -> Prop) : Prop :=
  forall h' fl' v, blocks_wf h' p (mh_start_addr m) mh_shrunk -> free_ring h' (free_header p) fl' ->
    b ∉ free_header p :: fl' -> b :: fl' ≡ₚ frees (mh_start_addr m) mh_shrunk ->
    v + (absorb_right r l2).1 - 24 = free_bytes mh_shrunk -> 0 <= v -> Q tt (at_heap s p (set_mh_available v m) h').

Lemma join_at : mh_start_addr m + mh_total (l1 ++ [(sz + 24, true)]) = b.
Proof using Type. clear. rewrite mh_total_app. simpl. unfold b, a. lia. Qed.
Lemma join_wf : blocks_wf h1 p (mh_start_addr m) ((l1 ++ [(sz + 24, true)]) ++ (r, false) :: l2).
Proof using Hw1. by rewrite <- app_assoc. Qed.
Lemma join_perm : b :: fl ≡ₚ frees (mh_start_addr m) (l1 ++ (sz + 24, true) :: (r, false) :: l2).
Proof using Hp.
  clear - Hp. rewrite frees_app in Hp |- *. simpl in Hp |- *. fold a in Hp |- *. fold b.
  replace (b + r) with (a + n) by (unfold b, r; lia). rewrite Hp. apply Permutation_middle.
Qed.

(** The block behind is in use or the end of the area. *)
Lemma join_none (Q : unit -> mhstate -> Prop) :
  absorb_right r l2 = (r, l2) -> join_post Q -> Q tt (at_heap s p m h1).
Proof using All.
  intros Er HQ. destruct (bw_sizes_mid _ _ _ _ _ _ _ Hw) as (S1 & S2 & S3 & S4 & S5 & S6).
  unfold join_post, mh_shrunk in HQ. rewrite Er in HQ. simpl in HQ.
  replace m with (set_mh_available (mh_available_size m) m) by (by destruct m).
  apply HQ with fl; [done..|exact join_perm| |]; rewrite Hav, !free_bytes_app; simpl; unfold RT_MEMHEAP_SIZE;
    pose proof (free_bytes_bound _ S1); pose proof (free_bytes_bound _ S4); lia.
Qed.

(** The free block behind is joined to the new one and leaves the free list. *)
Lemma join_free k l3 (Q : unit -> mhstate -> Prop) :
  l2 = (k, false) :: l3 -> join_post Q ->
  wp (size ← MEMITEM_SIZE (b + r);
      upd_mh p (fun m => set_mh_available (u32 (mh_available_size m - size)) m);;
      f ← item (b + r); upd_item (it_next f) (set_it_prev b);;
      f ← item (b + r); upd_item b (set_it_next (it_next f));; unlink_free (b + r)) Q (at_heap s p m h1).
Proof using All.
  intros El HQ. pose proof join_wf as Hw1'. pose proof join_perm as Hp1. pose proof join_at as Eb.
  destruct (bw_sizes_mid _ _ _ _ _ _ _ Hw) as (S1 & S2 & S3 & S4 & S5 & S6). unfold join_post, mh_shrunk in HQ. rewrite El in *.
  pose proof S4 as [[S7 S9] S8]%Forall_cons. simpl in S6, S7, S9.
  pose proof Ha as [A1 A2 A3 A4 A5 A6 A7]. unfold RT_MEMHEAP_SIZE in A4. rewrite mh_total_app in A4. simpl in A4.
  pose proof (mh_sizes_total _ S8). pose proof (free_bytes_bound _ S1). pose proof (free_bytes_bound _ S8).
  rewrite free_bytes_app in Hav. simpl in Hav. unfold RT_MEMHEAP_SIZE in Hav.
  pose proof Hw1' as Hw1''. change (?x :: ?y :: l3) with ([x] ++ y :: l3) in Hw1''. rewrite app_assoc in Hw1''.
  assert (mh_start_addr m + mh_total ((l1 ++ [(sz + 24, true)]) ++ [(r, false)]) = b + r) as Ebr.
  { rewrite mh_total_app. simpl. rewrite Z.add_assoc, Eb. lia. }
  pose proof (bw_next _ _ _ _ _ _ _ Hw1'') as Hnx2. pose proof (bw_next_magic _ _ _ _ _ _ _ Hw1'') as Hmg2. rewrite Ebr in Hnx2, Hmg2.
  pose proof (bw_next _ _ _ _ _ _ _ Hw1') as Hnx. rewrite Eb in Hnx.
  wp_step. apply wp_memitem_size with k; [exact Hnx2|lia|]. wp_step. apply wp_upd_at. rewrite uwrap_small by lia.
  assert (is_Some (h1 !! b)) by (by eapply field_is_Some). assert (is_Some (h1 !! (b + r + k))) by (by eapply field_is_Some).
  wp_step. eapply (wp_field it_next); [exact Hnx2|]. intros j Hj Ej. simpl in Hj. wp_step. rewrite Ej. apply wp_upd_item; [done|].
  wp_step. eapply wp_item; [simpl; rewrite lookup_alter_ne by lia; exact Hj|]. rewrite Ej.
  wp_step. apply wp_upd_item; [simpl; by rewrite alter_is_Some|]. simpl items.
  assert (b + r ∈ fl) as Hin.
  { assert (b + r ∈ b :: fl) as [Hx|Hx]%elem_of_cons by (rewrite Hp1, frees_app; simpl; fold a; fold b; set_solver);
      [unfold r in Hx; lia|done]. }
  apply list_elem_of_split in Hin as (xs & ys & Efl). rewrite Efl in *.
  eapply unlink_free_spec with (fh := free_header p) (xs := xs) (ys := ys).
  { simpl. eapply free_ring_ext; [|exact Hf1]. intros x _. split; by fields. }
  intros h' Hb' Hf'. simpl in Hb'. eapply HQ with (fl' := xs ++ ys); [|done|set_solver| |rewrite free_bytes_app; simpl; unfold RT_MEMHEAP_SIZE; lia|lia].
  - eapply bw_same; [exact Hb'|]. cbn [absorb_right fst snd]. change (?x :: ?y :: l3) with ([x] ++ y :: l3). rewrite app_assoc.
    eapply (bw_merge h1); [exact Hw1'|..]; rewrite ?Eb; intros x; unfold upd; by fields.
  - rewrite frees_app in Hp1 |- *. simpl in Hp1 |- *. fold a in Hp1 |- *. fold b in Hp1 |- *.
    replace (b + (r + k)) with (b + r + k) by lia. apply (Permutation_cons_inv (a := b + r)).
    etransitivity; [|etransitivity; [exact Hp1|apply perm_second]].
    rewrite Permutation_swap. apply Permutation_cons; [done|]. apply Permutation_middle.
Qed.

Lemma join_next_spec (Q : unit -> mhstate -> Prop) : join_post Q -> wp (join_next p b) Q (at_heap s p m h1).
Proof using All.
  intros HQ. pose proof join_wf as Hw1'. pose proof join_at as Eb.
  pose proof (bw_next _ _ _ _ _ _ _ Hw1') as Hnx. pose proof (bw_next_magic _ _ _ _ _ _ _ Hw1') as Hmg. rewrite Eb in Hnx, Hmg.
  unfold join_next. wp_step. eapply (wp_field it_next); [exact Hnx|]. intros i Hi Ei. simpl in Hi. rewrite Ei. wp_step.
  eapply (wp_is_used _ _ (match l2 with (_, v) :: _ => v | [] => true end)).
  { etransitivity; [exact Hmg|]. clear. by destruct l2 as [|[? ?] ?]. }
  assert ((exists k l3, l2 = (k, false) :: l3) \/
    match l2 with (_, v) :: _ => v | [] => true end = true /\ absorb_right r l2 = (r, l2)) as [(k & l3 & El)|[-> Er]].
  { clear. destruct l2 as [|[k [|]] l3]; simpl; eauto. }
  - pose proof (join_free k l3 Q El HQ) as Hj. rewrite El. simpl. wp_step. eapply wp_item; [exact Hi|]. by rewrite Ei.
  - simpl. wp_step. by apply join_none.
Qed.
End join.

Lemma shrink_block_spec (Q : unit -> mhstate -> Prop) :
  (forall h' fl', blocks_wf h' p (mh_start_addr m) mh_shrunk -> free_ring h' (free_header p) fl' ->
     fl' ≡ₚ frees (mh_start_addr m) mh_shrunk -> Q tt (at_heap s p (set_mh_available (free_bytes mh_shrunk) m) h')) ->
  wp (shrink_block junk p a sz) Q (at_heap s p m h).
Proof.
  intros HQ. unfold shrink_block, RT_MEMHEAP_SIZE. cbv zeta. replace (a + sz + 24) with (a + (sz + 24)) by lia. wp_step.
  eapply (cut_used junk s p m h l1 n sz l2 Hsz4 Hsz fl); [done..|]. intros h1 Hw1 Hf1 Hnew.
  set (b := a + (sz + 24)) in *.
  wp_step. apply join_next_spec; [done..|]. intros h2 fl2 v Hw2 Hf2 Hnew2 Hp2 Hv Hv0. fold b in Hnew2, Hp2.
  pose proof Ha as [A1 A2 A3 A4 A5 A6 A7]. unfold RT_MEMHEAP_SIZE in A4.
  assert (field it_next h2 b = Some (b + (absorb_right r l2).1)) as Hb2.
  { pose proof Hw2 as Hw2'. unfold mh_shrunk in Hw2'. rewrite cons_middle, app_assoc in Hw2'.
    pose proof (bw_next _ _ _ _ _ _ _ Hw2') as Hx. rewrite mh_total_app in Hx. simpl in Hx.
    by replace (mh_start_addr m + (mh_total l1 + (sz + 24 + 0))) with b in Hx by (unfold b, a; lia). }
  set (m1 := set_mh_available v m). wp_step.
  eapply insert_free_spec; [apply heaps_at|..]; change (mh_free_list m1) with (mh_free_list m); rewrite ?A6; [done|by eapply field_is_Some|done|].
  intros h3 Hb3 Hf3. simpl in Hb3. change (set_items h3 _) with (at_heap s p m1 h3).
  pose proof (free_bytes_bound _ (bw_sizes _ _ _ _ Hw2)) as Hfb. pose proof (bw_sizes _ _ _ _ Hw2) as Hsz2.
  assert (mh_total mh_shrunk = mh_total (l1 ++ (n, true) :: l2)) as Et.
  { unfold mh_shrunk. rewrite !mh_total_app. simpl. unfold r. destruct l2 as [|[k [|]] l3]; simpl; lia. }
  unfold mh_shrunk in Hsz2. rewrite cons_middle, app_assoc in Hsz2. destruct (mh_sizes_mid _ _ _ _ Hsz2) as (_ & Hr & _ & _).
  wp_step. apply wp_memitem_size with (absorb_right r l2).1; [simpl; by rewrite (proj1 (Hb3 b))|lia|].
  apply wp_upd_at. simpl. rewrite uwrap_small by lia.
  replace (v + ((absorb_right r l2).1 - 24)) with (free_bytes mh_shrunk) by lia.
  apply (HQ h3 (b :: fl2)); [by eapply bw_same|done|done].
Qed.
End shrink.

(** The bytes of the area exist. *)
Definition mh_data (s : mhstate) (m : rt_memheap) : Prop :=
  mapped (mh_bytes s) (mh_start_addr m) (mh_pool_size m) /\ mem_ok (mh_bytes s).

(** The block [q] of [n] bytes has become a block [r] of at least [newsize] bytes with the
    same data, in place or where no block was; the other blocks and their data are as before. *)
Definition mh_moved (s s' : mhstate) (m m' : rt_memheap) l l' (q n r newsize : Z) : Prop :=
  exists k, newsize <= k /\
    (forall i, 0 <= i < n `min` newsize -> mh_bytes s' !! (r + i) = mh_bytes s !! (q + i)) /\
    (forall x j, mh_block m' l' x j <-> mh_block m l x j /\ x <> q \/ x = r /\ j = k) /\
    (forall x j i, mh_block m l x j -> x <> q -> 0 <= i < j -> mh_bytes s' !! (x + i) = mh_bytes s !! (x + i)) /\
    (r = q \/ forall j, ~ mh_block m l r j).

(** Taking the lock and giving it back *)
Lemma relock s p m : heaps s !! p = Some m -> mh_lock m = 1 ->
  at_heap s p (set_mh_lock (mh_lock (set_mh_lock 0 m) + 1) (set_mh_lock 0 m)) (items s) = s.
Proof. intros Hm Hl. rewrite (at_heap_id s p m Hm) at 3. f_equal. rewrite <- Hl. by destruct m. Qed.

Lemma wp_mh_on_bytes {A} (c : M mem A) s (Q : A -> mhstate -> Prop) :
  wp c (fun a b => Q a (set_mh_bytes b s)) (mh_bytes s) -> wp (mh_on_bytes c) Q s.
Proof. unfold wp, mh_on_bytes. by destruct (c (mh_bytes s)). Qed.

Lemma mh_inv_bytes s p m l fl b : mh_inv s p m l fl -> mh_inv (set_mh_bytes b s) p m l fl.
Proof. intros []. by split. Qed.

Lemma coalesced_replace l1 l2 l3 : coalesced (l1 ++ l2) -> (forall b, coalesced_from b l2 -> coalesced_from b l3) -> coalesced (l1 ++ l3).
Proof. unfold coalesced. rewrite !mh_coalesced_app. naive_solver. Qed.

Section realloc.
Context (junk : Z -> rt_memheap_item) (s : mhstate) (p : Z) (m : rt_memheap) (l : mh_layout) (fl : list Z) (q n newsize : Z).
Context (Hi : mh_inv s p m l fl) (Hd : mh_data s m) (Hb : mh_block m l q n) (Hnew : 0 < newsize <= 2 ^ 32 - 16).

Definition realloc_post (r : Z) (s' : mhstate) : Prop :=
  exists m' l' fl', mh_inv s' p m' l' fl' /\ mh_same m m' /\ mh_data s' m' /\
    (r = RT_NULL /\ s' = s /\ m' = m /\ l' = l \/ mh_moved s s' m m' l l' q n r newsize).

(** The block is copied to a new one. *)
Lemma realloc_copy :
  let sz := mh_request newsize in
  wp (new_ptr ← rt_memheap_alloc junk p sz;
      when (negb (new_ptr =? RT_NULL)) (
        mh_on_bytes (rt_memcpy new_ptr q (if n <? sz then n else sz));; rt_memheap_free q);;
      mret new_ptr) realloc_post s.
Proof using All.
  intros sz. destruct (mh_request_range newsize ltac:(lia)) as (R1 & R2 & R3). fold sz in R1, R2, R3.
  assert (0 <= sz <= 2 ^ 32 - 4) as Hsz by (Z.to_euclidean_division_equations; lia).
  destruct (alloc_blocks junk s p m l fl sz Hi Hsz) as (r & s1 & m1 & l1 & fl1 & E & Hi1 & [Hs1 Hs2] & Hb1 & Hcase).
  wp_step. eapply ok_wp; [exact E|]. destruct Hcase as [(-> & -> & -> & -> & _)|(k & Hk & _ & Hr0 & Hblk & Hdisj)].
  { simpl. repeat wp_step. exists m, l, fl. split_and!; [done|done|done|by left]. }
  assert (mh_block m1 l1 r k) as Hr by (apply Hblk; auto). assert (mh_block m1 l1 q n) as Hq by (apply Hblk; auto).
  pose proof (mh_block_range _ _ _ _ _ _ _ Hi1 Hr) as Hrr. pose proof (mh_block_range _ _ _ _ _ _ _ Hi Hb) as Hqr.
  specialize (Hdisj _ _ Hb) as Hd1. rewrite (proj2 (Z.eqb_neq _ _)) by done. simpl.
  pose proof (mi_area _ _ _ _ _ Hi) as []. rewrite Hs1, Hs2 in Hrr. destruct Hd as [Hmap Hok].
  set (c := if n <? sz then n else sz). assert (0 <= c /\ c <= n /\ c <= k /\ n `min` newsize <= c) as (C1 & C2 & C3 & C4)
    by (unfold c; case_match; lia).
  wp_step. wp_step. apply wp_mh_on_bytes. rewrite Hb1.
  eapply wp_mono; [apply (rt_memcpy_spec (mh_bytes s) r q c); [done|lia|intros x Hx; apply Hmap; lia|intros x Hx; apply Hmap; lia|lia|lia]|].
  intros _ b' [_ Hcp].
  destruct (free_blocks (set_mh_bytes b' s1) p m1 l1 fl1 q n (mh_inv_bytes _ _ _ _ _ _ Hi1) Hq)
    as (s3 & m3 & l3 & fl3 & Hf & Hi3 & [Hs3 Hs4] & Hb3 & _ & Hblk3).
  eapply ok_wp; [exact Hf|]. wp_step. exists m3, l3, fl3. split_and!; [done|split; congruence| |].
  { split; rewrite Hb3; simpl.
    - intros x Hx. rewrite Hcp. case_decide; apply Hmap; [lia|]. rewrite Hs3, Hs4, Hs1, Hs2 in Hx. lia.
    - intros x v. rewrite Hcp. case_decide; apply Hok. }
  right.
  exists k. rewrite Hb3. simpl. split_and!; [lia| | | |].
  - intros i Hlt. rewrite Hcp, decide_True by lia. f_equal. lia.
  - intros x j. rewrite Hblk3, Hblk. intuition lia.
  - intros x j i Hx Hne Hlt. rewrite Hcp, decide_False; [done|]. specialize (Hdisj _ _ Hx). lia.
  - right. intros j Hx. pose proof (mh_block_range _ _ _ _ _ _ _ Hi Hx). specialize (Hdisj _ _ Hx). lia.
Qed.

Lemma realloc_kept : newsize <= n -> realloc_post q s.
Proof using Hi Hb Hnew Hd.
  intros Hn. exists m, l, fl. split_and!; [done|done|done|]. right. exists n. split_and!; [done|done| |done|by left].
  intros x j. split; [|intros [[? _]|[-> ->]]; done]. intros Hx.
  destruct (mh_block_apart _ _ _ _ _ _ _ _ _ Hi Hx Hb) as [?|?]; [right; lia|left].
  split; [done|]. pose proof (mh_block_range _ _ _ _ _ _ _ Hi Hx). lia.
Qed.

(** The block keeps its place and gets a new size; a free block behind it changes. *)
Lemma realloc_resized m' l' h' fl' k :
  mh_inv (at_heap s p m' h') p m' l' fl' -> mh_same m m' -> newsize <= k ->
  (forall x j, in_use (mh_start_addr m) l' x j <-> in_use (mh_start_addr m) l x j /\ x <> q - 24 \/ x = q - 24 /\ j = k + 24) ->
  realloc_post q (at_heap s p m' h').
Proof using Hnew junk Hd.
  intros Hi' Hs Hk Hu. exists m', l', fl'. split_and!; [done|done|unfold mh_data; by rewrite (proj1 Hs), (proj2 Hs)|]. right. exists k. split_and!; [done|done| |done|by left].
  intros x j. unfold mh_block, RT_MEMHEAP_SIZE. rewrite (proj1 Hs), Hu. intuition lia.
Qed.

(** The block grows into the free block behind it. *)
Lemma realloc_expand l1 k l2 :
  let a := mh_start_addr m + mh_total l1 in let sz := mh_request newsize in
  l = l1 ++ (n + 24, true) :: (k, false) :: l2 -> q = a + 24 -> n < sz -> sz + 36 <= n + k ->
  wp (expand_block junk p q a (a + (n + 24)) n sz;; mh_release_lock p;; mret q) realloc_post
    (at_heap s p (set_mh_lock 0 m) (items s)).
Proof using All.
  intros a sz El Eq Hlt Hfit. destruct (mh_request_range newsize ltac:(lia)) as (R1 & R2 & R3). fold sz in R1, R2, R3.
  destruct (mh_inv_bounds _ _ _ _ _ Hi) as [B1 B2]. pose proof Hi as [I1 I2 I3 I4 I5 I6 I7 I8 I9]. rewrite El in *.
  assert (a + (n + 24) ∈ fl) as Hin.
  { rewrite I5, frees_app. simpl. fold a. set_solver. }
  apply list_elem_of_split in Hin as (xs & ys & Efl). rewrite Efl in *.
  assert (k - 24 <= mh_available_size m) as Hav.
  { rewrite I7. pose proof (bw_sizes _ _ _ _ I3) as Hs. change (?x :: ?y :: l2) with ([x] ++ y :: l2) in Hs |- *.
    rewrite app_assoc in Hs |- *. by apply free_bytes_mid. }
  set (m0 := set_mh_lock 0 m). wp_step. rewrite Eq. replace n with (n + 24 - 24) at 2 by lia.
  eapply (expand_block_spec junk s p m0 (items s) l1 (n + 24) sz l2 R3 ltac:(lia) k xs ys); try done; [by apply (mh_area_same p m)|lia..| |].
  { simpl. lia. }
  intros h' fl' Hw' Hf' Hp'. wp_step. apply wp_unlock_at. wp_step. replace (n + 24 - 24) with n by lia.
  set (l' := l1 ++ (sz + 24, true) :: (n + 24 + k - (sz + 24), false) :: l2) in *.
  assert (mh_total l' = mh_total (l1 ++ (n + 24, true) :: (k, false) :: l2)) as Et by (unfold l'; rewrite !mh_total_app; simpl; lia).
  rewrite <- Eq. eapply realloc_resized with (k := sz) (l' := l') (fl' := fl'); [|done|lia|].
  - split; simpl; try done.
    + apply lookup_insert_eq.
    + rewrite Et. by apply (mh_area_same p m).
    + eapply coalesced_replace; [exact I6|]. intros b. simpl. tauto.
    + rewrite I7. unfold l'. rewrite !free_bytes_app. simpl. unfold RT_MEMHEAP_SIZE. lia.
    + lia.
  - intros x j. unfold l'. rewrite El, !in_use_app, Eq. simpl. replace (a + 24 - 24) with a by lia. fold a.
    pose proof (bw_sizes _ _ _ _ I3) as Hs. destruct (mh_sizes_mid _ _ _ _ Hs) as (S1 & S2 & S3 & [_ S4]%Forall_cons).
    replace (a + (sz + 24) + (n + 24 + k - (sz + 24))) with (a + (n + 24) + k) by lia.
    split.
    + intros [Hx|[(_ & -> & ->)|[[? _]|Hx]]]; [|by right|done|].
      * left. split; [by left|]. apply in_use_range in Hx; [|done]. unfold a. lia.
      * left. split; [by do 3 right|]. apply in_use_range in Hx; [|done]. lia.
    + intros [[[Hx|[(_ & -> & _)|[[? _]|Hx]]] ?]|[-> ->]]; try done; naive_solver.
Qed.

(** The block is cut. *)
Lemma realloc_shrink l1 l2 :
  let a := mh_start_addr m + mh_total l1 in let sz := mh_request newsize in
  l = l1 ++ (n + 24, true) :: l2 -> q = a + 24 -> sz + 36 <= n ->
  wp (shrink_block junk p a sz;; mh_release_lock p;; mret q) realloc_post (at_heap s p (set_mh_lock 0 m) (items s)).
Proof using All.
  intros a sz El Eq Hfit. destruct (mh_request_range newsize ltac:(lia)) as (R1 & R2 & R3). fold sz in R1, R2, R3.
  destruct (mh_inv_bounds _ _ _ _ _ Hi) as [B1 B2]. pose proof Hi as [I1 I2 I3 I4 I5 I6 I7 I8 I9]. rewrite El in *.
  destruct (mh_sizes_mid _ _ _ _ (bw_sizes _ _ _ _ I3)) as (S1 & S2 & S3 & S4).
  set (m0 := set_mh_lock 0 m). wp_step.
  apply (shrink_block_spec junk s p m0 (items s) l1 (n + 24) sz l2 fl R3 ltac:(lia) ltac:(lia)); [done|by apply (mh_area_same p m)|done..|].
  intros h' fl' Hw' Hf' Hp'. wp_step. apply wp_unlock_at. wp_step. set (r := n + 24 - (sz + 24)) in *.
  set (l' := mh_shrunk l1 (n + 24) sz l2) in *.
  assert (mh_total l' = mh_total (l1 ++ (n + 24, true) :: l2)) as Et.
  { unfold l', mh_shrunk. rewrite !mh_total_app. simpl. destruct l2 as [|[k [|]] l3]; simpl; lia. }
  assert (mh_available_size m <= free_bytes l') as Hgain.
  { rewrite I7. unfold l', mh_shrunk. rewrite !free_bytes_app. simpl. unfold RT_MEMHEAP_SIZE. destruct l2 as [|[k [|]] l3]; simpl; unfold RT_MEMHEAP_SIZE; lia. }
  eapply realloc_resized with (k := sz) (l' := l') (fl' := fl'); [|done|lia|].
  - split; simpl; try done; [apply lookup_insert_eq| | |lia].
    + rewrite Et. by apply (mh_area_same p m).
    + eapply coalesced_replace; [exact I6|]. intros b. simpl. rewrite !orb_true_r. intros [_ Hc].
      split_and!; [done|done|]. by apply absorb_right_spec.
  - intros x j. unfold l', mh_shrunk. fold r. rewrite El, !in_use_app, Eq. simpl. replace (a + 24 - 24) with a by lia. fold a.
    assert (in_use (a + (sz + 24) + (absorb_right r l2).1) (absorb_right r l2).2 x j <-> in_use (a + (n + 24)) l2 x j) as ->.
    { destruct l2 as [|[k [|]] l3]; simpl; [done| |].
      - by replace (a + (sz + 24) + r) with (a + (n + 24)) by lia.
      - replace (a + (sz + 24) + (r + k)) with (a + (n + 24) + k) by lia. naive_solver. }
    split.
    + intros [Hx|[(_ & -> & ->)|[[? _]|Hx]]]; [|by right|done|].
      * left. split; [by left|]. apply in_use_range in Hx; [|done]. unfold a. lia.
      * left. split; [by do 2 right|]. apply in_use_range in Hx; [|done]. lia.
    + intros [[[Hx|[(_ & -> & _)|Hx]] ?]|[-> ->]]; try done; naive_solver.
Qed.

Lemma realloc_blocks : exists r s', rt_memheap_realloc junk p q newsize s = Ok r s' /\ realloc_post r s'.
Proof using All.
  apply wp_ok. destruct (mh_block_split _ _ _ _ Hb) as (l1 & l2 & El & Eq).
  pose proof Hi as [I1 I2 I3 I4 I5 I6 I7 I8 I9]. pose proof I2 as [A1 A2 A3 A4 A5 A6 A7]. unfold RT_MEMHEAP_SIZE in A4.
  pose proof (mh_block_range _ _ _ _ _ _ _ Hi Hb) as (Q1 & Q2 & Q3 & _). rewrite El in I3, A4. rewrite mh_total_app in A4. simpl in A4.
  destruct (mh_request_range newsize ltac:(lia)) as (R1 & R2 & R3). set (a := mh_start_addr m + mh_total l1) in *.
  destruct (bw_sizes_mid _ _ _ _ _ _ _ I3) as (S1 & S2 & S3 & S4 & S5 & S6).
  assert (mh_request newsize <= 2 ^ 32 - 16) as R4
    by (pose proof (mh_request_upper newsize ltac:(lia)); Z.to_euclidean_division_equations; lia).
  unfold rt_memheap_realloc. rewrite (proj2 (Z.eqb_neq newsize 0)), (proj2 (Z.eqb_neq q RT_NULL)) by (unfold RT_NULL; lia).
  cbv zeta. unfold RT_MEMHEAP_SIZE, RT_MEMHEAP_MINIALLOC. replace (q - 24) with a by lia. set (sz := mh_request newsize) in *.
  wp_step. apply wp_memitem_size with (n + 24); [exact (bw_next _ _ _ _ _ _ _ I3)|lia|]. replace (n + 24 - 24) with n by lia.
  destruct (Z.ltb_spec n sz) as [Hlt|Hge].
  - pose proof realloc_copy as Hcopy. cbv zeta in Hcopy. fold sz in Hcopy. rewrite (proj2 (Z.ltb_lt n sz) Hlt) in Hcopy.
    rewrite (at_heap_id s p m I1). wp_step. apply wp_lock_at; [done|]. wp_step.
    eapply (wp_field it_next); [exact (bw_next _ _ _ _ _ _ _ I3)|]. intros i _ ->. fold a.
    wp_step. apply wp_assert; [apply Z.ltb_lt; lia|]. wp_step.
    eapply wp_is_used with (u := match l2 with (_, v) :: _ => v | [] => true end).
    { etransitivity; [exact (bw_next_magic _ _ _ _ _ _ _ I3)|]. by destruct l2 as [|[? ?] ?]. }
    destruct l2 as [|[k [|]] l3]; simpl negb; cbv iota.
    1,2: wp_step; wp_step; wp_step; apply wp_unlock_at; rewrite relock by done; exact Hcopy.
    pose proof I3 as I3'. change (?x :: ?y :: l3) with ([x] ++ y :: l3) in I3'. rewrite app_assoc in I3'.
    apply Forall_cons in S4 as [[S7 _] S8]. simpl in S6, S7, A4. pose proof (mh_sizes_total l3 S8).
    wp_step. wp_step. apply wp_memitem_size with k; [|lia|].
    { pose proof (bw_next _ _ _ _ _ _ _ I3') as Hx. rewrite mh_total_app in Hx. simpl in Hx.
      by replace (mh_start_addr m + (mh_total l1 + (n + 24 + 0))) with (a + (n + 24)) in Hx by (unfold a; lia). }
    wp_step. apply wp_assert; [apply Z.ltb_lt; lia|]. wp_step. rewrite !uwrap_small by lia.
    destruct (Z.ltb_spec (sz + 12) (k - 24 + n)).
    + by apply (realloc_expand l1 k l3); [| |lia|lia].
    + wp_step. apply wp_unlock_at. rewrite relock by done. exact Hcopy.
  - rewrite uwrap_small by lia. destruct (Z.leb_spec n (sz + 24 + 12)).
    + wp_step. apply realloc_kept. lia.
    + rewrite (at_heap_id s p m I1). wp_step. apply wp_lock_at; [done|]. by apply (realloc_shrink l1 l2); [| |lia].
Qed.
End realloc.

(** ** Initialisation *)

(** An area with room for both headers and a block, and the heap object outside it *)
Record mh_place (p start size : Z) : Prop := {
  pl_ptr : p <> RT_NULL;
  pl_start : 0 < start;
  pl_align : start mod 4 = 0;
  pl_size : 0 <= size /\ 60 <= RT_ALIGN_DOWN size 4;
  pl_end : start + RT_ALIGN_DOWN size 4 < 2 ^ 32;
  pl_apart : free_header p < start \/ start + RT_ALIGN_DOWN size 4 - 24 < free_header p
}.

(** One free block *)
Lemma bw_one h p start n :
  start <> start + n -> 36 <= n -> n mod 4 = 0 ->
  field it_next h start = Some (start + n) -> field it_prev h start = Some (start + n) ->
  field it_magic h start = Some RT_MEMHEAP_MAGIC -> field it_pool_ptr h start = Some p ->
  field it_next h (start + n) = Some start -> field it_prev h (start + n) = Some start ->
  field it_magic h (start + n) = Some (magic_of true) -> blocks_wf h p start [(n, false)].
Proof.
  intros Hne Hn Hm H1 H2 H3 H4 H5 H6 H7. split; simpl; rewrite ?Z.add_0_r; [by repeat constructor| |done|done].
  split; simpl; [done..|]. apply NoDup_cons. split; [set_solver|apply NoDup_singleton].
Qed.

Lemma rt_memheap_init_spec junk p start size s (Q : Z -> mhstate -> Prop) :
  mh_place p start size ->
  (forall s' m, mh_inv s' p m [(RT_ALIGN_DOWN size 4 - 24, false)] [start] -> mh_start_addr m = start ->
     mh_pool_size m = RT_ALIGN_DOWN size 4 -> mh_bytes s' = mh_bytes s -> Q RT_EOK s') ->
  wp (rt_memheap_init junk p start size) Q s.
Proof.
  intros [P1 P2 P3 [P4 P4'] P5 P6] HQ. unfold rt_memheap_init, new_item. set (pool := RT_ALIGN_DOWN size 4) in *.
  assert (pool mod 4 = 0) as Hpm.
  { unfold pool. rewrite RT_ALIGN_DOWN_4 by done. Z.to_euclidean_division_equations; lia. }
  set (fh := free_header p) in *. unfold RT_MEMHEAP_SIZE. set (e := start + (pool - 24)).
  wp_step. apply wp_assert; [apply negb_true_iff, Z.eqb_neq; done|]. do 6 wp_step.
  wp_step. wp_step. cbv zeta. rewrite !(uwrap_small 32 (pool - 2 * 24)) by lia. rewrite !uwrap_small by lia.
  replace (start + (pool - 2 * 24) + 24) with e by (unfold e; lia). replace (pool - (pool - 2 * 24)) with 48 by lia.
  simpl. set (m := mk_memheap start pool (pool - 2 * 24) 48 start fh 0).
  set (h0 := <[start := _]> _).
  assert (field it_next_free h0 fh = Some fh /\ field it_prev_free h0 fh = Some fh) as [F1 F2].
  { unfold field, h0. rewrite !lookup_insert_ne, lookup_insert_eq by (unfold e in *; lia). done. }
  assert (h0 !! start = Some (mk_item RT_MEMHEAP_MAGIC p RT_NULL RT_NULL start start)) as F3 by apply lookup_insert_eq.
  clearbody h0. wp_step. apply wp_upd_item; [simpl; eauto|]. simpl items.
  wp_step. eapply (wp_field it_next) with (v := e).
  { simpl. rewrite (field_alter_set it_next _ e) by eauto. by rewrite decide_True. }
  intros i _ ->. wp_step. apply wp_upd_item; [simpl; rewrite alter_is_Some; eauto|]. simpl items.
  set (h1 := alter _ start (alter _ start h0)).
  assert (is_Some (h0 !! start)) as F4 by eauto.
  assert (free_ring h1 fh []) as Hr.
  { split; [| |apply NoDup_singleton]; simpl; unfold h1; by fields. }
  wp_step. eapply insert_free_spec with (m := m) (fl := []).
  { simpl. apply lookup_insert_eq. }
  { exact Hr. }
  { simpl. unfold h1. rewrite !alter_is_Some. done. }
  { simpl. unfold e in *. set_solver by lia. }
  intros h2 Hb2 Hf2. simpl in Hb2. simpl mh_free_list in Hf2.
  assert (field it_next h2 start = Some e) as G1.
  { rewrite (proj1 (Hb2 start)). unfold h1. fields. by rewrite decide_True. }
  assert (field it_prev h2 start = Some e) as G2.
  { rewrite (proj1 (proj2 (Hb2 start))). unfold h1. fields. by rewrite decide_True. }
  assert (field it_magic h2 start = Some RT_MEMHEAP_MAGIC /\ field it_pool_ptr h2 start = Some p) as [G3 G4].
  { destruct (Hb2 start) as (_ & _ & -> & ->). unfold h1. fields. unfold field. by rewrite F3. }
  wp_step. eapply (wp_field it_next); [exact G1|]. intros j _ ->. wp_step. wp_step. simpl. wp_step.
  eapply wp_upd_mh; [simpl; apply lookup_insert_eq|]. wp_step. simpl. rewrite insert_insert_eq.
  set (h3 := <[e := _]> h2).
  assert (start <> e) by (unfold e; lia). assert (fh <> e) by (unfold e; lia).
  apply HQ with (set_mh_lock 1 m); [|done..]. split; simpl; try done.
  - apply lookup_insert_eq.
  - split; simpl; try done; [unfold RT_MEMHEAP_SIZE; lia|]. fold fh. lia.
  - apply bw_one; [done|lia|Z.to_euclidean_division_equations; lia|..]; try (unfold h3; rewrite field_insert_ne by done; done); fold e;
      unfold field, h3; by rewrite lookup_insert_eq.
  - eapply free_ring_ext; [|exact Hf2]. intros x Hx. unfold h3. fold fh in Hx. rewrite !field_insert_ne by set_solver. done.
  - unfold RT_MEMHEAP_SIZE. lia.
  - lia.
Qed.

(** ** A program that uses one heap *)

(** [live] has the blocks the program holds, with the sizes it asked for. *)
Definition mh_holds (m : rt_memheap) l (live : gmap Z Z) : Prop :=
  map_Forall (fun q n => 0 <= n /\ exists k, n <= k /\ mh_block m l q k) live.

Inductive mh_reach (junk : Z -> rt_memheap_item) (p start size : Z) : mhstate -> gmap Z Z -> Prop :=
| mr_init s s' :
    mh_place p start size -> mapped (mh_bytes s) start (RT_ALIGN_DOWN size 4) -> mem_ok (mh_bytes s) ->
    rt_memheap_init junk p start size s = Ok RT_EOK s' -> mh_reach junk p start size s' ∅
| mr_alloc s live n r s' :
    mh_reach junk p start size s live -> 0 <= n <= 2 ^ 32 - 4 -> rt_memheap_alloc junk p n s = Ok r s' ->
    mh_reach junk p start size s' (if decide (r = RT_NULL) then live else <[r := n]> live)
| mr_free s live q n s' :
    mh_reach junk p start size s live -> live !! q = Some n -> rt_memheap_free q s = Ok tt s' ->
    mh_reach junk p start size s' (delete q live)
| mr_realloc s live q n newsize r s' :
    mh_reach junk p start size s live -> live !! q = Some n -> 0 < newsize <= 2 ^ 32 - 16 ->
    rt_memheap_realloc junk p q newsize s = Ok r s' ->
    mh_reach junk p start size s' (if decide (r = RT_NULL) then live else <[r := newsize]> (delete q live))
| mr_write s live q n i v :
    mh_reach junk p start size s live -> live !! q = Some n -> 0 <= i < n -> 0 <= v < 256 ->
    mh_reach junk p start size (set_mh_bytes (<[q + i := v]> (mh_bytes s)) s) live.

(** What holds at any time *)
Definition mh_safe (p start size : Z) (s : mhstate) (live : gmap Z Z) : Prop :=
  exists m l fl, mh_inv s p m l fl /\ mh_data s m /\ mh_holds m l live /\
    mh_start_addr m = start /\ mh_pool_size m = RT_ALIGN_DOWN size 4.

Lemma mh_data_same s s' m m' :
  mh_same m m' -> mh_data s m -> (forall a, is_Some (mh_bytes s !! a) -> is_Some (mh_bytes s' !! a)) -> mem_ok (mh_bytes s') -> mh_data s' m'.
Proof. intros [E1 E2] [H1 H2] Hm Ho. split; [|done]. rewrite E1, E2. intros a Ha. by apply Hm, H1. Qed.

Lemma holds_alloc junk s p m l fl live n r s' :
  mh_inv s p m l fl -> mh_holds m l live -> 0 <= n <= 2 ^ 32 - 4 -> rt_memheap_alloc junk p n s = Ok r s' ->
  exists m' l' fl', mh_inv s' p m' l' fl' /\ mh_same m m' /\ mh_bytes s' = mh_bytes s /\
    mh_holds m' l' (if decide (r = RT_NULL) then live else <[r := n]> live).
Proof.
  intros Hi Hh Hn E. destruct (alloc_blocks junk s p m l fl n Hi Hn) as (r' & s1 & m1 & l1 & fl1 & E' & Hi1 & Hs1 & Hb1 & Hcase).
  rewrite E in E'. injection E' as <- <-. exists m1, l1, fl1. split_and!; try done.
  destruct Hcase as [(-> & -> & -> & -> & _)|(k & Hk & _ & Hr & Hblk & _)]; [by rewrite decide_True|].
  rewrite decide_False by done. apply map_Forall_insert_2.
  - split; [lia|]. exists k. split; [done|]. apply Hblk. by right.
  - intros q j Hq. destruct (Hh q j Hq) as (? & k' & ? & ?). split; [done|]. exists k'. split; [done|]. apply Hblk. by left.
Qed.

Lemma holds_free s p m l fl live q n s' :
  mh_inv s p m l fl -> mh_holds m l live -> live !! q = Some n -> rt_memheap_free q s = Ok tt s' ->
  exists m' l' fl', mh_inv s' p m' l' fl' /\ mh_same m m' /\ mh_bytes s' = mh_bytes s /\ mh_holds m' l' (delete q live).
Proof.
  intros Hi Hh Hq E. destruct (Hh q n Hq) as (_ & k & _ & Hbk).
  destruct (free_blocks s p m l fl q k Hi Hbk) as (s1 & m1 & l1 & fl1 & E' & Hi1 & Hs1 & Hb1 & _ & Hblk).
  rewrite E in E'. injection E' as <-. exists m1, l1, fl1. split_and!; try done.
  intros x j [Hne Hx]%lookup_delete_Some. destruct (Hh x j Hx) as (? & k' & ? & ?). split; [done|].
  exists k'. split; [done|]. by apply Hblk.
Qed.

Lemma mh_reach_safe junk p start size s live : mh_reach junk p start size s live -> mh_safe p start size s live.
Proof.
  intros Hr. induction Hr as [s s' Hp Hmap Hok E|s live n r s' _ (m & l & fl & Hi & Hd & Hh & E1 & E2) Hn E
    |s live q n s' _ (m & l & fl & Hi & Hd & Hh & E1 & E2) Hq E
    |s live q n newsize r s' _ (m & l & fl & Hi & Hd & Hh & E1 & E2) Hq Hn E
    |s live q n i v _ (m & l & fl & Hi & Hd & Hh & E1 & E2) Hq Hlt Hv].
  - pose proof (rt_memheap_init_spec junk p start size s (fun _ s' => mh_safe p start size s' ∅) Hp) as Hw.
    unfold wp in Hw. rewrite E in Hw. apply Hw. intros s1 m Hi Hs Hpl Hb. exists m, [(RT_ALIGN_DOWN size 4 - 24, false)], [start].
    split_and!; try done. split; [rewrite Hs, Hpl, Hb|rewrite Hb]; done.
  - destruct (holds_alloc junk s p m l fl live n r s' Hi Hh Hn E) as (m1 & l1 & fl1 & Hi1 & Hs1 & Hb1 & Hh1).
    exists m1, l1, fl1. pose proof Hs1 as [S1 S2]. split_and!; [done| |done|congruence|congruence].
    eapply mh_data_same; [done..| |]; rewrite Hb1; [done|apply Hd].
  - destruct (holds_free s p m l fl live q n s' Hi Hh Hq E) as (m1 & l1 & fl1 & Hi1 & Hs1 & Hb1 & Hh1).
    exists m1, l1, fl1. pose proof Hs1 as [S1 S2]. split_and!; [done| |done|congruence|congruence].
    eapply mh_data_same; [done..| |]; rewrite Hb1; [done|apply Hd].
  - destruct (Hh q n Hq) as (_ & k & Hk & Hbk).
    destruct (realloc_blocks junk s p m l fl q k newsize Hi Hd Hbk Hn) as (r' & s1 & E' & m1 & l1 & fl1 & Hi1 & [S1 S2] & Hd1 & Hcase).
    rewrite E in E'. injection E' as <- <-. exists m1, l1, fl1. split_and!; [done|done| |congruence|congruence].
    destruct Hcase as [(-> & -> & -> & ->)|(j & Hj & _ & Hblk & _)]; [by rewrite decide_True|].
    assert (mh_block m1 l1 r j) as Hr by (apply Hblk; auto). pose proof (mh_block_range _ _ _ _ _ _ _ Hi1 Hr).
    pose proof (mi_area _ _ _ _ _ Hi1) as []. rewrite decide_False by (unfold RT_NULL; lia). apply map_Forall_insert_2; [eauto with lia|].
    intros x i [Hne Hx]%lookup_delete_Some. destruct (Hh x i Hx) as (? & k' & ? & ?). split; [done|].
    exists k'. split; [done|]. apply Hblk. left. by split.
  - exists m, l, fl. destruct (Hh q n Hq) as (_ & k & Hk & Hbk). split_and!; [by apply mh_inv_bytes| |done..].
    destruct Hd as [Hd1 Hd2]. split; simpl.
    + intros a Ha. rewrite lookup_insert. case_decide; [eauto|]. by apply Hd1.
    + intros a b. rewrite lookup_insert. case_decide; [intros [= <-]; lia|apply Hd2].
Qed.

(** ** Allocating and freeing again *)

Lemma absorb_left_used l1 n : last_used true l1 = true -> absorb_left l1 n = (l1, n).
Proof.
  intros Hl. unfold absorb_left. destruct l1 as [|[k u] l1 _] using rev_ind; [done|].
  rewrite reverse_app. simpl. destruct u; [done|]. 
  assert (forall b, last_used b (l1 ++ [(k, false)]) = false) as Hx by (clear; induction l1 as [|[? ?] ? IH]; intros; simpl; auto).
  by rewrite Hx in Hl.
Qed.

(** The block that was cut off a free block grows together with the rest. *)
Lemma merged_carve l1 sz n l2 :
  coalesced (l1 ++ (n, false) :: l2) -> exists l3, mh_carve sz n ++ l2 = (mh_block_size sz n, true) :: l3 /\
    merged l1 (mh_block_size sz n) l3 = l1 ++ (n, false) :: l2.
Proof.
  intros [_ [Hl Hc]]%mh_coalesced_app. rewrite orb_false_r in Hl. unfold mh_carve, mh_block_size, merged.
  rewrite absorb_left_used by done. simpl. destruct (mh_cuts sz n).
  - eexists. split; [done|]. simpl. by replace (sz + 24 + (n - (sz + 24))) with n by lia.
  - exists l2. split; [done|]. by destruct l2 as [|[k [|]] l3]; destruct Hc.
Qed.

(** ** The theorems *)

Section theorems.
Context (junk : Z -> rt_memheap_item).

(** rt_memheap_alloc returns an aligned block of at least the requested size that overlaps
    no block in use and adds it to the blocks in use, or returns NULL and changes nothing,
    when the free bytes are not more than the request or no free block is large enough. *)
Theorem rt_memheap_alloc_correct s p m l fl size :
  mh_inv s p m l fl -> 0 <= size <= 2 ^ 32 - 4 ->
  exists r s' m' l' fl', rt_memheap_alloc junk p size s = Ok r s' /\ mh_inv s' p m' l' fl' /\ mh_same m m' /\
    mh_bytes s' = mh_bytes s /\
    (r = RT_NULL /\ s' = s /\
       (mh_available_size m <= mh_request size \/ forall l1 n l2, l = l1 ++ (n, false) :: l2 -> n - 24 < mh_request size) \/
     exists n, size <= n /\ r mod 4 = 0 /\ r <> RT_NULL /\
       (forall q k, mh_block m' l' q k <-> mh_block m l q k \/ q = r /\ k = n) /\
       (forall q k, mh_block m l q k -> q + k <= r - 24 \/ r + n <= q - 24)).
Proof.
  intros Hi Hs. destruct (alloc_blocks junk s p m l fl size Hi Hs) as (r & s' & m' & l' & fl' & E & H1 & H2 & H3 & Hc).
  exists r, s', m', l', fl'. split_and!; try done. destruct Hc as [(-> & -> & -> & -> & Hf)|Hc]; [by left|by right].
Qed.

(** C26: A block that is allocated and freed again leaves the heap as it was: the same blocks in
    the same places, merged again, and the same number of available bytes. *)
Theorem memheap_alloc_free_roundtrip s p m l fl size r s' :
  mh_inv s p m l fl -> 0 <= size <= 2 ^ 32 - 4 -> rt_memheap_alloc junk p size s = Ok r s' -> r <> RT_NULL ->
  exists s'' m'' fl'', rt_memheap_free r s' = Ok tt s'' /\ mh_inv s'' p m'' l fl'' /\ mh_same m m'' /\
    mh_available_size m'' = mh_available_size m /\ mh_bytes s'' = mh_bytes s.
Proof.
  intros Hi Hs Ha Hr.
  assert (wp (rt_memheap_alloc junk p size) (fun r s' => r <> RT_NULL ->
    exists l1 n l3 m' h' fl', s' = at_heap s p m' h' /\ mh_inv s' p m' (l1 ++ (n, true) :: l3) fl' /\ mh_same m m' /\
      merged l1 n l3 = l /\ r = mh_start_addr m' + mh_total l1 + 24) s) as Hw.
  { eapply rt_memheap_alloc_spec; [exact Hi|exact Hs|done|]. intros l1 n l2 fl' h' -> _ m' Hi' _.
    destruct (merged_carve l1 (mh_request size) n l2 (mi_coalesced _ _ _ _ _ Hi)) as (l3 & E3 & Em). rewrite E3 in Hi'.
    eexists l1, _, l3, m', h', fl'. done. }
  unfold wp in Hw. rewrite Ha in Hw. destruct (Hw Hr) as (l1 & n & l3 & m' & h' & fl' & -> & Hi' & Hs' & Em & ->).
  assert (wp (rt_memheap_free (mh_start_addr m' + mh_total l1 + 24)) (fun _ s'' => exists m'' fl'',
    mh_inv s'' p m'' l fl'' /\ mh_same m' m'' /\ mh_bytes s'' = mh_bytes s) (at_heap s p m' h')) as Hf.
  { eapply rt_memheap_free_spec; [exact Hi'|]. intros h2 m2 fl2 Hi2 Hs2. rewrite Em in Hi2. exists m2, fl2. done. }
  apply wp_ok in Hf as ([] & s'' & E & m'' & fl'' & Hi'' & [S1 S2] & Hb). destruct Hs'. exists s'', m'', fl''. split_and!; try done.
  - split; congruence.
  - by rewrite (mi_available _ _ _ _ _ Hi''), (mi_available _ _ _ _ _ Hi).
Qed.

(** C27: rt_memheap_realloc to a size that leaves room for its sums returns NULL and changes
    nothing, or returns a block of at least that size with the data of the old block up to
    the smaller of both sizes, whether the block is kept, grown in place, cut or moved; every
    other block stays where it is with its data. *)
Theorem rt_memheap_realloc_correct s p m l fl q n newsize :
  mh_inv s p m l fl -> mh_data s m -> mh_block m l q n -> 0 < newsize <= 2 ^ 32 - 16 ->
  exists r s' m' l' fl', rt_memheap_realloc junk p q newsize s = Ok r s' /\ mh_inv s' p m' l' fl' /\ mh_same m m' /\ mh_data s' m' /\
    (r = RT_NULL /\ s' = s \/ mh_moved s s' m m' l l' q n r newsize).
Proof.
  intros Hi Hd Hb Hn. destruct (realloc_blocks junk s p m l fl q n newsize Hi Hd Hb Hn) as (r & s' & E & m' & l' & fl' & H1 & H2 & H3 & Hc).
  exists r, s', m', l', fl'. split_and!; try done. destruct Hc as [(-> & -> & _)|Hc]; [by left|by right].
Qed.

(** C25: A program that frees and resizes only blocks it holds, and writes only within them,
    never breaks a memory heap: at any time the blocks it holds are aligned, lie within the
    area between the first and the last header and do not overlap, and the next call
    returns (no assertion fails, no search runs on for ever). *)
Theorem memheap_safe p start size s live :
  mh_reach junk p start size s live ->
  (forall q n, live !! q = Some n ->
     q mod 4 = 0 /\ start + 24 <= q /\ q + n + 24 <= start + size /\ mapped (mh_bytes s) q n) /\
  (forall q n r k, live !! q = Some n -> live !! r = Some k -> q <> r -> q + n <= r \/ r + k <= q) /\
  (forall n, 0 <= n <= 2 ^ 32 - 4 -> exists r s', rt_memheap_alloc junk p n s = Ok r s') /\
  (forall q n, live !! q = Some n -> exists s', rt_memheap_free q s = Ok tt s') /\
  (forall q n newsize, live !! q = Some n -> 0 < newsize <= 2 ^ 32 - 16 ->
     exists r s', rt_memheap_realloc junk p q newsize s = Ok r s').
Proof.
  intros Hr. assert (0 <= size) as Hsz0 by (induction Hr as [? ? [? ? ? [? ?]]| | | |]; done).
  destruct (mh_reach_safe _ _ _ _ _ _ Hr) as (m & l & fl & Hi & [Hd Hok] & Hh & E1 & E2).
  assert (RT_ALIGN_DOWN size 4 <= size) as Hal.
  { rewrite RT_ALIGN_DOWN_4 by done. Z.to_euclidean_division_equations; lia. }
  split_and!.
  - intros q n Hq. destruct (Hh q n Hq) as (Hn & k & Hk & Hb). pose proof (mh_block_range _ _ _ _ _ _ _ Hi Hb).
    split_and!; [lia|lia|lia|]. intros a Ha. apply Hd. lia.
  - intros q n r k Hq Hx Hne. destruct (Hh q n Hq) as (_ & n' & ? & Hbn). destruct (Hh r k Hx) as (_ & k' & ? & Hbk).
    destruct (mh_block_apart _ _ _ _ _ _ _ _ _ Hi Hbn Hbk); lia.
  - intros n Hn. destruct (alloc_blocks junk s p m l fl n Hi Hn) as (r & s' & m' & l' & fl' & E & _). eauto.
  - intros q n Hq. destruct (Hh q n Hq) as (_ & k & _ & Hb). destruct (free_blocks s p m l fl q k Hi Hb) as (s' & ? & ? & ? & E & _). eauto.
  - intros q n newsize Hq Hn. destruct (Hh q n Hq) as (_ & k & _ & Hb).
    destruct (realloc_blocks junk s p m l fl q k newsize Hi (conj Hd Hok) Hb Hn) as (r & s' & E & _). eauto.
Qed.
End theorems.
