(* ===== verification/Kernel.v ===== *)
(** * The kernel's data (include/rtdef.h) and global variables

    One record per structure of rtdef.h, and [kstate], the record of the
    kernel's global variables together with the objects they refer to.  A pointer
    is an integer address, [RT_NULL] is 0, and a structure is reached through the
    map that plays the part of memory for its type. *)
From stdpp Require Import base tactics numbers list gmap countable.
From S2P Require Import Prelude.
Local Open Scope Z_scope.

Abbreviation ptr := Z.

(** ** Kernel objects *)

Inductive object_class :=
| RT_Object_Class_Thread
| RT_Object_Class_Semaphore
| RT_Object_Class_Mutex
| RT_Object_Class_Event
| RT_Object_Class_MailBox
| RT_Object_Class_MessageQueue
| RT_Object_Class_MemPool
| RT_Object_Class_Device
| RT_Object_Class_Timer.

(** The enumeration value with every option of the board configuration enabled
    (no memheap, no module). *)
Definition class_type (c : object_class) : Z :=
  match c with
  | RT_Object_Class_Thread => 0
  | RT_Object_Class_Semaphore => 1
  | RT_Object_Class_Mutex => 2
  | RT_Object_Class_Event => 3
  | RT_Object_Class_MailBox => 4
  | RT_Object_Class_MessageQueue => 5
  | RT_Object_Class_MemPool => 6
  | RT_Object_Class_Device => 7
  | RT_Object_Class_Timer => 8
  end.
Definition RT_Object_Class_Static : Z := 0x80.

#[export] Instance object_class_eq_dec : EqDecision object_class.
Proof. solve_decision. Defined.
#[export] Instance object_class_countable : Countable object_class.
Proof.
  refine (inj_countable class_type (fun z => match z with
    | 0 => Some RT_Object_Class_Thread | 1 => Some RT_Object_Class_Semaphore
    | 2 => Some RT_Object_Class_Mutex | 3 => Some RT_Object_Class_Event
    | 4 => Some RT_Object_Class_MailBox | 5 => Some RT_Object_Class_MessageQueue
    | 6 => Some RT_Object_Class_MemPool | 7 => Some RT_Object_Class_Device
    | 8 => Some RT_Object_Class_Timer | _ => None end) _).
  by intros [].
Defined.

(** ** Configuration (rtconfig.h) and the allocator *)

Class KConfig := {
  RT_THREAD_PRIORITY_MAX : Z;
  RT_TIMER_SKIP_LIST_LEVEL : nat;
  RT_TIMER_SKIP_LIST_MASK : Z;
  RT_NAME_MAX : nat;
  RT_TICK_PER_SECOND : Z;
  object_size : object_class -> Z;  (* sizeof of the structure of a class *)
  prio_max_range : 1 <= RT_THREAD_PRIORITY_MAX <= 256;
  skip_level_pos : (1 <= RT_TIMER_SKIP_LIST_LEVEL)%nat
}.

(** Sizes on the 32-bit ARM ports. *)
Definition stm32_object_size (c : object_class) : Z :=
  match c with
  | RT_Object_Class_Thread => 128
  | RT_Object_Class_Semaphore => 32
  | RT_Object_Class_Mutex => 36
  | RT_Object_Class_Event => 32
  | RT_Object_Class_MailBox => 48
  | RT_Object_Class_MessageQueue => 52
  | RT_Object_Class_MemPool => 56
  | RT_Object_Class_Device => 68
  | RT_Object_Class_Timer => 44
  end.

(** The values all five board support packages use (rtconfig.h, defaults of rtdef.h). *)
#[program] Definition stm32_config : KConfig := {|
  RT_THREAD_PRIORITY_MAX := 32;
  RT_TIMER_SKIP_LIST_LEVEL := 1;
  RT_TIMER_SKIP_LIST_MASK := 3;
  RT_NAME_MAX := 8;
  RT_TICK_PER_SECOND := 100;
  object_size := stm32_object_size
|}.
Solve Obligations with lia.

(** What the kernel uses of the dynamic memory manager: [RT_KERNEL_MALLOC],
    [RT_KERNEL_FREE], and the contents a fresh block happens to have. *)
Class Allocator := {
  heap : Type;
  malloc : Z -> heap -> ptr * heap;
  free : ptr -> heap -> heap;
  garbage : ptr -> nat -> Z
}.

Record rt_object := mk_object {
  obj_name : list Z;
  obj_type : Z;  (* rt_uint8_t *)
  obj_flag : Z  (* rt_uint8_t *)
}.

(** ** Lists and references *)

(** A timer is an object of its own or the [thread_timer] of a thread. *)
Inductive timer_ref :=
| TThread (t : ptr)
| TObj (p : ptr).

#[export] Instance timer_ref_eq_dec : EqDecision timer_ref.
Proof. solve_decision. Defined.
#[export] Instance timer_ref_countable : Countable timer_ref.
Proof.
  refine (inj_countable' (fun r => match r with TThread t => inl t | TObj p => inr p end)
           (fun x => match x with inl t => TThread t | inr p => TObj p end) _).
  by intros [].
Defined.

(** The list heads a thread's [tlist] node can be linked on. *)
Inductive list_id :=
| LReady (prio : Z)     (* rt_thread_priority_table[prio] *)
| LDefunct              (* rt_thread_defunct *)
| LSuspend (obj : ptr)  (* suspend_thread of an IPC object or memory pool *)
| LSender (mb : ptr).   (* suspend_sender_thread of a mailbox *)

#[export] Instance list_id_eq_dec : EqDecision list_id.
Proof. solve_decision. Defined.
#[export] Instance list_id_countable : Countable list_id.
Proof.
  refine (inj_countable' (fun l => match l with
      | LReady p => inl (inl p) | LDefunct => inl (inr tt)
      | LSuspend o => inr (inl o) | LSender m => inr (inr m) end)
    (fun x => match x with
      | inl (inl p) => LReady p | inl (inr tt) => LDefunct
      | inr (inl o) => LSuspend o | inr (inr m) => LSender m end) _).
  by intros [].
Defined.

(** A reference to the [struct rt_object] at the start of an object. *)
Inductive object_ref :=
| OThread (p : ptr)
| OSem (p : ptr)
| OMutex (p : ptr)
| OEvent (p : ptr)
| OMailbox (p : ptr)
| OMq (p : ptr)
| OMemPool (p : ptr)
| ODevice (p : ptr)
| OTimer (r : timer_ref).

#[export] Instance object_ref_eq_dec : EqDecision object_ref.
Proof. solve_decision. Defined.

(** ** Timers *)

Definition RT_TIMER_FLAG_DEACTIVATED : Z := 0x0.
Definition RT_TIMER_FLAG_ACTIVATED : Z := 0x1.
Definition RT_TIMER_FLAG_ONE_SHOT : Z := 0x0.
Definition RT_TIMER_FLAG_PERIODIC : Z := 0x2.

Inductive timer_ctrl :=
| RT_TIMER_CTRL_SET_TIME
| RT_TIMER_CTRL_GET_TIME
| RT_TIMER_CTRL_SET_ONESHOT
| RT_TIMER_CTRL_SET_PERIODIC.

(** A timeout function: [rt_thread_timeout] or one of the application. *)
Inductive timeout_fn :=
| TF_thread_timeout
| TF_user (f : Z).

#[export] Instance timeout_fn_eq_dec : EqDecision timeout_fn.
Proof. solve_decision. Defined.

Record rt_timer := mk_timer {
  tm_parent : rt_object;
  tm_timeout_func : timeout_fn;
  tm_parameter : Z;
  tm_init_tick : Z;
  tm_timeout_tick : Z
}.

Definition set_tm_parent (v : rt_object) (x : rt_timer) : rt_timer :=
  mk_timer v (tm_timeout_func x) (tm_parameter x) (tm_init_tick x) (tm_timeout_tick x).
Definition set_tm_timeout_func (v : timeout_fn) (x : rt_timer) : rt_timer :=
  mk_timer (tm_parent x) v (tm_parameter x) (tm_init_tick x) (tm_timeout_tick x).
Definition set_tm_parameter (v : Z) (x : rt_timer) : rt_timer :=
  mk_timer (tm_parent x) (tm_timeout_func x) v (tm_init_tick x) (tm_timeout_tick x).
Definition set_tm_init_tick (v : Z) (x : rt_timer) : rt_timer :=
  mk_timer (tm_parent x) (tm_timeout_func x) (tm_parameter x) v (tm_timeout_tick x).
Definition set_tm_timeout_tick (v : Z) (x : rt_timer) : rt_timer :=
  mk_timer (tm_parent x) (tm_timeout_func x) (tm_parameter x) (tm_init_tick x) v.

(** ** Threads *)

Definition RT_THREAD_INIT : Z := 0x00.
Definition RT_THREAD_READY : Z := 0x01.
Definition RT_THREAD_SUSPEND : Z := 0x02.
Definition RT_THREAD_CLOSE : Z := 0x04.

Record rt_thread := mk_thread {
  th_parent : rt_object;  (* name, type, flags *)
  th_sp : ptr;
  th_entry : ptr;
  th_parameter : Z;
  th_stack_addr : ptr;
  th_stack_size : Z;  (* rt_uint16_t *)
  th_error : Z;
  th_stat : Z;  (* rt_uint8_t *)
  th_current_priority : Z;  (* rt_uint8_t *)
  th_init_priority : Z;  (* rt_uint8_t *)
  th_number : Z;  (* rt_uint8_t *)
  th_high_mask : Z;  (* rt_uint8_t *)
  th_number_mask : Z;  (* rt_uint32_t *)
  th_event_set : Z;  (* rt_uint32_t *)
  th_event_info : Z;  (* rt_uint8_t *)
  th_init_tick : Z;
  th_remaining_tick : Z;
  th_cleanup : ptr;  (* cleanup function *)
  th_user_data : Z
}.

Definition set_th_parent (v : rt_object) (x : rt_thread) : rt_thread :=
  mk_thread v (th_sp x) (th_entry x) (th_parameter x) (th_stack_addr x) (th_stack_size x)
    (th_error x) (th_stat x) (th_current_priority x) (th_init_priority x) (th_number x)
    (th_high_mask x) (th_number_mask x) (th_event_set x) (th_event_info x) (th_init_tick x)
    (th_remaining_tick x) (th_cleanup x) (th_user_data x).
Definition set_th_sp (v : ptr) (x : rt_thread) : rt_thread :=
  mk_thread (th_parent x) v (th_entry x) (th_parameter x) (th_stack_addr x)
    (th_stack_size x) (th_error x) (th_stat x) (th_current_priority x) (th_init_priority x)
    (th_number x) (th_high_mask x) (th_number_mask x) (th_event_set x) (th_event_info x)
    (th_init_tick x) (th_remaining_tick x) (th_cleanup x) (th_user_data x).
Definition set_th_entry (v : ptr) (x : rt_thread) : rt_thread :=
  mk_thread (th_parent x) (th_sp x) v (th_parameter x) (th_stack_addr x) (th_stack_size x)
    (th_error x) (th_stat x) (th_current_priority x) (th_init_priority x) (th_number x)
    (th_high_mask x) (th_number_mask x) (th_event_set x) (th_event_info x) (th_init_tick x)
    (th_remaining_tick x) (th_cleanup x) (th_user_data x).
Definition set_th_parameter (v : Z) (x : rt_thread) : rt_thread :=
  mk_thread (th_parent x) (th_sp x) (th_entry x) v (th_stack_addr x) (th_stack_size x)
    (th_error x) (th_stat x) (th_current_priority x) (th_init_priority x) (th_number x)
    (th_high_mask x) (th_number_mask x) (th_event_set x) (th_event_info x) (th_init_tick x)
    (th_remaining_tick x) (th_cleanup x) (th_user_data x).
Definition set_th_stack_addr (v : ptr) (x : rt_thread) : rt_thread :=
  mk_thread (th_parent x) (th_sp x) (th_entry x) (th_parameter x) v (th_stack_size x)
    (th_error x) (th_stat x) (th_current_priority x) (th_init_priority x) (th_number x)
    (th_high_mask x) (th_number_mask x) (th_event_set x) (th_event_info x) (th_init_tick x)
    (th_remaining_tick x) (th_cleanup x) (th_user_data x).
Definition set_th_stack_size (v : Z) (x : rt_thread) : rt_thread :=
  mk_thread (th_parent x) (th_sp x) (th_entry x) (th_parameter x) (th_stack_addr x) v
    (th_error x) (th_stat x) (th_current_priority x) (th_init_priority x) (th_number x)
    (th_high_mask x) (th_number_mask x) (th_event_set x) (th_event_info x) (th_init_tick x)
    (th_remaining_tick x) (th_cleanup x) (th_user_data x).
Definition set_th_error (v : Z) (x : rt_thread) : rt_thread :=
  mk_thread (th_parent x) (th_sp x) (th_entry x) (th_parameter x) (th_stack_addr x)
    (th_stack_size x) v (th_stat x) (th_current_priority x) (th_init_priority x)
    (th_number x) (th_high_mask x) (th_number_mask x) (th_event_set x) (th_event_info x)
    (th_init_tick x) (th_remaining_tick x) (th_cleanup x) (th_user_data x).
Definition set_th_stat (v : Z) (x : rt_thread) : rt_thread :=
  mk_thread (th_parent x) (th_sp x) (th_entry x) (th_parameter x) (th_stack_addr x)
    (th_stack_size x) (th_error x) v (th_current_priority x) (th_init_priority x)
    (th_number x) (th_high_mask x) (th_number_mask x) (th_event_set x) (th_event_info x)
    (th_init_tick x) (th_remaining_tick x) (th_cleanup x) (th_user_data x).
Definition set_th_current_priority (v : Z) (x : rt_thread) : rt_thread :=
  mk_thread (th_parent x) (th_sp x) (th_entry x) (th_parameter x) (th_stack_addr x)
    (th_stack_size x) (th_error x) (th_stat x) v (th_init_priority x) (th_number x)
    (th_high_mask x) (th_number_mask x) (th_event_set x) (th_event_info x) (th_init_tick x)
    (th_remaining_tick x) (th_cleanup x) (th_user_data x).
Definition set_th_init_priority (v : Z) (x : rt_thread) : rt_thread :=
  mk_thread (th_parent x) (th_sp x) (th_entry x) (th_parameter x) (th_stack_addr x)
    (th_stack_size x) (th_error x) (th_stat x) (th_current_priority x) v (th_number x)
    (th_high_mask x) (th_number_mask x) (th_event_set x) (th_event_info x) (th_init_tick x)
    (th_remaining_tick x) (th_cleanup x) (th_user_data x).
Definition set_th_number (v : Z) (x : rt_thread) : rt_thread :=
  mk_thread (th_parent x) (th_sp x) (th_entry x) (th_parameter x) (th_stack_addr x)
    (th_stack_size x) (th_error x) (th_stat x) (th_current_priority x) (th_init_priority x)
    v (th_high_mask x) (th_number_mask x) (th_event_set x) (th_event_info x)
    (th_init_tick x) (th_remaining_tick x) (th_cleanup x) (th_user_data x).
Definition set_th_high_mask (v : Z) (x : rt_thread) : rt_thread :=
  mk_thread (th_parent x) (th_sp x) (th_entry x) (th_parameter x) (th_stack_addr x)
    (th_stack_size x) (th_error x) (th_stat x) (th_current_priority x) (th_init_priority x)
    (th_number x) v (th_number_mask x) (th_event_set x) (th_event_info x) (th_init_tick x)
    (th_remaining_tick x) (th_cleanup x) (th_user_data x).
Definition set_th_number_mask (v : Z) (x : rt_thread) : rt_thread :=
  mk_thread (th_parent x) (th_sp x) (th_entry x) (th_parameter x) (th_stack_addr x)
    (th_stack_size x) (th_error x) (th_stat x) (th_current_priority x) (th_init_priority x)
    (th_number x) (th_high_mask x) v (th_event_set x) (th_event_info x) (th_init_tick x)
    (th_remaining_tick x) (th_cleanup x) (th_user_data x).
Definition set_th_event_set (v : Z) (x : rt_thread) : rt_thread :=
  mk_thread (th_parent x) (th_sp x) (th_entry x) (th_parameter x) (th_stack_addr x)
    (th_stack_size x) (th_error x) (th_stat x) (th_current_priority x) (th_init_priority x)
    (th_number x) (th_high_mask x) (th_number_mask x) v (th_event_info x) (th_init_tick x)
    (th_remaining_tick x) (th_cleanup x) (th_user_data x).
Definition set_th_event_info (v : Z) (x : rt_thread) : rt_thread :=
  mk_thread (th_parent x) (th_sp x) (th_entry x) (th_parameter x) (th_stack_addr x)
    (th_stack_size x) (th_error x) (th_stat x) (th_current_priority x) (th_init_priority x)
    (th_number x) (th_high_mask x) (th_number_mask x) (th_event_set x) v (th_init_tick x)
    (th_remaining_tick x) (th_cleanup x) (th_user_data x).
Definition set_th_init_tick (v : Z) (x : rt_thread) : rt_thread :=
  mk_thread (th_parent x) (th_sp x) (th_entry x) (th_parameter x) (th_stack_addr x)
    (th_stack_size x) (th_error x) (th_stat x) (th_current_priority x) (th_init_priority x)
    (th_number x) (th_high_mask x) (th_number_mask x) (th_event_set x) (th_event_info x) v
    (th_remaining_tick x) (th_cleanup x) (th_user_data x).
Definition set_th_remaining_tick (v : Z) (x : rt_thread) : rt_thread :=
  mk_thread (th_parent x) (th_sp x) (th_entry x) (th_parameter x) (th_stack_addr x)
    (th_stack_size x) (th_error x) (th_stat x) (th_current_priority x) (th_init_priority x)
    (th_number x) (th_high_mask x) (th_number_mask x) (th_event_set x) (th_event_info x)
    (th_init_tick x) v (th_cleanup x) (th_user_data x).
Definition set_th_cleanup (v : ptr) (x : rt_thread) : rt_thread :=
  mk_thread (th_parent x) (th_sp x) (th_entry x) (th_parameter x) (th_stack_addr x)
    (th_stack_size x) (th_error x) (th_stat x) (th_current_priority x) (th_init_priority x)
    (th_number x) (th_high_mask x) (th_number_mask x) (th_event_set x) (th_event_info x)
    (th_init_tick x) (th_remaining_tick x) v (th_user_data x).
Definition set_th_user_data (v : Z) (x : rt_thread) : rt_thread :=
  mk_thread (th_parent x) (th_sp x) (th_entry x) (th_parameter x) (th_stack_addr x)
    (th_stack_size x) (th_error x) (th_stat x) (th_current_priority x) (th_init_priority x)
    (th_number x) (th_high_mask x) (th_number_mask x) (th_event_set x) (th_event_info x)
    (th_init_tick x) (th_remaining_tick x) (th_cleanup x) v.

(** ** IPC objects *)

Definition RT_IPC_FLAG_FIFO : Z := 0x00.
Definition RT_IPC_FLAG_PRIO : Z := 0x01.
Definition RT_IPC_CMD_RESET : Z := 0x01.
Definition RT_EVENT_FLAG_AND : Z := 0x01.
Definition RT_EVENT_FLAG_OR : Z := 0x02.
Definition RT_EVENT_FLAG_CLEAR : Z := 0x04.

Record rt_semaphore := mk_sem {
  sem_parent : rt_object;
  sem_value : Z  (* rt_uint16_t *)
}.

Definition set_sem_parent (v : rt_object) (x : rt_semaphore) : rt_semaphore :=
  mk_sem v (sem_value x).
Definition set_sem_value (v : Z) (x : rt_semaphore) : rt_semaphore :=
  mk_sem (sem_parent x) v.

Record rt_mutex := mk_mutex {
  mtx_parent : rt_object;
  mtx_value : Z;  (* rt_uint16_t *)
  mtx_original_priority : Z;  (* rt_uint8_t *)
  mtx_hold : Z;  (* rt_uint8_t *)
  mtx_owner : ptr
}.

Definition set_mtx_parent (v : rt_object) (x : rt_mutex) : rt_mutex :=
  mk_mutex v (mtx_value x) (mtx_original_priority x) (mtx_hold x) (mtx_owner x).
Definition set_mtx_value (v : Z) (x : rt_mutex) : rt_mutex :=
  mk_mutex (mtx_parent x) v (mtx_original_priority x) (mtx_hold x) (mtx_owner x).
Definition set_mtx_original_priority (v : Z) (x : rt_mutex) : rt_mutex :=
  mk_mutex (mtx_parent x) (mtx_value x) v (mtx_hold x) (mtx_owner x).
Definition set_mtx_hold (v : Z) (x : rt_mutex) : rt_mutex :=
  mk_mutex (mtx_parent x) (mtx_value x) (mtx_original_priority x) v (mtx_owner x).
Definition set_mtx_owner (v : ptr) (x : rt_mutex) : rt_mutex :=
  mk_mutex (mtx_parent x) (mtx_value x) (mtx_original_priority x) (mtx_hold x) v.

Record rt_event := mk_event {
  ev_parent : rt_object;
  ev_set : Z  (* rt_uint32_t *)
}.

Definition set_ev_parent (v : rt_object) (x : rt_event) : rt_event :=
  mk_event v (ev_set x).
Definition set_ev_set (v : Z) (x : rt_event) : rt_event :=
  mk_event (ev_parent x) v.

Record rt_mailbox := mk_mailbox {
  mb_parent : rt_object;
  mb_msg_pool : ptr;  (* address of the message buffer *)
  mb_msgs : list Z;  (* its contents, rt_uint32_t each *)
  mb_size : Z;  (* rt_uint16_t *)
  mb_entry : Z;  (* rt_uint16_t *)
  mb_in_offset : Z;  (* rt_uint16_t *)
  mb_out_offset : Z  (* rt_uint16_t *)
}.

Definition set_mb_parent (v : rt_object) (x : rt_mailbox) : rt_mailbox :=
  mk_mailbox v (mb_msg_pool x) (mb_msgs x) (mb_size x) (mb_entry x) (mb_in_offset x)
    (mb_out_offset x).
Definition set_mb_msg_pool (v : ptr) (x : rt_mailbox) : rt_mailbox :=
  mk_mailbox (mb_parent x) v (mb_msgs x) (mb_size x) (mb_entry x) (mb_in_offset x)
    (mb_out_offset x).
Definition set_mb_msgs (v : list Z) (x : rt_mailbox) : rt_mailbox :=
  mk_mailbox (mb_parent x) (mb_msg_pool x) v (mb_size x) (mb_entry x) (mb_in_offset x)
    (mb_out_offset x).
Definition set_mb_size (v : Z) (x : rt_mailbox) : rt_mailbox :=
  mk_mailbox (mb_parent x) (mb_msg_pool x) (mb_msgs x) v (mb_entry x) (mb_in_offset x)
    (mb_out_offset x).
Definition set_mb_entry (v : Z) (x : rt_mailbox) : rt_mailbox :=
  mk_mailbox (mb_parent x) (mb_msg_pool x) (mb_msgs x) (mb_size x) v (mb_in_offset x)
    (mb_out_offset x).
Definition set_mb_in_offset (v : Z) (x : rt_mailbox) : rt_mailbox :=
  mk_mailbox (mb_parent x) (mb_msg_pool x) (mb_msgs x) (mb_size x) (mb_entry x) v
    (mb_out_offset x).
Definition set_mb_out_offset (v : Z) (x : rt_mailbox) : rt_mailbox :=
  mk_mailbox (mb_parent x) (mb_msg_pool x) (mb_msgs x) (mb_size x) (mb_entry x)
    (mb_in_offset x) v.

(** A message node: [struct rt_mq_message] and the bytes behind it. *)
Record mq_message := mk_msg { msg_next : ptr; msg_data : list Z }.

Record rt_messagequeue := mk_mq {
  mq_parent : rt_object;
  mq_msg_pool : ptr;  (* address of the message buffer *)
  mq_nodes : gmap ptr mq_message;  (* the message nodes in it *)
  mq_msg_size : Z;  (* rt_uint16_t *)
  mq_max_msgs : Z;  (* rt_uint16_t *)
  mq_entry : Z;  (* rt_uint16_t *)
  mq_msg_queue_head : ptr;
  mq_msg_queue_tail : ptr;
  mq_msg_queue_free : ptr
}.

Definition set_mq_parent (v : rt_object) (x : rt_messagequeue) : rt_messagequeue :=
  mk_mq v (mq_msg_pool x) (mq_nodes x) (mq_msg_size x) (mq_max_msgs x) (mq_entry x)
    (mq_msg_queue_head x) (mq_msg_queue_tail x) (mq_msg_queue_free x).
Definition set_mq_msg_pool (v : ptr) (x : rt_messagequeue) : rt_messagequeue :=
  mk_mq (mq_parent x) v (mq_nodes x) (mq_msg_size x) (mq_max_msgs x) (mq_entry x)
    (mq_msg_queue_head x) (mq_msg_queue_tail x) (mq_msg_queue_free x).
Definition set_mq_nodes (v : gmap ptr mq_message) (x : rt_messagequeue) : rt_messagequeue :=
  mk_mq (mq_parent x) (mq_msg_pool x) v (mq_msg_size x) (mq_max_msgs x) (mq_entry x)
    (mq_msg_queue_head x) (mq_msg_queue_tail x) (mq_msg_queue_free x).
Definition set_mq_msg_size (v : Z) (x : rt_messagequeue) : rt_messagequeue :=
  mk_mq (mq_parent x) (mq_msg_pool x) (mq_nodes x) v (mq_max_msgs x) (mq_entry x)
    (mq_msg_queue_head x) (mq_msg_queue_tail x) (mq_msg_queue_free x).
Definition set_mq_max_msgs (v : Z) (x : rt_messagequeue) : rt_messagequeue :=
  mk_mq (mq_parent x) (mq_msg_pool x) (mq_nodes x) (mq_msg_size x) v (mq_entry x)
    (mq_msg_queue_head x) (mq_msg_queue_tail x) (mq_msg_queue_free x).
Definition set_mq_entry (v : Z) (x : rt_messagequeue) : rt_messagequeue :=
  mk_mq (mq_parent x) (mq_msg_pool x) (mq_nodes x) (mq_msg_size x) (mq_max_msgs x) v
    (mq_msg_queue_head x) (mq_msg_queue_tail x) (mq_msg_queue_free x).
Definition set_mq_msg_queue_head (v : ptr) (x : rt_messagequeue) : rt_messagequeue :=
  mk_mq (mq_parent x) (mq_msg_pool x) (mq_nodes x) (mq_msg_size x) (mq_max_msgs x)
    (mq_entry x) v (mq_msg_queue_tail x) (mq_msg_queue_free x).
Definition set_mq_msg_queue_tail (v : ptr) (x : rt_messagequeue) : rt_messagequeue :=
  mk_mq (mq_parent x) (mq_msg_pool x) (mq_nodes x) (mq_msg_size x) (mq_max_msgs x)
    (mq_entry x) (mq_msg_queue_head x) v (mq_msg_queue_free x).
Definition set_mq_msg_queue_free (v : ptr) (x : rt_messagequeue) : rt_messagequeue :=
  mk_mq (mq_parent x) (mq_msg_pool x) (mq_nodes x) (mq_msg_size x) (mq_max_msgs x)
    (mq_entry x) (mq_msg_queue_head x) (mq_msg_queue_tail x) v.

(** ** Devices *)

Record rt_device := mk_device {
  dev_parent : rt_object;
  dev_type : Z;
  dev_flag : Z;  (* rt_uint16_t *)
  dev_open_flag : Z;  (* rt_uint16_t *)
  dev_ref_count : Z;  (* rt_uint8_t *)
  dev_device_id : Z;  (* rt_uint8_t *)
  dev_rx_indicate : ptr;
  dev_tx_complete : ptr;
  dev_init : ptr;  (* function pointers, RT_NULL when not provided *)
  dev_open : ptr;
  dev_close : ptr;
  dev_read : ptr;
  dev_write : ptr;
  dev_control : ptr;
  dev_user_data : Z
}.

Definition set_dev_parent (v : rt_object) (x : rt_device) : rt_device :=
  mk_device v (dev_type x) (dev_flag x) (dev_open_flag x) (dev_ref_count x)
    (dev_device_id x) (dev_rx_indicate x) (dev_tx_complete x) (dev_init x) (dev_open x)
    (dev_close x) (dev_read x) (dev_write x) (dev_control x) (dev_user_data x).
Definition set_dev_type (v : Z) (x : rt_device) : rt_device :=
  mk_device (dev_parent x) v (dev_flag x) (dev_open_flag x) (dev_ref_count x)
    (dev_device_id x) (dev_rx_indicate x) (dev_tx_complete x) (dev_init x) (dev_open x)
    (dev_close x) (dev_read x) (dev_write x) (dev_control x) (dev_user_data x).
Definition set_dev_flag (v : Z) (x : rt_device) : rt_device :=
  mk_device (dev_parent x) (dev_type x) v (dev_open_flag x) (dev_ref_count x)
    (dev_device_id x) (dev_rx_indicate x) (dev_tx_complete x) (dev_init x) (dev_open x)
    (dev_close x) (dev_read x) (dev_write x) (dev_control x) (dev_user_data x).
Definition set_dev_open_flag (v : Z) (x : rt_device) : rt_device :=
  mk_device (dev_parent x) (dev_type x) (dev_flag x) v (dev_ref_count x) (dev_device_id x)
    (dev_rx_indicate x) (dev_tx_complete x) (dev_init x) (dev_open x) (dev_close x)
    (dev_read x) (dev_write x) (dev_control x) (dev_user_data x).
Definition set_dev_ref_count (v : Z) (x : rt_device) : rt_device :=
  mk_device (dev_parent x) (dev_type x) (dev_flag x) (dev_open_flag x) v (dev_device_id x)
    (dev_rx_indicate x) (dev_tx_complete x) (dev_init x) (dev_open x) (dev_close x)
    (dev_read x) (dev_write x) (dev_control x) (dev_user_data x).
Definition set_dev_device_id (v : Z) (x : rt_device) : rt_device :=
  mk_device (dev_parent x) (dev_type x) (dev_flag x) (dev_open_flag x) (dev_ref_count x) v
    (dev_rx_indicate x) (dev_tx_complete x) (dev_init x) (dev_open x) (dev_close x)
    (dev_read x) (dev_write x) (dev_control x) (dev_user_data x).
Definition set_dev_rx_indicate (v : ptr) (x : rt_device) : rt_device :=
  mk_device (dev_parent x) (dev_type x) (dev_flag x) (dev_open_flag x) (dev_ref_count x)
    (dev_device_id x) v (dev_tx_complete x) (dev_init x) (dev_open x) (dev_close x)
    (dev_read x) (dev_write x) (dev_control x) (dev_user_data x).
Definition set_dev_tx_complete (v : ptr) (x : rt_device) : rt_device :=
  mk_device (dev_parent x) (dev_type x) (dev_flag x) (dev_open_flag x) (dev_ref_count x)
    (dev_device_id x) (dev_rx_indicate x) v (dev_init x) (dev_open x) (dev_close x)
    (dev_read x) (dev_write x) (dev_control x) (dev_user_data x).
Definition set_dev_init (v : ptr) (x : rt_device) : rt_device :=
  mk_device (dev_parent x) (dev_type x) (dev_flag x) (dev_open_flag x) (dev_ref_count x)
    (dev_device_id x) (dev_rx_indicate x) (dev_tx_complete x) v (dev_open x) (dev_close x)
    (dev_read x) (dev_write x) (dev_control x) (dev_user_data x).
Definition set_dev_open (v : ptr) (x : rt_device) : rt_device :=
  mk_device (dev_parent x) (dev_type x) (dev_flag x) (dev_open_flag x) (dev_ref_count x)
    (dev_device_id x) (dev_rx_indicate x) (dev_tx_complete x) (dev_init x) v (dev_close x)
    (dev_read x) (dev_write x) (dev_control x) (dev_user_data x).
Definition set_dev_close (v : ptr) (x : rt_device) : rt_device :=
  mk_device (dev_parent x) (dev_type x) (dev_flag x) (dev_open_flag x) (dev_ref_count x)
    (dev_device_id x) (dev_rx_indicate x) (dev_tx_complete x) (dev_init x) (dev_open x) v
    (dev_read x) (dev_write x) (dev_control x) (dev_user_data x).
Definition set_dev_read (v : ptr) (x : rt_device) : rt_device :=
  mk_device (dev_parent x) (dev_type x) (dev_flag x) (dev_open_flag x) (dev_ref_count x)
    (dev_device_id x) (dev_rx_indicate x) (dev_tx_complete x) (dev_init x) (dev_open x)
    (dev_close x) v (dev_write x) (dev_control x) (dev_user_data x).
Definition set_dev_write (v : ptr) (x : rt_device) : rt_device :=
  mk_device (dev_parent x) (dev_type x) (dev_flag x) (dev_open_flag x) (dev_ref_count x)
    (dev_device_id x) (dev_rx_indicate x) (dev_tx_complete x) (dev_init x) (dev_open x)
    (dev_close x) (dev_read x) v (dev_control x) (dev_user_data x).
Definition set_dev_control (v : ptr) (x : rt_device) : rt_device :=
  mk_device (dev_parent x) (dev_type x) (dev_flag x) (dev_open_flag x) (dev_ref_count x)
    (dev_device_id x) (dev_rx_indicate x) (dev_tx_complete x) (dev_init x) (dev_open x)
    (dev_close x) (dev_read x) (dev_write x) v (dev_user_data x).
Definition set_dev_user_data (v : Z) (x : rt_device) : rt_device :=
  mk_device (dev_parent x) (dev_type x) (dev_flag x) (dev_open_flag x) (dev_ref_count x)
    (dev_device_id x) (dev_rx_indicate x) (dev_tx_complete x) (dev_init x) (dev_open x)
    (dev_close x) (dev_read x) (dev_write x) (dev_control x) v.

(** ** Memory pools *)

Record rt_mempool := mk_mempool {
  mp_parent : rt_object;
  mp_start_address : ptr;
  mp_size : Z;  (* rt_size_t *)
  mp_block_size : Z;  (* rt_size_t *)
  mp_block_list : ptr;  (* first free block *)
  mp_block_total_count : Z;  (* rt_size_t *)
  mp_block_free_count : Z;  (* rt_size_t *)
  mp_suspend_thread_count : Z  (* rt_size_t *)
}.

Definition set_mp_parent (v : rt_object) (x : rt_mempool) : rt_mempool :=
  mk_mempool v (mp_start_address x) (mp_size x) (mp_block_size x) (mp_block_list x)
    (mp_block_total_count x) (mp_block_free_count x) (mp_suspend_thread_count x).
Definition set_mp_start_address (v : ptr) (x : rt_mempool) : rt_mempool :=
  mk_mempool (mp_parent x) v (mp_size x) (mp_block_size x) (mp_block_list x)
    (mp_block_total_count x) (mp_block_free_count x) (mp_suspend_thread_count x).
Definition set_mp_size (v : Z) (x : rt_mempool) : rt_mempool :=
  mk_mempool (mp_parent x) (mp_start_address x) v (mp_block_size x) (mp_block_list x)
    (mp_block_total_count x) (mp_block_free_count x) (mp_suspend_thread_count x).
Definition set_mp_block_size (v : Z) (x : rt_mempool) : rt_mempool :=
  mk_mempool (mp_parent x) (mp_start_address x) (mp_size x) v (mp_block_list x)
    (mp_block_total_count x) (mp_block_free_count x) (mp_suspend_thread_count x).
Definition set_mp_block_list (v : ptr) (x : rt_mempool) : rt_mempool :=
  mk_mempool (mp_parent x) (mp_start_address x) (mp_size x) (mp_block_size x) v
    (mp_block_total_count x) (mp_block_free_count x) (mp_suspend_thread_count x).
Definition set_mp_block_total_count (v : Z) (x : rt_mempool) : rt_mempool :=
  mk_mempool (mp_parent x) (mp_start_address x) (mp_size x) (mp_block_size x)
    (mp_block_list x) v (mp_block_free_count x) (mp_suspend_thread_count x).
Definition set_mp_block_free_count (v : Z) (x : rt_mempool) : rt_mempool :=
  mk_mempool (mp_parent x) (mp_start_address x) (mp_size x) (mp_block_size x)
    (mp_block_list x) (mp_block_total_count x) v (mp_suspend_thread_count x).
Definition set_mp_suspend_thread_count (v : Z) (x : rt_mempool) : rt_mempool :=
  mk_mempool (mp_parent x) (mp_start_address x) (mp_size x) (mp_block_size x)
    (mp_block_list x) (mp_block_total_count x) (mp_block_free_count x) v.

(** ** The kernel state *)

(** Requests to the port layer (libcpu): the addresses are those of the threads
    whose stack pointers are passed. *)
Inductive hw_switch :=
| rt_hw_context_switch (from to : ptr)
| rt_hw_context_switch_interrupt (from to : ptr)
| rt_hw_context_switch_to (to : ptr).

Section kstate.
Context `{KConfig} `{Allocator}.

Record kstate := mk_kstate {
  rt_scheduler_lock_nest : Z;  (* rt_int16_t *)
  rt_interrupt_nest : Z;  (* rt_uint8_t *)
  rt_current_thread : ptr;
  rt_current_priority : Z;  (* rt_uint8_t *)
  rt_thread_ready_priority_group : Z;  (* rt_uint32_t *)
  rt_thread_ready_table : list Z;  (* rt_uint8_t[32] *)
  tlists : gmap list_id (list ptr);  (* the lists threads are linked on through tlist *)
  threads : gmap ptr rt_thread;
  timers : gmap timer_ref rt_timer;
  rt_timer_list : list (list timer_ref);  (* one row per skip list level *)
  random_nr : Z;  (* static of rt_timer_start *)
  rt_tick : Z;  (* rt_tick_t *)
  errno : Z;  (* _errno of kservice.c *)
  sems : gmap ptr rt_semaphore;
  mutexes : gmap ptr rt_mutex;
  events : gmap ptr rt_event;
  mailboxes : gmap ptr rt_mailbox;
  mqs : gmap ptr rt_messagequeue;
  rt_object_container : gmap object_class (list object_ref);  (* object_list of each class *)
  kheap : heap;  (* the system heap *)
  devices : gmap ptr rt_device;
  mempools : gmap ptr rt_mempool;
  pool_words : gmap ptr Z;  (* first word of each memory pool block *)
  hw_switches : list hw_switch  (* context switches requested of the port, latest first *)
}.

Definition set_rt_scheduler_lock_nest (v : Z) (x : kstate) : kstate :=
  mk_kstate v (rt_interrupt_nest x) (rt_current_thread x) (rt_current_priority x)
    (rt_thread_ready_priority_group x) (rt_thread_ready_table x) (tlists x) (threads x)
    (timers x) (rt_timer_list x) (random_nr x) (rt_tick x) (errno x) (sems x) (mutexes x)
    (events x) (mailboxes x) (mqs x) (rt_object_container x) (kheap x) (devices x)
    (mempools x) (pool_words x) (hw_switches x).
Definition set_rt_interrupt_nest (v : Z) (x : kstate) : kstate :=
  mk_kstate (rt_scheduler_lock_nest x) v (rt_current_thread x) (rt_current_priority x)
    (rt_thread_ready_priority_group x) (rt_thread_ready_table x) (tlists x) (threads x)
    (timers x) (rt_timer_list x) (random_nr x) (rt_tick x) (errno x) (sems x) (mutexes x)
    (events x) (mailboxes x) (mqs x) (rt_object_container x) (kheap x) (devices x)
    (mempools x) (pool_words x) (hw_switches x).
Definition set_rt_current_thread (v : ptr) (x : kstate) : kstate :=
  mk_kstate (rt_scheduler_lock_nest x) (rt_interrupt_nest x) v (rt_current_priority x)
    (rt_thread_ready_priority_group x) (rt_thread_ready_table x) (tlists x) (threads x)
    (timers x) (rt_timer_list x) (random_nr x) (rt_tick x) (errno x) (sems x) (mutexes x)
    (events x) (mailboxes x) (mqs x) (rt_object_container x) (kheap x) (devices x)
    (mempools x) (pool_words x) (hw_switches x).
Definition set_rt_current_priority (v : Z) (x : kstate) : kstate :=
  mk_kstate (rt_scheduler_lock_nest x) (rt_interrupt_nest x) (rt_current_thread x) v
    (rt_thread_ready_priority_group x) (rt_thread_ready_table x) (tlists x) (threads x)
    (timers x) (rt_timer_list x) (random_nr x) (rt_tick x) (errno x) (sems x) (mutexes x)
    (events x) (mailboxes x) (mqs x) (rt_object_container x) (kheap x) (devices x)
    (mempools x) (pool_words x) (hw_switches x).
Definition set_rt_thread_ready_priority_group (v : Z) (x : kstate) : kstate :=
  mk_kstate (rt_scheduler_lock_nest x) (rt_interrupt_nest x) (rt_current_thread x)
    (rt_current_priority x) v (rt_thread_ready_table x) (tlists x) (threads x) (timers x)
    (rt_timer_list x) (random_nr x) (rt_tick x) (errno x) (sems x) (mutexes x) (events x)
    (mailboxes x) (mqs x) (rt_object_container x) (kheap x) (devices x) (mempools x)
    (pool_words x) (hw_switches x).
Definition set_rt_thread_ready_table (v : list Z) (x : kstate) : kstate :=
  mk_kstate (rt_scheduler_lock_nest x) (rt_interrupt_nest x) (rt_current_thread x)
    (rt_current_priority x) (rt_thread_ready_priority_group x) v (tlists x) (threads x)
    (timers x) (rt_timer_list x) (random_nr x) (rt_tick x) (errno x) (sems x) (mutexes x)
    (events x) (mailboxes x) (mqs x) (rt_object_container x) (kheap x) (devices x)
    (mempools x) (pool_words x) (hw_switches x).
Definition set_tlists (v : gmap list_id (list ptr)) (x : kstate) : kstate :=
  mk_kstate (rt_scheduler_lock_nest x) (rt_interrupt_nest x) (rt_current_thread x)
    (rt_current_priority x) (rt_thread_ready_priority_group x) (rt_thread_ready_table x) v
    (threads x) (timers x) (rt_timer_list x) (random_nr x) (rt_tick x) (errno x) (sems x)
    (mutexes x) (events x) (mailboxes x) (mqs x) (rt_object_container x) (kheap x)
    (devices x) (mempools x) (pool_words x) (hw_switches x).
Definition set_threads (v : gmap ptr rt_thread) (x : kstate) : kstate :=
  mk_kstate (rt_scheduler_lock_nest x) (rt_interrupt_nest x) (rt_current_thread x)
    (rt_current_priority x) (rt_thread_ready_priority_group x) (rt_thread_ready_table x)
    (tlists x) v (timers x) (rt_timer_list x) (random_nr x) (rt_tick x) (errno x) (sems x)
    (mutexes x) (events x) (mailboxes x) (mqs x) (rt_object_container x) (kheap x)
    (devices x) (mempools x) (pool_words x) (hw_switches x).
Definition set_timers (v : gmap timer_ref rt_timer) (x : kstate) : kstate :=
  mk_kstate (rt_scheduler_lock_nest x) (rt_interrupt_nest x) (rt_current_thread x)
    (rt_current_priority x) (rt_thread_ready_priority_group x) (rt_thread_ready_table x)
    (tlists x) (threads x) v (rt_timer_list x) (random_nr x) (rt_tick x) (errno x) (sems x)
    (mutexes x) (events x) (mailboxes x) (mqs x) (rt_object_container x) (kheap x)
    (devices x) (mempools x) (pool_words x) (hw_switches x).
Definition set_rt_timer_list (v : list (list timer_ref)) (x : kstate) : kstate :=
  mk_kstate (rt_scheduler_lock_nest x) (rt_interrupt_nest x) (rt_current_thread x)
    (rt_current_priority x) (rt_thread_ready_priority_group x) (rt_thread_ready_table x)
    (tlists x) (threads x) (timers x) v (random_nr x) (rt_tick x) (errno x) (sems x)
    (mutexes x) (events x) (mailboxes x) (mqs x) (rt_object_container x) (kheap x)
    (devices x) (mempools x) (pool_words x) (hw_switches x).
Definition set_random_nr (v : Z) (x : kstate) : kstate :=
  mk_kstate (rt_scheduler_lock_nest x) (rt_interrupt_nest x) (rt_current_thread x)
    (rt_current_priority x) (rt_thread_ready_priority_group x) (rt_thread_ready_table x)
    (tlists x) (threads x) (timers x) (rt_timer_list x) v (rt_tick x) (errno x) (sems x)
    (mutexes x) (events x) (mailboxes x) (mqs x) (rt_object_container x) (kheap x)
    (devices x) (mempools x) (pool_words x) (hw_switches x).
Definition set_rt_tick (v : Z) (x : kstate) : kstate :=
  mk_kstate (rt_scheduler_lock_nest x) (rt_interrupt_nest x) (rt_current_thread x)
    (rt_current_priority x) (rt_thread_ready_priority_group x) (rt_thread_ready_table x)
    (tlists x) (threads x) (timers x) (rt_timer_list x) (random_nr x) v (errno x) (sems x)
    (mutexes x) (events x) (mailboxes x) (mqs x) (rt_object_container x) (kheap x)
    (devices x) (mempools x) (pool_words x) (hw_switches x).
Definition set_errno (v : Z) (x : kstate) : kstate :=
  mk_kstate (rt_scheduler_lock_nest x) (rt_interrupt_nest x) (rt_current_thread x)
    (rt_current_priority x) (rt_thread_ready_priority_group x) (rt_thread_ready_table x)
    (tlists x) (threads x) (timers x) (rt_timer_list x) (random_nr x) (rt_tick x) v (sems x)
    (mutexes x) (events x) (mailboxes x) (mqs x) (rt_object_container x) (kheap x)
    (devices x) (mempools x) (pool_words x) (hw_switches x).
Definition set_sems (v : gmap ptr rt_semaphore) (x : kstate) : kstate :=
  mk_kstate (rt_scheduler_lock_nest x) (rt_interrupt_nest x) (rt_current_thread x)
    (rt_current_priority x) (rt_thread_ready_priority_group x) (rt_thread_ready_table x)
    (tlists x) (threads x) (timers x) (rt_timer_list x) (random_nr x) (rt_tick x) (errno x)
    v (mutexes x) (events x) (mailboxes x) (mqs x) (rt_object_container x) (kheap x)
    (devices x) (mempools x) (pool_words x) (hw_switches x).
Definition set_mutexes (v : gmap ptr rt_mutex) (x : kstate) : kstate :=
  mk_kstate (rt_scheduler_lock_nest x) (rt_interrupt_nest x) (rt_current_thread x)
    (rt_current_priority x) (rt_thread_ready_priority_group x) (rt_thread_ready_table x)
    (tlists x) (threads x) (timers x) (rt_timer_list x) (random_nr x) (rt_tick x) (errno x)
    (sems x) v (events x) (mailboxes x) (mqs x) (rt_object_container x) (kheap x)
    (devices x) (mempools x) (pool_words x) (hw_switches x).
Definition set_events (v : gmap ptr rt_event) (x : kstate) : kstate :=
  mk_kstate (rt_scheduler_lock_nest x) (rt_interrupt_nest x) (rt_current_thread x)
    (rt_current_priority x) (rt_thread_ready_priority_group x) (rt_thread_ready_table x)
    (tlists x) (threads x) (timers x) (rt_timer_list x) (random_nr x) (rt_tick x) (errno x)
    (sems x) (mutexes x) v (mailboxes x) (mqs x) (rt_object_container x) (kheap x)
    (devices x) (mempools x) (pool_words x) (hw_switches x).
Definition set_mailboxes (v : gmap ptr rt_mailbox) (x : kstate) : kstate :=
  mk_kstate (rt_scheduler_lock_nest x) (rt_interrupt_nest x) (rt_current_thread x)
    (rt_current_priority x) (rt_thread_ready_priority_group x) (rt_thread_ready_table x)
    (tlists x) (threads x) (timers x) (rt_timer_list x) (random_nr x) (rt_tick x) (errno x)
    (sems x) (mutexes x) (events x) v (mqs x) (rt_object_container x) (kheap x) (devices x)
    (mempools x) (pool_words x) (hw_switches x).
Definition set_mqs (v : gmap ptr rt_messagequeue) (x : kstate) : kstate :=
  mk_kstate (rt_scheduler_lock_nest x) (rt_interrupt_nest x) (rt_current_thread x)
    (rt_current_priority x) (rt_thread_ready_priority_group x) (rt_thread_ready_table x)
    (tlists x) (threads x) (timers x) (rt_timer_list x) (random_nr x) (rt_tick x) (errno x)
    (sems x) (mutexes x) (events x) (mailboxes x) v (rt_object_container x) (kheap x)
    (devices x) (mempools x) (pool_words x) (hw_switches x).
Definition set_rt_object_container (v : gmap object_class (list object_ref)) (x : kstate) : kstate :=
  mk_kstate (rt_scheduler_lock_nest x) (rt_interrupt_nest x) (rt_current_thread x)
    (rt_current_priority x) (rt_thread_ready_priority_group x) (rt_thread_ready_table x)
    (tlists x) (threads x) (timers x) (rt_timer_list x) (random_nr x) (rt_tick x) (errno x)
    (sems x) (mutexes x) (events x) (mailboxes x) (mqs x) v (kheap x) (devices x)
    (mempools x) (pool_words x) (hw_switches x).
Definition set_kheap (v : heap) (x : kstate) : kstate :=
  mk_kstate (rt_scheduler_lock_nest x) (rt_interrupt_nest x) (rt_current_thread x)
    (rt_current_priority x) (rt_thread_ready_priority_group x) (rt_thread_ready_table x)
    (tlists x) (threads x) (timers x) (rt_timer_list x) (random_nr x) (rt_tick x) (errno x)
    (sems x) (mutexes x) (events x) (mailboxes x) (mqs x) (rt_object_container x) v
    (devices x) (mempools x) (pool_words x) (hw_switches x).
Definition set_devices (v : gmap ptr rt_device) (x : kstate) : kstate :=
  mk_kstate (rt_scheduler_lock_nest x) (rt_interrupt_nest x) (rt_current_thread x)
    (rt_current_priority x) (rt_thread_ready_priority_group x) (rt_thread_ready_table x)
    (tlists x) (threads x) (timers x) (rt_timer_list x) (random_nr x) (rt_tick x) (errno x)
    (sems x) (mutexes x) (events x) (mailboxes x) (mqs x) (rt_object_container x) (kheap x)
    v (mempools x) (pool_words x) (hw_switches x).
Definition set_mempools (v : gmap ptr rt_mempool) (x : kstate) : kstate :=
  mk_kstate (rt_scheduler_lock_nest x) (rt_interrupt_nest x) (rt_current_thread x)
    (rt_current_priority x) (rt_thread_ready_priority_group x) (rt_thread_ready_table x)
    (tlists x) (threads x) (timers x) (rt_timer_list x) (random_nr x) (rt_tick x) (errno x)
    (sems x) (mutexes x) (events x) (mailboxes x) (mqs x) (rt_object_container x) (kheap x)
    (devices x) v (pool_words x) (hw_switches x).
Definition set_pool_words (v : gmap ptr Z) (x : kstate) : kstate :=
  mk_kstate (rt_scheduler_lock_nest x) (rt_interrupt_nest x) (rt_current_thread x)
    (rt_current_priority x) (rt_thread_ready_priority_group x) (rt_thread_ready_table x)
    (tlists x) (threads x) (timers x) (rt_timer_list x) (random_nr x) (rt_tick x) (errno x)
    (sems x) (mutexes x) (events x) (mailboxes x) (mqs x) (rt_object_container x) (kheap x)
    (devices x) (mempools x) v (hw_switches x).
Definition set_hw_switches (v : list hw_switch) (x : kstate) : kstate :=
  mk_kstate (rt_scheduler_lock_nest x) (rt_interrupt_nest x) (rt_current_thread x)
    (rt_current_priority x) (rt_thread_ready_priority_group x) (rt_thread_ready_table x)
    (tlists x) (threads x) (timers x) (rt_timer_list x) (random_nr x) (rt_tick x) (errno x)
    (sems x) (mutexes x) (events x) (mailboxes x) (mqs x) (rt_object_container x) (kheap x)
    (devices x) (mempools x) (pool_words x) v.

(** Only the last of two assignments to a field is left. *)
Lemma set_rt_scheduler_lock_nest_twice a b s : set_rt_scheduler_lock_nest a (set_rt_scheduler_lock_nest b s) = set_rt_scheduler_lock_nest a s.
Proof. done. Qed.
Lemma set_rt_interrupt_nest_twice a b s : set_rt_interrupt_nest a (set_rt_interrupt_nest b s) = set_rt_interrupt_nest a s.
Proof. done. Qed.
Lemma set_rt_current_thread_twice a b s : set_rt_current_thread a (set_rt_current_thread b s) = set_rt_current_thread a s.
Proof. done. Qed.
Lemma set_rt_current_priority_twice a b s : set_rt_current_priority a (set_rt_current_priority b s) = set_rt_current_priority a s.
Proof. done. Qed.
Lemma set_rt_thread_ready_priority_group_twice a b s : set_rt_thread_ready_priority_group a (set_rt_thread_ready_priority_group b s) = set_rt_thread_ready_priority_group a s.
Proof. done. Qed.
Lemma set_rt_thread_ready_table_twice a b s : set_rt_thread_ready_table a (set_rt_thread_ready_table b s) = set_rt_thread_ready_table a s.
Proof. done. Qed.
Lemma set_tlists_twice a b s : set_tlists a (set_tlists b s) = set_tlists a s.
Proof. done. Qed.
Lemma set_threads_twice a b s : set_threads a (set_threads b s) = set_threads a s.
Proof. done. Qed.
Lemma set_timers_twice a b s : set_timers a (set_timers b s) = set_timers a s.
Proof. done. Qed.
Lemma set_rt_timer_list_twice a b s : set_rt_timer_list a (set_rt_timer_list b s) = set_rt_timer_list a s.
Proof. done. Qed.
Lemma set_random_nr_twice a b s : set_random_nr a (set_random_nr b s) = set_random_nr a s.
Proof. done. Qed.
Lemma set_rt_tick_twice a b s : set_rt_tick a (set_rt_tick b s) = set_rt_tick a s.
Proof. done. Qed.
Lemma set_errno_twice a b s : set_errno a (set_errno b s) = set_errno a s.
Proof. done. Qed.
Lemma set_sems_twice a b s : set_sems a (set_sems b s) = set_sems a s.
Proof. done. Qed.
Lemma set_mutexes_twice a b s : set_mutexes a (set_mutexes b s) = set_mutexes a s.
Proof. done. Qed.
Lemma set_events_twice a b s : set_events a (set_events b s) = set_events a s.
Proof. done. Qed.
Lemma set_mailboxes_twice a b s : set_mailboxes a (set_mailboxes b s) = set_mailboxes a s.
Proof. done. Qed.
Lemma set_mqs_twice a b s : set_mqs a (set_mqs b s) = set_mqs a s.
Proof. done. Qed.
Lemma set_rt_object_container_twice a b s : set_rt_object_container a (set_rt_object_container b s) = set_rt_object_container a s.
Proof. done. Qed.
Lemma set_kheap_twice a b s : set_kheap a (set_kheap b s) = set_kheap a s.
Proof. done. Qed.
Lemma set_devices_twice a b s : set_devices a (set_devices b s) = set_devices a s.
Proof. done. Qed.
Lemma set_mempools_twice a b s : set_mempools a (set_mempools b s) = set_mempools a s.
Proof. done. Qed.
Lemma set_pool_words_twice a b s : set_pool_words a (set_pool_words b s) = set_pool_words a s.
Proof. done. Qed.
Lemma set_hw_switches_twice a b s : set_hw_switches a (set_hw_switches b s) = set_hw_switches a s.
Proof. done. Qed.

(** ** Uninitialised structures

    What a structure holds before anything is stored in it. *)

Definition junk_object (p : ptr) : rt_object :=
  mk_object (garbage p <$> seq 0 RT_NAME_MAX) (u8 (garbage p 8)) (u8 (garbage p 9)).
Definition junk_rt_thread (p : ptr) : rt_thread :=
  mk_thread (junk_object p) (garbage p 11) (garbage p 12) (garbage p 13) (garbage p 14)
    (u16 (garbage p 15)) (garbage p 16) (u8 (garbage p 17)) (u8 (garbage p 18))
    (u8 (garbage p 19)) (u8 (garbage p 20)) (u8 (garbage p 21)) (u32 (garbage p 22))
    (u32 (garbage p 23)) (u8 (garbage p 24)) (garbage p 25) (garbage p 26) (garbage p 27)
    (garbage p 28).
Definition timer_addr (r : timer_ref) : ptr := match r with TThread t => t | TObj p => p end.
Definition junk_rt_timer (r : timer_ref) : rt_timer :=
  mk_timer (junk_object (timer_addr r)) (TF_user (garbage (timer_addr r) 51))
    (garbage (timer_addr r) 52) (garbage (timer_addr r) 53) (garbage (timer_addr r) 54).
Definition junk_rt_semaphore (p : ptr) : rt_semaphore :=
  mk_sem (junk_object p) (u16 (garbage p 11)).
Definition junk_rt_mutex (p : ptr) : rt_mutex :=
  mk_mutex (junk_object p) (u16 (garbage p 11)) (u8 (garbage p 12)) (u8 (garbage p 13))
    (garbage p 14).
Definition junk_rt_event (p : ptr) : rt_event :=
  mk_event (junk_object p) (u32 (garbage p 11)).
Definition junk_rt_mailbox (p : ptr) : rt_mailbox :=
  mk_mailbox (junk_object p) (garbage p 11) [] (u16 (garbage p 13)) (u16 (garbage p 14))
    (u16 (garbage p 15)) (u16 (garbage p 16)).
Definition junk_rt_messagequeue (p : ptr) : rt_messagequeue :=
  mk_mq (junk_object p) (garbage p 11) ∅ (u16 (garbage p 13)) (u16 (garbage p 14))
    (u16 (garbage p 15)) (garbage p 16) (garbage p 17) (garbage p 18).
Definition junk_rt_device (p : ptr) : rt_device :=
  mk_device (junk_object p) (garbage p 11) (u16 (garbage p 12)) (u16 (garbage p 13))
    (u8 (garbage p 14)) (u8 (garbage p 15)) (garbage p 16) (garbage p 17) (garbage p 18)
    (garbage p 19) (garbage p 20) (garbage p 21) (garbage p 22) (garbage p 23)
    (garbage p 24).
Definition junk_rt_mempool (p : ptr) : rt_mempool :=
  mk_mempool (junk_object p) (garbage p 11) (garbage p 12) (garbage p 13) (garbage p 14)
    (garbage p 15) (garbage p 16) (garbage p 17).

End kstate.

Abbreviation K := (M kstate).

Create HintDb kset.
#[export] Hint Rewrite
  @set_rt_scheduler_lock_nest_twice @set_rt_interrupt_nest_twice
  @set_rt_current_thread_twice @set_rt_current_priority_twice
  @set_rt_thread_ready_priority_group_twice @set_rt_thread_ready_table_twice
  @set_tlists_twice @set_threads_twice @set_timers_twice @set_rt_timer_list_twice
  @set_random_nr_twice @set_rt_tick_twice @set_errno_twice @set_sems_twice
  @set_mutexes_twice @set_events_twice @set_mailboxes_twice @set_mqs_twice
  @set_rt_object_container_twice @set_kheap_twice @set_devices_twice @set_mempools_twice
  @set_pool_words_twice @set_hw_switches_twice : kset.
(** Collapse repeated assignments. *)
Ltac kset := autorewrite with kset; rewrite ?insert_insert_eq.
