(* ===== verification/Scheduler.v ===== *)
(** * The scheduler (src/scheduler.c)

    The ready table: one list of threads per priority and a bitmap of the
    non-empty lists, one level for at most 32 priorities, two levels above.  The
    code runs with interrupts disabled, so an operation is one atomic step. *)
From stdpp Require Import base tactics numbers list gmap.
From S2P Require Import Prelude RtList KService Kernel.
Local Open Scope Z_scope.

Section scheduler.
Context `{KConfig} `{Allocator}.

(** ** Access to threads and thread lists *)

Definition get_thread (t : ptr) : K rt_thread :=
  s ← get; opt BadPointer (threads s !! t).
Definition put_thread (t : ptr) (th : rt_thread) : K unit :=
  modify (fun s => set_threads (<[t := th]> (threads s)) s).
Definition upd_thread (t : ptr) (f : rt_thread -> rt_thread) : K unit :=
  th ← get_thread t; put_thread t (f th).

Definition upd_tlists (f : gmap list_id (list ptr) -> gmap list_id (list ptr)) : K unit :=
  modify (fun s => set_tlists (f (tlists s)) s).

(** The operations of rtservice.h on [tlist] nodes.  Linking a node that is
    already linked corrupts both lists, so it is a fault. *)
Definition tlist_insert (f : gmap list_id (list ptr) -> gmap list_id (list ptr)) (t : ptr) : K unit :=
  s ← get;
  if decide (Abs.linked t (tlists s)) then throw BadList else upd_tlists f.
Definition tlist_insert_before (l : list_id) (t : ptr) : K unit :=
  tlist_insert (Abs.insert_back l t) t.
Definition tlist_insert_after (l : list_id) (t : ptr) : K unit :=
  tlist_insert (Abs.insert_front l t) t.
Definition tlist_insert_before_node (l : list_id) (m t : ptr) : K unit :=
  tlist_insert (Abs.insert_before_node l m t) t.
Definition tlist_remove (t : ptr) : K unit := upd_tlists (Abs.remove t).
Definition tlist_isempty (l : list_id) : K bool :=
  gets (fun s => bool_decide (tlists s !!! l = [])).
(** [rt_list_entry(l.next, struct rt_thread, tlist)]: of an empty list this is
    no thread. *)
Definition tlist_first (l : list_id) : K ptr :=
  s ← get; opt BadList (head (tlists s !!! l)).

(** ** Operations *)

Definition rt_system_scheduler_init : K unit :=
  modify (set_rt_scheduler_lock_nest 0);;
  upd_tlists (fun st =>
    foldr (fun p st => <[LReady p := []]> st) st (seqZ 0 RT_THREAD_PRIORITY_MAX));;
  modify (set_rt_current_priority (u8 (RT_THREAD_PRIORITY_MAX - 1)));;
  modify (set_rt_current_thread RT_NULL);;
  modify (set_rt_thread_ready_priority_group 0);;
  when (32 <? RT_THREAD_PRIORITY_MAX) (modify (set_rt_thread_ready_table (replicate 32 0)));;
  upd_tlists (<[LDefunct := []]>).

(** The index of the first non-empty list, as both [rt_schedule] and
    [rt_system_scheduler_start] compute it ([rt_ubase_t], so an empty bitmap gives
    a huge index). *)
Definition highest_ready_priority : K Z :=
  s ← get;
  let group := rt_thread_ready_priority_group s in
  if RT_THREAD_PRIORITY_MAX <=? 32 then
    mret (u32 (__rt_ffs (s32 group) - 1))
  else
    let number := u32 (__rt_ffs (s32 group) - 1) in
    b ← opt BadPointer (if number <? 32 then rt_thread_ready_table s !! Z.to_nat number else None);
    mret (u32 (Z.shiftl number 3 + __rt_ffs b - 1)).

(** The first thread of the list of that priority; an index outside the table is
    a wild read. *)
Definition highest_ready_thread (p : Z) : K ptr :=
  if p <? RT_THREAD_PRIORITY_MAX then tlist_first (LReady p) else throw BadPointer.

(** [_rt_scheduler_stack_check]: a thread whose stack pointer has left its stack
    stops the system (the loop at the end runs with interrupts disabled); the
    warning for a nearly full stack changes nothing. *)
Definition stack_ok (th : rt_thread) : bool :=
  negb ((th_sp th <=? th_stack_addr th) || (u32 (th_stack_addr th + th_stack_size th) <? th_sp th)).
Definition _rt_scheduler_stack_check (t : ptr) : K unit :=
  RT_ASSERT (negb (t =? RT_NULL));;
  th ← get_thread t; if stack_ok th then mret tt else throw StackOverflow.

Definition request_switch (r : hw_switch) : K unit :=
  modify (fun s => set_hw_switches (r :: hw_switches s) s).

Definition rt_system_scheduler_start : K unit :=
  p ← highest_ready_priority;
  to_thread ← highest_ready_thread p;
  modify (set_rt_current_thread to_thread);;
  request_switch (rt_hw_context_switch_to to_thread).

Definition rt_schedule : K unit :=
  s ← get;
  if rt_scheduler_lock_nest s =? 0 then
    p ← highest_ready_priority;
    to_thread ← highest_ready_thread p;
    let from_thread := rt_current_thread s in
    if to_thread =? from_thread then mret tt
    else
      modify (set_rt_current_priority (u8 p));;
      modify (set_rt_current_thread to_thread);;
      _rt_scheduler_stack_check to_thread;;
      request_switch (if rt_interrupt_nest s =? 0
        then rt_hw_context_switch from_thread to_thread
        else rt_hw_context_switch_interrupt from_thread to_thread)
  else mret tt.

(** [table[n] |= mask] and [table[n] &= ~mask]; the callers fault where [n] is no index. *)
Definition set_bits (n : Z) (mask : Z) (tbl : list Z) : list Z :=
  alter (fun b => u8 (Z.lor b mask)) (Z.to_nat n) tbl.
Definition clear_bits (n : Z) (mask : Z) (tbl : list Z) : list Z :=
  alter (fun b => u8 (Z.land b (Z.lnot mask))) (Z.to_nat n) tbl.

Definition rt_schedule_insert_thread (thread : ptr) : K unit :=
  RT_ASSERT (negb (thread =? RT_NULL));;
  upd_thread thread (set_th_stat RT_THREAD_READY);;
  th ← get_thread thread;
  tlist_insert_before (LReady (th_current_priority th)) thread;;
  when (32 <? RT_THREAD_PRIORITY_MAX)
    (s ← get;
     opt BadPointer (rt_thread_ready_table s !! Z.to_nat (th_number th));;
     modify (fun s => set_rt_thread_ready_table
       (set_bits (th_number th) (th_high_mask th) (rt_thread_ready_table s)) s));;
  modify (fun s => set_rt_thread_ready_priority_group
    (Z.lor (rt_thread_ready_priority_group s) (th_number_mask th)) s).

Definition rt_schedule_remove_thread (thread : ptr) : K unit :=
  RT_ASSERT (negb (thread =? RT_NULL));;
  th ← get_thread thread;
  tlist_remove thread;;
  empty ← tlist_isempty (LReady (th_current_priority th));
  when empty (
    let clear_group := modify (fun s => set_rt_thread_ready_priority_group
      (Z.land (rt_thread_ready_priority_group s) (Z.lnot (th_number_mask th))) s) in
    if 32 <? RT_THREAD_PRIORITY_MAX then
      modify (fun s => set_rt_thread_ready_table
        (clear_bits (th_number th) (th_high_mask th) (rt_thread_ready_table s)) s);;
      s ← get;
      b ← opt BadPointer (rt_thread_ready_table s !! Z.to_nat (th_number th));
      when (b =? 0) clear_group
    else clear_group).

Definition rt_enter_critical : K unit :=
  modify (fun s => set_rt_scheduler_lock_nest (s16 (rt_scheduler_lock_nest s + 1)) s).

Definition rt_exit_critical : K unit :=
  modify (fun s => set_rt_scheduler_lock_nest (s16 (rt_scheduler_lock_nest s - 1)) s);;
  s ← get;
  if rt_scheduler_lock_nest s <=? 0 then
    modify (set_rt_scheduler_lock_nest 0);;
    rt_schedule
  else mret tt.

(** [rt_uint16_t rt_critical_level(void)] *)
Definition rt_critical_level : K Z := gets (fun s => u16 (rt_scheduler_lock_nest s)).

(** ** The ready table invariant *)

Definition ready (s : kstate) (p : Z) : list ptr := tlists s !!! LReady p.

(** The priority attributes [rt_thread_startup] and [rt_thread_control] compute. *)
Definition masks_ok (th : rt_thread) : Prop :=
  if RT_THREAD_PRIORITY_MAX <=? 32 then
    th_number_mask th = Z.shiftl 1 (th_current_priority th)
  else
    th_number th = Z.shiftr (th_current_priority th) 3 /\
    th_number_mask th = Z.shiftl 1 (th_number th) /\
    th_high_mask th = Z.shiftl 1 (Z.land (th_current_priority th) 7).

Definition prio_ok (p : Z) : Prop := 0 <= p < RT_THREAD_PRIORITY_MAX.

(** Byte [n] of the two level bitmap has the bits of the non-empty lists, and the
    group has bit [n] when the byte is not 0. *)
Definition byte_ok (s : kstate) (n : Z) : Prop :=
  exists b, rt_thread_ready_table s !! Z.to_nat n = Some b /\ 0 <= b < 256 /\
    Z.testbit (rt_thread_ready_priority_group s) n = negb (b =? 0) /\
    forall i, 0 <= i < 8 -> Z.testbit b i = bool_decide (ready s (8 * n + i) <> []).

(** The bitmap has exactly the bits of the non-empty lists. *)
Definition bitmap_ok (s : kstate) : Prop :=
  0 <= rt_thread_ready_priority_group s < 2 ^ 32 /\
  (forall p, ready s p <> [] -> prio_ok p) /\
  if RT_THREAD_PRIORITY_MAX <=? 32 then
    forall p, 0 <= p < 32 ->
      Z.testbit (rt_thread_ready_priority_group s) p = bool_decide (ready s p <> [])
  else
    length (rt_thread_ready_table s) = 32%nat /\ forall n, 0 <= n < 32 -> byte_ok s n.

(** The list a thread is on agrees with its state. *)
Definition list_stat (th : rt_thread) (l : list_id) : Prop :=
  match l with
  | LReady p => th_stat th = RT_THREAD_READY /\ th_current_priority th = p
  | LDefunct => th_stat th = RT_THREAD_CLOSE
  | LSuspend _ | LSender _ => th_stat th = RT_THREAD_SUSPEND
  end.

Record thread_ok (s : kstate) (t : ptr) (th : rt_thread) : Prop := {
  ok_nonnull : t <> RT_NULL;
  ok_prio : prio_ok (th_current_priority th);
  ok_init_prio : prio_ok (th_init_priority th);
  ok_masks : th_stat th <> RT_THREAD_INIT -> masks_ok th;
  ok_stack : stack_ok th = true;
  ok_list : forall l, t ∈ tlists s !!! l -> list_stat th l;
  ok_ready : th_stat th = RT_THREAD_READY -> t ∈ ready s (th_current_priority th)
}.

(** The invariant of the ready table, with the threads of [X] left out: they are
    in the middle of a state change. *)
Record sched_inv (X : gset ptr) (s : kstate) : Prop := {
  si_wf : Abs.store_wf (tlists s);
  si_bitmap : bitmap_ok s;
  si_exist : forall l t, t ∈ tlists s !!! l -> is_Some (threads s !! t);
  si_thread : forall t th, t ∉ X -> threads s !! t = Some th -> thread_ok s t th
}.

Lemma group_limit s p :
  bitmap_ok s -> RT_THREAD_PRIORITY_MAX <=? 32 = true ->
  Z.testbit (rt_thread_ready_priority_group s) p = true -> ready s p <> [].
Proof.
  intros (Hg & _ & Hb) E Hp. rewrite E in Hb.
  assert (0 <= p < 32) as Hr.
  { destruct (Z_lt_ge_dec p 0); [by rewrite Z.testbit_neg_r in Hp|].
    destruct (Z_lt_ge_dec p 32); [lia|]. rewrite (testbit_high 32) in Hp; [done|lia|lia]. }
  rewrite Hb in Hp by done. by case_bool_decide.
Qed.

(** Which byte and bit of the two level bitmap stand for a priority. *)
Lemma table_bit s q :
  bitmap_ok s -> RT_THREAD_PRIORITY_MAX <=? 32 = false -> ready s q <> [] ->
  0 <= q / 8 < 32 /\ exists b, rt_thread_ready_table s !! Z.to_nat (q / 8) = Some b /\
    0 < b < 256 /\ Z.testbit (rt_thread_ready_priority_group s) (q / 8) = true /\
    Z.testbit b (q mod 8) = true.
Proof.
  intros (_ & Hlim & Hb) EM Hq. rewrite EM in Hb. destruct Hb as [_ Hb].
  pose proof prio_max_range. pose proof (Hlim _ Hq) as Hr. unfold prio_ok in Hr.
  assert (0 <= q / 8 < 32) as Hd by (split; [apply Z.div_pos|apply Z.div_lt_upper_bound]; lia).
  split; [done|]. destruct (Hb _ Hd) as (b & Eb & Hbr & Hbg & Hbi).
  specialize (Hbi (q mod 8) ltac:(apply Z.mod_pos_bound; lia)).
  rewrite <- Z.div_mod in Hbi by lia. rewrite bool_decide_true in Hbi by done.
  exists b. destruct (Z.eqb_spec b 0); [subst; by rewrite Z.bits_0 in Hbi|].
  split_and!; [done|lia|lia|done|done].
Qed.

Lemma group_nonzero s :
  bitmap_ok s -> (exists p, ready s p <> []) -> 0 < rt_thread_ready_priority_group s < 2 ^ 32.
Proof.
  intros Hbm [q Hq]. pose proof Hbm as (Hg & Hlim & Hb). split; [|lia].
  apply Z.le_neq. split; [lia|]. intros E.
  destruct (RT_THREAD_PRIORITY_MAX <=? 32) eqn:EM.
  - pose proof (Hlim _ Hq) as Hr. unfold prio_ok in Hr.
    specialize (Hb q ltac:(lia)). rewrite <- E, Z.bits_0 in Hb. by case_bool_decide.
  - destruct (table_bit s q) as (_ & b & _ & _ & Hbit & _); [done..|].
    by rewrite <- E, Z.bits_0 in Hbit.
Qed.

(** The list of priority [p] is the first non-empty one. *)
Definition is_highest (s : kstate) (p : Z) : Prop :=
  prio_ok p /\ ready s p <> [] /\ forall q, ready s q <> [] -> p <= q.

Lemma highest_one_level s n :
  bitmap_ok s -> RT_THREAD_PRIORITY_MAX <=? 32 = true ->
  lowest_set (rt_thread_ready_priority_group s) n -> is_highest s n.
Proof.
  intros Hbm EM (_ & Hn & Hbelow). assert (ready s n <> []) as Hne by (by eapply group_limit).
  pose proof Hbm as (_ & Hlim & Hb). rewrite EM in Hb.
  split_and!; [by apply Hlim|done|]. intros q Hq.
  destruct (Z_lt_ge_dec q n) as [Hlt|]; [exfalso|lia].
  pose proof (Hlim _ Hq) as Hqr. unfold prio_ok in Hqr.
  specialize (Hb q ltac:(lia)). rewrite Hbelow in Hb by lia. by case_bool_decide.
Qed.

Lemma highest_two_levels s n b k :
  bitmap_ok s -> RT_THREAD_PRIORITY_MAX <=? 32 = false -> 0 <= n < 32 ->
  rt_thread_ready_table s !! Z.to_nat n = Some b -> 0 <= k < 8 ->
  lowest_set (rt_thread_ready_priority_group s) n -> lowest_set b k -> is_highest s (8 * n + k).
Proof.
  intros Hbm EM Hn Eb Hk (_ & Hgn & Hbelow) (_ & Hbk & Hkl).
  pose proof Hbm as (_ & Hlim & Hb). rewrite EM in Hb. destruct Hb as [_ Hb].
  assert (ready s (8 * n + k) <> []) as Hne.
  { destruct (Hb n Hn) as (b' & Eb' & _ & _ & Hbi). rewrite Eb in Eb'. simplify_eq.
    rewrite Hbi in Hbk by lia. by case_bool_decide. }
  split_and!; [by apply Hlim|done|]. intros q Hq.
  destruct (Z_lt_ge_dec q (8 * n + k)) as [Hlt|]; [exfalso|lia].
  pose proof (Hlim _ Hq) as Hqr. unfold prio_ok in Hqr.
  destruct (table_bit s q Hbm EM Hq) as (Hd & b' & Eb' & _ & Hg' & Hb').
  pose proof (Z.div_mod q 8 ltac:(lia)). pose proof (Z.mod_pos_bound q 8 ltac:(lia)).
  destruct (Z_lt_ge_dec (q / 8) n) as [Hqn|Hqn]; [by rewrite Hbelow in Hg' by lia|].
  assert (q / 8 = n) as E by lia. rewrite E in *. rewrite Eb in Eb'. simplify_eq.
  by rewrite Hkl in Hb' by lia.
Qed.

(** [highest_ready_priority] finds the non-empty list of highest priority (lowest
    number) whenever some list is non-empty. *)
Lemma highest_ready_priority_spec s :
  bitmap_ok s -> (exists p, ready s p <> []) ->
  wp highest_ready_priority (fun p s' => s' = s /\ is_highest s p) s.
Proof.
  intros Hbm Hex. pose proof (group_nonzero s Hbm Hex) as Hg.
  unfold highest_ready_priority. wp_step. wp_step.
  destruct (ffs_u32 _ Hg) as [Hf Hlow].
  set (n := __rt_ffs (s32 (rt_thread_ready_priority_group s)) - 1) in *.
  rewrite (uwrap_small 32 n) by lia.
  destruct (RT_THREAD_PRIORITY_MAX <=? 32) eqn:EM; [wp_step; eauto using highest_one_level|].
  pose proof Hbm as (_ & _ & Hb). rewrite EM in Hb. destruct Hb as [_ Hb].
  destruct (Hb n ltac:(lia)) as (b & Eb & Hbr & Hbg & _). destruct Hlow as (? & Hgn & Hbelow).
  rewrite Hgn in Hbg. destruct (Z.eqb_spec b 0); [done|].
  wp_step. replace (n <? 32) with true by lia. wp_step; [done|]. wp_step.
  destruct (ffs_spec b) as [Hfb Hlb]; [lia|done|]. pose proof Hlb as (_ & Hk & _).
  set (k := __rt_ffs b - 1) in *.
  assert (k < 8) as Hk8.
  { destruct (Z_lt_ge_dec k 8); [done|]. rewrite (testbit_high 8 b k) in Hk; [done|lia|lia]. }
  replace (Z.shiftl n 3 + __rt_ffs b - 1) with (8 * n + k)
    by (rewrite Z.shiftl_mul_pow2 by lia; lia).
  rewrite uwrap_small by lia. split; [done|]. eapply highest_two_levels; eauto; [lia|lia|by split_and!].
Qed.

(** ** Setting and clearing the bits of one priority *)

(** Priority [p] has byte [p / 8] and bit [p mod 8] of the two level bitmap. *)
Lemma masks_two_levels th :
  RT_THREAD_PRIORITY_MAX <=? 32 = false -> masks_ok th -> prio_ok (th_current_priority th) ->
  th_number th = th_current_priority th / 8 /\ 0 <= th_number th < 32 /\
  th_number_mask th = Z.shiftl 1 (th_number th) /\
  th_high_mask th = Z.shiftl 1 (th_current_priority th mod 8).
Proof.
  unfold masks_ok, prio_ok. intros -> (E1 & E2 & E3) Hp. pose proof prio_max_range.
  rewrite Z.shiftr_div_pow2 in E1 by lia. change (2 ^ 3) with 8 in E1.
  change 7 with (Z.ones 3) in E3. rewrite Z.land_ones in E3 by lia. change (2 ^ 3) with 8 in E3.
  split_and!; try done; rewrite E1; [apply Z.div_pos|apply Z.div_lt_upper_bound]; lia.
Qed.

Lemma u8_set b i :
  0 <= b < 256 -> 0 <= i < 8 ->
  0 <= u8 (Z.lor b (Z.shiftl 1 i)) < 256 /\
  forall j, 0 <= j < 8 ->
    Z.testbit (u8 (Z.lor b (Z.shiftl 1 i))) j = Z.testbit b j || bool_decide (i = j).
Proof.
  intros Hb Hi. split; [apply (uwrap_range 8); lia|]. intros j Hj.
  unfold uwrap. rewrite Z.mod_pow2_bits_low by lia. apply testbit_set. lia.
Qed.

Lemma u8_clear b i :
  0 <= b < 256 -> 0 <= i < 8 ->
  0 <= u8 (Z.land b (Z.lnot (Z.shiftl 1 i))) < 256 /\
  forall j, 0 <= j < 8 ->
    Z.testbit (u8 (Z.land b (Z.lnot (Z.shiftl 1 i)))) j = Z.testbit b j && negb (bool_decide (i = j)).
Proof.
  intros Hb Hi. split; [apply (uwrap_range 8); lia|]. intros j Hj.
  unfold uwrap. rewrite Z.mod_pow2_bits_low by lia. apply testbit_clear; lia.
Qed.

(** A byte is 0 exactly when none of its bits is set. *)
Lemma byte_zero b : 0 <= b < 256 -> (forall j, 0 <= j < 8 -> Z.testbit b j = false) -> b = 0.
Proof.
  intros Hb Hj. apply Z.bits_inj'. intros n Hn. rewrite Z.bits_0.
  destruct (Z_lt_ge_dec n 8); [apply Hj; lia|]. apply (testbit_high 8); lia.
Qed.

Lemma group_set_range g n : 0 <= g < 2 ^ 32 -> 0 <= n < 32 -> 0 <= Z.lor g (Z.shiftl 1 n) < 2 ^ 32.
Proof.
  intros Hg Hn. split; [apply Z.lor_nonneg; split; [lia|apply Z.shiftl_nonneg; lia]|].
  apply bits_range; [lia|apply Z.lor_nonneg; split; [lia|apply Z.shiftl_nonneg; lia]|].
  intros m Hm. rewrite testbit_set by lia. rewrite (testbit_high 32 g m) by lia.
  rewrite bool_decide_false; [done|lia].
Qed.

Lemma group_clear_range g n :
  0 <= g < 2 ^ 32 -> 0 <= n -> 0 <= Z.land g (Z.lnot (Z.shiftl 1 n)) < 2 ^ 32.
Proof.
  intros Hg Hn. split; [apply Z.land_nonneg; lia|].
  apply bits_range; [lia|apply Z.land_nonneg; lia|].
  intros m Hm. rewrite testbit_clear by lia. by rewrite (testbit_high 32 g m) by lia.
Qed.

Lemma index_split p n i : 0 <= i < 8 -> 8 * n + i = p <-> n = p / 8 /\ i = p mod 8.
Proof.
  intros Hi. split.
  - intros <-. rewrite Z.mul_comm, Z.add_comm, Z.div_add, Z.mod_add by lia.
    rewrite Z.div_small, Z.mod_small by lia. lia.
  - intros [-> ->]. symmetry. apply Z.div_mod. lia.
Qed.

Section bits.
Context (s s' : kstate) (th : rt_thread).
Abbreviation p0 := (th_current_priority th).
Context (Hbm : bitmap_ok s) (Hmask : masks_ok th) (Hp0 : prio_ok p0)
        (Hother : forall q, q <> p0 -> ready s' q = ready s q).

Lemma ready_limit q : ready s' q <> [] -> prio_ok q.
Proof.
  intros Hq. destruct (decide (q = p0)) as [->|]; [done|].
  apply Hbm. by rewrite <- Hother.
Qed.

(** Bytes of other priorities. *)
Lemma byte_ok_frame n :
  n <> p0 / 8 -> rt_thread_ready_table s' !! Z.to_nat n = rt_thread_ready_table s !! Z.to_nat n ->
  Z.testbit (rt_thread_ready_priority_group s') n = Z.testbit (rt_thread_ready_priority_group s) n ->
  byte_ok s n -> byte_ok s' n.
Proof.
  intros Hn Et Eg (b & Eb & Hr & Hbg & Hbi). exists b. rewrite Et, Eg.
  split_and!; [done|lia|lia|done|]. intros i Hi. rewrite Hother; [by apply Hbi|].
  intros E%index_split; [|done]. naive_solver.
Qed.

(** The byte of the changed priority, given its new value. *)
Lemma byte_ok_upd n b b' :
  rt_thread_ready_table s !! Z.to_nat n = Some b -> byte_ok s n -> n = p0 / 8 ->
  rt_thread_ready_table s' !! Z.to_nat n = Some b' -> 0 <= b' < 256 ->
  Z.testbit (rt_thread_ready_priority_group s') n = negb (b' =? 0) ->
  (forall j, 0 <= j < 8 -> Z.testbit b' j =
     if decide (p0 mod 8 = j) then bool_decide (ready s' p0 <> []) else Z.testbit b j) ->
  byte_ok s' n.
Proof.
  intros Eb (b0 & Eb0 & _ & _ & Hbi) En Eb' Hr Hg Hj. rewrite Eb in Eb0. simplify_eq.
  exists b'. split_and!; [done|lia|lia|done|]. intros i Hi. rewrite Hj by done. case_decide as E.
  - assert (8 * (p0 / 8) + i = p0) as -> by (by apply index_split). done.
  - rewrite Hother; [by apply Hbi|]. intros Ei%index_split; [|done]. naive_solver.
Qed.

Lemma bitmap_set :
  ready s' p0 <> [] ->
  rt_thread_ready_priority_group s' = Z.lor (rt_thread_ready_priority_group s) (th_number_mask th) ->
  rt_thread_ready_table s' =
    (if 32 <? RT_THREAD_PRIORITY_MAX
     then set_bits (th_number th) (th_high_mask th) (rt_thread_ready_table s)
     else rt_thread_ready_table s) ->
  bitmap_ok s'.
Proof.
  intros Hne Eg Et. pose proof Hbm as (Hg & _ & Hb). pose proof prio_max_range.
  unfold bitmap_ok. destruct (RT_THREAD_PRIORITY_MAX <=? 32) eqn:EM.
  - pose proof Hmask as Em. unfold masks_ok in Em. rewrite EM in Em.
    pose proof Hp0 as Hpr. unfold prio_ok in Hpr. rewrite Em in Eg. rewrite Eg.
    split; [apply group_set_range; lia|]. split; [apply ready_limit|].
    intros q Hq. rewrite testbit_set, Hb by lia. destruct (decide (p0 = q)) as [<-|Hqp].
    + rewrite (bool_decide_true (p0 = p0)), orb_true_r by done. by rewrite bool_decide_true.
    + by rewrite (bool_decide_false (p0 = q)), orb_false_r, Hother.
  - replace (32 <? RT_THREAD_PRIORITY_MAX) with true in Et by lia.
    destruct (masks_two_levels th EM Hmask Hp0) as (En & Hn & Em & Eh).
    rewrite Em in Eg. destruct Hb as [Hlen Hb].
    split; [rewrite Eg; apply group_set_range; lia|]. split; [apply ready_limit|].
    split; [rewrite Et; unfold set_bits; by rewrite length_alter|].
    intros n Hn'. unfold set_bits in Et. destruct (decide (n = p0 / 8)) as [E|E].
    + destruct (Hb n Hn') as (b & Eb & Hbr & _).
      destruct (u8_set b (p0 mod 8)) as [Hr Hbits]; [done|apply Z.mod_pos_bound; lia|].
      eapply byte_ok_upd; [done|by apply Hb|done|..]; rewrite ?Et, ?Eg.
      * replace (th_number th) with n by lia. by rewrite list_lookup_alter_eq, Eb.
      * by rewrite Eh.
      * rewrite testbit_set, bool_decide_true, orb_true_r by lia.
        symmetry. apply negb_true_iff, Z.eqb_neq. intros E0. rewrite Eh in E0.
        specialize (Hbits (p0 mod 8) ltac:(apply Z.mod_pos_bound; lia)).
        by rewrite E0, Z.bits_0, bool_decide_true, orb_true_r in Hbits.
      * intros j Hj. rewrite Eh, Hbits by done. case_decide.
        -- rewrite (bool_decide_true (p0 mod 8 = j)), orb_true_r by done. by rewrite bool_decide_true.
        -- by rewrite bool_decide_false, orb_false_r.
    + apply byte_ok_frame; [done|..|by apply Hb]; rewrite ?Et, ?Eg.
      * apply list_lookup_alter_ne. lia.
      * rewrite testbit_set, bool_decide_false, orb_false_r by lia. done.
Qed.

(** Nothing to do while the list still has members. *)
Lemma bitmap_keep :
  ready s' p0 <> [] -> ready s p0 <> [] ->
  rt_thread_ready_priority_group s' = rt_thread_ready_priority_group s ->
  rt_thread_ready_table s' = rt_thread_ready_table s -> bitmap_ok s'.
Proof.
  intros Hne Hne' Eg Et. pose proof Hbm as (Hg & _ & Hb).
  assert (forall q, bool_decide (ready s' q <> []) = bool_decide (ready s q <> [])) as Hd.
  { intros q. apply bool_decide_ext. destruct (decide (q = p0)) as [->|]; [tauto|by rewrite Hother]. }
  unfold bitmap_ok. rewrite Eg, Et. split; [done|]. split; [apply ready_limit|].
  destruct (RT_THREAD_PRIORITY_MAX <=? 32); [intros q Hq; rewrite Hd; by apply Hb|].
  destruct Hb as [Hlen Hb]. split; [done|]. intros n Hn.
  destruct (Hb n Hn) as (b & Eb & Hr & Hbg & Hbi). exists b. rewrite Eg, Et.
  split_and!; [done|lia|lia|done|]. intros i Hi. rewrite Hd. by apply Hbi.
Qed.

(** The two forms of the group update of [rt_schedule_remove_thread]. *)
Lemma bitmap_clear_one :
  RT_THREAD_PRIORITY_MAX <=? 32 = true -> ready s' p0 = [] ->
  rt_thread_ready_priority_group s' =
    Z.land (rt_thread_ready_priority_group s) (Z.lnot (th_number_mask th)) ->
  rt_thread_ready_table s' = rt_thread_ready_table s -> bitmap_ok s'.
Proof.
  intros EM He Eg Et. pose proof Hbm as (Hg & _ & Hb). unfold bitmap_ok. rewrite EM in *.
  pose proof Hmask as Em. unfold masks_ok in Em. rewrite EM in Em.
  pose proof Hp0 as Hpr. unfold prio_ok in Hpr. rewrite Em in Eg. rewrite Eg.
  split; [apply group_clear_range; lia|]. split; [apply ready_limit|].
  intros q Hq. rewrite testbit_clear, Hb by lia. destruct (decide (p0 = q)) as [<-|Hqp].
  - rewrite (bool_decide_true (p0 = p0)), andb_false_r by done. by rewrite bool_decide_false by tauto.
  - by rewrite (bool_decide_false (p0 = q)), andb_true_r, Hother.
Qed.

Lemma bitmap_clear_two b b' :
  RT_THREAD_PRIORITY_MAX <=? 32 = false -> ready s' p0 = [] ->
  rt_thread_ready_table s !! Z.to_nat (th_number th) = Some b ->
  b' = u8 (Z.land b (Z.lnot (th_high_mask th))) ->
  rt_thread_ready_table s' = clear_bits (th_number th) (th_high_mask th) (rt_thread_ready_table s) ->
  rt_thread_ready_priority_group s' =
    (if b' =? 0 then Z.land (rt_thread_ready_priority_group s) (Z.lnot (th_number_mask th))
     else rt_thread_ready_priority_group s) ->
  bitmap_ok s'.
Proof.
  intros EM He Eb Eb' Et Eg. pose proof Hbm as (Hg & _ & Hb). unfold bitmap_ok. rewrite EM in *.
  destruct (masks_two_levels th EM Hmask Hp0) as (En & Hn & Em & Eh).
  rewrite Em in Eg. destruct Hb as [Hlen Hb].
  split; [rewrite Eg; case_match; [apply group_clear_range; lia|done]|].
  split; [apply ready_limit|].
  split; [rewrite Et; unfold clear_bits; by rewrite length_alter|].
  intros n Hn'. unfold clear_bits in Et. destruct (decide (n = p0 / 8)) as [E|E].
  - rewrite <- E in En. rewrite En in *. destruct (Hb n Hn') as (b0 & Eb0 & Hbr & Hbg & _).
    rewrite Eb in Eb0. symmetry in Eb0. simplify_eq.
    destruct (u8_clear b (p0 mod 8)) as [Hr Hbits]; [done|apply Z.mod_pos_bound; lia|].
    rewrite Eh in *. eapply byte_ok_upd; [done|by apply Hb|done|..]; rewrite ?Et, ?Eg.
    + by rewrite list_lookup_alter_eq, Eb.
    + done.
    + destruct (Z.eqb_spec (u8 (Z.land b (Z.lnot (Z.shiftl 1 (p0 mod 8))))) 0) as [E0|E0].
      * rewrite testbit_clear, bool_decide_true, andb_false_r by lia. done.
      * rewrite Hbg. destruct (Z.eqb_spec b 0) as [->|]; [|done]. exfalso. by apply E0.
    + intros j Hj. rewrite Hbits by done. case_decide.
      * rewrite (bool_decide_true (p0 mod 8 = j)), andb_false_r by done.
        by rewrite bool_decide_false by tauto.
      * by rewrite bool_decide_false, andb_true_r.
  - apply byte_ok_frame; [done|..|by apply Hb]; rewrite ?Et, ?Eg.
    + apply list_lookup_alter_ne. lia.
    + case_match; [|done]. by rewrite testbit_clear, bool_decide_false, andb_true_r by lia.
Qed.
End bits.

(** ** Symbolic execution *)

Lemma wp_get_thread t th (Q : rt_thread -> kstate -> Prop) s :
  threads s !! t = Some th -> Q th s -> wp (get_thread t) Q s.
Proof. intros E HQ. unfold get_thread. do 2 wp_step. by eapply wp_opt. Qed.

Lemma wp_upd_thread t f th (Q : unit -> kstate -> Prop) s :
  threads s !! t = Some th -> Q tt (set_threads (<[t := f th]> (threads s)) s) ->
  wp (upd_thread t f) Q s.
Proof. intros E HQ. unfold upd_thread. wp_step. by eapply wp_get_thread. Qed.

Lemma wp_tlist_insert f t (Q : unit -> kstate -> Prop) s :
  ~ Abs.linked t (tlists s) -> Q tt (set_tlists (f (tlists s)) s) -> wp (tlist_insert f t) Q s.
Proof. intros Hl HQ. unfold tlist_insert. do 2 wp_step. by rewrite decide_False. Qed.

Lemma wp_tlist_first l t (Q : ptr -> kstate -> Prop) s :
  head (tlists s !!! l) = Some t -> Q t s -> wp (tlist_first l) Q s.
Proof. intros E HQ. unfold tlist_first. do 2 wp_step. by eapply wp_opt. Qed.

(** ** The scheduling operations keep the invariant *)

Definition inserted (t : ptr) (th : rt_thread) (s : kstate) : kstate :=
  set_rt_thread_ready_priority_group (Z.lor (rt_thread_ready_priority_group s) (th_number_mask th))
  (set_rt_thread_ready_table
     (if 32 <? RT_THREAD_PRIORITY_MAX
      then set_bits (th_number th) (th_high_mask th) (rt_thread_ready_table s)
      else rt_thread_ready_table s)
  (set_tlists (Abs.insert_back (LReady (th_current_priority th)) t (tlists s))
  (set_threads (<[t := set_th_stat RT_THREAD_READY th]> (threads s)) s))).

Lemma set_table_id s : set_rt_thread_ready_table (rt_thread_ready_table s) s = s.
Proof. by destruct s. Qed.

(** The byte of a thread's priority is in the table. *)
Lemma number_in_table s th :
  bitmap_ok s -> masks_ok th -> prio_ok (th_current_priority th) -> 32 < RT_THREAD_PRIORITY_MAX ->
  is_Some (rt_thread_ready_table s !! Z.to_nat (th_number th)).
Proof.
  intros (_ & _ & Hb) Hm Hp Hmax. assert (RT_THREAD_PRIORITY_MAX <=? 32 = false) as EM by lia.
  rewrite EM in Hb. destruct Hb as [Hlen _]. destruct (masks_two_levels th EM Hm Hp) as (_ & Hn & _).
  apply lookup_lt_is_Some_2. lia.
Qed.

Lemma rt_schedule_insert_thread_run s t th :
  t <> RT_NULL -> threads s !! t = Some th -> ~ Abs.linked t (tlists s) ->
  bitmap_ok s -> masks_ok th -> prio_ok (th_current_priority th) ->
  rt_schedule_insert_thread t s = Ok tt (inserted t th s).
Proof.
  intros Ht Eth Hl Hb Hm Hp. pose proof (number_in_table s th Hb Hm Hp) as Hin.
  assert (wp (rt_schedule_insert_thread t) (fun _ s' => s' = inserted t th s) s) as Hw.
  { unfold rt_schedule_insert_thread. wp_step. wp_step; [by apply negb_true_iff, Z.eqb_neq|].
    wp_step. eapply wp_upd_thread; [done|]. wp_step.
    eapply wp_get_thread; [apply lookup_insert_eq|]. wp_step.
    apply wp_tlist_insert; [done|]. wp_step. unfold when, inserted.
    destruct (Z.ltb_spec 32 RT_THREAD_PRIORITY_MAX) as [Hlt|_].
    - destruct (Hin Hlt) as [b Eb]. do 3 wp_step. eapply wp_opt; [exact Eb|]. wp_step. wp_step. done.
    - wp_step. wp_step. by destruct s. }
  unfold wp in Hw. destruct (rt_schedule_insert_thread t s) as [[] s'|]; by subst.
Qed.

Lemma lookup_insert_back (st : gmap list_id (list ptr)) l l' t :
  Abs.insert_back l t st !!! l' = if decide (l = l') then st !!! l ++ [t] else st !!! l'.
Proof.
  unfold Abs.insert_back. case_decide; [subst; apply lookup_total_insert_eq|by apply lookup_total_insert_ne].
Qed.

Lemma store_wf_insert_back (st : gmap list_id (list ptr)) l t :
  Abs.store_wf st -> ~ Abs.linked t st -> Abs.store_wf (Abs.insert_back l t st).
Proof.
  intros Hw Hl. eapply Abs.store_wf_insert; [done..|]. rewrite Permutation_app_comm. done.
Qed.

(** A thread whose attributes are right may become ready. *)
Lemma inserted_inv X s t th :
  sched_inv (X ∪ {[t]}) s -> threads s !! t = Some th -> ~ Abs.linked t (tlists s) ->
  t <> RT_NULL -> prio_ok (th_current_priority th) -> prio_ok (th_init_priority th) ->
  masks_ok th -> stack_ok th = true ->
  sched_inv X (inserted t th s).
Proof.
  intros [Hwf Hbm Hex Hth] Eth Hl Ht Hp Hip Hm Hst. split.
  - by apply store_wf_insert_back.
  - apply (bitmap_set s _ th Hbm Hm Hp); [| |done|done].
    + intros q Hq. unfold ready. simpl. rewrite lookup_insert_back. by case_decide; simplify_eq.
    + unfold ready. simpl. rewrite lookup_insert_back, decide_True by done. by destruct (_ !!! _).
  - intros l t'. simpl. rewrite lookup_insert_back. intros Hin.
    destruct (decide (t = t')) as [<-|]; [rewrite lookup_insert_eq; by eexists|].
    rewrite lookup_insert_ne by done. case_decide; [|by eapply Hex].
    subst. apply elem_of_app in Hin as [Hin|Hin]; [by eapply Hex|].
    apply list_elem_of_singleton in Hin. naive_solver.
  - simpl. intros t' th' Ht' [(<- & <-)|(Hne & E')]%lookup_insert_Some.
    + split; simpl; try done.
      * intros l Hin. rewrite lookup_insert_back in Hin. case_decide; [by subst|].
        exfalso. apply Hl, Abs.linked_spec. eauto.
      * intros _. unfold ready. simpl. rewrite lookup_insert_back, decide_True by done.
        apply elem_of_app. right. by apply list_elem_of_singleton.
    + destruct (Hth t' th') as [C1 C2 C3 C4 C5 C6 C7]; [set_solver|done|]. split; try done.
      * intros l. simpl. rewrite lookup_insert_back. case_decide; [|apply C6]. subst.
        intros [Hin|Hin%list_elem_of_singleton]%elem_of_app; [by apply C6|naive_solver].
      * intros Hr. unfold ready. simpl. rewrite lookup_insert_back. specialize (C7 Hr).
        case_decide as E; [|done]. apply elem_of_app. left. unfold ready in C7. by rewrite E.
Qed.

(** What [rt_schedule_remove_thread] changes: the lists and the bitmap. *)
Definition retabled (s s' : kstate) : Prop :=
  s' = set_rt_thread_ready_priority_group (rt_thread_ready_priority_group s')
    (set_rt_thread_ready_table (rt_thread_ready_table s') (set_tlists (tlists s') s)).

Lemma ready_remove s s' t q :
  tlists s' = Abs.remove t (tlists s) -> t ∉ ready s q -> ready s' q = ready s q.
Proof. intros E Hn. unfold ready. rewrite E, Abs.lookup_remove. by apply list_del_not_in. Qed.

(** The bitmap update, whichever list the thread was on. *)
Lemma rt_schedule_remove_thread_bitmap s t th :
  bitmap_ok s -> threads s !! t = Some th -> t <> RT_NULL ->
  prio_ok (th_current_priority th) -> masks_ok th ->
  (forall q, t ∈ ready s q -> q = th_current_priority th) ->
  wp (rt_schedule_remove_thread t) (fun _ s' =>
    bitmap_ok s' /\ tlists s' = Abs.remove t (tlists s) /\ retabled s s') s.
Proof.
  intros Hbm Eth Ht Hp Hm Hq. pose proof prio_max_range.
  unfold rt_schedule_remove_thread. wp_step. wp_step; [by apply negb_true_iff, Z.eqb_neq|].
  wp_step. eapply wp_get_thread; [done|]. wp_step. unfold tlist_remove, upd_tlists. wp_step.
  wp_step. unfold tlist_isempty. wp_step. set (s1 := set_tlists _ s).
  assert (forall s2, tlists s2 = tlists s1 ->
            forall q, q <> th_current_priority th -> ready s2 q = ready s q) as Hother.
  { intros s2 E2 q Hne. apply (ready_remove _ _ t); [by rewrite E2|]. intros Hin%Hq. done. }
  apply wp_when; intros Hem; [apply bool_decide_eq_true in Hem|apply bool_decide_eq_false in Hem].
  - destruct (32 <? RT_THREAD_PRIORITY_MAX) eqn:EM.
    + assert (RT_THREAD_PRIORITY_MAX <=? 32 = false) as EM' by lia.
      destruct (masks_two_levels th EM' Hm Hp) as (_ & Hn & _).
      pose proof Hbm as (_ & _ & Hb). rewrite EM' in Hb. destruct Hb as [_ Hb].
      destruct (Hb _ Hn) as (b & Eb & _). wp_step. wp_step. wp_step. wp_step. wp_step.
      wp_step; [simpl; unfold clear_bits; by rewrite list_lookup_alter_eq, Eb|].
      unfold when. destruct (Z.eqb_spec (u8 (Z.land b (Z.lnot (th_high_mask th)))) 0) as [E0|E0].
      all: wp_step; split_and!; [|done|done].
      all: eapply (bitmap_clear_two s _ th Hbm Hm Hp); [by apply Hother|done|done|done|done|done|].
      * done.
      * apply Z.eqb_neq in E0. by rewrite E0.
    + wp_step. split_and!; [|done|done].
      apply (bitmap_clear_one s _ th Hbm Hm Hp); [by apply Hother|lia|done|done|done].
  - split_and!; [|done|].
    + apply (bitmap_keep s s1 th Hbm Hp); try done; [by apply Hother|].
      intros E. apply Hem. simpl. rewrite Abs.lookup_remove. unfold ready in E. by rewrite E.
    + done.
Qed.

(** A thread taken off its list is exempt from the invariant until its state is
    set; the others are untouched. *)
Lemma removed_inv X s s' t :
  sched_inv X s -> bitmap_ok s' -> tlists s' = Abs.remove t (tlists s) -> retabled s s' ->
  sched_inv (X ∪ {[t]}) s'.
Proof.
  intros [Hwf Hbm Hex Hth] Hbm' Etl Hrt.
  assert (threads s' = threads s) as Eth by (by rewrite Hrt). split; [|done|..].
  - rewrite Etl. by apply Abs.store_wf_remove.
  - intros l t'. rewrite Etl, Eth, Abs.lookup_remove, elem_of_list_del. intros [_ Hin]. eauto.
  - intros t' th'. rewrite not_elem_of_union, not_elem_of_singleton, Eth. intros [HX Hne] E.
    destruct (Hth t' th' HX E) as [C1 C2 C3 C4 C5 C6 C7]. split; try done.
    + intros l. rewrite Etl, Abs.lookup_remove, elem_of_list_del. intros [_ Hin]. eauto.
    + unfold ready. rewrite Etl, Abs.lookup_remove, elem_of_list_del. intros Hr. auto.
Qed.

Lemma rt_schedule_remove_thread_spec X s t th :
  sched_inv X s -> threads s !! t = Some th -> t <> RT_NULL ->
  prio_ok (th_current_priority th) -> masks_ok th ->
  (forall q, t ∈ ready s q -> q = th_current_priority th) ->
  wp (rt_schedule_remove_thread t) (fun _ s' =>
    sched_inv (X ∪ {[t]}) s' /\ tlists s' = Abs.remove t (tlists s) /\ retabled s s') s.
Proof.
  intros Hinv Eth Ht Hp Hm Hq.
  eapply wp_mono; [by apply (rt_schedule_remove_thread_bitmap s t th); first apply Hinv|].
  intros ? s' (Hbm & Etl & Hrt). split_and!; [by eapply removed_inv|done|done].
Qed.

(** ** Choosing the next thread *)

(** The thread the priority rule selects: the oldest of the first non-empty list. *)
Definition next_thread (s : kstate) (t : ptr) : Prop :=
  exists p, is_highest s p /\ head (ready s p) = Some t.

Lemma next_thread_exists s :
  bitmap_ok s -> (exists p, ready s p <> []) -> exists t, next_thread s t.
Proof.
  intros Hbm Hex.
  destruct (wp_ok _ _ _ (highest_ready_priority_spec s Hbm Hex)) as (p & ? & _ & _ & Hp).
  destruct (ready s p) as [|t l] eqn:E; [by destruct Hp as (_ & ? & _)|]. exists t, p. by rewrite E.
Qed.

Lemma next_thread_unique s t t' : next_thread s t -> next_thread s t' -> t = t'.
Proof.
  intros (p & (_ & Hp & Hle) & E) (p' & (_ & Hp' & Hle') & E').
  assert (p = p') by (specialize (Hle _ Hp'); specialize (Hle' _ Hp); lia). naive_solver.
Qed.

(** Some thread outside [X] is ready: in a running system the idle thread is. *)
Definition switched (from t p : ptr) (s : kstate) : kstate :=
  set_hw_switches ((if rt_interrupt_nest s =? 0 then rt_hw_context_switch from t
                    else rt_hw_context_switch_interrupt from t) :: hw_switches s)
  (set_rt_current_thread t (set_rt_current_priority p s)).

Lemma rt_schedule_spec s :
  sched_inv ∅ s -> (exists p, ready s p <> []) -> rt_scheduler_lock_nest s = 0 ->
  exists t th, next_thread s t /\ threads s !! t = Some th /\
    rt_schedule s = Ok tt (if t =? rt_current_thread s then s
      else switched (rt_current_thread s) t (th_current_priority th) s).
Proof.
  intros Hinv Hex Hl. pose proof (si_bitmap _ _ Hinv) as Hbm.
  destruct (wp_ok _ _ _ (highest_ready_priority_spec s Hbm Hex)) as (p & ? & E & -> & Hp).
  destruct (ready s p) as [|t l] eqn:El; [by destruct Hp as (_ & ? & _)|].
  destruct (si_exist _ _ Hinv (LReady p) t) as [th Eth].
  { unfold ready in El. rewrite El. left. }
  destruct (si_thread _ _ Hinv t th) as [C1 C2 _ _ C5 C6 _]; [set_solver|done|].
  destruct (C6 (LReady p)) as [_ <-]; [unfold ready in El; rewrite El; left|].
  exists t, th. split; [eexists; split; [done|by rewrite El]|]. split; [done|].
  unfold rt_schedule, mbind, M_bind, get. rewrite Hl. simpl. rewrite E.
  unfold highest_ready_thread. unfold prio_ok in C2.
  replace (th_current_priority th <? RT_THREAD_PRIORITY_MAX) with true by lia.
  unfold tlist_first, mbind, M_bind, get. unfold ready in El. rewrite El. simpl.
  destruct (t =? rt_current_thread s); [done|]. pose proof prio_max_range.
  unfold modify, _rt_scheduler_stack_check, get_thread, mbind, M_bind, get. simpl.
  apply Z.eqb_neq in C1. rewrite C1. simpl. rewrite Eth. simpl. rewrite C5. unfold switched. rewrite uwrap_small by lia. done.
Qed.

(** A locked scheduler does not switch. *)
Lemma rt_schedule_locked s : rt_scheduler_lock_nest s <> 0 -> rt_schedule s = Ok tt s.
Proof.
  intros Hl. unfold rt_schedule, mbind, M_bind, get. by apply Z.eqb_neq in Hl as ->.
Qed.

(** The bitmap depends on the ready lists and the table only. *)
Lemma bitmap_ok_ext s s' :
  (forall p, ready s' p = ready s p) ->
  rt_thread_ready_priority_group s' = rt_thread_ready_priority_group s ->
  rt_thread_ready_table s' = rt_thread_ready_table s -> bitmap_ok s -> bitmap_ok s'.
Proof.
  intros Er Eg Et (Hg & Hl & Hb). unfold bitmap_ok. rewrite Eg, Et.
  split; [done|]. split; [intros p; rewrite Er; apply Hl|]. case_match.
  - intros p Hp. rewrite Er. by apply Hb.
  - destruct Hb as [? Hb]. split; [done|]. intros n Hn. destruct (Hb n Hn) as (b & Eb & ? & ? & Hi).
    exists b. rewrite Eg, Et. split_and!; [done|lia|lia|done|]. intros i Hi'. rewrite Er. auto.
Qed.

(** A thread the lists and table of which did not change stays right. *)
Lemma thread_ok_ext s s' t th :
  (forall l, t ∈ tlists s' !!! l <-> t ∈ tlists s !!! l) -> thread_ok s t th -> thread_ok s' t th.
Proof.
  intros Hl [C1 C2 C3 C4 C5 C6 C7]. split; try done.
  - intros l. rewrite Hl. apply C6.
  - intros Hr. apply Hl. by apply C7.
Qed.

(** States that agree on what the invariant reads. *)
Definition sched_eq (s s' : kstate) : Prop :=
  (forall l, tlists s' !!! l = tlists s !!! l) /\ threads s' = threads s /\
  rt_thread_ready_priority_group s' = rt_thread_ready_priority_group s /\
  rt_thread_ready_table s' = rt_thread_ready_table s.

Lemma sched_inv_eq X s s' : sched_eq s s' -> sched_inv X s -> sched_inv X s'.
Proof.
  intros (E1 & E2 & E3 & E4) [Hwf Hbm Hex Hth]. split.
  - split; [intros h; rewrite E1; apply Hwf|]. intros h1 h2 n. rewrite !E1. apply Hwf.
  - apply (bitmap_ok_ext s); [|done|done|done]. intros p. apply E1.
  - intros l t. rewrite E1, E2. apply Hex.
  - intros t th HX. rewrite E2. intros Et. apply (thread_ok_ext s); [|auto]. intros l. by rewrite E1.
Qed.

(** Nothing happens, or the processor goes to another thread. *)
Definition rescheduled (s s' : kstate) : Prop :=
  s' = s \/ exists t p, s' = switched (rt_current_thread s) t p s.

Lemma rt_schedule_inv s :
  sched_inv ∅ s -> (exists p, ready s p <> []) ->
  wp rt_schedule (fun _ s' => sched_inv ∅ s' /\ rescheduled s s' /\
    (rt_scheduler_lock_nest s = 0 -> next_thread s' (rt_current_thread s'))) s.
Proof.
  intros Hinv Hex. destruct (decide (rt_scheduler_lock_nest s = 0)) as [Hl|Hl].
  - destruct (rt_schedule_spec s Hinv Hex Hl) as (t & th & Ht & Eth & E). eapply ok_wp; [exact E|].
    destruct (Z.eqb_spec t (rt_current_thread s)) as [Et|].
    + split; [done|]. split; [by left|]. intros _. by rewrite <- Et.
    + split; [by apply (sched_inv_eq ∅ s)|]. split; [right; eauto|done].
  - eapply ok_wp; [by apply rt_schedule_locked|]. split; [done|]. split; [by left|done].
Qed.

(** ** Changing one thread

    A thread may change while it is exempt, and is readmitted when it is right. *)

Lemma sched_inv_weaken X Y s : sched_inv X s -> X ⊆ Y -> sched_inv Y s.
Proof. intros [? ? ? Ht] Hsub. split; try done. intros t th Hn. apply Ht. set_solver. Qed.

Lemma ready_ext s s' : tlists s' = tlists s -> forall p, ready s' p = ready s p.
Proof. intros E p. unfold ready. by rewrite E. Qed.

Lemma exempt_upd X s t th th' :
  sched_inv X s -> threads s !! t = Some th ->
  sched_inv (X ∪ {[t]}) (set_threads (<[t := th']> (threads s)) s).
Proof.
  intros [Hwf Hbm Hex Hth] E. split; [done|by apply (bitmap_ok_ext s)|..].
  - intros l t' Hin. simpl. destruct (decide (t = t')) as [<-|]; [rewrite lookup_insert_eq; eauto|].
    rewrite lookup_insert_ne by done. by eapply Hex.
  - simpl. intros t' th1 Hn. apply not_elem_of_union in Hn as [Hn Hne]. rewrite not_elem_of_singleton in Hne.
    rewrite lookup_insert_ne by done. intros E'. eapply thread_ok_ext; [|by apply Hth]. done.
Qed.

Lemma readmit X s t th :
  sched_inv (X ∪ {[t]}) s -> threads s !! t = Some th -> thread_ok s t th -> sched_inv X s.
Proof.
  intros [Hwf Hbm Hex Hth] E Hok. split; try done. intros t' th' Hn E'.
  destruct (decide (t' = t)) as [->|]; [by simplify_eq|]. apply Hth; [|done].
  by apply not_elem_of_union; split; [|apply not_elem_of_singleton].
Qed.

(** Leaving a list of waiting threads. *)
Lemma unwait_inv X s t :
  sched_inv X s -> (forall p, t ∉ ready s p) ->
  sched_inv (X ∪ {[t]}) (set_tlists (Abs.remove t (tlists s)) s).
Proof.
  intros Hinv Hr. apply (removed_inv X s); [done| |done|done].
  apply (bitmap_ok_ext s); [|done|done|apply Hinv]. intros p. by apply (ready_remove _ _ t).
Qed.

(** Joining one. *)
Lemma wait_inv X s t l l' :
  sched_inv X s -> ~ Abs.linked t (tlists s) -> is_Some (threads s !! t) ->
  l' ≡ₚ t :: (tlists s !!! l) -> (forall p, l <> LReady p) ->
  sched_inv (X ∪ {[t]}) (set_tlists (<[l := l']> (tlists s)) s).
Proof.
  intros [Hwf Hbm Hex Hth] Hn Ht Hp Hl.
  assert (forall k x, x ∈ <[l := l']> (tlists s) !!! k <->
            (k = l /\ x = t \/ x ∈ tlists s !!! k)) as Hin.
  { intros k x. destruct (decide (l = k)) as [<-|Hne].
    - rewrite lookup_total_insert_eq, Hp, elem_of_cons. naive_solver.
    - rewrite lookup_total_insert_ne by done. naive_solver. }
  split.
  - by eapply Abs.store_wf_insert.
  - apply (bitmap_ok_ext s); [|done|done|done]. intros p. unfold ready. simpl.
    by rewrite lookup_total_insert_ne by apply Hl.
  - intros k x. simpl. rewrite Hin. intros [[_ ->]|Hx]; [done|by eapply Hex].
  - simpl. intros x th Hx. apply not_elem_of_union in Hx as [Hx Hne]. rewrite not_elem_of_singleton in Hne.
    intros E. eapply thread_ok_ext; [|by apply Hth]. intros k. simpl. rewrite Hin. naive_solver.
Qed.

(** A thread on no list. *)
Lemma unlinked_ok s t th :
  ~ Abs.linked t (tlists s) -> t <> RT_NULL -> prio_ok (th_current_priority th) ->
  prio_ok (th_init_priority th) -> (th_stat th <> RT_THREAD_INIT -> masks_ok th) ->
  stack_ok th = true -> th_stat th <> RT_THREAD_READY -> thread_ok s t th.
Proof.
  intros Hn. split; try done. intros l Hin. exfalso. apply Hn, Abs.linked_spec. eauto.
Qed.

(** A thread that is not ready is on no ready list. *)
Lemma not_ready_list X s t th :
  sched_inv X s -> t ∉ X -> threads s !! t = Some th -> th_stat th <> RT_THREAD_READY ->
  forall p, t ∉ ready s p.
Proof.
  intros Hinv HX E Hs p Hin. destruct (si_thread _ _ Hinv t th HX E) as [_ _ _ _ _ C6 _].
  by destruct (C6 _ Hin).
Qed.

Lemma ready_at X s t th :
  sched_inv X s -> t ∉ X -> threads s !! t = Some th ->
  forall q, t ∈ ready s q -> q = th_current_priority th.
Proof.
  intros Hinv HX E q Hin. destruct (si_thread _ _ Hinv t th HX E) as [_ _ _ _ _ C6 _].
  by destruct (C6 _ Hin).
Qed.

Lemma not_linked_removed (t : ptr) (st : gmap list_id (list ptr)) : ~ Abs.linked t (Abs.remove t st).
Proof. rewrite Abs.linked_remove. tauto. Qed.

(** A ready thread goes to the end of its list. *)
Definition rotated (t p : ptr) (s : kstate) : kstate :=
  set_tlists (Abs.insert_back (LReady p) t (Abs.remove t (tlists s))) s.

Lemma rotated_other s t p l :
  Abs.store_wf (tlists s) -> t ∈ ready s p -> l <> LReady p -> tlists (rotated t p s) !!! l = tlists s !!! l.
Proof.
  intros Hwf Ht Hl. unfold rotated, Abs.insert_back. simpl. rewrite lookup_total_insert_ne by done.
  rewrite Abs.lookup_remove. apply list_del_not_in. intros Hin. apply Hl. by apply (Abs.wf_disj _ Hwf _ _ t).
Qed.

Lemma ready_rotated s t p q :
  Abs.store_wf (tlists s) -> t ∈ ready s p ->
  ready (rotated t p s) q = if decide (p = q) then list_del t (ready s p) ++ [t] else ready s q.
Proof.
  intros Hwf Hin. unfold ready. simpl. rewrite lookup_insert_back, !Abs.lookup_remove.
  repeat case_decide; simplify_eq; try done. apply list_del_not_in. intros Hq.
  by pose proof (Abs.wf_disj _ Hwf _ _ _ Hin Hq); simplify_eq.
Qed.

Lemma rotated_inv X s t th :
  sched_inv X s -> t ∉ X -> threads s !! t = Some th -> th_stat th = RT_THREAD_READY ->
  sched_inv X (rotated t (th_current_priority th) s).
Proof.
  intros Hinv HX E Hst. pose proof Hinv as [Hwf Hbm Hex Hth].
  destruct (Hth t th HX E) as [C1 C2 C3 C4 C5 C6 C7]. specialize (C7 Hst).
  assert (forall l x, x ∈ tlists (rotated t (th_current_priority th) s) !!! l <-> x ∈ tlists s !!! l) as Hin.
  { intros l x. simpl. rewrite lookup_insert_back, !Abs.lookup_remove. case_decide as El.
    - subst l. rewrite elem_of_app, elem_of_list_del, list_elem_of_singleton.
      destruct (decide (x = t)) as [->|]; [|tauto]. split; [done|tauto].
    - rewrite elem_of_list_del. split; [tauto|]. intros Hx. split; [|done]. intros ->.
      by pose proof (Abs.wf_disj _ Hwf _ _ _ Hx C7); simplify_eq. }
  split.
  - apply store_wf_insert_back; [by apply Abs.store_wf_remove|apply not_linked_removed].
  - apply (bitmap_keep s _ th Hbm C2); [|..|done|done].
    + intros q Hq. rewrite ready_rotated by done. by rewrite decide_False.
    + rewrite ready_rotated, decide_True by done. by destruct (list_del _ _).
    + intros E0. rewrite E0 in C7. by apply elem_of_nil in C7.
  - intros l x. rewrite Hin. apply Hex.
  - simpl. intros x th' Hx E'. eapply thread_ok_ext; [|by apply Hth]. intros l. apply Hin.
Qed.

(** ** The bitmap is a function of the ready lists *)

Lemma bits_eq w a b :
  0 <= w -> 0 <= a < 2 ^ w -> 0 <= b < 2 ^ w -> (forall n, 0 <= n < w -> Z.testbit a n = Z.testbit b n) -> a = b.
Proof.
  intros Hw Ha Hb Hbits. apply Z.bits_inj'. intros n Hn.
  destruct (Z_lt_ge_dec n w); [apply Hbits; lia|]. rewrite !(testbit_high w) by lia. done.
Qed.

Lemma byte_unique s s' n :
  (forall p, ready s' p = ready s p) -> byte_ok s n -> byte_ok s' n ->
  rt_thread_ready_table s' !! Z.to_nat n = rt_thread_ready_table s !! Z.to_nat n /\
  Z.testbit (rt_thread_ready_priority_group s') n = Z.testbit (rt_thread_ready_priority_group s) n.
Proof.
  intros Hr (b & E & Hb & Hg & Hbit) (b' & E' & Hb' & Hg' & Hbit').
  assert (b' = b) as ->.
  { apply (bits_eq 8); [lia|lia|lia|]. intros i Hi. by rewrite Hbit, Hbit', Hr by lia. }
  by rewrite E, E', Hg, Hg'.
Qed.

Lemma bitmap_unique s s' :
  (forall p, ready s' p = ready s p) -> bitmap_ok s -> bitmap_ok s' ->
  rt_thread_ready_priority_group s' = rt_thread_ready_priority_group s /\
  (32 < RT_THREAD_PRIORITY_MAX -> rt_thread_ready_table s' = rt_thread_ready_table s).
Proof.
  intros Hr (Hg & _ & Hb) (Hg' & _ & Hb'). destruct (RT_THREAD_PRIORITY_MAX <=? 32) eqn:Em.
  - split; [|lia]. apply (bits_eq 32); [lia|lia|lia|]. intros n Hn. by rewrite Hb, Hb', Hr by lia.
  - destruct Hb as [L Hb], Hb' as [L' Hb']. split.
    + apply (bits_eq 32); [lia|lia|lia|]. intros n Hn. by apply byte_unique; [|apply Hb|apply Hb'].
    + intros _. apply list_eq. intros i. destruct (decide (i < 32)%nat).
      * rewrite <- (Nat2Z.id i). apply byte_unique; [done|apply Hb; lia|apply Hb'; lia].
      * by rewrite !lookup_ge_None_2 by lia.
Qed.

(** ** Critical sections *)

Lemma critical_nests s :
  0 <= rt_scheduler_lock_nest s < 2 ^ 15 - 1 ->
  exists s1, rt_enter_critical s = Ok tt s1 /\ rt_scheduler_lock_nest s1 = rt_scheduler_lock_nest s + 1 /\
    rt_schedule s1 = Ok tt s1 /\
    rt_exit_critical s1 = if rt_scheduler_lock_nest s =? 0 then rt_schedule s else Ok tt s.
Proof.
  intros Hk. set (k := rt_scheduler_lock_nest s) in *. exists (set_rt_scheduler_lock_nest (k + 1) s).
  assert (s16 (k + 1) = k + 1) as Ek by (apply swrap_small; lia).
  assert (s16 (k + 1 - 1) = k) as Ek' by (rewrite swrap_small; lia).
  assert (forall v, set_rt_scheduler_lock_nest v (set_rt_scheduler_lock_nest (k + 1) s) =
    set_rt_scheduler_lock_nest v s) as Ev by done.
  assert (set_rt_scheduler_lock_nest k s = s) as Es by (unfold k; by destruct s).
  split_and!.
  - unfold rt_enter_critical, modify. fold k. by rewrite Ek.
  - done.
  - apply rt_schedule_locked. simpl. lia.
  - unfold rt_exit_critical, modify, get, mbind, M_bind, mret, M_ret. simpl. rewrite Ek', Ev, Es. fold k.
    destruct (Z.eqb_spec k 0) as [E0|E0].
    + rewrite E0. simpl. by rewrite <- E0, Es.
    + replace (k <=? 0) with false by lia. done.
Qed.

(** ** Properties *)

(** C1: [rt_schedule] picks by priority: with the scheduler unlocked and some thread
    ready, the thread chosen is the first of the non-empty list of highest priority
    (one or two level bitmap), no ready thread has a higher priority, and a context
    switch to it is requested exactly when it is not running already. *)
Theorem rt_schedule_correct s :
  sched_inv ∅ s -> (exists p, ready s p <> []) -> rt_scheduler_lock_nest s = 0 ->
  exists t th, next_thread s t /\ threads s !! t = Some th /\
    (forall u p, u ∈ ready s p -> th_current_priority th <= p) /\
    rt_schedule s = Ok tt (if t =? rt_current_thread s then s
      else switched (rt_current_thread s) t (th_current_priority th) s).
Proof.
  intros Hinv Hex Hl. destruct (rt_schedule_spec s Hinv Hex Hl) as (t & th & Hn & E & Hr).
  exists t, th. split_and!; [done|done| |done]. intros u p Hu.
  destruct Hn as (q & (_ & _ & Hq) & Hhd). assert (t ∈ ready s q) as Ht by (by apply head_Some_elem_of).
  rewrite <- (ready_at _ _ _ _ Hinv (not_elem_of_empty t) E q Ht). apply Hq. by intros E0; rewrite E0 in Hu; apply elem_of_nil in Hu.
Qed.

(** C16: putting a thread on the ready table and taking it off again restores the table:
    in between it is the last thread of its priority; afterwards every list, the
    priority group and the second level of the bitmap are as before. *)
Theorem ready_table_roundtrip s t th :
  sched_inv ∅ s -> threads s !! t = Some th -> ~ Abs.linked t (tlists s) -> t <> RT_NULL ->
  prio_ok (th_current_priority th) -> prio_ok (th_init_priority th) -> masks_ok th -> stack_ok th = true ->
  exists s1 s2, rt_schedule_insert_thread t s = Ok tt s1 /\ sched_inv ∅ s1 /\
    ready s1 (th_current_priority th) = ready s (th_current_priority th) ++ [t] /\
    rt_schedule_remove_thread t s1 = Ok tt s2 /\ (forall l, tlists s2 !!! l = tlists s !!! l) /\
    rt_thread_ready_priority_group s2 = rt_thread_ready_priority_group s /\
    (32 < RT_THREAD_PRIORITY_MAX -> rt_thread_ready_table s2 = rt_thread_ready_table s).
Proof.
  intros Hinv E Hl Hn Hp Hi Hm Hs. set (s1 := inserted t th s).
  assert (sched_inv ∅ s1) as H1 by (apply inserted_inv; try done; by eapply sched_inv_weaken; [|apply empty_subseteq]).
  assert (threads s1 !! t = Some (set_th_stat RT_THREAD_READY th)) as E1 by apply lookup_insert_eq.
  destruct (wp_ok _ _ _ (rt_schedule_remove_thread_spec ∅ s1 t _ H1 E1 Hn Hp Hm
    (ready_at _ _ _ _ H1 (not_elem_of_empty t) E1))) as ([] & s2 & Er & H2 & Ht & _).
  assert (forall l, tlists s2 !!! l = tlists s !!! l) as Hlists.
  { intros l. rewrite Ht, Abs.lookup_remove. unfold s1. simpl. rewrite lookup_insert_back.
    assert (forall l', list_del t (tlists s !!! l') = tlists s !!! l') as Hd.
    { intros l'. apply list_del_not_in. intros Hin. apply Hl, Abs.linked_spec. eauto. }
    case_decide as El; [|apply Hd]. subst l. rewrite list_del_app, Hd. unfold list_del. simpl.
    rewrite filter_cons_False, filter_nil, app_nil_r by (by intros ?). done. }
  exists s1, s2. split_and!; [apply rt_schedule_insert_thread_run; try done; apply Hinv|done| |done|done| |].
  - unfold ready, s1. simpl. by rewrite lookup_insert_back, decide_True.
  - apply bitmap_unique; [intros p; apply Hlists|apply Hinv|apply H2].
  - apply bitmap_unique; [intros p; apply Hlists|apply Hinv|apply H2].
Qed.

(** critical sections nest: below 32767 levels [rt_enter_critical] counts one more
    and [rt_schedule] does nothing; the matching [rt_exit_critical] restores the state
    of an outer level, and at the outermost level it is one call of [rt_schedule]. *)
Theorem critical_section_nests s :
  0 <= rt_scheduler_lock_nest s < 2 ^ 15 - 1 ->
  exists s1, rt_enter_critical s = Ok tt s1 /\ rt_scheduler_lock_nest s1 = rt_scheduler_lock_nest s + 1 /\
    rt_schedule s1 = Ok tt s1 /\
    rt_exit_critical s1 = if rt_scheduler_lock_nest s =? 0 then rt_schedule s else Ok tt s.
Proof. apply critical_nests. Qed.

(** the nesting counter is a signed 16-bit integer: from 32767 levels two more
    [rt_enter_critical] make it negative, and then a single [rt_exit_critical]
    unlocks the scheduler although 32768 sections are still open. *)
Theorem critical_nesting_overflow s :
  rt_scheduler_lock_nest s = 2 ^ 15 - 1 ->
  exists s1 s2, rt_enter_critical s = Ok tt s1 /\ rt_enter_critical s1 = Ok tt s2 /\
    rt_exit_critical s2 = rt_schedule (set_rt_scheduler_lock_nest 0 s).
Proof.
  intros Hk. exists (set_rt_scheduler_lock_nest (- 2 ^ 15) s), (set_rt_scheduler_lock_nest (- 2 ^ 15 + 1) s).
  unfold rt_enter_critical, modify. rewrite Hk. split_and!; done.
Qed.

End scheduler.
