(* ===== verification/Object.v ===== *)
(** * The object system (src/object.c)

    Every kernel object starts with a [struct rt_object] and is linked on the
    container list of its class. *)
From stdpp Require Import base tactics numbers list gmap.
From S2P Require Import Prelude RtList Memory KString Kernel Scheduler.
Local Open Scope Z_scope.

(** [rt_strncmp] on the name array of an object and a C string [ct], as a
    function of their bytes: [None] is a read behind one of them. *)
Fixpoint strncmp_list (count : nat) (cs ct : list Z) (res : Z) : option Z :=
  match count with
  | O => Some res
  | S count' =>
      match cs, ct with
      | a :: cs', b :: ct' =>
          let res := s8 (a - b) in
          if negb (res =? 0) || (a =? 0) then Some res else strncmp_list count' cs' ct' res
      | _, _ => None
      end
  end.

Lemma strncmp_list_refines m p q cs ct n res r :
  bytes_at m p cs -> bytes_at m q ct -> strncmp_list n cs ct res = Some r ->
  strncmp_loop n p q res m = Ok r m.
Proof.
  revert p q cs ct res. induction n as [|n IH]; intros p q [|a cs] [|b ct] res Hp Hq; simpl;
    intros E; try (by simplify_eq).
  destruct Hp as [Ep Hp], Hq as [Eq Hq].
  unfold rd8, mbind, M_bind, get. simpl. rewrite Ep. simpl. rewrite Eq. simpl.
  destruct (negb (s8 (a - b) =? 0) || (a =? 0)); [by simplify_eq|]. by eapply IH.
Qed.

Section object.
Context `{KConfig} `{Allocator}.

(** ** The object header of each class *)

Definition get_object (r : object_ref) (s : kstate) : option rt_object :=
  match r with
  | OThread p => th_parent <$> threads s !! p
  | OSem p => sem_parent <$> sems s !! p
  | OMutex p => mtx_parent <$> mutexes s !! p
  | OEvent p => ev_parent <$> events s !! p
  | OMailbox p => mb_parent <$> mailboxes s !! p
  | OMq p => mq_parent <$> mqs s !! p
  | OMemPool p => mp_parent <$> mempools s !! p
  | ODevice p => dev_parent <$> devices s !! p
  | OTimer t => tm_parent <$> timers s !! t
  end.

Definition upd_object (r : object_ref) (f : rt_object -> rt_object) (s : kstate) : kstate :=
  match r with
  | OThread p => set_threads (alter (fun x => set_th_parent (f (th_parent x)) x) p (threads s)) s
  | OSem p => set_sems (alter (fun x => set_sem_parent (f (sem_parent x)) x) p (sems s)) s
  | OMutex p => set_mutexes (alter (fun x => set_mtx_parent (f (mtx_parent x)) x) p (mutexes s)) s
  | OEvent p => set_events (alter (fun x => set_ev_parent (f (ev_parent x)) x) p (events s)) s
  | OMailbox p => set_mailboxes (alter (fun x => set_mb_parent (f (mb_parent x)) x) p (mailboxes s)) s
  | OMq p => set_mqs (alter (fun x => set_mq_parent (f (mq_parent x)) x) p (mqs s)) s
  | OMemPool p => set_mempools (alter (fun x => set_mp_parent (f (mp_parent x)) x) p (mempools s)) s
  | ODevice p => set_devices (alter (fun x => set_dev_parent (f (dev_parent x)) x) p (devices s)) s
  | OTimer t => set_timers (alter (fun x => set_tm_parent (f (tm_parent x)) x) t (timers s)) s
  end.

(** Memory used as a structure: it holds whatever it held. *)
Definition place (r : object_ref) (s : kstate) : kstate :=
  match r with
  | OThread p => set_threads (partial_alter (fun o => Some (default (junk_rt_thread p) o)) p (threads s)) s
  | OSem p => set_sems (partial_alter (fun o => Some (default (junk_rt_semaphore p) o)) p (sems s)) s
  | OMutex p => set_mutexes (partial_alter (fun o => Some (default (junk_rt_mutex p) o)) p (mutexes s)) s
  | OEvent p => set_events (partial_alter (fun o => Some (default (junk_rt_event p) o)) p (events s)) s
  | OMailbox p => set_mailboxes (partial_alter (fun o => Some (default (junk_rt_mailbox p) o)) p (mailboxes s)) s
  | OMq p => set_mqs (partial_alter (fun o => Some (default (junk_rt_messagequeue p) o)) p (mqs s)) s
  | OMemPool p => set_mempools (partial_alter (fun o => Some (default (junk_rt_mempool p) o)) p (mempools s)) s
  | ODevice p => set_devices (partial_alter (fun o => Some (default (junk_rt_device p) o)) p (devices s)) s
  | OTimer t => set_timers (partial_alter (fun o => Some (default (junk_rt_timer t) o)) t (timers s)) s
  end.

(** Memory given back: no structure any more (a thread has its timer inside). *)
Definition unplace (r : object_ref) (s : kstate) : kstate :=
  match r with
  | OThread p => set_timers (delete (TThread p) (timers s)) (set_threads (delete p (threads s)) s)
  | OSem p => set_sems (delete p (sems s)) s
  | OMutex p => set_mutexes (delete p (mutexes s)) s
  | OEvent p => set_events (delete p (events s)) s
  | OMailbox p => set_mailboxes (delete p (mailboxes s)) s
  | OMq p => set_mqs (delete p (mqs s)) s
  | OMemPool p => set_mempools (delete p (mempools s)) s
  | ODevice p => set_devices (delete p (devices s)) s
  | OTimer t => set_timers (delete t (timers s)) s
  end.

Definition object_addr (r : object_ref) : ptr :=
  match r with
  | OThread p | OSem p | OMutex p | OEvent p | OMailbox p | OMq p | OMemPool p | ODevice p => p
  | OTimer t => timer_addr t
  end.

Definition object_at (c : object_class) (p : ptr) : object_ref :=
  match c with
  | RT_Object_Class_Thread => OThread p
  | RT_Object_Class_Semaphore => OSem p
  | RT_Object_Class_Mutex => OMutex p
  | RT_Object_Class_Event => OEvent p
  | RT_Object_Class_MailBox => OMailbox p
  | RT_Object_Class_MessageQueue => OMq p
  | RT_Object_Class_MemPool => OMemPool p
  | RT_Object_Class_Device => ODevice p
  | RT_Object_Class_Timer => OTimer (TObj p)
  end.

Definition get_obj (r : object_ref) : K rt_object :=
  s ← get; opt BadPointer (get_object r s).

Definition set_obj_type (v : Z) (o : rt_object) : rt_object := mk_object (obj_name o) v (obj_flag o).
Definition set_obj_flag (v : Z) (o : rt_object) : rt_object := mk_object (obj_name o) (obj_type o) v.
Definition set_obj_name (v : list Z) (o : rt_object) : rt_object := mk_object v (obj_type o) (obj_flag o).

(** The [list] node of an object, linked on the container of its class. *)
Definition olist_insert_after (c : object_class) (r : object_ref) : K unit :=
  s ← get;
  if decide (Abs.linked r (rt_object_container s)) then throw BadList
  else modify (fun s => set_rt_object_container (Abs.insert_front c r (rt_object_container s)) s).
Definition olist_remove (r : object_ref) : K unit :=
  modify (fun s => set_rt_object_container (Abs.remove r (rt_object_container s)) s).

(** ** Context checks (rtdebug.h) *)

Definition RT_DEBUG_NOT_IN_INTERRUPT : K unit :=
  s ← get; RT_ASSERT (rt_interrupt_nest s =? 0).
Definition RT_DEBUG_IN_THREAD_CONTEXT : K unit :=
  s ← get; RT_ASSERT (negb (rt_current_thread s =? RT_NULL));; RT_DEBUG_NOT_IN_INTERRUPT.

(** ** Operations *)

(** [name] is a C string, without its terminator. *)
Definition rt_object_init (r : object_ref) (type : object_class) (name : list Z) : K unit :=
  modify (upd_object r (set_obj_type (Z.lor (class_type type) RT_Object_Class_Static)));;
  modify (upd_object r (set_obj_name (strncpy_bytes RT_NAME_MAX name)));;
  olist_insert_after type r.

Definition rt_object_detach (r : object_ref) : K unit :=
  RT_ASSERT (negb (object_addr r =? RT_NULL));;
  olist_remove r.

(** [RT_KERNEL_MALLOC] and [RT_KERNEL_FREE] *)
Definition kmalloc (size : Z) : K ptr :=
  s ← get;
  let '(p, h) := malloc size (kheap s) in
  modify (set_kheap h);; mret p.
Definition kfree (p : ptr) : K unit := modify (fun s => set_kheap (free p (kheap s)) s).

Definition rt_object_allocate (type : object_class) (name : list Z) : K ptr :=
  RT_DEBUG_NOT_IN_INTERRUPT;;
  p ← kmalloc (object_size type);
  if p =? RT_NULL then mret RT_NULL
  else
    let r := object_at type p in
    modify (place r);;
    modify (upd_object r (set_obj_type (class_type type)));;
    modify (upd_object r (set_obj_flag 0));;
    modify (upd_object r (set_obj_name (strncpy_bytes RT_NAME_MAX name)));;
    olist_insert_after type r;;
    mret p.

Definition rt_object_delete (r : object_ref) : K unit :=
  RT_ASSERT (negb (object_addr r =? RT_NULL));;
  o ← get_obj r;
  RT_ASSERT (Z.land (obj_type o) RT_Object_Class_Static =? 0);;
  olist_remove r;;
  kfree (object_addr r);;
  modify (unplace r).

Definition rt_object_is_systemobject (r : object_ref) : K bool :=
  RT_ASSERT (negb (object_addr r =? RT_NULL));;
  o ← get_obj r;
  mret (negb (Z.land (obj_type o) RT_Object_Class_Static =? 0)).

(** The loop of [rt_object_find] and [rt_thread_find] over a container list;
    [ct] is the searched name with its terminator. *)
Fixpoint find_by_name (ct : list Z) (l : list object_ref) : K (option object_ref) :=
  match l with
  | [] => mret None
  | r :: l' =>
      o ← get_obj r;
      c ← opt BadPointer (strncmp_list RT_NAME_MAX (obj_name o) ct 0);
      if c =? 0 then mret (Some r) else find_by_name ct l'
  end.

Definition RT_Object_Class_Unknown : Z := 9.

(** The container of an enumeration value; a value without a class is a read
    behind the array. *)
Definition class_of_type (type : Z) : option object_class :=
  match type with
  | 0 => Some RT_Object_Class_Thread
  | 1 => Some RT_Object_Class_Semaphore
  | 2 => Some RT_Object_Class_Mutex
  | 3 => Some RT_Object_Class_Event
  | 4 => Some RT_Object_Class_MailBox
  | 5 => Some RT_Object_Class_MessageQueue
  | 6 => Some RT_Object_Class_MemPool
  | 7 => Some RT_Object_Class_Device
  | 8 => Some RT_Object_Class_Timer
  | _ => None
  end.

(** [name] is [None] for RT_NULL. *)
Definition rt_object_find (name : option (list Z)) (type : Z) : K (option object_ref) :=
  match name with
  | None => mret None
  | Some name =>
      if RT_Object_Class_Unknown <? type then mret None
      else
        RT_DEBUG_NOT_IN_INTERRUPT;;
        rt_enter_critical;;
        c ← opt BadPointer (class_of_type type);
        l ← gets (fun s => rt_object_container s !!! c);
        r ← find_by_name (name ++ [0]) l;
        rt_exit_critical;;
        mret r
  end.

(** ** Initialisation *)

(** The header of an object is no part of what the scheduler reads. *)
Lemma upd_object_sched X r f s : sched_inv X s -> sched_inv X (upd_object r f s).
Proof.
  intros Hinv. destruct r as [p|p|p|p|p|p|p|p|r]; try (by apply (sched_inv_eq X s)).
  destruct Hinv as [Hwf Hbm Hex Hth]. split; [done|by apply (bitmap_ok_ext s)| |].
  - intros l t Hin. destruct (Hex l t Hin) as [th E]. simpl. destruct (decide (p = t)) as [->|Hne].
    + rewrite lookup_alter_eq, E. by eexists.
    + rewrite lookup_alter_ne by done. by eexists.
  - intros t th HX E. simpl in E. destruct (decide (p = t)) as [->|Hne].
    + rewrite lookup_alter_eq in E. apply fmap_Some in E as (th0 & E0 & ->).
      destruct (Hth t th0 HX E0) as [C1 C2 C3 C4 C5 C6 C7]. split; done.
    + rewrite lookup_alter_ne in E by done. apply (thread_ok_ext s); [done|]. by apply Hth.
Qed.

Lemma upd_object_frame r f s :
  rt_object_container (upd_object r f s) = rt_object_container s /\ tlists (upd_object r f s) = tlists s /\
  rt_interrupt_nest (upd_object r f s) = rt_interrupt_nest s /\
  rt_scheduler_lock_nest (upd_object r f s) = rt_scheduler_lock_nest s.
Proof. by destruct r. Qed.

Lemma get_upd_object r f s : get_object r (upd_object r f s) = f <$> get_object r s.
Proof. destruct r; simpl; rewrite lookup_alter_eq; by destruct (_ !! _). Qed.

(** The name an object gets is found again, also when it was cut. *)
Lemma take_pad n k (l : list Z) : (n <= k)%nat -> take n (l ++ replicate k 0) = take n (l ++ replicate n 0).
Proof.
  intros Hk. rewrite !take_app, !take_replicate. f_equal. f_equal. lia.
Qed.

Lemma strncmp_own_name n name :
  Forall (fun c => 0 < c < 256) name -> strncmp_list n (strncpy_bytes n name) (name ++ [0]) 0 = Some 0.
Proof.
  revert name. induction n as [|n IH]; intros name Hc; [done|]. unfold strncpy_bytes.
  destruct Hc as [|c name Hc Hall]; [done|]. simpl. rewrite Z.sub_diag. change (s8 0) with 0. simpl.
  replace (c =? 0) with false by lia. change (0 :: replicate n 0) with (replicate (S n) 0).
  rewrite take_pad by lia. by apply IH.
Qed.

(** What [rt_object_init] leaves: the header and the container list *)
Definition object_inited (r : object_ref) (c : object_class) (name : list Z) (s : kstate) : kstate :=
  let s1 := upd_object r (set_obj_name (strncpy_bytes RT_NAME_MAX name))
    (upd_object r (set_obj_type (Z.lor (class_type c) RT_Object_Class_Static)) s) in
  set_rt_object_container (Abs.insert_front c r (rt_object_container s)) s1.

Lemma rt_object_init_run r c name s :
  ~ Abs.linked r (rt_object_container s) -> rt_object_init r c name s = Ok tt (object_inited r c name s).
Proof.
  intros Hl. unfold rt_object_init, olist_insert_after, object_inited, modify, get, mbind, M_bind. simpl.
  destruct (upd_object_frame r (set_obj_name (strncpy_bytes RT_NAME_MAX name))
    (upd_object r (set_obj_type (Z.lor (class_type c) RT_Object_Class_Static)) s)) as [E1 _].
  destruct (upd_object_frame r (set_obj_type (Z.lor (class_type c) RT_Object_Class_Static)) s) as [E2 _].
  rewrite decide_False by (by rewrite E1, E2). by rewrite E1, E2.
Qed.

Lemma object_inited_sched X r c name s : sched_inv X s -> sched_inv X (object_inited r c name s).
Proof.
  intros Hinv. eapply (sched_inv_eq X); [|do 2 apply upd_object_sched; exact Hinv]. split_and!; done.
Qed.

Lemma class_of_class_type c : class_of_type (class_type c) = Some c.
Proof. by destruct c. Qed.

Lemma container_irrelevant r v s : get_object r (set_rt_object_container v s) = get_object r s.
Proof. by destruct r. Qed.

(** [rt_object_find] between the two critical section calls *)
Lemma find_inited r c name l s :
  Forall (fun c => 0 < c < 256) name -> is_Some (get_object r s) ->
  (obj_name <$> get_object r s) = Some (strncpy_bytes RT_NAME_MAX name) ->
  rt_object_container s !!! c = r :: l -> find_by_name (name ++ [0]) (r :: l) s = Ok (Some r) s.
Proof.
  intros Hc [o Eo] En Hl. rewrite Eo in En. simpl in En. simplify_eq.
  unfold find_by_name, get_obj, get, opt, mbind, M_bind, mret, M_ret. rewrite Eo. simplify_eq/=. rewrite En.
  by rewrite strncmp_own_name.
Qed.

(** ** Properties *)

(** an object that has been initialised is found by its name: [rt_object_init] then
    [rt_object_find] with the same name and class gives the object, whatever objects the
    class had before, also for a name longer than RT_NAME_MAX; the search leaves the
    scheduler unlocked with at most a context switch. *)
Theorem object_find_roundtrip r c name s :
  sched_inv ∅ s -> (exists p, ready s p <> []) -> rt_interrupt_nest s = 0 -> rt_scheduler_lock_nest s = 0 ->
  ~ Abs.linked r (rt_object_container s) -> is_Some (get_object r s) -> Forall (fun c => 0 < c < 256) name ->
  exists s1 s2, rt_object_init r c name s = Ok tt s1 /\
    rt_object_find (Some name) (class_type c) s1 = Ok (Some r) s2 /\ rescheduled s1 s2.
Proof.
  intros Hinv Hex Hn Hk Hl [o Eo] Hc. set (s1 := object_inited r c name s).
  assert (sched_inv ∅ s1) as H1 by by apply object_inited_sched.
  assert (rt_interrupt_nest s1 = 0 /\ rt_scheduler_lock_nest s1 = 0 /\ tlists s1 = tlists s) as (Hn1 & Hk1 & Ht1)
    by (by destruct r).
  destruct (critical_nests s1 ltac:(lia)) as (s1' & Een & _ & _ & Eex). rewrite Hk1 in Eex. simpl in Eex.
  assert (s1' = set_rt_scheduler_lock_nest 1 s1) as ->.
  { unfold rt_enter_critical, modify in Een. rewrite Hk1 in Een. by injection Een as <-. }
  destruct (wp_ok _ _ _ (rt_schedule_inv s1 H1 ltac:(unfold ready; by rewrite Ht1))) as ([] & s2 & Es & _ & Hres & _).
  exists s1, s2. split_and!; [by apply rt_object_init_run| |done].
  assert (rt_object_container (set_rt_scheduler_lock_nest 1 s1) !!! c = r :: rt_object_container s !!! c) as Ec
    by (apply lookup_total_insert_eq).
  assert (get_object r (set_rt_scheduler_lock_nest 1 s1) =
    Some (set_obj_name (strncpy_bytes RT_NAME_MAX name) (set_obj_type (Z.lor (class_type c) RT_Object_Class_Static) o))) as Eg.
  { transitivity (get_object r s1); [by destruct r|]. unfold s1, object_inited.
    by rewrite container_irrelevant, !get_upd_object, Eo. }
  unfold rt_object_find. replace (RT_Object_Class_Unknown <? class_type c) with false by (by destruct c).
  rewrite (run_bind _ _ s1 tt s1) by (unfold RT_DEBUG_NOT_IN_INTERRUPT, RT_ASSERT, get, mbind, M_bind; by rewrite Hn1).
  rewrite (run_bind _ _ _ _ _ Een). rewrite class_of_class_type. unfold opt at 1.
  rewrite (run_bind _ _ _ c (set_rt_scheduler_lock_nest 1 s1)) by done.
  rewrite (run_bind _ _ _ (r :: rt_object_container s !!! c) (set_rt_scheduler_lock_nest 1 s1)) by (unfold gets; by rewrite Ec).
  rewrite (run_bind _ _ _ (Some r) (set_rt_scheduler_lock_nest 1 s1)).
  - rewrite (run_bind _ _ _ tt s2) by congruence. done.
  - apply (find_inited r c); [done|by rewrite Eg|by rewrite Eg|done].
Qed.

(** the guard of [rt_object_find] lets the class RT_Object_Class_Unknown through,
    which has no container: the search then reads behind the container array. *)
Theorem object_find_unknown_class name s :
  rt_interrupt_nest s = 0 -> rt_object_find (Some name) RT_Object_Class_Unknown s = Fault BadPointer.
Proof.
  intros Hn. unfold rt_object_find, RT_DEBUG_NOT_IN_INTERRUPT, rt_enter_critical, RT_ASSERT, get, modify, mbind, M_bind.
  simpl. by rewrite Hn.
Qed.

End object.
