(* ===== verification/Timer.v ===== *)
(** * Timers (src/timer.c)

    Active timers are kept in a skip list of RT_TIMER_SKIP_LIST_LEVEL rows, the
    last of which has every timer, in the order of their timeout ticks.  The hard
    timers are modelled; soft timers (RT_USING_TIMER_SOFT) are off in every board
    configuration. *)
From stdpp Require Import base tactics numbers list gmap sorting.
From S2P Require Import Prelude RtList Kernel Scheduler Object.
Local Open Scope Z_scope.

Section timer.
Context `{KConfig} `{Allocator}.

Definition get_timer (r : timer_ref) : K rt_timer :=
  s ← get; opt BadPointer (timers s !! r).
Definition upd_timer (r : timer_ref) (f : rt_timer -> rt_timer) : K unit :=
  tm ← get_timer r; modify (fun s => set_timers (<[r := f tm]> (timers s)) s).

Definition tm_flag (tm : rt_timer) : Z := obj_flag (tm_parent tm).
Definition set_tm_flag (v : Z) (tm : rt_timer) : rt_timer :=
  set_tm_parent (set_obj_flag v (tm_parent tm)) tm.
(** [flag &= ~mask] and [flag |= mask] on the [rt_uint8_t] flag *)
Definition clear_flag (mask : Z) (tm : rt_timer) : rt_timer :=
  set_tm_flag (Z.land (tm_flag tm) (Z.lnot mask)) tm.
Definition set_flag (mask : Z) (tm : rt_timer) : rt_timer :=
  set_tm_flag (Z.lor (tm_flag tm) mask) tm.
Definition has_flag (mask : Z) (tm : rt_timer) : bool := negb (Z.land (tm_flag tm) mask =? 0).

Definition timer_nonnull (r : timer_ref) : bool := negb (timer_addr r =? RT_NULL).

Definition rt_tick_get : K Z := gets rt_tick.

Definition in_rows (r : timer_ref) (rows : list (list timer_ref)) : Prop := Exists (fun l => r ∈ l) rows.
#[global] Instance in_rows_dec r rows : Decision (in_rows r rows).
Proof. unfold in_rows. apply _. Defined.

(** [rt_list_init(&(timer->row[i]))] for every row: of a linked timer it would
    cut the rows. *)
Definition rows_init (r : timer_ref) : K unit :=
  s ← get; if decide (in_rows r (rt_timer_list s)) then throw BadList else mret tt.

Definition _rt_timer_init (r : timer_ref) (timeout : timeout_fn) (parameter time flag : Z) : K unit :=
  upd_timer r (set_tm_flag (u8 flag));;
  upd_timer r (clear_flag RT_TIMER_FLAG_ACTIVATED);;
  upd_timer r (set_tm_timeout_func timeout);;
  upd_timer r (set_tm_parameter parameter);;
  upd_timer r (set_tm_timeout_tick 0);;
  upd_timer r (set_tm_init_tick time);;
  rows_init r.

(** The last row, which has every timer. *)
Definition last_row (s : kstate) : list timer_ref :=
  rt_timer_list s !!! (RT_TIMER_SKIP_LIST_LEVEL - 1)%nat.

Definition rt_timer_list_next_timeout : K Z :=
  s ← get;
  match last_row s with
  | [] => mret RT_TICK_MAX
  | r :: _ => tm ← get_timer r; mret (tm_timeout_tick tm)
  end.

Definition _rt_timer_remove (r : timer_ref) : K unit :=
  modify (fun s => set_rt_timer_list (list_del r <$> rt_timer_list s) s).

Definition rt_timer_init (r : timer_ref) (name : list Z) (timeout : timeout_fn)
    (parameter time flag : Z) : K unit :=
  RT_ASSERT (timer_nonnull r);;
  modify (place (OTimer r));;
  rt_object_init (OTimer r) RT_Object_Class_Timer name;;
  _rt_timer_init r timeout parameter time flag.

Definition rt_timer_detach (r : timer_ref) : K Z :=
  RT_ASSERT (timer_nonnull r);;
  _rt_timer_remove r;;
  rt_object_detach (OTimer r);;
  mret (- RT_EOK).

Definition rt_timer_create (name : list Z) (timeout : timeout_fn) (parameter time flag : Z) : K ptr :=
  p ← rt_object_allocate RT_Object_Class_Timer name;
  if p =? RT_NULL then mret RT_NULL
  else _rt_timer_init (TObj p) timeout parameter time flag;; mret p.

Definition rt_timer_delete (r : timer_ref) : K Z :=
  RT_ASSERT (timer_nonnull r);;
  _rt_timer_remove r;;
  rt_object_delete (OTimer r);;
  mret (- RT_EOK).

(** ** [rt_timer_start] *)

Definition HALF_TICK : Z := RT_TICK_MAX / 2.

(** The inner [for] of one row: [hd] is [row_head] ([None] for the list head) and
    [rest] the nodes behind it; [ticks] gives the timeout tick of a timer. *)
Fixpoint walk (ticks : timer_ref -> option Z) (tick : Z) (hd : option timer_ref)
    (rest : list timer_ref) : option (option timer_ref) :=
  match rest with
  | [] => Some hd
  | r :: rest' =>
      t ← ticks r;
      if u32 (t - tick) =? 0 then walk ticks tick (Some r) rest'
      else if u32 (t - tick) <? HALF_TICK then Some hd
      else walk ticks tick (Some r) rest'
  end.

(** The nodes of a row behind [row_head]. *)
Fixpoint behind_node (r : timer_ref) (l : list timer_ref) : option (list timer_ref) :=
  match l with
  | [] => None
  | r' :: l' => if decide (r = r') then Some l' else behind_node r l'
  end.
Definition behind (hd : option timer_ref) (l : list timer_ref) : option (list timer_ref) :=
  match hd with None => Some l | Some r => behind_node r l end.

(** The outer [for]: the search in a row starts at the node found in the row
    above ([row_head[row_lvl+1] = row_head[row_lvl]+1]). *)
Fixpoint row_heads (ticks : timer_ref -> option Z) (tick : Z) (hd : option timer_ref)
    (rows : list (list timer_ref)) : option (list (option timer_ref)) :=
  match rows with
  | [] => Some []
  | l :: rows' =>
      rest ← behind hd l;
      hd' ← walk ticks tick hd rest;
      hds ← row_heads ticks tick hd' rows';
      Some (hd' :: hds)
  end.

Definition insert_row (hd : option timer_ref) (r : timer_ref) (l : list timer_ref) : list timer_ref :=
  match hd with None => r :: l | Some r' => Abs.ins_after r' r l end.

(** The insertion into the upper rows, from the last but one upwards, while the
    tested bits of the counter are 0. *)
Fixpoint insert_up (tst_nr : Z) (r : timer_ref) (rows : list (option timer_ref * list timer_ref)) :
    list (list timer_ref) :=
  match rows with
  | [] => []
  | (hd, l) :: rows' =>
      if Z.land tst_nr RT_TIMER_SKIP_LIST_MASK =? 0 then
        insert_row hd r l ::
          insert_up (Z.shiftr tst_nr (Z.shiftr (RT_TIMER_SKIP_LIST_MASK + 1) 1)) r rows'
      else l :: (rows'.*2)
  end.
Definition insert_rows (tst_nr : Z) (r : timer_ref) (hds : list (option timer_ref))
    (rows : list (list timer_ref)) : list (list timer_ref) :=
  match reverse (zip hds rows) with
  | [] => []
  | (hd, l) :: upper => reverse (insert_row hd r l :: insert_up tst_nr r upper)
  end.

Definition rt_timer_start (r : timer_ref) : K Z :=
  RT_ASSERT (timer_nonnull r);;
  _rt_timer_remove r;;
  upd_timer r (clear_flag RT_TIMER_FLAG_ACTIVATED);;
  tm ← get_timer r;
  RT_ASSERT (tm_init_tick tm <? HALF_TICK);;
  now ← rt_tick_get;
  let timeout_tick := u32 (now + tm_init_tick tm) in
  upd_timer r (set_tm_timeout_tick timeout_tick);;
  s ← get;
  hds ← opt BadList (row_heads (fun r' => tm_timeout_tick <$> timers s !! r')
                       timeout_tick None (rt_timer_list s));
  let nr := u32 (random_nr s + 1) in
  modify (set_random_nr nr);;
  modify (fun s => set_rt_timer_list (insert_rows nr r hds (rt_timer_list s)) s);;
  upd_timer r (set_flag RT_TIMER_FLAG_ACTIVATED);;
  mret (- RT_EOK).

Definition rt_timer_stop (r : timer_ref) : K Z :=
  RT_ASSERT (timer_nonnull r);;
  tm ← get_timer r;
  if has_flag RT_TIMER_FLAG_ACTIVATED tm then
    _rt_timer_remove r;;
    upd_timer r (clear_flag RT_TIMER_FLAG_ACTIVATED);;
    mret RT_EOK
  else mret (- RT_ERROR).

(** The argument is read or written through [arg]: the value it points to, and
    the value left there. *)
Definition rt_timer_control (r : timer_ref) (cmd : timer_ctrl) (arg : Z) : K (Z * Z) :=
  RT_ASSERT (timer_nonnull r);;
  match cmd with
  | RT_TIMER_CTRL_GET_TIME => tm ← get_timer r; mret (RT_EOK, tm_init_tick tm)
  | RT_TIMER_CTRL_SET_TIME => upd_timer r (set_tm_init_tick arg);; mret (RT_EOK, arg)
  | RT_TIMER_CTRL_SET_ONESHOT => upd_timer r (clear_flag RT_TIMER_FLAG_PERIODIC);; mret (RT_EOK, arg)
  | RT_TIMER_CTRL_SET_PERIODIC => upd_timer r (set_flag RT_TIMER_FLAG_PERIODIC);; mret (RT_EOK, arg)
  end.

(** ** [rt_timer_check] *)

(** [call] runs a timeout function on its parameter.  The loop-carried variable
    is [current_tick] and whether the loop was left by [break]. *)
Definition rt_timer_check (call : timeout_fn -> Z -> K unit) (fuel : nat) : K unit :=
  current_tick ← rt_tick_get;
  while fuel
    (fun '(_, stop) => s ← get; mret (negb stop && negb (bool_decide (last_row s = []))))
    (fun '(current_tick, _) =>
      s ← get;
      r ← opt BadList (head (last_row s));
      t ← get_timer r;
      if u32 (current_tick - tm_timeout_tick t) <? HALF_TICK then
        _rt_timer_remove r;;
        call (tm_timeout_func t) (tm_parameter t);;
        current_tick ← rt_tick_get;
        t ← get_timer r;
        (if has_flag RT_TIMER_FLAG_PERIODIC t && has_flag RT_TIMER_FLAG_ACTIVATED t then
           upd_timer r (clear_flag RT_TIMER_FLAG_ACTIVATED);;
           rt_timer_start r;; mret tt
         else upd_timer r (clear_flag RT_TIMER_FLAG_ACTIVATED));;
        mret (current_tick, false)
      else mret (current_tick, true))
    (current_tick, false);;
  mret tt.

Definition rt_timer_next_timeout_tick : K Z := rt_timer_list_next_timeout.

Definition rt_system_timer_init : K unit :=
  modify (set_rt_timer_list (replicate RT_TIMER_SKIP_LIST_LEVEL [])).

(** ** Ticks in a window

    Ticks are compared by their distance; the comparison is an order on the ticks
    of a window of half the range behind [base]. *)

Definition offset (base tick : Z) : Z := u32 (tick - base).

Lemma offset_compare base t tick :
  offset base t < HALF_TICK -> offset base tick < HALF_TICK ->
  u32 (t - tick) = (if offset base tick <=? offset base t then offset base t - offset base tick
                    else offset base t - offset base tick + 2 ^ 32).
Proof.
  unfold offset, HALF_TICK, RT_TICK_MAX, uwrap. intros Ht Hk.
  pose proof (Z.mod_pos_bound (t - base) (2 ^ 32) ltac:(lia)).
  pose proof (Z.mod_pos_bound (tick - base) (2 ^ 32) ltac:(lia)).
  assert ((t - tick) mod 2 ^ 32 = ((t - base) mod 2 ^ 32 - (tick - base) mod 2 ^ 32) mod 2 ^ 32) as ->.
  { rewrite <- Zminus_mod. f_equal. lia. }
  change (0xffffffff / 2) with 0x7fffffff in *. destruct (Z.leb_spec ((tick - base) mod 2 ^ 32) ((t - base) mod 2 ^ 32)).
  - apply Z.mod_small. lia.
  - symmetry. apply (Z.mod_unique _ _ (-1)); lia.
Qed.

Lemma offset_add base k : 0 <= k < 2 ^ 32 -> offset base (u32 (base + k)) = k.
Proof.
  intros Hk. unfold offset, uwrap. rewrite Zminus_mod_idemp_l. replace (base + k - base) with k by lia.
  by apply Z.mod_small.
Qed.

(** The two tests of the walk, and the test of [rt_timer_check]. *)
Lemma walk_tests base t tick :
  offset base t < HALF_TICK -> offset base tick < HALF_TICK ->
  (u32 (t - tick) =? 0) = (offset base t =? offset base tick) /\
  (u32 (t - tick) <? HALF_TICK) = (offset base tick <=? offset base t).
Proof.
  intros Ht Hk. rewrite (offset_compare base) by done.
  pose proof (uwrap_range 32 (t - base) ltac:(lia)). pose proof (uwrap_range 32 (tick - base) ltac:(lia)).
  fold (offset base t) (offset base tick) in *. unfold HALF_TICK, RT_TICK_MAX in *.
  change (0xffffffff / 2) with 0x7fffffff in *.
  destruct (Z.leb_spec (offset base tick) (offset base t)); split; lia.
Qed.

(** ** The rows *)

Section rows.
Context (o : timer_ref -> Z).
Implicit Types (l : list timer_ref) (rows : list (list timer_ref)).

Abbreviation sorted l := (StronglySorted (fun a b => o a <= o b) l).

(** Every row has its timers in order, and only timers of the row below. *)
Fixpoint nested (rows : list (list timer_ref)) : Prop :=
  match rows with
  | l :: ((l' :: _) as rows') => (forall r, r ∈ l -> r ∈ l') /\ nested rows'
  | _ => True
  end.
Definition rows_ok rows : Prop := Forall (fun l => NoDup l /\ sorted l) rows /\ nested rows.

Definition upto (k : Z) l : list timer_ref := filter (fun r => o r <= k) l.
Definition above (k : Z) l : list timer_ref := filter (fun r => ~ o r <= k) l.

Lemma sorted_split k l : sorted l -> l = upto k l ++ above k l.
Proof.
  induction 1 as [|a l Hs IH Hle]; [done|]. unfold upto, above in *.
  destruct (decide (o a <= k)) as [Ha|Ha].
  - rewrite filter_cons_True, filter_cons_False by tauto. simpl. by rewrite <- IH.
  - rewrite filter_cons_False, filter_cons_True by tauto. simpl.
    assert (filter (fun r => o r <= k) l = []) as E.
    { apply filter_none. rewrite Forall_forall in Hle |- *. intros x Hx. specialize (Hle x Hx). lia. }
    rewrite E in *. simpl in *. by rewrite <- IH.
Qed.

Lemma sorted_filter P `{!forall x, Decision (P x)} l : sorted l -> sorted (filter P l).
Proof.
  induction 1 as [|a l Hs IH Hle]; [apply SSorted_nil|].
  destruct (decide (P a)); [rewrite filter_cons_True by done|by rewrite filter_cons_False].
  apply SSorted_cons; [done|]. rewrite Forall_forall in *. intros x Hx.
  apply list_elem_of_filter in Hx as [_ Hx]. auto.
Qed.

Lemma rows_ok_del r rows : rows_ok rows -> rows_ok (list_del r <$> rows).
Proof.
  intros [Hok Hn]. split.
  - apply Forall_fmap. rewrite Forall_forall in *. intros l Hl. destruct (Hok l Hl).
    split; [by apply NoDup_list_del|by apply sorted_filter].
  - clear Hok. induction rows as [|l rows IH]; [done|]. destruct rows as [|l' rows]; [done|].
    destruct Hn as [Hsub Hn]. split; [|by apply IH]. intros x. rewrite !elem_of_list_del. naive_solver.
Qed.

(** Every row is part of the last one. *)
Lemma nested_last rows l b : nested rows -> l ∈ rows -> last rows = Some b -> forall r, r ∈ l -> r ∈ b.
Proof.
  revert l. induction rows as [|l1 rows IH]; intros l Hn Hl Hb r Hr; [by apply elem_of_nil in Hl|].
  destruct rows as [|l2 rows].
  - apply list_elem_of_singleton in Hl as ->. simpl in Hb. by simplify_eq.
  - destruct Hn as [Hsub Hn]. apply elem_of_cons in Hl as [->|Hl]; [|by apply (IH l)].
    apply (IH l2); auto. left.
Qed.

(** The position found in a row: the last timer that is not later. *)
Definition position (k : Z) l : option timer_ref := last (upto k l).

Context (k : Z).

(** Insertion behind the position keeps the order. *)
Definition ordered_insert (r : timer_ref) l : list timer_ref := upto k l ++ r :: above k l.

Lemma insert_row_position r l :
  NoDup l -> sorted l -> insert_row (position k l) r l = ordered_insert r l.
Proof.
  intros Hnd Hs. unfold ordered_insert. rewrite (sorted_split k l Hs) in Hnd.
  rewrite (sorted_split k l Hs) at 2. unfold position.
  destruct (upto k l) as [|a u _] using rev_ind; [done|]. rewrite last_snoc. simpl.
  rewrite <- app_assoc in Hnd |- *. simpl in *. rewrite <- app_assoc. simpl.
  apply Abs.ins_after_split. intros Hin. apply NoDup_app in Hnd as (_ & Hd & _).
  apply (Hd a Hin). left.
Qed.

Lemma elem_ordered_insert r l x : x ∈ ordered_insert r l <-> x = r \/ x ∈ l.
Proof.
  unfold ordered_insert, upto, above. rewrite elem_of_app, elem_of_cons, !list_elem_of_filter.
  destruct (decide (o x <= k)); tauto.
Qed.

Lemma ordered_insert_ok r l :
  NoDup l -> sorted l -> r ∉ l -> o r = k ->
  NoDup (ordered_insert r l) /\ sorted (ordered_insert r l).
Proof.
  intros Hnd Hs Hr Ek. split.
  - unfold ordered_insert. rewrite <- Permutation_middle, <- (sorted_split k l Hs).
    by apply NoDup_cons.
  - unfold ordered_insert. rewrite (sorted_split k l Hs) in Hs.
    apply StronglySorted_app in Hs as (Hle & Hs1 & Hs2). apply StronglySorted_app_2; [|done|].
    + intros x1 x2 H1. unfold upto in H1. apply list_elem_of_filter in H1 as H1'.
      intros [->|H2]%elem_of_cons; [lia|]. by apply Hle.
    + apply SSorted_cons; [done|]. rewrite Forall_forall. intros x Hx.
      unfold above in Hx. apply list_elem_of_filter in Hx as [Hx _]. lia.
Qed.

(** The counter decides how many upper rows get the timer. *)
Lemma insert_up_spec nr r rows :
  Forall (fun l => NoDup l /\ sorted l) rows ->
  exists n, insert_up nr r ((fun l => (position k l, l)) <$> rows) =
    (ordered_insert r <$> take n rows) ++ drop n rows.
Proof.
  intros Hok. revert nr. induction Hok as [|l rows [Hnd Hs] _ IH]; intros nr; [by exists 0%nat|].
  rewrite fmap_cons. cbn [insert_up]. destruct (_ =? 0).
  - destruct (IH (Z.shiftr nr (Z.shiftr (RT_TIMER_SKIP_LIST_MASK + 1) 1))) as [n ->].
    exists (S n). simpl. by rewrite insert_row_position.
  - exists 0%nat. simpl. f_equal. rewrite <- list_fmap_compose. apply list_fmap_id.
Qed.

Lemma zip_position rows :
  zip (position k <$> rows) rows = (fun l => (position k l, l)) <$> rows.
Proof. induction rows as [|l rows IH]; simpl; [done|]. by f_equal. Qed.

Lemma insert_rows_spec nr r rows :
  Forall (fun l => NoDup l /\ sorted l) rows -> rows <> [] ->
  exists m, (m < length rows)%nat /\
    insert_rows nr r (position k <$> rows) rows = take m rows ++ (ordered_insert r <$> drop m rows).
Proof.
  intros Hok Hne. unfold insert_rows. rewrite zip_position, <- fmap_reverse.
  destruct (reverse rows) as [|b upper] eqn:Er.
  { apply (f_equal reverse) in Er. by rewrite reverse_involutive in Er. }
  assert (Forall (fun l => NoDup l /\ sorted l) (b :: upper)) as Hok'.
  { rewrite <- Er. by apply Forall_reverse. }
  apply Forall_cons in Hok' as [[Hnd Hs] Hok']. rewrite fmap_cons.
  destruct (insert_up_spec nr r upper Hok') as [n ->]. rewrite insert_row_position by done.
  assert (rows = reverse (b :: upper)) as -> by (by rewrite <- Er, reverse_involutive).
  exists (length upper - n)%nat. split; [rewrite length_reverse; simpl; lia|].
  rewrite !reverse_cons, reverse_app, <- fmap_reverse, reverse_drop, reverse_take.
  rewrite take_app_le, drop_app_le by (rewrite length_reverse; lia).
  by rewrite fmap_app, app_assoc.
Qed.

Lemma nested_insert m r rows :
  nested rows -> nested (take m rows ++ (ordered_insert r <$> drop m rows)).
Proof.
  revert m. induction rows as [|l rows IH]; intros m Hn; [by rewrite take_nil, drop_nil|].
  assert (nested rows) as Hn' by (by destruct rows; [|destruct Hn]).
  destruct m as [|m]; simpl.
  - specialize (IH 0%nat Hn'). simpl in IH. destruct rows as [|l' rows]; [done|].
    destruct Hn as [Hsub _]. split; [|exact IH]. intros x. rewrite !elem_ordered_insert. naive_solver.
  - specialize (IH m Hn'). destruct rows as [|l' rows]; [by destruct m|].
    destruct Hn as [Hsub _]. destruct m as [|m]; simpl in *.
    + split; [|exact IH]. intros x Hx. apply elem_ordered_insert. auto.
    + split; [|exact IH]. auto.
Qed.

Lemma insert_rows_ok m r rows :
  rows_ok rows -> Forall (fun l => r ∉ l) rows -> o r = k ->
  rows_ok (take m rows ++ (ordered_insert r <$> drop m rows)).
Proof.
  intros [Hok Hn] Hr Ek. split; [|by apply nested_insert].
  apply Forall_app. split; [by apply Forall_take|].
  apply Forall_fmap, Forall_drop. rewrite Forall_forall in *. intros l Hl. simpl.
  destruct (Hok l Hl). apply ordered_insert_ok; auto.
Qed.

Context (ticks : timer_ref -> option Z) (tick : Z).
(** The tests of the walk decide the order. *)
Definition tested r : Prop :=
  exists t, ticks r = Some t /\ (u32 (t - tick) =? 0) = (o r =? k) /\
    (u32 (t - tick) <? HALF_TICK) = (k <=? o r).

Lemma walk_spec hd l1 l2 :
  sorted (l1 ++ l2) -> Forall tested l2 -> Forall (fun r => o r <= k) l1 -> hd = last l1 ->
  walk ticks tick hd l2 = Some (position k (l1 ++ l2)).
Proof.
  revert hd l1. induction l2 as [|r l2 IH]; intros hd l1 Hs Ht Hl1 ->.
  - simpl. unfold position, upto. rewrite app_nil_r.
    assert (filter (fun r => o r <= k) l1 = l1) as ->; [|done].
    by apply filter_all.
  - apply Forall_cons in Ht as [(t & Et & E1 & E2) Ht]. simpl. rewrite Et. simpl. rewrite E1, E2.
    assert (o r <= k -> walk ticks tick (Some r) l2 = Some (position k (l1 ++ r :: l2))) as Hgo.
    { intros Hr. replace (l1 ++ r :: l2) with ((l1 ++ [r]) ++ l2) in * by (by rewrite <- app_assoc).
      apply IH; [done|done|apply Forall_app; split; [done|by apply Forall_singleton]|by rewrite last_snoc]. }
    destruct (Z.eqb_spec (o r) k); [apply Hgo; lia|].
    destruct (Z.leb_spec k (o r)); [|apply Hgo; lia].
    unfold position, upto. rewrite filter_app, filter_cons_False by lia.
    assert (filter (fun r => o r <= k) l2 = []) as ->.
    { apply filter_none. rewrite Forall_forall. intros x Hx.
      apply StronglySorted_app_1_r in Hs. inversion Hs as [|? ? _ Hle]; subst.
      rewrite Forall_forall in Hle. specialize (Hle x Hx). lia. }
    rewrite app_nil_r. f_equal. f_equal. symmetry. by apply filter_all.
Qed.

Lemma behind_node_split r l1 l2 : r ∉ l1 -> behind_node r (l1 ++ r :: l2) = Some l2.
Proof.
  induction l1 as [|a l1 IH]; simpl; intros Hr; [by rewrite decide_True|].
  apply not_elem_of_cons in Hr as [? ?]. rewrite decide_False by done. auto.
Qed.

(** Where the search in a row may start. *)
Definition start_ok (hd : option timer_ref) l : Prop :=
  match hd with None => True | Some r => r ∈ l /\ o r <= k end.

Lemma row_head_spec hd l :
  NoDup l -> sorted l -> Forall tested l -> start_ok hd l ->
  exists rest, behind hd l = Some rest /\ walk ticks tick hd rest = Some (position k l).
Proof.
  intros Hnd Hs Ht Hst. destruct hd as [r|]; simpl in *.
  - destruct Hst as [Hin Hr]. apply list_elem_of_split in Hin as (l1 & l2 & ->).
    exists l2. apply NoDup_app in Hnd as (_ & Hd & _). split.
    + apply behind_node_split. intros Hr1. apply (Hd r Hr1). left.
    + replace (l1 ++ r :: l2) with ((l1 ++ [r]) ++ l2) in * by (by rewrite <- app_assoc).
      apply Forall_app in Ht as [_ Ht]. apply walk_spec; [done|done| |by rewrite last_snoc].
      rewrite Forall_forall. intros x [Hx|Hx%list_elem_of_singleton]%elem_of_app; [|by subst].
      apply StronglySorted_app in Hs as (_ & Hs & _).
      assert (o x <= o r); [|lia].
      by apply (StronglySorted_app_1_elem_of _ _ _ x r Hs Hx), list_elem_of_singleton.
  - exists l. split; [done|]. by apply (walk_spec None []).
Qed.

Lemma position_elem l r : position k l = Some r -> r ∈ l /\ o r <= k.
Proof. intros E%last_Some_elem_of. unfold upto in E. apply list_elem_of_filter in E. tauto. Qed.

Lemma row_heads_spec hd rows :
  rows_ok rows -> Forall (Forall tested) rows ->
  match rows with [] => True | l :: _ => start_ok hd l end ->
  row_heads ticks tick hd rows = Some (position k <$> rows).
Proof.
  revert hd. induction rows as [|l rows IH]; intros hd [Hok Hn] Ht Hst; [done|].
  apply Forall_cons in Hok as [[Hnd Hs] Hok]. apply Forall_cons in Ht as [Htl Ht].
  destruct (row_head_spec hd l Hnd Hs Htl Hst) as (rest & E1 & E2).
  simpl. rewrite E1. simpl. rewrite E2. simpl. rewrite IH; [done| |done|].
  - split; [done|]. by destruct rows; [|destruct Hn].
  - destruct rows as [|l' rows]; [done|]. destruct Hn as [Hsub _].
    destruct (position k l) as [r|] eqn:E; [|done]. apply position_elem in E as [? ?]. split; auto.
Qed.
End rows.

Lemma sorted_ext o o' (l : list timer_ref) :
  (forall r, r ∈ l -> o r = o' r) ->
  StronglySorted (fun a b => o a <= o b) l -> StronglySorted (fun a b => o' a <= o' b) l.
Proof.
  intros E. induction 1 as [|a l Hs IH Hle]; [apply SSorted_nil|]. apply SSorted_cons.
  - apply IH. intros r Hr. apply E. by right.
  - rewrite Forall_forall in *. intros x Hx. rewrite <- !E by (by left || by right). auto.
Qed.

Lemma rows_ok_ext o o' rows :
  (forall r, in_rows r rows -> o r = o' r) -> rows_ok o rows -> rows_ok o' rows.
Proof.
  intros E [Hok Hn]. split; [|done]. rewrite Forall_forall in *. intros l Hl.
  destruct (Hok l Hl). split; [done|]. eapply sorted_ext; [|done]. intros r Hr. apply E.
  apply Exists_exists. eauto.
Qed.

(** ** The timer list invariant *)

Definition timer_off (base : Z) (s : kstate) (r : timer_ref) : Z :=
  match timers s !! r with Some tm => offset base (tm_timeout_tick tm) | None => 0 end.

(** The timers of [X] are being handled: their flag may be set although they are
    not on the list. *)
Record timer_inv (base : Z) (X : gset timer_ref) (s : kstate) : Prop := {
  ti_level : length (rt_timer_list s) = RT_TIMER_SKIP_LIST_LEVEL;
  ti_rows : rows_ok (timer_off base s) (rt_timer_list s);
  ti_window : forall r, r ∈ last_row s -> exists tm, timers s !! r = Some tm /\
    offset base (tm_timeout_tick tm) < HALF_TICK /\ has_flag RT_TIMER_FLAG_ACTIVATED tm = true;
  ti_active : forall r tm, r ∉ X -> timers s !! r = Some tm ->
    has_flag RT_TIMER_FLAG_ACTIVATED tm = true -> r ∈ last_row s
}.

(** What the timer operations change. *)
Definition retimed (s s' : kstate) : Prop :=
  s' = set_random_nr (random_nr s') (set_rt_timer_list (rt_timer_list s') (set_timers (timers s') s)).

Lemma wp_get_timer r tm (Q : rt_timer -> kstate -> Prop) s :
  timers s !! r = Some tm -> Q tm s -> wp (get_timer r) Q s.
Proof. intros E HQ. unfold get_timer. do 2 wp_step. by eapply wp_opt. Qed.

Lemma wp_upd_timer r f tm (Q : unit -> kstate -> Prop) s :
  timers s !! r = Some tm -> Q tt (set_timers (<[r := f tm]> (timers s)) s) -> wp (upd_timer r f) Q s.
Proof. intros E HQ. unfold upd_timer. wp_step. eapply wp_get_timer; [done|]. by wp_step. Qed.

Lemma last_row_last s :
  length (rt_timer_list s) = RT_TIMER_SKIP_LIST_LEVEL -> last (rt_timer_list s) = Some (last_row s).
Proof.
  intros El. rewrite last_lookup, El. unfold last_row. pose proof skip_level_pos.
  replace (pred RT_TIMER_SKIP_LIST_LEVEL) with (RT_TIMER_SKIP_LIST_LEVEL - 1)%nat by lia.
  apply list_lookup_lookup_total_lt. lia.
Qed.

Lemma in_last_row base X s r : timer_inv base X s -> in_rows r (rt_timer_list s) -> r ∈ last_row s.
Proof.
  intros [El [_ Hn] _ _] Hin. unfold in_rows in Hin. apply Exists_exists in Hin as (l & Hl & Hr).
  eapply nested_last; [done|done|by apply last_row_last|done].
Qed.

(** Flags: the bits of the two masks are independent. *)
Lemma has_flag_clear m tm : has_flag m (clear_flag m tm) = false.
Proof.
  unfold has_flag, clear_flag, tm_flag. simpl. rewrite <- Z.land_assoc, (Z.land_comm (Z.lnot m)), Z.land_lnot_diag.
  by rewrite Z.land_0_r.
Qed.

Lemma has_flag_set m tm : 0 < m -> 0 <= tm_flag tm -> has_flag m (set_flag m tm) = true.
Proof.
  intros Hm Hf. unfold has_flag, set_flag, tm_flag. simpl. apply negb_true_iff, Z.eqb_neq.
  rewrite Z.land_lor_distr_l, Z.land_diag. intros E%Z.lor_eq_0_iff. lia.
Qed.

(** Removal: the timer is on no row any more. *)
Definition removed_timer (r : timer_ref) (s : kstate) : kstate :=
  set_rt_timer_list (list_del r <$> rt_timer_list s) s.

Lemma last_row_removed base X s r :
  timer_inv base X s -> last_row (removed_timer r s) = list_del r (last_row s).
Proof.
  intros [El _ _ _]. unfold last_row. simpl. pose proof skip_level_pos.
  apply list_lookup_total_correct. rewrite list_lookup_fmap, list_lookup_lookup_total_lt by lia. done.
Qed.

Lemma removed_timer_inv base X s r :
  timer_inv base X s -> timer_inv base (X ∪ {[r]}) (removed_timer r s).
Proof.
  intros Hinv. pose proof Hinv as [El Hr Hw Ha]. split.
  - simpl. by rewrite length_fmap.
  - exact (rows_ok_del (timer_off base s) r _ Hr).
  - intros r'. rewrite (last_row_removed base X) by done. rewrite elem_of_list_del. intros [_ Hin]. by apply Hw.
  - intros r' tm. rewrite not_elem_of_union, not_elem_of_singleton. intros [HX Hne] E Hf.
    rewrite (last_row_removed base X) by done. apply elem_of_list_del. split; [done|]. by eapply Ha.
Qed.

(** A timer that is on no row may change as long as its flag is clear. *)
Lemma put_timer_inv base X s r tm :
  timer_inv base (X ∪ {[r]}) s -> r ∉ last_row s -> has_flag RT_TIMER_FLAG_ACTIVATED tm = false ->
  timer_inv base X (set_timers (<[r := tm]> (timers s)) s).
Proof.
  intros Hinv Hr Hf. pose proof Hinv as [El Hrow Hw Ha].
  assert (forall r', r' ∈ last_row s -> r' <> r) as Hne by (by intros r' H' ->).
  split.
  - done.
  - eapply rows_ok_ext; [|done]. intros r' Hin. unfold timer_off. simpl.
    rewrite lookup_insert_ne; [done|]. intros <-. apply Hr. by eapply in_last_row.
  - intros r' Hin. simpl. rewrite lookup_insert_ne by (by apply not_eq_sym, Hne). by apply Hw.
  - intros r' tm' HX. simpl. intros [(<- & <-)|(Hn & E)]%lookup_insert_Some Hf'; [congruence|].
    apply (Ha r' tm'); [|done|done]. apply not_elem_of_union. split; [done|]. by apply not_elem_of_singleton.
Qed.

Lemma timer_inv_weaken base X Y s : timer_inv base X s -> X ⊆ Y -> timer_inv base Y s.
Proof. intros [? ? ? Ha] Hsub. split; try done. intros r tm Hr. apply Ha. set_solver. Qed.

(** A timer that is on no row can go. *)
Lemma timer_inv_forget base D s r s' :
  timer_inv base D s -> r ∉ last_row s -> rt_timer_list s' = rt_timer_list s ->
  timers s' = delete r (timers s) -> timer_inv base D s'.
Proof.
  intros Hinv Hn Er Et. pose proof Hinv as [I1 I2 I3 I4]. assert (last_row s' = last_row s) as El by (unfold last_row; by rewrite Er).
  split.
  - by rewrite Er.
  - rewrite Er. eapply rows_ok_ext; [|exact I2]. intros r' Hin. unfold timer_off.
    rewrite Et, lookup_delete_ne; [done|]. intros <-. apply Hn. by eapply in_last_row.
  - intros r' Hr. rewrite El in Hr. destruct (I3 r' Hr) as (tm & E & Ho). exists tm.
    rewrite Et, lookup_delete_ne; [done|]. by intros <-.
  - intros r' tm HX. rewrite Et, El. intros [_ E]%lookup_delete_Some. by apply I4.
Qed.

Lemma timer_inv_eq base D s s' :
  timers s' = timers s -> rt_timer_list s' = rt_timer_list s -> timer_inv base D s -> timer_inv base D s'.
Proof.
  intros Et Er [I1 I2 I3 I4].
  assert (last_row s' = last_row s) as El by (unfold last_row; by rewrite Er).
  split.
  - by rewrite Er.
  - rewrite Er. eapply rows_ok_ext; [|exact I2]. intros r _. unfold timer_off. by rewrite Et.
  - intros r. rewrite El, Et. apply I3.
  - intros r tm. rewrite El, Et. apply I4.
Qed.

(** A change of the other attributes of a timer *)
Lemma retouch_timer_inv base D s r tm tm' :
  timer_inv base D s -> timers s !! r = Some tm ->
  tm_timeout_tick tm' = tm_timeout_tick tm ->
  has_flag RT_TIMER_FLAG_ACTIVATED tm' = has_flag RT_TIMER_FLAG_ACTIVATED tm ->
  timer_inv base D (set_timers (<[r := tm']> (timers s)) s).
Proof.
  intros [I1 I2 I3 I4] E Et Ef. split; [done|..].
  - eapply rows_ok_ext; [|exact I2]. intros r' _. unfold timer_off. simpl.
    destruct (decide (r = r')) as [<-|]; [by rewrite lookup_insert_eq, E, Et|by rewrite lookup_insert_ne].
  - intros r' Hr'. change (last_row (set_timers _ s)) with (last_row s) in Hr'. simpl.
    destruct (I3 r' Hr') as (tm1 & E1 & Ho & Hf). destruct (decide (r = r')) as [<-|].
    + rewrite lookup_insert_eq. exists tm'. assert (tm1 = tm) as -> by congruence. by rewrite Et, Ef.
    + rewrite lookup_insert_ne by done. eauto.
  - simpl. intros r' tm1 HD [[<- <-]|[_ E1]]%lookup_insert_Some Hf; [|by eapply I4].
    eapply I4; [done|exact E|]. by rewrite <- Ef.
Qed.

(** ** Stop *)

Definition stopped (r : timer_ref) (tm : rt_timer) (s : kstate) : kstate :=
  set_timers (<[r := clear_flag RT_TIMER_FLAG_ACTIVATED tm]> (timers s)) (removed_timer r s).

Lemma stopped_inv base X s r tm :
  timer_inv base (X ∪ {[r]}) s -> timer_inv base X (stopped r tm s) /\ r ∉ last_row (stopped r tm s).
Proof.
  intros Hinv. assert (r ∉ last_row (removed_timer r s)) as Hr.
  { rewrite (last_row_removed base (X ∪ {[r]})) by done. rewrite elem_of_list_del. tauto. }
  split; [|done]. apply (put_timer_inv base X (removed_timer r s)); [|done|apply has_flag_clear].
  eapply timer_inv_weaken; [by apply removed_timer_inv|set_solver].
Qed.

Lemma clear_flag_id m tm : has_flag m tm = false -> clear_flag m tm = tm.
Proof.
  unfold has_flag, clear_flag, tm_flag. intros E%negb_false_iff%Z.eqb_eq.
  destruct tm as [[n t f] fn p i tk]. simpl in *. unfold set_tm_flag, set_tm_parent, set_obj_flag. simpl.
  do 2 f_equal. rewrite <- Z.ldiff_land. apply Z.bits_inj'. intros b Hb.
  apply (f_equal (fun x => Z.testbit x b)) in E. rewrite Z.bits_0, Z.land_spec in E.
  rewrite Z.ldiff_spec. by destruct (Z.testbit f b), (Z.testbit m b).
Qed.

(** Stopping a timer that is not active changes nothing, so the result state is
    the same expression in both cases. *)
Lemma stopped_inactive base X s r tm :
  timer_inv base X s -> timers s !! r = Some tm -> has_flag RT_TIMER_FLAG_ACTIVATED tm = false ->
  stopped r tm s = s.
Proof.
  intros Hinv E Hf. unfold stopped. rewrite clear_flag_id, insert_id by done.
  assert (list_del r <$> rt_timer_list s = rt_timer_list s) as El.
  { rewrite <- (list_fmap_id (rt_timer_list s)) at 2. apply list_fmap_ext. intros i l Hl.
    apply list_del_not_in. intros Hin. assert (r ∈ last_row s) as Hr.
    { eapply in_last_row; [done|]. apply Exists_exists. exists l. split; [by eapply list_elem_of_lookup_2|done]. }
    destruct (ti_window _ _ _ Hinv r Hr) as (tm' & E' & _ & Hf'). congruence. }
  unfold removed_timer. rewrite El. by destruct s.
Qed.

Lemma rt_timer_stop_spec base X s r tm :
  timer_inv base X s -> timer_nonnull r = true -> timers s !! r = Some tm ->
  wp (rt_timer_stop r) (fun _ s' => s' = stopped r tm s) s.
Proof.
  intros Hinv Hn E. unfold rt_timer_stop. wp_step. wp_step; [done|]. wp_step.
  eapply wp_get_timer; [done|]. destruct (has_flag RT_TIMER_FLAG_ACTIVATED tm) eqn:Hf.
  - wp_step. unfold _rt_timer_remove. wp_step. wp_step. eapply wp_upd_timer; [done|]. by wp_step.
  - wp_step. by rewrite (stopped_inactive base X).
Qed.

(** ** Start *)

Section start.
Context (base : Z) (X : gset timer_ref) (s : kstate) (r : timer_ref) (tm : rt_timer).
Context (Hinv : timer_inv base X s) (Hn : timer_nonnull r = true) (E : timers s !! r = Some tm).
Context (Hinit : tm_init_tick tm < HALF_TICK) (Hflag : 0 <= tm_flag tm).
Abbreviation timeout := (u32 (rt_tick s + tm_init_tick tm)).
Context (Hwin : offset base timeout < HALF_TICK).

(** The timer when it is inserted, and when [rt_timer_start] returns. *)
Definition timed : rt_timer := set_tm_timeout_tick timeout (clear_flag RT_TIMER_FLAG_ACTIVATED tm).
Definition started : rt_timer := set_flag RT_TIMER_FLAG_ACTIVATED timed.

(** The state before the insertion *)
Definition to_insert : kstate := set_timers (<[r := timed]> (timers s)) (removed_timer r s).

Lemma to_insert_inv : timer_inv base X to_insert /\ r ∉ last_row to_insert.
Proof.
  assert (r ∉ last_row (removed_timer r s)) as Hr.
  { rewrite (last_row_removed base X) by done. rewrite elem_of_list_del. tauto. }
  split; [|done]. apply (put_timer_inv base X (removed_timer r s)); [by apply removed_timer_inv|done|].
  apply (has_flag_clear RT_TIMER_FLAG_ACTIVATED tm).
Qed.

Abbreviation off := (timer_off base to_insert).

Lemma off_r : off r = offset base timeout.
Proof. unfold timer_off. simpl. by rewrite lookup_insert_eq. Qed.

Lemma to_insert_tested :
  Forall (Forall (tested off (off r) (fun r' => tm_timeout_tick <$> timers to_insert !! r') timeout))
    (rt_timer_list to_insert).
Proof.
  destruct to_insert_inv as [Hi Hr]. rewrite Forall_forall. intros l Hl. rewrite Forall_forall.
  intros r' Hr'. assert (r' ∈ last_row to_insert) as Hin.
  { eapply in_last_row; [done|]. apply Exists_exists. eauto. }
  destruct (ti_window _ _ _ Hi r' Hin) as (tm' & E' & Ho & _).
  exists (tm_timeout_tick tm'). rewrite E'. split; [done|]. rewrite off_r.
  unfold timer_off. rewrite E'. by apply walk_tests.
Qed.

(** The result: behind the timers that are not later. *)
Definition start_post (s' : kstate) : Prop :=
  timer_inv base X s' /\ retimed s s' /\ timers s' = <[r := started]> (timers s) /\
  last_row s' = ordered_insert off (off r) r (list_del r (last_row s)) /\
  (forall r', timer_off base s' r' = off r').

Lemma inserted_post m nr :
  (m < length (rt_timer_list to_insert))%nat ->
  start_post (set_timers (<[r := started]> (timers s))
    (set_rt_timer_list (take m (rt_timer_list to_insert) ++
       (ordered_insert off (off r) r <$> drop m (rt_timer_list to_insert)))
     (set_random_nr nr to_insert))).
Proof.
  intros Hm. destruct to_insert_inv as [Hi Hr]. pose proof Hi as [El Hrow Hw Ha].
  set (rows' := take m _ ++ _). set (s' := set_timers _ _).
  assert (forall r', timer_off base s' r' = off r') as Hoff.
  { intros r'. unfold timer_off. simpl. destruct (decide (r' = r)) as [->|];
      [by rewrite !lookup_insert_eq|by rewrite !lookup_insert_ne]. }
  assert (last_row s' = ordered_insert off (off r) r (last_row to_insert)) as Elast.
  { unfold last_row. simpl. pose proof skip_level_pos. apply list_lookup_total_correct. unfold rows'.
    rewrite lookup_app_r by (rewrite length_take; lia). rewrite length_take, list_lookup_fmap, lookup_drop.
    replace (m + (RT_TIMER_SKIP_LIST_LEVEL - 1 - m `min` length (rt_timer_list to_insert)))%nat
      with (RT_TIMER_SKIP_LIST_LEVEL - 1)%nat by lia.
    rewrite list_lookup_lookup_total_lt by lia. done. }
  split_and!; [split| | | |done].
  - change (length rows' = RT_TIMER_SKIP_LIST_LEVEL). unfold rows'. rewrite length_app, length_fmap, length_take, length_drop. lia.
  - apply (rows_ok_ext off); [intros; symmetry; apply Hoff|]. apply insert_rows_ok; [done| |done].
    rewrite Forall_forall. intros l Hl Hin. apply Hr. eapply in_last_row; [done|].
    apply Exists_exists. eauto.
  - intros r'. rewrite Elast, elem_ordered_insert. intros Hin.
    destruct (decide (r' = r)) as [->|Hne].
    + exists started. split; [simpl; by rewrite lookup_insert_eq|]. split; [done|].
      apply has_flag_set; [done|]. unfold timed, tm_flag. simpl. apply Z.land_nonneg. left. exact Hflag.
    + destruct Hin as [|Hin]; [done|]. destruct (Hw r' Hin) as (tm' & E' & Ho & Hf). exists tm'.
      split; [|done]. simpl in *. by rewrite lookup_insert_ne in E' |- *.
  - intros r' tm' HX E' Hf. rewrite Elast, elem_ordered_insert.
    destruct (decide (r' = r)) as [->|Hne]; [by left|right]. apply (Ha r' tm'); [done| |done].
    simpl in *. by rewrite lookup_insert_ne in E' |- *.
  - unfold retimed. reflexivity.
  - reflexivity.
  - rewrite Elast. f_equal. apply (last_row_removed base X). done.
Qed.

Lemma rt_timer_start_spec : wp (rt_timer_start r) (fun e s' => e = RT_EOK /\ start_post s') s.
Proof.
  destruct to_insert_inv as [Hi Hr]. pose proof Hi as [El Hrow _ _].
  unfold rt_timer_start. wp_step. wp_step; [done|]. wp_step. unfold _rt_timer_remove. wp_step. wp_step.
  eapply wp_upd_timer; [done|]. wp_step. eapply wp_get_timer; [apply lookup_insert_eq|].
  wp_step. wp_step; [apply Z.ltb_lt; done|]. wp_step. unfold rt_tick_get. wp_step. wp_step.
  eapply wp_upd_timer; [apply lookup_insert_eq|]. simpl. rewrite insert_insert_eq.
  change (set_timers (<[r := set_tm_timeout_tick timeout (clear_flag RT_TIMER_FLAG_ACTIVATED tm)]> (timers s))
    _) with to_insert.
  wp_step. wp_step. wp_step. eapply wp_opt.
  { apply (row_heads_spec off (off r) _ timeout None); [done|apply to_insert_tested|].
    by destruct (rt_timer_list to_insert). }
  wp_step. wp_step. wp_step. wp_step. simpl.
  destruct (insert_rows_spec off (off r) (u32 (random_nr s + 1)) r (rt_timer_list to_insert)) as (m & Hm & Em).
  { apply Hrow. } { intros E0. rewrite E0 in El. pose proof skip_level_pos. simpl in El. lia. }
  wp_step. eapply wp_upd_timer; [apply lookup_insert_eq|]. wp_step. split; [done|]. simpl.
  rewrite insert_insert_eq. simpl in Em. rewrite Em. by apply (inserted_post m).
Qed.
End start.

(** ** Expiry *)

Lemma timer_inv_rebase base X s now :
  timer_inv base X s -> offset base now < HALF_TICK ->
  (forall r tm, r ∈ last_row s -> timers s !! r = Some tm ->
     offset base now <= offset base (tm_timeout_tick tm)) ->
  timer_inv now X s.
Proof.
  intros Hinv Hnow Hle. pose proof Hinv as [El Hr Hw Ha].
  assert (forall r tm, r ∈ last_row s -> timers s !! r = Some tm ->
    offset now (tm_timeout_tick tm) = offset base (tm_timeout_tick tm) - offset base now) as Hoff.
  { intros r tm Hin E. destruct (Hw r Hin) as (tm' & E' & Ho & _). assert (tm' = tm) as -> by congruence.
    unfold offset at 1. rewrite (offset_compare base) by done. specialize (Hle r tm Hin E).
    destruct (Z.leb_spec (offset base now) (offset base (tm_timeout_tick tm))); lia. }
  split; [done| | |done].
  - destruct Hr as [Hok Hn]. split; [|done]. rewrite Forall_forall in *. intros l Hl.
    destruct (Hok l Hl) as [Hnd Hs]. split; [done|].
    apply (sorted_ext (fun r => timer_off base s r - offset base now)).
    + intros r Hin. assert (r ∈ last_row s) as Hr'.
      { eapply in_last_row; [done|]. apply Exists_exists. eauto. }
      destruct (Hw r Hr') as (tm & E & _). unfold timer_off. rewrite E. symmetry. by apply (Hoff r).
    + clear -Hs. induction Hs as [|a l Hs IH Hle]; [apply SSorted_nil|]. apply SSorted_cons; [done|].
      rewrite Forall_forall in *. intros x Hx. specialize (Hle x Hx). lia.
  - intros r Hin. destruct (Hw r Hin) as (tm & E & Ho & Hf). exists tm. split; [done|].
    split; [|done]. rewrite (Hoff r tm) by done. pose proof (uwrap_range 32 (now - base) ltac:(lia)).
    unfold offset in *. lia.
Qed.

(** The timeout function and parameter of each timer of a list *)
Definition calls (s : kstate) (l : list timer_ref) : list (timeout_fn * Z) :=
  omap (fun r => (fun tm => (tm_timeout_func tm, tm_parameter tm)) <$> timers s !! r) l.

Lemma clear_flag_twice mask tm : clear_flag mask (clear_flag mask tm) = clear_flag mask tm.
Proof. unfold clear_flag, tm_flag. simpl. by rewrite <- Z.land_assoc, Z.land_diag. Qed.

Section check.
Context (call : timeout_fn -> Z -> K unit) (base now : Z) (D : gset timer_ref).
(** [P log s]: the timeout functions of [log] have been called, in this order. *)
Context (P : list (timeout_fn * Z) -> kstate -> Prop).
Context (s0 : kstate).

Definition rearmed (tm : rt_timer) : bool := has_flag RT_TIMER_FLAG_PERIODIC tm.
(** The timers whose timeout is not later than [now], in the order of the list *)
Definition expired (s : kstate) : list timer_ref := upto (timer_off base s) (offset base now) (last_row s).

(** A timer that has fired: a periodic one is started again, another one is off. *)
Definition fired (tm : rt_timer) : rt_timer :=
  if rearmed tm then set_flag RT_TIMER_FLAG_ACTIVATED
    (set_tm_timeout_tick (u32 (now + tm_init_tick tm)) (clear_flag RT_TIMER_FLAG_ACTIVATED tm))
  else clear_flag RT_TIMER_FLAG_ACTIVATED tm.

(** A timeout function that is called does not touch timers or the tick. *)
Context (Hcall : forall log f p s,
  (log ++ [(f, p)]) `prefix_of` calls s0 (expired s0) -> P log s ->
  wp (call f p) (fun _ s' => P (log ++ [(f, p)]) s' /\ timers s' = timers s /\
    rt_timer_list s' = rt_timer_list s /\ rt_tick s' = rt_tick s) s).
Context (Htimed : forall log s s', retimed s s' -> P log s -> P log s').
Context (Hnow : offset base now < HALF_TICK).

(** A periodic timer that is started again is later than [now]. *)
Context (Hper : forall r tm, r ∈ last_row s0 -> timers s0 !! r = Some tm -> rearmed tm = true ->
  0 <= tm_flag tm /\ tm_init_tick tm < HALF_TICK /\
  offset base now < offset base (u32 (now + tm_init_tick tm)) < HALF_TICK).
Context (Hnn : forall r, r ∈ last_row s0 -> timer_nonnull r = true).

(** Timers before [now] handled so far: [done]; the others are as in [s0]. *)
Record checking (done : list timer_ref) (s : kstate) : Prop := {
  ch_inv : timer_inv base D s;
  ch_tick : rt_tick s = now;
  ch_log : P (calls s0 done) s;
  ch_expired : expired s0 = done ++ expired s;
  ch_todo : forall r, r ∉ done -> timers s !! r = timers s0 !! r;
  ch_done : forall r tm, r ∈ done -> timers s0 !! r = Some tm -> timers s !! r = Some (fired tm);
  ch_rows : forall r, r ∈ last_row s <-> r ∈ last_row s0 /\
    (r ∉ done \/ exists tm, timers s0 !! r = Some tm /\ rearmed tm = true)
}.

Lemma expired_head s r l tm :
  timer_inv base D s -> last_row s = r :: l -> timers s !! r = Some tm ->
  (u32 (now - tm_timeout_tick tm) <? HALF_TICK) = true /\
    expired s = r :: upto (timer_off base s) (offset base now) l \/
  (u32 (now - tm_timeout_tick tm) <? HALF_TICK) = false /\ expired s = [].
Proof.
  intros Hinv El E. destruct (ti_window _ _ _ Hinv r) as (tm' & E' & Ho & _); [rewrite El; left|].
  assert (tm' = tm) as -> by congruence. destruct (walk_tests base now (tm_timeout_tick tm)) as [_ ->]; [done|done|].
  unfold expired, upto. rewrite El.
  assert (timer_off base s r = offset base (tm_timeout_tick tm)) as Eo by (unfold timer_off; by rewrite E).
  destruct (Z.leb_spec (offset base (tm_timeout_tick tm)) (offset base now)); [left|right]; (split; [done|]).
  - by rewrite filter_cons_True by lia.
  - rewrite filter_cons_False by lia. apply filter_none.
    destruct (ti_rows _ _ _ Hinv) as [Hok _]. rewrite Forall_forall in Hok.
    destruct (Hok (last_row s)) as [_ Hs].
    { apply last_Some_elem_of, last_row_last, Hinv. }
    rewrite El in Hs. inversion Hs as [|? ? _ Hle]; subst. rewrite Forall_forall in *.
    intros x Hx. specialize (Hle x Hx). lia.
Qed.

Context (Hinv0 : timer_inv base D s0).

Lemma expired_nodup : NoDup (expired s0).
Proof.
  apply NoDup_filter. destruct (ti_rows _ _ _ Hinv0) as [Hok _]. rewrite Forall_forall in Hok.
  apply (Hok (last_row s0)), last_Some_elem_of, last_row_last, Hinv0.
Qed.

Lemma upto_ext o o' k l :
  (forall x, x ∈ l -> o x = o' x) -> upto o k l = upto o' k l.
Proof.
  intros E. unfold upto. induction l as [|a l IH]; [done|].
  rewrite !filter_cons, (E a) by left. rewrite IH; [done|]. intros x Hx. apply E. by right.
Qed.

Lemma upto_ordered_insert o k n r l :
  o r = k -> n < k -> StronglySorted (fun a b => o a <= o b) l ->
  upto o n (ordered_insert o k r l) = upto o n l.
Proof.
  intros Er Hn Hs. rewrite (sorted_split o k l Hs) at 2. unfold ordered_insert.
  unfold upto at 1 3. rewrite !filter_app, filter_cons_False by lia. done.
Qed.

(** One round: the first expired timer is handled. *)
Section round.
Context (done : list timer_ref) (s : kstate) (r : timer_ref) (l : list timer_ref) (tm : rt_timer).
Context (Hch : checking done s) (El : last_row s = r :: l) (E : timers s !! r = Some tm)
  (Hexp : expired s = r :: upto (timer_off base s) (offset base now) l).

Lemma round_fresh : r ∉ done.
Proof.
  pose proof expired_nodup as Hnd. rewrite (ch_expired _ _ Hch), Hexp in Hnd.
  apply NoDup_app in Hnd as (_ & Hd & _). intros Hr. apply (Hd r Hr). left.
Qed.

Lemma round_tm : timers s0 !! r = Some tm.
Proof. rewrite <- (ch_todo _ _ Hch) by apply round_fresh. done. Qed.

Lemma round_row : r ∉ l /\ NoDup l /\ StronglySorted (fun a b => timer_off base s a <= timer_off base s b) l /\
  has_flag RT_TIMER_FLAG_ACTIVATED tm = true /\ offset base (tm_timeout_tick tm) < HALF_TICK.
Proof.
  pose proof (ch_inv _ _ Hch) as Hi. destruct (ti_rows _ _ _ Hi) as [Hok _]. rewrite Forall_forall in Hok.
  destruct (Hok (last_row s)) as [Hnd Hs]; [apply last_Some_elem_of, last_row_last, Hi|].
  rewrite El in Hnd, Hs. apply NoDup_cons in Hnd as [? ?]. inversion Hs; subst.
  destruct (ti_window _ _ _ Hi r) as (tm' & E' & Ho & Hf); [rewrite El; left|].
  assert (tm' = tm) as -> by congruence. done.
Qed.

(** The state when the round is over, seen from the state behind the call. *)
Lemma round_done s' (tm' : rt_timer) :
  timer_inv base D s' -> rt_tick s' = now -> P (calls s0 (done ++ [r])) s' ->
  timers s' = <[r := tm']> (timers s) -> tm' = fired tm ->
  upto (timer_off base s') (offset base now) (last_row s') = upto (timer_off base s) (offset base now) l ->
  (forall x, x ∈ last_row s' <-> x ∈ l \/ x = r /\ rearmed tm = true) ->
  checking (done ++ [r]) s'.
Proof.
  intros Hi Ht Hlog Etm Etm' Hup Hrow. pose proof round_fresh as Hf. pose proof round_tm as Etm0. destruct round_row as (Hrl & _).
  split; [done|done|done|..].
  - rewrite (ch_expired _ _ Hch), Hexp, <- app_assoc. simpl. unfold expired. by rewrite Hup.
  - intros x Hx. rewrite Etm. apply not_elem_of_app in Hx as [Hx Hxr].
    rewrite lookup_insert_ne; [by apply Hch|]. intros <-. apply Hxr. by apply list_elem_of_singleton.
  - intros x tmx Hx Ex. rewrite Etm. apply elem_of_app in Hx as [Hx|Hx%list_elem_of_singleton].
    + rewrite lookup_insert_ne by (by intros ->). by apply Hch.
    + subst x. rewrite lookup_insert_eq. assert (tmx = tm) as -> by congruence. by rewrite Etm'.
  - intros x. rewrite Hrow. rewrite elem_of_app, list_elem_of_singleton.
    pose proof (ch_rows _ _ Hch x) as Hx. rewrite El, elem_of_cons in Hx.
    destruct (decide (x = r)) as [->|Hne]; [|clear -Hx Hne; tauto].
    assert (r ∈ last_row s0) as Hin by (apply Hx; by left).
    split; [intros [?|[_ Hp]]; [done|eauto]|]. intros [_ [Hd|(tm1 & E1 & Hp)]]; [tauto|].
    right. split; congruence.
Qed.

(** The state behind the call of the timeout function *)
Definition called (s2 : kstate) : Prop :=
  P (calls s0 (done ++ [r])) s2 /\ timers s2 = timers s /\
  rt_timer_list s2 = (list_del r <$> rt_timer_list s) /\ rt_tick s2 = now.

Lemma called_inv s2 : called s2 -> timer_inv base (D ∪ {[r]}) s2 /\ last_row s2 = l.
Proof.
  intros (_ & Et & Er & _). destruct round_row as (Hrl & Hnd & _).
  assert (last_row s2 = last_row (removed_timer r s)) as E2 by (unfold last_row; by rewrite Er).
  pose proof (removed_timer_inv _ _ _ r (ch_inv _ _ Hch)) as [I1 I2 I3 I4].
  rewrite (last_row_removed base D), El, list_del_head in E2 by (apply Hch || by apply NoDup_cons).
  split; [|done]. split.
  - rewrite Er. exact I1.
  - rewrite Er. eapply rows_ok_ext; [|exact I2]. intros x _. unfold timer_off. by rewrite Et.
  - intros x Hx. rewrite Et. apply I3. rewrite (last_row_removed base D), El, list_del_head
      by (apply Hch || by apply NoDup_cons). by rewrite <- E2.
  - intros x tm' HX. rewrite Et. intros Ex Hf. rewrite E2.
    specialize (I4 x tm' HX Ex Hf).
    by rewrite (last_row_removed base D), El, list_del_head in I4 by (apply Hch || by apply NoDup_cons).
Qed.

Lemma called_stop s2 :
  called s2 -> rearmed tm = false ->
  checking (done ++ [r]) (set_timers (<[r := clear_flag RT_TIMER_FLAG_ACTIVATED tm]> (timers s2)) s2).
Proof.
  intros Hc Hp. destruct (called_inv s2 Hc) as [Hi Hrow]. destruct Hc as (Hlog & Et & Er & Ht).
  destruct round_row as (Hrl & _). eapply round_done.
  - apply put_timer_inv; [|by rewrite Hrow|apply has_flag_clear].
    done.
  - done.
  - by eapply Htimed.
  - simpl. by rewrite Et.
  - unfold fired. by rewrite Hp.
  - change (last_row (set_timers _ s2)) with (last_row s2). rewrite Hrow. apply upto_ext.
    intros x Hx. unfold timer_off. simpl. rewrite Et, lookup_insert_ne; [done|]. by intros <-.
  - change (last_row (set_timers _ s2)) with (last_row s2). rewrite Hrow. intros x. rewrite Hp.
    split; [by left|]. intros [?|[_ ?]]; done.
Qed.

Lemma called_restart s2 (Q : Z -> kstate -> Prop) :
  called s2 -> rearmed tm = true -> r ∈ last_row s0 ->
  (forall s', checking (done ++ [r]) s' -> Q RT_EOK s') ->
  wp (rt_timer_start r) Q
    (set_timers (<[r := clear_flag RT_TIMER_FLAG_ACTIVATED tm]> (timers s2)) s2).
Proof.
  intros Hc Hp Hin HQ. destruct (called_inv s2 Hc) as [Hi Hrow]. destruct Hc as (Hlog & Et & Er & Ht).
  destruct round_row as (Hrl & Hnd & Hs & Ha & _). destruct (Hper r tm Hin round_tm Hp) as (Hfl & Hini & Hlt & Hwin).
  set (s3 := set_timers _ s2).
  assert (timer_inv base D s3) as Hi3.
  { apply put_timer_inv; [|by rewrite Hrow|apply has_flag_clear].
    eapply timer_inv_weaken; [done|set_solver]. }
  assert (last_row s3 = l) as Hrow3 by exact Hrow.
  eapply wp_mono; [apply (rt_timer_start_spec base D s3 r (clear_flag RT_TIMER_FLAG_ACTIVATED tm))|].
  - done.
  - by apply Hnn.
  - apply lookup_insert_eq.
  - done.
  - unfold clear_flag, tm_flag. simpl. apply Z.land_nonneg. by left.
  - simpl. by rewrite Ht.
  - intros e s' [-> (Hi' & Hrt & Etm & Elast & Hoff)]. apply HQ.
    rewrite Hrow3, list_del_not_in in Elast by done.
    assert (forall x, x <> r -> timer_off base s' x = timer_off base s x) as Hsame.
    { intros x Hx. unfold timer_off. rewrite Etm. simpl. rewrite !lookup_insert_ne by done. by rewrite Et. }
    assert (timer_off base s' r = offset base (u32 (now + tm_init_tick tm))) as Hr'.
    { unfold timer_off. rewrite Etm, lookup_insert_eq. simpl. by rewrite Ht. }
    eapply round_done; [done|by rewrite Hrt| |by rewrite Etm; simpl; rewrite insert_insert_eq, Et| |..].
    2: { unfold fired, started, timed. rewrite Hp, clear_flag_twice. simpl. by rewrite Ht. }
    + eapply Htimed; [exact Hrt|]. by eapply Htimed.
    + rewrite Elast, (upto_ext (timer_off base s') (timer_off base (to_insert s3 r (clear_flag RT_TIMER_FLAG_ACTIVATED tm))))
        by (intros; apply Hoff).
      rewrite upto_ordered_insert; [|done|rewrite <- Hoff, Hr'; lia|].
      * apply upto_ext. intros x Hx. rewrite <- Hoff. apply Hsame. by intros ->.
      * eapply sorted_ext; [|exact Hs]. intros x Hx. rewrite <- Hoff. symmetry. apply Hsame. by intros ->.
    + intros x. rewrite Elast, elem_ordered_insert. rewrite Hp. tauto.
Qed.
End round.

Abbreviation check_cond := (fun '(_, stop) =>
  s ← get; mret (negb stop && negb (bool_decide (last_row s = [])))).

Lemma rt_timer_check_spec fuel :
  rt_tick s0 = now -> P [] s0 -> (length (expired s0) < fuel)%nat ->
  wp (rt_timer_check call (S fuel)) (fun _ s' => checking (expired s0) s') s0.
Proof.
  intros Ht0 HP0 Hfuel. unfold rt_timer_check. wp_step. unfold rt_tick_get. wp_step. rewrite Ht0. wp_step.
  apply (wp_while (fun '(cur, stop) s => cur = now /\ exists done, checking done s /\
      (stop = true -> expired s = []))
    (fun '(_, stop) s => if stop : bool then O else S (length (expired s)))).
  - split; [done|]. exists []. split; [|done]. split; try done; [by intros ? ? ?%elem_of_nil|].
    intros x. split; [intros; split; [done|left; apply not_elem_of_nil]|tauto].
  - lia.
  - intros [cur stop] s (-> & done & Hch & Hst). wp_step. wp_step. wp_step.
    destruct stop; simpl.
    { wp_step. pose proof (ch_expired _ _ Hch) as Ee. rewrite Hst, app_nil_r in Ee by done. by rewrite Ee. }
    case_bool_decide as Hne; simpl.
    { wp_step. pose proof (ch_expired _ _ Hch) as Ee. unfold expired at 2 in Ee. rewrite Hne, app_nil_r in Ee.
      by rewrite Ee. }
    destruct (last_row s) as [|r l] eqn:El; [done|].
    destruct (ti_window _ _ _ (ch_inv _ _ Hch) r) as (tm & E & _); [rewrite El; left|].
    wp_step. wp_step. wp_step. eapply wp_opt; [by rewrite El|]. wp_step. eapply wp_get_timer; [done|].
    destruct (expired_head s r l tm (ch_inv _ _ Hch) El E) as [[-> Hexp]|[-> Hexp]].
    2: { wp_step. split; [|lia]. split; [done|]. exists done. split; [done|by intros _]. }
    pose proof (round_row done s r l tm Hch El E) as (_ & _ & _ & Ha & _).
    pose proof (round_tm done s r l tm Hch E Hexp) as E0.
    wp_step. unfold _rt_timer_remove. wp_step. wp_step.
    assert ((calls s0 done ++ [(tm_timeout_func tm, tm_parameter tm)]) `prefix_of` calls s0 (expired s0)) as Hpre.
    { rewrite (ch_expired _ _ Hch), Hexp. unfold calls. rewrite omap_app. simpl. rewrite E0. simpl.
      eexists. rewrite <- app_assoc. simpl. reflexivity. }
    eapply wp_mono; [apply (Hcall _ _ _ _ Hpre); eapply Htimed; [|apply Hch]; done|].
    intros ? s2 (Hlog & Et & Er & Htk).
    assert (called done s r s2) as Hc.
    { split_and!; [|done|done|by rewrite Htk; apply Hch]. unfold calls. rewrite omap_app. simpl. by rewrite E0. }
    wp_step. wp_step. wp_step. eapply wp_get_timer; [by rewrite Et|]. rewrite Ha, andb_true_r.
    assert (r ∈ last_row s0) as Hin by (apply (ch_rows _ _ Hch); rewrite El; left).
    assert (rt_tick s2 = now) as Htk2 by apply Hc.
    assert (forall s', checking (done ++ [r]) s' -> (length (expired s') < length (expired s))%nat) as Hdec.
    { intros s' Hch'. pose proof (ch_expired _ _ Hch') as E1. rewrite (ch_expired _ _ Hch) in E1.
      apply (f_equal length) in E1. rewrite !length_app in E1. simpl in E1. lia. }
    wp_step. destruct (has_flag RT_TIMER_FLAG_PERIODIC tm) eqn:Hp.
    + wp_step. eapply wp_upd_timer; [by rewrite Et|]. wp_step.
      eapply (called_restart done s r l tm); [done..|]. intros s' Hch'. wp_step. wp_step.
      specialize (Hdec s' Hch'). split; [|lia]. split; [done|]. by exists (done ++ [r]).
    + eapply wp_upd_timer; [by rewrite Et|]. wp_step.
      pose proof (called_stop done s r l tm Hch El E Hexp s2 Hc Hp) as Hch'.
      specialize (Hdec _ Hch'). split; [|lia]. split; [done|]. by exists (done ++ [r]).
Qed.
End check.

(** Behind the check every timer left is later than [now]. *)
Lemma checked_inv base now D P s0 s :
  offset base now < HALF_TICK -> checking base now D P s0 (expired base now s0) s ->
  timer_inv now D s /\ forall r tm, r ∈ last_row s -> timers s !! r = Some tm ->
    offset base now < offset base (tm_timeout_tick tm).
Proof.
  intros Hnow Hch. pose proof (ch_inv _ _ _ _ _ _ _ Hch) as Hi.
  assert (forall r tm, r ∈ last_row s -> timers s !! r = Some tm ->
    offset base now < offset base (tm_timeout_tick tm)) as Hlt.
  { intros r tm Hin E. pose proof (ch_expired _ _ _ _ _ _ _ Hch) as Ee.
    assert (expired base now s = []) as E0.
    { apply (f_equal length) in Ee. rewrite length_app in Ee. apply nil_length_inv. lia. }
    destruct (Z_lt_ge_dec (offset base now) (offset base (tm_timeout_tick tm))) as [|Hge]; [done|exfalso].
    assert (r ∈ expired base now s) as Hr; [|rewrite E0 in Hr; by apply elem_of_nil in Hr].
    apply list_elem_of_filter. split; [|done]. unfold timer_off. rewrite E. lia. }
  split; [|done]. eapply timer_inv_rebase; [done|done|]. intros r tm Hin E. specialize (Hlt r tm Hin E). lia.
Qed.

(** [rt_timer_next_timeout_tick]: the earliest timeout, when there is an active timer. *)
Lemma rt_timer_next_timeout_tick_spec base X s :
  timer_inv base X s ->
  wp rt_timer_next_timeout_tick (fun t s' => s' = s /\
    (last_row s = [] /\ t = RT_TICK_MAX \/
     (exists r tm, r ∈ last_row s /\ timers s !! r = Some tm /\ t = tm_timeout_tick tm) /\
     forall r tm, r ∈ last_row s -> timers s !! r = Some tm ->
       offset base t <= offset base (tm_timeout_tick tm))) s.
Proof.
  intros Hinv. unfold rt_timer_next_timeout_tick, rt_timer_list_next_timeout. wp_step. wp_step.
  destruct (last_row s) as [|r l] eqn:El; [wp_step; by split; [|left]|].
  destruct (ti_window _ _ _ Hinv r) as (tm & E & _); [rewrite El; left|].
  wp_step. eapply wp_get_timer; [done|]. wp_step. split; [done|]. right. split; [exists r, tm; split; [left|done]|].
  intros r' tm' Hr' E'. destruct (ti_rows _ _ _ Hinv) as [Hok _]. rewrite Forall_forall in Hok.
  destruct (Hok (last_row s)) as [_ Hs]; [apply last_Some_elem_of, last_row_last, Hinv|].
  rewrite El in Hs. inversion Hs as [|? ? _ Hle]; subst. rewrite Forall_forall in Hle.
  apply elem_of_cons in Hr' as [->|Hr']; [simplify_eq; lia|].
  specialize (Hle r' Hr'). unfold timer_off in Hle. by rewrite E, E' in Hle.
Qed.

Lemma rt_system_timer_init_spec s :
  timers s = ∅ -> wp rt_system_timer_init (fun _ s' => forall base, timer_inv base ∅ s' /\ last_row s' = []) s.
Proof.
  intros E. unfold rt_system_timer_init. wp_step. intros base. pose proof skip_level_pos.
  assert (last_row (set_rt_timer_list (replicate RT_TIMER_SKIP_LIST_LEVEL []) s) = []) as El.
  { unfold last_row. simpl. apply list_lookup_total_correct. apply lookup_replicate. split; [done|lia]. }
  split; [|done]. split.
  - simpl. by rewrite length_replicate.
  - simpl. split; [apply Forall_replicate; split; [apply NoDup_nil_2|apply SSorted_nil]|].
    clear. induction RT_TIMER_SKIP_LIST_LEVEL as [|[|n] IH]; [done|done|]. simpl. split; [done|apply IH].
  - intros r. rewrite El. by intros ?%elem_of_nil.
  - intros r tm _. simpl. by rewrite E, lookup_empty.
Qed.

(** ** Properties *)

(** C15: [rt_timer_start] keeps the timer list in the order of the timeouts: the timer,
    taken off the list first if it was active, ends up behind every timer that is not
    later and before every later one, on any number of skip list levels and across the
    wrap-around of the tick; the other timers keep their order. *)
Theorem rt_timer_start_correct X s r tm :
  timer_inv (rt_tick s) X s -> timer_nonnull r = true -> timers s !! r = Some tm ->
  0 <= tm_init_tick tm < HALF_TICK -> 0 <= tm_flag tm ->
  exists s' l1 l2, rt_timer_start r s = Ok RT_EOK s' /\ timer_inv (rt_tick s) X s' /\
    last_row s' = l1 ++ r :: l2 /\ l1 ++ l2 = list_del r (last_row s) /\
    timer_off (rt_tick s) s' r = tm_init_tick tm /\
    Forall (fun a => timer_off (rt_tick s) s' a <= tm_init_tick tm) l1 /\
    Forall (fun a => tm_init_tick tm < timer_off (rt_tick s) s' a) l2.
Proof.
  intros Hinv Hn E Hi Hf.
  assert (offset (rt_tick s) (u32 (rt_tick s + tm_init_tick tm)) = tm_init_tick tm) as Eo.
  { apply offset_add. change HALF_TICK with 2147483647 in Hi. lia. }
  destruct (wp_ok _ _ _ (rt_timer_start_spec (rt_tick s) X s r tm Hinv Hn E ltac:(lia) Hf ltac:(rewrite Eo; lia)))
    as (e & s' & Er & -> & Hinv' & _ & _ & El & Ho).
  pose proof (off_r (rt_tick s) s r tm) as Eoff. rewrite Eo in Eoff. rewrite Eoff in El.
  eexists s', _, _. split_and!; [done|done|exact El| | | |].
  - symmetry. apply sorted_split. destruct (to_insert_inv (rt_tick s) X s r tm Hinv) as [[_ [Hrows _] _ _] _].
    rewrite Forall_forall in Hrows. apply Hrows.
    assert (last_row (to_insert s r tm) = list_del r (last_row s)) as <-
      by (change (last_row (to_insert s r tm)) with (last_row (removed_timer r s)); by eapply last_row_removed).
    apply list_elem_of_lookup_2 with (RT_TIMER_SKIP_LIST_LEVEL - 1)%nat. unfold last_row.
    apply list_lookup_lookup_total_lt. simpl. rewrite length_fmap, (ti_level _ _ _ Hinv). pose proof skip_level_pos. lia.
  - by rewrite Ho, Eoff.
  - rewrite Forall_forall. intros a Ha. rewrite Ho. by apply list_elem_of_filter in Ha as [? _].
  - rewrite Forall_forall. intros a Ha. rewrite Ho. apply list_elem_of_filter in Ha as [? _]. lia.
Qed.

(** [rt_timer_stop] takes exactly the active timer off the list, leaving the order
    of the others, and reports -RT_ERROR without any change for an inactive one. *)
Theorem rt_timer_stop_correct base X s r tm :
  timer_inv base X s -> timer_nonnull r = true -> timers s !! r = Some tm ->
  if has_flag RT_TIMER_FLAG_ACTIVATED tm then
    exists s', rt_timer_stop r s = Ok RT_EOK s' /\ timer_inv base X s' /\ last_row s' = list_del r (last_row s) /\
      timers s' = <[r := clear_flag RT_TIMER_FLAG_ACTIVATED tm]> (timers s)
  else rt_timer_stop r s = Ok (- RT_ERROR) s.
Proof.
  intros Hinv Hn E.
  destruct (wp_ok _ _ _ (rt_timer_stop_spec base X s r tm Hinv Hn E)) as (e & s' & Er & Es).
  destruct (has_flag RT_TIMER_FLAG_ACTIVATED tm) eqn:Ea.
  - exists s'. subst s'. split_and!.
    + unfold rt_timer_stop, RT_ASSERT, upd_timer, get_timer, _rt_timer_remove, get, opt, modify, mbind, M_bind, mret, M_ret.
      rewrite Hn, E, Ea. simpl. by rewrite E.
    + apply stopped_inv. eapply timer_inv_weaken; [done|set_solver].
    + change (last_row (stopped r tm s)) with (last_row (removed_timer r s)). by eapply last_row_removed.
    + done.
  - unfold rt_timer_stop, RT_ASSERT, get_timer, get, opt, mbind, M_bind, mret, M_ret. rewrite Hn. simpl. by rewrite E, Ea.
Qed.

End timer.
