(* ===== verification/Thread.v ===== *)
(** * Threads (src/thread.c)

    Life cycle: INIT, READY, SUSPEND, CLOSE.  A call that may give up the
    processor is cut at its [rt_schedule()]: what runs after it, once the thread
    is running again, is a separate definition with the suffix [_resume]. *)
From stdpp Require Import base tactics numbers list gmap.
From S2P Require Import Prelude RtList Kernel Scheduler Object Timer.
Local Open Scope Z_scope.

Inductive thread_ctrl :=
| RT_THREAD_CTRL_STARTUP
| RT_THREAD_CTRL_CLOSE
| RT_THREAD_CTRL_CHANGE_PRIORITY
| RT_THREAD_CTRL_INFO.

(** ** The initial stack (libcpu/arm/cortex-m3/cpuport.c)

    The stack pointer of a new thread, and the sixteen words stored there: r4 to
    r11, then r0 to r3, r12, lr, pc and psr. *)
Definition rt_hw_stack_init (tentry parameter stack_addr texit : Z) : ptr * list Z :=
  let stk := u32 (stack_addr + 4) in
  let stk := RT_ALIGN_DOWN stk 8 in
  let stk := u32 (stk - 64) in
  (stk, replicate 8 0xdeadbeef ++ [u32 parameter; 0; 0; 0; 0; u32 texit; u32 tentry; 0x01000000]).

Section thread.
Context `{KConfig} `{Allocator}.

Definition rt_thread_self : K ptr := gets rt_current_thread.

(** Address of the code of [rt_thread_exit], the return address of a thread. *)
Context (rt_thread_exit_addr : Z).

Definition nonnull (p : ptr) : K unit := RT_ASSERT (negb (p =? RT_NULL)).

(** [rt_list_init(&(thread->tlist))] *)
Definition tlist_init (t : ptr) : K unit :=
  s ← get; if decide (Abs.linked t (tlists s)) then throw BadList else mret tt.

Definition rt_thread_exit : K unit :=
  thread ← rt_thread_self;
  rt_schedule_remove_thread thread;;
  upd_thread thread (set_th_stat RT_THREAD_CLOSE);;
  rt_timer_detach (TThread thread);;
  static ← rt_object_is_systemobject (OThread thread);
  th ← get_thread thread;
  (if static && (th_cleanup th =? RT_NULL) then rt_object_detach (OThread thread)
   else tlist_insert_after LDefunct thread);;
  rt_schedule.

(** The fill of the stack with '#' is not part of the state. *)
Definition _rt_thread_init (thread : ptr) (name : list Z) (entry parameter : Z)
    (stack_start stack_size priority tick : Z) : K Z :=
  tlist_init thread;;
  upd_thread thread (set_th_entry entry);;
  upd_thread thread (set_th_parameter parameter);;
  upd_thread thread (set_th_stack_addr stack_start);;
  upd_thread thread (set_th_stack_size (u16 stack_size));;
  th ← get_thread thread;
  let '(sp, _) := rt_hw_stack_init (th_entry th) (th_parameter th)
    (u32 (th_stack_addr th + th_stack_size th - 4)) rt_thread_exit_addr in
  upd_thread thread (set_th_sp sp);;
  RT_ASSERT (priority <? RT_THREAD_PRIORITY_MAX);;
  upd_thread thread (set_th_init_priority priority);;
  upd_thread thread (set_th_current_priority priority);;
  upd_thread thread (set_th_init_tick tick);;
  upd_thread thread (set_th_remaining_tick tick);;
  upd_thread thread (set_th_error RT_EOK);;
  upd_thread thread (set_th_stat RT_THREAD_INIT);;
  upd_thread thread (set_th_cleanup RT_NULL);;
  upd_thread thread (set_th_user_data 0);;
  rt_timer_init (TThread thread) name TF_thread_timeout thread 0 RT_TIMER_FLAG_ONE_SHOT;;
  mret RT_EOK.

Definition rt_thread_init (thread : ptr) (name : list Z) (entry parameter : Z)
    (stack_start stack_size priority tick : Z) : K Z :=
  nonnull thread;;
  nonnull stack_start;;
  modify (place (OThread thread));;
  rt_object_init (OThread thread) RT_Object_Class_Thread name;;
  _rt_thread_init thread name entry parameter stack_start stack_size priority tick.

(** [number], [number_mask] and [high_mask] from the current priority *)
Definition calc_priority (th : rt_thread) : rt_thread :=
  let p := th_current_priority th in
  if 32 <? RT_THREAD_PRIORITY_MAX then
    let th := set_th_number (Z.shiftr p 3) th in
    let th := set_th_number_mask (u32 (Z.shiftl 1 (th_number th))) th in
    set_th_high_mask (u8 (Z.shiftl 1 (Z.land p 0x07))) th
  else set_th_number_mask (u32 (Z.shiftl 1 p)) th.

Definition rt_thread_suspend (thread : ptr) : K Z :=
  nonnull thread;;
  th ← get_thread thread;
  if negb (th_stat th =? RT_THREAD_READY) then mret (- RT_ERROR)
  else
    upd_thread thread (set_th_stat RT_THREAD_SUSPEND);;
    rt_schedule_remove_thread thread;;
    rt_timer_stop (TThread thread);;
    mret RT_EOK.

Definition rt_thread_resume (thread : ptr) : K Z :=
  nonnull thread;;
  th ← get_thread thread;
  if negb (th_stat th =? RT_THREAD_SUSPEND) then mret (- RT_ERROR)
  else
    tlist_remove thread;;
    rt_timer_stop (TThread thread);;
    rt_schedule_insert_thread thread;;
    mret RT_EOK.

Definition rt_thread_startup (thread : ptr) : K Z :=
  nonnull thread;;
  th ← get_thread thread;
  RT_ASSERT (th_stat th =? RT_THREAD_INIT);;
  upd_thread thread (fun th => set_th_current_priority (th_init_priority th) th);;
  upd_thread thread calc_priority;;
  upd_thread thread (set_th_stat RT_THREAD_SUSPEND);;
  rt_thread_resume thread;;
  self ← rt_thread_self;
  when (negb (self =? RT_NULL)) rt_schedule;;
  mret RT_EOK.

Definition rt_thread_detach (thread : ptr) : K Z :=
  nonnull thread;;
  rt_schedule_remove_thread thread;;
  rt_timer_detach (TThread thread);;
  upd_thread thread (set_th_stat RT_THREAD_CLOSE);;
  rt_object_detach (OThread thread);;
  th ← get_thread thread;
  when (negb (th_cleanup th =? RT_NULL)) (tlist_insert_after LDefunct thread);;
  mret RT_EOK.

Definition rt_thread_create (name : list Z) (entry parameter stack_size priority tick : Z) : K ptr :=
  thread ← rt_object_allocate RT_Object_Class_Thread name;
  if thread =? RT_NULL then mret RT_NULL
  else
    stack_start ← kmalloc stack_size;
    if stack_start =? RT_NULL then rt_object_delete (OThread thread);; mret RT_NULL
    else
      _rt_thread_init thread name entry parameter stack_start stack_size priority tick;;
      mret thread.

Definition rt_thread_delete (thread : ptr) : K Z :=
  nonnull thread;;
  rt_schedule_remove_thread thread;;
  rt_timer_detach (TThread thread);;
  upd_thread thread (set_th_stat RT_THREAD_CLOSE);;
  tlist_insert_after LDefunct thread;;
  mret RT_EOK.

(** [thread->tlist.next != thread->tlist.prev]: some other thread is on the
    same list. *)
Definition tlist_shared (t : ptr) : K bool :=
  gets (fun s => bool_decide (map_Exists (fun _ l => t ∈ l /\ (2 <= length l)%nat) (tlists s))).

Definition rt_thread_yield : K Z :=
  thread ← rt_thread_self;
  th ← get_thread thread;
  shared ← tlist_shared thread;
  if (th_stat th =? RT_THREAD_READY) && shared then
    tlist_remove thread;;
    tlist_insert_before (LReady (th_current_priority th)) thread;;
    rt_schedule;;
    mret RT_EOK
  else mret RT_EOK.

Definition rt_thread_sleep (tick : Z) : K unit :=
  thread ← rt_thread_self;
  nonnull thread;;
  rt_thread_suspend thread;;
  rt_timer_control (TThread thread) RT_TIMER_CTRL_SET_TIME tick;;
  rt_timer_start (TThread thread);;
  rt_schedule.
Definition rt_thread_sleep_resume (thread : ptr) : K Z :=
  th ← get_thread thread;
  when (th_error th =? - RT_ETIMEOUT) (upd_thread thread (set_th_error RT_EOK));;
  mret RT_EOK.

Definition rt_thread_delay (tick : Z) : K unit := rt_thread_sleep tick.

Definition rt_thread_control (thread : ptr) (cmd : thread_ctrl) (arg : Z) : K Z :=
  nonnull thread;;
  match cmd with
  | RT_THREAD_CTRL_CHANGE_PRIORITY =>
      th ← get_thread thread;
      if th_stat th =? RT_THREAD_READY then
        rt_schedule_remove_thread thread;;
        upd_thread thread (set_th_current_priority (u8 arg));;
        upd_thread thread calc_priority;;
        rt_schedule_insert_thread thread;;
        mret RT_EOK
      else
        upd_thread thread (set_th_current_priority (u8 arg));;
        upd_thread thread calc_priority;;
        mret RT_EOK
  | RT_THREAD_CTRL_STARTUP => rt_thread_startup thread
  | RT_THREAD_CTRL_CLOSE => rt_thread_delete thread
  | RT_THREAD_CTRL_INFO => mret RT_EOK
  end.

Definition rt_thread_timeout (parameter : Z) : K unit :=
  let thread := parameter in
  nonnull thread;;
  th ← get_thread thread;
  RT_ASSERT (th_stat th =? RT_THREAD_SUSPEND);;
  upd_thread thread (set_th_error (- RT_ETIMEOUT));;
  tlist_remove thread;;
  rt_schedule_insert_thread thread;;
  rt_schedule.

Definition rt_thread_find (name : list Z) : K (option object_ref) :=
  self ← rt_thread_self;
  when (negb (self =? RT_NULL)) rt_enter_critical;;
  l ← gets (fun s => rt_object_container s !!! RT_Object_Class_Thread);
  r ← find_by_name (name ++ [0]) l;
  self ← rt_thread_self;
  when (negb (self =? RT_NULL)) rt_exit_critical;;
  mret r.

(** ** The error number (src/kservice.c) *)

Definition rt_get_errno : K Z :=
  s ← get;
  if negb (rt_interrupt_nest s =? 0) then mret (errno s)
  else if rt_current_thread s =? RT_NULL then mret (errno s)
  else th ← get_thread (rt_current_thread s); mret (th_error th).

Definition rt_set_errno (error : Z) : K unit :=
  s ← get;
  if negb (rt_interrupt_nest s =? 0) then modify (set_errno error)
  else if rt_current_thread s =? RT_NULL then modify (set_errno error)
  else upd_thread (rt_current_thread s) (set_th_error error).

(** ** Timeout functions of the system *)

(** [user] stands for the timeout functions of the application. *)
Definition call_timeout (user : Z -> Z -> K unit) (f : timeout_fn) (parameter : Z) : K unit :=
  match f with
  | TF_thread_timeout => rt_thread_timeout parameter
  | TF_user f => user f parameter
  end.

End thread.

Section thread_proofs.
Context `{KConfig} `{Allocator}.

(** ** The kernel invariant

    The ready table is right for every thread but those of [X]; the timer list is
    right, apart from stale flags of detached timers; every thread has its timer,
    and only suspended threads have theirs on the list. *)

Definition thread_timer_ok (t : ptr) (tm : rt_timer) : Prop :=
  tm_timeout_func tm = TF_thread_timeout /\ tm_parameter tm = t /\ 0 <= tm_flag tm /\
  has_flag RT_TIMER_FLAG_PERIODIC tm = false.

Record kinv (X : gset ptr) (s : kstate) : Prop := {
  ki_sched : sched_inv X s;
  ki_timer : exists D, timer_inv (rt_tick s) D s;
  ki_tt : forall t, is_Some (threads s !! t) ->
    exists tm, timers s !! TThread t = Some tm /\ thread_timer_ok t tm;
  ki_wait : forall t, TThread t ∈ last_row s ->
    exists th, threads s !! t = Some th /\ th_stat th = RT_THREAD_SUSPEND
}.

(** What a thread operation leaves alone: everything but the threads, the timers
    and the ready table; an operation that calls [rt_schedule()] may also change
    the running thread. *)
Record frame (s s' : kstate) : Prop := {
  fr_lock : rt_scheduler_lock_nest s' = rt_scheduler_lock_nest s;
  fr_nest : rt_interrupt_nest s' = rt_interrupt_nest s;
  fr_tick : rt_tick s' = rt_tick s;
  fr_errno : errno s' = errno s;
  fr_sems : sems s' = sems s;
  fr_mutexes : mutexes s' = mutexes s;
  fr_events : events s' = events s;
  fr_mailboxes : mailboxes s' = mailboxes s;
  fr_mqs : mqs s' = mqs s;
  fr_mempools : mempools s' = mempools s;
  fr_pool : pool_words s' = pool_words s;
  fr_devices : devices s' = devices s;
  fr_container : rt_object_container s' = rt_object_container s;
  fr_heap : kheap s' = kheap s
}.
Record frame0 (s s' : kstate) : Prop := {
  fr0_frame : frame s s';
  fr0_current : rt_current_thread s' = rt_current_thread s;
  fr0_priority : rt_current_priority s' = rt_current_priority s;
  fr0_switches : hw_switches s' = hw_switches s
}.

#[global] Instance frame_preorder : PreOrder frame.
Proof. split; [done|]. intros s1 s2 s3 [] []. split; congruence. Qed.
#[global] Instance frame0_preorder : PreOrder frame0.
Proof. split; [done|]. intros s1 s2 s3 [] []. split; [by etrans|congruence..]. Qed.
Lemma retabled_frame0 s s' : retabled s s' -> frame0 s s'.
Proof. intros ->. done. Qed.
Lemma retimed_frame0 s s' : retimed s s' -> frame0 s s'.
Proof. intros ->. done. Qed.

Lemma nonnull_ok (p : ptr) (Q : unit -> kstate -> Prop) s : p <> RT_NULL -> Q tt s -> wp (nonnull p) Q s.
Proof. intros Hp HQ. unfold nonnull. wp_step; [by apply negb_true_iff, Z.eqb_neq|done]. Qed.

Lemma timer_nonnull_thread t : t <> RT_NULL -> timer_nonnull (TThread t) = true.
Proof. intros Ht. unfold timer_nonnull. simpl. by apply negb_true_iff, Z.eqb_neq. Qed.

(** Stopping the timer of a thread, in any state of the thread. *)
Lemma stop_thread_timer X s t tm :
  kinv X s -> timers s !! TThread t = Some tm -> thread_timer_ok t tm ->
  kinv X (stopped (TThread t) tm s) /\ TThread t ∉ last_row (stopped (TThread t) tm s).
Proof.
  intros [Hs [D Ht] Htt Hw] E Hok.
  destruct (stopped_inv (rt_tick s) D s (TThread t) tm) as [Hi Hn];
    [eapply timer_inv_weaken; [done|set_solver]|].
  split; [|done]. split.
  - by apply (sched_inv_eq X s).
  - by exists D.
  - intros t' Ht'. simpl. destruct (decide (t' = t)) as [->|].
    + rewrite lookup_insert_eq. eexists. split; [done|]. destruct Hok as (? & ? & ? & Hp).
      split_and!; try done; unfold has_flag, clear_flag, tm_flag in *; simpl in *;
        [apply Z.land_nonneg; by left|].
      apply negb_false_iff, Z.eqb_eq. apply negb_false_iff, Z.eqb_eq in Hp.
      by rewrite <- Z.land_assoc, (Z.land_comm (Z.lnot _)), Z.land_assoc, Hp.
    + rewrite lookup_insert_ne by congruence. by apply Htt.
  - intros t'. change (last_row (stopped (TThread t) tm s)) with (last_row (removed_timer (TThread t) s)).
    rewrite (last_row_removed _ D) by done. rewrite elem_of_list_del. intros [_ Hin]. by apply Hw.
Qed.

Lemma last_row_eq s s' : rt_timer_list s' = rt_timer_list s -> last_row s' = last_row s.
Proof. intros E. unfold last_row. by rewrite E. Qed.

(** A step that leaves the timers alone. *)
Lemma kinv_step X Y s s' :
  kinv X s -> sched_inv Y s' -> timers s' = timers s -> rt_timer_list s' = rt_timer_list s ->
  rt_tick s' = rt_tick s ->
  (forall t, is_Some (threads s' !! t) -> is_Some (threads s !! t)) ->
  (forall t th, TThread t ∈ last_row s -> threads s !! t = Some th ->
     exists th', threads s' !! t = Some th' /\ (th_stat th = RT_THREAD_SUSPEND -> th_stat th' = RT_THREAD_SUSPEND)) ->
  kinv Y s'.
Proof.
  intros [Hs [D Ht] Htt Hw] Hs' Et Er Ek Hdom Hst. split; [done|..].
  - exists D. rewrite Ek. by eapply timer_inv_eq.
  - intros t Hd. rewrite Et. by apply Htt, Hdom.
  - intros t. rewrite (last_row_eq s) by done. intros Hin. destruct (Hw t Hin) as (th & E & Hth).
    destruct (Hst t th Hin E) as (th' & E' & Hth'). eauto.
Qed.

(** Its timer is off the list: the thread may leave the suspended state. *)
Lemma kinv_exempt X s t th th' :
  kinv X s -> threads s !! t = Some th ->
  th_stat th' = RT_THREAD_SUSPEND \/ TThread t ∉ last_row s ->
  kinv (X ∪ {[t]}) (set_threads (<[t := th']> (threads s)) s).
Proof.
  intros Hk E Hth'. eapply kinv_step; [done|eapply exempt_upd; [apply Hk|done]|done|done|done| |]; simpl.
  - intros t' [? [[<- _]|[_ ?]]%lookup_insert_Some]; eauto.
  - intros t' th1 Hin E1. destruct (decide (t = t')) as [<-|]; [|rewrite lookup_insert_ne by done; eauto].
    rewrite lookup_insert_eq. destruct Hth'; [eauto|done].
Qed.

Lemma kinv_readmit X s t th :
  kinv (X ∪ {[t]}) s -> threads s !! t = Some th -> thread_ok s t th -> kinv X s.
Proof. intros [Hs Ht Htt Hw] E Hok. split; try done. by eapply readmit. Qed.

Lemma kinv_weaken X Y s : kinv X s -> X ⊆ Y -> kinv Y s.
Proof. intros [? ? ? ?] Hsub. split; try done. by eapply sched_inv_weaken. Qed.

Lemma kinv_thread X s t th : kinv X s -> t ∉ X -> threads s !! t = Some th -> thread_ok s t th.
Proof. intros [Hs _ _ _] HX E. by apply (si_thread _ _ Hs). Qed.

Lemma kinv_timer X s t th :
  kinv X s -> threads s !! t = Some th ->
  exists tm, timers s !! TThread t = Some tm /\ thread_timer_ok t tm.
Proof. intros Hk E. apply (ki_tt _ _ Hk). eauto. Qed.

(** An assignment to another attribute of a thread ([error], [event_set], ...) *)
Definition same_sched (th th' : rt_thread) : Prop :=
  th_stat th' = th_stat th /\ th_current_priority th' = th_current_priority th /\
  th_init_priority th' = th_init_priority th /\ th_number th' = th_number th /\
  th_high_mask th' = th_high_mask th /\ th_number_mask th' = th_number_mask th /\
  stack_ok th' = stack_ok th.

Lemma kinv_retouch X s t th th' :
  kinv X s -> threads s !! t = Some th -> same_sched th th' ->
  kinv X (set_threads (<[t := th']> (threads s)) s).
Proof.
  intros Hk E (E1 & E2 & E3 & E4 & E5 & E6 & E7). pose proof (ki_sched _ _ Hk) as [Hwf Hbm Hex Hth].
  eapply kinv_step; [exact Hk| |done|done|done| |]; simpl.
  - split; [done|by apply (bitmap_ok_ext s)|..]; simpl.
    + intros l u Hin. destruct (decide (t = u)) as [<-|]; [rewrite lookup_insert_eq; eauto|].
      rewrite lookup_insert_ne by done. by eapply Hex.
    + intros u thu HX [[<- <-]|[Hne Eu]]%lookup_insert_Some; [|by apply (thread_ok_ext s); [|apply Hth]].
      destruct (Hth t th HX E) as [C1 C2 C3 C4 C5 C6 C7]. split; [done|by rewrite E2|by rewrite E3| |by rewrite E7| |].
      * rewrite E1. unfold masks_ok. rewrite E2, E4, E5, E6. exact C4.
      * intros l Hl. specialize (C6 l Hl). destruct l; simpl in *; by rewrite E1, ?E2.
      * rewrite E1, E2. exact C7.
  - intros u [? [[<- _]|[_ ?]]%lookup_insert_Some]; eauto.
  - intros u thu Hin Eu. destruct (decide (t = u)) as [<-|]; [|rewrite lookup_insert_ne by done; eauto].
    rewrite lookup_insert_eq. assert (thu = th) as -> by congruence. exists th'. split; [done|]. by rewrite E1.
Qed.

(** ** Suspend and resume *)

Lemma rt_thread_suspend_spec X s t th :
  kinv X s -> t ∉ X -> threads s !! t = Some th -> th_stat th = RT_THREAD_READY ->
  wp (rt_thread_suspend t) (fun e s' => e = RT_EOK /\ kinv X s' /\ frame0 s s' /\
    threads s' = <[t := set_th_stat RT_THREAD_SUSPEND th]> (threads s) /\
    tlists s' = Abs.remove t (tlists s) /\ TThread t ∉ last_row s') s.
Proof.
  intros Hk HX E Hst. destruct (kinv_thread _ _ _ _ Hk HX E) as [C1 C2 C3 C4 C5 C6 C7].
  assert (masks_ok th) as Hm by (apply C4; by rewrite Hst).
  unfold rt_thread_suspend. wp_step. apply nonnull_ok; [done|]. wp_step. eapply wp_get_thread; [done|].
  rewrite Hst. simpl. wp_step. eapply wp_upd_thread; [done|].
  pose proof (kinv_exempt _ _ _ _ (set_th_stat RT_THREAD_SUSPEND th) Hk E ltac:(by left)) as Hk1.
  set (s1 := set_threads _ s) in *. wp_step.
  eapply wp_mono; [apply (rt_schedule_remove_thread_spec (X ∪ {[t]}) s1 t (set_th_stat RT_THREAD_SUSPEND th))|].
  { apply Hk1. } { apply lookup_insert_eq. } { done. } { exact C2. } { exact Hm. }
  { intros q Hq. apply (ready_at X s t th); [apply Hk|done|done|done]. }
  intros ? s2 (Hs2 & Etl & Hrt).
  assert (threads s2 = threads s1) as Eth by (by rewrite Hrt).
  assert (kinv (X ∪ {[t]}) s2) as Hk2.
  { eapply kinv_step; [exact Hk1|eapply sched_inv_weaken; [done|set_solver]|by rewrite Hrt|by rewrite Hrt|by rewrite Hrt| |].
    - intros t'. by rewrite Eth.
    - intros t' th' _. rewrite Eth. eauto. }
  assert (threads s2 !! t = Some (set_th_stat RT_THREAD_SUSPEND th)) as E2.
  { rewrite Eth. apply lookup_insert_eq. }
  destruct (kinv_timer _ _ _ _ Hk2 E2) as (tm & Etm & Htm). destruct (ki_timer _ _ Hk2) as [D HD].
  wp_step. eapply wp_mono; [eapply (rt_timer_stop_spec _ D s2 _ tm); [done|by apply timer_nonnull_thread|done]|].
  intros e s3 ->. wp_step. destruct (stop_thread_timer _ _ _ _ Hk2 Etm Htm) as [Hk3 Hn3].
  split_and!; [done| | |exact Eth|exact Etl|done].
  - eapply kinv_readmit; [done|exact E2|]. apply unlinked_ok; try done. simpl. rewrite Etl. apply not_linked_removed.
  - etrans; [|by apply (retimed_frame0 s2)]. etrans; [|by apply retabled_frame0]. done.
Qed.

(** ** Resume *)

Definition resumed_threads (t : ptr) (th : rt_thread) (s : kstate) : gmap ptr rt_thread :=
  <[t := set_th_stat RT_THREAD_READY th]> (threads s).
Definition resumed_lists (t : ptr) (th : rt_thread) (s : kstate) : gmap list_id (list ptr) :=
  Abs.insert_back (LReady (th_current_priority th)) t (Abs.remove t (tlists s)).

(** Taking a suspended thread from where it waits and making it ready *)
Lemma make_ready X s t th (Q : unit -> kstate -> Prop) :
  kinv (X ∪ {[t]}) s -> threads s !! t = Some th -> ~ Abs.linked t (tlists s) -> TThread t ∉ last_row s ->
  t <> RT_NULL -> prio_ok (th_current_priority th) -> prio_ok (th_init_priority th) ->
  masks_ok th -> stack_ok th = true ->
  (forall s', kinv X s' -> frame0 s s' -> threads s' = resumed_threads t th s ->
    tlists s' = Abs.insert_back (LReady (th_current_priority th)) t (tlists s) ->
    timers s' = timers s -> rt_timer_list s' = rt_timer_list s -> Q tt s') ->
  wp (rt_schedule_insert_thread t) Q s.
Proof.
  intros Hk E Hl Hn Ht Hp Hip Hm Hst HQ. eapply ok_wp; [apply rt_schedule_insert_thread_run; try done; apply Hk|].
  apply HQ; try done. eapply kinv_step; [exact Hk| |done|done|done| |]; simpl.
  - apply inserted_inv; [apply Hk|done..].
  - intros t' [? [[<- _]|[_ ?]]%lookup_insert_Some]; eauto.
  - intros t' th' Hin E'. rewrite lookup_insert_ne by (by intros <-). eauto.
Qed.

Lemma rt_thread_resume_spec X s t th :
  kinv X s -> t ∉ X -> threads s !! t = Some th -> th_stat th = RT_THREAD_SUSPEND ->
  wp (rt_thread_resume t) (fun e s' => e = RT_EOK /\ kinv X s' /\ frame0 s s' /\
    threads s' = resumed_threads t th s /\ tlists s' = resumed_lists t th s /\
    TThread t ∉ last_row s') s.
Proof.
  intros Hk HX E Hst. destruct (kinv_thread _ _ _ _ Hk HX E) as [C1 C2 C3 C4 C5 C6 C7].
  assert (masks_ok th) as Hm by (apply C4; by rewrite Hst).
  unfold rt_thread_resume. wp_step. apply nonnull_ok; [done|]. wp_step. eapply wp_get_thread; [done|].
  rewrite Hst. simpl. wp_step. unfold tlist_remove, upd_tlists. wp_step.
  set (s1 := set_tlists _ s).
  assert (kinv (X ∪ {[t]}) s1) as Hk1.
  { eapply kinv_step; [exact Hk|apply unwait_inv; [apply Hk|]|done|done|done|done|eauto].
    eapply (not_ready_list X); [apply Hk|done|done|by rewrite Hst]. }
  destruct (kinv_timer _ _ _ _ Hk1 E) as (tm & Etm & Htm). destruct (ki_timer _ _ Hk1) as [D HD].
  wp_step. eapply wp_mono; [eapply (rt_timer_stop_spec _ D s1 _ tm); [done|by apply timer_nonnull_thread|done]|].
  intros e s2 ->. destruct (stop_thread_timer _ _ _ _ Hk1 Etm Htm) as [Hk2 Hn2].
  wp_step. eapply (make_ready X _ t th); try done; [apply not_linked_removed|].
  intros s' Hk' Hfr Eth Etl Etm' Er. wp_step. split_and!; [done|done| |done|done|].
  - etrans; [|exact Hfr]. done.
  - by rewrite (last_row_eq _ _ Er).
Qed.

Lemma rt_thread_suspend_error s t th :
  t <> RT_NULL -> threads s !! t = Some th -> th_stat th <> RT_THREAD_READY ->
  rt_thread_suspend t s = Ok (- RT_ERROR) s.
Proof.
  intros Ht E Hst. apply Z.eqb_neq in Ht, Hst. unfold rt_thread_suspend, nonnull, get_thread, mbind, M_bind, get.
  rewrite Ht. simpl. rewrite E. simpl. by rewrite Hst.
Qed.

Lemma rt_thread_resume_error s t th :
  t <> RT_NULL -> threads s !! t = Some th -> th_stat th <> RT_THREAD_SUSPEND ->
  rt_thread_resume t s = Ok (- RT_ERROR) s.
Proof.
  intros Ht E Hst. apply Z.eqb_neq in Ht, Hst. unfold rt_thread_resume, nonnull, get_thread, mbind, M_bind, get.
  rewrite Ht. simpl. rewrite E. simpl. by rewrite Hst.
Qed.

(** ** Scheduling *)

Lemma rt_schedule_kinv s (Q : unit -> kstate -> Prop) :
  kinv ∅ s -> (exists p, ready s p <> []) ->
  (forall s', kinv ∅ s' -> frame s s' -> threads s' = threads s -> tlists s' = tlists s ->
     timers s' = timers s -> rt_timer_list s' = rt_timer_list s ->
     (rt_scheduler_lock_nest s = 0 -> next_thread s' (rt_current_thread s')) -> Q tt s') ->
  wp rt_schedule Q s.
Proof.
  intros Hk Hex HQ. eapply wp_mono; [apply (rt_schedule_inv s (ki_sched _ _ Hk) Hex)|].
  intros [] s' (Hs' & Hre & Hnext).
  assert (frame s s' /\ threads s' = threads s /\ tlists s' = tlists s /\ timers s' = timers s /\
    rt_timer_list s' = rt_timer_list s) as (Hf & E1 & E2 & E3 & E4) by (by destruct Hre as [->|(t & p & ->)]).
  apply HQ; try done. eapply kinv_step; [exact Hk|done|done|done|apply Hf|..]; rewrite E1; eauto.
Qed.

(** A thread made ready makes the ready table non-empty. *)
Lemma ready_nonempty s t p : t ∈ ready s p -> exists p, ready s p <> [].
Proof. intros Hin. exists p. intros E. rewrite E in Hin. by apply elem_of_nil in Hin. Qed.

Lemma insert_back_ready s t p st :
  tlists s = Abs.insert_back (LReady p) t st -> exists p, ready s p <> [].
Proof.
  intros E. apply (ready_nonempty s t p). unfold ready. rewrite E, lookup_insert_back, decide_True by done.
  apply elem_of_app. right. by apply list_elem_of_singleton.
Qed.

(** ** Priorities *)

Lemma calc_priority_ok th : prio_ok (th_current_priority th) -> masks_ok (calc_priority th).
Proof.
  unfold masks_ok, calc_priority, prio_ok. intros Hp. pose proof prio_max_range.
  assert (forall n, 0 <= n < 32 -> u32 (Z.shiftl 1 n) = Z.shiftl 1 n) as Hu.
  { intros n Hn. apply uwrap_small. rewrite Z.shiftl_mul_pow2, Z.mul_1_l by lia.
    split; [lia|]. apply Z.pow_lt_mono_r; lia. }
  destruct (Z.leb_spec RT_THREAD_PRIORITY_MAX 32).
  - replace (32 <? RT_THREAD_PRIORITY_MAX) with false by lia. simpl. apply Hu. lia.
  - replace (32 <? RT_THREAD_PRIORITY_MAX) with true by lia. simpl. split; [done|].
    assert (0 <= Z.shiftr (th_current_priority th) 3 < 32).
    { rewrite Z.shiftr_div_pow2 by lia. split; [apply Z.div_pos|apply Z.div_lt_upper_bound]; lia. }
    split; [by apply Hu|]. apply uwrap_small.
    change 7 with (Z.ones 3). rewrite Z.land_ones by lia. pose proof (Z.mod_pos_bound (th_current_priority th) (2 ^ 3) ltac:(lia)).
    rewrite Z.shiftl_mul_pow2, Z.mul_1_l by lia. split; [lia|]. apply Z.pow_lt_mono_r; lia.
Qed.

Lemma calc_priority_fields th :
  th_current_priority (calc_priority th) = th_current_priority th /\
  th_init_priority (calc_priority th) = th_init_priority th /\
  th_stat (calc_priority th) = th_stat th /\ stack_ok (calc_priority th) = stack_ok th /\
  th_error (calc_priority th) = th_error th.
Proof. unfold calc_priority. by destruct (32 <? RT_THREAD_PRIORITY_MAX). Qed.

(** The thread [rt_thread_startup] makes ready *)
Definition at_init_priority (th : rt_thread) : rt_thread :=
  calc_priority (set_th_current_priority (th_init_priority th) th).

Lemma rt_thread_startup_spec s t th :
  kinv ∅ s -> threads s !! t = Some th -> th_stat th = RT_THREAD_INIT -> ~ Abs.linked t (tlists s) ->
  TThread t ∉ last_row s ->
  wp (rt_thread_startup t) (fun e s' => e = RT_EOK /\ kinv ∅ s' /\ frame s s' /\
    threads s' = <[t := set_th_stat RT_THREAD_READY (at_init_priority th)]> (threads s) /\
    tlists s' = Abs.insert_back (LReady (th_init_priority th)) t (tlists s) /\
    (rt_current_thread s = RT_NULL -> rt_current_thread s' = RT_NULL) /\
    (rt_current_thread s <> RT_NULL -> rt_scheduler_lock_nest s = 0 ->
       next_thread s' (rt_current_thread s'))) s.
Proof.
  intros Hk E Hst Hl Hn. destruct (kinv_thread _ _ _ _ Hk (not_elem_of_empty t) E) as [C1 C2 C3 _ C5 _ _].
  unfold rt_thread_startup. wp_step. apply nonnull_ok; [done|]. wp_step. eapply wp_get_thread; [done|].
  wp_step. wp_step; [by rewrite Hst|]. wp_step. eapply wp_upd_thread; [done|]. wp_step.
  eapply wp_upd_thread; [apply lookup_insert_eq|]. wp_step. eapply wp_upd_thread; [apply lookup_insert_eq|].
  simpl. kset. fold (at_init_priority th).
  set (th1 := set_th_stat RT_THREAD_SUSPEND (at_init_priority th)). set (s1 := set_threads _ s).
  destruct (calc_priority_fields (set_th_current_priority (th_init_priority th) th)) as (F1 & F2 & _ & F4 & _).
  fold (at_init_priority th) in *. simpl in F1, F2.
  assert (kinv ∅ s1) as Hk1.
  { eapply kinv_readmit; [eapply (kinv_exempt ∅ s t th th1); [done|done|by left]|apply lookup_insert_eq|].
    apply unlinked_ok; try done; simpl; [by rewrite F1|by rewrite F2|intros _|].
    2: { change (stack_ok (at_init_priority th) = true). rewrite F4. exact C5. }
    exact (calc_priority_ok (set_th_current_priority (th_init_priority th) th) C3). }
  wp_step. eapply wp_mono; [apply (rt_thread_resume_spec ∅ s1 t th1); [done|set_solver|apply lookup_insert_eq|done]|].
  intros e s2 (-> & Hk2 & Hfr & Eth & Etl & _).
  assert (threads s2 = <[t := set_th_stat RT_THREAD_READY (at_init_priority th)]> (threads s)) as Eth2.
  { rewrite Eth. unfold resumed_threads. simpl. by rewrite insert_insert_eq. }
  assert (tlists s2 = Abs.insert_back (LReady (th_init_priority th)) t (tlists s)) as Etl2.
  { rewrite Etl. unfold resumed_lists. simpl. rewrite F1. by rewrite Abs.remove_unlinked. }
  assert (frame s s2) as Hf2 by (etrans; [|apply Hfr]; done).
  wp_step. unfold rt_thread_self. wp_step. wp_step. rewrite (fr0_current _ _ Hfr). simpl.
  apply wp_when; intros Hc.
  - apply rt_schedule_kinv; [done|by eapply insert_back_ready|].
    intros s3 Hk3 Hf3 E3 E3' _ _ Hnext. wp_step. apply negb_true_iff, Z.eqb_neq in Hc.
    split_and!; [done|done|by etrans|congruence|congruence|done|].
    intros _ Hlk. apply Hnext. by rewrite (fr_lock _ _ Hf2).
  - wp_step. apply negb_false_iff, Z.eqb_eq in Hc. split_and!; try done.
    intros _. by rewrite (fr0_current _ _ Hfr).
Qed.

(** ** The timeout of a waiting thread

    It runs inside [rt_timer_check], so it is stated for the scheduler part of the
    invariant: the timers are in the middle of a change. *)

Definition timed_out (th : rt_thread) : rt_thread :=
  set_th_stat RT_THREAD_READY (set_th_error (- RT_ETIMEOUT) th).

Lemma rt_thread_timeout_spec s t th :
  sched_inv ∅ s -> threads s !! t = Some th -> th_stat th = RT_THREAD_SUSPEND ->
  wp (rt_thread_timeout t) (fun _ s' => sched_inv ∅ s' /\ frame s s' /\
    threads s' = <[t := timed_out th]> (threads s) /\ tlists s' = resumed_lists t th s /\
    timers s' = timers s /\ rt_timer_list s' = rt_timer_list s /\
    (rt_scheduler_lock_nest s = 0 -> next_thread s' (rt_current_thread s'))) s.
Proof.
  intros Hs E Hst. destruct (si_thread _ _ Hs t th (not_elem_of_empty t) E) as [C1 C2 C3 C4 C5 C6 C7].
  assert (masks_ok th) as Hm by (apply C4; by rewrite Hst).
  unfold rt_thread_timeout. wp_step. apply nonnull_ok; [done|]. wp_step. eapply wp_get_thread; [done|].
  wp_step. wp_step; [by rewrite Hst|]. wp_step. eapply wp_upd_thread; [done|]. wp_step.
  unfold tlist_remove, upd_tlists. wp_step. set (th1 := set_th_error _ th). set (s1 := set_tlists _ _).
  assert (sched_inv (∅ ∪ {[t]}) s1) as Hs1.
  { eapply sched_inv_weaken; [apply unwait_inv; [eapply exempt_upd; [done|done]|]|set_solver].
    intros p. change (t ∉ ready s p). eapply not_ready_list; [done| |done|by rewrite Hst]. set_solver. }
  wp_step. eapply ok_wp; [apply (rt_schedule_insert_thread_run s1 t th1); [done|apply lookup_insert_eq|apply not_linked_removed|apply Hs1|done|done]|].
  set (s2 := inserted t th1 s1).
  assert (sched_inv ∅ s2) as Hs2.
  { apply inserted_inv; try done; [apply lookup_insert_eq|apply not_linked_removed]. }
  eapply wp_mono; [apply (rt_schedule_inv s2 Hs2)|].
  { by apply (insert_back_ready s2 t (th_current_priority th) (Abs.remove t (tlists s))). }
  intros ? s3 (Hs3 & Hre & Hnx).
  assert (frame s s2 /\ threads s2 = <[t := timed_out th]> (threads s)) as [Hf Eth].
  { split; [done|]. simpl. by rewrite insert_insert_eq. }
  destruct Hre as [->|(t' & p & ->)]; by split_and!.
Qed.

(** ** The timer of a waiting thread *)

Lemma arm_thread_timer X s t th time (Q : Z -> kstate -> Prop) :
  kinv X s -> threads s !! t = Some th -> th_stat th = RT_THREAD_SUSPEND -> t <> RT_NULL ->
  0 <= time < HALF_TICK ->
  (forall s' tm, kinv X s' -> frame0 s s' -> threads s' = threads s -> tlists s' = tlists s ->
     timers s' !! TThread t = Some tm -> tm_timeout_tick tm = u32 (rt_tick s + time) ->
     TThread t ∈ last_row s' -> Q RT_EOK s') ->
  wp (rt_timer_control (TThread t) RT_TIMER_CTRL_SET_TIME time;; rt_timer_start (TThread t)) Q s.
Proof.
  intros Hk E Hst Ht Htime HQ. destruct (kinv_timer _ _ _ _ Hk E) as (tm & Etm & Hf & Hpar & Hfl & Hper).
  destruct (ki_timer _ _ Hk) as [D HD]. pose proof (timer_nonnull_thread t Ht) as Hnn.
  wp_step. unfold rt_timer_control. wp_step. wp_step; [done|]. wp_step. eapply wp_upd_timer; [done|]. wp_step.
  set (tm1 := set_tm_init_tick time tm). set (s1 := set_timers _ s).
  assert (timer_inv (rt_tick s) D s1) as HD1 by (by eapply retouch_timer_inv).
  eapply wp_mono; [apply (rt_timer_start_spec (rt_tick s) D s1 (TThread t) tm1); try done|].
  - apply lookup_insert_eq.
  - simpl. lia.
  - simpl. rewrite offset_add; unfold HALF_TICK, RT_TICK_MAX in *; change (0xffffffff / 2) with 0x7fffffff in *; lia.
  - intros e s2 [-> (Hi & Hrt & Etm2 & Elast & Hoff)].
    assert (threads s2 = threads s) as Eth by (by rewrite Hrt).
    assert (rt_tick s2 = rt_tick s) as Etk by (by rewrite Hrt).
    assert (forall r, r ∈ last_row s2 <-> r = TThread t \/ r <> TThread t /\ r ∈ last_row s) as Hin.
    { intros r. rewrite Elast, elem_ordered_insert, elem_of_list_del. done. }
    apply (HQ s2 (started s1 tm1)); [|by rewrite Hrt|done|by rewrite Hrt|by rewrite Etm2, lookup_insert_eq|done|by apply Hin; left].
    split.
    + apply (sched_inv_eq X s); [|apply Hk]. by rewrite Hrt.
    + exists D. by rewrite Etk.
    + intros t' Ht'. rewrite Eth in Ht'. rewrite Etm2. simpl. destruct (decide (t' = t)) as [->|].
      * rewrite lookup_insert_eq. eexists. split; [done|]. split_and!; try done.
        -- unfold started, timed, set_flag, clear_flag, tm_flag. simpl.
           apply Z.lor_nonneg. split; [apply Z.land_nonneg; by left|done].
        -- unfold has_flag, started, timed, set_flag, clear_flag, tm_flag in *. simpl in *.
           apply negb_false_iff, Z.eqb_eq in Hper. apply negb_false_iff, Z.eqb_eq.
           rewrite Z.land_lor_distr_l, <- Z.land_assoc, (Z.land_comm (Z.lnot _)), Z.land_assoc.
           by rewrite Hper.
      * rewrite !lookup_insert_ne by congruence. by apply (ki_tt _ _ Hk).
    + intros t' Ht'. rewrite Eth. apply Hin in Ht' as [E'|[_ ?]]; [simplify_eq; eauto|by apply (ki_wait _ _ Hk)].
Qed.

(** ** Yield *)

(** With another thread ready at its priority the running thread goes behind it;
    otherwise nothing changes. *)
Lemma rt_thread_yield_sched s t th :
  sched_inv ∅ s -> rt_current_thread s = t -> threads s !! t = Some th -> th_stat th = RT_THREAD_READY ->
  let p := th_current_priority th in
  wp rt_thread_yield (fun e s' => e = RT_EOK /\ sched_inv ∅ s' /\ frame s s' /\ threads s' = threads s /\
    timers s' = timers s /\ rt_timer_list s' = rt_timer_list s /\
    (ready s p = [t] /\ s' = s \/
     ready s' p = list_del t (ready s p) ++ [t] /\ (2 <= length (ready s p))%nat /\
     (forall l, l <> LReady p -> tlists s' !!! l = tlists s !!! l) /\
     (rt_scheduler_lock_nest s = 0 -> next_thread s' (rt_current_thread s')))) s.
Proof.
  intros Hs Hc E Hst p.
  destruct (si_thread _ _ Hs t th (not_elem_of_empty t) E) as [C1 C2 C3 C4 C5 C6 C7].
  specialize (C7 Hst). fold p in C7.
  unfold rt_thread_yield. wp_step. unfold rt_thread_self. wp_step. rewrite Hc. wp_step.
  eapply wp_get_thread; [done|]. wp_step. unfold tlist_shared. wp_step. rewrite Hst. simpl.
  case_bool_decide as Hsh.
  - destruct Hsh as (l & ls & El & Hin & Hlen).
    assert (l = LReady p) as ->.
    { apply (Abs.wf_disj _ (si_wf _ _ Hs) _ _ t); [|done]. by rewrite (lookup_total_correct _ _ _ El). }
    assert (ready s p = ls) as Els by (unfold ready; by rewrite (lookup_total_correct _ _ _ El)).
    wp_step. unfold tlist_remove, upd_tlists. wp_step. wp_step.
    apply wp_tlist_insert; [apply not_linked_removed|]. simpl. kset. fold p.
    change (set_tlists _ s) with (rotated t p s).
    assert (sched_inv ∅ (rotated t p s)) as Hs1 by (by apply rotated_inv).
    pose proof (fun q => ready_rotated s t p q (si_wf _ _ Hs) C7) as Hr.
    wp_step. eapply wp_mono; [apply (rt_schedule_inv _ Hs1)|].
    { exists p. rewrite Hr, decide_True by done. by destruct (list_del _ _). }
    intros ? s' (Hs' & Hre & Hnext). wp_step.
    assert (frame s s' /\ threads s' = threads s /\ timers s' = timers s /\ rt_timer_list s' = rt_timer_list s /\
      tlists s' = tlists (rotated t p s)) as (Hf & E1 & E2 & E3 & Hr').
    { by destruct Hre as [->|(t' & q & ->)]; split_and!. }
    split_and!; try done. right. split_and!; [|by rewrite Els| |done].
    + change (tlists s' !!! LReady p = list_del t (ready s p) ++ [t]). rewrite Hr'.
      etransitivity; [apply Hr|]. by rewrite decide_True.
    + intros l Hl. rewrite Hr'. apply rotated_other; [apply Hs|exact C7|done].
  - wp_step. split_and!; try done. left. split; [|done].
    destruct (ready s p) as [|a [|b l]] eqn:El; [by apply elem_of_nil in C7|..].
    + by apply list_elem_of_singleton in C7 as ->.
    + exfalso. apply Hsh. unfold ready in El. rewrite lookup_total_alt in El.
      destruct (tlists s !! LReady p) as [l'|] eqn:E'; [|done]. simpl in El. subst l'.
      exists (LReady p). eexists. split; [done|]. split; [done|simpl; lia].
Qed.

Lemma rt_thread_yield_spec s t th :
  kinv ∅ s -> rt_current_thread s = t -> threads s !! t = Some th -> th_stat th = RT_THREAD_READY ->
  let p := th_current_priority th in
  wp rt_thread_yield (fun e s' => e = RT_EOK /\ kinv ∅ s' /\ frame s s' /\ threads s' = threads s /\
    timers s' = timers s /\ rt_timer_list s' = rt_timer_list s /\
    (ready s p = [t] /\ s' = s \/
     ready s' p = list_del t (ready s p) ++ [t] /\ (2 <= length (ready s p))%nat /\
     (forall l, l <> LReady p -> tlists s' !!! l = tlists s !!! l) /\
     (rt_scheduler_lock_nest s = 0 -> next_thread s' (rt_current_thread s')))) s.
Proof.
  intros Hk Hc E Hst p. eapply wp_mono; [by apply (rt_thread_yield_sched s t th); [apply Hk|..]|].
  intros e s' (He & Hs' & Hf & Eth & Etm & Er & Hr). split_and!; try done.
  eapply kinv_step; [exact Hk|done|done|done|apply Hf|..]; rewrite Eth; eauto.
Qed.

(** ** Sleep *)

(** Thread [t] is running, outside interrupts. *)
Record running (s : kstate) (t : ptr) (th : rt_thread) : Prop := {
  run_current : rt_current_thread s = t;
  run_thread : threads s !! t = Some th;
  run_ready : th_stat th = RT_THREAD_READY;
  run_nest : rt_interrupt_nest s = 0;
  run_nonnull : t <> RT_NULL
}.

Lemma in_thread_context s t th (Q : unit -> kstate -> Prop) :
  running s t th -> Q tt s -> wp RT_DEBUG_IN_THREAD_CONTEXT Q s.
Proof.
  intros [Ec _ _ En Hnn] HQ. unfold RT_DEBUG_IN_THREAD_CONTEXT, RT_DEBUG_NOT_IN_INTERRUPT.
  do 3 wp_step. wp_step; [rewrite Ec; lia|]. do 2 wp_step. wp_step; [lia|done].
Qed.

(** Some other thread is ready: the idle thread, in a running system. *)
Definition other_ready (s : kstate) (t : ptr) : Prop := exists q u, u <> t /\ u ∈ ready s q.

Lemma other_ready_removed s s' t :
  other_ready s t -> tlists s' = Abs.remove t (tlists s) -> exists p, ready s' p <> [].
Proof.
  intros (q & u & Hu & Hin) E. apply (ready_nonempty s' u q). unfold ready.
  rewrite E, Abs.lookup_remove, elem_of_list_del. done.
Qed.

Lemma rt_thread_sleep_spec s t th tick :
  kinv ∅ s -> rt_current_thread s = t -> threads s !! t = Some th -> th_stat th = RT_THREAD_READY ->
  other_ready s t -> 0 <= tick < HALF_TICK ->
  wp (rt_thread_sleep tick) (fun _ s' => kinv ∅ s' /\ frame s s' /\
    threads s' = <[t := set_th_stat RT_THREAD_SUSPEND th]> (threads s) /\
    tlists s' = Abs.remove t (tlists s) /\ TThread t ∈ last_row s' /\
    (exists tm, timers s' !! TThread t = Some tm /\ tm_timeout_tick tm = u32 (rt_tick s + tick)) /\
    (rt_scheduler_lock_nest s = 0 -> next_thread s' (rt_current_thread s'))) s.
Proof.
  intros Hk Hc E Hst Hoth Htick.
  destruct (kinv_thread _ _ _ _ Hk (not_elem_of_empty t) E) as [C1 _ _ _ _ _ _].
  unfold rt_thread_sleep. wp_step. unfold rt_thread_self. wp_step. rewrite Hc. wp_step.
  apply nonnull_ok; [done|]. wp_step.
  eapply wp_mono; [apply (rt_thread_suspend_spec ∅ s t th); [done|apply not_elem_of_empty|done|done]|].
  intros e s1 (_ & Hk1 & Hf1 & Eth1 & Etl1 & _).
  assert (threads s1 !! t = Some (set_th_stat RT_THREAD_SUSPEND th)) as E1 by (rewrite Eth1; apply lookup_insert_eq).
  apply wp_bind_assoc. wp_step. eapply arm_thread_timer; [exact Hk1|exact E1|done|done|done|].
  intros s2 tm Hk2 Hf2 Eth2 Etl2 Etm Htm Hin.
  apply rt_schedule_kinv; [done| |].
  { apply (other_ready_removed s _ t); [done|]. by rewrite Etl2. }
  intros s3 Hk3 Hf3 Eth3 Etl3 Etm3 Er3 Hnext. pose proof (fr0_frame _ _ Hf1) as F1. pose proof (fr0_frame _ _ Hf2) as F2.
  split_and!; [done|by etrans; [exact F1|etrans; [exact F2|exact Hf3]]|congruence|congruence| | |].
  - by rewrite (last_row_eq _ _ Er3).
  - exists tm. rewrite Etm3, Htm, (fr_tick _ _ F1). done.
  - intros Hl. apply Hnext. by rewrite (fr_lock _ _ F2), (fr_lock _ _ F1).
Qed.

(** ** Changing the priority *)

Lemma rt_thread_change_priority_spec s t th prio :
  kinv ∅ s -> threads s !! t = Some th -> prio_ok prio ->
  let th' := calc_priority (set_th_current_priority prio th) in
  wp (rt_thread_control t RT_THREAD_CTRL_CHANGE_PRIORITY prio) (fun e s' => e = RT_EOK /\
    kinv ∅ s' /\ frame0 s s' /\ threads s' = <[t := th']> (threads s) /\
    timers s' = timers s /\ rt_timer_list s' = rt_timer_list s /\
    tlists s' = (if th_stat th =? RT_THREAD_READY
                 then Abs.insert_back (LReady prio) t (Abs.remove t (tlists s)) else tlists s)) s.
Proof.
  intros Hk E Hp th'. destruct (kinv_thread _ _ _ _ Hk (not_elem_of_empty t) E) as [C1 C2 C3 C4 C5 C6 C7].
  destruct (calc_priority_fields (set_th_current_priority prio th)) as (F1 & F2 & F3 & F4 & _). fold th' in F1, F2, F3, F4.
  simpl in F1, F2, F3. change (stack_ok (set_th_current_priority prio th)) with (stack_ok th) in F4.
  pose proof (calc_priority_ok (set_th_current_priority prio th) Hp) as Hm'. fold th' in Hm'.
  assert (u8 prio = prio) as Eu. { pose proof prio_max_range. unfold prio_ok in Hp. apply uwrap_small. lia. }
  unfold rt_thread_control. wp_step. apply nonnull_ok; [done|]. wp_step. eapply wp_get_thread; [done|]. rewrite Eu.
  destruct (Z.eqb_spec (th_stat th) RT_THREAD_READY) as [Hst|Hst].
  - wp_step. eapply wp_mono; [apply (rt_schedule_remove_thread_spec ∅ s t th); try done|].
    { apply Hk. } { apply C4. by rewrite Hst. }
    { intros q Hq. by apply (ready_at ∅ s t th); [apply Hk|apply not_elem_of_empty|..]. }
    intros ? s1 (Hs1 & Etl1 & Hrt). assert (threads s1 = threads s) as Eth1 by (by rewrite Hrt).
    assert (TThread t ∉ last_row s) as Hn.
    { intros Hin. destruct (ki_wait _ _ Hk t Hin) as (th1 & E1 & Hs). rewrite E in E1. simplify_eq. by rewrite Hst in Hs. }
    assert (kinv (∅ ∪ {[t]}) s1) as Hk1.
    { eapply kinv_step; [exact Hk|done|by rewrite Hrt|by rewrite Hrt|by rewrite Hrt|..]; rewrite Eth1; eauto. }
    wp_step. eapply wp_upd_thread; [by rewrite Eth1|]. wp_step. eapply wp_upd_thread; [apply lookup_insert_eq|].
    simpl. kset. fold th'. rewrite Eth1. set (s2 := set_threads _ s1).
    assert (kinv (∅ ∪ {[t]}) s2) as Hk2.
    { apply (kinv_weaken (∅ ∪ {[t]} ∪ {[t]})); [|set_solver]. unfold s2. rewrite <- Eth1.
      apply (kinv_exempt _ s1 t th); [done|by rewrite Eth1|]. right. rewrite (last_row_eq s); [done|by rewrite Hrt]. }
    wp_step. eapply (make_ready ∅ s2 t th'); try done.
    { apply lookup_insert_eq. } { change (~ Abs.linked t (tlists s1)). rewrite Etl1. apply not_linked_removed. }
    { change (TThread t ∉ last_row s1). rewrite (last_row_eq s); [done|by rewrite Hrt]. }
    { by rewrite F1. } { by rewrite F2. } { by rewrite F4. }
    intros s3 Hk3 Hf3 Eth3 Etl3 Etm3 Er3. wp_step. split_and!; try done.
    + etrans; [by apply retabled_frame0|]. etrans; [|exact Hf3]. done.
    + rewrite Eth3. unfold resumed_threads. simpl. rewrite insert_insert_eq. f_equal.
      assert (th_stat th' = RT_THREAD_READY) as Es by congruence.
      clear -Es. clearbody th'. destruct th'. simpl in Es. by subst.
    + rewrite Etm3. simpl. by rewrite Hrt.
    + rewrite Er3. simpl. by rewrite Hrt.
    + rewrite Etl3, F1. simpl. by rewrite Etl1.
  - wp_step. eapply wp_upd_thread; [done|]. wp_step. eapply wp_upd_thread; [apply lookup_insert_eq|].
    simpl. kset. fold th'. wp_step. split_and!; try done.
    eapply kinv_readmit; [|apply lookup_insert_eq|].
    + eapply (kinv_exempt ∅ s t th th'); [done|done|]. destruct (decide (th_stat th = RT_THREAD_SUSPEND)) as [Hs|Hs].
      * left. congruence.
      * right. intros Hin. destruct (ki_wait _ _ Hk t Hin) as (th1 & E1 & Hs'). congruence.
    + split; [done|by rewrite F1|by rewrite F2|done|by rewrite F4|..].
      * intros l Hl. specialize (C6 l Hl). destruct l; simpl in *; [by destruct C6|congruence..].
      * intros Hr. exfalso. apply Hst. congruence.
Qed.

(** ** The end of a thread *)

(** States that agree on everything the invariant reads *)
Lemma kinv_eq X s s' :
  sched_eq s s' -> timers s' = timers s -> rt_timer_list s' = rt_timer_list s -> rt_tick s' = rt_tick s ->
  kinv X s -> kinv X s'.
Proof.
  intros Hs Et Er Ek Hk. pose proof Hs as (_ & E2 & _).
  eapply kinv_step; [exact Hk|by eapply sched_inv_eq, ki_sched|done|done|done|..]; rewrite E2; eauto.
Qed.

(** Step one of [rt_thread_exit], [rt_thread_detach] and [rt_thread_delete] *)
Lemma leave_ready s t th (Q : unit -> kstate -> Prop) :
  kinv ∅ s -> threads s !! t = Some th -> masks_ok th ->
  (forall s', kinv (∅ ∪ {[t]}) s' -> frame0 s s' -> threads s' = threads s ->
     tlists s' = Abs.remove t (tlists s) -> timers s' = timers s -> rt_timer_list s' = rt_timer_list s -> Q tt s') ->
  wp (rt_schedule_remove_thread t) Q s.
Proof.
  intros Hk E Hm HQ. destruct (kinv_thread _ _ _ _ Hk (not_elem_of_empty t) E) as [C1 C2 _ _ _ _ _].
  eapply wp_mono; [apply (rt_schedule_remove_thread_spec ∅ s t th); try done|].
  { apply Hk. } { intros q Hq. by apply (ready_at ∅ s t th); [apply Hk|apply not_elem_of_empty|..]. }
  intros [] s1 (Hs1 & Etl1 & Hrt). assert (threads s1 = threads s) as Eth by (by rewrite Hrt).
  apply HQ; [|by apply retabled_frame0|done|done|by rewrite Hrt|by rewrite Hrt].
  eapply kinv_step; [exact Hk|done|by rewrite Hrt|by rewrite Hrt|by rewrite Hrt|..]; rewrite Eth; eauto.
Qed.

(** What [rt_timer_detach] and [rt_object_detach] change besides the threads *)
Record detached (s s' : kstate) : Prop := {
  dt_sched : tlists s' = tlists s /\ threads s' = threads s /\
    rt_thread_ready_priority_group s' = rt_thread_ready_priority_group s /\
    rt_thread_ready_table s' = rt_thread_ready_table s;
  dt_timers : timers s' = timers s;
  dt_tick : rt_tick s' = rt_tick s;
  dt_current : rt_current_thread s' = rt_current_thread s;
  dt_lock : rt_scheduler_lock_nest s' = rt_scheduler_lock_nest s
}.

Lemma rt_timer_detach_thread X s t (Q : Z -> kstate -> Prop) :
  kinv X s -> t <> RT_NULL ->
  (forall s', kinv X s' -> detached s s' -> TThread t ∉ last_row s' ->
     rt_object_container s' = Abs.remove (OTimer (TThread t)) (rt_object_container s) -> Q (- RT_EOK) s') ->
  wp (rt_timer_detach (TThread t)) Q s.
Proof.
  intros Hk Ht HQ. destruct (ki_timer _ _ Hk) as [D HD].
  unfold rt_timer_detach. wp_step. wp_step; [by apply timer_nonnull_thread|]. wp_step.
  unfold _rt_timer_remove. wp_step. wp_step. unfold rt_object_detach. wp_step.
  wp_step; [by apply timer_nonnull_thread|]. unfold olist_remove. wp_step. wp_step.
  set (s' := set_rt_object_container _ _).
  assert (last_row s' = list_del (TThread t) (last_row s)) as El by (by apply (last_row_removed (rt_tick s) D)).
  apply HQ; [|done| |done].
  - split.
    + by apply (sched_inv_eq X s); [|apply Hk].
    + exists (D ∪ {[TThread t]}). apply (timer_inv_eq _ _ (removed_timer (TThread t) s)); [done|done|].
      by apply removed_timer_inv.
    + apply (ki_tt _ _ Hk).
    + intros t'. rewrite El, elem_of_list_del. intros [_ Hin]. by apply (ki_wait _ _ Hk).
  - rewrite El, elem_of_list_del. tauto.
Qed.

(** A closed thread on no list, and on the defunct list *)
Lemma closed_kinv s t th :
  kinv (∅ ∪ {[t]}) s -> threads s !! t = Some th -> th_stat th = RT_THREAD_CLOSE -> t <> RT_NULL ->
  prio_ok (th_current_priority th) -> prio_ok (th_init_priority th) -> masks_ok th -> stack_ok th = true ->
  ~ Abs.linked t (tlists s) ->
  kinv ∅ s /\ kinv ∅ (set_tlists (Abs.insert_front LDefunct t (tlists s)) s).
Proof.
  intros Hk E Hst Ht Hp Hip Hm Hso Hl. split.
  - eapply kinv_readmit; [done|done|]. apply unlinked_ok; try done. by rewrite Hst.
  - set (s' := set_tlists _ s).
    assert (sched_inv (∅ ∪ {[t]}) s') as Hs'.
    { eapply sched_inv_weaken; [eapply wait_inv; [apply Hk|done|eauto|done|done]|set_solver]. }
    assert (kinv (∅ ∪ {[t]}) s') as Hk'.
    { eapply kinv_step; [exact Hk|done|done|done|done|done|eauto]. }
    eapply kinv_readmit; [done|done|]. split; try done.
    + intros l Hin. simpl in Hin. unfold Abs.insert_front in Hin. destruct (decide (LDefunct = l)) as [<-|Hne]; [done|].
      rewrite lookup_total_insert_ne in Hin by done. exfalso. apply Hl, Abs.linked_spec. eauto.
    + intros Hr. by rewrite Hst in Hr.
Qed.

Lemma rt_thread_delete_spec s t th :
  kinv ∅ s -> threads s !! t = Some th -> masks_ok th ->
  wp (rt_thread_delete t) (fun e s' => e = RT_EOK /\ kinv ∅ s' /\
    threads s' = <[t := set_th_stat RT_THREAD_CLOSE th]> (threads s) /\
    tlists s' = Abs.insert_front LDefunct t (Abs.remove t (tlists s)) /\
    TThread t ∉ last_row s' /\ rt_current_thread s' = rt_current_thread s) s.
Proof.
  intros Hk E Hm. destruct (kinv_thread _ _ _ _ Hk (not_elem_of_empty t) E) as [C1 C2 C3 _ C5 _ _].
  unfold rt_thread_delete. wp_step. apply nonnull_ok; [done|]. wp_step.
  apply (leave_ready s t th); [done|done|done|]. intros s1 Hk1 Hf1 Eth1 Etl1 _ _. wp_step.
  apply (rt_timer_detach_thread (∅ ∪ {[t]}) s1); [done|done|]. intros s2 Hk2 [(Etl2 & Eth2 & _) Etm2 _ Ec2 _] Hn2 _.
  wp_step. eapply wp_upd_thread; [by rewrite Eth2, Eth1|]. wp_step.
  set (s3 := set_threads _ s2).
  assert (kinv (∅ ∪ {[t]}) s3) as Hk3.
  { apply (kinv_weaken (∅ ∪ {[t]} ∪ {[t]})); [|set_solver]. eapply kinv_exempt; [exact Hk2|by rewrite Eth2, Eth1|by right]. }
  assert (~ Abs.linked t (tlists s3)) as Hl3 by (simpl; rewrite Etl2, Etl1; apply not_linked_removed).
  destruct (closed_kinv s3 t (set_th_stat RT_THREAD_CLOSE th)) as [_ Hk4]; try done; [apply lookup_insert_eq|].
  apply wp_tlist_insert; [done|]. wp_step. split_and!; [done|exact Hk4| |simpl; congruence|done|].
  - simpl. by rewrite Eth2, Eth1.
  - simpl. by rewrite Ec2, (fr0_current _ _ Hf1).
Qed.

Lemma rt_thread_detach_spec s t th :
  kinv ∅ s -> threads s !! t = Some th -> masks_ok th ->
  wp (rt_thread_detach t) (fun e s' => e = RT_EOK /\ kinv ∅ s' /\
    threads s' = <[t := set_th_stat RT_THREAD_CLOSE th]> (threads s) /\
    tlists s' = (if th_cleanup th =? RT_NULL then Abs.remove t (tlists s)
                 else Abs.insert_front LDefunct t (Abs.remove t (tlists s))) /\
    TThread t ∉ last_row s' /\ rt_current_thread s' = rt_current_thread s) s.
Proof.
  intros Hk E Hm. destruct (kinv_thread _ _ _ _ Hk (not_elem_of_empty t) E) as [C1 C2 C3 _ C5 _ _].
  unfold rt_thread_detach. wp_step. apply nonnull_ok; [done|]. wp_step.
  apply (leave_ready s t th); [done|done|done|]. intros s1 Hk1 Hf1 Eth1 Etl1 _ _. wp_step.
  apply (rt_timer_detach_thread (∅ ∪ {[t]}) s1); [done|done|]. intros s2 Hk2 [(Etl2 & Eth2 & _) Etm2 _ Ec2 _] Hn2 _.
  wp_step. eapply wp_upd_thread; [by rewrite Eth2, Eth1|]. wp_step. unfold rt_object_detach. wp_step.
  wp_step; [by apply negb_true_iff, Z.eqb_neq|]. unfold olist_remove. wp_step. wp_step.
  set (s3 := set_rt_object_container _ _).
  assert (kinv (∅ ∪ {[t]}) s3) as Hk3.
  { apply (kinv_weaken (∅ ∪ {[t]} ∪ {[t]})); [|set_solver].
    apply (kinv_eq _ (set_threads (<[t := set_th_stat RT_THREAD_CLOSE th]> (threads s2)) s2)); try done.
    eapply kinv_exempt; [exact Hk2|by rewrite Eth2, Eth1|by right]. }
  assert (~ Abs.linked t (tlists s3)) as Hl3 by (simpl; rewrite Etl2, Etl1; apply not_linked_removed).
  assert (threads s3 !! t = Some (set_th_stat RT_THREAD_CLOSE th)) as E3 by apply lookup_insert_eq.
  destruct (closed_kinv s3 t _ Hk3 E3) as [Hk4 Hk5]; try done.
  assert (threads s3 = <[t := set_th_stat RT_THREAD_CLOSE th]> (threads s)) as Eth3 by (simpl; congruence).
  assert (rt_current_thread s3 = rt_current_thread s) as Ec3 by (simpl; rewrite Ec2; apply Hf1).
  eapply wp_get_thread; [exact E3|]. wp_step. unfold when.
  change (th_cleanup (set_th_stat RT_THREAD_CLOSE th)) with (th_cleanup th).
  destruct (th_cleanup th =? RT_NULL); simpl.
  - wp_step. wp_step. split_and!; try done. simpl. congruence.
  - apply wp_tlist_insert; [done|]. wp_step. split_and!; try done. simpl. congruence.
Qed.

Definition is_static (th : rt_thread) : bool :=
  negb (Z.land (obj_type (th_parent th)) RT_Object_Class_Static =? 0).

(** A thread that ends is closed, waits for the idle thread unless it is a static
    one without a cleanup function, and the processor goes to the next thread. *)
Lemma rt_thread_exit_spec s t th :
  kinv ∅ s -> rt_current_thread s = t -> threads s !! t = Some th -> th_stat th = RT_THREAD_READY ->
  other_ready s t ->
  wp rt_thread_exit (fun _ s' => kinv ∅ s' /\
    threads s' = <[t := set_th_stat RT_THREAD_CLOSE th]> (threads s) /\
    tlists s' = (if is_static th && (th_cleanup th =? RT_NULL) then Abs.remove t (tlists s)
                 else Abs.insert_front LDefunct t (Abs.remove t (tlists s))) /\
    TThread t ∉ last_row s' /\
    (rt_scheduler_lock_nest s = 0 -> next_thread s' (rt_current_thread s'))) s.
Proof.
  intros Hk Hc E Hst Hoth. destruct (kinv_thread _ _ _ _ Hk (not_elem_of_empty t) E) as [C1 C2 C3 C4 C5 _ _].
  assert (masks_ok th) as Hm by (apply C4; by rewrite Hst).
  assert (TThread t ∉ last_row s) as Hn0.
  { intros Hin. destruct (ki_wait _ _ Hk t Hin) as (th1 & E1 & Hs). rewrite E in E1. simplify_eq. by rewrite Hst in Hs. }
  unfold rt_thread_exit. wp_step. unfold rt_thread_self. wp_step. rewrite Hc. wp_step.
  apply (leave_ready s t th); [done|done|done|]. intros s1 Hk1 Hf1 Eth1 Etl1 _ Er1.
  wp_step. eapply wp_upd_thread; [by rewrite Eth1|]. set (th2 := set_th_stat RT_THREAD_CLOSE th). set (s2 := set_threads _ s1).
  assert (kinv (∅ ∪ {[t]}) s2) as Hk2.
  { apply (kinv_weaken (∅ ∪ {[t]} ∪ {[t]})); [|set_solver]. eapply kinv_exempt; [exact Hk1|by rewrite Eth1|].
    right. by rewrite (last_row_eq _ _ Er1). }
  wp_step. apply (rt_timer_detach_thread (∅ ∪ {[t]}) s2); [done|done|].
  intros s3 Hk3 [(Etl3 & Eth3 & _) _ _ Ec3 Hl3] Hn3 _.
  assert (threads s3 !! t = Some th2) as E3 by (rewrite Eth3; apply lookup_insert_eq).
  assert (tlists s3 = Abs.remove t (tlists s)) as Etl by (rewrite Etl3; simpl; done).
  destruct (closed_kinv s3 t th2 Hk3 E3) as [Hk4 Hk5]; try done; [rewrite Etl; apply not_linked_removed|].
  assert (threads s3 = <[t := th2]> (threads s)) as Eth by (rewrite Eth3; simpl; congruence).
  assert (forall s4, tlists s4 = tlists s3 \/ tlists s4 = Abs.insert_front LDefunct t (tlists s3) ->
    exists p, ready s4 p <> []) as Hready.
  { intros s4 Hs4. destruct (other_ready_removed s s3 t Hoth Etl) as [p Hp]. exists p.
    unfold ready in *. destruct Hs4 as [->| ->]; [done|]. unfold Abs.insert_front. by rewrite lookup_total_insert_ne. }
  assert (rt_scheduler_lock_nest s3 = rt_scheduler_lock_nest s) as Hlk by (rewrite Hl3; apply Hf1).
  wp_step. unfold rt_object_is_systemobject. wp_step. wp_step; [by apply negb_true_iff, Z.eqb_neq|].
  wp_step. unfold get_obj. wp_step. wp_step. eapply wp_opt; [simpl; by rewrite E3|]. wp_step.
  wp_step. eapply wp_get_thread; [exact E3|].
  change (negb (Z.land (obj_type (th_parent th2)) RT_Object_Class_Static =? 0)) with (is_static th).
  change (th_cleanup th2) with (th_cleanup th). wp_step.
  destruct (is_static th && (th_cleanup th =? RT_NULL)).
  - unfold rt_object_detach. wp_step. wp_step; [by apply negb_true_iff, Z.eqb_neq|]. unfold olist_remove. wp_step.
    set (s4 := set_rt_object_container _ s3). assert (kinv ∅ s4) as Hk6 by (by apply (kinv_eq ∅ s3)).
    apply rt_schedule_kinv; [done|by apply Hready; left|]. intros s5 Hk7 Hf5 E5 E5' _ Er5 Hnext.
    split_and!; [done|by rewrite E5|by rewrite E5'|by rewrite (last_row_eq _ _ Er5)|]. intros Hl. apply Hnext. by rewrite <- Hl.
  - apply wp_tlist_insert; [rewrite Etl; apply not_linked_removed|].
    apply rt_schedule_kinv; [exact Hk5|by apply Hready; right|]. intros s5 Hk7 Hf5 E5 E5' _ Er5 Hnext.
    split_and!; [done|by rewrite E5|by rewrite E5'; simpl; rewrite Etl|by rewrite (last_row_eq _ _ Er5)|].
    intros Hl. apply Hnext. by rewrite <- Hl.
Qed.

(** ** Properties *)

(** [rt_thread_startup] makes an initialised thread ready: it is the last thread of
    the list of its initial priority, with the masks computed for that priority, the
    kernel invariant holds, and once the scheduler runs the processor belongs to the
    ready thread of highest priority. *)
Theorem rt_thread_startup_correct s t th :
  kinv ∅ s -> threads s !! t = Some th -> th_stat th = RT_THREAD_INIT -> ~ Abs.linked t (tlists s) ->
  TThread t ∉ last_row s ->
  exists s', rt_thread_startup t s = Ok RT_EOK s' /\ kinv ∅ s' /\
    threads s' = <[t := set_th_stat RT_THREAD_READY (at_init_priority th)]> (threads s) /\
    ready s' (th_init_priority th) = ready s (th_init_priority th) ++ [t] /\
    (rt_current_thread s <> RT_NULL -> rt_scheduler_lock_nest s = 0 -> next_thread s' (rt_current_thread s')).
Proof.
  intros Hk E Hst Hl Hr.
  destruct (wp_ok _ _ _ (rt_thread_startup_spec s t th Hk E Hst Hl Hr)) as (e & s' & Er & -> & Hk' & _ & Ht & Hls & _ & Hn).
  exists s'. split_and!; [done|done|done| |done]. unfold ready. rewrite Hls, lookup_insert_back. by rewrite decide_True.
Qed.

(** suspending a ready thread and resuming it gives the thread back: both calls
    return RT_EOK and keep the kernel invariant, the thread's control block is as
    before, it has moved to the end of the list of its priority, no other ready list
    changes, and its timer is off. *)
Theorem suspend_resume_roundtrip s t th :
  kinv ∅ s -> threads s !! t = Some th -> th_stat th = RT_THREAD_READY ->
  let p := th_current_priority th in
  exists s1 s2, rt_thread_suspend t s = Ok RT_EOK s1 /\ kinv ∅ s1 /\ rt_thread_resume t s1 = Ok RT_EOK s2 /\
    kinv ∅ s2 /\ threads s2 !! t = Some th /\ (forall u, threads s2 !! u = threads s !! u) /\
    ready s2 p = list_del t (ready s p) ++ [t] /\ (forall q, q <> p -> ready s2 q = ready s q) /\
    TThread t ∉ last_row s2.
Proof.
  intros Hk E Hst p.
  destruct (wp_ok _ _ _ (rt_thread_suspend_spec ∅ s t th Hk (not_elem_of_empty t) E Hst))
    as (e & s1 & Er & -> & Hk1 & _ & Ht1 & Hl1 & _).
  assert (threads s1 !! t = Some (set_th_stat RT_THREAD_SUSPEND th)) as E1 by (by rewrite Ht1, lookup_insert_eq).
  destruct (wp_ok _ _ _ (rt_thread_resume_spec ∅ s1 t _ Hk1 (not_elem_of_empty t) E1 eq_refl))
    as (e & s2 & Er2 & -> & Hk2 & _ & Ht2 & Hl2 & Hr2).
  assert (set_th_stat RT_THREAD_READY (set_th_stat RT_THREAD_SUSPEND th) = th) as Eth
    by (destruct th; simpl in *; by rewrite Hst).
  assert (forall u, threads s2 !! u = threads s !! u) as Hu.
  { intros u. rewrite Ht2. unfold resumed_threads. rewrite Eth, Ht1. destruct (decide (u = t)) as [->|].
    - by rewrite lookup_insert_eq. - by rewrite !lookup_insert_ne by done. }
  assert (forall q, ready s2 q = if decide (p = q) then list_del t (ready s p) ++ [t] else list_del t (ready s q)) as Hq.
  { intros q. unfold ready. rewrite Hl2. unfold resumed_lists. simpl. rewrite lookup_insert_back, Hl1, !Abs.lookup_remove.
    assert (forall l, list_del t (list_del t l) = list_del t l) as Hdd
      by (intros l; apply list_del_not_in; rewrite elem_of_list_del; tauto).
    rewrite !Hdd. repeat case_decide; simplify_eq; done. }
  exists s1, s2. split_and!; [done|done|done|done|by rewrite Hu|done| | |done].
  - by rewrite Hq, decide_True.
  - intros q Hne. rewrite Hq, decide_False by done. apply list_del_not_in. intros Hin.
    destruct (kinv_thread _ _ _ _ Hk (not_elem_of_empty t) E) as [_ _ _ _ _ C6 _].
    destruct (C6 _ Hin) as [_ Hp]. by apply Hne.
Qed.

(** [rt_thread_yield] is round-robin: the running thread goes behind the other ready
    threads of its priority and the processor to the thread that is first then; alone at
    its priority it changes nothing. *)
Theorem rt_thread_yield_correct s t th :
  kinv ∅ s -> rt_current_thread s = t -> threads s !! t = Some th -> th_stat th = RT_THREAD_READY ->
  let p := th_current_priority th in
  exists s', rt_thread_yield s = Ok RT_EOK s' /\ kinv ∅ s' /\ threads s' = threads s /\
    (ready s p = [t] /\ s' = s \/
     ready s' p = list_del t (ready s p) ++ [t] /\ (2 <= length (ready s p))%nat /\
     (forall q, q <> p -> ready s' q = ready s q) /\
     (rt_scheduler_lock_nest s = 0 -> next_thread s' (rt_current_thread s'))).
Proof.
  intros Hk Hc E Hst p.
  destruct (wp_ok _ _ _ (rt_thread_yield_spec s t th Hk Hc E Hst)) as (e & s' & Er & -> & Hk' & _ & Ht & _ & _ & Hor).
  exists s'. split_and!; [done..|]. destruct Hor as [?|(H1 & H2 & H3 & H4)]; [by left|].
  right. split_and!; [done|done| |done]. intros q Hq. apply H3. intros E'. by injection E'.
Qed.

(** RT_THREAD_CTRL_CHANGE_PRIORITY moves a ready thread to the end of the list of its
    new priority and only records the priority of any other thread; the bitmap and the
    rest of the kernel invariant follow. *)
Theorem rt_thread_change_priority_correct s t th prio :
  kinv ∅ s -> threads s !! t = Some th -> prio_ok prio ->
  exists s' th', rt_thread_control t RT_THREAD_CTRL_CHANGE_PRIORITY prio s = Ok RT_EOK s' /\ kinv ∅ s' /\
    threads s' = <[t := th']> (threads s) /\ th_current_priority th' = prio /\ masks_ok th' /\
    th_init_priority th' = th_init_priority th /\ th_stat th' = th_stat th /\
    tlists s' = (if th_stat th =? RT_THREAD_READY
                 then Abs.insert_back (LReady prio) t (Abs.remove t (tlists s)) else tlists s).
Proof.
  intros Hk E Hp.
  destruct (wp_ok _ _ _ (rt_thread_change_priority_spec s t th prio Hk E Hp)) as (e & s' & Er & -> & Hk' & _ & Ht & _ & _ & Hl).
  destruct (calc_priority_fields (set_th_current_priority prio th)) as (F1 & F2 & F3 & _).
  eexists s', _. split_and!; [done|done|done|done| |done|done|done]. by apply calc_priority_ok.
Qed.

(** [rt_thread_sleep] suspends the running thread with its timer armed for exactly
    the given number of ticks, keeps the kernel invariant, and gives the processor to
    the ready thread of highest priority. *)
Theorem rt_thread_sleep_correct s t th tick :
  kinv ∅ s -> rt_current_thread s = t -> threads s !! t = Some th -> th_stat th = RT_THREAD_READY ->
  other_ready s t -> 0 <= tick < HALF_TICK ->
  exists s', rt_thread_sleep tick s = Ok tt s' /\ kinv ∅ s' /\
    threads s' = <[t := set_th_stat RT_THREAD_SUSPEND th]> (threads s) /\
    TThread t ∈ last_row s' /\ timer_off (rt_tick s) s' (TThread t) = tick /\
    (rt_scheduler_lock_nest s = 0 -> next_thread s' (rt_current_thread s')).
Proof.
  intros Hk Hc E Hst Ho Htick.
  destruct (wp_ok _ _ _ (rt_thread_sleep_spec s t th tick Hk Hc E Hst Ho Htick))
    as ([] & s' & Er & Hk' & _ & Ht & _ & Hin & (tm & Etm & Eto) & Hn).
  exists s'. split_and!; try done. unfold timer_off. rewrite Etm, Eto. apply offset_add.
  change HALF_TICK with 2147483647 in Htick. lia.
Qed.

(** [rt_thread_exit] closes the running thread: it is on no ready or waiting list,
    its timer is off, it waits on the defunct list for the idle thread unless it is a
    static thread without a cleanup function, and the processor goes to the next
    thread. *)
Theorem rt_thread_exit_correct s t th :
  kinv ∅ s -> rt_current_thread s = t -> threads s !! t = Some th -> th_stat th = RT_THREAD_READY ->
  other_ready s t ->
  exists s', rt_thread_exit s = Ok tt s' /\ kinv ∅ s' /\
    threads s' = <[t := set_th_stat RT_THREAD_CLOSE th]> (threads s) /\ TThread t ∉ last_row s' /\
    (forall l, t ∈ tlists s' !!! l <-> l = LDefunct /\ negb (is_static th && (th_cleanup th =? RT_NULL)) = true) /\
    (rt_scheduler_lock_nest s = 0 -> next_thread s' (rt_current_thread s')).
Proof.
  intros Hk Hc E Hst Ho.
  destruct (wp_ok _ _ _ (rt_thread_exit_spec s t th Hk Hc E Hst Ho)) as ([] & s' & Er & Hk' & Ht & Hl & Hr & Hn).
  exists s'. split_and!; try done. intros l. rewrite Hl.
  assert (forall l', t ∉ Abs.remove t (tlists s) !!! l') as Hno
    by (intros l'; rewrite Abs.lookup_remove, elem_of_list_del; tauto).
  destruct (is_static th && (th_cleanup th =? RT_NULL)); simpl.
  - split; [|by intros [_ ?]]. intros Hin. by apply Hno in Hin.
  - unfold Abs.insert_front. destruct (decide (l = LDefunct)) as [->|Hne].
    + rewrite lookup_total_insert_eq. set_solver.
    + rewrite lookup_total_insert_ne by done. split; [intros Hin; by apply Hno in Hin|by intros [? _]].
Qed.

End thread_proofs.
