(* ===== verification/KHeap.v ===== *)
(** * Dynamic kernel objects

    What the kernel relies on when it takes memory from the system heap, as laws of the
    interface [Allocator]; the laws hold of mem.c, and the kernel's theorems about
    dynamic objects and threads are proved from the laws alone. *)
From stdpp Require Import base tactics numbers list gmap.
From S2P Require Import Prelude KString SmallMem SmallMemCorrect RtList Kernel Scheduler Object Timer Thread.
Local Open Scope Z_scope.

(** [heap_ok h live]: the kernel holds the blocks [live] (addresses and sizes).  A block
    is new, apart from every other one, and given back once. *)
Class AllocatorLaws (A : Allocator) := {
  heap_ok : heap -> gmap Z Z -> Prop;
  in_heap : heap -> Z -> Prop;
  malloc_law (h : heap) live size :
    heap_ok h live -> 0 <= size <= 2 ^ 32 - 4 ->
    (forall q, in_heap (malloc size h).2 q <-> in_heap h q) /\
    ((malloc size h).1 = RT_NULL /\ heap_ok (malloc size h).2 live \/
     (malloc size h).1 <> RT_NULL /\ in_heap h (malloc size h).1 /\ live !! (malloc size h).1 = None /\
     heap_ok (malloc size h).2 (<[(malloc size h).1 := size]> live));
  free_law (h : heap) live p n :
    heap_ok h live -> live !! p = Some n ->
    (forall q, in_heap (free p h) q <-> in_heap h q) /\ heap_ok (free p h) (delete p live);
  apart_law (h : heap) live p n q m :
    heap_ok h live -> live !! p = Some n -> live !! q = Some m -> p <> q -> p + n <= q \/ q + m <= p
}.

(** ** The small memory manager as the system heap *)

Section mem.
Context (junk : Z -> heap_mem) (contents : ptr -> nat -> Z).

Definition mem_allocator : Allocator := {|
  heap := hstate;
  malloc := fun size s => match rt_malloc junk size s with Ok p s' => (p, s') | Fault _ => (RT_NULL, s) end;
  free := fun p s => match rt_free p s with Ok _ s' => s' | Fault _ => s end;
  garbage := contents
|}.

Lemma held_fresh s l live size p s' :
  heap_inv s l -> holds s l live -> 0 <= size <= 2 ^ 32 - 4 -> rt_malloc junk size s = Ok p s' -> p <> RT_NULL ->
  heap_ptr s <= p < heap_end s /\ live !! p = None.
Proof.
  intros Hi Hh Hsz Hm Hp. destruct (Z.eqb_spec size 0) as [->|Hne]; [by injection Hm as <- <-|].
  destruct (rt_malloc_blocks junk s l size Hi) as (p' & s1 & l1 & Hm' & Hi1 & [Ha Hb] & _ & Hcase); [lia|].
  rewrite Hm in Hm'. injection Hm' as <- <-. destruct Hcase as [[? _]|(n & Hn & _ & Hblk & Hd)]; [done|].
  assert (block_at s' l1 p n) as Hbp by (apply Hblk; auto).
  pose proof (block_at_range _ _ _ _ Hi1 Hbp). pose proof (block_start _ _ _ _ Hi1 Hbp) as (_ & _ & _ & Hlt).
  rewrite (hi_end _ _ Hi1), Ha, Hb, <- (hi_end _ _ Hi) in Hlt. split; [lia|].
  destruct (live !! p) as [m|] eqn:E; [|done]. destruct (Hh p m E) as (Hm0 & k & Hk & Hbk).
  specialize (Hd _ _ Hbk). lia.
Qed.

#[export] Instance mem_allocator_laws : AllocatorLaws mem_allocator.
Proof.
  refine {| heap_ok := fun (s : @heap mem_allocator) live => exists l, heap_inv s l /\ holds s l live;
            in_heap := fun (s : @heap mem_allocator) q => heap_ptr s <= q < heap_end s |}.
  - intros s live size (l & Hi & Hh) Hsz. simpl.
    assert (exists p s', rt_malloc junk size s = Ok p s') as (p & s' & E).
    { destruct (Z.eqb_spec size 0) as [->|Hne]; [by exists RT_NULL, s|].
      destruct (rt_malloc_blocks junk s l size Hi) as (p & s' & l' & Hm & _); [lia|eauto]. }
    rewrite E. simpl. destruct (held_malloc junk size s l live p s' Hi Hh Hsz E) as (l' & Hi' & Ha & Hh').
    split; [intros q; rewrite (hi_end _ _ Hi), (hi_end _ _ Hi'); destruct Ha as [-> ->]; done|].
    case_decide as Hp; [left; split; [done|by exists l']|]. right.
    destruct (held_fresh s l live size p s' Hi Hh Hsz E Hp). split_and!; [done|lia|lia|done|by exists l'].
  - intros s live p n (l & Hi & Hh) Hp. simpl. destruct (Hh p n Hp) as (_ & k & _ & Hb).
    destruct (rt_free_blocks junk s l p k Hi Hb) as (s' & l' & E & _). rewrite E.
    destruct (held_free junk s l live p n s' Hi Hh Hp E) as (l1 & Hi' & Ha & Hh').
    split; [intros q; rewrite (hi_end _ _ Hi), (hi_end _ _ Hi'); destruct Ha as [-> ->]; done|]. by exists l1.
  - intros s live p n q m (l & Hi & Hh) Hp Hq Hne. destruct (Hh p n Hp) as (_ & k & Hk & Hbk).
    destruct (Hh q m Hq) as (_ & j & Hj & Hbj). destruct (block_at_apart s l p k Hi Hbk q j Hbj); lia.
Defined.
End mem.

(** ** The kernel as a client *)

Section client.
Context `{KConfig} `{A : Allocator} `{!AllocatorLaws A}.

(** A structure at [p] is linked somewhere in the kernel. *)
Definition known (s : kstate) (p : ptr) : Prop :=
  (exists r, object_addr r = p /\ Abs.linked r (rt_object_container s)) \/
  Abs.linked p (tlists s) \/ (exists r, timer_addr r = p /\ in_rows r (rt_timer_list s)).

(** The kernel links no structure in memory of the heap that it does not hold. *)
Definition kernel_holds (s : kstate) (live : gmap Z Z) : Prop :=
  heap_ok (kheap s) live /\ forall p, known s p -> in_heap (kheap s) p -> is_Some (live !! p).

(** The block [p, p + n) overlaps no block of [live]. *)
Definition apart (live : gmap Z Z) (p n : Z) : Prop :=
  forall q m, live !! q = Some m -> p + n <= q \/ q + m <= p.

Lemma fresh_apart (h : heap) live p n : heap_ok h (<[p := n]> live) -> live !! p = None -> apart live p n.
Proof.
  intros Hok Hp q m Hq. assert (p <> q) by congruence.
  apply (apart_law h (<[p := n]> live)); [done| |by rewrite lookup_insert_ne|done]. apply lookup_insert_eq.
Qed.

(** What a new object looks like *)
Definition allocated (type : object_class) (name : list Z) (p : ptr) (h : heap) (s : kstate) : kstate :=
  let r := object_at type p in
  let s1 := upd_object r (set_obj_name (strncpy_bytes RT_NAME_MAX name)) (upd_object r (set_obj_flag 0)
    (upd_object r (set_obj_type (class_type type)) (place r (set_kheap h s)))) in
  set_rt_object_container (Abs.insert_front type r (rt_object_container s)) s1.

Lemma place_frame r s :
  rt_object_container (place r s) = rt_object_container s /\ tlists (place r s) = tlists s /\
  rt_timer_list (place r s) = rt_timer_list s /\ kheap (place r s) = kheap s.
Proof. by destruct r. Qed.

Lemma upd_object_frame2 r f s :
  rt_timer_list (upd_object r f s) = rt_timer_list s /\ kheap (upd_object r f s) = kheap s.
Proof. by destruct r. Qed.

Lemma allocated_frame type name p h s :
  rt_object_container (allocated type name p h s) = Abs.insert_front type (object_at type p) (rt_object_container s) /\
  tlists (allocated type name p h s) = tlists s /\ rt_timer_list (allocated type name p h s) = rt_timer_list s /\
  kheap (allocated type name p h s) = h /\ rt_interrupt_nest (allocated type name p h s) = rt_interrupt_nest s.
Proof. by destruct type. Qed.

Lemma allocated_object type name p h s :
  exists o, get_object (object_at type p) (allocated type name p h s) = Some o /\ obj_type o = class_type type /\
    obj_name o = strncpy_bytes RT_NAME_MAX name.
Proof.
  unfold allocated. rewrite container_irrelevant, !get_upd_object.
  assert (is_Some (get_object (object_at type p) (place (object_at type p) (set_kheap h s)))) as [o ->].
  { destruct type; simpl; rewrite lookup_partial_alter_eq; by eexists. }
  by eexists.
Qed.

Lemma rt_object_allocate_run type name s :
  rt_interrupt_nest s = 0 ->
  ~ Abs.linked (object_at type (malloc (object_size type) (kheap s)).1) (rt_object_container s) ->
  rt_object_allocate type name s =
    let '(p, h) := malloc (object_size type) (kheap s) in
    if p =? RT_NULL then Ok RT_NULL (set_kheap h s) else Ok p (allocated type name p h s).
Proof.
  intros Hn Hl. unfold rt_object_allocate, RT_DEBUG_NOT_IN_INTERRUPT, kmalloc, RT_ASSERT, get, modify, mbind, M_bind.
  rewrite Hn. simpl. destruct (malloc (object_size type) (kheap s)) as [p h] eqn:E. simpl in *.
  destruct (p =? RT_NULL); [done|]. simpl. unfold olist_insert_after, get, modify, mbind, M_bind.
  rewrite decide_False by (by destruct type). by destruct type.
Qed.

Lemma rt_object_delete_run type p s o :
  p <> RT_NULL -> get_object (object_at type p) s = Some o -> obj_type o = class_type type ->
  exists s', rt_object_delete (object_at type p) s = Ok tt s' /\ kheap s' = free p (kheap s) /\
    rt_object_container s' = Abs.remove (object_at type p) (rt_object_container s) /\
    tlists s' = tlists s /\ rt_timer_list s' = rt_timer_list s.
Proof.
  intros Hp Eo Et. exists (unplace (object_at type p) (set_kheap (free p (kheap s))
    (set_rt_object_container (Abs.remove (object_at type p) (rt_object_container s)) s))).
  split; [|by destruct type].
  unfold rt_object_delete, RT_ASSERT, get_obj, opt, get, kfree, olist_remove, modify, mbind, M_bind.
  assert (object_addr (object_at type p) = p) as -> by (by destruct type).
  replace (p =? RT_NULL) with false by lia. simpl. rewrite Eo. simpl. rewrite Et.
  by destruct type.
Qed.

Lemma fresh_unknown s live p :
  kernel_holds s live -> live !! p = None -> in_heap (kheap s) p -> ~ known s p.
Proof. intros [_ Hk] Hp Hin Hkn. destruct (Hk p Hkn Hin). congruence. Qed.

Lemma linked_front c r r' s :
  Abs.linked r (Abs.insert_front c r' (rt_object_container s)) -> r = r' \/ Abs.linked r (rt_object_container s).
Proof. intros Hl. by apply (Abs.linked_insert c r') in Hl. Qed.

Lemma object_at_addr c p : object_addr (object_at c p) = p.
Proof. by destruct c. Qed.

(** A new object is linked, and its memory is held. *)
Lemma allocated_holds type name s live :
  kernel_holds s live -> 0 <= object_size type <= 2 ^ 32 - 4 ->
  let p := (malloc (object_size type) (kheap s)).1 in let h := (malloc (object_size type) (kheap s)).2 in
  p <> RT_NULL -> heap_ok h (<[p := object_size type]> live) ->
  kernel_holds (allocated type name p h s) (<[p := object_size type]> live).
Proof.
  intros [Hok Hk] Hsz p h Hp Hok'. destruct (allocated_frame type name p h s) as (Ec & Et & Er & Eh & _).
  destruct (malloc_law (kheap s) live (object_size type) Hok Hsz) as [Hin _]. fold h in Hin.
  split; [by rewrite Eh|]. intros q Hq Hh. rewrite Eh, Hin in Hh.
  destruct (decide (p = q)) as [->|Hne]; [rewrite lookup_insert_eq; eauto|]. rewrite lookup_insert_ne by done.
  apply Hk; [|done]. unfold known in *. rewrite Ec, Et, Er in Hq.
  destruct Hq as [(r & Er' & Hl)|Hq]; [|by right]. apply linked_front in Hl as [->|Hl]; [|left; eauto].
  by rewrite object_at_addr in Er'.
Qed.

Lemma insert_remove c r s c' :
  ~ Abs.linked r (rt_object_container s) ->
  Abs.remove r (Abs.insert_front c r (rt_object_container s)) !!! c' = rt_object_container s !!! c'.
Proof.
  intros Hl. rewrite Abs.lookup_remove. unfold Abs.insert_front.
  assert (r ∉ rt_object_container s !!! c') as Hn by (intros Hin; apply Hl, Abs.linked_spec; eauto).
  destruct (decide (c = c')) as [<-|Hne].
  - rewrite lookup_total_insert_eq. unfold list_del. rewrite filter_cons_False by auto. by apply list_del_not_in.
  - rewrite lookup_total_insert_ne by done. by apply list_del_not_in.
Qed.

(** The two ways [rt_object_allocate] goes *)
Lemma allocate_cases type name s live :
  kernel_holds s live -> 0 <= object_size type <= 2 ^ 32 - 4 -> rt_interrupt_nest s = 0 ->
  exists p h, (forall q, in_heap h q <-> in_heap (kheap s) q) /\
    (rt_object_allocate type name s = Ok RT_NULL (set_kheap h s) /\ kernel_holds (set_kheap h s) live \/
     rt_object_allocate type name s = Ok p (allocated type name p h s) /\ p <> RT_NULL /\ live !! p = None /\
     ~ known s p /\ kernel_holds (allocated type name p h s) (<[p := object_size type]> live)).
Proof.
  intros Hk Hsz Hn. pose proof Hk as [Hok Hkn].
  destruct (malloc_law (kheap s) live (object_size type) Hok Hsz) as [Hin Hcase].
  set (p := (malloc (object_size type) (kheap s)).1) in *. set (h := (malloc (object_size type) (kheap s)).2) in *.
  assert (malloc (object_size type) (kheap s) = (p, h)) as Em by apply surjective_pairing.
  exists p, h. split; [done|]. destruct Hcase as [[Hp Hok1]|(Hp & Hinp & Hfree & Hok1)].
  - left. split.
    + unfold rt_object_allocate, RT_DEBUG_NOT_IN_INTERRUPT, kmalloc, RT_ASSERT, get, modify, mbind, M_bind.
      rewrite Hn. simpl. by rewrite Em, Hp.
    + split; [exact Hok1|]. intros q Hq Hh. apply Hkn; [exact Hq|]. by apply Hin.
  - right. pose proof (fresh_unknown s live p Hk Hfree Hinp) as Hun.
    split_and!; [|done|done|done|by apply allocated_holds].
    rewrite rt_object_allocate_run; [|done|].
    + rewrite Em. by replace (p =? RT_NULL) with false by lia.
    + intros Hl. apply Hun. left. exists (object_at type p). by rewrite object_at_addr.
Qed.

(** Deleting the object again, also when other memory was taken in between *)
Lemma delete_allocated type name p h h' s live n :
  p <> RT_NULL -> live !! p = None -> ~ known s p -> heap_ok h' (<[p := n]> live) ->
  exists s2, rt_object_delete (object_at type p) (set_kheap h' (allocated type name p h s)) = Ok tt s2 /\
    heap_ok (kheap s2) live /\ forall c, rt_object_container s2 !!! c = rt_object_container s !!! c.
Proof.
  intros Hp Hfree Hun Hok. destruct (allocated_frame type name p h s) as (Ec & _).
  destruct (allocated_object type name p h s) as (o & Eo & Eot & _).
  destruct (rt_object_delete_run type p (set_kheap h' (allocated type name p h s)) o Hp) as (s2 & Ed & Eh2 & Ec2 & _);
    [by destruct type|done|].
  exists s2. split_and!; [done| |].
  - rewrite Eh2. destruct (free_law h' (<[p := n]> live) p n Hok) as [_ Hf]; [apply lookup_insert_eq|].
    by rewrite delete_insert_id in Hf.
  - intros c. rewrite Ec2. change (rt_object_container (set_kheap h' ?x)) with (rt_object_container x). rewrite Ec. apply insert_remove.
    intros Hl. apply Hun. left. exists (object_at type p). by rewrite object_at_addr.
Qed.

Lemma set_kheap_same s : set_kheap (kheap s) s = s.
Proof. by destruct s. Qed.


(** ** Threads *)

Context (rt_thread_exit_addr : Z).

(** A field of a structure that was written before *)
Lemma wp_upd_thread_again t f th m s (Q : unit -> kstate -> Prop) :
  Q tt (set_threads (<[t := f th]> m) s) -> wp (upd_thread t f) Q (set_threads (<[t := th]> m) s).
Proof. intros HQ. eapply wp_upd_thread; [apply lookup_insert_eq|]. simpl. by rewrite insert_insert_eq. Qed.

Lemma wp_get_thread_again t th m s (Q : rt_thread -> kstate -> Prop) :
  Q th (set_threads (<[t := th]> m) s) -> wp (get_thread t) Q (set_threads (<[t := th]> m) s).
Proof. intros HQ. eapply wp_get_thread; [apply lookup_insert_eq|done]. Qed.

Lemma wp_upd_timer_again r f tm m s (Q : unit -> kstate -> Prop) :
  Q tt (set_timers (<[r := f tm]> m) s) -> wp (upd_timer r f) Q (set_timers (<[r := tm]> m) s).
Proof. intros HQ. eapply wp_upd_timer; [apply lookup_insert_eq|]. simpl. by rewrite insert_insert_eq. Qed.

(** [rt_timer_init] of a timer that is linked nowhere *)
Lemma rt_timer_init_spec r name timeout parameter time flag s :
  timer_addr r <> RT_NULL -> ~ Abs.linked (OTimer r) (rt_object_container s) -> ~ in_rows r (rt_timer_list s) ->
  wp (rt_timer_init r name timeout parameter time flag) (fun _ s' => exists tm, s' =
    set_timers (<[r := tm]> (timers s)) (set_rt_object_container
      (Abs.insert_front RT_Object_Class_Timer (OTimer r) (rt_object_container s)) s)) s.
Proof.
  intros Hnn Ht Hr. unfold rt_timer_init. wp_step. apply wp_assert; [by apply negb_true_iff, Z.eqb_neq|].
  wp_step. wp_step. wp_step. eapply ok_wp; [apply rt_object_init_run; exact Ht|].
  assert (exists tm, object_inited (OTimer r) RT_Object_Class_Timer name (place (OTimer r) s) =
    set_timers (<[r := tm]> (timers s)) (set_rt_object_container
      (Abs.insert_front RT_Object_Class_Timer (OTimer r) (rt_object_container s)) s)) as [tm ->].
  { eexists. unfold object_inited. simpl.
    change (set_timers ?x (set_rt_object_container ?y ?z)) with (set_rt_object_container y (set_timers x z)).
    f_equal. unfold set_timers. f_equal. apply map_eq. intros r'. destruct (decide (r = r')) as [<-|Hne].
    - rewrite !lookup_alter_eq, lookup_partial_alter_eq, lookup_insert_eq. reflexivity.
    - by rewrite !lookup_alter_ne, lookup_partial_alter_ne, lookup_insert_ne. }
  unfold _rt_timer_init. do 6 (wp_step; apply wp_upd_timer_again).
  unfold rows_init. wp_step. wp_step. rewrite decide_False by done. wp_step. by eexists.
Qed.

(** What [_rt_thread_init] does to a control block that is linked nowhere *)
Definition thread_inited (entry parameter stack_start priority tick : Z) (th0 th : rt_thread) : Prop :=
  th_stack_addr th = stack_start /\ th_entry th = entry /\ th_parameter th = parameter /\
  th_init_priority th = priority /\ th_current_priority th = priority /\ th_init_tick th = tick /\
  th_stat th = RT_THREAD_INIT /\ th_error th = RT_EOK /\ th_parent th = th_parent th0.

Lemma thread_init_spec thread name entry parameter stack_start stack_size priority tick th0 s :
  threads s !! thread = Some th0 -> thread <> RT_NULL -> ~ Abs.linked thread (tlists s) ->
  ~ Abs.linked (OTimer (TThread thread)) (rt_object_container s) -> ~ in_rows (TThread thread) (rt_timer_list s) ->
  priority < RT_THREAD_PRIORITY_MAX ->
  wp (_rt_thread_init rt_thread_exit_addr thread name entry parameter stack_start stack_size priority tick)
    (fun _ s' => exists th tm, thread_inited entry parameter stack_start priority tick th0 th /\ s' =
       set_timers (<[TThread thread := tm]> (timers s)) (set_rt_object_container
         (Abs.insert_front RT_Object_Class_Timer (OTimer (TThread thread)) (rt_object_container s))
         (set_threads (<[thread := th]> (threads s)) s))) s.
Proof.
  intros E Hnn Hl Ht Hr Hp. unfold _rt_thread_init, tlist_init.
  wp_step. wp_step. wp_step. rewrite decide_False by done. wp_step.
  wp_step. eapply wp_upd_thread; [exact E|]. do 3 (wp_step; apply wp_upd_thread_again).
  wp_step. apply wp_get_thread_again.
  destruct (rt_hw_stack_init _ _ _ _) as [sp fr]. wp_step. apply wp_upd_thread_again.
  wp_step. apply wp_assert; [by apply Z.ltb_lt|].
  do 8 (wp_step; apply wp_upd_thread_again). set (th := set_th_user_data 0 _).
  assert (thread_inited entry parameter stack_start priority tick th0 th) as Hth by (split_and!; done).
  clearbody th. wp_step.
  eapply wp_mono; [by apply rt_timer_init_spec|]. intros _ s' [tm ->]. wp_step. by exists th, tm.
Qed.

End client.
