(* ===== verification/MemHeapKernel.v ===== *)
(** * A memory heap as the system heap of the kernel (RT_USING_MEMHEAP_AS_HEAP)

    With a single memory heap, rt_malloc and rt_free of memheap.c keep what the kernel's
    objects and threads rely on (class [AllocatorLaws]), so the theorems on
    rt_object_allocate and rt_thread_create hold for it as they do for the small memory
    manager.  The last part shows rt_realloc with two heaps. *)
From stdpp Require Import base tactics numbers list gmap.
From S2P Require Import Prelude RtList Memory KString MemHeap MemHeapLayout MemHeapCorrect MemHeapResize.
From S2P Require Import Kernel KHeap.
Local Open Scope Z_scope.
Implicit Types (l : mh_layout) (h : headers).

Section system_heap.
Context (junk : Z -> rt_memheap_item) (system : Z) (contents : ptr -> nat -> Z).

Definition memheap_allocator : Allocator := {|
  heap := mhstate;
  malloc := fun size s => match mh_malloc junk system size s with Ok p s' => (p, s') | Fault _ => (RT_NULL, s) end;
  free := fun p s => match mh_free p s with Ok _ s' => s' | Fault _ => s end;
  garbage := contents
|}.

(** The system heap is the only one. *)
Definition only_heap (s : mhstate) : Prop := Forall (fun p => p = system) (mh_objects s).

Lemma alloc_others_none xs size s : Forall (fun p => p = system) xs -> alloc_others junk system xs size s = Ok RT_NULL s.
Proof. intros Hx. induction Hx as [|p xs -> _ IH]; simpl; [done|]. by rewrite Z.eqb_refl. Qed.

Lemma alloc_keeps_objects s m l fl size r s' :
  mh_inv s system m l fl -> 0 <= size <= 2 ^ 32 - 4 -> rt_memheap_alloc junk system size s = Ok r s' -> mh_objects s' = mh_objects s.
Proof.
  intros Hi Hs E.
  assert (wp (rt_memheap_alloc junk system size) (fun _ s' => mh_objects s' = mh_objects s) s) as Hw
    by (by eapply rt_memheap_alloc_spec).
  unfold wp in Hw. by rewrite E in Hw.
Qed.

Lemma free_keeps_objects s m l fl q n s' :
  mh_inv s system m l fl -> mh_block m l q n -> rt_memheap_free q s = Ok tt s' -> mh_objects s' = mh_objects s.
Proof.
  intros Hi Hb E. destruct (mh_block_split _ _ _ _ Hb) as (l1 & l2 & -> & ->).
  assert (wp (rt_memheap_free (mh_start_addr m + mh_total l1 + 24)) (fun _ s' => mh_objects s' = mh_objects s) s) as Hw
    by (by eapply rt_memheap_free_spec).
  unfold wp in Hw. by rewrite E in Hw.
Qed.

(** rt_malloc of a system with one heap is rt_memheap_alloc on it. *)
Lemma mh_malloc_only s m l fl size :
  only_heap s -> mh_inv s system m l fl -> 0 <= size <= 2 ^ 32 - 4 ->
  mh_malloc junk system size s = rt_memheap_alloc junk system size s.
Proof.
  intros Ho Hi Hs. destruct (alloc_blocks junk s system m l fl size Hi Hs) as (r & s' & m' & l' & fl' & E & _ & _ & _ & Hc).
  unfold mh_malloc. unfold mbind, M_bind at 1. rewrite E. destruct Hc as [(-> & -> & _)|(n & _ & _ & Hr & _)].
  - simpl. by apply alloc_others_none.
  - by rewrite (proj2 (Z.eqb_neq _ _) Hr).
Qed.

(** A block that rt_memheap_alloc returns is inside the area and not held. *)
Lemma alloc_fresh s m l fl live size r s' :
  mh_inv s system m l fl -> mh_holds m l live -> 0 <= size <= 2 ^ 32 - 4 -> rt_memheap_alloc junk system size s = Ok r s' ->
  r <> RT_NULL -> mh_start_addr m <= r < mh_start_addr m + mh_pool_size m /\ live !! r = None.
Proof.
  intros Hi Hh Hs E Hr. destruct (alloc_blocks junk s system m l fl size Hi Hs) as (r' & s1 & m1 & l1 & fl1 & E' & Hi1 & [S1 S2] & _ & Hc).
  rewrite E in E'. injection E' as <- <-. destruct Hc as [[? _]|(n & Hn & _ & _ & Hblk & Hd)]; [done|].
  assert (mh_block m1 l1 r n) as Hb by (apply Hblk; auto). pose proof (mh_block_range _ _ _ _ _ _ _ Hi1 Hb) as Hrg.
  rewrite S1, S2 in Hrg. split; [lia|]. destruct (live !! r) as [k|] eqn:El; [|done].
  destruct (Hh r k El) as (_ & k' & _ & Hbk). pose proof (mh_block_range _ _ _ _ _ _ _ Hi Hbk). specialize (Hd _ _ Hbk). lia.
Qed.

#[export] Instance memheap_allocator_laws : AllocatorLaws memheap_allocator.
Proof.
  refine {| heap_ok := fun (s : @heap memheap_allocator) live =>
              only_heap s /\ exists m l fl, mh_inv s system m l fl /\ mh_holds m l live;
            in_heap := fun (s : @heap memheap_allocator) q =>
              exists m, heaps s !! system = Some m /\ mh_start_addr m <= q < mh_start_addr m + mh_pool_size m |}.
  - intros s live size (Ho & m & l & fl & Hi & Hh) Hs. simpl. rewrite (mh_malloc_only s m l fl size Ho Hi Hs).
    destruct (alloc_blocks junk s system m l fl size Hi Hs) as (r & s' & _ & _ & _ & E & _). rewrite E. simpl.
    destruct (holds_alloc junk s system m l fl live size r s' Hi Hh Hs E) as (m' & l' & fl' & Hi' & [S1 S2] & _ & Hh').
    pose proof (mi_heap _ _ _ _ _ Hi) as Em. pose proof (mi_heap _ _ _ _ _ Hi') as Em'.
    assert (only_heap s') as Ho' by (unfold only_heap; by rewrite (alloc_keeps_objects s m l fl size r s' Hi Hs E)).
    split; [intros q; rewrite Em, Em'; split; intros (? & [= <-] & ?); eexists; (split; [done|]); congruence|].
    case_decide as Hr; [left; split; [done|]; split; [done|]; by exists m', l', fl'|]. right.
    destruct (alloc_fresh s m l fl live size r s' Hi Hh Hs E Hr).
    split_and!; [done|by exists m|done|done|by exists m', l', fl'].
  - intros s live q n (Ho & m & l & fl & Hi & Hh) Hq. simpl. unfold mh_free. destruct (Hh q n Hq) as (_ & k & _ & Hb).
    destruct (free_blocks s system m l fl q k Hi Hb) as (s' & _ & _ & _ & E & _). rewrite E.
    destruct (holds_free s system m l fl live q n s' Hi Hh Hq E) as (m' & l' & fl' & Hi' & [S1 S2] & _ & Hh').
    pose proof (mi_heap _ _ _ _ _ Hi) as Em. pose proof (mi_heap _ _ _ _ _ Hi') as Em'.
    split; [intros x; rewrite Em, Em'; split; intros (? & [= <-] & ?); eexists; (split; [done|]); congruence|].
    split; [unfold only_heap; by rewrite (free_keeps_objects s m l fl q k s' Hi Hb E)|by exists m', l', fl'].
  - intros s live q n r k (_ & m & l & fl & Hi & Hh) Hq Hr Hne. destruct (Hh q n Hq) as (_ & n' & ? & Hbn).
    destruct (Hh r k Hr) as (_ & k' & ? & Hbk). destruct (mh_block_apart _ _ _ _ _ _ _ _ _ Hi Hbn Hbk); lia.
Defined.
End system_heap.

(** ** A heap of 512 bytes *)

Module MemHeapDemo.
Definition junk (a : Z) : rt_memheap_item := mk_item a a a a a a.
Definition reset : mhstate := mk_mhstate ∅ [] ∅ (list_to_map ((fun a => (a, 7)) <$> seqZ 4096 2048)).
Definition s0 : mhstate := run (rt_memheap_init junk 256 4096 514) reset.
Definition s1 : mhstate := run (rt_memheap_alloc junk 256 100) s0.
Definition s2 : mhstate := run (rt_memheap_alloc junk 256 40) s1.

Lemma reset_bytes a v : mh_bytes reset !! a = Some v <-> 4096 <= a < 6144 /\ v = 7.
Proof.
  assert (NoDup (((fun a => (a, 7)) <$> seqZ 4096 2048).*1)) as Hnd.
  { rewrite <- list_fmap_compose. apply NoDup_fmap_2; [by intros ??|apply NoDup_seqZ]. }
  split.
  - intros (x & [= -> ->] & Hx%elem_of_seqZ)%elem_of_list_to_map_2%list_elem_of_fmap. split; [lia|done].
  - intros [Ha ->]. apply elem_of_list_to_map_1; [done|]. apply list_elem_of_fmap. exists a. split; [done|]. apply elem_of_seqZ. lia.
Defined.

Lemma place0 : mh_place 256 4096 514.
Proof.
  assert (RT_ALIGN_DOWN 514 4 = 512) as E by (vm_compute; reflexivity).
  split; rewrite ?E; unfold RT_NULL, free_header; try lia; vm_compute; done.
Defined.

Lemma heap0_init : rt_memheap_init junk 256 4096 514 reset = Ok RT_EOK s0.
Proof. apply run_result. vm_compute. reflexivity. Defined.

Lemma heap0_reach : mh_reach junk 256 4096 514 s0 ∅.
Proof.
  eapply mr_init; [exact place0| |intros a v [_ ->]%reset_bytes; lia|exact heap0_init].
  intros a Ha. exists 7. apply reset_bytes. vm_compute RT_ALIGN_DOWN in Ha. lia.
Defined.

Lemma s1_alloc : rt_memheap_alloc junk 256 100 s0 = Ok 4120 s1.
Proof. apply (run_result (rt_memheap_alloc junk 256 100) s0 4120). vm_compute. reflexivity. Defined.
Lemma s2_alloc : rt_memheap_alloc junk 256 40 s1 = Ok 4244 s2.
Proof. apply (run_result (rt_memheap_alloc junk 256 40) s1 4244). vm_compute. reflexivity. Defined.

Lemma heap2_reach : mh_reach junk 256 4096 514 s2 {[4120 := 100; 4244 := 40]}.
Proof.
  assert (mh_reach junk 256 4096 514 s1 {[4120 := 100]}) as R1.
  { apply (mr_alloc _ _ _ _ s0 ∅ 100 4120 s1); [exact heap0_reach|lia|exact s1_alloc]. }
  replace {[4120 := 100; 4244 := 40]} with (if decide (4244 = RT_NULL) then {[4120 := 100]} else <[4244 := 40]> ({[4120 := 100]} : gmap Z Z)).
  - apply (mr_alloc _ _ _ _ s1 {[4120 := 100]} 40 4244 s2); [exact R1|lia|exact s2_alloc].
  - vm_compute. reflexivity.
Defined.

Lemma memheap_safe_witness :
  4120 mod 4 = 0 /\ 4096 + 24 <= 4120 /\ 4120 + 100 + 24 <= 4096 + 514 /\ 4120 + 100 <= 4244 /\
  (exists s', rt_memheap_free 4120 s2 = Ok tt s') /\ exists r s', rt_memheap_realloc junk 256 4120 300 s2 = Ok r s'.
Proof.
  destruct (memheap_safe junk 256 4096 514 s2 _ heap2_reach) as (H1 & H2 & _ & H4 & H5).
  destruct (H1 4120 100 eq_refl) as (A1 & A2 & A3 & _).
  destruct (H2 4120 100 4244 40 eq_refl eq_refl ltac:(lia)) as [A4|A4]; [|lia].
  split_and!; [done|lia|lia|lia|by apply (H4 4120 100)|by apply (H5 4120 100)].
Defined.

Lemma heap0_inv : exists m l fl, mh_inv s0 256 m l fl /\ mh_data s0 m.
Proof. destruct (mh_reach_safe _ _ _ _ _ _ heap0_reach) as (m & l & fl & Hi & Hd & _). eauto. Defined.

(** The request is served: the other case is excluded by the result. *)
Lemma rt_memheap_alloc_correct_witness :
  exists m' l' fl' n, mh_inv s1 256 m' l' fl' /\ 100 <= n /\ mh_block m' l' 4120 n.
Proof.
  destruct heap0_inv as (m & l & fl & Hi & _).
  destruct (rt_memheap_alloc_correct junk s0 256 m l fl 100 Hi ltac:(lia)) as (r & s' & m' & l' & fl' & E & Hi' & _ & _ & Hc).
  rewrite s1_alloc in E. apply Ok_inj in E as [<- <-]. destruct Hc as [[? _]|(n & Hn & _ & _ & Hb & _)]; [done|].
  exists m', l', fl', n. split_and!; [done|done|]. apply Hb. by right.
Defined.

Lemma memheap_alloc_free_witness :
  exists m l fl s'' m'' fl'', mh_inv s0 256 m l fl /\ rt_memheap_free 4120 s1 = Ok tt s'' /\ mh_inv s'' 256 m'' l fl''.
Proof.
  destruct heap0_inv as (m & l & fl & Hi & _).
  destruct (memheap_alloc_free_roundtrip junk s0 256 m l fl 100 4120 s1 Hi ltac:(lia) s1_alloc ltac:(done)) as (s'' & m'' & fl'' & E & Hi'' & _).
  exists m, l, fl, s'', m'', fl''. split_and!; [exact Hi|exact E|exact Hi''].
Defined.

(** The block behind 4120 is in use, so it moves, with its bytes. *)
Lemma rt_memheap_realloc_correct_witness :
  exists m l n s', mh_block m l 4120 n /\ rt_memheap_realloc junk 256 4120 200 s2 = Ok 4308 s' /\ mh_bytes s' !! 4308 = mh_bytes s2 !! 4120.
Proof.
  destruct (mh_reach_safe _ _ _ _ _ _ heap2_reach) as (m & l & fl & Hi & Hd & Hh & _).
  destruct (Hh 4120 100 eq_refl) as (_ & n & Hn & Hb).
  destruct (rt_memheap_realloc_correct junk s2 256 m l fl 4120 n 200 Hi Hd Hb ltac:(lia)) as (r & s' & m' & l' & fl' & E & _ & _ & _ & Hc).
  pose proof (run_result (rt_memheap_realloc junk 256 4120 200) s2 4308 ltac:(vm_compute; reflexivity)) as E'. rewrite E' in E.
  apply Ok_inj in E as [Er Es]. rewrite Es in E'. clear Es. exists m, l, n, s'. split; [exact Hb|]. split; [exact E'|].
  destruct Hc as [[Er' _]|Hm]; [rewrite Er' in Er; discriminate Er|]. unfold mh_moved in Hm. destruct Hm as (k & _ & Hcp & _). rewrite <- Er in Hcp.
  apply (Hcp 0). lia.
Defined.

(** A request for all available bytes fails although one free block has exactly that size. *)
Example alloc_all_fails :
  match rt_memheap_alloc junk 256 464 s0, heaps s0 !! 256 with
  | Ok r _, Some m => r = RT_NULL /\ mh_available_size m = 464
  | _, _ => False
  end.
Proof. vm_compute. done. Qed.

(** A size close to 2^32 wraps in [newsize + RT_MEMHEAP_MINIALLOC]: rt_memheap_realloc reports
    success although the area has 512 bytes. *)
Example realloc_size_wraps :
  result (rt_memheap_realloc junk 256 4120 (2 ^ 32 - 12)) s1 = Some 4120.
Proof. vm_compute. done. Qed.

(** rt_realloc that has to go to another heap copies the block and does not free the old
    one: 100 bytes of the first heap stay in use with no pointer to them. *)
Definition two_heaps : mhstate := run (rt_memheap_init junk 600 5120 1000) s1.
Example realloc_other_heap_leaks :
  match mh_realloc junk 256 4120 600 two_heaps with
  | Ok r s => r = 5144 /\ heaps s !! 256 = heaps two_heaps !! 256 /\ items s !! 4096 = items two_heaps !! 4096
  | Fault _ => False
  end.
Proof. vm_compute. done. Qed.
End MemHeapDemo.
