(* ===== verification/Ipc.v ===== *)
(** * The common part of the IPC objects (src/ipc.c)

    Every IPC object has a list of suspended threads, kept in the order of arrival
    or of priority.  A blocking call runs until its [rt_schedule()] and then is
    [Blocked] with the local variables the code after it needs; the definition
    with the suffix [_resume] is that code, run when the thread runs again. *)
From stdpp Require Import base tactics numbers list gmap sorting.
From S2P Require Import Prelude RtList Kernel Scheduler Object Timer Thread.
Local Open Scope Z_scope.

Inductive progress (R W : Type) :=
| Done (r : R)
| Blocked (w : W).
Arguments Done {R W} r.
Arguments Blocked {R W} w.

Section ipc.
Context `{KConfig} `{Allocator}.

(** [rt_list_init] of a list head *)
Definition tlist_head_init (l : list_id) : K unit := upd_tlists (<[l := []]>).

Definition rt_ipc_object_init (obj : ptr) : K Z := tlist_head_init (LSuspend obj);; mret RT_EOK.

(** The loop of RT_IPC_FLAG_PRIO: the first waiting thread of lower priority. *)
Fixpoint find_lower (prio : Z) (l : list ptr) : K (option ptr) :=
  match l with
  | [] => mret None
  | sthread :: l' =>
      sth ← get_thread sthread;
      if prio <? th_current_priority sth then mret (Some sthread) else find_lower prio l'
  end.

Definition rt_ipc_list_suspend (l : list_id) (thread : ptr) (flag : Z) : K Z :=
  rt_thread_suspend thread;;
  (if flag =? RT_IPC_FLAG_FIFO then tlist_insert_before l thread
   else if flag =? RT_IPC_FLAG_PRIO then
     th ← get_thread thread;
     ws ← gets (fun s => tlists s !!! l);
     o ← find_lower (th_current_priority th) ws;
     match o with
     | Some sthread => tlist_insert_before_node l sthread thread
     | None => tlist_insert_before l thread
     end
   else mret tt);;
  mret RT_EOK.

Definition rt_ipc_list_resume (l : list_id) : K Z :=
  thread ← tlist_first l;
  rt_thread_resume thread;;
  mret RT_EOK.

(** Each round takes the first thread off the list: the fuel is the length of
    the list. *)
Definition rt_ipc_list_resume_all (l : list_id) : K Z :=
  n ← gets (fun s => length (tlists s !!! l));
  while (S n) (fun _ => e ← tlist_isempty l; mret (negb e))
    (fun _ =>
      thread ← tlist_first l;
      upd_thread thread (set_th_error (- RT_ERROR));;
      rt_thread_resume thread;;
      mret tt) tt;;
  mret RT_EOK.

(** [rt_timer_control(..., RT_TIMER_CTRL_SET_TIME, &time); rt_timer_start(...)] on
    the timer of the thread that waits. *)
Definition start_thread_timer (thread : ptr) (time : Z) : K unit :=
  rt_timer_control (TThread thread) RT_TIMER_CTRL_SET_TIME (u32 time);;
  rt_timer_start (TThread thread);;
  mret tt.

(** [timeout -= rt_tick_get() - tick_delta; if (timeout < 0) timeout = 0] *)
Definition remaining_timeout (timeout tick_delta : Z) : K Z :=
  if 0 <? timeout then
    now ← rt_tick_get;
    let timeout := s32 (timeout - u32 (now - tick_delta)) in
    mret (if timeout <? 0 then 0 else timeout)
  else mret timeout.

(** A list of suspended threads ordered as the flag says. *)
Definition suspend_order (flag : Z) (prio : ptr -> Z) (l : list ptr) : Prop :=
  flag = RT_IPC_FLAG_PRIO -> StronglySorted (fun a b => prio a <= prio b) l.

(** ** Suspension *)

Definition prio_of (s : kstate) (t : ptr) : Z :=
  match threads s !! t with Some th => th_current_priority th | None => 0 end.

(** Where [find_lower] puts a thread of priority [k]: behind those that are not lower. *)
Fixpoint prio_insert (prio : ptr -> Z) (k : Z) (t : ptr) (l : list ptr) : list ptr :=
  match l with
  | [] => [t]
  | u :: l' => if k <? prio u then t :: u :: l' else u :: prio_insert prio k t l'
  end.

Lemma prio_insert_perm prio k t l : prio_insert prio k t l ≡ₚ t :: l.
Proof.
  induction l as [|u l IH]; simpl; [done|]. destruct (k <? prio u); [done|].
  rewrite IH. apply Permutation_swap.
Qed.

Lemma prio_insert_sorted prio t l :
  StronglySorted (fun a b => prio a <= prio b) l ->
  StronglySorted (fun a b => prio a <= prio b) (prio_insert prio (prio t) t l).
Proof.
  induction 1 as [|u l Hs IH Hle]; simpl; [apply SSorted_cons; [apply SSorted_nil|done]|].
  destruct (Z.ltb_spec (prio t) (prio u)).
  - apply SSorted_cons; [by apply SSorted_cons|]. apply Forall_cons. split; [lia|].
    rewrite Forall_forall in *. intros x Hx. specialize (Hle x Hx). lia.
  - apply SSorted_cons; [done|]. rewrite Forall_forall in *. intros x. rewrite prio_insert_perm, elem_of_cons.
    intros [->|Hx]; [lia|auto].
Qed.

Lemma prio_insert_split prio k t l : exists l1 l2, prio_insert prio k t l = l1 ++ t :: l2 /\ l = l1 ++ l2.
Proof.
  induction l as [|v l (l1 & l2 & E & El)]; simpl; [by exists [], []|].
  destruct (k <? prio v); [by exists [], (v :: l)|]. exists (v :: l1), l2. by rewrite E, El.
Qed.

(** Threads of the same priority are served in the order of their arrival. *)
Lemma prio_insert_stable prio k t l u :
  StronglySorted (fun a b => prio a <= prio b) l -> u ∈ l -> prio u = k ->
  exists l1 l2, prio_insert prio k t l = l1 ++ t :: l2 /\ u ∈ l1.
Proof.
  induction 1 as [|v l Hs IH Hle]; [by intros ?%elem_of_nil|]. intros Hin Hu. simpl.
  rewrite Forall_forall in Hle. apply elem_of_cons in Hin as [->|Hin].
  - replace (k <? prio v) with false by lia. destruct (prio_insert_split prio k t l) as (l1 & l2 & -> & _).
    exists (v :: l1), l2. split; [done|left].
  - pose proof (Hle u Hin). replace (k <? prio v) with false by lia.
    destruct (IH Hin Hu) as (l1 & l2 & -> & Hu1). exists (v :: l1), l2. split; [done|by right].
Qed.

Lemma find_lower_spec s k l :
  Forall (fun u => is_Some (threads s !! u)) l ->
  wp (find_lower k l) (fun o s' => s' = s /\
    match o with
    | None => Forall (fun u => prio_of s u <= k) l
    | Some u => exists l1 l2, l = l1 ++ u :: l2 /\ Forall (fun u => prio_of s u <= k) l1 /\ k < prio_of s u
    end) s.
Proof.
  induction 1 as [|u l [th E] _ IH]; simpl; [wp_step; by split|].
  wp_step. eapply wp_get_thread; [done|].
  assert (prio_of s u = th_current_priority th) as Eu by (unfold prio_of; by rewrite E).
  destruct (Z.ltb_spec k (th_current_priority th)).
  - wp_step. split; [done|]. exists [], l. split_and!; [done|done|lia].
  - eapply wp_mono; [exact IH|]. intros [v|] s' [-> Hv]; (split; [done|]).
    + destruct Hv as (l1 & l2 & -> & Hl1 & Hk). exists (u :: l1), l2. split_and!; [done| |done].
      apply Forall_cons. split; [lia|done].
    + apply Forall_cons. split; [lia|done].
Qed.

Lemma prio_insert_end prio k t l : Forall (fun u => prio u <= k) l -> prio_insert prio k t l = l ++ [t].
Proof.
  induction 1 as [|u l Hu _ IH]; simpl; [done|].
  destruct (Z.ltb_spec k (prio u)); [lia|]. by rewrite IH.
Qed.

Lemma prio_insert_mid prio k t l1 u l2 :
  Forall (fun u => prio u <= k) l1 -> k < prio u ->
  prio_insert prio k t (l1 ++ u :: l2) = l1 ++ t :: u :: l2.
Proof.
  intros Hl Hu. induction Hl as [|v l Hv _ IH]; simpl.
  - destruct (Z.ltb_spec k (prio u)); [done|lia].
  - destruct (Z.ltb_spec k (prio v)); [lia|]. by rewrite IH.
Qed.

(** The list of an object after thread [t] has joined it. *)
Definition join (flag : Z) (s : kstate) (t : ptr) (l : list ptr) : list ptr :=
  if flag =? RT_IPC_FLAG_FIFO then l ++ [t] else prio_insert (prio_of s) (prio_of s t) t l.

(** A suspended thread that is on no list joins a list of waiting threads. *)
Lemma suspended_insert s l t th l' :
  kinv ∅ s -> threads s !! t = Some th -> th_stat th = RT_THREAD_SUSPEND -> ~ Abs.linked t (tlists s) ->
  (forall p, l <> LReady p) -> l <> LDefunct -> l' ≡ₚ t :: (tlists s !!! l) ->
  kinv ∅ (set_tlists (<[l := l']> (tlists s)) s).
Proof.
  intros Hk E Hst Hun Hl Hd Hp. destruct (kinv_thread _ _ _ _ Hk (not_elem_of_empty t) E) as [C1 C2 C3 C4 C5 C6 C7].
  assert (sched_inv (∅ ∪ {[t]}) (set_tlists (<[l := l']> (tlists s)) s)) as Hs2.
  { eapply wait_inv; [apply Hk|done|eauto|done|done]. }
  eapply kinv_readmit; [eapply kinv_step; [exact Hk|exact Hs2|done|done|done|done|eauto]|exact E|].
  split; [done|done|done|done|done| |by rewrite Hst].
  intros k Hin. simpl in Hin. destruct (decide (l = k)) as [<-|Hne].
  - destruct l; simpl; try done. by destruct (Hl prio).
  - rewrite lookup_total_insert_ne in Hin by done. exfalso. apply Hun, Abs.linked_spec. eauto.
Qed.

Lemma rt_ipc_list_suspend_spec s l t th flag :
  kinv ∅ s -> threads s !! t = Some th -> th_stat th = RT_THREAD_READY ->
  (forall p, l <> LReady p) -> l <> LDefunct -> flag = RT_IPC_FLAG_FIFO \/ flag = RT_IPC_FLAG_PRIO ->
  wp (rt_ipc_list_suspend l t flag) (fun e s' => e = RT_EOK /\ kinv ∅ s' /\ frame0 s s' /\
    threads s' = <[t := set_th_stat RT_THREAD_SUSPEND th]> (threads s) /\
    tlists s' = <[l := join flag s t (tlists s !!! l)]> (Abs.remove t (tlists s)) /\
    TThread t ∉ last_row s') s.
Proof.
  intros Hk E Hst Hl Hd Hfl. pose proof (ki_sched _ _ Hk) as Hs.
  destruct (kinv_thread _ _ _ _ Hk (not_elem_of_empty t) E) as [C1 C2 C3 C4 C5 C6 C7].
  assert (t ∉ tlists s !!! l) as Hnl.
  { intros Hin. pose proof (Abs.wf_disj _ (si_wf _ _ Hs) _ _ _ Hin (C7 Hst)). by eapply Hl. }
  unfold rt_ipc_list_suspend. wp_step.
  eapply wp_mono; [apply (rt_thread_suspend_spec ∅ s t th); [done|apply not_elem_of_empty|done|done]|].
  intros e s1 (_ & Hk1 & Hf1 & Eth1 & Etl1 & Hn1).
  set (th1 := set_th_stat RT_THREAD_SUSPEND th) in *.
  assert (threads s1 !! t = Some th1) as E1 by (rewrite Eth1; apply lookup_insert_eq).
  assert (~ Abs.linked t (tlists s1)) as Hun by (rewrite Etl1; apply not_linked_removed).
  assert (tlists s1 !!! l = tlists s !!! l) as Ell.
  { rewrite Etl1, Abs.lookup_remove. by apply list_del_not_in. }
  assert (forall u, prio_of s1 u = prio_of s u) as Hpr.
  { intros u. unfold prio_of. rewrite Eth1. destruct (decide (u = t)) as [->|];
      [by rewrite lookup_insert_eq, E|by rewrite lookup_insert_ne]. }
  (* the insertion, whatever the place *)
  assert (forall s2 l', s2 = set_tlists (<[l := l']> (tlists s1)) s1 -> l' ≡ₚ t :: (tlists s1 !!! l) ->
    l' = join flag s t (tlists s !!! l) ->
    RT_EOK = RT_EOK /\ kinv ∅ s2 /\ frame0 s s2 /\ threads s2 = <[t := th1]> (threads s) /\
    tlists s2 = <[l := join flag s t (tlists s !!! l)]> (Abs.remove t (tlists s)) /\ TThread t ∉ last_row s2) as Hdone.
  { intros s2 l' -> Hp El'. split_and!; [done| |etrans; [exact Hf1|done]|done|simpl; by rewrite El', Etl1|done].
    by apply (suspended_insert s1 l t th1). }
  wp_step. destruct Hfl as [->| ->]; simpl.
  - apply wp_tlist_insert; [done|]. wp_step. eapply Hdone; [done|by rewrite Permutation_app_comm|].
    unfold join. simpl. by rewrite Ell.
  - wp_step. eapply wp_get_thread; [done|]. wp_step. wp_step. wp_step.
    assert (Forall (fun u => is_Some (threads s1 !! u)) (tlists s1 !!! l)) as Hex.
    { rewrite Forall_forall. intros u Hu. by eapply (si_exist _ _ (ki_sched _ _ Hk1)). }
    assert (prio_of s t = th_current_priority th) as Ept by (unfold prio_of; by rewrite E).
    eapply wp_mono; [apply (find_lower_spec s1 _ _ Hex)|]. intros [u|] s2 [-> Hu].
    + destruct Hu as (l1 & l2 & Elu & Hl1 & Hku).
      pose proof (Abs.wf_nodup _ (si_wf _ _ (ki_sched _ _ Hk1)) l) as Hnd. rewrite Elu in Hnd.
      assert (u ∉ l1) as Hul. { intros Hin. apply NoDup_app in Hnd as (_ & Hdj & _). apply (Hdj u Hin). left. }
      apply wp_tlist_insert; [done|]. wp_step. unfold Abs.insert_before_node.
      eapply Hdone; [done| |]; rewrite Elu, Abs.ins_before_split by done.
      * by rewrite Permutation_middle.
      * unfold join. simpl. rewrite <- Ell, Elu. symmetry. apply prio_insert_mid.
        -- rewrite Forall_forall in *. intros v Hv. specialize (Hl1 v Hv). rewrite Hpr in Hl1. simpl in Hl1. lia.
        -- rewrite Hpr in Hku. simpl in Hku. lia.
    + apply wp_tlist_insert; [done|]. wp_step. eapply Hdone; [done|by rewrite Permutation_app_comm|].
      unfold join. simpl. rewrite <- Ell. symmetry. apply prio_insert_end.
      rewrite Forall_forall in *. intros v Hv. specialize (Hu v Hv). rewrite Hpr in Hu. simpl in Hu. lia.
Qed.

(** ** Resumption *)

(** After the first waiting thread has been resumed *)
Definition first_woken (s : kstate) (t : ptr) (th : rt_thread) (s1 : kstate) : Prop :=
  kinv ∅ s1 /\ frame0 s s1 /\ threads s1 = resumed_threads t th s /\ tlists s1 = resumed_lists t th s /\
  TThread t ∉ last_row s1.

(** The first waiting thread becomes ready. *)
Lemma rt_ipc_list_resume_spec s l t ws th :
  kinv ∅ s -> tlists s !!! l = t :: ws -> (forall p, l <> LReady p) -> l <> LDefunct ->
  threads s !! t = Some th ->
  wp (rt_ipc_list_resume l) (fun e s' => e = RT_EOK /\ first_woken s t th s') s.
Proof.
  intros Hk El Hl Hd E. destruct (kinv_thread _ _ _ _ Hk (not_elem_of_empty t) E) as [_ _ _ _ _ C6 _].
  assert (th_stat th = RT_THREAD_SUSPEND) as Hst.
  { specialize (C6 l). rewrite El in C6. specialize (C6 ltac:(left)). destruct l; try done. by destruct (Hl prio). }
  unfold rt_ipc_list_resume. wp_step. eapply wp_tlist_first; [by rewrite El|]. wp_step.
  eapply wp_mono; [apply (rt_thread_resume_spec ∅ s t th); [done|apply not_elem_of_empty|done|done]|].
  intros e s' (_ & Hpost). wp_step. by split.
Qed.

(** The waiting list after the first thread has left it *)
Lemma resumed_lists_wait s l t ws th :
  Abs.store_wf (tlists s) -> tlists s !!! l = t :: ws -> (forall p, l <> LReady p) ->
  resumed_lists t th s !!! l = ws /\
  forall l', l' <> l -> (forall p, l' <> LReady p) -> resumed_lists t th s !!! l' = tlists s !!! l'.
Proof.
  intros Hwf El Hl. unfold resumed_lists. split.
  - rewrite lookup_insert_back, decide_False by (intros E; by apply (Hl (th_current_priority th))).
    rewrite Abs.lookup_remove, El. apply list_del_head. rewrite <- El. apply Hwf.
  - intros l' Hne Hl'. rewrite lookup_insert_back, decide_False by (intros E; by apply (Hl' (th_current_priority th))).
    rewrite Abs.lookup_remove. apply list_del_not_in. intros Hin. apply Hne.
    apply (Abs.wf_disj _ Hwf _ _ t); [done|]. rewrite El. left.
Qed.

(** ** Resumption of all *)

(** What happens to a thread whose object goes away *)
Definition woken (th : rt_thread) : rt_thread :=
  set_th_stat RT_THREAD_READY (set_th_error (- RT_ERROR) th).

Lemma suspended_on s l t th :
  kinv ∅ s -> threads s !! t = Some th -> t ∈ tlists s !!! l -> (forall p, l <> LReady p) -> l <> LDefunct ->
  th_stat th = RT_THREAD_SUSPEND.
Proof.
  intros Hk E Hin Hl Hd. destruct (kinv_thread _ _ _ _ Hk (not_elem_of_empty t) E) as [_ _ _ _ _ C6 _].
  specialize (C6 l Hin). destruct l; try done. by destruct (Hl prio).
Qed.

Lemma list_first_thread s l t ws :
  kinv ∅ s -> tlists s !!! l = t :: ws -> exists th, threads s !! t = Some th.
Proof. intros Hk El. apply (si_exist _ _ (ki_sched _ _ Hk) l). rewrite El. left. Qed.

Section resume_all.
Context (s0 : kstate) (l : list_id) (Hl : forall p, l <> LReady p) (Hd : l <> LDefunct).

(** [gone] have been resumed, [rest] still wait. *)
Record resuming (gone rest : list ptr) (s : kstate) : Prop := {
  ra_kinv : kinv ∅ s;
  ra_frame : frame0 s0 s;
  ra_split : tlists s0 !!! l = gone ++ rest;
  ra_rest : tlists s !!! l = rest;
  ra_other : forall l', l' <> l -> (forall p, l' <> LReady p) -> tlists s !!! l' = tlists s0 !!! l';
  ra_threads : forall u, threads s !! u =
    if decide (u ∈ gone) then woken <$> threads s0 !! u else threads s0 !! u
}.

Lemma resume_one_spec gone t rest s :
  kinv ∅ s0 -> resuming gone (t :: rest) s ->
  wp (thread ← tlist_first l; upd_thread thread (set_th_error (- RT_ERROR));; rt_thread_resume thread;; mret tt)
     (fun _ s' => resuming (gone ++ [t]) rest s' /\ exists p, ready s' p <> []) s.
Proof.
  intros Hk0 [Hk Hf Hsp Hr Ho Hth]. destruct (list_first_thread _ _ _ _ Hk Hr) as [th E].
  assert (t ∉ gone) as Hng.
  { pose proof (Abs.wf_nodup _ (si_wf _ _ (ki_sched _ _ Hk0)) l) as Hnd. rewrite Hsp in Hnd.
    apply NoDup_app in Hnd as (_ & Hdj & _). intros Hin. apply (Hdj t Hin). left. }
  assert (threads s0 !! t = Some th) as E0 by (rewrite Hth, decide_False in E by done; done).
  wp_step. eapply wp_tlist_first; [by rewrite Hr|]. wp_step. eapply wp_upd_thread; [done|].
  assert (th_stat th = RT_THREAD_SUSPEND) as Hst.
  { eapply (suspended_on s l); [done|done|rewrite Hr; left|done|done]. }
  set (th1 := set_th_error _ th). set (s1 := set_threads _ s).
  assert (kinv ∅ s1) as Hk1 by (by eapply kinv_retouch).
  assert (threads s1 !! t = Some th1) as E1 by apply lookup_insert_eq.
  wp_step. eapply wp_mono; [apply (rt_thread_resume_spec ∅ s1 t th1); [done|apply not_elem_of_empty|done|done]|].
  intros e s2 (_ & Hk2 & Hf2 & Eth2 & Etl2 & _). wp_step.
  destruct (resumed_lists_wait s1 l t rest th1 (si_wf _ _ (ki_sched _ _ Hk1)) Hr Hl) as [W1 W2].
  split; [|by eapply insert_back_ready]. split.
  - done.
  - etrans; [exact Hf|]. etrans; [|exact Hf2]. done.
  - by rewrite <- app_assoc.
  - by rewrite Etl2.
  - intros l' Hne Hl'. rewrite Etl2, W2 by done. by apply Ho.
  - intros u. rewrite Eth2. unfold resumed_threads. simpl. rewrite insert_insert_eq.
    destruct (decide (u = t)) as [->|Hne].
    + rewrite lookup_insert_eq, decide_True, E0; [done|]. apply elem_of_app. right. by apply list_elem_of_singleton.
    + rewrite lookup_insert_ne, Hth by done. apply decide_ext. rewrite elem_of_app, list_elem_of_singleton. naive_solver.
Qed.

(** Every waiting thread is made ready with the error [-RT_ERROR]. *)
Lemma rt_ipc_list_resume_all_spec :
  kinv ∅ s0 ->
  wp (rt_ipc_list_resume_all l) (fun e s' => e = RT_EOK /\ resuming (tlists s0 !!! l) [] s' /\
    (tlists s0 !!! l <> [] -> exists p, ready s' p <> []) /\ (tlists s0 !!! l = [] -> s' = s0)) s0.
Proof.
  intros Hk0. unfold rt_ipc_list_resume_all. wp_step. wp_step. wp_step.
  apply (wp_while (fun _ s => exists gone rest, resuming gone rest s /\
      (gone <> [] -> exists p, ready s p <> []) /\ (gone = [] -> s = s0))
    (fun _ s => length (tlists s !!! l))).
  - exists [], (tlists s0 !!! l). split; [|done]. split; [done|done|done|done|done|].
    intros u. rewrite decide_False; [done|apply not_elem_of_nil].
  - lia.
  - intros [] s (gone & rest & Hr & Hne & He). wp_step. unfold tlist_isempty. wp_step. wp_step.
    rewrite (ra_rest _ _ _ Hr). destruct rest as [|t rest]; simpl.
    + wp_step. pose proof (ra_split _ _ _ Hr) as Es. rewrite app_nil_r in Es. rewrite Es. done.
    + eapply wp_mono; [by apply (resume_one_spec gone t rest s)|]. intros [] s' [Hr' Hex].
      rewrite (ra_rest _ _ _ Hr'). split; [|lia]. exists (gone ++ [t]), rest. split_and!; [done|done|].
      intros E. by destruct gone.
Qed.
End resume_all.

(** ** Blocking and waking *)

Definition set_error (t : ptr) (th : rt_thread) (e : Z) (s : kstate) : kstate :=
  set_threads (<[t := set_th_error e th]> (threads s)) s.

Definition waiting_list (l : list_id) : Prop := (forall p, l <> LReady p) /\ l <> LDefunct.

Lemma suspend_waiting o : waiting_list (LSuspend o).
Proof. done. Qed.
Lemma sender_waiting o : waiting_list (LSender o).
Proof. done. Qed.

Definition flag_ok (flag : Z) : Prop := flag = RT_IPC_FLAG_FIFO \/ flag = RT_IPC_FLAG_PRIO.

(** The state in which thread [t] has given up the processor to wait on list [l],
    which is now [ws], with a timeout when [time] is positive. *)
Record blocked_at (s : kstate) (l : list_id) (t : ptr) (th : rt_thread) (ws : list ptr) (time : Z)
    (s' : kstate) : Prop := {
  bk_kinv : kinv ∅ s';
  bk_frame : frame s s';
  bk_threads : threads s' = <[t := set_th_stat RT_THREAD_SUSPEND th]> (threads s);
  bk_lists : tlists s' = <[l := ws]> (Abs.remove t (tlists s));
  bk_timer : if 0 <? time then TThread t ∈ last_row s' /\
      exists tm, timers s' !! TThread t = Some tm /\ tm_timeout_tick tm = u32 (rt_tick s + time)
    else TThread t ∉ last_row s';
  bk_next : rt_scheduler_lock_nest s = 0 -> next_thread s' (rt_current_thread s')
}.

(** The same, in the order of the object's flag *)
Definition blocked (s : kstate) (l : list_id) (t : ptr) (th : rt_thread) (flag time : Z) : kstate -> Prop :=
  blocked_at s l t th (join flag s t (tlists s !!! l)) time.

Lemma start_thread_timer_spec s t th time (Q : unit -> kstate -> Prop) :
  kinv ∅ s -> threads s !! t = Some th -> th_stat th = RT_THREAD_SUSPEND -> t <> RT_NULL ->
  0 <= time < HALF_TICK ->
  (forall s' tm, kinv ∅ s' -> frame0 s s' -> threads s' = threads s -> tlists s' = tlists s ->
     timers s' !! TThread t = Some tm -> tm_timeout_tick tm = u32 (rt_tick s + time) ->
     TThread t ∈ last_row s' -> Q tt s') ->
  wp (start_thread_timer t time) Q s.
Proof.
  intros Hk E Hst Hnn Ht HQ. unfold start_thread_timer.
  replace (u32 time) with time by (change HALF_TICK with 2147483647 in Ht; by rewrite uwrap_small by lia).
  apply wp_bind_assoc. wp_step. eapply arm_thread_timer; [done..|].
  intros s' tm Hk' Hf Eth Etl Etm Htm Hin. wp_step. by eapply HQ.
Qed.

(** Behind [rt_ipc_list_suspend]: the timer is armed and the processor given up. *)
Lemma wait_tail {A} s l t th ws time s1 (k : K A) (Q : A -> kstate -> Prop) :
  kinv ∅ s -> threads s !! t = Some th -> other_ready s t -> waiting_list l -> time < HALF_TICK ->
  kinv ∅ s1 -> frame0 s s1 -> threads s1 = <[t := set_th_stat RT_THREAD_SUSPEND th]> (threads s) ->
  tlists s1 = <[l := ws]> (Abs.remove t (tlists s)) -> TThread t ∉ last_row s1 ->
  (forall s', blocked_at s l t th ws time s' -> wp k Q s') ->
  wp (when (0 <? time) (start_thread_timer t time);; rt_schedule;; k) Q s1.
Proof.
  intros Hk E Hoth [Hl Hd] Ht Hk1 Hf1 Eth1 Etl1 Hn1 HQ.
  pose proof (ok_nonnull _ _ _ (kinv_thread _ _ _ _ Hk (not_elem_of_empty t) E)) as Hnn.
  assert (threads s1 !! t = Some (set_th_stat RT_THREAD_SUSPEND th)) as E1 by (rewrite Eth1; apply lookup_insert_eq).
  assert (forall s2, tlists s2 = tlists s1 -> exists p, ready s2 p <> []) as Hex.
  { intros s2 Es2. destruct Hoth as (q & u & Hu & Hin). apply (ready_nonempty s2 u q). unfold ready.
    rewrite Es2, Etl1, lookup_total_insert_ne by apply Hl. by rewrite Abs.lookup_remove, elem_of_list_del. }
  pose proof (fr0_frame _ _ Hf1) as F1. wp_step. destruct (Z.ltb_spec 0 time) as [Hp|Hp]; simpl.
  - eapply start_thread_timer_spec; [exact Hk1|exact E1|done|done|lia|].
    intros s2 tm Hk2 Hf2 Eth2 Etl2 Etm Htm Hin. pose proof (fr0_frame _ _ Hf2) as F2.
    wp_step. apply rt_schedule_kinv; [done|by apply Hex|].
    intros s3 Hk3 Hf3 Eth3 Etl3 Etm3 Er3 Hnext. apply HQ.
    split; [done|etrans; [exact F1|by etrans]|congruence|congruence| |].
    + replace (0 <? time) with true by lia. rewrite (last_row_eq _ _ Er3). split; [done|].
      exists tm. by rewrite Etm3, Htm, (fr_tick _ _ F1).
    + intros Hl0. apply Hnext. by rewrite (fr_lock _ _ F2), (fr_lock _ _ F1).
  - wp_step. wp_step. apply rt_schedule_kinv; [done|by apply Hex|].
    intros s3 Hk3 Hf3 Eth3 Etl3 Etm3 Er3 Hnext. apply HQ.
    split; [done|by etrans|congruence|congruence| |].
    + replace (0 <? time) with false by lia. by rewrite (last_row_eq _ _ Er3).
    + intros Hl0. apply Hnext. by rewrite (fr_lock _ _ F1).
Qed.

Lemma wait_on {A} s l t th flag time (k : K A) (Q : A -> kstate -> Prop) :
  kinv ∅ s -> threads s !! t = Some th -> th_stat th = RT_THREAD_READY -> other_ready s t ->
  waiting_list l -> flag_ok flag -> time < HALF_TICK ->
  (forall s', blocked s l t th flag time s' -> wp k Q s') ->
  wp (rt_ipc_list_suspend l t flag;; when (0 <? time) (start_thread_timer t time);; rt_schedule;; k) Q s.
Proof.
  intros Hk E Hst Hoth Hl Hfl Ht HQ. pose proof Hl as [Hl1 Hl2].
  wp_step. eapply wp_mono; [by apply (rt_ipc_list_suspend_spec s l t th flag)|].
  intros e s1 (_ & Hk1 & Hf1 & Eth1 & Etl1 & Hn1). by eapply (wait_tail s).
Qed.

(** The same, where the tick at which the timer starts is kept *)
Lemma wait_tail_tick {A} s l t th ws time td s1 (k : Z -> K A) (Q : A -> kstate -> Prop) :
  kinv ∅ s -> threads s !! t = Some th -> other_ready s t -> waiting_list l -> time < HALF_TICK ->
  kinv ∅ s1 -> frame0 s s1 -> threads s1 = <[t := set_th_stat RT_THREAD_SUSPEND th]> (threads s) ->
  tlists s1 = <[l := ws]> (Abs.remove t (tlists s)) -> TThread t ∉ last_row s1 ->
  (forall s', blocked_at s l t th ws time s' -> wp (k (if 0 <? time then rt_tick s else td)) Q s') ->
  wp (y ← (if 0 <? time then now ← rt_tick_get; start_thread_timer t time;; mret now else mret td);
      rt_schedule;; k y) Q s1.
Proof.
  intros Hk E Hoth Hl Ht Hk1 Hf1 Eth1 Etl1 Hn1 HQ.
  pose proof (wait_tail s l t th ws time s1 (k (if 0 <? time then rt_tick s else td)) Q Hk E Hoth Hl Ht Hk1 Hf1 Eth1 Etl1 Hn1 HQ) as Hw.
  rewrite <- (fr_tick _ _ (fr0_frame _ _ Hf1)) in Hw. destruct (0 <? time); simpl in *; [|exact Hw].
  unfold rt_tick_get. wp_step. wp_step. wp_step. wp_step. apply wp_bind_inv in Hw. eapply wp_mono; [exact Hw|].
  intros [] s2 Hs2. by wp_step.
Qed.

Lemma wait_on_tick {A} s l t th flag time td (k : Z -> K A) (Q : A -> kstate -> Prop) :
  kinv ∅ s -> threads s !! t = Some th -> th_stat th = RT_THREAD_READY -> other_ready s t ->
  waiting_list l -> flag_ok flag -> time < HALF_TICK ->
  (forall s', blocked s l t th flag time s' -> wp (k (if 0 <? time then rt_tick s else td)) Q s') ->
  wp (rt_ipc_list_suspend l t flag;;
      y ← (if 0 <? time then now ← rt_tick_get; start_thread_timer t time;; mret now else mret td);
      rt_schedule;; k y) Q s.
Proof.
  intros Hk E Hst Hoth Hl Hfl Ht HQ. pose proof Hl as [Hl1 Hl2].
  wp_step. eapply wp_mono; [by apply (rt_ipc_list_suspend_spec s l t th flag)|].
  intros e s1 (_ & Hk1 & Hf1 & Eth1 & Etl1 & Hn1). by eapply (wait_tail_tick s).
Qed.

(** The state in which the first thread waiting on [l] has been made ready and the
    scheduler has run. *)
Record handed (s : kstate) (l : list_id) (t : ptr) (ws : list ptr) (th : rt_thread) (s' : kstate) : Prop := {
  hd_kinv : kinv ∅ s';
  hd_frame : frame s s';
  hd_threads : threads s' = resumed_threads t th s;
  hd_rest : tlists s' !!! l = ws;
  hd_ready : ready s' (th_current_priority th) = ready s (th_current_priority th) ++ [t];
  hd_other : forall l', l' <> l -> l' <> LReady (th_current_priority th) -> tlists s' !!! l' = tlists s !!! l';
  hd_timer : TThread t ∉ last_row s';
  hd_next : rt_scheduler_lock_nest s = 0 -> next_thread s' (rt_current_thread s')
}.

Lemma resumed_lists_other s l t ws th l' :
  Abs.store_wf (tlists s) -> tlists s !!! l = t :: ws -> l' <> l -> l' <> LReady (th_current_priority th) ->
  resumed_lists t th s !!! l' = tlists s !!! l'.
Proof.
  intros Hwf El Hne Hl'. unfold resumed_lists. rewrite lookup_insert_back, decide_False by done.
  rewrite Abs.lookup_remove. apply list_del_not_in. intros Hin. apply Hne.
  apply (Abs.wf_disj _ Hwf _ _ t); [done|]. rewrite El. left.
Qed.

Lemma resumed_lists_ready s l t ws th :
  Abs.store_wf (tlists s) -> tlists s !!! l = t :: ws -> (forall p, l <> LReady p) ->
  resumed_lists t th s !!! LReady (th_current_priority th) = ready s (th_current_priority th) ++ [t].
Proof.
  intros Hwf El Hl. unfold resumed_lists. rewrite lookup_insert_back, decide_True by done. f_equal.
  rewrite Abs.lookup_remove. apply list_del_not_in. intros Hin. apply (Hl (th_current_priority th)).
  apply (Abs.wf_disj _ Hwf _ _ t); [|done]. rewrite El. left.
Qed.

Lemma schedule_handed s l t ws th s1 (Q : unit -> kstate -> Prop) :
  kinv ∅ s -> tlists s !!! l = t :: ws -> waiting_list l -> first_woken s t th s1 ->
  (forall s', handed s l t ws th s' -> Q tt s') -> wp rt_schedule Q s1.
Proof.
  intros Hk El [Hl Hd] (Hk1 & Hf1 & Eth1 & Etl1 & Hn1) HQ.
  pose proof (si_wf _ _ (ki_sched _ _ Hk)) as Hwf. pose proof (fr0_frame _ _ Hf1) as F1.
  apply rt_schedule_kinv; [done|by eapply insert_back_ready|].
  intros s2 Hk2 Hf2 Eth2 Etl2 Etm2 Er2 Hnext. apply HQ.
  split; [done|by etrans|congruence| | | | |].
  - rewrite Etl2, Etl1. by eapply resumed_lists_wait.
  - unfold ready. rewrite Etl2, Etl1. by eapply resumed_lists_ready.
  - intros l' Hne Hl'. rewrite Etl2, Etl1. by eapply resumed_lists_other.
  - by rewrite (last_row_eq _ _ Er2).
  - intros Hl0. apply Hnext. by rewrite (fr_lock _ _ F1).
Qed.

(** An object has changed in [s], and then the first thread waiting on [l], if any, was woken. *)
Definition notified (s : kstate) (l : list_id) (s' : kstate) : Prop :=
  match tlists s !!! l with
  | [] => s' = s
  | u :: ws => exists uth, threads s !! u = Some uth /\ handed s l u ws uth s'
  end.

Lemma notify_spec {A} s l (r : A) :
  kinv ∅ s -> waiting_list l ->
  wp (e ← tlist_isempty l;
      if e : bool then mret r else rt_ipc_list_resume l;; rt_schedule;; mret r)
     (fun r' s' => r' = r /\ notified s l s') s.
Proof.
  intros Hk Hl. unfold tlist_isempty, notified. wp_step. wp_step.
  destruct (tlists s !!! l) as [|u ws] eqn:El; simpl; [by wp_step|]. pose proof Hl as [Hl1 Hl2].
  destruct (list_first_thread _ _ _ _ Hk El) as [uth Eu]. wp_step.
  eapply wp_mono; [by eapply (rt_ipc_list_resume_spec s l u ws uth)|]. intros e s1 [_ Hw].
  wp_step. eapply (schedule_handed s); [done|done|done|done|]. intros s' Hh. wp_step. eauto.
Qed.

Lemma notified_frame s l s' : kinv ∅ s -> notified s l s' -> kinv ∅ s' /\ frame s s'.
Proof.
  intros Hk. unfold notified. destruct (tlists s !!! l); [by intros ->|].
  intros (uth & _ & Hh). split; apply Hh.
Qed.

(** The waiting threads of object [o] have been sent away with the error [-RT_ERROR]. *)
Definition all_sent_away (s : kstate) (o : ptr) (s' : kstate) : Prop :=
  tlists s' !!! LSuspend o = [] /\
  forall u, threads s' !! u =
    if decide (u ∈ tlists s !!! LSuspend o) then woken <$> threads s !! u else threads s !! u.

Lemma resume_all_waiters s o :
  kinv ∅ s ->
  wp (rt_ipc_list_resume_all (LSuspend o)) (fun _ s' => kinv ∅ s' /\ frame0 s s' /\ all_sent_away s o s' /\
    (forall u p, u ∈ ready s p -> exists q, ready s' q <> [])) s.
Proof.
  intros Hk. eapply wp_mono; [by apply (rt_ipc_list_resume_all_spec s (LSuspend o))|].
  intros e s' (_ & Hr & Hne & He). split_and!; [apply Hr|apply Hr|split; apply Hr|].
  intros u p Hin. destruct (decide (tlists s !!! LSuspend o = [])) as [E|]; [|by apply Hne].
  rewrite (He E). by eapply ready_nonempty.
Qed.

(** What is left of a timeout after waiting *)
Definition rest_of (s : kstate) (timeout td : Z) : Z :=
  if 0 <? timeout then Z.max 0 (timeout - u32 (rt_tick s - td)) else timeout.

Lemma remaining_timeout_spec s timeout td :
  timeout < HALF_TICK -> u32 (rt_tick s - td) < 2 ^ 31 ->
  remaining_timeout timeout td s = Ok (rest_of s timeout td) s.
Proof.
  intros Ht Hd. change HALF_TICK with 2147483647 in Ht. unfold remaining_timeout, rest_of, rt_tick_get.
  destruct (Z.ltb_spec 0 timeout); [|done]. unfold mbind, M_bind, gets. simpl.
  pose proof (uwrap_range 32 (rt_tick s - td) ltac:(lia)). rewrite (swrap_small 32) by lia.
  destruct (Z.ltb_spec (timeout - u32 (rt_tick s - td)) 0); unfold mret, M_ret; f_equal; lia.
Qed.

Lemma rest_of_bound s timeout td : timeout < HALF_TICK -> rest_of s timeout td < HALF_TICK.
Proof.
  change HALF_TICK with 2147483647. intros Ht. unfold rest_of. pose proof (uwrap_range 32 (rt_tick s - td) ltac:(lia)).
  destruct (Z.ltb_spec 0 timeout); lia.
Qed.

(** ** Properties *)

Lemma prio_insert_bounds prio k t l :
  StronglySorted (fun a b => prio a <= prio b) l ->
  exists l1 l2, prio_insert prio k t l = l1 ++ t :: l2 /\ l = l1 ++ l2 /\
    Forall (fun u => prio u <= k) l1 /\ Forall (fun u => k < prio u) l2.
Proof.
  induction 1 as [|u l Hs IH Hall]; simpl; [by exists [], []|]. destruct (Z.ltb_spec k (prio u)) as [Hlt|Hge].
  - exists [], (u :: l). split_and!; [done|done|done|]. constructor; [done|].
    eapply Forall_impl; [exact Hall|]. simpl. intros. lia.
  - destruct IH as (l1 & l2 & -> & -> & F1 & F2). exists (u :: l1), l2. split_and!; [done|done|by constructor|done].
Qed.

Lemma ssorted_ext (f g : ptr -> Z) l :
  (forall u, g u = f u) -> StronglySorted (fun a b => f a <= f b) l -> StronglySorted (fun a b => g a <= g b) l.
Proof.
  intros Hfg. induction 1 as [|a l Hs IH Hall]; [apply SSorted_nil|]. apply SSorted_cons; [done|].
  eapply Forall_impl; [exact Hall|]. intros b. simpl. by rewrite !Hfg.
Qed.

(** [rt_ipc_list_suspend] keeps a waiting list in the order of its flag: the thread
    joins at the end of a first-in first-out list, and in a priority list behind every
    thread whose priority is not lower and before every lower one, so threads of equal
    priority stay in the order of their arrival. *)
Theorem rt_ipc_list_suspend_correct s l t th flag :
  kinv ∅ s -> threads s !! t = Some th -> th_stat th = RT_THREAD_READY -> waiting_list l -> flag_ok flag ->
  suspend_order flag (prio_of s) (tlists s !!! l) ->
  exists s' l1 l2, rt_ipc_list_suspend l t flag s = Ok RT_EOK s' /\ kinv ∅ s' /\
    tlists s !!! l = l1 ++ l2 /\ tlists s' !!! l = l1 ++ t :: l2 /\
    (flag = RT_IPC_FLAG_FIFO -> l2 = []) /\
    (flag = RT_IPC_FLAG_PRIO -> Forall (fun u => prio_of s u <= th_current_priority th) l1 /\
       Forall (fun u => th_current_priority th < prio_of s u) l2) /\
    suspend_order flag (prio_of s') (tlists s' !!! l).
Proof.
  intros Hk E Hst [Hl Hd] Hflag Hord.
  destruct (wp_ok _ _ _ (rt_ipc_list_suspend_spec s l t th flag Hk E Hst Hl Hd Hflag))
    as (e & s' & Er & -> & Hk' & _ & Hth & Hls & _).
  assert (tlists s' !!! l = join flag s t (tlists s !!! l)) as El by (by rewrite Hls, lookup_total_insert_eq).
  assert (forall u, prio_of s' u = prio_of s u) as Hp.
  { intros u. unfold prio_of. rewrite Hth. destruct (decide (u = t)) as [->|].
    - by rewrite lookup_insert_eq, E. - by rewrite lookup_insert_ne by done. }
  assert (prio_of s t = th_current_priority th) as Hpt by (unfold prio_of; by rewrite E).
  destruct Hflag as [->| ->].
  - exists s', (tlists s !!! l), []. rewrite El, app_nil_r. split_and!; done.
  - specialize (Hord eq_refl). unfold join in El. simpl in El.
    destruct (prio_insert_bounds (prio_of s) (prio_of s t) t _ Hord) as (l1 & l2 & E1 & E2 & F1 & F2).
    exists s', l1, l2. rewrite <- Hpt, El. split_and!; [done|done|done|done|done|done|].
    intros _. apply (ssorted_ext (prio_of s)); [done|by apply prio_insert_sorted].
Qed.

End ipc.
