(* ===== verification/Semaphore.v ===== *)
(** * Semaphores (src/ipc.c) *)
From stdpp Require Import base tactics numbers list gmap.
From S2P Require Import Prelude RtList Kernel Scheduler Object Timer Thread Ipc.
Local Open Scope Z_scope.

Section semaphore.
Context `{KConfig} `{Allocator}.

Definition get_sem (p : ptr) : K rt_semaphore := s ← get; opt BadPointer (sems s !! p).
Definition upd_sem (p : ptr) (f : rt_semaphore -> rt_semaphore) : K unit :=
  x ← get_sem p; modify (fun s => set_sems (<[p := f x]> (sems s)) s).

Definition sem_flag (x : rt_semaphore) : Z := obj_flag (sem_parent x).
Definition set_sem_flag (v : Z) (x : rt_semaphore) : rt_semaphore :=
  set_sem_parent (set_obj_flag v (sem_parent x)) x.

Definition rt_sem_init (sem : ptr) (name : list Z) (value flag : Z) : K Z :=
  nonnull sem;;
  modify (place (OSem sem));;
  rt_object_init (OSem sem) RT_Object_Class_Semaphore name;;
  rt_ipc_object_init sem;;
  upd_sem sem (set_sem_value (u16 value));;
  upd_sem sem (set_sem_flag (u8 flag));;
  mret RT_EOK.

Definition rt_sem_detach (sem : ptr) : K Z :=
  nonnull sem;;
  rt_ipc_list_resume_all (LSuspend sem);;
  rt_object_detach (OSem sem);;
  mret RT_EOK.

Definition rt_sem_create (name : list Z) (value flag : Z) : K ptr :=
  RT_DEBUG_NOT_IN_INTERRUPT;;
  sem ← rt_object_allocate RT_Object_Class_Semaphore name;
  if sem =? RT_NULL then mret sem
  else
    rt_ipc_object_init sem;;
    upd_sem sem (set_sem_value (u16 value));;
    upd_sem sem (set_sem_flag (u8 flag));;
    mret sem.

Definition rt_sem_delete (sem : ptr) : K Z :=
  RT_DEBUG_NOT_IN_INTERRUPT;;
  nonnull sem;;
  rt_ipc_list_resume_all (LSuspend sem);;
  rt_object_delete (OSem sem);;
  mret RT_EOK.

Definition rt_sem_take (sem : ptr) (time : Z) : K (progress Z ptr) :=
  nonnull sem;;
  x ← get_sem sem;
  if 0 <? sem_value x then
    upd_sem sem (set_sem_value (u16 (sem_value x - 1)));;
    mret (Done RT_EOK)
  else if time =? 0 then mret (Done (- RT_ETIMEOUT))
  else
    RT_DEBUG_IN_THREAD_CONTEXT;;
    thread ← rt_thread_self;
    upd_thread thread (set_th_error RT_EOK);;
    rt_ipc_list_suspend (LSuspend sem) thread (sem_flag x);;
    when (0 <? time) (start_thread_timer thread time);;
    rt_schedule;;
    mret (Blocked thread).
Definition rt_sem_take_resume (thread : ptr) : K Z :=
  th ← get_thread thread;
  if negb (th_error th =? RT_EOK) then mret (th_error th) else mret RT_EOK.

Definition rt_sem_trytake (sem : ptr) : K (progress Z ptr) := rt_sem_take sem 0.

Definition rt_sem_release (sem : ptr) : K Z :=
  e ← tlist_isempty (LSuspend sem);
  need_schedule ←
    (if e : bool then x ← get_sem sem; upd_sem sem (set_sem_value (u16 (sem_value x + 1)));; mret false
     else rt_ipc_list_resume (LSuspend sem);; mret true);
  when need_schedule rt_schedule;;
  mret RT_EOK.

Definition rt_sem_control (sem : ptr) (cmd arg : Z) : K Z :=
  nonnull sem;;
  if cmd =? RT_IPC_CMD_RESET then
    rt_ipc_list_resume_all (LSuspend sem);;
    upd_sem sem (set_sem_value (u16 arg));;
    rt_schedule;;
    mret RT_EOK
  else mret (- RT_ERROR).

(** ** Correctness *)

Lemma wp_get_sem sem x (Q : rt_semaphore -> kstate -> Prop) s :
  sems s !! sem = Some x -> Q x s -> wp (get_sem sem) Q s.
Proof. intros E HQ. unfold get_sem. do 2 wp_step. by eapply wp_opt. Qed.

Lemma wp_upd_sem sem f x (Q : unit -> kstate -> Prop) s :
  sems s !! sem = Some x -> Q tt (set_sems (<[sem := f x]> (sems s)) s) -> wp (upd_sem sem f) Q s.
Proof. intros E HQ. unfold upd_sem. wp_step. eapply wp_get_sem; [done|]. by wp_step. Qed.

(** The state with the value of a semaphore changed *)
Definition with_value (sem : ptr) (x : rt_semaphore) (v : Z) (s : kstate) : kstate :=
  set_sems (<[sem := set_sem_value v x]> (sems s)) s.

Lemma with_value_kinv X sem x v s : kinv X s -> kinv X (with_value sem x v s).
Proof. by apply kinv_eq. Qed.

(** A semaphore in use: its value fits, and it is 0 while threads wait. *)
Record sem_ok (s : kstate) (sem : ptr) (x : rt_semaphore) : Prop := {
  sok_ptr : sem <> RT_NULL;
  sok_at : sems s !! sem = Some x;
  sok_value : 0 <= sem_value x < 2 ^ 16;
  sok_flag : flag_ok (sem_flag x);
  sok_wait : tlists s !!! LSuspend sem <> [] -> sem_value x = 0
}.

(** What a call of [rt_sem_take] by thread [t] does: take a permit, fail, or wait
    with the error number cleared. *)
Definition sem_taken (s : kstate) (sem : ptr) (x : rt_semaphore) (t : ptr) (th : rt_thread) (time : Z)
    (r : progress Z ptr) (s' : kstate) : Prop :=
  if 0 <? sem_value x then r = Done RT_EOK /\ s' = with_value sem x (sem_value x - 1) s
  else if time =? 0 then r = Done (- RT_ETIMEOUT) /\ s' = s
  else r = Blocked t /\
    blocked (set_threads (<[t := set_th_error RT_EOK th]> (threads s)) s) (LSuspend sem) t
      (set_th_error RT_EOK th) (sem_flag x) time s'.

Lemma rt_sem_take_spec s sem x t th time :
  kinv ∅ s -> sem_ok s sem x -> running s t th -> other_ready s t -> time < HALF_TICK ->
  wp (rt_sem_take sem time) (sem_taken s sem x t th time) s.
Proof.
  intros Hk [Hnn E Hv Hfl _] Hrun Hoth Htime. pose proof Hrun as [Ec Eth Hst _ _].
  unfold rt_sem_take, sem_taken. wp_step. apply nonnull_ok; [done|]. wp_step. eapply wp_get_sem; [done|].
  destruct (Z.ltb_spec 0 (sem_value x)).
  { wp_step. eapply wp_upd_sem; [done|]. wp_step. by rewrite uwrap_small by lia. }
  destruct (Z.eqb_spec time 0); [by wp_step|].
  wp_step. eapply in_thread_context; [done|]. wp_step. unfold rt_thread_self. wp_step. rewrite Ec.
  wp_step. eapply wp_upd_thread; [done|]. set (s1 := set_threads _ s).
  assert (kinv ∅ s1) as Hk1 by (by eapply kinv_retouch).
  eapply (wait_on s1); [done|apply lookup_insert_eq|done|done|apply suspend_waiting|done|done|].
  intros s' Hb. by wp_step.
Qed.

(** The invariant of the semaphore after a take *)
Lemma sem_taken_ok s sem x t th time r s' :
  kinv ∅ s -> sem_ok s sem x -> t <> RT_NULL -> sem_taken s sem x t th time r s' ->
  kinv ∅ s' /\ exists x', sem_ok s' sem x'.
Proof.
  intros Hk Hs Ht. pose proof Hs as [Hnn E Hv Hfl Hw]. unfold sem_taken.
  destruct (Z.ltb_spec 0 (sem_value x)).
  - intros [_ ->]. split; [by apply with_value_kinv|]. exists (set_sem_value (sem_value x - 1) x).
    split; simpl; [done|apply lookup_insert_eq|lia|done|]. intros Hne. specialize (Hw Hne). lia.
  - destruct (time =? 0); [intros [_ ->]; eauto|]. intros [_ Hb]. split; [apply Hb|]. exists x.
    split; [done| |done|done|lia]. by rewrite (fr_sems _ _ (bk_frame _ _ _ _ _ _ _ Hb)).
Qed.

(** What [rt_sem_release] does: one more permit, or the first waiting thread gets it. *)
Definition sem_released (s : kstate) (sem : ptr) (x : rt_semaphore) (s' : kstate) : Prop :=
  match tlists s !!! LSuspend sem with
  | [] => s' = with_value sem x (u16 (sem_value x + 1)) s
  | t :: ws => exists th, threads s !! t = Some th /\ handed s (LSuspend sem) t ws th s'
  end.

Lemma rt_sem_release_spec s sem x :
  kinv ∅ s -> sem_ok s sem x ->
  wp (rt_sem_release sem) (fun e s' => e = RT_EOK /\ sem_released s sem x s') s.
Proof.
  intros Hk [Hnn E Hv Hfl _]. unfold rt_sem_release, sem_released, tlist_isempty.
  wp_step. wp_step. wp_step. destruct (tlists s !!! LSuspend sem) as [|t ws] eqn:El; simpl.
  - wp_step. eapply wp_get_sem; [done|]. wp_step. eapply wp_upd_sem; [done|]. do 2 wp_step. simpl. wp_step. by wp_step.
  - destruct (list_first_thread _ _ _ _ Hk El) as [th Eth].
    wp_step. eapply wp_mono; [by eapply (rt_ipc_list_resume_spec s _ t ws th)|]. intros e s1 [_ Hw].
    wp_step. wp_step. eapply (schedule_handed s); [done|done|apply suspend_waiting|done|].
    intros s' Hh. wp_step. eauto.
Qed.
(** The invariant of the semaphore after a release that does not overflow it *)
Lemma sem_released_ok s sem x s' :
  kinv ∅ s -> sem_ok s sem x -> sem_value x < 2 ^ 16 - 1 -> sem_released s sem x s' ->
  kinv ∅ s' /\ exists x', sem_ok s' sem x'.
Proof.
  intros Hk [Hnn E Hv Hfl Hw] Hlt. unfold sem_released.
  destruct (tlists s !!! LSuspend sem) as [|t ws] eqn:El.
  - intros ->. split; [by apply with_value_kinv|]. exists (set_sem_value (u16 (sem_value x + 1)) x).
    rewrite uwrap_small by lia.
    split; simpl; [done|apply lookup_insert_eq|lia|done|]. by rewrite El.
  - intros (th & Eth & Hh). split; [apply Hh|]. exists x. split; [done| |done|done|].
    + by rewrite (fr_sems _ _ (hd_frame _ _ _ _ _ _ Hh)).
    + intros _. by apply Hw.
Qed.

Lemma rt_sem_control_spec s sem x t th arg :
  kinv ∅ s -> sem_ok s sem x -> running s t th -> 
  wp (rt_sem_control sem RT_IPC_CMD_RESET arg) (fun e s' => e = RT_EOK /\ kinv ∅ s' /\
    all_sent_away s sem s' /\ sem_ok s' sem (set_sem_value (u16 arg) x) /\
    (rt_scheduler_lock_nest s = 0 -> next_thread s' (rt_current_thread s'))) s.
Proof.
  intros Hk [Hnn E Hv Hfl Hw] [_ Eth Hst _ _]. unfold rt_sem_control. wp_step. apply nonnull_ok; [done|].
  simpl. wp_step. eapply wp_mono; [by apply resume_all_waiters|]. intros e s1 (Hk1 & Hf1 & [W1 W2] & Hex).
  pose proof (fr0_frame _ _ Hf1) as F1. wp_step. eapply wp_upd_sem; [by rewrite (fr_sems _ _ F1)|].
  set (s2 := set_sems _ s1). assert (kinv ∅ s2) as Hk2 by (by apply (kinv_eq ∅ s1)).
  wp_step. apply rt_schedule_kinv; [done| |].
  { apply (Hex t (th_current_priority th)). by eapply ok_ready; [apply (kinv_thread ∅)|]. }
  intros s3 Hk3 Hf3 Eth3 Etl3 _ _ Hnext. wp_step. split_and!; [done|done| | |].
  - split; [by rewrite Etl3|]. intros u. rewrite Eth3. apply W2.
  - split; [done| |by apply uwrap_range|done|]; rewrite ?Etl3.
    + rewrite (fr_sems _ _ Hf3). apply lookup_insert_eq.
    + simpl. by rewrite W1.
  - intros Hl0. apply Hnext. simpl. by rewrite (fr_lock _ _ F1).
Qed.

(** ** Properties *)

(** C19: [rt_sem_take] returns or blocks on every semaphore in use: a positive value
    is decremented; a zero value gives -RT_ETIMEOUT without a timeout, and otherwise
    the caller waits in the semaphore's list, in its order, its timer armed for a
    finite timeout, and the processor goes to the highest ready thread.  The kernel
    and semaphore invariants hold afterwards. *)
Theorem rt_sem_take_correct s sem x t th time :
  kinv ∅ s -> sem_ok s sem x -> running s t th -> other_ready s t -> time < HALF_TICK ->
  exists r s', rt_sem_take sem time s = Ok r s' /\ sem_taken s sem x t th time r s' /\
    kinv ∅ s' /\ exists x', sem_ok s' sem x'.
Proof.
  intros Hk Hs Hr Ho Ht. destruct (wp_ok _ _ _ (rt_sem_take_spec s sem x t th time Hk Hs Hr Ho Ht)) as (r & s' & E & Hp).
  exists r, s'. split_and!; [done|done|..]; by eapply sem_taken_ok; [..|apply Hr|].
Qed.

(** C20: [rt_sem_release] hands the permit to the first waiting thread, whose
    [rt_sem_take] then returns RT_EOK, or counts it when no thread waits; below the
    largest value the invariants hold afterwards. *)
Theorem rt_sem_release_correct s sem x :
  kinv ∅ s -> sem_ok s sem x -> sem_value x < 2 ^ 16 - 1 ->
  exists s', rt_sem_release sem s = Ok RT_EOK s' /\ sem_released s sem x s' /\
    kinv ∅ s' /\ (exists x', sem_ok s' sem x') /\
    (forall t ws th, tlists s !!! LSuspend sem = t :: ws -> threads s !! t = Some th -> th_error th = RT_EOK ->
       rt_sem_take_resume t s' = Ok RT_EOK s').
Proof.
  intros Hk Hs Hlt. destruct (wp_ok _ _ _ (rt_sem_release_spec s sem x Hk Hs)) as (r & s' & E & -> & Hp).
  exists s'. split_and!; [done|done|by eapply sem_released_ok|by eapply sem_released_ok|].
  intros t ws th El Eth He. unfold sem_released in Hp. rewrite El in Hp. destruct Hp as (th' & Eth' & Hh).
  simplify_eq. unfold rt_sem_take_resume, get_thread, mbind, M_bind, get. simpl.
  rewrite (hd_threads _ _ _ _ _ _ Hh). unfold resumed_threads. rewrite lookup_insert_eq. simpl. by rewrite He.
Qed.

(** C35: a release of a semaphore at the largest value loses every permit: the
    16-bit value wraps to 0 and the call still reports RT_EOK. *)
Theorem rt_sem_release_overflow s sem x :
  kinv ∅ s -> sem_ok s sem x -> tlists s !!! LSuspend sem = [] -> sem_value x = 2 ^ 16 - 1 ->
  rt_sem_release sem s = Ok RT_EOK (with_value sem x 0 s).
Proof.
  intros Hk Hs El Hv. destruct (wp_ok _ _ _ (rt_sem_release_spec s sem x Hk Hs)) as (r & s' & E & -> & Hp).
  unfold sem_released in Hp. rewrite El, Hv in Hp. by subst s'.
Qed.

(** [rt_sem_control] with RT_IPC_CMD_RESET makes every waiting thread ready with
    the error -RT_ERROR, sets the value and reschedules. *)
Theorem rt_sem_reset_correct s sem x t th arg :
  kinv ∅ s -> sem_ok s sem x -> running s t th ->
  exists s', rt_sem_control sem RT_IPC_CMD_RESET arg s = Ok RT_EOK s' /\ kinv ∅ s' /\
    all_sent_away s sem s' /\ sem_ok s' sem (set_sem_value (u16 arg) x) /\
    (rt_scheduler_lock_nest s = 0 -> next_thread s' (rt_current_thread s')).
Proof.
  intros Hk Hs Hr. destruct (wp_ok _ _ _ (rt_sem_control_spec s sem x t th arg Hk Hs Hr)) as (r & s' & E & -> & Hp). eauto.
Qed.
End semaphore.
