(* ===== verification/Mutex.v ===== *)
(** * Mutexes with priority inheritance (src/ipc.c) *)
From stdpp Require Import base tactics numbers list gmap.
From S2P Require Import Prelude RtList Kernel Scheduler Object Timer Thread Ipc.
Local Open Scope Z_scope.

Section mutex.
Context `{KConfig} `{Allocator}.

Definition get_mutex (p : ptr) : K rt_mutex := s ← get; opt BadPointer (mutexes s !! p).
Definition upd_mutex (p : ptr) (f : rt_mutex -> rt_mutex) : K unit :=
  x ← get_mutex p; modify (fun s => set_mutexes (<[p := f x]> (mutexes s)) s).

Definition mtx_flag (x : rt_mutex) : Z := obj_flag (mtx_parent x).
Definition set_mtx_flag (v : Z) (x : rt_mutex) : rt_mutex :=
  set_mtx_parent (set_obj_flag v (mtx_parent x)) x.

(** The assignments [rt_mutex_init] and [rt_mutex_create] share *)
Definition mutex_fields (mutex : ptr) (flag : Z) : K unit :=
  rt_ipc_object_init mutex;;
  upd_mutex mutex (set_mtx_value 1);;
  upd_mutex mutex (set_mtx_owner RT_NULL);;
  upd_mutex mutex (set_mtx_original_priority 0xFF);;
  upd_mutex mutex (set_mtx_hold 0);;
  upd_mutex mutex (set_mtx_flag (u8 flag)).

Definition rt_mutex_init (mutex : ptr) (name : list Z) (flag : Z) : K Z :=
  nonnull mutex;;
  modify (place (OMutex mutex));;
  rt_object_init (OMutex mutex) RT_Object_Class_Mutex name;;
  mutex_fields mutex flag;;
  mret RT_EOK.

Definition rt_mutex_detach (mutex : ptr) : K Z :=
  nonnull mutex;;
  rt_ipc_list_resume_all (LSuspend mutex);;
  rt_object_detach (OMutex mutex);;
  mret RT_EOK.

Definition rt_mutex_create (name : list Z) (flag : Z) : K ptr :=
  RT_DEBUG_NOT_IN_INTERRUPT;;
  mutex ← rt_object_allocate RT_Object_Class_Mutex name;
  if mutex =? RT_NULL then mret mutex
  else mutex_fields mutex flag;; mret mutex.

Definition rt_mutex_delete (mutex : ptr) : K Z :=
  RT_DEBUG_NOT_IN_INTERRUPT;;
  nonnull mutex;;
  rt_ipc_list_resume_all (LSuspend mutex);;
  rt_object_delete (OMutex mutex);;
  mret RT_EOK.

Definition rt_mutex_take (mutex : ptr) (time : Z) : K (progress Z ptr) :=
  RT_DEBUG_IN_THREAD_CONTEXT;;
  nonnull mutex;;
  thread ← rt_thread_self;
  upd_thread thread (set_th_error RT_EOK);;
  x ← get_mutex mutex;
  if mtx_owner x =? thread then
    upd_mutex mutex (set_mtx_hold (u8 (mtx_hold x + 1)));;
    mret (Done RT_EOK)
  else if 0 <? mtx_value x then
    upd_mutex mutex (set_mtx_value (u16 (mtx_value x - 1)));;
    upd_mutex mutex (set_mtx_owner thread);;
    th ← get_thread thread;
    upd_mutex mutex (set_mtx_original_priority (th_current_priority th));;
    upd_mutex mutex (set_mtx_hold (u8 (mtx_hold x + 1)));;
    mret (Done RT_EOK)
  else if time =? 0 then
    upd_thread thread (set_th_error (- RT_ETIMEOUT));;
    mret (Done (- RT_ETIMEOUT))
  else
    th ← get_thread thread;
    owner ← get_thread (mtx_owner x);
    when (th_current_priority th <? th_current_priority owner)
      (rt_thread_control (mtx_owner x) RT_THREAD_CTRL_CHANGE_PRIORITY (th_current_priority th);; mret tt);;
    rt_ipc_list_suspend (LSuspend mutex) thread (mtx_flag x);;
    when (0 <? time) (start_thread_timer thread time);;
    rt_schedule;;
    mret (Blocked thread).
Definition rt_mutex_take_resume (thread : ptr) : K Z :=
  th ← get_thread thread;
  if negb (th_error th =? RT_EOK) then mret (th_error th) else mret RT_EOK.

Definition rt_mutex_release (mutex : ptr) : K Z :=
  RT_DEBUG_IN_THREAD_CONTEXT;;
  thread ← rt_thread_self;
  x ← get_mutex mutex;
  if negb (thread =? mtx_owner x) then
    upd_thread thread (set_th_error (- RT_ERROR));;
    mret (- RT_ERROR)
  else
    let hold := u8 (mtx_hold x - 1) in
    upd_mutex mutex (set_mtx_hold hold);;
    need_schedule ←
      (if hold =? 0 then
         owner ← get_thread (mtx_owner x);
         when (negb (mtx_original_priority x =? th_current_priority owner))
           (rt_thread_control (mtx_owner x) RT_THREAD_CTRL_CHANGE_PRIORITY
              (mtx_original_priority x);; mret tt);;
         e ← tlist_isempty (LSuspend mutex);
         if e : bool then
           upd_mutex mutex (set_mtx_value (u16 (mtx_value x + 1)));;
           upd_mutex mutex (set_mtx_owner RT_NULL);;
           upd_mutex mutex (set_mtx_original_priority 0xff);;
           mret false
         else
           thread ← tlist_first (LSuspend mutex);
           upd_mutex mutex (set_mtx_owner thread);;
           th ← get_thread thread;
           upd_mutex mutex (set_mtx_original_priority (th_current_priority th));;
           upd_mutex mutex (set_mtx_hold (u8 (hold + 1)));;
           rt_ipc_list_resume (LSuspend mutex);;
           mret true
       else mret false);
    when need_schedule rt_schedule;;
    mret RT_EOK.

Definition rt_mutex_control (mutex : ptr) (cmd arg : Z) : K Z := mret (- RT_ERROR).

(** ** Correctness *)

Lemma wp_get_mutex m x (Q : rt_mutex -> kstate -> Prop) s :
  mutexes s !! m = Some x -> Q x s -> wp (get_mutex m) Q s.
Proof. intros E HQ. unfold get_mutex. do 2 wp_step. by eapply wp_opt. Qed.

Lemma wp_upd_mutex m f x (Q : unit -> kstate -> Prop) s :
  mutexes s !! m = Some x -> Q tt (set_mutexes (<[m := f x]> (mutexes s)) s) -> wp (upd_mutex m f) Q s.
Proof. intros E HQ. unfold upd_mutex. wp_step. eapply wp_get_mutex; [done|]. by wp_step. Qed.

Definition with_mutex (m : ptr) (x : rt_mutex) (s : kstate) : kstate :=
  set_mutexes (<[m := x]> (mutexes s)) s.

Lemma with_mutex_kinv X m x s : kinv X s -> kinv X (with_mutex m x s).
Proof. by apply kinv_eq. Qed.

(** A mutex is free, or held one to 255 times by an existing thread. *)
Inductive mutex_state (s : kstate) (m : ptr) (x : rt_mutex) : Prop :=
| mutex_free : mtx_owner x = RT_NULL -> mtx_value x = 1 -> mtx_hold x = 0 ->
    tlists s !!! LSuspend m = [] -> mutex_state s m x
| mutex_held : mtx_owner x <> RT_NULL -> mtx_value x = 0 -> 1 <= mtx_hold x < 2 ^ 8 ->
    is_Some (threads s !! mtx_owner x) -> prio_ok (mtx_original_priority x) -> mutex_state s m x.

Record mutex_ok (s : kstate) (m : ptr) (x : rt_mutex) : Prop := {
  mok_ptr : m <> RT_NULL;
  mok_at : mutexes s !! m = Some x;
  mok_flag : flag_ok (mtx_flag x);
  mok_state : mutex_state s m x
}.

(** ** Changing the priority of the owner *)

Definition reprioritised (b : bool) (s : kstate) (o : ptr) (oth : rt_thread) (prio : Z) (s' : kstate) : Prop :=
  kinv ∅ s' /\ frame0 s s' /\ timers s' = timers s /\ rt_timer_list s' = rt_timer_list s /\
  if b then
    threads s' = <[o := calc_priority (set_th_current_priority prio oth)]> (threads s) /\
    tlists s' = (if th_stat oth =? RT_THREAD_READY
                 then Abs.insert_back (LReady prio) o (Abs.remove o (tlists s)) else tlists s)
  else s' = s.

Lemma reprioritise b s o oth prio :
  kinv ∅ s -> threads s !! o = Some oth -> prio_ok prio ->
  wp (when b (rt_thread_control o RT_THREAD_CTRL_CHANGE_PRIORITY prio;; mret tt))
     (fun _ s' => reprioritised b s o oth prio s') s.
Proof.
  intros Hk E Hp. destruct b; simpl; [|by wp_step].
  wp_step. eapply wp_mono; [by apply (rt_thread_change_priority_spec s o oth prio)|].
  intros e s' (_ & Hk' & Hf & Eth & Etm & Er & Etl). wp_step. by split_and!.
Qed.

Lemma reprioritised_waiting b s o oth prio s' l :
  kinv ∅ s -> threads s !! o = Some oth -> reprioritised b s o oth prio s' -> waiting_list l ->
  tlists s' !!! l = tlists s !!! l.
Proof.
  intros Hk E (_ & _ & _ & _ & Hb) [Hl Hd]. destruct b; [|by subst]. destruct Hb as [_ ->].
  destruct (Z.eqb_spec (th_stat oth) RT_THREAD_READY) as [Hst|]; [|done].
  rewrite lookup_insert_back, decide_False by (intros Eq; by apply (Hl prio)).
  rewrite Abs.lookup_remove. apply list_del_not_in. intros Hin.
  pose proof (suspended_on s l o oth Hk E Hin Hl Hd) as Hs. by rewrite Hst in Hs.
Qed.

Lemma reprioritised_other b s o oth prio s' t :
  reprioritised b s o oth prio s' -> other_ready s t -> o <> t -> other_ready s' t.
Proof.
  intros (_ & _ & _ & _ & Hb) (q & u & Hu & Hin) Ho. destruct b; [|subst; by exists q, u].
  destruct Hb as [_ Etl]. destruct (th_stat oth =? RT_THREAD_READY); [|exists q, u; unfold ready; by rewrite Etl].
  destruct (decide (u = o)) as [->|Hne].
  - exists prio, o. split; [done|]. unfold ready. rewrite Etl, lookup_insert_back, decide_True by done.
    apply elem_of_app. right. by apply list_elem_of_singleton.
  - exists q, u. split; [done|]. unfold ready. rewrite Etl, lookup_insert_back.
    assert (u ∈ list_del o (tlists s !!! LReady q)) by (by apply elem_of_list_del).
    case_decide as Eq; rewrite Abs.lookup_remove; [|done]. rewrite Eq. apply elem_of_app. by left.
Qed.

(** ** Taking *)

(** The mutex in the hands of [t] *)
Definition owned_by (t : ptr) (prio : Z) (x : rt_mutex) : rt_mutex :=
  mk_mutex (mtx_parent x) 0 prio 1 t.

(** What a call of [rt_mutex_take] by thread [t] does: take it again, take it, fail,
    or wait, after raising the owner to the caller's priority. *)
Definition mutex_taken (s : kstate) (m : ptr) (x : rt_mutex) (t : ptr) (th : rt_thread) (time : Z)
    (r : progress Z ptr) (s' : kstate) : Prop :=
  let s0 := set_error t th RT_EOK s in
  if mtx_owner x =? t then r = Done RT_EOK /\ s' = with_mutex m (set_mtx_hold (u8 (mtx_hold x + 1)) x) s0
  else if 0 <? mtx_value x then
    r = Done RT_EOK /\ s' = with_mutex m (owned_by t (th_current_priority th) x) s0
  else if time =? 0 then r = Done (- RT_ETIMEOUT) /\ s' = set_error t th (- RT_ETIMEOUT) s
  else r = Blocked t /\ exists oth s1, threads s !! mtx_owner x = Some oth /\
    reprioritised (th_current_priority th <? th_current_priority oth) s0 (mtx_owner x) oth
      (th_current_priority th) s1 /\
    blocked s1 (LSuspend m) t (set_th_error RT_EOK th) (mtx_flag x) time s'.

Lemma rt_mutex_take_spec s m x t th time :
  kinv ∅ s -> mutex_ok s m x -> running s t th -> other_ready s t -> time < HALF_TICK ->
  wp (rt_mutex_take m time) (mutex_taken s m x t th time) s.
Proof.
  intros Hk [Hnn E Hfl Hms] Hrun Hoth Htime. pose proof Hrun as [Ec Eth Hst _ Ht].
  pose proof (kinv_thread _ _ _ _ Hk (not_elem_of_empty t) Eth) as Hok.
  unfold rt_mutex_take, mutex_taken. wp_step. eapply in_thread_context; [done|]. wp_step. apply nonnull_ok; [done|].
  wp_step. unfold rt_thread_self. wp_step. rewrite Ec. wp_step. eapply wp_upd_thread; [done|].
  fold (set_error t th RT_EOK s). set (s0 := set_error t th RT_EOK s).
  assert (kinv ∅ s0) as Hk0 by (by eapply kinv_retouch).
  assert (threads s0 !! t = Some (set_th_error RT_EOK th)) as E0 by apply lookup_insert_eq.
  wp_step. eapply wp_get_mutex; [done|].
  destruct (Z.eqb_spec (mtx_owner x) t) as [Eo|Eo].
  { wp_step. eapply wp_upd_mutex; [done|]. by wp_step. }
  destruct (Z.ltb_spec 0 (mtx_value x)) as [Hv|Hv].
  { destruct Hms as [_ Ev Eh _|]; [|lia].
    wp_step. eapply wp_upd_mutex; [done|]. wp_step. eapply wp_upd_mutex; [apply lookup_insert_eq|].
    wp_step. eapply wp_get_thread; [exact E0|]. wp_step. eapply wp_upd_mutex; [apply lookup_insert_eq|].
    wp_step. eapply wp_upd_mutex; [apply lookup_insert_eq|]. wp_step. split; [done|].
    simpl. kset. rewrite Ev, Eh. by destruct x. }
  destruct (Z.eqb_spec time 0).
  { wp_step. eapply wp_upd_thread; [exact E0|]. wp_step. split; [done|]. unfold s0, set_error. simpl. by kset. }
  destruct Hms as [|Hno _ Hh [oth Eoth] Hpo]; [lia|].
  assert (threads s0 !! mtx_owner x = Some oth) as Eo0. { unfold s0, set_error. simpl. by rewrite lookup_insert_ne. }
  wp_step. eapply wp_get_thread; [exact E0|]. wp_step. eapply wp_get_thread; [exact Eo0|]. simpl.
  wp_step. eapply wp_mono; [apply (reprioritise _ s0 _ oth); [done|done|apply Hok]|].
  intros ? s1 Hre. simpl in Hre. pose proof Hre as (Hk1 & _ & _ & _ & Hb).
  eapply (wait_on s1 _ t (set_th_error RT_EOK th)); [done| |done|eapply reprioritised_other; eauto|apply suspend_waiting|done|done|].
  { destruct (th_current_priority th <? th_current_priority oth); [|by rewrite Hb].
    destruct Hb as [-> _]. by rewrite lookup_insert_ne. }
  intros s' Hbl. wp_step. split; [done|]. eauto.
Qed.
Lemma reprioritised_exists b s o oth prio s' u :
  reprioritised b s o oth prio s' -> is_Some (threads s !! u) -> is_Some (threads s' !! u).
Proof.
  intros (_ & _ & _ & _ & Hb) Hu. destruct b; [|by subst]. destruct Hb as [-> _].
  destruct (decide (o = u)) as [->|]; [rewrite lookup_insert_eq; eauto|by rewrite lookup_insert_ne].
Qed.

Lemma insert_exists (ths : gmap ptr rt_thread) t th u : is_Some (ths !! u) -> is_Some (<[t := th]> ths !! u).
Proof. intros Hu. destruct (decide (t = u)) as [->|]; [rewrite lookup_insert_eq; eauto|by rewrite lookup_insert_ne]. Qed.

(** The invariant of the mutex after a take, below the largest hold count *)
Lemma mutex_taken_ok s m x t th time r s' :
  kinv ∅ s -> mutex_ok s m x -> running s t th -> mtx_hold x < 2 ^ 8 - 1 -> mutex_taken s m x t th time r s' ->
  kinv ∅ s' /\ exists x', mutex_ok s' m x'.
Proof.
  intros Hk [Hnn E Hfl Hms] [Ec Eth Hst _ Ht] Hh255. unfold mutex_taken.
  pose proof (kinv_thread _ _ _ _ Hk (not_elem_of_empty t) Eth) as Hok.
  assert (forall e, kinv ∅ (set_error t th e s)) as Hk0 by (intros e; by eapply kinv_retouch).
  destruct (Z.eqb_spec (mtx_owner x) t) as [Eo|Eo].
  { intros [_ ->]. split; [by apply with_mutex_kinv|]. eexists. split; [done|apply lookup_insert_eq|done|].
    destruct Hms as [|]; [congruence|]. rewrite uwrap_small by lia.
    right; simpl; [done|done|lia|by apply insert_exists|done]. }
  destruct (Z.ltb_spec 0 (mtx_value x)).
  { intros [_ ->]. split; [by apply with_mutex_kinv|]. eexists. split; [done|apply lookup_insert_eq|done|].
    right; simpl; [done|done|lia|apply insert_exists; eauto|apply Hok]. }
  destruct Hms as [|Hno Hv Hh Hex Hpo]; [lia|].
  destruct (time =? 0).
  { intros [_ ->]. split; [done|]. exists x. split; [done|done|done|]. right; try done. by apply insert_exists. }
  intros (_ & oth & s1 & Eoth & Hre & Hb). split; [apply Hb|]. exists x.
  split; [done| |done|].
  - rewrite (fr_mutexes _ _ (bk_frame _ _ _ _ _ _ _ Hb)). destruct Hre as (_ & Hf & _).
    by rewrite (fr_mutexes _ _ (fr0_frame _ _ Hf)).
  - right; try done. rewrite (bk_threads _ _ _ _ _ _ _ Hb). apply insert_exists.
    eapply reprioritised_exists; [done|]. by apply insert_exists.
Qed.

(** ** Releasing *)

Definition freed (x : rt_mutex) : rt_mutex := mk_mutex (mtx_parent x) 1 0xff 0 RT_NULL.

(** What a call of [rt_mutex_release] by thread [t] does: refuse a thread that is not
    the owner, count down, or give the mutex up: the owner gets its priority back,
    and the mutex goes to the first waiting thread or becomes free. *)
Definition mutex_released (s : kstate) (m : ptr) (x : rt_mutex) (t : ptr) (th : rt_thread)
    (r : Z) (s' : kstate) : Prop :=
  if negb (t =? mtx_owner x) then r = - RT_ERROR /\ s' = set_error t th (- RT_ERROR) s
  else r = RT_EOK /\
    if 1 <? mtx_hold x then s' = with_mutex m (set_mtx_hold (mtx_hold x - 1) x) s
    else exists s1,
      reprioritised (negb (mtx_original_priority x =? th_current_priority th))
        (with_mutex m (set_mtx_hold 0 x) s) t th (mtx_original_priority x) s1 /\
      match tlists s !!! LSuspend m with
      | [] => s' = with_mutex m (freed x) s1
      | u :: ws => exists uth, threads s1 !! u = Some uth /\
          handed (with_mutex m (owned_by u (th_current_priority uth) x) s1) (LSuspend m) u ws uth s'
      end.

Lemma rt_mutex_release_spec s m x t th :
  kinv ∅ s -> mutex_ok s m x -> running s t th ->
  wp (rt_mutex_release m) (mutex_released s m x t th) s.
Proof.
  intros Hk [Hnn E Hfl Hms] Hrun. pose proof Hrun as [Ec Eth Hst _ Ht].
  unfold rt_mutex_release, mutex_released. wp_step. eapply in_thread_context; [done|].
  wp_step. unfold rt_thread_self. wp_step. rewrite Ec. wp_step. eapply wp_get_mutex; [done|].
  destruct (Z.eqb_spec t (mtx_owner x)) as [Eo|Eo]; simpl; [|wp_step; eapply wp_upd_thread; [done|]; by wp_step].
  destruct Hms as [|Hno Hv Hh _ Hpo]; [congruence|]. rewrite uwrap_small by lia.
  wp_step. eapply wp_upd_mutex; [done|]. fold (with_mutex m (set_mtx_hold (mtx_hold x - 1) x) s). wp_step.
  destruct (Z.ltb_spec 1 (mtx_hold x)) as [Hh1|Hh1].
  { replace (mtx_hold x - 1 =? 0) with false by lia. wp_step. simpl. wp_step. by do 2 wp_step. }
  replace (mtx_hold x - 1) with 0 by lia. simpl. set (s0 := with_mutex m _ s).
  assert (kinv ∅ s0) as Hk0 by (by apply with_mutex_kinv).
  wp_step. rewrite <- Eo. eapply wp_get_thread; [done|].
  wp_step. eapply wp_mono; [by apply (reprioritise _ s0 t th)|]. intros ? s1 Hre. simpl in Hre.
  pose proof Hre as (Hk1 & Hf1 & _). pose proof (fr0_frame _ _ Hf1) as F1.
  assert (tlists s1 !!! LSuspend m = tlists s !!! LSuspend m) as Ew.
  { by apply (reprioritised_waiting _ s0 t th _ s1 _ Hk0 Eth Hre). }
  assert (mutexes s1 !! m = Some (set_mtx_hold 0 x)) as E1.
  { rewrite (fr_mutexes _ _ F1). apply lookup_insert_eq. }
  wp_step. unfold tlist_isempty. wp_step. rewrite Ew. destruct (tlists s !!! LSuspend m) as [|u ws] eqn:El; simpl.
  - wp_step. eapply wp_upd_mutex; [done|]. wp_step. eapply wp_upd_mutex; [apply lookup_insert_eq|].
    wp_step. eapply wp_upd_mutex; [apply lookup_insert_eq|]. do 2 wp_step. simpl. do 2 wp_step. split; [done|].
    exists s1. split; [done|]. simpl. kset. rewrite Hv. by destruct x.
  - destruct (list_first_thread _ _ _ _ Hk1 Ew) as [uth Eu].
    wp_step. eapply wp_tlist_first; [by rewrite Ew|]. wp_step. eapply wp_upd_mutex; [done|].
    wp_step. eapply wp_get_thread; [exact Eu|]. wp_step. eapply wp_upd_mutex; [apply lookup_insert_eq|].
    wp_step. eapply wp_upd_mutex; [apply lookup_insert_eq|]. simpl. kset. set (s2 := set_mutexes _ s1).
    assert (s2 = with_mutex m (owned_by u (th_current_priority uth) x) s1) as Es2.
    { unfold s2, with_mutex, owned_by. clear -Hv. destruct x; simpl in *. by subst. }
    assert (kinv ∅ s2) as Hk2 by (by apply (kinv_eq ∅ s1)).
    wp_step. eapply wp_mono; [by eapply (rt_ipc_list_resume_spec s2 _ u ws uth)|]. intros e s3 [_ Hw].
    wp_step. wp_step. eapply (schedule_handed s2); [done|done|apply suspend_waiting|done|].
    intros s' Hh'. wp_step. split; [done|]. exists s1. split; [done|]. exists uth. by rewrite <- Es2.
Qed.
(** The first waiting thread is not the running one. *)
Lemma waiter_not_running s m t th u ws :
  kinv ∅ s -> running s t th -> tlists s !!! LSuspend m = u :: ws -> u <> t.
Proof.
  intros Hk [_ Eth Hst _ _] El ->.
  pose proof (suspended_on s (LSuspend m) t th Hk Eth ltac:(rewrite El; left) ltac:(done) ltac:(done)) as Hs.
  by rewrite Hst in Hs.
Qed.

Lemma reprioritised_prio b s o oth prio s' :
  threads s !! o = Some oth -> reprioritised b s o oth prio s' -> (b = false -> th_current_priority oth = prio) ->
  exists oth', threads s' !! o = Some oth' /\ th_current_priority oth' = prio.
Proof.
  intros E (_ & _ & _ & _ & Hb) Hf. destruct b.
  - destruct Hb as [-> _]. eexists. split; [apply lookup_insert_eq|].
    by rewrite (proj1 (calc_priority_fields _)).
  - subst. eauto.
Qed.

(** The invariant after a release, and the priority of the thread that gave the mutex up *)
Lemma mutex_released_ok s m x t th r s' :
  kinv ∅ s -> mutex_ok s m x -> running s t th -> mutex_released s m x t th r s' ->
  kinv ∅ s' /\ (exists x', mutex_ok s' m x') /\
  (t = mtx_owner x -> mtx_hold x = 1 ->
     exists th', threads s' !! t = Some th' /\ th_current_priority th' = mtx_original_priority x).
Proof.
  intros Hk Hm Hrun. pose proof Hm as [Hnn E Hfl Hms]. pose proof Hrun as [_ Eth Hst _ Ht]. unfold mutex_released.
  destruct (Z.eqb_spec t (mtx_owner x)) as [Eo|Eo]; simpl.
  2: { intros [_ ->]. split_and!; [by eapply kinv_retouch| |done]. exists x. split; [done|done|done|].
       destruct Hms; [by left|right; try done; by apply insert_exists]. }
  destruct Hms as [|Hno Hv Hh Hex Hpo]; [congruence|]. intros [_ Hs]. destruct (Z.ltb_spec 1 (mtx_hold x)).
  { subst s'. split_and!; [by apply with_mutex_kinv| |intros; lia]. eexists. split; [done|apply lookup_insert_eq|done|].
    right; simpl; [done|done|lia|exact Hex|done]. }
  destruct Hs as (s1 & Hre & Hs). pose proof Hre as (Hk1 & Hf1 & _). set (s0 := with_mutex m _ s) in *.
  assert (kinv ∅ s0) as Hk0 by (by apply with_mutex_kinv).
  assert (tlists s1 !!! LSuspend m = tlists s !!! LSuspend m) as Ew.
  { by apply (reprioritised_waiting _ s0 t th _ s1 _ Hk0 Eth Hre). }
  destruct (reprioritised_prio _ s0 t th _ s1 Eth Hre) as (th1 & Eth1 & Hp1). { intros ?%negb_false_iff. lia. }
  destruct (tlists s !!! LSuspend m) as [|u ws] eqn:El.
  - subst s'. split_and!; [by apply with_mutex_kinv| |eauto]. eexists. split; [done|apply lookup_insert_eq|done|].
    by left.
  - destruct Hs as (uth & Eu & Hd). pose proof (waiter_not_running s m t th u ws Hk Hrun El) as Hut.
    pose proof (kinv_thread _ _ _ _ Hk1 (not_elem_of_empty u) Eu) as Hok.
    split_and!; [apply Hd| |].
    + eexists. split; [done|rewrite (fr_mutexes _ _ (hd_frame _ _ _ _ _ _ Hd)); apply lookup_insert_eq|done|].
      right; simpl; [apply Hok|done|lia| |apply Hok].
      rewrite (hd_threads _ _ _ _ _ _ Hd). apply insert_exists. simpl. eauto.
    + intros _ _. rewrite (hd_threads _ _ _ _ _ _ Hd). unfold resumed_threads. rewrite lookup_insert_ne by done. eauto.
Qed.

Lemma take_again s m x t th time :
  m <> RT_NULL -> mutexes s !! m = Some x -> running s t th -> mtx_owner x = t ->
  rt_mutex_take m time s = Ok (Done RT_EOK) (with_mutex m (set_mtx_hold (u8 (mtx_hold x + 1)) x) (set_error t th RT_EOK s)).
Proof.
  intros Hnn E Hrun Eo. pose proof Hrun as [Ec Eth _ _ _].
  enough (wp (rt_mutex_take m time) (fun r s' => r = Done RT_EOK /\
    s' = with_mutex m (set_mtx_hold (u8 (mtx_hold x + 1)) x) (set_error t th RT_EOK s)) s) as Hw.
  { apply wp_ok in Hw as (r & s' & -> & -> & ->). done. }
  unfold rt_mutex_take. wp_step. eapply in_thread_context; [done|]. wp_step. apply nonnull_ok; [done|].
  wp_step. unfold rt_thread_self. wp_step. rewrite Ec. wp_step. eapply wp_upd_thread; [done|].
  wp_step. eapply wp_get_mutex; [done|]. rewrite (proj2 (Z.eqb_eq _ _) Eo).
  wp_step. eapply wp_upd_mutex; [done|]. by wp_step.
Qed.

(** After another take by the owner *)
Lemma retaken s m x t th h :
  kinv ∅ s -> mutexes s !! m = Some x -> running s t th ->
  let s' := with_mutex m (set_mtx_hold h x) (set_error t th RT_EOK s) in
  kinv ∅ s' /\ running s' t (set_th_error RT_EOK th).
Proof.
  intros Hk E [Ec Eth Hst Hn Ht] s'. split; [by apply with_mutex_kinv; eapply kinv_retouch|].
  split; [done|apply lookup_insert_eq|done|done|done].
Qed.

(** The last release takes the mutex away from its owner. *)
Lemma released_gone s m x t th r s' :
  kinv ∅ s -> mutex_ok s m x -> running s t th -> mtx_owner x = t -> mtx_hold x = 1 ->
  mutex_released s m x t th r s' -> r = RT_EOK /\ exists x', mutexes s' !! m = Some x' /\ mtx_owner x' <> t.
Proof.
  intros Hk Hm Hrun Eo Eh. unfold mutex_released. rewrite (proj2 (Z.eqb_eq _ _) (eq_sym Eo)), Eh. simpl.
  intros [-> (s1 & Hre & Hs)]. split; [done|]. destruct (tlists s !!! LSuspend m) as [|u ws] eqn:El.
  - subst s'. eexists. split; [apply lookup_insert_eq|]. pose proof (run_nonnull _ _ _ Hrun). simpl. congruence.
  - destruct Hs as (uth & Eu & Hd). pose proof (waiter_not_running s m t th u ws Hk Hrun El).
    eexists. split; [rewrite (fr_mutexes _ _ (hd_frame _ _ _ _ _ _ Hd)); apply lookup_insert_eq|done].
Qed.

(** ** Properties *)

(** C17: [rt_mutex_take] returns or blocks on every mutex in use: the owner counts one
    more, a free mutex gets the caller as owner with its priority recorded, a held
    one gives -RT_ETIMEOUT without a timeout, and otherwise the caller waits in
    order.  Below the largest hold count the invariants hold afterwards. *)
Theorem rt_mutex_take_correct s m x t th time :
  kinv ∅ s -> mutex_ok s m x -> running s t th -> other_ready s t -> time < HALF_TICK ->
  mtx_hold x < 2 ^ 8 - 1 ->
  exists r s', rt_mutex_take m time s = Ok r s' /\ mutex_taken s m x t th time r s' /\
    kinv ∅ s' /\ exists x', mutex_ok s' m x'.
Proof.
  intros Hk Hm Hr Ho Ht Hh.
  destruct (wp_ok _ _ _ (rt_mutex_take_spec s m x t th time Hk Hm Hr Ho Ht)) as (r & s' & E & Hp).
  exists r, s'. split_and!; [done|done|..]; by eapply mutex_taken_ok.
Qed.

(** C5: priority inheritance: when a thread blocks on a mutex, the owner's priority is
    afterwards at least the blocked thread's (a smaller number is a higher priority). *)
Theorem rt_mutex_take_inherits s m x t th time w s' :
  kinv ∅ s -> mutex_ok s m x -> running s t th -> other_ready s t -> time < HALF_TICK ->
  rt_mutex_take m time s = Ok (Blocked w) s' ->
  w = t /\ exists oth', threads s' !! mtx_owner x = Some oth' /\
    th_current_priority oth' <= th_current_priority th.
Proof.
  intros Hk Hm Hr Ho Ht E. pose proof (rt_mutex_take_spec s m x t th time Hk Hm Hr Ho Ht) as Hw.
  unfold wp in Hw. rewrite E in Hw. unfold mutex_taken in Hw.
  destruct (Z.eqb_spec (mtx_owner x) t) as [|Hne]; [by destruct Hw|].
  destruct (0 <? mtx_value x); [by destruct Hw|]. destruct (time =? 0); [by destruct Hw|].
  destruct Hw as (Ew & oth & s1 & Eoth & Hre & Hb). simplify_eq. split; [done|].
  rewrite (bk_threads _ _ _ _ _ _ _ Hb), lookup_insert_ne by done. destruct Hre as (_ & _ & _ & _ & Hb1).
  destruct (Z.ltb_spec (th_current_priority th) (th_current_priority oth)).
  - destruct Hb1 as [-> _]. rewrite lookup_insert_eq. eexists. split; [done|].
    destruct (calc_priority_fields (set_th_current_priority (th_current_priority th) oth)) as (-> & _). done.
  - subst s1. exists oth. simpl. by rewrite lookup_insert_ne.
Qed.

(** C18: [rt_mutex_release] refuses a thread that is not the owner, counts down a
    nested hold, and otherwise gives the owner its original priority back and hands
    the mutex to the first waiting thread, or frees it; the invariants hold. *)
Theorem rt_mutex_release_correct s m x t th :
  kinv ∅ s -> mutex_ok s m x -> running s t th ->
  exists r s', rt_mutex_release m s = Ok r s' /\ mutex_released s m x t th r s' /\
    kinv ∅ s' /\ (exists x', mutex_ok s' m x') /\
    (t = mtx_owner x -> mtx_hold x = 1 ->
       exists th', threads s' !! t = Some th' /\ th_current_priority th' = mtx_original_priority x).
Proof.
  intros Hk Hm Hr. destruct (wp_ok _ _ _ (rt_mutex_release_spec s m x t th Hk Hm Hr)) as (r & s' & E & Hp).
  exists r, s'. split_and!; [done|done|..]; by eapply mutex_released_ok.
Qed.

(** the 8-bit hold count overflows: at 255 nested holds two more takes succeed
    and leave a count of 1, so that a single release gives the mutex up although the
    owner still has 256 releases to make. *)
Theorem rt_mutex_hold_overflow s m x t th time :
  kinv ∅ s -> mutex_ok s m x -> running s t th -> mtx_owner x = t -> mtx_hold x = 255 ->
  exists s1 s2 s3 x3, rt_mutex_take m time s = Ok (Done RT_EOK) s1 /\
    rt_mutex_take m time s1 = Ok (Done RT_EOK) s2 /\ rt_mutex_release m s2 = Ok RT_EOK s3 /\
    mutexes s3 !! m = Some x3 /\ mtx_owner x3 <> t.
Proof.
  intros Hk Hm Hrun Eo Eh. pose proof Hm as [Hnn E Hfl Hms].
  set (s1 := with_mutex m (set_mtx_hold 0 x) (set_error t th RT_EOK s)).
  destruct (retaken s m x t th 0 Hk E Hrun) as [Hk1 Hrun1]. fold s1 in Hk1, Hrun1.
  assert (mutexes s1 !! m = Some (set_mtx_hold 0 x)) as E1 by apply lookup_insert_eq.
  set (s2 := with_mutex m (set_mtx_hold 1 (set_mtx_hold 0 x)) (set_error t (set_th_error RT_EOK th) RT_EOK s1)).
  destruct (retaken s1 m (set_mtx_hold 0 x) t _ 1 Hk1 E1 Hrun1) as [Hk2 Hrun2]. fold s2 in Hk2, Hrun2.
  assert (mutex_ok s2 m (set_mtx_hold 1 x)) as Hm2.
  { split; [done|apply lookup_insert_eq|done|]. destruct Hms as [|? ? ? Hex ?]; [lia|].
    right; simpl; [done|done|lia|by do 2 apply insert_exists|done]. }
  destruct (wp_ok _ _ _ (rt_mutex_release_spec s2 m _ t _ Hk2 Hm2 Hrun2)) as (r & s3 & E3 & Hp).
  destruct (released_gone s2 m _ t _ r s3 Hk2 Hm2 Hrun2 Eo eq_refl Hp) as (-> & x3 & Ex3 & Ho).
  exists s1, s2, s3, x3. split_and!; [|by apply (take_again s1 m (set_mtx_hold 0 x) t)|done|done|done].
  rewrite (take_again s m x t th time) by done. by rewrite Eh.
Qed.
End mutex.
