(* ===== verification/Event.v ===== *)
(** * Event sets (src/ipc.c) *)
From stdpp Require Import base tactics numbers list gmap.
From S2P Require Import Prelude RtList Kernel Scheduler Object Timer Thread Ipc.
Local Open Scope Z_scope.

Section event.
Context `{KConfig} `{Allocator}.

Definition get_event (p : ptr) : K rt_event := s ← get; opt BadPointer (events s !! p).
Definition upd_event (p : ptr) (f : rt_event -> rt_event) : K unit :=
  x ← get_event p; modify (fun s => set_events (<[p := f x]> (events s)) s).

Definition ev_flag (x : rt_event) : Z := obj_flag (ev_parent x).
Definition set_ev_flag (v : Z) (x : rt_event) : rt_event :=
  set_ev_parent (set_obj_flag v (ev_parent x)) x.

Definition rt_event_init (event : ptr) (name : list Z) (flag : Z) : K Z :=
  nonnull event;;
  modify (place (OEvent event));;
  rt_object_init (OEvent event) RT_Object_Class_Event name;;
  upd_event event (set_ev_flag (u8 flag));;
  rt_ipc_object_init event;;
  upd_event event (set_ev_set 0);;
  mret RT_EOK.

Definition rt_event_detach (event : ptr) : K Z :=
  nonnull event;;
  rt_ipc_list_resume_all (LSuspend event);;
  rt_object_detach (OEvent event);;
  mret RT_EOK.

Definition rt_event_create (name : list Z) (flag : Z) : K ptr :=
  RT_DEBUG_NOT_IN_INTERRUPT;;
  event ← rt_object_allocate RT_Object_Class_Event name;
  if event =? RT_NULL then mret event
  else
    upd_event event (set_ev_flag (u8 flag));;
    rt_ipc_object_init event;;
    upd_event event (set_ev_set 0);;
    mret event.

Definition rt_event_delete (event : ptr) : K Z :=
  nonnull event;;
  RT_DEBUG_NOT_IN_INTERRUPT;;
  rt_ipc_list_resume_all (LSuspend event);;
  rt_object_delete (OEvent event);;
  mret RT_EOK.

(** One round of the loop of [rt_event_send]: whether the thread was resumed. *)
Definition event_wake (event thread : ptr) : K bool :=
  th ← get_thread thread;
  x ← get_event event;
  status ←
    (if negb (Z.land (th_event_info th) RT_EVENT_FLAG_AND =? 0) then
       mret (Z.land (th_event_set th) (ev_set x) =? th_event_set th)
     else if negb (Z.land (th_event_info th) RT_EVENT_FLAG_OR =? 0) then
       if negb (Z.land (th_event_set th) (ev_set x) =? 0) then
         upd_thread thread (set_th_event_set (Z.land (th_event_set th) (ev_set x)));; mret true
       else mret false
     else mret false);
  if status : bool then
    th ← get_thread thread;
    when (negb (Z.land (th_event_info th) RT_EVENT_FLAG_CLEAR =? 0))
      (upd_event event (set_ev_set (Z.land (ev_set x) (Z.lnot (th_event_set th)))));;
    rt_thread_resume thread;;
    mret true
  else mret false.

(** [n = n->next] is read before the thread leaves the list, so the loop visits
    the threads that were on the list. *)
Fixpoint event_send_loop (event : ptr) (l : list ptr) (need_schedule : bool) : K bool :=
  match l with
  | [] => mret need_schedule
  | thread :: l' =>
      woken ← event_wake event thread;
      event_send_loop event l' (need_schedule || woken)
  end.

Definition rt_event_send (event : ptr) (set : Z) : K Z :=
  nonnull event;;
  if set =? 0 then mret (- RT_ERROR)
  else
    upd_event event (fun x => set_ev_set (Z.lor (ev_set x) set) x);;
    l ← gets (fun s => tlists s !!! LSuspend event);
    need_schedule ← event_send_loop event l false;
    when need_schedule rt_schedule;;
    mret RT_EOK.

(** The result is the returned code and what is stored in [*recved], if anything. *)
Definition rt_event_recv (event : ptr) (set option timeout : Z) : K (progress (Z * Datatypes.option Z) ptr) :=
  RT_DEBUG_IN_THREAD_CONTEXT;;
  nonnull event;;
  if set =? 0 then mret (Done (- RT_ERROR, None))
  else
    thread ← rt_thread_self;
    upd_thread thread (set_th_error RT_EOK);;
    x ← get_event event;
    status ←
      (if negb (Z.land option RT_EVENT_FLAG_AND =? 0) then mret (Z.land (ev_set x) set =? set)
       else if negb (Z.land option RT_EVENT_FLAG_OR =? 0) then mret (negb (Z.land (ev_set x) set =? 0))
       else throw AssertFail);
    if status : bool then
      when (negb (Z.land option RT_EVENT_FLAG_CLEAR =? 0))
        (upd_event event (set_ev_set (Z.land (ev_set x) (Z.lnot set))));;
      th ← get_thread thread;
      mret (Done (th_error th, Some (Z.land (ev_set x) set)))
    else if timeout =? 0 then
      upd_thread thread (set_th_error (- RT_ETIMEOUT));;
      th ← get_thread thread;
      mret (Done (th_error th, None))
    else
      upd_thread thread (set_th_event_set set);;
      upd_thread thread (set_th_event_info (u8 option));;
      rt_ipc_list_suspend (LSuspend event) thread (ev_flag x);;
      when (0 <? timeout) (start_thread_timer thread timeout);;
      rt_schedule;;
      mret (Blocked thread).
Definition rt_event_recv_resume (thread : ptr) : K (Z * option Z) :=
  th ← get_thread thread;
  if negb (th_error th =? RT_EOK) then mret (th_error th, None)
  else mret (th_error th, Some (th_event_set th)).

Definition rt_event_control (event : ptr) (cmd arg : Z) : K Z :=
  nonnull event;;
  if cmd =? RT_IPC_CMD_RESET then
    rt_ipc_list_resume_all (LSuspend event);;
    upd_event event (set_ev_set 0);;
    rt_schedule;;
    mret RT_EOK
  else mret (- RT_ERROR).

(** ** Correctness *)

Lemma wp_get_event e x (Q : rt_event -> kstate -> Prop) s :
  events s !! e = Some x -> Q x s -> wp (get_event e) Q s.
Proof. intros E HQ. unfold get_event. do 2 wp_step. by eapply wp_opt. Qed.

Lemma wp_upd_event e f x (Q : unit -> kstate -> Prop) s :
  events s !! e = Some x -> Q tt (set_events (<[e := f x]> (events s)) s) -> wp (upd_event e f) Q s.
Proof. intros E HQ. unfold upd_event. wp_step. eapply wp_get_event; [done|]. by wp_step. Qed.

Definition with_set (e : ptr) (x : rt_event) (have : Z) (s : kstate) : kstate :=
  set_events (<[e := set_ev_set have x]> (events s)) s.

Lemma with_set_kinv X e x v s : kinv X s -> kinv X (with_set e x v s).
Proof. by apply kinv_eq. Qed.

(** The request of a thread: every event of [want] (AND) or any of them (OR); what
    it gets out of the set [have]. *)
Definition answer (info want have : Z) : option Z :=
  if negb (Z.land info RT_EVENT_FLAG_AND =? 0) then
    if Z.land want have =? want then Some want else None
  else if negb (Z.land info RT_EVENT_FLAG_OR =? 0) then
    if negb (Z.land want have =? 0) then Some (Z.land want have) else None
  else None.

(** The set after a request has been met *)
Definition consume (info got have : Z) : Z :=
  if negb (Z.land info RT_EVENT_FLAG_CLEAR =? 0) then Z.land have (Z.lnot got) else have.

(** The waiting threads are served in the order of the list: who gets what, who
    keeps waiting, and the set that remains. *)
Record service := mk_service { sv_have : Z; sv_served : list (ptr * Z); sv_kept : list ptr }.

Definition serve_one (ths : gmap ptr rt_thread) (sv : service) (t : ptr) : service :=
  match ths !! t with
  | Some th =>
      match answer (th_event_info th) (th_event_set th) (sv_have sv) with
      | Some got => mk_service (consume (th_event_info th) got (sv_have sv)) (sv_served sv ++ [(t, got)]) (sv_kept sv)
      | None => mk_service (sv_have sv) (sv_served sv) (sv_kept sv ++ [t])
      end
  | None => sv
  end.
Definition serve (ths : gmap ptr rt_thread) (l : list ptr) (sv : service) : service :=
  foldl (serve_one ths) sv l.

Definition got_event (got : Z) (th : rt_thread) : rt_thread :=
  set_th_stat RT_THREAD_READY (set_th_event_set got th).

Section send.
Context (s0 : kstate) (event : ptr) (x : rt_event).

(** In the loop: [sv] has been decided, the threads of [l] come next. *)
Record serving (sv : service) (l : list ptr) (s : kstate) : Prop := {
  sg_kinv : kinv ∅ s;
  sg_frame : frame0 (with_set event x (sv_have sv) s0) s;
  sg_wait : tlists s !!! LSuspend event = sv_kept sv ++ l;
  sg_new : forall u, u ∈ l -> u ∉ (sv_served sv).*1;
  sg_ready : sv_served sv <> [] -> exists p, ready s p <> [];
  sg_threads : forall u, threads s !! u =
    match (list_to_map (sv_served sv) : gmap ptr Z) !! u with
    | Some got => got_event got <$> threads s0 !! u
    | None => threads s0 !! u
    end
}.

Lemma not_served (m : list (ptr * Z)) u : u ∉ m.*1 -> (list_to_map m : gmap ptr Z) !! u = None.
Proof. apply not_elem_of_list_to_map_1. Qed.

Lemma serve_map_snoc (m : list (ptr * Z)) t got u :
  t ∉ m.*1 -> (list_to_map (m ++ [(t, got)]) : gmap ptr Z) !! u =
    if decide (u = t) then Some got else (list_to_map m : gmap ptr Z) !! u.
Proof.
  intros Ht. rewrite list_to_map_app, lookup_union. simpl. case_decide as Eu.
  - subst. rewrite not_served by done. by rewrite lookup_insert_eq.
  - rewrite lookup_insert_ne, lookup_empty by done. by destruct (_ !! u).
Qed.
Lemma serving_kept sv t l s :
  serving sv (t :: l) s -> serving (mk_service (sv_have sv) (sv_served sv) (sv_kept sv ++ [t])) l s.
Proof.
  intros [S1 S2 S3 S4 S5 S6]. split; simpl; try done.
  - by rewrite <- app_assoc.
  - intros u Hu. apply S4. by right.
Qed.

(** The thread that is served leaves the list and becomes ready with its events. *)
Lemma serving_served sv t l s th got s' s1 have' :
  serving sv (t :: l) s -> threads s0 !! t = Some th ->
  s1 = with_set event x have' (set_threads (<[t := set_th_event_set got th]> (threads s)) s) ->
  kinv ∅ s' -> frame0 s1 s' -> threads s' = resumed_threads t (set_th_event_set got th) s1 ->
  tlists s' = resumed_lists t (set_th_event_set got th) s1 ->
  serving (mk_service have' (sv_served sv ++ [(t, got)]) (sv_kept sv)) l s'.
Proof.
  intros [S1 S2 S3 S4 S5 S6] E0 -> Hk' Hf' Eth Etl.
  pose proof (Abs.wf_nodup _ (si_wf _ _ (ki_sched _ _ S1)) (LSuspend event)) as Hnd. rewrite S3 in Hnd.
  apply NoDup_app in Hnd as (_ & Hdj & [Htl _]%NoDup_cons).
  assert (t ∉ sv_kept sv) as Htk by (intros Hin; apply (Hdj t Hin); left).
  assert (t ∉ (sv_served sv).*1) as Hts by (apply S4; left).
  split; simpl.
  - done.
  - etrans; [|exact Hf']. pose proof (fr_events _ _ (fr0_frame _ _ S2)) as Fev. destruct S2 as [[] ? ? ?].
    split; [split|..]; simpl in *; try done. by rewrite Fev, insert_insert_eq.
  - rewrite Etl. unfold resumed_lists. rewrite lookup_insert_back, decide_False by done.
    rewrite Abs.lookup_remove. simpl. rewrite S3, list_del_app. f_equal; [by apply list_del_not_in|].
    unfold list_del. rewrite filter_cons_False by tauto. by apply list_del_not_in.
  - intros u Hu. rewrite fmap_app, elem_of_app. simpl. rewrite list_elem_of_singleton.
    intros [Hin| ->]; [|done]. by apply (S4 u); [right|].
  - intros _. by eapply insert_back_ready.
  - intros u. rewrite serve_map_snoc by done. rewrite Eth. unfold resumed_threads. simpl.
    rewrite insert_insert_eq. case_decide as Eu.
    + subst u. by rewrite lookup_insert_eq, E0.
    + rewrite lookup_insert_ne by done. apply S6.
Qed.

(** What [event_wake] does once it has decided to resume the thread *)
Lemma event_resume_spec sv t l s th got :
  serving sv (t :: l) s -> threads s0 !! t = Some th -> threads s !! t = Some th ->
  wp (th ← get_thread t;
      when (negb (Z.land (th_event_info th) RT_EVENT_FLAG_CLEAR =? 0))
        (upd_event event (set_ev_set (Z.land (sv_have sv) (Z.lnot (th_event_set th)))));;
      rt_thread_resume t;; mret true)
    (fun b s' => b = true /\ serving (mk_service (consume (th_event_info th) got (sv_have sv))
                                       (sv_served sv ++ [(t, got)]) (sv_kept sv)) l s')
    (set_threads (<[t := set_th_event_set got th]> (threads s)) s).
Proof.
  intros Hs E0 E. pose proof Hs as [S1 S2 S3 S4 S5 S6].
  assert (events s !! event = Some (set_ev_set (sv_have sv) x)) as Ev.
  { rewrite (fr_events _ _ (fr0_frame _ _ S2)). apply lookup_insert_eq. }
  assert (th_stat th = RT_THREAD_SUSPEND) as Hst.
  { apply (suspended_on s (LSuspend event) t); [done|done| |done|done]. rewrite S3. apply elem_of_app. right. left. }
  set (th1 := set_th_event_set got th). set (s1 := set_threads _ s).
  set (s2 := with_set event x (consume (th_event_info th) got (sv_have sv)) s1).
  wp_step. eapply wp_get_thread; [apply lookup_insert_eq|]. wp_step.
  assert (wp (rt_thread_resume t;; mret true) (fun b s' => b = true /\
    serving (mk_service (consume (th_event_info th) got (sv_have sv)) (sv_served sv ++ [(t, got)]) (sv_kept sv)) l s') s2) as Hres.
  { wp_step. eapply wp_mono; [apply (rt_thread_resume_spec ∅ s2 t th1);
      [apply with_set_kinv; by eapply kinv_retouch|apply not_elem_of_empty|apply lookup_insert_eq|done]|].
    intros e s' (_ & Hk' & Hf' & Eth & Etl & _). wp_step. split; [done|]. by eapply serving_served. }
  apply wp_when; simpl; intros Hc.
  - eapply wp_upd_event; [exact Ev|].
    assert (consume (th_event_info th) got (sv_have sv) = Z.land (sv_have sv) (Z.lnot got)) as Ec
      by (unfold consume; by rewrite Hc).
    rewrite <- Ec. exact Hres.
  - assert (s2 = s1) as Es; [|rewrite Es in Hres; exact Hres].
    unfold s2, with_set, consume. rewrite Hc. simpl. by rewrite insert_id by done.
Qed.

Lemma event_wake_spec sv t l s :
  serving sv (t :: l) s ->
  wp (event_wake event t) (fun b s' => serving (serve_one (threads s0) sv t) l s' /\
    (b = false -> s' = s /\ sv_served (serve_one (threads s0) sv t) = sv_served sv) /\
    (b = true -> sv_served (serve_one (threads s0) sv t) <> [])) s.
Proof.
  intros Hs. pose proof Hs as [S1 S2 S3 S4 S5 S6]. assert (t ∈ t :: l) as Htl by left.
  assert (is_Some (threads s !! t)) as [th E].
  { apply (si_exist _ _ (ki_sched _ _ S1) (LSuspend event)). rewrite S3. apply elem_of_app. by right. }
  assert (threads s0 !! t = Some th) as E0. { rewrite S6, not_served in E; [done|by apply S4]. }
  assert (events s !! event = Some (set_ev_set (sv_have sv) x)) as Ev.
  { rewrite (fr_events _ _ (fr0_frame _ _ S2)). apply lookup_insert_eq. }
  unfold event_wake, serve_one. rewrite E0.
  wp_step. eapply wp_get_thread; [done|]. wp_step. eapply wp_get_event; [done|]. simpl. wp_step. unfold answer.
  pose proof (fun got => event_resume_spec sv t l s th got Hs E0 E) as Hres.
  destruct (negb (Z.land (th_event_info th) RT_EVENT_FLAG_AND =? 0)).
  - wp_step. destruct (Z.land (th_event_set th) (sv_have sv) =? th_event_set th) eqn:Em.
    + specialize (Hres (th_event_set th)). replace (set_threads _ s) with s in Hres.
      { eapply wp_mono; [exact Hres|]. intros b s' [-> Hs']. split_and!; [done|done|]. simpl. by destruct (sv_served sv). }
      replace (set_th_event_set (th_event_set th) th) with th by (by destruct th). rewrite insert_id by done. by destruct s.
    + wp_step. split_and!; [by apply serving_kept|done|done].
  - destruct (negb (Z.land (th_event_info th) RT_EVENT_FLAG_OR =? 0)).
    2: { wp_step. wp_step. split_and!; [by apply serving_kept|done|done]. }
    destruct (negb (Z.land (th_event_set th) (sv_have sv) =? 0)).
    2: { wp_step. wp_step. split_and!; [by apply serving_kept|done|done]. }
    wp_step. eapply wp_upd_thread; [done|]. wp_step. eapply wp_mono; [apply Hres|].
    intros b s' [-> Hs']. split_and!; [done|done|]. simpl. by destruct (sv_served sv).
Qed.

Lemma event_send_loop_spec l : forall sv s need,
  serving sv l s -> (need = true <-> sv_served sv <> []) ->
  wp (event_send_loop event l need) (fun b s' => serving (serve (threads s0) l sv) [] s' /\
    (b = true <-> sv_served (serve (threads s0) l sv) <> [])) s.
Proof.
  induction l as [|t l IH]; intros sv s need Hs Hn; simpl; [by wp_step|].
  wp_step. eapply wp_mono; [by apply event_wake_spec|]. intros b s' (Hs' & Hf & Ht).
  apply IH; [done|]. destruct b; [|destruct (Hf eq_refl) as [_ ->]; by rewrite orb_false_r].
  rewrite orb_true_r. split; [intros _; auto|done].
Qed.
End send.

(** ** No request that can be met is left waiting *)

Definition subset_of (a b : Z) : Prop := Z.land a b = a.

Lemma consume_subset info got have : subset_of (consume info got have) have.
Proof.
  unfold subset_of, consume. destruct (negb _); [|apply Z.land_diag].
  rewrite <- Z.land_assoc, (Z.land_comm _ have), Z.land_assoc. by rewrite Z.land_diag.
Qed.

Lemma answer_mono info want have have' :
  subset_of have' have -> answer info want have = None -> answer info want have' = None.
Proof.
  unfold subset_of, answer. intros Hs. rewrite <- Hs.
  destruct (negb (Z.land info RT_EVENT_FLAG_AND =? 0)).
  - destruct (Z.eqb_spec (Z.land want have) want) as [|Hn]; [done|]. intros _.
    destruct (Z.eqb_spec (Z.land want (Z.land have' have)) want) as [E|]; [|done]. destruct Hn.
    rewrite <- E at 1. rewrite <- !Z.land_assoc, Z.land_diag. done.
  - destruct (negb (Z.land info RT_EVENT_FLAG_OR =? 0)); [|done].
    destruct (Z.eqb_spec (Z.land want have) 0) as [E|]; [|done]. intros _.
    rewrite (Z.land_comm have'), Z.land_assoc, E. done.
Qed.

Definition hungry (ths : gmap ptr rt_thread) (have : Z) (u : ptr) : Prop :=
  forall th, ths !! u = Some th -> answer (th_event_info th) (th_event_set th) have = None.

Lemma hungry_mono ths have have' u : subset_of have' have -> hungry ths have u -> hungry ths have' u.
Proof. intros Hs Hh th E. eapply answer_mono; eauto. Qed.

Lemma serve_hungry ths l : forall sv,
  Forall (hungry ths (sv_have sv)) (sv_kept sv) -> Forall (hungry ths (sv_have (serve ths l sv))) (sv_kept (serve ths l sv)).
Proof.
  induction l as [|t l IH]; intros sv Hk; simpl; [done|]. apply IH. unfold serve_one.
  destruct (ths !! t) as [th|] eqn:E; [|done].
  destruct (answer (th_event_info th) (th_event_set th) (sv_have sv)) as [got|] eqn:Ea; simpl.
  - eapply Forall_impl; [exact Hk|]. intros u. apply hungry_mono, consume_subset.
  - apply Forall_app. split; [done|]. apply Forall_singleton. intros th' E'. congruence.
Qed.

Lemma serve_kept_sub ths l : forall sv u,
  u ∈ sv_kept (serve ths l sv) -> u ∈ sv_kept sv \/ u ∈ l.
Proof.
  induction l as [|t l IH]; intros sv u; simpl; [by left|]. intros Hu. apply IH in Hu as [Hu|Hu]; [|by right; right].
  unfold serve_one in Hu. destruct (ths !! t); [|by left]. destruct (answer _ _ _); simpl in Hu; [by left|].
  apply elem_of_app in Hu as [|Hu]; [by left|]. apply list_elem_of_singleton in Hu as ->. right. left.
Qed.

(** An event set in use: no waiting request can be met. *)
Record event_ok (s : kstate) (e : ptr) (x : rt_event) : Prop := {
  eok_ptr : e <> RT_NULL;
  eok_at : events s !! e = Some x;
  eok_flag : flag_ok (ev_flag x);
  eok_hungry : Forall (hungry (threads s) (ev_set x)) (tlists s !!! LSuspend e)
}.

(** What [rt_event_send] does: it adds the events and serves the waiting threads. *)
Record sent (s : kstate) (e : ptr) (x : rt_event) (sv : service) (s' : kstate) : Prop := {
  st_kinv : kinv ∅ s';
  st_frame : frame (with_set e x (sv_have sv) s) s';
  st_wait : tlists s' !!! LSuspend e = sv_kept sv;
  st_threads : forall u, threads s' !! u =
    match (list_to_map (sv_served sv) : gmap ptr Z) !! u with
    | Some got => got_event got <$> threads s !! u
    | None => threads s !! u
    end;
  st_next : sv_served sv <> [] -> rt_scheduler_lock_nest s = 0 -> next_thread s' (rt_current_thread s')
}.

Definition sending (s : kstate) (e : ptr) (x : rt_event) (set : Z) : service :=
  serve (threads s) (tlists s !!! LSuspend e) (mk_service (Z.lor (ev_set x) set) [] []).

Lemma rt_event_send_spec s e x set :
  kinv ∅ s -> event_ok s e x -> set <> 0 ->
  wp (rt_event_send e set) (fun r s' => r = RT_EOK /\ sent s e x (sending s e x set) s') s.
Proof.
  intros Hk [Hnn E Hfl Hh] Hset. unfold rt_event_send. wp_step. apply nonnull_ok; [done|].
  rewrite (proj2 (Z.eqb_neq _ _) Hset). wp_step. eapply wp_upd_event; [done|].
  fold (with_set e x (Z.lor (ev_set x) set) s). set (sv0 := mk_service (Z.lor (ev_set x) set) [] []).
  wp_step. wp_step. simpl. wp_step.
  eapply wp_mono; [apply (event_send_loop_spec s e x _ sv0); [|done]|].
  { split; simpl; [by apply with_set_kinv|done|done|intros ? ? ?%elem_of_nil; done|done|done]. }
  intros b s1 [[S1 S2 S3 _ S5 S6] Hb]. fold (sending s e x set) in *. rewrite app_nil_r in S3.
  pose proof (fr0_frame _ _ S2) as F1. wp_step. apply wp_when; intros Eb.
  - apply rt_schedule_kinv; [done|by apply S5, Hb|].
    intros s2 Hk2 Hf2 Eth2 Etl2 _ _ Hnext. wp_step. split; [done|].
    split; [done|by etrans|by rewrite Etl2|intros u; by rewrite Eth2|].
    intros _ Hl. apply Hnext. by rewrite (fr_lock _ _ F1).
  - wp_step. split; [done|]. split; [done|done|done|done|]. intros Hne%Hb. congruence.
Qed.
Lemma sent_ok s e x set s' :
  event_ok s e x -> sent s e x (sending s e x set) s' -> event_ok s' e (set_ev_set (sv_have (sending s e x set)) x).
Proof.
  intros [Hnn E Hfl Hh] [S1 S2 S3 S4 S5]. split; [done|by rewrite (fr_events _ _ S2); apply lookup_insert_eq|done|].
  pose proof (serve_hungry (threads s) (tlists s !!! LSuspend e) (mk_service (Z.lor (ev_set x) set) [] [])
    ltac:(by apply Forall_nil)) as Hs.
  fold (sending s e x set) in Hs. rewrite S3. rewrite Forall_forall in Hs |- *. intros u Hu th Eu. simpl.
  pose proof (suspended_on s' (LSuspend e) u th S1 Eu ltac:(by rewrite S3) ltac:(done) ltac:(done)) as Hst.
  rewrite S4 in Eu. destruct ((list_to_map _ : gmap ptr Z) !! u) as [got|]; [|by apply (Hs u)].
  destruct (threads s !! u); [|done]. simplify_eq/=.
Qed.

(** ** Receiving *)

(** What the caller leaves in its control block before it waits *)
Definition asking (set option : Z) (th : rt_thread) : rt_thread :=
  set_th_event_info (u8 option) (set_th_event_set set (set_th_error RT_EOK th)).

(** What a call of [rt_event_recv] by thread [t] does: its request is met at once, it
    fails, or it waits with the request in its control block. *)
Definition event_received (s : kstate) (e : ptr) (x : rt_event) (t : ptr) (th : rt_thread)
    (set option timeout : Z) (r : progress (Z * Datatypes.option Z) ptr) (s' : kstate) : Prop :=
  match answer option set (ev_set x) with
  | Some got => r = Done (RT_EOK, Some got) /\
      s' = with_set e x (consume option got (ev_set x)) (set_error t th RT_EOK s)
  | None =>
      if timeout =? 0 then r = Done (- RT_ETIMEOUT, None) /\ s' = set_error t th (- RT_ETIMEOUT) s
      else r = Blocked t /\
        blocked (set_threads (<[t := asking set option th]> (threads s)) s) (LSuspend e) t
          (asking set option th) (ev_flag x) timeout s'
  end.

Lemma land_clear_got have set : Z.land have (Z.lnot (Z.land set have)) = Z.land have (Z.lnot set).
Proof.
  apply Z.bits_inj'. intros i Hi. rewrite !Z.land_spec, !Z.lnot_spec, Z.land_spec by done.
  by destruct (Z.testbit have i), (Z.testbit set i).
Qed.

Lemma answer_got option set have got : answer option set have = Some got -> got = Z.land set have.
Proof.
  unfold answer. destruct (negb _).
  - destruct (Z.eqb_spec (Z.land set have) set); naive_solver.
  - destruct (negb _); [|done]. destruct (negb _); naive_solver.
Qed.

Definition and_or (option : Z) : Prop :=
  Z.land option RT_EVENT_FLAG_AND <> 0 \/ Z.land option RT_EVENT_FLAG_OR <> 0.

(** The test at the start of [rt_event_recv] *)
Lemma recv_status option set have :
  and_or option ->
  (if negb (Z.land option RT_EVENT_FLAG_AND =? 0) then mret (Z.land have set =? set)
   else if negb (Z.land option RT_EVENT_FLAG_OR =? 0) then mret (negb (Z.land have set =? 0))
   else throw AssertFail : K bool) = mret (match answer option set have with Some _ => true | None => false end).
Proof.
  unfold answer, and_or. rewrite (Z.land_comm have). intros Hopt.
  destruct (Z.eqb_spec (Z.land option RT_EVENT_FLAG_AND) 0) as [Ea|]; simpl.
  - destruct (Z.eqb_spec (Z.land option RT_EVENT_FLAG_OR) 0) as [Eo|]; simpl; [by destruct Hopt|].
    by destruct (Z.land set have =? 0).
  - by destruct (Z.land set have =? set).
Qed.

Lemma rt_event_recv_spec s e x t th set option timeout :
  kinv ∅ s -> event_ok s e x -> running s t th -> other_ready s t -> timeout < HALF_TICK ->
  set <> 0 -> and_or option ->
  wp (rt_event_recv e set option timeout) (event_received s e x t th set option timeout) s.
Proof.
  intros Hk [Hnn E Hfl _] Hrun Hoth Htime Hset Hopt. pose proof Hrun as [Ec Eth Hst _ _].
  unfold rt_event_recv, event_received. wp_step. eapply in_thread_context; [done|].
  wp_step. apply nonnull_ok; [done|]. rewrite (proj2 (Z.eqb_neq _ _) Hset).
  wp_step. unfold rt_thread_self. wp_step. rewrite Ec. wp_step. eapply wp_upd_thread; [done|].
  fold (set_error t th RT_EOK s). set (s0 := set_error t th RT_EOK s).
  assert (threads s0 !! t = Some (set_th_error RT_EOK th)) as E0 by apply lookup_insert_eq.
  wp_step. eapply wp_get_event; [done|]. wp_step. rewrite (recv_status _ _ _ Hopt). wp_step.
  destruct (answer option set (ev_set x)) as [got|] eqn:Ea; simpl.
  - pose proof (answer_got _ _ _ _ Ea) as Hg. wp_step.
    assert (forall s1, threads s1 = threads s0 -> s1 = with_set e x (consume option got (ev_set x)) s0 ->
      wp (th ← get_thread t; mret (@Done _ ptr (th_error th, Some (Z.land (ev_set x) set)))) (fun r s' =>
        r = Done (RT_EOK, Some got) /\ s' = with_set e x (consume option got (ev_set x)) s0) s1) as Hend.
    { intros s1 Es1 ->. wp_step. eapply wp_get_thread; [by rewrite Es1|]. wp_step. by rewrite Hg, Z.land_comm. }
    apply wp_when; intros Hc.
    + eapply wp_upd_event; [done|]. apply Hend; [done|]. unfold with_set, consume. rewrite Hc, Hg. by rewrite land_clear_got.
    + apply Hend; [done|]. unfold with_set, consume. rewrite Hc. rewrite insert_id; [done|]. simpl. rewrite E. by destruct x.
  - destruct (Z.eqb_spec timeout 0).
    + wp_step. eapply wp_upd_thread; [exact E0|]. wp_step. eapply wp_get_thread; [apply lookup_insert_eq|].
      wp_step. split; [done|]. unfold s0, set_error. simpl. by kset.
    + wp_step. eapply wp_upd_thread; [exact E0|]. wp_step. eapply wp_upd_thread; [apply lookup_insert_eq|].
      unfold s0, set_error. simpl. kset. fold (asking set option th). set (s1 := set_threads _ s).
      eapply (wait_on s1); [by eapply kinv_retouch|apply lookup_insert_eq|done|done|apply suspend_waiting|done|done|].
      intros s' Hb. by wp_step.
Qed.

(** The invariant after a receive *)
Lemma event_received_ok s e x t th set option timeout r s' :
  kinv ∅ s -> event_ok s e x -> running s t th -> 0 <= option < 2 ^ 8 ->
  event_received s e x t th set option timeout r s' -> kinv ∅ s' /\ exists x', event_ok s' e x'.
Proof.
  intros Hk [Hnn E Hfl Hh] [_ Eth Hst _ _] Hopt. unfold event_received.
  assert (t ∉ tlists s !!! LSuspend e) as Hnl.
  { intros Hin. pose proof (suspended_on s _ t th Hk Eth Hin ltac:(done) ltac:(done)) as Hs. by rewrite Hst in Hs. }
  assert (forall th' have', subset_of have' (ev_set x) ->
    Forall (hungry (<[t := th']> (threads s)) have') (tlists s !!! LSuspend e)) as Hold.
  { intros th' have' Hsub. rewrite Forall_forall in Hh |- *. intros u Hu th1. rewrite lookup_insert_ne by (by intros <-).
    by apply (hungry_mono _ (ev_set x)); [|apply Hh]. }
  destruct (answer option set (ev_set x)) as [got|] eqn:Ea.
  { intros [_ ->]. split; [apply with_set_kinv; by eapply kinv_retouch|]. eexists.
    split; [done|apply lookup_insert_eq|done|]. simpl. apply Hold, consume_subset. }
  destruct (timeout =? 0).
  { intros [_ ->]. split; [by eapply kinv_retouch|]. exists x. split; [done|done|done|]. apply Hold, Z.land_diag. }
  intros [_ [B1 B2 B3 B4 _ _]]. split; [done|]. exists x. split; [done|by rewrite (fr_events _ _ B2)|done|].
  rewrite B4, lookup_total_insert_eq, B3. simpl. rewrite insert_insert_eq.
  rewrite Forall_forall. intros u Hu. destruct (decide (u = t)) as [->|Hne].
  - intros th1. rewrite lookup_insert_eq. intros [= <-]. simpl. by rewrite uwrap_small.
  - specialize (Hold (set_th_stat RT_THREAD_SUSPEND (asking set option th)) (ev_set x) (Z.land_diag _)).
    rewrite Forall_forall in Hold. apply Hold. unfold join in Hu. destruct (_ =? _).
    + apply elem_of_app in Hu as [|Hu%list_elem_of_singleton]; done.
    + rewrite prio_insert_perm, elem_of_cons in Hu. by destruct Hu.
Qed.

(** ** Properties *)

(** C21: [rt_event_send] adds the events and serves the waiting threads in the order of
    the list: a thread whose request is met becomes ready, its [rt_event_recv] then
    returns the events it got, which are taken out of the set if it asked for that;
    afterwards no waiting thread has a request the remaining set meets. *)
Theorem rt_event_send_correct s e x set :
  kinv ∅ s -> event_ok s e x -> set <> 0 ->
  exists s', rt_event_send e set s = Ok RT_EOK s' /\ sent s e x (sending s e x set) s' /\
    event_ok s' e (set_ev_set (sv_have (sending s e x set)) x) /\
    (forall t got th, (list_to_map (sv_served (sending s e x set)) : gmap ptr Z) !! t = Some got ->
       threads s !! t = Some th -> th_error th = RT_EOK -> rt_event_recv_resume t s' = Ok (RT_EOK, Some got) s').
Proof.
  intros Hk He Hset. destruct (wp_ok _ _ _ (rt_event_send_spec s e x set Hk He Hset)) as (r & s' & E & -> & Hs).
  exists s'. split_and!; [done|done|by apply sent_ok|]. intros t got th Hg Eth Herr.
  unfold rt_event_recv_resume, get_thread, mbind, M_bind, get. simpl.
  rewrite (st_threads _ _ _ _ _ Hs), Hg, Eth. simpl. by rewrite Herr.
Qed.

(** [rt_event_recv] meets the request at once, returning the events and clearing
    them on demand, fails with -RT_ETIMEOUT without a timeout, or waits with its
    request recorded; the invariants hold, so a waiting request is never one that
    the set already meets. *)
Theorem rt_event_recv_correct s e x t th set option timeout :
  kinv ∅ s -> event_ok s e x -> running s t th -> other_ready s t -> timeout < HALF_TICK ->
  set <> 0 -> and_or option -> 0 <= option < 2 ^ 8 ->
  exists r s', rt_event_recv e set option timeout s = Ok r s' /\
    event_received s e x t th set option timeout r s' /\ kinv ∅ s' /\ exists x', event_ok s' e x'.
Proof.
  intros Hk He Hr Ho Ht Hset Hao Hopt.
  destruct (wp_ok _ _ _ (rt_event_recv_spec s e x t th set option timeout Hk He Hr Ho Ht Hset Hao)) as (r & s' & E & Hp).
  exists r, s'. split_and!; [done|done|..]; by eapply event_received_ok.
Qed.
End event.
