(* ===== verification/Mailbox.v ===== *)
(** * Mailboxes (src/ipc.c)

    A circular buffer of 32-bit mails with a list of suspended receivers and one of
    suspended senders. *)
From stdpp Require Import base tactics numbers list gmap.
From S2P Require Import Prelude RtList Kernel Scheduler Object Timer Thread Ipc.
Local Open Scope Z_scope.

Section mailbox.
Context `{KConfig} `{Allocator}.

Definition get_mb (p : ptr) : K rt_mailbox := s ← get; opt BadPointer (mailboxes s !! p).
Definition upd_mb (p : ptr) (f : rt_mailbox -> rt_mailbox) : K unit :=
  x ← get_mb p; modify (fun s => set_mailboxes (<[p := f x]> (mailboxes s)) s).

Definition mb_flag (x : rt_mailbox) : Z := obj_flag (mb_parent x).
Definition set_mb_flag (v : Z) (x : rt_mailbox) : rt_mailbox :=
  set_mb_parent (set_obj_flag v (mb_parent x)) x.

(** What a buffer of [size] mails holds before anything is stored in it. *)
Definition pool_words_at (msgpool size : Z) : list Z :=
  (fun i => u32 (garbage msgpool i)) <$> seq 0 (Z.to_nat size).

Definition rt_mb_init (mb : ptr) (name : list Z) (msgpool size flag : Z) : K Z :=
  nonnull mb;;
  modify (place (OMailbox mb));;
  rt_object_init (OMailbox mb) RT_Object_Class_MailBox name;;
  upd_mb mb (set_mb_flag (u8 flag));;
  rt_ipc_object_init mb;;
  upd_mb mb (set_mb_msg_pool msgpool);;
  upd_mb mb (set_mb_msgs (pool_words_at msgpool size));;
  upd_mb mb (set_mb_size (u16 size));;
  upd_mb mb (set_mb_entry 0);;
  upd_mb mb (set_mb_in_offset 0);;
  upd_mb mb (set_mb_out_offset 0);;
  tlist_head_init (LSender mb);;
  mret RT_EOK.

Definition rt_mb_detach (mb : ptr) : K Z :=
  nonnull mb;;
  rt_ipc_list_resume_all (LSuspend mb);;
  rt_ipc_list_resume_all (LSender mb);;
  rt_object_detach (OMailbox mb);;
  mret RT_EOK.

Definition rt_mb_create (name : list Z) (size flag : Z) : K ptr :=
  RT_DEBUG_NOT_IN_INTERRUPT;;
  mb ← rt_object_allocate RT_Object_Class_MailBox name;
  if mb =? RT_NULL then mret mb
  else
    upd_mb mb (set_mb_flag (u8 flag));;
    rt_ipc_object_init mb;;
    upd_mb mb (set_mb_size (u16 size));;
    x ← get_mb mb;
    pool ← kmalloc (mb_size x * 4);
    upd_mb mb (set_mb_msg_pool pool);;
    if pool =? RT_NULL then rt_object_delete (OMailbox mb);; mret RT_NULL
    else
      upd_mb mb (set_mb_msgs (pool_words_at pool (mb_size x)));;
      upd_mb mb (set_mb_entry 0);;
      upd_mb mb (set_mb_in_offset 0);;
      upd_mb mb (set_mb_out_offset 0);;
      tlist_head_init (LSender mb);;
      mret mb.

Definition rt_mb_delete (mb : ptr) : K Z :=
  RT_DEBUG_NOT_IN_INTERRUPT;;
  nonnull mb;;
  rt_ipc_list_resume_all (LSuspend mb);;
  rt_ipc_list_resume_all (LSender mb);;
  x ← get_mb mb;
  kfree (mb_msg_pool x);;
  rt_object_delete (OMailbox mb);;
  mret RT_EOK.

(** [mb->msg_pool[mb->in_offset] = value]: outside the buffer it is a wild write *)
Definition mb_store (mb : ptr) (value : Z) : K unit :=
  x ← get_mb mb;
  opt BadPointer (mb_msgs x !! Z.to_nat (mb_in_offset x));;
  upd_mb mb (set_mb_msgs (<[Z.to_nat (mb_in_offset x) := value]> (mb_msgs x))).
Definition mb_load (mb : ptr) : K Z :=
  x ← get_mb mb; opt BadPointer (mb_msgs x !! Z.to_nat (mb_out_offset x)).

(** The offset behind [o] in a buffer of [size] mails *)
Definition next_offset (size o : Z) : Z := let o := u16 (o + 1) in if size <=? o then 0 else o.

(** Behind the loop of [rt_mb_send_wait]: the mail is stored. *)
Definition mb_put (mb : ptr) (value : Z) : K Z :=
  mb_store mb value;;
  upd_mb mb (fun x => set_mb_in_offset (next_offset (mb_size x) (mb_in_offset x)) x);;
  upd_mb mb (fun x => set_mb_entry (u16 (mb_entry x + 1)) x);;
  e ← tlist_isempty (LSuspend mb);
  if e : bool then mret RT_EOK
  else rt_ipc_list_resume (LSuspend mb);; rt_schedule;; mret RT_EOK.

(** The loop of [rt_mb_send_wait], up to a [rt_schedule()] or to the end. *)
Definition mb_send_loop (mb thread value timeout tick_delta : Z) : K (progress Z (Z * Z)) :=
  x ← get_mb mb;
  if mb_entry x =? mb_size x then
    upd_thread thread (set_th_error RT_EOK);;
    if timeout =? 0 then mret (Done (- RT_EFULL))
    else
      RT_DEBUG_IN_THREAD_CONTEXT;;
      rt_ipc_list_suspend (LSender mb) thread (mb_flag x);;
      tick_delta ← (if 0 <? timeout then
                      now ← rt_tick_get; start_thread_timer thread timeout;; mret now
                    else mret tick_delta);
      rt_schedule;;
      mret (Blocked (timeout, tick_delta))
  else r ← mb_put mb value; mret (Done r).

Definition rt_mb_send_wait (mb value timeout : Z) : K (progress Z (Z * Z)) :=
  nonnull mb;;
  thread ← rt_thread_self;
  x ← get_mb mb;
  if (mb_entry x =? mb_size x) && (timeout =? 0) then mret (Done (- RT_EFULL))
  else mb_send_loop mb thread value timeout 0.
Definition rt_mb_send_wait_resume (mb thread value timeout tick_delta : Z) : K (progress Z (Z * Z)) :=
  th ← get_thread thread;
  if negb (th_error th =? RT_EOK) then mret (Done (th_error th))
  else
    timeout ← remaining_timeout timeout tick_delta;
    mb_send_loop mb thread value timeout tick_delta.

Definition rt_mb_send (mb value : Z) : K (progress Z (Z * Z)) := rt_mb_send_wait mb value 0.

(** Behind the loop of [rt_mb_recv]: a mail is taken. *)
Definition mb_take (mb : ptr) : K (Z * option Z) :=
  value ← mb_load mb;
  upd_mb mb (fun x => set_mb_out_offset (next_offset (mb_size x) (mb_out_offset x)) x);;
  upd_mb mb (fun x => set_mb_entry (u16 (mb_entry x - 1)) x);;
  e ← tlist_isempty (LSender mb);
  if e : bool then mret (RT_EOK, Some value)
  else rt_ipc_list_resume (LSender mb);; rt_schedule;; mret (RT_EOK, Some value).

Definition mb_recv_loop (mb thread timeout tick_delta : Z) : K (progress (Z * option Z) (Z * Z)) :=
  x ← get_mb mb;
  if mb_entry x =? 0 then
    upd_thread thread (set_th_error RT_EOK);;
    if timeout =? 0 then
      upd_thread thread (set_th_error (- RT_ETIMEOUT));; mret (Done (- RT_ETIMEOUT, None))
    else
      RT_DEBUG_IN_THREAD_CONTEXT;;
      rt_ipc_list_suspend (LSuspend mb) thread (mb_flag x);;
      tick_delta ← (if 0 <? timeout then
                      now ← rt_tick_get; start_thread_timer thread timeout;; mret now
                    else mret tick_delta);
      rt_schedule;;
      mret (Blocked (timeout, tick_delta))
  else r ← mb_take mb; mret (Done r).

Definition rt_mb_recv (mb timeout : Z) : K (progress (Z * option Z) (Z * Z)) :=
  nonnull mb;;
  thread ← rt_thread_self;
  x ← get_mb mb;
  if (mb_entry x =? 0) && (timeout =? 0) then mret (Done (- RT_ETIMEOUT, None))
  else mb_recv_loop mb thread timeout 0.
Definition rt_mb_recv_resume (mb thread timeout tick_delta : Z) : K (progress (Z * option Z) (Z * Z)) :=
  th ← get_thread thread;
  if negb (th_error th =? RT_EOK) then mret (Done (th_error th, None))
  else
    timeout ← remaining_timeout timeout tick_delta;
    mb_recv_loop mb thread timeout tick_delta.

Definition rt_mb_control (mb cmd arg : Z) : K Z :=
  nonnull mb;;
  if cmd =? RT_IPC_CMD_RESET then
    rt_ipc_list_resume_all (LSuspend mb);;
    rt_ipc_list_resume_all (LSender mb);;
    upd_mb mb (set_mb_entry 0);;
    upd_mb mb (set_mb_in_offset 0);;
    upd_mb mb (set_mb_out_offset 0);;
    rt_schedule;;
    mret RT_EOK
  else mret (- RT_ERROR).

(** ** The circular buffer is a queue *)

(** The buffer has [mb_entry] mails from [mb_out_offset] on, and ends at [mb_in_offset]. *)
Record ring_ok (x : rt_mailbox) : Prop := {
  rk_size : 0 < mb_size x < 2 ^ 16;
  rk_len : length (mb_msgs x) = Z.to_nat (mb_size x);
  rk_entry : 0 <= mb_entry x <= mb_size x;
  rk_out : 0 <= mb_out_offset x < mb_size x;
  rk_in : mb_in_offset x = (mb_out_offset x + mb_entry x) mod mb_size x
}.

(** The mails, oldest first *)
Definition mail_at (x : rt_mailbox) (i : nat) : Z :=
  nth (Z.to_nat ((mb_out_offset x + Z.of_nat i) mod mb_size x)) (mb_msgs x) 0.
Definition mails (x : rt_mailbox) : list Z := mail_at x <$> seq 0 (Z.to_nat (mb_entry x)).

Lemma wrap_mod a size : 0 < size -> 0 <= a < 2 * size -> a mod size = if a <? size then a else a - size.
Proof.
  intros Hs Ha. destruct (Z.ltb_spec a size); [apply Z.mod_small; lia|].
  rewrite <- (Z.mod_small (a - size) size) by lia. rewrite <- (Z.mod_add (a - size) 1 size) by lia. f_equal. lia.
Qed.

Lemma next_offset_mod size o : 0 < size < 2 ^ 16 -> 0 <= o < size -> next_offset size o = (o + 1) mod size.
Proof.
  intros Hs Ho. unfold next_offset. rewrite uwrap_small by lia. rewrite wrap_mod by lia.
  destruct (Z.leb_spec size (o + 1)), (Z.ltb_spec (o + 1) size); lia.
Qed.

(** Storing a mail behind the last one *)
Definition pushed (v : Z) (x : rt_mailbox) : rt_mailbox :=
  set_mb_entry (mb_entry x + 1) (set_mb_in_offset (next_offset (mb_size x) (mb_in_offset x))
    (set_mb_msgs (<[Z.to_nat (mb_in_offset x) := v]> (mb_msgs x)) x)).

Lemma pushed_ok v x : ring_ok x -> mb_entry x < mb_size x -> ring_ok (pushed v x).
Proof.
  intros [R1 R2 R3 R4 R5] He. assert (0 <= mb_in_offset x < mb_size x) as Hin.
  { rewrite R5. apply Z.mod_pos_bound. lia. }
  split; simpl; [done|by rewrite length_insert|lia|done|].
  rewrite next_offset_mod, R5, Z.add_mod_idemp_l by lia. f_equal. lia.
Qed.

Lemma mails_pushed v x : ring_ok x -> mb_entry x < mb_size x -> mails (pushed v x) = mails x ++ [v].
Proof.
  intros [R1 R2 R3 R4 R5] He. unfold mails. simpl.
  replace (Z.to_nat (mb_entry x + 1)) with (Z.to_nat (mb_entry x) + 1)%nat by lia.
  rewrite seq_app, fmap_app. simpl. f_equal.
  - apply list_fmap_ext. intros k i Hi. apply lookup_seq in Hi as [-> Hk]. unfold mail_at. simpl.
    rewrite !nth_lookup. rewrite list_lookup_insert_ne; [done|]. rewrite R5, !wrap_mod by lia.
    destruct (Z.ltb_spec (mb_out_offset x + mb_entry x) (mb_size x)),
      (Z.ltb_spec (mb_out_offset x + Z.of_nat k) (mb_size x)); lia.
  - unfold mail_at. simpl. rewrite Z2Nat.id, <- R5 by lia. rewrite nth_lookup, list_lookup_insert_eq; [done|].
    rewrite R2. pose proof (Z.mod_pos_bound (mb_out_offset x + mb_entry x) (mb_size x)). lia.
Qed.

(** Taking the oldest mail *)
Definition popped (x : rt_mailbox) : rt_mailbox :=
  set_mb_entry (mb_entry x - 1) (set_mb_out_offset (next_offset (mb_size x) (mb_out_offset x)) x).

Lemma popped_ok x : ring_ok x -> 0 < mb_entry x -> ring_ok (popped x).
Proof.
  intros [R1 R2 R3 R4 R5] He. split; simpl; [done|done|lia| |].
  - rewrite next_offset_mod by lia. apply Z.mod_pos_bound. lia.
  - rewrite next_offset_mod, Z.add_mod_idemp_l by lia. rewrite R5. f_equal. lia.
Qed.

Lemma mails_popped x : ring_ok x -> 0 < mb_entry x -> mails x = mail_at x 0 :: mails (popped x).
Proof.
  intros [R1 R2 R3 R4 R5] He. unfold mails. simpl.
  replace (Z.to_nat (mb_entry x)) with (S (Z.to_nat (mb_entry x - 1))) by lia. simpl. f_equal.
  rewrite <- seq_shift, <- list_fmap_compose. apply list_fmap_ext. intros k i _. unfold mail_at, compose. simpl.
  rewrite next_offset_mod, Z.add_mod_idemp_l by lia. do 3 f_equal. lia.
Qed.

Lemma mail_lookup x : ring_ok x -> mb_msgs x !! Z.to_nat (mb_out_offset x) = Some (mail_at x 0).
Proof.
  intros [R1 R2 R3 R4 R5]. unfold mail_at. rewrite Z.add_0_r, Z.mod_small, nth_lookup by lia.
  destruct (lookup_lt_is_Some_2 (mb_msgs x) (Z.to_nat (mb_out_offset x))) as [v ->]; [lia|done].
Qed.

Lemma length_mails x : 0 <= mb_entry x -> Z.of_nat (length (mails x)) = mb_entry x.
Proof. intros. unfold mails. rewrite length_fmap, length_seq. lia. Qed.

(** ** Correctness *)

Lemma wp_get_mb m x (Q : rt_mailbox -> kstate -> Prop) s :
  mailboxes s !! m = Some x -> Q x s -> wp (get_mb m) Q s.
Proof. intros E HQ. unfold get_mb. do 2 wp_step. by eapply wp_opt. Qed.

Lemma wp_upd_mb m f x (Q : unit -> kstate -> Prop) s :
  mailboxes s !! m = Some x -> Q tt (set_mailboxes (<[m := f x]> (mailboxes s)) s) -> wp (upd_mb m f) Q s.
Proof. intros E HQ. unfold upd_mb. wp_step. eapply wp_get_mb; [done|]. by wp_step. Qed.

Definition with_mb (m : ptr) (x : rt_mailbox) (s : kstate) : kstate :=
  set_mailboxes (<[m := x]> (mailboxes s)) s.

Lemma with_mb_kinv X m x s : kinv X s -> kinv X (with_mb m x s).
Proof. by apply kinv_eq. Qed.

Record mb_ok (s : kstate) (m : ptr) (x : rt_mailbox) : Prop := {
  bok_ptr : m <> RT_NULL;
  bok_at : mailboxes s !! m = Some x;
  bok_flag : flag_ok (mb_flag x);
  bok_ring : ring_ok x
}.

(** The mailbox has become [x'], and the first thread waiting on [l] was woken. *)
Definition posted (s : kstate) (m : ptr) (x' : rt_mailbox) (l : list_id) (s' : kstate) : Prop :=
  notified (with_mb m x' s) l s'.

Lemma posted_ok s m x' l s' :
  kinv ∅ s -> m <> RT_NULL -> flag_ok (mb_flag x') -> ring_ok x' -> posted s m x' l s' -> kinv ∅ s' /\ mb_ok s' m x'.
Proof.
  intros Hk Hnn Hfl Hr [Hk' Hf]%notified_frame; [|by apply with_mb_kinv]. split; [done|].
  split; [done|rewrite (fr_mailboxes _ _ Hf); apply lookup_insert_eq|done|done].
Qed.

Lemma mb_put_spec s m x v :
  kinv ∅ s -> mb_ok s m x -> mb_entry x < mb_size x ->
  wp (mb_put m v) (fun r s' => r = RT_EOK /\ posted s m (pushed v x) (LSuspend m) s') s.
Proof.
  intros Hk [Hnn E Hfl Hr] He. pose proof Hr as [R1 R2 R3 R4 R5].
  assert (0 <= mb_in_offset x < mb_size x) as Hin. { rewrite R5. apply Z.mod_pos_bound. lia. }
  unfold mb_put, mb_store. wp_step. wp_step. eapply wp_get_mb; [done|].
  destruct (lookup_lt_is_Some_2 (mb_msgs x) (Z.to_nat (mb_in_offset x))) as [w Ew]; [lia|].
  wp_step. eapply wp_opt; [done|]. eapply wp_upd_mb; [done|].
  wp_step. eapply wp_upd_mb; [apply lookup_insert_eq|]. wp_step. eapply wp_upd_mb; [apply lookup_insert_eq|].
  simpl. kset. rewrite uwrap_small by lia. by apply notify_spec; [apply with_mb_kinv|].
Qed.

Lemma mb_take_spec s m x :
  kinv ∅ s -> mb_ok s m x -> 0 < mb_entry x ->
  wp (mb_take m) (fun r s' => r = (RT_EOK, Some (mail_at x 0)) /\ posted s m (popped x) (LSender m) s') s.
Proof.
  intros Hk [Hnn E Hfl Hr] He. pose proof Hr as [R1 R2 R3 R4 R5].
  unfold mb_take, mb_load. wp_step. wp_step. eapply wp_get_mb; [done|]. eapply wp_opt; [by apply mail_lookup|].
  wp_step. eapply wp_upd_mb; [done|]. wp_step. eapply wp_upd_mb; [apply lookup_insert_eq|].
  simpl. kset. rewrite uwrap_small by lia. by apply notify_spec; [apply with_mb_kinv|].
Qed.

(** Sending: refused when full, waiting, or the mail is stored behind the others. *)
Definition mb_sent (s : kstate) (m : ptr) (x : rt_mailbox) (v timeout td : Z) (first : bool) (t : ptr)
    (th : rt_thread) (r : progress Z (Z * Z)) (s' : kstate) : Prop :=
  if mb_entry x =? mb_size x then
    if timeout =? 0 then r = Done (- RT_EFULL) /\ s' = (if first then s else set_error t th RT_EOK s)
    else r = Blocked (timeout, if 0 <? timeout then rt_tick s else td) /\
      blocked (set_error t th RT_EOK s) (LSender m) t (set_th_error RT_EOK th) (mb_flag x) timeout s'
  else r = Done RT_EOK /\ posted s m (pushed v x) (LSuspend m) s'.

Lemma mb_send_loop_spec s m x v timeout td t th :
  kinv ∅ s -> mb_ok s m x -> (mb_entry x = mb_size x -> running s t th /\ other_ready s t) -> timeout < HALF_TICK ->
  wp (mb_send_loop m t v timeout td) (mb_sent s m x v timeout td false t th) s.
Proof.
  intros Hk Hm Hctx Ht. pose proof Hm as [Hnn E Hfl Hr]. unfold mb_send_loop, mb_sent.
  wp_step. eapply wp_get_mb; [done|]. destruct (Z.eqb_spec (mb_entry x) (mb_size x)) as [He|He].
  - destruct (Hctx He) as [Hrun Hoth]. pose proof Hrun as [Ec Eth Hst Hn Hnt].
    wp_step. eapply wp_upd_thread; [done|]. fold (set_error t th RT_EOK s).
    destruct (Z.eqb_spec timeout 0); [by wp_step|].
    wp_step. eapply (in_thread_context _ t (set_th_error RT_EOK th)).
    { split; [done|apply lookup_insert_eq|done|done|done]. }
    eapply (wait_on_tick (set_error t th RT_EOK s)); [by eapply kinv_retouch|apply lookup_insert_eq|done|done|apply sender_waiting|done|done|].
    intros s' Hb. by wp_step.
  - pose proof (rk_entry _ Hr). wp_step. eapply wp_mono; [apply mb_put_spec; [done|done|lia]|].
    intros r s' [-> Hp]. by wp_step.
Qed.

Lemma rt_mb_send_wait_spec s m x v timeout th :
  kinv ∅ s -> mb_ok s m x ->
  (timeout <> 0 -> running s (rt_current_thread s) th /\ other_ready s (rt_current_thread s)) -> timeout < HALF_TICK ->
  wp (rt_mb_send_wait m v timeout) (mb_sent s m x v timeout 0 true (rt_current_thread s) th) s.
Proof.
  intros Hk Hm Hctx Ht. pose proof Hm as [Hnn E Hfl Hr]. unfold rt_mb_send_wait, rt_thread_self.
  wp_step. apply nonnull_ok; [done|]. wp_step. wp_step. wp_step. eapply wp_get_mb; [done|].
  destruct ((mb_entry x =? mb_size x) && (timeout =? 0)) eqn:Eb.
  - wp_step. unfold mb_sent. by apply andb_true_iff in Eb as [-> ->].
  - eapply wp_mono; [apply mb_send_loop_spec; [done|done| |done]; intros He; apply Hctx; lia|].
    intros r s'. unfold mb_sent. by destruct (mb_entry x =? mb_size x), (timeout =? 0).
Qed.

(** Receiving: nothing there, waiting, or the oldest mail. *)
Definition mb_received (s : kstate) (m : ptr) (x : rt_mailbox) (timeout td : Z) (first : bool) (t : ptr)
    (th : rt_thread) (r : progress (Z * option Z) (Z * Z)) (s' : kstate) : Prop :=
  if mb_entry x =? 0 then
    if timeout =? 0 then r = Done (- RT_ETIMEOUT, None) /\ s' = (if first then s else set_error t th (- RT_ETIMEOUT) s)
    else r = Blocked (timeout, if 0 <? timeout then rt_tick s else td) /\
      blocked (set_error t th RT_EOK s) (LSuspend m) t (set_th_error RT_EOK th) (mb_flag x) timeout s'
  else r = Done (RT_EOK, Some (mail_at x 0)) /\ posted s m (popped x) (LSender m) s'.

Lemma mb_recv_loop_spec s m x timeout td t th :
  kinv ∅ s -> mb_ok s m x -> (mb_entry x = 0 -> running s t th /\ other_ready s t) -> timeout < HALF_TICK ->
  wp (mb_recv_loop m t timeout td) (mb_received s m x timeout td false t th) s.
Proof.
  intros Hk Hm Hctx Ht. pose proof Hm as [Hnn E Hfl Hr]. unfold mb_recv_loop, mb_received.
  wp_step. eapply wp_get_mb; [done|]. destruct (Z.eqb_spec (mb_entry x) 0) as [He|He].
  - destruct (Hctx He) as [Hrun Hoth]. pose proof Hrun as [Ec Eth Hst Hn Hnt].
    wp_step. eapply wp_upd_thread; [done|]. fold (set_error t th RT_EOK s).
    destruct (Z.eqb_spec timeout 0).
    { wp_step. eapply wp_upd_thread; [apply lookup_insert_eq|]. wp_step. split; [done|].
      unfold set_error. simpl. by kset. }
    wp_step. eapply (in_thread_context _ t (set_th_error RT_EOK th)).
    { split; [done|apply lookup_insert_eq|done|done|done]. }
    eapply (wait_on_tick (set_error t th RT_EOK s)); [by eapply kinv_retouch|apply lookup_insert_eq|done|done|apply suspend_waiting|done|done|].
    intros s' Hb. by wp_step.
  - pose proof (rk_entry _ Hr). wp_step. eapply wp_mono; [apply mb_take_spec; [done|done|lia]|].
    intros r s' [-> Hp]. by wp_step.
Qed.

Lemma rt_mb_recv_spec s m x timeout th :
  kinv ∅ s -> mb_ok s m x ->
  (timeout <> 0 -> running s (rt_current_thread s) th /\ other_ready s (rt_current_thread s)) -> timeout < HALF_TICK ->
  wp (rt_mb_recv m timeout) (mb_received s m x timeout 0 true (rt_current_thread s) th) s.
Proof.
  intros Hk Hm Hctx Ht. pose proof Hm as [Hnn E Hfl Hr]. unfold rt_mb_recv, rt_thread_self.
  wp_step. apply nonnull_ok; [done|]. wp_step. wp_step. wp_step. eapply wp_get_mb; [done|].
  destruct ((mb_entry x =? 0) && (timeout =? 0)) eqn:Eb.
  - wp_step. unfold mb_received. by apply andb_true_iff in Eb as [-> ->].
  - eapply wp_mono; [apply mb_recv_loop_spec; [done|done| |done]; intros He; apply Hctx; lia|].
    intros r s'. unfold mb_received. by destruct (mb_entry x =? 0), (timeout =? 0).
Qed.

(** ** After waking up *)

(** An error ends the wait; otherwise the loop goes on with what is left of the timeout. *)
Lemma rt_mb_send_wait_resume_spec s m x v timeout td t th :
  kinv ∅ s -> mb_ok s m x -> running s t th -> other_ready s t -> timeout < HALF_TICK ->
  u32 (rt_tick s - td) < 2 ^ 31 ->
  wp (rt_mb_send_wait_resume m t v timeout td) (fun r s' =>
    if th_error th =? RT_EOK then mb_sent s m x v (rest_of s timeout td) td false t th r s'
    else r = Done (th_error th) /\ s' = s) s.
Proof.
  intros Hk Hm Hrun Hoth Ht Hd. unfold rt_mb_send_wait_resume. wp_step. eapply wp_get_thread; [apply Hrun|].
  destruct (Z.eqb_spec (th_error th) RT_EOK); simpl; [|by wp_step]. wp_step.
  eapply ok_wp; [by apply remaining_timeout_spec|]. apply mb_send_loop_spec; [done|done|done|by apply rest_of_bound].
Qed.

Lemma rt_mb_recv_resume_spec s m x timeout td t th :
  kinv ∅ s -> mb_ok s m x -> running s t th -> other_ready s t -> timeout < HALF_TICK ->
  u32 (rt_tick s - td) < 2 ^ 31 ->
  wp (rt_mb_recv_resume m t timeout td) (fun r s' =>
    if th_error th =? RT_EOK then mb_received s m x (rest_of s timeout td) td false t th r s'
    else r = Done (th_error th, None) /\ s' = s) s.
Proof.
  intros Hk Hm Hrun Hoth Ht Hd. unfold rt_mb_recv_resume. wp_step. eapply wp_get_thread; [apply Hrun|].
  destruct (Z.eqb_spec (th_error th) RT_EOK); simpl; [|by wp_step]. wp_step.
  eapply ok_wp; [by apply remaining_timeout_spec|]. apply mb_recv_loop_spec; [done|done|done|by apply rest_of_bound].
Qed.

(** ** Non-blocking use: a bounded queue *)

Inductive mb_op := Send (v : Z) | Recv.

(** The return code and the mail received *)
Definition mb_do (m : ptr) (op : mb_op) : K (Z * option Z) :=
  match op with
  | Send v => r ← rt_mb_send m v; match r with Done e => mret (e, None) | Blocked _ => throw OutOfFuel end
  | Recv => r ← rt_mb_recv m 0; match r with Done p => mret p | Blocked _ => throw OutOfFuel end
  end.

Fixpoint mb_run (m : ptr) (ops : list mb_op) : K (list (Z * option Z)) :=
  match ops with
  | [] => mret []
  | op :: ops' => r ← mb_do m op; rs ← mb_run m ops'; mret (r :: rs)
  end.

(** The same on a queue of at most [cap] mails *)
Definition queue_do (cap : Z) (q : list Z) (op : mb_op) : (Z * option Z) * list Z :=
  match op with
  | Send v => if Z.of_nat (length q) =? cap then ((- RT_EFULL, None), q) else ((RT_EOK, None), q ++ [v])
  | Recv => match q with [] => ((- RT_ETIMEOUT, None), []) | v :: q' => ((RT_EOK, Some v), q') end
  end.
Fixpoint queue_run (cap : Z) (q : list Z) (ops : list mb_op) : list (Z * option Z) * list Z :=
  match ops with
  | [] => ([], q)
  | op :: ops' =>
      let '(r, q') := queue_do cap q op in
      let '(rs, q'') := queue_run cap q' ops' in (r :: rs, q'')
  end.

(** The mailbox in use, nobody waiting on it, with the mails [q] *)
Record mb_holds (s : kstate) (m : ptr) (cap : Z) (q : list Z) : Prop := {
  mh_kinv : kinv ∅ s;
  mh_receivers : tlists s !!! LSuspend m = [];
  mh_senders : tlists s !!! LSender m = [];
  mh_mails : exists x, mb_ok s m x /\ mails x = q /\ mb_size x = cap
}.

Lemma posted_holds s m x x' l s' :
  kinv ∅ s -> mb_ok s m x -> tlists s !!! LSuspend m = [] -> tlists s !!! LSender m = [] ->
  tlists s !!! l = [] -> ring_ok x' -> mb_flag x' = mb_flag x -> posted s m x' l s' ->
  mb_holds s' m (mb_size x') (mails x').
Proof.
  intros Hk [Hnn E Hfl Hr] Hw1 Hw2 El Hr' Ef Hp.
  destruct (posted_ok s m x' l s' Hk Hnn ltac:(by rewrite Ef) Hr' Hp) as [Hk' Hm'].
  unfold posted, notified in Hp. simpl in Hp. rewrite El in Hp. subst s'. split; [done|done|done|eauto].
Qed.

Lemma mb_do_spec s m cap q op :
  mb_holds s m cap q ->
  wp (mb_do m op) (fun r s' => r = (queue_do cap q op).1 /\ mb_holds s' m cap (queue_do cap q op).2) s.
Proof.
  intros Hh. pose proof Hh as [Hk Hw1 Hw2 (x & Hm & <- & <-)]. pose proof (bok_ring _ _ _ Hm) as Hr.
  pose proof (rk_entry _ Hr) as He. assert (Z.of_nat (length (mails x)) = mb_entry x) as El by (apply length_mails; lia).
  destruct op as [v|]; simpl; wp_step.
  - eapply wp_mono; [by apply (rt_mb_send_wait_spec s m x v 0 (junk_rt_thread 0))|].
    intros r s'. unfold mb_sent. rewrite El. destruct (Z.eqb_spec (mb_entry x) (mb_size x)); simpl.
    + intros [-> ->]. by wp_step.
    + intros [-> Hp]. wp_step. split; [done|]. rewrite <- mails_pushed by (done || lia).
      apply (posted_holds s m x (pushed v x) (LSuspend m)); try done. apply pushed_ok; [done|lia].
  - eapply wp_mono; [by apply (rt_mb_recv_spec s m x 0 (junk_rt_thread 0))|].
    intros r s'. unfold mb_received. destruct (Z.eqb_spec (mb_entry x) 0) as [E0|]; simpl.
    + intros [-> ->]. wp_step. rewrite E0 in El. destruct (mails x) eqn:Em; [|simpl in El; lia]. by rewrite <- Em in *.
    + intros [-> Hp]. wp_step. rewrite (mails_popped x) by (done || lia). simpl. split; [done|].
      apply (posted_holds s m x (popped x) (LSender m)); try done. apply popped_ok; [done|lia].
Qed.

Lemma mb_run_spec m cap ops : forall s q,
  mb_holds s m cap q ->
  wp (mb_run m ops) (fun rs s' => rs = (queue_run cap q ops).1 /\ mb_holds s' m cap (queue_run cap q ops).2) s.
Proof.
  induction ops as [|op ops IH]; intros s q Hh; simpl; [by wp_step|].
  wp_step. eapply wp_mono; [by apply mb_do_spec|]. intros r s1 [-> H1].
  destruct (queue_do cap q op) as [r q1]. wp_step. eapply wp_mono; [by apply IH|]. intros rs s2 [-> H2].
  simpl in *. destruct (queue_run cap q1 ops). by wp_step.
Qed.

(** ** Properties *)

(** C28: a mailbox used without waiting is a bounded queue: any sequence of
    [rt_mb_send] and [rt_mb_recv] without timeout gives the results of a first-in
    first-out queue of the mailbox's size, and ends with its contents. *)
Theorem mailbox_is_queue s m cap q ops :
  mb_holds s m cap q ->
  exists s', mb_run m ops s = Ok (queue_run cap q ops).1 s' /\ mb_holds s' m cap (queue_run cap q ops).2.
Proof. intros Hh. destruct (wp_ok _ _ _ (mb_run_spec m cap ops s q Hh)) as (rs & s' & E & -> & H'). eauto. Qed.

(** [rt_mb_send_wait] on every branch: -RT_EFULL without a timeout on a full
    mailbox, the caller waits in the list of senders, or the mail is stored behind the
    others and the first waiting receiver is made ready. *)
Theorem rt_mb_send_wait_correct s m x v timeout t th :
  kinv ∅ s -> mb_ok s m x -> running s t th -> other_ready s t -> timeout < HALF_TICK ->
  exists r s', rt_mb_send_wait m v timeout s = Ok r s' /\ mb_sent s m x v timeout 0 true t th r s' /\
    (mb_entry x < mb_size x -> kinv ∅ s' /\ mb_ok s' m (pushed v x) /\ mails (pushed v x) = mails x ++ [v]).
Proof.
  intros Hk Hm Hrun Ho Ht. pose proof (run_current _ _ _ Hrun) as Ec. pose proof Hm as [Hnn E Hfl Hr].
  destruct (wp_ok _ _ _ (rt_mb_send_wait_spec s m x v timeout th Hk Hm ltac:(by rewrite Ec) Ht)) as (r & s' & Er & Hp).
  rewrite Ec in Hp. exists r, s'. split_and!; [done|done|]. intros He. unfold mb_sent in Hp.
  replace (mb_entry x =? mb_size x) with false in Hp by lia. destruct Hp as [_ Hp].
  destruct (posted_ok s m (pushed v x) _ s' Hk Hnn Hfl (pushed_ok v x Hr He) Hp).
  split_and!; [done|done|by apply mails_pushed].
Qed.

(** [rt_mb_recv] on every branch: -RT_ETIMEOUT without a timeout on an empty
    mailbox, the caller waits in the list of receivers, or it gets the oldest mail and
    the first waiting sender is made ready. *)
Theorem rt_mb_recv_correct s m x timeout t th :
  kinv ∅ s -> mb_ok s m x -> running s t th -> other_ready s t -> timeout < HALF_TICK ->
  exists r s', rt_mb_recv m timeout s = Ok r s' /\ mb_received s m x timeout 0 true t th r s' /\
    (0 < mb_entry x -> kinv ∅ s' /\ mb_ok s' m (popped x) /\ mails x = mail_at x 0 :: mails (popped x)).
Proof.
  intros Hk Hm Hrun Ho Ht. pose proof (run_current _ _ _ Hrun) as Ec. pose proof Hm as [Hnn E Hfl Hr].
  destruct (wp_ok _ _ _ (rt_mb_recv_spec s m x timeout th Hk Hm ltac:(by rewrite Ec) Ht)) as (r & s' & Er & Hp).
  rewrite Ec in Hp. exists r, s'. split_and!; [done|done|]. intros He. unfold mb_received in Hp.
  replace (mb_entry x =? 0) with false in Hp by lia. destruct Hp as [_ Hp].
  destruct (posted_ok s m (popped x) _ s' Hk Hnn Hfl (popped_ok x Hr He) Hp).
  split_and!; [done|done|by apply mails_popped].
Qed.
End mailbox.
