(* ===== verification/MessageQueue.v ===== *)
(** * Message queues (src/ipc.c)

    Messages of a fixed size in nodes taken from a free list; the queued nodes form
    a singly linked list from [msg_queue_head] to [msg_queue_tail]. *)
From stdpp Require Import base tactics numbers list gmap.
From S2P Require Import Prelude RtList Kernel Scheduler Object Timer Thread Ipc.
Local Open Scope Z_scope.

Section messagequeue.
Context `{KConfig} `{Allocator}.

Definition get_mq (p : ptr) : K rt_messagequeue := s ← get; opt BadPointer (mqs s !! p).
Definition upd_mq (p : ptr) (f : rt_messagequeue -> rt_messagequeue) : K unit :=
  x ← get_mq p; modify (fun s => set_mqs (<[p := f x]> (mqs s)) s).

Definition mq_flag (x : rt_messagequeue) : Z := obj_flag (mq_parent x).
Definition set_mq_flag (v : Z) (x : rt_messagequeue) : rt_messagequeue :=
  set_mq_parent (set_obj_flag v (mq_parent x)) x.

(** Access to a message node of the pool *)
Definition get_msg (mq msg : ptr) : K mq_message :=
  x ← get_mq mq; opt BadPointer (mq_nodes x !! msg).
Definition put_msg (mq msg : ptr) (m : mq_message) : K unit :=
  upd_mq mq (fun x => set_mq_nodes (<[msg := m]> (mq_nodes x)) x).
Definition set_next (mq msg next : ptr) : K unit :=
  m ← get_msg mq msg; put_msg mq msg (mk_msg next (msg_data m)).

(** The bytes behind a fresh node *)
Definition fresh_data (msg size : Z) : list Z :=
  (fun i => u8 (garbage msg (i + 4))) <$> seq 0 (Z.to_nat size).

(** Round [temp] of the loop that links the pool into the free list *)
Definition mq_free_node (temp : nat) (x : rt_messagequeue) : rt_messagequeue :=
  let head := mq_msg_pool x + Z.of_nat temp * (mq_msg_size x + 4) in
  set_mq_msg_queue_free head
    (set_mq_nodes (<[head := mk_msg (mq_msg_queue_free x) (fresh_data head (mq_msg_size x))]> (mq_nodes x)) x).
Definition mq_free_list (x : rt_messagequeue) : rt_messagequeue :=
  foldl (fun x temp => mq_free_node temp x) x (seq 0 (Z.to_nat (mq_max_msgs x))).

Definition rt_mq_init (mq : ptr) (name : list Z) (msgpool msg_size pool_size flag : Z) : K Z :=
  nonnull mq;;
  modify (place (OMq mq));;
  rt_object_init (OMq mq) RT_Object_Class_MessageQueue name;;
  upd_mq mq (set_mq_flag (u8 flag));;
  rt_ipc_object_init mq;;
  upd_mq mq (set_mq_msg_pool msgpool);;
  upd_mq mq (set_mq_msg_size (u16 (RT_ALIGN msg_size 4)));;
  upd_mq mq (fun x => set_mq_max_msgs (u16 (pool_size / (mq_msg_size x + 4))) x);;
  upd_mq mq (set_mq_msg_queue_head RT_NULL);;
  upd_mq mq (set_mq_msg_queue_tail RT_NULL);;
  upd_mq mq (set_mq_msg_queue_free RT_NULL);;
  upd_mq mq mq_free_list;;
  upd_mq mq (set_mq_entry 0);;
  mret RT_EOK.

Definition rt_mq_detach (mq : ptr) : K Z :=
  nonnull mq;;
  rt_ipc_list_resume_all (LSuspend mq);;
  rt_object_detach (OMq mq);;
  mret RT_EOK.

Definition rt_mq_delete (mq : ptr) : K Z :=
  RT_DEBUG_NOT_IN_INTERRUPT;;
  nonnull mq;;
  rt_ipc_list_resume_all (LSuspend mq);;
  x ← get_mq mq;
  kfree (mq_msg_pool x);;
  rt_object_delete (OMq mq);;
  mret RT_EOK.

Definition rt_mq_create (name : list Z) (msg_size max_msgs flag : Z) : K ptr :=
  RT_DEBUG_NOT_IN_INTERRUPT;;
  mq ← rt_object_allocate RT_Object_Class_MessageQueue name;
  if mq =? RT_NULL then mret mq
  else
    upd_mq mq (set_mq_flag (u8 flag));;
    rt_ipc_object_init mq;;
    upd_mq mq (set_mq_msg_size (u16 (RT_ALIGN msg_size 4)));;
    upd_mq mq (set_mq_max_msgs (u16 max_msgs));;
    x ← get_mq mq;
    pool ← kmalloc ((mq_msg_size x + 4) * mq_max_msgs x);
    upd_mq mq (set_mq_msg_pool pool);;
    if pool =? RT_NULL then rt_mq_delete mq;; mret RT_NULL
    else
      upd_mq mq (set_mq_msg_queue_head RT_NULL);;
      upd_mq mq (set_mq_msg_queue_tail RT_NULL);;
      upd_mq mq (set_mq_msg_queue_free RT_NULL);;
      upd_mq mq mq_free_list;;
      upd_mq mq (set_mq_entry 0);;
      mret mq.

(** ** Sending

    [rt_mq_send] and [rt_mq_urgent] have two critical sections, with the copy of
    the message between them. *)

(** The first: a node leaves the free list ([None]: there is none). *)
Definition mq_alloc (mq : ptr) : K (option ptr) :=
  x ← get_mq mq;
  if mq_msg_queue_free x =? RT_NULL then mret None
  else
    m ← get_msg mq (mq_msg_queue_free x);
    upd_mq mq (set_mq_msg_queue_free (msg_next m));;
    mret (Some (mq_msg_queue_free x)).

(** [rt_memcpy(msg + 1, buffer, size)] *)
Definition mq_fill (mq msg : ptr) (buffer : list Z) (size : Z) : K unit :=
  m ← get_msg mq msg;
  if (Z.of_nat (length buffer) <? size) || (Z.of_nat (length (msg_data m)) <? size) then throw BadPointer
  else put_msg mq msg (mk_msg (msg_next m)
         (take (Z.to_nat size) buffer ++ drop (Z.to_nat size) (msg_data m))).

(** A receiver that waits is resumed. *)
Definition mq_notify (mq : ptr) : K Z :=
  e ← tlist_isempty (LSuspend mq);
  if e : bool then mret RT_EOK
  else rt_ipc_list_resume (LSuspend mq);; rt_schedule;; mret RT_EOK.

(** The second critical section of [rt_mq_send]: the node becomes the tail. *)
Definition mq_link_tail (mq msg : ptr) : K Z :=
  x ← get_mq mq;
  when (negb (mq_msg_queue_tail x =? RT_NULL)) (set_next mq (mq_msg_queue_tail x) msg);;
  upd_mq mq (set_mq_msg_queue_tail msg);;
  upd_mq mq (fun x => if mq_msg_queue_head x =? RT_NULL then set_mq_msg_queue_head msg x else x);;
  upd_mq mq (fun x => set_mq_entry (u16 (mq_entry x + 1)) x);;
  mq_notify mq.

(** The second critical section of [rt_mq_urgent]: the node becomes the head. *)
Definition mq_link_head (mq msg : ptr) : K Z :=
  x ← get_mq mq;
  set_next mq msg (mq_msg_queue_head x);;
  upd_mq mq (set_mq_msg_queue_head msg);;
  upd_mq mq (fun x => if mq_msg_queue_tail x =? RT_NULL then set_mq_msg_queue_tail msg x else x);;
  upd_mq mq (fun x => set_mq_entry (u16 (mq_entry x + 1)) x);;
  mq_notify mq.

Definition rt_mq_send (mq : ptr) (buffer : list Z) (size : Z) : K Z :=
  nonnull mq;;
  RT_ASSERT (negb (size =? 0));;
  x ← get_mq mq;
  if mq_msg_size x <? size then mret (- RT_ERROR)
  else
    o ← mq_alloc mq;
    match o with
    | None => mret (- RT_EFULL)
    | Some msg =>
        set_next mq msg RT_NULL;;
        mq_fill mq msg buffer size;;
        mq_link_tail mq msg
    end.

Definition rt_mq_urgent (mq : ptr) (buffer : list Z) (size : Z) : K Z :=
  nonnull mq;;
  RT_ASSERT (negb (size =? 0));;
  x ← get_mq mq;
  if mq_msg_size x <? size then mret (- RT_ERROR)
  else
    o ← mq_alloc mq;
    match o with
    | None => mret (- RT_EFULL)
    | Some msg => mq_fill mq msg buffer size;; mq_link_head mq msg
    end.

(** ** Receiving *)

(** The node leaves the queue. *)
Definition mq_unlink (mq : ptr) : K ptr :=
  x ← get_mq mq;
  let msg := mq_msg_queue_head x in
  m ← get_msg mq msg;
  upd_mq mq (set_mq_msg_queue_head (msg_next m));;
  upd_mq mq (fun x => if mq_msg_queue_tail x =? msg then set_mq_msg_queue_tail RT_NULL x else x);;
  upd_mq mq (fun x => set_mq_entry (u16 (mq_entry x - 1)) x);;
  mret msg.

(** The node goes back to the free list. *)
Definition mq_release (mq msg : ptr) : K unit :=
  x ← get_mq mq;
  set_next mq msg (mq_msg_queue_free x);;
  upd_mq mq (set_mq_msg_queue_free msg).

(** Behind the loop of [rt_mq_recv]: the bytes stored in the caller's buffer. *)
Definition mq_take (mq : ptr) (size : Z) : K (Z * option (list Z)) :=
  msg ← mq_unlink mq;
  m ← get_msg mq msg;
  x ← get_mq mq;
  let n := if mq_msg_size x <? size then mq_msg_size x else size in
  mq_release mq msg;;
  mret (RT_EOK, Some (take (Z.to_nat n) (msg_data m))).

Definition mq_recv_loop (mq thread size timeout tick_delta : Z) :
    K (progress (Z * option (list Z)) (Z * Z)) :=
  x ← get_mq mq;
  if mq_entry x =? 0 then
    RT_DEBUG_IN_THREAD_CONTEXT;;
    upd_thread thread (set_th_error RT_EOK);;
    if timeout =? 0 then
      upd_thread thread (set_th_error (- RT_ETIMEOUT));; mret (Done (- RT_ETIMEOUT, None))
    else
      rt_ipc_list_suspend (LSuspend mq) thread (mq_flag x);;
      tick_delta ← (if 0 <? timeout then
                      now ← rt_tick_get; start_thread_timer thread timeout;; mret now
                    else mret tick_delta);
      rt_schedule;;
      mret (Blocked (timeout, tick_delta))
  else r ← mq_take mq size; mret (Done r).

Definition rt_mq_recv (mq size timeout : Z) : K (progress (Z * option (list Z)) (Z * Z)) :=
  nonnull mq;;
  RT_ASSERT (negb (size =? 0));;
  thread ← rt_thread_self;
  x ← get_mq mq;
  if (mq_entry x =? 0) && (timeout =? 0) then mret (Done (- RT_ETIMEOUT, None))
  else mq_recv_loop mq thread size timeout 0.
Definition rt_mq_recv_resume (mq thread size timeout tick_delta : Z) :
    K (progress (Z * option (list Z)) (Z * Z)) :=
  th ← get_thread thread;
  if negb (th_error th =? RT_EOK) then mret (Done (th_error th, None))
  else
    timeout ← remaining_timeout timeout tick_delta;
    mq_recv_loop mq thread size timeout tick_delta.

(** The loop of [rt_mq_control] returns the queued nodes to the free list; it
    handles each node once. *)
Definition mq_reset_loop (mq : ptr) (fuel : nat) : K unit :=
  while fuel (fun _ => x ← get_mq mq; mret (negb (mq_msg_queue_head x =? RT_NULL)))
    (fun _ =>
      x ← get_mq mq;
      let msg := mq_msg_queue_head x in
      m ← get_msg mq msg;
      upd_mq mq (set_mq_msg_queue_head (msg_next m));;
      upd_mq mq (fun x => if mq_msg_queue_tail x =? msg then set_mq_msg_queue_tail RT_NULL x else x);;
      mq_release mq msg) tt.

Definition rt_mq_control (mq cmd arg : Z) : K Z :=
  nonnull mq;;
  if cmd =? RT_IPC_CMD_RESET then
    rt_ipc_list_resume_all (LSuspend mq);;
    x ← get_mq mq;
    mq_reset_loop mq (S (size (mq_nodes x)));;
    upd_mq mq (set_mq_entry 0);;
    rt_schedule;;
    mret RT_EOK
  else mret (- RT_ERROR).

(** ** Linked message nodes *)

(** [l] are the nodes reached from [p] through [next]. *)
Fixpoint chain (nodes : gmap ptr mq_message) (p : ptr) (l : list ptr) : Prop :=
  match l with
  | [] => p = RT_NULL
  | a :: l' => p = a /\ a <> RT_NULL /\ exists m, nodes !! a = Some m /\ chain nodes (msg_next m) l'
  end.

Lemma chain_other nodes a m p l : chain nodes p l -> a ∉ l -> chain (<[a := m]> nodes) p l.
Proof.
  revert p. induction l as [|b l IH]; intros p; simpl; [done|]. intros (-> & Hb & m' & E & Hc) [Hne Hl]%not_elem_of_cons.
  split_and!; [done|done|]. exists m'. rewrite lookup_insert_ne by done. auto.
Qed.

(** A node is linked behind the last one. *)
Lemma chain_snoc nodes p l t a d m :
  chain nodes p (l ++ [t]) -> NoDup (l ++ [t]) -> a ∉ l ++ [t] -> a <> RT_NULL ->
  nodes !! a = Some m -> msg_next m = RT_NULL ->
  chain (<[t := mk_msg a d]> nodes) p (l ++ [t; a]).
Proof.
  intros Hc Hnd Ha Hnn Em En. revert p Hc. induction l as [|b l IH]; intros p; simpl in *.
  - intros (-> & Ht & _). split_and!; [done|done|]. exists (mk_msg a d). rewrite lookup_insert_eq.
    split; [done|]. simpl. split_and!; [done|done|]. exists m. rewrite lookup_insert_ne by set_solver. done.
  - intros (-> & Hb & m' & E & Hc). apply NoDup_cons in Hnd as [Hbl Hnd]. split_and!; [done|done|].
    exists m'. rewrite lookup_insert_ne by set_solver. split; [done|]. apply IH; [done|set_solver|done].
Qed.

Lemma chain_null nodes p l : chain nodes p l -> p = RT_NULL <-> l = [].
Proof. destruct l; simpl; [by intros ->|by intros (-> & ? & _)]. Qed.

(** The nodes of the pool: queued in the order [q], free, or being copied by a caller. *)
Record mq_rep (x : rt_messagequeue) (q f g : list ptr) : Prop := {
  mr_queue : chain (mq_nodes x) (mq_msg_queue_head x) q;
  mr_free : chain (mq_nodes x) (mq_msg_queue_free x) f;
  mr_tail : mq_msg_queue_tail x = default RT_NULL (last q);
  mr_nodup : NoDup (q ++ f ++ g);
  mr_entry : mq_entry x = Z.of_nat (length q);
  mr_count : Z.of_nat (length (q ++ f ++ g)) = mq_max_msgs x;
  mr_range : mq_max_msgs x < 2 ^ 16;
  mr_nodes : forall a, a ∈ q ++ f ++ g -> a <> RT_NULL /\
    exists m, mq_nodes x !! a = Some m /\ length (msg_data m) = Z.to_nat (mq_msg_size x)
}.

(** The bytes of a message *)
Definition msg_bytes (x : rt_messagequeue) (a : ptr) : list Z :=
  match mq_nodes x !! a with Some m => msg_data m | None => [] end.
Definition contents (x : rt_messagequeue) (q : list ptr) : list (list Z) := msg_bytes x <$> q.

Lemma contents_other x a m q :
  a ∉ q -> contents (set_mq_nodes (<[a := m]> (mq_nodes x)) x) q = contents x q.
Proof.
  intros Ha. apply list_fmap_ext. intros i b Hb%list_elem_of_lookup_2. unfold msg_bytes. simpl.
  rewrite lookup_insert_ne; [done|]. by intros <-.
Qed.

Lemma contents_same x a m m0 q :
  mq_nodes x !! a = Some m0 -> msg_data m = msg_data m0 ->
  contents (set_mq_nodes (<[a := m]> (mq_nodes x)) x) q = contents x q.
Proof.
  intros E Ed. apply list_fmap_ext. intros i b _. unfold msg_bytes. simpl.
  destruct (decide (a = b)) as [<-|]; [by rewrite lookup_insert_eq, E|by rewrite lookup_insert_ne].
Qed.

Lemma alloc_rep x q a f g m :
  mq_rep x q (a :: f) g -> mq_nodes x !! a = Some m -> mq_rep (set_mq_msg_queue_free (msg_next m) x) q f (a :: g).
Proof.
  intros [M1 M2 M3 M4 M5 M6 M7 M8] E. assert (q ++ f ++ a :: g ≡ₚ q ++ (a :: f) ++ g) as Hp.
  { f_equiv. simpl. by rewrite Permutation_middle. }
  split; simpl; try done.
  - destruct M2 as (_ & _ & m' & E' & Hc). congruence.
  - by rewrite Hp.
  - by rewrite Hp.
  - intros b. rewrite Hp. apply M8.
Qed.

(** Changing a node that is in nobody's list, keeping the size of its data *)
Lemma node_rep x q f g a m :
  mq_rep x q f g -> a ∈ g -> length (msg_data m) = Z.to_nat (mq_msg_size x) ->
  mq_rep (set_mq_nodes (<[a := m]> (mq_nodes x)) x) q f g.
Proof.
  intros [M1 M2 M3 M4 M5 M6 M7 M8] Ha Hd.
  apply NoDup_app in M4 as HH. destruct HH as (_ & Hq & Hfg). apply NoDup_app in Hfg as (_ & Hf & _).
  split; simpl; try done.
  - apply chain_other; [done|]. intros Hin. apply (Hq a Hin). apply elem_of_app. by right.
  - apply chain_other; [done|]. intros Hin. by apply (Hf a Hin).
  - intros b Hb. destruct (M8 b Hb) as [Hnn Hex]. split; [done|].
    destruct (decide (a = b)) as [<-|]; [rewrite lookup_insert_eq; eauto|by rewrite lookup_insert_ne].
Qed.
(** ** The queue and the free list after each critical section *)

Definition relink (t a : ptr) (nodes : gmap ptr mq_message) : gmap ptr mq_message :=
  alter (fun m => mk_msg a (msg_data m)) t nodes.

Definition tail_linked (a : ptr) (x : rt_messagequeue) : rt_messagequeue :=
  mk_mq (mq_parent x) (mq_msg_pool x)
    (if mq_msg_queue_tail x =? RT_NULL then mq_nodes x else relink (mq_msg_queue_tail x) a (mq_nodes x))
    (mq_msg_size x) (mq_max_msgs x) (mq_entry x + 1)
    (if mq_msg_queue_head x =? RT_NULL then a else mq_msg_queue_head x) a (mq_msg_queue_free x).

Definition head_linked (a : ptr) (x : rt_messagequeue) : rt_messagequeue :=
  mk_mq (mq_parent x) (mq_msg_pool x) (relink a (mq_msg_queue_head x) (mq_nodes x))
    (mq_msg_size x) (mq_max_msgs x) (mq_entry x + 1) a
    (if mq_msg_queue_tail x =? RT_NULL then a else mq_msg_queue_tail x) (mq_msg_queue_free x).

Definition unlinked (a next : ptr) (x : rt_messagequeue) : rt_messagequeue :=
  mk_mq (mq_parent x) (mq_msg_pool x) (mq_nodes x) (mq_msg_size x) (mq_max_msgs x) (mq_entry x - 1) next
    (if mq_msg_queue_tail x =? a then RT_NULL else mq_msg_queue_tail x) (mq_msg_queue_free x).

Definition released (a : ptr) (x : rt_messagequeue) : rt_messagequeue :=
  mk_mq (mq_parent x) (mq_msg_pool x) (relink a (mq_msg_queue_free x) (mq_nodes x))
    (mq_msg_size x) (mq_max_msgs x) (mq_entry x) (mq_msg_queue_head x) (mq_msg_queue_tail x) a.

Lemma relink_insert nodes t a m : nodes !! t = Some m -> relink t a nodes = <[t := mk_msg a (msg_data m)]> nodes.
Proof. intros E. unfold relink. by erewrite alter_alt_Some by done. Qed.

(** A change of links keeps every message. *)
Lemma relink_bytes x x' t a b :
  mq_nodes x' = relink t a (mq_nodes x) -> msg_bytes x' b = msg_bytes x b.
Proof.
  intros E. unfold msg_bytes. rewrite E. unfold relink. rewrite lookup_alter.
  case_decide; [subst; by destruct (mq_nodes x !! b)|done].
Qed.

Lemma relink_nodes nodes t a b (P : mq_message -> Prop) :
  (forall m m', msg_data m' = msg_data m -> P m -> P m') ->
  (exists m, nodes !! b = Some m /\ P m) -> exists m, relink t a nodes !! b = Some m /\ P m.
Proof.
  intros HP (m & E & Hm). unfold relink. destruct (decide (t = b)) as [->|]; [|rewrite lookup_alter_ne by done; eauto].
  rewrite lookup_alter_eq, E. exists (mk_msg a (msg_data m)). split; [done|]. by apply (HP m).
Qed.

Lemma relink_other nodes t a p l : chain nodes p l -> t ∉ l -> chain (relink t a nodes) p l.
Proof.
  intros Hc Ht. destruct (nodes !! t) as [m|] eqn:E; [rewrite (relink_insert _ _ _ _ E); by apply chain_other|].
  unfold relink. by rewrite alter_id by (intros x Hx; congruence).
Qed.

Lemma tail_linked_rep x q a f g m :
  mq_rep x q f (a :: g) -> mq_nodes x !! a = Some m -> msg_next m = RT_NULL ->
  mq_rep (tail_linked a x) (q ++ [a]) f g /\ contents (tail_linked a x) (q ++ [a]) = contents x q ++ [msg_bytes x a].
Proof.
  intros [M1 M2 M3 M4 M5 M6 M7 M8] E En.
  assert ((q ++ [a]) ++ f ++ g ≡ₚ q ++ f ++ a :: g) as Hp.
  { rewrite <- app_assoc. f_equiv. simpl. by rewrite Permutation_middle. }
  pose proof M4 as HH. apply NoDup_app in HH as (Hnq & Hq & Hfg). apply NoDup_app in Hfg as (_ & Hf & _).
  assert (a ∉ q) as Haq by (intros Hin; apply (Hq a Hin); set_solver).
  assert (a ∉ f) as Haf by (intros Hin; apply (Hf a Hin); set_solver).
  assert (a <> RT_NULL) as Hann by (apply M8; set_solver).
  assert (forall l, contents (tail_linked a x) l = contents x l) as Hcont.
  { intros l. apply list_fmap_ext. intros i b _. unfold tail_linked.
    destruct (mq_msg_queue_tail x =? RT_NULL); [done|by eapply relink_bytes]. }
  split; [|by rewrite Hcont; unfold contents; rewrite fmap_app].
  assert (mq_msg_queue_tail x <> RT_NULL -> mq_msg_queue_tail x ∈ q) as Htq.
  { rewrite M3. destruct (last q) eqn:El; [|done]. intros _. simpl. by apply last_Some_elem_of. }
  split; simpl.
  - destruct (last q) as [t|] eqn:El; simpl in M3; rewrite M3.
    + apply last_Some in El as [l ->]. assert (t <> RT_NULL) as Ht by (apply M8; set_solver).
      rewrite (proj2 (Z.eqb_neq _ _) Ht). destruct (M8 t ltac:(set_solver)) as (_ & mt & Et & _).
      rewrite (relink_insert _ _ _ _ Et), <- app_assoc.
      assert (mq_msg_queue_head x <> RT_NULL) as Hh. { rewrite (chain_null _ _ _ M1). by destruct l. }
      rewrite (proj2 (Z.eqb_neq _ _) Hh). by apply (chain_snoc _ _ l t a _ m).
    + apply last_None in El as ->. simpl in M1. rewrite M1. simpl. by split_and!; [..|exists m].
  - destruct (mq_msg_queue_tail x =? RT_NULL) eqn:Et; [done|]. apply relink_other; [done|].
    intros Hin. apply (Hq (mq_msg_queue_tail x)); [apply Htq; lia|]. apply elem_of_app. by left.
  - by rewrite last_snoc.
  - by rewrite Hp.
  - rewrite length_app. simpl. lia.
  - by rewrite Hp.
  - done.
  - intros b. rewrite Hp. intros Hb. destruct (M8 b Hb) as [Hnn Hex]. split; [done|].
    destruct (mq_msg_queue_tail x =? RT_NULL); [done|]. apply relink_nodes; [|done]. intros ? ? ->. done.
Qed.
Lemma head_linked_rep x q a f g :
  mq_rep x q f (a :: g) ->
  mq_rep (head_linked a x) (a :: q) f g /\ contents (head_linked a x) (a :: q) = msg_bytes x a :: contents x q.
Proof.
  intros [M1 M2 M3 M4 M5 M6 M7 M8].
  assert ((a :: q) ++ f ++ g ≡ₚ q ++ f ++ a :: g) as Hp.
  { rewrite !app_assoc. by rewrite <- Permutation_middle. }
  pose proof M4 as HH. apply NoDup_app in HH as (Hnq & Hq & Hfg). apply NoDup_app in Hfg as (_ & Hf & _).
  assert (a ∉ q) as Haq by (intros Hin; apply (Hq a Hin); set_solver).
  assert (a ∉ f) as Haf by (intros Hin; apply (Hf a Hin); set_solver).
  destruct (M8 a ltac:(set_solver)) as (Hann & m & E & Hm).
  assert (forall l, contents (head_linked a x) l = contents x l) as Hcont.
  { intros l. apply list_fmap_ext. intros i b _. by eapply relink_bytes. }
  split; [|by rewrite Hcont]. split; simpl.
  - split_and!; [done|done|]. rewrite (relink_insert _ _ _ _ E). eexists. split; [apply lookup_insert_eq|].
    simpl. by apply chain_other.
  - by apply relink_other.
  - rewrite M3, last_cons. destruct (last q) as [t|] eqn:El; simpl; [|done].
    apply last_Some_elem_of in El. assert (t <> RT_NULL) as Ht by (apply M8; set_solver).
    by rewrite (proj2 (Z.eqb_neq _ _) Ht).
  - by rewrite <- Hp in M4.
  - lia.
  - by rewrite <- Hp in M6.
  - done.
  - intros b Hb. change (a :: q ++ f ++ g) with ((a :: q) ++ f ++ g) in Hb. rewrite Hp in Hb.
    destruct (M8 b Hb) as [Hnn Hex]. split; [done|]. apply relink_nodes; [|done]. intros ? ? ->. done.
Qed.

Lemma unlinked_rep x q a f g :
  mq_rep x (a :: q) f g ->
  exists m, mq_nodes x !! a = Some m /\ mq_msg_queue_head x = a /\ 0 < mq_entry x < 2 ^ 16 /\
    mq_rep (unlinked a (msg_next m) x) q f (a :: g).
Proof.
  intros [M1 M2 M3 M4 M5 M6 M7 M8]. assert (q ++ f ++ a :: g ≡ₚ (a :: q) ++ f ++ g) as Hp.
  { rewrite !app_assoc. by rewrite <- Permutation_middle. }
  destruct M1 as (Eh & Hann & m & E & Hc). exists m.
  assert (length (a :: q) <= length ((a :: q) ++ f ++ g))%nat as Hlen by (rewrite length_app; lia).
  split_and!; [done|done|simpl in *; lia|simpl in *; lia|]. split; simpl; try done.
  - rewrite M3, last_cons. apply NoDup_app in M4 as (Hnq & _ & _). apply NoDup_cons in Hnq as [Haq _].
    destruct (last q) as [t|] eqn:El; simpl; [|by rewrite Z.eqb_refl].
    apply last_Some_elem_of in El. destruct (Z.eqb_spec t a); [by subst|done].
  - by rewrite Hp.
  - simpl in M5. lia.
  - by rewrite Hp.
  - intros b. rewrite Hp. apply M8.
Qed.

Lemma released_rep x q a f g :
  mq_rep x q f (a :: g) -> mq_rep (released a x) q (a :: f) g /\ contents (released a x) q = contents x q.
Proof.
  intros [M1 M2 M3 M4 M5 M6 M7 M8]. assert (q ++ (a :: f) ++ g ≡ₚ q ++ f ++ a :: g) as Hp.
  { f_equiv. simpl. by rewrite Permutation_middle. }
  pose proof M4 as HH. apply NoDup_app in HH as (Hnq & Hq & Hfg). apply NoDup_app in Hfg as (_ & Hf & _).
  assert (a ∉ q) as Haq by (intros Hin; apply (Hq a Hin); set_solver).
  assert (a ∉ f) as Haf by (intros Hin; apply (Hf a Hin); set_solver).
  destruct (M8 a ltac:(set_solver)) as (Hann & m & E & Hm).
  split; [|apply list_fmap_ext; intros i b _; by eapply relink_bytes]. split; simpl; try done.
  - by apply relink_other.
  - split_and!; [done|done|]. rewrite (relink_insert _ _ _ _ E). eexists. split; [apply lookup_insert_eq|].
    simpl. by apply chain_other.
  - by rewrite <- Hp in M4.
  - by rewrite <- Hp in M6.
  - intros b Hb. simpl in Hp. rewrite Hp in Hb.
    destruct (M8 b Hb) as [Hnn Hex]. split; [done|]. apply relink_nodes; [|done]. intros ? ? ->. done.
Qed.
(** ** Correctness *)

Definition with_mq (m : ptr) (x : rt_messagequeue) (s : kstate) : kstate :=
  set_mqs (<[m := x]> (mqs s)) s.

Lemma with_mq_kinv X m x s : kinv X s -> kinv X (with_mq m x s).
Proof. by apply kinv_eq. Qed.

Lemma with_mq_twice m x y s : with_mq m x (with_mq m y s) = with_mq m x s.
Proof. unfold with_mq. simpl. by kset. Qed.

Lemma with_mq_id m x s : mqs s !! m = Some x -> with_mq m x s = s.
Proof. intros E. unfold with_mq. rewrite insert_id by done. by destruct s. Qed.

Lemma with_mq_at m x s : mqs (with_mq m x s) !! m = Some x.
Proof. apply lookup_insert_eq. Qed.

Lemma wp_get_mq m x (Q : rt_messagequeue -> kstate -> Prop) s :
  mqs s !! m = Some x -> Q x s -> wp (get_mq m) Q s.
Proof. intros E HQ. unfold get_mq. do 2 wp_step. by eapply wp_opt. Qed.

Lemma wp_upd_mq m f x (Q : unit -> kstate -> Prop) s :
  mqs s !! m = Some x -> Q tt (with_mq m (f x) s) -> wp (upd_mq m f) Q s.
Proof. intros E HQ. unfold upd_mq. wp_step. eapply wp_get_mq; [done|]. by wp_step. Qed.

Lemma wp_get_msg m x a n (Q : mq_message -> kstate -> Prop) s :
  mqs s !! m = Some x -> mq_nodes x !! a = Some n -> Q n s -> wp (get_msg m a) Q s.
Proof. intros E En HQ. unfold get_msg. wp_step. eapply wp_get_mq; [done|]. by eapply wp_opt. Qed.

Lemma wp_set_next m x a n b (Q : unit -> kstate -> Prop) s :
  mqs s !! m = Some x -> mq_nodes x !! a = Some n ->
  Q tt (with_mq m (set_mq_nodes (relink a b (mq_nodes x)) x) s) -> wp (set_next m a b) Q s.
Proof.
  intros E En HQ. unfold set_next, put_msg. wp_step. eapply wp_get_msg; [done|done|].
  eapply wp_upd_mq; [done|]. by rewrite <- (relink_insert _ _ _ _ En).
Qed.

Record mq_ok (s : kstate) (m : ptr) (x : rt_messagequeue) (q f g : list ptr) : Prop := {
  qok_ptr : m <> RT_NULL;
  qok_at : mqs s !! m = Some x;
  qok_flag : flag_ok (mq_flag x);
  qok_rep : mq_rep x q f g
}.

(** First critical section of the senders *)
Lemma mq_alloc_spec s m x q f g :
  mq_ok s m x q f g ->
  wp (mq_alloc m) (fun o s' =>
    match f with
    | [] => o = None /\ s' = s
    | a :: f' => o = Some a /\ exists n, mq_nodes x !! a = Some n /\ s' = with_mq m (set_mq_msg_queue_free (msg_next n) x) s
    end) s.
Proof.
  intros [Hnn E Hfl Hr]. pose proof (mr_free _ _ _ _ Hr) as Hf. unfold mq_alloc. wp_step. eapply wp_get_mq; [done|].
  destruct f as [|a f']; simpl in Hf.
  - rewrite Hf, Z.eqb_refl. by wp_step.
  - destruct Hf as (Ef & Ha & n & En & _). rewrite Ef, (proj2 (Z.eqb_neq _ _) Ha).
    wp_step. eapply wp_get_msg; [done|done|]. wp_step. eapply wp_upd_mq; [done|]. wp_step. split; [done|]. eauto.
Qed.

(** The copy: only the bytes of the node change. *)
Lemma mq_fill_spec s m x q f g a buffer size :
  mq_ok s m x q f g -> a ∈ g -> 0 <= size <= mq_msg_size x -> size <= Z.of_nat (length buffer) ->
  wp (mq_fill m a buffer size) (fun _ s' => exists n n', mq_nodes x !! a = Some n /\
    n' = mk_msg (msg_next n) (take (Z.to_nat size) buffer ++ drop (Z.to_nat size) (msg_data n)) /\
    length (msg_data n') = Z.to_nat (mq_msg_size x) /\
    s' = with_mq m (set_mq_nodes (<[a := n']> (mq_nodes x)) x) s) s.
Proof.
  intros [Hnn E Hfl Hr] Ha Hs Hb. destruct (mr_nodes _ _ _ _ Hr a ltac:(set_solver)) as (_ & n & En & Hl).
  unfold mq_fill, put_msg. wp_step. eapply wp_get_msg; [done|done|].
  replace (_ || _) with false by lia. eapply wp_upd_mq; [done|]. do 2 eexists. split_and!; [done|done| |done].
  simpl. rewrite length_app, length_take, length_drop. lia.
Qed.

(** Second critical section of [rt_mq_send] and of [rt_mq_urgent] *)
Lemma mq_link_tail_spec s m x q f a g n :
  kinv ∅ s -> mq_ok s m x q f (a :: g) -> mq_nodes x !! a = Some n ->
  wp (mq_link_tail m a) (fun r s' => r = RT_EOK /\ notified (with_mq m (tail_linked a x) s) (LSuspend m) s') s.
Proof.
  intros Hk [Hnn E Hfl Hr] En. pose proof Hr as [M1 M2 M3 M4 M5 M6 M7 M8].
  assert (mq_entry x + 1 < 2 ^ 16) as He. { rewrite length_app, length_app in M6. simpl in M6. lia. }
  unfold mq_link_tail. wp_step. eapply wp_get_mq; [done|]. wp_step. unfold tail_linked.
  assert (forall s1 nodes, s1 = with_mq m (set_mq_nodes nodes x) s ->
    wp (upd_mq m (set_mq_msg_queue_tail a);;
        upd_mq m (fun x => if mq_msg_queue_head x =? RT_NULL then set_mq_msg_queue_head a x else x);;
        upd_mq m (fun x => set_mq_entry (u16 (mq_entry x + 1)) x);; mq_notify m)
      (fun r s' => r = RT_EOK /\ notified (with_mq m (mk_mq (mq_parent x) (mq_msg_pool x) nodes (mq_msg_size x)
         (mq_max_msgs x) (mq_entry x + 1) (if mq_msg_queue_head x =? RT_NULL then a else mq_msg_queue_head x) a
         (mq_msg_queue_free x)) s) (LSuspend m) s') s1) as Htail.
  { intros s1 nodes ->. wp_step. eapply wp_upd_mq; [apply with_mq_at|]. wp_step. eapply wp_upd_mq; [apply with_mq_at|].
    wp_step. eapply wp_upd_mq; [apply with_mq_at|]. rewrite !with_mq_twice. simpl.
    destruct (mq_msg_queue_head x =? RT_NULL); simpl; rewrite uwrap_small by lia;
      (apply notify_spec; [by apply with_mq_kinv|done]). }
  apply wp_when; intros Et.
  - destruct (mr_nodes _ _ _ _ Hr (mq_msg_queue_tail x)) as (_ & nt & Ent & _).
    { rewrite M3 in *. destruct (last q) eqn:El; simpl in *; [|done]. apply elem_of_app. left. by apply last_Some_elem_of. }
    eapply wp_set_next; [done|done|]. replace (mq_msg_queue_tail x =? RT_NULL) with false by lia. by apply Htail.
  - replace (mq_msg_queue_tail x =? RT_NULL) with true by lia. apply Htail. symmetry. apply with_mq_id. rewrite E. by destruct x.
Qed.

Lemma mq_link_head_spec s m x q f a g n :
  kinv ∅ s -> mq_ok s m x q f (a :: g) -> mq_nodes x !! a = Some n ->
  wp (mq_link_head m a) (fun r s' => r = RT_EOK /\ notified (with_mq m (head_linked a x) s) (LSuspend m) s') s.
Proof.
  intros Hk [Hnn E Hfl Hr] En. pose proof Hr as [M1 M2 M3 M4 M5 M6 M7 M8].
  assert (mq_entry x + 1 < 2 ^ 16) as He. { rewrite length_app, length_app in M6. simpl in M6. lia. }
  unfold mq_link_head. wp_step. eapply wp_get_mq; [done|]. wp_step. eapply wp_set_next; [done|done|].
  wp_step. eapply wp_upd_mq; [apply with_mq_at|]. wp_step. eapply wp_upd_mq; [apply with_mq_at|].
  wp_step. eapply wp_upd_mq; [apply with_mq_at|]. rewrite !with_mq_twice. unfold head_linked. simpl.
  destruct (mq_msg_queue_tail x =? RT_NULL); simpl; rewrite uwrap_small by lia;
    (apply notify_spec; [by apply with_mq_kinv|done]).
Qed.
(** The message queue has changed to [x'] with the queue [q'], and the first waiting
    receiver was woken. *)
Definition queued (s : kstate) (m : ptr) (x x' : rt_messagequeue) (q' f' g' : list ptr) (s' : kstate) : Prop :=
  notified (with_mq m x' s) (LSuspend m) s' /\ mq_rep x' q' f' g' /\
  mq_flag x' = mq_flag x /\ mq_msg_size x' = mq_msg_size x /\ mq_max_msgs x' = mq_max_msgs x.

Lemma queued_ok s m x x' q q' f f' g g' s' :
  kinv ∅ s -> mq_ok s m x q f g -> queued s m x x' q' f' g' s' -> kinv ∅ s' /\ mq_ok s' m x' q' f' g'.
Proof.
  intros Hk [Hnn E Hfl Hr] (Hn & Hr' & Ef & _). apply notified_frame in Hn as [Hk' Hf]; [|by apply with_mq_kinv].
  split; [done|]. split; [done|rewrite (fr_mqs _ _ Hf); apply with_mq_at|by rewrite Ef|done].
Qed.

(** What a sender stores: the bytes of the buffer at the start of the message. *)
Definition holds_prefix (size : Z) (buffer d : list Z) : Prop :=
  take (Z.to_nat size) d = take (Z.to_nat size) buffer.

(** Both senders: too long, no free node, or the message is linked with [link]. *)
Definition mq_sent (s : kstate) (m : ptr) (x : rt_messagequeue) (q f g : list ptr)
    (buffer : list Z) (size : Z) (urgent : bool) (r : Z) (s' : kstate) : Prop :=
  if mq_msg_size x <? size then r = - RT_ERROR /\ s' = s
  else match f with
    | [] => r = - RT_EFULL /\ s' = s
    | a :: f' => r = RT_EOK /\ exists x' d, holds_prefix size buffer d /\ length d = Z.to_nat (mq_msg_size x) /\
        if urgent then queued s m x x' (a :: q) f' g s' /\ contents x' (a :: q) = d :: contents x q
        else queued s m x x' (q ++ [a]) f' g s' /\ contents x' (q ++ [a]) = contents x q ++ [d]
    end.

Lemma filled_prefix size buffer (old : list Z) :
  0 <= size -> size <= Z.of_nat (length buffer) ->
  holds_prefix size buffer (take (Z.to_nat size) buffer ++ drop (Z.to_nat size) old).
Proof. intros ? ?. unfold holds_prefix. rewrite take_app_le, take_take by (rewrite length_take; lia). f_equal. lia. Qed.

(** The message while the sender fills it: [x1] has the node [a] taken off the free list. *)
Lemma fill_step s m x q a f g n x1 next buffer size :
  mq_ok s m x q (a :: f) g -> mq_nodes x !! a = Some n ->
  x1 = set_mq_nodes (<[a := mk_msg next (msg_data n)]> (mq_nodes x)) (set_mq_msg_queue_free (msg_next n) x) ->
  0 <= size <= mq_msg_size x -> size <= Z.of_nat (length buffer) ->
  mq_ok (with_mq m x1 s) m x1 q f (a :: g) /\
  wp (mq_fill m a buffer size) (fun _ s' => exists x2 d, s' = with_mq m x2 s /\ mq_ok s' m x2 q f (a :: g) /\
    mq_nodes x2 !! a = Some (mk_msg next d) /\ contents x2 q = contents x q /\ holds_prefix size buffer d /\
    length d = Z.to_nat (mq_msg_size x) /\ mq_flag x2 = mq_flag x /\ mq_msg_size x2 = mq_msg_size x /\
    mq_max_msgs x2 = mq_max_msgs x) (with_mq m x1 s).
Proof.
  intros [Hnn E Hfl Hr] En Ex1 Hs Hb. destruct (mr_nodes _ _ _ _ Hr a ltac:(set_solver)) as (_ & n' & En' & Hl).
  assert (n' = n) as -> by congruence. assert (a ∉ q) as Haq.
  { pose proof (mr_nodup _ _ _ _ Hr) as Hnd. apply NoDup_app in Hnd as (_ & Hq & _). intros Hin. apply (Hq a Hin). set_solver. }
  assert (mq_ok (with_mq m x1 s) m x1 q f (a :: g)) as Hok1.
  { split; [done|apply with_mq_at|by subst x1|]. subst x1.
    apply (node_rep (set_mq_msg_queue_free (msg_next n) x) q f (a :: g) a); [by apply alloc_rep|left|done]. }
  split; [done|]. assert (mq_msg_size x1 = mq_msg_size x) as Es1 by (by subst x1).
  eapply wp_mono; [apply (mq_fill_spec _ m x1 q f (a :: g)); [done|left|by rewrite Es1|done]|].
  intros _ s' (n1 & n2 & En1 & En2 & Hl2 & ->). rewrite with_mq_twice.
  assert (n1 = mk_msg next (msg_data n)) as ->. { subst x1. simpl in En1. rewrite lookup_insert_eq in En1. congruence. }
  simpl in En2. eexists. exists (msg_data n2). split; [done|]. split_and!.
  - split; [done|apply with_mq_at|by subst x1|]. apply (node_rep x1 q f (a :: g) a); [apply Hok1|left|done].
  - simpl. rewrite lookup_insert_eq. by subst n2.
  - rewrite contents_other by done. subst x1.
    by rewrite (contents_other (set_mq_msg_queue_free (msg_next n) x)) by done.
  - subst n2. simpl. apply filled_prefix; lia.
  - by rewrite <- Es1.
  - by subst x1.
  - done.
  - by subst x1.
Qed.
Lemma rt_mq_send_spec s m x q f g buffer size :
  kinv ∅ s -> mq_ok s m x q f g -> 0 < size <= Z.of_nat (length buffer) ->
  wp (rt_mq_send m buffer size) (mq_sent s m x q f g buffer size false) s.
Proof.
  intros Hk Hok Hs. pose proof Hok as [Hnn E Hfl Hr]. unfold rt_mq_send, mq_sent.
  wp_step. apply nonnull_ok; [done|]. wp_step. wp_step; [lia|]. wp_step. eapply wp_get_mq; [done|].
  destruct (Z.ltb_spec (mq_msg_size x) size); [by wp_step|]. wp_step.
  eapply wp_mono; [by apply (mq_alloc_spec s m x q f g)|]. intros o s1. destruct f as [|a f'].
  { intros [-> ->]. by wp_step. }
  intros (-> & n & En & ->). wp_step. eapply (wp_set_next _ _ _ n); [apply with_mq_at|done|].
  rewrite with_mq_twice. simpl. rewrite (relink_insert _ _ _ _ En).
  destruct (fill_step s m x q a f' g n _ RT_NULL buffer size Hok En eq_refl ltac:(lia) ltac:(lia)) as [_ Hw].
  wp_step. eapply wp_mono; [exact Hw|]. intros _ s2 (x2 & d & -> & Hok2 & En2 & Hc & Hp & Hl & Ef & Es & Em).
  eapply wp_mono; [eapply (mq_link_tail_spec _ m x2 q f' a g); [by apply with_mq_kinv|done|done]|].
  intros r s' [-> Hn]. rewrite with_mq_twice in Hn. split; [done|]. exists (tail_linked a x2), d.
  destruct (tail_linked_rep x2 q a f' g _ (qok_rep _ _ _ _ _ _ Hok2) En2 eq_refl) as [Hr' Hc'].
  split_and!; [done|done|by split_and!|]. rewrite Hc', Hc. unfold msg_bytes. by rewrite En2.
Qed.

Lemma rt_mq_urgent_spec s m x q f g buffer size :
  kinv ∅ s -> mq_ok s m x q f g -> 0 < size <= Z.of_nat (length buffer) ->
  wp (rt_mq_urgent m buffer size) (mq_sent s m x q f g buffer size true) s.
Proof.
  intros Hk Hok Hs. pose proof Hok as [Hnn E Hfl Hr]. unfold rt_mq_urgent, mq_sent.
  wp_step. apply nonnull_ok; [done|]. wp_step. wp_step; [lia|]. wp_step. eapply wp_get_mq; [done|].
  destruct (Z.ltb_spec (mq_msg_size x) size); [by wp_step|]. wp_step.
  eapply wp_mono; [by apply (mq_alloc_spec s m x q f g)|]. intros o s1. destruct f as [|a f'].
  { intros [-> ->]. by wp_step. }
  intros (-> & n & En & ->).
  destruct (fill_step s m x q a f' g n (set_mq_msg_queue_free (msg_next n) x) (msg_next n) buffer size Hok En) as [_ Hw].
  { simpl. rewrite insert_id; [by destruct x|]. rewrite En. by destruct n. } { lia. } { lia. }
  wp_step. eapply wp_mono; [exact Hw|]. intros _ s2 (x2 & d & -> & Hok2 & En2 & Hc & Hp & Hl & Ef & Es & Em).
  eapply wp_mono; [eapply (mq_link_head_spec _ m x2 q f' a g); [by apply with_mq_kinv|done|done]|].
  intros r s' [-> Hn]. rewrite with_mq_twice in Hn. split; [done|]. exists (head_linked a x2), d.
  destruct (head_linked_rep x2 q a f' g (qok_rep _ _ _ _ _ _ Hok2)) as [Hr' Hc'].
  split_and!; [done|done|by split_and!|]. rewrite Hc', Hc. unfold msg_bytes. by rewrite En2.
Qed.

(** ** Receiving *)

Lemma mq_take_spec s m x q a f g size :
  mq_ok s m x (a :: q) f g -> 0 <= mq_msg_size x -> 0 <= size ->
  wp (mq_take m size) (fun r s' => exists x', s' = with_mq m x' s /\ mq_ok s' m x' q (a :: f) g /\
    contents x' q = contents x q /\ mq_msg_size x' = mq_msg_size x /\ mq_max_msgs x' = mq_max_msgs x /\
    r = (RT_EOK, Some (take (Z.to_nat (Z.min size (mq_msg_size x))) (msg_bytes x a)))) s.
Proof.
  intros Hok Hms Hs. pose proof Hok as [Hnn E Hfl Hr].
  destruct (unlinked_rep x q a f g Hr) as (n & En & Eh & He & Hr1).
  unfold mq_take, mq_unlink. wp_step. wp_step. eapply wp_get_mq; [done|]. rewrite Eh. cbv zeta.
  wp_step. eapply wp_get_msg; [done|done|]. wp_step. eapply wp_upd_mq; [done|].
  wp_step. eapply wp_upd_mq; [apply with_mq_at|]. wp_step. eapply wp_upd_mq; [apply with_mq_at|]. wp_step.
  rewrite !with_mq_twice. set (x1 := set_mq_entry _ _).
  assert (x1 = unlinked a (msg_next n) x) as Ex1.
  { unfold x1, unlinked. simpl. destruct (mq_msg_queue_tail x =? a); simpl; by rewrite uwrap_small by lia. }
  rewrite Ex1. wp_step. eapply wp_get_msg; [apply with_mq_at|exact En|]. wp_step. eapply wp_get_mq; [apply with_mq_at|].
  wp_step. unfold mq_release. wp_step. eapply wp_get_mq; [apply with_mq_at|].
  wp_step. eapply (wp_set_next _ _ _ n); [apply with_mq_at|exact En|]. eapply wp_upd_mq; [apply with_mq_at|].
  rewrite !with_mq_twice. wp_step. exists (released a (unlinked a (msg_next n) x)).
  destruct (released_rep _ q a f g Hr1) as [Hr2 Hc2].
  split_and!; [done|split; [done|apply with_mq_at|done|done]|by rewrite Hc2|done|done|].
  simpl. unfold msg_bytes. rewrite En. do 3 f_equal. destruct (Z.ltb_spec (mq_msg_size x) size); f_equal; lia.
Qed.

(** Receiving: nothing there, waiting, or the first message. *)
Definition mq_received (s : kstate) (m : ptr) (x : rt_messagequeue) (q f g : list ptr) (size timeout td : Z)
    (first : bool) (t : ptr) (th : rt_thread) (r : progress (Z * option (list Z)) (Z * Z)) (s' : kstate) : Prop :=
  match q with
  | [] =>
      if timeout =? 0 then r = Done (- RT_ETIMEOUT, None) /\ s' = (if first then s else set_error t th (- RT_ETIMEOUT) s)
      else r = Blocked (timeout, if 0 <? timeout then rt_tick s else td) /\
        blocked (set_error t th RT_EOK s) (LSuspend m) t (set_th_error RT_EOK th) (mq_flag x) timeout s'
  | a :: q' =>
      r = Done (RT_EOK, Some (take (Z.to_nat (Z.min size (mq_msg_size x))) (msg_bytes x a))) /\
      exists x', s' = with_mq m x' s /\ mq_ok s' m x' q' (a :: f) g /\ contents x' q' = contents x q' /\
        mq_msg_size x' = mq_msg_size x /\ mq_max_msgs x' = mq_max_msgs x
  end.

Lemma mq_recv_loop_spec s m x q f g size timeout td t th :
  kinv ∅ s -> mq_ok s m x q f g -> (q = [] -> running s t th /\ other_ready s t) -> timeout < HALF_TICK ->
  0 <= mq_msg_size x -> 0 <= size ->
  wp (mq_recv_loop m t size timeout td) (mq_received s m x q f g size timeout td false t th) s.
Proof.
  intros Hk Hok Hctx Ht Hms Hs. pose proof Hok as [Hnn E Hfl Hr]. unfold mq_recv_loop, mq_received.
  wp_step. eapply wp_get_mq; [done|]. rewrite (mr_entry _ _ _ _ Hr). destruct q as [|a q]; simpl.
  - destruct (Hctx eq_refl) as [Hrun Hoth]. pose proof Hrun as [Ec Eth Hst Hn Hnt].
    wp_step. eapply in_thread_context; [done|]. wp_step. eapply wp_upd_thread; [done|]. fold (set_error t th RT_EOK s).
    destruct (Z.eqb_spec timeout 0).
    { wp_step. eapply wp_upd_thread; [apply lookup_insert_eq|]. wp_step. split; [done|]. unfold set_error. simpl. by kset. }
    eapply (wait_on_tick (set_error t th RT_EOK s)); [by eapply kinv_retouch|apply lookup_insert_eq|done|done|apply suspend_waiting|done|done|].
    intros s' Hb. by wp_step.
  - wp_step. eapply wp_mono; [by apply (mq_take_spec s m x q a f g)|].
    intros r s' (x' & -> & H1' & H2' & H3' & H4' & ->). wp_step. split; [done|]. eauto 10.
Qed.

Lemma rt_mq_recv_spec s m x q f g size timeout th :
  kinv ∅ s -> mq_ok s m x q f g ->
  (timeout <> 0 -> running s (rt_current_thread s) th /\ other_ready s (rt_current_thread s)) ->
  timeout < HALF_TICK -> 0 <= mq_msg_size x -> 0 < size ->
  wp (rt_mq_recv m size timeout) (mq_received s m x q f g size timeout 0 true (rt_current_thread s) th) s.
Proof.
  intros Hk Hok Hctx Ht Hms Hs. pose proof Hok as [Hnn E Hfl Hr]. unfold rt_mq_recv, rt_thread_self.
  wp_step. apply nonnull_ok; [done|]. wp_step. wp_step; [lia|]. wp_step. wp_step. wp_step. eapply wp_get_mq; [done|].
  pose proof (mr_entry _ _ _ _ Hr) as He. destruct ((mq_entry x =? 0) && (timeout =? 0)) eqn:Eb.
  - wp_step. apply andb_true_iff in Eb as [E0 Et]. unfold mq_received. destruct q; [by rewrite Et|simpl in He; lia].
  - eapply wp_mono; [apply mq_recv_loop_spec; [done|done| |done|done|lia]; intros ->; apply Hctx; simpl in He; lia|].
    intros r s'. unfold mq_received. destruct q; [|done]. simpl in He.
    replace (timeout =? 0) with false by lia. done.
Qed.
(** ** The free list of a new queue *)

Definition node_addr (x : rt_messagequeue) (i : nat) : ptr := mq_msg_pool x + Z.of_nat i * (mq_msg_size x + 4).
Definition node_addrs (x : rt_messagequeue) (n : nat) : list ptr := rev (node_addr x <$> seq 0 n).

Lemma node_addr_inj x i j : 0 <= mq_msg_size x -> node_addr x i = node_addr x j -> i = j.
Proof. unfold node_addr. intros Hs E. nia. Qed.

(** The first [n] rounds of the loop *)
Record linking (x : rt_messagequeue) (n : nat) (y : rt_messagequeue) : Prop := {
  lk_free : chain (mq_nodes y) (mq_msg_queue_free y) (node_addrs x n);
  lk_data : forall a, a ∈ node_addrs x n -> exists m, mq_nodes y !! a = Some m /\ length (msg_data m) = Z.to_nat (mq_msg_size x);
  lk_same : y = set_mq_msg_queue_free (mq_msg_queue_free y) (set_mq_nodes (mq_nodes y) x)
}.

Lemma node_addrs_S x n : node_addrs x (S n) = node_addr x n :: node_addrs x n.
Proof. unfold node_addrs. rewrite seq_S, fmap_app. simpl. by rewrite rev_unit. Qed.

Lemma elem_of_node_addrs x n a : a ∈ node_addrs x n <-> exists i, (i < n)%nat /\ a = node_addr x i.
Proof.
  unfold node_addrs. rewrite list_elem_of_In, <- in_rev, <- list_elem_of_In, list_elem_of_fmap.
  split; intros (i & Hi1 & Hi2); exists i; rewrite elem_of_seq in *; split; try done; lia.
Qed.

Lemma NoDup_node_addrs x n : 0 <= mq_msg_size x -> NoDup (node_addrs x n).
Proof.
  intros Hs. induction n as [|n IH]; [apply NoDup_nil_2|]. rewrite node_addrs_S. apply NoDup_cons. split; [|done].
  intros (i & Hi & E)%elem_of_node_addrs. apply node_addr_inj in E; lia.
Qed.

Lemma linking_spec x n :
  0 <= mq_msg_size x -> 0 < mq_msg_pool x -> mq_msg_queue_free x = RT_NULL ->
  linking x n (foldl (fun y temp => mq_free_node temp y) x (seq 0 n)).
Proof.
  intros Hs Hp Hf. induction n as [|n IH].
  { split; [done|by intros ? ?%elem_of_nil|by destruct x]. }
  rewrite seq_S, foldl_app. simpl. set (y := foldl _ x _) in *. destruct IH as [L1 L2 L3].
  assert (node_addr x n ∉ node_addrs x n) as Hnew.
  { intros (i & Hi & E)%elem_of_node_addrs. apply node_addr_inj in E; lia. }
  assert (mq_msg_pool y = mq_msg_pool x /\ mq_msg_size y = mq_msg_size x) as [Ep Es] by (by rewrite L3).
  unfold mq_free_node. rewrite Ep, Es. fold (node_addr x n). split; simpl.
  - rewrite node_addrs_S. split_and!; [done|unfold node_addr, RT_NULL; nia|]. eexists.
    rewrite lookup_insert_eq. split; [done|]. simpl. by apply chain_other.
  - intros a. rewrite node_addrs_S, elem_of_cons. intros [->|Ha].
    + rewrite lookup_insert_eq. eexists. split; [done|]. simpl. unfold fresh_data. by rewrite length_fmap, length_seq.
    + rewrite lookup_insert_ne; [by apply L2|]. by intros <-.
  - by rewrite L3.
Qed.

(** An initialised queue is empty and has all its nodes free. *)
Lemma mq_free_list_rep x :
  0 <= mq_msg_size x -> 0 < mq_msg_pool x -> 0 <= mq_max_msgs x < 2 ^ 16 ->
  mq_msg_queue_head x = RT_NULL -> mq_msg_queue_tail x = RT_NULL -> mq_msg_queue_free x = RT_NULL ->
  mq_rep (set_mq_entry 0 (mq_free_list x)) [] (node_addrs x (Z.to_nat (mq_max_msgs x))) [].
Proof.
  intros Hs Hp Hm Hh Ht Hf. unfold mq_free_list. set (n := Z.to_nat (mq_max_msgs x)).
  pose proof (linking_spec x n Hs Hp Hf) as [L1 L2 L3]. set (y := foldl _ x _) in *.
  assert (length (node_addrs x n) = n) as Hlen by (unfold node_addrs; by rewrite length_rev, length_fmap, length_seq).
  split; simpl; rewrite ?app_nil_r; [by rewrite L3|done|by rewrite L3|by apply NoDup_node_addrs|done| | |].
  - rewrite Hlen, L3. simpl. lia.
  - rewrite L3. simpl. lia.
  - intros a Ha. split.
    + apply elem_of_node_addrs in Ha as (i & _ & ->). unfold node_addr, RT_NULL. nia.
    + destruct (L2 a Ha) as (m & E & Hl). exists m. split; [done|]. by rewrite L3.
Qed.
(** ** Non-blocking use: a bounded queue with urgent messages *)

Inductive mq_op := MqSend (buffer : list Z) | MqUrgent (buffer : list Z) | MqRecv (size : Z).

(** The return code and what a receiver finds in its buffer of [size] bytes *)
Definition mq_do (m : ptr) (op : mq_op) : K (Z * option (list Z)) :=
  match op with
  | MqSend buffer => e ← rt_mq_send m buffer (Z.of_nat (length buffer)); mret (e, None)
  | MqUrgent buffer => e ← rt_mq_urgent m buffer (Z.of_nat (length buffer)); mret (e, None)
  | MqRecv size => r ← rt_mq_recv m size 0; match r with Done p => mret p | Blocked _ => throw OutOfFuel end
  end.
Fixpoint mq_run (m : ptr) (ops : list mq_op) : K (list (Z * option (list Z))) :=
  match ops with
  | [] => mret []
  | op :: ops' => r ← mq_do m op; rs ← mq_run m ops'; mret (r :: rs)
  end.

(** A list of at most [cap] messages of at most [n] bytes *)
Definition msgs_do (cap n : Z) (q : list (list Z)) (op : mq_op) : (Z * option (list Z)) * list (list Z) :=
  match op with
  | MqSend b =>
      if n <? Z.of_nat (length b) then ((- RT_ERROR, None), q)
      else if Z.of_nat (length q) =? cap then ((- RT_EFULL, None), q) else ((RT_EOK, None), q ++ [b])
  | MqUrgent b =>
      if n <? Z.of_nat (length b) then ((- RT_ERROR, None), q)
      else if Z.of_nat (length q) =? cap then ((- RT_EFULL, None), q) else ((RT_EOK, None), b :: q)
  | MqRecv size =>
      match q with [] => ((- RT_ETIMEOUT, None), []) | b :: q' => ((RT_EOK, Some (take (Z.to_nat size) b)), q') end
  end.
Fixpoint msgs_run (cap n : Z) (q : list (list Z)) (ops : list mq_op) : list (Z * option (list Z)) * list (list Z) :=
  match ops with
  | [] => ([], q)
  | op :: ops' =>
      let '(r, q') := msgs_do cap n q op in
      let '(rs, q'') := msgs_run cap n q' ops' in (r :: rs, q'')
  end.

(** No call has a message or a buffer of no bytes, for which the code has an assertion. *)
Definition mq_op_ok (op : mq_op) : Prop :=
  match op with MqSend b | MqUrgent b => b <> [] | MqRecv size => 0 < size end.

(** The result [r] of a call and that of the list: the same code, and the receiver's buffer
    is filled up to the smaller of its size and the queue's and starts with the message
    as it was sent; the rest of the buffer, when the message was shorter, is old bytes of
    the node. *)
Definition agrees (n : Z) (op : mq_op) (r r' : Z * option (list Z)) : Prop :=
  r.1 = r'.1 /\
  match op, r.2, r'.2 with
  | MqRecv size, Some d, Some b => b `prefix_of` d /\ length d = Z.to_nat (Z.min size n)
  | _, None, None => True
  | _, _, _ => False
  end.

(** The queue in use, nobody waiting on it: its nodes start with the messages [ms]. *)
Record mq_holds (s : kstate) (m : ptr) (cap n : Z) (ms : list (list Z)) : Prop := {
  qh_kinv : kinv ∅ s;
  qh_wait : tlists s !!! LSuspend m = [];
  qh_size : 0 < n;
  qh_msgs : exists x q f, mq_ok s m x q f [] /\ Forall2 (fun d b => b `prefix_of` d) (contents x q) ms /\
    mq_msg_size x = n /\ mq_max_msgs x = cap
}.

(** A message of the full size is received as it was sent. *)
Lemma full_message n size b (r : Z * option (list Z)) :
  agrees n (MqRecv size) r (RT_EOK, Some b) -> n <= size -> Z.of_nat (length b) = n -> r = (RT_EOK, Some b).
Proof.
  destruct r as [e [d|]]; intros [He Hd] Hs Hb; [|done]. simpl in *. destruct Hd as [[k ->] Hl].
  rewrite length_app in Hl. destruct k; [by rewrite app_nil_r, He|simpl in Hl; lia].
Qed.

Lemma whole_prefix buffer d :
  holds_prefix (Z.of_nat (length buffer)) buffer d -> buffer `prefix_of` d.
Proof.
  unfold holds_prefix. rewrite Nat2Z.id, firstn_all. intros <-. exists (drop (length buffer) d). by rewrite take_drop.
Qed.

Lemma full_free x q f : mq_rep x q f [] -> (Z.of_nat (length (contents x q)) = mq_max_msgs x <-> f = []).
Proof.
  intros Hr. pose proof (mr_count _ _ _ _ Hr) as Hc. unfold contents. rewrite app_nil_r, length_app in Hc.
  rewrite length_fmap. destruct f; simpl in *; split; intros; try done; lia.
Qed.

(** Both senders, on a queue that nobody waits on *)
Lemma sent_holds s m x q f buffer r s' (urgent : bool) ms :
  kinv ∅ s -> tlists s !!! LSuspend m = [] -> 0 < mq_msg_size x -> mq_ok s m x q f [] ->
  Forall2 (fun d b => b `prefix_of` d) (contents x q) ms ->
  mq_sent s m x q f [] buffer (Z.of_nat (length buffer)) urgent r s' ->
  let '(r', ms') := msgs_do (mq_max_msgs x) (mq_msg_size x) ms (if urgent then MqUrgent buffer else MqSend buffer) in
  (r, @None (list Z)) = r' /\ mq_holds s' m (mq_max_msgs x) (mq_msg_size x) ms'.
Proof.
  intros Hk Hw Hn Hok Hms Hs. pose proof (full_free x q f (qok_rep _ _ _ _ _ _ Hok)) as Hfull.
  rewrite (Forall2_length _ _ _ Hms) in Hfull. unfold mq_sent in Hs.
  assert (mq_holds s m (mq_max_msgs x) (mq_msg_size x) ms) as Hsame by (split; try done; exists x, q, f; done).
  destruct (mq_msg_size x <? Z.of_nat (length buffer)) eqn:Eb.
  { destruct Hs as [-> ->]. destruct urgent; simpl; by rewrite Eb. }
  destruct f as [|a f'].
  - destruct Hs as [-> ->]. assert (Z.of_nat (length ms) =? mq_max_msgs x = true) as Ef by (apply Z.eqb_eq; tauto).
    destruct urgent; simpl; by rewrite Eb, Ef.
  - destruct Hs as (-> & x' & d & Hp%whole_prefix & Hl & Hq).
    assert (Z.of_nat (length ms) =? mq_max_msgs x = false) as Ef by (apply Z.eqb_neq; rewrite Hfull; done).
    assert (forall q' ms', queued s m x x' q' f' [] s' -> Forall2 (fun d b => b `prefix_of` d) (contents x' q') ms' ->
      mq_holds s' m (mq_max_msgs x) (mq_msg_size x) ms') as Hh.
    { intros q' ms' Hq' Hms'. destruct (queued_ok _ _ _ _ _ _ _ _ _ _ _ Hk Hok Hq') as [Hk' Hok'].
      destruct Hq' as (Hn' & _ & _ & Es' & Em'). unfold notified in Hn'. simpl in Hn'. rewrite Hw in Hn'.
      split; [done|by subst s'|done|]. exists x', q', f'. done. }
    destruct urgent; simpl; rewrite Eb, Ef; (split; [done|]); destruct Hq as [Hq Hc]; apply (Hh _ _ Hq); rewrite Hc.
    + by constructor.
    + apply Forall2_app; [done|]. by repeat constructor.
Qed.

Lemma mq_do_spec s m cap n ms op :
  mq_holds s m cap n ms -> mq_op_ok op ->
  wp (mq_do m op) (fun r s' => agrees n op r (msgs_do cap n ms op).1 /\ mq_holds s' m cap n (msgs_do cap n ms op).2) s.
Proof.
  intros [Hk Hw Hn (x & q & f & Hok & Hms & <- & <-)] Ho. destruct op as [b|b|size]; simpl in Ho |- *; wp_step.
  - assert (0 < Z.of_nat (length b)) by (destruct b; simpl; [done|lia]).
    eapply wp_mono; [apply (rt_mq_send_spec s m x q f []); [done|done|lia]|]. intros r s' Hs. wp_step.
    pose proof (sent_holds s m x q f b r s' false ms Hk Hw Hn Hok Hms Hs) as Hr. simpl in *.
    unfold agrees. destruct (mq_msg_size x <? _); [|destruct (_ =? _)]; destruct Hr as [[= ->] ?]; done.
  - assert (0 < Z.of_nat (length b)) by (destruct b; simpl; [done|lia]).
    eapply wp_mono; [apply (rt_mq_urgent_spec s m x q f []); [done|done|lia]|]. intros r s' Hs. wp_step.
    pose proof (sent_holds s m x q f b r s' true ms Hk Hw Hn Hok Hms Hs) as Hr. simpl in *.
    unfold agrees. destruct (mq_msg_size x <? _); [|destruct (_ =? _)]; destruct Hr as [[= ->] ?]; done.
  - eapply wp_mono; [apply (rt_mq_recv_spec s m x q f [] size 0 (junk_rt_thread 0)); [done|done|done|done|lia|done]|].
    intros r s'. unfold mq_received. destruct q as [|a q].
    + simpl. intros [-> ->]. simpl in Hms. apply Forall2_nil_inv_l in Hms as ->. wp_step. split; [done|].
      split; try done. by exists x, [], f.
    + intros (-> & x' & -> & Hok' & Hc & Es' & Em). wp_step. simpl in Hms. apply Forall2_cons_inv_l in Hms as (b & ms' & Hb & Hms & ->).
      assert (length (msg_bytes x a) = Z.to_nat (mq_msg_size x)) as Hl.
      { destruct (mr_nodes _ _ _ _ (qok_rep _ _ _ _ _ _ Hok) a ltac:(left)) as (_ & nd & En & Hl).
        unfold msg_bytes. by rewrite En, Hl. }
      simpl. split.
      * split; [done|]. split; [|rewrite length_take; lia]. simpl. destruct Hb as [k Hk']. rewrite Hk'.
        assert (length b <= Z.to_nat (mq_msg_size x))%nat as Hle.
        { rewrite <- Hl, Hk', length_app. lia. }
        destruct (Z.min_spec size (mq_msg_size x)) as [[? ->]|[? ->]].
        -- rewrite take_app. by eexists.
        -- rewrite (take_ge b) by lia. rewrite take_app_ge by done. by eexists.
      * split; [by apply with_mq_kinv|done|done|]. exists x', q, (a :: f). split_and!; [done|by rewrite Hc|done|done].
Qed.

Lemma mq_run_spec m cap n ops : forall s ms,
  mq_holds s m cap n ms -> Forall mq_op_ok ops ->
  wp (mq_run m ops) (fun rs s' => Forall3 (agrees n) ops rs (msgs_run cap n ms ops).1 /\
    mq_holds s' m cap n (msgs_run cap n ms ops).2) s.
Proof.
  induction ops as [|op ops IH]; intros s ms Hh Hf; simpl; [wp_step; by split; [constructor|]|].
  apply Forall_cons in Hf as [Ho Hf].
  wp_step. eapply wp_mono; [by apply mq_do_spec|]. intros r s1 [Hr H1'].
  destruct (msgs_do cap n ms op) as [r' ms1]. wp_step. eapply wp_mono; [by apply IH|]. intros rs s2 [Hrs H2'].
  simpl in *. destruct (msgs_run cap n ms1 ops). wp_step. split; [by constructor|done].
Qed.

(** ** Properties *)

(** C7: a message queue used without waiting is a bounded queue with urgent messages: for
    any sequence of [rt_mq_send], [rt_mq_urgent] and [rt_mq_recv] with messages and
    buffers of any positive length, the codes are those of a list of at most [max_msgs]
    messages of at most [msg_size] bytes, urgent ones put in front (-RT_ERROR for a
    longer message, -RT_EFULL when the list is full, -RT_ETIMEOUT when it is empty), and
    each receiver's buffer starts with the message that the list gives, cut to the
    buffer; the queue ends with the contents of the list. *)
Theorem messagequeue_is_queue s m cap n ms ops :
  mq_holds s m cap n ms -> Forall mq_op_ok ops ->
  exists rs s', mq_run m ops s = Ok rs s' /\ Forall3 (agrees n) ops rs (msgs_run cap n ms ops).1 /\
    mq_holds s' m cap n (msgs_run cap n ms ops).2.
Proof. intros Hh Hf. destruct (wp_ok _ _ _ (mq_run_spec m cap n ops s ms Hh Hf)) as (rs & s' & E & H1' & H2'). eauto. Qed.

(** [rt_mq_send] on every branch: -RT_ERROR for a message longer than the queue's,
    -RT_EFULL without a free node, or the buffer's bytes become the last message and the
    first waiting receiver is made ready; nodes other callers are copying are not touched. *)
Theorem rt_mq_send_correct s m x q f g buffer size :
  kinv ∅ s -> mq_ok s m x q f g -> 0 < size <= Z.of_nat (length buffer) ->
  exists r s', rt_mq_send m buffer size s = Ok r s' /\ mq_sent s m x q f g buffer size false r s'.
Proof.
  intros Hk Hok Hs. destruct (wp_ok _ _ _ (rt_mq_send_spec s m x q f g buffer size Hk Hok Hs)) as (r & s' & E & Hp). eauto.
Qed.

(** [rt_mq_recv] on every branch: -RT_ETIMEOUT without a timeout on an empty queue,
    the caller waits, or it gets the first message, cut to its buffer, and the node goes
    back to the free list. *)
Theorem rt_mq_recv_correct s m x q f g size timeout t th :
  kinv ∅ s -> mq_ok s m x q f g -> running s t th -> other_ready s t -> timeout < HALF_TICK ->
  0 <= mq_msg_size x -> 0 < size ->
  exists r s', rt_mq_recv m size timeout s = Ok r s' /\ mq_received s m x q f g size timeout 0 true t th r s'.
Proof.
  intros Hk Hok Hrun Ho Ht Hms Hs. pose proof (run_current _ _ _ Hrun) as Ec.
  destruct (wp_ok _ _ _ (rt_mq_recv_spec s m x q f g size timeout th Hk Hok ltac:(by rewrite Ec) Ht Hms Hs)) as (r & s' & E & Hp).
  rewrite Ec in Hp. eauto.
Qed.
End messagequeue.
