(* ===== verification/MemPool.v ===== *)
(** * Memory pools (src/mempool.c)

    Blocks of one size, each behind a word that links the free blocks, or holds the
    address of the pool while the block is allocated. *)
From stdpp Require Import base tactics numbers list gmap.
From S2P Require Import Prelude RtList Kernel Scheduler Object Timer Thread Ipc.
Local Open Scope Z_scope.

Section mempool.
Context `{KConfig} `{Allocator}.

Definition get_mp (p : ptr) : K rt_mempool := s ← get; opt BadPointer (mempools s !! p).
Definition upd_mp (p : ptr) (f : rt_mempool -> rt_mempool) : K unit :=
  x ← get_mp p; modify (fun s => set_mempools (<[p := f x]> (mempools s)) s).

(** The word in front of a block *)
Definition get_word (a : ptr) : K Z := s ← get; opt BadPointer (pool_words s !! a).
Definition put_word (a v : Z) : K unit := modify (fun s => set_pool_words (<[a := v]> (pool_words s)) s).

(** The loop of [rt_mp_init] and [rt_mp_create]: block [offset] points to the
    next; behind the loop the last one gets RT_NULL. *)
Definition mp_link_blocks (block_ptr block_size count : Z) : K unit :=
  foldr (fun offset k =>
      put_word (block_ptr + Z.of_nat offset * (block_size + 4))
               (block_ptr + (Z.of_nat offset + 1) * (block_size + 4));; k)
    (mret tt) (seq 0 (Z.to_nat count));;
  put_word (block_ptr + (count - 1) * (block_size + 4)) RT_NULL.

Definition rt_mp_init (mp : ptr) (name : list Z) (start size block_size : Z) : K Z :=
  nonnull mp;;
  modify (place (OMemPool mp));;
  rt_object_init (OMemPool mp) RT_Object_Class_MemPool name;;
  upd_mp mp (set_mp_start_address start);;
  upd_mp mp (set_mp_size (RT_ALIGN_DOWN size 4));;
  let block_size := RT_ALIGN block_size 4 in
  upd_mp mp (set_mp_block_size block_size);;
  upd_mp mp (fun x => set_mp_block_total_count (mp_size x / u32 (mp_block_size x + 4)) x);;
  upd_mp mp (fun x => set_mp_block_free_count (mp_block_total_count x) x);;
  tlist_head_init (LSuspend mp);;
  upd_mp mp (set_mp_suspend_thread_count 0);;
  x ← get_mp mp;
  mp_link_blocks (mp_start_address x) block_size (mp_block_total_count x);;
  upd_mp mp (set_mp_block_list (mp_start_address x));;
  mret RT_EOK.

(** The loop of [rt_mp_detach] and [rt_mp_delete] *)
Definition mp_resume_all (mp : ptr) : K unit :=
  n ← gets (fun s => length (tlists s !!! LSuspend mp));
  while (S n) (fun _ => e ← tlist_isempty (LSuspend mp); mret (negb e))
    (fun _ =>
      thread ← tlist_first (LSuspend mp);
      upd_thread thread (set_th_error (- RT_ERROR));;
      rt_thread_resume thread;;
      upd_mp mp (fun x => set_mp_suspend_thread_count (u32 (mp_suspend_thread_count x - 1)) x)) tt.

Definition rt_mp_detach (mp : ptr) : K Z :=
  nonnull mp;;
  mp_resume_all mp;;
  rt_object_detach (OMemPool mp);;
  mret RT_EOK.

Definition rt_mp_create (name : list Z) (block_count block_size : Z) : K ptr :=
  RT_DEBUG_NOT_IN_INTERRUPT;;
  mp ← rt_object_allocate RT_Object_Class_MemPool name;
  if mp =? RT_NULL then mret RT_NULL
  else
    let block_size := RT_ALIGN block_size 4 in
    upd_mp mp (set_mp_block_size block_size);;
    upd_mp mp (set_mp_size (u32 ((block_size + 4) * block_count)));;
    start ← kmalloc (u32 ((block_size + 4) * block_count));
    upd_mp mp (set_mp_start_address start);;
    if start =? RT_NULL then rt_object_delete (OMemPool mp);; mret RT_NULL
    else
      upd_mp mp (set_mp_block_total_count block_count);;
      upd_mp mp (fun x => set_mp_block_free_count (mp_block_total_count x) x);;
      tlist_head_init (LSuspend mp);;
      upd_mp mp (set_mp_suspend_thread_count 0);;
      mp_link_blocks start block_size block_count;;
      upd_mp mp (set_mp_block_list start);;
      mret mp.

Definition rt_mp_delete (mp : ptr) : K Z :=
  RT_DEBUG_NOT_IN_INTERRUPT;;
  nonnull mp;;
  mp_resume_all mp;;
  x ← get_mp mp;
  kfree (mp_start_address x);;
  rt_object_delete (OMemPool mp);;
  mret RT_EOK.

(** Behind the loop of [rt_mp_alloc]: a block leaves the free list. *)
Definition mp_take (mp : ptr) : K ptr :=
  upd_mp mp (fun x => set_mp_block_free_count (u32 (mp_block_free_count x - 1)) x);;
  x ← get_mp mp;
  let block_ptr := mp_block_list x in
  nonnull block_ptr;;
  next ← get_word block_ptr;
  upd_mp mp (set_mp_block_list next);;
  put_word block_ptr mp;;
  mret (block_ptr + 4).

(** The loop of [rt_mp_alloc]; the result RT_NULL is a failure. *)
Definition mp_alloc_loop (mp thread time before_sleep : Z) : K (progress ptr (Z * Z)) :=
  x ← get_mp mp;
  if mp_block_free_count x =? 0 then
    if time =? 0 then rt_set_errno (- RT_ETIMEOUT);; mret (Done RT_NULL)
    else
      RT_DEBUG_NOT_IN_INTERRUPT;;
      upd_thread thread (set_th_error RT_EOK);;
      rt_thread_suspend thread;;
      tlist_insert_after (LSuspend mp) thread;;
      upd_mp mp (fun x => set_mp_suspend_thread_count (u32 (mp_suspend_thread_count x + 1)) x);;
      before_sleep ← (if 0 <? time then
                        now ← rt_tick_get; start_thread_timer thread time;; mret now
                      else mret before_sleep);
      rt_schedule;;
      mret (Blocked (time, before_sleep))
  else r ← mp_take mp; mret (Done r).

Definition rt_mp_alloc (mp time : Z) : K (progress ptr (Z * Z)) :=
  thread ← rt_thread_self;
  mp_alloc_loop mp thread time 0.
Definition rt_mp_alloc_resume (mp thread time before_sleep : Z) : K (progress ptr (Z * Z)) :=
  th ← get_thread thread;
  if negb (th_error th =? RT_EOK) then mret (Done RT_NULL)
  else
    time ← remaining_timeout time before_sleep;
    mp_alloc_loop mp thread time before_sleep.

Definition rt_mp_free (block : ptr) : K unit :=
  let block_ptr := block - 4 in
  mp ← get_word block_ptr;
  upd_mp mp (fun x => set_mp_block_free_count (u32 (mp_block_free_count x + 1)) x);;
  x ← get_mp mp;
  put_word block_ptr (mp_block_list x);;
  upd_mp mp (set_mp_block_list block_ptr);;
  if 0 <? mp_suspend_thread_count x then
    thread ← tlist_first (LSuspend mp);
    upd_thread thread (set_th_error RT_EOK);;
    rt_thread_resume thread;;
    upd_mp mp (fun x => set_mp_suspend_thread_count (u32 (mp_suspend_thread_count x - 1)) x);;
    rt_schedule
  else mret tt.

(** ** The free list *)

(** [l] are the blocks reached from [p] through their first words. *)
Fixpoint blocks_from (words : gmap ptr Z) (p : ptr) (l : list ptr) : Prop :=
  match l with
  | [] => p = RT_NULL
  | a :: l' => p = a /\ a <> RT_NULL /\ exists n, words !! a = Some n /\ blocks_from words n l'
  end.

Lemma blocks_from_other words a v p l : blocks_from words p l -> a ∉ l -> blocks_from (<[a := v]> words) p l.
Proof.
  revert p. induction l as [|b l IH]; intros p; simpl; [done|]. intros (-> & Hb & n & E & Hc) [Hne Hl]%not_elem_of_cons.
  split_and!; [done|done|]. exists n. rewrite lookup_insert_ne by done. auto.
Qed.

(** A pool in use: [f] are the free blocks in the order of the list, [u] the blocks
    handed out, whose first word points to the pool; the counters agree. *)
Record pool_ok (s : kstate) (mp : ptr) (x : rt_mempool) (f u : list ptr) : Prop := {
  po_ptr : mp <> RT_NULL;
  po_at : mempools s !! mp = Some x;
  po_free : blocks_from (pool_words s) (mp_block_list x) f;
  po_used : forall b, b ∈ u -> b <> RT_NULL /\ pool_words s !! b = Some mp;
  po_nodup : NoDup (f ++ u);
  po_count : mp_block_free_count x = Z.of_nat (length f);
  po_range : Z.of_nat (length (f ++ u)) < 2 ^ 32;
  po_waiting : mp_suspend_thread_count x = Z.of_nat (length (tlists s !!! LSuspend mp))
}.

(** ** Correctness *)

Definition with_mp (mp : ptr) (x : rt_mempool) (s : kstate) : kstate :=
  set_mempools (<[mp := x]> (mempools s)) s.

Lemma with_mp_twice m x y s : with_mp m x (with_mp m y s) = with_mp m x s.
Proof. unfold with_mp. simpl. by kset. Qed.

Lemma with_mp_at m x s : mempools (with_mp m x s) !! m = Some x.
Proof. apply lookup_insert_eq. Qed.

Lemma wp_get_mp m x (Q : rt_mempool -> kstate -> Prop) s :
  mempools s !! m = Some x -> Q x s -> wp (get_mp m) Q s.
Proof. intros E HQ. unfold get_mp. do 2 wp_step. by eapply wp_opt. Qed.

Lemma wp_upd_mp m f x (Q : unit -> kstate -> Prop) s :
  mempools s !! m = Some x -> Q tt (with_mp m (f x) s) -> wp (upd_mp m f) Q s.
Proof. intros E HQ. unfold upd_mp. wp_step. eapply wp_get_mp; [done|]. by wp_step. Qed.

Lemma wp_get_word a v (Q : Z -> kstate -> Prop) s : pool_words s !! a = Some v -> Q v s -> wp (get_word a) Q s.
Proof. intros E HQ. unfold get_word. do 2 wp_step. by eapply wp_opt. Qed.

(** A block has been handed out. *)
Definition block_taken (mp : ptr) (x : rt_mempool) (b next : ptr) (s : kstate) : kstate :=
  set_pool_words (<[b := mp]> (pool_words s))
    (with_mp mp (set_mp_block_list next (set_mp_block_free_count (mp_block_free_count x - 1) x)) s).

Lemma mp_take_spec s mp x b f u :
  kinv ∅ s -> pool_ok s mp x (b :: f) u ->
  wp (mp_take mp) (fun r s' => r = b + 4 /\ kinv ∅ s' /\ exists next, s' = block_taken mp x b next s /\
    pool_ok s' mp (set_mp_block_list next (set_mp_block_free_count (mp_block_free_count x - 1) x)) f (b :: u)) s.
Proof.
  intros Hk [P1 P2 P3 P4 P5 P6 P7 P8]. destruct P3 as (Eb & Hb & next & En & Hf). simpl in P6, P7.
  unfold mp_take. wp_step. eapply wp_upd_mp; [done|]. wp_step. eapply wp_get_mp; [apply with_mp_at|]. simpl. rewrite Eb.
  wp_step. apply nonnull_ok; [done|]. wp_step. eapply wp_get_word; [done|]. wp_step. eapply wp_upd_mp; [apply with_mp_at|].
  wp_step. unfold put_word. wp_step. wp_step. rewrite with_mp_twice.
  rewrite length_app in P7. rewrite uwrap_small by lia.
  split; [done|]. split; [by apply (kinv_eq ∅ s)|]. exists next. split; [done|].
  pose proof P5 as Hnd. simpl in Hnd. apply NoDup_cons in Hnd as [Hbn Hnd]. rewrite not_elem_of_app in Hbn. destruct Hbn as [Hbf Hbu].
  split; simpl; [done|apply with_mp_at|by apply blocks_from_other| |by rewrite <- Permutation_middle|lia| |done].
  - intros c. rewrite elem_of_cons. intros [->|Hc]; [by rewrite lookup_insert_eq|].
    rewrite lookup_insert_ne; [by apply P4|]. by intros ->.
  - rewrite length_app. simpl. lia.
Qed.

(** ** Allocation: a block, a failure, or the caller waits, in front of the others. *)
Definition mp_allocated (s : kstate) (mp : ptr) (x : rt_mempool) (f u : list ptr) (time td : Z) (t : ptr)
    (th : rt_thread) (r : progress ptr (Z * Z)) (s' : kstate) : Prop :=
  match f with
  | b :: f' => r = Done (b + 4) /\ exists x', pool_ok s' mp x' f' (b :: u)
  | [] =>
      if time =? 0 then r = Done RT_NULL /\ s' = set_error t th (- RT_ETIMEOUT) s
      else r = Blocked (time, if 0 <? time then rt_tick s else td) /\ exists x',
        blocked_at (with_mp mp x' (set_error t th RT_EOK s)) (LSuspend mp) t (set_th_error RT_EOK th)
          (t :: tlists s !!! LSuspend mp) time s' /\ pool_ok s' mp x' f u
  end.

Lemma rt_set_errno_running s t th e (Q : unit -> kstate -> Prop) :
  running s t th -> Q tt (set_error t th e s) -> wp (rt_set_errno e) Q s.
Proof.
  intros [Ec Eth _ En Ht] HQ. unfold rt_set_errno. wp_step. wp_step. rewrite En. simpl.
  rewrite Ec, (proj2 (Z.eqb_neq _ _) Ht). by eapply wp_upd_thread.
Qed.

Lemma mp_alloc_loop_spec s mp x f u time td t th :
  kinv ∅ s -> pool_ok s mp x f u -> running s t th -> other_ready s t -> time < HALF_TICK ->
  Z.of_nat (length (tlists s !!! LSuspend mp)) + 1 < 2 ^ 32 ->
  wp (mp_alloc_loop mp t time td) (fun r s' => kinv ∅ s' /\ mp_allocated s mp x f u time td t th r s') s.
Proof.
  intros Hk Hp Hrun Hoth Ht Hlen. pose proof Hp as [P1 P2 P3 P4 P5 P6 P7 P8]. pose proof Hrun as [Ec Eth Hst Hn Hnt].
  unfold mp_alloc_loop. wp_step. eapply wp_get_mp; [done|]. rewrite P6. destruct f as [|b f]; simpl.
  2: { wp_step. eapply wp_mono; [by apply (mp_take_spec s mp x b f u)|]. intros r s' (-> & Hk' & next & _ & Hp'). wp_step. eauto. }
  assert (forall e, kinv ∅ (set_error t th e s)) as Hke by (intros e; by eapply kinv_retouch).
  destruct (Z.eqb_spec time 0).
  { wp_step. eapply rt_set_errno_running; [done|]. wp_step. by split. }
  wp_step. unfold RT_DEBUG_NOT_IN_INTERRUPT. wp_step. wp_step. wp_step; [lia|]. wp_step. eapply wp_upd_thread; [done|].
  fold (set_error t th RT_EOK s). set (s0 := set_error t th RT_EOK s). set (th0 := set_th_error RT_EOK th).
  assert (threads s0 !! t = Some th0) as E0 by apply lookup_insert_eq. wp_step.
  eapply wp_mono; [apply (rt_thread_suspend_spec ∅ s0 t th0); [apply Hke|apply not_elem_of_empty|done|done]|].
  intros e s1 (_ & Hk1 & Hf1 & Eth1 & Etl1 & Hn1). pose proof (fr0_frame _ _ Hf1) as F1.
  assert (~ Abs.linked t (tlists s1)) as Hun by (rewrite Etl1; apply not_linked_removed).
  assert (tlists s1 !!! LSuspend mp = tlists s !!! LSuspend mp) as Ew.
  { rewrite Etl1, Abs.lookup_remove. apply list_del_not_in. intros Hin.
    pose proof (suspended_on s (LSuspend mp) t th Hk Eth Hin ltac:(done) ltac:(done)) as Hs. by rewrite Hst in Hs. }
  wp_step. apply wp_tlist_insert; [done|]. unfold Abs.insert_front. rewrite Ew.
  set (s2 := set_tlists _ s1). assert (kinv ∅ s2) as Hk2.
  { apply (suspended_insert s1 _ t (set_th_stat RT_THREAD_SUSPEND th0)); try done.
    { rewrite Eth1. apply lookup_insert_eq. } by rewrite Ew. }
  wp_step. eapply (wp_upd_mp _ _ x); [simpl; by rewrite (fr_mempools _ _ F1)|]. rewrite uwrap_small by lia.
  set (x' := set_mp_suspend_thread_count _ x). set (s3 := with_mp mp x' s2).
  assert (mempools s3 = <[mp := x']> (mempools s0)) as Em3 by (simpl; by rewrite (fr_mempools _ _ F1)).
  eapply (wait_tail_tick (with_mp mp x' s0) (LSuspend mp) t th0 (t :: tlists s !!! LSuspend mp)); [|done|done|done|done| | |done| |done|].
  - apply (kinv_eq ∅ s0); [done..|]. apply Hke.
  - by apply (kinv_eq ∅ s2).
  - destruct Hf1 as [[] ? ? ?]. split; [split|..]; done.
  - simpl. by rewrite Etl1.
  - intros s' Hb. wp_step. split; [apply Hb|]. split; [done|]. exists x'. split; [done|].
    pose proof (bk_frame _ _ _ _ _ _ _ Hb) as FB.
    split; [done|rewrite (fr_mempools _ _ FB); apply with_mp_at|done| |done|done|done|].
    + intros b Hb'. rewrite (fr_pool _ _ FB). by apply P4.
    + rewrite (bk_lists _ _ _ _ _ _ _ Hb), lookup_total_insert_eq. simpl. lia.
Qed.
(** ** Release *)

(** Block [b] is on the free list again. *)
Definition block_freed (mp : ptr) (x : rt_mempool) (b : ptr) (s : kstate) : kstate :=
  set_pool_words (<[b := mp_block_list x]> (pool_words s))
    (with_mp mp (set_mp_block_list b (set_mp_block_free_count (mp_block_free_count x + 1) x)) s).

Lemma block_freed_ok s mp x b f u :
  pool_ok s mp x f u -> b ∈ u ->
  pool_ok (block_freed mp x b s) mp (set_mp_block_list b (set_mp_block_free_count (mp_block_free_count x + 1) x))
    (b :: f) (list_del b u).
Proof.
  intros [P1 P2 P3 P4 P5 P6 P7 P8] Hb. destruct (list_elem_of_split _ _ Hb) as (u1 & u2 & ->).
  pose proof P5 as Hnd. apply NoDup_app in Hnd as (_ & Hfu & Hnu).
  assert (b ∉ f) as Hbf by (intros Hin; by apply (Hfu b Hin)).
  assert (list_del b (u1 ++ b :: u2) = u1 ++ u2) as Ed.
  { apply NoDup_app in Hnu as (_ & Hd & [Hb2 _]%NoDup_cons). rewrite list_del_app, list_del_not_in.
    - f_equal. unfold list_del. rewrite filter_cons_False by tauto. by apply list_del_not_in.
    - intros Hin. apply (Hd b Hin). left. }
  rewrite Ed. assert (b :: f ++ u1 ++ u2 ≡ₚ f ++ u1 ++ b :: u2) as Hperm.
  { rewrite <- Permutation_middle. rewrite Permutation_middle. done. }
  split; simpl; [done|apply with_mp_at| | | |lia| |done].
  - split_and!; [done|by apply P4|]. exists (mp_block_list x). rewrite lookup_insert_eq. split; [done|].
    by apply blocks_from_other.
  - intros c Hc. assert (c ∈ u1 ++ b :: u2) as Hc' by set_solver. destruct (P4 c Hc'). split; [done|].
    rewrite lookup_insert_ne; [done|]. intros <-. rewrite <- Ed in Hc. by apply elem_of_list_del in Hc as [? _].
  - by rewrite Hperm.
  - change (Z.of_nat (length (b :: f ++ u1 ++ u2)) < 2 ^ 32). by rewrite Hperm.
Qed.

(** What [rt_mp_free] does: the block joins the free list, and the first waiting
    thread is made ready. *)
Definition mp_freed (s : kstate) (mp : ptr) (x : rt_mempool) (b : ptr) (s' : kstate) : Prop :=
  match tlists s !!! LSuspend mp with
  | [] => s' = block_freed mp x b s
  | t :: ws => exists th x', threads s !! t = Some th /\
      handed (with_mp mp x' (set_error t th RT_EOK (block_freed mp x b s))) (LSuspend mp) t ws (set_th_error RT_EOK th) s'
  end.

Lemma rt_mp_free_spec s mp x b f u :
  kinv ∅ s -> pool_ok s mp x f u -> b ∈ u -> Z.of_nat (length (tlists s !!! LSuspend mp)) < 2 ^ 32 ->
  wp (rt_mp_free (b + 4)) (fun _ s' => kinv ∅ s' /\ mp_freed s mp x b s' /\ exists x', pool_ok s' mp x' (b :: f) (list_del b u)) s.
Proof.
  intros Hk Hp Hb Hlen. pose proof Hp as [P1 P2 P3 P4 P5 P6 P7 P8].
  pose proof (block_freed_ok s mp x b f u Hp Hb) as Hp1.
  assert (mp_block_free_count x + 1 < 2 ^ 32) as Hc.
  { destruct (list_elem_of_split _ _ Hb) as (u1 & u2 & ->). rewrite !length_app in P7. simpl in P7. lia. }
  unfold rt_mp_free. replace (b + 4 - 4) with b by lia. cbv zeta. wp_step. eapply wp_get_word; [by apply P4|].
  wp_step. eapply wp_upd_mp; [done|]. wp_step. eapply wp_get_mp; [apply with_mp_at|].
  wp_step. unfold put_word. wp_step. wp_step. eapply wp_upd_mp; [apply with_mp_at|]. simpl. rewrite uwrap_small by lia.
  set (s1 := with_mp mp _ _). assert (s1 = block_freed mp x b s) as Es1.
  { unfold s1, block_freed, with_mp. simpl. by kset. }
  clearbody s1. subst s1. set (s1 := block_freed mp x b s) in *. set (x1 := set_mp_block_list _ _) in Hp1.
  assert (kinv ∅ s1) as Hk1 by (by apply (kinv_eq ∅ s)). rewrite P8. unfold mp_freed.
  destruct (tlists s !!! LSuspend mp) as [|t ws] eqn:El; simpl; [by wp_step; eauto|].
  destruct (list_first_thread _ _ _ _ Hk El) as [th Eth].
  pose proof (suspended_on s (LSuspend mp) t th Hk Eth ltac:(rewrite El; left) ltac:(done) ltac:(done)) as Hst.
  wp_step. eapply wp_tlist_first; [simpl; by rewrite El|]. wp_step. eapply wp_upd_thread; [done|].
  fold (set_error t th RT_EOK s1). set (s2 := set_error t th RT_EOK s1). set (th2 := set_th_error RT_EOK th).
  assert (kinv ∅ s2) as Hk2 by (by eapply kinv_retouch). wp_step.
  eapply wp_mono; [apply (rt_thread_resume_spec ∅ s2 t th2); [done|apply not_elem_of_empty|apply lookup_insert_eq|done]|].
  intros e s3 (_ & Hk3 & Hf3 & Eth3 & Etl3 & Hn3). pose proof (fr0_frame _ _ Hf3) as F3.
  wp_step. eapply (wp_upd_mp _ _ x1); [rewrite (fr_mempools _ _ F3); apply with_mp_at|].
  set (x2 := set_mp_suspend_thread_count _ x1).
  eapply (schedule_handed (with_mp mp x2 s2) (LSuspend mp) t ws th2); [by apply (kinv_eq ∅ s2)|done|done| |].
  - split_and!; [by apply (kinv_eq ∅ s3)| |done|done|done]. pose proof (fr_mempools _ _ F3) as Em.
    destruct Hf3 as [[] ? ? ?]. split; [split|..]; try done. simpl. by rewrite Em.
  - intros s' Hh. split; [apply Hh|]. split; [by exists th, x2|]. exists x2. pose proof (hd_frame _ _ _ _ _ _ Hh) as FH.
    destruct Hp1 as [Q1 Q2 Q3 Q4 Q5 Q6 Q7 Q8]. simpl in Q8. rewrite El in Q8. simpl in Q8.
    split; [done|rewrite (fr_mempools _ _ FH); apply with_mp_at| | |done|done|done|].
    + by rewrite (fr_pool _ _ FH).
    + intros c. rewrite (fr_pool _ _ FH). apply Q4.
    + rewrite (hd_rest _ _ _ _ _ _ Hh). simpl. simpl in Hlen. unfold x2. simpl. rewrite Q8, uwrap_small by lia. lia.
Qed.
(** ** A timeout leaves the counter of waiting threads behind *)

Lemma upd_mp_run m f x s : mempools s !! m = Some x -> upd_mp m f s = Ok tt (with_mp m (f x) s).
Proof. intros E. unfold upd_mp, get_mp, mbind, M_bind, get, modify. simpl. by rewrite E. Qed.

(** With a count and no thread behind it, a release follows the list head as a thread. *)
Lemma rt_mp_free_bad_list s mp x b :
  pool_words s !! b = Some mp -> mempools s !! mp = Some x -> 0 < mp_suspend_thread_count x ->
  tlists s !!! LSuspend mp = [] -> rt_mp_free (b + 4) s = Fault BadList.
Proof.
  intros Ew Em Hc El. unfold rt_mp_free. replace (b + 4 - 4) with b by lia. cbv zeta.
  rewrite (run_bind _ _ s mp s) by (unfold get_word, mbind, M_bind, get; simpl; by rewrite Ew).
  erewrite run_bind by (by apply upd_mp_run).
  erewrite run_bind by (unfold get_mp, mbind, M_bind, get; simpl; by rewrite lookup_insert_eq).
  erewrite run_bind by done. erewrite run_bind by (by apply upd_mp_run, with_mp_at).
  cbn [mp_suspend_thread_count set_mp_block_free_count set_mp_block_list]. rewrite (proj2 (Z.ltb_lt _ _) Hc).
  unfold tlist_first, mbind, M_bind, get. simpl. by rewrite El.
Qed.

Lemma alloc_timeout_state s mp x u t th time :
  kinv ∅ s -> pool_ok s mp x [] u -> tlists s !!! LSuspend mp = [] -> running s t th -> other_ready s t ->
  0 < time < HALF_TICK ->
  exists w s1 s2 x1, rt_mp_alloc mp time s = Ok (Blocked w) s1 /\ rt_thread_timeout t s1 = Ok tt s2 /\
    pool_ok s1 mp x1 [] u /\ frame s1 s2 /\ tlists s2 !!! LSuspend mp = [] /\ mp_suspend_thread_count x1 = 1.
Proof.
  intros Hk Hp El Hrun Hoth Ht.
  destruct (wp_ok _ _ _ (mp_alloc_loop_spec s mp x [] u time 0 t th Hk Hp Hrun Hoth ltac:(lia) ltac:(rewrite El; done)))
    as (r & s1 & E1 & Hk1 & Ha).
  unfold mp_allocated in Ha. rewrite (proj2 (Z.eqb_neq time 0)) in Ha by lia. destruct Ha as (-> & x1 & Hb & Hp1).
  rewrite El in Hb. set (th1 := set_th_stat RT_THREAD_SUSPEND (set_th_error RT_EOK th)).
  assert (threads s1 !! t = Some th1) as Eth1 by (rewrite (bk_threads _ _ _ _ _ _ _ Hb); apply lookup_insert_eq).
  destruct (wp_ok _ _ _ (rt_thread_timeout_spec s1 t th1 (ki_sched _ _ Hk1) Eth1 eq_refl)) as ([] & s2 & E2 & _ & Hf & _ & Etl & _).
  assert (tlists s1 !!! LSuspend mp = [t]) as Ew by (rewrite (bk_lists _ _ _ _ _ _ _ Hb); apply lookup_total_insert_eq).
  eexists. exists s1, s2, x1. split_and!; [|done|done|done| |].
  - unfold rt_mp_alloc, rt_thread_self. rewrite (run_bind _ _ s (rt_current_thread s) s) by done.
    rewrite (run_current _ _ _ Hrun). exact E1.
  - rewrite Etl. by eapply (resumed_lists_wait s1 (LSuspend mp) t []); [apply Hk1| |].
  - rewrite (po_waiting _ _ _ _ _ Hp1), Ew. done.
Qed.

(** ** Properties *)

(** C31: [rt_mp_alloc] hands out the first free block, which was in nobody's hands, fails
    with RT_NULL and the error -RT_ETIMEOUT without a timeout, or makes the caller wait;
    the invariants of the kernel and the pool hold afterwards. *)
Theorem rt_mp_alloc_correct s mp x f u time t th :
  kinv ∅ s -> pool_ok s mp x f u -> running s t th -> other_ready s t -> time < HALF_TICK ->
  Z.of_nat (length (tlists s !!! LSuspend mp)) + 1 < 2 ^ 32 ->
  exists r s', rt_mp_alloc mp time s = Ok r s' /\ kinv ∅ s' /\ mp_allocated s mp x f u time 0 t th r s' /\
    forall b f', f = b :: f' -> r = Done (b + 4) /\ b ∉ u.
Proof.
  intros Hk Hp Hrun Hoth Ht Hl.
  destruct (wp_ok _ _ _ (mp_alloc_loop_spec s mp x f u time 0 t th Hk Hp Hrun Hoth Ht Hl)) as (r & s' & E & Hk' & Ha).
  exists r, s'. split_and!; [|done|done|].
  - unfold rt_mp_alloc, rt_thread_self. rewrite (run_bind _ _ s (rt_current_thread s) s) by done.
    rewrite (run_current _ _ _ Hrun). exact E.
  - intros b f' ->. destruct Ha as [-> _]. split; [done|].
    pose proof (po_nodup _ _ _ _ _ Hp) as Hnd. simpl in Hnd. apply NoDup_cons in Hnd as [Hn _]. set_solver.
Qed.

(** [rt_mp_free] of a block in use puts it in front of the free list and makes the
    first waiting thread ready with no error; the invariants hold afterwards. *)
Theorem rt_mp_free_correct s mp x b f u :
  kinv ∅ s -> pool_ok s mp x f u -> b ∈ u -> Z.of_nat (length (tlists s !!! LSuspend mp)) < 2 ^ 32 ->
  exists s', rt_mp_free (b + 4) s = Ok tt s' /\ kinv ∅ s' /\ mp_freed s mp x b s' /\
    exists x', pool_ok s' mp x' (b :: f) (list_del b u).
Proof.
  intros Hk Hp Hb Hl. destruct (wp_ok _ _ _ (rt_mp_free_spec s mp x b f u Hk Hp Hb Hl)) as ([] & s' & E & Hq). eauto.
Qed.

(** a timeout in [rt_mp_alloc] does not decrement [suspend_thread_count]: when the
    only waiting thread times out, the count stays 1 with the list empty, and the next
    [rt_mp_free] takes the list head for a thread. *)
Theorem rt_mp_alloc_timeout_leak s mp x u t th time b :
  kinv ∅ s -> pool_ok s mp x [] u -> tlists s !!! LSuspend mp = [] -> running s t th -> other_ready s t ->
  0 < time < HALF_TICK -> b ∈ u ->
  exists w s1 s2, rt_mp_alloc mp time s = Ok (Blocked w) s1 /\ rt_thread_timeout t s1 = Ok tt s2 /\
    rt_mp_free (b + 4) s2 = Fault BadList.
Proof.
  intros Hk Hp El Hrun Hoth Ht Hb.
  destruct (alloc_timeout_state s mp x u t th time Hk Hp El Hrun Hoth Ht) as (w & s1 & s2 & x1 & E1 & E2 & Hp1 & Hf & El2 & Hc).
  exists w, s1, s2. split_and!; [done|done|]. apply (rt_mp_free_bad_list s2 mp x1 b); [| |lia|done].
  - rewrite (fr_pool _ _ Hf). by apply (po_used _ _ _ _ _ Hp1).
  - rewrite (fr_mempools _ _ Hf). apply Hp1.
Qed.
End mempool.
