(* ===== verification/Clock.v ===== *)
(** * The tick, interrupt nesting and the idle thread (src/clock.c, src/irq.c, src/idle.c) *)
From stdpp Require Import base tactics numbers list gmap sorting.
From S2P Require Import Prelude RtList Kernel Scheduler Object Timer Thread.
Local Open Scope Z_scope.

Section clock.
Context `{KConfig} `{Allocator}.

(** ** src/clock.c *)

Definition rt_tick_set (tick : Z) : K unit := modify (set_rt_tick tick).

(** [user] runs the timeout functions of the application; the fuel bounds the
    loop of [rt_timer_check]. *)
Definition rt_tick_increase (user : Z -> Z -> K unit) (fuel : nat) : K unit :=
  modify (fun s => set_rt_tick (u32 (rt_tick s + 1)) s);;
  thread ← rt_thread_self;
  upd_thread thread (fun th => set_th_remaining_tick (u32 (th_remaining_tick th - 1)) th);;
  th ← get_thread thread;
  when (th_remaining_tick th =? 0)
    (upd_thread thread (fun th => set_th_remaining_tick (th_init_tick th) th);;
     rt_thread_yield;; mret tt);;
  rt_timer_check (call_timeout user) fuel.

Definition rt_tick_from_millisecond (ms : Z) : Z := u32 (RT_TICK_PER_SECOND * ms + 999) / 1000.

(** ** src/irq.c *)

Definition rt_interrupt_enter : K unit :=
  modify (fun s => set_rt_interrupt_nest (u8 (rt_interrupt_nest s + 1)) s).
Definition rt_interrupt_leave : K unit :=
  modify (fun s => set_rt_interrupt_nest (u8 (rt_interrupt_nest s - 1)) s).
Definition rt_interrupt_get_nest : K Z := gets rt_interrupt_nest.

(** ** src/idle.c *)

Definition _has_defunct_thread : K bool := e ← tlist_isempty LDefunct; mret (negb e).

(** [cleanup] runs the cleanup function of a thread.  A round of the loop takes
    one thread off the defunct list; [true]: the function returns. *)
Definition idle_round (cleanup : ptr -> ptr -> K unit) : K bool :=
  RT_DEBUG_NOT_IN_INTERRUPT;;
  d ← _has_defunct_thread;
  if d : bool then
    thread ← tlist_first LDefunct;
    tlist_remove thread;;
    th ← get_thread thread;
    when (negb (th_cleanup th =? RT_NULL)) (cleanup (th_cleanup th) thread);;
    static ← rt_object_is_systemobject (OThread thread);
    if static : bool then mret true
    else
      th ← get_thread thread;
      kfree (th_stack_addr th);;
      rt_object_delete (OThread thread);;
      mret false
  else mret true.

Definition rt_thread_idle_excute (cleanup : ptr -> ptr -> K unit) (fuel : nat) : K unit :=
  while fuel (fun stop : bool => d ← _has_defunct_thread; mret (negb stop && d))
    (fun _ => idle_round cleanup) false;;
  mret tt.

Section idle_init.
Context (rt_thread_exit_addr : Z).

(** [idle], [rt_thread_stack] and the entry function are static objects. *)
Definition rt_thread_idle_init (idle entry rt_thread_stack stack_size : Z) : K unit :=
  rt_thread_init rt_thread_exit_addr idle [116; 105; 100; 108; 101] entry RT_NULL
    rt_thread_stack stack_size (RT_THREAD_PRIORITY_MAX - 1) 32;;
  rt_thread_startup idle;;
  mret tt.
End idle_init.

(** ** Correctness of the tick *)

(** A timeout function of the application that leaves threads and timers alone *)
Definition quiet (m : K unit) : Prop :=
  forall s, wp m (fun _ s' => sched_eq s s' /\ timers s' = timers s /\ rt_timer_list s' = rt_timer_list s /\
    rt_tick s' = rt_tick s /\ rt_current_thread s' = rt_current_thread s /\
    rt_scheduler_lock_nest s' = rt_scheduler_lock_nest s) s.

(** The objects of the application: what a timeout function may work on *)
Definition objects (s : kstate) := (sems s, mutexes s, events s, mailboxes s, mqs s, mempools s, pool_words s,
  devices s, kheap s, errno s).
Definition objects_t : Type := gmap ptr rt_semaphore * gmap ptr rt_mutex * gmap ptr rt_event * gmap ptr rt_mailbox *
  gmap ptr rt_messagequeue * gmap ptr rt_mempool * gmap ptr Z * gmap ptr rt_device * heap * Z.

(** The calls of the application's functions among those of a list of timers *)
Definition user_calls (log : list (timeout_fn * Z)) : list (Z * Z) :=
  omap (fun '(f, p) => match f with TF_user g => Some (g, p) | TF_thread_timeout => None end) log.

(** The threads with priority [p] among those that are woken *)
Definition woken_at (s : kstate) (log : list (timeout_fn * Z)) (p : Z) : list ptr :=
  omap (fun '(f, u) => match f with
    | TF_thread_timeout => th ← threads s !! u; if th_current_priority th =? p then Some u else None
    | TF_user _ => None end) log.

Lemma frame_objects s s' : frame s s' -> objects s' = objects s.
Proof. intros []. unfold objects. congruence. Qed.

(** What the application has set up: only thread timers have the timeout function of
    the kernel, and a periodic timer has a positive period. *)
Record timers_set_up (s : kstate) : Prop := {
  su_user : forall p tm, timers s !! TObj p = Some tm -> tm_timeout_func tm <> TF_thread_timeout;
  su_period : forall p tm, timers s !! TObj p = Some tm -> has_flag RT_TIMER_FLAG_PERIODIC tm = true ->
    0 <= tm_flag tm /\ 0 < tm_init_tick tm < HALF_TICK - 1;
  su_nonnull : forall p, in_rows (TObj p) (rt_timer_list s) -> p <> RT_NULL
}.

Lemma wp_and {A} (m : K A) (P Q : A -> kstate -> Prop) s : wp m P s -> wp m Q s -> wp m (fun a s' => P a s' /\ Q a s') s.
Proof. unfold wp. by destruct (m s). Qed.

Lemma last_row_in_rows r s : r ∈ last_row s -> in_rows r (rt_timer_list s).
Proof.
  unfold last_row, in_rows. rewrite list_lookup_total_alt. destruct (_ !! _) as [l|] eqn:E; simpl; [|by intros ?%elem_of_nil].
  intros Hr. apply Exists_exists. exists l. split; [|done]. by eapply list_elem_of_lookup_2.
Qed.

Section tick.
Context (user : Z -> Z -> K unit) (Huser : forall f p, quiet (user f p)).
Context (J : list (Z * Z) -> objects_t -> Prop)
  (HJ : forall f p log s, J log (objects s) -> wp (user f p) (fun _ s' => J (log ++ [(f, p)]) (objects s')) s).
Context (base now : Z) (s0 : kstate).

(** The processor is still with the first thread; the woken threads have left the lists
    on which they waited and stand behind the ready threads of their priority. *)
Record settled (log : list (timeout_fn * Z)) (s : kstate) : Prop := {
  st_lock : rt_scheduler_lock_nest s = rt_scheduler_lock_nest s0;
  st_next : rt_scheduler_lock_nest s0 = 0 -> next_thread s0 (rt_current_thread s0) -> next_thread s (rt_current_thread s);
  st_lists : forall l, (forall p, l <> LReady p) ->
    tlists s !!! l = filter (fun u => (TF_thread_timeout, u) ∉ log) (tlists s0 !!! l);
  st_ready : forall p, ready s p = ready s0 p ++ woken_at s0 log p
}.

(** The threads of [log] have been woken by their timers, and the application's
    functions in it have been called. *)
Definition woken_by (log : list (timeout_fn * Z)) (s : kstate) : Prop :=
  sched_inv ∅ s /\ (forall u, threads s !! u =
    if decide ((TF_thread_timeout, u) ∈ log) then timed_out <$> threads s0 !! u else threads s0 !! u) /\
  settled log s /\ J (user_calls log) (objects s).

Lemma settled_nil : settled [] s0.
Proof.
  split; [done|done| |intros p; by rewrite app_nil_r].
  intros l _. rewrite filter_all; [done|]. apply Forall_true. intros. apply not_elem_of_nil.
Qed.

(** A thread is woken: it leaves its list and the scheduler runs. *)
Lemma settled_woken log t th s s' :
  settled log s -> threads s0 !! t = Some th -> (forall p, t ∉ ready s p) ->
  rt_scheduler_lock_nest s' = rt_scheduler_lock_nest s -> (rt_scheduler_lock_nest s = 0 -> next_thread s' (rt_current_thread s')) -> tlists s' = resumed_lists t th s ->
  settled (log ++ [(TF_thread_timeout, t)]) s'.
Proof.
  intros [S1 S2 S3 S4] E0 Hnr Hl Hn Ht. split; [congruence|intros; apply Hn; congruence|intros l Hr|intros p].
  2: { unfold ready, woken_at in *. rewrite Ht, omap_app, app_assoc, <- S4. unfold resumed_lists, Abs.insert_back. simpl.
    rewrite E0. simpl. destruct (Z.eqb_spec (th_current_priority th) p) as [->|Hne].
    - rewrite lookup_total_insert_eq, Abs.lookup_remove, list_del_not_in; [done|apply Hnr].
    - rewrite lookup_total_insert_ne, Abs.lookup_remove, list_del_not_in, app_nil_r by (congruence || apply Hnr). done. }
  rewrite Ht. unfold resumed_lists, Abs.insert_back. rewrite lookup_total_insert_ne by (by intros <-; apply (Hr (th_current_priority th))).
  rewrite Abs.lookup_remove, S3 by done. unfold list_del. rewrite list_filter_filter.
  apply list_filter_iff. intros u. rewrite elem_of_app, list_elem_of_singleton. naive_solver.
Qed.

Lemma next_thread_eq s s' :
  (forall l, tlists s' !!! l = tlists s !!! l) -> rt_current_thread s' = rt_current_thread s ->
  next_thread s (rt_current_thread s) -> next_thread s' (rt_current_thread s').
Proof.
  intros Hl -> (p & Hp & Hh). assert (forall q, ready s' q = ready s q) as Hr by (intros; apply Hl).
  exists p. rewrite Hr. split; [|done]. destruct Hp as (H1 & H2 & H3). split_and!; [done|by rewrite Hr|].
  intros q Hq. apply H3. by rewrite <- Hr.
Qed.

(** A timeout function of the application changes neither. *)
Lemma settled_user log f p s s' :
  settled log s -> sched_eq s s' -> rt_current_thread s' = rt_current_thread s ->
  rt_scheduler_lock_nest s' = rt_scheduler_lock_nest s -> settled (log ++ [(TF_user f, p)]) s'.
Proof.
  intros [S1 S2 S3 S4] (Hl & _) Hc Hn. split; [congruence|intros; by eapply next_thread_eq; auto|intros l Hr|intros q].
  2: { unfold ready, woken_at in *. by rewrite Hl, S4, omap_app, app_nil_r. }
  rewrite Hl, S3 by done. apply list_filter_iff. intros u. rewrite elem_of_app, list_elem_of_singleton. naive_solver.
Qed.

(** An expired timer with the kernel's timeout function is that of a suspended thread. *)
Definition thread_timers (l : list timer_ref) : Prop :=
  forall r tm, r ∈ l -> timers s0 !! r = Some tm -> tm_timeout_func tm = TF_thread_timeout -> r = TThread (tm_parameter tm).

Lemma elem_of_calls f p l :
  (f, p) ∈ calls s0 l -> exists r tm, r ∈ l /\ timers s0 !! r = Some tm /\ tm_timeout_func tm = f /\ tm_parameter tm = p.
Proof.
  unfold calls. intros (r & Hr & E)%list_elem_of_omap. destruct (timers s0 !! r) as [tm|] eqn:Et; [|done].
  simpl in E. simplify_eq. by exists r, tm.
Qed.

Lemma calls_cons r l :
  calls s0 (r :: l) = match timers s0 !! r with
    | Some tm => (tm_timeout_func tm, tm_parameter tm) :: calls s0 l | None => calls s0 l end.
Proof. unfold calls. simpl. by destruct (timers s0 !! r). Qed.

Lemma called_once log p l :
  NoDup l -> thread_timers l -> (log ++ [(TF_thread_timeout, p)]) `prefix_of` calls s0 l ->
  (TF_thread_timeout, p) ∉ log.
Proof.
  intros Hnd. revert log. induction Hnd as [|r l Hr Hnd IH]; intros log Htt Hpre.
  { apply prefix_nil_inv in Hpre. by destruct log. }
  rewrite calls_cons in Hpre. destruct (timers s0 !! r) as [tm|] eqn:Et.
  2: { apply IH; [|done]. intros r' tm' Hr'. apply Htt. by right. }
  destruct log as [|a log]; [apply not_elem_of_nil|]. simpl in Hpre.
  apply prefix_cons_inv_1 in Hpre as Ea. apply prefix_cons_inv_2 in Hpre.
  rewrite not_elem_of_cons. split; [|apply IH; [|done]; intros r' tm' Hr'; apply Htt; by right].
  intros <-. simplify_eq. assert ((TF_thread_timeout, tm_parameter tm) ∈ calls s0 l) as Hin.
  { destruct Hpre as [k ->]. set_solver. }
  apply elem_of_calls in Hin as (r' & tm' & Hr' & Et' & Ef' & Ep'). apply Hr.
  rewrite (Htt r tm) by (done || left). rewrite <- Ep'. rewrite <- (Htt r' tm'); [done|by right|done|done].
Qed.

(** The calls of the check, one by one *)
Lemma call_woken l log f p s :
  NoDup l -> thread_timers l ->
  (forall u, TThread u ∈ l -> exists th, threads s0 !! u = Some th /\ th_stat th = RT_THREAD_SUSPEND) ->
  (log ++ [(f, p)]) `prefix_of` calls s0 l -> woken_by log s ->
  wp (call_timeout user f p) (fun _ s' => woken_by (log ++ [(f, p)]) s' /\ timers s' = timers s /\
    rt_timer_list s' = rt_timer_list s /\ rt_tick s' = rt_tick s) s.
Proof.
  intros Hnd Htt Hsus Hpre (Hs & Hth & Hset & Hj). destruct f as [|f]; simpl.
  - pose proof (called_once log p l Hnd Htt Hpre) as Hnew.
    assert ((TF_thread_timeout, p) ∈ calls s0 l) as Hin. { destruct Hpre as [k ->]. set_solver. }
    apply elem_of_calls in Hin as (r & tm & Hr & Et & Ef & <-). rewrite (Htt r tm Hr Et Ef) in Hr.
    destruct (Hsus _ Hr) as (th & Eth & Hst).
    assert (threads s !! tm_parameter tm = Some th) as E by (by rewrite Hth, decide_False).
    eapply wp_mono; [by apply (rt_thread_timeout_spec s (tm_parameter tm) th)|].
    intros _ s' (Hs' & Hf & Eth' & Etl & Etm & Erl & Hnx). split_and!; [|done|done|apply Hf].
    split_and!; [done| | |].
    2: { eapply settled_woken; [done|exact Eth| |apply Hf|done|done].
      intros q. change (tm_parameter tm ∉ ready s q). eapply not_ready_list; [done| |done|by rewrite Hst]. apply not_elem_of_empty. }
    2: { unfold user_calls in *. rewrite omap_app, app_nil_r, (frame_objects _ _ Hf). done. }
    intros u. rewrite Eth'. destruct (decide (tm_parameter tm = u)) as [<-|Hne].
    + rewrite lookup_insert_eq, decide_True, Eth; [done|set_solver].
    + rewrite lookup_insert_ne, Hth by done. apply decide_ext. rewrite elem_of_app, list_elem_of_singleton. naive_solver.
  - eapply wp_mono; [apply wp_and; [apply Huser|by apply (HJ f p (user_calls log))]|].
    intros ? s' [(Heq & E1 & E2 & E3 & E4 & E5) Hj']. split_and!; [|done|done|done].
    split_and!; [by apply (sched_inv_eq ∅ s)| |by eapply settled_user|by unfold user_calls; rewrite omap_app]. pose proof Heq as (_ & Eth & _). intros u. rewrite Eth, Hth.
    apply decide_ext. rewrite elem_of_app, list_elem_of_singleton. naive_solver.
Qed.
End tick.

(** The time slice of the running thread after a tick *)
Definition counted (th : rt_thread) : rt_thread :=
  let r := u32 (th_remaining_tick th - 1) in
  set_th_remaining_tick (if r =? 0 then th_init_tick th else r) th.

(** The ready list of priority [p] when the running thread has been charged: at the end of
    its slice the thread goes to the end of its list. *)
Definition turned (s : kstate) (t : ptr) (th : rt_thread) (p : Z) : list ptr :=
  if (u32 (th_remaining_tick th - 1) =? 0) && (p =? th_current_priority th)
  then list_del t (ready s p) ++ [t] else ready s p.

(** What the tick does before it looks at the timers: the running thread is charged, and
    at the end of its slice it goes behind the other threads of its priority. *)
Record charged (s : kstate) (t : ptr) (th : rt_thread) (s' : kstate) : Prop := {
  cg_sched : sched_inv ∅ s';
  cg_tick : rt_tick s' = u32 (rt_tick s + 1);
  cg_threads : threads s' = <[t := counted th]> (threads s);
  cg_timers : timers s' = timers s;
  cg_rows : rt_timer_list s' = rt_timer_list s;
  cg_ready : forall p, ready s' p = turned s t th p;
  cg_objects : objects s' = objects s;
  cg_nest : rt_interrupt_nest s' = rt_interrupt_nest s;
  cg_lock : rt_scheduler_lock_nest s' = rt_scheduler_lock_nest s;
  cg_next : rt_scheduler_lock_nest s = 0 -> next_thread s t -> next_thread s' (rt_current_thread s');
  cg_lists : forall l, (forall p, l <> LReady p) -> tlists s' !!! l = tlists s !!! l
}.

Lemma charge_spec s t th (k : K unit) (Q : unit -> kstate -> Prop) :
  kinv ∅ s -> rt_current_thread s = t -> threads s !! t = Some th -> th_stat th = RT_THREAD_READY ->
  (forall s', charged s t th s' -> wp k Q s') ->
  wp (modify (fun s => set_rt_tick (u32 (rt_tick s + 1)) s);;
      thread ← rt_thread_self;
      upd_thread thread (fun th => set_th_remaining_tick (u32 (th_remaining_tick th - 1)) th);;
      th ← get_thread thread;
      when (th_remaining_tick th =? 0)
        (upd_thread thread (fun th => set_th_remaining_tick (th_init_tick th) th);;
         rt_thread_yield;; mret tt);;
      k) Q s.
Proof.
  intros Hk Hc E Hst HQ. wp_step. wp_step. wp_step. unfold rt_thread_self. wp_step. simpl. rewrite Hc.
  wp_step. eapply wp_upd_thread; [done|]. wp_step. eapply wp_get_thread; [apply lookup_insert_eq|]. wp_step. simpl.
  set (th1 := set_th_remaining_tick (u32 (th_remaining_tick th - 1)) th).
  assert (forall th', same_sched th th' -> sched_inv ∅ (set_threads (<[t := th']> (threads s)) (set_rt_tick (u32 (rt_tick s + 1)) s))) as Hs1.
  { intros th' Hth'. apply (sched_inv_eq ∅ (set_threads (<[t := th']> (threads s)) s)); [done|].
    by eapply ki_sched, kinv_retouch. }
  apply wp_when; intros Hz.
  - wp_step. eapply wp_upd_thread; [apply lookup_insert_eq|]. simpl. kset. wp_step.
    set (th2 := set_th_remaining_tick _ th1). set (s2 := set_threads _ _).
    assert (th2 = counted th) as Eth2. { unfold counted. by rewrite Hz. }
    eapply wp_mono; [apply (rt_thread_yield_sched s2 t th2); [by apply Hs1|done|apply lookup_insert_eq|done]|].
    intros e s3 (_ & Hs3 & Hf & Eth & Etm & Er & Hr). wp_step. apply HQ. split; [done|by rewrite (fr_tick _ _ Hf)| |done|done| |by rewrite (frame_objects _ _ Hf)|apply Hf|apply Hf| |].
    + by rewrite Eth, <- Eth2.
    + intros p. unfold turned. rewrite Hz. simpl. change (ready s p) with (ready s2 p).
      destruct (Z.eqb_spec p (th_current_priority th)) as [->|Hp]; destruct Hr as [[Hr ->]|(Hr & _ & Hoth & _)].
      * change (th_current_priority th2) with (th_current_priority th) in Hr. rewrite Hr. unfold list_del.
        by rewrite filter_cons_False by tauto.
      * exact Hr.
      * done.
      * apply Hoth. intros [= ->]. by apply Hp.
    + intros Hl Hnx. destruct Hr as [[_ ->]|(_ & _ & _ & Hn)]; [|by apply Hn].
      apply (next_thread_eq s); [done|by rewrite Hc|by rewrite Hc].
    + intros l Hl. destruct Hr as [[_ ->]|(_ & _ & Hoth & _)]; [done|]. apply Hoth. apply Hl.
  - apply HQ. split; [by apply Hs1|done|simpl; unfold counted; by rewrite Hz|done|done|intros p; unfold turned; by rewrite Hz|done|done|done| |done].
    intros _ Hnx. apply (next_thread_eq s); [done|by rewrite Hc|by rewrite Hc].
Qed.

(** The timers due at the next tick *)
Definition due (s : kstate) : list timer_ref := expired (rt_tick s) (u32 (rt_tick s + 1)) s.

(** After the tick: the running thread is at the end of its list when its slice is over;
    the threads whose timers were due are ready with the error -RT_ETIMEOUT, behind the
    ready threads of their priority and in the order of their timers; a due timer is
    started again when it is periodic and off when it is not, and every timer that is
    left is later. *)
Record ticked (s : kstate) (t : ptr) (th : rt_thread) (s' : kstate) : Prop := {
  tk_kinv : kinv ∅ s';
  tk_tick : rt_tick s' = u32 (rt_tick s + 1);
  tk_threads : forall u, threads s' !! u =
    if decide (TThread u ∈ due s) then timed_out <$> threads s !! u else <[t := counted th]> (threads s) !! u;
  tk_left : forall r tm, r ∈ last_row s' -> timers s' !! r = Some tm -> 1 < offset (rt_tick s) (tm_timeout_tick tm);
  tk_rows : forall r, r ∈ last_row s' <-> r ∈ last_row s /\
    (r ∉ due s \/ exists tm, timers s !! r = Some tm /\ has_flag RT_TIMER_FLAG_PERIODIC tm = true);
  tk_timers : forall r, r ∉ due s -> timers s' !! r = timers s !! r;
  tk_fired : forall r tm, r ∈ due s -> timers s !! r = Some tm -> timers s' !! r = Some (fired (u32 (rt_tick s + 1)) tm);
  tk_ready : forall p, ready s' p = turned s t th p ++ woken_at s (calls s (due s)) p;
  tk_lock : rt_scheduler_lock_nest s' = rt_scheduler_lock_nest s;
  tk_next : rt_scheduler_lock_nest s = 0 -> next_thread s t -> next_thread s' (rt_current_thread s');
  tk_lists : forall l, (forall p, l <> LReady p) ->
    tlists s' !!! l = filter (fun u => TThread u ∉ due s) (tlists s !!! l)
}.

Lemma next_offset_one tick : offset tick (u32 (tick + 1)) = 1.
Proof. by apply offset_add. Qed.

Lemma next_offset_add tick i :
  0 <= i < HALF_TICK - 1 -> offset tick (u32 (u32 (tick + 1) + i)) = 1 + i.
Proof.
  change HALF_TICK with 2147483647. intros Hi. unfold offset, uwrap.
  rewrite Zplus_mod_idemp_l, Zminus_mod_idemp_l. replace (tick + 1 + i - tick) with (1 + i) by lia.
  apply Z.mod_small. lia.
Qed.

Section tick2.
Context (user : Z -> Z -> K unit) (Huser : forall f p, quiet (user f p)).
Context (J : list (Z * Z) -> objects_t -> Prop)
  (HJ : forall f p log s, J log (objects s) -> wp (user f p) (fun _ s' => J (log ++ [(f, p)]) (objects s')) s).
Context (s : kstate) (t : ptr) (th : rt_thread).
Context (Hk : kinv ∅ s) (Hc : rt_current_thread s = t) (E : threads s !! t = Some th) (Hst : th_stat th = RT_THREAD_READY).
Context (Hset : timers_set_up s).

Lemma due_threads u : TThread u ∈ last_row s -> exists th', threads s !! u = Some th' /\ th_stat th' = RT_THREAD_SUSPEND.
Proof. apply (ki_wait _ _ Hk). Qed.

Lemma due_thread_timers l : (forall r, r ∈ l -> r ∈ last_row s) -> thread_timers s l.
Proof.
  intros Hl r tm Hr Etm Ef. destruct r as [u|p]; [|by destruct (su_user _ Hset p tm Etm)].
  destruct (due_threads u (Hl _ Hr)) as (th' & Eth & _). destruct (ki_tt _ _ Hk u) as (tm' & Etm' & _ & Hp & _); [eauto|].
  by simplify_eq.
Qed.

Lemma due_in_row r : r ∈ due s -> r ∈ last_row s.
Proof. unfold due, expired, upto. by intros [_ ?]%list_elem_of_filter. Qed.

(** A thread is among the calls when its timer is due. *)
Lemma calls_due u : (TF_thread_timeout, u) ∈ calls s (due s) <-> TThread u ∈ due s.
Proof.
  split.
  - intros (r & tm & Hr & Etm & Ef & <-)%elem_of_calls.
    by rewrite <- (due_thread_timers (due s) due_in_row r tm Hr Etm Ef).
  - intros Hr. pose proof (due_in_row _ Hr) as Hrow. destruct (due_threads u Hrow) as (th' & Eth & _).
    destruct (ki_tt _ _ Hk u) as (tm & Etm & Ef & Hp & _); [eauto|]. unfold calls. apply list_elem_of_omap.
    exists (TThread u). split; [done|]. rewrite Etm. simpl. by rewrite Ef, Hp.
Qed.
(** The running thread is not due. *)
Lemma running_not_due : TThread t ∉ due s.
Proof.
  intros Hr. destruct (due_threads t (due_in_row _ Hr)) as (th' & E' & Hs). rewrite E in E'. simplify_eq.
  by rewrite Hst in Hs.
Qed.

(** The timer of a thread after the check *)
Lemma tick_thread_timer u tm' :
  is_Some (threads s !! u) ->
  (TThread u ∉ due s -> timers s !! TThread u = Some tm') ->
  (forall tm, TThread u ∈ due s -> timers s !! TThread u = Some tm -> rearmed tm = false ->
     tm' = clear_flag RT_TIMER_FLAG_ACTIVATED tm) -> thread_timer_ok u tm'.
Proof.
  intros Hu Hn Hd. destruct (ki_tt _ _ Hk u Hu) as (tm & Etm & F1 & F2 & F3 & F4).
  destruct (decide (TThread u ∈ due s)) as [Hin|Hni].
  - rewrite (Hd tm Hin Etm F4). split_and!; [done|done| |].
    + unfold clear_flag, tm_flag in *. simpl. apply Z.land_nonneg. by left.
    + unfold has_flag, clear_flag, tm_flag in *. simpl. rewrite <- Z.land_assoc, (Z.land_comm (Z.lnot _)), Z.land_assoc.
      apply negb_false_iff, Z.eqb_eq in F4. by rewrite F4.
  - specialize (Hn Hni). rewrite Etm in Hn. by simplify_eq.
Qed.

Lemma charged_due sA : charged s t th sA -> expired (rt_tick s) (u32 (rt_tick s + 1)) sA = due s.
Proof.
  intros [_ _ _ G4 G5 _ _ _ _ _ _]. unfold due, expired. rewrite (last_row_eq s sA G5). apply upto_ext.
  intros x _. unfold timer_off. by rewrite G4.
Qed.

Lemma charged_calls sA l : charged s t th sA -> calls sA l = calls s l.
Proof. intros [_ _ _ G4 _ _ _ _ _ _ _]. unfold calls. by rewrite G4. Qed.

(** The state behind the check *)
Lemma checked_ticked sA D s' :
  charged s t th sA -> checking (rt_tick s) (u32 (rt_tick s + 1)) D (woken_by J sA) sA (due s) s' ->
  ticked s t th s' /\ J (user_calls (calls s (due s))) (objects s').
Proof.
  intros Hcg Hch. pose proof Hcg as [G1 G2 G3 G4 G5 G9 _ _ G6 G7 G8].
  pose proof Hch as [C1 C2 (C3 & C3' & [S1 S2 S3 S4] & Hj) C4 C5 C6 C7].
  destruct (checked_inv (rt_tick s) (u32 (rt_tick s + 1)) D (woken_by J sA) sA s') as [HD' Hleft].
  { by rewrite next_offset_one. } { by rewrite (charged_due sA). }
  assert (forall u, threads s' !! u = if decide (TThread u ∈ due s) then timed_out <$> threads s !! u
    else <[t := counted th]> (threads s) !! u) as Hth.
  { intros u. rewrite C3', (charged_calls sA), G3 by done. rewrite (decide_ext _ _ _ _ (calls_due u)).
    case_decide as Hu; [|done]. by rewrite lookup_insert_ne by (intros <-; by apply running_not_due). }
  assert (forall r, r ∈ last_row s' <-> r ∈ last_row s /\
    (r ∉ due s \/ exists tm, timers s !! r = Some tm /\ has_flag RT_TIMER_FLAG_PERIODIC tm = true)) as Hrows.
  { intros r. rewrite C7, (last_row_eq s sA G5), G4. done. }
  rewrite (charged_calls sA) in Hj by done. split; [|done].
  split; [|done|done| |done|intros; by rewrite <- G4, <- C5|intros; apply C6; [done|by rewrite G4]| |congruence|intros; apply S2; [congruence|by apply G7]|].
  - split; [done|exists D; by rewrite C2| |].
    + intros u Hu. assert (is_Some (threads s !! u)) as Hu0.
      { rewrite Hth in Hu. case_decide; [by apply fmap_is_Some in Hu|].
        destruct (decide (t = u)) as [<-|]; [eauto|by rewrite lookup_insert_ne in Hu]. }
      destruct (ki_tt _ _ Hk u Hu0) as (tm & Etm & F1 & F2 & F3 & F4).
      assert (exists tm', timers s' !! TThread u = Some tm') as [tm' Etm'].
      { destruct (decide (TThread u ∈ due s)); [rewrite (C6 _ tm); [eauto|done|by rewrite G4]|].
        rewrite C5 by done. rewrite G4. eauto. }
      exists tm'. split; [done|]. apply tick_thread_timer; [done|intros; by rewrite <- G4, <- C5|].
      intros tm0 Hd Etm0 Hr0. rewrite <- G4 in Etm0. rewrite (C6 _ tm0 Hd Etm0) in Etm'. unfold fired in Etm'. rewrite Hr0 in Etm'. congruence.
    + intros u [Hu Hd]%Hrows. destruct (due_threads u Hu) as (thu & Eu & Hsu).
      destruct (ki_tt _ _ Hk u) as (tm & Etm & _ & _ & _ & Hper); [eauto|].
      assert (TThread u ∉ due s) as Hnd by (destruct Hd as [|(tm' & Etm' & Hp')]; [done|congruence]).
      rewrite Hth, decide_False by done. exists thu. rewrite lookup_insert_ne; [done|]. intros <-.
      rewrite E in Eu. simplify_eq. by rewrite Hst in Hsu.
  - intros r tm Hr Er. specialize (Hleft r tm Hr Er). by rewrite next_offset_one in Hleft.
  - intros p. rewrite S4, G9, (charged_calls sA) by done. f_equal. unfold woken_at. apply list_omap_ext, Forall_Forall2_diag, Forall_forall.
    intros [f u] Hfu. destruct f as [|f]; [|done]. rewrite G3, lookup_insert_ne; [done|].
    intros <-. by apply running_not_due, calls_due.
  - intros l Hl. rewrite S3, G8 by done. apply list_filter_iff. intros u. by rewrite (charged_calls sA), calls_due.
Qed.

(** The check that follows, from the state in which the running thread is charged *)
Lemma tick_check sA fuel :
  charged s t th sA -> J [] (objects s) -> (length (due s) < fuel)%nat ->
  wp (rt_timer_check (call_timeout user) (S fuel))
    (fun _ s' => ticked s t th s' /\ J (user_calls (calls s (due s))) (objects s')) sA.
Proof.
  intros Hcg HJ0 Hfuel. pose proof Hcg as [G1 G2 G3 G4 G5 _ G6 _ _ _ _]. destruct (ki_timer _ _ Hk) as [D HD].
  assert (timer_inv (rt_tick s) D sA) as HDA by (by apply (timer_inv_eq (rt_tick s) D s)).
  pose proof (charged_due sA Hcg) as Edue. eapply wp_mono.
  { apply (rt_timer_check_spec (call_timeout user) (rt_tick s) (u32 (rt_tick s + 1)) D (woken_by J sA) sA).
    - intros log f p s1 Hpre HP. apply (call_woken user Huser J HJ sA (due s)); [| | |by rewrite Edue in Hpre|done].
      + rewrite <- Edue. by eapply expired_nodup.
      + intros r tm Hr. rewrite G4. by apply (due_thread_timers (due s) due_in_row).
      + intros u Hu. rewrite G3, lookup_insert_ne by (intros <-; by apply running_not_due). apply due_threads, due_in_row, Hu.
    - intros log s1 s2 Hrt (W1 & W2 & [S1 S2 S3 S4] & Hj). rewrite Hrt.
      split_and!; [by apply (sched_inv_eq ∅ s1)|done|split; [done|intros; by eapply next_thread_eq; [..|apply S2]|done|done]|done].
    - by rewrite next_offset_one.
    - intros r tm. rewrite G4, (last_row_eq s sA G5). intros Hr Etm Hp. destruct r as [u|p].
      { destruct (due_threads u Hr) as (thu & Eu & _). destruct (ki_tt _ _ Hk u) as (tm' & Etm' & _ & _ & _ & Hp'); [eauto|].
        unfold rearmed in Hp. congruence. }
      destruct (su_period _ Hset p tm Etm Hp) as [Hf Hi].
      rewrite next_offset_one, next_offset_add by lia. change HALF_TICK with 2147483647 in *. lia.
    - intros r. rewrite (last_row_eq s sA G5). intros Hr. destruct r as [u|p].
      + apply timer_nonnull_thread. destruct (due_threads u Hr) as (thu & Eu & _). by eapply ok_nonnull, kinv_thread.
      + apply negb_true_iff, Z.eqb_neq. apply (su_nonnull _ Hset), last_row_in_rows, Hr.
    - done.
    - done.
    - split_and!; [done|intros u; by rewrite decide_False by apply not_elem_of_nil|apply settled_nil|by rewrite G6].
    - by rewrite Edue. }
  intros ? s' Hch. simpl in Hch. rewrite Edue in Hch. by eapply checked_ticked.
Qed.

Lemma rt_tick_increase_spec fuel :
  J [] (objects s) -> (length (due s) < fuel)%nat ->
  wp (rt_tick_increase user (S fuel))
    (fun _ s' => ticked s t th s' /\ J (user_calls (calls s (due s))) (objects s')) s.
Proof.
  intros HJ0 Hfuel. unfold rt_tick_increase. eapply (charge_spec s t th); [done|done|done|done|].
  intros sA Hcg. by apply tick_check.
Qed.
End tick2.

(** ** The idle thread *)

(** A dead thread leaves the defunct list. *)
Lemma bury_kinv s t th :
  kinv ∅ s -> threads s !! t = Some th -> th_stat th = RT_THREAD_CLOSE ->
  kinv ∅ (set_tlists (Abs.remove t (tlists s)) s).
Proof.
  intros Hk E Hst. destruct (kinv_thread _ _ _ _ Hk (not_elem_of_empty t) E) as [C1 C2 C3 C4 C5 C6 C7].
  eapply (kinv_readmit ∅ _ t th); [|done|].
  - eapply kinv_step; [exact Hk|apply unwait_inv; [apply Hk|]|done|done|done|done|eauto].
    intros p Hin. destruct (C6 (LReady p) Hin) as [Hr _]. by rewrite Hst in Hr.
  - split; [done|done|done|done|done| |by rewrite Hst]. intros l Hin. simpl in Hin.
    rewrite Abs.lookup_remove in Hin. by apply elem_of_list_del in Hin as [? _].
Qed.

(** Its memory is given back. *)
Definition forgotten (t : ptr) (s : kstate) : kstate :=
  set_timers (delete (TThread t) (timers s)) (set_threads (delete t (threads s)) s).

Lemma forget_kinv s t th :
  kinv ∅ s -> threads s !! t = Some th -> th_stat th = RT_THREAD_CLOSE -> ~ Abs.linked t (tlists s) ->
  kinv ∅ (forgotten t s).
Proof.
  intros [[Hwf Hbm Hex Hth] [D HD] Htt Hw] E Hst Hl.
  assert (TThread t ∉ last_row s) as Hn.
  { intros Hin. destruct (Hw t Hin) as (th' & E' & Hs). rewrite E in E'. simplify_eq. by rewrite Hst in Hs. }
  assert (forall u, u <> t -> threads (forgotten t s) !! u = threads s !! u) as Hother
    by (intros u Hu; by apply lookup_delete_ne).
  split.
  - split; [done|by apply (bitmap_ok_ext s)| |].
    + intros l u Hin. rewrite Hother; [by eapply Hex|]. intros ->. apply Hl, Abs.linked_spec. eauto.
    + intros u thu HX Eu. apply (thread_ok_ext s); [done|]. apply Hth; [done|]. simpl in Eu.
      by apply lookup_delete_Some in Eu as [_ ?].
  - exists D. by apply (timer_inv_forget (rt_tick s) D s (TThread t)).
  - intros u Hu. simpl in Hu. destruct (decide (u = t)) as [->|Hne]; [rewrite lookup_delete_eq in Hu; by destruct Hu|].
    rewrite lookup_delete_ne in Hu by done. destruct (Htt u Hu) as (tm & Etm & Hok). exists tm.
    split; [|done]. simpl. rewrite lookup_delete_ne; congruence.
  - intros u Hu. change (TThread u ∈ last_row s) in Hu. destruct (Hw u Hu) as (thu & Eu & Hs). exists thu.
    split; [|done]. rewrite Hother; [done|]. by intros ->.
Qed.

Section idle.
Context (cleanup : ptr -> ptr -> K unit) (s0 : kstate).

(** A dead thread that was created dynamically and has no cleanup function *)
Definition dynamic_dead (t : ptr) : Prop :=
  exists th, threads s0 !! t = Some th /\ is_static th = false /\ th_cleanup th = RT_NULL.

(** [gone] have been removed, [rest] are still on the defunct list. *)
Record burying (gone rest : list ptr) (s : kstate) : Prop := {
  by_kinv : kinv ∅ s;
  by_nest : rt_interrupt_nest s = 0;
  by_split : tlists s0 !!! LDefunct = gone ++ rest;
  by_rest : tlists s !!! LDefunct = rest;
  by_other : forall l, l <> LDefunct -> tlists s !!! l = tlists s0 !!! l;
  by_threads : forall u, threads s !! u = if decide (u ∈ gone) then None else threads s0 !! u
}.

(** The thread on top of the defunct list: closed and on no other list *)
Lemma defunct_first gone t rest s :
  kinv ∅ s0 -> burying gone (t :: rest) s ->
  exists th, threads s !! t = Some th /\ threads s0 !! t = Some th /\ th_stat th = RT_THREAD_CLOSE /\ t <> RT_NULL /\
    t ∉ gone /\ NoDup (t :: rest).
Proof.
  intros Hk0 [B1 B2 B3 B4 B5 B6].
  assert (NoDup (gone ++ t :: rest)) as Hnd by (rewrite <- B3; apply Hk0).
  apply NoDup_app in Hnd as (_ & Hdj & Hnd).
  assert (t ∉ gone) as Hng by (intros Hin; apply (Hdj _ Hin); set_solver).
  assert (t ∈ tlists s !!! LDefunct) as Hin by (rewrite B4; set_solver).
  destruct (si_exist _ _ (ki_sched _ _ B1) _ _ Hin) as [th E]. exists th.
  destruct (kinv_thread _ _ _ _ B1 (not_elem_of_empty t) E) as [C1 _ _ _ _ C6 _].
  split_and!; [done| |by apply C6 in Hin|done|done|done]. rewrite B6, decide_False in E by done. done.
Qed.

(** A thread that left the defunct list is on no other list either. *)
Lemma bury_unlinked gone t rest s :
  burying gone (t :: rest) s -> forall l, l <> LDefunct -> list_del t (tlists s !!! l) = tlists s !!! l.
Proof.
  intros Hb l Hl. apply list_del_not_in. intros Hin. apply Hl.
  eapply (Abs.wf_disj _ (si_wf _ _ (ki_sched _ _ (by_kinv _ _ _ Hb)))); [exact Hin|].
  rewrite (by_rest _ _ _ Hb). set_solver.
Qed.

Lemma idle_round_dynamic gone t rest s :
  kinv ∅ s0 -> burying gone (t :: rest) s -> dynamic_dead t ->
  wp (idle_round cleanup) (fun stop s' => stop = false /\ burying (gone ++ [t]) rest s') s.
Proof.
  intros Hk0 Hb (th & E0 & Hdyn & Hcl). destruct (defunct_first _ _ _ _ Hk0 Hb) as (th' & E & E0' & Hst & Hnn & Hng & Hnd).
  simplify_eq. pose proof (bury_unlinked _ _ _ _ Hb) as Hun. destruct Hb as [B1 B2 B3 B4 B5 B6].
  unfold idle_round, RT_DEBUG_NOT_IN_INTERRUPT, _has_defunct_thread, tlist_isempty, tlist_remove, upd_tlists.
  repeat wp_step. { by rewrite B2. }
  repeat wp_step. rewrite bool_decide_eq_false_2 by (by rewrite B4). simpl.
  wp_step. eapply wp_tlist_first; [by rewrite B4|]. repeat wp_step.
  eapply wp_get_thread; [exact E|]. rewrite Hcl. simpl. repeat wp_step.
  unfold rt_object_is_systemobject, get_obj. repeat wp_step; [simpl; lia|simpl; by rewrite E|].
  repeat wp_step. change (negb (Z.land (obj_type (th_parent th)) RT_Object_Class_Static =? 0)) with (is_static th).
  rewrite Hdyn. wp_step. eapply wp_get_thread; [exact E|]. unfold kfree, rt_object_delete, olist_remove, get_obj.
  repeat wp_step; [simpl; lia|simpl; by rewrite E| |].
  { unfold is_static in Hdyn. apply negb_false_iff in Hdyn. exact Hdyn. }
  repeat wp_step. split; [done|].
  assert (kinv ∅ (set_tlists (Abs.remove t (tlists s)) s)) as Hk1 by (by eapply bury_kinv).
  assert (kinv ∅ (forgotten t (set_tlists (Abs.remove t (tlists s)) s))) as Hk2
    by (eapply forget_kinv; [done|exact E|done|apply not_linked_removed]).
  split.
  - eapply kinv_eq; [| | | |exact Hk2]; done.
  - done.
  - by rewrite <- app_assoc.
  - simpl. rewrite Abs.lookup_remove, B4. by apply list_del_head.
  - intros l Hl. simpl. rewrite Abs.lookup_remove, Hun by done. by apply B5.
  - intros u. simpl. destruct (decide (u = t)) as [->|Hne].
    + rewrite lookup_delete_eq. rewrite decide_True; [done|set_solver].
    + rewrite lookup_delete_ne, B6 by done. repeat case_decide; set_solver.
Qed.

Lemma rt_thread_idle_excute_spec :
  kinv ∅ s0 -> rt_interrupt_nest s0 = 0 -> Forall dynamic_dead (tlists s0 !!! LDefunct) ->
  wp (rt_thread_idle_excute cleanup (S (length (tlists s0 !!! LDefunct))))
     (fun _ s' => burying (tlists s0 !!! LDefunct) [] s') s0.
Proof.
  intros Hk Hn Hdyn. unfold rt_thread_idle_excute. wp_step.
  apply (wp_while (fun stop s => stop = false /\ exists gone rest, burying gone rest s)
    (fun _ s => length (tlists s !!! LDefunct))).
  - split; [done|]. exists [], (tlists s0 !!! LDefunct). split; try done.
  - lia.
  - intros stop s [-> (gone & rest & Hb)]. unfold _has_defunct_thread, tlist_isempty. repeat wp_step.
    rewrite (by_rest _ _ _ Hb). destruct rest as [|t rest]; simpl.
    + wp_step. rewrite (by_split _ _ _ Hb), app_nil_r. done.
    + assert (dynamic_dead t) as Ht.
      { rewrite Forall_forall in Hdyn. apply Hdyn. rewrite (by_split _ _ _ Hb). set_solver. }
      eapply wp_mono; [by eapply (idle_round_dynamic gone t rest)|]. intros stop' s' [-> Hb']. split; [split; [done|eauto]|].
      rewrite (by_rest _ _ _ Hb'). simpl. lia.
Qed.

(** A static thread on top: it leaves the list, and the function returns. *)
Lemma rt_thread_idle_excute_static t rest th fuel :
  kinv ∅ s0 -> rt_interrupt_nest s0 = 0 -> tlists s0 !!! LDefunct = t :: rest -> threads s0 !! t = Some th ->
  is_static th = true -> (forall s, cleanup (th_cleanup th) t s = Ok tt s) ->
  rt_thread_idle_excute cleanup (S (S fuel)) s0 = Ok tt (set_tlists (Abs.remove t (tlists s0)) s0).
Proof.
  intros Hk Hn El E Hs Hcl.
  assert (t <> RT_NULL) as Hnn by (by eapply ok_nonnull, kinv_thread).
  assert (wp (idle_round cleanup) (fun stop s' => stop = true /\ s' = set_tlists (Abs.remove t (tlists s0)) s0) s0) as Hr.
  { unfold idle_round, RT_DEBUG_NOT_IN_INTERRUPT, _has_defunct_thread, tlist_isempty, tlist_remove, upd_tlists.
    repeat wp_step. { by rewrite Hn. }
    repeat wp_step. rewrite bool_decide_eq_false_2 by (by rewrite El). simpl.
    wp_step. eapply wp_tlist_first; [by rewrite El|]. repeat wp_step.
    eapply wp_get_thread; [exact E|]. wp_step.
    apply (ok_wp _ _ _ tt (set_tlists (Abs.remove t (tlists s0)) s0));
      [unfold when; destruct (negb _); [apply Hcl|done]|].
    unfold rt_object_is_systemobject, get_obj. repeat wp_step; [simpl; lia|simpl; by rewrite E|].
    repeat wp_step. change (negb (Z.land (obj_type (th_parent th)) RT_Object_Class_Static =? 0)) with (is_static th).
    rewrite Hs. by wp_step. }
  destruct (wp_ok _ _ _ Hr) as (stop & s' & Er & -> & ->).
  unfold rt_thread_idle_excute. erewrite run_bind; [reflexivity|]. cbn [while].
  unfold _has_defunct_thread, tlist_isempty, gets, mbind, M_bind, mret, M_ret.
  rewrite El. rewrite bool_decide_eq_false_2 by done. simpl. by rewrite Er.
Qed.
End idle.

(** ** Milliseconds *)

(** [rt_tick_from_millisecond] rounds up: the ticks it gives last at least [ms]
    milliseconds and one tick less does not, as long as the product fits 32 bits. *)
Theorem rt_tick_from_millisecond_correct ms :
  0 <= ms -> 0 < RT_TICK_PER_SECOND -> RT_TICK_PER_SECOND * ms + 999 < 2 ^ 32 ->
  let t := rt_tick_from_millisecond ms in
  RT_TICK_PER_SECOND * ms <= 1000 * t /\ 1000 * (t - 1) < RT_TICK_PER_SECOND * ms.
Proof.
  intros Hms Hp Hr t. unfold t, rt_tick_from_millisecond. rewrite uwrap_small by nia.
  pose proof (Z.div_mod (RT_TICK_PER_SECOND * ms + 999) 1000 ltac:(lia)).
  pose proof (Z.mod_pos_bound (RT_TICK_PER_SECOND * ms + 999) 1000 ltac:(lia)). lia.
Qed.

(** ** Properties *)

(** C4: a tick returns and keeps the kernel invariant: the running thread is charged one
    tick of its slice, and at the end of the slice it gets a new one and goes behind the
    other ready threads of its priority; exactly the timers due at the new tick fire:
    each thread that waits on one becomes ready with the error -RT_ETIMEOUT, behind the
    ready threads of its priority and in the order of the timers, and the timeout
    functions of the application are called for the others, with their parameters and in
    this order ([J] is whatever the functions record of their calls); a periodic timer
    starts again, another one is off; no other thread, list or timer changes, and every
    timer left on the list is later than the new tick.  The timeout functions of the
    application work on other objects: they leave threads, timers and the scheduler
    alone. *)
Theorem rt_tick_increase_correct user (J : list (Z * Z) -> objects_t -> Prop) s t th fuel :
  (forall f p, quiet (user f p)) ->
  (forall f p log s1, J log (objects s1) -> wp (user f p) (fun _ s2 => J (log ++ [(f, p)]) (objects s2)) s1) ->
  J [] (objects s) -> kinv ∅ s -> rt_current_thread s = t -> threads s !! t = Some th ->
  th_stat th = RT_THREAD_READY -> timers_set_up s -> (length (due s) < fuel)%nat ->
  exists s', rt_tick_increase user (S fuel) s = Ok tt s' /\ ticked s t th s' /\
    J (user_calls (calls s (due s))) (objects s').
Proof.
  intros Hu HJ HJ0 Hk Hc E Hst Hset Hf.
  destruct (wp_ok _ _ _ (rt_tick_increase_spec user Hu J HJ s t th Hk Hc E Hst Hset fuel HJ0 Hf)) as ([] & s' & Er & Ht). eauto.
Qed.

(** the idle thread frees what has ended: when every thread on the defunct list was
    created dynamically and has no cleanup function, one call of
    [rt_thread_idle_excute] empties the list, removes exactly these threads and keeps
    the kernel invariant and every other thread and list. *)
Theorem rt_thread_idle_excute_correct cleanup s :
  kinv ∅ s -> rt_interrupt_nest s = 0 -> Forall (dynamic_dead s) (tlists s !!! LDefunct) ->
  exists s', rt_thread_idle_excute cleanup (S (length (tlists s !!! LDefunct))) s = Ok tt s' /\ kinv ∅ s' /\
    tlists s' !!! LDefunct = [] /\ (forall l, l <> LDefunct -> tlists s' !!! l = tlists s !!! l) /\
    forall u, threads s' !! u = if decide (u ∈ tlists s !!! LDefunct) then None else threads s !! u.
Proof.
  intros Hk Hn Hd. destruct (wp_ok _ _ _ (rt_thread_idle_excute_spec cleanup s Hk Hn Hd)) as ([] & s' & Er & [B1 B2 B3 B4 B5 B6]).
  exists s'. by split_and!.
Qed.

(** one call of [rt_thread_idle_excute] does not do all the cleanups: a static thread
    on top of the defunct list (its cleanup function, if any, leaving the kernel alone)
    ends the function, and the threads behind it stay on the list. *)
Theorem idle_stops_at_static_thread cleanup s t u rest th fuel :
  kinv ∅ s -> rt_interrupt_nest s = 0 -> tlists s !!! LDefunct = t :: u :: rest -> threads s !! t = Some th ->
  is_static th = true -> (forall x, cleanup (th_cleanup th) t x = Ok tt x) ->
  exists s', rt_thread_idle_excute cleanup (S (S fuel)) s = Ok tt s' /\ tlists s' !!! LDefunct = u :: rest /\
    threads s' = threads s.
Proof.
  intros Hk Hn El E Hs Hc. eexists. split; [by eapply rt_thread_idle_excute_static|]. simpl.
  rewrite Abs.lookup_remove, El. split; [|done]. apply list_del_head. rewrite <- El. apply Hk.
Qed.

End clock.
