(* ===== verification/Background.v ===== *)
(** * What a call changes in the background

    Relations between the states before and after a call that every function of the
    scheduler, the timers, the threads and the semaphores keeps, proved by walking through
    the functions: the objects a call has nothing to do with and the way the
    application's timers are set up ([background]), and, for the services a timeout
    function may call, that no timer is started ([shrinks]). *)
From stdpp Require Import base tactics numbers list gmap.
From S2P Require Import Prelude RtList Kernel Scheduler Object Timer Thread Ipc Semaphore Clock.
Local Open Scope Z_scope.

Section relations.
Context `{KConfig} `{Allocator}.

(** ** What the kernel does in the background *)

(** What the application has set up in a timer *)
Definition cfg (tm : rt_timer) : timeout_fn * Z * Z * bool * bool :=
  (tm_timeout_func tm, tm_parameter tm, tm_init_tick tm, has_flag RT_TIMER_FLAG_PERIODIC tm, 0 <=? tm_flag tm).

(** The scheduler, the clock and the thread functions leave the other objects and the
    application's timers as they were set up; the semaphore functions ([strict] is
    false) change semaphores. *)
Record background (strict : bool) (s s' : kstate) : Prop := {
  bg_sems : strict = true -> sems s' = sems s;
  bg_mutexes : mutexes s' = mutexes s;
  bg_events : events s' = events s;
  bg_mailboxes : mailboxes s' = mailboxes s;
  bg_mqs : mqs s' = mqs s;
  bg_mempools : mempools s' = mempools s;
  bg_heap : kheap s' = kheap s;
  bg_nest : rt_interrupt_nest s' = rt_interrupt_nest s;
  bg_timers : forall p, cfg <$> timers s' !! TObj p = cfg <$> timers s !! TObj p;
  bg_rows : forall p, in_rows (TObj p) (rt_timer_list s') -> in_rows (TObj p) (rt_timer_list s) \/ p <> RT_NULL
}.

#[global] Instance background_preorder strict : PreOrder (background strict).
Proof.
  split.
  - intros s. split; auto.
  - intros s1 s2 s3 [] []. split; try congruence.
    + intros Hs. etransitivity; [by auto|by auto].
    + naive_solver.
Qed.

(** Only threads, their lists and the choice of the running thread change. *)
Record sched_only (s s' : kstate) : Prop := {
  so_frame : frame s s';
  so_timers : timers s' = timers s;
  so_rows : rt_timer_list s' = rt_timer_list s
}.

#[global] Instance sched_only_preorder : PreOrder sched_only.
Proof. split; [done|]. intros s1 s2 s3 [] []. split; [by etrans|congruence..]. Qed.

#[global] Instance sched_only_background strict : subrelation sched_only (background strict).
Proof. intros s s' [[] Et Er]. split; try congruence; try done; intros p; rewrite ?Et, ?Er; auto. Qed.

(** No timer is started: those on the list were there and have kept their timeouts. *)
Record shrinks (s s' : kstate) : Prop := {
  sh_nest : rt_interrupt_nest s' = rt_interrupt_nest s;
  sh_rows : forall r, r ∈ last_row s' -> r ∈ last_row s;
  sh_timers : forall r, tm_timeout_tick <$> timers s' !! r = tm_timeout_tick <$> timers s !! r
}.

#[global] Instance shrinks_preorder : PreOrder shrinks.
Proof. split; [done|]. intros s1 s2 s3 [] []. split; [congruence|auto|]. intros r. etransitivity; eauto. Qed.

#[global] Instance sched_only_shrinks : subrelation sched_only shrinks.
Proof. intros s s' [[] Et Er]. split; [done| |by rewrite Et]. intros r. by rewrite (last_row_eq _ _ Er). Qed.
End relations.

Section keeps.
Context `{KConfig} `{Allocator} (R : kstate -> kstate -> Prop) `{!PreOrder R}.

Definition keeps {A} (m : K A) : Prop := forall s a s', m s = Ok a s' -> R s s'.

Lemma keeps_ret {A} (a : A) : keeps (mret a).
Proof. intros s a' s' [= <- <-]. reflexivity. Qed.

Lemma keep_bind {A B} (m : K A) (k : A -> K B) : keeps m -> (forall a, keeps (k a)) -> keeps (m ≫= k).
Proof.
  intros Hm Hk s b s' E. unfold mbind, M_bind in E. destruct (m s) as [a s1|f] eqn:Em; [|done].
  etransitivity; [by eapply Hm|by eapply Hk].
Qed.

Lemma keeps_get : keeps get.
Proof. intros s a s' [= <- <-]. reflexivity. Qed.

Lemma keeps_gets {A} (f : kstate -> A) : keeps (gets f).
Proof. intros s a s' [= <- <-]. reflexivity. Qed.

Lemma keeps_modify f : (forall s, R s (f s)) -> keeps (modify f).
Proof using. intros Hf s a s' [= <- <-]. apply Hf. Qed.

Lemma keeps_throw {A} f : keeps (throw (A := A) f).
Proof using. by intros s a s' ?. Qed.

Lemma keeps_assert b : keeps (RT_ASSERT b).
Proof. destruct b; [apply keeps_ret|apply keeps_throw]. Qed.

Lemma keeps_opt {A} f (o : option A) : keeps (opt f o).
Proof. destruct o; [apply keeps_ret|apply keeps_throw]. Qed.

Lemma keeps_if {A} (b : bool) (m n : K A) : keeps m -> keeps n -> keeps (if b then m else n).
Proof using. by destruct b. Qed.

Lemma keeps_decide {A} P `{Decision P} (m n : K A) : keeps m -> keeps n -> keeps (if decide P then m else n).
Proof using. by destruct (decide P). Qed.

Lemma keeps_when b m : keeps m -> keeps (when b m).
Proof. intros Hm. destruct b; [done|apply keeps_ret]. Qed.

End keeps.

Create HintDb keeps discriminated.
#[export] Hint Resolve keeps_ret keeps_get keeps_gets keeps_throw keeps_assert keeps_opt : keeps.
#[export] Hint Extern 0 (PreOrder _) => typeclasses eauto : keeps.

(** One step through a computation *)
Ltac keep :=
  repeat first
    [ progress auto with keeps
    | match goal with
      | |- keeps _ (_ ≫= _) => apply keep_bind; [apply _| |intros ?]
      | |- keeps _ (when _ _) => apply keeps_when; [apply _|]
      | |- keeps _ (if decide _ then _ else _) => apply keeps_decide
      | |- keeps _ (if _ then _ else _) => apply keeps_if
      | |- keeps _ (match ?x with _ => _ end) => destruct x
      | |- keeps _ (modify _) => apply keeps_modify; intros ?; split; solve [done | simpl; auto]
      end ].

(** ** The scheduler *)

Section sched_keeps.
Context `{KConfig} `{Allocator}.

Lemma keeps_sched (R : kstate -> kstate -> Prop) `{!subrelation sched_only R} {A} (m : K A) :
  keeps sched_only m -> keeps R m.
Proof. intros Hm s a s' E. by apply subrelation0, (Hm s a s'). Qed.

Lemma sched_get_thread t : keeps sched_only (get_thread t).
Proof. unfold get_thread. keep. Qed.
Lemma sched_upd_thread t f : keeps sched_only (upd_thread t f).
Proof. unfold upd_thread, put_thread. apply keep_bind; [apply _|apply sched_get_thread|intros th]. keep. Qed.
Lemma sched_get_timer r : keeps sched_only (get_timer r).
Proof. unfold get_timer. keep. Qed.
#[local] Hint Resolve sched_get_thread sched_upd_thread : keeps.
Lemma sched_tlist_insert f t : keeps sched_only (tlist_insert f t).
Proof. unfold tlist_insert, upd_tlists. keep. Qed.
Lemma sched_tlist_remove t : keeps sched_only (tlist_remove t).
Proof. unfold tlist_remove, upd_tlists. keep. Qed.
Lemma sched_tlist_first l : keeps sched_only (tlist_first l).
Proof. unfold tlist_first. keep. Qed.
#[local] Hint Resolve sched_tlist_insert sched_tlist_remove sched_tlist_first : keeps.

Lemma sched_rt_schedule : keeps sched_only rt_schedule.
Proof.
  unfold rt_schedule, highest_ready_priority, highest_ready_thread, _rt_scheduler_stack_check, request_switch. keep.
Qed.
#[local] Hint Resolve sched_rt_schedule : keeps.
Lemma sched_insert t : keeps sched_only (rt_schedule_insert_thread t).
Proof. unfold rt_schedule_insert_thread, tlist_insert_before. keep. Qed.
Lemma sched_remove t : keeps sched_only (rt_schedule_remove_thread t).
Proof. unfold rt_schedule_remove_thread, tlist_isempty. keep. Qed.
Lemma sched_yield : keeps sched_only rt_thread_yield.
Proof. unfold rt_thread_yield, rt_thread_self, tlist_shared, tlist_insert_before. keep. Qed.
Lemma sched_sleep_resume t : keeps sched_only (rt_thread_sleep_resume t).
Proof. unfold rt_thread_sleep_resume. keep. Qed.
Lemma sched_in_thread_context : keeps sched_only RT_DEBUG_IN_THREAD_CONTEXT.
Proof. unfold RT_DEBUG_IN_THREAD_CONTEXT, RT_DEBUG_NOT_IN_INTERRUPT. keep. Qed.
Lemma sched_find_lower k l : keeps sched_only (find_lower k l).
Proof. induction l as [|u l IH]; simpl; keep. Qed.
End sched_keeps.

#[export] Hint Extern 5 (keeps ?R _) =>
  lazymatch R with sched_only => fail | _ => apply keeps_sched; [apply _|] end : keeps.
#[export] Hint Resolve sched_get_thread sched_upd_thread sched_get_timer sched_tlist_insert sched_tlist_remove
  sched_tlist_first sched_rt_schedule sched_insert sched_remove sched_yield sched_in_thread_context
  sched_find_lower : keeps.

(** ** Timers and threads *)

Section kernel_keeps.
Context `{KConfig} `{Allocator} (strict : bool).
Abbreviation bkeeps m := (keeps (background strict) m).

(** A timer of the application is changed, or any other one. *)
Lemma keeps_upd_timer r f : (forall tm, cfg (f tm) = cfg tm) -> bkeeps (upd_timer r f).
Proof.
  intros Hf s a s' E. unfold upd_timer, get_timer, get, opt, modify, mbind, M_bind in E.
  destruct (timers s !! r) as [tm|] eqn:Et; [|done]. injection E as _ <-. split; simpl; auto.
  intros p. destruct (decide (r = TObj p)) as [->|Hne]; [|by rewrite lookup_insert_ne].
  rewrite lookup_insert_eq, Et. simpl. by rewrite Hf.
Qed.
Lemma keeps_upd_thread_timer t f : bkeeps (upd_timer (TThread t) f).
Proof.
  intros s a s' E. unfold upd_timer, get_timer, get, opt, modify, mbind, M_bind in E.
  destruct (timers s !! TThread t) as [tm|] eqn:Et; [|done]. injection E as _ <-. split; simpl; auto.
  intros p. by rewrite lookup_insert_ne.
Qed.

Lemma cfg_clear tm : cfg (clear_flag RT_TIMER_FLAG_ACTIVATED tm) = cfg tm.
Proof.
  unfold cfg, has_flag, clear_flag, tm_flag. simpl. f_equal; [f_equal|].
  - rewrite <- Z.land_assoc. by rewrite (Z.land_comm (Z.lnot _)).
  - apply eq_true_iff_eq. rewrite !Z.leb_le, Z.land_nonneg. split; [intros [?|Hm]; [done|by vm_compute in Hm]|by left].
Qed.

Lemma cfg_set tm : cfg (set_flag RT_TIMER_FLAG_ACTIVATED tm) = cfg tm.
Proof.
  unfold cfg, has_flag, set_flag, tm_flag. simpl. f_equal; [f_equal|].
  - by rewrite Z.land_lor_distr_l, Z.lor_0_r.
  - apply eq_true_iff_eq. rewrite !Z.leb_le, Z.lor_nonneg. split; [by intros [? _]|by intros].
Qed.

Lemma in_rows_del x r rows : in_rows x (list_del r <$> rows) -> in_rows x rows.
Proof.
  unfold in_rows. rewrite !Exists_exists. intros (l & (l0 & -> & Hl)%list_elem_of_fmap & Hx).
  exists l0. split; [done|]. by apply elem_of_list_del in Hx as [_ ?].
Qed.

Lemma keeps_timer_remove r : bkeeps (_rt_timer_remove r).
Proof.
  unfold _rt_timer_remove. apply keeps_modify. intros s. split; simpl; auto.
  intros p Hp. left. by apply in_rows_del in Hp.
Qed.
#[local] Hint Resolve keeps_upd_thread_timer keeps_timer_remove : keeps.

Lemma insert_row_elem hd r l x : x ∈ insert_row hd r l -> x = r \/ x ∈ l.
Proof.
  destruct hd as [r'|]; simpl; [|apply elem_of_cons]. induction l as [|y l IH]; simpl; [by right|].
  case_decide; rewrite !elem_of_cons; [tauto|]. intros [?|Hx]; [tauto|]. destruct (IH Hx); tauto.
Qed.

Lemma insert_up_elem nr r rows l x :
  l ∈ insert_up nr r rows -> x ∈ l -> x = r \/ exists l0, l0 ∈ rows.*2 /\ x ∈ l0.
Proof.
  revert nr. induction rows as [|[hd l0] rows IH]; intros nr Hl Hx; simpl in Hl; [by apply elem_of_nil in Hl|].
  destruct (Z.land nr RT_TIMER_SKIP_LIST_MASK =? 0); apply elem_of_cons in Hl as [->|Hl].
  - destruct (insert_row_elem _ _ _ _ Hx); [by left|]. right. exists l0. split; [left|done].
  - destruct (IH _ Hl Hx) as [?|(l1 & Hl1 & ?)]; [by left|]. right. exists l1. split; [by right|done].
  - right. exists l0. split; [left|done].
  - right. exists l. split; [by right|done].
Qed.

Lemma insert_rows_elem nr r hds rows x : in_rows x (insert_rows nr r hds rows) -> x = r \/ in_rows x rows.
Proof.
  unfold in_rows. rewrite !Exists_exists. intros (l & Hl & Hx). unfold insert_rows in Hl.
  destruct (reverse (zip hds rows)) as [|[hd l0] upper] eqn:Er; [by apply elem_of_nil in Hl|].
  assert (forall l1, l1 ∈ l0 :: upper.*2 -> l1 ∈ rows) as Hin.
  { intros l1 Hl1. assert (l1 ∈ (reverse (zip hds rows)).*2) as H1 by (by rewrite Er).
    apply list_elem_of_fmap in H1 as ([h l2] & -> & H1). rewrite elem_of_reverse in H1. by apply elem_of_zip_r in H1. }
  rewrite elem_of_reverse in Hl. apply elem_of_cons in Hl as [->|Hl].
  - destruct (insert_row_elem _ _ _ _ Hx); [by left|]. right. exists l0. split; [apply Hin; left|done].
  - destruct (insert_up_elem _ _ _ _ _ Hl Hx) as [?|(l1 & Hl1 & ?)]; [by left|].
    right. exists l1. split; [apply Hin; by right|done].
Qed.

Lemma keeps_rt_timer_start r : bkeeps (rt_timer_start r).
Proof.
  intros s a s' E. unfold rt_timer_start in E. destruct (timer_nonnull r) eqn:Hn; [|done].
  revert s a s' E. match goal with |- forall s a s', ?m s = _ -> _ => change (bkeeps m) end.
  apply keep_bind; [apply _|keep|intros _]. apply keep_bind; [apply _|keep|intros _].
  apply keep_bind; [apply _|apply keeps_upd_timer, cfg_clear|intros _]. apply keep_bind; [apply _|keep|intros tm].
  apply keep_bind; [apply _|keep|intros _]. apply keep_bind; [apply _|unfold rt_tick_get; keep|intros now].
  apply keep_bind; [apply _|by apply keeps_upd_timer|intros _]. apply keep_bind; [apply _|keep|intros s].
  apply keep_bind; [apply _|keep|intros hds]. apply keep_bind; [apply _|keep|intros _].
  apply keep_bind; [apply _| |intros _; apply keep_bind; [apply _|apply keeps_upd_timer, cfg_set|keep]].
  apply keeps_modify. intros s1. split; simpl; auto. intros p Hp.
  apply insert_rows_elem in Hp as [<-|Hp]; [right|by left].
  by apply negb_true_iff, Z.eqb_neq in Hn.
Qed.

#[local] Hint Resolve keeps_rt_timer_start : keeps.

Lemma keeps_stop_timer r : bkeeps (rt_timer_stop r).
Proof. unfold rt_timer_stop. pose proof (keeps_upd_timer r _ cfg_clear). keep. Qed.
#[local] Hint Resolve keeps_stop_timer : keeps.
Lemma keeps_rt_thread_suspend t : bkeeps (rt_thread_suspend t).
Proof. unfold rt_thread_suspend, nonnull. keep. Qed.
Lemma keeps_rt_thread_resume t : bkeeps (rt_thread_resume t).
Proof. unfold rt_thread_resume, nonnull. keep. Qed.
#[local] Hint Resolve keeps_rt_thread_suspend keeps_rt_thread_resume : keeps.

Lemma keeps_rt_thread_sleep n : bkeeps (rt_thread_sleep n).
Proof. unfold rt_thread_sleep, rt_thread_self, nonnull, rt_timer_control. keep. Qed.
Lemma keeps_start_thread_timer t time : bkeeps (start_thread_timer t time).
Proof. unfold start_thread_timer, rt_timer_control. keep. Qed.
Lemma keeps_rt_ipc_list_suspend l t flag : bkeeps (rt_ipc_list_suspend l t flag).
Proof. unfold rt_ipc_list_suspend, tlist_insert_before, tlist_insert_before_node. keep. Qed.
Lemma keeps_rt_ipc_list_resume l : bkeeps (rt_ipc_list_resume l).
Proof. unfold rt_ipc_list_resume. keep. Qed.
End kernel_keeps.

#[export] Hint Resolve keeps_rt_ipc_list_suspend keeps_rt_ipc_list_resume keeps_start_thread_timer : keeps.

Section sem_keeps.
Context `{KConfig} `{Allocator}.

Lemma keeps_upd_sem sem f : keeps (background false) (upd_sem sem f).
Proof. unfold upd_sem, get_sem. keep. Qed.
#[local] Hint Resolve keeps_upd_sem : keeps.

Lemma keeps_rt_sem_take sem time : keeps (background false) (rt_sem_take sem time).
Proof. unfold rt_sem_take, nonnull, get_sem, rt_thread_self. keep. Qed.
Lemma keeps_rt_sem_release sem : keeps (background false) (rt_sem_release sem).
Proof. unfold rt_sem_release, get_sem, tlist_isempty. keep. Qed.

(** ** Services that start no timer *)

Lemma shrinks_upd_timer r f : (forall tm, tm_timeout_tick (f tm) = tm_timeout_tick tm) -> keeps shrinks (upd_timer r f).
Proof.
  intros Hf s a s' E. unfold upd_timer, get_timer, get, opt, modify, mbind, M_bind in E.
  destruct (timers s !! r) as [tm|] eqn:Et; [|done]. injection E as _ <-. split; simpl; auto.
  intros r'. destruct (decide (r = r')) as [<-|Hne]; [|by rewrite lookup_insert_ne].
  rewrite lookup_insert_eq, Et. simpl. by rewrite Hf.
Qed.

Lemma shrinks_timer_remove r : keeps shrinks (_rt_timer_remove r).
Proof.
  unfold _rt_timer_remove. apply keeps_modify. intros s. split; simpl; auto.
  intros r'. unfold last_row. simpl. rewrite !list_lookup_total_alt, list_lookup_fmap.
  destruct (rt_timer_list s !! _); simpl; [|done]. by intros [_ ?]%elem_of_list_del.
Qed.
#[local] Hint Resolve shrinks_timer_remove : keeps.

Lemma shrinks_timer_stop r : keeps shrinks (rt_timer_stop r).
Proof.
  unfold rt_timer_stop. pose proof (shrinks_upd_timer r (clear_flag RT_TIMER_FLAG_ACTIVATED) (fun _ => eq_refl)). keep.
Qed.
#[local] Hint Resolve shrinks_timer_stop : keeps.
Lemma shrinks_rt_thread_resume t : keeps shrinks (rt_thread_resume t).
Proof. unfold rt_thread_resume, nonnull. keep. Qed.
#[local] Hint Resolve shrinks_rt_thread_resume : keeps.
Lemma shrinks_upd_sem sem f : keeps shrinks (upd_sem sem f).
Proof. unfold upd_sem, get_sem. keep. Qed.
#[local] Hint Resolve shrinks_upd_sem : keeps.
Lemma shrinks_rt_sem_release sem : keeps shrinks (rt_sem_release sem).
Proof. unfold rt_sem_release, get_sem, tlist_isempty, rt_ipc_list_resume. keep. Qed.
End sem_keeps.
