(* ===== verification/Asleep.v ===== *)
(** * A sleeping thread is left alone

    A thread that waits for its timer only is on no list, so no service that takes its
    threads from the lists, and none that works on the running thread, can touch it: a
    small logic of assertions that every step keeps, and its application to the calls of
    Semaphore.v and Thread.v. *)
From stdpp Require Import base tactics numbers list gmap.
From S2P Require Import Prelude RtList Kernel Scheduler Object Timer Thread Ipc Semaphore Clock.
Local Open Scope Z_scope.

Section asleep.
Context `{KConfig} `{Allocator}.
Context (t : ptr) (th : rt_thread) (tm : rt_timer) (tick : Z).

(** Thread [t] is on no list and does not run; its timer is on the timer list. *)
Record asleep (s : kstate) : Prop := {
  as_thread : threads s !! t = Some th;
  as_current : rt_current_thread s <> t;
  as_lists : forall l, t ∉ tlists s !!! l;
  as_row : TThread t ∈ last_row s;
  as_timer : timers s !! TThread t = Some tm;
  as_levels : length (rt_timer_list s) = RT_TIMER_SKIP_LIST_LEVEL;
  as_tick : rt_tick s = tick
}.

(** [m] keeps the thread asleep, and its result satisfies [Q]. *)
Definition spares {A} (m : K A) (Q : A -> Prop) : Prop :=
  forall s a s', asleep s -> m s = Ok a s' -> asleep s' /\ Q a.

Lemma spares_ret {A} (a : A) (Q : A -> Prop) : Q a -> spares (mret a) Q.
Proof. intros HQ s a' s' Hs [= <- <-]. done. Qed.

Lemma spares_ret_any {A} (a : A) : spares (mret a) (fun _ => True).
Proof. by apply spares_ret. Qed.

Lemma spares_bind {A B} (m : K A) (k : A -> K B) (R : A -> Prop) (Q : B -> Prop) :
  spares m R -> (forall a, R a -> spares (k a) Q) -> spares (m ≫= k) Q.
Proof.
  intros Hm Hk s b s' Hs E. unfold mbind, M_bind in E. destruct (m s) as [a s1|] eqn:Em; [|done].
  destruct (Hm s a s1 Hs Em) as [H1' HR]. by eapply Hk.
Qed.

Lemma spares_mono {A} (m : K A) (P Q : A -> Prop) : spares m P -> (forall a, P a -> Q a) -> spares m Q.
Proof. intros Hm HPQ s a s' Hs E. destruct (Hm s a s' Hs E). auto. Qed.

Lemma spares_get : spares get asleep.
Proof. intros s a s' Hs [= <- <-]. done. Qed.
Lemma spares_gets {A} (f : kstate -> A) : spares (gets f) (fun _ => True).
Proof. intros s a s' Hs [= <- <-]. done. Qed.
Lemma spares_modify f : (forall s, asleep s -> asleep (f s)) -> spares (modify f) (fun _ => True).
Proof. intros Hf s a s' Hs [= <- <-]. auto. Qed.
Lemma spares_throw {A} f (Q : A -> Prop) : spares (throw f) Q.
Proof. by intros s a s' Hs ?. Qed.
Lemma spares_assert b : spares (RT_ASSERT b) (fun _ => True).
Proof. destruct b; [by apply spares_ret|apply spares_throw]. Qed.
Lemma spares_opt {A} f (o : option A) : spares (opt f o) (fun a => o = Some a).
Proof. destruct o; [by apply spares_ret|apply spares_throw]. Qed.
Lemma spares_opt_some {A} f (o : option A) : spares (opt f o) (fun _ => True).
Proof. eapply spares_mono; [apply spares_opt|done]. Qed.
Lemma spares_if {A} (b : bool) (m n : K A) Q : spares m Q -> spares n Q -> spares (if b then m else n) Q.
Proof. by destruct b. Qed.
Lemma spares_when b m : spares m (fun _ => True) -> spares (when b m) (fun _ => True).
Proof. intros Hm. destruct b; [done|by apply spares_ret]. Qed.

(** ** Threads and their lists *)

Lemma spares_self : spares rt_thread_self (fun u => u <> t).
Proof. intros s a s' Hs [= <- <-]. split; [done|apply Hs]. Qed.

Lemma spares_get_thread u : spares (get_thread u) (fun _ => True).
Proof.
  unfold get_thread. eapply spares_bind; [apply spares_get|]. intros s _. eapply spares_mono; [apply spares_opt|done].
Qed.

Lemma spares_upd_thread u f : u <> t -> spares (upd_thread u f) (fun _ => True).
Proof.
  intros Hu. unfold upd_thread, put_thread. eapply spares_bind; [apply spares_get_thread|]. intros thu _.
  apply spares_modify. intros s []. split; try done. simpl. by rewrite lookup_insert_ne.
Qed.

Lemma spares_tlist_first l : spares (tlist_first l) (fun u => u <> t).
Proof.
  unfold tlist_first. eapply spares_bind; [apply spares_get|]. intros s Hs. eapply spares_mono; [apply spares_opt|].
  intros u Hu ->. apply (as_lists s Hs l). by apply head_Some_elem_of in Hu.
Qed.

Lemma spares_upd_tlists f :
  (forall st, (forall l, t ∉ st !!! l) -> forall l, t ∉ f st !!! l) -> spares (upd_tlists f) (fun _ => True).
Proof. intros Hf. apply spares_modify. intros s []. split; try done. simpl. auto. Qed.

Lemma spares_tlist_remove u : spares (tlist_remove u) (fun _ => True).
Proof. apply spares_upd_tlists. intros st Hst l. rewrite Abs.lookup_remove, elem_of_list_del. by intros [_ ?%Hst]. Qed.

Lemma spares_tlist_insert u f :
  (forall st, (forall l, t ∉ st !!! l) -> forall l, t ∉ f st !!! l) -> spares (tlist_insert f u) (fun _ => True).
Proof.
  intros Hf. unfold tlist_insert. eapply spares_bind; [apply spares_get|]. intros s _.
  destruct (decide _); [apply spares_throw|by apply spares_upd_tlists].
Qed.

Lemma spares_insert_before l u : u <> t -> spares (tlist_insert_before l u) (fun _ => True).
Proof.
  intros Hu. apply spares_tlist_insert. intros st Hst l'. unfold Abs.insert_back.
  destruct (decide (l = l')) as [<-|Hl]; [|by rewrite lookup_total_insert_ne].
  rewrite lookup_total_insert_eq, elem_of_app, list_elem_of_singleton. intros [?%Hst|?]; congruence.
Qed.

Lemma spares_insert_before_node l v u : u <> t -> spares (tlist_insert_before_node l v u) (fun _ => True).
Proof.
  intros Hu. apply spares_tlist_insert. intros st Hst l'. unfold Abs.insert_before_node.
  destruct (decide (l = l')) as [<-|Hl]; [|by rewrite lookup_total_insert_ne].
  rewrite lookup_total_insert_eq. specialize (Hst l). induction (st !!! l) as [|w ws IH]; simpl; [done|].
  apply not_elem_of_cons in Hst as [? ?]. case_decide; rewrite !not_elem_of_cons; auto.
Qed.

(** ** Timers *)

Lemma spares_get_timer r : spares (get_timer r) (fun _ => True).
Proof.
  unfold get_timer. eapply spares_bind; [apply spares_get|]. intros s _. eapply spares_mono; [apply spares_opt|done].
Qed.

Lemma spares_upd_timer r f : r <> TThread t -> spares (upd_timer r f) (fun _ => True).
Proof.
  intros Hr. unfold upd_timer. eapply spares_bind; [apply spares_get_timer|]. intros tmr _.
  apply spares_modify. intros s []. split; try done. simpl. by rewrite lookup_insert_ne.
Qed.

Lemma last_row_lookup s : length (rt_timer_list s) = RT_TIMER_SKIP_LIST_LEVEL -> last (rt_timer_list s) = Some (last_row s).
Proof.
  intros E. rewrite last_lookup, E. unfold last_row. rewrite <- list_lookup_lookup_total_lt.
  - f_equal. lia.
  - pose proof skip_level_pos. lia.
Qed.

Lemma spares_timer_remove r : r <> TThread t -> spares (_rt_timer_remove r) (fun _ => True).
Proof.
  intros Hr. apply spares_modify. intros s Hs. pose proof Hs as []. split; try done; simpl; [|by rewrite length_fmap].
  assert (last_row (set_rt_timer_list (list_del r <$> rt_timer_list s) s) = list_del r (last_row s)) as ->.
  { apply (inj Some). rewrite <- last_row_lookup by (simpl; by rewrite length_fmap). simpl.
    by rewrite fmap_last, last_row_lookup. }
  by apply elem_of_list_del.
Qed.

Lemma insert_row_keeps hd r l x : x ∈ l -> x ∈ insert_row hd r l.
Proof.
  destruct hd as [r'|]; simpl; [|by right]. induction l as [|y l IH]; simpl; [done|].
  case_decide; rewrite !elem_of_cons; naive_solver.
Qed.

Lemma row_heads_length ticks k hd rows hds : row_heads ticks k hd rows = Some hds -> length hds = length rows.
Proof.
  revert hd hds. induction rows as [|l rows IH]; intros hd hds; simpl; [by intros [= <-]|].
  destruct (behind hd l) as [rest|]; simpl; [|done]. destruct (walk ticks k hd rest) as [hd'|]; simpl; [|done].
  destruct (row_heads ticks k hd' rows) as [hds'|] eqn:E; simpl; [|done]. intros [= <-]. simpl. f_equal. by eapply IH.
Qed.

Lemma insert_up_length nr r rows : length (insert_up nr r rows) = length rows.
Proof.
  revert nr. induction rows as [|[hd l] rows IH]; intros nr; simpl; [done|].
  destruct (_ =? 0); simpl; [by rewrite IH|by rewrite length_fmap].
Qed.

Lemma insert_rows_last nr r hds rows l :
  length hds = length rows -> last rows = Some l ->
  length (insert_rows nr r hds rows) = length rows /\
  exists hd, last (insert_rows nr r hds rows) = Some (insert_row hd r l).
Proof.
  intros El Hl. unfold insert_rows.
  assert (exists hds' hd rows', hds = hds' ++ [hd] /\ rows = rows' ++ [l] /\ length hds' = length rows') as (hds' & hd & rows' & -> & -> & El').
  { apply last_Some in Hl as [rows' ->]. destruct hds as [|hd hds' _] using rev_ind; [rewrite length_app in El; simpl in El; lia|].
    exists hds', hd, rows'. split_and!; [done|done|]. rewrite !length_app in El. simpl in El. lia. }
  rewrite zip_with_app by done. simpl. rewrite reverse_app. simpl. rewrite reverse_cons. split.
  - rewrite length_app, length_reverse, insert_up_length, length_reverse, length_zip_with, length_app. simpl. lia.
  - exists hd. by rewrite last_snoc.
Qed.

Lemma spares_timer_start r : r <> TThread t -> spares (rt_timer_start r) (fun _ => True).
Proof.
  intros Hr. unfold rt_timer_start. eapply spares_bind; [apply spares_assert|intros _ _].
  eapply spares_bind; [by apply spares_timer_remove|intros _ _]. eapply spares_bind; [by apply spares_upd_timer|intros _ _].
  eapply spares_bind; [apply spares_get_timer|intros tmr _]. eapply spares_bind; [apply spares_assert|intros _ _].
  eapply spares_bind; [apply spares_gets|intros now _]. eapply spares_bind; [by apply spares_upd_timer|intros _ _].
  eapply spares_bind; [apply spares_get|intros s1 Hs1]. eapply spares_bind; [apply spares_opt|intros hds Eh].
  apply row_heads_length in Eh. rewrite (as_levels s1 Hs1) in Eh.
  eapply (spares_bind _ _ (fun _ => True)); [apply spares_modify; intros s []; by split|intros _ _].
  eapply (spares_bind _ _ (fun _ => True)); [|intros _ _; eapply spares_bind; [by apply spares_upd_timer|intros _ _; by apply spares_ret]].
  apply spares_modify. intros s Hs. pose proof Hs as [].
  destruct (insert_rows_last (u32 (random_nr s1 + 1)) r hds (rt_timer_list s) (last_row s)) as [Hlen [hd Hlast]];
    [congruence|by apply last_row_lookup|].
  split; try done; simpl; [|congruence].
  assert (last_row (set_rt_timer_list (insert_rows (u32 (random_nr s1 + 1)) r hds (rt_timer_list s)) s) =
    insert_row hd r (last_row s)) as ->.
  { apply (inj Some). rewrite <- last_row_lookup; simpl; [done|congruence]. }
  by apply insert_row_keeps.
Qed.

Lemma spares_timer_stop r : r <> TThread t -> spares (rt_timer_stop r) (fun _ => True).
Proof.
  intros Hr. unfold rt_timer_stop. eapply spares_bind; [apply spares_assert|intros _ _].
  eapply spares_bind; [apply spares_get_timer|intros tmr _]. apply spares_if; [|by apply spares_ret].
  eapply spares_bind; [by apply spares_timer_remove|intros _ _].
  eapply spares_bind; [by apply spares_upd_timer|intros _ _]. by apply spares_ret.
Qed.

Lemma spares_timer_control r cmd arg : r <> TThread t -> spares (rt_timer_control r cmd arg) (fun _ => True).
Proof.
  intros Hr. unfold rt_timer_control. eapply spares_bind; [apply spares_assert|intros _ _]. destruct cmd.
  - eapply spares_bind; [by apply spares_upd_timer|intros _ _; by apply spares_ret].
  - eapply spares_bind; [apply spares_get_timer|intros tmr _; by apply spares_ret].
  - eapply spares_bind; [by apply spares_upd_timer|intros _ _; by apply spares_ret].
  - eapply spares_bind; [by apply spares_upd_timer|intros _ _; by apply spares_ret].
Qed.
End asleep.

Create HintDb spares discriminated.
#[export] Hint Resolve spares_get spares_gets spares_throw spares_assert spares_opt_some spares_self spares_get_thread
  spares_tlist_first spares_tlist_remove spares_get_timer : spares.
#[export] Hint Extern 1 (spares _ _ _ _ (upd_thread _ _) _) => (apply spares_upd_thread; assumption) : spares.
#[export] Hint Extern 1 (spares _ _ _ _ (tlist_insert_before _ _) _) => (apply spares_insert_before; assumption) : spares.
#[export] Hint Extern 1 (spares _ _ _ _ (tlist_insert_before_node _ _ _) _) =>
  (apply spares_insert_before_node; assumption) : spares.
#[export] Hint Extern 1 (spares _ _ _ _ (upd_timer _ _) _) => (apply spares_upd_timer; congruence) : spares.
#[export] Hint Extern 1 (spares _ _ _ _ (rt_timer_start _) _) => (apply spares_timer_start; congruence) : spares.
#[export] Hint Extern 1 (spares _ _ _ _ (rt_timer_stop _) _) => (apply spares_timer_stop; congruence) : spares.
#[export] Hint Extern 1 (spares _ _ _ _ (rt_timer_control _ _ _) _) => (apply spares_timer_control; congruence) : spares.

(** One step through a computation *)
Ltac spare :=
  repeat first
    [ solve [ auto with spares ]
    | match goal with
      | |- spares _ _ _ _ (_ ≫= _) _ => eapply spares_bind; [spare|intros ? ?]
      | |- spares _ _ _ _ (when _ _) _ => apply spares_when
      | |- spares _ _ _ _ (if _ then _ else _) _ => apply spares_if
      | |- spares _ _ _ _ (mret _) _ => apply spares_ret_any
      | |- spares _ _ _ _ (match ?x with _ => _ end) _ => destruct x
      | |- spares _ _ _ _ (modify _) _ => apply spares_modify; intros ? []; split; solve [done|assumption]
      end ].

Section services.
Context `{KConfig} `{Allocator}.
Context (t : ptr) (th : rt_thread) (tm : rt_timer) (tick : Z).
Abbreviation kept m := (spares t th tm tick m (fun _ => True)).

Lemma spares_rt_schedule : kept rt_schedule.
Proof.
  unfold rt_schedule. eapply spares_bind; [apply spares_get|intros s Hs]. apply spares_if; [|by apply spares_ret].
  eapply (spares_bind _ _ _ _ _ _ (fun _ => True)); [unfold highest_ready_priority; spare|intros p _].
  eapply (spares_bind _ _ _ _ _ _ (fun u => u <> t));
    [unfold highest_ready_thread; apply spares_if; [apply spares_tlist_first|apply spares_throw]|intros u Hu].
  apply spares_if; [by apply spares_ret|]. unfold _rt_scheduler_stack_check, request_switch.
  eapply (spares_bind _ _ _ _ _ _ (fun _ => True)); [spare|intros _ _]. eapply (spares_bind _ _ _ _ _ _ (fun _ => True)); [spare|intros _ _].
  eapply (spares_bind _ _ _ _ _ _ (fun _ => True)); [spare|intros _ _]. spare.
Qed.

Lemma spares_schedule_insert u : u <> t -> kept (rt_schedule_insert_thread u).
Proof. intros Hu. unfold rt_schedule_insert_thread. spare. Qed.
Lemma spares_schedule_remove u : u <> t -> kept (rt_schedule_remove_thread u).
Proof. intros Hu. unfold rt_schedule_remove_thread, tlist_isempty. spare. Qed.
#[local] Hint Resolve spares_rt_schedule spares_schedule_insert spares_schedule_remove : spares.

Lemma spares_suspend u : u <> t -> kept (rt_thread_suspend u).
Proof. intros Hu. unfold rt_thread_suspend, nonnull. spare. Qed.
Lemma spares_resume u : u <> t -> kept (rt_thread_resume u).
Proof. intros Hu. unfold rt_thread_resume, nonnull. spare. Qed.
#[local] Hint Resolve spares_suspend spares_resume : spares.

Lemma spares_yield : kept rt_thread_yield.
Proof. unfold rt_thread_yield, tlist_shared. spare. Qed.
Lemma spares_sleep n : kept (rt_thread_sleep n).
Proof. unfold rt_thread_sleep, nonnull. spare. Qed.
Lemma spares_sleep_resume u : u <> t -> kept (rt_thread_sleep_resume u).
Proof. intros Hu. unfold rt_thread_sleep_resume. spare. Qed.

Lemma spares_find_lower k l : kept (find_lower k l).
Proof. induction l as [|u l IH]; simpl; spare. Qed.
Lemma spares_ipc_suspend l u flag : u <> t -> kept (rt_ipc_list_suspend l u flag).
Proof. intros Hu. pose proof spares_find_lower. unfold rt_ipc_list_suspend. spare. Qed.
Lemma spares_ipc_resume l : kept (rt_ipc_list_resume l).
Proof. unfold rt_ipc_list_resume. spare. Qed.
Lemma spares_start_timer u time : u <> t -> kept (start_thread_timer u time).
Proof. intros Hu. unfold start_thread_timer. spare. Qed.
#[local] Hint Resolve spares_ipc_suspend spares_ipc_resume spares_start_timer : spares.

Lemma spares_upd_sem sem f : kept (upd_sem sem f).
Proof. unfold upd_sem, get_sem. spare. Qed.
#[local] Hint Resolve spares_upd_sem : spares.

Lemma spares_sem_take sem time : kept (rt_sem_take sem time).
Proof. unfold rt_sem_take, nonnull, get_sem, RT_DEBUG_IN_THREAD_CONTEXT, RT_DEBUG_NOT_IN_INTERRUPT. spare. Qed.
Lemma spares_sem_release sem : kept (rt_sem_release sem).
Proof. unfold rt_sem_release, get_sem, tlist_isempty. spare. Qed.
End services.
