(* ===== verification/Services.v ===== *)
(** * The state of the running system, and what a timeout function may call

    The invariant of a running system of threads, semaphores and timers, and the
    functions the application may give to its timers: [service] is what the tick needs
    of them.  Stopping a timer, changing its period, releasing a semaphore and work on
    other objects are services, and so are sequences of services. *)
From stdpp Require Import base tactics numbers list gmap.
From S2P Require Import Prelude RtList Kernel Scheduler Object Timer Thread Ipc Semaphore Clock Background Asleep.
Local Open Scope Z_scope.

(** ** Computations that do not look at the tick *)

Section oblivious.
Context `{KConfig} `{Allocator}.

Definition at_tick {A} (b : Z) (r : outcome kstate A) : outcome kstate A :=
  match r with Ok a s => Ok a (set_rt_tick b s) | Fault f => Fault f end.

(** At another tick, [m] does the same. *)
Definition oblivious {A} (m : K A) : Prop := forall s b, m (set_rt_tick b s) = at_tick b (m s).

Lemma obl_ret {A} (a : A) : oblivious (mret a).
Proof. done. Qed.
Lemma obl_throw {A} f : oblivious (throw (A := A) f).
Proof. done. Qed.
Lemma obl_bind {A B} (m : K A) (k : A -> K B) : oblivious m -> (forall a, oblivious (k a)) -> oblivious (m ≫= k).
Proof.
  intros Hm Hk s b. unfold mbind, M_bind. rewrite Hm. destruct (m s) as [a s1|f]; simpl; [apply Hk|done].
Qed.
Lemma obl_get {B} (k : kstate -> K B) :
  (forall s b, k (set_rt_tick b s) = k s) -> (forall s, oblivious (k s)) -> oblivious (get ≫= k).
Proof. intros Hk Ho s b. unfold mbind, M_bind, get. rewrite Hk. apply Ho. Qed.
Lemma obl_gets {A} (f : kstate -> A) : (forall s b, f (set_rt_tick b s) = f s) -> oblivious (gets f).
Proof. intros Hf s b. unfold gets. simpl. by rewrite Hf. Qed.
Lemma obl_modify f : (forall s b, f (set_rt_tick b s) = set_rt_tick b (f s)) -> oblivious (modify f).
Proof. intros Hf s b. unfold modify. simpl. by rewrite Hf. Qed.
Lemma obl_assert b : oblivious (RT_ASSERT b).
Proof. by destruct b. Qed.
Lemma obl_opt {A} f (o : option A) : oblivious (opt f o).
Proof. by destruct o. Qed.
Lemma obl_if {A} (b : bool) (m n : K A) : oblivious m -> oblivious n -> oblivious (if b then m else n).
Proof. by destruct b. Qed.
Lemma obl_when b m : oblivious m -> oblivious (when b m).
Proof. by destruct b. Qed.

(** What is proved of a state at one tick holds at another. *)
Lemma obl_wp {A} (m : K A) (Q : A -> kstate -> Prop) b s :
  oblivious m -> wp m Q (set_rt_tick b s) -> wp m (fun a s' => Q a (set_rt_tick b s')) s.
Proof. intros Ho. unfold wp. rewrite Ho. by destruct (m s). Qed.

Lemma obl_tick {A} (m : K A) s a s' : oblivious m -> m s = Ok a s' -> rt_tick s' = rt_tick s.
Proof.
  intros Ho E. specialize (Ho s (rt_tick s)).
  replace (set_rt_tick (rt_tick s) s) with s in Ho by (by destruct s). rewrite E in Ho. simpl in Ho.
  injection Ho as Ho. rewrite Ho. done.
Qed.
End oblivious.

(** One step through a computation *)
Ltac obl :=
  repeat match goal with
    | H : oblivious ?m |- oblivious ?m => exact H
    | |- oblivious (mret _) => apply obl_ret
    | |- oblivious (throw _) => apply obl_throw
    | |- oblivious (RT_ASSERT _) => apply obl_assert
    | |- oblivious (opt _ _) => apply obl_opt
    | |- oblivious (gets _) => apply obl_gets; reflexivity
    | |- oblivious (modify _) => apply obl_modify; reflexivity
    | |- oblivious (get ≫= _) => apply obl_get; [reflexivity|intros ?]
    | |- oblivious (_ ≫= _) => apply obl_bind; [|intros ?]
    | |- oblivious (when _ _) => apply obl_when
    | |- oblivious (if _ then _ else _) => apply obl_if
    | |- oblivious (match ?x with _ => _ end) => destruct x
    end.

Section oblivious_kernel.
Context `{KConfig} `{Allocator}.

Lemma obl_rt_schedule : oblivious rt_schedule.
Proof.
  unfold rt_schedule, highest_ready_priority, highest_ready_thread, tlist_first, _rt_scheduler_stack_check, get_thread,
    request_switch. obl.
Qed.

Lemma obl_timer_stop r : oblivious (rt_timer_stop r).
Proof. unfold rt_timer_stop, get_timer, _rt_timer_remove, upd_timer, get_timer. obl. Qed.

Lemma obl_rt_sem_release sem : oblivious (rt_sem_release sem).
Proof.
  pose proof obl_rt_schedule. pose proof obl_timer_stop.
  unfold rt_sem_release, get_sem, upd_sem, get_sem, rt_ipc_list_resume, tlist_isempty, tlist_first, rt_thread_resume, nonnull,
    get_thread, tlist_remove, rt_schedule_insert_thread, upd_thread, put_thread, get_thread, tlist_insert_before,
    tlist_insert, upd_tlists. obl; auto.
Qed.
End oblivious_kernel.

(** ** The system *)

(** The application's timers stay set up. *)
Lemma set_up_background `{KConfig} `{Allocator} strict s s' : background strict s s' -> timers_set_up s -> timers_set_up s'.
Proof.
  intros [_ _ _ _ _ _ _ _ Ht Hr] [S1 S2 S3].
  assert (forall p tm, timers s' !! TObj p = Some tm -> exists tm0, timers s !! TObj p = Some tm0 /\ cfg tm = cfg tm0) as Hc.
  { intros p tm E. specialize (Ht p). rewrite E in Ht. destruct (timers s !! TObj p) as [tm0|]; [|done].
    exists tm0. split; [done|]. by apply (inj Some) in Ht. }
  split.
  - intros p tm E. destruct (Hc p tm E) as (tm0 & E0 & Ec). injection Ec as -> _ _ _ _. by apply (S1 p).
  - intros p tm E Hp. destruct (Hc p tm E) as (tm0 & E0 & Ec). injection Ec as _ _ -> Ep Ef.
    rewrite Hp in Ep. symmetry in Ep. destruct (S2 p tm0 E0 Ep). split; [lia|done].
  - intros p [Hp|Hp]%Hr; [by apply S3|done].
Qed.

Section services.
Context `{KConfig} `{Allocator}.
(** The idle thread, the semaphores and the application's timers of the system *)
Context (idle : ptr) (live apps : gset ptr).

Record sys (s : kstate) : Prop := {
  sy_kinv : kinv ∅ s;
  sy_lock : rt_scheduler_lock_nest s = 0;
  sy_next : next_thread s (rt_current_thread s);
  sy_idle : exists th, threads s !! idle = Some th /\ th_stat th = RT_THREAD_READY;
  sy_sems : forall sem x, sems s !! sem = Some x -> sem_ok s sem x;
  sy_timers : timers_set_up s;
  sy_live : forall sem, sem ∈ live -> is_Some (sems s !! sem);
  sy_apps : forall p, p ∈ apps -> p <> RT_NULL /\ is_Some (timers s !! TObj p)
}.

(** What a timeout function leaves alone: the tick, the threads that are ready and those
    that sleep; and it starts no timer. *)
Record serviced (s s' : kstate) : Prop := {
  sv_tick : rt_tick s' = rt_tick s;
  sv_shrinks : shrinks s s';
  sv_ready : forall u th, threads s !! u = Some th -> th_stat th = RT_THREAD_READY -> threads s' !! u = Some th;
  sv_asleep : forall u th tm, asleep u th tm (rt_tick s) s -> asleep u th tm (rt_tick s) s'
}.

#[global] Instance serviced_preorder : PreOrder serviced.
Proof.
  split; [done|]. intros s1 s2 s3 [A1 A2 A3 A4] [B1 B2 B3 B4].
  split; [congruence|by etransitivity|eauto|]. intros u th tm Ha. rewrite <- A1. apply B4. rewrite A1. by apply A4.
Qed.

(** A function the application may give to a timer.  It runs inside the tick, when the
    timers of the tick before may still be on the list: the invariant is that of the
    tick [base] at which the list was last right. *)
Definition service {A} (m : K A) : Prop :=
  forall base s, sys (set_rt_tick base s) -> wp m (fun _ s' => sys (set_rt_tick base s') /\ serviced s s') s.

Lemma service_ret {A} (a : A) : service (mret a).
Proof. intros base s Hs. by apply wp_ret. Qed.

Lemma service_bind {A B} (m : K A) (k : A -> K B) : service m -> (forall a, service (k a)) -> service (m ≫= k).
Proof.
  intros Hm Hk base s Hs. wp_step. eapply wp_mono; [by apply Hm|]. intros a s1 [Hs1 Hv1].
  eapply wp_mono; [by apply Hk|]. intros b s2 [Hs2 Hv2]. split; [done|by etransitivity].
Qed.

(** A semaphore that is not changed stays right while its list gets no new thread. *)
Lemma sem_ok_other s s' sem x :
  sem_ok s sem x -> sems s' !! sem = sems s !! sem ->
  (tlists s' !!! LSuspend sem <> [] -> tlists s !!! LSuspend sem <> []) -> sem_ok s' sem x.
Proof. intros [] Es Hl. split; try done; [by rewrite Es|auto]. Qed.

(** Work on objects that are not part of this system *)
Lemma service_quiet (m : K unit) :
  quiet m -> (forall s, wp m (fun _ s' => sems s' = sems s /\ rt_interrupt_nest s' = rt_interrupt_nest s) s) -> service m.
Proof.
  intros Hq Hx base s Hs. eapply wp_mono; [apply wp_and; [apply Hq|apply Hx]|].
  intros _ s' [(Heq & Et & Er & Ek & Ec & El) [Es En]]. pose proof Heq as (Hl & Eth & _). split.
  - destruct Hs as [S1 S2 S3 S4 S5 [U1 U2 U3] S7 S8]. split.
    + by eapply (kinv_eq ∅ (set_rt_tick base s)).
    + by rewrite <- S2.
    + by apply (next_thread_eq (set_rt_tick base s)).
    + simpl in *. by rewrite Eth.
    + intros sem x E. simpl in E. rewrite Es in E. eapply sem_ok_other; [by apply S5|by simpl; rewrite Es|simpl; by rewrite Hl].
    + split; simpl in *; [by rewrite Et|by rewrite Et|by rewrite Er].
    + simpl in *. by rewrite Es.
    + simpl in *. by rewrite Et.
  - split; [done|split; [done| |by rewrite Et]| |].
    + intros r. by rewrite (last_row_eq _ _ Er).
    + by rewrite Eth.
    + intros u th tm []. split; try congruence; [intros l; by rewrite Hl|by rewrite (last_row_eq _ _ Er)].
Qed.

(** A thread timer stays one when its flag is cleared. *)
Lemma thread_timer_clear t tm : thread_timer_ok t tm -> thread_timer_ok t (clear_flag RT_TIMER_FLAG_ACTIVATED tm).
Proof.
  intros (F1 & F2 & F3 & F4). split_and!; [done|done| |].
  - unfold clear_flag, tm_flag in *. simpl. apply Z.land_nonneg. by left.
  - unfold has_flag, clear_flag, tm_flag in *. simpl. rewrite <- Z.land_assoc, (Z.land_comm (Z.lnot _)), Z.land_assoc.
    apply negb_false_iff, Z.eqb_eq in F4. by rewrite F4.
Qed.

(** Only timers change. *)
Lemma sys_retimed s s' D :
  sys s -> retimed s s' -> timer_inv (rt_tick s) D s' -> timers_set_up s' ->
  (forall u tm, timers s !! TThread u = Some tm -> thread_timer_ok u tm ->
     exists tm', timers s' !! TThread u = Some tm' /\ thread_timer_ok u tm') ->
  (forall u, TThread u ∈ last_row s' -> TThread u ∈ last_row s) ->
  (forall p, is_Some (timers s !! TObj p) -> is_Some (timers s' !! TObj p)) -> sys s'.
Proof.
  intros [S1 S2 S3 S4 S5 S6 S7 S8] Hr HD Hset Htt Hrow Happ. rewrite Hr in *. destruct S1 as [K1 K2 K3 K4].
  split; try done.
  - split; [by apply (sched_inv_eq ∅ s)|by exists D| |].
    + intros u Hu. destruct (K3 u Hu) as (tm & E & Hok). by apply (Htt u tm).
    + intros u Hu. by apply K4, Hrow.
  - intros sem x E. destruct (S5 sem x E). by split.
  - intros p Hp. destruct (S8 p Hp). auto.
Qed.

(** The records of the application's timers when one of them is changed *)
Lemma set_up_insert s p tm s' :
  timers_set_up s -> timers s' = <[TObj p := tm]> (timers s) ->
  (forall q, in_rows (TObj q) (rt_timer_list s') -> in_rows (TObj q) (rt_timer_list s) \/ q <> RT_NULL) ->
  tm_timeout_func tm <> TF_thread_timeout ->
  (has_flag RT_TIMER_FLAG_PERIODIC tm = true -> 0 <= tm_flag tm /\ 0 < tm_init_tick tm < HALF_TICK - 1) ->
  timers_set_up s'.
Proof.
  intros [U1 U2 U3] Et Hr Hf Hp. split.
  - intros q tm'. rewrite Et. intros [[_ <-]|[_ E]]%lookup_insert_Some; [done|by apply (U1 q)].
  - intros q tm'. rewrite Et. intros [[_ <-]|[_ E]]%lookup_insert_Some; [done|by apply (U2 q)].
  - intros q [Hq|Hq]%Hr; [by apply U3|done].
Qed.

(** A computation that does not look at the tick, keeps the invariant and the ready
    threads, starts no timer and leaves sleeping threads alone is a service. *)
Lemma service_intro {A} (m : K A) :
  oblivious m -> keeps shrinks m -> (forall t th tm tick, spares t th tm tick m (fun _ => True)) ->
  (forall s, sys s -> wp m (fun _ s' => sys s' /\
     forall u th, threads s !! u = Some th -> th_stat th = RT_THREAD_READY -> threads s' !! u = Some th) s) ->
  service m.
Proof.
  intros Ho Hk Hsp Hw base s Hs. destruct (wp_ok _ _ _ (obl_wp m _ base s Ho (Hw _ Hs))) as (a & s' & E & Hs' & Hr).
  apply (ok_wp _ _ _ a s'); [done|]. split; [done|]. split.
  - by apply (obl_tick m s a).
  - by apply (Hk s a).
  - exact Hr.
  - intros u th tm Ha. by apply (Hsp u th tm (rt_tick s) s a s').
Qed.

(** Stopping a timer of the application *)
Lemma stop_sys s p : sys s -> p ∈ apps -> wp (rt_timer_stop (TObj p)) (fun _ s' => sys s' /\ threads s' = threads s) s.
Proof.
  intros Hs Hp. destruct (sy_apps _ Hs p Hp) as [Hnn [tm E]]. destruct (ki_timer _ _ (sy_kinv _ Hs)) as [D HD].
  destruct (wp_ok _ _ _ (rt_timer_stop_spec (rt_tick s) D s (TObj p) tm HD ltac:(by apply negb_true_iff, Z.eqb_neq) E))
    as (e & s' & Es & ->).
  apply (ok_wp _ _ _ _ _ Es). split; [|done].
  destruct (stopped_inv (rt_tick s) D s (TObj p) tm) as [HD' _]; [eapply timer_inv_weaken; [done|set_solver]|].
  eapply (sys_retimed s _ D); [done|done|done| | | |].
  - eapply (set_up_background true), Hs. by apply (keeps_stop_timer true _ _ _ _ Es).
  - intros u tm' Eu Hok. exists tm'. split; [|done]. simpl. by rewrite lookup_insert_ne.
  - intros u Hu. by apply (shrinks_timer_stop _ _ _ _ Es).
  - intros q Hq. simpl. destruct (decide (p = q)) as [->|Hne]; [rewrite lookup_insert_eq; eauto|].
    by rewrite lookup_insert_ne by congruence.
Qed.

Lemma service_stop p : p ∈ apps -> service (rt_timer_stop (TObj p)).
Proof.
  intros Hp. apply service_intro.
  - apply obl_timer_stop.
  - apply shrinks_timer_stop.
  - intros. by apply spares_timer_stop.
  - intros s Hs. eapply wp_mono; [by apply stop_sys|]. intros e s' [Hs' Eth]. split; [done|]. by rewrite Eth.
Qed.

(** Changing the period of a timer of the application *)
Lemma service_set_time p time :
  p ∈ apps -> 0 < time < HALF_TICK - 1 -> service (rt_timer_control (TObj p) RT_TIMER_CTRL_SET_TIME time).
Proof.
  intros Hp Ht. apply service_intro.
  - unfold rt_timer_control, upd_timer, get_timer. obl.
  - unfold rt_timer_control. apply keep_bind; [apply _|keep|intros _]. apply keep_bind; [apply _|by apply shrinks_upd_timer|keep].
  - intros. by apply spares_timer_control.
  - intros s Hs. destruct (sy_apps _ Hs p Hp) as [Hnn [tm E]]. destruct (ki_timer _ _ (sy_kinv _ Hs)) as [D HD].
    unfold rt_timer_control. wp_step. wp_step; [by apply negb_true_iff, Z.eqb_neq|]. wp_step.
    eapply wp_upd_timer; [done|]. wp_step. split; [|done]. pose proof (sy_timers _ Hs) as [U1 U2 U3].
    eapply (sys_retimed s _ D); [done|done|by eapply retouch_timer_inv| | |done|].
    + eapply (set_up_insert s p); [apply Hs|done|auto|by apply (U1 p tm)|].
      intros Hper. split; [by apply (U2 p tm E)|done].
    + intros u tm' Eu Hok. exists tm'. split; [|done]. simpl. by rewrite lookup_insert_ne.
    + intros q Hq. simpl. destruct (decide (p = q)) as [->|Hne]; [rewrite lookup_insert_eq; eauto|].
      by rewrite lookup_insert_ne by congruence.
Qed.

(** Releasing a semaphore *)

(** Only the value of a semaphore changes. *)
Lemma with_value_sys s sem x v :
  sys s -> sem_ok s sem x -> 0 <= v < 2 ^ 16 -> (tlists s !!! LSuspend sem <> [] -> v = 0) ->
  sys (with_value sem x v s).
Proof.
  intros [Hk Hl Hx Hidle Hs Ht Hlive Happ] Hx0 Hv Hw. split; try done.
  - by apply with_value_kinv.
  - intros sem' x' E. simpl in E. destruct (decide (sem = sem')) as [<-|Hne].
    + rewrite lookup_insert_eq in E. injection E as <-. destruct Hx0. split; try done. simpl. apply lookup_insert_eq.
    + rewrite lookup_insert_ne in E by done. destruct (Hs _ _ E). split; try done. simpl. by rewrite lookup_insert_ne.
  - destruct Ht. by split.
  - intros sem' Hin. simpl. destruct (decide (sem = sem')) as [<-|Hne]; [rewrite lookup_insert_eq; eauto|].
    rewrite lookup_insert_ne by done. auto.
Qed.

(** What a step of the kernel that changes no semaphore has to show *)
Lemma sys_step strict s s' :
  sys s -> background strict s s' -> sems s' = sems s -> kinv ∅ s' -> rt_scheduler_lock_nest s' = 0 ->
  next_thread s' (rt_current_thread s') ->
  (forall th, threads s !! idle = Some th -> th_stat th = RT_THREAD_READY ->
     exists th', threads s' !! idle = Some th' /\ th_stat th' = RT_THREAD_READY) ->
  (forall sem, tlists s' !!! LSuspend sem <> [] -> tlists s !!! LSuspend sem <> []) -> sys s'.
Proof.
  intros [Hk Hl Hx (th & Ei & Hi) Hs Ht Hlive Happ] Hb Es Hk' Hl' Hx' Hidle Hlist. split; try done.
  - by apply (Hidle th).
  - intros sem x E. rewrite Es in E. eapply sem_ok_other; [by apply Hs|by rewrite Es|by apply Hlist].
  - by eapply set_up_background.
  - by rewrite Es.
  - intros p Hp. destruct (Happ p Hp) as [? [tm E]]. split; [done|]. pose proof (bg_timers _ _ _ Hb p) as Hc.
    rewrite E in Hc. destruct (timers s' !! TObj p); [eauto|done].
Qed.

Lemma release_sys s sem :
  sys s -> is_Some (sems s !! sem) -> wp (rt_sem_release sem) (fun _ s' => sys s' /\
    forall u th, threads s !! u = Some th -> th_stat th = RT_THREAD_READY -> threads s' !! u = Some th) s.
Proof.
  intros Hi [x Ex]. pose proof (sy_sems _ Hi _ _ Ex) as Hx.
  destruct (wp_ok _ _ _ (rt_sem_release_spec s sem x (sy_kinv _ Hi) Hx)) as (e & s' & E & _ & Hrl).
  apply (ok_wp _ _ _ _ _ E). pose proof (keeps_rt_sem_release sem s e s' E) as Hb. unfold sem_released in Hrl.
  destruct (tlists s !!! LSuspend sem) as [|t ws] eqn:El.
  { subst s'. split; [|done]. apply with_value_sys; [done|done|apply uwrap_range; lia|]. by rewrite El. }
  destruct Hrl as (th & Eth & [Hk Hf Ht Hrest _ Hoth _ Hnx]).
  assert (th_stat th = RT_THREAD_SUSPEND) as Hst.
  { eapply suspended_on; [apply Hi|done|by rewrite El; left|done|done]. }
  assert (forall u thu, threads s !! u = Some thu -> th_stat thu = RT_THREAD_READY -> threads s' !! u = Some thu) as Hrd.
  { intros u thu Eu Hu. rewrite Ht. unfold resumed_threads. rewrite lookup_insert_ne; [done|].
    intros ->. rewrite Eth in Eu. simplify_eq. by rewrite Hst in Hu. }
  split; [|exact Hrd].
  eapply (sys_step false s); [done|done|apply Hf|done|by rewrite (fr_lock _ _ Hf); apply Hi|apply Hnx, Hi| |].
  - intros thi Ei Hsi. exists thi. auto.
  - intros sem'. destruct (decide (sem = sem')) as [<-|Hs]; [by rewrite El|]. rewrite Hoth by congruence. done.
Qed.

Lemma service_release sem : sem ∈ live -> service (rt_sem_release sem).
Proof.
  intros Hl. apply service_intro.
  - apply obl_rt_sem_release.
  - apply shrinks_rt_sem_release.
  - intros. apply spares_sem_release.
  - intros s Hs. apply release_sys; [done|]. by apply (sy_live _ Hs).
Qed.
End services.
