(* ===== verification/System.v ===== *)
(** * The running system

    Threads, semaphores, timers and the clock together: whatever sequence of calls the
    threads make, whatever services the timeout functions call and however the ticks
    fall between them, the system stays in its invariant, the processor is with the first
    thread of the highest ready priority, and a thread that sleeps is woken exactly when
    its time has passed. *)
From stdpp Require Import base tactics numbers list gmap.
From S2P Require Import Prelude RtList Kernel Scheduler Object Timer Thread Ipc Semaphore Clock Background Asleep Services.
Local Open Scope Z_scope.

Section system.
Context `{KConfig} `{Allocator}.
Context (user : Z -> Z -> K unit) (idle : ptr) (live apps : gset ptr).
Abbreviation sys := (sys idle live apps).

(** The interrupt of the tick; the loop of the timer check ends at the latest when every
    timer has been handled. *)
Definition SysTick_Handler : K unit :=
  rt_interrupt_enter;;
  s ← get;
  rt_tick_increase user (S (S (length (last_row s))));;
  rt_interrupt_leave.

(** ** The timer check with services *)

Section check.
Context (Huser : forall f p, service idle live apps (user f p)).
Context (base nest : Z) (s0 : kstate).
Abbreviation now := (u32 (base + 1)).

(** The invariant of the loop: the system is right, seen from the tick before; a thread
    that slept when the tick came still does, or its time is over and it has been woken. *)
Record ticking (s : kstate) : Prop := {
  tg_sys : sys (set_rt_tick base s);
  tg_tick : rt_tick s = now;
  tg_nest : rt_interrupt_nest s = nest;
  tg_sleep : forall u th tm, asleep u th tm base s0 -> asleep u th tm now s \/
    offset base (tm_timeout_tick tm) <= 1 /\ threads s !! u = Some (timed_out th)
}.

Lemma at_base_sched s : sys (set_rt_tick base s) -> sched_inv ∅ s.
Proof. intros Hs. apply (sched_inv_eq ∅ (set_rt_tick base s)); [done|]. apply (ki_sched _ _ (sy_kinv _ _ _ _ Hs)). Qed.

Lemma at_base_timers s : sys (set_rt_tick base s) -> exists D, timer_inv base D s.
Proof. intros Hs. destruct (ki_timer _ _ (sy_kinv _ _ _ _ Hs)) as [D HD]. exists D. by eapply timer_inv_eq, HD. Qed.

Lemma sys_removed s r : sys s -> sys (removed_timer r s).
Proof.
  intros Hs. destruct (ki_timer _ _ (sy_kinv _ _ _ _ Hs)) as [D HD].
  eapply (sys_retimed _ _ _ s _ (D ∪ {[r]})); [done|done|by apply removed_timer_inv| |eauto| |done].
  - destruct (sy_timers _ _ _ _ Hs) as [U1 U2 U3]. split; [done|done|]. intros p Hp. apply in_rows_del in Hp. by apply U3.
  - intros u. rewrite (last_row_removed (rt_tick s) D) by done. by intros [_ ?]%elem_of_list_del.
Qed.

(** The flag of a timer that is off the list is cleared. *)
Lemma sys_cleared s r tm :
  sys s -> timers s !! r = Some tm -> r ∉ last_row s ->
  sys (set_timers (<[r := clear_flag RT_TIMER_FLAG_ACTIVATED tm]> (timers s)) s).
Proof.
  intros Hs E Hr. destruct (ki_timer _ _ (sy_kinv _ _ _ _ Hs)) as [D HD].
  eapply (sys_retimed _ _ _ s _ D); [done|done| | | |done|].
  - apply put_timer_inv; [eapply timer_inv_weaken; [done|set_solver]|done|apply has_flag_clear].
  - assert (background true s (set_timers (<[r := clear_flag RT_TIMER_FLAG_ACTIVATED tm]> (timers s)) s)) as Hb.
    { apply (keeps_upd_timer true r (clear_flag RT_TIMER_FLAG_ACTIVATED) cfg_clear s tt).
      unfold upd_timer, get_timer, get, opt, modify, mbind, M_bind. by rewrite E. }
    by eapply set_up_background, Hs.
  - intros u tm' Eu Hok. simpl. destruct (decide (r = TThread u)) as [->|Hne].
    + rewrite lookup_insert_eq. simplify_eq. eexists. split; [done|by apply thread_timer_clear].
    + rewrite lookup_insert_ne by done. eauto.
  - intros p Hp. simpl. destruct (decide (r = TObj p)) as [->|Hne]; [rewrite lookup_insert_eq; eauto|].
    by rewrite lookup_insert_ne.
Qed.

(** A thread whose timer has gone off is made ready. *)
Lemma timeout_ticking s u th :
  sys (set_rt_tick base s) -> rt_tick s = now -> rt_interrupt_nest s = nest ->
  threads s !! u = Some th -> th_stat th = RT_THREAD_SUSPEND -> TThread u ∉ last_row s ->
  (forall v th tm, v <> u -> asleep v th tm base s0 -> asleep v th tm now s \/
    offset base (tm_timeout_tick tm) <= 1 /\ threads s !! v = Some (timed_out th)) ->
  (forall th' tm, asleep u th' tm base s0 -> threads s !! u = Some th' /\ offset base (tm_timeout_tick tm) <= 1) ->
  wp (rt_thread_timeout u) (fun _ s' => ticking s' /\ timers s' = timers s /\ rt_timer_list s' = rt_timer_list s) s.
Proof.
  intros Hs Ht Hne E Hst Hn Hsl Hu. destruct (at_base_timers s Hs) as [D HD].
  eapply wp_mono; [apply (rt_thread_timeout_spec s u th (at_base_sched s Hs) E Hst)|].
  intros _ s' (Hs' & Hf & Eth & Etl & Etm & Er & Hnx). split; [|done]. destruct Hs as [S1 S2 S3 (thi & Ei & Hi) S5 S6 S7 S8].
  assert (forall l, (forall p, l <> LReady p) -> tlists s' !!! l = list_del u (tlists s !!! l)) as Hl.
  { intros l Hl. rewrite Etl. unfold resumed_lists, Abs.insert_back. rewrite lookup_total_insert_ne by congruence.
    apply Abs.lookup_remove. }
  split.
  - split.
    + split; [by apply (sched_inv_eq ∅ s')|exists D; by eapply timer_inv_eq, HD| |].
      * intros v [thv Ev]. simpl in *. rewrite Etm. apply (ki_tt _ _ S1). simpl. rewrite Eth in Ev.
        apply lookup_insert_Some in Ev as [[<- _]|[_ Ev]]; eauto.
      * intros v Hv. assert (TThread v ∈ last_row s) as Hv' by (by rewrite <- (last_row_eq s s' Er)).
        destruct (ki_wait _ _ S1 v Hv') as (thv & Ev & Hsv). exists thv. simpl in *. rewrite Eth.
        rewrite lookup_insert_ne; [done|]. by intros <-.
    + simpl. rewrite (fr_lock _ _ Hf). exact S2.
    + change (next_thread s' (rt_current_thread s')). by apply Hnx.
    + exists thi. split; [|done]. simpl. rewrite Eth, lookup_insert_ne; [done|]. intros <-. simpl in Ei. rewrite E in Ei. simplify_eq.
      by rewrite Hst in Hi.
    + intros sem x Ex. simpl in Ex. rewrite (fr_sems _ _ Hf) in Ex.
      eapply sem_ok_other; [by apply S5|by simpl; rewrite (fr_sems _ _ Hf)|]. simpl. rewrite Hl by done. by destruct (tlists s !!! LSuspend sem).
    + destruct S6 as [U1 U2 U3]. split; simpl in *; [by rewrite Etm|by rewrite Etm|by rewrite Er].
    + simpl in *. by rewrite (fr_sems _ _ Hf).
    + simpl in *. by rewrite Etm.
  - by rewrite (fr_tick _ _ Hf).
  - by rewrite (fr_nest _ _ Hf).
  - intros v thv tmv Ha. destruct (decide (v = u)) as [->|Hvu].
    + right. destruct (Hu thv tmv Ha) as [E' Ho]. assert (thv = th) as -> by congruence. by rewrite Eth, lookup_insert_eq.
    + destruct (Hsl v thv tmv Hvu Ha) as [[A1 A2 A3 A4 A5 A6 A7]|[Ho Ev]].
      * left. assert (forall l, v ∉ tlists s' !!! l) as Hv.
        { intros l. rewrite Etl. unfold resumed_lists, Abs.insert_back.
          destruct (decide (l = LReady (th_current_priority th))) as [->|Hlr].
          - rewrite lookup_total_insert_eq, Abs.lookup_remove, elem_of_app, elem_of_list_del, list_elem_of_singleton.
            intros [[_ ?%A3]|?]; done.
          - rewrite lookup_total_insert_ne, Abs.lookup_remove, elem_of_list_del by done. by intros [_ ?%A3]. }
        split; [by rewrite Eth, lookup_insert_ne| |done|by rewrite (last_row_eq s s' Er)|by rewrite Etm|by rewrite Er|
          by rewrite (fr_tick _ _ Hf)].
        destruct (Hnx S2) as (p & _ & Hh). intros <-. apply (Hv (LReady p)). by apply head_Some_elem_of.
      * right. split; [done|]. by rewrite Eth, lookup_insert_ne.
Qed.

(** ** One round: the first expired timer is taken off the list and handled. *)

Section round.
Context (s : kstate) (r : timer_ref) (l : list timer_ref) (tm : rt_timer).
Context (Hg : ticking s) (El : last_row s = r :: l) (E : timers s !! r = Some tm)
  (Hexp : expired base now s = r :: upto (timer_off base s) (offset base now) l).

Lemma round_rows : r ∉ l /\ last_row (removed_timer r s) = l /\ offset base (tm_timeout_tick tm) <= 1.
Proof.
  destruct (at_base_timers s (tg_sys _ Hg)) as [D HD]. destruct (ti_rows _ _ _ HD) as [Hok _]. rewrite Forall_forall in Hok.
  destruct (Hok (last_row s)) as [Hnd _]; [apply last_Some_elem_of, last_row_last, HD|].
  rewrite El in Hnd. pose proof Hnd as [Hr _]%NoDup_cons. split_and!; [done| |].
  - by rewrite (last_row_removed base D), El, list_del_head by done.
  - assert (r ∈ expired base now s) as Hin by (rewrite Hexp; left). unfold expired, upto in Hin.
    apply list_elem_of_filter in Hin as [Ho _]. unfold timer_off in Ho. by rewrite E, next_offset_one in Ho.
Qed.

(** The thread whose timer it is *)
Lemma round_thread u : r = TThread u ->
  exists th, threads s !! u = Some th /\ th_stat th = RT_THREAD_SUSPEND /\ thread_timer_ok u tm.
Proof.
  intros Er. pose proof (sy_kinv _ _ _ _ (tg_sys _ Hg)) as Hk.
  destruct (ki_wait _ _ Hk u) as (th & Eth & Hst); [change (TThread u ∈ last_row s); rewrite El, Er; left|].
  destruct (ki_tt _ _ Hk u) as (tm' & Etm & Hok); [eauto|]. exists th. simpl in *. rewrite Er in E.
  assert (tm' = tm) as -> by congruence. done.
Qed.

(** Off the list, the thread of the timer is the only one that may not sleep any more. *)
Lemma removed_asleep u th' tm' :
  asleep u th' tm' now s -> r <> TThread u -> asleep u th' tm' now (removed_timer r s).
Proof.
  intros [A1 A2 A3 A4 A5 A6 A7] Hr. destruct round_rows as (_ & Erow & _). split; try done.
  - rewrite Erow. rewrite El in A4. by apply elem_of_cons in A4 as [?|?].
  - simpl. by rewrite length_fmap.
Qed.

(** The state behind the call of the timeout function *)
Record called (s2 : kstate) : Prop := {
  cl_ticking : ticking s2;
  cl_rows : forall x, x ∈ last_row s2 -> x ∈ l;
  cl_timers : forall x, tm_timeout_tick <$> timers s2 !! x = tm_timeout_tick <$> timers s !! x;
  cl_kind : (exists p, r = TObj p) \/ timers s2 !! r = Some tm /\ has_flag RT_TIMER_FLAG_PERIODIC tm = false
}.

Lemma call_safe : wp (call_timeout user (tm_timeout_func tm) (tm_parameter tm)) (fun _ => called) (removed_timer r s).
Proof.
  destruct round_rows as (Hr & Erow & Ho). pose proof Hg as [Hs Ht Hne Hsl].
  assert (sys (set_rt_tick base (removed_timer r s))) as Hs1 by (by apply (sys_removed (set_rt_tick base s))).
  destruct (tm_timeout_func tm) as [|f] eqn:Ef; simpl.
  - assert (exists u, r = TThread u) as [u Er].
    { destruct r as [u|p]; [eauto|]. by destruct (su_user _ (sy_timers _ _ _ _ Hs) p tm). }
    destruct (round_thread u Er) as (th & Eth & Hst & (_ & -> & _ & Hper)).
    eapply wp_mono; [apply (timeout_ticking (removed_timer r s) u th); [done|done|done|done|done| | |]|].
    + by rewrite Erow, <- Er.
    + intros v thv tmv Hv Ha. destruct (Hsl v thv tmv Ha) as [Ha'|?]; [left|by right].
      apply removed_asleep; [done|congruence].
    + intros th' tm' Ha. destruct (Hsl u th' tm' Ha) as [[A1 _ _ _ A5 _ _]|[_ Eu]].
      * split; [done|]. rewrite Er in E. by simplify_eq.
      * exfalso. rewrite Eth in Eu. injection Eu as ->. done.
    + intros _ s2 (Hg2 & Etm2 & Er2). split; [done| | |right; by rewrite Etm2].
      * intros x. by rewrite (last_row_eq _ _ Er2), Erow.
      * intros x. by rewrite Etm2.
  - eapply wp_mono; [by apply Huser|]. intros _ s2 [Hs2 Hv]. pose proof (sv_shrinks _ _ Hv) as [N1 N2 N3].
    assert (forall u, r <> TThread u) as Hru.
    { intros u Hu. destruct (round_thread u Hu) as (_ & _ & _ & (Hf & _)). by rewrite Ef in Hf. }
    split.
    + split; [done|by rewrite (sv_tick _ _ Hv)|by rewrite N1|]. intros u th tm' Ha.
      destruct (Hsl u th tm' Ha) as [Ha'|[Ho' Eu]].
      * left. assert (rt_tick (removed_timer r s) = now) as Ht1 by exact Ht. rewrite <- Ht1. apply (sv_asleep _ _ Hv).
        rewrite Ht1. apply removed_asleep; [done|apply Hru].
      * right. split; [done|]. by apply (sv_ready _ _ Hv).
    + intros x Hx. rewrite <- Erow. by apply N2.
    + intros x. by rewrite N3.
    + left. destruct r as [u|p]; [by destruct (Hru u)|eauto].
Qed.

Lemma expired_less s3 :
  ticking s3 -> (forall x, x ∈ last_row s3 -> timer_off base s3 x <= 1 -> x ∈ l /\ timer_off base s3 x = timer_off base s x) ->
  (length (expired base now s3) < length (expired base now s))%nat.
Proof.
  intros Hg3 Hsub. rewrite Hexp. simpl. apply Nat.lt_succ_r. apply submseteq_length, NoDup_submseteq.
  - destruct (at_base_timers s3 (tg_sys _ Hg3)) as [D HD]. by eapply expired_nodup.
  - intros x. unfold expired, upto. rewrite !list_elem_of_filter, next_offset_one. intros [Ho Hx].
    destruct (Hsub x Hx Ho) as [Hl Eo]. by rewrite <- Eo.
Qed.

Section behind.
Context (s2 : kstate) (tm2 : rt_timer) (Hc : called s2) (E2 : timers s2 !! r = Some tm2).

Lemma called_off : r ∉ last_row s2.
Proof. intros Hr. by apply (cl_rows _ Hc), round_rows in Hr. Qed.

Lemma called_timer_off x : timer_off base s2 x = timer_off base s x.
Proof. unfold timer_off. pose proof (cl_timers _ Hc x) as Hx. destruct (timers s2 !! x), (timers s !! x); simpl in *; congruence. Qed.

Abbreviation cleared := (set_timers (<[r := clear_flag RT_TIMER_FLAG_ACTIVATED tm2]> (timers s2)) s2).

Lemma cleared_ticking : ticking cleared.
Proof.
  pose proof (cl_ticking _ Hc) as [Hs Ht Hn Hsl]. split; [|done|done|].
  - by apply (sys_cleared (set_rt_tick base s2)); [..|apply called_off].
  - intros u th tm' Ha. destruct (Hsl u th tm' Ha) as [[A1 A2 A3 A4 A5 A6 A7]|?]; [left|by right]. split; try done.
    simpl. rewrite lookup_insert_ne; [done|]. intros Hr. apply called_off. by rewrite Hr.
Qed.

Lemma cleared_less : (length (expired base now cleared) < length (expired base now s))%nat.
Proof.
  apply expired_less; [apply cleared_ticking|]. intros x Hx _. change (x ∈ last_row s2) in Hx.
  split; [by apply (cl_rows _ Hc)|]. rewrite <- called_timer_off. unfold timer_off. simpl. rewrite lookup_insert_ne; [done|].
  intros <-. by apply called_off.
Qed.

Lemma restart_safe :
  has_flag RT_TIMER_FLAG_PERIODIC tm2 = true ->
  wp (rt_timer_start r) (fun _ s' => ticking s' /\ (length (expired base now s') < length (expired base now s))%nat) cleared.
Proof.
  intros Hper. assert (exists p, r = TObj p) as [p Er].
  { destruct (cl_kind _ Hc) as [?|[E3 Hf]]; [done|]. congruence. }
  pose proof cleared_ticking as Hg3. pose proof (cl_ticking _ Hc) as [Hs Ht Hn Hsl].
  destruct (at_base_timers cleared (tg_sys _ Hg3)) as [D HD].
  assert (timers (set_rt_tick base s2) !! TObj p = Some tm2) as Ep by (by rewrite <- Er).
  destruct (su_period _ (sy_timers _ _ _ _ Hs) p tm2 Ep Hper) as [Hfl Hini].
  assert (offset base (u32 (rt_tick cleared + tm_init_tick tm2)) = 1 + tm_init_tick tm2) as Hoff.
  { simpl. rewrite Ht. apply next_offset_add. lia. }
  assert (timer_nonnull r = true) as Hnn.
  { rewrite Er. apply negb_true_iff, Z.eqb_neq. apply (su_nonnull _ (sy_timers _ _ _ _ (tg_sys _ Hg))), last_row_in_rows.
    change (TObj p ∈ last_row s). rewrite El, Er. left. }
  destruct (wp_ok _ _ _ (rt_timer_start_spec base D cleared r (clear_flag RT_TIMER_FLAG_ACTIVATED tm2) HD Hnn
    ltac:(apply lookup_insert_eq) ltac:(simpl; lia) ltac:(unfold clear_flag, tm_flag in *; simpl; apply Z.land_nonneg; by left)
    ltac:(simpl in *; rewrite Hoff; change HALF_TICK with 2147483647 in *; lia)))
    as (e & s4 & E4 & -> & Hi & Hrt & Etm & Elast & Hoff4).
  apply (ok_wp _ _ _ _ _ E4). assert (ticking s4) as Hg4.
  { split.
    - eapply (sys_retimed _ _ _ (set_rt_tick base cleared) _ D); [apply Hg3| |by eapply timer_inv_eq, Hi| | | |].
      + unfold retimed in *. rewrite Hrt at 1. reflexivity.
      + assert (timers_set_up s4) as [].
        { eapply (set_up_background true cleared); [by apply (keeps_rt_timer_start true r _ _ _ E4)|].
          destruct (sy_timers _ _ _ _ (tg_sys _ Hg3)). by split. }
        by split.
      + intros u tm' Eu Hok. exists tm'. split; [|done]. simpl in *. by rewrite Etm, lookup_insert_ne by congruence.
      + intros u Hu. change (TThread u ∈ last_row s4) in Hu. rewrite Elast, elem_ordered_insert, Er in Hu.
        destruct Hu as [?|[_ Hu]%elem_of_list_del]; [done|exact Hu].
      + intros q Hq. simpl in *. rewrite Etm. destruct (decide (r = TObj q)) as [->|Hne]; [rewrite lookup_insert_eq; eauto|].
        by rewrite lookup_insert_ne.
    - by rewrite Hrt.
    - by rewrite Hrt.
    - intros u th tm' Ha. destruct (tg_sleep _ Hg3 u th tm' Ha) as [Ha'|?]; [left|right; by rewrite Hrt].
      eapply (spares_timer_start u th tm' now r); [congruence|exact Ha'|exact E4]. }
  split; [done|]. apply expired_less; [done|]. intros x Hx Ho. rewrite Elast, elem_ordered_insert in Hx.
  destruct Hx as [->|[Hne Hx]%elem_of_list_del].
  - exfalso. unfold timer_off in Ho. rewrite Etm, lookup_insert_eq in Ho. simpl in Ho, Hoff. rewrite Hoff in Ho. lia.
  - change (x ∈ last_row s2) in Hx. split; [by apply (cl_rows _ Hc)|]. rewrite <- called_timer_off. unfold timer_off.
    rewrite Etm. simpl. by rewrite !lookup_insert_ne by congruence.
Qed.
End behind.
End round.

(** ** The loop *)

Lemma check_safe s fuel :
  ticking s -> (length (expired base now s) < fuel)%nat ->
  wp (rt_timer_check (call_timeout user) (S fuel)) (fun _ s' => ticking s' /\ expired base now s' = []) s.
Proof.
  intros Hg0 Hfuel. unfold rt_timer_check. wp_step. unfold rt_tick_get. wp_step. rewrite (tg_tick _ Hg0). wp_step.
  apply (wp_while (fun '(cur, stop) s => cur = now /\ ticking s /\ (stop = true -> expired base now s = []))
    (fun '(_, stop) s => if stop : bool then O else S (length (expired base now s)))).
  - done.
  - lia.
  - intros [cur stop] s1 (-> & Hg & Hst). wp_step. wp_step. wp_step. destruct stop; simpl.
    { wp_step. auto. }
    case_bool_decide as Hne; simpl.
    { wp_step. split; [done|]. unfold expired, upto. by rewrite Hne. }
    destruct (last_row s1) as [|r l] eqn:El; [done|]. destruct (at_base_timers s1 (tg_sys _ Hg)) as [D HD].
    destruct (ti_window _ _ _ HD r) as (tm & E & _); [rewrite El; left|].
    wp_step. wp_step. wp_step. eapply wp_opt; [by rewrite El|]. wp_step. eapply wp_get_timer; [done|].
    destruct (expired_head base now D ltac:(by rewrite next_offset_one) s1 r l tm HD El E) as [[-> Hexp]|[-> Hexp]].
    2: { wp_step. split; [|lia]. split; [done|]. by split. }
    wp_step. unfold _rt_timer_remove. wp_step. wp_step.
    eapply wp_mono; [by apply (call_safe s1 r l tm)|]. intros ? s2 Hc. cbv beta in Hc.
    wp_step. wp_step. rewrite (tg_tick _ (cl_ticking _ _ _ _ _ Hc)).
    assert (exists tm2, timers s2 !! r = Some tm2) as [tm2 E2].
    { pose proof (cl_timers _ _ _ _ _ Hc r) as Hx. rewrite E in Hx. destruct (timers s2 !! r); [eauto|done]. }
    wp_step. eapply wp_get_timer; [done|]. wp_step.
    destruct (has_flag RT_TIMER_FLAG_PERIODIC tm2) eqn:Hp; simpl;
      [destruct (has_flag RT_TIMER_FLAG_ACTIVATED tm2)|]; simpl.
    + wp_step. eapply wp_upd_timer; [done|]. wp_step.
      eapply wp_mono; [by apply (restart_safe s1 r l tm Hg El E Hexp s2 tm2)|]. intros e s3 [Hg3 Hlt]. wp_step. wp_step.
      split; [done|lia].
    + eapply wp_upd_timer; [done|]. wp_step. pose proof (cleared_less s1 r l tm Hg El E Hexp s2 tm2 Hc E2).
      split; [split; [done|split; [by apply (cleared_ticking s1 r l tm Hg El E Hexp)|done]]|lia].
    + eapply wp_upd_timer; [done|]. wp_step. pose proof (cleared_less s1 r l tm Hg El E Hexp s2 tm2 Hc E2).
      split; [split; [done|split; [by apply (cleared_ticking s1 r l tm Hg El E Hexp)|done]]|lia].
Qed.

(** When no timer of the tick is left, the invariant is that of the new tick. *)
Lemma checked_sys s : ticking s -> expired base now s = [] -> sys s.
Proof.
  intros [Hs Ht Hn _] He. destruct (at_base_timers s Hs) as [D HD]. destruct Hs as [[K1 _ K3 K4] S2 S3 S4 S5 [U1 U2 U3] S7 S8].
  split; try done.
  - split; [by apply (sched_inv_eq ∅ (set_rt_tick base s))| |done|done]. exists D. rewrite Ht.
    eapply timer_inv_rebase; [done|by rewrite next_offset_one|]. intros r tm Hr E. rewrite next_offset_one.
    destruct (Z_le_gt_dec (offset base (tm_timeout_tick tm)) 1) as [Ho|?]; [exfalso|lia].
    assert (r ∈ expired base now s) as Hin; [|rewrite He in Hin; by apply elem_of_nil in Hin].
    apply list_elem_of_filter. rewrite next_offset_one. unfold timer_off. by rewrite E.
  - intros sem x E. destruct (S5 sem x E). by split.
Qed.
End check.

(** ** The whole tick *)

(** Outside interrupts *)
Record sys_inv (s : kstate) : Prop := {
  sy_sys : sys s;
  sy_nest : rt_interrupt_nest s = 0
}.

(** The running thread is a ready thread. *)
Lemma next_running s :
  kinv ∅ s -> rt_interrupt_nest s = 0 -> next_thread s (rt_current_thread s) ->
  exists th, running s (rt_current_thread s) th.
Proof.
  intros Hk Hn (p & _ & Hh). destruct (ready s p) as [|t l] eqn:El; [done|]. injection Hh as Et. subst t.
  assert (rt_current_thread s ∈ tlists s !!! LReady p) as Hin by (change (rt_current_thread s ∈ ready s p); rewrite El; left).
  destruct (si_exist _ _ (ki_sched _ _ Hk) _ _ Hin) as [th E].
  destruct (kinv_thread _ _ _ _ Hk (not_elem_of_empty _) E) as [C1 _ _ _ _ C6 _].
  exists th. split; try done. apply (C6 _ Hin).
Qed.

Lemma objects_sems s s' : objects s' = objects s -> sems s' = sems s.
Proof. unfold objects. by intros [= ?]. Qed.

(** The running thread has been charged: the check begins. *)
Lemma charged_ticking s th sA :
  sys s -> threads s !! rt_current_thread s = Some th -> th_stat th = RT_THREAD_READY ->
  charged s (rt_current_thread s) th sA -> ticking (rt_tick s) (rt_interrupt_nest s) s sA.
Proof.
  intros [S1 S2 S3 (thi & Ei & Hi) S5 [U1 U2 U3] S7 S8] E Hst [G1 G2 G3 G4 G5 G6 G7 G8 G9 G10 G11].
  destruct (ki_timer _ _ S1) as [D HD]. apply objects_sems in G7.
  assert (next_thread sA (rt_current_thread sA)) as Hnx by auto. split; [split|done|done|].
  - split; [by apply (sched_inv_eq ∅ sA)|exists D; by eapply timer_inv_eq, HD| |].
    + intros u Hu. simpl in *. rewrite G4. apply (ki_tt _ _ S1). rewrite G3 in Hu.
      destruct (decide (rt_current_thread s = u)) as [<-|?]; [eauto|by rewrite lookup_insert_ne in Hu].
    + intros u Hu. assert (TThread u ∈ last_row s) as Hu' by (by rewrite <- (last_row_eq s sA G5)).
      destruct (ki_wait _ _ S1 u Hu') as (thu & Eu & Hsu). exists thu. simpl. rewrite G3, lookup_insert_ne; [done|].
      intros <-. rewrite E in Eu. simplify_eq. by rewrite Hst in Hsu.
  - simpl. by rewrite G9.
  - exact Hnx.
  - simpl. rewrite G3. destruct (decide (rt_current_thread s = idle)) as [Ec|Hne].
    + rewrite Ec, lookup_insert_eq. exists (counted th). by split.
    + rewrite lookup_insert_ne by done. eauto.
  - intros sem x Ex. simpl in Ex. rewrite G7 in Ex. eapply sem_ok_other; [by apply S5|by simpl; rewrite G7|]. simpl. by rewrite G11.
  - split; simpl in *; [by rewrite G4|by rewrite G4|by rewrite G5].
  - simpl. by rewrite G7.
  - simpl. by rewrite G4.
  - intros u thu tmu [A1 A2 A3 A4 A5 A6 A7]. left. assert (forall l, u ∉ tlists sA !!! l) as Hu.
    { intros l. destruct l as [p| | |].
      { change (u ∉ ready sA p). rewrite G6. unfold turned. destruct (_ && _); [|apply A3].
        rewrite elem_of_app, elem_of_list_del, list_elem_of_singleton. intros [[_ ?%A3]|?]; congruence. }
      all: rewrite G11 by done; apply A3. }
    split; [by rewrite G3, lookup_insert_ne| |done|by rewrite (last_row_eq s sA G5)|by rewrite G4|by rewrite G5|done].
    destruct Hnx as (p & _ & Hh). intros <-. apply (Hu (LReady p)). by apply head_Some_elem_of.
Qed.

Lemma due_length s : (length (expired (rt_tick s) (u32 (rt_tick s + 1)) s) <= length (last_row s))%nat.
Proof. unfold expired, upto. apply length_filter. Qed.

(** A tick, from the interrupt's entry to its exit: a sleeping thread whose time is over
    is ready with the error -RT_ETIMEOUT, and every other one sleeps on. *)
Lemma tick_run s :
  (forall f p, service idle live apps (user f p)) -> sys_inv s ->
  exists s', SysTick_Handler s = Ok tt s' /\ sys_inv s' /\ rt_tick s' = u32 (rt_tick s + 1) /\
    forall u th tm, asleep u th tm (rt_tick s) s ->
      if offset (rt_tick s) (tm_timeout_tick tm) <=? 1 then threads s' !! u = Some (timed_out th)
      else asleep u th tm (rt_tick s') s'.
Proof.
  intros Huser [Hs Hn]. destruct (next_running s) as [th [R1 R2 R3 R4 R5]]; [apply Hs|done|apply Hs|].
  set (s1 := set_rt_interrupt_nest 1 s).
  assert (sys s1) as Hs1.
  { destruct Hs as [[K1 [D HD] K3 K4] S2 S3 S4 S5 [U1 U2 U3] S7 S8]. split; try done.
    - split; [by apply (sched_inv_eq ∅ s)|exists D; by eapply timer_inv_eq, HD|done|done].
    - intros sem x E. destruct (S5 sem x E). by split. }
  assert (wp (rt_tick_increase user (S (S (length (last_row s))))) (fun _ s' => ticking (rt_tick s) 1 s1 s' /\
    expired (rt_tick s) (u32 (rt_tick s + 1)) s' = []) s1) as Hw.
  { unfold rt_tick_increase. eapply (charge_spec s1 (rt_current_thread s) th); [apply Hs1|done|done|done|].
    intros sA Hcg. pose proof (charged_ticking s1 th sA Hs1 R2 R3 Hcg) as Hg.
    apply check_safe; [done|done|]. pose proof Hcg as [_ _ _ G4 G5 _ _ _ _ _ _]. pose proof (due_length s) as Hd.
    assert (expired (rt_tick s) (u32 (rt_tick s + 1)) sA = expired (rt_tick s) (u32 (rt_tick s + 1)) s) as ->; [|lia].
    unfold expired. rewrite (last_row_eq s sA G5). apply upto_ext. intros x _. unfold timer_off. by rewrite G4. }
  destruct (wp_ok _ _ _ Hw) as ([] & s2 & E2 & Hg & He). exists (set_rt_interrupt_nest 0 s2).
  pose proof (checked_sys _ _ _ s2 Hg He) as Hs2. pose proof Hg as [_ Ht Hn2 Hsl].
  assert (SysTick_Handler s = Ok tt (set_rt_interrupt_nest 0 s2)) as Er.
  { unfold SysTick_Handler. rewrite (run_bind _ _ _ tt s1) by (unfold rt_interrupt_enter, modify; by rewrite Hn).
    rewrite (run_bind _ _ _ s1 s1) by done. change (last_row s1) with (last_row s).
    rewrite (run_bind _ _ _ _ _ E2). unfold rt_interrupt_leave, modify. by rewrite Hn2. }
  split_and!; [done| |done|].
  - split; [|done]. destruct Hs2 as [[K1 [D HD] K3 K4] S2 S3 S4 S5 [U1 U2 U3] S7 S8]. split; try done.
    + split; [by apply (sched_inv_eq ∅ s2)|exists D; by eapply timer_inv_eq, HD|done|done].
    + intros sem x E. destruct (S5 sem x E). by split.
  - intros u thu tmu [A1 A2 A3 A4 A5 A6 A7]. simpl. rewrite Ht.
    destruct (Hsl u thu tmu) as [Ha|[Ho Eu]]; [by split| |].
    + destruct (Z.leb_spec (offset (rt_tick s) (tm_timeout_tick tmu)) 1) as [Ho|Ho]; [exfalso|by destruct Ha].
      destruct Ha as [_ _ _ B4 B5 _ _].
      assert (TThread u ∈ expired (rt_tick s) (u32 (rt_tick s + 1)) s2) as Hin; [|rewrite He in Hin; by apply elem_of_nil in Hin].
      apply list_elem_of_filter. rewrite next_offset_one. unfold timer_off. by rewrite B5.
    + destruct (Z.leb_spec (offset (rt_tick s) (tm_timeout_tick tmu)) 1); [done|lia].
Qed.

(** ** The calls of the threads *)

(** What the running thread may call, and the tick *)
Inductive call :=
| Take (sem : ptr) (time : Z)
| Release (sem : ptr)
| Sleep (tick : Z)
| Woken
| Yield
| StartTimer (p : ptr)
| StopTimer (p : ptr)
| Tick.
#[global] Instance call_eq_dec : EqDecision call.
Proof. solve_decision. Defined.

Definition exec (c : call) : K unit :=
  match c with
  | Take sem time => rt_sem_take sem time;; mret tt
  | Release sem => rt_sem_release sem;; mret tt
  | Sleep tick => rt_thread_sleep tick
  | Woken => t ← rt_thread_self; rt_thread_sleep_resume t;; mret tt
  | Yield => rt_thread_yield;; mret tt
  | StartTimer p => rt_timer_start (TObj p);; mret tt
  | StopTimer p => rt_timer_stop (TObj p);; mret tt
  | Tick => SysTick_Handler
  end.

(** The idle thread never waits; semaphores and timers exist; timeouts and periods are
    less than half the range of the tick. *)
Definition allowed (s : kstate) (c : call) : Prop :=
  match c with
  | Take sem time => rt_current_thread s <> idle /\ is_Some (sems s !! sem) /\ time < HALF_TICK
  | Release sem => is_Some (sems s !! sem)
  | Sleep tick => rt_current_thread s <> idle /\ 0 <= tick < HALF_TICK
  | StartTimer p => p ∈ apps /\ exists tm, timers s !! TObj p = Some tm /\ 0 <= tm_flag tm /\ 0 <= tm_init_tick tm < HALF_TICK
  | StopTimer p => p ∈ apps
  | Woken | Yield | Tick => True
  end.

Lemma idle_ready s : sys s -> rt_current_thread s <> idle -> other_ready s (rt_current_thread s).
Proof.
  intros [Hk _ _ (th & E & Hst) _ _ _ _] Hne.
  destruct (kinv_thread _ _ _ _ Hk (not_elem_of_empty _) E) as [_ _ _ _ _ _ C7]. exists (th_current_priority th), idle.
  split; [done|by apply C7].
Qed.

Lemma list_del_nonempty {A} `{EqDecision A} (x : A) l : list_del x l <> [] -> l <> [].
Proof. by destruct l. Qed.

Lemma sleep_safe s n :
  sys_inv s -> rt_current_thread s <> idle -> 0 <= n < HALF_TICK ->
  exists s', rt_thread_sleep n s = Ok tt s' /\ sys s'.
Proof.
  intros [Hi Hnest] Hne Hn. destruct (next_running s) as [th [R1 R2 R3 R4 R5]]; [apply Hi|done|apply Hi|].
  destruct (wp_ok _ _ _ (rt_thread_sleep_spec s (rt_current_thread s) th n (sy_kinv _ _ _ _ Hi) eq_refl R2 R3 (idle_ready _ Hi Hne) Hn))
    as ([] & s' & E & Hk & Hf & Eth & Etl & _ & _ & Hnx).
  exists s'. split; [done|]. apply (sys_step _ _ _ true s); [done|by eapply keeps_rt_thread_sleep|apply Hf|done| | | |].
  - rewrite (fr_lock _ _ Hf). apply Hi.
  - apply Hnx, Hi.
  - intros thi Ei Hst. exists thi. rewrite Eth, lookup_insert_ne by done. done.
  - intros sem. rewrite Etl, Abs.lookup_remove. apply list_del_nonempty.
Qed.

Lemma yield_safe s : sys_inv s -> exists e s', rt_thread_yield s = Ok e s' /\ sys s'.
Proof.
  intros [Hi Hnest]. destruct (next_running s) as [th [R1 R2 R3 R4 R5]]; [apply Hi|done|apply Hi|].
  destruct (wp_ok _ _ _ (rt_thread_yield_spec s (rt_current_thread s) th (sy_kinv _ _ _ _ Hi) eq_refl R2 R3))
    as (e & s' & E & _ & Hk & Hf & Eth & _ & _ & Hc).
  exists e, s'. split; [done|]. destruct Hc as [[_ ->]|(_ & _ & Hl & Hnx)]; [done|].
  apply (sys_step _ _ _ true s); [done|by eapply (keeps_sched (background true)), E; apply sched_yield|apply Hf|done| | | |].
  - rewrite (fr_lock _ _ Hf). apply Hi.
  - apply Hnx, Hi.
  - intros thi Ei Hst. exists thi. by rewrite Eth.
  - intros sem. by rewrite Hl.
Qed.

Lemma take_safe s sem time :
  sys_inv s -> rt_current_thread s <> idle -> is_Some (sems s !! sem) -> time < HALF_TICK ->
  exists r s', rt_sem_take sem time s = Ok r s' /\ sys s'.
Proof.
  intros [Hi Hnest] Hne [x Ex] Ht. destruct (next_running s) as [th Hr]; [apply Hi|done|apply Hi|].
  pose proof (sy_sems _ _ _ _ Hi _ _ Ex) as Hx.
  destruct (wp_ok _ _ _ (rt_sem_take_spec s sem x _ th time (sy_kinv _ _ _ _ Hi) Hx Hr (idle_ready _ Hi Hne) Ht))
    as (r & s' & E & Htk). exists r, s'. split; [done|].
  pose proof (keeps_rt_sem_take sem time s r s' E) as Hb. unfold sem_taken in Htk.
  destruct (Z.ltb_spec 0 (sem_value x)) as [Hv|Hv].
  { destruct Htk as [_ ->]. pose proof (sok_value _ _ _ Hx). apply with_value_sys; [done|done|lia|].
    intros Hw. apply Hx in Hw. lia. }
  destruct (time =? 0); [by destruct Htk as [_ ->]|]. destruct Htk as [_ [Hk Hf Eth Etl _ Hnx]].
  assert (sem_value x = 0) as Hv0 by (pose proof (sok_value _ _ _ Hx); lia). destruct Hr as [R1 R2 R3 R4 R5].
  split; [done|by rewrite (fr_lock _ _ Hf); apply Hi|apply Hnx, Hi| | | | |].
  - destruct (sy_idle _ _ _ _ Hi) as (thi & Ei & Hst). exists thi. rewrite Eth. simpl. by rewrite !lookup_insert_ne.
  - intros sem' x' E'. rewrite (fr_sems _ _ Hf) in E'. simpl in E'. pose proof (sy_sems _ _ _ _ Hi _ _ E') as [].
    split; try done; [by rewrite (fr_sems _ _ Hf)|]. rewrite Etl. destruct (decide (sem = sem')) as [<-|Hs].
    + intros _. congruence.
    + rewrite lookup_total_insert_ne by congruence. rewrite Abs.lookup_remove. intros Hd%list_del_nonempty. auto.
  - by eapply set_up_background, Hi.
  - rewrite (fr_sems _ _ Hf). apply Hi.
  - intros p Hp. destruct (sy_apps _ _ _ _ Hi p Hp) as [? [tm Etm]]. split; [done|]. pose proof (bg_timers _ _ _ Hb p) as Hc.
    rewrite Etm in Hc. destruct (timers s' !! TObj p); [eauto|done].
Qed.

Lemma woken_safe s : sys_inv s -> exists e s', rt_thread_sleep_resume (rt_current_thread s) s = Ok e s' /\ sys s'.
Proof.
  intros [Hi Hnest]. destruct (next_running s) as [th [R1 R2 R3 R4 R5]]; [apply Hi|done|apply Hi|].
  unfold rt_thread_sleep_resume. rewrite (run_bind _ _ _ th s) by (unfold get_thread, get, opt, mbind, M_bind; by rewrite R2).
  destruct (th_error th =? - RT_ETIMEOUT); [|by exists RT_EOK, s].
  exists RT_EOK, (set_threads (<[rt_current_thread s := set_th_error RT_EOK th]> (threads s)) s). split.
  { unfold when, upd_thread, put_thread, get_thread, get, opt, modify, mbind, M_bind. by rewrite R2. }
  destruct Hi as [Hk Hl Hx (thi & Ei & Hst) Hs Ht Hlive Happ]. split; try done.
  - by eapply kinv_retouch.
  - simpl. destruct (decide (rt_current_thread s = idle)) as [->|Hne].
    + rewrite lookup_insert_eq. eauto.
    + rewrite lookup_insert_ne by done. eauto.
  - intros sem x E. by destruct (Hs sem x E).
  - destruct Ht. by split.
Qed.

Lemma start_safe s p tm :
  sys s -> p ∈ apps -> timers s !! TObj p = Some tm -> 0 <= tm_flag tm -> 0 <= tm_init_tick tm < HALF_TICK ->
  exists e s', rt_timer_start (TObj p) s = Ok e s' /\ sys s'.
Proof.
  intros Hs Hp E Hfl Hini. destruct (sy_apps _ _ _ _ Hs p Hp) as [Hnn _]. destruct (ki_timer _ _ (sy_kinv _ _ _ _ Hs)) as [D HD].
  destruct (wp_ok _ _ _ (rt_timer_start_spec (rt_tick s) D s (TObj p) tm HD ltac:(by apply negb_true_iff, Z.eqb_neq) E
    ltac:(lia) Hfl ltac:(rewrite offset_add; change HALF_TICK with 2147483647 in *; lia)))
    as (e & s' & E' & -> & Hi & Hrt & Etm & Elast & _).
  exists RT_EOK, s'. split; [done|]. eapply (sys_retimed _ _ _ s _ D); [done|done|done| | | |].
  - eapply (set_up_background true), Hs. by apply (keeps_rt_timer_start true _ _ _ _ E').
  - intros u tm' Eu Hok. exists tm'. by rewrite Etm, lookup_insert_ne.
  - intros u. rewrite Elast, elem_ordered_insert. by intros [?|[_ ?]%elem_of_list_del].
  - intros q Hq. rewrite Etm. destruct (decide (p = q)) as [->|Hne]; [rewrite lookup_insert_eq; eauto|].
    by rewrite lookup_insert_ne by congruence.
Qed.

Lemma exec_nest s c s' : exec c s = Ok tt s' -> c <> Tick -> rt_interrupt_nest s' = rt_interrupt_nest s.
Proof.
  intros E Hc. assert (keeps (background false) (exec c)) as Hk; [|by apply (bg_nest _ _ _ (Hk s tt s' E))].
  clear s s' E. destruct c; simpl; try done.
  - apply keep_bind; [apply _|apply keeps_rt_sem_take|keep].
  - apply keep_bind; [apply _|apply keeps_rt_sem_release|keep].
  - apply keeps_rt_thread_sleep.
  - unfold rt_thread_self. keep. apply keeps_sched; [apply _|apply sched_sleep_resume].
  - keep.
  - apply keep_bind; [apply _|apply keeps_rt_timer_start|keep].
  - apply keep_bind; [apply _|apply keeps_stop_timer|keep].
Qed.

Lemma exec_safe s c :
  (forall f p, service idle live apps (user f p)) -> sys_inv s -> allowed s c ->
  exists s', exec c s = Ok tt s' /\ sys_inv s'.
Proof.
  intros Hu Hi Ha. destruct (decide (c = Tick)) as [->|Hc].
  { destruct (tick_run s Hu Hi) as (s' & E & Hi' & _). eauto. }
  assert (exists s', exec c s = Ok tt s' /\ sys s') as (s' & E & Hs').
  { assert (forall A (m : K A), (exists e s', m s = Ok e s' /\ sys s') -> exists s', (m;; mret tt) s = Ok tt s' /\ sys s') as Hdrop.
    { intros A m (e & s' & E & Hi'). exists s'. split; [|done]. by rewrite (run_bind _ _ _ _ _ E). }
    pose proof (sy_sys _ Hi) as Hs. destruct c; simpl in *; try done.
    - destruct Ha as (Hne & Hx & Ht). apply Hdrop. by apply take_safe.
    - apply Hdrop. destruct (wp_ok _ _ _ (release_sys _ _ _ s sem Hs Ha)) as (e & s' & E & Hs' & _). eauto.
    - destruct Ha as [Hne Hn]. by apply sleep_safe.
    - rewrite (run_bind _ _ s (rt_current_thread s) s) by done. apply Hdrop. by apply woken_safe.
    - apply Hdrop. by apply yield_safe.
    - destruct Ha as (Hp & tm & Etm & Hfl & Hini). apply Hdrop. by eapply start_safe.
    - apply Hdrop. destruct (wp_ok _ _ _ (stop_sys _ _ _ s p Hs Ha)) as (e & s' & E & Hs' & _). eauto. }
  exists s'. split; [done|]. split; [done|]. rewrite (exec_nest s c s' E Hc). apply Hi.
Qed.

(** A sequence of calls and ticks, and the states it leads to *)
Inductive steps : kstate -> list call -> kstate -> Prop :=
| steps_nil s : steps s [] s
| steps_cons s c s1 cs s' : allowed s c -> exec c s = Ok tt s1 -> steps s1 cs s' -> steps s (c :: cs) s'.

Lemma steps_inv s cs s' :
  (forall f p, service idle live apps (user f p)) -> sys_inv s -> steps s cs s' -> sys_inv s'.
Proof.
  intros Hu Hi Hst. revert Hi. induction Hst as [|s c s1 cs s' Ha E _ IH]; intros Hi; [done|].
  destruct (exec_safe s c Hu Hi Ha) as (s2 & E2 & Hi2). rewrite E in E2. apply Ok_inj in E2 as [_ <-]. auto.
Qed.

(** ** Sleeping *)

Definition ticks (cs : list call) : Z := Z.of_nat (length (filter (fun c => c = Tick) cs)).

(** A call other than the tick leaves a sleeping thread alone. *)
Lemma exec_asleep c s s' u th tm :
  c <> Tick -> exec c s = Ok tt s' -> asleep u th tm (rt_tick s) s -> asleep u th tm (rt_tick s) s'.
Proof.
  intros Hc E Ha. assert (spares u th tm (rt_tick s) (exec c) (fun _ => True)) as Hsp; [|by apply (Hsp s tt s')].
  clear E. destruct c; simpl; try done.
  - eapply spares_bind; [apply spares_sem_take|intros; apply spares_ret_any].
  - eapply spares_bind; [apply spares_sem_release|intros; apply spares_ret_any].
  - apply spares_sleep.
  - eapply spares_bind; [apply spares_self|]. intros v Hv.
    eapply spares_bind; [by apply spares_sleep_resume|intros; apply spares_ret_any].
  - eapply spares_bind; [apply spares_yield|intros; apply spares_ret_any].
  - eapply spares_bind; [by apply spares_timer_start|intros; apply spares_ret_any].
  - eapply spares_bind; [by apply spares_timer_stop|intros; apply spares_ret_any].
Qed.

Lemma offset_next base k t : offset base t = k -> 1 <= k -> offset (u32 (base + 1)) t = k - 1.
Proof.
  unfold offset, uwrap. intros Hk H1'. rewrite Zminus_mod_idemp_r. replace (t - (base + 1)) with (t - base - 1) by lia.
  rewrite Zminus_mod, Hk, (Z.mod_small 1) by lia. apply Z.mod_small. pose proof (Z.mod_pos_bound (t - base) (2 ^ 32)). lia.
Qed.

(** Before its time is over the thread sleeps, whatever happens. *)
Lemma steps_asleep s cs s' u th tm k :
  (forall f p, service idle live apps (user f p)) -> sys_inv s -> steps s cs s' -> asleep u th tm (rt_tick s) s ->
  offset (rt_tick s) (tm_timeout_tick tm) = k -> ticks cs < k ->
  asleep u th tm (rt_tick s') s' /\ offset (rt_tick s') (tm_timeout_tick tm) = k - ticks cs.
Proof.
  intros Hu Hi Hst. revert Hi k. induction Hst as [|s c s1 cs s' Ha E Hst IH]; intros Hi k Hsl Ho Hk.
  { split; [done|]. rewrite Ho. unfold ticks. simpl. lia. }
  destruct (exec_safe s c Hu Hi Ha) as (s2 & E2 & Hi2). rewrite E in E2. apply Ok_inj in E2 as [_ <-].
  unfold ticks in Hk |- *. destruct (decide (c = Tick)) as [->|Hc].
  - rewrite filter_cons_True in Hk |- * by done. simpl in Hk |- *.
    destruct (tick_run s Hu Hi) as (s2 & E2 & _ & Ht & Hw). simpl in E. rewrite E in E2. apply Ok_inj in E2 as [_ <-].
    specialize (Hw u th tm Hsl). rewrite Ho, (proj2 (Z.leb_gt k 1)) in Hw by lia.
    destruct (IH Hi2 (k - 1)) as [Ha' Ho']; [done|rewrite Ht; by apply offset_next; [|lia]|unfold ticks; lia|].
    split; [done|]. rewrite Ho'. unfold ticks. lia.
  - rewrite filter_cons_False in Hk |- * by done. pose proof (exec_asleep c s s1 u th tm Hc E Hsl) as Hsl1.
    assert (rt_tick s1 = rt_tick s) as Et by (by destruct Hsl1). apply IH; [done|by rewrite Et|by rewrite Et|done].
Qed.

(** The thread that calls [rt_thread_sleep] sleeps. *)
Lemma sleep_asleep s t th n :
  sys_inv s -> rt_current_thread s = t -> t <> idle -> threads s !! t = Some th -> 0 <= n < HALF_TICK ->
  exists s1 tm, rt_thread_sleep n s = Ok tt s1 /\ sys_inv s1 /\
    asleep t (set_th_stat RT_THREAD_SUSPEND th) tm (rt_tick s1) s1 /\ offset (rt_tick s1) (tm_timeout_tick tm) = n.
Proof.
  intros Hi Hc Hne Eth Hn. pose proof Hi as [Hs Hnest].
  destruct (sleep_safe s n Hi ltac:(congruence) Hn) as (s1 & E & Hs1).
  destruct (next_running s) as [th' [R1 R2 R3 R4 R5]]; [apply Hs|done|apply Hs|]. rewrite Hc in *. rewrite Eth in R2. simplify_eq.
  assert (other_ready s (rt_current_thread s)) as Ho by (by apply idle_ready).
  destruct (wp_ok _ _ _ (rt_thread_sleep_spec s _ th' n (sy_kinv _ _ _ _ Hs) eq_refl Eth R3 Ho Hn))
    as ([] & s' & E' & Hk1 & Hf & Et & Etl & Hr & (tm & Etm & Htm) & Hnx).
  rewrite E in E'. apply Ok_inj in E' as [_ <-]. exists s1, tm.
  assert (forall l, rt_current_thread s ∉ tlists s1 !!! l) as Hl.
  { intros l. rewrite Etl, Abs.lookup_remove, elem_of_list_del. tauto. }
  split_and!; [done|split; [done|by rewrite (fr_nest _ _ Hf)]| |].
  - split; [by rewrite Et, lookup_insert_eq| |done|done|done| |done].
    + destruct (Hnx (sy_lock _ _ _ _ Hs)) as (p & _ & Hh). intros Ec. apply (Hl (LReady p)). rewrite <- Ec.
      by apply head_Some_elem_of.
    + destruct (ki_timer _ _ Hk1) as [D [HD _ _ _]]. done.
  - rewrite Htm, (fr_tick _ _ Hf). apply offset_add. change HALF_TICK with 2147483647 in Hn. lia.
Qed.

(** ** Properties *)

(** C2: Whatever the threads call and whenever the ticks come, the system stays right: from
    a state of the system invariant, any sequence of [rt_sem_take], [rt_sem_release],
    [rt_thread_sleep], [rt_thread_yield], [rt_timer_start], [rt_timer_stop] and ticks
    leads to a state of the invariant; so the processor is with the first thread of the
    highest ready priority, and no semaphore has a permit while a thread waits for it;
    and the next call or tick returns without a fault.  The calls are those of [allowed]
    (the idle thread never waits, the semaphores and timers exist, times are less than
    half the range of the tick), and the timeout functions of the application are
    services: they may stop timers, change periods, release semaphores and work on other
    objects, but start no timer and make no thread ready that sleeps on its timer. *)
Theorem system_safe s0 cs s :
  (forall f p, service idle live apps (user f p)) -> sys_inv s0 -> steps s0 cs s ->
  sys_inv s /\ next_thread s (rt_current_thread s) /\
  (forall sem x, sems s !! sem = Some x -> tlists s !!! LSuspend sem <> [] -> sem_value x = 0) /\
  (forall c, allowed s c -> exists s', exec c s = Ok tt s').
Proof.
  intros Hu Hi0 Hr. pose proof (steps_inv s0 cs s Hu Hi0 Hr) as Hi. pose proof (sy_sys _ Hi) as Hs. split_and!; [done|apply Hs| |].
  - intros sem x E. by apply (sok_wait _ _ _ (sy_sems _ _ _ _ Hs sem x E)).
  - intros c Ha. destruct (exec_safe s c Hu Hi Ha) as (s' & E & _). eauto.
Qed.

(** C3: A thread other than the idle thread that calls [rt_thread_sleep(n)], 0 < n less than
    half the range of the tick, sleeps for exactly [n] ticks, whatever the other threads
    and the timeout functions do meanwhile: behind any sequence of allowed calls with
    less than [n] ticks in it the thread is suspended, on no list and not running, and
    behind one with [n - 1] ticks the next tick makes it ready with the error
    -RT_ETIMEOUT, which [rt_thread_sleep] turns into RT_EOK.  The timeout functions are
    services as for the system's safety. *)
Theorem sleep_wakes_up s t th n :
  (forall f p, service idle live apps (user f p)) ->
  sys_inv s -> rt_current_thread s = t -> t <> idle -> threads s !! t = Some th -> 1 <= n < HALF_TICK ->
  exists s1, rt_thread_sleep n s = Ok tt s1 /\ sys_inv s1 /\
    forall cs s2, steps s1 cs s2 ->
      (ticks cs < n -> threads s2 !! t = Some (set_th_stat RT_THREAD_SUSPEND th) /\
         rt_current_thread s2 <> t /\ forall l, t ∉ tlists s2 !!! l) /\
      (ticks cs = n - 1 -> exists s3, exec Tick s2 = Ok tt s3 /\ sys_inv s3 /\
         threads s3 !! t = Some (timed_out th) /\ t ∈ ready s3 (th_current_priority th)).
Proof.
  intros Hu Hi Hc Hne Eth Hn. destruct (sleep_asleep s t th n Hi Hc Hne Eth ltac:(lia)) as (s1 & tm & E1 & Hi1 & Ha1 & Ho1).
  exists s1. split_and!; [done|done|]. intros cs s2 Hst. split.
  - intros Hk. destruct (steps_asleep s1 cs s2 t _ tm n Hu Hi1 Hst Ha1 Ho1 Hk) as [[A1 A2 A3 _ _ _ _] _]. done.
  - intros Hk. destruct (steps_asleep s1 cs s2 t _ tm n Hu Hi1 Hst Ha1 Ho1 ltac:(lia)) as [Ha2 Ho2].
    pose proof (steps_inv s1 cs s2 Hu Hi1 Hst) as Hi2.
    destruct (tick_run s2 Hu Hi2) as (s3 & E3 & Hi3 & _ & Hw). exists s3. specialize (Hw _ _ _ Ha2).
    rewrite Ho2, (proj2 (Z.leb_le _ 1)) in Hw by lia. split_and!; [done|done|done|].
    pose proof (sy_kinv _ _ _ _ (sy_sys _ Hi3)) as Hk3. destruct (kinv_thread _ _ _ _ Hk3 (not_elem_of_empty _) Hw) as [_ _ _ _ _ _ C7].
    by apply C7.
Qed.
End system.
