(* ===== verification/Device.v ===== *)
(** * The device framework (src/device.c)

    Devices are objects with a table of driver functions.  The framework keeps the flags
    and the reference count; the functions of the drivers are code of other components,
    an interface here. *)
From stdpp Require Import base tactics numbers list gmap.
From S2P Require Import Prelude RtList KString Kernel Scheduler Object Timer Thread.
Local Open Scope Z_scope.

Definition RT_ENOSYS : Z := 6.
Definition RT_EBUSY : Z := 7.
Definition RT_DEVICE_FLAG_STANDALONE : Z := 0x008.
Definition RT_DEVICE_FLAG_ACTIVATED : Z := 0x010.
Definition RT_DEVICE_OFLAG_CLOSE : Z := 0x000.
Definition RT_DEVICE_OFLAG_OPEN : Z := 0x008.

(** The driver functions at an address, applied to a device *)
Class DriverOps `{KConfig} `{Allocator} := {
  call_init : ptr -> ptr -> K Z;
  call_open : ptr -> ptr -> Z -> K Z;
  call_close : ptr -> ptr -> K Z;
  call_read : ptr -> ptr -> Z -> ptr -> Z -> K Z;
  call_write : ptr -> ptr -> Z -> ptr -> Z -> K Z;
  call_control : ptr -> ptr -> Z -> ptr -> K Z
}.

Section device.
Context `{KConfig} `{Allocator} `{!DriverOps}.

Definition get_device (p : ptr) : K rt_device := s ← get; opt BadPointer (devices s !! p).
Definition upd_device (p : ptr) (f : rt_device -> rt_device) : K unit :=
  x ← get_device p; modify (fun s => set_devices (<[p := f x]> (devices s)) s).

(** [x & bit] as a condition *)
Definition bit_set (x bit : Z) : bool := negb (Z.land x bit =? 0).

Definition rt_device_find (name : list Z) : K ptr :=
  self ← rt_thread_self;
  when (negb (self =? RT_NULL)) rt_enter_critical;;
  l ← gets (fun s => rt_object_container s !!! RT_Object_Class_Device);
  r ← find_by_name (name ++ [0]) l;
  self ← rt_thread_self;
  when (negb (self =? RT_NULL)) rt_exit_critical;;
  mret (match r with Some r => object_addr r | None => RT_NULL end).

Definition rt_device_register (dev : ptr) (name : list Z) (flags : Z) : K Z :=
  if dev =? RT_NULL then mret (- RT_ERROR)
  else
    found ← rt_device_find name;
    if negb (found =? RT_NULL) then mret (- RT_ERROR)
    else
      rt_object_init (ODevice dev) RT_Object_Class_Device name;;
      upd_device dev (set_dev_flag (u16 flags));;
      upd_device dev (set_dev_ref_count 0);;
      mret RT_EOK.

Definition rt_device_unregister (dev : ptr) : K Z :=
  nonnull dev;;
  rt_object_detach (ODevice dev);;
  mret RT_EOK.

Definition rt_device_init_all : K Z := mret RT_EOK.

(** [dev->flag |= RT_DEVICE_FLAG_ACTIVATED] *)
Definition activate (dev : ptr) : K unit :=
  upd_device dev (fun x => set_dev_flag (Z.lor (dev_flag x) RT_DEVICE_FLAG_ACTIVATED) x).

(** A failure is also reported on the console. *)
Definition rt_device_init (dev : ptr) : K Z :=
  nonnull dev;;
  x ← get_device dev;
  if negb (dev_init x =? RT_NULL) && negb (bit_set (dev_flag x) RT_DEVICE_FLAG_ACTIVATED) then
    result ← call_init (dev_init x) dev;
    when (result =? RT_EOK) (activate dev);;
    mret result
  else mret RT_EOK.

(** The first part of [rt_device_open]: a device that is not active is initialised. *)
Definition open_activate (dev : ptr) : K Z :=
  x ← get_device dev;
  if negb (bit_set (dev_flag x) RT_DEVICE_FLAG_ACTIVATED) then
    result ← (if negb (dev_init x =? RT_NULL) then call_init (dev_init x) dev else mret RT_EOK);
    when (result =? RT_EOK) (activate dev);;
    mret result
  else mret RT_EOK.

Definition rt_device_open (dev : ptr) (oflag : Z) : K Z :=
  nonnull dev;;
  result ← open_activate dev;
  if negb (result =? RT_EOK) then mret result
  else
    x ← get_device dev;
    if bit_set (dev_flag x) RT_DEVICE_FLAG_STANDALONE && bit_set (dev_open_flag x) RT_DEVICE_OFLAG_OPEN
    then mret (- RT_EBUSY)
    else
      result ← (if negb (dev_open x =? RT_NULL) then call_open (dev_open x) dev oflag else mret RT_EOK);
      when ((result =? RT_EOK) || (result =? - RT_ENOSYS)) (
        upd_device dev (set_dev_open_flag (u16 (Z.lor oflag RT_DEVICE_OFLAG_OPEN)));;
        upd_device dev (fun x => set_dev_ref_count (u8 (dev_ref_count x + 1)) x);;
        x ← get_device dev;
        RT_ASSERT (negb (dev_ref_count x =? 0)));;
      mret result.

Definition rt_device_close (dev : ptr) : K Z :=
  nonnull dev;;
  x ← get_device dev;
  if dev_ref_count x =? 0 then mret (- RT_ERROR)
  else
    upd_device dev (fun x => set_dev_ref_count (u8 (dev_ref_count x - 1)) x);;
    x ← get_device dev;
    if negb (dev_ref_count x =? 0) then mret RT_EOK
    else
      result ← (if negb (dev_close x =? RT_NULL) then call_close (dev_close x) dev else mret RT_EOK);
      when ((result =? RT_EOK) || (result =? - RT_ENOSYS))
        (upd_device dev (set_dev_open_flag RT_DEVICE_OFLAG_CLOSE));;
      mret result.

Definition rt_device_read (dev : ptr) (pos : Z) (buffer : ptr) (size : Z) : K Z :=
  nonnull dev;;
  x ← get_device dev;
  if dev_ref_count x =? 0 then rt_set_errno (- RT_ERROR);; mret 0
  else if negb (dev_read x =? RT_NULL) then call_read (dev_read x) dev pos buffer size
  else rt_set_errno (- RT_ENOSYS);; mret 0.

Definition rt_device_write (dev : ptr) (pos : Z) (buffer : ptr) (size : Z) : K Z :=
  nonnull dev;;
  x ← get_device dev;
  if dev_ref_count x =? 0 then rt_set_errno (- RT_ERROR);; mret 0
  else if negb (dev_write x =? RT_NULL) then call_write (dev_write x) dev pos buffer size
  else rt_set_errno (- RT_ENOSYS);; mret 0.

Definition rt_device_control (dev : ptr) (cmd : Z) (arg : ptr) : K Z :=
  nonnull dev;;
  x ← get_device dev;
  if negb (dev_control x =? RT_NULL) then call_control (dev_control x) dev cmd arg
  else mret RT_EOK.

Definition rt_device_set_rx_indicate (dev rx_ind : ptr) : K Z :=
  nonnull dev;; upd_device dev (set_dev_rx_indicate rx_ind);; mret RT_EOK.
Definition rt_device_set_tx_complete (dev tx_done : ptr) : K Z :=
  nonnull dev;; upd_device dev (set_dev_tx_complete tx_done);; mret RT_EOK.

(** ** What the framework relies on *)

(** The fields of a device that belong to the framework and the table of the driver *)
Definition same_device (x x' : rt_device) : Prop :=
  dev_ref_count x' = dev_ref_count x /\ dev_flag x' = dev_flag x /\
  dev_init x' = dev_init x /\ dev_open x' = dev_open x /\ dev_close x' = dev_close x /\
  dev_read x' = dev_read x /\ dev_write x' = dev_write x.

(** A driver function returns [r] and leaves those fields of its device alone. *)
Definition returns (c : K Z) (dev : ptr) (r : Z) : Prop :=
  forall s x, devices s !! dev = Some x ->
    exists s' x', c s = Ok r s' /\ devices s' !! dev = Some x' /\ same_device x x'.

(** The driver of [x] answers with [ri], [ro] and [rc]; a function that is not provided
    counts as one that returns RT_EOK. *)
Record driver (dev : ptr) (x : rt_device) (oflag ri ro rc : Z) : Prop := {
  drv_init : if dev_init x =? RT_NULL then ri = RT_EOK else returns (call_init (dev_init x) dev) dev ri;
  drv_open : if dev_open x =? RT_NULL then ro = RT_EOK else returns (call_open (dev_open x) dev oflag) dev ro;
  drv_close : if dev_close x =? RT_NULL then rc = RT_EOK else returns (call_close (dev_close x) dev) dev rc
}.

Lemma wp_get_device dev x (Q : rt_device -> kstate -> Prop) s :
  devices s !! dev = Some x -> Q x s -> wp (get_device dev) Q s.
Proof. intros E HQ. unfold get_device. do 2 wp_step. by eapply wp_opt. Qed.

Lemma wp_upd_device dev f x (Q : unit -> kstate -> Prop) s :
  devices s !! dev = Some x -> Q tt (set_devices (<[dev := f x]> (devices s)) s) -> wp (upd_device dev f) Q s.
Proof. intros E HQ. unfold upd_device. wp_step. eapply wp_get_device; [done|]. by wp_step. Qed.

#[local] Instance same_device_preorder : PreOrder same_device.
Proof. split; [done|]. unfold same_device. intros x1 x2 x3 ? ?. naive_solver congruence. Qed.

(** A call through the table, or nothing when the function is missing *)
Lemma wp_driver_call (fn : ptr) (c : K Z) dev r s x (Q : Z -> kstate -> Prop) :
  (if fn =? RT_NULL then r = RT_EOK else returns c dev r) -> devices s !! dev = Some x ->
  (forall s' x', devices s' !! dev = Some x' -> same_device x x' -> Q r s') ->
  wp (if negb (fn =? RT_NULL) then c else mret RT_EOK) Q s.
Proof.
  intros Hc E HQ. destruct (fn =? RT_NULL); simpl.
  - subst r. apply wp_ret. by eapply HQ.
  - destruct (Hc _ _ E) as (s' & x' & Ec & E' & Hs). eapply ok_wp; [exact Ec|]. by eapply HQ.
Qed.

Definition activated (x : rt_device) : bool := bit_set (dev_flag x) RT_DEVICE_FLAG_ACTIVATED.
Definition busy (x : rt_device) : bool :=
  bit_set (dev_flag x) RT_DEVICE_FLAG_STANDALONE && bit_set (dev_open_flag x) RT_DEVICE_OFLAG_OPEN.

(** The flag after activation *)
Definition active_flag (x : rt_device) : Z := Z.lor (dev_flag x) RT_DEVICE_FLAG_ACTIVATED.

Lemma active_flag_bits x :
  bit_set (active_flag x) RT_DEVICE_FLAG_ACTIVATED = true /\
  bit_set (active_flag x) RT_DEVICE_FLAG_STANDALONE = bit_set (dev_flag x) RT_DEVICE_FLAG_STANDALONE.
Proof.
  unfold active_flag, bit_set. split; f_equal.
  - apply negb_true_iff, Z.eqb_neq. intros E.
    assert (Z.testbit (Z.land (Z.lor (dev_flag x) RT_DEVICE_FLAG_ACTIVATED) RT_DEVICE_FLAG_ACTIVATED) 4 = false) as Hb
      by (rewrite E; apply Z.bits_0).
    by rewrite Z.land_spec, Z.lor_spec, orb_true_r in Hb.
  - f_equal. apply Z.bits_inj. intros n. rewrite !Z.land_spec, Z.lor_spec.
    destruct (Z.testbit RT_DEVICE_FLAG_STANDALONE n) eqn:E3; rewrite ?andb_false_r; [|done].
    destruct (Z.testbit RT_DEVICE_FLAG_ACTIVATED n) eqn:E4; rewrite ?orb_false_r; [|done].
    exfalso. assert (Z.testbit (Z.land RT_DEVICE_FLAG_STANDALONE RT_DEVICE_FLAG_ACTIVATED) n = true) as Hb
      by (by rewrite Z.land_spec, E3, E4).
    change (Z.land RT_DEVICE_FLAG_STANDALONE RT_DEVICE_FLAG_ACTIVATED) with 0 in Hb. by rewrite Z.bits_0 in Hb.
Qed.

(** The device after a successful open *)
Record opened (oflag : Z) (x x' : rt_device) : Prop := {
  od_ref : dev_ref_count x' = dev_ref_count x + 1;
  od_open : dev_open_flag x' = u16 (Z.lor oflag RT_DEVICE_OFLAG_OPEN);
  od_active : activated x' = true;
  od_alone : bit_set (dev_flag x') RT_DEVICE_FLAG_STANDALONE = bit_set (dev_flag x) RT_DEVICE_FLAG_STANDALONE;
  od_fns : dev_init x' = dev_init x /\ dev_open x' = dev_open x /\ dev_close x' = dev_close x
}.

Definition accepted (r : Z) : Prop := r = RT_EOK \/ r = - RT_ENOSYS.

Lemma open_activate_spec dev x oflag ri ro rc s :
  devices s !! dev = Some x -> driver dev x oflag ri ro rc ->
  wp (open_activate dev) (fun r s' => exists x', devices s' !! dev = Some x' /\
    if activated x then r = RT_EOK /\ s' = s /\ x' = x
    else r = ri /\ dev_ref_count x' = dev_ref_count x /\
      dev_flag x' = (if ri =? RT_EOK then active_flag x else dev_flag x) /\
      dev_init x' = dev_init x /\ dev_open x' = dev_open x /\ dev_close x' = dev_close x) s.
Proof.
  intros E [Hi _ _]. unfold open_activate, activated. wp_step. eapply wp_get_device; [done|].
  destruct (bit_set (dev_flag x) RT_DEVICE_FLAG_ACTIVATED); simpl; [wp_step; eauto|].
  wp_step. eapply wp_driver_call; [done|done|]. intros s' x' E' (G1 & G2 & G3 & G4 & G5 & _).
  wp_step. destruct (ri =? RT_EOK); simpl.
  - unfold activate. eapply wp_upd_device; [done|]. wp_step. eexists. split; [apply lookup_insert_eq|].
    unfold active_flag. simpl. by rewrite G1, G2, G3, G4, G5.
  - wp_step. wp_step. eauto 10.
Qed.

Lemma rt_device_open_spec dev x oflag ro rc s :
  dev <> RT_NULL -> devices s !! dev = Some x -> driver dev x oflag RT_EOK ro rc -> accepted ro ->
  bit_set (dev_flag x) RT_DEVICE_FLAG_STANDALONE = false -> 0 <= dev_ref_count x < 255 ->
  wp (rt_device_open dev oflag) (fun r s' => r = ro /\
    exists x', devices s' !! dev = Some x' /\ opened oflag x x') s.
Proof.
  intros Hnn E Hd Hacc Hal Hrc. pose proof Hd as [_ Ho _]. unfold rt_device_open. wp_step. apply nonnull_ok; [done|].
  wp_step. eapply wp_mono; [by eapply open_activate_spec|]. cbv beta. intros r s1 (x1 & E1 & Hx1).
  assert (r = RT_EOK /\ activated x1 = true /\ bit_set (dev_flag x1) RT_DEVICE_FLAG_STANDALONE = false /\
    dev_ref_count x1 = dev_ref_count x /\ dev_init x1 = dev_init x /\ dev_open x1 = dev_open x /\
    dev_close x1 = dev_close x) as (-> & Hact & Hal1 & Hr1 & F1 & F2 & F3).
  { destruct (activated x) eqn:Ea.
    - destruct Hx1 as (-> & -> & ->). done.
    - destruct Hx1 as (-> & ? & Hf & ? & ? & ?). destruct (active_flag_bits x) as [B1 B2].
      simpl in Hf. unfold activated. rewrite Hf, B1, B2. done. }
  simpl. wp_step. eapply wp_get_device; [done|]. rewrite Hal1. simpl.
  wp_step. rewrite <- F2 in Ho. eapply wp_driver_call; [rewrite F2; rewrite F2 in Ho; exact Ho|done|].
  intros s2 x2 E2 (G1 & G2 & G3 & G4 & G5 & _).
  assert ((ro =? RT_EOK) || (ro =? - RT_ENOSYS) = true) as -> by (by destruct Hacc as [-> | ->]).
  wp_step. simpl. wp_step. eapply wp_upd_device; [done|]. wp_step. eapply wp_upd_device; [apply lookup_insert_eq|].
  wp_step. eapply wp_get_device; [apply lookup_insert_eq|]. wp_step.
  { simpl. rewrite G1, Hr1, uwrap_small by lia. lia. }
  wp_step. split; [done|]. eexists. split; [apply lookup_insert_eq|].
  split; simpl.
  - rewrite G1, Hr1, uwrap_small by lia. done.
  - done.
  - unfold activated. simpl. by rewrite G2.
  - by rewrite G2, Hal1, Hal.
  - split_and!; congruence.
Qed.

(** The device after a close that is not the last one, and after the last one *)
Lemma rt_device_close_spec dev x oflag ri ro rc s :
  dev <> RT_NULL -> devices s !! dev = Some x -> driver dev x oflag ri ro rc -> 0 < dev_ref_count x < 256 ->
  wp (rt_device_close dev) (fun r s' => exists x', devices s' !! dev = Some x' /\
    dev_ref_count x' = dev_ref_count x - 1 /\ dev_flag x' = dev_flag x /\
    (dev_init x' = dev_init x /\ dev_open x' = dev_open x /\ dev_close x' = dev_close x) /\
    if dev_ref_count x =? 1 then r = rc /\ (accepted rc -> dev_open_flag x' = RT_DEVICE_OFLAG_CLOSE)
    else r = RT_EOK /\ dev_open_flag x' = dev_open_flag x) s.
Proof.
  intros Hnn E [_ _ Hc] Hr. unfold rt_device_close. wp_step. apply nonnull_ok; [done|].
  wp_step. eapply wp_get_device; [done|]. destruct (Z.eqb_spec (dev_ref_count x) 0); [lia|].
  wp_step. eapply wp_upd_device; [done|]. wp_step. eapply wp_get_device; [apply lookup_insert_eq|].
  simpl. rewrite uwrap_small by lia.
  destruct (Z.eqb_spec (dev_ref_count x - 1) 0), (Z.eqb_spec (dev_ref_count x) 1); try lia; simpl.
  - wp_step. eapply wp_driver_call; [exact Hc|apply lookup_insert_eq|].
    intros s2 x2 E2 (G1 & G2 & G3 & G4 & G5 & _). simpl in *.
    destruct ((rc =? RT_EOK) || (rc =? - RT_ENOSYS)) eqn:Ea; wp_step; simpl.
    + eapply wp_upd_device; [done|]. wp_step. eexists. split; [apply lookup_insert_eq|]. simpl.
      by split_and!.
    + wp_step. wp_step. eexists. split; [done|]. split_and!; try done.
      by intros [-> | ->].
  - wp_step. eexists. split; [apply lookup_insert_eq|]. by split_and!.
Qed.

(** ** Properties *)

(** [n] calls in a row, with their results *)
Fixpoint repeatM (n : nat) (c : K Z) : K (list Z) :=
  match n with
  | O => mret []
  | S n' => r ← c; rs ← repeatM n' c; mret (r :: rs)
  end.

Lemma opens_spec (n : nat) dev x oflag ro rc s :
  dev <> RT_NULL -> devices s !! dev = Some x -> driver dev x oflag RT_EOK ro rc -> accepted ro ->
  bit_set (dev_flag x) RT_DEVICE_FLAG_STANDALONE = false -> 0 <= dev_ref_count x ->
  dev_ref_count x + Z.of_nat n <= 255 ->
  exists s' x', repeatM n (rt_device_open dev oflag) s = Ok (replicate n ro) s' /\ devices s' !! dev = Some x' /\
    dev_ref_count x' = dev_ref_count x + Z.of_nat n /\
    (n <> 0%nat -> dev_open_flag x' = u16 (Z.lor oflag RT_DEVICE_OFLAG_OPEN) /\ activated x' = true) /\
    (dev_init x' = dev_init x /\ dev_open x' = dev_open x /\ dev_close x' = dev_close x).
Proof.
  revert s x. induction n as [|n IH]; intros s x Hnn E Hd Hacc Hal Hr Hle.
  { exists s, x. split_and!; try done. lia. }
  destruct (wp_ok _ _ _ (rt_device_open_spec dev x oflag ro rc s Hnn E Hd Hacc Hal ltac:(lia)))
    as (r & s1 & E1 & -> & x1 & Ex1 & [O1 O2 O3 O4 (F1 & F2 & F3)]).
  assert (driver dev x1 oflag RT_EOK ro rc) as Hd1 by (destruct Hd; split; by rewrite ?F1, ?F2, ?F3).
  destruct (IH s1 x1 Hnn Ex1 Hd1 Hacc ltac:(congruence) ltac:(lia) ltac:(lia))
    as (s2 & x2 & E2 & Ex2 & R2 & Hop & (G1 & G2 & G3)).
  exists s2, x2. split_and!; [|done|lia| |congruence..].
  - simpl. erewrite run_bind by exact E1. by erewrite run_bind by exact E2.
  - intros _. destruct (decide (n = 0%nat)) as [->|Hne]; [|by apply Hop]. simpl in E2.
    apply Ok_inj in E2 as [_ <-]. assert (x2 = x1) as -> by congruence. done.
Qed.

Lemma closes_spec (n : nat) dev x oflag ri ro rc s :
  dev <> RT_NULL -> devices s !! dev = Some x -> driver dev x oflag ri ro rc -> accepted rc ->
  dev_ref_count x = Z.of_nat (S n) -> Z.of_nat (S n) < 256 ->
  exists s' x', repeatM (S n) (rt_device_close dev) s = Ok (replicate n RT_EOK ++ [rc]) s' /\
    devices s' !! dev = Some x' /\ dev_ref_count x' = 0 /\ dev_open_flag x' = RT_DEVICE_OFLAG_CLOSE.
Proof.
  revert s x. induction n as [|n IH]; intros s x Hnn E Hd Hacc Hr Hle;
    destruct (wp_ok _ _ _ (rt_device_close_spec dev x oflag ri ro rc s Hnn E Hd ltac:(lia)))
      as (r & s1 & E1 & x1 & Ex1 & R1 & Hfl & (F1 & F2 & F3) & Hc); rewrite Hr in Hc.
  - destruct Hc as [-> Hc]. exists s1, x1. split_and!; [|done|lia|by apply Hc].
    simpl. erewrite run_bind by exact E1. done.
  - destruct (Z.eqb_spec (Z.of_nat (S (S n))) 1); [lia|]. destruct Hc as [-> _].
    assert (driver dev x1 oflag ri ro rc) as Hd1 by (destruct Hd; split; by rewrite ?F1, ?F2, ?F3).
    destruct (IH s1 x1 Hnn Ex1 Hd1 Hacc ltac:(lia) ltac:(lia)) as (s2 & x2 & E2 & Ex2 & R2 & Hop).
    exists s2, x2. split_and!; [|done..]. change (repeatM (S (S n)) ?c) with (r ← c; rs ← repeatM (S n) c; mret (r :: rs)).
    erewrite run_bind by exact E1. by erewrite run_bind by exact E2.
Qed.

(** A close that is not the last one only counts down. *)
Lemma rt_device_close_counts dev x s :
  dev <> RT_NULL -> devices s !! dev = Some x -> 1 < dev_ref_count x < 256 ->
  rt_device_close dev s = Ok RT_EOK (set_devices (<[dev := set_dev_ref_count (dev_ref_count x - 1) x]> (devices s)) s).
Proof.
  intros Hnn E Hr. assert (wp (rt_device_close dev) (fun r s' => r = RT_EOK /\
    s' = set_devices (<[dev := set_dev_ref_count (dev_ref_count x - 1) x]> (devices s)) s) s) as Hw.
  { unfold rt_device_close. wp_step. apply nonnull_ok; [done|]. wp_step. eapply wp_get_device; [done|].
    rewrite (proj2 (Z.eqb_neq (dev_ref_count x) 0)) by lia. wp_step. eapply wp_upd_device; [done|]. wp_step.
    eapply wp_get_device; [apply lookup_insert_eq|]. simpl. rewrite uwrap_small by lia.
    rewrite (proj2 (Z.eqb_neq (dev_ref_count x - 1) 0)) by lia. simpl. by wp_step. }
  by apply wp_ok in Hw as (? & ? & ? & -> & ->).
Qed.

Lemma some_closes (k : nat) dev x s :
  dev <> RT_NULL -> devices s !! dev = Some x -> Z.of_nat k < dev_ref_count x < 256 ->
  repeatM k (rt_device_close dev) s = Ok (replicate k RT_EOK)
    (set_devices (<[dev := set_dev_ref_count (dev_ref_count x - Z.of_nat k) x]> (devices s)) s).
Proof.
  revert x s. induction k as [|k IH]; intros x s Hnn E Hr.
  - simpl. unfold mret, M_ret. rewrite Z.sub_0_r. rewrite insert_id; [by destruct s|]. rewrite E. by destruct x.
  - simpl. erewrite run_bind by (apply rt_device_close_counts; [done|done|lia]).
    erewrite run_bind by (apply IH; [done|apply lookup_insert_eq|simpl; lia]). simpl. unfold mret, M_ret.
    rewrite insert_insert_eq. replace (dev_ref_count x - Z.of_nat (S k)) with (dev_ref_count x - 1 - Z.of_nat k) by lia. done.
Qed.

(** C39: Opens and closes balance: a shared device that is closed and is opened [n] times,
    up to 255, counts its opens and is open; each close but the last of [n] returns
    RT_EOK, counts down and changes nothing else, the open flag and the driver's state
    least of all; the last one alone returns the result of the driver's close function
    and leaves the device closed with reference count 0.  The driver's functions accept,
    and touch neither the count nor the functions of the device. *)
Theorem device_open_close_balanced (n : nat) dev x oflag ro rc s :
  dev <> RT_NULL -> devices s !! dev = Some x -> driver dev x oflag RT_EOK ro rc -> accepted ro -> accepted rc ->
  bit_set (dev_flag x) RT_DEVICE_FLAG_STANDALONE = false -> dev_ref_count x = 0 -> (n < 255)%nat ->
  exists s1 x1 s2 x2,
    repeatM (S n) (rt_device_open dev oflag) s = Ok (replicate (S n) ro) s1 /\
    devices s1 !! dev = Some x1 /\ dev_ref_count x1 = Z.of_nat (S n) /\ activated x1 = true /\
    dev_open_flag x1 = u16 (Z.lor oflag RT_DEVICE_OFLAG_OPEN) /\
    (forall k, (k <= n)%nat -> repeatM k (rt_device_close dev) s1 = Ok (replicate k RT_EOK)
       (set_devices (<[dev := set_dev_ref_count (Z.of_nat (S n - k)) x1]> (devices s1)) s1)) /\
    repeatM (S n) (rt_device_close dev) s1 = Ok (replicate n RT_EOK ++ [rc]) s2 /\
    devices s2 !! dev = Some x2 /\ dev_ref_count x2 = 0 /\ dev_open_flag x2 = RT_DEVICE_OFLAG_CLOSE.
Proof.
  intros Hnn E Hd Ho Hc Hal Hr Hn.
  destruct (opens_spec (S n) dev x oflag ro rc s Hnn E Hd Ho Hal ltac:(lia) ltac:(lia))
    as (s1 & x1 & E1 & Ex1 & R1 & Hop & (F1 & F2 & F3)).
  assert (driver dev x1 oflag RT_EOK ro rc) as Hd1 by (destruct Hd; split; by rewrite ?F1, ?F2, ?F3).
  destruct (closes_spec n dev x1 oflag RT_EOK ro rc s1 Hnn Ex1 Hd1 Hc ltac:(lia) ltac:(lia)) as (s2 & x2 & E2 & Ex2 & R2 & Hcl).
  exists s1, x1, s2, x2. destruct (Hop ltac:(done)). split_and!; try (done || lia).
  intros k Hk. rewrite (some_closes k dev x1) by (done || lia).
  by replace (dev_ref_count x1 - Z.of_nat k) with (Z.of_nat (S n - k)) by lia.
Qed.

(** When the driver refuses to close a standalone device, the device is stuck: the
    reference count is 0 but the open flag is kept, so the device can neither be opened
    (-RT_EBUSY), nor closed, nor read any more. *)
Theorem device_close_failure_sticks dev x oflag ri ro rc s :
  dev <> RT_NULL -> devices s !! dev = Some x -> driver dev x oflag ri ro rc -> ~ accepted rc ->
  (forall s s' r x1, devices s !! dev = Some x1 -> call_close (dev_close x) dev s = Ok r s' ->
     exists x2, devices s' !! dev = Some x2 /\ dev_open_flag x2 = dev_open_flag x1) ->
  activated x = true -> busy x = true -> dev_ref_count x = 1 ->
  exists s', rt_device_close dev s = Ok rc s' /\
    rt_device_open dev oflag s' = Ok (- RT_EBUSY) s' /\ rt_device_close dev s' = Ok (- RT_ERROR) s'.
Proof.
  intros Hnn E Hd Hacc Hkeep Hact Hbusy Hr. pose proof Hd as [_ _ Hc].
  destruct (Z.eqb_spec (dev_close x) RT_NULL) as [_|Hcn]; [subst rc; destruct Hacc; by left|].
  set (s1 := set_devices (<[dev := set_dev_ref_count 0 x]> (devices s)) s).
  destruct (Hc s1 (set_dev_ref_count 0 x)) as (s2 & x2 & Ec & Ex2 & (G1 & G2 & G3 & G4 & G5 & _)); [apply lookup_insert_eq|].
  destruct (Hkeep s1 _ _ (set_dev_ref_count 0 x) ltac:(apply lookup_insert_eq) Ec) as (x2' & Ex2' & Hof).
  assert (x2' = x2) as -> by congruence. simpl in *. exists s2.
  assert (wp (rt_device_close dev) (fun r s' => r = rc /\ s' = s2) s) as Hw1.
  { unfold rt_device_close. wp_step. apply nonnull_ok; [done|]. wp_step. eapply wp_get_device; [done|]. rewrite Hr.
    simpl. wp_step. eapply wp_upd_device; [done|]. rewrite Hr. change (u8 (1 - 1)) with 0. fold s1.
    wp_step. eapply wp_get_device; [apply lookup_insert_eq|]. simpl. rewrite (proj2 (Z.eqb_neq _ _) Hcn). simpl.
    wp_step. eapply ok_wp; [exact Ec|].
    assert ((rc =? RT_EOK) || (rc =? - RT_ENOSYS) = false) as ->.
    { destruct (Z.eqb_spec rc RT_EOK); [destruct Hacc; by left|]. destruct (Z.eqb_spec rc (- RT_ENOSYS)); [destruct Hacc; by right|done]. }
    wp_step. simpl. wp_step. by wp_step. }
  assert (wp (rt_device_open dev oflag) (fun r s' => r = - RT_EBUSY /\ s' = s2) s2) as Hw2.
  { unfold rt_device_open, open_activate. wp_step. apply nonnull_ok; [done|]. wp_step. wp_step. eapply wp_get_device; [done|].
    unfold activated in Hact. rewrite G2, Hact. simpl. wp_step. simpl. wp_step. eapply wp_get_device; [done|].
    unfold busy in Hbusy. rewrite G2, Hof, Hbusy. by wp_step. }
  assert (wp (rt_device_close dev) (fun r s' => r = - RT_ERROR /\ s' = s2) s2) as Hw3.
  { unfold rt_device_close. wp_step. apply nonnull_ok; [done|]. wp_step. eapply wp_get_device; [done|]. rewrite G1. simpl. by wp_step. }
  apply wp_ok in Hw1 as (? & ? & E1 & -> & ->). apply wp_ok in Hw2 as (? & ? & E2 & -> & ->).
  apply wp_ok in Hw3 as (? & ? & E3 & -> & ->). done.
Qed.

(** ** Registration *)

(** No device of the list has the name. *)
Definition name_free (name : list Z) (s : kstate) : Prop :=
  Forall (fun r => exists o c, get_object r s = Some o /\
    strncmp_list RT_NAME_MAX (obj_name o) (name ++ [0]) 0 = Some c /\ c <> 0)
    (rt_object_container s !!! RT_Object_Class_Device).

Lemma find_by_name_none name l s :
  Forall (fun r => exists o c, get_object r s = Some o /\
    strncmp_list RT_NAME_MAX (obj_name o) (name ++ [0]) 0 = Some c /\ c <> 0) l ->
  find_by_name (name ++ [0]) l s = Ok None s.
Proof.
  induction 1 as [|r l (o & c & Eo & Ec & Hc) _ IH]; [done|].
  simpl. unfold get_obj, get, opt, mbind, M_bind, mret, M_ret. rewrite Eo. simplify_eq/=. rewrite Ec. simpl.
  by rewrite (proj2 (Z.eqb_neq _ _) Hc).
Qed.

Lemma get_object_lock r v s : get_object r (set_rt_scheduler_lock_nest v s) = get_object r s.
Proof. by destruct r. Qed.

(** The search under the scheduler lock: a state after it differs by a context switch. *)
Lemma device_find_spec name s o :
  sched_inv ∅ s -> (exists p, ready s p <> []) -> rt_scheduler_lock_nest s = 0 ->
  (forall v, find_by_name (name ++ [0]) (rt_object_container s !!! RT_Object_Class_Device)
     (set_rt_scheduler_lock_nest v s) = Ok o (set_rt_scheduler_lock_nest v s)) ->
  exists s', rt_device_find name s = Ok (match o with Some r => object_addr r | None => RT_NULL end) s' /\ rescheduled s s'.
Proof.
  intros Hinv Hex Hl Hf. unfold rt_device_find, rt_thread_self.
  erewrite run_bind by done. destruct (Z.eqb_spec (rt_current_thread s) RT_NULL) as [Ec|Ec]; simpl.
  - exists s. split; [|by left]. erewrite run_bind by done. erewrite run_bind by done.
    assert (set_rt_scheduler_lock_nest 0 s = s) as Es by (destruct s; simpl in *; by subst).
    specialize (Hf 0). rewrite Es in Hf. rewrite (run_bind _ _ _ _ _ Hf). erewrite run_bind by done.
    rewrite Ec. by erewrite run_bind by done.
  - destruct (critical_nests s ltac:(lia)) as (s1 & Een & _ & _ & Eex). rewrite Hl in Eex. simpl in Eex.
    assert (s1 = set_rt_scheduler_lock_nest 1 s) as ->.
    { unfold rt_enter_critical, modify in Een. rewrite Hl in Een. by injection Een as <-. }
    destruct (wp_ok _ _ _ (rt_schedule_inv s Hinv Hex)) as ([] & s2 & Es & _ & Hres & _).
    exists s2. split; [|done]. rewrite (run_bind _ _ _ _ _ Een). erewrite run_bind by done.
    rewrite (run_bind _ _ _ _ _ (Hf 1)). erewrite run_bind by done. simpl.
    rewrite (proj2 (Z.eqb_neq _ _) Ec). simpl. rewrite (run_bind _ _ _ tt s2) by congruence. done.
Qed.

Lemma rescheduled_same s s' :
  rescheduled s s' -> rt_object_container s' = rt_object_container s /\ devices s' = devices s /\
    (forall r, get_object r s' = get_object r s) /\ tlists s' = tlists s /\
    rt_scheduler_lock_nest s' = rt_scheduler_lock_nest s /\ threads s' = threads s.
Proof. intros [-> | (t & p & ->)]; [done|]. split_and!; try done; by intros []. Qed.

(** The state after a registration *)
Definition registered (dev : ptr) (name : list Z) (flags : Z) (s : kstate) : kstate :=
  let s1 := object_inited (ODevice dev) RT_Object_Class_Device name s in
  let s2 := set_devices (alter (set_dev_flag (u16 flags)) dev (devices s1)) s1 in
  set_devices (alter (set_dev_ref_count 0) dev (devices s2)) s2.

Lemma upd_device_run dev f x s :
  devices s !! dev = Some x -> upd_device dev f s = Ok tt (set_devices (alter f dev (devices s)) s).
Proof.
  intros E. unfold upd_device, get_device, get, opt, modify, mbind, M_bind. rewrite E. simpl.
  do 2 f_equal. apply map_eq. intros i. destruct (decide (i = dev)) as [->|Hne].
  - by rewrite lookup_insert_eq, lookup_alter_eq, E.
  - by rewrite lookup_insert_ne, lookup_alter_ne by done.
Qed.

Lemma device_register_spec dev name flags s x :
  sched_inv ∅ s -> (exists p, ready s p <> []) -> rt_scheduler_lock_nest s = 0 -> dev <> RT_NULL ->
  devices s !! dev = Some x -> ~ Abs.linked (ODevice dev) (rt_object_container s) -> name_free name s ->
  exists s0, rescheduled s s0 /\ rt_device_register dev name flags s = Ok RT_EOK (registered dev name flags s0).
Proof.
  intros Hinv Hex Hl Hnn E Hlink Hfree.
  destruct (device_find_spec name s None Hinv Hex Hl) as (s0 & E0 & Hr).
  { intros v. apply find_by_name_none. eapply Forall_impl; [exact Hfree|].
    intros r (o & c & Eo & Hc). exists o, c. by rewrite get_object_lock. }
  destruct (rescheduled_same _ _ Hr) as (Hc & Hd & _). exists s0. split; [done|].
  unfold rt_device_register. rewrite (proj2 (Z.eqb_neq _ _) Hnn), (run_bind _ _ _ _ _ E0). simpl.
  erewrite run_bind by (apply rt_object_init_run; by rewrite Hc).
  assert (devices (object_inited (ODevice dev) RT_Object_Class_Device name s0) !! dev =
          Some (set_dev_parent (set_obj_name (strncpy_bytes RT_NAME_MAX name)
            (set_obj_type (Z.lor (class_type RT_Object_Class_Device) RT_Object_Class_Static) (dev_parent x))) x)) as E1.
  { simpl. rewrite !lookup_alter_eq, Hd, E. done. }
  rewrite (run_bind _ _ _ _ _ (upd_device_run _ _ _ _ E1)).
  erewrite run_bind; [done|]. eapply upd_device_run.
  change (devices (set_devices ?m _)) with m. rewrite lookup_alter_eq, E1. done.
Qed.

(** A device registered under a free name is found by it, closed and with the flags it was
    given; and no second device can be registered under that name. *)
Theorem device_register_find dev name flags s :
  sched_inv ∅ s -> (exists p, ready s p <> []) -> rt_scheduler_lock_nest s = 0 -> dev <> RT_NULL ->
  is_Some (devices s !! dev) -> ~ Abs.linked (ODevice dev) (rt_object_container s) ->
  Forall (fun c => 0 < c < 256) name -> name_free name s ->
  exists s1 s2 x, rt_device_register dev name flags s = Ok RT_EOK s1 /\
    devices s1 !! dev = Some x /\ dev_ref_count x = 0 /\ dev_flag x = u16 flags /\
    rt_device_find name s1 = Ok dev s2 /\
    forall dev' flags', dev' <> RT_NULL -> rt_device_register dev' name flags' s1 = Ok (- RT_ERROR) s2.
Proof.
  intros Hinv Hex Hl Hnn [x E] Hlink Hname Hfree.
  destruct (device_register_spec dev name flags s x Hinv Hex Hl Hnn E Hlink Hfree) as (s0 & Hr & E1).
  destruct (rescheduled_same _ _ Hr) as (Hc & Hd & Hg & Htl & Hlk & Hth).
  set (s1 := registered dev name flags s0) in *.
  assert (sched_inv ∅ s1) as Hinv1.
  { apply (sched_inv_eq ∅ s); [|done]. destruct Hr as [-> | (t & p & ->)]; done. }
  destruct (device_find_spec name s1 (Some (ODevice dev)) Hinv1) as (s2 & E2 & _).
  - destruct Hex as [p Hp]. exists p. unfold ready. change (tlists s1) with (tlists s0). by rewrite Htl.
  - simpl. congruence.
  - intros v.
    assert (rt_object_container s1 !!! RT_Object_Class_Device =
            ODevice dev :: rt_object_container s0 !!! RT_Object_Class_Device) as -> by apply lookup_total_insert_eq.
    eapply (find_inited (ODevice dev) RT_Object_Class_Device); [done|..|].
    + simpl. rewrite !lookup_alter_eq, Hd, E. by eexists.
    + simpl. by rewrite !lookup_alter_eq, Hd, E.
    + apply lookup_total_insert_eq.
  - exists s1, s2. eexists. split_and!; [done|simpl; by rewrite !lookup_alter_eq, Hd, E|done|done|done|].
    intros dev' flags' Hn'. unfold rt_device_register.
    rewrite (proj2 (Z.eqb_neq _ _) Hn'), (run_bind _ _ _ _ _ E2). simpl. by rewrite (proj2 (Z.eqb_neq _ _) Hnn).
Qed.
End device.
