(* ===== verification/Driver.v ===== *)
(** * Driver-level synchronisation (components/drivers/src)

    Completions and data queues are built on the threads and timers of the kernel, not on
    its IPC objects.  Their state is kept beside the kernel's, together with the
    interrupt mask of the processor, which this code handles explicitly. *)
From stdpp Require Import base tactics numbers list gmap.
From S2P Require Import Prelude RtList Kernel Scheduler Object Timer Thread Ipc.
Local Open Scope Z_scope.

(** [struct rt_completion]; its suspended list is [LSuspend] of its address. *)
Record rt_completion := mk_completion { cp_flag : Z }.

(** [struct rt_data_queue].  The array [queue] points to is [dq_items]: entry [i], once it
    has been written.  Its lists of suspended threads are [LSender] (push) and [LSuspend]
    (pop) of its address. *)
Record rt_data_queue := mk_data_queue {
  dq_size : Z;          (* rt_uint16_t *)
  dq_lwm : Z;           (* rt_uint16_t *)
  dq_waiting_lwm : bool;
  dq_get_index : Z;     (* rt_uint16_t *)
  dq_put_index : Z;     (* rt_uint16_t *)
  dq_queue : ptr;
  dq_items : gmap Z (Z * Z);  (* struct rt_data_item: data_ptr, data_size *)
  dq_evt_notify : Z
}.

Section driver.
Context `{KConfig} `{Allocator}.

Record dstate := mk_dstate {
  kern : kstate;
  primask : Z;  (* 1: interrupts are disabled *)
  completions : gmap ptr rt_completion;
  dqueues : gmap ptr rt_data_queue
}.

Definition set_kern (k : kstate) (d : dstate) : dstate := mk_dstate k (primask d) (completions d) (dqueues d).
Definition set_primask (p : Z) (d : dstate) : dstate := mk_dstate (kern d) p (completions d) (dqueues d).
Definition set_completions (c : gmap ptr rt_completion) (d : dstate) : dstate :=
  mk_dstate (kern d) (primask d) c (dqueues d).
Definition set_dqueues (q : gmap ptr rt_data_queue) (d : dstate) : dstate :=
  mk_dstate (kern d) (primask d) (completions d) q.

Definition D : Type -> Type := M dstate.

(** A call of the kernel.  It leaves the interrupt mask as it found it. *)
Definition inK {A} (c : K A) : M dstate A := fun d =>
  match c (kern d) with
  | Ok a k => Ok a (set_kern k d)
  | Fault f => Fault f
  end.

(** [rt_hw_interrupt_disable] returns the mask and sets it, [rt_hw_interrupt_enable]
    puts it back. *)
Definition rt_hw_interrupt_disable : M dstate Z :=
  d ← get; modify (set_primask 1);; mret (primask d).
Definition rt_hw_interrupt_enable (level : Z) : M dstate unit := modify (set_primask level).

(** The end of every wait: the timer is armed for a finite timeout, interrupts are enabled
    and the processor is given up. *)
Definition yield_cpu (thread timeout level : Z) : M dstate unit :=
  inK (when (0 <? timeout) (start_thread_timer thread timeout));;
  rt_hw_interrupt_enable level;;
  inK rt_schedule.

(** The first thread of [l] is resumed, interrupts are enabled and the scheduler called. *)
Definition wake_first (l : list_id) (level : Z) : M dstate unit :=
  thread ← inK (tlist_first l);
  inK (rt_thread_resume thread);;
  rt_hw_interrupt_enable level;;
  inK rt_schedule.

(** ** Reasoning about kernel calls *)

Lemma wp_inK {A} (c : K A) (Q : A -> dstate -> Prop) d :
  wp c (fun a k => Q a (set_kern k d)) (kern d) -> wp (inK c) Q d.
Proof. unfold wp, inK. by destruct (c (kern d)). Qed.

Lemma wp_disable (Q : Z -> dstate -> Prop) d : Q (primask d) (set_primask 1 d) -> wp rt_hw_interrupt_disable Q d.
Proof. done. Qed.

Lemma wp_enable level (Q : unit -> dstate -> Prop) d :
  Q tt (set_primask level d) -> wp (rt_hw_interrupt_enable level) Q d.
Proof. done. Qed.

(** A thread suspends itself on list [l]: what the drivers write instead of
    [rt_ipc_list_suspend]. *)
Lemma suspend_last_spec s l t th (Q : unit -> kstate -> Prop) :
  kinv ∅ s -> threads s !! t = Some th -> th_stat th = RT_THREAD_READY -> waiting_list l ->
  (forall s', kinv ∅ s' -> frame0 s s' -> threads s' = <[t := set_th_stat RT_THREAD_SUSPEND th]> (threads s) ->
     tlists s' = <[l := (tlists s !!! l) ++ [t]]> (Abs.remove t (tlists s)) -> TThread t ∉ last_row s' -> Q tt s') ->
  wp (rt_thread_suspend t;; tlist_insert_before l t) Q s.
Proof.
  intros Hk E Hst [Hl1 Hl2] HQ.
  pose proof (rt_ipc_list_suspend_spec s l t th RT_IPC_FLAG_FIFO Hk E Hst Hl1 Hl2 (or_introl eq_refl)) as Hw.
  unfold rt_ipc_list_suspend in Hw. rewrite Z.eqb_refl in Hw.
  apply wp_bind_inv in Hw. wp_step. eapply wp_mono; [exact Hw|]. cbv beta. intros e s1 Hs.
  apply wp_bind_inv in Hs. eapply wp_mono; [exact Hs|]. cbv beta. intros [] s2 Hs2.
  unfold wp, mret, M_ret in Hs2. destruct Hs2 as (_ & ? & ? & ? & Etl & ?). apply HQ; [done..| |done].
  rewrite Etl. unfold join. by rewrite Z.eqb_refl.
Qed.

(** The timer is armed, interrupts are enabled again and the processor is given up. *)
Lemma wait_rest d k0 l t th ws time level (Q : unit -> dstate -> Prop) :
  kinv ∅ k0 -> threads k0 !! t = Some th -> other_ready k0 t -> waiting_list l -> time < HALF_TICK ->
  kinv ∅ (kern d) -> frame0 k0 (kern d) ->
  threads (kern d) = <[t := set_th_stat RT_THREAD_SUSPEND th]> (threads k0) ->
  tlists (kern d) = <[l := ws]> (Abs.remove t (tlists k0)) -> TThread t ∉ last_row (kern d) ->
  (forall k', blocked_at k0 l t th ws time k' -> Q tt (set_primask level (set_kern k' d))) ->
  wp (yield_cpu t time level) Q d.
Proof.
  intros Hk E Hoth Hl Ht Hk1 Hf1 Eth1 Etl1 Hn1 HQ.
  pose proof (wait_tail k0 l t th ws time (kern d) (mret tt) (fun _ k' => blocked_at k0 l t th ws time k')
    Hk E Hoth Hl Ht Hk1 Hf1 Eth1 Etl1 Hn1 (fun s' Hb => Hb)) as Hw.
  apply wp_bind_inv in Hw. unfold yield_cpu. wp_step. apply wp_inK. eapply wp_mono; [exact Hw|]. cbv beta. intros [] k1 H1.
  apply wp_bind_inv in H1. wp_step. apply wp_enable. apply wp_inK. eapply wp_mono; [exact H1|].
  cbv beta. intros [] k2 H2. by apply HQ.
Qed.

(** The first thread of [l] has been woken, and interrupts are enabled again. *)
Lemma wake_first_spec d l level t ws th (Q : unit -> dstate -> Prop) :
  kinv ∅ (kern d) -> tlists (kern d) !!! l = t :: ws -> waiting_list l -> threads (kern d) !! t = Some th ->
  (forall k', handed (kern d) l t ws th k' -> Q tt (set_primask level (set_kern k' d))) ->
  wp (wake_first l level) Q d.
Proof.
  intros Hk El Hl Eth HQ. pose proof Hl as [Hl1 Hl2].
  pose proof (rt_ipc_list_resume_spec (kern d) l t ws th Hk El Hl1 Hl2 Eth) as Hw.
  unfold rt_ipc_list_resume in Hw. apply wp_bind_inv in Hw. unfold wake_first.
  wp_step. apply wp_inK. eapply wp_mono; [exact Hw|]. cbv beta. intros t' k1 H1.
  apply wp_bind_inv in H1. wp_step. apply wp_inK. eapply wp_mono; [exact H1|]. cbv beta. intros e k2 H2.
  unfold wp, mret, M_ret in H2. destruct H2 as [_ H2]. wp_step. apply wp_enable. apply wp_inK.
  eapply (schedule_handed (kern d)); [done|done|done|exact H2|]. intros k' Hh. by apply HQ.
Qed.
End driver.
