(* ===== verification/Completion.v ===== *)
(** * Completions (components/drivers/src/completion.c)

    One thread waits until another thread or an interrupt signals that something is done. *)
From stdpp Require Import base tactics numbers list gmap.
From S2P Require Import Prelude RtList Kernel Scheduler Object Timer Thread Ipc Driver.
Local Open Scope Z_scope.

Definition RT_COMPLETED : Z := 1.
Definition RT_UNCOMPLETED : Z := 0.

Section completion.
Context `{KConfig} `{Allocator}.

Definition get_completion (p : ptr) : M dstate rt_completion := d ← get; opt BadPointer (completions d !! p).
(** The caller's structure at [p] *)
Definition put_completion (p : ptr) (x : rt_completion) : M dstate unit :=
  modify (fun d => set_completions (<[p := x]> (completions d)) d).
Definition set_flag (p flag : Z) : M dstate unit := get_completion p;; put_completion p (mk_completion flag).

Definition rt_completion_init (completion : ptr) : M dstate unit :=
  RT_ASSERT (negb (completion =? RT_NULL));;
  level ← rt_hw_interrupt_disable;
  put_completion completion (mk_completion RT_UNCOMPLETED);;
  inK (tlist_head_init (LSuspend completion));;
  rt_hw_interrupt_enable level.

(** Behind the wait: the flag is cleaned. *)
Definition completion_exit (completion level result : Z) : M dstate Z :=
  set_flag completion RT_UNCOMPLETED;;
  rt_hw_interrupt_enable level;;
  mret result.

(** [Blocked thread]: the call waits in its [rt_schedule()]. *)
Definition rt_completion_wait (completion timeout : Z) : M dstate (progress Z ptr) :=
  RT_ASSERT (negb (completion =? RT_NULL));;
  thread ← inK rt_thread_self;
  level ← rt_hw_interrupt_disable;
  x ← get_completion completion;
  if negb (cp_flag x =? RT_COMPLETED) then
    e ← inK (tlist_isempty (LSuspend completion));
    RT_ASSERT e;;
    if timeout =? 0 then
      rt_hw_interrupt_enable level;; mret (Done (- RT_ETIMEOUT))
    else
      inK (upd_thread thread (set_th_error RT_EOK));;
      inK (rt_thread_suspend thread;; tlist_insert_before (LSuspend completion) thread);;
      inK RT_DEBUG_NOT_IN_INTERRUPT;;
      yield_cpu thread timeout level;;
      mret (Blocked thread)
  else
    r ← completion_exit completion level RT_EOK; mret (Done r).
Definition rt_completion_wait_resume (completion thread : ptr) : M dstate Z :=
  th ← inK (get_thread thread);
  level ← rt_hw_interrupt_disable;
  completion_exit completion level (th_error th).

Definition rt_completion_done (completion : ptr) : M dstate unit :=
  RT_ASSERT (negb (completion =? RT_NULL));;
  x ← get_completion completion;
  if cp_flag x =? RT_COMPLETED then mret tt
  else
    level ← rt_hw_interrupt_disable;
    set_flag completion RT_COMPLETED;;
    e ← inK (tlist_isempty (LSuspend completion));
    if negb e then wake_first (LSuspend completion) level
    else rt_hw_interrupt_enable level.

(** ** Correctness *)

Lemma wp_get_completion c x (Q : rt_completion -> dstate -> Prop) d :
  completions d !! c = Some x -> Q x d -> wp (get_completion c) Q d.
Proof. intros E HQ. unfold get_completion. do 2 wp_step. by eapply wp_opt. Qed.

Definition flagged (c flag : Z) (d : dstate) : dstate :=
  set_completions (<[c := mk_completion flag]> (completions d)) d.

Lemma wp_set_flag c flag x (Q : unit -> dstate -> Prop) d :
  completions d !! c = Some x -> Q tt (flagged c flag d) -> wp (set_flag c flag) Q d.
Proof. intros E HQ. unfold set_flag, put_completion. wp_step. eapply wp_get_completion; [done|]. by wp_step. Qed.

(** A completion in use: at most one thread waits for it. *)
Record cp_ok (d : dstate) (c : ptr) (x : rt_completion) : Prop := {
  cok_ptr : c <> RT_NULL;
  cok_at : completions d !! c = Some x;
  cok_kern : kinv ∅ (kern d)
}.

(** What [rt_completion_wait] does: a signal that has come is consumed, a wait of no
    length fails, and otherwise the caller is the one thread that waits. *)
Definition cp_waited (d : dstate) (c : ptr) (x : rt_completion) (t : ptr) (th : rt_thread) (time : Z)
    (r : progress Z ptr) (d' : dstate) : Prop :=
  if cp_flag x =? RT_COMPLETED then r = Done RT_EOK /\ d' = flagged c RT_UNCOMPLETED d
  else if time =? 0 then r = Done (- RT_ETIMEOUT) /\ d' = d
  else r = Blocked t /\ exists k', d' = set_kern k' d /\
    blocked_at (set_error t th RT_EOK (kern d)) (LSuspend c) t (set_th_error RT_EOK th) [t] time k'.

Lemma rt_completion_wait_spec d c x t th time :
  cp_ok d c x -> running (kern d) t th -> other_ready (kern d) t ->
  (cp_flag x <> RT_COMPLETED -> tlists (kern d) !!! LSuspend c = []) -> time < HALF_TICK ->
  wp (rt_completion_wait c time) (cp_waited d c x t th time) d.
Proof.
  intros [Hnn E Hk] Hrun Hoth Hone Ht. pose proof Hrun as [Ec Eth Hst Hnest Hnt].
  unfold rt_completion_wait, cp_waited. wp_step. wp_step; [lia|].
  wp_step. apply wp_inK. unfold rt_thread_self. wp_step. rewrite Ec. wp_step. apply wp_disable.
  wp_step. eapply wp_get_completion; [done|].
  destruct (Z.eqb_spec (cp_flag x) RT_COMPLETED) as [Ef|Ef]; simpl.
  { wp_step. unfold completion_exit. wp_step. eapply wp_set_flag; [done|]. wp_step. apply wp_enable.
    wp_step. wp_step. done. }
  wp_step. apply wp_inK. unfold tlist_isempty. wp_step. simpl. rewrite (Hone Ef). wp_step. wp_step; [done|].
  destruct (Z.eqb_spec time 0).
  { wp_step. apply wp_enable. wp_step. split; [done|]. by destruct d. }
  wp_step. apply wp_inK. eapply wp_upd_thread; [done|]. fold (set_error t th RT_EOK (kern d)).
  set (k1 := set_error t th RT_EOK (kern d)). assert (kinv ∅ k1) as Hk1 by (by eapply kinv_retouch).
  wp_step. apply wp_inK. eapply (suspend_last_spec k1); [done|apply lookup_insert_eq|done|apply suspend_waiting|].
  intros k2 Hk2 Hf2 Eth2 Etl2 Hn2. rewrite (Hone Ef : tlists k1 !!! LSuspend c = []) in Etl2.
  wp_step. apply wp_inK. unfold RT_DEBUG_NOT_IN_INTERRUPT. do 2 wp_step. wp_step.
  { simpl. rewrite (fr_nest _ _ (fr0_frame _ _ Hf2)). simpl. by rewrite Hnest. }
  wp_step. eapply (wait_rest _ k1); [done|apply lookup_insert_eq|done|apply suspend_waiting|done|done|done|done|done|done|].
  intros k' Hb. wp_step. split; [done|]. by exists k'.
Qed.

(** What [rt_completion_done] does: nothing when the signal is already there; otherwise the
    flag is set and the waiting thread, if any, made ready. *)
Definition cp_signalled (d : dstate) (c : ptr) (x : rt_completion) (d' : dstate) : Prop :=
  if cp_flag x =? RT_COMPLETED then d' = d
  else exists k', d' = set_kern k' (flagged c RT_COMPLETED d) /\ notified (kern d) (LSuspend c) k'.

Lemma rt_completion_done_spec d c x :
  cp_ok d c x -> wp (rt_completion_done c) (fun _ => cp_signalled d c x) d.
Proof.
  intros [Hnn E Hk]. unfold rt_completion_done, cp_signalled. wp_step. wp_step; [lia|].
  wp_step. eapply wp_get_completion; [done|].
  destruct (Z.eqb_spec (cp_flag x) RT_COMPLETED) as [Ef|Ef]; [by wp_step|].
  wp_step. apply wp_disable. wp_step. eapply wp_set_flag; [done|].
  wp_step. apply wp_inK. unfold tlist_isempty. wp_step. simpl. unfold notified.
  destruct (tlists (kern d) !!! LSuspend c) as [|t ws] eqn:El; simpl.
  - apply wp_enable. exists (kern d). split; [|done]. by destruct d.
  - destruct (list_first_thread _ _ _ _ Hk El) as [th Eth].
    eapply wake_first_spec; [done|done|apply suspend_waiting|done|].
    intros k' Hh. exists k'. split; [by destruct d|]. eauto.
Qed.

Lemma rt_completion_wait_resume_run d c x t th :
  completions d !! c = Some x -> threads (kern d) !! t = Some th ->
  rt_completion_wait_resume c t d = Ok (th_error th) (flagged c RT_UNCOMPLETED d).
Proof.
  intros E Eth.
  assert (wp (rt_completion_wait_resume c t) (fun r d' => r = th_error th /\ d' = flagged c RT_UNCOMPLETED d) d) as Hw.
  { unfold rt_completion_wait_resume, completion_exit. wp_step. apply wp_inK. eapply wp_get_thread; [done|].
    wp_step. apply wp_disable. wp_step. eapply wp_set_flag; [done|]. wp_step. apply wp_enable. wp_step.
    split; [done|]. by destruct d. }
  apply wp_ok in Hw as (r & d' & Er & -> & ->). done.
Qed.

(** A wait for a completion whose flag is set returns at once, whoever calls. *)
Lemma rt_completion_wait_at_once d c time :
  c <> RT_NULL -> completions d !! c = Some (mk_completion RT_COMPLETED) ->
  rt_completion_wait c time d = Ok (Done RT_EOK) (flagged c RT_UNCOMPLETED d).
Proof.
  intros Hnn E.
  assert (wp (rt_completion_wait c time) (fun r d' => r = Done RT_EOK /\ d' = flagged c RT_UNCOMPLETED d) d) as Hw.
  { unfold rt_completion_wait, completion_exit. wp_step. wp_step; [lia|]. wp_step. apply wp_inK.
    unfold rt_thread_self. do 2 wp_step. apply wp_disable. wp_step.
    eapply wp_get_completion; [done|]. simpl. wp_step. wp_step.
    eapply wp_set_flag; [done|]. wp_step. apply wp_enable. wp_step. wp_step. split; [done|]. by destruct d. }
  apply wp_ok in Hw as (r & d' & Er & -> & ->). done.
Qed.

(** No thread waits: the signal only sets the flag. *)
Lemma rt_completion_done_alone d c x :
  c <> RT_NULL -> completions d !! c = Some x -> cp_flag x <> RT_COMPLETED -> tlists (kern d) !!! LSuspend c = [] ->
  rt_completion_done c d = Ok tt (flagged c RT_COMPLETED d).
Proof.
  intros Hnn E Hf El.
  assert (wp (rt_completion_done c) (fun _ d' => d' = flagged c RT_COMPLETED d) d) as Hw.
  { unfold rt_completion_done. wp_step. wp_step; [lia|]. wp_step. eapply wp_get_completion; [done|].
    rewrite (proj2 (Z.eqb_neq _ _) Hf). wp_step. apply wp_disable. wp_step. eapply wp_set_flag; [done|].
    wp_step. apply wp_inK. unfold tlist_isempty. wp_step. simpl. rewrite El. simpl. apply wp_enable. by destruct d. }
  by apply wp_ok in Hw as ([] & d' & Er & ->).
Qed.

(** ** Properties *)

(** [rt_completion_wait] on every branch. *)
Theorem rt_completion_wait_correct d c x t th time :
  cp_ok d c x -> running (kern d) t th -> other_ready (kern d) t ->
  (cp_flag x <> RT_COMPLETED -> tlists (kern d) !!! LSuspend c = []) -> time < HALF_TICK ->
  exists r d', rt_completion_wait c time d = Ok r d' /\ cp_waited d c x t th time r d'.
Proof. intros. by apply wp_ok, rt_completion_wait_spec. Qed.

(** C37: A signal is kept until it is consumed: when no thread waits,
    [rt_completion_done] sets the flag, and in every later state in which the completion
    has not been touched a call of [rt_completion_wait], by whichever thread and with
    whichever timeout, returns RT_EOK at once and clears the flag.  A thread that waits
    and has not timed out is made ready by the signal, and when it runs, in any later
    state in which its error is still RT_EOK, its wait returns RT_EOK and clears the
    flag. *)
Theorem completion_signal_kept d c x :
  cp_ok d c x -> cp_flag x <> RT_COMPLETED ->
  exists d1, rt_completion_done c d = Ok tt d1 /\ kinv ∅ (kern d1) /\ primask d1 = primask d /\
    completions d1 !! c = Some (mk_completion RT_COMPLETED) /\
    (tlists (kern d) !!! LSuspend c = [] -> kern d1 = kern d) /\
    (forall t th ws, tlists (kern d) !!! LSuspend c = t :: ws -> threads (kern d) !! t = Some th ->
       t ∈ ready (kern d1) (th_current_priority th) /\ tlists (kern d1) !!! LSuspend c = ws /\
       threads (kern d1) !! t = Some (set_th_stat RT_THREAD_READY th)) /\
    forall d2, completions d2 !! c = completions d1 !! c ->
      (forall time, rt_completion_wait c time d2 = Ok (Done RT_EOK) (flagged c RT_UNCOMPLETED d2)) /\
      (forall t th2, threads (kern d2) !! t = Some th2 -> th_error th2 = RT_EOK ->
        rt_completion_wait_resume c t d2 = Ok RT_EOK (flagged c RT_UNCOMPLETED d2)).
Proof.
  intros Hc Hf. pose proof Hc as [Hnn E Hk].
  destruct (wp_ok _ _ _ (rt_completion_done_spec d c x Hc)) as ([] & d1 & E1 & Hs).
  unfold cp_signalled in Hs. rewrite (proj2 (Z.eqb_neq _ _) Hf) in Hs. destruct Hs as (k' & -> & Hn).
  pose proof (notified_frame _ _ _ Hk Hn) as [Hk' Hf'].
  exists (set_kern k' (flagged c RT_COMPLETED d)). split_and!; [done|done|done|apply lookup_insert_eq|..].
  - intros El. unfold notified in Hn. by rewrite El in Hn.
  - intros t th ws El Eth. unfold notified in Hn. rewrite El in Hn. destruct Hn as (th' & Eth' & Hh).
    assert (th' = th) as -> by congruence. simpl. split_and!.
    + rewrite (hd_ready _ _ _ _ _ _ Hh). set_solver.
    + apply (hd_rest _ _ _ _ _ _ Hh).
    + rewrite (hd_threads _ _ _ _ _ _ Hh). apply lookup_insert_eq.
  - intros d2 E2. simpl in E2. rewrite lookup_insert_eq in E2. split.
    + intros time. by apply rt_completion_wait_at_once.
    + intros t th2 Eth He. rewrite <- He. by eapply rt_completion_wait_resume_run.
Qed.

(** A waiting thread that has timed out but has not run yet loses the signal that comes
    in between: [rt_completion_done] finds nobody on the list and sets the flag, and then
    the thread returns -RT_ETIMEOUT and clears it, so that the next wait finds nothing. *)
Theorem completion_timeout_loses_signal d c x t th :
  cp_ok d c x -> cp_flag x <> RT_COMPLETED -> tlists (kern d) !!! LSuspend c = [t] ->
  threads (kern d) !! t = Some th -> th_stat th = RT_THREAD_SUSPEND ->
  exists k1, rt_thread_timeout t (kern d) = Ok tt k1 /\
    rt_completion_done c (set_kern k1 d) = Ok tt (flagged c RT_COMPLETED (set_kern k1 d)) /\
    rt_completion_wait_resume c t (flagged c RT_COMPLETED (set_kern k1 d)) =
      Ok (- RT_ETIMEOUT) (flagged c RT_UNCOMPLETED (set_kern k1 d)).
Proof.
  intros [Hnn E Hk] Hf El Eth Hst.
  destruct (wp_ok _ _ _ (rt_thread_timeout_spec (kern d) t th (ki_sched _ _ Hk) Eth Hst))
    as ([] & k1 & E1 & _ & _ & Eth1 & Etl1 & _). exists k1. split_and!; [done|..].
  - eapply rt_completion_done_alone; [done|done|done|]. simpl. rewrite Etl1. unfold resumed_lists, Abs.insert_back.
    rewrite lookup_total_insert_ne, Abs.lookup_remove, El by done. unfold list_del. by rewrite filter_cons_False by tauto.
  - erewrite rt_completion_wait_resume_run; [|apply lookup_insert_eq|simpl; rewrite Eth1; apply lookup_insert_eq].
    unfold flagged. simpl. by rewrite insert_insert_eq.
Qed.
End completion.
