(* ===== verification/DataQueue.v ===== *)
(** * Data queues (components/drivers/src/dataqueue.c)

    A bounded queue of (pointer, size) items between drivers and threads.  The indices run
    freely over 16 bits and are masked when the array is accessed; a producer that finds
    the queue full is woken only when the low water mark is reached. *)
From stdpp Require Import base tactics numbers list gmap.
From S2P Require Import Prelude RtList Kernel Scheduler Object Timer Thread Ipc Driver.
Local Open Scope Z_scope.

Definition RT_DATAQUEUE_EVENT_POP : Z := 1.
Definition RT_DATAQUEUE_EVENT_PUSH : Z := 2.
Definition RT_DATAQUEUE_EVENT_LWM : Z := 3.

(** Assignments to single fields *)
Definition set_waiting_lwm (b : bool) (x : rt_data_queue) : rt_data_queue :=
  mk_data_queue (dq_size x) (dq_lwm x) b (dq_get_index x) (dq_put_index x) (dq_queue x) (dq_items x) (dq_evt_notify x).
Definition set_get_index (i : Z) (x : rt_data_queue) : rt_data_queue :=
  mk_data_queue (dq_size x) (dq_lwm x) (dq_waiting_lwm x) (u16 i) (dq_put_index x) (dq_queue x) (dq_items x) (dq_evt_notify x).
Definition set_put_index (i : Z) (x : rt_data_queue) : rt_data_queue :=
  mk_data_queue (dq_size x) (dq_lwm x) (dq_waiting_lwm x) (dq_get_index x) (u16 i) (dq_queue x) (dq_items x) (dq_evt_notify x).
Definition set_item (i : Z) (it : Z * Z) (x : rt_data_queue) : rt_data_queue :=
  mk_data_queue (dq_size x) (dq_lwm x) (dq_waiting_lwm x) (dq_get_index x) (dq_put_index x) (dq_queue x)
    (<[i := it]> (dq_items x)) (dq_evt_notify x).

(** [mask = queue->size - 1] in a 16-bit variable *)
Definition dq_mask (x : rt_data_queue) : Z := u16 (dq_size x - 1).

Section data_queue.
Context `{KConfig} `{Allocator}.
(** The notification function of the user at an address, called with the queue and an event *)
Context (evt_notify : Z -> ptr -> Z -> M dstate unit).

Definition get_dq (p : ptr) : M dstate rt_data_queue := d ← get; opt BadPointer (dqueues d !! p).
Definition put_dq (p : ptr) (x : rt_data_queue) : M dstate unit :=
  modify (fun d => set_dqueues (<[p := x]> (dqueues d)) d).
Definition upd_dq (p : ptr) (f : rt_data_queue -> rt_data_queue) : M dstate unit :=
  x ← get_dq p; put_dq p (f x).

Definition rt_data_queue_init (queue size lwm notify : Z) : M dstate Z :=
  RT_ASSERT (negb (queue =? RT_NULL));;
  put_dq queue (mk_data_queue (u16 size) (u16 lwm) false 0 0 RT_NULL ∅ notify);;
  inK (tlist_head_init (LSender queue));;
  inK (tlist_head_init (LSuspend queue));;
  p ← inK (kmalloc (8 * u16 size));
  upd_dq queue (fun x => mk_data_queue (dq_size x) (dq_lwm x) (dq_waiting_lwm x) (dq_get_index x)
                           (dq_put_index x) p (dq_items x) (dq_evt_notify x));;
  if p =? RT_NULL then mret (- RT_ENOMEM) else mret RT_EOK.

(** [__exit]: interrupts are enabled and the user is told. *)
Definition dq_exit (queue level result event : Z) : M dstate Z :=
  rt_hw_interrupt_enable level;;
  x ← get_dq queue;
  when ((result =? RT_EOK) && negb (dq_evt_notify x =? RT_NULL)) (evt_notify (dq_evt_notify x) queue event);;
  mret result.

(** The body of the loops: the running thread waits on [l]. *)
Definition dq_suspend (l : list_id) (thread timeout level : Z) : M dstate unit :=
  inK RT_DEBUG_NOT_IN_INTERRUPT;;
  inK (upd_thread thread (set_th_error RT_EOK));;
  inK (rt_thread_suspend thread;; tlist_insert_before l thread);;
  yield_cpu thread timeout level.

(** ** Push *)

(** [while (queue->put_index - queue->get_index == queue->size)] and what follows it, up to
    a [rt_schedule()] inside the loop or to the end.  The difference is an [int]. *)
Definition dq_push_loop (queue thread data_ptr data_size timeout level result : Z) : M dstate (progress Z unit) :=
  x ← get_dq queue;
  if dq_put_index x - dq_get_index x =? dq_size x then
    upd_dq queue (set_waiting_lwm true);;
    if timeout =? 0 then
      r ← dq_exit queue level (- RT_ETIMEOUT) RT_DATAQUEUE_EVENT_PUSH; mret (Done r)
    else
      dq_suspend (LSender queue) thread timeout level;; mret (Blocked tt)
  else
    upd_dq queue (fun x => set_item (Z.land (dq_put_index x) (dq_mask x)) (data_ptr, data_size) x);;
    upd_dq queue (fun x => set_put_index (dq_put_index x + 1) x);;
    e ← inK (tlist_isempty (LSuspend queue));
    if negb e then
      wake_first (LSuspend queue) level;; mret (Done result)
    else
      r ← dq_exit queue level result RT_DATAQUEUE_EVENT_PUSH; mret (Done r).

Definition rt_data_queue_push (queue data_ptr data_size timeout : Z) : M dstate (progress Z unit) :=
  RT_ASSERT (negb (queue =? RT_NULL));;
  thread ← inK rt_thread_self;
  level ← rt_hw_interrupt_disable;
  dq_push_loop queue thread data_ptr data_size timeout level RT_EOK.
Definition rt_data_queue_push_resume (queue thread data_ptr data_size timeout : Z) : M dstate (progress Z unit) :=
  th ← inK (get_thread thread);
  let result := th_error th in
  level ← rt_hw_interrupt_disable;
  if negb (result =? RT_EOK) then
    r ← dq_exit queue level result RT_DATAQUEUE_EVENT_PUSH; mret (Done r)
  else dq_push_loop queue thread data_ptr data_size timeout level result.

(** ** Pop: the result comes with the item stored through [data_ptr] and [size], if any *)

Definition dq_pop_loop (queue thread timeout level result : Z) : M dstate (progress (Z * option (Z * Z)) unit) :=
  x ← get_dq queue;
  if dq_get_index x =? dq_put_index x then
    if timeout =? 0 then
      r ← dq_exit queue level (- RT_ETIMEOUT) RT_DATAQUEUE_EVENT_POP; mret (Done (r, None))
    else
      dq_suspend (LSuspend queue) thread timeout level;; mret (Blocked tt)
  else
    it ← opt BadPointer (dq_items x !! Z.land (dq_get_index x) (dq_mask x));
    upd_dq queue (fun x => set_get_index (dq_get_index x + 1) x);;
    x ← get_dq queue;
    if dq_waiting_lwm x && (dq_put_index x - dq_get_index x <=? dq_lwm x) then
      upd_dq queue (set_waiting_lwm false);;
      e ← inK (tlist_isempty (LSender queue));
      when (negb e) (wake_first (LSender queue) level);;
      x ← get_dq queue;
      when (negb (dq_evt_notify x =? RT_NULL)) (evt_notify (dq_evt_notify x) queue RT_DATAQUEUE_EVENT_LWM);;
      mret (Done (result, Some it))
    else
      r ← dq_exit queue level result RT_DATAQUEUE_EVENT_POP; mret (Done (r, Some it)).

Definition rt_data_queue_pop (queue timeout : Z) : M dstate (progress (Z * option (Z * Z)) unit) :=
  RT_ASSERT (negb (queue =? RT_NULL));;
  thread ← inK rt_thread_self;
  level ← rt_hw_interrupt_disable;
  dq_pop_loop queue thread timeout level RT_EOK.
Definition rt_data_queue_pop_resume (queue thread timeout : Z) : M dstate (progress (Z * option (Z * Z)) unit) :=
  th ← inK (get_thread thread);
  let result := th_error th in
  level ← rt_hw_interrupt_disable;
  if negb (result =? RT_EOK) then
    r ← dq_exit queue level result RT_DATAQUEUE_EVENT_POP; mret (Done (r, None))
  else dq_pop_loop queue thread timeout level result.

Definition rt_data_queue_peak (queue : ptr) : M dstate (Z * option (Z * Z)) :=
  RT_ASSERT (negb (queue =? RT_NULL));;
  level ← rt_hw_interrupt_disable;
  x ← get_dq queue;
  if dq_get_index x =? dq_put_index x then
    rt_hw_interrupt_enable level;; mret (- RT_EEMPTY, None)
  else
    it ← opt BadPointer (dq_items x !! Z.land (dq_get_index x) (dq_mask x));
    rt_hw_interrupt_enable level;;
    mret (RT_EOK, Some it).

(** Each loop of [rt_data_queue_reset] is the one of [rt_ipc_list_resume_all]. *)
Definition rt_data_queue_reset (queue : ptr) : M dstate unit :=
  inK rt_enter_critical;;
  inK (rt_ipc_list_resume_all (LSuspend queue));;
  inK (rt_ipc_list_resume_all (LSender queue));;
  inK rt_exit_critical;;
  inK rt_schedule.

(** ** The array as a queue *)

(** The items of the queue, oldest first, while the indices have not gone round. *)
Record dq_repr (x : rt_data_queue) (items : list (Z * Z)) : Prop := {
  dr_size : exists k, 0 <= k < 16 /\ dq_size x = 2 ^ k;
  dr_get : 0 <= dq_get_index x;
  dr_put : dq_put_index x = dq_get_index x + Z.of_nat (length items);
  dr_wrap : dq_put_index x < 2 ^ 16;
  dr_cap : Z.of_nat (length items) <= dq_size x;
  dr_data : forall i it, items !! i = Some it ->
    dq_items x !! ((dq_get_index x + Z.of_nat i) mod dq_size x) = Some it
}.

Lemma mask_mod x i k : 0 <= k < 16 -> dq_size x = 2 ^ k -> Z.land i (dq_mask x) = i mod dq_size x.
Proof.
  intros Hk E. unfold dq_mask. rewrite E.
  assert (0 < 2 ^ k < 2 ^ 16) by (split; [lia|apply Z.pow_lt_mono_r; lia]).
  rewrite uwrap_small by lia. rewrite <- Z.land_ones by lia. f_equal. rewrite Z.ones_equiv. lia.
Qed.

Lemma repr_mask x items i : dq_repr x items -> Z.land i (dq_mask x) = i mod dq_size x.
Proof. intros [(k & Hk & E) _ _ _ _ _]. by eapply mask_mod. Qed.

Lemma mod_apart n a b : a < b < a + n -> a mod n <> b mod n.
Proof.
  intros Hab E. assert (0 < n) by lia.
  pose proof (Z.div_mod a n ltac:(lia)). pose proof (Z.div_mod b n ltac:(lia)).
  assert (b - a = n * (b / n - a / n)) by lia.
  destruct (Z_lt_ge_dec 0 (b / n - a / n)); nia.
Qed.

Definition dq_stored (it : Z * Z) (x : rt_data_queue) : rt_data_queue :=
  set_put_index (dq_put_index x + 1) (set_item (Z.land (dq_put_index x) (dq_mask x)) it x).

Lemma stored_repr x items it :
  dq_repr x items -> Z.of_nat (length items) < dq_size x -> dq_put_index x + 1 < 2 ^ 16 ->
  dq_repr (dq_stored it x) (items ++ [it]).
Proof.
  intros R Hl Hw. pose proof R as [Hs Hg Hp _ Hc Hd]. unfold dq_stored. rewrite (repr_mask _ _ _ R).
  split; simpl; rewrite ?length_app; simpl; rewrite ?uwrap_small by lia; try done; try lia.
  intros i it' Hi. rewrite lookup_insert. case_decide as E.
  - destruct (decide (i < length items)%nat) as [Hlt|Hge].
    + exfalso. symmetry in E. revert E. apply mod_apart. lia.
    + rewrite lookup_app_r in Hi by lia. apply list_lookup_singleton_Some in Hi as [_ ->]. done.
  - destruct (decide (i < length items)%nat) as [Hlt|Hge].
    + rewrite lookup_app_l in Hi by done. by apply Hd.
    + exfalso. apply E. f_equal. apply lookup_lt_Some in Hi. rewrite length_app in Hi. simpl in Hi. lia.
Qed.

Definition dq_removed (x : rt_data_queue) : rt_data_queue := set_get_index (dq_get_index x + 1) x.

Lemma removed_repr x it items : dq_repr x (it :: items) -> dq_repr (dq_removed x) items.
Proof.
  intros [Hs Hg Hp Hw Hc Hd]. simpl in Hp, Hc. unfold dq_removed.
  split; simpl; rewrite ?uwrap_small by lia; try done; try lia.
  intros i it' Hi. rewrite <- (Hd (S i) it' Hi). f_equal. f_equal. lia.
Qed.

Lemma waiting_repr x items b : dq_repr x items -> dq_repr (set_waiting_lwm b x) items.
Proof. by intros []. Qed.

Lemma first_item x it items : dq_repr x (it :: items) -> dq_items x !! Z.land (dq_get_index x) (dq_mask x) = Some it.
Proof. intros R. rewrite (repr_mask _ _ _ R), <- (dr_data _ _ R 0%nat it eq_refl). f_equal. f_equal. lia. Qed.

(** ** Correctness *)

Lemma wp_get_dq q x (Q : rt_data_queue -> dstate -> Prop) d : dqueues d !! q = Some x -> Q x d -> wp (get_dq q) Q d.
Proof. intros E HQ. unfold get_dq. do 2 wp_step. by eapply wp_opt. Qed.

Definition with_dq (q : ptr) (x : rt_data_queue) (d : dstate) : dstate := set_dqueues (<[q := x]> (dqueues d)) d.

Lemma wp_upd_dq q f x (Q : unit -> dstate -> Prop) d :
  dqueues d !! q = Some x -> Q tt (with_dq q (f x) d) -> wp (upd_dq q f) Q d.
Proof. intros E HQ. unfold upd_dq, put_dq. wp_step. eapply wp_get_dq; [done|]. by wp_step. Qed.

(** A data queue in use, without a notification function *)
Record dq_ok (d : dstate) (q : ptr) (x : rt_data_queue) (items : list (Z * Z)) : Prop := {
  qk_ptr : q <> RT_NULL;
  qk_at : dqueues d !! q = Some x;
  qk_repr : dq_repr x items;
  qk_silent : dq_evt_notify x = RT_NULL;
  qk_kern : kinv ∅ (kern d)
}.

Lemma wp_dq_exit q level r ev x (Q : Z -> dstate -> Prop) d :
  dqueues d !! q = Some x -> dq_evt_notify x = RT_NULL -> Q r (set_primask level d) -> wp (dq_exit q level r ev) Q d.
Proof.
  intros E Hn HQ. unfold dq_exit. wp_step. apply wp_enable. wp_step. eapply wp_get_dq; [done|].
  rewrite Hn, andb_false_r. wp_step. simpl. by do 2 wp_step.
Qed.

Lemma dq_suspend_spec d l t th timeout level (Q : unit -> dstate -> Prop) :
  kinv ∅ (kern d) -> running (kern d) t th -> other_ready (kern d) t -> waiting_list l -> timeout < HALF_TICK ->
  (forall k', blocked_at (set_error t th RT_EOK (kern d)) l t (set_th_error RT_EOK th)
                ((tlists (kern d) !!! l) ++ [t]) timeout k' -> Q tt (set_primask level (set_kern k' d))) ->
  wp (dq_suspend l t timeout level) Q d.
Proof.
  intros Hk [Ec Eth Hst Hnest Hnt] Hoth Hl Ht HQ. unfold dq_suspend.
  wp_step. apply wp_inK. unfold RT_DEBUG_NOT_IN_INTERRUPT. do 2 wp_step. wp_step; [by rewrite Hnest|].
  wp_step. apply wp_inK. eapply wp_upd_thread; [done|].
  set (k1 := set_error t th RT_EOK (kern d)). assert (kinv ∅ k1) as Hk1 by (by eapply kinv_retouch).
  wp_step. apply wp_inK. eapply (suspend_last_spec k1); [done|apply lookup_insert_eq|done|done|].
  intros k2 Hk2 Hf2 Eth2 Etl2 Hn2.
  eapply (wait_rest _ k1); [done|apply lookup_insert_eq|done|done|done|done|done|done|done|done|].
  intros k' Hb. by apply HQ.
Qed.

(** ** What push and pop do *)

(** A full queue refuses, or the caller waits in the push list; otherwise the item is
    stored behind the others and the first thread waiting for an item is woken. *)
Definition dq_pushed (d : dstate) (q : ptr) (x : rt_data_queue) (items : list (Z * Z)) (it : Z * Z)
    (t : ptr) (th : rt_thread) (timeout level : Z) (r : progress Z unit) (d' : dstate) : Prop :=
  if decide (Z.of_nat (length items) = dq_size x) then
    let d1 := with_dq q (set_waiting_lwm true x) d in
    if timeout =? 0 then r = Done (- RT_ETIMEOUT) /\ d' = set_primask level d1
    else r = Blocked tt /\ exists k', d' = set_primask level (set_kern k' d1) /\
      blocked_at (set_error t th RT_EOK (kern d)) (LSender q) t (set_th_error RT_EOK th)
        ((tlists (kern d) !!! LSender q) ++ [t]) timeout k'
  else r = Done RT_EOK /\ exists k',
    d' = set_primask level (set_kern k' (with_dq q (dq_stored it x) d)) /\ notified (kern d) (LSuspend q) k'.

Lemma set_kern_id (d : dstate) : set_kern (kern d) d = d.
Proof. by destruct d. Qed.

Lemma dq_push_loop_spec d q x items it t th timeout level :
  dq_ok d q x items ->
  (Z.of_nat (length items) = dq_size x -> timeout <> 0 ->
     running (kern d) t th /\ other_ready (kern d) t) -> timeout < HALF_TICK ->
  wp (dq_push_loop q t it.1 it.2 timeout level RT_EOK) (dq_pushed d q x items it t th timeout level) d.
Proof.
  intros [Hnn E R Hs Hk] Hctx Ht. unfold dq_push_loop, dq_pushed. wp_step. eapply wp_get_dq; [done|].
  rewrite (dr_put _ _ R), Z.add_simpl_l.
  destruct (Z.eqb_spec (Z.of_nat (length items)) (dq_size x)) as [Ef|Ef].
  - destruct (decide (Z.of_nat (length items) = dq_size x)); [|done]. wp_step. eapply wp_upd_dq; [done|].
    destruct (Z.eqb_spec timeout 0) as [->|Hne].
    + wp_step. eapply wp_dq_exit; [apply lookup_insert_eq|done|]. by wp_step.
    + destruct (Hctx Ef Hne) as [Hrun Hoth]. wp_step.
      eapply dq_suspend_spec; [done|done|done|apply sender_waiting|done|]. intros k' Hb. wp_step. split; [done|]. by exists k'.
  - destruct (decide (Z.of_nat (length items) = dq_size x)); [done|]. wp_step. eapply wp_upd_dq; [done|].
    wp_step. eapply wp_upd_dq; [apply lookup_insert_eq|].
    replace (with_dq q _ (with_dq q _ d)) with (with_dq q (dq_stored it x) d).
    2: { unfold with_dq, set_dqueues. simpl. rewrite insert_insert_eq. by destruct it. }
    wp_step. apply wp_inK. unfold tlist_isempty. wp_step. simpl kern. unfold notified.
    destruct (tlists (kern d) !!! LSuspend q) as [|u ws] eqn:El; simpl.
    + wp_step. eapply wp_dq_exit; [apply lookup_insert_eq|done|]. wp_step. split; [done|]. exists (kern d). done.
    + destruct (list_first_thread _ _ _ _ Hk El) as [uth Eu].
      wp_step. eapply wake_first_spec; [done|done|apply suspend_waiting|done|].
      intros k' Hh. wp_step. split; [done|]. exists k'. eauto.
Qed.

(** An empty queue gives nothing, or the caller waits in the pop list; otherwise the
    oldest item is taken.  When a producer has found the queue full and the low water mark
    is reached, the first waiting producer is woken, and when none waits, interrupts
    stay disabled. *)
Definition dq_popped (d : dstate) (q : ptr) (x : rt_data_queue) (items : list (Z * Z))
    (t : ptr) (th : rt_thread) (timeout level : Z) (r : progress (Z * option (Z * Z)) unit) (d' : dstate) : Prop :=
  match items with
  | [] =>
      if timeout =? 0 then r = Done (- RT_ETIMEOUT, None) /\ d' = set_primask level d
      else r = Blocked tt /\ exists k', d' = set_primask level (set_kern k' d) /\
        blocked_at (set_error t th RT_EOK (kern d)) (LSuspend q) t (set_th_error RT_EOK th)
          ((tlists (kern d) !!! LSuspend q) ++ [t]) timeout k'
  | it :: rest =>
      r = Done (RT_EOK, Some it) /\
      if dq_waiting_lwm x && (Z.of_nat (length rest) <=? dq_lwm x) then
        let d1 := with_dq q (set_waiting_lwm false (dq_removed x)) d in
        match tlists (kern d) !!! LSender q with
        | [] => d' = d1
        | u :: ws => exists uth k', threads (kern d) !! u = Some uth /\
            handed (kern d) (LSender q) u ws uth k' /\ d' = set_primask level (set_kern k' d1)
        end
      else d' = set_primask level (with_dq q (dq_removed x) d)
  end.

Lemma dq_pop_loop_spec d q x items t th timeout level :
  dq_ok d q x items ->
  (items = [] -> timeout <> 0 -> running (kern d) t th /\ other_ready (kern d) t) -> timeout < HALF_TICK ->
  wp (dq_pop_loop q t timeout level RT_EOK) (dq_popped d q x items t th timeout level) d.
Proof.
  intros [Hnn E R Hs Hk] Hctx Ht. unfold dq_pop_loop, dq_popped. wp_step. eapply wp_get_dq; [done|].
  pose proof (dr_put _ _ R) as Hp. destruct items as [|it rest]; simpl in Hp.
  - rewrite Hp, Z.add_0_r, Z.eqb_refl. destruct (Z.eqb_spec timeout 0) as [->|Hne].
    + wp_step. eapply wp_dq_exit; [done|done|]. by wp_step.
    + destruct (Hctx eq_refl Hne) as [Hrun Hoth]. wp_step.
      eapply dq_suspend_spec; [done|done|done|apply suspend_waiting|done|]. intros k' Hb. wp_step. split; [done|]. by exists k'.
  - destruct (Z.eqb_spec (dq_get_index x) (dq_put_index x)); [lia|].
    wp_step. eapply wp_opt; [by eapply first_item|]. wp_step. eapply wp_upd_dq; [done|]. fold (dq_removed x).
    wp_step. eapply wp_get_dq; [apply lookup_insert_eq|].
    pose proof (removed_repr _ _ _ R) as R1. rewrite (dr_put _ _ R1), Z.add_simpl_l. simpl dq_waiting_lwm. simpl dq_lwm.
    destruct (dq_waiting_lwm x && (Z.of_nat (length rest) <=? dq_lwm x)).
    + wp_step. eapply wp_upd_dq; [apply lookup_insert_eq|].
      replace (with_dq q _ (with_dq q _ d)) with (with_dq q (set_waiting_lwm false (dq_removed x)) d).
      2: { unfold with_dq, set_dqueues. simpl. by rewrite insert_insert_eq. }
      wp_step. apply wp_inK. unfold tlist_isempty. wp_step. simpl kern.
      destruct (tlists (kern d) !!! LSender q) as [|u ws] eqn:El; simpl.
      * wp_step. wp_step. wp_step. eapply wp_get_dq; [apply lookup_insert_eq|]. simpl. rewrite Hs. simpl.
        wp_step. wp_step. wp_step. split; [done|]. by destruct d.
      * destruct (list_first_thread _ _ _ _ Hk El) as [uth Eu].
        wp_step. eapply wake_first_spec; [done|done|apply sender_waiting|done|].
        intros k' Hh. wp_step. eapply wp_get_dq; [apply lookup_insert_eq|]. simpl. rewrite Hs. simpl.
        wp_step. wp_step. wp_step. split; [done|]. exists uth, k'. split_and!; [done|done|]. by destruct d.
    + wp_step. eapply wp_dq_exit; [apply lookup_insert_eq|done|]. by wp_step.
Qed.

(** ** Sequences of calls that do not wait *)

Inductive dq_op := DPush (it : Z * Z) | DPop.

(** The abstract queue of at most [n] items *)
Definition fifo_step (n : Z) (op : dq_op) (items : list (Z * Z)) : Z * option (Z * Z) * list (Z * Z) :=
  match op, items with
  | DPush it, _ => if Z.of_nat (length items) =? n then (- RT_ETIMEOUT, None, items) else (RT_EOK, None, items ++ [it])
  | DPop, [] => (- RT_ETIMEOUT, None, [])
  | DPop, it :: rest => (RT_EOK, Some it, rest)
  end.
Fixpoint fifo_run (n : Z) (ops : list dq_op) (items : list (Z * Z)) : list (Z * option (Z * Z)) :=
  match ops with
  | [] => []
  | op :: ops' => let '(r, items') := fifo_step n op items in r :: fifo_run n ops' items'
  end.

(** The calls of the code, with a timeout of 0; a call that blocks has no result. *)
Definition dq_step (q : ptr) (op : dq_op) : M dstate (Z * option (Z * Z)) :=
  match op with
  | DPush it =>
      r ← rt_data_queue_push q it.1 it.2 0;
      match r with Done e => mret (e, None) | Blocked _ => throw OutOfFuel end
  | DPop =>
      r ← rt_data_queue_pop q 0;
      match r with Done e => mret e | Blocked _ => throw OutOfFuel end
  end.
Fixpoint dq_run (q : ptr) (ops : list dq_op) : M dstate (list (Z * option (Z * Z))) :=
  match ops with
  | [] => mret []
  | op :: ops' => r ← dq_step q op; rs ← dq_run q ops'; mret (r :: rs)
  end.

Fixpoint pushes (ops : list dq_op) : Z :=
  match ops with
  | [] => 0
  | DPush _ :: ops' => 1 + pushes ops'
  | DPop :: ops' => pushes ops'
  end.

(** The state between the calls: no thread waits. *)
Record dq_idle (d : dstate) (q : ptr) (x : rt_data_queue) (items : list (Z * Z)) : Prop := {
  qi_ok : dq_ok d q x items;
  qi_pop : tlists (kern d) !!! LSuspend q = [];
  qi_push : tlists (kern d) !!! LSender q = []
}.

Lemma dq_step_spec d q x items op :
  dq_idle d q x items -> dq_put_index x + pushes [op] < 2 ^ 16 ->
  exists d' x', dq_step q op d = Ok (fifo_step (dq_size x) op items).1 d' /\
    dq_idle d' q x' (fifo_step (dq_size x) op items).2 /\ dq_size x' = dq_size x /\
    dq_put_index x' <= dq_put_index x + pushes [op].
Proof.
  intros [Hq Hpop Hpush] Hw. pose proof Hq as [Hnn E R Hs Hk].
  assert (dq_ok (set_primask 1 d) q x items) as Hq1 by by split.
  assert (forall m y l, dq_repr y l -> dq_evt_notify y = RT_NULL -> dq_idle (set_primask m (with_dq q y d)) q y l) as Hidle.
  { intros m y l Ry Hy. split; [|done|done]. split; [done|apply lookup_insert_eq|done|done|done]. }
  destruct op as [it|]; simpl.
  - pose proof (dq_push_loop_spec (set_primask 1 d) q x items it (rt_current_thread (kern d)) (junk_rt_thread RT_NULL) 0 (primask d) Hq1) as Hp.
    apply wp_ok in Hp as (r & d' & Er & Hr); [|done|done].
    assert (rt_data_queue_push q it.1 it.2 0 d = Ok r d') as Ep.
    { unfold rt_data_queue_push, RT_ASSERT. rewrite (proj2 (Z.eqb_neq q RT_NULL) Hnn). exact Er. }
    unfold dq_pushed in Hr. rewrite (run_bind _ _ _ _ _ Ep).
    destruct (Z.eqb_spec (Z.of_nat (length items)) (dq_size x)) as [Ef|Ef].
    + rewrite decide_True in Hr by done. simpl in Hr. destruct Hr as [-> ->].
      exists (set_primask (primask d) (with_dq q (set_waiting_lwm true x) d)), (set_waiting_lwm true x).
      split_and!; [done| |done|simpl; lia]. apply Hidle; [by apply waiting_repr|done].
    + rewrite decide_False in Hr by done. destruct Hr as [-> (k' & -> & Hn)].
      unfold notified in Hn. simpl in Hn. rewrite Hpop in Hn. subst k'.
      exists (set_primask (primask d) (with_dq q (dq_stored it x) d)), (dq_stored it x).
      change (pushes [DPush it]) with 1 in *. pose proof (dr_get _ _ R). pose proof (dr_put _ _ R). pose proof (dr_cap _ _ R).
      split_and!; [done| |done|simpl; rewrite uwrap_small; lia].
      apply Hidle; [|done]. apply stored_repr; [done|lia|lia].
  - pose proof (dq_pop_loop_spec (set_primask 1 d) q x items (rt_current_thread (kern d)) (junk_rt_thread RT_NULL) 0 (primask d) Hq1) as Hp.
    apply wp_ok in Hp as (r & d' & Er & Hr); [|done|done].
    assert (rt_data_queue_pop q 0 d = Ok r d') as Ep.
    { unfold rt_data_queue_pop, RT_ASSERT. rewrite (proj2 (Z.eqb_neq q RT_NULL) Hnn). exact Er. }
    unfold dq_popped in Hr. rewrite (run_bind _ _ _ _ _ Ep). destruct items as [|it rest]; simpl in Hr.
    + destruct Hr as [-> ->]. exists d, x. split_and!; [by destruct d|done|done|simpl; lia].
    + pose proof (removed_repr _ _ _ R) as R1. destruct Hr as [-> Hr].
      destruct (dq_waiting_lwm x && _).
      * rewrite Hpush in Hr. subst d'. eexists _, (set_waiting_lwm false (dq_removed x)).
        split_and!; [reflexivity| |done|simpl; lia].
        apply (Hidle 1); [by apply waiting_repr|done].
      * subst d'. eexists _, (dq_removed x). split_and!; [reflexivity| |done|simpl; lia].
        by apply (Hidle (primask d)).
Qed.

Lemma pushes_cons op ops : pushes (op :: ops) = pushes [op] + pushes ops.
Proof. by destruct op. Qed.

Lemma pushes_nonneg ops : 0 <= pushes ops.
Proof. induction ops as [|[] ops IH]; simpl; lia. Qed.

Lemma dq_run_spec ops d q x items :
  dq_idle d q x items -> dq_put_index x + pushes ops < 2 ^ 16 ->
  exists d', dq_run q ops d = Ok (fifo_run (dq_size x) ops items) d'.
Proof.
  revert d x items. induction ops as [|op ops IH]; intros d x items Hi Hw; [by exists d|].
  rewrite pushes_cons in Hw. pose proof (pushes_nonneg ops).
  destruct (dq_step_spec d q x items op Hi) as (d1 & x1 & E1 & Hi1 & Es & Hp); [lia|].
  destruct (IH d1 x1 _ Hi1) as (d2 & E2); [lia|]. exists d2. simpl.
  erewrite run_bind by exact E1. erewrite run_bind by exact E2. rewrite Es.
  by destruct (fifo_step (dq_size x) op items).
Qed.

(** Initialisation: the queue is empty unless there is no memory for the array. *)
Lemma rt_data_queue_init_spec d q k lwm d' :
  kinv ∅ (kern d) -> q <> RT_NULL -> 0 <= k < 16 -> 0 <= lwm < 2 ^ 16 ->
  tlists (kern d) !!! LSender q = [] -> tlists (kern d) !!! LSuspend q = [] ->
  rt_data_queue_init q (2 ^ k) lwm RT_NULL d = Ok RT_EOK d' ->
  exists x, dq_idle d' q x [] /\ dq_size x = 2 ^ k /\ dq_put_index x = 0 /\ dq_lwm x = lwm /\
    dq_waiting_lwm x = false /\ primask d' = primask d.
Proof.
  intros Hk Hnn Hk16 Hl Hs1 Hs2 E.
  assert (0 < 2 ^ k < 2 ^ 16) by (split; [lia|apply Z.pow_lt_mono_r; lia]).
  assert (wp (rt_data_queue_init q (2 ^ k) lwm RT_NULL) (fun r d' => r = RT_EOK ->
    exists x, dq_idle d' q x [] /\ dq_size x = 2 ^ k /\ dq_put_index x = 0 /\ dq_lwm x = lwm /\
      dq_waiting_lwm x = false /\ primask d' = primask d) d) as Hw.
  { unfold rt_data_queue_init. wp_step. wp_step; [lia|]. wp_step. unfold put_dq at 1. wp_step.
    wp_step. apply wp_inK. unfold tlist_head_init, upd_tlists. wp_step. wp_step. apply wp_inK. wp_step.
    wp_step. apply wp_inK. unfold kmalloc. wp_step. wp_step. destruct (malloc _ _) as [p h]. wp_step. wp_step.
    wp_step. wp_step. eapply wp_upd_dq; [apply lookup_insert_eq|].
    destruct (Z.eqb_spec p RT_NULL); wp_step; [done|]. intros _.
    assert (forall l, (<[LSuspend q := []]> (<[LSender q := []]> (tlists (kern d)))) !!! l = tlists (kern d) !!! l) as Hlists.
    { intros l. destruct (decide (l = LSuspend q)) as [->|Hn1]; [by rewrite lookup_total_insert_eq|].
      rewrite lookup_total_insert_ne by done.
      destruct (decide (l = LSender q)) as [->|Hn2]; [by rewrite lookup_total_insert_eq|by rewrite lookup_total_insert_ne]. }
    exists (mk_data_queue (u16 (2 ^ k)) (u16 lwm) false 0 0 p ∅ RT_NULL).
    split_and!; [|apply (uwrap_small 16); lia|done|by apply (uwrap_small 16)|done|done].
    split; [|simpl; by rewrite Hlists|simpl; by rewrite Hlists].
    split; [done|apply lookup_insert_eq| |done|].
    - split; simpl; rewrite ?uwrap_small by lia; try done; try lia. eauto.
    - by apply (kinv_eq ∅ (kern d)). }
  apply wp_ok in Hw as (r & d1 & E1 & Hr). rewrite E in E1. apply Ok_inj in E1 as [<- <-]. by apply Hr.
Qed.

(** ** Properties *)

(** C38: A data queue whose size is a power of two is a first-in first-out queue: from its
    initialisation on, any sequence of pushes and pops that do not wait returns what the
    queue returns, full and empty cases included, as long as fewer than 65536 items have
    been pushed. *)
Theorem data_queue_is_fifo d q k lwm d' ops :
  kinv ∅ (kern d) -> q <> RT_NULL -> 0 <= k < 16 -> 0 <= lwm < 2 ^ 16 ->
  tlists (kern d) !!! LSender q = [] -> tlists (kern d) !!! LSuspend q = [] ->
  rt_data_queue_init q (2 ^ k) lwm RT_NULL d = Ok RT_EOK d' -> pushes ops < 2 ^ 16 ->
  exists d'', dq_run q ops d' = Ok (fifo_run (2 ^ k) ops []) d''.
Proof.
  intros Hk Hnn Hk16 Hl Hs1 Hs2 E Hp.
  destruct (rt_data_queue_init_spec d q k lwm d' Hk Hnn Hk16 Hl Hs1 Hs2 E) as (x & Hi & Es & Epx & _).
  rewrite <- Es. apply (dq_run_spec ops d' q x []); [done|lia].
Qed.

(** Once a push has found the queue full without waiting, the pop that brings the queue
    down to the low water mark returns with interrupts disabled: the branch that leaves
    early restores the interrupt mask only when a producer waits. *)
Theorem data_queue_pop_masks_interrupts d q x it rest :
  dq_ok d q x (it :: rest) -> dq_waiting_lwm x = true -> Z.of_nat (length rest) <= dq_lwm x ->
  tlists (kern d) !!! LSender q = [] ->
  exists d', rt_data_queue_pop q 0 d = Ok (Done (RT_EOK, Some it)) d' /\ primask d' = 1.
Proof.
  intros Hq Hwl Hle El. pose proof Hq as [Hnn E R Hs Hk].
  assert (dq_ok (set_primask 1 d) q x (it :: rest)) as Hq1 by by split.
  destruct (wp_ok _ _ _ (dq_pop_loop_spec (set_primask 1 d) q x (it :: rest) (rt_current_thread (kern d))
    (junk_rt_thread RT_NULL) 0 (primask d) Hq1 ltac:(done) ltac:(done))) as (r & d' & Er & Hr).
  simpl in Hr. destruct Hr as [-> Hr]. rewrite Hwl, (proj2 (Z.leb_le _ _) Hle) in Hr. simpl in Hr. rewrite El in Hr.
  exists d'. split; [|by subst d'].
  unfold rt_data_queue_pop, RT_ASSERT. rewrite (proj2 (Z.eqb_neq q RT_NULL) Hnn). exact Er.
Qed.

(** When the put index has gone round and the get index has not, a full queue is not seen
    as full: the push returns RT_EOK and overwrites the oldest item. *)
Theorem data_queue_wrap_overruns d q x k data :
  q <> RT_NULL -> dqueues d !! q = Some x -> dq_evt_notify x = RT_NULL ->
  0 <= k < 16 -> dq_size x = 2 ^ k -> 0 <= dq_put_index x < dq_get_index x -> dq_get_index x < 2 ^ 16 ->
  dq_put_index x = u16 (dq_get_index x + dq_size x) -> tlists (kern d) !!! LSuspend q = [] ->
  exists d' x', rt_data_queue_push q data.1 data.2 0 d = Ok (Done RT_EOK) d' /\
    dqueues d' !! q = Some x' /\ dq_get_index x' = dq_get_index x /\
    dq_items x' !! Z.land (dq_get_index x') (dq_mask x') = Some data.
Proof.
  intros Hnn E Hs Hk Ek Hpg Hg Hfull El.
  assert (0 < 2 ^ k) by lia.
  assert (wp (rt_data_queue_push q data.1 data.2 0) (fun r d' => r = Done RT_EOK /\ dqueues d' !! q = Some (dq_stored data x)) d) as Hw.
  { unfold rt_data_queue_push. wp_step. wp_step; [lia|]. wp_step. apply wp_inK. unfold rt_thread_self. wp_step.
    wp_step. apply wp_disable. unfold dq_push_loop. wp_step. eapply wp_get_dq; [done|].
    destruct (Z.eqb_spec (dq_put_index x - dq_get_index x) (dq_size x)); [lia|].
    wp_step. eapply wp_upd_dq; [done|]. wp_step. eapply wp_upd_dq; [apply lookup_insert_eq|].
    wp_step. apply wp_inK. unfold tlist_isempty. wp_step. simpl kern. rewrite El. simpl.
    wp_step. eapply wp_dq_exit; [apply lookup_insert_eq|done|]. wp_step. split; [done|].
    simpl. rewrite insert_insert_eq, lookup_insert_eq. by destruct data. }
  apply wp_ok in Hw as (r & d' & Er & -> & Ed). exists d', (dq_stored data x). split_and!; [done|done|done|].
  unfold dq_stored. simpl. change (dq_mask (set_put_index _ _)) with (dq_mask x).
  replace (Z.land (dq_get_index x) (dq_mask x)) with (Z.land (dq_put_index x) (dq_mask x)); [apply lookup_insert_eq|].
  rewrite !(mask_mod x _ k Hk Ek), Hfull. unfold uwrap. rewrite Ek.
  replace (2 ^ 16) with (2 ^ (16 - k) * 2 ^ k) by (rewrite <- Z.pow_add_r by lia; f_equal; lia).
  rewrite (Z.mul_comm (2 ^ (16 - k))), Z.rem_mul_r by (try apply Z.pow_nonzero; lia).
  rewrite Z.mul_comm, Z.mod_add, Z.mod_mod by lia. replace (dq_get_index x + 2 ^ k) with (dq_get_index x + 1 * 2 ^ k) by lia.
  by rewrite Z.mod_add by lia.
Qed.
End data_queue.
