(* ===== verification/Board.v ===== *)
(** * A booted board

    An executable checker of the kernel invariant, the start-up sequence of the
    board support packages (applications/startup.c), and a board that has been
    through it: the concrete states on which the properties are exercised. *)
From stdpp Require Import base tactics numbers list gmap sorting.
From S2P Require Import Prelude RtList Kernel Scheduler Object Timer Thread Clock.
Local Open Scope Z_scope.

(** ** The checker *)

Section checker.
Context `{KConfig} `{Allocator}.

Definition store_check (st : gmap list_id (list ptr)) : bool :=
  let ml := map_to_list st in
  bool_decide (Forall (fun x => NoDup x.2) ml /\
    Forall (fun x => Forall (fun y => x.1 = y.1 \/ Forall (fun n => n ∉ y.2) x.2) ml) ml).

Lemma lookup_total_none (st : gmap list_id (list ptr)) l : st !! l = None -> st !!! l = [].
Proof. intros E. by rewrite lookup_total_alt, E. Qed.

Lemma lookup_total_elem (st : gmap list_id (list ptr)) (l : list_id) (t : ptr) :
  t ∈ st !!! l -> exists ts, (l, ts) ∈ map_to_list st /\ t ∈ ts /\ st !!! l = ts.
Proof.
  intros Ht. destruct (st !! l) as [ts|] eqn:E.
  - rewrite (lookup_total_correct _ _ _ E) in *. exists ts. split_and!; [by apply elem_of_map_to_list|done|done].
  - rewrite (lookup_total_none _ _ E) in Ht. by apply not_elem_of_nil in Ht.
Qed.

Lemma store_check_sound st : store_check st = true -> Abs.store_wf st.
Proof.
  intros [Hn Hd]%bool_decide_eq_true. rewrite Forall_forall in Hn, Hd. split.
  - intros h. destruct (st !! h) as [ts|] eqn:E.
    + rewrite (lookup_total_correct _ _ _ E). by apply (Hn (h, ts)), elem_of_map_to_list.
    + rewrite (lookup_total_none _ _ E). apply NoDup_nil_2.
  - intros h1 h2 n (t1 & E1 & H1 & _)%lookup_total_elem (t2 & E2 & H2 & _)%lookup_total_elem.
    specialize (Hd _ E1). rewrite Forall_forall in Hd. destruct (Hd _ E2) as [|Hf]; [done|].
    rewrite Forall_forall in Hf. by destruct (Hf n H1).
Qed.

Definition in_table (x : list_id * list ptr) : bool :=
  match x with (LReady p, _ :: _) => bool_decide (0 <= p < RT_THREAD_PRIORITY_MAX) | _ => true end.

Definition bitmap_check (s : kstate) : bool :=
  bool_decide (RT_THREAD_PRIORITY_MAX <= 32 /\ 0 <= rt_thread_ready_priority_group s < 2 ^ 32 /\
    Forall (fun x => in_table x = true) (map_to_list (tlists s)) /\
    Forall (fun p => Z.testbit (rt_thread_ready_priority_group s) p = bool_decide (ready s p <> [])) (seqZ 0 32)).

Lemma bitmap_check_sound s : bitmap_check s = true -> bitmap_ok s.
Proof.
  intros (Hm & Hg & Hp & Hb)%bool_decide_eq_true. split; [done|]. split.
  - intros p Hne. unfold ready in Hne. destruct (tlists s !! LReady p) as [ts|] eqn:E.
    + rewrite (lookup_total_correct _ _ _ E) in Hne. rewrite Forall_forall in Hp.
      apply elem_of_map_to_list in E. specialize (Hp _ E). destruct ts; [done|]. by apply bool_decide_eq_true in Hp.
    + by rewrite (lookup_total_none _ _ E) in Hne.
  - replace (RT_THREAD_PRIORITY_MAX <=? 32) with true by lia. intros p Hr. rewrite Forall_forall in Hb.
    apply (Hb p). apply elem_of_seqZ. lia.
Qed.

Definition list_stat_b (th : rt_thread) (l : list_id) : bool :=
  match l with
  | LReady p => (th_stat th =? RT_THREAD_READY) && (th_current_priority th =? p)
  | LDefunct => th_stat th =? RT_THREAD_CLOSE
  | LSuspend _ | LSender _ => th_stat th =? RT_THREAD_SUSPEND
  end.

Definition thread_check (s : kstate) (t : ptr) (th : rt_thread) : bool :=
  bool_decide (t <> RT_NULL /\ 0 <= th_current_priority th < RT_THREAD_PRIORITY_MAX /\
    0 <= th_init_priority th < RT_THREAD_PRIORITY_MAX /\
    (th_stat th = RT_THREAD_INIT \/ th_number_mask th = Z.shiftl 1 (th_current_priority th)) /\
    stack_ok th = true /\
    Forall (fun x => t ∉ x.2 \/ list_stat_b th x.1 = true) (map_to_list (tlists s)) /\
    (th_stat th <> RT_THREAD_READY \/ t ∈ ready s (th_current_priority th))).

Lemma thread_check_sound s t th :
  RT_THREAD_PRIORITY_MAX <= 32 -> thread_check s t th = true -> thread_ok s t th.
Proof.
  intros Hm (H1 & H2 & H3 & H4 & H5 & H6 & H7)%bool_decide_eq_true. split; [done|done|done| |done| |].
  - intros Hi. unfold masks_ok. replace (RT_THREAD_PRIORITY_MAX <=? 32) with true by lia. by destruct H4.
  - intros l (ts & Hts & Ht & _)%lookup_total_elem. rewrite Forall_forall in H6.
    destruct (H6 _ Hts) as [|Hl]; [done|]. simpl in Hl. destruct l; simpl in *; lia.
  - intros Hr. by destruct H7.
Qed.

Fixpoint sorted_b (o : timer_ref -> Z) (l : list timer_ref) : bool :=
  match l with [] => true | a :: l' => bool_decide (Forall (fun b => o a <= o b) l') && sorted_b o l' end.

Fixpoint nested_b (rows : list (list timer_ref)) : bool :=
  match rows with
  | l :: ((l' :: _) as rows') => bool_decide (Forall (fun r => r ∈ l') l) && nested_b rows'
  | _ => true
  end.

Lemma sorted_b_sound o l : sorted_b o l = true -> StronglySorted (fun a b => o a <= o b) l.
Proof.
  induction l as [|a l IH]; simpl; intros E; [apply SSorted_nil|].
  apply andb_true_iff in E as [E1%bool_decide_eq_true E2]. apply SSorted_cons; auto.
Qed.

Lemma nested_b_sound rows : nested_b rows = true -> nested rows.
Proof.
  induction rows as [|l [|l' rows] IH]; simpl; [done|done|]. intros [E1%bool_decide_eq_true E2]%andb_true_iff.
  split; [|by apply IH]. intros r. by rewrite Forall_forall in E1; apply E1.
Qed.

Definition in_window (base : Z) (s : kstate) (r : timer_ref) : bool :=
  match timers s !! r with
  | Some tm => (offset base (tm_timeout_tick tm) <? HALF_TICK) && has_flag RT_TIMER_FLAG_ACTIVATED tm
  | None => false
  end.

Definition timer_check (base : Z) (s : kstate) : bool :=
  bool_decide (length (rt_timer_list s) = RT_TIMER_SKIP_LIST_LEVEL /\
    Forall (fun l => NoDup l /\ sorted_b (timer_off base s) l = true) (rt_timer_list s) /\
    nested_b (rt_timer_list s) = true /\
    Forall (fun r => in_window base s r = true) (last_row s) /\
    Forall (fun x => has_flag RT_TIMER_FLAG_ACTIVATED x.2 = false \/ x.1 ∈ last_row s) (map_to_list (timers s))).

Lemma timer_check_sound base s : timer_check base s = true -> timer_inv base ∅ s.
Proof.
  intros (H1 & H2 & H3 & H4 & H5)%bool_decide_eq_true. rewrite Forall_forall in H4. rewrite Forall_forall in H5.
  split; [done| | |].
  - split; [|by apply nested_b_sound]. rewrite Forall_forall in *. intros l Hl.
    destruct (H2 l Hl). split; [done|]. by apply sorted_b_sound.
  - intros r Hr. specialize (H4 r Hr). unfold in_window in H4. destruct (timers s !! r) as [tm|]; [|done].
    exists tm. apply andb_true_iff in H4 as [? ?]. split_and!; [done|lia|done].
  - intros r tm _ E%elem_of_map_to_list Ha. destruct (H5 _ E) as [Hf|]; [|done]. simpl in Hf. congruence.
Qed.

Definition thread_timer_check (t : ptr) (s : kstate) : bool :=
  match timers s !! TThread t with
  | Some tm => bool_decide (tm_timeout_func tm = TF_thread_timeout /\ tm_parameter tm = t /\ 0 <= tm_flag tm /\
      has_flag RT_TIMER_FLAG_PERIODIC tm = false)
  | None => false
  end.

Definition waits_b (s : kstate) (r : timer_ref) : bool :=
  match r with
  | TThread t => match threads s !! t with Some th => th_stat th =? RT_THREAD_SUSPEND | None => false end
  | TObj _ => true
  end.

(** The invariant, for at most 32 priorities. *)
Definition kinv_check (s : kstate) : bool :=
  store_check (tlists s) && bitmap_check s && timer_check (rt_tick s) s &&
  bool_decide (Forall (fun x => Forall (fun t => is_Some (threads s !! t)) x.2) (map_to_list (tlists s)) /\
    Forall (fun x => thread_check s x.1 x.2 = true /\ thread_timer_check x.1 s = true) (map_to_list (threads s)) /\
    Forall (fun r => waits_b s r = true) (last_row s)).

Lemma kinv_check_sound s : kinv_check s = true -> kinv ∅ s.
Proof.
  intros [[[H1 H2]%andb_true_iff H3]%andb_true_iff (H4 & H5 & H6)%bool_decide_eq_true]%andb_true_iff.
  rewrite Forall_forall in H4. rewrite Forall_forall in H5. rewrite Forall_forall in H6. split.
  - split; [by apply store_check_sound|by apply bitmap_check_sound| |].
    + intros l t (ts & Hts & Ht & _)%lookup_total_elem. specialize (H4 _ Hts). rewrite Forall_forall in H4. by apply H4.
    + intros t th _ E%elem_of_map_to_list. apply thread_check_sound; [|by apply (H5 _ E)].
      by apply bool_decide_eq_true in H2 as [? _].
  - exists ∅. by apply timer_check_sound.
  - intros t [th E%elem_of_map_to_list]. destruct (H5 _ E) as [_ Ht]. unfold thread_timer_check in Ht. simpl in Ht.
    destruct (timers s !! TThread t) as [tm|]; [|done]. apply bool_decide_eq_true in Ht. by exists tm.
  - intros t Ht. specialize (H6 _ Ht). simpl in H6. destruct (threads s !! t) as [th|]; [|done]. exists th.
    split; [done|lia].
Qed.

(** What the tick assumes of the application's timers *)
Definition set_up_b (x : timer_ref * rt_timer) : bool :=
  match x.1 with TObj _ => negb (bool_decide (tm_timeout_func x.2 = TF_thread_timeout)) | TThread _ => true end &&
  (negb (has_flag RT_TIMER_FLAG_PERIODIC x.2) ||
   (0 <=? tm_flag x.2) && (0 <? tm_init_tick x.2) && (tm_init_tick x.2 <? HALF_TICK - 1)).

Definition ref_nonnull (r : timer_ref) : bool := match r with TObj p => negb (p =? RT_NULL) | TThread _ => true end.

Definition set_up_check (s : kstate) : bool :=
  forallb set_up_b (map_to_list (timers s)) && forallb ref_nonnull (concat (rt_timer_list s)).

Lemma set_up_check_sound s : set_up_check s = true -> timers_set_up s.
Proof.
  intros [H1 H2]%andb_true_iff. rewrite forallb_forall in H1, H2.
  assert (forall r tm, timers s !! r = Some tm -> set_up_b (r, tm) = true) as Hall
    by (intros r tm E; apply H1, list_elem_of_In, elem_of_map_to_list, E).
  split.
  - intros p tm E Hf. apply Hall in E. unfold set_up_b in E. simpl in E. by rewrite bool_decide_eq_true_2 in E.
  - intros p tm E Hp. apply Hall in E. unfold set_up_b in E. simpl in E. rewrite Hp in E.
    apply andb_true_iff in E as [_ E]. simpl in E. lia.
  - intros p (l & Hl & Hp)%Exists_exists. assert (TObj p ∈ concat (rt_timer_list s)) as Hc
      by (apply list_elem_of_In, in_concat; exists l; by rewrite <- !list_elem_of_In).
    apply list_elem_of_In, H2 in Hc. simpl in Hc. lia.
Qed.
End checker.

(** ** Start-up (applications/startup.c)

    [application] is [rt_application_init()].  Board initialisation, the heap and
    the version banner come before and are not part of the kernel. *)

Section startup.
Context `{KConfig} `{Allocator} (rt_thread_exit_addr : Z).

Definition rtthread_startup (application : K unit) (idle entry stack stack_size : Z) : K unit :=
  rt_system_scheduler_init;;
  rt_system_timer_init;;
  application;;
  rt_thread_idle_init rt_thread_exit_addr idle entry stack stack_size;;
  rt_system_scheduler_start.

(** Memory cleared by the C start-up code, before [rtthread_startup]. *)
Definition reset_state (h : heap) : kstate :=
  {| rt_scheduler_lock_nest := 0; rt_interrupt_nest := 0; rt_current_thread := RT_NULL;
     rt_current_priority := 0; rt_thread_ready_priority_group := 0;
     rt_thread_ready_table := replicate 32 0; tlists := ∅; threads := ∅; timers := ∅;
     rt_timer_list := []; random_nr := 0; rt_tick := 0; errno := 0; sems := ∅; mutexes := ∅;
     events := ∅; mailboxes := ∅; mqs := ∅; rt_object_container := ∅; kheap := h;
     devices := ∅; mempools := ∅; pool_words := ∅; hw_switches := [] |}.
End startup.

(** ** The board of the examples: an allocator that hands out increasing addresses *)

Definition bump_allocator : Allocator := {|
  heap := Z;
  malloc := fun size h => (h, h + RT_ALIGN size 4);
  free := fun _ h => h;
  garbage := fun _ _ => 0
|}.

Module Demo.
#[export] Existing Instance stm32_config.
#[export] Existing Instance bump_allocator.

Definition exit_addr : Z := 0x08000100.

(** Threads of the example: four application threads with static control blocks *)
Definition idle : ptr := 0x20000100.
Definition led : ptr := 0x20000200.
Definition worker : ptr := 0x20000300.
Definition logger : ptr := 0x20000400.

Definition start (t : ptr) (name : list Z) (prio : Z) : K unit :=
  rt_thread_init exit_addr t name (t + 1) 0 (t + 0x10000) 512 prio 5;;
  rt_thread_startup t;;
  mret tt.

Definition application : K unit :=
  start led [108; 101; 100] 20;;
  start worker [119] 10;;
  start logger [108; 111; 103] 10.

Definition value {A} (d : A) (m : K A) (s : kstate) : A := match m s with Ok a _ => a | Fault _ => d end.

Definition booted : kstate :=
  run (rtthread_startup exit_addr application idle 0x08000200 (idle + 0x10000) 256) (reset_state 0x20008000).

Lemma booted_inv : kinv ∅ booted.
Proof. apply kinv_check_sound. vm_compute. reflexivity. Defined.
End Demo.
