(* ===== verification/Witness.v ===== *)
(** * The properties on a booted board

    Each property with hypotheses is applied to a concrete state of the example
    board, where the hypotheses are decided by evaluation. *)
From stdpp Require Import base tactics numbers list gmap.
From S2P Require Import Prelude RtList KService Memory KString Kernel Scheduler Object Timer Thread Ipc Semaphore.
From S2P Require Import Mutex Event Mailbox MessageQueue MemPool Clock Background Asleep Services System Board.
Import Demo.
Local Open Scope Z_scope.

(** The invariant of a concrete state *)
Ltac kcheck := apply kinv_check_sound; vm_compute; reflexivity.
Ltac decide_it := apply (bool_decide_unpack _); vm_compute; exact I.
(** The running thread of a concrete state, and the idle thread behind it *)
Ltac runs := split; by vm_compute.
Ltac idle_waits := exists 31, idle; split; [done|decide_it].
(** A concrete empty list *)
Ltac empty_list := vm_compute; reflexivity.

(** The control block of a thread *)
Definition th (s : kstate) (t : ptr) : rt_thread := default (junk_rt_thread t) (threads s !! t).
(** Ticks without application timers *)
Definition no_user (f p : Z) : K unit := mret tt.
Definition ticks (n : nat) (s : kstate) : kstate := Nat.iter n (run (rt_tick_increase no_user 10)) s.

Module ListWitness.
(** One list head and two nodes *)
Definition lheap := gmap (Z + Z) (Ptr.rt_list_node Z Z).
Definition self (p : Z + Z) : (Z + Z) * Ptr.rt_list_node Z Z := (p, Ptr.Node p p).
Definition h0 : lheap := list_to_map [self (inl 0); self (inr 1); self (inr 2)].
Definition st0 : gmap Z (list Z) := {[0 := []]}.
Definition ops : list list_op := [InsertBeforeHead 0 1; InsertBefore 0 1 2; Remove 1].
(** Node 1 is on the list. *)
Definition h1 : lheap :=
  list_to_map [(inl 0, Ptr.Node (inr 1) (inr 1)); (inr 1, Ptr.Node (inl 0) (inl 0)); self (inr 2)].
Definition st1 : gmap Z (list Z) := {[0 := [1]]}.

Lemma single_wf (l : list Z) : NoDup l -> Abs.store_wf ({[0 := l]} : gmap Z (list Z)).
Proof.
  intros Hl. assert (forall h n, n ∈ ({[0 := l]} : gmap Z (list Z)) !!! h -> h = 0) as Hh.
  { intros h n Hin. destruct (decide (h = 0)) as [->|Hne]; [done|].
    rewrite lookup_total_singleton_ne in Hin by done. by apply elem_of_nil in Hin. }
  split.
  - intros h. destruct (decide (h = 0)) as [->|Hne]; [by rewrite lookup_total_singleton|].
    rewrite lookup_total_singleton_ne by done. apply NoDup_nil_2.
  - intros h1 h2 n H1 H2. by rewrite (Hh _ _ H1), (Hh _ _ H2).
Qed.

(** A node of a heap of three nodes is one of them. *)
Ltac three_nodes E :=
  apply elem_of_list_to_map_2 in E; rewrite !elem_of_cons, elem_of_nil in E; unfold self in E;
  destruct E as [?|[?|[?|[]]]]; simplify_eq; try (vm_compute; reflexivity).

Lemma repr_h0 : repr h0 st0.
Proof.
  split; [apply single_wf, NoDup_nil_2| |].
  - unfold st0. intros h l [<- <-]%lookup_singleton_Some. by vm_compute.
  - intros n [nd E] _. by three_nodes E.
Qed.

Lemma repr_h1 : repr h1 st1.
Proof.
  split; [apply single_wf; decide_it| |].
  - unfold st1. intros h l [<- <-]%lookup_singleton_Some. by vm_compute.
  - intros n [nd E] Hl. assert (n <> 1) as Hn.
    { intros ->. apply Hl, Abs.linked_spec. exists 0. decide_it. }
    by three_nodes E.
Qed.

Lemma list_operations_witness : exists hp', ptr_ops ops h0 = Ok tt hp' /\ repr hp' (abs_ops ops st0).
Proof.
  apply (list_operations_refine h0 st0 {[1; 2]}); [apply repr_h0| |].
  - intros n [->%elem_of_singleton| ->%elem_of_singleton]%elem_of_union; vm_compute; by eexists.
  - unfold ops. cbn [ops_ok op_ok]. split_and!; decide_it || exact I.
Defined.

Lemma list_tests_witness : (Ptr.next (Ptr.Node (inl 0) (inl 0) : Ptr.rt_list_node Z Z) = inl 0 <-> st1 !!! 0 = [1]) /\
  Ptr.rt_list_isempty (inl 0) h1 = Ok false h1.
Proof.
  apply (list_tests_correct h1 st1 0 1 (Ptr.Node (inl 0) (inl 0))); [apply repr_h1|decide_it|by vm_compute].
Defined.
End ListWitness.

Module SchedWitness.
(** The worker has been suspended but not yet replaced. *)
Definition s0 : kstate := run (rt_thread_suspend worker) booted.
Definition locked (k : Z) : kstate := set_rt_scheduler_lock_nest k booted.

Lemma sched_ffs_witness : (0x80000000 = 0 -> __rt_ffs (s32 0x80000000) = 0) /\
  (0x80000000 <> 0 -> 1 <= __rt_ffs (s32 0x80000000) <= 32 /\ Z.testbit 0x80000000 (__rt_ffs (s32 0x80000000) - 1) = true /\
     forall m, 0 <= m < __rt_ffs (s32 0x80000000) - 1 -> Z.testbit 0x80000000 m = false).
Proof. apply (rt_ffs_correct 0x80000000). lia. Defined.

Lemma sched_schedule_witness : exists t th, next_thread s0 t /\ threads s0 !! t = Some th /\
  (forall u p, u ∈ ready s0 p -> th_current_priority th <= p) /\
  rt_schedule s0 = Ok tt (if t =? rt_current_thread s0 then s0
    else switched (rt_current_thread s0) t (th_current_priority th) s0).
Proof.
  apply (rt_schedule_correct s0); [|exists 31; by vm_compute|by vm_compute]. apply ki_sched. kcheck.
Defined.

Lemma sched_table_witness : exists s1 s2, rt_schedule_insert_thread worker s0 = Ok tt s1 /\ sched_inv ∅ s1 /\
  ready s1 (th_current_priority (th s0 worker)) = ready s0 (th_current_priority (th s0 worker)) ++ [worker] /\
  rt_schedule_remove_thread worker s1 = Ok tt s2 /\ (forall l, tlists s2 !!! l = tlists s0 !!! l) /\
  rt_thread_ready_priority_group s2 = rt_thread_ready_priority_group s0 /\
  (32 < RT_THREAD_PRIORITY_MAX -> rt_thread_ready_table s2 = rt_thread_ready_table s0).
Proof.
  apply (ready_table_roundtrip s0 worker (th s0 worker));
    [apply ki_sched; kcheck|by vm_compute|decide_it|done|by vm_compute|by vm_compute|by vm_compute|by vm_compute].
Defined.

Lemma sched_nests_witness : exists s1, rt_enter_critical booted = Ok tt s1 /\
  rt_scheduler_lock_nest s1 = rt_scheduler_lock_nest booted + 1 /\ rt_schedule s1 = Ok tt s1 /\
  rt_exit_critical s1 = if rt_scheduler_lock_nest booted =? 0 then rt_schedule booted else Ok tt booted.
Proof. apply (critical_section_nests booted). by vm_compute. Defined.

Lemma sched_overflow_witness : exists s1 s2, rt_enter_critical (locked 32767) = Ok tt s1 /\ rt_enter_critical s1 = Ok tt s2 /\
  rt_exit_critical s2 = rt_schedule (set_rt_scheduler_lock_nest 0 (locked 32767)).
Proof. apply (critical_nesting_overflow (locked 32767)). done. Defined.
End SchedWitness.

Module ObjectWitness.
(** Memory of a semaphore, not yet initialised; a name of nine characters *)
Definition s0 : kstate := run (modify (place (OSem 0x20001700))) booted.
Definition name : list Z := [116; 104; 101; 32; 110; 97; 109; 101; 33].

Lemma object_find_witness : exists s1 s2, rt_object_init (OSem 0x20001700) RT_Object_Class_Semaphore name s0 = Ok tt s1 /\
  rt_object_find (Some name) (class_type RT_Object_Class_Semaphore) s1 = Ok (Some (OSem 0x20001700)) s2 /\ rescheduled s1 s2.
Proof.
  apply (object_find_roundtrip (OSem 0x20001700) RT_Object_Class_Semaphore name s0);
    [apply ki_sched; kcheck|exists 31; by vm_compute|by vm_compute|by vm_compute|decide_it|vm_compute; by eexists|].
  repeat constructor; lia.
Defined.

Lemma object_unknown_witness : rt_object_find (Some name) RT_Object_Class_Unknown booted = Fault BadPointer.
Proof. apply (object_find_unknown_class name booted). by vm_compute. Defined.
End ObjectWitness.

Module ThreadWitness.
(** A new thread that has been initialised *)
Definition blinky : ptr := 0x20000500.
Definition s0 : kstate := run (rt_thread_init exit_addr blinky [98] 0x08000300 0 0x20018000 512 5 5) booted.
(** The worker has ended; two threads created dynamically and deleted; a static thread with
    a cleanup function, deleted after them *)
Definition s_dyn : kstate :=
  run (a ← rt_thread_create exit_addr [97] 1 0 256 12 5; b ← rt_thread_create exit_addr [98] 1 0 256 13 5;
       rt_thread_startup a;; rt_thread_startup b;; rt_thread_delete a;; rt_thread_delete b) booted.
Definition s_static : kstate := run (upd_thread led (set_th_cleanup 0x08000400);; rt_thread_detach led) s_dyn.

Lemma thread_startup_witness : exists s', rt_thread_startup blinky s0 = Ok RT_EOK s' /\ kinv ∅ s' /\
  threads s' = <[blinky := set_th_stat RT_THREAD_READY (at_init_priority (th s0 blinky))]> (threads s0) /\
  ready s' (th_init_priority (th s0 blinky)) = ready s0 (th_init_priority (th s0 blinky)) ++ [blinky] /\
  (rt_current_thread s0 <> RT_NULL -> rt_scheduler_lock_nest s0 = 0 -> next_thread s' (rt_current_thread s')).
Proof.
  apply (rt_thread_startup_correct s0 blinky (th s0 blinky)); [kcheck|by vm_compute|by vm_compute|decide_it|decide_it].
Defined.

Lemma thread_suspend_witness : exists s1 s2, rt_thread_suspend worker booted = Ok RT_EOK s1 /\ kinv ∅ s1 /\
  rt_thread_resume worker s1 = Ok RT_EOK s2 /\ kinv ∅ s2 /\ threads s2 !! worker = Some (th booted worker) /\
  (forall u, threads s2 !! u = threads booted !! u) /\
  ready s2 (th_current_priority (th booted worker)) =
    list_del worker (ready booted (th_current_priority (th booted worker))) ++ [worker] /\
  (forall q, q <> th_current_priority (th booted worker) -> ready s2 q = ready booted q) /\
  TThread worker ∉ last_row s2.
Proof. apply (suspend_resume_roundtrip booted worker (th booted worker)); [kcheck|by vm_compute|by vm_compute]. Defined.

Lemma thread_yield_witness : exists s', rt_thread_yield booted = Ok RT_EOK s' /\ kinv ∅ s' /\ threads s' = threads booted /\
  (ready booted (th_current_priority (th booted worker)) = [worker] /\ s' = booted \/
   ready s' (th_current_priority (th booted worker)) =
     list_del worker (ready booted (th_current_priority (th booted worker))) ++ [worker] /\
   (2 <= length (ready booted (th_current_priority (th booted worker))))%nat /\
   (forall q, q <> th_current_priority (th booted worker) -> ready s' q = ready booted q) /\
   (rt_scheduler_lock_nest booted = 0 -> next_thread s' (rt_current_thread s'))).
Proof. apply (rt_thread_yield_correct booted worker (th booted worker)); [kcheck|by vm_compute|by vm_compute|by vm_compute]. Defined.

Lemma thread_priority_witness : exists s' th', rt_thread_control worker RT_THREAD_CTRL_CHANGE_PRIORITY 25 booted = Ok RT_EOK s' /\
  kinv ∅ s' /\ threads s' = <[worker := th']> (threads booted) /\ th_current_priority th' = 25 /\ masks_ok th' /\
  th_init_priority th' = th_init_priority (th booted worker) /\ th_stat th' = th_stat (th booted worker) /\
  tlists s' = (if th_stat (th booted worker) =? RT_THREAD_READY
               then Abs.insert_back (LReady 25) worker (Abs.remove worker (tlists booted)) else tlists booted).
Proof.
  apply (rt_thread_change_priority_correct booted worker (th booted worker) 25); [kcheck|by vm_compute|by vm_compute].
Defined.

Lemma thread_sleep_witness : exists s', rt_thread_sleep 5 booted = Ok tt s' /\ kinv ∅ s' /\
  threads s' = <[worker := set_th_stat RT_THREAD_SUSPEND (th booted worker)]> (threads booted) /\
  TThread worker ∈ last_row s' /\ timer_off (rt_tick booted) s' (TThread worker) = 5 /\
  (rt_scheduler_lock_nest booted = 0 -> next_thread s' (rt_current_thread s')).
Proof.
  apply (rt_thread_sleep_correct booted worker (th booted worker) 5);
    [kcheck|by vm_compute|by vm_compute|by vm_compute|idle_waits|by vm_compute].
Defined.

Lemma thread_exit_witness : exists s', rt_thread_exit booted = Ok tt s' /\ kinv ∅ s' /\
  threads s' = <[worker := set_th_stat RT_THREAD_CLOSE (th booted worker)]> (threads booted) /\ TThread worker ∉ last_row s' /\
  (forall l, worker ∈ tlists s' !!! l <->
     l = LDefunct /\ negb (is_static (th booted worker) && (th_cleanup (th booted worker) =? RT_NULL)) = true) /\
  (rt_scheduler_lock_nest booted = 0 -> next_thread s' (rt_current_thread s')).
Proof.
  apply (rt_thread_exit_correct booted worker (th booted worker)); [kcheck|by vm_compute|by vm_compute|by vm_compute|idle_waits].
Defined.

Definition no_cleanup (f t : ptr) : K unit := mret tt.

Lemma thread_idle_witness : exists s', rt_thread_idle_excute no_cleanup (S (length (tlists s_dyn !!! LDefunct))) s_dyn = Ok tt s' /\
  kinv ∅ s' /\ tlists s' !!! LDefunct = [] /\ (forall l, l <> LDefunct -> tlists s' !!! l = tlists s_dyn !!! l) /\
  forall u, threads s' !! u = if decide (u ∈ tlists s_dyn !!! LDefunct) then None else threads s_dyn !! u.
Proof.
  apply (rt_thread_idle_excute_correct no_cleanup s_dyn); [kcheck|by vm_compute|].
  assert (tlists s_dyn !!! LDefunct = [0x20008180; 0x20008000]) as -> by (vm_compute; reflexivity).
  repeat constructor; eexists; split_and!; vm_compute; reflexivity.
Defined.

Lemma thread_static_witness : exists s', rt_thread_idle_excute no_cleanup 3 s_static = Ok tt s' /\
  tlists s' !!! LDefunct = [0x20008180; 0x20008000] /\ threads s' = threads s_static.
Proof.
  apply (idle_stops_at_static_thread no_cleanup s_static led 0x20008180 [0x20008000] (th s_static led) 1);
    [kcheck|by vm_compute|by vm_compute|by vm_compute|by vm_compute|done].
Defined.
End ThreadWitness.

Module SemWitness.
Definition sem : ptr := 0x20001000.
(** The board with a semaphore of value 1, then 0 *)
Definition s1 : kstate := run (rt_sem_init sem [115] 1 RT_IPC_FLAG_PRIO) booted.
Definition s0 : kstate := run (rt_sem_take sem 0) s1.
(** The worker waits for ten ticks; now the logger runs. *)
Definition sb : kstate := run (rt_sem_take sem 10) s0.
(** The largest value *)
Definition sm : kstate := run (rt_sem_init sem [115] 65535 RT_IPC_FLAG_FIFO) booted.
Definition the_sem (s : kstate) : rt_semaphore := default (junk_rt_semaphore sem) (sems s !! sem).

Ltac sem_in_use := split; [done|by vm_compute|by vm_compute|first [left; by vm_compute|right; by vm_compute]|by vm_compute].

Lemma sem_take_witness : exists r s', rt_sem_take sem 10 s0 = Ok r s' /\
  sem_taken s0 sem (the_sem s0) worker (th s0 worker) 10 r s' /\ kinv ∅ s' /\ exists x', sem_ok s' sem x'.
Proof.
  apply (rt_sem_take_correct s0 sem (the_sem s0) worker (th s0 worker) 10);
    [kcheck|sem_in_use|runs|idle_waits|done].
Defined.

Lemma sem_release_witness : exists s', rt_sem_release sem sb = Ok RT_EOK s' /\ sem_released sb sem (the_sem sb) s' /\
  kinv ∅ s' /\ (exists x', sem_ok s' sem x') /\
  (forall t ws th, tlists sb !!! LSuspend sem = t :: ws -> threads sb !! t = Some th -> th_error th = RT_EOK ->
     rt_sem_take_resume t s' = Ok RT_EOK s').
Proof.
  apply (rt_sem_release_correct sb sem (the_sem sb)); [kcheck|sem_in_use|by vm_compute].
Defined.

Lemma sem_overflow_witness : rt_sem_release sem sm = Ok RT_EOK (with_value sem (the_sem sm) 0 sm).
Proof.
  apply (rt_sem_release_overflow sm sem (the_sem sm)); [kcheck|sem_in_use|empty_list|by vm_compute].
Defined.

Lemma sem_reset_witness : exists s', rt_sem_control sem RT_IPC_CMD_RESET 5 sb = Ok RT_EOK s' /\ kinv ∅ s' /\
  all_sent_away sb sem s' /\ sem_ok s' sem (set_sem_value (u16 5) (the_sem sb)) /\
  (rt_scheduler_lock_nest sb = 0 -> next_thread s' (rt_current_thread s')).
Proof.
  apply (rt_sem_reset_correct sb sem (the_sem sb) logger (th sb logger)); [kcheck|sem_in_use|runs].
Defined.
End SemWitness.

Module MutexWitness.
Definition mutex : ptr := 0x20001100.
(** The worker and the logger sleep, so the led thread gets the mutex; five ticks
    later the worker runs again. *)
Definition s0 : kstate := run (rt_mutex_init mutex [109] RT_IPC_FLAG_PRIO) booted.
Definition s1 : kstate := run (rt_thread_sleep 50) (run (rt_thread_sleep 5) s0).
Definition s2 : kstate := run (rt_mutex_take mutex 0) s1.
Definition s3 : kstate := ticks 5 s2.
(** The worker waits for the mutex; the led thread runs at its priority. *)
Definition s4 : kstate := run (rt_mutex_take mutex (-1)) s3.
(** 255 nested holds *)
Definition sm : kstate := Nat.iter 254 (run (rt_mutex_take mutex 0)) s2.
Definition the_mutex (s : kstate) : rt_mutex := default (junk_rt_mutex mutex) (mutexes s !! mutex).

Ltac mutex_in_use := split; [done|by vm_compute|right; by vm_compute|];
  first [apply mutex_held; [by vm_compute|by vm_compute|by vm_compute|vm_compute; by eexists|by vm_compute]
        |apply mutex_free; by vm_compute].

Lemma mutex_take_witness : exists r s', rt_mutex_take mutex (-1) s3 = Ok r s' /\
  mutex_taken s3 mutex (the_mutex s3) worker (th s3 worker) (-1) r s' /\ kinv ∅ s' /\ exists x', mutex_ok s' mutex x'.
Proof.
  apply (rt_mutex_take_correct s3 mutex (the_mutex s3) worker (th s3 worker) (-1));
    [kcheck|mutex_in_use|runs|idle_waits|done|by vm_compute].
Defined.

Lemma mutex_inherits_witness : worker = worker /\ exists oth', threads s4 !! mtx_owner (the_mutex s3) = Some oth' /\
  th_current_priority oth' <= th_current_priority (th s3 worker).
Proof.
  apply (rt_mutex_take_inherits s3 mutex (the_mutex s3) worker (th s3 worker) (-1) worker s4);
    [kcheck|mutex_in_use|runs|idle_waits|done|].
  unfold s4. apply run_result. vm_compute. reflexivity.
Defined.

Lemma mutex_release_witness : exists r s', rt_mutex_release mutex s4 = Ok r s' /\
  mutex_released s4 mutex (the_mutex s4) led (th s4 led) r s' /\
  kinv ∅ s' /\ (exists x', mutex_ok s' mutex x') /\
  (led = mtx_owner (the_mutex s4) -> mtx_hold (the_mutex s4) = 1 ->
     exists th', threads s' !! led = Some th' /\ th_current_priority th' = mtx_original_priority (the_mutex s4)).
Proof.
  apply (rt_mutex_release_correct s4 mutex (the_mutex s4) led (th s4 led)); [kcheck|mutex_in_use|runs].
Defined.

Lemma mutex_overflow_witness : exists t1 t2 t3 x3, rt_mutex_take mutex 0 sm = Ok (Done RT_EOK) t1 /\
  rt_mutex_take mutex 0 t1 = Ok (Done RT_EOK) t2 /\ rt_mutex_release mutex t2 = Ok RT_EOK t3 /\
  mutexes t3 !! mutex = Some x3 /\ mtx_owner x3 <> led.
Proof.
  apply (rt_mutex_hold_overflow sm mutex (the_mutex sm) led (th sm led) 0);
    [kcheck|mutex_in_use|runs|by vm_compute|by vm_compute].
Defined.
End MutexWitness.

Module EventWitness.
Definition event : ptr := 0x20001200.
(** The worker waits for events 1 and 4, the logger for either, clearing what it gets. *)
Definition s0 : kstate := run (rt_event_init event [101] RT_IPC_FLAG_FIFO) booted.
Definition s1 : kstate := run (rt_event_recv event 5 RT_EVENT_FLAG_AND (-1)) s0.
Definition s2 : kstate := run (rt_event_recv event 5 (RT_EVENT_FLAG_OR + RT_EVENT_FLAG_CLEAR) 20) s1.
Definition the_event (s : kstate) : rt_event := default (junk_rt_event event) (events s !! event).

Ltac event_in_use := split; [done|by vm_compute|left; by vm_compute|].

Lemma hungry_s2 : Forall (hungry (threads s2) (ev_set (the_event s2))) (tlists s2 !!! LSuspend event).
Proof.
  assert (tlists s2 !!! LSuspend event = [worker; logger]) as -> by (vm_compute; reflexivity).
  repeat constructor; intros x Hx;
    match type of Hx with ?l = _ => let v := eval vm_compute in l in change (v = Some x) in Hx end;
    simplify_eq; by vm_compute.
Defined.

Lemma event_send_witness : exists s', rt_event_send event 1 s2 = Ok RT_EOK s' /\
  sent s2 event (the_event s2) (sending s2 event (the_event s2) 1) s' /\
  event_ok s' event (set_ev_set (sv_have (sending s2 event (the_event s2) 1)) (the_event s2)) /\
  (forall t got th, (list_to_map (sv_served (sending s2 event (the_event s2) 1)) : gmap ptr Z) !! t = Some got ->
     threads s2 !! t = Some th -> th_error th = RT_EOK -> rt_event_recv_resume t s' = Ok (RT_EOK, Some got) s').
Proof.
  apply (rt_event_send_correct s2 event (the_event s2) 1); [kcheck|event_in_use; apply hungry_s2|done].
Defined.

Lemma event_recv_witness : exists r s', rt_event_recv event 5 (RT_EVENT_FLAG_OR + RT_EVENT_FLAG_CLEAR) 20 s0 = Ok r s' /\
  event_received s0 event (the_event s0) worker (th s0 worker) 5 (RT_EVENT_FLAG_OR + RT_EVENT_FLAG_CLEAR) 20 r s' /\
  kinv ∅ s' /\ exists x', event_ok s' event x'.
Proof.
  apply (rt_event_recv_correct s0 event (the_event s0) worker (th s0 worker));
    [kcheck| |runs|idle_waits|done|done|right; by vm_compute|done].
  event_in_use. assert (tlists s0 !!! LSuspend event = []) as -> by empty_list. constructor.
Defined.
End EventWitness.

Module MailboxWitness.
Definition mb : ptr := 0x20001300.
(** Two places; then one mail, then full *)
Definition s0 : kstate := run (rt_mb_init mb [98] 0x20002000 2 RT_IPC_FLAG_FIFO) booted.
Definition s1 : kstate := run (rt_mb_send mb 7) s0.
Definition s2 : kstate := run (rt_mb_send mb 8) s1.
Definition the_mb (s : kstate) : rt_mailbox := default (junk_rt_mailbox mb) (mailboxes s !! mb).

Ltac mb_in_use := split; [done|by vm_compute|left; by vm_compute|split; by vm_compute].

Lemma mailbox_queue_witness : exists s', mb_run mb [Send 9; Recv; Send 10; Send 11; Recv] s1 =
    Ok (queue_run 2 [7] [Send 9; Recv; Send 10; Send 11; Recv]).1 s' /\
  mb_holds s' mb 2 (queue_run 2 [7] [Send 9; Recv; Send 10; Send 11; Recv]).2.
Proof.
  apply (mailbox_is_queue s1 mb 2 [7]). split; [kcheck|empty_list|empty_list|].
  exists (the_mb s1). split; [mb_in_use|by vm_compute].
Defined.

Lemma mailbox_send_witness : exists r s', rt_mb_send_wait mb 9 20 s2 = Ok r s' /\
  mb_sent s2 mb (the_mb s2) 9 20 0 true worker (th s2 worker) r s' /\
  (mb_entry (the_mb s2) < mb_size (the_mb s2) -> kinv ∅ s' /\ mb_ok s' mb (pushed 9 (the_mb s2)) /\
     mails (pushed 9 (the_mb s2)) = mails (the_mb s2) ++ [9]).
Proof.
  apply (rt_mb_send_wait_correct s2 mb (the_mb s2) 9 20 worker (th s2 worker));
    [kcheck|mb_in_use|runs|idle_waits|done].
Defined.

Lemma mailbox_recv_witness : exists r s', rt_mb_recv mb 20 s2 = Ok r s' /\
  mb_received s2 mb (the_mb s2) 20 0 true worker (th s2 worker) r s' /\
  (0 < mb_entry (the_mb s2) -> kinv ∅ s' /\ mb_ok s' mb (popped (the_mb s2)) /\
     mails (the_mb s2) = mail_at (the_mb s2) 0 :: mails (popped (the_mb s2))).
Proof.
  apply (rt_mb_recv_correct s2 mb (the_mb s2) 20 worker (th s2 worker));
    [kcheck|mb_in_use|runs|idle_waits|done].
Defined.
End MailboxWitness.

Module MqWitness.
Definition mq : ptr := 0x20001400.
(** Two messages of four bytes; one is on the queue in [s1]. *)
Definition s0 : kstate := run (rt_mq_init mq [113] 0x20003000 4 16 RT_IPC_FLAG_FIFO) booted.
Definition s1 : kstate := run (rt_mq_send mq [1; 2; 3; 4] 4) s0.
Definition the_mq (s : kstate) : rt_messagequeue := default (junk_rt_messagequeue mq) (mqs s !! mq).
Definition queue : list ptr := [mq_msg_queue_head (the_mq s1)].
Definition free_nodes : list ptr := [mq_msg_queue_free (the_mq s1)].

Lemma mq_in_use : mq_ok s1 mq (the_mq s1) queue free_nodes [].
Proof.
  split; [done|by vm_compute|left; by vm_compute|]. split.
  - vm_compute. split_and!; [done|done|by eexists].
  - vm_compute. split_and!; [done|done|by eexists].
  - by vm_compute.
  - decide_it.
  - by vm_compute.
  - by vm_compute.
  - by vm_compute.
  - intros a Ha. unfold queue, free_nodes in Ha. cbn [app] in Ha.
    apply elem_of_cons in Ha as [->|[->|[]%not_elem_of_nil]%elem_of_cons].
    + vm_compute. split; [done|by eexists].
    + vm_compute. split; [done|by eexists].
Defined.

(** An urgent message of two bytes, one that does not fit the nodes, one that finds the
    queue full, and two receivers, one with a short buffer *)
Definition mops : list mq_op := [MqUrgent [5; 6]; MqSend [1; 1; 1; 1; 1]; MqSend [0; 0; 0; 0]; MqRecv 8; MqRecv 2].
Lemma mq_queue_witness : exists rs s', mq_run mq mops s1 = Ok rs s' /\
  Forall3 (agrees 4) mops rs (msgs_run 2 4 [[1; 2; 3; 4]] mops).1 /\ mq_holds s' mq 2 4 (msgs_run 2 4 [[1; 2; 3; 4]] mops).2.
Proof.
  apply (messagequeue_is_queue s1 mq 2 4 [[1; 2; 3; 4]] mops).
  - split; [kcheck|empty_list|done|]. exists (the_mq s1), queue, free_nodes.
    split; [apply mq_in_use|split_and!; [|by vm_compute..]].
    replace (contents (the_mq s1) queue) with [[1; 2; 3; 4]] by by vm_compute. by repeat constructor.
  - by repeat constructor.
Defined.
Example mq_queue_codes : (msgs_run 2 4 [[1; 2; 3; 4]] mops).1 =
  [(RT_EOK, None); (- RT_ERROR, None); (- RT_EFULL, None); (RT_EOK, Some [5; 6]); (RT_EOK, Some [1; 2])].
Proof. by vm_compute. Qed.

Lemma mq_send_witness : exists r s', rt_mq_send mq [9; 9; 9; 9] 4 s1 = Ok r s' /\
  mq_sent s1 mq (the_mq s1) queue free_nodes [] [9; 9; 9; 9] 4 false r s'.
Proof. apply (rt_mq_send_correct s1 mq (the_mq s1) queue free_nodes [] [9; 9; 9; 9] 4); [kcheck|exact mq_in_use|simpl; lia]. Defined.

Lemma mq_recv_witness : exists r s', rt_mq_recv mq 4 10 s1 = Ok r s' /\
  mq_received s1 mq (the_mq s1) queue free_nodes [] 4 10 0 true worker (th s1 worker) r s'.
Proof.
  apply (rt_mq_recv_correct s1 mq (the_mq s1) queue free_nodes [] 4 10 worker (th s1 worker));
    [kcheck|apply mq_in_use|runs|idle_waits|done|by vm_compute|done].
Defined.
End MqWitness.

Module PoolWitness.
Definition mp : ptr := 0x20001500.
(** Two blocks of twelve bytes; one, then both handed out *)
Definition s0 : kstate := run (rt_mp_init mp [112] 0x20004000 32 12) booted.
Definition s1 : kstate := run (rt_mp_alloc mp 0) s0.
Definition s2 : kstate := run (rt_mp_alloc mp 0) s1.
Definition the_mp (s : kstate) : rt_mempool := default (junk_rt_mempool mp) (mempools s !! mp).
Definition b0 : ptr := 0x20004000.
Definition b1 : ptr := 0x20004010.

Ltac pool_in_use :=
  split; [done|by vm_compute|vm_compute; split_and!; by repeat eexists| |decide_it|by vm_compute|by vm_compute|by vm_compute].

Lemma pool_s1 : pool_ok s1 mp (the_mp s1) [b1] [b0].
Proof. pool_in_use. intros b Hb. apply list_elem_of_singleton in Hb as ->. split; by vm_compute. Defined.

Lemma pool_s2 : pool_ok s2 mp (the_mp s2) [] [b0; b1].
Proof.
  split; [done|by vm_compute|by vm_compute| |decide_it|by vm_compute|by vm_compute|by vm_compute].
  intros b Hb. apply elem_of_cons in Hb as [->|[->|[]%not_elem_of_nil]%elem_of_cons]; split; by vm_compute.
Defined.

Lemma pool_alloc_witness : exists r s', rt_mp_alloc mp 10 s1 = Ok r s' /\ kinv ∅ s' /\
  mp_allocated s1 mp (the_mp s1) [b1] [b0] 10 0 worker (th s1 worker) r s' /\
  forall b f', [b1] = b :: f' -> r = Done (b + 4) /\ b ∉ [b0].
Proof.
  apply (rt_mp_alloc_correct s1 mp (the_mp s1) [b1] [b0] 10 worker (th s1 worker));
    [kcheck|apply pool_s1|runs|idle_waits|done|by vm_compute].
Defined.

Lemma pool_free_witness : exists s', rt_mp_free (b0 + 4) s1 = Ok tt s' /\ kinv ∅ s' /\ mp_freed s1 mp (the_mp s1) b0 s' /\
  exists x', pool_ok s' mp x' (b0 :: [b1]) (list_del b0 [b0]).
Proof.
  apply (rt_mp_free_correct s1 mp (the_mp s1) b0 [b1] [b0]); [kcheck|apply pool_s1|set_solver|by vm_compute].
Defined.

Lemma pool_leak_witness : exists w t1 t2, rt_mp_alloc mp 10 s2 = Ok (Blocked w) t1 /\ rt_thread_timeout worker t1 = Ok tt t2 /\
  rt_mp_free (b0 + 4) t2 = Fault BadList.
Proof.
  apply (rt_mp_alloc_timeout_leak s2 mp (the_mp s2) [b0; b1] worker (th s2 worker) 10 b0);
    [kcheck|apply pool_s2|empty_list|runs|idle_waits|done|set_solver].
Defined.
End PoolWitness.

Module TickWitness.
(** A periodic timer of the application is due at the next tick and another one later, the
    worker sleeps one tick, and the logger, which runs, has one tick of its slice left. *)
Definition blink : timer_ref := TObj 0x20001600.
Definition later : timer_ref := TObj 0x20001700.
Definition s0 : kstate :=
  run (rt_timer_init blink [98] (TF_user 1) 7 1 RT_TIMER_FLAG_PERIODIC;; rt_timer_start blink;;
       rt_timer_init later [99] (TF_user 2) 8 10 0;; rt_timer_start later;; rt_thread_sleep 1;;
       upd_thread logger (set_th_remaining_tick 1)) booted.
(** A timeout function that counts its calls *)
Definition count (f p : Z) : K unit := modify (fun s => set_errno (errno s + p) s).
Definition counted_calls (log : list (Z * Z)) (o : objects_t) : Prop := o.2 = foldr (fun c n => c.2 + n) 0 log.

Lemma tick_ms_witness : RT_TICK_PER_SECOND * 15 <= 1000 * rt_tick_from_millisecond 15 /\
  1000 * (rt_tick_from_millisecond 15 - 1) < RT_TICK_PER_SECOND * 15.
Proof. apply (rt_tick_from_millisecond_correct 15); by vm_compute. Defined.

Lemma quiet_no_user f p : quiet (no_user f p).
Proof. intros s. by apply wp_ret. Defined.

Lemma quiet_count f p : quiet (count f p).
Proof. intros s. by apply wp_modify. Defined.

Lemma count_counts f p log s :
  counted_calls log (objects s) -> wp (count f p) (fun _ s' => counted_calls (log ++ [(f, p)]) (objects s')) s.
Proof.
  unfold counted_calls. simpl. intros E. apply wp_modify. simpl. rewrite E, foldr_app. simpl. clear E.
  induction log as [|[g q] log IH]; simpl in *; lia.
Defined.

Lemma tick_tick_witness : exists s', rt_tick_increase count 10 s0 = Ok tt s' /\ ticked s0 logger (th s0 logger) s' /\
  counted_calls (user_calls (calls s0 (due s0))) (objects s').
Proof.
  apply (rt_tick_increase_correct count counted_calls s0 logger (th s0 logger) 9);
    [apply quiet_count|apply count_counts|by vm_compute|kcheck|by vm_compute|by vm_compute|by vm_compute| |vm_compute; lia].
  apply set_up_check_sound. vm_compute. reflexivity.
Defined.
Example tick_calls : user_calls (calls s0 (due s0)) = [(1, 7)].
Proof. by vm_compute. Qed.
End TickWitness.

Module TimerWitness.
(** The state of [TickWitness]: a periodic timer and a sleeping thread; the timer's tick
    is about to wrap around. *)
Definition s0 : kstate := TickWitness.s0.
Definition blink : timer_ref := TickWitness.blink.
Definition tm (s : kstate) (r : timer_ref) : rt_timer := default (junk_rt_timer r) (timers s !! r).
Definition late : kstate :=
  run (rt_tick_set 0xfffffffe;; rt_timer_init blink [98] (TF_user 1) 0 10 RT_TIMER_FLAG_PERIODIC;; rt_thread_sleep 20) booted.

Lemma timer_start_witness : exists s' l1 l2, rt_timer_start blink late = Ok RT_EOK s' /\ timer_inv (rt_tick late) ∅ s' /\
  last_row s' = l1 ++ blink :: l2 /\ l1 ++ l2 = list_del blink (last_row late) /\
  timer_off (rt_tick late) s' blink = tm_init_tick (tm late blink) /\
  Forall (fun a => timer_off (rt_tick late) s' a <= tm_init_tick (tm late blink)) l1 /\
  Forall (fun a => tm_init_tick (tm late blink) < timer_off (rt_tick late) s' a) l2.
Proof.
  apply (rt_timer_start_correct ∅ late blink (tm late blink));
    [apply timer_check_sound; vm_compute; reflexivity|done|by vm_compute|by vm_compute|by vm_compute].
Defined.

Lemma timer_stop_witness : if has_flag RT_TIMER_FLAG_ACTIVATED (tm s0 blink) then
    exists s', rt_timer_stop blink s0 = Ok RT_EOK s' /\ timer_inv (rt_tick s0) ∅ s' /\
      last_row s' = list_del blink (last_row s0) /\
      timers s' = <[blink := clear_flag RT_TIMER_FLAG_ACTIVATED (tm s0 blink)]> (timers s0)
  else rt_timer_stop blink s0 = Ok (- RT_ERROR) s0.
Proof.
  apply (rt_timer_stop_correct (rt_tick s0) ∅ s0 blink (tm s0 blink));
    [apply timer_check_sound; vm_compute; reflexivity|done|by vm_compute].
Defined.
End TimerWitness.

Module IpcWitness.
(** The worker waits on a priority list with the led thread behind it; the logger joins. *)
Definition obj : ptr := 0x20001800.
Definition s0 : kstate :=
  run (rt_ipc_list_suspend (LSuspend obj) led RT_IPC_FLAG_PRIO;;
       rt_ipc_list_suspend (LSuspend obj) worker RT_IPC_FLAG_PRIO) booted.

Lemma ipc_suspend_witness : exists s' l1 l2, rt_ipc_list_suspend (LSuspend obj) logger RT_IPC_FLAG_PRIO s0 = Ok RT_EOK s' /\
  kinv ∅ s' /\ tlists s0 !!! LSuspend obj = l1 ++ l2 /\ tlists s' !!! LSuspend obj = l1 ++ logger :: l2 /\
  (RT_IPC_FLAG_PRIO = RT_IPC_FLAG_FIFO -> l2 = []) /\
  (RT_IPC_FLAG_PRIO = RT_IPC_FLAG_PRIO -> Forall (fun u => prio_of s0 u <= th_current_priority (th s0 logger)) l1 /\
     Forall (fun u => th_current_priority (th s0 logger) < prio_of s0 u) l2) /\
  suspend_order RT_IPC_FLAG_PRIO (prio_of s') (tlists s' !!! LSuspend obj).
Proof.
  apply (rt_ipc_list_suspend_correct s0 (LSuspend obj) logger (th s0 logger) RT_IPC_FLAG_PRIO);
    [kcheck|by vm_compute|by vm_compute|apply suspend_waiting|by right|].
  intros _. assert (tlists s0 !!! LSuspend obj = [worker; led]) as -> by (vm_compute; reflexivity).
  repeat constructor. by vm_compute.
Defined.
End IpcWitness.

Module StringWitness.
(** 64 bytes from 0x100: ab and cab as C strings, then the alphabet *)
Definition m0 : mem :=
  list_to_map (zip (seqZ 0x100 64) ([97; 98; 0; 99; 97; 98; 0] ++ seqZ 65 57)).

Lemma mapped_check m p n : forallb (fun a => bool_decide (is_Some (m !! a))) (seqZ p n) = true -> mapped m p n.
Proof.
  intros Hall a Ha. rewrite forallb_forall in Hall.
  assert (a ∈ seqZ p n) as Hin by (apply elem_of_seqZ; lia).
  apply list_elem_of_In, Hall in Hin. by apply bool_decide_eq_true in Hin.
Qed.

Lemma ok_m0 : mem_ok m0.
Proof.
  intros a b E. apply elem_of_list_to_map_2 in E. apply elem_of_zip_r in E.
  apply elem_of_app in E as [E|E%elem_of_seqZ]; [set_solver by lia|lia].
Qed.

Ltac in_m0 := apply mapped_check; vm_compute; reflexivity.

Lemma string_memset_witness : exists m', rt_memset 0x108 0x141 21 m0 = Ok 0x108 m' /\
  written m0 m' 0x108 21 (fun _ => Some (u8 0x141)).
Proof. apply (rt_memset_correct m0 0x108 0x141 21); [lia|in_m0]. Defined.

Lemma string_memcpy_witness : exists m', rt_memcpy 0x100 0x108 23 m0 = Ok 0x100 m' /\
  written m0 m' 0x100 23 (fun i => m0 !! (0x108 + i)).
Proof. apply (rt_memcpy_correct m0 0x100 0x108 23); [apply ok_m0|lia|in_m0|in_m0|lia]. Defined.

Lemma string_memmove_witness : exists m', rt_memmove 0x10a 0x108 23 m0 = Ok 0x10a m' /\
  written m0 m' 0x10a 23 (fun i => m0 !! (0x108 + i)).
Proof. apply (rt_memmove_correct m0 0x10a 0x108 23); [apply ok_m0|lia|in_m0|in_m0]. Defined.

Ltac cstring := split; [vm_compute; tauto|repeat constructor; lia].

Lemma string_strstr_witness :
  (exists k : nat, rt_strstr 8 0x103 0x100 m0 = Ok (0x103 + Z.of_nat k) m0 /\ occurs [99; 97; 98] [97; 98] k /\
     forall j, (j < k)%nat -> ~ occurs [99; 97; 98] [97; 98] j) \/
  rt_strstr 8 0x103 0x100 m0 = Ok RT_NULL m0 /\ forall k, ~ occurs [99; 97; 98] [97; 98] k.
Proof.
  apply (rt_strstr_correct m0 0x103 0x100 [99; 97; 98] [97; 98] 8); [cstring|cstring|simpl; lia..].
Defined.

Lemma string_compare_witness :
  (exists r, rt_strcmp 8 0x100 0x104 m0 = Ok r m0 /\ (r = 0 <-> [97; 98] = [97; 98])) /\
  (exists r, rt_strcasecmp 8 0x100 0x104 m0 = Ok r m0 /\ (r = 0 <-> map tolower [97; 98] = map tolower [97; 98])) /\
  (exists r, rt_strncmp 0x100 0x104 1 m0 = Ok r m0 /\ (r = 0 <-> name_prefix 1 [97; 98] = name_prefix 1 [97; 98])).
Proof. apply (string_comparisons_correct m0 0x100 0x104 [97; 98] [97; 98] 1 8); [cstring|cstring|simpl; lia]. Defined.
End StringWitness.

Module SysWitness.
Import SemWitness.

(** The processor is with the first thread of a concrete state. *)
Lemma next_check s p :
  kinv ∅ s -> result highest_ready_priority s = Some p -> head (ready s p) = Some (rt_current_thread s) ->
  next_thread s (rt_current_thread s).
Proof.
  intros Hk Hp Hh. exists p. split; [|done].
  assert (exists q, ready s q <> []) as Hex by (exists p; intros E; by rewrite E in Hh).
  destruct (wp_ok _ _ _ (highest_ready_priority_spec s (si_bitmap _ _ (ki_sched _ _ Hk)) Hex)) as (q & s' & E & _ & Hq).
  unfold result in Hp. rewrite E in Hp. by injection Hp as <-.
Defined.

Lemma from_default {A} (o : option A) x d : o = Some x -> x = default d o.
Proof. by intros ->. Defined.

(** With a periodic timer whose function releases the semaphore and changes its own
    period; another function stops the timer. *)
Definition blink : ptr := 0x20001600.
Definition handler (f p : Z) : K unit :=
  if f =? 1 then rt_sem_release sem;; rt_timer_control (TObj blink) RT_TIMER_CTRL_SET_TIME 5;; mret tt
  else if f =? 2 then rt_timer_stop (TObj blink);; mret tt
  else mret tt.
Definition live : gset ptr := {[sem]}.
Definition apps : gset ptr := {[blink]}.
Definition y0 : kstate :=
  run (rt_timer_init (TObj blink) [98] (TF_user 1) 0 1 RT_TIMER_FLAG_PERIODIC;; rt_timer_start (TObj blink)) s0.

Lemma handler_service f p : service idle live apps (handler f p).
Proof.
  unfold handler. destruct (f =? 1); [|destruct (f =? 2); [|apply service_ret]].
  - apply service_bind; [apply service_release; set_solver|intros _].
    apply service_bind; [apply service_set_time; [set_solver|done]|intros; apply service_ret].
  - apply service_bind; [apply service_stop; set_solver|intros; apply service_ret].
Defined.

Lemma y0_sem_ok : sem_ok y0 sem (the_sem y0).
Proof. sem_in_use. Defined.

Lemma y0_sys : sys_inv idle live apps y0.
Proof.
  assert (kinv ∅ y0) as Hk by kcheck. split; [|by vm_compute]. split; [done|by vm_compute| | | | | |].
  - apply (next_check y0 10); [done|by vm_compute|by vm_compute].
  - exists (th y0 idle). split; by vm_compute.
  - intros p x E. assert (p = sem) as ->.
    { assert ((map_to_list (sems y0)).*1 = [sem]) as Hl by (vm_compute; reflexivity).
      apply list_elem_of_singleton. rewrite <- Hl. apply list_elem_of_fmap. exists (p, x).
      split; [done|]. by apply elem_of_map_to_list. }
    rewrite (from_default _ _ (junk_rt_semaphore sem) E). exact y0_sem_ok.
  - apply set_up_check_sound. vm_compute. reflexivity.
  - intros p Hp. assert (p = sem) as -> by set_solver. exists (the_sem y0). vm_compute. reflexivity.
  - intros p Hp. assert (p = blink) as -> by set_solver. split; [done|].
    exists (default (junk_rt_timer (TObj blink)) (timers y0 !! TObj blink)). vm_compute. reflexivity.
Defined.

(** The worker waits for the semaphore, and the timer releases it at the next tick. *)
Definition y1 : kstate := run (exec handler (Take sem 10)) y0.
Definition y2 : kstate := run (exec handler Tick) y1.
Lemma y2_steps : steps handler idle apps y0 [Take sem 10; Tick] y2.
Proof.
  apply (steps_cons handler idle apps y0 (Take sem 10) y1); [| |apply (steps_cons handler idle apps y1 Tick y2); [done| |apply steps_nil]].
  - cbn [allowed]. split; [by vm_compute|]. split; [|done]. exists (the_sem y0). vm_compute. reflexivity.
  - unfold y1. apply run_result. vm_compute. reflexivity.
  - unfold y2. apply run_result. vm_compute. reflexivity.
Defined.
Example y2_woken : (th_stat (th y1 worker), th_stat (th y2 worker), th_error (th y2 worker)) = (RT_THREAD_SUSPEND, RT_THREAD_READY, RT_EOK).
Proof. vm_compute. reflexivity. Qed.

Lemma sys_safe_witness :
  sys_inv idle live apps y2 /\ next_thread y2 (rt_current_thread y2) /\
  (forall sem x, sems y2 !! sem = Some x -> tlists y2 !!! LSuspend sem <> [] -> sem_value x = 0) /\
  (forall c, allowed idle apps y2 c -> exists s', exec handler c y2 = Ok tt s').
Proof.
  apply (system_safe handler idle live apps y0 [Take sem 10; Tick] y2); [apply handler_service|apply y0_sys|apply y2_steps].
Defined.

Lemma sys_sleep_witness :
  exists s1, rt_thread_sleep 3 y0 = Ok tt s1 /\ sys_inv idle live apps s1 /\
    forall cs s2, steps handler idle apps s1 cs s2 ->
      (System.ticks cs < 3 -> threads s2 !! worker = Some (set_th_stat RT_THREAD_SUSPEND (th y0 worker)) /\
         rt_current_thread s2 <> worker /\ forall l, worker ∉ tlists s2 !!! l) /\
      (System.ticks cs = 3 - 1 -> exists s3, exec handler Tick s2 = Ok tt s3 /\ sys_inv idle live apps s3 /\
         threads s3 !! worker = Some (timed_out (th y0 worker)) /\ worker ∈ ready s3 (th_current_priority (th y0 worker))).
Proof.
  apply (sleep_wakes_up handler idle live apps y0 worker (th y0 worker) 3);
    [apply handler_service|apply y0_sys|by vm_compute|done|by vm_compute|done].
Defined.
End SysWitness.
