(* ===== verification/HeapWitness.v ===== *)
(** * Dynamic objects on the small memory manager: concrete runs *)
From stdpp Require Import base tactics numbers list gmap.
From S2P Require Import Prelude KString SmallMem SmallMemCorrect RtList Kernel Scheduler Object Timer Thread KHeap Board.
Local Open Scope Z_scope.

Module HeapWitness.
#[local] Existing Instance stm32_config.
#[local] Instance demo_allocator : Allocator := mem_allocator HeapDemo.junk (fun _ _ => 0).
#[local] Instance demo_laws : AllocatorLaws demo_allocator := mem_allocator_laws HeapDemo.junk (fun _ _ => 0).

(** After reset the kernel holds no memory. *)
Definition k0 : kstate := reset_state HeapDemo.s0.

Lemma k0_holds : kernel_holds k0 ∅.
Proof.
  split.
  - exists HeapDemo.l0. split; [apply HeapDemo.s0_inv|]. intros p n E. by rewrite lookup_empty in E.
  - intros p Hp. exfalso. destruct Hp as [(r & _ & c & l & E & _)|[(c & l & E & _)|(r & _ & Hr)]].
    + change ((∅ : gmap _ _) !! c = Some l) in E. by rewrite lookup_empty in E.
    + change ((∅ : gmap _ _) !! c = Some l) in E. by rewrite lookup_empty in E.
    + by apply Exists_nil in Hr.
Defined.



(** The thread and its stack are the first two blocks of the heap. *)
Example thread_create_run :
  result (rt_thread_create 0x08000100 [119] 0x08000200 0 64 10 5) k0 = Some 4108.
Proof. vm_compute. reflexivity. Qed.
End HeapWitness.
