(* ===== verification/DriverWitness.v ===== *)
(** * Devices, completions and data queues: concrete runs *)
From stdpp Require Import base tactics numbers list gmap.
From S2P Require Import Prelude RtList Kernel Scheduler Object Timer Thread Ipc Clock Board Device Driver Completion DataQueue.
Import Demo.
Local Open Scope Z_scope.

Module CompletionWitness.
Definition cp : ptr := 0x20002100.
Definition d0 : dstate := run (rt_completion_init cp) (mk_dstate booted 0 ∅ ∅).
(** The worker waits for ten ticks. *)
Definition d1 : dstate := run (rt_completion_wait cp 10) d0.
Definition the_thread (d : dstate) (t : ptr) : rt_thread := default (junk_rt_thread t) (threads (kern d) !! t).

Lemma cp_in_use d x :
  completions d !! cp = Some x -> kinv_check (kern d) = true -> cp_ok d cp x.
Proof. intros E Hk. split; [done|done|by apply kinv_check_sound]. Defined.

Lemma completion_wait_witness : exists r d', rt_completion_wait cp 10 d0 = Ok r d' /\
  cp_waited d0 cp (mk_completion RT_UNCOMPLETED) worker (the_thread d0 worker) 10 r d'.
Proof.
  apply (rt_completion_wait_correct d0 cp (mk_completion RT_UNCOMPLETED) worker (the_thread d0 worker) 10).
  - apply cp_in_use; vm_compute; reflexivity.
  - split; by vm_compute.
  - exists 31, idle. split; [done|]. apply (bool_decide_unpack _). vm_compute. exact I.
  - intros _. vm_compute. reflexivity.
  - done.
Defined.

Lemma completion_signal_witness :
  exists d2, rt_completion_done cp d1 = Ok tt d2 /\ kinv ∅ (kern d2) /\ primask d2 = primask d1 /\
    completions d2 !! cp = Some (mk_completion RT_COMPLETED) /\
    (tlists (kern d1) !!! LSuspend cp = [] -> kern d2 = kern d1) /\
    (forall t th ws, tlists (kern d1) !!! LSuspend cp = t :: ws -> threads (kern d1) !! t = Some th ->
       t ∈ ready (kern d2) (th_current_priority th) /\ tlists (kern d2) !!! LSuspend cp = ws /\
       threads (kern d2) !! t = Some (set_th_stat RT_THREAD_READY th)) /\
    forall d3, completions d3 !! cp = completions d2 !! cp ->
      (forall time, rt_completion_wait cp time d3 = Ok (Done RT_EOK) (flagged cp RT_UNCOMPLETED d3)) /\
      (forall t th3, threads (kern d3) !! t = Some th3 -> th_error th3 = RT_EOK ->
        rt_completion_wait_resume cp t d3 = Ok RT_EOK (flagged cp RT_UNCOMPLETED d3)).
Proof.
  apply (completion_signal_kept d1 cp (mk_completion RT_UNCOMPLETED)); [|done].
  apply cp_in_use; vm_compute; reflexivity.
Defined.

(** The worker times out, then the signal comes, then the worker runs. *)
Lemma completion_timeout_witness :
  exists k1, rt_thread_timeout worker (kern d1) = Ok tt k1 /\
    rt_completion_done cp (set_kern k1 d1) = Ok tt (flagged cp RT_COMPLETED (set_kern k1 d1)) /\
    rt_completion_wait_resume cp worker (flagged cp RT_COMPLETED (set_kern k1 d1)) =
      Ok (- RT_ETIMEOUT) (flagged cp RT_UNCOMPLETED (set_kern k1 d1)).
Proof.
  apply (completion_timeout_loses_signal d1 cp (mk_completion RT_UNCOMPLETED) worker (the_thread d1 worker));
    [apply cp_in_use; vm_compute; reflexivity|done|by vm_compute|by vm_compute|by vm_compute].
Defined.
End CompletionWitness.

Module DataQueueWitness.
(** No notification function is called. *)
Definition silent (f : Z) (q : ptr) (e : Z) : M dstate unit := mret tt.
Definition dq : ptr := 0x20002000.
Definition d0 : dstate := mk_dstate booted 0 ∅ ∅.
(** Two places, low water mark 1; the third push finds the queue full. *)
Definition d1 : dstate := run (rt_data_queue_init dq (2 ^ 1) 1 RT_NULL) d0.
Definition push (it : Z * Z) (d : dstate) : dstate := run (rt_data_queue_push silent dq it.1 it.2 0) d.
Definition d2 : dstate := push (30, 4) (push (20, 4) (push (10, 4) d1)).
Definition the_dq (d : dstate) : rt_data_queue :=
  default (mk_data_queue 0 0 false 0 0 0 ∅ 0) (dqueues d !! dq).
Definition ops : list dq_op := [DPush (1, 4); DPop; DPop; DPush (2, 8); DPush (3, 8); DPush (4, 8); DPop; DPush (5, 8); DPop; DPop].

Lemma d1_ready : rt_data_queue_init dq (2 ^ 1) 1 RT_NULL d0 = Ok RT_EOK d1.
Proof. unfold d1. apply run_result. vm_compute. reflexivity. Qed.

Lemma data_queue_fifo_witness : exists d', dq_run silent dq ops d1 =
  Ok [(RT_EOK, None); (RT_EOK, Some (1, 4)); (- RT_ETIMEOUT, None); (RT_EOK, None); (RT_EOK, None);
      (- RT_ETIMEOUT, None); (RT_EOK, Some (2, 8)); (RT_EOK, None); (RT_EOK, Some (3, 8)); (RT_EOK, Some (5, 8))] d'.
Proof.
  apply (data_queue_is_fifo silent d0 dq 1 1 d1 ops); [exact booted_inv|done|done|done|vm_compute; reflexivity|vm_compute; reflexivity|exact d1_ready|done].
Defined.

Lemma data_queue_pop_witness :
  exists d', rt_data_queue_pop silent dq 0 d2 = Ok (Done (RT_EOK, Some (10, 4))) d' /\ primask d' = 1.
Proof.
  apply (data_queue_pop_masks_interrupts silent d2 dq (the_dq d2) (10, 4) [(20, 4)]); [|vm_compute; done..].
  split; [done|vm_compute; reflexivity| |vm_compute; reflexivity|apply kinv_check_sound; vm_compute; reflexivity].
  split; [exists 1; split; [done|vm_compute; reflexivity]|vm_compute; done..|].
  intros [|[|i]] it Hi; simpl in Hi; simplify_eq; vm_compute; reflexivity.
Defined.

(** Behind 65535 items: two items are in the queue and the put index has gone round. *)
Definition xw : rt_data_queue := mk_data_queue 2 1 false 65535 1 0x20008000 {[1 := (10, 4); 0 := (20, 4)]} RT_NULL.
Definition dw : dstate := mk_dstate booted 0 ∅ {[dq := xw]}.

Lemma data_queue_wrap_witness :
  exists d' x', rt_data_queue_push silent dq 30 4 0 dw = Ok (Done RT_EOK) d' /\
    dqueues d' !! dq = Some x' /\ dq_get_index x' = 65535 /\
    dq_items x' !! Z.land (dq_get_index x') (dq_mask x') = Some (30, 4).
Proof.
  apply (data_queue_wrap_overruns silent dw dq xw 1 (30, 4)); try done; try lia; vm_compute; reflexivity.
Defined.

(** A queue of three places is no queue: the mask is 2, the first two items go to the same
    place, and the first item that comes out is the second that went in. *)
Example data_queue_size_three :
  let d := run (rt_data_queue_init dq 3 1 RT_NULL) d0 in
  dq_run silent dq [DPush (10, 4); DPush (20, 4); DPop] d =
    Ok [(RT_EOK, None); (RT_EOK, None); (RT_EOK, Some (20, 4))]
      (run (dq_run silent dq [DPush (10, 4); DPush (20, 4); DPop]) d).
Proof. cbv zeta. apply run_result. vm_compute. reflexivity. Qed.
End DataQueueWitness.

Module DeviceWitness.
(** A driver whose functions succeed, except for the close function at [bad_close] *)
Definition bad_close : ptr := 0x08003000.
#[local] Instance uart_ops : DriverOps := {|
  call_init := fun _ _ => mret RT_EOK;
  call_open := fun _ _ _ => mret RT_EOK;
  call_close := fun f _ => mret (if f =? bad_close then - RT_ERROR else RT_EOK);
  call_read := fun _ _ _ _ n => mret n;
  call_write := fun _ _ _ _ n => mret n;
  call_control := fun _ _ _ _ => mret RT_EOK
|}.

Definition uart : ptr := 0x20003000.
Definition uart_dev (flag open_flag ref close : Z) : rt_device :=
  mk_device (mk_object [] 0 0) 0 flag open_flag ref 0 0 0 0x08001000 0x08001100 close 0x08001300 0x08001400 0 0.
Definition with_uart (x : rt_device) : kstate := set_devices {[uart := x]} booted.

Lemma uart_driver flag open_flag ref close oflag :
  driver uart (uart_dev flag open_flag ref close) oflag RT_EOK RT_EOK
    (if close =? RT_NULL then RT_EOK else if close =? bad_close then - RT_ERROR else RT_EOK).
Proof.
  split; simpl; [intros s x E; by exists s, x..|]. destruct (close =? RT_NULL); [done|]. intros s x E. by exists s, x.
Qed.

(** Three opens and three closes *)
Lemma device_balanced_witness : exists s1 x1 s2 x2,
  repeatM 3 (rt_device_open uart 3) (with_uart (uart_dev 0 0 0 0x08001200)) = Ok [0; 0; 0] s1 /\
  devices s1 !! uart = Some x1 /\ dev_ref_count x1 = 3 /\ activated x1 = true /\ dev_open_flag x1 = 11 /\
  (forall k, (k <= 2)%nat -> repeatM k (rt_device_close uart) s1 = Ok (replicate k RT_EOK)
     (set_devices (<[uart := set_dev_ref_count (Z.of_nat (3 - k)) x1]> (devices s1)) s1)) /\
  repeatM 3 (rt_device_close uart) s1 = Ok [0; 0; 0] s2 /\
  devices s2 !! uart = Some x2 /\ dev_ref_count x2 = 0 /\ dev_open_flag x2 = 0.
Proof.
  apply (device_open_close_balanced 2 uart (uart_dev 0 0 0 0x08001200) 3 RT_EOK RT_EOK (with_uart (uart_dev 0 0 0 0x08001200)));
    [done|apply lookup_singleton_eq|apply (uart_driver 0 0 0 0x08001200 3)|by left|by left|done|done|lia].
Defined.

(** A standalone device, open, whose driver refuses to close *)
Definition stuck : rt_device := uart_dev 0x18 0x0b 1 bad_close.
Lemma device_stuck_witness : exists s', rt_device_close uart (with_uart stuck) = Ok (- RT_ERROR) s' /\
  rt_device_open uart 3 s' = Ok (- RT_EBUSY) s' /\ rt_device_close uart s' = Ok (- RT_ERROR) s'.
Proof.
  apply (device_close_failure_sticks uart stuck 3 RT_EOK RT_EOK (- RT_ERROR) (with_uart stuck));
    [done|apply lookup_singleton_eq|apply (uart_driver 0x18 0x0b 1 bad_close 3)|by intros [|]| |done|done|done].
  intros s s' r x1 E Ec. apply Ok_inj in Ec as [_ <-]. by exists x1.
Defined.

(** Registered by the running thread under the name uart1 *)
Definition name : list Z := [117; 97; 114; 116; 49].
Lemma devices_irrelevant m (s : kstate) : sched_inv ∅ s -> sched_inv ∅ (set_devices m s).
Proof. by apply sched_inv_eq. Qed.

Lemma device_register_witness : exists s1 s2 x,
  rt_device_register uart name 3 (with_uart (uart_dev 0 0 0 0)) = Ok RT_EOK s1 /\
  devices s1 !! uart = Some x /\ dev_ref_count x = 0 /\ dev_flag x = u16 3 /\
  rt_device_find name s1 = Ok uart s2 /\
  forall dev' flags', dev' <> RT_NULL -> rt_device_register dev' name flags' s1 = Ok (- RT_ERROR) s2.
Proof.
  apply (device_register_find uart name 3 (with_uart (uart_dev 0 0 0 0))).
  - apply devices_irrelevant, booted_inv.
  - exists 31. vm_compute. done.
  - vm_compute. reflexivity.
  - done.
  - eexists. apply lookup_singleton_eq.
  - apply (bool_decide_unpack _). vm_compute. exact I.
  - repeat constructor; lia.
  - unfold name_free. replace (rt_object_container _ !!! _) with (@nil object_ref) by (vm_compute; reflexivity). constructor.
Defined.
End DeviceWitness.
