(* ===== verification/Finsh.v ===== *)
(** * The shell's data (components/finsh: finsh.h, finsh_error.c, finsh_var.c)

    finsh compiles lines of C expressions to byte code.  Its global variables form the
    state [finsh]; the values of the variables, the strings and whatever system variables
    point to live in byte memory.  [long], [int] and pointers have 32 bits, [char] is
    unsigned, and memory is little endian, as on the ARM ports. *)
From stdpp Require Import base tactics numbers list gmap.
From S2P Require Import Prelude Memory.
Local Open Scope Z_scope.

Definition FINSH_NAME_MAX : nat := 16.
Definition FINSH_NODE_MAX : nat := 16.
Definition FINSH_HEAP_MAX : Z := 128.
Definition FINSH_STRING_MAX : Z := 128.
Definition FINSH_VARIABLE_MAX : nat := 8.
Definition FINSH_STACK_MAX : Z := 64.
Definition FINSH_TEXT_MAX : Z := 128.

(** Error numbers *)
Definition FINSH_ERROR_OK : Z := 0.
Definition FINSH_ERROR_INVALID_TOKEN : Z := 1.
Definition FINSH_ERROR_EXPECT_TYPE : Z := 2.
Definition FINSH_ERROR_UNKNOWN_TYPE : Z := 3.
Definition FINSH_ERROR_VARIABLE_EXIST : Z := 4.
Definition FINSH_ERROR_EXPECT_OPERATOR : Z := 5.
Definition FINSH_ERROR_MEMORY_FULL : Z := 6.
Definition FINSH_ERROR_UNKNOWN_NODE : Z := 8.
Definition FINSH_ERROR_EXPECT_CHAR : Z := 9.
Definition FINSH_ERROR_UNEXPECT_END : Z := 10.
Definition FINSH_ERROR_UNKNOWN_TOKEN : Z := 11.
Definition FINSH_ERROR_UNKNOWN_SYMBOL : Z := 13.
Definition FINSH_ERROR_NULL_NODE : Z := 14.

Inductive finsh_type :=
| finsh_type_unknown | finsh_type_void | finsh_type_voidp
| finsh_type_char | finsh_type_uchar | finsh_type_charp
| finsh_type_short | finsh_type_ushort | finsh_type_shortp
| finsh_type_int | finsh_type_uint | finsh_type_intp
| finsh_type_long | finsh_type_ulong | finsh_type_longp.

#[export] Instance finsh_type_eq_dec : EqDecision finsh_type.
Proof. solve_decision. Defined.

(** The number of an enumerator *)
Definition type_code (t : finsh_type) : Z :=
  match t with
  | finsh_type_unknown => 0 | finsh_type_void => 1 | finsh_type_voidp => 2
  | finsh_type_char => 3 | finsh_type_uchar => 4 | finsh_type_charp => 5
  | finsh_type_short => 6 | finsh_type_ushort => 7 | finsh_type_shortp => 8
  | finsh_type_int => 9 | finsh_type_uint => 10 | finsh_type_intp => 11
  | finsh_type_long => 12 | finsh_type_ulong => 13 | finsh_type_longp => 14
  end.

(** Names are C strings without their terminator. *)
Record finsh_var := mk_var { var_name : list Z; var_type : finsh_type }.
Record finsh_sysvar := mk_sysvar { sv_name : list Z; sv_type : finsh_type; sv_var : Z }.
Record finsh_syscall := mk_syscall { sc_name : list Z; sc_func : Z }.

(** A node of the syntax tree; a pointer to a node is its index in the table.  [nd_value]
    is the word of the union [value], [nd_id] the pointer of the union [id]. *)
Record finsh_node := mk_node {
  nd_type : Z;
  nd_data : Z;
  nd_idtype : Z;
  nd_value : Z;
  nd_id : Z;
  nd_sibling : option nat;
  nd_child : option nat
}.
Definition set_nd_type (v : Z) (n : finsh_node) : finsh_node :=
  mk_node v (nd_data n) (nd_idtype n) (nd_value n) (nd_id n) (nd_sibling n) (nd_child n).
Definition set_nd_data (v : Z) (n : finsh_node) : finsh_node :=
  mk_node (nd_type n) v (nd_idtype n) (nd_value n) (nd_id n) (nd_sibling n) (nd_child n).
Definition set_nd_idtype (v : Z) (n : finsh_node) : finsh_node :=
  mk_node (nd_type n) (nd_data n) v (nd_value n) (nd_id n) (nd_sibling n) (nd_child n).
Definition set_nd_value (v : Z) (n : finsh_node) : finsh_node :=
  mk_node (nd_type n) (nd_data n) (nd_idtype n) v (nd_id n) (nd_sibling n) (nd_child n).
Definition set_nd_id (v : Z) (n : finsh_node) : finsh_node :=
  mk_node (nd_type n) (nd_data n) (nd_idtype n) (nd_value n) v (nd_sibling n) (nd_child n).
Definition set_nd_sibling (v : option nat) (n : finsh_node) : finsh_node :=
  mk_node (nd_type n) (nd_data n) (nd_idtype n) (nd_value n) (nd_id n) v (nd_child n).
Definition set_nd_child (v : option nat) (n : finsh_node) : finsh_node :=
  mk_node (nd_type n) (nd_data n) (nd_idtype n) (nd_value n) (nd_id n) (nd_sibling n) v.

(** The global variables; [f_compile_pc] and the stack and program counters of the machine
    are indices.  A slot of the stack is the 32-bit word of a [union finsh_value].
    [f_mem] is the memory a program can name through variables and pointers; the text
    segment, the stack and the counters of the machine are outside it, so an expression
    that stores to an address of theirs is outside the model. *)
Record finsh := mk_finsh {
  f_mem : mem;
  global_variable : list finsh_var;
  global_node_table : list finsh_node;
  text_segment : list Z;
  finsh_vm_stack : list Z;
  finsh_sp : Z;
  finsh_pc : Z;
  finsh_compile_pc : Z;
  global_errno : Z;
  free_list : Z;
  allocate_list : Z;
  global_syscall_list : list (Z * finsh_syscall);
  global_sysvar_list : list (Z * finsh_sysvar)
}.
Definition set_f_mem (v : mem) (s : finsh) : finsh :=
  mk_finsh v (global_variable s) (global_node_table s) (text_segment s) (finsh_vm_stack s) (finsh_sp s) (finsh_pc s)
    (finsh_compile_pc s) (global_errno s) (free_list s) (allocate_list s) (global_syscall_list s) (global_sysvar_list s).
Definition set_global_variable (v : list finsh_var) (s : finsh) : finsh :=
  mk_finsh (f_mem s) v (global_node_table s) (text_segment s) (finsh_vm_stack s) (finsh_sp s) (finsh_pc s)
    (finsh_compile_pc s) (global_errno s) (free_list s) (allocate_list s) (global_syscall_list s) (global_sysvar_list s).
Definition set_global_node_table (v : list finsh_node) (s : finsh) : finsh :=
  mk_finsh (f_mem s) (global_variable s) v (text_segment s) (finsh_vm_stack s) (finsh_sp s) (finsh_pc s)
    (finsh_compile_pc s) (global_errno s) (free_list s) (allocate_list s) (global_syscall_list s) (global_sysvar_list s).
Definition set_text_segment (v : list Z) (s : finsh) : finsh :=
  mk_finsh (f_mem s) (global_variable s) (global_node_table s) v (finsh_vm_stack s) (finsh_sp s) (finsh_pc s)
    (finsh_compile_pc s) (global_errno s) (free_list s) (allocate_list s) (global_syscall_list s) (global_sysvar_list s).
Definition set_finsh_vm_stack (v : list Z) (s : finsh) : finsh :=
  mk_finsh (f_mem s) (global_variable s) (global_node_table s) (text_segment s) v (finsh_sp s) (finsh_pc s)
    (finsh_compile_pc s) (global_errno s) (free_list s) (allocate_list s) (global_syscall_list s) (global_sysvar_list s).
Definition set_finsh_sp (v : Z) (s : finsh) : finsh :=
  mk_finsh (f_mem s) (global_variable s) (global_node_table s) (text_segment s) (finsh_vm_stack s) v (finsh_pc s)
    (finsh_compile_pc s) (global_errno s) (free_list s) (allocate_list s) (global_syscall_list s) (global_sysvar_list s).
Definition set_finsh_pc (v : Z) (s : finsh) : finsh :=
  mk_finsh (f_mem s) (global_variable s) (global_node_table s) (text_segment s) (finsh_vm_stack s) (finsh_sp s) v
    (finsh_compile_pc s) (global_errno s) (free_list s) (allocate_list s) (global_syscall_list s) (global_sysvar_list s).
Definition set_finsh_compile_pc (v : Z) (s : finsh) : finsh :=
  mk_finsh (f_mem s) (global_variable s) (global_node_table s) (text_segment s) (finsh_vm_stack s) (finsh_sp s) (finsh_pc s)
    v (global_errno s) (free_list s) (allocate_list s) (global_syscall_list s) (global_sysvar_list s).
Definition set_global_errno (v : Z) (s : finsh) : finsh :=
  mk_finsh (f_mem s) (global_variable s) (global_node_table s) (text_segment s) (finsh_vm_stack s) (finsh_sp s) (finsh_pc s)
    (finsh_compile_pc s) v (free_list s) (allocate_list s) (global_syscall_list s) (global_sysvar_list s).
Definition set_free_list (v : Z) (s : finsh) : finsh :=
  mk_finsh (f_mem s) (global_variable s) (global_node_table s) (text_segment s) (finsh_vm_stack s) (finsh_sp s) (finsh_pc s)
    (finsh_compile_pc s) (global_errno s) v (allocate_list s) (global_syscall_list s) (global_sysvar_list s).
Definition set_allocate_list (v : Z) (s : finsh) : finsh :=
  mk_finsh (f_mem s) (global_variable s) (global_node_table s) (text_segment s) (finsh_vm_stack s) (finsh_sp s) (finsh_pc s)
    (finsh_compile_pc s) (global_errno s) (free_list s) v (global_syscall_list s) (global_sysvar_list s).
Definition set_global_syscall_list (v : list (Z * finsh_syscall)) (s : finsh) : finsh :=
  mk_finsh (f_mem s) (global_variable s) (global_node_table s) (text_segment s) (finsh_vm_stack s) (finsh_sp s) (finsh_pc s)
    (finsh_compile_pc s) (global_errno s) (free_list s) (allocate_list s) v (global_sysvar_list s).
Definition set_global_sysvar_list (v : list (Z * finsh_sysvar)) (s : finsh) : finsh :=
  mk_finsh (f_mem s) (global_variable s) (global_node_table s) (text_segment s) (finsh_vm_stack s) (finsh_sp s) (finsh_pc s)
    (finsh_compile_pc s) (global_errno s) (free_list s) (allocate_list s) (global_syscall_list s) v.

Abbreviation F := (M finsh).

(** What the linker and the exported functions contribute: the addresses of
    [global_variable] and [finsh_heap], the tables of system calls and variables with the
    address of each entry, and what a call of an exported function does to memory. *)
Class FinshEnv := {
  gv_addr : Z;
  finsh_heap : Z;
  _syscall_table : list (Z * finsh_syscall);
  _sysvar_table : list (Z * finsh_sysvar);
  func_call : Z -> list Z -> M mem Z
}.

Definition on_mem {A} (c : M mem A) : F A :=
  fun s => match c (f_mem s) with Ok a m => Ok a (set_f_mem m s) | Fault f => Fault f end.

(** ** Errors *)

Definition finsh_error_init : F unit := modify (set_global_errno FINSH_ERROR_OK).
Definition finsh_error_set (type : Z) : F unit := modify (set_global_errno type).
Definition finsh_errno : F Z := gets global_errno.

(** ** C strings *)

(** [strcmp(a, b) == 0] *)
Definition streq (a b : list Z) : bool := bool_decide (a = b).
(** [strncmp(a, b, n) == 0] *)
Definition strneq (n : nat) (a b : list Z) : bool := bool_decide (take n a = take n b).

(** ** Variables *)

Section var.
Context `{FinshEnv}.

(** [&global_variable[i]] and the address of its field [value] (name of 17 bytes, type,
    padding, value: 24 bytes) *)
Definition var_addr (i : nat) : Z := gv_addr + 24 * Z.of_nat i.
Definition value_addr (var : Z) : Z := var + 20.

Definition no_var : finsh_var := mk_var [] finsh_type_unknown.

(** [memset] of the variables also clears their values. *)
Fixpoint clear_values (n : nat) : M mem unit :=
  match n with O => mret tt | S i => clear_values i;; wr32 (value_addr (var_addr i)) 0 end.

Definition finsh_var_init : F Z :=
  modify (set_global_variable (replicate FINSH_VARIABLE_MAX no_var));;
  on_mem (clear_values FINSH_VARIABLE_MAX);; mret 0.

(** The loop of [finsh_var_insert]: [None] if the name exists, else the first empty entry *)
Fixpoint insert_scan (l : list finsh_var) (i : nat) (name : list Z) (empty : option nat) : option (option nat) :=
  match l with
  | [] => Some empty
  | v :: l' =>
      if strneq FINSH_NAME_MAX (var_name v) name then None
      else insert_scan l' (S i) name
        (if bool_decide (var_type v = finsh_type_unknown) && bool_decide (empty = None) then Some i else empty)
  end.

Definition finsh_var_insert (name : list Z) (type : finsh_type) : F Z :=
  l ← gets global_variable;
  match insert_scan l 0 name None with
  | None | Some None => mret (-1)
  | Some (Some empty) =>
      modify (set_global_variable (<[empty := mk_var (take FINSH_NAME_MAX name) type]> l));;
      mret (Z.of_nat empty)
  end.

(** The loop of [finsh_var_lookup] and [finsh_var_delete] *)
Fixpoint var_scan (l : list finsh_var) (i : nat) (name : list Z) : option nat :=
  match l with
  | [] => None
  | v :: l' => if strneq FINSH_NAME_MAX (var_name v) name then Some i else var_scan l' (S i) name
  end.

Definition finsh_var_delete (name : list Z) : F Z :=
  l ← gets global_variable;
  match var_scan l 0 name with
  | None => mret (-1)
  | Some i =>
      modify (set_global_variable (<[i := no_var]> l));;
      on_mem (wr32 (value_addr (var_addr i)) 0);; mret 0
  end.

Definition finsh_var_lookup (name : list Z) : F Z :=
  l ← gets global_variable;
  mret (match var_scan l 0 name with Some i => var_addr i | None => RT_NULL end).

(** ** System variables and system calls *)

(** [item] is what rt_malloc returned. *)
Definition finsh_sysvar_append (item : Z) (name : list Z) (type : finsh_type) (var_addr : Z) : F unit :=
  when (negb (item =? RT_NULL))
    (modify (fun s => set_global_sysvar_list ((item, mk_sysvar name type var_addr) :: global_sysvar_list s) s)).
Definition finsh_syscall_append (item : Z) (name : list Z) (func : Z) : F unit :=
  when (negb (item =? RT_NULL))
    (modify (fun s => set_global_syscall_list ((item, mk_syscall name func) :: global_syscall_list s) s)).

(** The static table is searched for the name, the list for a name that begins with it
    ([strncmp(item->name, name, strlen(name))]). *)
Definition sym_find {A} (f : A -> list Z) (table items : list (Z * A)) (name : list Z) : option (Z * A) :=
  match list_find (fun e => streq (f e.2) name = true) table with
  | Some (_, e) => Some e
  | None =>
      match list_find (fun e => strneq (length name) (f e.2) name = true) items with
      | Some (_, e) => Some e
      | None => None
      end
  end.

Definition finsh_sysvar_lookup (name : list Z) : F Z :=
  items ← gets global_sysvar_list;
  mret (match sym_find sv_name _sysvar_table items name with Some (p, _) => p | None => RT_NULL end).
Definition finsh_syscall_lookup (name : list Z) : F Z :=
  items ← gets global_syscall_list;
  mret (match sym_find sc_name _syscall_table items name with Some (p, _) => p | None => RT_NULL end).

(** What a pointer of the union [id] refers to *)
Definition var_lookup (l : list finsh_var) (p : Z) : option finsh_var :=
  if ((p - gv_addr) mod 24 =? 0) && (gv_addr <=? p) then l !! Z.to_nat ((p - gv_addr) / 24) else None.
Definition entry_lookup {A} (table items : list (Z * A)) (p : Z) : option A :=
  match list_find (fun e => e.1 = p) (table ++ items) with Some (_, e) => Some e.2 | None => None end.
Definition var_at (p : Z) : F finsh_var := s ← get; opt BadPointer (var_lookup (global_variable s) p).
Definition sysvar_at (p : Z) : F finsh_sysvar :=
  s ← get; opt BadPointer (entry_lookup _sysvar_table (global_sysvar_list s) p).
Definition syscall_at (p : Z) : F finsh_syscall :=
  s ← get; opt BadPointer (entry_lookup _syscall_table (global_syscall_list s) p).
End var.
