(* ===== verification/FinshVm.v ===== *)
(** * The shell's virtual machine (components/finsh: finsh_vm.c, finsh_ops.c)

    Each operation of the machine is a function on the stack, the program counter and
    memory.  A stack slot is a union, so an operation on [char_value] or [short_value]
    leaves the upper bytes of the word as they are. *)
From stdpp Require Import base tactics numbers list gmap.
From S2P Require Import Prelude Memory Finsh.
Local Open Scope Z_scope.

(** ** The union [finsh_value] *)

Definition char_value (w : Z) : Z := w mod 2 ^ 8.
Definition short_value (w : Z) : Z := s16 w.
Definition long_value (w : Z) : Z := s32 w.
Definition set_char_value (v w : Z) : Z := w / 2 ^ 8 * 2 ^ 8 + u8 v.
Definition set_short_value (v w : Z) : Z := w / 2 ^ 16 * 2 ^ 16 + u16 v.
Definition set_long_value (v w : Z) : Z := u32 v.

(** ** C operators on [int] and [long] (32 bits)

    Signed overflow, which C leaves undefined, wraps around as on the targets of the kernel
    (two's complement, compiled without traps). *)

Definition c_add (a b : Z) : F Z := mret (s32 (a + b)).
Definition c_sub (a b : Z) : F Z := mret (s32 (a - b)).
Definition c_mul (a b : Z) : F Z := mret (s32 (a * b)).
Definition c_div (a b : Z) : F Z := if b =? 0 then throw Undefined else mret (s32 (Z.quot a b)).
Definition c_mod (a b : Z) : F Z := if b =? 0 then throw Undefined else mret (s32 (Z.rem a b)).
Definition c_and (a b : Z) : F Z := mret (Z.land a b).
Definition c_or (a b : Z) : F Z := mret (Z.lor a b).
Definition c_xor (a b : Z) : F Z := mret (Z.lxor a b).
Definition c_shl (a b : Z) : F Z :=
  if (0 <=? b) && (b <? 32) then mret (s32 (Z.shiftl a b)) else throw Undefined.
Definition c_shr (a b : Z) : F Z :=
  if (0 <=? b) && (b <? 32) then mret (Z.shiftr a b) else throw Undefined.

(** ** Stack and text *)

Definition slot (i : Z) : F Z :=
  s ← get; if i <? 0 then throw BadPointer else opt BadPointer (finsh_vm_stack s !! Z.to_nat i).
Definition upd_slot (i : Z) (f : Z -> Z) : F unit :=
  w ← slot i; modify (fun s => set_finsh_vm_stack (<[Z.to_nat i := f w]> (finsh_vm_stack s)) s).
Definition sp_add (n : Z) : F unit := modify (fun s => set_finsh_sp (finsh_sp s + n) s).
Definition pc_add (n : Z) : F unit := modify (fun s => set_finsh_pc (finsh_pc s + n) s).
Definition text (i : Z) : F Z :=
  s ← get; if i <? 0 then throw BadPointer else opt BadPointer (text_segment s !! Z.to_nat i).

Definition FINSH_GET16 (pc : Z) : F Z :=
  a ← text pc; b ← text (pc + 1); mret (Z.lor a (Z.shiftl b 8)).
Definition FINSH_GET32 (pc : Z) : F Z :=
  a ← text pc; b ← text (pc + 1); c ← text (pc + 2); d ← text (pc + 3);
  mret (Z.lor (Z.lor (Z.lor a (Z.shiftl b 8)) (Z.shiftl c 16)) (Z.shiftl d 24)).

(** Memory accesses through [char *], [short *] and [long *] *)
Definition rd16 (p : Z) : M mem Z := a ← rd8 p; b ← rd8 (p + 1); mret (a + Z.shiftl b 8).
Definition wr16 (p v : Z) : M mem unit := wr8 p v;; wr8 (p + 1) (Z.shiftr v 8).

(** ** Operations *)

Definition OP_BIN_BYTE (op : Z -> Z -> F Z) : F unit :=
  s ← get;
  a ← slot (finsh_sp s - 2); b ← slot (finsh_sp s - 1);
  r ← op (char_value a) (char_value b);
  upd_slot (finsh_sp s - 2) (set_char_value r);; sp_add (-1).
Definition OP_BIN_WORD (op : Z -> Z -> F Z) : F unit :=
  s ← get;
  a ← slot (finsh_sp s - 2); b ← slot (finsh_sp s - 1);
  r ← op (short_value a) (short_value b);
  upd_slot (finsh_sp s - 2) (set_short_value r);; sp_add (-1).
Definition OP_BIN_DWORD (op : Z -> Z -> F Z) : F unit :=
  s ← get;
  a ← slot (finsh_sp s - 2); b ← slot (finsh_sp s - 1);
  r ← op (long_value a) (long_value b);
  upd_slot (finsh_sp s - 2) (set_long_value r);; sp_add (-1).

Definition OP_no_op : F unit := mret tt.
Definition OP_add_byte : F unit := OP_BIN_BYTE c_add.
Definition OP_add_word : F unit := OP_BIN_WORD c_add.
Definition OP_add_dword : F unit := OP_BIN_DWORD c_add.
Definition OP_sub_byte : F unit := OP_BIN_BYTE c_sub.
Definition OP_sub_word : F unit := OP_BIN_WORD c_sub.
Definition OP_sub_dword : F unit := OP_BIN_DWORD c_sub.
Definition OP_div_byte : F unit := OP_BIN_BYTE c_div.
Definition OP_div_word : F unit := OP_BIN_WORD c_div.
Definition OP_div_dword : F unit := OP_BIN_DWORD c_div.
Definition OP_mod_byte : F unit := OP_BIN_BYTE c_mod.
Definition OP_mod_word : F unit := OP_BIN_WORD c_mod.
Definition OP_mod_dword : F unit := OP_BIN_DWORD c_mod.
Definition OP_mul_byte : F unit := OP_BIN_BYTE c_mul.
Definition OP_mul_word : F unit := OP_BIN_WORD c_mul.
Definition OP_mul_dword : F unit := OP_BIN_DWORD c_mul.
Definition OP_and_byte : F unit := OP_BIN_BYTE c_and.
Definition OP_and_word : F unit := OP_BIN_WORD c_and.
Definition OP_and_dword : F unit := OP_BIN_DWORD c_and.
Definition OP_or_byte : F unit := OP_BIN_BYTE c_or.
Definition OP_or_word : F unit := OP_BIN_WORD c_or.
Definition OP_or_dword : F unit := OP_BIN_DWORD c_or.
Definition OP_xor_byte : F unit := OP_BIN_BYTE c_xor.
Definition OP_xor_word : F unit := OP_BIN_WORD c_xor.
Definition OP_xor_dword : F unit := OP_BIN_DWORD c_xor.
Definition OP_shl_byte : F unit := OP_BIN_BYTE c_shl.
Definition OP_shl_word : F unit := OP_BIN_WORD c_shl.
Definition OP_shl_dword : F unit := OP_BIN_DWORD c_shl.
Definition OP_shr_byte : F unit := OP_BIN_BYTE c_shr.
Definition OP_shr_word : F unit := OP_BIN_WORD c_shr.
Definition OP_shr_dword : F unit := OP_BIN_DWORD c_shr.

Definition OP_bw_byte : F unit :=
  s ← get; upd_slot (finsh_sp s - 1) (fun w => set_char_value (Z.lnot (char_value w)) w).
Definition OP_bw_word : F unit :=
  s ← get; upd_slot (finsh_sp s - 1) (fun w => set_short_value (Z.lnot (short_value w)) w).
Definition OP_bw_dword : F unit :=
  s ← get; upd_slot (finsh_sp s - 1) (fun w => set_long_value (Z.lnot (long_value w)) w).

(** Constants *)
Definition OP_ld_byte : F unit :=
  s ← get; v ← text (finsh_pc s); upd_slot (finsh_sp s) (set_char_value v);; sp_add 1;; pc_add 1.
Definition OP_ld_word : F unit :=
  s ← get; v ← FINSH_GET16 (finsh_pc s); upd_slot (finsh_sp s) (set_short_value v);; sp_add 1;; pc_add 2.
Definition OP_ld_dword : F unit :=
  s ← get; v ← FINSH_GET32 (finsh_pc s); upd_slot (finsh_sp s) (set_long_value v);; sp_add 1;; pc_add 4.

(** Variables at an address in the text *)
Definition OP_ld_value_byte : F unit :=
  s ← get; c ← FINSH_GET32 (finsh_pc s); v ← on_mem (rd8 c);
  upd_slot (finsh_sp s) (set_char_value v);; sp_add 1;; pc_add 4.
Definition OP_ld_value_word : F unit :=
  s ← get; c ← FINSH_GET32 (finsh_pc s); v ← on_mem (rd16 c);
  upd_slot (finsh_sp s) (set_short_value v);; sp_add 1;; pc_add 4.
Definition OP_ld_value_dword : F unit :=
  s ← get; c ← FINSH_GET32 (finsh_pc s); v ← on_mem (rd32 c);
  upd_slot (finsh_sp s) (set_long_value v);; sp_add 1;; pc_add 4.

(** Variables at an address on the stack *)
Definition OP_ld_value_byte_stack : F unit :=
  s ← get; w ← slot (finsh_sp s - 1); v ← on_mem (rd8 (u32 w));
  upd_slot (finsh_sp s - 1) (set_char_value v).
Definition OP_ld_value_word_stack : F unit :=
  s ← get; w ← slot (finsh_sp s - 1); v ← on_mem (rd16 (u32 w));
  upd_slot (finsh_sp s - 1) (set_short_value v).
Definition OP_ld_value_dword_stack : F unit :=
  s ← get; w ← slot (finsh_sp s - 1); v ← on_mem (rd32 (u32 w));
  upd_slot (finsh_sp s - 1) (set_long_value v).

Definition OP_st_byte : F unit :=
  s ← get; w ← slot (finsh_sp s - 2); v ← slot (finsh_sp s - 1);
  on_mem (wr8 (u32 w) (char_value v));; sp_add (-1).
Definition OP_st_word : F unit :=
  s ← get; w ← slot (finsh_sp s - 2); v ← slot (finsh_sp s - 1);
  on_mem (wr16 (u32 w) (short_value v));; sp_add (-1).
Definition OP_st_dword : F unit :=
  s ← get; w ← slot (finsh_sp s - 2); v ← slot (finsh_sp s - 1);
  on_mem (wr32 (u32 w) (long_value v));; sp_add (-1).

Definition OP_pop : F unit := sp_add (-1).

Section vm.
Context `{FinshEnv}.

(** The parameters, the last one on top of the stack; [parameterv] holds 16 of them. *)
Fixpoint pop_parameters (n : nat) (acc : list Z) : F (list Z) :=
  match n with
  | O => mret acc
  | S n' => s ← get; w ← slot (finsh_sp s); sp_add (-1);; pop_parameters n' (u32 w :: acc)
  end.

(** A call without parameters passes a 0. *)
Definition OP_call : F unit :=
  s ← get; parameters ← text (finsh_pc s); pc_add 1;;
  sp_add (-1);;
  if 16 <? parameters then throw BadPointer
  else
    args ← pop_parameters (Z.to_nat parameters) [];
    s ← get; f ← slot (finsh_sp s);
    r ← on_mem (func_call (u32 f) (if parameters =? 0 then [0] else args));
    upd_slot (finsh_sp s) (set_long_value r);; sp_add 1.

Definition op_table : list (F unit) := [
  OP_no_op;
  OP_add_byte; OP_add_word; OP_add_dword;
  OP_sub_byte; OP_sub_word; OP_sub_dword;
  OP_div_byte; OP_div_word; OP_div_dword;
  OP_mod_byte; OP_mod_word; OP_mod_dword;
  OP_mul_byte; OP_mul_word; OP_mul_dword;
  OP_and_byte; OP_and_word; OP_and_dword;
  OP_or_byte; OP_or_word; OP_or_dword;
  OP_xor_byte; OP_xor_word; OP_xor_dword;
  OP_bw_byte; OP_bw_word; OP_bw_dword;
  OP_shl_byte; OP_shl_word; OP_shl_dword;
  OP_shr_byte; OP_shr_word; OP_shr_dword;
  OP_ld_byte; OP_ld_word; OP_ld_dword;
  OP_ld_value_byte; OP_ld_value_word; OP_ld_value_dword;
  OP_st_byte; OP_st_word; OP_st_dword;
  OP_pop; OP_call;
  OP_ld_value_byte_stack; OP_ld_value_word_stack; OP_ld_value_dword_stack ].

(** One round of the loop: the operation is fetched and called; the table has no function
    beyond 0x2f. *)
Definition vm_step : F unit :=
  s ← get; op ← text (finsh_pc s); pc_add 1;;
  f ← opt BadPointer (op_table !! Z.to_nat op); f.

(** Every round moves the program counter on, so 128 rounds and the last test suffice. *)
Definition finsh_vm_run : F unit :=
  modify (set_finsh_sp 0);;
  modify (set_finsh_pc 0);;
  while (S (Z.to_nat FINSH_TEXT_MAX))
    (fun _ => s ← get; mret ((0 <=? finsh_pc s) && (finsh_pc s <? FINSH_TEXT_MAX)))
    (fun _ => vm_step) tt.

Definition finsh_stack_bottom : F Z := w ← slot 0; mret (long_value w).
End vm.
