(* ===== verification/FinshCompiler.v ===== *)
(** * The shell's compiler (components/finsh: finsh_compiler.c, finsh_node.h, finsh_ops.h)

    [finsh_type_check] gives every node its data type and marks the identifiers whose
    address is wanted; [finsh_compile] emits the byte code of a tree into the text segment. *)
From stdpp Require Import base tactics numbers list gmap.
From S2P Require Import Prelude Memory Finsh FinshVm.
Local Open Scope Z_scope.

(** ** Kinds of nodes (finsh_node.h) *)
Definition FINSH_NODE_UNKNOWN : Z := 0.
Definition FINSH_NODE_ID : Z := 1.
Definition FINSH_NODE_VALUE_CHAR : Z := 2.
Definition FINSH_NODE_VALUE_INT : Z := 3.
Definition FINSH_NODE_VALUE_LONG : Z := 4.
Definition FINSH_NODE_VALUE_STRING : Z := 5.
Definition FINSH_NODE_VALUE_NULL : Z := 6.
Definition FINSH_NODE_SYS_ADD : Z := 7.
Definition FINSH_NODE_SYS_SUB : Z := 8.
Definition FINSH_NODE_SYS_MUL : Z := 9.
Definition FINSH_NODE_SYS_DIV : Z := 10.
Definition FINSH_NODE_SYS_MOD : Z := 11.
Definition FINSH_NODE_SYS_AND : Z := 12.
Definition FINSH_NODE_SYS_OR : Z := 13.
Definition FINSH_NODE_SYS_XOR : Z := 14.
Definition FINSH_NODE_SYS_BITWISE : Z := 15.
Definition FINSH_NODE_SYS_SHL : Z := 16.
Definition FINSH_NODE_SYS_SHR : Z := 17.
Definition FINSH_NODE_SYS_FUNC : Z := 18.
Definition FINSH_NODE_SYS_ASSIGN : Z := 19.
Definition FINSH_NODE_SYS_PREINC : Z := 21.
Definition FINSH_NODE_SYS_PREDEC : Z := 22.
Definition FINSH_NODE_SYS_INC : Z := 23.
Definition FINSH_NODE_SYS_DEC : Z := 24.
Definition FINSH_NODE_SYS_GETVALUE : Z := 25.
Definition FINSH_NODE_SYS_GETADDR : Z := 26.
Definition FINSH_NODE_SYS_NULL : Z := 27.
Definition FINSH_NODE_VALUE : Z := 0.

Definition FINSH_DATA_TYPE_VOID : Z := 0.
Definition FINSH_DATA_TYPE_BYTE : Z := 1.
Definition FINSH_DATA_TYPE_WORD : Z := 2.
Definition FINSH_DATA_TYPE_DWORD : Z := 3.

Definition FINSH_IDTYPE_VAR : Z := 1.
Definition FINSH_IDTYPE_SYSVAR : Z := 2.
Definition FINSH_IDTYPE_SYSCALL : Z := 4.
Definition FINSH_IDTYPE_ADDRESS : Z := 8.

(** ** Operation codes (finsh_ops.h) *)
Definition FINSH_OP_ADD_BYTE : Z := 0x01.
Definition FINSH_OP_ADD_WORD : Z := 0x02.
Definition FINSH_OP_ADD_DWORD : Z := 0x03.
Definition FINSH_OP_SUB_BYTE : Z := 0x04.
Definition FINSH_OP_SUB_WORD : Z := 0x05.
Definition FINSH_OP_SUB_DWORD : Z := 0x06.
Definition FINSH_OP_DIV_BYTE : Z := 0x07.
Definition FINSH_OP_DIV_WORD : Z := 0x08.
Definition FINSH_OP_DIV_DWORD : Z := 0x09.
Definition FINSH_OP_MOD_BYTE : Z := 0x0A.
Definition FINSH_OP_MOD_WORD : Z := 0x0B.
Definition FINSH_OP_MOD_DWORD : Z := 0x0C.
Definition FINSH_OP_MUL_BYTE : Z := 0x0D.
Definition FINSH_OP_MUL_WORD : Z := 0x0E.
Definition FINSH_OP_MUL_DWORD : Z := 0x0F.
Definition FINSH_OP_AND_BYTE : Z := 0x10.
Definition FINSH_OP_AND_WORD : Z := 0x11.
Definition FINSH_OP_AND_DWORD : Z := 0x12.
Definition FINSH_OP_OR_BYTE : Z := 0x13.
Definition FINSH_OP_OR_WORD : Z := 0x14.
Definition FINSH_OP_OR_DWORD : Z := 0x15.
Definition FINSH_OP_XOR_BYTE : Z := 0x16.
Definition FINSH_OP_XOR_WORD : Z := 0x17.
Definition FINSH_OP_XOR_DWORD : Z := 0x18.
Definition FINSH_OP_BITWISE_BYTE : Z := 0x19.
Definition FINSH_OP_BITWISE_WORD : Z := 0x1A.
Definition FINSH_OP_BITWISE_DWORD : Z := 0x1B.
Definition FINSH_OP_SHL_BYTE : Z := 0x1C.
Definition FINSH_OP_SHL_WORD : Z := 0x1D.
Definition FINSH_OP_SHL_DWORD : Z := 0x1E.
Definition FINSH_OP_SHR_BYTE : Z := 0x1F.
Definition FINSH_OP_SHR_WORD : Z := 0x20.
Definition FINSH_OP_SHR_DWORD : Z := 0x21.
Definition FINSH_OP_LD_BYTE : Z := 0x22.
Definition FINSH_OP_LD_WORD : Z := 0x23.
Definition FINSH_OP_LD_DWORD : Z := 0x24.
Definition FINSH_OP_LD_VALUE_BYTE : Z := 0x25.
Definition FINSH_OP_LD_VALUE_WORD : Z := 0x26.
Definition FINSH_OP_LD_VALUE_DWORD : Z := 0x27.
Definition FINSH_OP_ST_BYTE : Z := 0x28.
Definition FINSH_OP_ST_WORD : Z := 0x29.
Definition FINSH_OP_ST_DWORD : Z := 0x2A.
Definition FINSH_OP_POP : Z := 0x2B.
Definition FINSH_OP_SYSCALL : Z := 0x2C.
Definition FINSH_OP_LD_VALUE_BYTE_STACK : Z := 0x2D.
Definition FINSH_OP_LD_VALUE_WORD_STACK : Z := 0x2E.
Definition FINSH_OP_LD_VALUE_DWORD_STACK : Z := 0x2F.

(** ** Nodes *)

Definition node (p : nat) : F finsh_node := s ← get; opt BadPointer (global_node_table s !! p).
Definition upd_node (p : nat) (f : finsh_node -> finsh_node) : F unit :=
  n ← node p; modify (fun s => set_global_node_table (<[p := f n]> (global_node_table s)) s).

(** ** Emitting code: a byte beyond the text segment is a write out of bounds. *)

Definition finsh_code_byte (x : Z) : F unit :=
  s ← get;
  if (0 <=? finsh_compile_pc s) && (finsh_compile_pc s <? FINSH_TEXT_MAX) then
    modify (fun s => set_text_segment (<[Z.to_nat (finsh_compile_pc s) := u8 x]> (text_segment s)) s);;
    modify (fun s => set_finsh_compile_pc (finsh_compile_pc s + 1) s)
  else throw BadPointer.
Definition finsh_code_word (x : Z) : F unit :=
  finsh_code_byte (Z.land x 0xff);; finsh_code_byte (Z.shiftr x 8).
Definition finsh_code_dword (x : Z) : F unit :=
  finsh_code_byte (Z.land (u32 x) 0xff);; finsh_code_byte (Z.land (Z.shiftr (u32 x) 8) 0xff);;
  finsh_code_byte (Z.land (Z.shiftr (u32 x) 16) 0xff);; finsh_code_byte (Z.shiftr (u32 x) 24).

Section compiler.
Context `{FinshEnv}.

(** The three cases of an identifier's type: [LD_VALUE_*] or, for an address, [LD_DWORD] *)
Definition compile_load (type : finsh_type) (idtype addr : Z) : F unit :=
  let load op :=
    finsh_code_byte (if negb (Z.land idtype FINSH_IDTYPE_ADDRESS =? 0) then FINSH_OP_LD_DWORD else op);;
    finsh_code_dword addr in
  match type with
  | finsh_type_char | finsh_type_uchar => load FINSH_OP_LD_VALUE_BYTE
  | finsh_type_short | finsh_type_ushort => load FINSH_OP_LD_VALUE_WORD
  | finsh_type_int | finsh_type_uint | finsh_type_long | finsh_type_ulong
  | finsh_type_charp | finsh_type_shortp | finsh_type_intp | finsh_type_longp => load FINSH_OP_LD_VALUE_DWORD
  | finsh_type_unknown | finsh_type_void | finsh_type_voidp => mret tt
  end.

Definition compile_id (n : finsh_node) : F unit :=
  if negb (Z.land (nd_idtype n) FINSH_IDTYPE_SYSCALL =? 0) then
    c ← syscall_at (nd_id n);
    finsh_code_byte FINSH_OP_LD_DWORD;; finsh_code_dword (sc_func c)
  else if negb (Z.land (nd_idtype n) FINSH_IDTYPE_SYSVAR =? 0) then
    if nd_id n =? RT_NULL then mret tt
    else v ← sysvar_at (nd_id n); compile_load (sv_type v) (nd_idtype n) (sv_var v)
  else
    if nd_id n =? RT_NULL then mret tt
    else v ← var_at (nd_id n); compile_load (var_type v) (nd_idtype n) (value_addr (nd_id n)).

(** An operation with a code for each data type *)
Definition compile_op (data_type byte word dword : Z) : F unit :=
  if data_type =? FINSH_DATA_TYPE_BYTE then finsh_code_byte byte
  else if data_type =? FINSH_DATA_TYPE_WORD then finsh_code_byte word
  else when (data_type =? FINSH_DATA_TYPE_DWORD) (finsh_code_byte dword).

(** [parameters]: the siblings of the function's node *)
Fixpoint count_siblings (fuel : nat) (p : option nat) (k : Z) : F Z :=
  match fuel, p with
  | O, _ => throw OutOfFuel
  | S _, None => mret k
  | S fuel', Some q => n ← node q; count_siblings fuel' (nd_sibling n) (k + 1)
  end.

(** Storing into the left side: the value is loaded again through its address. *)
Definition compile_store (data_type : Z) : F unit :=
  if data_type =? FINSH_DATA_TYPE_BYTE then
    finsh_code_byte FINSH_OP_ST_BYTE;; finsh_code_byte FINSH_OP_LD_VALUE_BYTE_STACK
  else if data_type =? FINSH_DATA_TYPE_WORD then
    finsh_code_byte FINSH_OP_ST_WORD;; finsh_code_byte FINSH_OP_LD_VALUE_WORD_STACK
  else if data_type =? FINSH_DATA_TYPE_DWORD then
    finsh_code_byte FINSH_OP_ST_DWORD;; finsh_code_byte FINSH_OP_LD_VALUE_DWORD_STACK
  else finsh_error_set FINSH_ERROR_UNKNOWN_TYPE.

Definition compile_assign (c : finsh_node) : F unit :=
  if nd_type c =? FINSH_NODE_ID then compile_store (nd_data c)
  else when (nd_type c =? FINSH_NODE_SYS_GETVALUE) (compile_store (Z.land (nd_data c) 0x0f)).

(** [ld_value &id; ld 1; add or sub; st] at the width of the data type; [add] is
    FINSH_OP_ADD_BYTE or FINSH_OP_SUB_BYTE, whose codes for the other widths follow it. *)
Definition compile_step (data_type addr op_byte op_word op_dword : Z) : F unit :=
  if data_type =? FINSH_DATA_TYPE_BYTE then
    finsh_code_byte FINSH_OP_LD_VALUE_BYTE;; finsh_code_dword addr;;
    finsh_code_byte FINSH_OP_LD_BYTE;; finsh_code_byte 1;;
    finsh_code_byte op_byte;; finsh_code_byte FINSH_OP_ST_BYTE
  else if data_type =? FINSH_DATA_TYPE_WORD then
    finsh_code_byte FINSH_OP_LD_VALUE_WORD;; finsh_code_dword addr;;
    finsh_code_byte FINSH_OP_LD_WORD;; finsh_code_word 1;;
    finsh_code_byte op_word;; finsh_code_byte FINSH_OP_ST_WORD
  else
    finsh_code_byte FINSH_OP_LD_VALUE_DWORD;; finsh_code_dword addr;;
    finsh_code_byte FINSH_OP_LD_DWORD;; finsh_code_dword 1;;
    finsh_code_byte op_dword;; finsh_code_byte FINSH_OP_ST_DWORD.

Definition known_data_type (d : Z) : bool :=
  (d =? FINSH_DATA_TYPE_BYTE) || (d =? FINSH_DATA_TYPE_WORD) || (d =? FINSH_DATA_TYPE_DWORD).

(** [++id], [--id]: the address is on the stack already. *)
Definition compile_pre (n c : finsh_node) (op_byte op_word op_dword : Z) : F unit :=
  when (nd_type c =? FINSH_NODE_ID) (
    when (known_data_type (nd_data n)) (
      compile_step (nd_data n) (value_addr (nd_id c)) op_byte op_word op_dword;;
      finsh_code_byte FINSH_OP_LD_VALUE_DWORD_STACK)).
(** [id++], [id--]: the old value is on the stack already. *)
Definition compile_post (n c : finsh_node) (op_byte op_word op_dword : Z) : F unit :=
  when (nd_type c =? FINSH_NODE_ID) (
    when (known_data_type (nd_data n)) (
      finsh_code_byte FINSH_OP_LD_DWORD;; finsh_code_dword (value_addr (nd_id c));;
      compile_step (nd_data n) (value_addr (nd_id c)) op_byte op_word op_dword;;
      finsh_code_byte FINSH_OP_POP)).

(** [if (finsh_node_child(node)) f(child)] *)
Definition with_child (n : finsh_node) (f : finsh_node -> F unit) : F unit :=
  match nd_child n with Some c => m ← node c; f m | None => mret tt end.

(** The switch on the kind of a node *)
Definition compile_node (n : finsh_node) : F unit :=
  let t := nd_type n in
  let d := nd_data n in
  if t =? FINSH_NODE_ID then compile_id n
  else if t =? FINSH_NODE_VALUE_CHAR then
    finsh_code_byte FINSH_OP_LD_BYTE;; finsh_code_byte (char_value (nd_value n))
  else if (t =? FINSH_NODE_VALUE_INT) || (t =? FINSH_NODE_VALUE_LONG) then
    finsh_code_byte FINSH_OP_LD_DWORD;; finsh_code_dword (nd_value n)
  else if (t =? FINSH_NODE_VALUE_NULL) || (t =? FINSH_NODE_VALUE_STRING) then
    finsh_code_byte FINSH_OP_LD_DWORD;; finsh_code_dword (nd_value n)
  else if t =? FINSH_NODE_SYS_ADD then compile_op d FINSH_OP_ADD_BYTE FINSH_OP_ADD_WORD FINSH_OP_ADD_DWORD
  else if t =? FINSH_NODE_SYS_SUB then compile_op d FINSH_OP_SUB_BYTE FINSH_OP_SUB_WORD FINSH_OP_SUB_DWORD
  else if t =? FINSH_NODE_SYS_MUL then compile_op d FINSH_OP_MUL_BYTE FINSH_OP_MUL_WORD FINSH_OP_MUL_DWORD
  else if t =? FINSH_NODE_SYS_DIV then compile_op d FINSH_OP_DIV_BYTE FINSH_OP_DIV_WORD FINSH_OP_DIV_DWORD
  else if t =? FINSH_NODE_SYS_MOD then compile_op d FINSH_OP_MOD_BYTE FINSH_OP_MOD_WORD FINSH_OP_MOD_DWORD
  else if t =? FINSH_NODE_SYS_AND then compile_op d FINSH_OP_AND_BYTE FINSH_OP_AND_WORD FINSH_OP_AND_DWORD
  else if t =? FINSH_NODE_SYS_OR then compile_op d FINSH_OP_OR_BYTE FINSH_OP_OR_WORD FINSH_OP_OR_DWORD
  else if t =? FINSH_NODE_SYS_XOR then compile_op d FINSH_OP_XOR_BYTE FINSH_OP_XOR_WORD FINSH_OP_XOR_DWORD
  else if t =? FINSH_NODE_SYS_BITWISE then
    compile_op d FINSH_OP_BITWISE_BYTE FINSH_OP_BITWISE_WORD FINSH_OP_BITWISE_DWORD
  else if t =? FINSH_NODE_SYS_SHL then compile_op d FINSH_OP_SHL_BYTE FINSH_OP_SHL_WORD FINSH_OP_SHL_DWORD
  else if t =? FINSH_NODE_SYS_SHR then compile_op d FINSH_OP_SHR_BYTE FINSH_OP_SHR_WORD FINSH_OP_SHR_DWORD
  else if t =? FINSH_NODE_SYS_FUNC then
    with_child n (fun c =>
      parameters ← count_siblings (S FINSH_NODE_MAX) (nd_sibling c) 0;
      finsh_code_byte FINSH_OP_SYSCALL;; finsh_code_byte parameters)
  else if t =? FINSH_NODE_SYS_ASSIGN then
    match nd_child n with Some c => m ← node c; compile_assign m | None => throw BadPointer end
  else if t =? FINSH_NODE_SYS_PREINC then
    with_child n (fun c => compile_pre n c FINSH_OP_ADD_BYTE FINSH_OP_ADD_WORD FINSH_OP_ADD_DWORD)
  else if t =? FINSH_NODE_SYS_PREDEC then
    with_child n (fun c => compile_pre n c FINSH_OP_SUB_BYTE FINSH_OP_SUB_WORD FINSH_OP_SUB_DWORD)
  else if t =? FINSH_NODE_SYS_INC then
    with_child n (fun c => compile_post n c FINSH_OP_ADD_BYTE FINSH_OP_ADD_WORD FINSH_OP_ADD_DWORD)
  else if t =? FINSH_NODE_SYS_DEC then
    with_child n (fun c => compile_post n c FINSH_OP_SUB_BYTE FINSH_OP_SUB_WORD FINSH_OP_SUB_DWORD)
  else if t =? FINSH_NODE_SYS_NULL then finsh_code_dword 0
  else if t =? FINSH_NODE_SYS_GETVALUE then
    when (Z.land (nd_idtype n) FINSH_IDTYPE_ADDRESS =? 0)
      (compile_op d FINSH_OP_LD_VALUE_BYTE_STACK FINSH_OP_LD_VALUE_WORD_STACK FINSH_OP_LD_VALUE_DWORD_STACK)
  else if t =? FINSH_NODE_SYS_GETADDR then mret tt
  else finsh_error_set FINSH_ERROR_UNKNOWN_NODE.

(** The child, the node, the sibling.  The fuel bounds the depth of the recursion. *)
Fixpoint finsh_compile (fuel : nat) (p : option nat) : F unit :=
  match fuel, p with
  | O, _ => throw OutOfFuel
  | S _, None => mret tt
  | S fuel', Some q =>
      n ← node q;
      when (bool_decide (is_Some (nd_child n))) (finsh_compile fuel' (nd_child n));;
      n ← node q;
      compile_node n;;
      n ← node q;
      when (bool_decide (is_Some (nd_sibling n))) (finsh_compile fuel' (nd_sibling n))
  end.

(** The data type of an identifier *)
Definition type_data (type : finsh_type) : option Z :=
  match type with
  | finsh_type_void => Some FINSH_DATA_TYPE_VOID
  | finsh_type_char | finsh_type_uchar => Some FINSH_DATA_TYPE_BYTE
  | finsh_type_short | finsh_type_ushort => Some FINSH_DATA_TYPE_WORD
  | finsh_type_int | finsh_type_uint | finsh_type_long | finsh_type_ulong => Some FINSH_DATA_TYPE_DWORD
  | finsh_type_charp | finsh_type_voidp | finsh_type_shortp | finsh_type_intp | finsh_type_longp =>
      Some FINSH_DATA_TYPE_DWORD
  | finsh_type_unknown => None
  end.
Definition set_data_type (p : nat) (type : finsh_type) : F unit :=
  match type_data type with
  | Some d => upd_node p (set_nd_data d)
  | None => finsh_error_set FINSH_ERROR_UNKNOWN_TYPE
  end.

(** The data type of a node without children *)
Definition type_leaf (p : nat) (n : finsh_node) : F unit :=
  if nd_type n =? FINSH_NODE_ID then
    if negb (Z.land (nd_idtype n) FINSH_IDTYPE_VAR =? 0) then
      when (negb (nd_id n =? RT_NULL)) (v ← var_at (nd_id n); set_data_type p (var_type v))
    else when (negb (Z.land (nd_idtype n) FINSH_IDTYPE_SYSVAR =? 0))
      (when (negb (nd_id n =? RT_NULL)) (v ← sysvar_at (nd_id n); set_data_type p (sv_type v)))
  else if nd_type n =? FINSH_NODE_VALUE_CHAR then upd_node p (set_nd_data FINSH_DATA_TYPE_BYTE)
  else when ((nd_type n =? FINSH_NODE_VALUE_INT) || (nd_type n =? FINSH_NODE_VALUE_LONG) ||
             (nd_type n =? FINSH_NODE_VALUE_STRING) || (nd_type n =? FINSH_NODE_VALUE_NULL))
    (upd_node p (set_nd_data FINSH_DATA_TYPE_DWORD)).

(** What is wanted of the child: its address or its value *)
Definition child_flag (type is_addr : Z) : Z :=
  if (type =? FINSH_NODE_SYS_ASSIGN) || (type =? FINSH_NODE_SYS_PREINC) ||
     (type =? FINSH_NODE_SYS_PREDEC) || (type =? FINSH_NODE_SYS_GETADDR) then FINSH_IDTYPE_ADDRESS
  else if (type =? FINSH_NODE_SYS_GETVALUE) && negb (is_addr =? 0) then 0
  else is_addr.

Fixpoint finsh_type_check (fuel : nat) (p : option nat) (is_addr : Z) : F unit :=
  match fuel, p with
  | O, _ => throw OutOfFuel
  | S _, None => mret tt
  | S fuel', Some q =>
      n ← node q;
      finsh_type_check fuel' (nd_child n) (child_flag (nd_type n) is_addr);;
      n ← node q;
      finsh_type_check fuel' (nd_sibling n) FINSH_NODE_VALUE;;
      n ← node q;
      when (negb (nd_idtype n =? FINSH_IDTYPE_SYSCALL)) (upd_node q (set_nd_idtype (Z.lor (nd_idtype n) is_addr)));;
      n ← node q;
      match nd_child n with
      | Some c => m ← node c; upd_node q (set_nd_data (nd_data m))
      | None => type_leaf q n
      end
  end.

(** A chain of nodes is at most as deep as the table is long. *)
Definition node_fuel : nat := S FINSH_NODE_MAX.

(** The loop over the statements *)
Fixpoint compile_statements (fuel : nat) (sibling : option nat) : F unit :=
  match fuel, sibling with
  | O, _ => throw OutOfFuel
  | S _, None => mret tt
  | S fuel', Some current_node =>
      n ← node current_node;
      let sibling := nd_sibling n in
      upd_node current_node (set_nd_sibling None);;
      finsh_compile node_fuel (Some current_node);;
      when (bool_decide (is_Some sibling)) (finsh_code_byte FINSH_OP_POP);;
      compile_statements fuel' sibling
  end.

(** [memset] clears the text segment and the first slot of the stack. *)
Definition finsh_compiler_run (p : option nat) : F Z :=
  finsh_type_check node_fuel p FINSH_NODE_VALUE;;
  modify (set_text_segment (replicate (Z.to_nat FINSH_TEXT_MAX) 0));;
  modify (fun s => set_finsh_vm_stack (<[0%nat := 0]> (finsh_vm_stack s)) s);;
  modify (set_finsh_compile_pc 0);;
  compile_statements node_fuel p;;
  mret 0.
End compiler.
