(* ===== verification/FinshVmCorrect.v ===== *)
(** * The shell's virtual machine: the program counter, and the effect of each operation *)
From stdpp Require Import base tactics numbers list gmap relations.
From S2P Require Import Prelude Memory Finsh FinshVm.
Local Open Scope Z_scope.

(** ** The program counter

    No operation moves it back, so 128 rounds are enough for any text segment that the
    program itself leaves alone. *)

(** Inversion of a computation that returns *)
Lemma bind_ok {S A B} (c : M S A) (k : A -> M S B) s b s' :
  (c ≫= k) s = Ok b s' -> exists a s1, c s = Ok a s1 /\ k a s1 = Ok b s'.
Proof. unfold mbind, M_bind. destruct (c s) as [a s1|]; [eauto|done]. Qed.
Lemma opt_ok {S A} f (o : option A) (s : S) a s' : opt f o s = Ok a s' -> o = Some a /\ s' = s.
Proof. destruct o; simpl; [|done]. by intros [= -> ->]. Qed.

(** [P] is what may be known of a fault: nothing, or that it is not OutOfFuel. *)
Class FaultOk (P : fault -> Prop) := fault_ok : forall f, f <> OutOfFuel -> P f.
#[export] Instance fault_any : FaultOk (fun _ => True).
Proof. by intros f Hf. Qed.
#[export] Instance fault_fuel : FaultOk (fun f => f <> OutOfFuel).
Proof. by intros f Hf. Qed.

Definition forward (P : fault -> Prop) {A} (c : F A) : Prop :=
  forall s, match c s with Ok _ s' => finsh_pc s <= finsh_pc s' | Fault f => P f end.

Create HintDb forward.

Section forward.
Context {P : fault -> Prop} `{!FaultOk P}.
Lemma forward_ret {A} (a : A) : forward P (mret a).
Proof. intros s. simpl. lia. Qed.
Lemma forward_bind {A B} (c : F A) (k : A -> F B) : forward P c -> (forall a, forward P (k a)) -> forward P (c ≫= k).
Proof.
  intros Hc Hk s. unfold mbind, M_bind. specialize (Hc s). destruct (c s) as [a s1|f]; [|done].
  specialize (Hk a s1). destruct (k a s1); [lia|done].
Qed.
Lemma forward_throw {A} f : f <> OutOfFuel -> forward P (throw f : F A).
Proof. intros ? s. by apply fault_ok. Qed.
Lemma forward_get : forward P (get : F finsh).
Proof. intros s. simpl. lia. Qed.
Lemma forward_modify f : (forall s, finsh_pc s <= finsh_pc (f s)) -> forward P (modify f).
Proof. intros Hf s. simpl. apply Hf. Qed.
Lemma forward_opt {A} f (o : option A) : f <> OutOfFuel -> forward P (opt f o : F A).
Proof. destruct o; intros ? s; simpl; [lia|by apply fault_ok]. Qed.
Lemma forward_on_mem {A} (c : M mem A) : (forall m f, c m = Fault f -> P f) -> forward P (on_mem c).
Proof. intros Hc s. unfold on_mem. specialize (Hc (f_mem s)). destruct (c (f_mem s)); simpl; [lia|by apply Hc]. Qed.
Lemma forward_access {A} (c : M mem A) : (forall m, c m <> Fault OutOfFuel) -> forward P (on_mem c).
Proof. intros Hc. apply forward_on_mem. intros m f E. apply fault_ok. intros ->. by apply (Hc m). Qed.
Lemma forward_if {A} (b : bool) (c d : F A) : forward P c -> forward P d -> forward P (if b then c else d).
Proof. by destruct b. Qed.
End forward.

#[export] Hint Resolve forward_ret forward_bind forward_get forward_if forward_opt : forward.
#[export] Hint Extern 2 (forward _ (throw _)) => apply forward_throw; discriminate : forward.
#[export] Hint Extern 2 (_ <> OutOfFuel) => discriminate : forward.
#[export] Hint Extern 2 (forward _ (modify _)) => apply forward_modify; intros; simpl; lia : forward.
#[export] Hint Extern 2 (forward _ (on_mem _)) => apply forward_access : forward.

Lemma rd8_fuel p m : rd8 p m <> Fault OutOfFuel.
Proof. unfold rd8, mbind, M_bind, get, opt. by destruct (m !! p). Qed.
Lemma wr8_fuel p v m : wr8 p v m <> Fault OutOfFuel.
Proof. unfold wr8, mbind, M_bind, get, opt. by destruct (m !! p). Qed.
Lemma bind_fuel {A B} (c : M mem A) (k : A -> M mem B) m :
  c m <> Fault OutOfFuel -> (forall a m', k a m' <> Fault OutOfFuel) -> (c ≫= k) m <> Fault OutOfFuel.
Proof. intros Hc Hk. unfold mbind, M_bind. destruct (c m) as [a m'|f]; [apply Hk|congruence]. Qed.

Lemma access_fuel p v m :
  rd16 p m <> Fault OutOfFuel /\ rd32 p m <> Fault OutOfFuel /\ wr16 p v m <> Fault OutOfFuel /\ wr32 p v m <> Fault OutOfFuel.
Proof.
  unfold rd16, rd32, wr16, wr32.
  split_and!; repeat first [apply wr8_fuel | apply rd8_fuel | apply bind_fuel; [|intros] | done].
Qed.
#[export] Hint Resolve rd8_fuel wr8_fuel : forward.
#[export] Hint Extern 2 (rd16 _ _ <> _) => apply (access_fuel _ 0) : forward.
#[export] Hint Extern 2 (rd32 _ _ <> _) => apply (access_fuel _ 0) : forward.
#[export] Hint Extern 2 (wr16 _ _ _ <> _) => apply access_fuel : forward.
#[export] Hint Extern 2 (wr32 _ _ _ <> _) => apply access_fuel : forward.

Ltac forward := repeat (first [apply forward_bind; [|intros] | eauto 3 with forward]).

Lemma forward_slot P `{!FaultOk P} i : forward P (slot i).
Proof. unfold slot. forward. Qed.
Lemma forward_text P `{!FaultOk P} i : forward P (text i).
Proof. unfold text. forward. Qed.
#[export] Hint Resolve forward_slot forward_text : forward.
Lemma forward_upd_slot P `{!FaultOk P} i f : forward P (upd_slot i f).
Proof. unfold upd_slot. forward. Qed.
Lemma forward_sp P `{!FaultOk P} n : forward P (sp_add n).
Proof. unfold sp_add. forward. Qed.
Lemma forward_pc P `{!FaultOk P} n : 0 <= n -> forward P (pc_add n).
Proof. intros. apply forward_modify. intros. simpl. lia. Qed.
#[export] Hint Resolve forward_upd_slot forward_sp : forward.
#[export] Hint Extern 2 (forward _ (pc_add _)) => eapply forward_pc; [exact _|lia] : forward.
Lemma forward_get32 P `{!FaultOk P} i : forward P (FINSH_GET32 i).
Proof. unfold FINSH_GET32. forward. Qed.
Lemma forward_get16 P `{!FaultOk P} i : forward P (FINSH_GET16 i).
Proof. unfold FINSH_GET16. forward. Qed.
#[export] Hint Resolve forward_get32 forward_get16 : forward.

Section vm.
Context `{FinshEnv}.

Lemma forward_pop P `{!FaultOk P} n acc : forward P (pop_parameters n acc).
Proof. revert acc. induction n as [|n IH]; intros acc; simpl; forward. Qed.

Lemma forward_ops P `{!FaultOk P} :
  (forall f args m g, func_call f args m = Fault g -> P g) -> Forall (forward P) op_table.
Proof.
  intros Hf. unfold op_table. repeat apply Forall_cons_2; [..|apply Forall_nil_2];
    try (unfold OP_no_op, OP_add_byte, OP_add_word, OP_add_dword, OP_sub_byte, OP_sub_word, OP_sub_dword,
      OP_div_byte, OP_div_word, OP_div_dword, OP_mod_byte, OP_mod_word, OP_mod_dword, OP_mul_byte, OP_mul_word, OP_mul_dword,
      OP_and_byte, OP_and_word, OP_and_dword, OP_or_byte, OP_or_word, OP_or_dword, OP_xor_byte, OP_xor_word, OP_xor_dword,
      OP_shl_byte, OP_shl_word, OP_shl_dword, OP_shr_byte, OP_shr_word, OP_shr_dword,
      OP_BIN_BYTE, OP_BIN_WORD, OP_BIN_DWORD, c_add, c_sub, c_div, c_mod, c_mul, c_and, c_or, c_xor, c_shl, c_shr,
      OP_bw_byte, OP_bw_word, OP_bw_dword, OP_ld_byte, OP_ld_word, OP_ld_dword, OP_ld_value_byte, OP_ld_value_word,
      OP_ld_value_dword, OP_ld_value_byte_stack, OP_ld_value_word_stack, OP_ld_value_dword_stack,
      OP_st_byte, OP_st_word, OP_st_dword, OP_pop; forward; fail).
  unfold OP_call. forward. apply forward_if; [forward|]. apply forward_bind; [by apply forward_pop|]. intros.
  forward. apply forward_on_mem. intros m g. apply Hf.
Qed.

Lemma vm_step_forward P `{!FaultOk P} :
  (forall f args m g, func_call f args m = Fault g -> P g) ->
  forall s, match vm_step s with Ok _ s' => finsh_pc s < finsh_pc s' | Fault f => P f end.
Proof.
  intros Hf s. assert (forall op : F unit, op ∈ op_table -> forward P op) as Hops by (apply Forall_forall; by apply forward_ops).
  unfold vm_step, mbind, M_bind, get, pc_add, modify, opt.
  pose proof (forward_text P (finsh_pc s) s) as Ht. destruct (text (finsh_pc s) s) as [op s1|f] eqn:E; [|done].
  destruct (op_table !! Z.to_nat op) as [g|] eqn:Eo; simpl; [|by apply fault_ok].
  apply list_elem_of_lookup_2, Hops in Eo. specialize (Eo (set_finsh_pc (finsh_pc s1 + 1) s1)).
  destruct (g _); [simpl in Eo; lia|done].
Qed.

Definition vm_running (s : finsh) : bool := (0 <=? finsh_pc s) && (finsh_pc s <? FINSH_TEXT_MAX).
Definition vm_loop (fuel : nat) : F unit :=
  while fuel (fun _ => s ← get; mret (vm_running s)) (fun _ => vm_step) tt.

End vm.

(** ** One round at a time *)

Section steps.
Context `{FinshEnv}.

(** A state that differs from [s] in what the machine changes *)
Definition vmst (s : finsh) (m : mem) (st : list Z) (sp pc : nat) : finsh :=
  set_f_mem m (set_finsh_vm_stack st (set_finsh_sp (Z.of_nat sp) (set_finsh_pc (Z.of_nat pc) s))).

Definition vm_steps : relation finsh := rtc (fun s s' => vm_running s = true /\ vm_step s = Ok tt s').

(** The bytes [c] are in the text [T] at [pc]. *)
Definition code_at (T : list Z) (pc : nat) (c : list Z) : Prop := forall i b, c !! i = Some b -> T !! (pc + i)%nat = Some b.

Lemma code_at_app T pc c1 c2 : code_at T pc (c1 ++ c2) <-> code_at T pc c1 /\ code_at T (pc + length c1) c2.
Proof.
  split.
  - intros Hc. split; intros i b Hi.
    + apply Hc. by apply lookup_app_l_Some.
    + replace (pc + length c1 + i)%nat with (pc + (length c1 + i))%nat by lia. apply Hc.
      rewrite lookup_app_r by lia. by replace (length c1 + i - length c1)%nat with i by lia.
  - intros [H1 H2] i b [Hi|[Hl Hi]]%lookup_app_Some; [by apply H1|].
    replace (pc + i)%nat with (pc + length c1 + (i - length c1))%nat by lia. by apply H2.
Qed.
Lemma code_at_cons T pc b c : code_at T pc (b :: c) <-> T !! pc = Some b /\ code_at T (S pc) c.
Proof.
  change (b :: c) with ([b] ++ c). rewrite code_at_app. simpl. replace (pc + 1)%nat with (S pc) by lia.
  split; intros [H1 H2]; (split; [|done]).
  - specialize (H1 0%nat b eq_refl). by rewrite Nat.add_0_r in H1.
  - intros [|i] x; simpl; [|done]. intros [= <-]. by rewrite Nat.add_0_r.
Qed.

(** The access functions on such a state *)
Context (s : finsh).
Let T := text_segment s.

Section wp.
Context (m : mem) (st : list Z) (sp pc : nat).
Abbreviation V := (vmst s m st sp pc).

Lemma wp_text q b (Q : Z -> finsh -> Prop) : T !! q = Some b -> Q b V -> wp (text (Z.of_nat q)) Q V.
Proof.
  intros Hq HQ. unfold text. wp_step. apply wp_get. rewrite (proj2 (Z.ltb_ge _ _)) by lia.
  apply wp_opt with b; [by rewrite Nat2Z.id|done].
Qed.
Lemma wp_slot i w (Q : Z -> finsh -> Prop) : st !! i = Some w -> Q w V -> wp (slot (Z.of_nat i)) Q V.
Proof.
  intros Hq HQ. unfold slot. wp_step. apply wp_get. rewrite (proj2 (Z.ltb_ge _ _)) by lia.
  apply wp_opt with w; [by rewrite Nat2Z.id|done].
Qed.
Lemma wp_upd_slot i w f (Q : unit -> finsh -> Prop) :
  st !! i = Some w -> Q tt (vmst s m (<[i := f w]> st) sp pc) -> wp (upd_slot (Z.of_nat i) f) Q V.
Proof. intros Hi HQ. unfold upd_slot. wp_step. apply wp_slot with w; [done|]. apply wp_modify. by rewrite Nat2Z.id. Qed.
Lemma wp_sp_add n sp' (Q : unit -> finsh -> Prop) :
  Z.of_nat sp + n = Z.of_nat sp' -> Q tt (vmst s m st sp' pc) -> wp (sp_add n) Q V.
Proof. intros E HQ. apply wp_modify. unfold vmst in *. simpl. by rewrite E. Qed.
Lemma wp_pc_add n pc' (Q : unit -> finsh -> Prop) :
  Z.of_nat pc + n = Z.of_nat pc' -> Q tt (vmst s m st sp pc') -> wp (pc_add n) Q V.
Proof. intros E HQ. apply wp_modify. unfold vmst in *. simpl. by rewrite E. Qed.
Lemma wp_on_mem {A} (c : M mem A) a m' (Q : A -> finsh -> Prop) :
  c m = Ok a m' -> Q a (vmst s m' st sp pc) -> wp (on_mem c) Q V.
Proof. intros E HQ. unfold wp, on_mem. simpl. by rewrite E. Qed.

(** Words in the text, least significant byte first *)
Definition le16 (v : Z) : list Z := [v mod 256; v / 256 mod 256].
Definition le32 (v : Z) : list Z := [v mod 256; v / 256 mod 256; v / 65536 mod 256; v / 16777216 mod 256].

Lemma lor_shift a b k : 0 <= k -> 0 <= a < 2 ^ k -> Z.lor a (Z.shiftl b k) = a + b * 2 ^ k.
Proof.
  intros Hk Ha. rewrite <- Z.add_nocarry_lor; [by rewrite Z.shiftl_mul_pow2|].
  apply Z.bits_inj'. intros n Hn. rewrite Z.land_spec, Z.bits_0. destruct (Z.lt_ge_cases n k).
  - by rewrite Z.shiftl_spec_low, andb_false_r.
  - by rewrite (testbit_high k a n).
Qed.

Lemma wp_get32 q v (Q : Z -> finsh -> Prop) : code_at T q (le32 v) -> Q (u32 v) V -> wp (FINSH_GET32 (Z.of_nat q)) Q V.
Proof.
  unfold le32. rewrite !code_at_cons. intros (H0 & H1 & H2 & H3 & _) HQ. unfold FINSH_GET32.
  wp_step. eapply wp_text; [exact H0|]. replace (Z.of_nat q + 1) with (Z.of_nat (S q)) by lia.
  wp_step. eapply wp_text; [exact H1|]. replace (Z.of_nat q + 2) with (Z.of_nat (S (S q))) by lia.
  wp_step. eapply wp_text; [exact H2|]. replace (Z.of_nat q + 3) with (Z.of_nat (S (S (S q)))) by lia.
  wp_step. eapply wp_text; [exact H3|]. wp_step.
  pose proof (Z.mod_pos_bound v 256 ltac:(lia)). pose proof (Z.mod_pos_bound (v / 256) 256 ltac:(lia)).
  pose proof (Z.mod_pos_bound (v / 65536) 256 ltac:(lia)).
  rewrite (lor_shift (v mod 256)) by lia. do 2 rewrite (lor_shift (_ + _)) by lia.
  match goal with |- Q ?x _ => replace x with (u32 v); [done|] end. unfold uwrap.
  change (2 ^ 32) with 4294967296. change (2 ^ 24) with 16777216. change (2 ^ 16) with 65536. change (2 ^ 8) with 256.
  Z.to_euclidean_division_equations; lia.
Qed.
Lemma wp_get16 q v (Q : Z -> finsh -> Prop) : code_at T q (le16 v) -> Q (u16 v) V -> wp (FINSH_GET16 (Z.of_nat q)) Q V.
Proof.
  unfold le16. rewrite !code_at_cons. intros (H0 & H1 & _) HQ. unfold FINSH_GET16.
  wp_step. eapply wp_text; [exact H0|]. replace (Z.of_nat q + 1) with (Z.of_nat (S q)) by lia.
  wp_step. eapply wp_text; [exact H1|]. wp_step. pose proof (Z.mod_pos_bound v 256 ltac:(lia)). rewrite lor_shift by lia.
  match goal with |- Q ?x _ => replace x with (u16 v); [done|] end. unfold uwrap.
  change (2 ^ 16) with 65536. change (2 ^ 8) with 256. Z.to_euclidean_division_equations; lia.
Qed.

(** Fetching an operation and running it *)
Lemma vm_fetch (op : Z) f s' :
  length T = 128%nat -> T !! pc = Some op -> op_table !! Z.to_nat op = Some f ->
  wp f (fun _ s1 => s1 = s') (vmst s m st sp (S pc)) -> vm_steps V s'.
Proof.
  intros Hl Ht Ho Hw. apply rtc_once. split.
  - unfold vm_running, FINSH_TEXT_MAX. simpl. apply lookup_lt_Some in Ht. lia.
  - assert (wp vm_step (fun _ s1 => s1 = s') V) as (? & s1 & E & ->)%wp_ok; [|by destruct x].
    unfold vm_step. wp_step. apply wp_get. change (finsh_pc V) with (Z.of_nat pc).
    wp_step. apply wp_text with op; [done|]. wp_step. apply wp_pc_add with (S pc); [lia|].
    wp_step. by apply wp_opt with f.
Qed.
End wp.
End steps.
