(* ===== verification/FinshExpr.v ===== *)
(** * Shell expressions: their meaning, their byte code, and that the machine computes it

    [expr] is the language of the syntax trees that are well typed: the operands of an
    operator have one data type, which the leftmost leaf of the operand gives.  [eval] is
    its meaning on memory, [code] the byte code the compiler emits. *)
From stdpp Require Import base tactics numbers list gmap relations.
From S2P Require Import Prelude Memory Finsh FinshVm FinshCompiler FinshVmCorrect.
Local Open Scope Z_scope.

(** ** Data types *)

Inductive width := Byte | Word | Dword.
#[export] Instance width_eq_dec : EqDecision width.
Proof. solve_decision. Defined.

Definition data_code (d : width) : Z :=
  match d with Byte => FINSH_DATA_TYPE_BYTE | Word => FINSH_DATA_TYPE_WORD | Dword => FINSH_DATA_TYPE_DWORD end.

(** The value of a word at a data type, and storing one *)
Definition getw (d : width) : Z -> Z := match d with Byte => char_value | Word => short_value | Dword => long_value end.
Definition setw (d : width) : Z -> Z -> Z :=
  match d with Byte => set_char_value | Word => set_short_value | Dword => set_long_value end.
Definition rdw (d : width) : Z -> M mem Z := match d with Byte => rd8 | Word => rd16 | Dword => rd32 end.
Definition wrw (d : width) : Z -> Z -> M mem unit := match d with Byte => wr8 | Word => wr16 | Dword => wr32 end.

Lemma swrap_mod w x : 0 < w -> swrap w x mod 2 ^ w = x mod 2 ^ w.
Proof.
  intros. unfold swrap. case_match; [apply Zmod_mod|]. rewrite <- (Z.mod_add _ 1) by lia.
  replace (x mod 2 ^ w - 2 ^ w + 1 * 2 ^ w) with (x mod 2 ^ w) by lia. apply Zmod_mod.
Qed.
Lemma swrap_eq w x y : x mod 2 ^ w = y mod 2 ^ w -> swrap w x = swrap w y.
Proof. unfold swrap. by intros ->. Qed.

Lemma getw_setw d v w : getw d (setw d v w) = getw d v.
Proof.
  destruct d; simpl.
  - unfold char_value, set_char_value, uwrap. by rewrite Z.add_comm, Z.mod_add, Zmod_mod by lia.
  - unfold short_value, set_short_value, uwrap. apply swrap_eq. by rewrite Z.add_comm, Z.mod_add, Zmod_mod by lia.
  - unfold long_value, set_long_value, uwrap. apply swrap_eq. apply Zmod_mod.
Qed.
Lemma getw_idemp d v : getw d (getw d v) = getw d v.
Proof.
  destruct d; simpl; [apply Zmod_mod| |]; apply swrap_eq; by apply swrap_mod.
Qed.
Lemma u32_long w : u32 (long_value w) = u32 w.
Proof. by apply swrap_mod. Qed.
Lemma getw_u32 d v : getw d (u32 v) = getw d v.
Proof.
  destruct d; simpl.
  - unfold char_value, uwrap. change (2 ^ 32) with (2 ^ 8 * 2 ^ 24). rewrite Z.rem_mul_r by lia.
    rewrite (Z.mul_comm (2 ^ 8)), Z.mod_add by lia. apply Zmod_mod.
  - apply swrap_eq. unfold uwrap. change (2 ^ 32) with (2 ^ 16 * 2 ^ 16). rewrite Z.rem_mul_r by lia.
    rewrite (Z.mul_comm (2 ^ 16)), Z.mod_add by lia. apply Zmod_mod.
  - apply swrap_eq. apply Zmod_mod.
Qed.

(** ** Operators *)

Inductive binop := Add | Sub | Mul | Div | Mod | And | Or | Xor | Shl | Shr.

Definition bin_node (op : binop) : Z :=
  match op with
  | Add => FINSH_NODE_SYS_ADD | Sub => FINSH_NODE_SYS_SUB | Mul => FINSH_NODE_SYS_MUL | Div => FINSH_NODE_SYS_DIV
  | Mod => FINSH_NODE_SYS_MOD | And => FINSH_NODE_SYS_AND | Or => FINSH_NODE_SYS_OR | Xor => FINSH_NODE_SYS_XOR
  | Shl => FINSH_NODE_SYS_SHL | Shr => FINSH_NODE_SYS_SHR
  end.
(** The code of the operation at [Byte]; those at [Word] and [Dword] follow it. *)
Definition bin_code (op : binop) (d : width) : Z :=
  match op with
  | Add => FINSH_OP_ADD_BYTE | Sub => FINSH_OP_SUB_BYTE | Mul => FINSH_OP_MUL_BYTE | Div => FINSH_OP_DIV_BYTE
  | Mod => FINSH_OP_MOD_BYTE | And => FINSH_OP_AND_BYTE | Or => FINSH_OP_OR_BYTE | Xor => FINSH_OP_XOR_BYTE
  | Shl => FINSH_OP_SHL_BYTE | Shr => FINSH_OP_SHR_BYTE
  end + (data_code d - 1).
(** The result of a C operator; [None]: undefined *)
Definition bin_val (op : binop) (a b : Z) : option Z :=
  match op with
  | Add => Some (a + b) | Sub => Some (a - b) | Mul => Some (a * b)
  | Div => if b =? 0 then None else Some (Z.quot a b)
  | Mod => if b =? 0 then None else Some (Z.rem a b)
  | And => Some (Z.land a b) | Or => Some (Z.lor a b) | Xor => Some (Z.lxor a b)
  | Shl => if (0 <=? b) && (b <? 32) then Some (Z.shiftl a b) else None
  | Shr => if (0 <=? b) && (b <? 32) then Some (Z.shiftr a b) else None
  end.
Definition bin_op (op : binop) : Z -> Z -> F Z :=
  match op with
  | Add => c_add | Sub => c_sub | Mul => c_mul | Div => c_div | Mod => c_mod
  | And => c_and | Or => c_or | Xor => c_xor | Shl => c_shl | Shr => c_shr
  end.

Lemma getw_s32 d v : getw d (s32 v) = getw d v.
Proof. rewrite <- (getw_u32 d v), <- (getw_u32 d (s32 v)). f_equal. by apply swrap_mod. Qed.

Lemma bin_op_val op a b r s :
  bin_val op a b = Some r -> exists r', bin_op op a b s = Ok r' s /\ forall d, getw d r' = getw d r.
Proof.
  destruct op; simpl; unfold c_add, c_sub, c_mul, c_div, c_mod, c_and, c_or, c_xor, c_shl, c_shr;
    try case_match; intros [= <-]; eexists; (split; [reflexivity|]); intros d; try reflexivity; apply getw_s32.
Qed.

(** ** Expressions *)

(** A variable is the address of its value and its data type; a function its address. *)
Inductive expr :=
| EChar (v : Z)
| ELong (v : Z)
| EVar (a : Z) (d : width)
| EAddr (a : Z) (d : width)
| EBin (op : binop) (e1 e2 : expr)
| ENot (e : expr)
| EDeref (e : expr)
| EAssign (a : Z) (d : width) (e : expr)
| EStore (e1 e2 : expr)
| EPre (op : binop) (a : Z) (d : width)
| EPost (op : binop) (a : Z) (d : width)
| ECall (f : Z) (args : exprs)
with exprs := ENil | ECons (e : expr) (es : exprs).

Scheme expr_mut := Induction for expr Sort Prop
with exprs_mut := Induction for exprs Sort Prop.
Combined Scheme expr_exprs_ind from expr_mut, exprs_mut.

(** The data type of the value *)
Fixpoint vtype (e : expr) : width :=
  match e with
  | EChar _ => Byte
  | EVar _ d | EAssign _ d _ | EPre _ _ d | EPost _ _ d => d
  | EBin _ e1 _ => vtype e1
  | ENot e1 => vtype e1
  | ELong _ | EAddr _ _ | EDeref _ | EStore _ _ | ECall _ _ => Dword
  end.

(** The data type finsh_type_check gives the node: that of its first child.  A call has
    none, and the address of a variable has the type of the variable. *)
Fixpoint dtype (e : expr) : option width :=
  match e with
  | EChar _ => Some Byte
  | ELong _ => Some Dword
  | EVar _ d | EAddr _ d | EAssign _ d _ | EPre _ _ d | EPost _ _ d => Some d
  | EBin _ e1 _ | ENot e1 | EDeref e1 | EStore e1 _ => dtype e1
  | ECall _ _ => None
  end.

Fixpoint exprs_len (es : exprs) : nat := match es with ENil => O | ECons _ es' => S (exprs_len es') end.

(** Well typed expressions *)
Definition operand (e : expr) (d : width) : Prop := dtype e = Some d /\ vtype e = d.
Definition is_addr (a : Z) : Prop := 0 <= a < 2 ^ 32.
Fixpoint wt (e : expr) : Prop :=
  match e with
  | EChar v => 0 <= v < 2 ^ 8
  | ELong v => - 2 ^ 31 <= v < 2 ^ 31
  | EVar a _ | EAddr a _ => is_addr a
  | EPre op a _ | EPost op a _ => is_addr a /\ (op = Add \/ op = Sub)
  | EBin _ e1 e2 => wt e1 /\ wt e2 /\ operand e1 (vtype e1) /\ vtype e2 = vtype e1
  | ENot e1 => wt e1 /\ operand e1 (vtype e1)
  | EDeref e1 => wt e1 /\ operand e1 Dword
  | EAssign a d e1 => is_addr a /\ wt e1 /\ vtype e1 = d
  | EStore e1 e2 => wt e1 /\ wt e2 /\ operand e1 Dword /\ vtype e2 = Dword
  | ECall f args => is_addr f /\ wts args /\ (exprs_len args <= 16)%nat
  end
with wts (es : exprs) : Prop :=
  match es with ENil => True | ECons e es' => wt e /\ vtype e = Dword /\ wts es' end.

(** ** Meaning *)

Section eval.
Context `{FinshEnv}.

(** [x += 1] or [x -= 1] at the data type of the variable *)
Definition eval_step (op : binop) (a : Z) (d : width) : M mem unit :=
  v ← rdw d a; r ← opt Undefined (bin_val op (getw d v) 1); wrw d a (getw d r).

Fixpoint eval (e : expr) : M mem Z :=
  match e with
  | EChar v => mret v
  | ELong v => mret v
  | EVar a d => v ← rdw d a; mret (getw d v)
  | EAddr a _ => mret (s32 a)
  | EBin op e1 e2 =>
      v1 ← eval e1; v2 ← eval e2; r ← opt Undefined (bin_val op v1 v2); mret (getw (vtype e1) r)
  | ENot e1 => v ← eval e1; mret (getw (vtype e1) (Z.lnot v))
  | EDeref e1 => a ← eval e1; v ← rd32 (u32 a); mret (s32 v)
  | EAssign a d e1 => v ← eval e1; wrw d a v;; r ← rdw d a; mret (getw d r)
  | EStore e1 e2 => a ← eval e1; v ← eval e2; wr32 (u32 a) v;; r ← rd32 (u32 a); mret (s32 r)
  | EPre op a d => eval_step op a d;; r ← rd32 a; mret (getw d r)
  | EPost op a d => v ← rdw d a; eval_step op a d;; mret (getw d v)
  | ECall f args => vs ← evals args; r ← func_call f (match vs with [] => [0] | _ => vs end); mret (s32 r)
  end
with evals (es : exprs) : M mem (list Z) :=
  match es with
  | ENil => mret []
  | ECons e es' => v ← eval e; vs ← evals es'; mret (u32 v :: vs)
  end.
End eval.

(** ** Byte code *)

Definition load_code (d : width) : Z := FINSH_OP_LD_VALUE_BYTE + (data_code d - 1).
Definition store_code (d : width) : Z := FINSH_OP_ST_BYTE + (data_code d - 1).
Definition stack_code (d : width) : Z := FINSH_OP_LD_VALUE_BYTE_STACK + (data_code d - 1).
Definition not_code (d : width) : Z := FINSH_OP_BITWISE_BYTE + (data_code d - 1).
Definition const_code (d : width) (v : Z) : list Z :=
  match d with
  | Byte => [FINSH_OP_LD_BYTE; v mod 256]
  | Word => FINSH_OP_LD_WORD :: le16 v
  | Dword => FINSH_OP_LD_DWORD :: le32 v
  end.
Definition step_code (op : binop) (a : Z) (d : width) : list Z :=
  (load_code d :: le32 a) ++ const_code d 1 ++ [bin_code op d; store_code d].

Fixpoint code (e : expr) : list Z :=
  match e with
  | EChar v => const_code Byte v
  | ELong v => const_code Dword v
  | EVar a d => load_code d :: le32 a
  | EAddr a _ => const_code Dword a
  | EBin op e1 e2 => code e1 ++ code e2 ++ [bin_code op (vtype e1)]
  | ENot e1 => code e1 ++ [not_code (vtype e1)]
  | EDeref e1 => code e1 ++ [stack_code Dword]
  | EAssign a d e1 => const_code Dword a ++ code e1 ++ [store_code d; stack_code d]
  | EStore e1 e2 => code e1 ++ code e2 ++ [store_code Dword; stack_code Dword]
  | EPre op a d => const_code Dword a ++ step_code op a d ++ [stack_code Dword]
  | EPost op a d => (load_code d :: le32 a) ++ const_code Dword a ++ step_code op a d ++ [FINSH_OP_POP]
  | ECall f args => const_code Dword f ++ codes args ++ [FINSH_OP_SYSCALL; Z.of_nat (exprs_len args)]
  end
with codes (es : exprs) : list Z :=
  match es with ENil => [] | ECons e es' => code e ++ codes es' end.

(** ** Execution *)

(** [st'] is [st] with a value of data type [d] and value [v] pushed at [sp]; what was
    above [sp] may change. *)
Definition pushed (st : list Z) (sp : nat) (d : width) (v : Z) (st' : list Z) : Prop :=
  length st' = length st /\ (forall i, (i < sp)%nat -> st' !! i = st !! i) /\
  exists w, st' !! sp = Some w /\ getw d w = v.

Lemma pushed_insert st sp d v w : st !! sp = Some w -> pushed st sp d (getw d v) (<[sp := setw d v w]> st).
Proof.
  intros Hw. split_and!; [apply length_insert|intros i Hi; apply list_lookup_insert_ne; lia|].
  exists (setw d v w). split; [|apply getw_setw]. apply list_lookup_insert_eq. by eapply lookup_lt_Some.
Qed.
(** A second value on top keeps the first. *)
Lemma pushed_under st sp d v st1 d' v' st2 :
  pushed st sp d v st1 -> pushed st1 (S sp) d' v' st2 -> pushed st sp d v st2.
Proof.
  intros (L1 & K1 & w & W1 & G1) (L2 & K2 & _). split_and!; [congruence|intros i Hi; rewrite K2 by lia; by apply K1|].
  exists w. split; [|done]. rewrite K2 by lia. done.
Qed.
(** The value at [sp] is replaced. *)
Lemma pushed_again st sp d v st1 d' v' st2 :
  pushed st sp d v st1 -> pushed st1 sp d' v' st2 -> pushed st sp d' v' st2.
Proof.
  intros (L1 & K1 & _) (L2 & K2 & W2). split_and!; [congruence|intros i Hi; rewrite K2 by lia; by apply K1|done].
Qed.
Lemma pushed_slot st sp d v st1 : pushed st sp d v st1 -> exists w, st1 !! sp = Some w /\ getw d w = v.
Proof. by intros (_ & _ & W). Qed.

Lemma rdw_mem d a m v m' : rdw d a m = Ok v m' -> m' = m.
Proof.
  destruct d; simpl; unfold rd32, rd16, rd8, mbind, M_bind, get, opt; repeat (case_match; simplify_eq/=; try done);
    unfold mret, M_ret in *; simplify_eq/=; congruence.
Qed.

Section exec.
Context `{FinshEnv} (s : finsh).
Let T := text_segment s.
Context (HT : length T = 128%nat).
Abbreviation V m st sp pc := (vmst s m st sp pc).

(** Loading a constant, a variable *)
Lemma exec_const m st sp pc d v :
  code_at T pc (const_code d v) -> (sp < length st)%nat ->
  exists st', vm_steps (V m st sp pc) (V m st' (S sp) (pc + length (const_code d v))) /\ pushed st sp d (getw d v) st'.
Proof using HT.
  intros Hc Hsp. apply lookup_lt_is_Some in Hsp as [w Hw].
  assert (exists u, getw d u = getw d v /\ vm_steps (V m st sp pc) (V m (<[sp := setw d u w]> st) (S sp) (pc + length (const_code d v))))
    as (u & <- & Hs); [|by eexists; split; [exact Hs|apply pushed_insert]].
  destruct d; unfold const_code in Hc |- *; apply code_at_cons in Hc as [H0 Hc].
  - apply code_at_cons in Hc as [H1 _]. exists (v mod 256). split; [apply (getw_idemp Byte)|].
    eapply vm_fetch; [done|exact H0|reflexivity|]. unfold OP_ld_byte. wp_step. apply wp_get. wp_step. eapply (wp_text s); [exact H1|].
    wp_step. eapply wp_upd_slot; [exact Hw|]. wp_step. eapply wp_sp_add with (S sp); [lia|]. eapply wp_pc_add; [|done]. simpl. lia.
  - exists (u16 v). split; [apply swrap_eq, Zmod_mod|].
    eapply vm_fetch; [done|exact H0|reflexivity|]. unfold OP_ld_word. wp_step. apply wp_get. wp_step. eapply (wp_get16 s); [exact Hc|].
    wp_step. eapply wp_upd_slot; [exact Hw|]. wp_step. eapply wp_sp_add with (S sp); [lia|]. eapply wp_pc_add; [|done]. simpl. lia.
  - exists (u32 v). split; [apply getw_u32|].
    eapply vm_fetch; [done|exact H0|reflexivity|]. unfold OP_ld_dword. wp_step. apply wp_get. wp_step. eapply (wp_get32 s); [exact Hc|].
    wp_step. eapply wp_upd_slot; [exact Hw|]. wp_step. eapply wp_sp_add with (S sp); [lia|]. eapply wp_pc_add; [|done]. simpl. lia.
Qed.

Lemma exec_load m st sp pc d a v :
  code_at T pc (load_code d :: le32 a) -> is_addr a -> (sp < length st)%nat -> rdw d a m = Ok v m ->
  exists st', vm_steps (V m st sp pc) (V m st' (S sp) (pc + 5)) /\ pushed st sp d (getw d v) st'.
Proof using HT.
  intros [H0 Hc]%code_at_cons Ha Hsp Hr. apply lookup_lt_is_Some in Hsp as [w Hw].
  eexists. split; [|by apply pushed_insert].
  rewrite <- (uwrap_small 32 a) in Hr by done.
  destruct d; (eapply vm_fetch; [done|exact H0|reflexivity|]); unfold OP_ld_value_byte, OP_ld_value_word, OP_ld_value_dword;
    wp_step; apply wp_get; wp_step; (eapply (wp_get32 s); [exact Hc|]); wp_step; (eapply wp_on_mem; [exact Hr|]);
    wp_step; (eapply wp_upd_slot; [exact Hw|]); wp_step; (eapply wp_sp_add with (S sp); [lia|]); (eapply wp_pc_add; [|done]); simpl; lia.
Qed.

(** An operation of the table at a data type *)
Definition at_width {A} (d : width) (b w l : A) : A := match d with Byte => b | Word => w | Dword => l end.

Lemma exec_bin m st sp pc d op v1 v2 r w1 w2 :
  T !! pc = Some (bin_code op d) -> st !! sp = Some w1 -> getw d w1 = v1 -> st !! S sp = Some w2 -> getw d w2 = v2 ->
  bin_val op v1 v2 = Some r ->
  exists st', vm_steps (V m st (S (S sp)) pc) (V m st' (S sp) (S pc)) /\ pushed st sp d (getw d r) st'.
Proof using HT.
  intros H0 W1 <- W2 <- Hr.
  destruct (bin_op_val op _ _ r (V m st (S (S sp)) (S pc)) Hr) as (r' & Ho & Hg). rewrite <- Hg.
  eexists. split; [|by apply pushed_insert].
  eapply (vm_fetch s) with (f := at_width d (OP_BIN_BYTE (bin_op op)) (OP_BIN_WORD (bin_op op)) (OP_BIN_DWORD (bin_op op)));
    [done|exact H0|by destruct op, d|].
  destruct d; simpl at_width; unfold OP_BIN_BYTE, OP_BIN_WORD, OP_BIN_DWORD; wp_step; apply wp_get;
    change (finsh_sp (vmst s m st (S (S sp)) (S pc))) with (Z.of_nat (S (S sp)));
    replace (Z.of_nat (S (S sp)) - 2) with (Z.of_nat sp) by lia; replace (Z.of_nat (S (S sp)) - 1) with (Z.of_nat (S sp)) by lia;
    wp_step; (eapply wp_slot; [exact W1|]); wp_step; (eapply wp_slot; [exact W2|]);
    wp_step; (eapply ok_wp; [exact Ho|]); wp_step; (eapply wp_upd_slot; [exact W1|]); (eapply wp_sp_add; [|done]); lia.
Qed.

Lemma exec_not m st sp pc d v w :
  T !! pc = Some (not_code d) -> st !! sp = Some w -> getw d w = v ->
  exists st', vm_steps (V m st (S sp) pc) (V m st' (S sp) (S pc)) /\ pushed st sp d (getw d (Z.lnot v)) st'.
Proof using HT.
  intros H0 W <-. eexists. split; [|by apply pushed_insert].
  eapply (vm_fetch s) with (f := at_width d OP_bw_byte OP_bw_word OP_bw_dword); [done|exact H0|by destruct d|].
  destruct d; simpl at_width; unfold OP_bw_byte, OP_bw_word, OP_bw_dword; wp_step; apply wp_get;
    change (finsh_sp (vmst s m st (S sp) (S pc))) with (Z.of_nat (S sp)); replace (Z.of_nat (S sp) - 1) with (Z.of_nat sp) by lia;
    by eapply wp_upd_slot.
Qed.

Lemma exec_stack m st sp pc d w v :
  T !! pc = Some (stack_code d) -> st !! sp = Some w -> rdw d (u32 w) m = Ok v m ->
  exists st', vm_steps (V m st (S sp) pc) (V m st' (S sp) (S pc)) /\ pushed st sp d (getw d v) st'.
Proof using HT.
  intros H0 W Hr. eexists. split; [|by apply pushed_insert].
  eapply (vm_fetch s) with (f := at_width d OP_ld_value_byte_stack OP_ld_value_word_stack OP_ld_value_dword_stack);
    [done|exact H0|by destruct d|].
  destruct d; simpl at_width; unfold OP_ld_value_byte_stack, OP_ld_value_word_stack, OP_ld_value_dword_stack; wp_step; apply wp_get;
    change (finsh_sp (vmst s m st (S sp) (S pc))) with (Z.of_nat (S sp)); replace (Z.of_nat (S sp) - 1) with (Z.of_nat sp) by lia;
    wp_step; (eapply wp_slot; [exact W|]); wp_step; (eapply wp_on_mem; [exact Hr|]); by eapply wp_upd_slot.
Qed.

Lemma exec_store m st sp pc d w1 w2 m' :
  T !! pc = Some (store_code d) -> st !! sp = Some w1 -> st !! S sp = Some w2 -> wrw d (u32 w1) (getw d w2) m = Ok tt m' ->
  vm_steps (V m st (S (S sp)) pc) (V m' st (S sp) (S pc)).
Proof using HT.
  intros H0 W1 W2 Hr.
  eapply (vm_fetch s) with (f := at_width d OP_st_byte OP_st_word OP_st_dword); [done|exact H0|by destruct d|].
  destruct d; simpl at_width; unfold OP_st_byte, OP_st_word, OP_st_dword; wp_step; apply wp_get;
    change (finsh_sp (vmst s m st (S (S sp)) (S pc))) with (Z.of_nat (S (S sp)));
    replace (Z.of_nat (S (S sp)) - 2) with (Z.of_nat sp) by lia; replace (Z.of_nat (S (S sp)) - 1) with (Z.of_nat (S sp)) by lia;
    wp_step; (eapply wp_slot; [exact W1|]); wp_step; (eapply wp_slot; [exact W2|]);
    wp_step; (eapply wp_on_mem; [exact Hr|]); (eapply wp_sp_add; [|done]); lia.
Qed.

Lemma exec_pop m st sp pc : T !! pc = Some FINSH_OP_POP -> vm_steps (V m st (S sp) pc) (V m st sp (S pc)).
Proof using HT.
  intros H0. eapply (vm_fetch s); [done|exact H0|reflexivity|]. unfold OP_pop. eapply wp_sp_add; [|done]. lia.
Qed.
Lemma exec_noop m st sp pc : T !! pc = Some 0 -> vm_steps (V m st sp pc) (V m st sp (S pc)).
Proof using HT. intros H0. eapply (vm_fetch s); [done|exact H0|reflexivity|]. unfold OP_no_op. by wp_step. Qed.

(** ** Calls *)

(** The words of the parameters [vs] lie on the stack from [q] on. *)
Definition args_at (st : list Z) (q : nat) (vs : list Z) : Prop :=
  forall i v, vs !! i = Some v -> exists w, st !! (q + i)%nat = Some w /\ u32 w = v.

Lemma wp_pop_parameters m st sp pc vs acc (Q : list Z -> finsh -> Prop) :
  args_at st (S sp) vs -> Q (vs ++ acc) (V m st sp pc) ->
  wp (pop_parameters (length vs) acc) Q (V m st (sp + length vs) pc).
Proof using Type.
  clear HT. revert acc. induction vs as [|v vs IH] using rev_ind; intros acc Ha HQ; simpl.
  - wp_step. by replace (sp + 0)%nat with sp by lia.
  - rewrite length_app. simpl. replace (length vs + 1)%nat with (S (length vs)) by lia. simpl. wp_step. apply wp_get.
    destruct (Ha (length vs) v) as (w & Hw & Hv); [by rewrite lookup_app_r, Nat.sub_diag|].
    change (finsh_sp (vmst s m st (sp + S (length vs)) pc)) with (Z.of_nat (sp + S (length vs))).
    wp_step. eapply wp_slot; [by replace (sp + S (length vs))%nat with (S sp + length vs)%nat by lia|].
    wp_step. eapply wp_sp_add with (sp + length vs)%nat; [lia|]. rewrite Hv. apply IH.
    + intros i x Hi. apply Ha. by apply lookup_app_l_Some.
    + by rewrite <- app_assoc in HQ.
Qed.

Lemma exec_call m st sp pc wf vs r m' :
  T !! pc = Some FINSH_OP_SYSCALL -> T !! S pc = Some (Z.of_nat (length vs)) -> (length vs <= 16)%nat ->
  st !! sp = Some wf -> args_at st (S sp) vs ->
  func_call (u32 wf) (match vs with [] => [0] | _ => vs end) m = Ok r m' ->
  exists st', vm_steps (V m st (S sp + length vs) pc) (V m' st' (S sp) (S (S pc))) /\ pushed st sp Dword (s32 r) st'.
Proof using HT.
  intros H0 H1 Hn W Ha Hf. exists (<[sp := setw Dword r wf]> st). split; [|by apply (pushed_insert _ _ Dword)].
  eapply (vm_fetch s); [done|exact H0|reflexivity|]. unfold OP_call. wp_step. apply wp_get.
  wp_step. eapply (wp_text s); [exact H1|]. wp_step. eapply wp_pc_add with (S (S pc)); [lia|].
  wp_step. eapply wp_sp_add with (sp + length vs)%nat; [lia|]. rewrite (proj2 (Z.ltb_ge _ _)) by lia. rewrite Nat2Z.id.
  wp_step. apply wp_pop_parameters; [done|]. rewrite app_nil_r. wp_step. apply wp_get.
  change (finsh_sp (vmst s m st sp (S (S pc)))) with (Z.of_nat sp).
  wp_step. eapply wp_slot; [exact W|]. wp_step. eapply wp_on_mem.
  { destruct vs as [|v vs']; [exact Hf|]. rewrite (proj2 (Z.eqb_neq _ _)); [exact Hf|simpl; lia]. }
  wp_step. eapply wp_upd_slot; [exact W|]. eapply wp_sp_add; [|done]. lia.
Qed.
End exec.

(** ** The machine computes the meaning of an expression *)

(** Slots an expression needs: one for every two bytes of code suffices. *)
Fixpoint need (e : expr) : nat :=
  match e with
  | EChar _ | ELong _ | EVar _ _ | EAddr _ _ => 1
  | EBin _ e1 e2 | EStore e1 e2 => need e1 `max` S (need e2)
  | ENot e1 | EDeref e1 => need e1
  | EAssign _ _ e1 => S (need e1)
  | EPre _ _ _ => 3
  | EPost _ _ _ => 4
  | ECall _ args => S (needs args)
  end
with needs (es : exprs) : nat := match es with ENil => 0 | ECons e es' => need e `max` S (needs es') end.

Lemma need_code :
  (forall e, 1 <= need e /\ 2 * need e <= length (code e))%nat /\ (forall es, 2 * needs es <= length (codes es))%nat.
Proof.
  apply expr_exprs_ind; simpl; intros; unfold step_code; rewrite ?length_app; simpl; try lia; destruct d; simpl; lia.
Qed.

Section exec_expr.
Context `{FinshEnv} (s : finsh).
Let T := text_segment s.
Context (HT : length T = 128%nat).
Abbreviation V m st sp pc := (vmst s m st sp pc).

(** The code of [e] at [pc] runs to its end and leaves the value. *)
Definition executes (e : expr) : Prop :=
  forall m st sp pc v m', wt e -> code_at T pc (code e) -> (sp + need e <= length st)%nat -> eval e m = Ok v m' ->
  exists st', vm_steps (V m st sp pc) (V m' st' (S sp) (pc + length (code e))) /\ pushed st sp (vtype e) v st'.

Lemma exec_bin_expr op e1 e2 : executes e1 -> executes e2 -> executes (EBin op e1 e2).
Proof.
  intros IH1 IH2 m st sp pc v m' (Hw1 & Hw2 & _ & Ht) Hc Hn He. simpl in Hc, Hn. apply code_at_app in Hc as [C1 [C2 C3]%code_at_app].
  simpl in He. apply bind_ok in He as (v1 & m1 & E1 & (v2 & m2 & E2 & He)%bind_ok).
  apply bind_ok in He as (r & m3 & [Er ->]%opt_ok & [= <- <-]).
  destruct (IH1 m st sp pc v1 m1 Hw1 C1 ltac:(lia) E1) as (st1 & S1 & P1).
  pose proof P1 as (L1 & _ & w1 & W1 & G1).
  destruct (IH2 m1 st1 (S sp) _ v2 m2 Hw2 C2 ltac:(lia) E2) as (st2 & S2 & P2). rewrite Ht in P2.
  pose proof (pushed_under _ _ _ _ _ _ _ _ P1 P2) as P3. destruct (pushed_slot _ _ _ _ _ P3) as (w1' & W1' & G1').
  destruct (pushed_slot _ _ _ _ _ P2) as (w2 & W2 & G2).
  apply code_at_cons in C3 as [C3 _].
  destruct (exec_bin s HT m2 st2 sp _ (vtype e1) op v1 v2 r w1' w2 C3 W1' G1' W2 G2 Er) as (st3 & S3 & P4).
  exists st3. split; [|by eapply pushed_again].
  etransitivity; [exact S1|]. etransitivity; [exact S2|].
  simpl. rewrite !length_app. simpl. by replace (pc + (length (code e1) + (length (code e2) + 1)))%nat with (S (pc + length (code e1) + length (code e2))) by lia.
Qed.

Lemma exec_not_expr e : executes e -> executes (ENot e).
Proof.
  intros IH m st sp pc v m' (Hw & _) Hc Hn He. simpl in Hc, Hn, He. apply code_at_app in Hc as [C1 [C2 _]%code_at_cons].
  apply bind_ok in He as (v1 & m1 & E1 & [= <- <-]).
  destruct (IH m st sp pc v1 m1 Hw C1 Hn E1) as (st1 & S1 & P1). destruct (pushed_slot _ _ _ _ _ P1) as (w1 & W1 & G1).
  destruct (exec_not s HT m1 st1 sp _ (vtype e) v1 w1 C2 W1 G1) as (st2 & S2 & P2).
  exists st2. split; [|by eapply pushed_again]. etransitivity; [exact S1|]. simpl. rewrite length_app. simpl.
  by replace (pc + (length (code e) + 1))%nat with (S (pc + length (code e))) by lia.
Qed.

Lemma exec_deref_expr e : executes e -> executes (EDeref e).
Proof.
  intros IH m st sp pc v m' (Hw & _ & Ht) Hc Hn He. simpl in Hc, Hn, He. apply code_at_app in Hc as [C1 [C2 _]%code_at_cons].
  apply bind_ok in He as (a & m1 & E1 & (r & m2 & E2 & [= <- <-])%bind_ok).
  destruct (IH m st sp pc a m1 Hw C1 Hn E1) as (st1 & S1 & P1). destruct (pushed_slot _ _ _ _ _ P1) as (w1 & W1 & G1).
  rewrite Ht in G1. simpl in G1. rewrite <- G1, u32_long in E2. pose proof (rdw_mem Dword _ _ _ _ E2) as ->.
  destruct (exec_stack s HT m1 st1 sp _ Dword w1 r C2 W1 E2) as (st2 & S2 & P2).
  exists st2. split; [|by eapply pushed_again]. etransitivity; [exact S1|]. simpl. rewrite length_app. simpl.
  by replace (pc + (length (code e) + 1))%nat with (S (pc + length (code e))) by lia.
Qed.

(** [ST; LD_VALUE_STACK] with the address at [sp] and the value above it *)
Lemma exec_store_load m st sp pc d wa wv m1 r m2 :
  code_at T pc [store_code d; stack_code d] -> st !! sp = Some wa -> st !! S sp = Some wv ->
  wrw d (u32 wa) (getw d wv) m = Ok tt m1 -> rdw d (u32 wa) m1 = Ok r m2 ->
  exists st', vm_steps (V m st (S (S sp)) pc) (V m2 st' (S sp) (S (S pc))) /\ pushed st sp d (getw d r) st'.
Proof.
  intros [C1 [C2 _]%code_at_cons]%code_at_cons Wa Wv Ew Er. pose proof (rdw_mem _ _ _ _ _ Er) as ->.
  pose proof (exec_store s HT m st sp pc d wa wv m1 C1 Wa Wv Ew) as S1.
  destruct (exec_stack s HT m1 st sp _ d wa r C2 Wa Er) as (st2 & S2 & P2). exists st2. split; [|done].
  etransitivity; [exact S1|exact S2].
Qed.

Lemma exec_assign_expr a d e : executes e -> executes (EAssign a d e).
Proof.
  intros IH m st sp pc v m' (Ha & Hw & Ht) Hc Hn He. cbn [code need] in Hc, Hn. simpl in He.
  apply code_at_app in Hc as [C0 [C1 C2]%code_at_app].
  apply bind_ok in He as (x & m1 & E1 & ([] & m2 & E2 & (r & m3 & E3 & [= <- <-])%bind_ok)%bind_ok).
  destruct (exec_const s HT m st sp pc Dword a C0 ltac:(lia)) as (st0 & S0 & P0).
  pose proof P0 as (L0 & _). destruct (IH m st0 (S sp) _ x m1 Hw C1 ltac:(lia) E1) as (st1 & S1 & P1).
  pose proof (pushed_under _ _ _ _ _ _ _ _ P0 P1) as P2. destruct (pushed_slot _ _ _ _ _ P2) as (wa & Wa & Ga).
  destruct (pushed_slot _ _ _ _ _ P1) as (wv & Wv & Gv). rewrite Ht in Gv.
  assert (u32 wa = a) as Ea by (rewrite <- u32_long; simpl in Ga; rewrite Ga, u32_long; by apply uwrap_small).
  rewrite <- Ea, <- Gv in E2. rewrite <- Ea in E3.
  destruct (exec_store_load m1 st1 sp _ d wa wv m2 r m3 C2 Wa Wv E2 E3) as (st2 & S2 & P3).
  exists st2. split; [|by eapply pushed_again]. etransitivity; [exact S0|]. etransitivity; [exact S1|].
  cbn [code]. rewrite !length_app.
  by match goal with H : vm_steps _ ?x |- vm_steps _ ?y => replace y with x by (f_equal; simpl; lia) end.
Qed.

Lemma exec_store_expr e1 e2 : executes e1 -> executes e2 -> executes (EStore e1 e2).
Proof.
  intros IH1 IH2 m st sp pc v m' (Hw1 & Hw2 & [_ Ht1] & Ht2) Hc Hn He. cbn [code need] in Hc, Hn. simpl in He.
  apply code_at_app in Hc as [C0 [C1 C2]%code_at_app].
  apply bind_ok in He as (a & m1 & E1 & (x & m2 & E2 & ([] & m3 & E3 & (r & m4 & E4 & [= <- <-])%bind_ok)%bind_ok)%bind_ok).
  destruct (IH1 m st sp pc a m1 Hw1 C0 ltac:(lia) E1) as (st0 & S0 & P0). rewrite Ht1 in P0.
  pose proof P0 as (L0 & _). destruct (IH2 m1 st0 (S sp) _ x m2 Hw2 C1 ltac:(lia) E2) as (st1 & S1 & P1). rewrite Ht2 in P1.
  pose proof (pushed_under _ _ _ _ _ _ _ _ P0 P1) as P2. destruct (pushed_slot _ _ _ _ _ P2) as (wa & Wa & Ga).
  destruct (pushed_slot _ _ _ _ _ P1) as (wv & Wv & Gv). simpl in Ga, Gv.
  rewrite <- Ga, <- Gv, u32_long in E3. rewrite <- Ga, u32_long in E4.
  destruct (exec_store_load m2 st1 sp _ Dword wa wv m3 r m4 C2 Wa Wv E3 E4) as (st2 & S2 & P3).
  exists st2. split; [|by eapply pushed_again]. etransitivity; [exact S0|]. etransitivity; [exact S1|].
  cbn [code]. rewrite !length_app.
  by match goal with H : vm_steps _ ?x |- vm_steps _ ?y => replace y with x by (f_equal; simpl; lia) end.
Qed.

(** [x += 1] with the address of [x] at [sp]; the stack below is kept. *)
Lemma exec_step m st sp pc op a d wa m' :
  code_at T pc (step_code op a d) -> is_addr a -> st !! sp = Some wa -> u32 wa = a -> (sp + 3 <= length st)%nat ->
  eval_step op a d m = Ok tt m' ->
  exists st', vm_steps (V m st (S sp) pc) (V m' st' (S sp) (pc + length (step_code op a d))) /\
    length st' = length st /\ forall i, (i <= sp)%nat -> st' !! i = st !! i.
Proof.
  intros Hc Ha Wa Ea Hn He. unfold step_code in Hc. apply code_at_app in Hc as [C0 [C1 [C2 [C3 _]%code_at_cons]%code_at_cons]%code_at_app].
  unfold eval_step in He. apply bind_ok in He as (v & m1 & E1 & (r & m2 & [E2 ->]%opt_ok & E3)%bind_ok).
  pose proof (rdw_mem _ _ _ _ _ E1) as ->.
  destruct (exec_load s HT m st (S sp) pc d a v C0 Ha ltac:(lia) E1) as (st1 & S1 & P1). pose proof P1 as (L1 & K1 & w1 & W1 & G1).
  simpl length in C1. destruct (exec_const s HT m st1 (S (S sp)) _ d 1 C1 ltac:(lia)) as (st2 & S2 & P2).
  pose proof (pushed_under _ _ _ _ _ _ _ _ P1 P2) as P3. destruct (pushed_slot _ _ _ _ _ P3) as (w1' & W1' & G1').
  destruct (pushed_slot _ _ _ _ _ P2) as (w2 & W2 & G2). replace (getw d 1) with 1 in G2 by (by destruct d).
  destruct (exec_bin s HT m st2 (S sp) _ d op _ _ r w1' w2 C2 W1' G1' W2 G2 E2) as (st3 & S3 & P4).
  pose proof (pushed_again _ _ _ _ _ _ _ _ P3 P4) as (L5 & K5 & w5 & W5 & G5).
  assert (st3 !! sp = Some wa) as Wa3 by (rewrite K5 by lia; done).
  rewrite <- Ea, <- G5 in E3. pose proof (exec_store s HT m st3 sp _ d wa w5 m' C3 Wa3 W5 E3) as S4.
  exists st3. split; [|split; [done|intros j Hj; apply K5; lia]].
  etransitivity; [exact S1|]. etransitivity; [exact S2|]. etransitivity; [exact S3|]. unfold step_code. rewrite !length_app.
  by match goal with H : vm_steps _ ?x |- vm_steps _ ?y => replace y with x by (f_equal; simpl; lia) end.
Qed.

Lemma exec_pre_expr op a d : executes (EPre op a d).
Proof.
  intros m st sp pc v m' (Ha & Ho) Hc Hn He. cbn [code need] in Hc, Hn. simpl in He.
  apply code_at_app in Hc as [C0 [C1 [C2 _]%code_at_cons]%code_at_app].
  apply bind_ok in He as ([] & m1 & E1 & (r & m2 & E2 & [= <- <-])%bind_ok).
  destruct (exec_const s HT m st sp pc Dword a C0 ltac:(lia)) as (st0 & S0 & P0). pose proof P0 as (L0 & K0 & wa & Wa & Ga).
  assert (u32 wa = a) as Ea by (rewrite <- u32_long; simpl in Ga; rewrite Ga, u32_long; by apply uwrap_small).
  destruct (exec_step m st0 sp _ op a d wa m1 C1 Ha Wa Ea ltac:(lia) E1) as (st1 & S1 & L1 & K1).
  rewrite <- Ea in E2. pose proof (rdw_mem Dword _ _ _ _ E2) as ->.
  assert (st1 !! sp = Some wa) as Wa1 by (by rewrite K1).
  destruct (exec_stack s HT m1 st1 sp _ Dword wa r C2 Wa1 E2) as (st2 & S2 & L2 & K2 & w2 & W2 & G2).
  exists st2. split.
  - etransitivity; [exact S0|]. etransitivity; [exact S1|]. cbn [code]. rewrite !length_app.
    by match goal with H : vm_steps _ ?x |- vm_steps _ ?y => replace y with x by (f_equal; simpl; lia) end.
  - split_and!; [congruence|intros i Hi; rewrite K2, K1, K0 by lia; done|]. exists w2. split; [done|]. simpl in G2 |- *.
    assert (s32 w2 = s32 r) as G by exact G2. rewrite <- (getw_s32 d w2), G. apply getw_s32.
Qed.

Lemma exec_post_expr op a d : executes (EPost op a d).
Proof.
  intros m st sp pc v m' (Ha & Ho) Hc Hn He. cbn [code need] in Hc, Hn. simpl in He.
  apply code_at_app in Hc as [C0 [C1 [C2 [C3 _]%code_at_cons]%code_at_app]%code_at_app].
  apply bind_ok in He as (x & m1 & E1 & ([] & m2 & E2 & [= <- <-])%bind_ok). pose proof (rdw_mem _ _ _ _ _ E1) as ->.
  destruct (exec_load s HT m st sp pc d a x C0 Ha ltac:(lia) E1) as (st0 & S0 & P0). pose proof P0 as (L0 & _).
  destruct (exec_const s HT m st0 (S sp) _ Dword a C1 ltac:(lia)) as (st1 & S1 & P1). pose proof P1 as (L1 & K1 & wa & Wa & Ga).
  assert (u32 wa = a) as Ea by (rewrite <- u32_long; simpl in Ga; rewrite Ga, u32_long; by apply uwrap_small).
  destruct (exec_step m st1 (S sp) _ op a d wa m2 C2 Ha Wa Ea ltac:(lia) E2) as (st2 & S2 & L2 & K2).
  pose proof (exec_pop s HT m2 st2 (S sp) _ C3) as S3. exists st2. split.
  - etransitivity; [exact S0|]. etransitivity; [exact S1|]. etransitivity; [exact S2|]. cbn [code]. rewrite !length_app.
    by match goal with H : vm_steps _ ?x |- vm_steps _ ?y => replace y with x by (f_equal; simpl; lia) end.
  - destruct P0 as (_ & K0 & w & W & G). split_and!; [congruence|intros i Hi; rewrite K2, K1, K0 by lia; done|].
    exists w. split; [|done]. rewrite K2, K1 by lia. done.
Qed.

Definition executes_args (es : exprs) : Prop :=
  forall m st sp pc vs m', wts es -> code_at T pc (codes es) -> (sp + needs es <= length st)%nat -> evals es m = Ok vs m' ->
  exists st', vm_steps (V m st sp pc) (V m' st' (sp + length vs) (pc + length (codes es))) /\
    length st' = length st /\ (forall i, (i < sp)%nat -> st' !! i = st !! i) /\ args_at st' sp vs /\ length vs = exprs_len es.

Lemma exec_cons e es : executes e -> executes_args es -> executes_args (ECons e es).
Proof.
  intros IH1 IH2 m st sp pc vs m' (Hw1 & Ht & Hw2) Hc Hn He. simpl in Hc, Hn, He. apply code_at_app in Hc as [C1 C2].
  apply bind_ok in He as (v & m1 & E1 & (us & m2 & E2 & [= <- <-])%bind_ok).
  destruct (IH1 m st sp pc v m1 Hw1 C1 ltac:(lia) E1) as (st1 & S1 & L1 & K1 & w & W & G). rewrite Ht in G. simpl in G.
  destruct (IH2 m1 st1 (S sp) _ us m2 Hw2 C2 ltac:(lia) E2) as (st2 & S2 & L2 & K2 & A2 & N2).
  exists st2. split_and!; [|congruence|intros i Hi; rewrite K2, K1 by lia; done| |simpl; lia].
  - etransitivity; [exact S1|]. simpl. rewrite length_app.
    by match goal with H : vm_steps _ ?x |- vm_steps _ ?y => replace y with x by (f_equal; simpl; lia) end.
  - intros [|i] x Hi; simpl in Hi.
    + injection Hi as <-. exists w. rewrite Nat.add_0_r, K2 by lia. split; [done|]. by rewrite <- G, u32_long.
    + destruct (A2 i x Hi) as (w' & W' & G'). exists w'. by replace (sp + S i)%nat with (S sp + i)%nat by lia.
Qed.

Lemma exec_call_expr f es : executes_args es -> executes (ECall f es).
Proof.
  intros IH m st sp pc v m' (Hf & Hw & Hl) Hc Hn He. cbn [code need] in Hc, Hn. simpl in He.
  apply code_at_app in Hc as [C0 [C1 [C2 [C3 _]%code_at_cons]%code_at_cons]%code_at_app].
  apply bind_ok in He as (vs & m1 & E1 & (r & m2 & E2 & [= <- <-])%bind_ok).
  destruct (exec_const s HT m st sp pc Dword f C0 ltac:(lia)) as (st0 & S0 & P0). pose proof P0 as (L0 & K0 & wf & Wf & Gf).
  destruct (IH m st0 (S sp) _ vs m1 Hw C1 ltac:(lia) E1) as (st1 & S1 & L1 & K1 & A1 & N1).
  assert (u32 wf = f) as Ef by (rewrite <- u32_long; simpl in Gf; rewrite Gf, u32_long; by apply uwrap_small).
  assert (st1 !! sp = Some wf) as Wf1 by (rewrite K1 by lia; done). rewrite <- Ef in E2. rewrite <- N1 in C3, Hl.
  destruct (exec_call s HT m1 st1 sp _ wf vs r m2 C2 C3 Hl Wf1 A1 E2) as (st2 & S2 & L2 & K2 & P2).
  exists st2. split.
  - etransitivity; [exact S0|]. etransitivity; [exact S1|]. cbn [code]. rewrite !length_app.
    by match goal with H : vm_steps _ ?x |- vm_steps _ ?y => replace y with x by (f_equal; simpl; lia) end.
  - split_and!; [congruence|intros i Hi; rewrite K2, K1, K0 by lia; done|exact P2].
Qed.

Lemma exec_all : (forall e, executes e) /\ (forall es, executes_args es).
Proof.
  apply expr_exprs_ind; eauto using exec_bin_expr, exec_not_expr, exec_deref_expr, exec_assign_expr, exec_store_expr,
    exec_pre_expr, exec_post_expr, exec_call_expr, exec_cons.
  - intros x m st sp pc v m' Hw Hc Hn [= <- <-]. simpl in Hw.
    destruct (exec_const s HT m st sp pc Byte x Hc ltac:(simpl in Hn; lia)) as (st' & Hs & Hp). exists st'. split; [exact Hs|].
    simpl in Hp. unfold char_value in Hp. by rewrite Z.mod_small in Hp.
  - intros x m st sp pc v m' Hw Hc Hn [= <- <-]. simpl in Hw.
    destruct (exec_const s HT m st sp pc Dword x Hc ltac:(simpl in Hn; lia)) as (st' & Hs & Hp). exists st'. split; [exact Hs|].
    simpl in Hp. unfold long_value in Hp. by rewrite swrap_small in Hp.
  - intros a d m st sp pc v m' Hw Hc Hn He. simpl in He. apply bind_ok in He as (x & m1 & E1 & [= <- <-]).
    pose proof (rdw_mem _ _ _ _ _ E1) as ->.
    destruct (exec_load s HT m st sp pc d a x Hc Hw ltac:(simpl in Hn; lia) E1) as (st' & Hs & Hp). exists st'. by split.
  - intros a d m st sp pc v m' Hw Hc Hn [= <- <-].
    destruct (exec_const s HT m st sp pc Dword a Hc ltac:(simpl in Hn; lia)) as (st' & Hs & Hp). exists st'. by split.
  - intros m st sp pc vs m' _ Hc Hn [= <- <-]. exists st. split_and!; [|done..].
    simpl. rewrite !Nat.add_0_r. reflexivity.
Qed.

(** ** Programs: statements separated by semicolons *)

Fixpoint prog_code (e : expr) (es : list expr) : list Z :=
  match es with [] => code e | e' :: es' => code e ++ FINSH_OP_POP :: prog_code e' es' end.
Fixpoint prog_eval (e : expr) (es : list expr) : M mem Z :=
  match es with [] => eval e | e' :: es' => _ ← eval e; prog_eval e' es' end.
Fixpoint prog_type (e : expr) (es : list expr) : width := match es with [] => vtype e | e' :: es' => prog_type e' es' end.

Lemma exec_prog es : forall e m st pc v m',
  Forall wt (e :: es) -> code_at T pc (prog_code e es) -> (length (prog_code e es) <= 128)%nat -> length st = 64%nat ->
  prog_eval e es m = Ok v m' ->
  exists st' w, vm_steps (V m st 0 pc) (V m' st' 1 (pc + length (prog_code e es))) /\
    st' !! 0%nat = Some w /\ getw (prog_type e es) w = v.
Proof.
  induction es as [|e' es IH]; intros e m st pc v m' [Hw Hws]%Forall_cons Hc Hl Hst He; simpl in Hc, Hl, He.
  - destruct (proj1 need_code e). destruct (proj1 exec_all e m st 0%nat pc v m' Hw Hc ltac:(lia) He) as (st' & Hs & _ & _ & w & W & G).
    exists st', w. by split_and!.
  - apply code_at_app in Hc as [C1 [C2 C3]%code_at_cons]. rewrite length_app in Hl. simpl in Hl.
    apply bind_ok in He as (x & m1 & E1 & E2). destruct (proj1 need_code e).
    destruct (proj1 exec_all e m st 0%nat pc x m1 Hw C1 ltac:(lia) E1) as (st1 & S1 & L1 & _).
    pose proof (exec_pop s HT m1 st1 0%nat _ C2) as S2.
    destruct (IH e' m1 st1 _ v m' Hws C3 ltac:(lia) ltac:(lia) E2) as (st2 & w & S3 & W & G).
    exists st2, w. split_and!; [|done|done].
    etransitivity; [exact S1|]. etransitivity; [exact S2|]. simpl. rewrite length_app. simpl.
    by match goal with H : vm_steps _ ?x |- vm_steps _ ?y => replace y with x by (f_equal; simpl; lia) end.
Qed.

(** The rest of the text is filled with zeros, which do nothing. *)
Lemma exec_rest n m st sp pc : (forall i, (pc <= i < 128)%nat -> T !! i = Some 0) -> (pc + n <= 128)%nat -> vm_steps (V m st sp pc) (V m st sp (pc + n)).
Proof.
  revert pc. induction n as [|n IH]; intros pc Hz Hn; [rewrite Nat.add_0_r; reflexivity|].
  etransitivity; [apply exec_noop; [done|apply Hz; lia]|]. replace (pc + S n)%nat with (S pc + n)%nat by lia.
  apply IH; [intros i Hi; apply Hz; lia|lia].
Qed.

(** The loop follows the steps. *)
Lemma vm_loop_steps s1 s2 : vm_steps s1 s2 -> 0 <= finsh_pc s1 -> vm_running s2 = false -> finsh_pc s2 <= 128 ->
  forall fuel, 128 - finsh_pc s1 < Z.of_nat fuel -> vm_loop fuel s1 = Ok tt s2.
Proof using HT.
  intros Hs H0 Hend Hpc. induction Hs as [x|x y z [Hx Hxy] Hyz IH]; intros fuel Hf.
  - destruct fuel as [|fuel]; [lia|]. unfold vm_loop. simpl. unfold mbind at 1, M_bind at 1. simpl. by rewrite Hend.
  - destruct fuel as [|fuel]; [unfold vm_running, FINSH_TEXT_MAX in Hx; lia|].
    unfold vm_loop. simpl. unfold mbind at 1, M_bind at 1. simpl. rewrite Hx. unfold mbind, M_bind. rewrite Hxy. pose proof (vm_step_forward (fun _ => True) ltac:(done) x) as Hfw. rewrite Hxy in Hfw.
    apply IH; [lia|done|done|lia].
Qed.
End exec_expr.
