(* ===== verification/FinshTree.v ===== *)
(** * Syntax trees in the node table, type checking and compiling them

    The nodes of a tree are linked through [child] and [sibling].  A [forest] is such a
    structure as a term: the node with its index, the children and the siblings that
    follow.  finsh_type_check annotates a forest; finsh_compile emits its code. *)
From stdpp Require Import base tactics numbers list gmap relations.
From S2P Require Import Prelude Memory Finsh FinshVm FinshCompiler FinshVmCorrect FinshExpr.
Local Open Scope Z_scope.

Inductive forest := FNil | FCons (k : nat) (n : finsh_node) (c s : forest).

Definition froot (t : forest) : option nat := match t with FNil => None | FCons k _ _ _ => Some k end.
Fixpoint keys (t : forest) : list nat := match t with FNil => [] | FCons k _ c s => k :: keys c ++ keys s end.
Fixpoint height (t : forest) : nat := match t with FNil => O | FCons _ _ c s => S (height c `max` height s) end.

(** The forest is stored in the table. *)
Fixpoint rep (tbl : list finsh_node) (t : forest) : Prop :=
  match t with
  | FNil => True
  | FCons k n c s => tbl !! k = Some n /\ nd_child n = froot c /\ nd_sibling n = froot s /\ rep tbl c /\ rep tbl s
  end.

Lemma height_keys t : (height t <= length (keys t))%nat.
Proof. induction t as [|k n c IHc s IHs]; simpl; [lia|]. rewrite length_app. lia. Qed.
Lemma rep_keys tbl t : rep tbl t -> Forall (fun k => (k < length tbl)%nat) (keys t).
Proof.
  induction t as [|k n c IHc s IHs]; simpl; [constructor|]. intros (Hk & _ & _ & Hc & Hs).
  apply Forall_cons. split; [by eapply lookup_lt_Some|]. apply Forall_app. auto.
Qed.
(** A tree has at most as many nodes as the table. *)
Lemma rep_height tbl t : rep tbl t -> NoDup (keys t) -> (height t <= length tbl)%nat.
Proof.
  intros Hr Hn. etransitivity; [apply height_keys|]. rewrite <- (length_seq (length tbl) 0).
  apply submseteq_length, NoDup_submseteq; [done|]. intros k Hk. apply elem_of_seq.
  pose proof (rep_keys _ _ Hr) as Hf. rewrite Forall_forall in Hf. specialize (Hf k Hk). lia.
Qed.
Lemma rep_agree tbl tbl' t : rep tbl t -> (forall k, k ∈ keys t -> tbl' !! k = tbl !! k) -> rep tbl' t.
Proof.
  induction t as [|k n c IHc s IHs]; simpl; [done|]. intros (Hk & ? & ? & Hc & Hs) Ha.
  split_and!; [rewrite Ha by set_solver; done|done|done|apply IHc|apply IHs]; try done; intros x Hx; apply Ha; set_solver.
Qed.

Section tree.
Context `{FinshEnv} (s : finsh).
Abbreviation W tbl := (set_global_node_table tbl s).

(** ** Type checking *)

(** The data type of a node without children; [None] is an error. *)
Definition leaf_data (n : finsh_node) : option Z :=
  if nd_type n =? FINSH_NODE_ID then
    if negb (Z.land (nd_idtype n) FINSH_IDTYPE_VAR =? 0) then
      if nd_id n =? RT_NULL then Some (nd_data n)
      else v ← var_lookup (global_variable s) (nd_id n); type_data (var_type v)
    else if negb (Z.land (nd_idtype n) FINSH_IDTYPE_SYSVAR =? 0) then
      if nd_id n =? RT_NULL then Some (nd_data n)
      else v ← entry_lookup _sysvar_table (global_sysvar_list s) (nd_id n); type_data (sv_type v)
    else Some (nd_data n)
  else if nd_type n =? FINSH_NODE_VALUE_CHAR then Some FINSH_DATA_TYPE_BYTE
  else if (nd_type n =? FINSH_NODE_VALUE_INT) || (nd_type n =? FINSH_NODE_VALUE_LONG) ||
          (nd_type n =? FINSH_NODE_VALUE_STRING) || (nd_type n =? FINSH_NODE_VALUE_NULL) then Some FINSH_DATA_TYPE_DWORD
  else Some (nd_data n).

Definition flagged (a : Z) (n : finsh_node) : finsh_node :=
  if nd_idtype n =? FINSH_IDTYPE_SYSCALL then n else set_nd_idtype (Z.lor (nd_idtype n) a) n.

(** The forest after the check *)
Fixpoint annot (t : forest) (a : Z) : forest :=
  match t with
  | FNil => FNil
  | FCons k n c sb =>
      let c' := annot c (child_flag (nd_type n) a) in
      let n1 := flagged a n in
      FCons k (set_nd_data match c' with FCons _ m _ _ => nd_data m | FNil => default 0 (leaf_data n1) end n1) c' (annot sb 0)
  end.
(** No leaf has an unknown type. *)
Fixpoint leaves_ok (t : forest) (a : Z) : Prop :=
  match t with
  | FNil => True
  | FCons k n c sb =>
      match c with FNil => is_Some (leaf_data (flagged a n)) | FCons _ _ _ _ => leaves_ok c (child_flag (nd_type n) a) end /\
      leaves_ok sb 0
  end.

Lemma annot_keys t a : keys (annot t a) = keys t /\ froot (annot t a) = froot t.
Proof.
  revert a. induction t as [|k n c IHc sb IHs]; intros a; simpl; [done|].
  by rewrite (proj1 (IHc _)), (proj1 (IHs _)).
Qed.

Lemma wp_node tbl k n (Q : finsh_node -> finsh -> Prop) : tbl !! k = Some n -> Q n (W tbl) -> wp (node k) Q (W tbl).
Proof. intros Hk HQ. unfold node. wp_step. apply wp_get. by apply wp_opt with n. Qed.
Lemma wp_upd_node tbl k n f (Q : unit -> finsh -> Prop) :
  tbl !! k = Some n -> Q tt (W (<[k := f n]> tbl)) -> wp (upd_node k f) Q (W tbl).
Proof. intros Hk HQ. unfold upd_node. wp_step. apply wp_node with n; [done|]. by apply wp_modify. Qed.

Lemma wp_type_leaf tbl k n d (Q : unit -> finsh -> Prop) :
  tbl !! k = Some n -> leaf_data n = Some d -> Q tt (W (<[k := set_nd_data d n]> tbl)) -> wp (type_leaf k n) Q (W tbl).
Proof.
  intros Hk Hd HQ.
  assert (d = nd_data n -> Q tt (W tbl)) as Hsame.
  { intros ->. replace tbl with (<[k := set_nd_data (nd_data n) n]> tbl); [done|]. apply list_insert_id. rewrite Hk. by destruct n. }
  assert (forall ty, type_data ty = Some d -> wp (set_data_type k ty) Q (W tbl)) as Hset.
  { intros ty Ht. unfold set_data_type. rewrite Ht. by eapply wp_upd_node. }
  unfold type_leaf, leaf_data in *. destruct (nd_type n =? FINSH_NODE_ID).
  - destruct (negb (Z.land (nd_idtype n) FINSH_IDTYPE_VAR =? 0)).
    + destruct (nd_id n =? RT_NULL) eqn:E; simpl in *; [wp_step; apply Hsame; congruence|].
      apply bind_Some in Hd as (v & Hv & Ht). wp_step. unfold var_at. wp_step. apply wp_get. apply wp_opt with v; [done|]. by apply Hset.
    + destruct (negb (Z.land (nd_idtype n) FINSH_IDTYPE_SYSVAR =? 0)); simpl; [|wp_step; apply Hsame; congruence].
      destruct (nd_id n =? RT_NULL) eqn:E; simpl in *; [wp_step; apply Hsame; congruence|].
      apply bind_Some in Hd as (v & Hv & Ht). wp_step. unfold sysvar_at. wp_step. apply wp_get. apply wp_opt with v; [done|]. by apply Hset.
  - destruct (nd_type n =? FINSH_NODE_VALUE_CHAR); [injection Hd as <-; by eapply wp_upd_node|].
    destruct (_ || _); simpl; [injection Hd as <-; by eapply wp_upd_node|wp_step; apply Hsame; congruence].
Qed.

(** The attribute bits of the node itself *)
Lemma wp_flag tbl k n a (c : F unit) (Q : unit -> finsh -> Prop) :
  tbl !! k = Some n -> wp c Q (W (<[k := flagged a n]> tbl)) ->
  wp (when (negb (nd_idtype n =? FINSH_IDTYPE_SYSCALL)) (upd_node k (set_nd_idtype (Z.lor (nd_idtype n) a)));; c) Q (W tbl).
Proof.
  intros Hk Hw. unfold flagged in Hw. wp_step. destruct (nd_idtype n =? FINSH_IDTYPE_SYSCALL); simpl.
  - wp_step. by rewrite list_insert_id in Hw.
  - by eapply wp_upd_node.
Qed.

Lemma rep_insert tbl t k n : rep tbl t -> k ∉ keys t -> rep (<[k := n]> tbl) t.
Proof. intros Hr Hk. eapply rep_agree; [exact Hr|]. intros x Hx. apply list_lookup_insert_ne. set_solver. Qed.

Lemma wp_type_check t : forall a fuel tbl (Q : unit -> finsh -> Prop),
  (height t < fuel)%nat -> NoDup (keys t) -> rep tbl t -> leaves_ok t a ->
  (forall tbl', rep tbl' (annot t a) -> (forall k, k ∉ keys t -> tbl' !! k = tbl !! k) -> length tbl' = length tbl -> Q tt (W tbl')) ->
  wp (finsh_type_check fuel (froot t) a) Q (W tbl).
Proof.
  induction t as [|k n c IHc sb IHs]; intros a [|fuel] tbl Q Hh Hnd Hr Hok HQ; simpl in Hh; try lia.
  { simpl. wp_step. apply HQ; done. }
  destruct Hr as (Hk & Hch & Hsb & Hrc & Hrs). simpl in Hnd. apply NoDup_cons in Hnd as [Hnk Hnd].
  apply NoDup_app in Hnd as (Hndc & Hdis & Hnds). destruct Hok as [Hokc Hoks].
  assert (forall x, x ∈ keys c -> x <> k) as Hkc by set_solver. assert (forall x, x ∈ keys sb -> x <> k) as Hks by set_solver.
  simpl. wp_step. apply wp_node with n; [done|]. rewrite Hch. wp_step. apply IHc; [lia|done|done|by destruct c|].
  intros tbl1 R1 K1 L1. wp_step. apply wp_node with n; [rewrite K1 by set_solver; done|]. rewrite Hsb.
  wp_step. apply IHs; [lia|done| |done|].
  { eapply rep_agree; [exact Hrs|]. intros x Hx. apply K1. set_solver. }
  intros tbl2 R2 K2 L2. assert (tbl2 !! k = Some n) as Hk2 by (rewrite K2, K1 by set_solver; done).
  assert (rep tbl2 (annot c (child_flag (nd_type n) a))) as R1'.
  { eapply rep_agree; [exact R1|]. intros x Hx. apply K2. rewrite (proj1 (annot_keys _ _)) in Hx. set_solver. }
  wp_step. apply wp_node with n; [done|]. apply wp_flag; [done|].
  set (n1 := flagged a n). assert (nd_child n1 = froot c /\ nd_sibling n1 = froot sb) as [Hc1 Hs1]
    by (unfold n1, flagged; destruct (nd_idtype n =? FINSH_IDTYPE_SYSCALL); done).
  assert (forall d, rep (<[k := set_nd_data d n1]> tbl2) (FCons k (set_nd_data d n1) (annot c (child_flag (nd_type n) a)) (annot sb 0))) as Hfin.
  { intros d. simpl. rewrite list_lookup_insert_eq by (by eapply lookup_lt_Some). rewrite Hc1, Hs1, !(proj2 (annot_keys _ _)).
    split_and!; [done..| |]; apply rep_insert; try done; rewrite (proj1 (annot_keys _ _)); set_solver. }
  assert (forall d x, x ∉ k :: keys c ++ keys sb ->
    (<[k := set_nd_data d n1]> tbl2 : list finsh_node) !! x = tbl !! x) as Hout.
  { intros d x Hx. rewrite list_lookup_insert_ne, K2, K1 by set_solver. done. }
  assert (<[k := n1]> tbl2 !! k = Some n1) as Hn1 by (apply list_lookup_insert_eq; by eapply lookup_lt_Some).
  wp_step. apply wp_node with n1; [done|]. rewrite Hc1. destruct c as [|kc nc cc sc]; simpl.
  - destruct Hokc as [d Hd]. fold n1 in Hd. eapply wp_type_leaf; [exact Hn1|exact Hd|]. rewrite list_insert_insert_eq.
    replace d with (default 0 (leaf_data n1)) by (by rewrite Hd).
    apply HQ; [apply Hfin|intros x Hx; by apply Hout|rewrite length_insert; lia].
  - wp_step. eapply wp_node.
    { rewrite list_lookup_insert_ne by (intros ->; set_solver). destruct R1' as [R1' _]. exact R1'. }
    eapply wp_upd_node; [exact Hn1|]. rewrite list_insert_insert_eq.
    apply HQ; [apply Hfin|intros x Hx; by apply Hout|rewrite length_insert; lia].
Qed.

(** ** The trees of expressions

    [enc false e n c] says that the node [n] with the children [c] is the tree of [e] as
    the parser builds it; [enc true] that it is the tree after the type check. *)

(** The data type the compiler loads a variable with *)
Definition width_of (ty : finsh_type) : option width :=
  match ty with
  | finsh_type_char | finsh_type_uchar => Some Byte
  | finsh_type_short | finsh_type_ushort => Some Word
  | finsh_type_int | finsh_type_uint | finsh_type_long | finsh_type_ulong
  | finsh_type_charp | finsh_type_shortp | finsh_type_intp | finsh_type_longp => Some Dword
  | finsh_type_unknown | finsh_type_void | finsh_type_voidp => None
  end.

(** The node names a variable of the shell, or a system variable. *)
Definition shell_var (n : finsh_node) (ty : finsh_type) (a : Z) : Prop :=
  (exists v, var_lookup (global_variable s) (nd_id n) = Some v /\ var_type v = ty) /\ a = value_addr (nd_id n).
Definition system_var (n : finsh_node) (ty : finsh_type) (a : Z) : Prop :=
  exists v, entry_lookup _sysvar_table (global_sysvar_list s) (nd_id n) = Some v /\ sv_type v = ty /\ sv_var v = a.

Definition id_node (D : bool) (base flag : Z) (n : finsh_node) (d : width) : Prop :=
  nd_type n = FINSH_NODE_ID /\ nd_id n <> RT_NULL /\
  nd_idtype n = (if D then Z.lor base flag else base) /\ (D = true -> nd_data n = data_code d).
Definition my_var (D : bool) (flag : Z) (n : finsh_node) (a : Z) (d : width) : Prop :=
  id_node D FINSH_IDTYPE_VAR flag n d /\ exists ty, width_of ty = Some d /\ shell_var n ty a.
Definition is_var (D : bool) (flag : Z) (n : finsh_node) (a : Z) (d : width) : Prop :=
  my_var D flag n a d \/
  id_node D FINSH_IDTYPE_SYSVAR flag n d /\ exists ty, width_of ty = Some d /\ system_var n ty a.
Definition is_func (n : finsh_node) (f : Z) : Prop :=
  nd_type n = FINSH_NODE_ID /\ nd_idtype n = FINSH_IDTYPE_SYSCALL /\
  exists c, entry_lookup _syscall_table (global_syscall_list s) (nd_id n) = Some c /\ sc_func c = f.

Definition op_node (D : bool) (t flag : Z) (n : finsh_node) (od : option width) : Prop :=
  nd_type n = t /\ nd_idtype n = (if D then flag else 0) /\
  (D = true -> match od with Some d => nd_data n = data_code d | None => True end).

Definition pre_node (op : binop) : Z := match op with Sub => FINSH_NODE_SYS_PREDEC | _ => FINSH_NODE_SYS_PREINC end.
Definition post_node (op : binop) : Z := match op with Sub => FINSH_NODE_SYS_DEC | _ => FINSH_NODE_SYS_INC end.

Fixpoint enc (D : bool) (e : expr) (n : finsh_node) (c : forest) : Prop :=
  match e with
  | EChar v => op_node D FINSH_NODE_VALUE_CHAR 0 n (Some Byte) /\ char_value (nd_value n) = v /\ c = FNil
  | ELong v =>
      (op_node D FINSH_NODE_VALUE_INT 0 n (Some Dword) \/ op_node D FINSH_NODE_VALUE_LONG 0 n (Some Dword) \/
       op_node D FINSH_NODE_VALUE_NULL 0 n (Some Dword) \/ op_node D FINSH_NODE_VALUE_STRING 0 n (Some Dword)) /\
      long_value (nd_value n) = v /\ c = FNil
  | EVar a d => is_var D 0 n a d /\ c = FNil
  | EAddr a d =>
      op_node D FINSH_NODE_SYS_GETADDR 0 n (Some d) /\
      exists k1 n1, c = FCons k1 n1 FNil FNil /\ is_var D FINSH_IDTYPE_ADDRESS n1 a d
  | EBin op e1 e2 =>
      op_node D (bin_node op) 0 n (dtype e1) /\
      exists k1 n1 c1 k2 n2 c2, c = FCons k1 n1 c1 (FCons k2 n2 c2 FNil) /\ enc D e1 n1 c1 /\ enc D e2 n2 c2
  | ENot e1 =>
      op_node D FINSH_NODE_SYS_BITWISE 0 n (dtype e1) /\ exists k1 n1 c1, c = FCons k1 n1 c1 FNil /\ enc D e1 n1 c1
  | EDeref e1 =>
      op_node D FINSH_NODE_SYS_GETVALUE 0 n (dtype e1) /\ exists k1 n1 c1, c = FCons k1 n1 c1 FNil /\ enc D e1 n1 c1
  | EAssign a d e1 =>
      op_node D FINSH_NODE_SYS_ASSIGN 0 n (Some d) /\
      exists k1 n1 k2 n2 c2, c = FCons k1 n1 FNil (FCons k2 n2 c2 FNil) /\
        is_var D FINSH_IDTYPE_ADDRESS n1 a d /\ enc D e1 n2 c2
  | EStore e1 e2 =>
      op_node D FINSH_NODE_SYS_ASSIGN 0 n (dtype e1) /\
      exists k1 n1 k3 n3 c3 k2 n2 c2, c = FCons k1 n1 (FCons k3 n3 c3 FNil) (FCons k2 n2 c2 FNil) /\
        op_node D FINSH_NODE_SYS_GETVALUE FINSH_IDTYPE_ADDRESS n1 (dtype e1) /\ enc D e1 n3 c3 /\ enc D e2 n2 c2
  | EPre op a d =>
      op_node D (pre_node op) 0 n (Some d) /\
      exists k1 n1, c = FCons k1 n1 FNil FNil /\ my_var D FINSH_IDTYPE_ADDRESS n1 a d
  | EPost op a d =>
      op_node D (post_node op) 0 n (Some d) /\ exists k1 n1, c = FCons k1 n1 FNil FNil /\ my_var D 0 n1 a d
  | ECall f args =>
      op_node D FINSH_NODE_SYS_FUNC 0 n None /\
      exists k1 n1 cs, c = FCons k1 n1 FNil cs /\ is_func n1 f /\ encs D args cs
  end
with encs (D : bool) (es : exprs) (t : forest) : Prop :=
  match es with
  | ENil => t = FNil
  | ECons e es' => exists k n c t', t = FCons k n c t' /\ enc D e n c /\ encs D es' t'
  end.

Lemma enc_data e n c d : enc true e n c -> dtype e = Some d -> nd_data n = data_code d.
Proof.
  destruct e; simpl; intros He Hd; try (destruct He as [(_ & _ & Hn) _]; specialize (Hn eq_refl); rewrite ?Hd in Hn; congruence);
    try congruence.
  - injection Hd as <-. destruct He as [[(_ & _ & Hn)|[(_ & _ & Hn)|[(_ & _ & Hn)|(_ & _ & Hn)]]] _]; exact (Hn eq_refl).
  - injection Hd as <-. destruct He as [[((_ & _ & _ & Hn) & _)|((_ & _ & _ & Hn) & _)] _]; exact (Hn eq_refl).
Qed.

(** The head of a forest after the check *)
Definition annot_node (n : finsh_node) (c : forest) (a : Z) : finsh_node :=
  set_nd_data match annot c (child_flag (nd_type n) a) with FCons _ m _ _ => nd_data m | FNil => default 0 (leaf_data (flagged a n)) end
    (flagged a n).
Definition node_ok (n : finsh_node) (c : forest) (a : Z) : Prop :=
  match c with FNil => is_Some (leaf_data (flagged a n)) | FCons _ _ _ _ => leaves_ok c (child_flag (nd_type n) a) end.

Lemma flagged_type a n : nd_type (flagged a n) = nd_type n /\ nd_value (flagged a n) = nd_value n /\ nd_id (flagged a n) = nd_id n.
Proof. unfold flagged. by case_match. Qed.

Lemma width_data ty d : width_of ty = Some d -> type_data ty = Some (data_code d).
Proof. by destruct ty; intros [= <-]. Qed.

Lemma annot_id base flag n ty a d :
  base = FINSH_IDTYPE_VAR /\ shell_var n ty a \/ base = FINSH_IDTYPE_SYSVAR /\ system_var n ty a ->
  flag = 0 \/ flag = FINSH_IDTYPE_ADDRESS -> width_of ty = Some d -> id_node false base flag n d ->
  id_node true base flag (annot_node n FNil flag) d /\ node_ok n FNil flag.
Proof.
  intros Hv Hfl Hw (Ht & Hid & Hb & _). simpl in Hb.
  assert (leaf_data (flagged flag n) = Some (data_code d) /\ nd_idtype (flagged flag n) = Z.lor base flag) as [E1 E2].
  { unfold flagged, leaf_data. rewrite Hb. apply width_data in Hw.
    destruct Hv as [[-> [(v & Hl & Hty) _]]|[-> (v & Hl & Hty & _)]], Hfl as [-> | ->]; simpl;
      rewrite Ht, (proj2 (Z.eqb_neq _ _) Hid); simpl; rewrite Hl; simpl; by rewrite Hty, Hw. }
  split; [|by exists (data_code d)]. unfold annot_node. simpl annot. rewrite E1. simpl.
  destruct (flagged_type flag n) as (T1 & T2 & T3). split_and!; simpl; [by rewrite T1|by rewrite T3|done|done].
Qed.

Lemma annot_my_var flag n a d :
  flag = 0 \/ flag = FINSH_IDTYPE_ADDRESS -> my_var false flag n a d ->
  my_var true flag (annot_node n FNil flag) a d /\ node_ok n FNil flag.
Proof.
  intros Hfl (Hn & ty & Hw & Hv). destruct (annot_id FINSH_IDTYPE_VAR flag n ty a d) as [H1 H2]; [auto..|].
  split; [|done]. split; [done|]. exists ty. split; [done|]. unfold shell_var, annot_node. simpl.
  by destruct (flagged_type flag n) as (_ & _ & ->).
Qed.

Lemma annot_var flag n a d :
  flag = 0 \/ flag = FINSH_IDTYPE_ADDRESS -> is_var false flag n a d ->
  is_var true flag (annot_node n FNil flag) a d /\ node_ok n FNil flag.
Proof.
  intros Hfl [Hm|(Hn & ty & Hw & Hv)]; [destruct (annot_my_var flag n a d Hfl Hm); split; [by left|done]|].
  destruct (annot_id FINSH_IDTYPE_SYSVAR flag n ty a d) as [H1 H2]; [auto..|].
  split; [|done]. right. split; [done|]. exists ty. split; [done|]. unfold system_var, annot_node. simpl.
  by destruct (flagged_type flag n) as (_ & _ & ->).
Qed.

Lemma annot_func n f : is_func n f -> is_func (annot_node n FNil 0) f /\ node_ok n FNil 0.
Proof.
  intros (Ht & Hi & Hc). assert (flagged 0 n = n) as E by (unfold flagged; by rewrite Hi).
  assert (leaf_data n = Some (nd_data n)) as El by (unfold leaf_data; by rewrite Ht, Hi).
  unfold node_ok, annot_node. simpl annot. rewrite E, El. split; [done|by eexists].
Qed.

(** An operator takes the data type of its first child. *)
Lemma annot_op t a n c od :
  a = 0 \/ a = FINSH_IDTYPE_ADDRESS -> op_node false t 0 n od ->
  match annot c (child_flag t a) with
  | FCons _ m _ _ => match od with Some d => nd_data m = data_code d | None => True end
  | FNil => False
  end -> op_node true t a (annot_node n c a) od.
Proof.
  intros Ha (Ht & Hi & _) Hd. unfold annot_node. rewrite Ht. destruct (annot c (child_flag t a)) as [|k m c' s']; [done|].
  assert (flagged a n = set_nd_idtype a n) as -> by (unfold flagged; by rewrite Hi).
  split_and!; [done|done|]. intros _. by destruct od.
Qed.
(** A literal *)
Lemma annot_leaf t n d :
  (t =? FINSH_NODE_ID) = false ->
  (forall x, nd_type x = t -> leaf_data x = Some (data_code d)) -> op_node false t 0 n (Some d) ->
  op_node true t 0 (annot_node n FNil 0) (Some d) /\ nd_value (annot_node n FNil 0) = nd_value n /\ node_ok n FNil 0.
Proof.
  intros Hid Hl (Ht & Hi & _). assert (flagged 0 n = set_nd_idtype 0 n) as E by (unfold flagged; by rewrite Hi).
  unfold node_ok, annot_node. simpl annot. rewrite E, Hl by done. split_and!; [|done|by eexists]. split_and!; try done.
Qed.

Definition annotates (e : expr) : Prop :=
  forall n c, enc false e n c -> enc true e (annot_node n c 0) (annot c (child_flag (nd_type n) 0)) /\ node_ok n c 0.

Lemma enc_dtype e n c : enc true e n c -> match dtype e with Some d => nd_data n = data_code d | None => True end.
Proof. intros He. destruct (dtype e) eqn:E; [|done]. by eapply enc_data. Qed.

(** Operators with one or two operands that are expressions *)
Lemma annot_unary t e n k1 n1 c1 :
  child_flag t 0 = 0 -> annotates e -> op_node false t 0 n (dtype e) -> enc false e n1 c1 ->
  op_node true t 0 (annot_node n (FCons k1 n1 c1 FNil) 0) (dtype e) /\
  enc true e (annot_node n1 c1 0) (annot c1 (child_flag (nd_type n1) 0)) /\ node_ok n (FCons k1 n1 c1 FNil) 0.
Proof.
  intros Hf IH Hn He. destruct (IH _ _ He) as [H1 H2]. split_and!; [|done|].
  - apply annot_op; [by left|done|]. rewrite Hf. simpl. apply (enc_dtype e _ _ H1).
  - unfold node_ok. rewrite (proj1 Hn), Hf. by split.
Qed.
Lemma annot_binary t e1 e2 n k1 n1 c1 k2 n2 c2 :
  child_flag t 0 = 0 -> annotates e1 -> annotates e2 -> op_node false t 0 n (dtype e1) -> enc false e1 n1 c1 -> enc false e2 n2 c2 ->
  op_node true t 0 (annot_node n (FCons k1 n1 c1 (FCons k2 n2 c2 FNil)) 0) (dtype e1) /\
  enc true e1 (annot_node n1 c1 0) (annot c1 (child_flag (nd_type n1) 0)) /\
  enc true e2 (annot_node n2 c2 0) (annot c2 (child_flag (nd_type n2) 0)) /\ node_ok n (FCons k1 n1 c1 (FCons k2 n2 c2 FNil)) 0.
Proof.
  intros Hf IH1 IH2 Hn He1 He2. destruct (IH1 _ _ He1) as [H1 H2], (IH2 _ _ He2) as [H3 H4]. split_and!; [|done|done|].
  - apply annot_op; [by left|done|]. rewrite Hf. simpl. apply (enc_dtype e1 _ _ H1).
  - unfold node_ok. rewrite (proj1 Hn), Hf. split; [done|]. by split.
Qed.

Lemma annot_all :
  (forall e, annotates e) /\ (forall es t, encs false es t -> encs true es (annot t 0) /\ leaves_ok t 0).
Proof.
  apply expr_exprs_ind.
  - intros v n c (Hn & Hv & ->). destruct (annot_leaf FINSH_NODE_VALUE_CHAR n Byte) as (H1 & H2 & H3); [done| |done|].
    { intros x Hx. unfold leaf_data. by rewrite Hx. }
    split; [|done]. split_and!; [done|by rewrite H2|done].
  - intros v n c (Hn & Hv & ->).
    assert (forall t, t = FINSH_NODE_VALUE_INT \/ t = FINSH_NODE_VALUE_LONG \/ t = FINSH_NODE_VALUE_NULL \/ t = FINSH_NODE_VALUE_STRING ->
      op_node false t 0 n (Some Dword) ->
      op_node true t 0 (annot_node n FNil 0) (Some Dword) /\ nd_value (annot_node n FNil 0) = nd_value n /\ node_ok n FNil 0) as Hl.
    { intros t Ht. apply annot_leaf; [by destruct Ht as [-> |[-> |[-> | ->]]]|].
      intros x Hx. unfold leaf_data. rewrite Hx. by destruct Ht as [-> |[-> |[-> | ->]]]. }
    destruct Hn as [Hn|[Hn|[Hn|Hn]]]; (apply Hl in Hn as (H1 & H2 & H3); [|tauto]); (split; [|done]);
      (split_and!; [tauto|by rewrite H2|done]).
  - intros a d n c [Hv ->]. destruct (annot_var 0 n a d) as [H1 H2]; [by left|done|]. by repeat split.
  - intros a d n c (Hn & k1 & n1 & -> & Hv). pose proof (proj1 Hn) as Ht. rewrite Ht.
    destruct (annot_var FINSH_IDTYPE_ADDRESS n1 a d) as [H1 H2]; [by right|done|]. split.
    + split; [|by exists k1, (annot_node n1 FNil FINSH_IDTYPE_ADDRESS)]. apply annot_op; [by left|done|]. simpl.
      destruct H1 as [((_ & _ & _ & Hd) & _)|((_ & _ & _ & Hd) & _)]; exact (Hd eq_refl).
    + unfold node_ok. rewrite Ht. by split.
  - intros op e1 IH1 e2 IH2 n c (Hn & k1 & n1 & c1 & k2 & n2 & c2 & -> & He1 & He2).
    assert (child_flag (bin_node op) 0 = 0) as Hf by (by destruct op). rewrite (proj1 Hn), Hf.
    destruct (annot_binary (bin_node op) e1 e2 n k1 n1 c1 k2 n2 c2) as (H1 & H2 & H3 & H4); try done.
    split; [|done]. split; [done|]. by repeat eexists.
  - intros e IH n c (Hn & k1 & n1 & c1 & -> & He). rewrite (proj1 Hn).
    destruct (annot_unary FINSH_NODE_SYS_BITWISE e n k1 n1 c1) as (H1 & H2 & H3); try done.
    split; [|done]. split; [done|]. by repeat eexists.
  - intros e IH n c (Hn & k1 & n1 & c1 & -> & He). rewrite (proj1 Hn).
    destruct (annot_unary FINSH_NODE_SYS_GETVALUE e n k1 n1 c1) as (H1 & H2 & H3); try done.
    split; [|done]. split; [done|]. by repeat eexists.
  - intros a d e IH n c (Hn & k1 & n1 & k2 & n2 & c2 & -> & Hv & He). pose proof (proj1 Hn) as Ht. rewrite Ht.
    destruct (annot_var FINSH_IDTYPE_ADDRESS n1 a d) as [H1 H2]; [by right|done|]. destruct (IH _ _ He) as [H3 H4]. split.
    + split; [|exists k1, (annot_node n1 FNil FINSH_IDTYPE_ADDRESS), k2, (annot_node n2 c2 0), (annot c2 (child_flag (nd_type n2) 0)); by split_and!]. apply annot_op; [by left|done|]. simpl.
      destruct H1 as [((_ & _ & _ & Hd) & _)|((_ & _ & _ & Hd) & _)]; exact (Hd eq_refl).
    + unfold node_ok. rewrite Ht. split; [done|]. by split.
  - intros e1 IH1 e2 IH2 n c (Hn & k1 & n1 & k3 & n3 & c3 & k2 & n2 & c2 & -> & Hg & He1 & He2). pose proof (proj1 Hn) as Ht. rewrite Ht.
    destruct (IH1 _ _ He1) as [H1 H2], (IH2 _ _ He2) as [H3 H4]. pose proof (proj1 Hg) as Htg.
    assert (op_node true FINSH_NODE_SYS_GETVALUE FINSH_IDTYPE_ADDRESS
      (annot_node n1 (FCons k3 n3 c3 FNil) FINSH_IDTYPE_ADDRESS) (dtype e1)) as Hg'.
    { apply annot_op; [by right|done|]. simpl. apply (enc_dtype e1 _ _ H1). }
    split.
    + split.
      * apply annot_op; [by left|done|]. destruct Hg' as (_ & _ & Hd). exact (Hd eq_refl).
      * exists k1, (annot_node n1 (FCons k3 n3 c3 FNil) FINSH_IDTYPE_ADDRESS), k3, (annot_node n3 c3 0),
          (annot c3 (child_flag (nd_type n3) 0)), k2, (annot_node n2 c2 0), (annot c2 (child_flag (nd_type n2) 0)).
        split; [|done]. simpl. unfold annot_node. by rewrite Htg.
    + unfold node_ok. rewrite Ht. simpl. rewrite Htg. by repeat split.
  - intros op a d n c (Hn & k1 & n1 & -> & Hv). pose proof (proj1 Hn) as Ht. rewrite Ht.
    assert (child_flag (pre_node op) 0 = FINSH_IDTYPE_ADDRESS) as Hf by (by destruct op). rewrite Hf.
    destruct (annot_my_var FINSH_IDTYPE_ADDRESS n1 a d) as [H1 H2]; [by right|done|]. split.
    + split; [|exists k1, (annot_node n1 FNil FINSH_IDTYPE_ADDRESS); by split]. apply annot_op; [by left|done|]. rewrite Hf. simpl.
      destruct H1 as ((_ & _ & _ & Hd) & _). exact (Hd eq_refl).
    + unfold node_ok. rewrite Ht, Hf. by split.
  - intros op a d n c (Hn & k1 & n1 & -> & Hv). pose proof (proj1 Hn) as Ht. rewrite Ht.
    assert (child_flag (post_node op) 0 = 0) as Hf by (by destruct op). rewrite Hf.
    destruct (annot_my_var 0 n1 a d) as [H1 H2]; [by left|done|]. split.
    + split; [|exists k1, (annot_node n1 FNil 0); by split]. apply annot_op; [by left|done|]. rewrite Hf. simpl.
      destruct H1 as ((_ & _ & _ & Hd) & _). exact (Hd eq_refl).
    + unfold node_ok. rewrite Ht, Hf. by split.
  - intros f args IH n c (Hn & k1 & n1 & cs & -> & Hf & He). pose proof (proj1 Hn) as Ht. rewrite Ht.
    destruct (annot_func n1 f Hf) as [H1 H2]. destruct (IH cs He) as [H3 H4]. split.
    + split; [by apply annot_op; [left|done|]|]. by exists k1, (annot_node n1 FNil 0), (annot cs 0).
    + unfold node_ok. rewrite Ht. by split.
  - intros t ->. done.
  - intros e IH1 es IH2 t (k & n & c & t' & -> & He & Hes). destruct (IH1 _ _ He) as [H1 H2], (IH2 _ Hes) as [H3 H4].
    split; [|by split]. by exists k, (annot_node n c 0), (annot c (child_flag (nd_type n) 0)), (annot t' 0).
Qed.
End tree.
