(* ===== verification/FinshCode.v ===== *)
(** * The compiler emits the code of an expression *)
From stdpp Require Import base tactics numbers list gmap relations.
From S2P Require Import Prelude Memory Finsh FinshVm FinshCompiler FinshVmCorrect FinshExpr FinshTree.
Local Open Scope Z_scope.

(** ** Emitting bytes *)

Section emit.
Context (s : finsh).

(** [acc] has been emitted into the cleared text segment. *)
Definition emitted (acc : list Z) : finsh :=
  set_text_segment (acc ++ replicate (128 - length acc) 0) (set_finsh_compile_pc (Z.of_nat (length acc)) s).

Lemma wp_code_byte acc x (Q : unit -> finsh -> Prop) :
  (length acc < 128)%nat -> Q tt (emitted (acc ++ [u8 x])) -> wp (finsh_code_byte x) Q (emitted acc).
Proof.
  intros Hl HQ. unfold finsh_code_byte. wp_step. apply wp_get. simpl. unfold FINSH_TEXT_MAX.
  replace (0 <=? Z.of_nat (length acc)) with true by lia. replace (Z.of_nat (length acc) <? 128) with true by lia. simpl.
  wp_step. apply wp_modify. apply wp_modify. simpl.
  replace (set_finsh_compile_pc _ _) with (emitted (acc ++ [u8 x])); [done|]. unfold emitted. rewrite length_app. simpl.
  rewrite Nat2Z.id, insert_app_r_alt, Nat.sub_diag by lia.
  replace (128 - length acc)%nat with (S (128 - (length acc + 1))) by lia. simpl. rewrite <- app_assoc. simpl.
  unfold set_text_segment, set_finsh_compile_pc. simpl. f_equal. lia.
Qed.

Lemma wp_code_byte' acc x b (Q : unit -> finsh -> Prop) :
  (length acc < 128)%nat -> u8 x = b -> Q tt (emitted (acc ++ [b])) -> wp (finsh_code_byte x) Q (emitted acc).
Proof. intros Hl <-. by apply wp_code_byte. Qed.

Lemma land_255 x : Z.land x 255 = x mod 256.
Proof. change 255 with (Z.ones 8). by rewrite Z.land_ones. Qed.

Lemma wp_code_dword acc x (Q : unit -> finsh -> Prop) :
  (length acc + 4 <= 128)%nat -> Q tt (emitted (acc ++ le32 x)) -> wp (finsh_code_dword x) Q (emitted acc).
Proof.
  intros Hl HQ. unfold finsh_code_dword, le32 in *. rewrite !land_255, !Z.shiftr_div_pow2 by lia.
  change (2 ^ 8) with 256. change (2 ^ 16) with 65536. change (2 ^ 24) with 16777216.
  assert (u32 x = x mod 4294967296) as -> by done.
  wp_step. eapply wp_code_byte' with (b := x mod 256); [lia| |].
  { unfold uwrap. change (2 ^ 8) with 256. Z.to_euclidean_division_equations; lia. }
  wp_step. eapply wp_code_byte' with (b := x / 256 mod 256); [rewrite length_app; simpl; lia| |].
  { unfold uwrap. change (2 ^ 8) with 256. Z.to_euclidean_division_equations; lia. }
  wp_step. eapply wp_code_byte' with (b := x / 65536 mod 256); [rewrite !length_app; simpl; lia| |].
  { unfold uwrap. change (2 ^ 8) with 256. Z.to_euclidean_division_equations; lia. }
  eapply wp_code_byte' with (b := x / 16777216 mod 256); [rewrite !length_app; simpl; lia| |].
  { unfold uwrap. change (2 ^ 8) with 256. Z.to_euclidean_division_equations; lia. }
  by rewrite <- !app_assoc.
Qed.
Lemma wp_code_word acc x (Q : unit -> finsh -> Prop) :
  (length acc + 2 <= 128)%nat -> Q tt (emitted (acc ++ le16 x)) -> wp (finsh_code_word x) Q (emitted acc).
Proof.
  intros Hl HQ. unfold finsh_code_word, le16 in *. rewrite land_255, Z.shiftr_div_pow2 by lia. change (2 ^ 8) with 256.
  wp_step. eapply wp_code_byte' with (b := x mod 256); [lia|apply Zmod_mod|].
  eapply wp_code_byte' with (b := x / 256 mod 256); [rewrite length_app; simpl; lia|done|]. by rewrite <- app_assoc.
Qed.

(** [c] emits the bytes [l] and does nothing else. *)
Definition emits (c : F unit) (l : list Z) : Prop :=
  forall acc (Q : unit -> finsh -> Prop),
  (length acc + length l <= 128)%nat -> Q tt (emitted (acc ++ l)) -> wp c Q (emitted acc).

Lemma emits_ret : emits (mret tt) [].
Proof. intros acc Q _ HQ. wp_step. by rewrite app_nil_r in HQ. Qed.
Lemma emits_bind c1 c2 l1 l2 : emits c1 l1 -> emits c2 l2 -> emits (c1;; c2) (l1 ++ l2).
Proof.
  intros H1 H2 acc Q Hl HQ. rewrite length_app in Hl. wp_step. apply H1; [lia|]. apply H2; [rewrite length_app; lia|].
  by rewrite <- app_assoc.
Qed.
Lemma emits_cons c1 c2 x l : emits c1 [x] -> emits c2 l -> emits (c1;; c2) (x :: l).
Proof. apply (emits_bind c1 c2 [x] l). Qed.
Lemma emits_byte x : 0 <= x < 256 -> emits (finsh_code_byte x) [x].
Proof. intros Hx acc Q Hl HQ. simpl in Hl. apply wp_code_byte' with x; [lia|by apply (uwrap_small 8)|done]. Qed.
Lemma emits_u8 x : emits (finsh_code_byte x) [x mod 256].
Proof. intros acc Q Hl HQ. simpl in Hl. by apply wp_code_byte; [lia|]. Qed.
Lemma emits_dword x : emits (finsh_code_dword x) (le32 x).
Proof. intros acc Q Hl HQ. simpl in Hl. by apply wp_code_dword. Qed.
Lemma emits_word x : emits (finsh_code_word x) (le16 x).
Proof. intros acc Q Hl HQ. simpl in Hl. by apply wp_code_word. Qed.
End emit.

Create HintDb emits.
#[export] Hint Resolve emits_ret emits_dword emits_word : emits.
#[export] Hint Extern 1 (emits _ (finsh_code_byte _) [_]) => apply emits_byte; by vm_compute : emits.
Ltac emits :=
  repeat lazymatch goal with
  | |- emits _ (_ ≫= _) (_ ++ _) => apply emits_bind
  | |- emits _ (_ ≫= _) (_ :: _) => apply emits_cons
  end; auto with emits.

(** ** The code of one node *)

Lemma le32_u32 x : le32 (u32 x) = le32 x.
Proof.
  unfold le32, uwrap. change (2 ^ 32) with 4294967296.
  assert (forall a b c d a' b' c' d' : Z, a = a' -> b = b' -> c = c' -> d = d' -> [a; b; c; d] = [a'; b'; c'; d']) as E by congruence.
  apply E; Z.to_euclidean_division_equations; lia.
Qed.
Lemma le32_long x : le32 (long_value x) = le32 x.
Proof. by rewrite <- le32_u32, u32_long, le32_u32. Qed.

Section nodes.
Context `{FinshEnv} (s : finsh).
Abbreviation emits := (emits s).

Lemma emits_node k n f l : global_node_table s !! k = Some n -> emits (f n) l -> emits (m ← node k; f m) l.
Proof.
  intros Hk Hf acc Q Hl HQ. unfold node. wp_step. wp_step. apply wp_get. apply wp_opt with n; [done|]. by apply Hf.
Qed.

(** Loading a variable, or its address *)
Lemma emits_load ty d flag base a :
  width_of ty = Some d -> base = FINSH_IDTYPE_VAR \/ base = FINSH_IDTYPE_SYSVAR ->
  flag = 0 \/ flag = FINSH_IDTYPE_ADDRESS ->
  emits (compile_load ty (Z.lor base flag) a) (if flag =? 0 then load_code d :: le32 a else const_code Dword a).
Proof.
  intros Hw Hb Hfl. destruct ty; try discriminate Hw; injection Hw as <-;
    destruct Hb as [-> | ->], Hfl as [-> | ->]; apply emits_cons; auto with emits.
Qed.

Lemma emits_id n flag a d :
  flag = 0 \/ flag = FINSH_IDTYPE_ADDRESS -> is_var s true flag n a d ->
  emits (compile_node n) (if flag =? 0 then load_code d :: le32 a else const_code Dword a).
Proof.
  intros Hfl Hv.
  assert (nd_type n = FINSH_NODE_ID) as Ht by (destruct Hv as [((? & _) & _)|((? & _) & _)]; done).
  assert (compile_node n = compile_id n) as -> by (unfold compile_node; by rewrite Ht). unfold compile_id.
  destruct Hv as [((_ & Hid & Hi & _) & ty & Hw & (v & Hl & <-) & ->)|((_ & Hid & Hi & _) & ty & Hw & v & Hl & <- & <-)].
  - replace (negb (Z.land (nd_idtype n) FINSH_IDTYPE_SYSCALL =? 0)) with false by (rewrite Hi; by destruct Hfl as [-> | ->]).
    replace (negb (Z.land (nd_idtype n) FINSH_IDTYPE_SYSVAR =? 0)) with false by (rewrite Hi; by destruct Hfl as [-> | ->]).
    rewrite (proj2 (Z.eqb_neq _ _) Hid), Hi.
    intros acc Q Hlen HQ. wp_step. unfold var_at. wp_step. apply wp_get. apply wp_opt with v; [done|]. eapply emits_load; eauto.
  - replace (negb (Z.land (nd_idtype n) FINSH_IDTYPE_SYSCALL =? 0)) with false by (rewrite Hi; by destruct Hfl as [-> | ->]).
    replace (negb (Z.land (nd_idtype n) FINSH_IDTYPE_SYSVAR =? 0)) with true by (rewrite Hi; by destruct Hfl as [-> | ->]).
    rewrite (proj2 (Z.eqb_neq _ _) Hid), Hi.
    intros acc Q Hlen HQ. wp_step. unfold sysvar_at. wp_step. apply wp_get. apply wp_opt with v; [done|]. eapply emits_load; eauto.
Qed.

Lemma emits_func n f : is_func s n f -> emits (compile_node n) (const_code Dword f).
Proof.
  intros (Ht & Hi & c & Hl & <-). assert (compile_node n = compile_id n) as -> by (unfold compile_node; by rewrite Ht).
  unfold compile_id. rewrite Hi. simpl. intros acc Q Hlen HQ. wp_step. unfold syscall_at. wp_step. apply wp_get.
  apply wp_opt with c; [done|]. eapply emits_cons; eauto with emits.
Qed.

(** Operators, by the data type of their node *)
Lemma emits_op d b w l :
  0 <= b < 256 -> 0 <= w < 256 -> 0 <= l < 256 -> emits (compile_op (data_code d) b w l) [at_width d b w l].
Proof. intros. destruct d; by apply emits_byte. Qed.
Lemma emits_bin op n d : nd_type n = bin_node op -> nd_data n = data_code d -> emits (compile_node n) [bin_code op d].
Proof. intros Ht Hd. unfold compile_node. rewrite Ht, Hd. destruct op, d; by apply (emits_op Byte) || apply (emits_op Word) || apply (emits_op Dword). Qed.
Lemma emits_not n d : nd_type n = FINSH_NODE_SYS_BITWISE -> nd_data n = data_code d -> emits (compile_node n) [not_code d].
Proof. intros Ht Hd. unfold compile_node. rewrite Ht, Hd. destruct d; by apply (emits_op Byte) || apply (emits_op Word) || apply (emits_op Dword). Qed.
Lemma emits_deref n : op_node true FINSH_NODE_SYS_GETVALUE 0 n (Some Dword) -> emits (compile_node n) [stack_code Dword].
Proof. intros (Ht & Hi & Hd). unfold compile_node. rewrite Ht, Hi, (Hd eq_refl). by apply (emits_op Dword). Qed.
Lemma emits_deref_addr n od : op_node true FINSH_NODE_SYS_GETVALUE FINSH_IDTYPE_ADDRESS n od -> emits (compile_node n) [].
Proof. intros (Ht & Hi & _). unfold compile_node. rewrite Ht, Hi. simpl. auto with emits. Qed.
Lemma emits_getaddr n : nd_type n = FINSH_NODE_SYS_GETADDR -> emits (compile_node n) [].
Proof. intros Ht. unfold compile_node. rewrite Ht. simpl. auto with emits. Qed.
Lemma emits_char n : nd_type n = FINSH_NODE_VALUE_CHAR -> emits (compile_node n) (const_code Byte (char_value (nd_value n))).
Proof. intros Ht. unfold compile_node. rewrite Ht. simpl. apply emits_cons; [auto with emits|apply emits_u8]. Qed.
Lemma emits_long n :
  nd_type n = FINSH_NODE_VALUE_INT \/ nd_type n = FINSH_NODE_VALUE_LONG \/ nd_type n = FINSH_NODE_VALUE_NULL \/
  nd_type n = FINSH_NODE_VALUE_STRING -> emits (compile_node n) (const_code Dword (long_value (nd_value n))).
Proof.
  intros Ht. unfold compile_node. simpl const_code. rewrite le32_long.
  destruct Ht as [Ht|[Ht|[Ht|Ht]]]; rewrite Ht; simpl; emits.
Qed.
Lemma emits_store d : emits (compile_store (data_code d)) [store_code d; stack_code d].
Proof. destruct d; unfold compile_store; simpl; emits. Qed.

(** Assignments, with the left side as first child *)
Lemma emits_assign n k c d :
  nd_type n = FINSH_NODE_SYS_ASSIGN -> nd_child n = Some k -> global_node_table s !! k = Some c ->
  nd_type c = FINSH_NODE_ID \/ nd_type c = FINSH_NODE_SYS_GETVALUE -> nd_data c = data_code d ->
  emits (compile_node n) [store_code d; stack_code d].
Proof.
  intros Ht Hc Hk Hct Hd. unfold compile_node. rewrite Ht, Hc. simpl. eapply emits_node; [exact Hk|].
  unfold compile_assign. rewrite Hd. destruct Hct as [-> | ->]; simpl; [apply emits_store|].
  replace (Z.land (data_code d) 15) with (data_code d) by (by destruct d). apply emits_store.
Qed.

(** Increments and decrements *)
Lemma emits_step op d a :
  op = Add \/ op = Sub -> emits (compile_step (data_code d) a (bin_code op Byte) (bin_code op Word) (bin_code op Dword)) (step_code op a d).
Proof. intros [-> | ->]; destruct d;
  cbv [compile_step data_code FINSH_DATA_TYPE_BYTE FINSH_DATA_TYPE_WORD FINSH_DATA_TYPE_DWORD Z.eqb Pos.eqb step_code const_code];
  cbn [app]; emits. Qed.
Lemma emits_pre op n k c d :
  op = Add \/ op = Sub -> nd_type n = pre_node op -> nd_data n = data_code d -> nd_child n = Some k ->
  global_node_table s !! k = Some c -> nd_type c = FINSH_NODE_ID ->
  emits (compile_node n) (step_code op (value_addr (nd_id c)) d ++ [stack_code Dword]).
Proof.
  intros Ho Ht Hd Hc Hk Hct.
  assert (compile_node n = with_child n (fun c => compile_pre n c (bin_code op Byte) (bin_code op Word) (bin_code op Dword))) as ->
    by (unfold compile_node; rewrite Ht; by destruct Ho as [-> | ->]).
  unfold with_child. rewrite Hc. eapply emits_node; [exact Hk|]. unfold compile_pre. rewrite Hct, Hd.
  replace (known_data_type (data_code d)) with true by (by destruct d). cbn [when Z.eqb Pos.eqb FINSH_NODE_ID].
  apply emits_bind; [by apply emits_step|auto with emits].
Qed.
Lemma emits_post op n k c d :
  op = Add \/ op = Sub -> nd_type n = post_node op -> nd_data n = data_code d -> nd_child n = Some k ->
  global_node_table s !! k = Some c -> nd_type c = FINSH_NODE_ID ->
  emits (compile_node n) (const_code Dword (value_addr (nd_id c)) ++ step_code op (value_addr (nd_id c)) d ++ [FINSH_OP_POP]).
Proof.
  intros Ho Ht Hd Hc Hk Hct.
  assert (compile_node n = with_child n (fun c => compile_post n c (bin_code op Byte) (bin_code op Word) (bin_code op Dword))) as ->
    by (unfold compile_node; rewrite Ht; by destruct Ho as [-> | ->]).
  unfold with_child. rewrite Hc. eapply emits_node; [exact Hk|]. unfold compile_post. rewrite Hct, Hd.
  replace (known_data_type (data_code d)) with true by (by destruct d). cbn [when Z.eqb Pos.eqb FINSH_NODE_ID].
  apply emits_cons; [auto with emits|]. apply (emits_bind s _ _ (le32 _)); [auto with emits|].
  apply emits_bind; [by apply emits_step|auto with emits].
Qed.
End nodes.

(** ** The code of a tree *)

Section forest.
Context `{FinshEnv} (s : finsh).
Let tbl := global_node_table s.
Abbreviation emits := (emits s).

(** The forest [t] of the table compiles to [l]. *)
Definition compiles (t : forest) (l : list Z) : Prop :=
  forall fuel, (height t < fuel)%nat -> rep tbl t -> emits (finsh_compile fuel (froot t)) l.
Definition node_compiles (n : finsh_node) (c : forest) (l : list Z) : Prop :=
  nd_child n = froot c -> rep tbl c -> emits (compile_node n) l.

Lemma compiles_nil : compiles FNil [].
Proof. intros [|fuel] Hf _; simpl in *; [lia|]. apply emits_ret. Qed.
Lemma compiles_when fuel t l : (height t < fuel)%nat -> rep tbl t -> compiles t l ->
  emits (when (bool_decide (is_Some (froot t))) (finsh_compile fuel (froot t))) l.
Proof.
  intros Hf Hr Hc. specialize (Hc fuel Hf Hr). destruct t as [|k n c sb]; simpl in *; [|done].
  destruct fuel as [|fuel]; [lia|]. exact Hc.
Qed.
Lemma compiles_cons k n c sb l1 l2 l3 :
  compiles c l1 -> node_compiles n c l2 -> compiles sb l3 -> compiles (FCons k n c sb) (l1 ++ l2 ++ l3).
Proof.
  intros H1 H2 H3 [|fuel] Hf (Hk & Hc & Hs & Rc & Rs); simpl in Hf; [lia|]. cbn [finsh_compile froot].
  apply emits_node with n; [done|]. rewrite Hc. apply emits_bind; [apply compiles_when; [lia|done|done]|].
  apply emits_node with n; [done|]. apply emits_bind; [by apply H2|].
  apply emits_node with n; [done|]. rewrite Hs. apply compiles_when; [lia|done|done].
Qed.
Lemma compiles_one k n c l1 l2 : compiles c l1 -> node_compiles n c l2 -> compiles (FCons k n c FNil) (l1 ++ l2).
Proof. intros H1 H2. rewrite <- (app_nil_r l2). apply compiles_cons; [done|done|apply compiles_nil]. Qed.

(** A node and its children together *)
Definition compiled (n : finsh_node) (c : forest) (l : list Z) : Prop :=
  exists l1 l2, l = l1 ++ l2 /\ compiles c l1 /\ node_compiles n c l2.

Lemma compiled_one k n c l : compiled n c l -> compiles (FCons k n c FNil) l.
Proof. intros (l1 & l2 & -> & H1 & H2). by apply compiles_one. Qed.
Lemma compiled_cons k n c sb l l3 : compiled n c l -> compiles sb l3 -> compiles (FCons k n c sb) (l ++ l3).
Proof. intros (l1 & l2 & -> & H1 & H2) H3. rewrite <- app_assoc. by apply compiles_cons. Qed.
(** A leaf *)
Lemma compiled_leaf n l : emits (compile_node n) l -> compiled n FNil l.
Proof. intros He. exists [], l. split_and!; [done|apply compiles_nil|]. by intros _ _. Qed.

(** The siblings of the function's node are counted. *)
Fixpoint forest_len (t : forest) : nat := match t with FNil => O | FCons _ _ _ sb => S (forest_len sb) end.
Lemma forest_len_height t : (forest_len t <= height t)%nat.
Proof. induction t as [|k n c _ sb IH]; simpl; lia. Qed.
Lemma wp_count t : forall fuel k acc (Q : Z -> finsh -> Prop),
  (forest_len t < fuel)%nat -> rep tbl t -> Q (k + Z.of_nat (forest_len t)) (emitted s acc) ->
  wp (count_siblings fuel (froot t) k) Q (emitted s acc).
Proof.
  induction t as [|p n c _ sb IH]; intros [|fuel] k acc Q Hf Hr HQ; simpl in Hf; try lia.
  - simpl in HQ. rewrite Z.add_0_r in HQ. simpl. by wp_step.
  - destruct Hr as (Hk & _ & Hs & _ & Hr). cbn [count_siblings froot]. wp_step. unfold node. wp_step. apply wp_get.
    apply wp_opt with n; [done|]. rewrite Hs. apply IH; [lia|done|].
    by replace (k + 1 + Z.of_nat (forest_len sb)) with (k + Z.of_nat (forest_len (FCons p n c sb))) by (simpl; lia).
Qed.
Lemma emits_call n k1 n1 cs :
  nd_type n = FINSH_NODE_SYS_FUNC -> (forest_len cs <= 16)%nat ->
  node_compiles n (FCons k1 n1 FNil cs) [FINSH_OP_SYSCALL; Z.of_nat (forest_len cs)].
Proof.
  intros Ht Hl Hc (Hk & _ & Hs & _ & Hr). unfold compile_node. rewrite Ht.
  change (emits (with_child n (fun c => parameters ← count_siblings (S FINSH_NODE_MAX) (nd_sibling c) 0;
    finsh_code_byte FINSH_OP_SYSCALL;; finsh_code_byte parameters)) [FINSH_OP_SYSCALL; Z.of_nat (forest_len cs)]).
  unfold with_child. rewrite Hc. simpl froot. cbv iota. apply emits_node with n1; [done|]. rewrite Hs.
  intros acc Q Hlen HQ. wp_step. apply wp_count; [unfold FINSH_NODE_MAX; lia|done|]. rewrite Z.add_0_l.
  revert Hlen HQ. apply emits_cons; [auto with emits|]. apply emits_byte. lia.
Qed.

(** The tree of a well typed expression compiles to its code. *)
Definition expr_compiles (e : expr) : Prop := forall n c, enc s true e n c -> wt e -> compiled n c (code e).
Definition exprs_compile (es : exprs) : Prop :=
  forall t, encs s true es t -> wts es -> compiles t (codes es) /\ forest_len t = exprs_len es.

Lemma operand_data e n c d : enc s true e n c -> operand e d -> nd_data n = data_code d.
Proof. intros He [Hd _]. by eapply enc_data. Qed.

Lemma compiled_id n flag a d : flag = 0 \/ flag = FINSH_IDTYPE_ADDRESS -> is_var s true flag n a d ->
  compiled n FNil (if flag =? 0 then load_code d :: le32 a else const_code Dword a).
Proof. intros Hfl Hv. apply compiled_leaf. by apply emits_id. Qed.

Lemma op_data t flag n d : op_node true t flag n (Some d) -> nd_data n = data_code d.
Proof. intros (_ & _ & Hd). exact (Hd eq_refl). Qed.

Lemma var_node D flag n a d : is_var s D flag n a d -> nd_type n = FINSH_NODE_ID /\ (D = true -> nd_data n = data_code d).
Proof. intros [((Ht & _ & _ & Hd) & _)|((Ht & _ & _ & Hd) & _)]; done. Qed.

Lemma compiled_bin op e1 e2 : expr_compiles e1 -> expr_compiles e2 -> expr_compiles (EBin op e1 e2).
Proof.
  intros IH1 IH2 n c (Hn & k1 & n1 & c1 & k2 & n2 & c2 & -> & He1 & He2) (Hw1 & Hw2 & Ho & Ht).
  exists (code e1 ++ code e2), [bin_code op (vtype e1)]. split_and!; [simpl; by rewrite <- app_assoc| |].
  - apply compiled_cons; [by apply IH1|]. apply compiled_one. by apply IH2.
  - intros _ _. apply emits_bin; [exact (proj1 Hn)|]. apply op_data with (bin_node op) 0. by rewrite (proj1 Ho) in Hn.
Qed.
Lemma compiled_not e : expr_compiles e -> expr_compiles (ENot e).
Proof.
  intros IH n c (Hn & k1 & n1 & c1 & -> & He) (Hw & Ho).
  exists (code e), [not_code (vtype e)]. split_and!; [done|apply compiled_one; by apply IH|].
  intros _ _. apply emits_not; [exact (proj1 Hn)|]. apply op_data with FINSH_NODE_SYS_BITWISE 0. by rewrite (proj1 Ho) in Hn.
Qed.
Lemma compiled_deref e : expr_compiles e -> expr_compiles (EDeref e).
Proof.
  intros IH n c (Hn & k1 & n1 & c1 & -> & He) (Hw & Ho).
  exists (code e), [stack_code Dword]. split_and!; [done|apply compiled_one; by apply IH|].
  intros _ _. apply emits_deref. by rewrite (proj1 Ho) in Hn.
Qed.
Lemma compiled_assign a d e : expr_compiles e -> expr_compiles (EAssign a d e).
Proof.
  intros IH n c (Hn & k1 & n1 & k2 & n2 & c2 & -> & Hv & He) (Ha & Hw & Ht).
  exists (const_code Dword a ++ code e), [store_code d; stack_code d]. split_and!; [simpl code; by rewrite <- app_assoc| |].
  - apply compiled_cons; [exact (compiled_id n1 FINSH_IDTYPE_ADDRESS a d ltac:(by right) Hv)|]. apply compiled_one. by apply IH.
  - intros Hc (Hk & _). destruct (var_node _ _ _ _ _ Hv) as [Hvt Hvd].
    eapply emits_assign; [exact (proj1 Hn)|exact Hc|exact Hk|by left|by apply Hvd].
Qed.
Lemma compiled_store e1 e2 : expr_compiles e1 -> expr_compiles e2 -> expr_compiles (EStore e1 e2).
Proof.
  intros IH1 IH2 n c (Hn & k1 & n1 & k3 & n3 & c3 & k2 & n2 & c2 & -> & Hg & He1 & He2) (Hw1 & Hw2 & Ho & Ht).
  exists (code e1 ++ code e2), [store_code Dword; stack_code Dword]. split_and!; [simpl; by rewrite <- app_assoc| |].
  - apply compiled_cons; [|apply compiled_one; by apply IH2].
    exists (code e1), []. split_and!; [by rewrite app_nil_r|apply compiled_one; by apply IH1|].
    intros _ _. by eapply emits_deref_addr.
  - intros Hc (Hk & _). eapply emits_assign; [exact (proj1 Hn)|exact Hc|exact Hk|right; exact (proj1 Hg)|].
    eapply op_data. by rewrite (proj1 Ho) in Hg.
Qed.
Lemma compiled_pre op a d : expr_compiles (EPre op a d).
Proof.
  intros n c (Hn & k1 & n1 & -> & Hv) (Ha & Ho).
  exists (const_code Dword a), (step_code op a d ++ [stack_code Dword]). split_and!; [done| |].
  - apply compiled_one. exact (compiled_id n1 FINSH_IDTYPE_ADDRESS a d ltac:(by right) (or_introl Hv)).
  - intros Hc (Hk & _). destruct Hv as ((Hvt & _) & ty & _ & _ & ->).
    eapply emits_pre; [done|exact (proj1 Hn)|by eapply op_data|exact Hc|exact Hk|done].
Qed.
Lemma compiled_post op a d : expr_compiles (EPost op a d).
Proof.
  intros n c (Hn & k1 & n1 & -> & Hv) (Ha & Ho).
  exists (load_code d :: le32 a), (const_code Dword a ++ step_code op a d ++ [FINSH_OP_POP]). split_and!; [done| |].
  - apply compiled_one. exact (compiled_id n1 0 a d ltac:(by left) (or_introl Hv)).
  - intros Hc (Hk & _). destruct Hv as ((Hvt & _) & ty & _ & _ & ->).
    eapply emits_post; [done|exact (proj1 Hn)|by eapply op_data|exact Hc|exact Hk|done].
Qed.
Lemma compiled_call f args : exprs_compile args -> expr_compiles (ECall f args).
Proof.
  intros IH n c (Hn & k1 & n1 & cs & -> & Hf & He) (Ha & Hw & Hl). destruct (IH cs He Hw) as [Hc Hlen].
  exists (const_code Dword f ++ codes args), [FINSH_OP_SYSCALL; Z.of_nat (exprs_len args)].
  split_and!; [simpl code; by rewrite <- app_assoc| |].
  - apply compiled_cons; [|done]. apply compiled_leaf. by apply emits_func.
  - rewrite <- Hlen in *. by apply emits_call; [exact (proj1 Hn)|].
Qed.

Lemma compiled_all : (forall e, expr_compiles e) /\ (forall es, exprs_compile es).
Proof.
  apply expr_exprs_ind; eauto using compiled_bin, compiled_not, compiled_deref, compiled_assign, compiled_store,
    compiled_pre, compiled_post, compiled_call.
  - intros v n c (Hn & <- & ->) _. apply compiled_leaf, emits_char, (proj1 Hn).
  - intros v n c (Hn & <- & ->) _. apply compiled_leaf, emits_long. destruct Hn as [Hn|[Hn|[Hn|Hn]]]; rewrite (proj1 Hn); tauto.
  - intros a d n c (Hv & ->) _. exact (compiled_id n 0 a d ltac:(by left) Hv).
  - intros a d n c (Hn & k1 & n1 & -> & Hv) _. exists (const_code Dword a), []. split_and!; [done| |].
    + apply compiled_one. exact (compiled_id n1 FINSH_IDTYPE_ADDRESS a d ltac:(by right) Hv).
    + intros _ _. apply emits_getaddr, (proj1 Hn).
  - intros t -> _. split; [apply compiles_nil|done].
  - intros e IH1 es IH2 t (k & n & c & t' & -> & He & Hes) (Hw & _ & Hws). destruct (IH2 _ Hes Hws) as [H1 H2].
    split; [|simpl; by f_equal]. apply compiled_cons; [by apply IH1|done].
Qed.
End forest.
