(* ===== verification/FinshRun.v ===== *)
(** * Compiling and running the statements of a line *)
From stdpp Require Import base tactics numbers list gmap relations.
From S2P Require Import Prelude Memory Finsh FinshVm FinshCompiler FinshVmCorrect FinshExpr FinshTree FinshCode.
Local Open Scope Z_scope.

Fixpoint to_exprs (l : list expr) : exprs := match l with [] => ENil | e :: l' => ECons e (to_exprs l') end.

Section run.
Context `{FinshEnv} (s : finsh).
Abbreviation W tbl := (set_global_node_table tbl s).

(** The tree of a statement does not depend on its sibling. *)
Lemma enc_sibling D e n c : enc s D e n c -> enc s D e (set_nd_sibling None n) c.
Proof. destruct e; exact id. Qed.

Lemma enc_table D e n c tbl : enc s D e n c -> enc (W tbl) D e n c.
Proof. exact id. Qed.

(** One statement: its sibling is cut off first. *)
Lemma wp_statement e k n c t' tbl acc (Q : unit -> finsh -> Prop) :
  let tbl1 := <[k := set_nd_sibling None n]> tbl in
  k ∉ keys c -> NoDup (keys c) -> rep tbl (FCons k n c t') -> length tbl = FINSH_NODE_MAX ->
  enc s true e n c -> wt e -> (length acc + length (code e) <= 128)%nat ->
  Q tt (emitted (W tbl1) (acc ++ code e)) -> wp (finsh_compile node_fuel (Some k)) Q (emitted (W tbl1) acc).
Proof.
  intros tbl1 Hk Hnd (Hn & Hc & _ & Rc & _) Hlen He Hw Hl HQ.
  assert (rep tbl1 (FCons k (set_nd_sibling None n) c FNil)) as R1.
  { split_and!; [apply list_lookup_insert_eq; by eapply lookup_lt_Some|done|done|by apply rep_insert|done]. }
  assert (height (FCons k (set_nd_sibling None n) c FNil) < node_fuel)%nat as Hh1.
  { apply Nat.lt_succ_r. rewrite <- Hlen, <- (length_insert tbl k (set_nd_sibling None n)).
    apply rep_height; [done|]. simpl. rewrite app_nil_r. by apply NoDup_cons. }
  apply enc_sibling, (enc_table _ _ _ _ tbl1) in He.
  pose proof (proj1 (compiled_all (W tbl1)) e _ _ He Hw) as Hcomp.
  by apply (compiled_one _ k _ _ _ Hcomp node_fuel Hh1 R1).
Qed.

Lemma wp_statements es : forall e t fuel tbl acc (Q : unit -> finsh -> Prop),
  (forest_len t < fuel)%nat -> NoDup (keys t) -> rep tbl t -> length tbl = FINSH_NODE_MAX ->
  encs s true (to_exprs (e :: es)) t -> Forall wt (e :: es) -> (length acc + length (prog_code e es) <= 128)%nat ->
  (forall tbl', Q tt (emitted (W tbl') (acc ++ prog_code e es))) ->
  wp (compile_statements fuel (froot t)) Q (emitted (W tbl) acc).
Proof.
  induction es as [|e' es IH]; intros e t [|fuel] tbl acc Q Hf Hnd Hr Hlen He Hw Hl HQ; try lia;
    destruct He as (k & n & c & t' & -> & He & Hes); pose proof Hr as (Hk & Hc & Hs & Rc & Rs);
    simpl in Hf, Hnd; apply NoDup_cons in Hnd as [Hnk Hnd]; apply NoDup_app in Hnd as (Hnc & Hdis & Hns);
    apply Forall_cons in Hw as [Hwe Hws]; cbn [compile_statements froot];
    (wp_step; unfold node; wp_step; apply wp_get; apply wp_opt with n; [done|]);
    (wp_step; unfold upd_node, node; wp_step; wp_step; apply wp_get; apply wp_opt with n; [done|]; apply wp_modify);
    set (tbl1 := <[k := set_nd_sibling None n]> tbl);
    change (set_global_node_table _ _) with (emitted (W tbl1) acc); wp_step; rewrite Hs.
  - simpl in Hes. subst t'. apply (wp_statement e k n c FNil); [set_solver|done..|].
    simpl. wp_step. wp_step. destruct fuel; [lia|]. simpl. wp_step. apply (HQ tbl1).
  - simpl in Hl. rewrite length_app in Hl. simpl in Hl. apply (wp_statement e k n c t'); [set_solver|done..|lia|].
    assert (exists k', froot t' = Some k') as [k' Hk'].
    { destruct Hes as (k' & n' & c' & t'' & -> & _). by exists k'. }
    rewrite bool_decide_true by (rewrite Hk'; by eexists). cbn [when]. wp_step.
    apply wp_code_byte' with FINSH_OP_POP; [rewrite length_app; lia|done|].
    apply (IH e'); [lia|done|apply rep_insert; [done|set_solver]|by unfold tbl1; rewrite length_insert|done|done|rewrite !length_app; simpl; lia|].
    intros tbl'. simpl in HQ. rewrite <- !app_assoc. apply HQ.
Qed.
End run.

Section line.
Context `{FinshEnv} (s : finsh).
Abbreviation W tbl := (set_global_node_table tbl s).

(** The type check gives the tree of every line of well typed statements its data types and
    address bits. *)
Lemma wp_check es t (Q : unit -> finsh -> Prop) :
  encs s false es t -> rep (global_node_table s) t -> NoDup (keys t) -> length (global_node_table s) = FINSH_NODE_MAX ->
  (forall tbl, rep tbl (annot s t 0) -> encs s true es (annot s t 0) -> length tbl = FINSH_NODE_MAX ->
    (forall k, k ∉ keys t -> tbl !! k = global_node_table s !! k) -> Q tt (W tbl)) ->
  wp (finsh_type_check node_fuel (froot t) FINSH_NODE_VALUE) Q s.
Proof.
  intros He Hr Hnd Hlen HQ. destruct (proj2 (annot_all s) es t He) as [He' Hok].
  assert (W (global_node_table s) = s) as Es by (by destruct s).
  assert (wp (finsh_type_check node_fuel (froot t) FINSH_NODE_VALUE) Q (W (global_node_table s))) as Hg; [|by rewrite Es in Hg].
  apply wp_type_check; [|done|done|done|].
  - apply Nat.lt_succ_r. rewrite <- Hlen. by apply rep_height.
  - intros tbl R K L. apply HQ; [done|done|congruence|done].
Qed.

(** C10: A line of statements that name known variables and functions passes the type check: no
    error is set, and the check gives each node of the tree the data type of its first leaf
    and the address bit where an address is wanted; no other node changes. *)
Theorem finsh_type_check_types (es : list expr) t :
  encs s false (to_exprs es) t -> rep (global_node_table s) t -> NoDup (keys t) -> length (global_node_table s) = FINSH_NODE_MAX ->
  exists (tbl : list finsh_node) (t' : forest), finsh_type_check node_fuel (froot t) FINSH_NODE_VALUE s = Ok tt (W tbl) /\
    rep tbl t' /\ encs s true (to_exprs es) t' /\ keys t' = keys t /\ froot t' = froot t /\
    (forall k, k ∉ keys t -> tbl !! k = global_node_table s !! k).
Proof.
  intros He Hr Hnd Hlen.
  assert (wp (finsh_type_check node_fuel (froot t) FINSH_NODE_VALUE) (fun _ s' => exists tbl, s' = W tbl /\
    rep tbl (annot s t 0) /\ encs s true (to_exprs es) (annot s t 0) /\ forall k, k ∉ keys t -> tbl !! k = global_node_table s !! k) s)
    as ([] & s' & E & tbl & -> & R & He' & K)%wp_ok.
  { apply wp_check with (to_exprs es); [done..|]. intros tbl R He' _ K. by exists tbl. }
  exists tbl, (annot s t 0). destruct (annot_keys s t 0) as [K1 K2]. by split_and!.
Qed.

Definition cleared (st : finsh) : finsh :=
  set_finsh_vm_stack (<[0%nat := 0]> (finsh_vm_stack st)) st.

Lemma wp_compiler_run e es t (Q : Z -> finsh -> Prop) :
  encs s false (to_exprs (e :: es)) t -> rep (global_node_table s) t -> NoDup (keys t) ->
  length (global_node_table s) = FINSH_NODE_MAX -> Forall wt (e :: es) -> (length (prog_code e es) <= 128)%nat ->
  (forall tbl, Q 0 (emitted (cleared (W tbl)) (prog_code e es))) ->
  wp (finsh_compiler_run (froot t)) Q s.
Proof.
  intros He Hr Hnd Hlen Hw Hl HQ. unfold finsh_compiler_run. wp_step. apply wp_check with (to_exprs (e :: es)); [done..|].
  intros tbl Hr' He' Hlen' _. wp_step. apply wp_modify. wp_step. apply wp_modify. wp_step. apply wp_modify. wp_step.
  change (set_finsh_compile_pc 0 _) with (emitted (set_global_node_table tbl (cleared s)) []).
  rewrite <- (proj2 (annot_keys s t 0)).
  assert (forest_len (annot s t 0) < node_fuel)%nat as Hf.
  { apply Nat.lt_succ_r. etransitivity; [apply forest_len_height|]. rewrite <- Hlen'.
    apply rep_height; [done|]. by rewrite (proj1 (annot_keys s t 0)). }
  apply (wp_statements (cleared s) es e); [done|by rewrite (proj1 (annot_keys s t 0))|done|done|exact He'|done|simpl; lia|].
  intros tbl'. wp_step. apply (HQ tbl').
Qed.

(** The machine on the emitted code *)
Lemma vm_run_emitted e es st v m' :
  Forall wt (e :: es) -> (length (prog_code e es) <= 128)%nat -> length (finsh_vm_stack st) = 64%nat ->
  prog_eval e es (f_mem st) = Ok v m' ->
  exists stk w pc, finsh_vm_run (emitted st (prog_code e es)) = Ok tt (vmst (emitted st (prog_code e es)) m' stk 1 pc) /\
    stk !! 0%nat = Some w /\ getw (prog_type e es) w = v.
Proof.
  intros Hw Hl Hst He. set (s1 := emitted st (prog_code e es)). set (T := text_segment s1).
  assert (T = prog_code e es ++ replicate (128 - length (prog_code e es)) 0) as ET by done.
  assert (length T = 128%nat) as HT by (rewrite ET, length_app, length_replicate; lia).
  assert (code_at T 0 (prog_code e es)) as Hc.
  { intros i b Hi. rewrite ET. by apply lookup_app_l_Some. }
  destruct (exec_prog s1 HT es e (f_mem st) (finsh_vm_stack st) 0%nat v m' Hw Hc Hl Hst He) as (stk & w & S1 & W1 & G1).
  assert (vm_steps (vmst s1 (f_mem st) (finsh_vm_stack st) 0 0) (vmst s1 m' stk 1 128)) as Hs.
  { etransitivity; [exact S1|]. pose proof (exec_rest s1 HT (128 - length (prog_code e es)) m' stk 1%nat (length (prog_code e es))) as Hr.
    replace (length (prog_code e es) + (128 - length (prog_code e es)))%nat with 128%nat in Hr by lia. apply Hr; [|lia].
    intros i Hi. change (T !! i = Some 0). rewrite ET, lookup_app_r by lia. apply lookup_replicate_2. lia. }
  exists stk, w, 128%nat. split_and!; [|done|done].
  exact (vm_loop_steps s1 HT _ _ Hs ltac:(done) ltac:(done) ltac:(done) (S (Z.to_nat FINSH_TEXT_MAX)) ltac:(done)).
Qed.

(** C9: Compiling a line of well typed statements and running the machine computes what the
    statements mean, provided the code fits the text segment: the memory afterwards is that
    of the statements, the value of the last one is at the bottom of the stack, and no
    error is set. *)
Theorem finsh_compile_run_correct e es t v m' :
  encs s false (to_exprs (e :: es)) t -> rep (global_node_table s) t -> NoDup (keys t) ->
  length (global_node_table s) = FINSH_NODE_MAX -> length (finsh_vm_stack s) = 64%nat ->
  Forall wt (e :: es) -> (length (prog_code e es) <= 128)%nat -> prog_eval e es (f_mem s) = Ok v m' ->
  exists s', (finsh_compiler_run (froot t);; finsh_vm_run) s = Ok tt s' /\ f_mem s' = m' /\
    global_errno s' = global_errno s /\ global_variable s' = global_variable s /\
    exists w, finsh_vm_stack s' !! 0%nat = Some w /\ getw (prog_type e es) w = v.
Proof.
  intros He Hr Hnd Hlen Hst Hw Hl Hv.
  assert (wp (finsh_compiler_run (froot t);; finsh_vm_run) (fun _ s' => f_mem s' = m' /\
    global_errno s' = global_errno s /\ global_variable s' = global_variable s /\
    exists w, finsh_vm_stack s' !! 0%nat = Some w /\ getw (prog_type e es) w = v) s) as ([] & s' & E & Hs')%wp_ok; [|by exists s'].
  wp_step. apply (wp_compiler_run e es); [done..|]. intros tbl.
  destruct (vm_run_emitted e es (cleared (W tbl)) v m') as (stk & w & pc & E & W1 & G1); [done|done| |done|].
  { simpl. by rewrite length_insert. }
  unfold wp. rewrite E. split_and!; [done..|]. by exists w.
Qed.
End line.
