(* ===== verification/FinshHeap.v ===== *)
(** * The shell's heap and syntax nodes (components/finsh: finsh_heap.c, finsh_node.c)

    The heap is 128 bytes of memory.  A block is a header (length, next) and its data; the
    free and the allocated blocks are two lists sorted by address. *)
From stdpp Require Import base tactics numbers list gmap.
From S2P Require Import Prelude Memory Finsh FinshVm FinshCompiler.
Local Open Scope Z_scope.

Definition HEAP_ALIGN_SIZE (size : Z) : Z := Z.land (u32 (size + 4 - 1)) (Z.lnot (4 - 1)).
Definition header_size : Z := 8.
Definition finsh_block_get_header (data : Z) : Z := data - header_size.
Definition finsh_block_get_data (header : Z) : Z := header + header_size.

(** The fields of a header *)
Definition block_length (p : Z) : F Z := on_mem (rd32 p).
Definition block_next (p : Z) : F Z := on_mem (rd32 (p + 4)).
Definition set_block_length (p v : Z) : F unit := on_mem (wr32 p v).
Definition set_block_next (p v : Z) : F unit := on_mem (wr32 (p + 4) v).

Inductive block_list := FreeList | AllocateList.
Definition list_head (l : block_list) : F Z :=
  gets (match l with FreeList => free_list | AllocateList => allocate_list end).
Definition set_list_head (l : block_list) (v : Z) : F unit :=
  modify (match l with FreeList => set_free_list v | AllocateList => set_allocate_list v end).

(** [memset(p, 0, n)] *)
Fixpoint zero_bytes (p : Z) (n : nat) : M mem unit :=
  match n with O => mret tt | S n' => wr8 p 0;; zero_bytes (p + 1) n' end.

(** A block takes at least a header, so a list has at most 16 blocks. *)
Definition block_fuel : nat := S (Z.to_nat (FINSH_HEAP_MAX / header_size)).

Section heap.
Context `{FinshEnv}.

Definition finsh_heap_init : F Z :=
  on_mem (zero_bytes finsh_heap (Z.to_nat FINSH_HEAP_MAX));;
  set_list_head FreeList finsh_heap;;
  set_block_length finsh_heap (FINSH_HEAP_MAX - header_size);;
  set_block_next finsh_heap RT_NULL;;
  set_list_head AllocateList RT_NULL;;
  mret 0.

(** [for (node = ...; node; node = node->next) if (stop(node)) break;] *)
Fixpoint scan (fuel : nat) (stop : Z -> F bool) (node : Z) : F Z :=
  match fuel with
  | O => throw OutOfFuel
  | S fuel' =>
      if node =? RT_NULL then mret RT_NULL
      else b ← stop node; if b : bool then mret node else next ← block_next node; scan fuel' stop next
  end.

Definition finsh_block_insert (l : block_list) (header : Z) : F unit :=
  node ← list_head l;
  if node =? RT_NULL then set_list_head l header
  else if header <? node then set_block_next header node;; set_list_head l header
  else
    node ← scan block_fuel (fun node => next ← block_next node; mret ((header <? next) || (next =? RT_NULL))) node;
    next ← block_next node;
    when (negb (next =? RT_NULL)) (set_block_next header next);;
    set_block_next node header.

Definition finsh_block_remove (l : block_list) (header : Z) : F unit :=
  node ← list_head l;
  if node =? header then
    next ← block_next header; set_list_head l next;; set_block_next header RT_NULL
  else
    node ← scan block_fuel (fun node => next ← block_next node; mret (next =? header)) node;
    when (negb (node =? RT_NULL)) (next ← block_next header; set_block_next node next).

Definition finsh_block_split (header size : Z) : F unit :=
  let next := header + header_size + size in
  len ← block_length header;
  set_block_length next (u32 (len - header_size - size));;
  set_block_length header size;;
  n ← block_next header;
  set_block_next next n;;
  set_block_next header next.

Definition finsh_block_merge (l : block_list) (header : Z) : F unit :=
  next_node ← block_next header;
  head ← list_head l;
  prev_node ← (if head =? header then mret RT_NULL
               else scan block_fuel (fun node => next ← block_next node; mret (next =? header)) head);
  prev_len ← (if prev_node =? RT_NULL then mret 0 else block_length prev_node);
  if negb (prev_node =? RT_NULL) && (prev_node + prev_len + header_size =? header) then
    len ← block_length header;
    if negb (next_node =? RT_NULL) && (header + len + header_size =? next_node) then
      next_len ← block_length next_node;
      set_block_length prev_node (u32 (prev_len + (len + next_len + 2 * header_size)));;
      n ← block_next next_node; set_block_next prev_node n
    else
      set_block_length prev_node (u32 (prev_len + (len + header_size)));;
      n ← block_next header; set_block_next prev_node n
  else
    len ← block_length header;
    when (negb (next_node =? RT_NULL) && (header + len + header_size =? next_node)) (
      next_len ← block_length next_node;
      set_block_length header (u32 (len + (next_len + header_size)));;
      n ← block_next next_node; set_block_next header n).

Definition finsh_heap_free (ptr : Z) : F unit :=
  let header := finsh_block_get_header ptr in
  finsh_block_remove AllocateList header;;
  finsh_block_insert FreeList header;;
  finsh_block_merge FreeList header.

(** The inner loop of the collector: does a variable point to the block? *)
Fixpoint referenced (i : nat) (l : list finsh_var) (data : Z) : F bool :=
  match l with
  | [] => mret false
  | v :: l' =>
      if bool_decide (var_type v = finsh_type_unknown) then referenced (S i) l' data
      else ptr ← on_mem (rd32 (value_addr (var_addr i)));
           if ptr =? data then mret true else referenced (S i) l' data
  end.

Fixpoint gc_loop (fuel : nat) (header : Z) : F unit :=
  match fuel with
  | O => throw OutOfFuel
  | S fuel' =>
      if header =? RT_NULL then mret tt
      else
        vars ← gets global_variable;
        used ← referenced 0 vars (finsh_block_get_data header);
        next ← block_next header;
        when (negb used) (finsh_heap_free (finsh_block_get_data header));;
        gc_loop fuel' next
  end.
Definition finsh_heap_gc : F unit := header ← list_head AllocateList; gc_loop block_fuel header.

Definition finsh_heap_allocate (size : Z) : F Z :=
  let size := HEAP_ALIGN_SIZE size in
  head ← list_head FreeList;
  header ← scan block_fuel (fun p => len ← block_length p; mret (negb (len <=? u32 (size + header_size)))) head;
  header ← (if header =? RT_NULL then
              finsh_heap_gc;;
              head ← list_head FreeList;
              scan block_fuel (fun p => len ← block_length p; mret (negb (len <? u32 (size + header_size)))) head
            else mret header);
  if header =? RT_NULL then mret RT_NULL
  else
    finsh_block_split header size;;
    finsh_block_remove FreeList header;;
    set_block_next header RT_NULL;;
    finsh_block_insert AllocateList header;;
    on_mem (zero_bytes (finsh_block_get_data header) (Z.to_nat size));;
    mret (finsh_block_get_data header).

(** ** Nodes *)

Definition no_node : finsh_node := mk_node FINSH_NODE_UNKNOWN 0 0 0 0 None None.

Definition finsh_node_init : F Z := modify (set_global_node_table (replicate FINSH_NODE_MAX no_node));; mret 0.

(** The first entry that is not in use *)
Definition finsh_node_allocate (type : Z) : F (option nat) :=
  tbl ← gets global_node_table;
  match list_find (fun n => nd_type n = FINSH_NODE_UNKNOWN) tbl with
  | None => mret None
  | Some (i, n) => upd_node i (set_nd_type type);; mret (Some i)
  end.

(** A new node of a kind, filled by [f]; without a free entry, an error *)
Definition new_node (type : Z) (f : finsh_node -> finsh_node) : F (option nat) :=
  node ← finsh_node_allocate type;
  match node with
  | None => finsh_error_set FINSH_ERROR_MEMORY_FULL;; mret None
  | Some i => upd_node i f;; mret (Some i)
  end.

(** [id] comes from a buffer of 17 bytes filled by [strncpy(id, ..., 16)]: with 16
    characters its last byte is not initialised, and only the search of the variables,
    which compares 16 characters, does not read it. *)
Definition finsh_node_new_id (id : list Z) : F (option nat) :=
  symbol ← finsh_var_lookup id;
  if negb (symbol =? RT_NULL) then
    new_node FINSH_NODE_ID (fun n => set_nd_idtype FINSH_IDTYPE_VAR (set_nd_id symbol n))
  else if bool_decide (FINSH_NAME_MAX <= length id)%nat then throw Undefined
  else
    symbol ← finsh_sysvar_lookup id;
    if negb (symbol =? RT_NULL) then
      new_node FINSH_NODE_ID (fun n => set_nd_idtype FINSH_IDTYPE_SYSVAR (set_nd_id symbol n))
    else
      symbol ← finsh_syscall_lookup id;
      if negb (symbol =? RT_NULL) then
        new_node FINSH_NODE_ID (fun n => set_nd_idtype FINSH_IDTYPE_SYSCALL (set_nd_id symbol n))
      else finsh_error_set FINSH_ERROR_UNKNOWN_SYMBOL;; mret None.

Definition finsh_node_new_char (c : Z) : F (option nat) :=
  new_node FINSH_NODE_VALUE_CHAR (fun n => set_nd_value (set_char_value c (nd_value n)) n).
Definition finsh_node_new_int (i : Z) : F (option nat) := new_node FINSH_NODE_VALUE_INT (set_nd_value (u32 i)).
Definition finsh_node_new_long (l : Z) : F (option nat) := new_node FINSH_NODE_VALUE_LONG (set_nd_value (u32 l)).
Definition finsh_node_new_ptr (ptr : Z) : F (option nat) := new_node FINSH_NODE_VALUE_NULL (set_nd_value ptr).

Fixpoint store_bytes (p : Z) (l : list Z) : M mem unit :=
  match l with [] => mret tt | b :: l' => wr8 p b;; store_bytes (p + 1) l' end.

(** What finsh_heap_allocate returns is not tested. *)
Definition finsh_node_new_string (s : list Z) : F (option nat) :=
  node ← finsh_node_allocate FINSH_NODE_VALUE_STRING;
  match node with
  | None => finsh_error_set FINSH_ERROR_MEMORY_FULL;; mret None
  | Some i =>
      ptr ← finsh_heap_allocate (Z.of_nat (length s) + 1);
      upd_node i (set_nd_value ptr);;
      on_mem (store_bytes ptr (s ++ [0]));;
      mret (Some i)
  end.
End heap.
