(* ===== verification/FinshToken.v ===== *)
(** * The shell's tokens (components/finsh: finsh_token.c, finsh_token.h)

    The tokenizer reads a line, a C string, character by character.  [char] is unsigned. *)
From stdpp Require Import base tactics numbers list gmap.
From S2P Require Import Prelude Memory Finsh FinshVm.
Local Open Scope Z_scope.

Inductive finsh_token_type :=
| finsh_token_type_none
| finsh_token_type_left_paren | finsh_token_type_right_paren | finsh_token_type_comma | finsh_token_type_semicolon
| finsh_token_type_mul | finsh_token_type_add | finsh_token_type_inc | finsh_token_type_sub | finsh_token_type_dec
| finsh_token_type_div | finsh_token_type_mod | finsh_token_type_assign | finsh_token_type_and | finsh_token_type_or
| finsh_token_type_xor | finsh_token_type_bitwise | finsh_token_type_shl | finsh_token_type_shr | finsh_token_type_comments
| finsh_token_type_void | finsh_token_type_char | finsh_token_type_short | finsh_token_type_int | finsh_token_type_long
| finsh_token_type_unsigned
| finsh_token_type_value_char | finsh_token_type_value_int | finsh_token_type_value_long | finsh_token_type_value_string
| finsh_token_type_value_null
| finsh_token_type_identifier | finsh_token_type_bad | finsh_token_type_eof.

#[export] Instance finsh_token_type_eq_dec : EqDecision finsh_token_type.
Proof. solve_decision. Defined.
(** [token == type] *)
Definition is_token (a b : finsh_token_type) : bool := bool_decide (a = b).

(** [line] has no terminator; [tk_value] is the word of the union; [tk_string] is the
    buffer of 128 bytes.  The token of a cleared structure is 0, [finsh_token_type_none]. *)
Record finsh_token := mk_token {
  eof : bool;
  replay : bool;
  position : nat;
  current_token : finsh_token_type;
  tk_value : Z;
  tk_string : list Z;
  line : list Z
}.
Definition set_eof (v : bool) (t : finsh_token) : finsh_token :=
  mk_token v (replay t) (position t) (current_token t) (tk_value t) (tk_string t) (line t).
Definition set_replay (v : bool) (t : finsh_token) : finsh_token :=
  mk_token (eof t) v (position t) (current_token t) (tk_value t) (tk_string t) (line t).
Definition set_position (v : nat) (t : finsh_token) : finsh_token :=
  mk_token (eof t) (replay t) v (current_token t) (tk_value t) (tk_string t) (line t).
Definition set_current_token (v : finsh_token_type) (t : finsh_token) : finsh_token :=
  mk_token (eof t) (replay t) (position t) v (tk_value t) (tk_string t) (line t).
Definition set_tk_value (v : Z) (t : finsh_token) : finsh_token :=
  mk_token (eof t) (replay t) (position t) (current_token t) v (tk_string t) (line t).
Definition set_tk_string (v : list Z) (t : finsh_token) : finsh_token :=
  mk_token (eof t) (replay t) (position t) (current_token t) (tk_value t) v (line t).

(** The tokenizer works on its structure and the error number. *)
Record tokens := mk_tokens { tk : finsh_token; tk_errno : Z }.
Abbreviation T := (M tokens).
Definition upd (f : finsh_token -> finsh_token) : T unit := modify (fun s => mk_tokens (f (tk s)) (tk_errno s)).
Definition token_error (e : Z) : T unit := modify (fun s => mk_tokens (tk s) e).

Definition finsh_token_init (line : list Z) : finsh_token :=
  mk_token false false 0 finsh_token_type_none 0 (replicate (Z.to_nat FINSH_STRING_MAX) 0) line.

(** ** Characters *)

Definition is_alpha (ch : Z) : bool := u32 (Z.lor ch 0x20 - 97) <? 26.
Definition is_digit (ch : Z) : bool := (48 <=? ch) && (ch <=? 57).
Definition is_separator (ch : Z) : bool :=
  negb (((97 <=? ch) && (ch <=? 122)) || ((65 <=? ch) && (ch <=? 90)) || ((48 <=? ch) && (ch <=? 57)) || (ch =? 95)).

Definition token_next_char : T Z :=
  s ← get;
  if eof (tk s) then mret 0
  else
    match line (tk s) !! position (tk s) with
    | None => upd (fun t => set_position 0 (set_eof true t));; mret 0
    | Some ch =>
        if ch =? 10 then upd (fun t => set_position 0 (set_eof true t));; mret 0
        else upd (fun t => set_position (S (position t)) t);; mret ch
    end.

Definition token_prev_char : T unit :=
  s ← get;
  if eof (tk s) then mret tt
  else upd (fun t => set_position (pred (position t)) t).

(** [self->string[i] = ch] *)
Definition put_string (i : nat) (ch : Z) : T unit :=
  if bool_decide (i < Z.to_nat FINSH_STRING_MAX)%nat then upd (fun t => set_tk_string (<[i := ch]> (tk_string t)) t)
  else throw BadPointer.

(** The bytes of the buffer before the first zero; without one, the string runs on. *)
Fixpoint c_string (buf : list Z) : option (list Z) :=
  match buf with
  | [] => None
  | ch :: buf' => if ch =? 0 then Some [] else s ← c_string buf'; Some (ch :: s)
  end.

(** Every character read moves on or sets [eof]. *)
Definition char_fuel (s : tokens) : nat := S (S (length (line (tk s)))).

(** ** Identifiers *)

Definition token_get_string : T Z :=
  ch ← token_next_char;
  s ← get;
  if eof (tk s) then mret (-1)
  else
    put_string 0 0;;
    if is_digit ch then token_prev_char;; mret (-1)
    else
      r ← while (char_fuel s)
        (fun p => s ← get; mret (negb (is_separator p.1) && negb (eof (tk s))))
        (fun p => put_string p.2 p.1;; ch ← token_next_char; mret (ch, S p.2)) (ch, O);
      upd (set_eof false);;
      token_prev_char;;
      put_string r.2 0;; mret 0.

Definition finsh_name_table : list (list Z * finsh_token_type) := [
  ([118; 111; 105; 100], finsh_token_type_void);
  ([99; 104; 97; 114], finsh_token_type_char);
  ([115; 104; 111; 114; 116], finsh_token_type_short);
  ([105; 110; 116], finsh_token_type_int);
  ([108; 111; 110; 103], finsh_token_type_long);
  ([117; 110; 115; 105; 103; 110; 101; 100], finsh_token_type_unsigned);
  ([78; 85; 76; 76], finsh_token_type_value_null);
  ([110; 117; 108; 108], finsh_token_type_value_null) ].

Definition token_match_name (str : list Z) : T bool :=
  match list_find (fun e => streq e.1 str = true) finsh_name_table with
  | Some (_, e) => upd (set_current_token e.2);; mret true
  | None => mret false
  end.

Definition token_trim_space : T unit :=
  s ← get;
  while (char_fuel s) (fun _ => ch ← token_next_char; mret ((ch =? 32) || (ch =? 9) || (ch =? 13))) mret tt;;
  token_prev_char.

(** ** Characters and strings *)

(** ['\113']: the digits go to [buf], but [atoi] is applied to what follows them. *)
Definition token_proc_char : T Z :=
  ch ← token_next_char;
  ch ← (if ch =? 92 then
          ch ← token_next_char;
          if ch =? 110 then mret 10 else if ch =? 116 then mret 9 else if ch =? 118 then mret 11
          else if ch =? 98 then mret 8 else if ch =? 114 then mret 13 else if ch =? 92 then mret 92
          else if ch =? 39 then mret 39
          else
            s ← get;
            r ← while (char_fuel s) (fun p : Z * Z => mret (is_digit p.1))
              (fun p => ch ← token_next_char; if p.2 <? 4 then mret (ch, p.2 + 1) else throw BadPointer) (ch, 0);
            token_prev_char;;
            if r.2 <? 4 then mret 0 else throw BadPointer
        else mret ch);
  next ← token_next_char;
  if negb (next =? 39) then token_prev_char;; token_error FINSH_ERROR_EXPECT_CHAR;; mret ch
  else mret ch.

Definition token_proc_escape : T Z :=
  ch ← token_next_char;
  if ch =? 110 then mret 10 else if ch =? 116 then mret 9 else if ch =? 118 then mret 11
  else if ch =? 98 then mret 8 else if ch =? 114 then mret 13 else if ch =? 102 then mret 12
  else if ch =? 97 then mret 7
  else if ch =? 120 then
    ch ← token_next_char;
    s ← get;
    r ← while (char_fuel s) (fun p : Z * Z => mret (u32 (p.1 - 48) <? 16))
      (fun p => ch ← token_next_char; mret (ch, s32 (p.2 * 16 + p.1 - 48))) (ch, 0);
    token_prev_char;; mret r.2
  else if u32 (ch - 48) <? 8 then
    s ← get;
    r ← while (char_fuel s) (fun p : Z * Z => mret (u32 (p.1 - 48) <? 8))
      (fun p => ch ← token_next_char; mret (ch, s32 (p.2 * 8 + p.1 - 48))) (ch, 0);
    token_prev_char;; mret r.2
  else mret 0.

(** The loop of token_proc_string at [string[i]]; each round reads a character. *)
Fixpoint proc_string_loop (n : nat) (i : nat) : T unit :=
  match n with
  | O => mret tt
  | S n' =>
      ch ← token_next_char;
      s ← get;
      if eof (tk s) then token_error FINSH_ERROR_UNEXPECT_END
      else if ch =? 92 then ch ← token_proc_escape; put_string i (u8 ch);; proc_string_loop n' (S i)
      else if ch =? 34 then put_string i 0
      else put_string i ch;; proc_string_loop n' (S i)
  end.
Definition token_proc_string : T unit := proc_string_loop (Z.to_nat FINSH_STRING_MAX) 0.

(** ** Numbers *)

Definition digit_value (t : Z) : Z :=
  if (97 <=? t) && (t <=? 102) then t - 97 + 10
  else if (65 <=? t) && (t <=? 70) then t - 65 + 10
  else t - 48.

(** A number of 64 bits in two words, of which the low one is returned *)
Definition spec_step (shift : Z) (bn : Z * Z) (ch : Z) : Z * Z :=
  let t0 := u32 (digit_value ch) in
  let t1 := Z.shiftr bn.1 (32 - shift) in
  (Z.lor (u32 (Z.shiftl bn.1 shift)) t0, Z.lor (u32 (Z.shiftl bn.2 shift)) t1).
Definition token_spec_number (string : list Z) (b : Z) : Z :=
  let shift := if b =? 16 then 4 else if b =? 8 then 3 else 1 in
  s32 (foldl (spec_step shift) (0, 0) string).1.

(** [while (test(ch)) { *p++ = ch; ch = token_next_char(self); } *p = 0] with a buffer of
    128 bytes: the characters and the one that follows them *)
Definition read_digits (test : Z -> bool) (ch : Z) : T (Z * list Z) :=
  s ← get;
  r ← while (char_fuel s) (fun p : Z * list Z => mret (test p.1))
    (fun p => if bool_decide (length p.2 < 128)%nat then ch ← token_next_char; mret (ch, p.2 ++ [p.1]) else throw BadPointer)
    (ch, []);
  if bool_decide (length r.2 < 128)%nat then mret r else throw BadPointer.

(** The suffix [l] makes a number long. *)
Definition number_suffix (ch : Z) : T unit :=
  if (ch =? 108) || (ch =? 76) then upd (set_current_token finsh_token_type_value_long) else token_prev_char.

Definition number_value (v : Z) : T unit :=
  upd (set_tk_value (u32 v));; upd (set_current_token finsh_token_type_value_int).

Definition token_proc_number : T unit :=
  ch ← token_next_char;
  if ch =? 48 then
    ch ← token_next_char;
    if (ch =? 120) || (ch =? 88) then
      ch ← token_next_char;
      r ← read_digits (fun ch => is_digit ch || is_alpha ch) ch;
      number_value (token_spec_number r.2 16);; number_suffix r.1
    else if (ch =? 98) || (ch =? 66) then
      ch ← token_next_char;
      r ← read_digits (fun ch => (ch =? 48) || (ch =? 49)) ch;
      number_value (token_spec_number r.2 2);; number_suffix r.1
    else if (48 <=? ch) && (ch <=? 55) then
      r ← read_digits (fun ch => (48 <=? ch) && (ch <=? 55)) ch;
      number_value (token_spec_number r.2 8);; number_suffix r.1
    else token_prev_char;; number_value 0
  else
    s ← get;
    r ← while (char_fuel s) (fun p : Z * Z => mret (is_digit p.1))
      (fun p => ch ← token_next_char; mret (ch, s32 (p.2 * 10 + (p.1 - 48)))) (ch, 0);
    number_value r.2;; number_suffix r.1.

(** ** Tokens *)

(** An operator of one character, or of two if [second] follows *)
Definition one_or_two (second : Z) (two one : finsh_token_type) : T unit :=
  ch ← token_next_char;
  if ch =? second then upd (set_current_token two) else token_prev_char;; upd (set_current_token one).

Definition token_operator (ch : Z) : T unit :=
  if ch =? 40 then upd (set_current_token finsh_token_type_left_paren)
  else if ch =? 41 then upd (set_current_token finsh_token_type_right_paren)
  else if ch =? 44 then upd (set_current_token finsh_token_type_comma)
  else if ch =? 59 then upd (set_current_token finsh_token_type_semicolon)
  else if ch =? 38 then upd (set_current_token finsh_token_type_and)
  else if ch =? 42 then upd (set_current_token finsh_token_type_mul)
  else if ch =? 43 then one_or_two 43 finsh_token_type_inc finsh_token_type_add
  else if ch =? 45 then one_or_two 45 finsh_token_type_dec finsh_token_type_sub
  else if ch =? 47 then one_or_two 47 finsh_token_type_eof finsh_token_type_div
  else if ch =? 60 then one_or_two 60 finsh_token_type_shl finsh_token_type_bad
  else if ch =? 62 then one_or_two 62 finsh_token_type_shr finsh_token_type_bad
  else if ch =? 124 then upd (set_current_token finsh_token_type_or)
  else if ch =? 37 then upd (set_current_token finsh_token_type_mod)
  else if ch =? 126 then upd (set_current_token finsh_token_type_bitwise)
  else if ch =? 94 then upd (set_current_token finsh_token_type_xor)
  else if ch =? 61 then upd (set_current_token finsh_token_type_assign)
  else if ch =? 39 then
    c ← token_proc_char;
    upd (fun t => set_tk_value (set_char_value c (tk_value t)) t);;
    upd (set_current_token finsh_token_type_value_char)
  else if ch =? 34 then token_proc_string;; upd (set_current_token finsh_token_type_value_string)
  else if is_digit ch then token_prev_char;; token_proc_number
  else token_error FINSH_ERROR_UNKNOWN_TOKEN;; upd (set_current_token finsh_token_type_bad).

Definition token_run : T unit :=
  token_trim_space;;
  _ ← token_get_string;
  s ← get;
  if eof (tk s) then upd (set_current_token finsh_token_type_eof)
  else
    str ← opt BadPointer (c_string (tk_string (tk s)));
    if negb (bool_decide (str = [])) then
      b ← token_match_name str;
      when (negb b) (upd (set_current_token finsh_token_type_identifier))
    else ch ← token_next_char; token_operator ch.

Definition finsh_token_token : T finsh_token_type :=
  s ← get;
  (if replay (tk s) then upd (set_replay false) else token_run);;
  s ← get; mret (current_token (tk s)).
Definition finsh_token_replay : T unit := upd (set_replay true).
