(* ===== verification/FinshParser.v ===== *)
(** * The shell's parser (components/finsh: finsh_parser.c, finsh_init.c)

    A recursive descent parser that builds the tree in the node table.  The functions
    call each other recursively through proc_assign_expr and proc_cast_expr; the others
    take these two as arguments.  A pointer to a node is an index, NULL is [None]. *)
From stdpp Require Import base tactics numbers list gmap.
From S2P Require Import Prelude Memory Finsh FinshVm FinshCompiler FinshHeap FinshToken.
Local Open Scope Z_scope.

(** The parser's structure with the globals of the shell *)
Record finsh_parser := mk_parser { fp_shell : finsh; fp_token : finsh_token; root : option nat }.
Abbreviation P := (M finsh_parser).

Definition shell_op {A} (c : F A) : P A := fun s =>
  match c (fp_shell s) with Ok a f => Ok a (mk_parser f (fp_token s) (root s)) | Fault e => Fault e end.
(** The tokenizer sets the same error number. *)
Definition token_op {A} (c : T A) : P A := fun s =>
  match c (mk_tokens (fp_token s) (global_errno (fp_shell s))) with
  | Ok a t => Ok a (mk_parser (set_global_errno (tk_errno t) (fp_shell s)) (tk t) (root s))
  | Fault e => Fault e
  end.
Definition set_root (r : option nat) : P unit := modify (fun s => mk_parser (fp_shell s) (fp_token s) r).

Definition next_token : P finsh_token_type := token_op finsh_token_token.
Definition replay_token : P unit := token_op finsh_token_replay.
Definition error (e : Z) : P unit := shell_op (finsh_error_set e).

Definition check_token (token type : finsh_token_type) : P unit :=
  when (negb (is_token token type)) (error FINSH_ERROR_INVALID_TOKEN;; replay_token).
Definition match_token (type : finsh_token_type) : P unit := token ← next_token; check_token token type.

Definition is_base_type (token : finsh_token_type) : bool :=
  is_token token finsh_token_type_void || is_token token finsh_token_type_char || is_token token finsh_token_type_short ||
  is_token token finsh_token_type_int || is_token token finsh_token_type_long.

Definition base_type (token : finsh_token_type) : finsh_type :=
  match token with
  | finsh_token_type_void => finsh_type_void
  | finsh_token_type_char => finsh_type_char
  | finsh_token_type_short => finsh_type_short
  | finsh_token_type_int => finsh_type_int
  | finsh_token_type_long => finsh_type_long
  | _ => finsh_type_unknown
  end.
(** [unsigned void] is no type. *)
Definition unsigned_type (token : finsh_token_type) : option finsh_type :=
  match token with
  | finsh_token_type_char => Some finsh_type_uchar
  | finsh_token_type_short => Some finsh_type_ushort
  | finsh_token_type_int => Some finsh_type_uint
  | finsh_token_type_long => Some finsh_type_ulong
  | _ => None
  end.
Definition pointer_type (type : finsh_type) : finsh_type :=
  match type with
  | finsh_type_char | finsh_type_uchar => finsh_type_charp
  | finsh_type_short | finsh_type_ushort => finsh_type_shortp
  | finsh_type_int | finsh_type_uint => finsh_type_intp
  | finsh_type_long | finsh_type_ulong => finsh_type_longp
  | _ => finsh_type_voidp
  end.

(** [type_return] is the code at the label [__return]. *)
Definition proc_type : P finsh_type :=
  let type_return := replay_token;; error FINSH_ERROR_UNKNOWN_TYPE;; mret finsh_type_unknown in
  let pointer type :=
    token ← next_token;
    if is_token token finsh_token_type_mul then mret (pointer_type type) else replay_token;; mret type in
  token ← next_token;
  if is_base_type token then pointer (base_type token)
  else if is_token token finsh_token_type_unsigned then
    token ← next_token;
    if is_base_type token then
      match unsigned_type token with Some type => pointer type | None => type_return end
    else replay_token;; error FINSH_ERROR_EXPECT_TYPE;; pointer finsh_type_unknown
  else type_return.

(** The identifier is copied whatever the token is. *)
Definition proc_identifier : P (list Z) :=
  match_token finsh_token_type_identifier;;
  s ← get;
  id ← opt BadPointer (c_string (tk_string (fp_token s)));
  mret (take FINSH_NAME_MAX id).

(** [finsh_node_sibling(node) = n] *)
Definition set_sibling (node n : option nat) : P unit :=
  match node with Some i => shell_op (upd_node i (set_nd_sibling n)) | None => throw BadPointer end.

Definition make_sys_node (type : Z) (node1 node2 : option nat) : P (option nat) :=
  node ← shell_op (finsh_node_allocate type);
  match node1, node with
  | Some n1, Some n => shell_op (upd_node n (set_nd_child (Some n1)));; shell_op (upd_node n1 (set_nd_sibling node2))
  | _, _ => error FINSH_ERROR_NULL_NODE
  end;;
  mret node.

Section parser.
Context `{FinshEnv}.

(** [op -> sub | op tok sub]: the loop over the operators of one level.  [op] gives the
    node of an operator's token. *)
Definition binary_level (fuel : nat) (op : finsh_token_type -> option Z) (sub : P (option nat)) : P (option nat) :=
  e ← sub;
  token ← next_token;
  r ← while fuel (fun p : option nat * finsh_token_type => mret (bool_decide (is_Some (op p.2))))
    (fun p =>
      e_new ← sub;
      e ← match e_new with
          | None => error FINSH_ERROR_EXPECT_OPERATOR;; mret p.1
          | Some _ => type ← opt BadPointer (op p.2); make_sys_node type p.1 e_new
          end;
      token ← next_token; mret (e, token)) (e, token);
  replay_token;;
  mret r.1.

Definition multiplicative_op (token : finsh_token_type) : option Z :=
  match token with
  | finsh_token_type_mul => Some FINSH_NODE_SYS_MUL
  | finsh_token_type_div => Some FINSH_NODE_SYS_DIV
  | finsh_token_type_mod => Some FINSH_NODE_SYS_MOD
  | _ => None
  end.
Definition additive_op (token : finsh_token_type) : option Z :=
  match token with
  | finsh_token_type_sub => Some FINSH_NODE_SYS_SUB
  | finsh_token_type_add => Some FINSH_NODE_SYS_ADD
  | _ => None
  end.
Definition shift_op (token : finsh_token_type) : option Z :=
  match token with
  | finsh_token_type_shl => Some FINSH_NODE_SYS_SHL
  | finsh_token_type_shr => Some FINSH_NODE_SYS_SHR
  | _ => None
  end.
Definition and_op (token : finsh_token_type) : option Z :=
  match token with finsh_token_type_and => Some FINSH_NODE_SYS_AND | _ => None end.
Definition xor_op (token : finsh_token_type) : option Z :=
  match token with finsh_token_type_xor => Some FINSH_NODE_SYS_XOR | _ => None end.
Definition or_op (token : finsh_token_type) : option Z :=
  match token with finsh_token_type_or => Some FINSH_NODE_SYS_OR | _ => None end.

Section levels.
(** The loops' fuel, and the two functions through which the others recur *)
Context (fuel : nat) (assign cast : P (option nat)).

Definition proc_multiplicative_expr : P (option nat) := binary_level fuel multiplicative_op cast.
Definition proc_additive_expr : P (option nat) := binary_level fuel additive_op proc_multiplicative_expr.
Definition proc_shift_expr : P (option nat) := binary_level fuel shift_op proc_additive_expr.
Definition proc_and_expr : P (option nat) := binary_level fuel and_op proc_shift_expr.
Definition proc_exclusive_or_expr : P (option nat) := binary_level fuel xor_op proc_and_expr.
Definition proc_inclusive_or_expr : P (option nat) := binary_level fuel or_op proc_exclusive_or_expr.

Definition proc_primary_expr : P (option nat) :=
  token ← next_token;
  s ← get;
  match token with
  | finsh_token_type_identifier => replay_token;; id ← proc_identifier; shell_op (finsh_node_new_id id)
  | finsh_token_type_left_paren => expr ← assign; match_token finsh_token_type_right_paren;; mret expr
  | finsh_token_type_value_int => shell_op (finsh_node_new_int (tk_value (fp_token s)))
  | finsh_token_type_value_long => shell_op (finsh_node_new_long (tk_value (fp_token s)))
  | finsh_token_type_value_char => shell_op (finsh_node_new_char (char_value (tk_value (fp_token s))))
  | finsh_token_type_value_string =>
      str ← opt BadPointer (c_string (tk_string (fp_token s))); shell_op (finsh_node_new_string str)
  | finsh_token_type_value_null => shell_op (finsh_node_new_ptr RT_NULL)
  | _ => error FINSH_ERROR_INVALID_TOKEN;; mret None
  end.

(** The loop keeps the last parameter and the token. *)
Definition proc_param_list : P (option nat) :=
  node ← assign;
  match node with
  | None => mret None
  | Some _ =>
      token ← next_token;
      _ ← while fuel (fun p : option nat * finsh_token_type => mret (is_token p.2 finsh_token_type_comma))
        (fun p =>
          n ← assign;
          set_sibling p.1 n;;
          e ← match n with
              | Some _ => mret n
              | None => error FINSH_ERROR_EXPECT_OPERATOR;; mret p.1
              end;
          token ← next_token; mret (e, token)) (node, token);
      replay_token;;
      mret node
  end.

Definition is_postfix (token : finsh_token_type) : bool :=
  is_token token finsh_token_type_inc || is_token token finsh_token_type_dec || is_token token finsh_token_type_left_paren.

Definition proc_postfix_expr : P (option nat) :=
  postfix ← proc_primary_expr;
  token ← next_token;
  r ← while fuel (fun p : option nat * finsh_token_type => mret (is_postfix p.2))
    (fun p =>
      e ← (if is_token p.2 finsh_token_type_inc then make_sys_node FINSH_NODE_SYS_INC p.1 None
           else if is_token p.2 finsh_token_type_dec then make_sys_node FINSH_NODE_SYS_DEC p.1 None
           else
             token ← next_token;
             param_list ← (if negb (is_token token finsh_token_type_right_paren) then
                             replay_token;; l ← proc_param_list; match_token finsh_token_type_right_paren;; mret l
                           else mret None);
             make_sys_node FINSH_NODE_SYS_FUNC p.1 param_list);
      token ← next_token; mret (e, token)) (postfix, token);
  replay_token;;
  mret r.1.

Definition proc_unary_expr : P (option nat) :=
  token ← next_token;
  match token with
  | finsh_token_type_add => cast
  | finsh_token_type_inc => e ← cast; make_sys_node FINSH_NODE_SYS_PREINC e None
  | finsh_token_type_sub =>
      e ← cast; zero ← shell_op (finsh_node_new_long 0); make_sys_node FINSH_NODE_SYS_SUB zero e
  | finsh_token_type_dec => e ← cast; make_sys_node FINSH_NODE_SYS_PREDEC e None
  | finsh_token_type_bitwise => e ← cast; make_sys_node FINSH_NODE_SYS_BITWISE e None
  | finsh_token_type_mul => e ← cast; make_sys_node FINSH_NODE_SYS_GETVALUE e None
  | finsh_token_type_and => e ← cast; make_sys_node FINSH_NODE_SYS_GETADDR e None
  | _ => replay_token;; proc_postfix_expr
  end.

(** A parenthesis here begins a cast. *)
Definition cast_body : P (option nat) :=
  token ← next_token;
  e ← (if is_token token finsh_token_type_left_paren then
         type ← proc_type;
         match_token finsh_token_type_right_paren;;
         e ← cast;
         match e with
         | Some i => shell_op (upd_node i (set_nd_data (type_code type)));; mret e
         | None => mret None
         end
       else mret None);
  match e with
  | Some _ => mret e
  | None => replay_token;; proc_unary_expr
  end.

Definition assign_body : P (option nat) :=
  or ← proc_inclusive_or_expr;
  token ← next_token;
  if is_token token finsh_token_type_assign then e ← assign; make_sys_node FINSH_NODE_SYS_ASSIGN or e
  else replay_token;; mret or.
End levels.

(** The fuel bounds the depth of the recursion and the rounds of each loop. *)
Fixpoint proc_assign_expr (fuel : nat) : P (option nat) :=
  match fuel with
  | O => throw OutOfFuel
  | S fuel' => assign_body fuel' (fun s => proc_assign_expr fuel' s) (fun s => proc_cast_expr fuel' s)
  end
with proc_cast_expr (fuel : nat) : P (option nat) :=
  match fuel with
  | O => throw OutOfFuel
  | S fuel' => cast_body fuel' (fun s => proc_assign_expr fuel' s) (fun s => proc_cast_expr fuel' s)
  end.

Definition proc_expr : nat -> P (option nat) := proc_assign_expr.

Definition proc_expr_statement (fuel : nat) : P (option nat) :=
  token ← next_token;
  if negb (is_token token finsh_token_type_semicolon) then
    replay_token;; expr ← proc_expr fuel; match_token finsh_token_type_semicolon;; mret expr
  else mret None.

(** ** Declarations *)

(** An identifier and the variable it declares *)
Definition declare (type : finsh_type) : P (list Z) :=
  id ← proc_identifier;
  r ← shell_op (finsh_var_insert id type);
  when (r <? 0) (error FINSH_ERROR_VARIABLE_EXIST);;
  mret id.

(** [= assign] has been read up to the token [=]: the assignment is appended to the list
    that starts with [node] and ends with [end]; the next token is read if there is one. *)
Definition decl_assign (fuel : nat) (id : list Z) (p : option nat * option nat * finsh_token_type)
    : P (option nat * option nat * finsh_token_type) :=
  assign ← proc_assign_expr fuel;
  match assign with
  | None => mret p
  | Some _ =>
      idnode ← shell_op (finsh_node_new_id id);
      e ← make_sys_node FINSH_NODE_SYS_ASSIGN idnode assign;
      (match p.1.1 with Some _ => set_sibling p.1.2 e | None => mret tt end);;
      token ← next_token;
      mret (match p.1.1 with Some _ => p.1.1 | None => e end, e, token)
  end.

(** [while (token == ',') ...] *)
Definition decl_rest (fuel : nat) (type : finsh_type) (p : option nat * option nat * finsh_token_type) : P (option nat) :=
  r ← while fuel (fun p : option nat * option nat * finsh_token_type => mret (is_token p.2 finsh_token_type_comma))
    (fun p =>
      id ← declare type;
      token ← next_token;
      if is_token token finsh_token_type_assign then decl_assign fuel id (p.1, token) else mret (p.1, token)) p;
  check_token r.2 finsh_token_type_semicolon;;
  mret r.1.1.

Definition proc_variable_decl (fuel : nat) : P (option nat) :=
  type ← proc_type;
  id ← declare type;
  token ← next_token;
  match token with
  | finsh_token_type_comma =>
      id ← declare type;
      token ← next_token;
      p ← (if is_token token finsh_token_type_assign then decl_assign fuel id (None, None, token)
           else mret (None, None, token));
      decl_rest fuel type p
  | finsh_token_type_assign => p ← decl_assign fuel id (None, None, token); decl_rest fuel type p
  | finsh_token_type_semicolon => mret None
  | _ => error FINSH_ERROR_EXPECT_TYPE;; mret None
  end.

(** ** Lines *)

(** A statement is parsed and linked to the last one, [node]; the result is the new last. *)
Definition add_statement (node : option nat) (statement : P (option nat)) : P (option nat * option nat) :=
  s ← get;
  match root s with
  | Some _ => n ← statement; set_sibling node n;; mret (match n with Some _ => n | None => node end, n)
  | None => n ← statement; set_root n;; mret (n, n)
  end.

Definition parse_round (fuel : nat) (p : option nat * finsh_token_type) : P (option nat) :=
  match p.2 with
  | finsh_token_type_identifier => replay_token;; r ← add_statement p.1 (proc_expr_statement fuel); mret r.1
  | _ =>
      if is_base_type p.2 || is_token p.2 finsh_token_type_unsigned then
        replay_token;; r ← add_statement p.1 (proc_variable_decl fuel); mret r.1
      else
        replay_token;;
        s ← get;
        r ← add_statement p.1 (proc_expr_statement fuel);
        when (bool_decide (is_Some (root s)) && bool_decide (r.2 = None)) (_ ← next_token; mret tt);;
        mret r.1
  end.

(** [None]: the loop has been left by [break]. *)
Definition finsh_parser_run (fuel : nat) (string : list Z) : P unit :=
  modify (fun s => mk_parser (fp_shell s) (finsh_token_init string) (root s));;
  token ← next_token;
  _ ← while fuel
    (fun p : option (option nat * finsh_token_type) =>
      mret match p with
           | Some (_, token) => negb (is_token token finsh_token_type_eof) && negb (is_token token finsh_token_type_bad)
           | None => false
           end)
    (fun p =>
      match p with
      | None => mret None
      | Some p =>
          node ← parse_round fuel p;
          s ← get;
          match root s with
          | None => mret None
          | Some _ => token ← next_token; mret (Some (node, token))
          end
      end) (Some (None, token));
  mret tt.

(** ** finsh_init.c *)

(** [memset] of the parser *)
Definition finsh_parser_init : P unit :=
  modify (fun s => mk_parser (fp_shell s) (finsh_token_init []) None).

Definition finsh_init : P Z :=
  finsh_parser_init;;
  _ ← shell_op finsh_node_init;
  _ ← shell_op finsh_var_init;
  shell_op finsh_error_init;;
  _ ← shell_op finsh_heap_init;
  mret 0.
Definition finsh_flush : P Z :=
  finsh_parser_init;;
  _ ← shell_op finsh_node_init;
  shell_op finsh_error_init;;
  mret 0.
Definition finsh_reset : P Z :=
  _ ← shell_op finsh_node_init;
  _ ← shell_op finsh_var_init;
  shell_op finsh_error_init;;
  _ ← shell_op finsh_heap_init;
  mret 0.
End parser.
