(* ===== verification/FinshLine.v ===== *)
(** * Running a line (components/finsh/shell.c: finsh_run_line) *)
From stdpp Require Import base tactics numbers list gmap.
From S2P Require Import Prelude Memory Finsh FinshVm FinshCompiler FinshHeap FinshToken FinshParser.
Local Open Scope Z_scope.

(** What is printed: the text of an error number, or the value at the bottom of the stack. *)
Inductive printed := PrintError (e : Z) | PrintValue (v : Z).
#[export] Instance printed_eq_dec : EqDecision printed.
Proof. solve_decision. Defined.

Section line.
Context `{FinshEnv}.

(** [fuel] bounds the parser. *)
Definition finsh_run_line (fuel : nat) (line : list Z) : P (list printed) :=
  finsh_parser_run fuel line;;
  e ← shell_op finsh_errno;
  out ← (if e =? 0 then s ← get; _ ← shell_op (finsh_compiler_run (root s)); mret []
         else mret [PrintError e]);
  e ← shell_op finsh_errno;
  out' ← (if e =? 0 then shell_op finsh_vm_run;; v ← shell_op finsh_stack_bottom; mret [PrintValue v] else mret []);
  _ ← finsh_flush;
  mret (out ++ out').
End line.
