(* ===== verification/FinshShell.v ===== *)
(** * The shell's input (components/finsh: shell.c, cmd.c)

    The loop of finsh_thread_entry reads the bytes of its device one by one, edits the
    command line, keeps the history and runs a line at its end.  [input] is what the device
    has to offer; what is echoed to the terminal is not modelled.  The configuration is
    that of the boards: history on, msh off. *)
From stdpp Require Import base tactics numbers list gmap.
From S2P Require Import Prelude Memory Finsh FinshToken.
Local Open Scope Z_scope.

Definition FINSH_CMD_SIZE : nat := 80.
Definition FINSH_HISTORY_LINES : nat := 5.

Inductive input_stat := WAIT_NORMAL | WAIT_SPEC_KEY | WAIT_FUNC_KEY.
#[export] Instance input_stat_eq_dec : EqDecision input_stat.
Proof. solve_decision. Defined.

(** ** Completion (cmd.c) *)

Fixpoint str_is_prefix (prefix str : list Z) : bool :=
  match prefix, str with
  | [], _ => true
  | a :: prefix', b :: str' => (a =? b) && str_is_prefix prefix' str'
  | _ :: _, [] => false
  end.
Fixpoint str_common (str1 str2 : list Z) : nat :=
  match str1, str2 with
  | a :: str1', b :: str2' => if a =? b then S (str_common str1' str2') else O
  | _, _ => O
  end.

(** One more name that matches: the first one becomes [name_ptr], and [min_length] goes
    down to what it has in common with it. *)
Definition match_name (acc : option (list Z * nat)) (name : list Z) : option (list Z * nat) :=
  let '(name_ptr, min_length) := default (name, length name) acc in
  Some (name_ptr, Nat.min (str_common name_ptr name) min_length).

Section shell.
(** [World] is what running a line works on, [run_line] what runs it. *)
Context {World : Type} (run_line : list Z -> M World unit).

Record finsh_shell := mk_shell {
  stat : input_stat;
  current_history : Z;
  history_count : Z;
  cmd_history : list (list Z);
  sh_line : list Z;
  line_position : Z;
  line_curpos : Z;
  sh_world : World
}.
Definition set_stat (v : input_stat) (s : finsh_shell) : finsh_shell :=
  mk_shell v (current_history s) (history_count s) (cmd_history s) (sh_line s) (line_position s) (line_curpos s) (sh_world s).
Definition set_current_history (v : Z) (s : finsh_shell) : finsh_shell :=
  mk_shell (stat s) v (history_count s) (cmd_history s) (sh_line s) (line_position s) (line_curpos s) (sh_world s).
Definition set_history (n : Z) (h : list (list Z)) (s : finsh_shell) : finsh_shell :=
  mk_shell (stat s) (current_history s) n h (sh_line s) (line_position s) (line_curpos s) (sh_world s).
Definition set_line (v : list Z) (s : finsh_shell) : finsh_shell :=
  mk_shell (stat s) (current_history s) (history_count s) (cmd_history s) v (line_position s) (line_curpos s) (sh_world s).
(** [line_position] and [line_curpos] have 8 bits. *)
Definition set_positions (position curpos : Z) (s : finsh_shell) : finsh_shell :=
  mk_shell (stat s) (current_history s) (history_count s) (cmd_history s) (sh_line s) (u8 position) (u8 curpos) (sh_world s).
Definition set_world (w : World) (s : finsh_shell) : finsh_shell :=
  mk_shell (stat s) (current_history s) (history_count s) (cmd_history s) (sh_line s) (line_position s) (line_curpos s) w.

Abbreviation E := (M finsh_shell).

Definition on_world (c : M World unit) : E unit := fun s =>
  match c (sh_world s) with Ok _ w => Ok tt (set_world w s) | Fault f => Fault f end.

(** [shell->line[i] = ch] *)
Definition put_line (i ch : Z) : E unit :=
  if (0 <=? i) && (i <? Z.of_nat FINSH_CMD_SIZE) then modify (fun s => set_line (<[Z.to_nat i := ch]> (sh_line s)) s)
  else throw BadPointer.
(** [rt_memmove(&shell->line[dst], &shell->line[src], n)] *)
Definition move_line (dst src n : Z) : E unit :=
  if (dst + n <=? Z.of_nat FINSH_CMD_SIZE) && (src + n <=? Z.of_nat FINSH_CMD_SIZE) then
    modify (fun s =>
      set_line (take (Z.to_nat dst) (sh_line s) ++ take (Z.to_nat n) (drop (Z.to_nat src) (sh_line s)) ++
                drop (Z.to_nat (dst + n)) (sh_line s)) s)
  else throw BadPointer.
(** [shell->line_curpos = shell->line_position = strlen(shell->line)] *)
Definition end_of_line : E unit :=
  s ← get;
  str ← opt BadPointer (c_string (sh_line s));
  modify (set_positions (Z.of_nat (length str)) (Z.of_nat (length str))).

(** ** History *)

Definition history_row (n : Z) (line : list Z) : list Z :=
  take (Z.to_nat n) line ++ replicate (FINSH_CMD_SIZE - Z.to_nat n) 0.

Definition shell_push_history : E unit :=
  s ← get;
  when (negb (line_position s =? 0)) (
    let row := history_row (line_position s) (sh_line s) in
    if Z.of_nat FINSH_HISTORY_LINES <=? history_count s then
      modify (fun s => set_history (Z.of_nat FINSH_HISTORY_LINES) (drop 1 (cmd_history s) ++ [row]) s)
    else
      modify (fun s => set_history (history_count s + 1) (<[Z.to_nat (history_count s) := row]> (cmd_history s)) s));;
  modify (fun s => set_current_history (history_count s) s).

(** [memcpy(shell->line, &shell->cmd_history[shell->current_history][0], FINSH_CMD_SIZE)] *)
Definition load_history : E unit :=
  s ← get;
  row ← opt BadPointer (cmd_history s !! Z.to_nat (current_history s));
  modify (set_line row);;
  end_of_line.

Definition up_key : E unit :=
  s ← get;
  if 0 <? current_history s then modify (set_current_history (current_history s - 1));; load_history
  else modify (set_current_history 0).
Definition down_key : E unit :=
  s ← get;
  if current_history s <? history_count s - 1 then modify (set_current_history (current_history s + 1));; load_history
  else if negb (history_count s =? 0) then modify (set_current_history (history_count s - 1));; load_history
  else mret tt.
Definition left_key : E unit :=
  s ← get; when (negb (line_curpos s =? 0)) (modify (set_positions (line_position s) (line_curpos s - 1))).
Definition right_key : E unit :=
  s ← get;
  when (line_curpos s <? line_position s) (modify (set_positions (line_position s) (line_curpos s + 1))).

(** ** Editing *)

Definition backspace : E unit :=
  s ← get;
  if line_curpos s =? 0 then mret tt
  else
    modify (set_positions (line_position s - 1) (line_curpos s - 1));;
    s ← get;
    when (line_curpos s <? line_position s)
      (move_line (line_curpos s) (line_curpos s + 1) (line_position s - line_curpos s));;
    put_line (line_position s) 0.

Definition normal_character (ch : Z) : E unit :=
  s ← get;
  when (Z.of_nat FINSH_CMD_SIZE <=? line_position s) (modify (set_positions 0 (line_curpos s)));;
  s ← get;
  (if line_curpos s <? line_position s then
     move_line (line_curpos s + 1) (line_curpos s) (line_position s - line_curpos s);;
     put_line (line_curpos s) ch
   else put_line (line_position s) ch);;
  modify (fun s => set_positions (line_position s + 1) (line_curpos s + 1) s);;
  s ← get;
  when (80 <=? line_position s) (modify (set_positions 0 0)).

Definition end_line : E unit :=
  shell_push_history;;
  s ← get;
  put_line (line_position s) 59;;
  when (negb (line_position s =? 0)) (
    s ← get;
    str ← opt BadPointer (c_string (sh_line s));
    on_world (run_line str));;
  modify (set_line (replicate FINSH_CMD_SIZE 0));;
  modify (set_positions 0 0).

(** ** Completion of the line: [names] are those that match a prefix. *)
Context (names : World -> list Z -> list (list Z)).

Definition list_prefix : E unit :=
  s ← get;
  prefix ← opt BadPointer (c_string (sh_line s));
  match foldl match_name None (names (sh_world s) prefix) with
  | Some (name_ptr, min_length) =>
      when (negb (bool_decide (prefix = [])))
        (if bool_decide (min_length <= FINSH_CMD_SIZE)%nat then
           modify (fun s => set_line (take min_length name_ptr ++ drop min_length (sh_line s)) s)
         else throw BadPointer)
  | None => mret tt
  end.

(** One byte; the bytes that follow it are needed for a carriage return.  The result is
    what is left of them, and whether a line has been run, which ends the inner loop. *)
Definition function_key (ch : Z) : option (E unit) :=
  if ch =? 0x41 then Some up_key else if ch =? 0x42 then Some down_key
  else if ch =? 0x44 then Some left_key else if ch =? 0x43 then Some right_key else None.

Definition character (ch : Z) (input : list Z) : E (list Z * bool) :=
  if ch =? 9 then list_prefix;; end_of_line;; mret (input, false)
  else if (ch =? 0x7f) || (ch =? 8) then backspace;; mret (input, false)
  else
    let '(ch, input) := if ch =? 13 then match input with next :: input' => (next, input') | [] => (13, []) end else (ch, input) in
    if (ch =? 13) || (ch =? 10) then end_line;; mret (input, true)
    else normal_character ch;; mret (input, false).

Definition shell_key (ch : Z) (input : list Z) : E (list Z * bool) :=
  s ← get;
  if ch =? 0x1b then modify (set_stat WAIT_SPEC_KEY);; mret (input, false)
  else
    match stat s with
    | WAIT_SPEC_KEY =>
        if ch =? 0x5b then modify (set_stat WAIT_FUNC_KEY);; mret (input, false)
        else modify (set_stat WAIT_NORMAL);; character ch input
    | WAIT_FUNC_KEY =>
        modify (set_stat WAIT_NORMAL);;
        match function_key ch with
        | Some f => f;; mret (input, false)
        | None => character ch input
        end
    | WAIT_NORMAL => character ch input
    end.

(** [while (rt_device_read(shell->device, 0, &ch, 1) == 1)] for the bytes that have come in:
    the bytes left when a line has been run wait for the next round of the outer loop.
    Every round takes a byte. *)
Fixpoint shell_read (fuel : nat) (input : list Z) : E (list Z) :=
  match fuel, input with
  | O, _ => throw OutOfFuel
  | S _, [] => mret []
  | S fuel', ch :: input' =>
      r ← shell_key ch input';
      if r.2 : bool then mret r.1 else shell_read fuel' r.1
  end.
Fixpoint finsh_thread_loop (fuel : nat) (input : list Z) : E unit :=
  match fuel with
  | O => throw OutOfFuel
  | S fuel' =>
      rest ← shell_read (S (length input)) input;
      match rest with [] => mret tt | _ => finsh_thread_loop fuel' rest end
  end.
End shell.

(** The names list_prefix goes through: the exported functions that do not begin with two
    underscores, the functions added later, the exported variables, those added later *)
Section names.
Context `{FinshEnv}.

Definition list_names (s : finsh) (prefix : list Z) : list (list Z) :=
  let functions := filter (fun n => str_is_prefix [95; 95] n = false) ((fun e => sc_name e.2) <$> _syscall_table) in
  filter (fun n => str_is_prefix prefix n = true)
    (functions ++ ((fun e => sc_name e.2) <$> global_syscall_list s) ++
     ((fun e => sv_name e.2) <$> _sysvar_table) ++ ((fun e => sv_name e.2) <$> global_sysvar_list s)).
End names.
