(* ===== verification/FinshEdit.v ===== *)
(** * The command line as text with a cursor

    [editor] is the line as the user sees it: the text before and behind the cursor and the
    lines of the history.  The buffer of 80 bytes with its positions implements it. *)
From stdpp Require Import base tactics numbers list gmap.
From S2P Require Import Prelude Memory Finsh FinshToken FinshShell.
Local Open Scope Z_scope.

Record editor := mk_editor {
  ed_stat : input_stat;
  before : list Z;
  after : list Z;
  hist : list (list Z);
  cur : nat
}.
Definition ed_text (e : editor) : list Z := before e ++ after e.

(** A line may have 78 characters: a semicolon and a terminator are added. *)
Definition line_max : nat := FINSH_CMD_SIZE - 2.
Definition is_line (l : list Z) : bool := bool_decide (length l <= line_max)%nat && forallb (fun c => negb (c =? 0)) l.

Section spec.
Context {World : Type} (run_line : list Z -> M World unit) (names : World -> list Z -> list (list Z)).

(** A line with the cursor at its end *)
Definition ed_load (l : list Z) (e : editor) : editor := mk_editor (ed_stat e) l [] (hist e) (cur e).
Definition ed_cur (n : nat) (e : editor) : editor := mk_editor (ed_stat e) (before e) (after e) (hist e) n.
Definition ed_at (b a : list Z) (e : editor) : editor := mk_editor (ed_stat e) b a (hist e) (cur e).
Definition ed_set_stat (s : input_stat) (e : editor) : editor := mk_editor s (before e) (after e) (hist e) (cur e).

Definition ed_history (n : nat) (e : editor) : editor := ed_load (default [] (hist e !! n)) (ed_cur n e).
Definition ed_up (e : editor) : editor := match cur e with O => e | S n => ed_history n e end.
Definition ed_down (e : editor) : editor :=
  match length (hist e) with
  | O => e
  | S n => ed_history (if bool_decide (cur e < n)%nat then S (cur e) else n) e
  end.
Definition ed_left (e : editor) : editor :=
  match reverse (before e) with [] => e | x :: b => ed_at (reverse b) (x :: after e) e end.
Definition ed_right (e : editor) : editor :=
  match after e with [] => e | x :: a => ed_at (before e ++ [x]) a e end.
Definition ed_backspace (e : editor) : editor :=
  match reverse (before e) with [] => e | _ :: b => ed_at (reverse b) (after e) e end.
Definition ed_insert (ch : Z) (e : editor) : editor := ed_at (before e ++ [ch]) (after e) e.
Definition ed_complete (w : World) (e : editor) : editor :=
  match foldl match_name None (names w (ed_text e)) with
  | Some (name, k) => if bool_decide (ed_text e = []) then ed_load [] e else ed_load (take k name ++ drop k (ed_text e)) e
  | None => ed_load (ed_text e) e
  end.
(** The last five lines *)
Definition ed_remember (e : editor) : list (list Z) :=
  match ed_text e with
  | [] => hist e
  | l => drop (length (hist e) - 4) (hist e) ++ [l]
  end.
Definition ed_end (w : World) (e : editor) : option (editor * World) :=
  let e' := mk_editor (ed_stat e) [] [] (ed_remember e) (length (ed_remember e)) in
  match ed_text e with
  | [] => Some (e', w)
  | l => match run_line (l ++ [59]) w with Ok _ w' => Some (e', w') | Fault _ => None end
  end.

(** A new text must be a line. *)
Definition checked (e : editor) : option editor := if is_line (ed_text e) then Some e else None.

Definition ed_character (ch : Z) (input : list Z) (e : editor) (w : World) : option (list Z * bool * editor * World) :=
  if ch =? 9 then e' ← checked (ed_complete w e); Some (input, false, e', w)
  else if (ch =? 0x7f) || (ch =? 8) then Some (input, false, ed_backspace e, w)
  else
    let '(ch, input) := if ch =? 13 then match input with next :: input' => (next, input') | [] => (13, []) end else (ch, input) in
    if (ch =? 13) || (ch =? 10) then r ← ed_end w e; Some (input, true, r.1, r.2)
    else e' ← checked (ed_insert ch e); Some (input, false, e', w).

Definition ed_function (ch : Z) : option (editor -> editor) :=
  if ch =? 0x41 then Some ed_up else if ch =? 0x42 then Some ed_down
  else if ch =? 0x44 then Some ed_left else if ch =? 0x43 then Some ed_right else None.

Definition ed_key (ch : Z) (input : list Z) (e : editor) (w : World) : option (list Z * bool * editor * World) :=
  if ch =? 0x1b then Some (input, false, ed_set_stat WAIT_SPEC_KEY e, w)
  else
    match ed_stat e with
    | WAIT_SPEC_KEY =>
        if ch =? 0x5b then Some (input, false, ed_set_stat WAIT_FUNC_KEY e, w)
        else ed_character ch input (ed_set_stat WAIT_NORMAL e) w
    | WAIT_FUNC_KEY =>
        match ed_function ch with
        | Some f => Some (input, false, f (ed_set_stat WAIT_NORMAL e), w)
        | None => ed_character ch input (ed_set_stat WAIT_NORMAL e) w
        end
    | WAIT_NORMAL => ed_character ch input e w
    end.

Fixpoint ed_read (fuel : nat) (input : list Z) (e : editor) (w : World) : option (list Z * editor * World) :=
  match fuel, input with
  | O, _ => None
  | S _, [] => Some ([], e, w)
  | S fuel', ch :: input' =>
      '(rest, stop, e', w') ← ed_key ch input' e w;
      if stop : bool then Some (rest, e', w') else ed_read fuel' rest e' w'
  end.
Fixpoint ed_loop (fuel : nat) (input : list Z) (e : editor) (w : World) : option (editor * World) :=
  match fuel with
  | O => None
  | S fuel' =>
      '(rest, e', w') ← ed_read (S (length input)) input e w;
      match rest with [] => Some (e', w') | _ => ed_loop fuel' rest e' w' end
  end.

End spec.

(** ** The buffer implements the editor *)

Section buffer.
Context {World : Type}.

Definition zeros (n : nat) : list Z := replicate n 0.
Definition buffer (l : list Z) : list Z := l ++ zeros (FINSH_CMD_SIZE - length l).

Record implements (s : finsh_shell (World:=World)) (e : editor) (w : World) : Prop := {
  im_stat : stat s = ed_stat e;
  im_line : sh_line s = buffer (ed_text e);
  im_pos : line_position s = Z.of_nat (length (ed_text e));
  im_cur : line_curpos s = Z.of_nat (length (before e));
  im_text : is_line (ed_text e) = true;
  im_count : history_count s = Z.of_nat (length (hist e));
  im_rows : length (cmd_history s) = FINSH_HISTORY_LINES;
  im_hist : forall i l, hist e !! i = Some l -> cmd_history s !! i = Some (buffer l) /\ is_line l = true;
  im_max : (length (hist e) <= FINSH_HISTORY_LINES)%nat;
  im_current : current_history s = Z.of_nat (cur e);
  im_bound : (cur e <= length (hist e))%nat;
  im_world : sh_world s = w
}.

Lemma is_line_iff l : is_line l = true <-> (length l <= 78)%nat /\ Forall (fun c => c <> 0) l.
Proof.
  unfold is_line, line_max, FINSH_CMD_SIZE. rewrite andb_true_iff, bool_decide_eq_true.
  assert (forallb (fun c => negb (c =? 0)) l = true <-> Forall (fun c => c <> 0) l) as ->; [|simpl; tauto].
  induction l as [|c l IH]; simpl; [split; [constructor|done]|]. rewrite andb_true_iff, IH, Forall_cons.
  rewrite negb_true_iff, Z.eqb_neq. done.
Qed.

Lemma c_string_zeros l n : Forall (fun c => c <> 0) l -> (0 < n)%nat -> c_string (l ++ zeros n) = Some l.
Proof.
  intros Hl Hn. induction Hl as [|c l Hc _ IH]; simpl.
  - destruct n; [lia|done].
  - rewrite (proj2 (Z.eqb_neq _ _) Hc), IH. done.
Qed.
Lemma c_string_buffer l : is_line l = true -> c_string (buffer l) = Some l.
Proof. intros [H1 H2]%is_line_iff. apply c_string_zeros; [done|unfold FINSH_CMD_SIZE; lia]. Qed.
Lemma length_buffer l : (length l <= 80)%nat -> length (buffer l) = 80%nat.
Proof. intros. unfold buffer, zeros. rewrite length_app, length_replicate. unfold FINSH_CMD_SIZE. lia. Qed.
Lemma buffer_snoc l : (length l < 80)%nat -> buffer l = l ++ 0 :: zeros (79 - length l).
Proof.
  intros. unfold buffer, FINSH_CMD_SIZE. replace (80 - length l)%nat with (S (79 - length l)) by lia. done.
Qed.

(** Writing into the line and moving a part of it *)
Lemma wp_put st (i : nat) ch (Q : unit -> finsh_shell (World:=World) -> Prop) :
  (i < 80)%nat -> Q tt (set_line (<[i := ch]> (sh_line st)) st) -> wp (put_line (Z.of_nat i) ch) Q st.
Proof.
  intros Hi HQ. unfold put_line, FINSH_CMD_SIZE. rewrite (proj2 (Z.leb_le _ _)), (proj2 (Z.ltb_lt _ _)) by lia.
  apply wp_modify. by rewrite Nat2Z.id.
Qed.
Lemma wp_move st (d c n : nat) (Q : unit -> finsh_shell (World:=World) -> Prop) :
  (d + n <= 80)%nat -> (c + n <= 80)%nat ->
  Q tt (set_line (take d (sh_line st) ++ take n (drop c (sh_line st)) ++ drop (d + n) (sh_line st)) st) ->
  wp (move_line (Z.of_nat d) (Z.of_nat c) (Z.of_nat n)) Q st.
Proof.
  intros Hd Hs HQ. unfold move_line, FINSH_CMD_SIZE. rewrite !(proj2 (Z.leb_le _ _)) by lia.
  apply wp_modify. by rewrite <- Nat2Z.inj_add, !Nat2Z.id.
Qed.

Lemma insert_here (b z : list Z) (x c : Z) : <[length b := c]> (b ++ x :: z) = b ++ c :: z.
Proof. pose proof (insert_app_r b (x :: z) 0 c) as E. rewrite Nat.add_0_r in E. exact E. Qed.

(** Making room behind [b], and closing the gap behind it *)
Lemma insert_char (b a z : list Z) (ch : Z) :
  a <> [] ->
  <[length b := ch]> (take (length b + 1) (b ++ a ++ z) ++ take (length a) (drop (length b) (b ++ a ++ z)) ++
    drop (length b + 1 + length a) (b ++ a ++ z)) = b ++ ch :: a ++ drop 1 z.
Proof.
  intros Ha. rewrite take_app_add, drop_app_length, take_app_length, <- Nat.add_assoc, drop_app_add.
  replace (1 + length a)%nat with (length a + 1)%nat by lia. rewrite drop_app_add.
  destruct a as [|x a]; [done|]. simpl. rewrite <- app_assoc. apply insert_here.
Qed.
Lemma delete_char (b : list Z) (x : Z) (a z : list Z) :
  <[(length b + length a)%nat := 0]> (take (length b) (b ++ x :: a ++ z) ++
    take (length a) (drop (length b + 1) (b ++ x :: a ++ z)) ++ drop (length b + length a) (b ++ x :: a ++ z)) = b ++ a ++ 0 :: z.
Proof.
  rewrite take_app_length, !drop_app_add. simpl. rewrite drop_0, take_app_length.
  assert (exists y, drop (length a) (x :: a ++ z) = y :: z) as [y ->].
  { destruct (exists_last (l := x :: a) ltac:(done)) as (c & y & E). exists y. change (x :: a ++ z) with ((x :: a) ++ z).
    rewrite E, <- app_assoc. apply drop_app_length'. apply (f_equal length) in E. rewrite length_app in E. simpl in E. lia. }
  rewrite insert_app_r. f_equal. apply insert_here.
Qed.

Context (s : finsh_shell (World:=World)) (e : editor) (w : World).
Context (Him : implements s e w).

Lemma im_len : (length (ed_text e) <= 78)%nat /\ Forall (fun c => c <> 0) (ed_text e).
Proof. apply is_line_iff, (im_text _ _ _ Him). Qed.

(** A new text and cursor *)
Lemma im_at line p c b a :
  line = buffer (b ++ a) -> is_line (b ++ a) = true -> u8 p = Z.of_nat (length (b ++ a)) -> u8 c = Z.of_nat (length b) ->
  implements (set_positions p c (set_line line s)) (ed_at b a e) w.
Proof. intros -> Hl Hp Hc. destruct Him. by split. Qed.
Lemma im_same : e = ed_at (before e) (after e) e.
Proof. by destruct e. Qed.

(** Positions fit 8 bits. *)
Lemma u8_small n : (n <= 80)%nat -> u8 (Z.of_nat n) = Z.of_nat n.
Proof. intros. apply uwrap_small. lia. Qed.

Lemma wp_left (Q : unit -> finsh_shell -> Prop) :
  (forall s', implements s' (ed_left e) w -> Q tt s') -> wp left_key Q s.
Proof.
  intros HQ. unfold left_key. wp_step. apply wp_get. unfold ed_left in HQ.
  destruct im_len as [Hn Hz]. rewrite (im_cur _ _ _ Him).
  destruct (before e) as [|x b _] eqn:Eb using rev_ind.
  - simpl. wp_step. by apply HQ.
  - rewrite reverse_snoc, reverse_involutive in HQ. rewrite length_app. simpl.
    rewrite (proj2 (Z.eqb_neq _ _)) by lia. simpl. apply wp_modify. apply HQ.
    replace s with (set_line (sh_line s) s) by (by destruct s). unfold ed_text in *. rewrite Eb, <- app_assoc in *. simpl in *.
    apply im_at.
    + rewrite (im_line _ _ _ Him). unfold ed_text. by rewrite Eb, <- app_assoc.
    + apply is_line_iff. done.
    + rewrite (im_pos _ _ _ Him). unfold ed_text. rewrite Eb, <- app_assoc. apply u8_small. simpl. lia.
    + rewrite length_app in Hn. replace (_ - 1) with (Z.of_nat (length b)) by lia. apply u8_small. lia.
Qed.

Lemma wp_right (Q : unit -> finsh_shell -> Prop) :
  (forall s', implements s' (ed_right e) w -> Q tt s') -> wp right_key Q s.
Proof.
  intros HQ. unfold right_key. wp_step. apply wp_get. unfold ed_right in HQ.
  destruct im_len as [Hn Hz]. rewrite (im_cur _ _ _ Him), (im_pos _ _ _ Him). unfold ed_text in *. rewrite length_app in *.
  destruct (after e) as [|x a] eqn:Ea.
  - simpl. rewrite Nat.add_0_r, Z.ltb_irrefl. simpl. wp_step. by apply HQ.
  - simpl. rewrite (proj2 (Z.ltb_lt _ _)) by lia. apply wp_modify. apply HQ. simpl in Hn.
    replace s with (set_line (sh_line s) s) by (by destruct s).
    apply im_at; rewrite <- ?app_assoc; simpl.
    + rewrite (im_line _ _ _ Him). unfold ed_text. by rewrite Ea.
    + apply is_line_iff. rewrite length_app. simpl. done.
    + rewrite length_app. simpl. apply u8_small. lia.
    + rewrite length_app. simpl. replace (Z.of_nat (length (before e)) + 1) with (Z.of_nat (length (before e) + 1)) by lia.
      apply u8_small. lia.
Qed.

(** Loading a line of the history *)
Lemma wp_load_history n l (Q : unit -> finsh_shell -> Prop) :
  hist e !! n = Some l ->
  (forall s', implements s' (ed_history n e) w -> Q tt s') -> wp load_history Q (set_current_history (Z.of_nat n) s).
Proof.
  intros Hl HQ. destruct (im_hist _ _ _ Him n l Hl) as [Hrow Hline]. pose proof Hline as [Hlen _]%is_line_iff.
  unfold load_history. wp_step. apply wp_get. simpl. rewrite Nat2Z.id. wp_step. apply wp_opt with (buffer l); [done|].
  wp_step. apply wp_modify. unfold end_of_line. wp_step. apply wp_get. simpl. wp_step.
  apply wp_opt with l; [by apply c_string_buffer|]. apply wp_modify. apply HQ. unfold ed_history. rewrite Hl. simpl.
  destruct Him. split; simpl; try done.
  - unfold ed_text. simpl. by rewrite app_nil_r.
  - unfold ed_text. simpl. rewrite app_nil_r. apply u8_small. lia.
  - apply u8_small. lia.
  - unfold ed_text. simpl. by rewrite app_nil_r.
  - apply lookup_lt_Some in Hl. lia.
Qed.
Lemma wp_up (Q : unit -> finsh_shell -> Prop) : (forall s', implements s' (ed_up e) w -> Q tt s') -> wp up_key Q s.
Proof.
  intros HQ. unfold up_key. wp_step. apply wp_get. rewrite (im_current _ _ _ Him). unfold ed_up in HQ.
  pose proof (im_bound _ _ _ Him) as Hb. destruct (cur e) as [|n] eqn:Ec.
  - simpl. apply wp_modify. apply HQ. destruct Him. split; simpl; try done. by rewrite Ec.
  - rewrite (proj2 (Z.ltb_lt _ _)) by lia. wp_step. apply wp_modify. replace (Z.of_nat (S n) - 1) with (Z.of_nat n) by lia.
    destruct (lookup_lt_is_Some_2 (hist e) n) as [l Hl]; [lia|]. by eapply wp_load_history.
Qed.
Lemma wp_down (Q : unit -> finsh_shell -> Prop) : (forall s', implements s' (ed_down e) w -> Q tt s') -> wp down_key Q s.
Proof.
  intros HQ. unfold down_key. wp_step. apply wp_get. rewrite (im_current _ _ _ Him), (im_count _ _ _ Him). unfold ed_down in HQ.
  destruct (length (hist e)) as [|n] eqn:El.
  - rewrite (proj2 (Z.ltb_ge _ _)) by lia. simpl. wp_step. by apply HQ.
  - case_bool_decide as Hc.
    + rewrite (proj2 (Z.ltb_lt _ _)) by lia. wp_step. apply wp_modify.
      replace (Z.of_nat (cur e) + 1) with (Z.of_nat (S (cur e))) by lia.
      destruct (lookup_lt_is_Some_2 (hist e) (S (cur e))) as [l Hl]; [lia|]. by eapply wp_load_history.
    + rewrite (proj2 (Z.ltb_ge _ _)), (proj2 (Z.eqb_neq _ _)) by lia. simpl. wp_step. apply wp_modify.
      replace (Z.of_nat (S n) - 1) with (Z.of_nat n) by lia.
      destruct (lookup_lt_is_Some_2 (hist e) n) as [l Hl]; [lia|]. by eapply wp_load_history.
Qed.

Lemma wp_backspace (Q : unit -> finsh_shell -> Prop) :
  (forall s', implements s' (ed_backspace e) w -> Q tt s') -> wp backspace Q s.
Proof.
  intros HQ. unfold backspace. wp_step. apply wp_get. unfold ed_backspace in HQ. destruct im_len as [Hn Hz].
  rewrite (im_cur _ _ _ Him). destruct (before e) as [|x b _] eqn:Eb using rev_ind.
  { simpl. wp_step. by apply HQ. }
  rewrite reverse_snoc, reverse_involutive in HQ. unfold ed_text in *. rewrite Eb in Hn, Hz. rewrite <- app_assoc in Hz.
  rewrite !length_app in Hn. simpl in Hn. rewrite length_app. simpl. rewrite (proj2 (Z.eqb_neq _ _)) by lia.
  wp_step. apply wp_modify. wp_step. apply wp_get. simpl. rewrite (im_pos _ _ _ Him). unfold ed_text. rewrite Eb, !length_app. simpl.
  replace (Z.of_nat (length b + 1 + length (after e)) - 1) with (Z.of_nat (length b + length (after e))) by lia.
  replace (Z.of_nat (length b + 1) - 1) with (Z.of_nat (length b)) by lia. rewrite !u8_small by lia.
  assert (sh_line s = b ++ x :: after e ++ zeros (79 - (length b + length (after e)))) as El.
  { rewrite (im_line _ _ _ Him). unfold buffer, ed_text, FINSH_CMD_SIZE. rewrite Eb, !length_app, <- !app_assoc. simpl.
    do 4 f_equal. lia. }
  assert (implements (set_positions (Z.of_nat (length b + length (after e))) (Z.of_nat (length b))
    (set_line (b ++ after e ++ 0 :: zeros (79 - (length b + length (after e)))) s)) (ed_at b (after e) e) w) as Hdone.
  { apply im_at; [| |by rewrite length_app, u8_small by lia|by apply u8_small; lia].
    - rewrite buffer_snoc, length_app, <- app_assoc; [done|]. rewrite length_app. lia.
    - apply is_line_iff. rewrite length_app. split; [lia|]. apply Forall_app in Hz as [H1 [_ H2]%Forall_cons]. by apply Forall_app. }
  wp_step. destruct (after e) as [|y a] eqn:Ea.
  - simpl in *. rewrite Nat.add_0_r, Z.ltb_irrefl in *. simpl. wp_step. apply wp_put; [lia|]. apply HQ. simpl. rewrite El.
    by rewrite insert_here.
  - rewrite <- Ea in *. rewrite (proj2 (Z.ltb_lt _ _)) by (rewrite Ea; simpl; lia). simpl.
    replace (Z.of_nat (length b) + 1) with (Z.of_nat (length b + 1)) by lia.
    replace (Z.of_nat (length b + length (after e)) - Z.of_nat (length b)) with (Z.of_nat (length (after e))) by lia.
    apply wp_move; [lia..|]. apply wp_put; [lia|]. apply HQ. simpl. rewrite El, delete_char. done.
Qed.

Lemma wp_normal ch (Q : unit -> finsh_shell -> Prop) :
  is_line (ed_text (ed_insert ch e)) = true ->
  (forall s', implements s' (ed_insert ch e) w -> Q tt s') -> wp (normal_character ch) Q s.
Proof.
  intros Hok HQ. unfold normal_character. wp_step. apply wp_get. pose proof Hok as [Hn Hz]%is_line_iff.
  unfold ed_insert, ed_text in *. simpl in *. rewrite !length_app in Hn. simpl in Hn.
  assert (line_position s = Z.of_nat (length (before e) + length (after e))) as Ep
    by (rewrite (im_pos _ _ _ Him); unfold ed_text; by rewrite length_app).
  rewrite Ep. unfold FINSH_CMD_SIZE. rewrite (proj2 (Z.leb_gt _ _)) by lia. simpl. wp_step. wp_step. wp_step. apply wp_get.
  rewrite Ep, (im_cur _ _ _ Him).
  assert (sh_line s = before e ++ after e ++ zeros (80 - (length (before e) + length (after e)))) as El.
  { rewrite (im_line _ _ _ Him). unfold buffer, ed_text, FINSH_CMD_SIZE. by rewrite length_app, <- app_assoc. }
  assert (forall L, L = before e ++ ch :: after e ++ zeros (79 - (length (before e) + length (after e))) ->
    wp (modify (fun s => set_positions (line_position s + 1) (line_curpos s + 1) s);;
        s0 ← get; when (80 <=? line_position s0) (modify (set_positions 0 0))) Q (set_line L s)) as Hfin.
  { intros L ->. wp_step. apply wp_modify. wp_step. apply wp_get. simpl. rewrite Ep, (im_cur _ _ _ Him).
    replace (Z.of_nat (length (before e) + length (after e)) + 1) with (Z.of_nat (length (before e) + length (after e) + 1)) by lia.
    replace (Z.of_nat (length (before e)) + 1) with (Z.of_nat (length (before e) + 1)) by lia.
    rewrite u8_small, (proj2 (Z.leb_gt _ _)) by lia. simpl. wp_step. apply HQ. apply im_at; [|done| |].
    - unfold buffer, FINSH_CMD_SIZE. rewrite !length_app, <- !app_assoc. simpl. do 4 f_equal. lia.
    - rewrite !length_app, u8_small by lia. simpl. lia.
    - rewrite length_app. simpl. apply u8_small. lia. }
  wp_step. destruct (after e) as [|y a] eqn:Ea.
  - rewrite Nat.add_0_r, Z.ltb_irrefl in *. apply wp_put; [lia|]. apply Hfin. rewrite El. simpl.
    replace (80 - length (before e))%nat with (S (79 - length (before e))) by lia. simpl.
    apply insert_here.
  - rewrite <- Ea in *. rewrite (proj2 (Z.ltb_lt _ _)) by (rewrite Ea; simpl; lia). wp_step.
    replace (Z.of_nat (length (before e)) + 1) with (Z.of_nat (length (before e) + 1)) by lia.
    replace (Z.of_nat (length (before e) + length (after e)) - Z.of_nat (length (before e))) with (Z.of_nat (length (after e))) by lia.
    apply wp_move; [lia..|]. apply wp_put; [lia|]. apply Hfin. simpl. rewrite El, insert_char by (by rewrite Ea).
    do 3 f_equal. replace (80 - (length (before e) + length (after e)))%nat with (S (79 - (length (before e) + length (after e)))) by lia.
    done.
Qed.

(** The history *)
Lemma history_row_text : history_row (line_position s) (sh_line s) = buffer (ed_text e).
Proof. rewrite (im_pos _ _ _ Him), (im_line _ _ _ Him). unfold history_row, buffer. by rewrite Nat2Z.id, take_app_length. Qed.

Lemma wp_push_history (Q : unit -> finsh_shell -> Prop) :
  (forall s', implements s' (mk_editor (ed_stat e) (before e) (after e) (ed_remember e) (length (ed_remember e))) w -> Q tt s') ->
  wp shell_push_history Q s.
Proof.
  intros HQ. unfold shell_push_history. wp_step. apply wp_get. unfold ed_remember in HQ. cbv zeta. rewrite history_row_text.
  rewrite (im_pos _ _ _ Him), (im_count _ _ _ Him). pose proof (im_max _ _ _ Him) as Hm. unfold FINSH_HISTORY_LINES in *.
  pose proof (im_rows _ _ _ Him) as Hrows. unfold FINSH_HISTORY_LINES in Hrows.
  destruct (ed_text e) as [|c l] eqn:Et.
  { simpl. wp_step. wp_step. apply wp_modify. apply HQ. destruct Him. split; simpl; try done. }
  simpl length. rewrite (proj2 (Z.eqb_neq _ _)) by lia. simpl when. wp_step. rewrite <- Et in *.
  pose proof (im_text _ _ _ Him) as Hok. set (row := buffer (ed_text e)).
  destruct (decide (5 <= length (hist e))%nat) as [Hf|Hf].
  - rewrite (proj2 (Z.leb_le _ _)) by lia. apply wp_modify. apply wp_modify. apply HQ.
    replace (length (hist e) - 4)%nat with 1%nat by lia.
    assert (length (drop 1 (hist e) ++ [ed_text e]) = 5%nat) as E5 by (rewrite length_app, length_drop; simpl; lia).
    destruct Him. split; simpl; try done; try lia.
    + rewrite length_app, length_drop. simpl. unfold FINSH_HISTORY_LINES. lia.
    + intros k x [Hx|[Hk Hx]]%lookup_app_Some.
      * rewrite lookup_drop in Hx. destruct (im_hist0 (1 + k)%nat x Hx) as [H1 H2]. split; [|done].
        rewrite lookup_app_l, lookup_drop; [done|]. rewrite length_drop. apply lookup_lt_Some in Hx. lia.
      * rewrite length_drop in Hk, Hx. apply list_lookup_singleton_Some in Hx as [Hx <-]. split; [|done].
        rewrite lookup_app_r, length_drop by (rewrite length_drop; lia).
        replace (k - (length (cmd_history s) - 1))%nat with 0%nat by lia. done.
  - rewrite (proj2 (Z.leb_gt _ _)) by lia. apply wp_modify. apply wp_modify. apply HQ. rewrite (im_count _ _ _ Him), Nat2Z.id.
    replace (length (hist e) - 4)%nat with 0%nat by lia. rewrite drop_0.
    assert (length (hist e ++ [ed_text e]) = S (length (hist e))) as E5 by (rewrite length_app; simpl; lia).
    destruct Him. split; simpl; try done; try lia.
    + rewrite length_insert. done.
    + intros k x [Hx|[Hk Hx]]%lookup_app_Some.
      * destruct (im_hist0 k x Hx) as [H1 H2]. split; [|done]. rewrite list_lookup_insert_ne; [done|].
        apply lookup_lt_Some in Hx. lia.
      * apply list_lookup_singleton_Some in Hx as [Hx <-]. split; [|done].
        replace k with (length (hist e)) by lia. apply list_lookup_insert_eq. lia.
Qed.
End buffer.

(** ** Completion finds the longest common prefix *)

Lemma str_common_le a b : (str_common a b <= length a)%nat.
Proof. revert b. induction a as [|x a IH]; intros [|y b]; simpl; try lia. case_match; [specialize (IH b)|]; lia. Qed.
Lemma str_common_prefix a b : take (str_common a b) a `prefix_of` b.
Proof.
  revert b. induction a as [|x a IH]; intros [|y b]; simpl; try apply prefix_nil.
  destruct (Z.eqb_spec x y) as [->|]; simpl; [apply prefix_cons, IH|apply prefix_nil].
Qed.
Lemma str_common_max q a b : q `prefix_of` a -> q `prefix_of` b -> (length q <= str_common a b)%nat.
Proof.
  revert a b. induction q as [|c q IH]; intros a b Ha Hb; [simpl; lia|]. destruct a as [|x a]; [by apply prefix_nil_not in Ha|].
  destruct b as [|y b]; [by apply prefix_nil_not in Hb|]. apply prefix_cons_inv_1 in Ha as E. subst x.
  apply prefix_cons_inv_1 in Hb as E. subst y. simpl. rewrite Z.eqb_refl. apply le_n_S, IH; by eapply prefix_cons_inv_2.
Qed.
Lemma prefix_short (q a : list Z) k : q `prefix_of` a -> (length q <= k)%nat -> q `prefix_of` take k a.
Proof. intros [r ->] Hk. rewrite take_app_ge by done. by eexists. Qed.
Lemma take_prefix (a : list Z) j k : (j <= k)%nat -> take j a `prefix_of` take k a.
Proof. intros. replace (take j a) with (take j (take k a)); [apply prefix_take|]. rewrite take_take. f_equal. lia. Qed.

Lemma match_names nm l : forall k, exists k', foldl match_name (Some (nm, k)) l = Some (nm, k') /\ (k' <= k)%nat /\
  Forall (fun x => k' <= str_common nm x)%nat l /\
  forall j, (j <= k)%nat -> Forall (fun x => j <= str_common nm x)%nat l -> (j <= k')%nat.
Proof.
  induction l as [|x l IH]; intros k; simpl; [exists k; by split_and!|].
  destruct (IH (Nat.min (str_common nm x) k)) as (k' & E & H1 & H2 & H3). exists k'. split_and!; [done|lia| |].
  - apply Forall_cons. split; [lia|done].
  - intros j Hj [Hx Hl]%Forall_cons. apply H3; [lia|done].
Qed.

(** What list_prefix puts into the line is the longest prefix common to all names that
    match. *)
Theorem completion_longest names name l :
  names = name :: l ->
  exists nm k, foldl match_name None names = Some (nm, k) /\ Forall (fun n => take k nm `prefix_of` n) names /\
    forall q, Forall (fun n => q `prefix_of` n) names -> q `prefix_of` take k nm.
Proof.
  intros ->. destruct (match_names name l (Nat.min (str_common name name) (length name))) as (k & E & H1 & H2 & H3).
  exists name, k. split; [exact E|]. split.
  - apply Forall_cons. split; [apply prefix_take|]. eapply Forall_impl; [exact H2|]. intros x Hx.
    etransitivity; [apply (take_prefix _ _ (str_common name x)); exact Hx|apply str_common_prefix].
  - intros q [Hq Hl]%Forall_cons. apply prefix_short; [done|]. apply H3.
    + pose proof (str_common_max q name name Hq Hq). pose proof (prefix_length _ _ Hq). lia.
    + eapply Forall_impl; [exact Hl|]. intros x Hx. by apply str_common_max.
Qed.

Section refine.
Context {World : Type} (run_line : list Z -> M World unit) (names : World -> list Z -> list (list Z)).
Implicit Types (s : finsh_shell (World:=World)) (e : editor) (w : World).

Lemma wp_end_line s e w e' w' (Q : unit -> finsh_shell -> Prop) :
  implements s e w -> ed_end run_line w e = Some (e', w') ->
  (forall s', implements s' e' w' -> Q tt s') -> wp (end_line run_line) Q s.
Proof.
  intros Him He HQ. unfold end_line. wp_step. apply (wp_push_history s e w Him). clear s Him. intros s Him.
  set (e1 := mk_editor _ _ _ _ _) in Him. assert (ed_text e1 = ed_text e) as Et by done.
  destruct (im_len s e1 w Him) as [Hn Hz]. rewrite Et in Hn, Hz.
  wp_step. apply wp_get. rewrite (im_pos _ _ _ Him), Et. wp_step. apply wp_put; [lia|]. rewrite (im_line _ _ _ Him), Et.
  assert (<[length (ed_text e) := 59]> (buffer (ed_text e)) = (ed_text e ++ [59]) ++ zeros (79 - length (ed_text e))) as Eb.
  { rewrite buffer_snoc, insert_here, <- app_assoc by lia. done. }
  rewrite Eb. wp_step.
  assert (forall st w2, w2 = w' -> ed_stat e = stat st -> history_count st = history_count s -> cmd_history st = cmd_history s ->
    current_history st = current_history s -> sh_world st = w2 ->
    Q tt (set_positions 0 0 (set_line (replicate FINSH_CMD_SIZE 0) st))) as Hfin.
  { intros st w2 -> H1 H2 H3 H4 H5. apply HQ. unfold ed_end in He.
    assert (e' = mk_editor (ed_stat e) [] [] (ed_remember e) (length (ed_remember e))) as ->.
    { destruct (ed_text e); [congruence|]. destruct (run_line _ w); congruence. }
    destruct Him. split; simpl; rewrite ?H2, ?H3, ?H4; try done; congruence. }
  destruct (ed_text e) as [|c l] eqn:El.
  - unfold ed_end in He. rewrite El in He. simpl. wp_step. wp_step. apply wp_modify. apply wp_modify.
    apply (Hfin _ w); simpl; try done; [congruence|by rewrite (im_stat _ _ _ Him)|by rewrite (im_world _ _ _ Him)].
  - simpl length. rewrite (proj2 (Z.eqb_neq _ _)) by lia. simpl when. wp_step. apply wp_get. simpl sh_line.
    wp_step. apply wp_opt with ((c :: l) ++ [59]).
    { apply (c_string_zeros ((c :: l) ++ [59])); [|simpl in *; lia]. apply Forall_app. split; [done|]. by apply Forall_singleton. }
    unfold ed_end in He. rewrite El in He. unfold wp, on_world. simpl sh_world. rewrite (im_world _ _ _ Him).
    destruct (run_line ((c :: l) ++ [59]) w) as [[] w2|f] eqn:Er; [|done].
    change (Q tt (set_positions 0 0 (set_line (replicate FINSH_CMD_SIZE 0) (set_world w2 (set_line (((c :: l) ++ [59]) ++ zeros (79 - length (c :: l))) s))))).
    apply (Hfin _ w2); simpl; try done; [congruence|by rewrite (im_stat _ _ _ Him)].
Qed.

(** Completion *)
Lemma match_names_le l acc name k :
  (forall n j, acc = Some (n, j) -> (j <= length n)%nat) -> foldl match_name acc l = Some (name, k) -> (k <= length name)%nat.
Proof.
  revert acc. induction l as [|x l IH]; intros acc Hacc; simpl; [apply Hacc|]. apply IH. intros n j.
  unfold match_name. destruct acc as [[n0 j0]|]; simpl.
  - intros [= <- <-]. pose proof (str_common_le n0 x). lia.
  - intros [= <- <-]. pose proof (str_common_le x x). lia.
Qed.

Lemma wp_complete s e w (Q : unit -> finsh_shell -> Prop) :
  implements s e w -> is_line (ed_text (ed_complete names w e)) = true ->
  (forall s', implements s' (ed_complete names w e) w -> Q tt s') -> wp (list_prefix names;; end_of_line) Q s.
Proof.
  intros Him Hok HQ. destruct (im_len s e w Him) as [Hn Hz].
  assert (forall l, ed_complete names w e = ed_load l e -> wp end_of_line Q (set_line (buffer l) s)) as Hfin.
  { intros l Ee. unfold end_of_line. wp_step. apply wp_get. simpl. rewrite Ee in Hok. unfold ed_text in Hok. simpl in Hok.
    rewrite app_nil_r in Hok. wp_step.
    apply wp_opt with l; [by apply c_string_buffer|]. apply wp_modify. apply HQ. rewrite Ee.
    pose proof Hok as [Hl _]%is_line_iff. destruct Him. split; unfold ed_text; simpl; rewrite ?app_nil_r; try done; apply u8_small; lia. }
  assert (s = set_line (buffer (ed_text e)) s) as Es by (rewrite <- (im_line _ _ _ Him); by destruct s).
  unfold list_prefix. wp_step. wp_step. apply wp_get. wp_step. apply wp_opt with (ed_text e).
  { rewrite (im_line _ _ _ Him). apply c_string_buffer, (im_text _ _ _ Him). }
  rewrite (im_world _ _ _ Him). unfold ed_complete in Hok, Hfin.
  destruct (foldl match_name None (names w (ed_text e))) as [[name k]|] eqn:Ef.
  - case_bool_decide as Ht; simpl.
    + wp_step. rewrite Es, Ht. by apply Hfin.
    + assert (k <= length name)%nat as Hk by (eapply match_names_le; [|exact Ef]; done).
      pose proof Hok as [Hl _]%is_line_iff. unfold ed_text at 1 in Hl. simpl in Hl. rewrite app_nil_r, length_app, length_take in Hl.
      rewrite bool_decide_true by (unfold FINSH_CMD_SIZE; lia). apply wp_modify.
      assert (take k name ++ drop k (sh_line s) = buffer (take k name ++ drop k (ed_text e))) as El.
      { rewrite (im_line _ _ _ Him). unfold buffer, zeros. rewrite drop_app, <- app_assoc. f_equal. f_equal.
        rewrite drop_replicate, length_app, length_take, length_drop. f_equal. unfold FINSH_CMD_SIZE. lia. }
      rewrite El. by apply Hfin.
  - wp_step. rewrite Es. by apply Hfin.
Qed.

(** ** Keys *)

Lemma im_set_stat s e w v : implements s e w -> implements (set_stat v s) (ed_set_stat v e) w.
Proof. intros Him. destruct Him. by split. Qed.

Lemma wp_function s e w ch f (Q : unit -> finsh_shell -> Prop) :
  implements s e w -> ed_function ch = Some f -> (forall s', implements s' (f e) w -> Q tt s') ->
  exists c, function_key ch = Some c /\ wp c Q s.
Proof.
  intros Him Hf HQ. unfold ed_function, function_key in *.
  repeat (destruct (ch =? _); [injection Hf as <-; eexists; split; [done|]; by eauto using wp_up, wp_down, wp_left, wp_right|]).
  done.
Qed.
Lemma function_none ch : ed_function ch = None -> function_key (World:=World) ch = None.
Proof. unfold ed_function, function_key. by repeat case_match. Qed.

Lemma wp_character s e w ch input r (Q : list Z * bool -> finsh_shell -> Prop) :
  implements s e w -> ed_character run_line names ch input e w = Some r ->
  (forall s', implements s' r.1.2 r.2 -> Q r.1.1 s') -> wp (character run_line names ch input) Q s.
Proof.
  intros Him He HQ. unfold character, ed_character in *. destruct (ch =? 9).
  { apply bind_Some in He as (e' & Hc & [= <-]). unfold checked in Hc. case_match eqn:Hok; [|done]. injection Hc as <-.
    apply wp_bind_assoc. wp_step. apply (wp_complete s e w); [done|done|]. intros s' Him'. wp_step. by apply HQ. }
  destruct ((ch =? 127) || (ch =? 8)).
  { injection He as <-. wp_step. apply (wp_backspace s e w Him). intros s' Him'. wp_step. by apply HQ. }
  destruct (if ch =? 13 then _ else _) as [ch' input'].
  destruct ((ch' =? 13) || (ch' =? 10)).
  - apply bind_Some in He as ([e' w'] & He & [= <-]). wp_step. apply (wp_end_line s e w e' w'); [done|done|].
    intros s' Him'. wp_step. by apply HQ.
  - apply bind_Some in He as (e' & Hc & [= <-]). unfold checked in Hc. case_match eqn:Hok; [|done]. injection Hc as <-.
    wp_step. apply (wp_normal s e w Him); [done|]. intros s' Him'. wp_step. by apply HQ.
Qed.

Lemma wp_key s e w ch input r (Q : list Z * bool -> finsh_shell -> Prop) :
  implements s e w -> ed_key run_line names ch input e w = Some r ->
  (forall s', implements s' r.1.2 r.2 -> Q r.1.1 s') -> wp (shell_key run_line names ch input) Q s.
Proof.
  intros Him He HQ. unfold shell_key, ed_key in *. wp_step. apply wp_get. rewrite (im_stat _ _ _ Him).
  destruct (ch =? 27). { injection He as <-. wp_step. apply wp_modify. wp_step. by apply HQ, im_set_stat. }
  destruct (ed_stat e).
  - by eapply wp_character.
  - destruct (ch =? 91). { injection He as <-. wp_step. apply wp_modify. wp_step. by apply HQ, im_set_stat. }
    wp_step. apply wp_modify. eapply wp_character; [by apply im_set_stat|done|done].
  - wp_step. apply wp_modify. destruct (ed_function ch) as [f|] eqn:Ef.
    + injection He as <-. destruct (wp_function (set_stat WAIT_NORMAL s) (ed_set_stat WAIT_NORMAL e) w ch f
        (fun _ s' => wp (mret (input, false)) Q s')) as (c & -> & Hc); [by apply im_set_stat|done| |by wp_step].
      intros s' Him'. wp_step. by apply HQ.
    + rewrite function_none by done. eapply wp_character; [by apply im_set_stat|done|done].
Qed.

Lemma wp_read fuel : forall s e w input r (Q : list Z -> finsh_shell -> Prop),
  implements s e w -> ed_read run_line names fuel input e w = Some r ->
  (forall s', implements s' r.1.2 r.2 -> Q r.1.1 s') -> wp (shell_read run_line names fuel input) Q s.
Proof.
  induction fuel as [|fuel IH]; intros s e w [|ch input] r Q Him He HQ; simpl in He; try done.
  - injection He as <-. simpl. wp_step. by apply HQ.
  - apply bind_Some in He as ([[[rest stop] e'] w'] & Hk & He). simpl. wp_step.
    eapply wp_key; [done|exact Hk|]. intros s' Him'. simpl. simpl in Him'. destruct stop.
    + injection He as <-. wp_step. by apply HQ.
    + by eapply IH.
Qed.

(** C11: The shell's buffer, positions and history behave as a line of text with a cursor and
    the list of the last five lines, and each line that is ended is run: for every sequence
    of keys, as long as the text stays within 78 characters and the lines that are run
    return. *)
Theorem line_editor_refines fuel : forall s e w input e' w',
  implements s e w -> ed_loop run_line names fuel input e w = Some (e', w') ->
  exists s', finsh_thread_loop run_line names fuel input s = Ok tt s' /\ implements s' e' w'.
Proof.
  enough (forall s e w input e' w', implements s e w -> ed_loop run_line names fuel input e w = Some (e', w') ->
    wp (finsh_thread_loop run_line names fuel input) (fun _ s' => implements s' e' w') s) as Hwp.
  { intros s e w input e' w' Him He. destruct (wp_ok _ _ _ (Hwp s e w input e' w' Him He)) as ([] & s' & E & H). by exists s'. }
  induction fuel as [|fuel IH]; intros s e w input e' w' Him He; [done|]. simpl in He.
  apply bind_Some in He as ([[rest e1] w1] & Hr & He). cbn [finsh_thread_loop]. wp_step.
  eapply wp_read; [done|exact Hr|]. intros s' Him'. simpl in Him' |- *. destruct rest as [|c rest].
  - injection He as <- <-. by wp_step.
  - by eapply IH.
Qed.
End refine.
