(* ===== verification/FinshWitness.v ===== *)
(** * The shell: concrete lines, and what they show *)
From stdpp Require Import base tactics numbers list gmap relations.
From Stdlib Require Strings.String Strings.Ascii.
From S2P Require Import Prelude Memory Finsh FinshVm FinshCompiler FinshVmCorrect FinshExpr FinshTree FinshCode FinshRun FinshHeap FinshToken FinshParser FinshLine FinshShell FinshEdit.
Local Open Scope Z_scope.
Import Stdlib.Strings.String.StringSyntax.
Local Open Scope string_scope.

Module FinshDemo.

Definition chars (s : Stdlib.Strings.String.string) : list Z :=
  (fun c => Z.of_N (Stdlib.Strings.Ascii.N_of_ascii c)) <$> Stdlib.Strings.String.list_ascii_of_string s.

(** The variables at 1000, the heap at 2000; two system calls and a system variable *)
#[export] Instance env : FinshEnv := {|
  gv_addr := 1000;
  finsh_heap := 2000;
  _syscall_table := [(5000, mk_syscall (chars "inc") 7000); (5008, mk_syscall (chars "list") 7004)];
  _sysvar_table := [(5100, mk_sysvar (chars "tick") finsh_type_uint 3000)];
  func_call := fun f args m => if f =? 7000 then Ok (default 0 (args !! 0%nat) + 1) m else Ok 42 m
|}.

Definition memory : mem := list_to_map ((fun i => (i, 0)) <$> seqZ 1000 192 ++ seqZ 2000 128 ++ seqZ 3000 4).
Definition start : finsh_parser :=
  run finsh_init (mk_parser (mk_finsh memory [] [] [] (replicate 64 0) 0 0 0 0 0 0 [] []) (finsh_token_init []) None).

(** What the lines print *)
Fixpoint session (p : finsh_parser) (lines : list Stdlib.Strings.String.string) : option (list (list printed)) :=
  match lines with
  | [] => Some []
  | l :: lines' =>
      match finsh_run_line 100 (chars l) p with
      | Ok out p' => rest ← session p' lines'; Some (out :: rest)
      | Fault _ => None
      end
  end.

Example finsh_session :
  session start ["1+2*3;"; "int a=5;"; "a=a*a+1;"; "a++;"; "--a;"; "inc(a);"; "tick=9;"; "tick;"; "*&a;"; "-5;"; "0x1F|017;";
    "unsigned int b, d=3, e;"; "d<<4;"; "nosuch;"; "list();"]
  = Some [[PrintValue 7]; [PrintValue 5]; [PrintValue 26]; [PrintValue 26]; [PrintValue 26]; [PrintValue 27];
      [PrintValue 9]; [PrintValue 9]; [PrintValue 26]; [PrintValue (-5)]; [PrintValue 31]; [PrintValue 3]; [PrintValue 48];
      [PrintError FINSH_ERROR_UNKNOWN_SYMBOL]; [PrintValue 42]].
Proof. vm_compute. reflexivity. Qed.

(** Only the first slot of the stack is cleared, and to 0 only at the start: a character
    that was assigned is shown with the upper bytes of the address below it. *)
Example finsh_char_upper_bytes : session start ["char c='x';"; "c;"] = Some [[PrintValue (768 + 120)]; [PrintValue 120]].
Proof. vm_compute. reflexivity. Qed.
(** A call has the data type of its function's node, none: an operator after it is dropped. *)
Example finsh_call_operand : session start ["inc(4)+2;"; "2+inc(4);"] = Some [[PrintValue 5]; [PrintValue 7]].
Proof. vm_compute. reflexivity. Qed.
(** A parenthesis begins a cast, so a parenthesised expression is an error. *)
Example finsh_parentheses : session start ["(1+2)*3;"] = Some [[PrintError FINSH_ERROR_NULL_NODE]].
Proof. vm_compute. reflexivity. Qed.
(** An empty statement swallows the token after it. *)
Example finsh_empty_statement : session start ["int x=3;;x=4;"; "x;"] = Some [[PrintError FINSH_ERROR_INVALID_TOKEN]; [PrintValue 0]].
Proof. vm_compute. reflexivity. Qed.
(** The digits of an escaped character are lost; a backslash in a string ends it. *)
Example finsh_char_escape : session start ["'\113';"] = Some [[PrintValue 0]].
Proof. vm_compute. reflexivity. Qed.
(** The text segment is not checked against its end. *)
Example finsh_text_overflow :
  session start ["int a;"; "a++;a++;a++;a++;a++;"] = Some [[PrintValue 0]; [PrintValue 4]] /\
  finsh_run_line 100 (chars "a++;a++;a++;a++;a++;a++;") (run (finsh_run_line 100 (chars "int a;")) start) = Fault BadPointer.
Proof. vm_compute. split; reflexivity. Qed.
(** A string that does not fit the heap is written to address 0. *)
Definition string_line (name : Stdlib.Strings.String.string) : list Z :=
  chars "char *" ++ chars name ++ chars "=" ++ [34] ++ replicate 60 97 ++ [34] ++ chars ";".
Example finsh_string_no_memory :
  finsh_run_line 100 (string_line "t") (run (finsh_run_line 100 (string_line "s")) start) = Fault BadPointer.
Proof. vm_compute. reflexivity. Qed.
(** A system call added at run time is found by any prefix of its name. *)
Example finsh_prefix_match :
  result (finsh_syscall_append 9000 (chars "reboot") 7008;; finsh_syscall_lookup (chars "r")) (fp_shell start) = Some 9000.
Proof. vm_compute. reflexivity. Qed.

(** ** Witnesses of the theorems, on the line [x=x*2+1;x;] with [x = 20] *)

(** The tree at an index of the table *)
Fixpoint forest_at (fuel : nat) (tbl : list finsh_node) (p : option nat) : forest :=
  match fuel, p with
  | S fuel', Some k =>
      let n := default no_node (tbl !! k) in
      FCons k n (forest_at fuel' tbl (nd_child n)) (forest_at fuel' tbl (nd_sibling n))
  | _, _ => FNil
  end.

Definition parsed : finsh_parser :=
  run (finsh_parser_run 100 (chars "x=x*2+1;x;")) (run (finsh_run_line 100 (chars "int x=20;")) start).
Definition shell : finsh := fp_shell parsed.
Definition nodes : list finsh_node := Eval vm_compute in global_node_table shell.
Definition tree : forest := Eval vm_compute in forest_at 16 nodes (root parsed).
Definition var_x : Z := 1020.
Definition first : expr := EAssign var_x Dword (EBin Add (EBin Mul (EVar var_x Dword) (ELong 2)) (ELong 1)).
Definition second : expr := EVar var_x Dword.
Definition statements : list expr := [first; second].

Lemma nodes_eq : global_node_table shell = nodes.
Proof. vm_compute. reflexivity. Qed.
Lemma tree_rep : rep (global_node_table shell) tree.
Proof. rewrite nodes_eq. repeat split. Qed.
Lemma tree_keys : NoDup (keys tree).
Proof. apply (bool_decide_unpack _). vm_compute. exact I. Qed.

Lemma var_x_node flag n :
  nd_type n = FINSH_NODE_ID -> nd_id n = 1000 -> nd_idtype n = FINSH_IDTYPE_VAR -> is_var shell false flag n var_x Dword.
Proof.
  intros Ht Hi Hf. left. split; [split_and!; [done|by rewrite Hi|done|done]|]. exists finsh_type_int. split; [done|].
  split; [|unfold value_addr; by rewrite Hi]. exists (mk_var (chars "x") finsh_type_int). rewrite Hi. split; [|done].
  vm_compute. reflexivity.
Qed.

Lemma tree_encodes : encs shell false (to_exprs statements) tree.
Proof.
  unfold tree, statements, first, second. simpl.
  repeat match goal with
  | |- exists _, _ => eexists
  | |- _ /\ _ => split
  | |- is_var _ _ _ _ _ _ => apply var_x_node; reflexivity
  | |- op_node _ _ _ _ _ => split_and!; [reflexivity|reflexivity|discriminate]
  | |- _ \/ _ => left
  | |- _ = _ => reflexivity
  end.
Qed.

Lemma tree_size : length (global_node_table shell) = FINSH_NODE_MAX /\ length (finsh_vm_stack shell) = 64%nat.
Proof. split; vm_compute; reflexivity. Qed.
Lemma statements_wt : Forall wt statements.
Proof. repeat constructor; vm_compute; congruence. Qed.

(** The value of [x] is 41 afterwards, and 41 is shown. *)
Lemma statements_value : match prog_eval first [second] (f_mem shell) with
  | Ok v m => v = 41 /\ rd32 var_x m = Ok 41 m | Fault _ => False end.
Proof. vm_compute. split; reflexivity. Qed.

Lemma finsh_type_check_witness :
  exists (tbl : list finsh_node) (t' : forest),
    finsh_type_check node_fuel (froot tree) FINSH_NODE_VALUE shell = Ok tt (set_global_node_table tbl shell) /\
    rep tbl t' /\ encs shell true (to_exprs statements) t' /\ keys t' = keys tree /\ froot t' = froot tree /\
    (forall k, k ∉ keys tree -> tbl !! k = global_node_table shell !! k).
Proof. exact (finsh_type_check_types shell statements tree tree_encodes tree_rep tree_keys (proj1 tree_size)). Defined.

Lemma finsh_compile_run_witness :
  exists m' s', (finsh_compiler_run (froot tree);; finsh_vm_run) shell = Ok tt s' /\ f_mem s' = m' /\ rd32 var_x m' = Ok 41 m' /\
    global_errno s' = global_errno shell /\ global_variable s' = global_variable shell /\
    exists w, finsh_vm_stack s' !! 0%nat = Some w /\ getw Dword w = 41.
Proof.
  pose proof statements_value as Hv.
  destruct (prog_eval first [second] (f_mem shell)) as [v m'|f] eqn:E; [|destruct Hv].
  destruct Hv as [-> Hr].
  destruct (finsh_compile_run_correct shell first [second] tree 41 m' tree_encodes tree_rep
    tree_keys (proj1 tree_size) (proj2 tree_size) statements_wt ltac:(simpl; lia) E) as (s' & H1 & H2 & H3 & H4 & H5).
  exists m', s'. exact (conj H1 (conj H2 (conj Hr (conj H3 (conj H4 H5))))).
Defined.
End FinshDemo.

(** ** The line editor *)
Module ShellDemo.
Import FinshDemo.

Definition run_it (l : list Z) : M finsh_parser unit := _ ← finsh_run_line 100 l; mret tt.
Definition complete_it (p : finsh_parser) (prefix : list Z) : list (list Z) := list_names (fp_shell p) prefix.

(** After finsh_system_init and finsh_init *)
Definition shell0 : finsh_shell :=
  mk_shell WAIT_NORMAL 0 0 (replicate FINSH_HISTORY_LINES (replicate FINSH_CMD_SIZE 0)) (replicate FINSH_CMD_SIZE 0) 0 0 FinshDemo.start.
Definition editor0 : editor := mk_editor WAIT_NORMAL [] [] [] 0.

Lemma shell0_implements : implements shell0 editor0 FinshDemo.start.
Proof. split; try reflexivity; try done; try (vm_compute; lia). Qed.

Definition up : list Z := [0x1b; 0x5b; 0x41].
Definition left_arrow : list Z := [0x1b; 0x5b; 0x44].
(** [int x=4], the cursor two to the left and [1] inserted, return; then the line of the
    history again with its end replaced *)
Definition keys1 : list Z := chars "int x=4" ++ left_arrow ++ chars "1" ++ [10] ++ chars "x+" ++ [8] ++ chars "*2" ++ [10] ++ up.

Lemma keys1_result :
  match ed_loop run_it complete_it 10 keys1 editor0 FinshDemo.start with
  | Some (e, p) => hist e = [chars "int x=14"; chars "x*2"] /\ before e = chars "x*2" /\ finsh_stack_bottom (fp_shell p) = Ok 28 (fp_shell p)
  | None => False
  end.
Proof. vm_compute. repeat split. Qed.

Lemma line_editor_witness :
  exists e' w' s', ed_loop run_it complete_it 10 keys1 editor0 FinshDemo.start = Some (e', w') /\
    hist e' = [chars "int x=14"; chars "x*2"] /\
    finsh_thread_loop run_it complete_it 10 keys1 shell0 = Ok tt s' /\ implements s' e' w'.
Proof.
  pose proof keys1_result as Hr.
  destruct (ed_loop run_it complete_it 10 keys1 editor0 FinshDemo.start) as [[e' w']|] eqn:E; [|destruct Hr].
  destruct Hr as [Hh _].
  destruct (line_editor_refines run_it complete_it 10 shell0 editor0 FinshDemo.start keys1 e' w' shell0_implements E) as (s' & H1 & H2).
  exists e', w', s'. exact (conj eq_refl (conj Hh (conj H1 H2))).
Defined.

Lemma completion_witness :
  exists nm k, foldl match_name None [chars "list_sem"; chars "list_mutex"; chars "list"] = Some (nm, k) /\
    Forall (fun n => take k nm `prefix_of` n) [chars "list_sem"; chars "list_mutex"; chars "list"] /\
    forall q, Forall (fun n => q `prefix_of` n) [chars "list_sem"; chars "list_mutex"; chars "list"] -> q `prefix_of` take k nm.
Proof.
  exact (completion_longest [chars "list_sem"; chars "list_mutex"; chars "list"] (chars "list_sem") [chars "list_mutex"; chars "list"] eq_refl).
Defined.

(** A line of 79 characters fills the buffer with its semicolon: finsh_run_line reads on
    behind the buffer. *)
Example shell_line_79 :
  finsh_thread_loop run_it complete_it 5 (replicate 78 49 ++ [10]) shell0 <> Fault BadPointer /\
  finsh_thread_loop run_it complete_it 5 (replicate 79 49 ++ [10]) shell0 = Fault BadPointer.
Proof. split; [|vm_compute; reflexivity]. vm_compute. discriminate. Qed.
(** At 80 characters the positions go back to 0 but the text stays; what is typed then is
    run with the rest of it behind. *)
Example shell_line_stale :
  finsh_thread_loop run_it complete_it 5 (replicate 80 49 ++ chars "2" ++ [10]) shell0 = Fault BadPointer.
Proof. vm_compute. reflexivity. Qed.
(** A carriage return takes the byte behind it: of two lines that come in together and end
    in carriage returns, none is run. *)
Example shell_cr_swallowed :
  match finsh_thread_loop run_it complete_it 9 (chars "1" ++ [13] ++ chars "2" ++ [13; 10]) shell0 with
  | Ok _ s => history_count s = 1 /\ cmd_history s !! 0%nat = Some (buffer (chars "12"))
  | Fault _ => False
  end.
Proof. vm_compute. repeat split. Qed.
End ShellDemo.
