(* ===== verification/DfsPath.v ===== *)
(** * Path names of the virtual file system (components/dfs/src/dfs.c)

    [dfs_normalize_path] rewrites a path in place: one pointer reads, one writes behind it.
    The code is modelled on the bytes of the block that holds the path, where an access
    outside the block is a fault, and is shown to compute the meaning of the path as a list
    of names. *)
From stdpp Require Import base tactics numbers list.
From S2P Require Import Prelude.
Local Open Scope Z_scope.

(** '/' and '.' *)
Definition SLASH : Z := 47.
Definition DOT : Z := 46.

(** ** Bytes of one block of memory; positions are relative to its start *)

Definition rdb (i : Z) : M (list Z) Z :=
  l ← get; opt BadPointer (if i <? 0 then None else (l : list Z) !! Z.to_nat i).
Definition wrb (i v : Z) : M (list Z) unit :=
  l ← get; opt BadPointer (if i <? 0 then None else (l : list Z) !! Z.to_nat i);;
  modify (fun l => <[Z.to_nat i := v]> l).

(** ** The loops of [dfs_normalize_path] *)

(** [while (( *src == '/') && ( *src != '\0')) src ++;] *)
Definition skip_slashes (fuel : nat) (src : Z) : M (list Z) Z :=
  while fuel (fun src => c ← rdb src; mret ((c =? SLASH) && negb (c =? 0))) (fun src => mret (src + 1)) src.

(** [while ((c = *src++) != '\0' && c != '/') *dst ++ = c;] *)
Fixpoint copy_name (fuel : nat) (src dst : Z) : M (list Z) (Z * Z * Z) :=
  match fuel with
  | O => throw OutOfFuel
  | S fuel' =>
      c ← rdb src;
      if negb (c =? 0) && negb (c =? SLASH) then wrb dst c;; copy_name fuel' (src + 1) (dst + 1)
      else mret (c, src + 1, dst)
  end.

(** [while (c == '/') c = *src++;] *)
Fixpoint skip_run (fuel : nat) (c src : Z) : M (list Z) Z :=
  match fuel with
  | O => throw OutOfFuel
  | S fuel' => if c =? SLASH then c ← rdb src; skip_run fuel' c (src + 1) else mret src
  end.

(** [while (dst0 < dst && dst[-1] != '/') dst --;] *)
Fixpoint back (fuel : nat) (dst : Z) : M (list Z) Z :=
  match fuel with
  | O => throw OutOfFuel
  | S fuel' =>
      if 0 <? dst then c ← rdb (dst - 1); if negb (c =? SLASH) then back fuel' (dst - 1) else mret dst
      else mret dst
  end.

(** The [while (1)] loop.  [None]: the path climbs over its start, the function returns
    RT_NULL.  [Some dst]: the loop is left with [break]. *)
Fixpoint normalize_loop (fuel : nat) (src dst : Z) : M (list Z) (option Z) :=
  match fuel with
  | O => throw OutOfFuel
  | S fuel' =>
      l ← get;
      let n := S (length (l : list Z)) in
      let copy (src : Z) :=
        '(c, src, dst) ← copy_name n src dst;
        if c =? SLASH then
          wrb dst SLASH;;
          src ← skip_run n c src;
          normalize_loop fuel' (src - 1) (dst + 1)
        else mret (Some dst) in
      let up_one (src : Z) :=
        if dst - 1 <? 0 then mret None
        else dst ← back n (dst - 1); normalize_loop fuel' src dst in
      c ← rdb src;
      if c =? DOT then
        c1 ← rdb (src + 1);
        if c1 =? 0 then copy (src + 1)
        else if c1 =? SLASH then src ← skip_slashes n (src + 2); normalize_loop fuel' src dst
        else if c1 =? DOT then
          c2 ← rdb (src + 2);
          if c2 =? 0 then up_one (src + 2)
          else if c2 =? SLASH then src ← skip_slashes n (src + 3); up_one src
          else copy src
        else copy src
      else copy src
  end.

(** The whole rewriting; [false]: the block is given back and RT_NULL returned.  Each round
    of the loop reads at least one byte of the path, so the length of the block bounds them. *)
Definition normalize_block : M (list Z) bool :=
  l ← get;
  r ← normalize_loop (S (length (l : list Z))) 0 0;
  match r with
  | None => mret false
  | Some dst =>
      wrb dst 0;;
      let dst := dst - 1 in
      (if negb (dst =? 0) then c ← rdb dst; when (c =? SLASH) (wrb dst 0) else mret tt);;
      mret true
  end.

(** The C string at the start of a block: the bytes before the first NUL. *)
Fixpoint cstring (l : list Z) : option (list Z) :=
  match l with
  | [] => None
  | c :: l' => if c =? 0 then Some [] else s ← cstring l'; Some (c :: s)
  end.

(** ** The meaning of a path *)

(** The first name, and the names behind each '/' *)
Fixpoint split (p : list Z) : list Z * list (list Z) :=
  match p with
  | [] => ([], [])
  | c :: p' => let '(s, ss) := split p' in if c =? SLASH then ([], s :: ss) else (c :: s, ss)
  end.

(** One name, the innermost directory first: "" and "." stay, ".." leaves a directory. *)
Definition enter (st : list (list Z)) (s : list Z) : option (list (list Z)) :=
  if bool_decide (s = []) || bool_decide (s = [DOT]) then Some st
  else if bool_decide (s = [DOT; DOT]) then match st with [] => None | _ :: st' => Some st' end
  else Some (s :: st).
Fixpoint walk (st : list (list Z)) (ss : list (list Z)) : option (list (list Z)) :=
  match ss with [] => Some st | s :: ss' => st' ← enter st s; walk st' ss' end.

(** A leading '/' is a directory with the empty name, the root. *)
Definition resolve (p : list Z) : option (list (list Z)) :=
  match p with
  | c :: p' => if c =? SLASH then walk [[]] ((split p').1 :: (split p').2) else walk [] ((split p).1 :: (split p).2)
  | [] => Some []
  end.

Fixpoint flat (st : list (list Z)) : list Z :=
  match st with [] => [] | s :: st' => flat st' ++ s ++ [SLASH] end.
Definition render (st : list (list Z)) : list Z :=
  match st with [] => [] | [[]] => [SLASH] | s :: st' => flat st' ++ s end.

(** ** Correctness *)

(** The block during the rewriting: [D] is written, [k] bytes are stale, [R] is unread. *)
Definition shape (D : list Z) (k : nat) (R : list Z) (l : list Z) : Prop :=
  exists J, length J = k /\ l = D ++ J ++ R.

Lemma wp_rdb i c l (Q : Z -> list Z -> Prop) :
  0 <= i -> l !! Z.to_nat i = Some c -> Q c l -> wp (rdb i) Q l.
Proof.
  intros Hi E HQ. unfold rdb. do 2 wp_step. eapply wp_opt; [|exact HQ].
  by destruct (Z.ltb_spec i 0); [lia|].
Qed.

Lemma wp_wrb i v l (Q : unit -> list Z -> Prop) :
  0 <= i < Z.of_nat (length l) -> Q tt (<[Z.to_nat i := v]> l) -> wp (wrb i v) Q l.
Proof.
  intros Hi HQ. unfold wrb. do 3 wp_step. destruct (lookup_lt_is_Some_2 l (Z.to_nat i)) as [c E]; [lia|].
  eapply wp_opt; [|by wp_step]. destruct (Z.ltb_spec i 0); [lia|exact E].
Qed.

Lemma insert_app_end (E X : list Z) v : <[length E := v]> (E ++ X) = E ++ <[0%nat := v]> X.
Proof. rewrite <- (Nat.add_0_r (length E)) at 1. apply insert_app_r. Qed.

Section shapes.
Context (D : list Z) (k : nat) (R l : list Z) (Hl : shape D k R l).

Lemma wp_read_src (j : nat) (i c : Z) (Q : Z -> list Z -> Prop) :
  R !! j = Some c -> i = Z.of_nat (length D + k + j) -> Q c l -> wp (rdb i) Q l.
Proof.
  destruct Hl as (J & HJ & ->). intros E -> HQ. eapply wp_rdb; [lia| |exact HQ].
  rewrite Nat2Z.id, lookup_app_r, lookup_app_r by lia. rewrite <- E. f_equal. lia.
Qed.

(** A byte that is read and written again at the other end *)
Lemma wp_write_dst (v i : Z) (R' : list Z) (Q : unit -> list Z -> Prop) :
  R = v :: R' -> i = Z.of_nat (length D) -> (forall l', shape (D ++ [v]) k R' l' -> Q tt l') -> wp (wrb i v) Q l.
Proof.
  destruct Hl as (J & HJ & ->). intros -> -> HQ.
  apply wp_wrb; [rewrite !length_app; simpl; lia|]. rewrite Nat2Z.id. apply HQ.
  rewrite insert_app_end. destruct J as [|j J]; simpl; [exists []; by rewrite <- app_assoc|].
  exists (J ++ [v]). rewrite length_app. simpl in *. split; [lia|]. by rewrite <- !app_assoc.
Qed.

Lemma shape_skip (x R' : list Z) : R = x ++ R' -> shape D (k + length x) R' l.
Proof.
  destruct Hl as (J & HJ & ->). intros ->. exists (J ++ x). rewrite length_app, <- app_assoc. by rewrite HJ.
Qed.
End shapes.

Lemma shape_pop D E k R l : shape (D ++ E) k R l -> shape D (length E + k) R l.
Proof. intros (J & HJ & ->). exists (E ++ J). rewrite length_app, <- !app_assoc. by rewrite HJ. Qed.

(** Neither NUL nor '/' *)
Definition name_char (c : Z) : Prop := c <> 0 /\ c <> SLASH.

Lemma name_char_bool c : name_char c -> negb (c =? 0) && negb (c =? SLASH) = true.
Proof. intros [? ?]. by rewrite (proj2 (Z.eqb_neq c 0)), (proj2 (Z.eqb_neq c SLASH)). Qed.

Lemma copy_name_spec s c R fuel D k l src dst :
  shape D k (s ++ c :: R) l -> Forall name_char s -> ~ name_char c -> (length s < fuel)%nat ->
  src = Z.of_nat (length D + k) -> dst = Z.of_nat (length D) ->
  wp (copy_name fuel src dst) (fun r l' =>
    r = (c, src + Z.of_nat (length s) + 1, dst + Z.of_nat (length s)) /\ shape (D ++ s) k (c :: R) l') l.
Proof.
  revert fuel D l src dst. induction s as [|x s IH]; intros fuel D l src dst Hl Hs Hc Hf -> ->;
    (destruct fuel as [|fuel]; [simpl in Hf; lia|]); simpl.
  - wp_step. eapply (wp_read_src _ _ _ _ Hl 0); [done|lia|].
    destruct (negb (c =? 0) && negb (c =? SLASH)) eqn:E.
    { exfalso. apply Hc. apply andb_prop in E as [?%negb_true_iff ?%negb_true_iff]. split; lia. }
    wp_step. rewrite app_nil_r. split; [|done]. f_equal; [f_equal; lia|lia].
  - apply Forall_cons in Hs as [Hx Hs]. wp_step. eapply (wp_read_src _ _ _ _ Hl 0); [done|lia|].
    rewrite name_char_bool by done. wp_step. eapply (wp_write_dst _ _ _ _ Hl); [done|done|].
    intros l' Hl'. eapply wp_mono; [apply IH; try done|]; [simpl in Hf; lia|rewrite length_app; simpl; lia..|].
    intros r l2 [-> Hl2]. rewrite <- app_assoc in Hl2. split; [|done]. f_equal; [f_equal|]; lia.
Qed.

(** The rest of a run of slashes *)
Fixpoint drop_slashes (x : list Z) : list Z :=
  match x with c :: x' => if c =? SLASH then drop_slashes x' else x | [] => [] end.

Lemma drop_slashes_spec x : exists n, x = replicate n SLASH ++ drop_slashes x /\ head (drop_slashes x) <> Some SLASH.
Proof.
  induction x as [|c x (n & E & Hh)]; [by exists 0%nat|]. simpl. destruct (Z.eqb_spec c SLASH) as [->|Hc].
  - exists (S n). split; [|done]. simpl. by rewrite <- E.
  - exists 0%nat. split; [done|]. simpl. congruence.
Qed.

Lemma skip_slashes_spec n R fuel D k l src :
  shape D k (replicate n SLASH ++ R) l -> head R <> Some SLASH -> R <> [] -> (n < fuel)%nat ->
  src = Z.of_nat (length D + k) ->
  wp (skip_slashes fuel src) (fun src' l' => l' = l /\ src' = src + Z.of_nat n) l.
Proof.
  intros Hl Hh HR Hf ->. destruct R as [|c R]; [done|]. simpl in Hh. unfold skip_slashes.
  apply (wp_while (fun src l' => l' = l /\ exists j, (j <= n)%nat /\ src = Z.of_nat (length D + k + j))
    (fun src _ => Z.to_nat (Z.of_nat (length D + k + n) - src))); [split; [done|exists 0%nat; lia]|lia|].
  intros src ? (-> & j & Hj & ->). wp_step. destruct (decide (j = n)) as [->|Hne].
  - eapply (wp_read_src _ _ _ _ Hl n); [apply list_lookup_middle; by rewrite length_replicate|done|].
    wp_step. rewrite (proj2 (Z.eqb_neq c SLASH)) by congruence. simpl. split; [done|lia].
  - eapply (wp_read_src _ _ _ _ Hl j _ SLASH); [|done|].
    { rewrite lookup_app_l by (rewrite length_replicate; lia). apply lookup_replicate_2. lia. }
    wp_step. simpl. wp_step. split; [|lia]. split; [done|]. exists (S j). lia.
Qed.

Lemma skip_run_spec n R fuel D k l src :
  shape D k (replicate n SLASH ++ R) l -> head R <> Some SLASH -> R <> [] -> (S n < fuel)%nat ->
  src = Z.of_nat (length D + k) ->
  wp (skip_run fuel SLASH src) (fun src' l' => l' = l /\ src' = src + Z.of_nat n + 1) l.
Proof.
  revert fuel k src. induction n as [|n IH]; intros fuel k src Hl Hh HR Hf ->;
    (destruct fuel as [|fuel]; [lia|]); simpl; wp_step.
  - destruct R as [|c R]; [done|]. eapply (wp_read_src _ _ _ _ Hl 0); [done|lia|].
    destruct fuel; [lia|]. simpl. rewrite (proj2 (Z.eqb_neq c SLASH)) by (simpl in Hh; congruence).
    wp_step. split; [done|lia].
  - eapply (wp_read_src _ _ _ _ Hl 0); [done|lia|]. eapply wp_mono.
    + apply IH with (k := (k + 1)%nat); [|done|done|lia|lia].
      exact (shape_skip _ _ _ _ Hl [SLASH] _ eq_refl).
    + intros src' l' [-> ->]. split; [done|lia].
Qed.

(** From behind a name back to the '/' before it, or to the start *)
Lemma back_spec s fuel D k R l dst :
  shape (D ++ s) k R l -> Forall name_char s -> (D = [] \/ exists D', D = D' ++ [SLASH]) ->
  (length s < fuel)%nat -> dst = Z.of_nat (length D + length s) ->
  wp (back fuel dst) (fun dst' l' => l' = l /\ dst' = Z.of_nat (length D)) l.
Proof.
  revert fuel k R dst. induction s as [|c s IH] using rev_ind; intros fuel k R dst Hl Hs HD Hf ->;
    (destruct fuel as [|fuel]; [lia|]); simpl.
  - destruct HD as [->|[D' ->]]; [simpl; by wp_step|]. rewrite app_nil_r in Hl.
    rewrite (proj2 (Z.ltb_lt _ _)) by (rewrite !length_app; simpl; lia). wp_step.
    destruct Hl as (J & HJ & ->). eapply (wp_rdb _ SLASH); [rewrite !length_app; simpl; lia| |].
    + rewrite <- app_assoc. apply list_lookup_middle. rewrite !length_app. simpl. lia.
    + simpl. wp_step. split; [done|]. lia.
  - apply Forall_app in Hs as [Hs Hc]. apply Forall_cons in Hc as [Hc _]. rewrite length_app in *. simpl in *.
    rewrite (proj2 (Z.ltb_lt _ _)) by lia. wp_step.
    pose proof Hl as (J & HJ & El). eapply (wp_rdb _ c); [lia| |].
    + rewrite El. rewrite (app_assoc D s [c]), <- app_assoc. apply list_lookup_middle. rewrite length_app. lia.
    + rewrite (proj2 (Z.eqb_neq c SLASH)) by apply Hc. simpl.
      eapply wp_mono; [eapply (IH fuel (1 + k)%nat R)|]; [|done|done|lia|lia|done].
      rewrite app_assoc in Hl. exact (shape_pop _ [c] _ _ _ Hl).
Qed.

(** The names of a path that does not start with '/' *)
Definition names (x : list Z) : list (list Z) := (split x).1 :: (split x).2.

Lemma split_cases x :
  Forall (fun c => c <> 0) x -> exists s, Forall name_char s /\
    (x = s /\ names x = [s] \/ exists x', x = s ++ SLASH :: x' /\ names x = s :: names x').
Proof.
  unfold names. induction x as [|c x IH]; intros H0; [by exists []; auto|].
  apply Forall_cons in H0 as [Hc H0]. destruct (IH H0) as (s & Hs & Hx). simpl. destruct (split x) as [s1 ss1] eqn:Es.
  destruct (Z.eqb_spec c SLASH) as [->|Hne].
  - exists []. split; [done|]. right. exists x. split; [done|]. by rewrite Es.
  - exists (c :: s). split; [by apply Forall_cons|]. destruct Hx as [[-> E]|(x' & -> & E)]; simpl in E; injection E as -> ->.
    + by left.
    + right. exists x'. done.
Qed.

Lemma walk_drop_slashes st x : walk st (names (drop_slashes x)) = walk st (names x).
Proof.
  induction x as [|c x IH]; [done|]. cbn [drop_slashes]. destruct (Z.eqb_spec c SLASH) as [->|Hc]; [|done].
  rewrite IH. unfold names. simpl. by destruct (split x).
Qed.

Definition names_ok (st : list (list Z)) : Prop := Forall (Forall name_char) st.

Lemma flat_end st : flat st = [] \/ exists D, flat st = D ++ [SLASH].
Proof. destruct st as [|s st]; [by left|]. right. simpl. exists (flat st ++ s). by rewrite <- app_assoc. Qed.

(** The loop is left: everything that was written is [flat st], or lacks the last '/'. *)
Definition stopped (st : list (list Z)) (dst : Z) (l : list Z) : Prop :=
  exists E k R, shape E k (0 :: R) l /\ dst = Z.of_nat (length E) /\ names_ok st /\
    (E = flat st \/ exists s st', st = s :: st' /\ s <> [] /\ E = flat st' ++ s).

(** What a round of the loop establishes *)
Definition loop_post (st : list (list Z)) (x : list Z) (r : option Z) (l : list Z) : Prop :=
  match walk st (names x) with
  | None => r = None
  | Some st' => exists dst, r = Some dst /\ stopped st' dst l
  end.

Section round.
Context (T : list Z) (fuel : nat).
Context (IH : forall x st l k, (length x < fuel)%nat -> Forall (fun c => c <> 0) x -> head x <> Some SLASH ->
  names_ok st -> shape (flat st) k (x ++ 0 :: T) l ->
  wp (normalize_loop fuel (Z.of_nat (length (flat st) + k)) (Z.of_nat (length (flat st)))) (loop_post st x) l).

(** What follows a '/': the rest of its run is skipped and the loop goes on. *)
Lemma after_slash x st l k :
  (length x < fuel)%nat -> Forall (fun c => c <> 0) x -> names_ok st -> shape (flat st) k (x ++ 0 :: T) l ->
  exists n, (n <= length x)%nat /\ (exists R, x ++ 0 :: T = replicate n SLASH ++ R /\ head R <> Some SLASH /\ R <> []) /\
    wp (normalize_loop fuel (Z.of_nat (length (flat st) + k + n)) (Z.of_nat (length (flat st)))) (loop_post st x) l.
Proof.
  intros Hf H0 Hst Hl. destruct (drop_slashes_spec x) as (n & E & Hh).
  assert (length x = n + length (drop_slashes x))%nat as Hlen by (rewrite E at 1; by rewrite length_app, length_replicate).
  exists n. split; [lia|]. split.
  - exists (drop_slashes x ++ 0 :: T). rewrite app_assoc, <- E. split; [done|].
    destruct (drop_slashes x); split; done.
  - rewrite <- Nat.add_assoc. eapply wp_mono; [apply (IH (drop_slashes x)); [lia| |done|done|]|].
    + rewrite E in H0. by apply Forall_app in H0 as [_ H0].
    + rewrite <- (length_replicate n SLASH) at 1. eapply shape_skip; [exact Hl|]. by rewrite app_assoc, <- E.
    + intros r l'. unfold loop_post. by rewrite walk_drop_slashes.
Qed.

(** A name that is copied *)
Lemma round_copy s x st l k (src dst : Z) :
  (x = [] \/ exists x', x = SLASH :: x' /\ (length x' < fuel)%nat) -> Forall (fun c => c <> 0) x ->
  names_ok st -> Forall name_char s ->
  shape (flat st) k (s ++ x ++ 0 :: T) l -> src = Z.of_nat (length (flat st) + k) -> dst = Z.of_nat (length (flat st)) ->
  wp ('(c, src, dst) ← copy_name (S (length l)) src dst;
      if c =? SLASH then
        wrb dst SLASH;; src ← skip_run (S (length l)) c src; normalize_loop fuel (src - 1) (dst + 1)
      else mret (Some dst))
    (fun r l' => match x with
       | [] => exists d, r = Some d /\ exists k R, shape (flat st ++ s) k (0 :: R) l' /\ d = Z.of_nat (length (flat st ++ s))
       | _ :: x' => loop_post (s :: st) x' r l'
       end) l.
Proof.
  intros Hx H0 Hst Hs Hl -> ->. pose proof Hl as (J & HJ & El).
  assert (length l = length (flat st) + k + length s + length x + 1 + length T)%nat as Hlen
    by (rewrite El, !length_app; simpl; lia).
  wp_step. destruct Hx as [->|(x' & -> & Hx')].
  - eapply wp_mono; [eapply (copy_name_spec s 0 T); [done|done|by intros [? _]|lia|done|done]|].
    intros r l' [-> Hl']. simpl. wp_step. rewrite length_app. eexists. split; [done|]. exists k, T. split; [done|lia].
  - eapply wp_mono; [eapply (copy_name_spec s SLASH (x' ++ 0 :: T)); [done|done|by intros [_ ?]|lia|done|done]|].
    intros r l1 [-> Hl1]. cbv beta iota. rewrite Z.eqb_refl. wp_step. eapply (wp_write_dst _ _ _ _ Hl1); [done|rewrite length_app; lia|].
    intros l2 Hl2. rewrite <- app_assoc in Hl2. change (flat st ++ s ++ [SLASH]) with (flat (s :: st)) in Hl2.
    apply Forall_cons in H0 as [_ H0].
    destruct (after_slash x' (s :: st) l2 k Hx' H0 ltac:(by apply Forall_cons) Hl2) as (n & Hn & (R & ER & Hh & HR) & Hw).
    simpl in Hlen. rewrite ER in Hl2. wp_step.
    assert (length (flat (s :: st)) = length (flat st) + length s + 1)%nat as Hfl by (simpl; rewrite !length_app; simpl; lia).
    eapply wp_mono; [eapply (skip_run_spec n R); [done|done|done|lia|lia]|].
    intros src l3 [-> ->]. rewrite Hfl in Hw. eapply (eq_rect _ (fun a => wp (normalize_loop fuel a _) _ _)).
    + eapply (eq_rect _ (fun b => wp (normalize_loop fuel _ b) _ _)); [exact Hw|lia].
    + lia.
Qed.

(** A name ".." *)
Lemma round_up x st l k (src dst : Z) :
  (length x < fuel)%nat -> Forall (fun c => c <> 0) x -> head x <> Some SLASH -> names_ok st ->
  shape (flat st) k (x ++ 0 :: T) l -> src = Z.of_nat (length (flat st) + k) -> dst = Z.of_nat (length (flat st)) ->
  wp (if dst - 1 <? 0 then mret None else dst ← back (S (length l)) (dst - 1); normalize_loop fuel src dst)
    (fun r l' => match st with [] => r = None | _ :: st' => loop_post st' x r l' end) l.
Proof.
  intros Hf H0 Hh Hst Hl -> ->. destruct st as [|s st]; [by simpl; wp_step|].
  apply Forall_cons in Hst as [Hs Hst].
  assert (length (flat (s :: st)) = length (flat st) + length s + 1)%nat as Hfl by (simpl; rewrite !length_app; simpl; lia).
  rewrite Hfl in *. rewrite (proj2 (Z.ltb_ge _ _)) by lia. wp_step.
  simpl in Hl. rewrite app_assoc in Hl. apply shape_pop in Hl.
  assert (length s <= length l)%nat by (destruct Hl as (J & _ & ->); rewrite !length_app; lia).
  eapply wp_mono; [eapply (back_spec s _ (flat st)); [done|done|apply flat_end|lia|lia]|].
  intros d l' [-> ->]. apply shape_pop in Hl. simpl in Hl.
  replace (length (flat st) + length s + 1 + k)%nat with (length (flat st) + (length s + S k))%nat by lia.
  by apply IH.
Qed.
End round.

Lemma enter_name st s : s <> [] -> s <> [DOT] -> s <> [DOT; DOT] -> enter st s = Some (s :: st).
Proof. intros. unfold enter. by rewrite !bool_decide_eq_false_2. Qed.

(** The rest [y] of a path behind its first name [s] *)
Definition behind (x s y : list Z) : Prop :=
  x = s ++ y /\ (y = [] /\ names x = [s] \/ exists x', y = SLASH :: x' /\ names x = s :: names x').

Lemma split_behind x :
  Forall (fun c => c <> 0) x -> exists s y, Forall name_char s /\ behind x s y.
Proof.
  intros H0. destruct (split_cases x H0) as (s & Hs & [[-> E]|(x' & -> & E)]).
  - exists s, []. split; [done|]. split; [by rewrite app_nil_r|auto].
  - exists s, (SLASH :: x'). split; [done|]. split; [done|eauto].
Qed.

Lemma stopped_at st D s l k R d :
  D = flat st -> names_ok st -> Forall name_char s -> shape (D ++ s) k (0 :: R) l -> d = Z.of_nat (length (D ++ s)) ->
  stopped (if bool_decide (s = []) then st else s :: st) d l.
Proof.
  intros -> Hst Hs Hl ->. exists (flat st ++ s), k, R. split_and!; [done|done|..]; case_bool_decide as E.
  - done.
  - by apply Forall_cons.
  - left. subst. by rewrite app_nil_r.
  - right. by exists s, st.
Qed.

Section loop.
Context (T : list Z).

(** The loop with [fuel] rounds left is right for every rest it can meet. *)
Definition loop_ok (fuel : nat) : Prop := forall x st l k,
  (length x < fuel)%nat -> Forall (fun c => c <> 0) x -> head x <> Some SLASH ->
  names_ok st -> shape (flat st) k (x ++ 0 :: T) l ->
  wp (normalize_loop fuel (Z.of_nat (length (flat st) + k)) (Z.of_nat (length (flat st)))) (loop_post st x) l.

(** The code behind the tests, for a name that is neither "." nor ".." *)
Lemma round_name fuel s y st l k (src dst : Z) :
  loop_ok fuel -> behind (s ++ y) s y -> (length y <= fuel)%nat -> Forall (fun c => c <> 0) y ->
  head (s ++ y) <> Some SLASH -> names_ok st -> Forall name_char s -> s <> [DOT] -> s <> [DOT; DOT] ->
  shape (flat st) k (s ++ y ++ 0 :: T) l -> src = Z.of_nat (length (flat st) + k) -> dst = Z.of_nat (length (flat st)) ->
  wp ('(c, src, dst) ← copy_name (S (length l)) src dst;
      if c =? SLASH then
        wrb dst SLASH;; src ← skip_run (S (length l)) c src; normalize_loop fuel (src - 1) (dst + 1)
      else mret (Some dst)) (loop_post st (s ++ y)) l.
Proof.
  intros IH [_ Hy] Hf H0 Hh Hst Hs Hs1 Hs2 Hl Esrc Edst. eapply wp_mono.
  - eapply (round_copy T fuel IH s y); [|done|done|done|done|done|done].
    destruct Hy as [[-> _]|(x' & -> & _)]; [by left|]. right. exists x'. split; [done|]. simpl in Hf. lia.
  - intros r l' Hr. unfold loop_post. destruct Hy as [[-> ->]|(x' & -> & ->)]; simpl.
    + destruct Hr as (d & -> & k' & R & Hl' & ->).
      pose proof (stopped_at st _ s l' k' R _ eq_refl Hst Hs Hl' eq_refl) as Hstop.
      destruct (decide (s = [])) as [->|Hne]; [by eexists|]. rewrite bool_decide_eq_false_2 in Hstop by done.
      rewrite enter_name by done. by eexists.
    + destruct (decide (s = [])) as [->|Hne]; [by simpl in Hh|]. by rewrite enter_name.
Qed.

Lemma length_shape D k R l : shape D k R l -> length l = (length D + k + length R)%nat.
Proof. intros (J & <- & ->). rewrite !length_app. lia. Qed.

(** The loop at a name "." *)
Lemma round_dot fuel y st l k :
  loop_ok fuel -> behind ([DOT] ++ y) [DOT] y -> (length y <= fuel)%nat -> Forall (fun c => c <> 0) y ->
  names_ok st -> shape (flat st) k (DOT :: y ++ 0 :: T) l ->
  wp (normalize_loop (S fuel) (Z.of_nat (length (flat st) + k)) (Z.of_nat (length (flat st)))) (loop_post st ([DOT] ++ y)) l.
Proof.
  intros IH [_ Hy] Hf H0 Hst Hl. cbn [normalize_loop]. wp_step. wp_step. cbv zeta.
  wp_step. eapply (wp_read_src _ _ _ _ Hl 0); [done|lia|]. rewrite Z.eqb_refl.
  pose proof (length_shape _ _ _ _ Hl) as Hlen. simpl in Hlen. rewrite length_app in Hlen.
  destruct Hy as [[-> E]|(x' & -> & E)]; unfold loop_post; rewrite E; cbn [walk enter]; wp_step.
  - eapply (wp_read_src _ _ _ _ Hl 1); [done|lia|]. simpl (0 =? 0).
    eapply wp_mono; [eapply (round_copy T fuel IH [] [] st l (k + 1)); [by left|done|done|done| |lia|done]|].
    + exact (shape_skip _ _ _ _ Hl [DOT] _ eq_refl).
    + intros r l' (d & -> & k' & R & Hl' & ->). eexists. split; [done|].
      exact (stopped_at st _ [] l' k' R _ eq_refl Hst (List.Forall_nil _) Hl' eq_refl).
  - eapply (wp_read_src _ _ _ _ Hl 1); [done|lia|]. simpl (_ =? 0). rewrite Z.eqb_refl. cbv iota.
    apply (shape_skip _ _ _ _ ) with (x := [DOT; SLASH]) (R' := x' ++ 0 :: T) in Hl; [|done].
    apply Forall_cons in H0 as [_ H0]. simpl in Hf, Hlen.
    destruct (after_slash T fuel IH x' st l _ ltac:(lia) H0 Hst Hl) as (n & Hn & (R & ER & Hh & HR) & Hw).
    rewrite ER in Hl. wp_step.
    eapply wp_mono; [eapply (skip_slashes_spec n R); [done|done|done|lia|simpl; lia]|].
    intros src l' [-> ->]. simpl in Hw. unfold loop_post in Hw.
    replace (Z.of_nat (length (flat st) + k) + 2 + Z.of_nat n) with (Z.of_nat (length (flat st) + (k + 2) + n)) by lia.
    exact Hw.
Qed.

(** The loop at a name ".." *)
Lemma round_dotdot fuel y st l k :
  loop_ok fuel -> behind ([DOT; DOT] ++ y) [DOT; DOT] y -> (length y <= fuel)%nat -> (0 < fuel)%nat ->
  Forall (fun c => c <> 0) y -> names_ok st -> shape (flat st) k (DOT :: DOT :: y ++ 0 :: T) l ->
  wp (normalize_loop (S fuel) (Z.of_nat (length (flat st) + k)) (Z.of_nat (length (flat st))))
    (loop_post st ([DOT; DOT] ++ y)) l.
Proof.
  intros IH [_ Hy] Hf Hf0 H0 Hst Hl. cbn [normalize_loop]. wp_step. wp_step. cbv zeta.
  wp_step. eapply (wp_read_src _ _ _ _ Hl 0); [done|lia|]. rewrite Z.eqb_refl.
  wp_step. eapply (wp_read_src _ _ _ _ Hl 1); [done|lia|]. simpl (DOT =? 0). simpl (DOT =? SLASH). rewrite Z.eqb_refl.
  cbv iota. pose proof (length_shape _ _ _ _ Hl) as Hlen. simpl in Hlen. rewrite length_app in Hlen.
  destruct Hy as [[-> E]|(x' & -> & E)]; unfold loop_post; rewrite E; cbn [walk enter]; wp_step.
  - eapply (wp_read_src _ _ _ _ Hl 2); [done|lia|]. simpl (0 =? 0). cbv iota.
    eapply wp_mono; [eapply (round_up T fuel IH [] st l (k + 2)); [done|done|done|done| |lia|done]|].
    + exact (shape_skip _ _ _ _ Hl [DOT; DOT] _ eq_refl).
    + intros r l' Hr. destruct st as [|s st]; [done|]. exact Hr.
  - eapply (wp_read_src _ _ _ _ Hl 2); [done|lia|]. simpl (_ =? 0). rewrite Z.eqb_refl. cbv iota.
    apply (shape_skip _ _ _ _ ) with (x := [DOT; DOT; SLASH]) (R' := x' ++ 0 :: T) in Hl; [|done].
    apply Forall_cons in H0 as [_ H0]. simpl in Hf, Hlen.
    destruct (drop_slashes_spec x') as (n & Ex & Hh).
    assert (length x' = n + length (drop_slashes x'))%nat as Hlx by (rewrite Ex at 1; by rewrite length_app, length_replicate).
    assert (Forall (fun c => c <> 0) (drop_slashes x')) as H0' by (rewrite Ex in H0; by apply Forall_app in H0 as [_ H0]).
    assert (x' ++ 0 :: T = replicate n SLASH ++ drop_slashes x' ++ 0 :: T) as ER by (by rewrite app_assoc, <- Ex).
    rewrite ER in Hl. wp_step. eapply wp_mono.
    { eapply (skip_slashes_spec n (drop_slashes x' ++ 0 :: T)); [done| | |lia|simpl; lia]; by destruct (drop_slashes x'). }
    intros src l' [-> ->]. eapply wp_mono.
    + eapply (round_up T fuel IH (drop_slashes x') st l (k + 3 + n)); [lia|done|done|done| |lia|done].
      rewrite <- (length_replicate n SLASH) at 1. by eapply shape_skip.
    + intros r l' Hr. destruct st as [|s st]; [done|]. simpl in *. unfold loop_post in Hr.
      by rewrite walk_drop_slashes in Hr.
Qed.

Lemma normalize_loop_ok fuel : loop_ok fuel.
Proof.
  induction fuel as [|fuel IH]; intros x st l k Hf H0 Hh Hst Hl; [lia|].
  destruct (split_behind x H0) as (s & y & Hs & Hb). pose proof (proj1 Hb) as ->.
  rewrite length_app in Hf. rewrite <- app_assoc in Hl. apply Forall_app in H0 as [_ H0].
  destruct (decide (s = [DOT])) as [->|Hs1]; [apply round_dot; simpl in *; (done || lia)|].
  destruct (decide (s = [DOT; DOT])) as [->|Hs2]; [apply round_dotdot; simpl in *; (done || lia)|].
  assert (length y <= fuel)%nat as Hfy.
  { destruct Hb as [_ [[-> _]|(x' & -> & _)]]; [simpl; lia|]. destruct s; [done|]. simpl in *. lia. }
  pose proof (round_name fuel s y st l k _ _ IH Hb Hfy H0 Hh Hst Hs Hs1 Hs2 Hl eq_refl eq_refl) as Hw.
  cbn [normalize_loop]. wp_step. wp_step. cbv zeta. wp_step.
  destruct s as [|a s]; simpl in Hl.
  { destruct Hb as [_ [[-> _]|(x' & -> & _)]]; [|done].
    by eapply (wp_read_src _ _ _ _ Hl 0); [done|lia|]. }
  apply Forall_cons in Hs as [Ha Hs]. eapply (wp_read_src _ _ _ _ Hl 0); [done|lia|].
  destruct (Z.eqb_spec a DOT) as [->|]; [|done]. wp_step.
  destruct s as [|b s]; [done|]. simpl in Hl. apply Forall_cons in Hs as [[Hb0 Hb1] Hs].
  eapply (wp_read_src _ _ _ _ Hl 1); [done|lia|]. rewrite !(proj2 (Z.eqb_neq b _)) by done.
  destruct (Z.eqb_spec b DOT) as [->|]; [|done]. wp_step.
  destruct s as [|c s]; [done|]. simpl in Hl. apply Forall_cons in Hs as [[Hc0 Hc1] Hs].
  eapply (wp_read_src _ _ _ _ Hl 2); [done|lia|]. by rewrite !(proj2 (Z.eqb_neq c _)) by done.
Qed.
End loop.

(** The whole loop, from the start of the path *)
Lemma normalize_loop_start p T :
  Forall (fun c => c <> 0) p ->
  wp (normalize_loop (S (length (p ++ 0 :: T))) 0 0) (fun r l =>
    match resolve p with None => r = None | Some st => exists dst, r = Some dst /\ stopped st dst l end) (p ++ 0 :: T).
Proof.
  intros H0. assert (shape [] 0 (p ++ 0 :: T) (p ++ 0 :: T)) as Hl by (by exists []).
  assert (head p <> Some SLASH -> resolve p = walk [] (names p)) as Hr.
  { destruct p as [|c p]; [done|]. intros Hc. unfold resolve, names.
    by rewrite (proj2 (Z.eqb_neq c SLASH)) by (intros ->; by apply Hc). }
  destruct (decide (head p = Some SLASH)) as [Hh|Hh].
  - destruct p as [|c p]; [done|]. injection Hh as ->. rewrite length_app.
    cbn [normalize_loop]. wp_step. wp_step. cbv zeta. wp_step.
    eapply (wp_read_src _ _ _ _ Hl 0); [done|done|]. simpl (SLASH =? DOT). cbv iota.
    eapply wp_mono; [apply (round_copy T _ (normalize_loop_ok T _) [] (SLASH :: p) []) with (k := 0%nat)|];
      [|done|apply Forall_nil_2|done..|by intros r l'].
    right. exists p. split; [done|]. simpl. lia.
  - rewrite Hr by done. apply (normalize_loop_ok T) with (st := []) (k := 0%nat); [|done|done|apply Forall_nil_2|done].
    rewrite length_app. simpl. lia.
Qed.

Lemma cstring_app s R : Forall (fun c => c <> 0) s -> cstring (s ++ 0 :: R) = Some s.
Proof.
  induction s as [|c s IH]; intros H0; [done|]. apply Forall_cons in H0 as [Hc H0]. simpl.
  rewrite (proj2 (Z.eqb_neq c 0)) by done. by rewrite IH.
Qed.

Lemma name_chars_nonzero s : Forall name_char s -> Forall (fun c => c <> 0) s.
Proof. intros Hs. eapply Forall_impl; [exact Hs|]. by intros c [? _]. Qed.

Lemma flat_nonzero st : names_ok st -> Forall (fun c => c <> 0) (flat st).
Proof.
  induction st as [|s st IH]; intros Hst; [done|]. apply Forall_cons in Hst as [Hs Hst]. simpl.
  rewrite !Forall_app. split_and!; [by apply IH|by apply name_chars_nonzero|by apply Forall_singleton].
Qed.

(** [*dst = '\0'] and the removal of a '/' at the end *)
Definition terminate (dst : Z) : M (list Z) bool :=
  wrb dst 0;;
  (if negb (dst - 1 =? 0) then c ← rdb (dst - 1); when (c =? SLASH) (wrb (dst - 1) 0) else mret tt);;
  mret true.

Lemma shape_write E k R l :
  shape E k (0 :: R) l -> exists R', <[length E := 0]> l = E ++ 0 :: R' /\ (length E < length l)%nat.
Proof.
  intros (J & _ & ->). rewrite insert_app_end, !length_app.
  simpl. destruct J as [|j J]; simpl; eexists; (split; [done|lia]).
Qed.

(** The characters that were written, the last one apart *)
Lemma stopped_text st E :
  names_ok st -> st <> [] -> (E = flat st \/ exists s st', st = s :: st' /\ s <> [] /\ E = flat st' ++ s) ->
  Forall (fun c => c <> 0) E /\ exists E' e, E = E' ++ [e] /\
    render st = if (e =? SLASH) && negb (length E' =? 0)%nat then E' else E.
Proof.
  intros Hok Hne HE. split.
  { destruct HE as [->|(s & st' & -> & Hs & ->)]; [by apply flat_nonzero|].
    apply Forall_cons in Hok as [Hs' Hok]. apply Forall_app. split; [by apply flat_nonzero|by apply name_chars_nonzero]. }
  destruct HE as [->|(s & st' & -> & Hs & ->)].
  - destruct st as [|s st]; [done|]. exists (flat st ++ s), SLASH. simpl. rewrite <- app_assoc. split; [done|].
    destruct s as [|a s]; [destruct st as [|s' st]; [done|]|]; rewrite length_app; simpl; rewrite ?length_app; simpl.
    + by rewrite (proj2 (Nat.eqb_neq _ _)) by lia.
    + by rewrite (proj2 (Nat.eqb_neq _ _)) by lia.
  - apply Forall_cons in Hok as [Hs' Hok]. destruct s as [|e s _] using rev_ind; [done|].
    apply Forall_app in Hs' as [_ Hs']. apply Forall_cons in Hs' as [[_ He] _].
    exists (flat st' ++ s), e. rewrite <- app_assoc. split; [done|].
    rewrite (proj2 (Z.eqb_neq e SLASH)) by done. simpl. by destruct s, st'.
Qed.

Lemma terminate_spec st dst l :
  stopped st dst l -> st <> [] -> wp (terminate dst) (fun r l' => r = true /\ cstring l' = Some (render st)) l.
Proof.
  intros (E & k & R & Hl & -> & Hok & HE) Hne. destruct (shape_write _ _ _ _ Hl) as (R' & Hw & Hlt).
  destruct (stopped_text st E Hok Hne HE) as (H0 & E' & e & -> & ->).
  unfold terminate. wp_step. apply wp_wrb; [lia|]. rewrite Nat2Z.id, Hw. wp_step. rewrite length_app. simpl.
  replace (Z.of_nat (length E' + 1) - 1) with (Z.of_nat (length E')) by lia.
  destruct (Z.eqb_spec (Z.of_nat (length E')) 0) as [Hz|Hz]; simpl.
  - do 2 wp_step. rewrite (proj2 (Nat.eqb_eq _ _)), andb_false_r by lia. split; [done|]. by apply cstring_app.
  - rewrite (proj2 (Nat.eqb_neq _ _)), andb_true_r by lia. rewrite <- app_assoc. wp_step.
    eapply (wp_rdb _ e); [lia|by rewrite Nat2Z.id; apply list_lookup_middle|].
    apply wp_when; intros Ee; rewrite Ee.
    + apply wp_wrb; [rewrite length_app; simpl; lia|]. rewrite Nat2Z.id.
      rewrite insert_app_end. simpl. wp_step. split; [done|].
      apply Forall_app in H0 as [H0 _]. by apply cstring_app.
    + wp_step. split; [done|]. rewrite app_assoc. by apply cstring_app.
Qed.

(** What the rewriting makes of a block that holds the path [p] *)
Definition normalized (p : list Z) (o : outcome (list Z) bool) : Prop :=
  match resolve p with
  | None => exists l, o = Ok false l
  | Some [] => o = Fault BadPointer
  | Some st => exists l, o = Ok true l /\ cstring l = Some (render st)
  end.

Lemma normalize_block_spec p T :
  Forall (fun c => c <> 0) p -> normalized p (normalize_block (p ++ 0 :: T)).
Proof.
  intros H0. destruct (wp_ok _ _ _ (normalize_loop_start p T H0)) as (r & l & E & Hr).
  assert (normalize_block (p ++ 0 :: T) = match r with None => Ok false l | Some dst => terminate dst l end) as ->.
  { unfold normalize_block. unfold mbind at 1, M_bind at 1, get at 1. erewrite run_bind by exact E.
    by destruct r. }
  unfold normalized. destruct (resolve p) as [st|]; [|subst r; eauto].
  destruct Hr as (dst & -> & Hs). destruct st as [|s st].
  - destruct Hs as (D & k & R & Hl & -> & _ & [->|(? & ? & ? & _)]); [|done].
    destruct (shape_write _ _ _ _ Hl) as (R' & Hw & Hlt). unfold terminate, wrb.
    destruct l; [simpl in Hlt; lia|]. done.
  - destruct (wp_ok _ _ _ (terminate_spec _ _ _ Hs ltac:(done))) as (b & l' & -> & -> & Hc). by exists l'.
Qed.

(** ** Absolute paths *)

(** Proper names: not empty, not "." or "..", without '/' *)
Definition proper (s : list Z) : Prop := Forall name_char s /\ s <> [] /\ s <> [DOT] /\ s <> [DOT; DOT].

Lemma names_chars x : Forall (fun c => c <> 0) x -> names_ok (names x).
Proof.
  unfold names, names_ok. induction x as [|c x IH]; intros H0; simpl; [by apply Forall_singleton|].
  apply Forall_cons in H0 as [Hc H0]. specialize (IH H0). destruct (split x) as [s ss]. simpl in *.
  destruct (Z.eqb_spec c SLASH); simpl; [by apply Forall_cons|].
  apply Forall_cons in IH as [Hs Hss]. apply Forall_cons. split; [|done]. by apply Forall_cons.
Qed.

Lemma walk_proper ss st st' :
  names_ok ss -> Forall proper st -> walk st ss = Some st' -> Forall proper st'.
Proof.
  revert st. induction ss as [|s ss IH]; intros st Hss Hst E; [by simplify_eq/=|].
  apply Forall_cons in Hss as [Hs Hss]. simpl in E. destruct (enter st s) as [st1|] eqn:E1; [|done].
  apply (IH st1); [done| |done]. unfold enter in E1.
  case_bool_decide; simpl in E1; [by simplify_eq|]. case_bool_decide; [by simplify_eq|].
  case_bool_decide; [|simplify_eq; apply Forall_cons; by split_and!].
  destruct st as [|s' st]; [done|]. simplify_eq. by apply Forall_cons in Hst as [_ Hst].
Qed.

(** The root is not left by a walk that could start anywhere. *)
Lemma walk_above ss st st' r : walk st ss = Some st' -> walk (st ++ [r]) ss = Some (st' ++ [r]).
Proof.
  revert st. induction ss as [|s ss IH]; intros st E; [by simplify_eq/=|]. simpl in *.
  destruct (enter st s) as [st1|] eqn:E1; [|done].
  assert (enter (st ++ [r]) s = Some (st1 ++ [r])) as ->; [|by apply IH].
  unfold enter in *. repeat case_bool_decide; simplify_eq/=; try done.
  destruct st as [|s' st]; by simplify_eq/=.
Qed.

Lemma walk_names st ss : Forall proper ss -> walk st ss = Some (reverse ss ++ st).
Proof.
  revert st. induction ss as [|s ss IH]; intros st Hss; [done|]. apply Forall_cons in Hss as [(_ & ? & ? & ?) Hss].
  simpl. rewrite enter_name by done. simpl. rewrite IH by done. by rewrite reverse_cons, <- app_assoc.
Qed.

Lemma names_name s x : Forall name_char s -> names (s ++ SLASH :: x) = s :: names x.
Proof.
  unfold names. induction s as [|c s IH]; intros Hs; simpl; [by destruct (split x)|].
  apply Forall_cons in Hs as [[_ Hc] Hs]. specialize (IH Hs). destruct (split (s ++ SLASH :: x)) as [s1 ss1].
  simpl in IH. injection IH as -> ->. by rewrite (proj2 (Z.eqb_neq c SLASH)) by done.
Qed.

Lemma names_single s : Forall name_char s -> names s = [s].
Proof.
  unfold names. induction s as [|c s IH]; intros Hs; [done|]. apply Forall_cons in Hs as [[_ Hc] Hs].
  simpl. specialize (IH Hs). destruct (split s) as [s1 ss1]. simpl in IH. injection IH as -> ->.
  by rewrite (proj2 (Z.eqb_neq c SLASH)) by done.
Qed.

Lemma names_flat st x : names_ok st -> names (flat st ++ x) = reverse st ++ names x.
Proof.
  revert x. induction st as [|s st IH]; intros x Hst; [done|]. apply Forall_cons in Hst as [Hs Hst]. simpl.
  rewrite reverse_cons, <- !app_assoc. simpl. rewrite IH by done. by rewrite names_name.
Qed.

Lemma proper_ok st : Forall proper st -> names_ok st.
Proof. intros Hst. eapply Forall_impl; [exact Hst|]. by intros s [? _]. Qed.

(** The canonical text of a directory, innermost name first: "/" and the names *)
Definition canonical (st : list (list Z)) : list Z := render (st ++ [[]]).

Lemma canonical_cons s st : s <> [] -> canonical (s :: st) = SLASH :: flat st ++ s.
Proof.
  intros Hs. unfold canonical. simpl.
  assert (flat (st ++ [[]]) = SLASH :: flat st) as E.
  { clear. induction st as [|a st IH]; [done|]. simpl. by rewrite IH. }
  rewrite E. by destruct s, st.
Qed.

Lemma resolve_canonical st : Forall proper st -> resolve (canonical st) = Some (st ++ [[]]).
Proof.
  intros Hst. destruct st as [|s st]; [done|]. pose proof Hst as [(Hs & Hne & ? & ?) Hst']%Forall_cons.
  rewrite canonical_cons by done.
  change (resolve (SLASH :: flat st ++ s)) with (walk [[]] (names (flat st ++ s))).
  rewrite names_flat, names_single by (done || by apply proper_ok).
  change (walk [[]] (reverse st ++ [s]) = Some (s :: st ++ [[]])).
  rewrite walk_names by (apply Forall_app; split; [by apply Forall_reverse|by apply Forall_singleton]).
  by rewrite reverse_app, reverse_involutive.
Qed.

(** [inside p st]: the absolute path [p] never climbs over the root and leads to [st]. *)
Definition inside (p : list Z) (st : list (list Z)) : Prop :=
  exists p', p = SLASH :: p' /\ walk [] (names p') = Some st.

Lemma inside_resolve p st : inside p st -> resolve p = Some (st ++ [[]]).
Proof. intros (p' & -> & E). exact (walk_above _ _ _ [] E). Qed.

Lemma inside_proper p st : Forall (fun c => c <> 0) p -> inside p st -> Forall proper st.
Proof.
  intros H0 (p' & -> & E). apply Forall_cons in H0 as [_ H0].
  eapply walk_proper; [by apply names_chars| |exact E]. done.
Qed.

Lemma inside_canonical st : Forall proper st -> inside (canonical st) st.
Proof.
  intros Hst. destruct st as [|s st]; [by exists []|]. pose proof Hst as [(Hs & Hne & ? & ?) Hst']%Forall_cons.
  exists (flat st ++ s). split; [by apply canonical_cons|]. rewrite names_flat by (by apply proper_ok).
  rewrite names_single by done. rewrite walk_names by (apply Forall_app; split; [by apply Forall_reverse|by apply Forall_singleton]).
  by rewrite reverse_app, reverse_involutive, app_nil_r.
Qed.

(** Such a path becomes the canonical text of where it leads, in place, and every path that
    names the same directory becomes the same text; rewriting the text changes nothing. *)
Lemma normalize_inside p st T :
  Forall (fun c => c <> 0) p -> inside p st ->
  exists l, normalize_block (p ++ 0 :: T) = Ok true l /\ cstring l = Some (canonical st) /\
    forall T', exists l', normalize_block (canonical st ++ 0 :: T') = Ok true l' /\ cstring l' = Some (canonical st).
Proof.
  intros H0 Hp. pose proof (normalize_block_spec p T H0) as Hn. unfold normalized in Hn.
  rewrite (inside_resolve _ _ Hp) in Hn. pose proof (inside_proper _ _ H0 Hp) as Hst.
  assert (exists s st', st ++ [[]] = s :: st') as (s & st' & E) by (destruct st; simpl; eauto).
  unfold canonical. rewrite E in *. destruct Hn as (l & Hl & Hc). exists l. split_and!; [done|done|]. intros T'.
  assert (Forall (fun c => c <> 0) (canonical st)) as H1.
  { destruct st as [|a st]; [by apply Forall_singleton|]. apply Forall_cons in Hst as [(? & ? & _) Hst].
    rewrite canonical_cons by done. apply Forall_cons. split; [done|]. apply Forall_app.
    split; [by apply flat_nonzero, proper_ok|by apply name_chars_nonzero]. }
  pose proof (normalize_block_spec (canonical st) T' H1) as Hn. unfold normalized in Hn.
  rewrite resolve_canonical in Hn by done. unfold canonical in Hn. rewrite E in Hn. done.
Qed.

(** ** Mount points *)

(** The test of [dfs_filesystem_lookup]: [path] is [m], or continues it behind a '/'. *)
Definition covers (m path : list Z) : Prop :=
  take (length m) path = m /\
  ((length m <= 1)%nat \/ (length path <= length m)%nat \/ path !! length m = Some SLASH).

#[export] Instance covers_dec m path : Decision (covers m path).
Proof. unfold covers. apply _. Defined.

Lemma flat_app a b : flat (a ++ b) = flat b ++ flat a.
Proof. induction a as [|s a IH]; simpl; [by rewrite app_nil_r|]. by rewrite IH, <- app_assoc. Qed.

Lemma flat_prefix a b : names_ok a -> names_ok b -> (exists x, flat b = flat a ++ x) <-> a `suffix_of` b.
Proof.
  intros Ha Hb. split.
  - intros [x E]. assert (names (flat a ++ x) = reverse b ++ [[]]) as En
      by (by rewrite <- E, <- (app_nil_r (flat b)), names_flat).
    rewrite names_flat in En by done. destruct (List.exists_last (l := names x) ltac:(done)) as (L & l & EL).
    rewrite EL, app_assoc in En. apply app_inj_tail in En as [En _]. exists (reverse L).
    rewrite <- (reverse_involutive b), <- En, reverse_app. by rewrite reverse_involutive.
  - intros [x ->]. exists (flat x). apply flat_app.
Qed.

(** With the '/' that closes it, the text of a directory is [flat] behind the root. *)
Lemma canonical_slash st : Forall proper st -> st <> [] -> canonical st ++ [SLASH] = SLASH :: flat st.
Proof.
  destruct st as [|s st]; [done|]. intros [(_ & ? & _) _]%Forall_cons _. rewrite canonical_cons by done. simpl.
  by rewrite <- app_assoc.
Qed.

(** A mount point covers exactly the paths at and below its directory. *)
Lemma covers_canonical a b : Forall proper a -> Forall proper b -> covers (canonical a) (canonical b) <-> a `suffix_of` b.
Proof.
  intros Ha Hb. assert (exists y, canonical b = SLASH :: y) as [y Ey].
  { destruct b as [|s b]; [by exists []|]. apply Forall_cons in Hb as [(_ & ? & _) _]. rewrite canonical_cons by done. eauto. }
  destruct (decide (a = [])) as [->|Ha0].
  { split; [intros _; by apply suffix_nil|]. intros _. unfold covers. rewrite Ey. simpl. split; [done|by left]. }
  rewrite <- flat_prefix by (by apply proper_ok).
  pose proof (canonical_slash a Ha Ha0) as Ea. unfold covers. split.
  - intros [Et Hc]. assert (canonical b = canonical a ++ drop (length (canonical a)) (canonical b)) as Eb
      by (by rewrite <- Et at 1; rewrite take_drop).
    assert (1 < length (canonical a))%nat as Hlen.
    { assert (length (canonical a ++ [SLASH]) = length (SLASH :: flat a)) as El by (by rewrite Ea).
      rewrite length_app in El. simpl in El. destruct a as [|s a]; [done|]. simpl in El. rewrite !length_app in El.
      apply Forall_cons in Ha as [(_ & Hs & _) _]. destruct s; [done|]. simpl in El. lia. }
    assert (b <> []) as Hb0 by (intros ->; unfold canonical in Eb; simpl in Eb; apply (f_equal length) in Eb;
      rewrite length_app in Eb; simpl in Eb; unfold canonical in Hlen; lia).
    pose proof (canonical_slash b Hb Hb0) as Eb'.
    assert (exists x, canonical b ++ [SLASH] = (canonical a ++ [SLASH]) ++ x) as [x Ex].
    { destruct Hc as [?|[Hc|Hc]]; [lia|..].
      - rewrite (drop_ge (canonical b)), app_nil_r in Eb by done. exists []. by rewrite Eb, app_nil_r.
      - rewrite (drop_S _ _ _ Hc) in Eb. rewrite Eb. eexists. by rewrite <- !app_assoc. }
    rewrite Ea, Eb' in Ex. simplify_eq/=. eauto.
  - intros [x Ex]. assert (b <> []) as Hb0.
    { intros ->. destruct a as [|s a]; [done|]. simpl in Ex. by destruct (flat a), s. }
    pose proof (canonical_slash b Hb Hb0) as Eb. rewrite Ex in Eb.
    change (SLASH :: flat a ++ x) with ((SLASH :: flat a) ++ x) in Eb. rewrite <- Ea in Eb.
    destruct x as [|c x _] using rev_ind.
    { rewrite app_nil_r in Eb. apply app_inj_tail in Eb as [-> _]. rewrite take_ge by done. split; [done|]. auto. }
    rewrite app_assoc in Eb. apply app_inj_tail in Eb as [-> _]. rewrite <- app_assoc. split; [by rewrite take_app_length|].
    right. right. simpl. by apply list_lookup_middle.
Qed.

(** The path a file system mounted on [m] is given for [text]: what [dfs_subdir] finds, or "/" *)
Definition below_text (m text : list Z) : list Z :=
  if (length m =? length text)%nat then [SLASH]
  else if bool_decide (text !! length m = Some SLASH) || (length m =? 0)%nat then drop (length m) text
  else drop (length m - 1) text.

Lemma canonical_app a b : Forall proper a -> Forall proper b -> a <> [] -> b <> [] ->
  canonical (b ++ a) = canonical a ++ canonical b.
Proof.
  intros Ha Hb Ha0 Hb0. apply (inj (fun l => l ++ [SLASH])).
  rewrite <- app_assoc, (canonical_slash b), (canonical_slash (b ++ a)) by (done || (by apply Forall_app) || by destruct b).
  rewrite flat_app. change (SLASH :: flat a ++ flat b) with ((SLASH :: flat a) ++ flat b).
  rewrite <- (canonical_slash a) by done. by rewrite <- app_assoc.
Qed.

Lemma canonical_second b : Forall proper b -> b <> [] -> exists c y, canonical b = SLASH :: c :: y /\ c <> SLASH.
Proof.
  intros Hb Hb0. destruct b as [|u b _] using rev_ind; [done|]. apply Forall_app in Hb as [Hb Hu].
  pose proof Hu as [(Hc & Hu0 & _) _]%Forall_cons. destruct u as [|c u]; [done|]. apply Forall_cons in Hc as [[_ Hc] _].
  assert (canonical [c :: u] = SLASH :: c :: u) as E by done.
  destruct (decide (b = [])) as [->|Hne]; [by exists c, u|].
  rewrite canonical_app, E by done. by eexists c, _.
Qed.

(** Below a mount point the path is the canonical text of the rest. *)
Lemma below_canonical a b : Forall proper a -> Forall proper b -> below_text (canonical a) (canonical (b ++ a)) = canonical b.
Proof.
  intros Ha Hb. unfold below_text. destruct (decide (b = [])) as [->|Hb0].
  { simpl. by rewrite Nat.eqb_refl. }
  destruct (canonical_second b Hb Hb0) as (c & y & Ey & Hc).
  destruct (decide (a = [])) as [->|Ha0].
  - rewrite app_nil_r, Ey. change (canonical []) with [SLASH]. simpl. rewrite bool_decide_eq_false_2 by congruence. done.
  - rewrite canonical_app, length_app by done.
    rewrite (proj2 (Nat.eqb_neq _ _)) by (rewrite Ey; simpl; lia).
    rewrite bool_decide_eq_true_2 by (rewrite Ey; by apply list_lookup_middle). simpl. apply drop_app_length.
Qed.

(** ** The length of a normalised path *)

Definition text_length (ss : list (list Z)) : nat := list_sum (map (fun s => S (length s)) ss).

Lemma names_length x : text_length (names x) = S (length x).
Proof.
  unfold names, text_length. induction x as [|c x IH]; [done|]. simpl in *. destruct (split x) as [s ss]. simpl in *.
  destruct (c =? SLASH); simpl; lia.
Qed.

Lemma walk_length ss st st' : walk st ss = Some st' -> (length (flat st') <= length (flat st) + text_length ss)%nat.
Proof.
  unfold text_length. revert st. induction ss as [|s ss IH]; intros st E; [simplify_eq/=; lia|]. simpl in *.
  destruct (enter st s) as [st1|] eqn:E1; [|done]. specialize (IH st1 E).
  assert (length (flat st1) <= length (flat st) + S (length s))%nat; [|lia]. unfold enter in E1.
  case_bool_decide; simpl in E1; [simplify_eq; lia|]. case_bool_decide; [simplify_eq; lia|].
  case_bool_decide; [|simplify_eq; simpl; rewrite !length_app; simpl; lia].
  destruct st as [|a st]; [done|]. simplify_eq. simpl. rewrite !length_app. lia.
Qed.

Lemma walk_chars ss st st' : names_ok ss -> names_ok st -> walk st ss = Some st' -> names_ok st'.
Proof.
  revert st. induction ss as [|s ss IH]; intros st Hss Hst E; [by simplify_eq/=|].
  apply Forall_cons in Hss as [Hs Hss]. simpl in E. destruct (enter st s) as [st1|] eqn:E1; [|done].
  apply (IH st1); [done| |done]. unfold enter in E1.
  case_bool_decide; simpl in E1; [by simplify_eq|]. case_bool_decide; [by simplify_eq|].
  case_bool_decide; [|simplify_eq; by apply Forall_cons].
  destruct st as [|s' st]; [done|]. simplify_eq. by apply Forall_cons in Hst as [_ Hst].
Qed.

Lemma render_text p st :
  resolve p = Some st -> st <> [] -> Forall (fun c => c <> 0) p ->
  Forall (fun c => c <> 0) (render st) /\ (0 < length (render st) <= length p)%nat.
Proof.
  intros E Hne Hnz.
  assert (names_ok st /\ (length (flat st) <= S (length p))%nat /\ (0 < length p)%nat) as (Hok & Hlen & Hp).
  { destruct p as [|c p]; [by simplify_eq/=|]. unfold resolve in E. destruct (Z.eqb_spec c SLASH) as [->|Hc].
    - apply Forall_cons in Hnz as [_ Hnz]. pose proof (walk_length _ _ _ E) as Hl. fold (names p) in E, Hl.
      rewrite names_length in Hl. simpl in *. split_and!; [|lia|lia].
      eapply walk_chars; [by apply names_chars| |exact E]. by apply Forall_singleton.
    - pose proof (walk_length _ _ _ E) as Hl. fold (names (c :: p)) in E, Hl. rewrite names_length in Hl. simpl in *.
      split_and!; [|lia|lia]. eapply walk_chars; [by apply names_chars| |exact E]. by apply Forall_nil. }
  destruct st as [|s st]; [done|]. pose proof Hok as [Hs Hst]%Forall_cons.
  assert (render (s :: st) = flat st ++ s /\ (s <> [] \/ st <> []) \/ render (s :: st) = [SLASH]) as [[-> Hn]| ->]
    by (destruct s, st; auto).
  - split; [apply Forall_app; split; [by apply flat_nonzero|by apply name_chars_nonzero]|].
    simpl in Hlen. rewrite !length_app in *. simpl in Hlen. split; [|lia].
    destruct Hn as [Hn|Hn]; [destruct s; simpl; [done|lia]|]. destruct st; [done|]. simpl. rewrite !length_app. simpl. lia.
  - split; [by apply Forall_singleton|]. simpl. lia.
Qed.
