(* ===== verification/Dfs.v ===== *)
(** * The virtual file system (components/dfs/src)

    Tables of file system types, of mounted file systems and of file descriptors, under one
    lock.  The operations find the file system a path belongs to and call it through its
    table of functions, an interface here.  Path names and directory streams are blocks of
    the system heap. *)
From stdpp Require Import base tactics numbers list gmap.
From S2P Require Import Prelude RtList KString Kernel Scheduler Object Timer Thread Ipc Mutex Device DfsPath.
Local Open Scope Z_scope.

Definition DFS_STATUS_OK : Z := 0.
Definition DFS_STATUS_ENOENT : Z := 2.
Definition DFS_STATUS_EIO : Z := 5.
Definition DFS_STATUS_EBADF : Z := 9.
Definition DFS_STATUS_ENOMEM : Z := 12.
Definition DFS_STATUS_EBUSY : Z := 16.
Definition DFS_STATUS_EEXIST : Z := 17.
Definition DFS_STATUS_EXDEV : Z := 18.
Definition DFS_STATUS_ENODEV : Z := 19.
Definition DFS_STATUS_ENOTDIR : Z := 20.
Definition DFS_STATUS_EINVAL : Z := 22.
Definition DFS_STATUS_ENOSPC : Z := 28.
Definition DFS_STATUS_ENOSYS : Z := 38.

Definition DFS_O_RDONLY : Z := 0x0000000.
Definition DFS_O_WRONLY : Z := 0x0000001.
Definition DFS_O_CREAT : Z := 0x0000100.
Definition DFS_O_TRUNC : Z := 0x0001000.
Definition DFS_O_APPEND : Z := 0x0002000.
Definition DFS_O_DIRECTORY : Z := 0x0200000.
Definition DFS_F_OPEN : Z := 0x01000000.
Definition DFS_F_DIRECTORY : Z := 0x02000000.
Definition DFS_F_EOF : Z := 0x04000000.
Definition DFS_SEEK_SET : Z := 0.
Definition DFS_SEEK_CUR : Z := 1.
Definition DFS_SEEK_END : Z := 2.
Definition DFS_S_IFREG : Z := 0x8000.
Definition DFS_S_IFDIR : Z := 0x4000.
Definition DFS_S_IRW : Z := 0x1b6.  (* read and write for user, group and others: 0666 *)
Definition DFS_S_IX : Z := 0x49.    (* execute for user, group and others: 0111 *)
Definition DFS_FS_FLAG_FULLPATH : Z := 0x01.
Definition DFS_FD_MAGIC : Z := 0xfdfd.
Definition DFS_PATH_MAX : Z := 256.
Definition DFS_FILESYSTEM_TYPES_MAX : nat := 4.
Definition FT_REGULAR : Z := 0.
Definition FT_DIRECTORY : Z := 2.

(** The options of rtconfig.h.  [using_stdio] keeps three descriptors for the standard streams. *)
Class DfsConfig := {
  DFS_FD_MAX : nat;
  DFS_FILESYSTEMS_MAX : nat;
  using_stdio : bool;
  using_workdir : bool;
  fslock : ptr  (* the address of the static mutex *)
}.

(** [struct dfs_fd]; [fd_fs] is an entry of the table of file systems, [None] for NULL. *)
Record dfs_fd := mk_fd {
  fd_magic : Z;
  fd_type : Z;
  fd_path : ptr;
  fd_ref_count : Z;  (* int *)
  fd_fs : option nat;
  fd_flags : Z;
  fd_size : Z;
  fd_pos : Z;
  fd_data : Z
}.
Definition zero_fd : dfs_fd := mk_fd 0 0 RT_NULL 0 None 0 0 0 0.
Definition set_fd_magic v x := mk_fd v (fd_type x) (fd_path x) (fd_ref_count x) (fd_fs x) (fd_flags x) (fd_size x) (fd_pos x) (fd_data x).
Definition set_fd_type v x := mk_fd (fd_magic x) v (fd_path x) (fd_ref_count x) (fd_fs x) (fd_flags x) (fd_size x) (fd_pos x) (fd_data x).
Definition set_fd_path v x := mk_fd (fd_magic x) (fd_type x) v (fd_ref_count x) (fd_fs x) (fd_flags x) (fd_size x) (fd_pos x) (fd_data x).
Definition set_fd_ref v x := mk_fd (fd_magic x) (fd_type x) (fd_path x) v (fd_fs x) (fd_flags x) (fd_size x) (fd_pos x) (fd_data x).
Definition set_fd_fs v x := mk_fd (fd_magic x) (fd_type x) (fd_path x) (fd_ref_count x) v (fd_flags x) (fd_size x) (fd_pos x) (fd_data x).
Definition set_fd_flags v x := mk_fd (fd_magic x) (fd_type x) (fd_path x) (fd_ref_count x) (fd_fs x) v (fd_size x) (fd_pos x) (fd_data x).
Definition set_fd_size v x := mk_fd (fd_magic x) (fd_type x) (fd_path x) (fd_ref_count x) (fd_fs x) (fd_flags x) v (fd_pos x) (fd_data x).
Definition set_fd_pos v x := mk_fd (fd_magic x) (fd_type x) (fd_path x) (fd_ref_count x) (fd_fs x) (fd_flags x) (fd_size x) v (fd_data x).
Definition set_fd_data v x := mk_fd (fd_magic x) (fd_type x) (fd_path x) (fd_ref_count x) (fd_fs x) (fd_flags x) (fd_size x) (fd_pos x) v.

(** The part of a descriptor that belongs to its file system *)
Record fd_part := mk_part { pt_flags : Z; pt_size : Z; pt_pos : Z; pt_data : Z }.
Definition part_of (x : dfs_fd) : fd_part := mk_part (fd_flags x) (fd_size x) (fd_pos x) (fd_data x).
Definition set_part (v : fd_part) (x : dfs_fd) : dfs_fd :=
  mk_fd (fd_magic x) (fd_type x) (fd_path x) (fd_ref_count x) (fd_fs x) (pt_flags v) (pt_size v) (pt_pos v) (pt_data v).

(** [struct dfs_filesystem]; an entry with [fs_ops = RT_NULL] is free. *)
Record dfs_filesystem := mk_fs { fs_dev_id : ptr; fs_path : ptr; fs_ops : ptr; fs_data : Z }.
Definition zero_fs : dfs_filesystem := mk_fs RT_NULL RT_NULL RT_NULL 0.

Record stat := mk_stat { st_dev : ptr; st_mode : Z; st_size : Z; st_mtime : Z; st_blksize : Z }.
Record statfs := mk_statfs { f_bsize : Z; f_blocks : Z; f_bfree : Z }.

(** The DIR stream of dfs_posix.h *)
Record DIR := mk_dir { dir_fd : Z; dir_buf : list Z; dir_num : Z; dir_cur : Z }.

(** [struct dfs_filesystem_operation] at an address.  A function is given what its pointer
    arguments lead to; it has a state of its own and may change the data pointer of its file
    system and its part of a descriptor. *)
Class FsOps (World : Type) := {
  op_name : ptr -> list Z;
  op_flags : ptr -> Z;
  op_mount : ptr -> option (dfs_filesystem -> Z -> Z -> M World (Z * Z));
  op_unmount : ptr -> option (dfs_filesystem -> M World (Z * Z));
  op_mkfs : ptr -> option (ptr -> M World Z);
  op_statfs : ptr -> option (dfs_filesystem -> M World (Z * statfs));
  op_open : ptr -> option (dfs_filesystem -> list Z -> dfs_fd -> M World (Z * fd_part));
  op_close : ptr -> option (dfs_filesystem -> dfs_fd -> M World (Z * fd_part));
  op_ioctl : ptr -> option (dfs_filesystem -> dfs_fd -> Z -> Z -> M World (Z * fd_part));
  op_read : ptr -> option (dfs_filesystem -> dfs_fd -> Z -> M World (Z * fd_part * list Z));
  op_write : ptr -> option (dfs_filesystem -> dfs_fd -> list Z -> M World (Z * fd_part));
  op_flush : ptr -> option (dfs_filesystem -> dfs_fd -> M World (Z * fd_part));
  op_lseek : ptr -> option (dfs_filesystem -> dfs_fd -> Z -> M World (Z * fd_part));
  op_getdents : ptr -> option (dfs_filesystem -> dfs_fd -> Z -> M World (Z * fd_part * list Z));
  op_unlink : ptr -> option (dfs_filesystem -> list Z -> M World Z);
  op_stat : ptr -> option (dfs_filesystem -> list Z -> M World (Z * option stat));
  op_rename : ptr -> option (dfs_filesystem -> option (list Z) -> option (list Z) -> M World Z)
}.

(** A [struct dfs_fd *]: an entry of the table, or a variable of a function *)
Inductive fdp := FdTable (i : nat) | FdLocal.

Section dfs.
Context `{KConfig} `{Allocator} `{!DriverOps} `{!DfsConfig} {World : Type} `{!FsOps World}.

Record dfs := mk_dfs {
  dk : kstate;
  dworld : World;
  dstr : gmap ptr (list Z);  (* blocks of the heap that hold characters *)
  dirs : gmap ptr DIR;       (* blocks of the heap that hold directory streams *)
  filesystem_operation_table : list ptr;
  filesystem_table : list dfs_filesystem;
  fd_table : list dfs_fd;
  working_directory : list Z;
  local_fd : dfs_fd
}.
Definition set_dk v x := mk_dfs v (dworld x) (dstr x) (dirs x) (filesystem_operation_table x) (filesystem_table x) (fd_table x) (working_directory x) (local_fd x).
Definition set_dworld v x := mk_dfs (dk x) v (dstr x) (dirs x) (filesystem_operation_table x) (filesystem_table x) (fd_table x) (working_directory x) (local_fd x).
Definition set_dstr v x := mk_dfs (dk x) (dworld x) v (dirs x) (filesystem_operation_table x) (filesystem_table x) (fd_table x) (working_directory x) (local_fd x).
Definition set_dirs v x := mk_dfs (dk x) (dworld x) (dstr x) v (filesystem_operation_table x) (filesystem_table x) (fd_table x) (working_directory x) (local_fd x).
Definition set_operation_table v x := mk_dfs (dk x) (dworld x) (dstr x) (dirs x) v (filesystem_table x) (fd_table x) (working_directory x) (local_fd x).
Definition set_filesystem_table v x := mk_dfs (dk x) (dworld x) (dstr x) (dirs x) (filesystem_operation_table x) v (fd_table x) (working_directory x) (local_fd x).
Definition set_fd_table v x := mk_dfs (dk x) (dworld x) (dstr x) (dirs x) (filesystem_operation_table x) (filesystem_table x) v (working_directory x) (local_fd x).
Definition set_working_directory v x := mk_dfs (dk x) (dworld x) (dstr x) (dirs x) (filesystem_operation_table x) (filesystem_table x) (fd_table x) v (local_fd x).
Definition set_local_fd v x := mk_dfs (dk x) (dworld x) (dstr x) (dirs x) (filesystem_operation_table x) (filesystem_table x) (fd_table x) (working_directory x) v.


(** A call of the kernel, and of a file system *)
Definition inK {A} (c : K A) : M dfs A := fun d =>
  match c (dk d) with Ok a k => Ok a (set_dk k d) | Fault f => Fault f end.
Definition inFs {A} (c : M World A) : M dfs A := fun d =>
  match c (dworld d) with Ok a w => Ok a (set_dworld w d) | Fault f => Fault f end.

(** ** The heap *)

Definition rt_malloc (size : Z) : M dfs ptr :=
  p ← inK (kmalloc size);
  when (negb (p =? RT_NULL))
    (modify (fun d => set_dstr (<[p := (fun i => u8 (garbage p i)) <$> seq 0 (Z.to_nat size)]> (dstr d)) d));;
  mret p.
Definition rt_free (p : ptr) : M dfs unit :=
  if p =? RT_NULL then mret tt
  else
    d ← get;
    opt BadPointer (dstr d !! p);;
    inK (kfree p);; modify (fun d => set_dstr (delete p (dstr d)) d).

(** Code that works on the bytes of one block *)
Definition inBlock {A} (p : ptr) (c : M (list Z) A) : M dfs A := fun d =>
  match dstr d !! p with
  | None => Fault BadPointer
  | Some l => match c l with Ok a l' => Ok a (set_dstr (<[p := l']> (dstr d)) d) | Fault f => Fault f end
  end.
Definition str_at (p : ptr) : M dfs (list Z) :=
  d ← get; l ← opt BadPointer (dstr d !! p); opt BadPointer (cstring l).
(** The bytes [s] and a NUL at the start of the block *)
Definition put_str (p : ptr) (s : list Z) : M dfs unit :=
  inBlock p (l ← get; opt BadPointer ((l : list Z) !! length s);; modify (fun l => s ++ 0 :: drop (S (length s)) l)).

Definition rt_strdup (s : list Z) : M dfs ptr :=
  tmp ← rt_malloc (u32 (Z.of_nat (length s) + 1));
  if tmp =? RT_NULL then mret RT_NULL else put_str tmp s;; mret tmp.

(** ** The lock *)

Definition dfs_lock : M dfs unit :=
  r ← inK (rt_mutex_take fslock (- 1));
  match r with
  | Done result => when (negb (result =? RT_EOK)) (RT_ASSERT false)
  | Blocked _ => throw Waits
  end.
Definition dfs_unlock : M dfs unit := inK (rt_mutex_release fslock);; mret tt.

Definition dfs_set_errno (e : Z) : M dfs unit := inK (rt_set_errno e).

Definition fslock_name : list Z := [102; 115; 108; 111; 99; 107].

(** The first descriptor of a user *)
Definition fd_base : nat := if using_stdio then 3 else 0.

Definition dfs_init : M dfs Z :=
  modify (set_operation_table (replicate DFS_FILESYSTEM_TYPES_MAX RT_NULL));;
  modify (set_filesystem_table (replicate DFS_FILESYSTEMS_MAX zero_fs));;
  modify (set_fd_table (replicate (fd_base + DFS_FD_MAX) zero_fd));;
  inK (rt_mutex_init fslock fslock_name RT_IPC_FLAG_FIFO);;
  when using_workdir (modify (set_working_directory (SLASH :: replicate (Z.to_nat DFS_PATH_MAX - 1) 0)));;
  mret 0.

(** ** File descriptors (dfs.c) *)

Definition get_fd (p : fdp) : M dfs dfs_fd :=
  d ← get;
  match p with FdTable i => opt BadPointer (fd_table d !! i) | FdLocal => mret (local_fd d) end.
Definition upd_fd (p : fdp) (f : dfs_fd -> dfs_fd) : M dfs unit :=
  x ← get_fd p;
  modify (fun d => match p with
                   | FdTable i => set_fd_table (<[i := f x]> (fd_table d)) d
                   | FdLocal => set_local_fd (f x) d
                   end).

(** [for (; idx < end && fd_table[idx].ref_count > 0; idx++);] *)
Fixpoint find_fd (l : list dfs_fd) (idx : nat) : nat :=
  match l with x :: l' => if 0 <? fd_ref_count x then find_fd l' (S idx) else idx | [] => idx end.

Definition fd_new : M dfs Z :=
  dfs_lock;;
  d ← get;
  let idx := find_fd (drop fd_base (fd_table d)) fd_base in
  if (idx =? fd_base + DFS_FD_MAX)%nat then dfs_unlock;; mret (-1)
  else
    upd_fd (FdTable idx) (set_fd_ref 1);;
    upd_fd (FdTable idx) (set_fd_magic DFS_FD_MAGIC);;
    dfs_unlock;;
    mret (Z.of_nat idx).

Definition fd_get (fd : Z) : M dfs (option fdp) :=
  if (fd <? Z.of_nat fd_base) || (Z.of_nat (fd_base + DFS_FD_MAX) <=? fd) then mret None
  else
    dfs_lock;;
    let p := FdTable (Z.to_nat fd) in
    x ← get_fd p;
    if negb (fd_magic x =? DFS_FD_MAGIC) then dfs_unlock;; mret None
    else
      upd_fd p (fun x => set_fd_ref (fd_ref_count x + 1) x);;
      dfs_unlock;;
      mret (Some p).

Definition fd_put (p : fdp) : M dfs unit :=
  dfs_lock;;
  upd_fd p (fun x => set_fd_ref (fd_ref_count x - 1) x);;
  x ← get_fd p;
  when (fd_ref_count x =? 0) (upd_fd p (fun _ => zero_fd));;
  dfs_unlock.

(** ** Paths (dfs.c) *)

(** [rt_snprintf(fullpath, ..., "%s/%s", directory, filename)], which fits exactly *)
Definition dfs_join (directory filename : list Z) : list Z := directory ++ SLASH :: filename.

Definition dfs_normalize_path (directory : option (list Z)) (filename : list Z) : M dfs ptr :=
  d ← get;
  directory ← (match directory with
               | Some x => mret (Some x)
               | None => if using_workdir then w ← opt BadPointer (cstring (working_directory d)); mret (Some w)
                         else mret None
               end);
  let absolute := match filename with c :: _ => c =? SLASH | [] => false end in
  match directory, absolute with
  | None, false => mret RT_NULL  (* and a message on the console *)
  | _, _ =>
      fullpath ←
        (if negb absolute then
           let directory := default [] directory in
           p ← rt_malloc (u32 (Z.of_nat (length directory) + Z.of_nat (length filename) + 2));
           if p =? RT_NULL then mret RT_NULL else put_str p (dfs_join directory filename);; mret p
         else rt_strdup filename);
      if fullpath =? RT_NULL then mret RT_NULL
      else
        r ← inBlock fullpath normalize_block;
        if r : bool then mret fullpath else rt_free fullpath;; mret RT_NULL
  end.

(** The text of [dfs_subdir], [None] for RT_NULL.  [dir] points into [filename], and a
    directory longer than the file name leads past its end. *)
Definition dfs_subdir (directory filename : list Z) : M dfs (option (list Z)) :=
  if (length directory =? length filename)%nat then mret None
  else
    c ← opt BadPointer ((filename ++ [0]) !! length directory);
    mret (Some (if negb (c =? SLASH) && negb (length directory =? 0)%nat
                then drop (length directory - 1) filename else drop (length directory) filename)).

(** ** Mounted file systems (dfs_fs.c) *)

Definition get_fs (i : nat) : M dfs dfs_filesystem := d ← get; opt BadPointer (filesystem_table d !! i).
Definition upd_fs (i : nat) (f : dfs_filesystem -> dfs_filesystem) : M dfs unit :=
  x ← get_fs i; modify (fun d => set_filesystem_table (<[i := f x]> (filesystem_table d)) d).

(** The functions of the file system: NULL is not a table. *)
Definition get_ops (x : dfs_filesystem) : M dfs ptr := opt BadPointer (if fs_ops x =? RT_NULL then None else Some (fs_ops x)).

(** One round of the search: the longest mount point so far *)
Definition lookup_step (path : list Z) (i : nat) (acc : option nat * Z) : M dfs (option nat * Z) :=
  x ← get_fs i;
  if (fs_path x =? RT_NULL) || (fs_ops x =? RT_NULL) then mret acc
  else
    fspath ← str_at (fs_path x);
    let len := Z.of_nat (length fspath) in
    if (len <? acc.2) || negb (bool_decide (take (length fspath) path = fspath)) then mret acc
    else if (1 <? len) && (len <? Z.of_nat (length path)) && negb (bool_decide (path !! length fspath = Some SLASH))
    then mret acc
    else mret (Some i, len).
Fixpoint lookup_loop (path : list Z) (n i : nat) (acc : option nat * Z) : M dfs (option nat * Z) :=
  match n with O => mret acc | S n' => acc ← lookup_step path i acc; lookup_loop path n' (S i) acc end.

Definition dfs_filesystem_lookup (path : list Z) : M dfs (option nat) :=
  dfs_lock;;
  r ← lookup_loop path DFS_FILESYSTEMS_MAX 0 (None, 0);
  dfs_unlock;;
  mret r.1.

(** The registered type of that name: [Some i] and an error when the scan meets it, the
    first free entry otherwise *)
Fixpoint register_loop (name : list Z) (l : list ptr) (i : nat) (empty : option nat) : option (option nat) :=
  match l with
  | [] => Some empty
  | p :: l' =>
      if p =? RT_NULL then register_loop name l' (S i) (match empty with None => Some i | _ => empty end)
      else if bool_decide (op_name p = name) then None
      else register_loop name l' (S i) empty
  end.
Definition dfs_register (ops : ptr) : M dfs Z :=
  dfs_lock;;
  d ← get;
  match register_loop (op_name ops) (filesystem_operation_table d) 0 None with
  | None => dfs_unlock;; mret (-1)
  | Some empty =>
      match empty with
      | Some i => modify (fun d => set_operation_table (<[i := ops]> (filesystem_operation_table d)) d)
      | None => mret tt
      end;;
      dfs_unlock;; mret RT_EOK
  end.

Fixpoint mounted_loop (device : ptr) (l : list dfs_filesystem) : ptr :=
  match l with
  | [] => RT_NULL
  | x :: l' => if fs_ops x =? RT_NULL then mounted_loop device l'
               else if fs_dev_id x =? device then fs_path x else mounted_loop device l'
  end.
Definition dfs_filesystem_get_mounted_path (device : ptr) : M dfs ptr :=
  dfs_lock;; d ← get; dfs_unlock;; mret (mounted_loop device (filesystem_table d)).

(** [struct dfs_partition] without its lock, and the entry [pindex] of the partition table
    in a boot sector; what it prints is left out. *)
Record dfs_partition := mk_partition { part_type : Z; part_offset : Z; part_size : Z }.
Definition dfs_filesystem_get_partition (buf : list Z) (pindex : Z) : M dfs (Z * option dfs_partition) :=
  let dpt (i : Z) := opt (S := dfs) BadPointer (buf !! Z.to_nat (0x1be + pindex * 16 + i)) in
  let word (i : Z) :=
    b0 ← dpt i; b1 ← dpt (i + 1); b2 ← dpt (i + 2); b3 ← dpt (i + 3);
    mret (Z.lor (Z.lor (Z.lor b0 (Z.shiftl b1 8)) (Z.shiftl b2 16)) (Z.shiftl b3 24)) in
  b ← dpt 0;
  if negb (b =? 0x80) && negb (b =? 0x00) then mret (- RT_ERROR, None)
  else
    type ← dpt 4;
    if type =? 0 then mret (- RT_ERROR, None)
    else
      offset ← word 8; size ← word 12;
      mret (RT_EOK, Some (mk_partition type (s32 offset) (u32 size))).
End dfs.
