(* ===== verification/DfsFile.v ===== *)
(** * Operations on files (components/dfs/src/dfs_file.c, dfs_fs.c, dfs_posix.c) *)
From stdpp Require Import base tactics numbers list gmap.
From S2P Require Import Prelude RtList KString Kernel Scheduler Object Timer Thread Ipc Mutex Device DfsPath Dfs.
Local Open Scope Z_scope.

Section file.
Context `{KConfig} `{Allocator} `{!DriverOps} `{!DfsConfig} {World : Type} `{!FsOps World}.
Local Abbreviation F := (M (dfs (World:=World))).
Implicit Types p : fdp.

(** ** The table of a file system (dfs_file.c) *)

(** [fd->fs], as an entry of the table *)
Definition fs_of (p : fdp) : F dfs_filesystem := x ← get_fd p; i ← opt BadPointer (fd_fs x); get_fs i.

(** [fs->ops->op(fd, ...)]: the function changes its part of the descriptor. *)
Definition call_fd (p : fdp) (op : dfs_filesystem -> dfs_fd -> M World (Z * fd_part)) : F Z :=
  fs ← fs_of p;
  x ← get_fd p;
  '(r, v) ← inFs (op fs x);
  upd_fd p (set_part v);;
  mret r.

(** The path a file system is given: below its mount point, or the full path *)
Definition below (ops : ptr) (fs : dfs_filesystem) (fullpath : list Z) : F (list Z) :=
  if Z.land (op_flags ops) DFS_FS_FLAG_FULLPATH =? 0 then
    mount ← str_at (fs_path fs);
    sub ← dfs_subdir mount fullpath;
    mret (default [SLASH] sub)
  else mret fullpath.

Definition dfs_file_open (p : option fdp) (path : list Z) (flags : Z) : F Z :=
  match p with
  | None => mret (- DFS_STATUS_EINVAL)
  | Some p =>
      fullpath ← dfs_normalize_path None path;
      if fullpath =? RT_NULL then mret (-1)
      else
        text ← str_at fullpath;
        r ← dfs_filesystem_lookup text;
        match r with
        | None => rt_free fullpath;; mret (- DFS_STATUS_ENOENT)
        | Some i =>
            upd_fd p (set_fd_fs (Some i));;
            upd_fd p (set_fd_type FT_REGULAR);;
            upd_fd p (set_fd_flags (u32 flags));;
            upd_fd p (set_fd_size 0);;
            upd_fd p (set_fd_pos 0);;
            fs ← get_fs i;
            ops ← get_ops fs;
            (if Z.land (op_flags ops) DFS_FS_FLAG_FULLPATH =? 0 then
               sub ← below ops fs text;
               q ← rt_strdup sub;
               upd_fd p (set_fd_path q);;
               rt_free fullpath
             else upd_fd p (set_fd_path fullpath));;
            match op_open ops with
            | None =>
                x ← get_fd p; rt_free (fd_path x);; upd_fd p (fun _ => zero_fd);;
                mret (- DFS_STATUS_ENOSYS)
            | Some op =>
                x ← get_fd p;
                name ← str_at (fd_path x);
                result ← call_fd p (fun fs x => op fs name x);
                if result <? 0 then
                  x ← get_fd p; rt_free (fd_path x);; upd_fd p (fun _ => zero_fd);;
                  mret result
                else
                  upd_fd p (fun x => set_fd_flags (Z.lor (fd_flags x) DFS_F_OPEN) x);;
                  when (negb (Z.land flags DFS_O_DIRECTORY =? 0))
                    (upd_fd p (set_fd_type FT_DIRECTORY);;
                     upd_fd p (fun x => set_fd_flags (Z.lor (fd_flags x) DFS_F_DIRECTORY) x));;
                  mret 0
            end
        end
  end.

Definition dfs_file_close (p : fdp) : F Z :=
  fs ← fs_of p;
  ops ← get_ops fs;
  result ← match op_close ops with Some op => call_fd p op | None => mret 0 end;
  if result <? 0 then mret result
  else
    x ← get_fd p;
    rt_free (fd_path x);;
    upd_fd p (fun _ => zero_fd);;
    mret result.

Definition dfs_file_ioctl (p : fdp) (cmd args : Z) : F Z :=
  x ← get_fd p;
  if negb (fd_type x =? FT_REGULAR) then mret (- DFS_STATUS_EINVAL)
  else
    fs ← fs_of p;
    ops ← get_ops fs;
    match op_ioctl ops with Some op => call_fd p (fun fs x => op fs x cmd args) | None => mret (- DFS_STATUS_ENOSYS) end.

(** A function that also stores bytes in the buffer of the caller *)
Definition call_buf (p : fdp) (op : dfs_filesystem -> dfs_fd -> M World (Z * fd_part * list Z)) : F (Z * list Z) :=
  fs ← fs_of p;
  x ← get_fd p;
  '(r, v, bytes) ← inFs (op fs x);
  upd_fd p (set_part v);;
  mret (r, bytes).

Definition dfs_file_read (p : fdp) (len : Z) : F (Z * list Z) :=
  fs ← fs_of p;
  ops ← get_ops fs;
  match op_read ops with
  | None => mret (- DFS_STATUS_ENOSYS, [])
  | Some op =>
      '(result, bytes) ← call_buf p (fun fs x => op fs x len);
      when (result <? 0) (upd_fd p (fun x => set_fd_flags (Z.lor (fd_flags x) DFS_F_EOF) x));;
      mret (result, bytes)
  end.

Definition dfs_file_getdents (p : fdp) (nbytes : Z) : F (Z * list Z) :=
  x ← get_fd p;
  if negb (fd_type x =? FT_DIRECTORY) then mret (- DFS_STATUS_EINVAL, [])
  else
    fs ← fs_of p;
    ops ← get_ops fs;
    match op_getdents ops with
    | Some op => call_buf p (fun fs x => op fs x nbytes)
    | None => mret (- DFS_STATUS_ENOSYS, [])
    end.

Definition dfs_file_write (p : fdp) (buf : list Z) : F Z :=
  fs ← fs_of p;
  ops ← get_ops fs;
  match op_write ops with Some op => call_fd p (fun fs x => op fs x buf) | None => mret (- DFS_STATUS_ENOSYS) end.

Definition dfs_file_flush (p : fdp) : F Z :=
  fs ← fs_of p;
  ops ← get_ops fs;
  match op_flush ops with Some op => call_fd p op | None => mret (- DFS_STATUS_ENOSYS) end.

Definition dfs_file_lseek (p : fdp) (offset : Z) : F Z :=
  x ← get_fd p;
  match fd_fs x with
  | None => mret (- DFS_STATUS_EINVAL)
  | Some _ =>
      fs ← fs_of p;
      ops ← get_ops fs;
      match op_lseek ops with
      | None => mret (- DFS_STATUS_ENOSYS)
      | Some op =>
          result ← call_fd p (fun fs x => op fs x offset);
          when (0 <=? result) (upd_fd p (set_fd_pos result));;
          mret result
      end
  end.

(** [fd_is_open] of dfs.c: the scan of the table, [true] for a descriptor of the path *)
Fixpoint is_open_loop (fs : nat) (mountpath : list Z) (n i : nat) : F bool :=
  match n with
  | O => mret false
  | S n' =>
      x ← get_fd (FdTable i);
      match fd_fs x with
      | None => is_open_loop fs mountpath n' (S i)
      | Some j =>
          if (j =? fs)%nat then
            text ← str_at (fd_path x);
            if bool_decide (text = mountpath) then mret true else is_open_loop fs mountpath n' (S i)
          else is_open_loop fs mountpath n' (S i)
      end
  end.
Definition fd_is_open (pathname : list Z) : F Z :=
  fullpath ← dfs_normalize_path None pathname;
  if fullpath =? RT_NULL then mret (-1)
  else
    text ← str_at fullpath;
    r ← dfs_filesystem_lookup text;
    match r with
    | None => rt_free fullpath;; mret (-1)
    | Some i =>
        fs ← get_fs i;
        mount ← str_at (fs_path fs);
        let mountpath := if bool_decide (mount = [SLASH]) then text else drop (length mount) text in
        dfs_lock;;
        found ← is_open_loop i mountpath DFS_FD_MAX fd_base;
        if found : bool then rt_free fullpath;; dfs_unlock;; mret 0
        else dfs_unlock;; rt_free fullpath;; mret (-1)
    end.

Definition dfs_file_unlink (path : list Z) : F Z :=
  fullpath ← dfs_normalize_path None path;
  if fullpath =? RT_NULL then mret (- DFS_STATUS_EINVAL)
  else
    text ← str_at fullpath;
    r ← dfs_filesystem_lookup text;
    result ←
      match r with
      | None => mret (- DFS_STATUS_ENOENT)
      | Some i =>
          open ← fd_is_open text;
          if open =? 0 then mret (- DFS_STATUS_EBUSY)
          else
            fs ← get_fs i;
            ops ← get_ops fs;
            match op_unlink ops with
            | Some op => name ← below ops fs text; inFs (op fs name)
            | None => mret (- DFS_STATUS_ENOSYS)
            end
      end;
    rt_free fullpath;;
    mret result.

(** What [dfs_file_stat] stores for a directory on which a file system is mounted *)
Definition mount_stat : stat := mk_stat RT_NULL (Z.lor DFS_S_IRW (Z.lor DFS_S_IFDIR DFS_S_IX)) 0 0 512.

Definition dfs_file_stat (path : list Z) : F (Z * option stat) :=
  fullpath ← dfs_normalize_path None path;
  if fullpath =? RT_NULL then mret (-1, None)
  else
    text ← str_at fullpath;
    r ← dfs_filesystem_lookup text;
    match r with
    | None => rt_free fullpath;; mret (- DFS_STATUS_ENOENT, None)
    | Some i =>
        fs ← get_fs i;
        mount ← str_at (fs_path fs);
        sub ← (if bool_decide (text = [SLASH]) then mret None else dfs_subdir mount text);
        match sub with
        | None => rt_free fullpath;; mret (DFS_STATUS_OK, Some mount_stat)
        | Some sub =>
            ops ← get_ops fs;
            match op_stat ops with
            | None => rt_free fullpath;; mret (- DFS_STATUS_ENOSYS, None)
            | Some op =>
                '(result, st) ← inFs (op fs (if negb (Z.land (op_flags ops) DFS_FS_FLAG_FULLPATH =? 0) then text else sub));
                rt_free fullpath;;
                mret (result, st)
            end
        end
    end.

Definition dfs_file_rename (oldpath newpath : list Z) : F Z :=
  oldfullpath ← dfs_normalize_path None oldpath;
  if oldfullpath =? RT_NULL then mret (- DFS_STATUS_ENOENT)
  else
    newfullpath ← dfs_normalize_path None newpath;
    if newfullpath =? RT_NULL then rt_free oldfullpath;; mret (- DFS_STATUS_ENOENT)
    else
      oldtext ← str_at oldfullpath;
      newtext ← str_at newfullpath;
      oldfs ← dfs_filesystem_lookup oldtext;
      newfs ← dfs_filesystem_lookup newtext;
      result ←
        (if bool_decide (oldfs = newfs) then
           (* oldfs->ops, also when neither path is mounted *)
           i ← opt BadPointer oldfs;
           fs ← get_fs i;
           ops ← get_ops fs;
           match op_rename ops with
           | None => mret (- DFS_STATUS_ENOSYS)
           | Some op =>
               if negb (Z.land (op_flags ops) DFS_FS_FLAG_FULLPATH =? 0) then
                 inFs (op fs (Some oldtext) (Some newtext))
               else
                 mount ← str_at (fs_path fs);
                 old ← dfs_subdir mount oldtext;
                 new ← dfs_subdir mount newtext;
                 inFs (op fs old new)
           end
         else mret (- DFS_STATUS_EXDEV));
      rt_free oldfullpath;;
      rt_free newfullpath;;
      mret result.

(** ** Mounting (dfs_fs.c) *)

(** [for (ops = ...; ops < end; ops++) if ((ops != RT_NULL) && (strcmp(ops[0]->name, type) == 0)) break;]
    The test is on the address of the entry, so an empty entry is dereferenced. *)
Fixpoint type_loop (name : list Z) (l : list ptr) : F (option ptr) :=
  match l with
  | [] => mret None
  | p :: l' =>
      if p =? RT_NULL then throw BadPointer
      else if bool_decide (op_name p = name) then mret (Some p) else type_loop name l'
  end.

(** The scan of the table: [None] when the path is mounted, otherwise the first free entry.
    The path is compared as the caller wrote it. *)
Fixpoint mount_loop (path : list Z) (l : list dfs_filesystem) (i : nat) (fs : option nat) : F (option (option nat)) :=
  match l with
  | [] => mret (Some fs)
  | x :: l' =>
      if fs_ops x =? RT_NULL then mount_loop path l' (S i) (match fs with None => Some i | _ => fs end)
      else
        text ← str_at (fs_path x);
        if bool_decide (text = path) then mret None else mount_loop path l' (S i) fs
  end.

Definition dev_text : list Z := [SLASH; 100; 101; 118].

(** [err1] *)
Definition mount_error (fullpath : ptr) : F Z := dfs_unlock;; rt_free fullpath;; mret (-1).

Definition dfs_mount (device_name : option (list Z)) (path filesystemtype : list Z) (rwflag data : Z) : F Z :=
  dev_id ← match device_name with None => mret RT_NULL | Some name => inK (rt_device_find name) end;
  if bool_decide (is_Some device_name) && (dev_id =? RT_NULL) then dfs_set_errno (- DFS_STATUS_ENODEV);; mret (-1)
  else
    dfs_lock;;
    d ← get;
    found ← type_loop filesystemtype (filesystem_operation_table d);
    dfs_unlock;;
    match found with
    | None => dfs_set_errno (- DFS_STATUS_ENODEV);; mret (-1)
    | Some ops =>
        match op_mount ops with
        | None => dfs_set_errno (- DFS_STATUS_ENOSYS);; mret (-1)
        | Some op =>
            fullpath ← dfs_normalize_path None path;
            if fullpath =? RT_NULL then dfs_set_errno (- DFS_STATUS_ENOTDIR);; mret (-1)
            else
              text ← str_at fullpath;
              exists_ ←
                (if negb (bool_decide (text = [SLASH])) && negb (bool_decide (text = dev_text)) then
                   r ← dfs_file_open (Some FdLocal) text (Z.lor DFS_O_RDONLY DFS_O_DIRECTORY);
                   if r <? 0 then mret false else dfs_file_close FdLocal;; mret true
                 else mret true);
              if negb exists_ then rt_free fullpath;; dfs_set_errno (- DFS_STATUS_ENOTDIR);; mret (-1)
              else
                dfs_lock;;
                d ← get;
                slot ← mount_loop path (filesystem_table d) 0 None;
                match slot with
                | None => dfs_set_errno (- DFS_STATUS_EINVAL);; mount_error fullpath
                | Some None => dfs_set_errno (- DFS_STATUS_ENOSPC);; mount_error fullpath
                | Some (Some fs) =>
                    upd_fs fs (fun x => mk_fs dev_id fullpath ops (fs_data x));;
                    dfs_unlock;;
                    opened ← (if negb (dev_id =? RT_NULL) then
                                r ← inK (rt_device_open dev_id 3); mret (r =? RT_EOK)
                              else mret true);
                    if negb opened then dfs_lock;; upd_fs fs (fun _ => zero_fs);; mount_error fullpath
                    else
                      x ← get_fs fs;
                      '(r, v) ← inFs (op x rwflag data);
                      upd_fs fs (fun x => mk_fs (fs_dev_id x) (fs_path x) (fs_ops x) v);;
                      if r <? 0 then
                        when (negb (dev_id =? RT_NULL)) (inK (rt_device_close dev_id);; mret tt);;
                        dfs_lock;;
                        upd_fs fs (fun _ => zero_fs);;
                        mount_error fullpath
                      else mret 0
                end
        end
    end.

Fixpoint unmount_loop (fullpath : list Z) (l : list dfs_filesystem) (i : nat) : F (option nat) :=
  match l with
  | [] => mret None
  | x :: l' =>
      if fs_path x =? RT_NULL then unmount_loop fullpath l' (S i)
      else
        text ← str_at (fs_path x);
        if bool_decide (text = fullpath) then mret (Some i) else unmount_loop fullpath l' (S i)
  end.

Definition dfs_unmount (specialfile : list Z) : F Z :=
  fullpath ← dfs_normalize_path None specialfile;
  if fullpath =? RT_NULL then dfs_set_errno (- DFS_STATUS_ENOTDIR);; mret (-1)
  else
    text ← str_at fullpath;
    dfs_lock;;
    d ← get;
    found ← unmount_loop text (filesystem_table d) 0;
    match found with
    | None => mount_error fullpath
    | Some i =>
        x ← get_fs i;
        ops ← get_ops x;
        match op_unmount ops with
        | None => mount_error fullpath
        | Some op =>
            '(r, v) ← inFs (op x);
            upd_fs i (fun x => mk_fs (fs_dev_id x) (fs_path x) (fs_ops x) v);;
            if r <? 0 then mount_error fullpath
            else
              when (negb (fs_dev_id x =? RT_NULL)) (inK (rt_device_close (fs_dev_id x));; mret tt);;
              rt_free (fs_path x);;
              upd_fs i (fun _ => zero_fs);;
              dfs_unlock;;
              rt_free fullpath;;
              mret 0
        end
    end.

Fixpoint find_type (name : list Z) (l : list ptr) : option ptr :=
  match l with
  | [] => None
  | p :: l' => if negb (p =? RT_NULL) && bool_decide (op_name p = name) then Some p else find_type name l'
  end.
Definition dfs_mkfs (fs_name : list Z) (device_name : option (list Z)) : F Z :=
  dev_id ← match device_name with None => mret RT_NULL | Some name => inK (rt_device_find name) end;
  if dev_id =? RT_NULL then dfs_set_errno (- DFS_STATUS_ENODEV);; mret (-1)
  else
    dfs_lock;;
    d ← get;
    dfs_unlock;;
    match find_type fs_name (filesystem_operation_table d) with
    | None => mret (-1)
    | Some ops =>
        match op_mkfs ops with
        | None => dfs_set_errno (- DFS_STATUS_ENOSYS);; mret (-1)
        | Some op => inFs (op dev_id)
        end
    end.

Definition dfs_statfs (path : list Z) : F (Z * option statfs) :=
  r ← dfs_filesystem_lookup path;
  match r with
  | None => mret (-1, None)
  | Some i =>
      fs ← get_fs i;
      ops ← get_ops fs;
      match op_statfs ops with
      | Some op => '(result, buf) ← inFs (op fs); mret (result, Some buf)
      | None => mret (-1, None)
      end
  end.

(** [struct dfs_mount_tbl] and the mounts of the start-up *)
Record dfs_mount_tbl := mk_mount_tbl {
  mt_device_name : option (list Z); mt_path : list Z; mt_filesystemtype : list Z; mt_rwflag : Z; mt_data : Z }.
Fixpoint dfs_mount_table (mount_table : list dfs_mount_tbl) : F Z :=
  match mount_table with
  | [] => mret 0
  | t :: mount_table' =>
      r ← dfs_mount (mt_device_name t) (mt_path t) (mt_filesystemtype t) (mt_rwflag t) (mt_data t);
      if negb (r =? 0) then mret (- RT_ERROR) else dfs_mount_table mount_table'
  end.
End file.
