(* ===== verification/DfsPosix.v ===== *)
(** * The POSIX interface of the virtual file system (components/dfs/src/dfs_posix.c)

    The calls on file descriptors and directory streams.  A call takes a reference to its
    descriptor for as long as it works on it. *)
From stdpp Require Import base tactics numbers list gmap.
From S2P Require Import Prelude RtList KString Kernel Scheduler Object Timer Thread Ipc Mutex Device DfsPath Dfs DfsFile.
Local Open Scope Z_scope.

Section posix.
Context `{KConfig} `{Allocator} `{!DriverOps} `{!DfsConfig} {World : Type} `{!FsOps World}.
Local Abbreviation F := (M (dfs (World:=World))).

(** [rt_set_errno(e); return -1;] *)
Definition failed (e : Z) : F Z := dfs_set_errno e;; mret (-1).

(** A call on a descriptor: [d = fd_get(fd)], and -EBADF without one *)
Definition with_fd {A} (fd : Z) (bad : A) (c : fdp -> F A) : F A :=
  d ← fd_get fd;
  match d with None => dfs_set_errno (- DFS_STATUS_EBADF);; mret bad | Some d => c d end.

(** A descriptor that has just been allocated: [fd_get] finds it. *)
Definition open (file : list Z) (flags : Z) : F Z :=
  fd ← fd_new;
  if fd <? 0 then failed (- DFS_STATUS_ENOMEM)
  else
    p ← fd_get fd;
    result ← dfs_file_open p file flags;
    p ← opt BadPointer p;
    if result <? 0 then fd_put p;; fd_put p;; failed result
    else fd_put p;; mret fd.

Definition close (fd : Z) : F Z :=
  with_fd fd (-1) (fun d =>
    result ← dfs_file_close d;
    fd_put d;;
    if result <? 0 then failed result else fd_put d;; mret 0).

Definition read (fd len : Z) : F (Z * list Z) :=
  with_fd fd (-1, []) (fun d =>
    '(result, bytes) ← dfs_file_read d len;
    fd_put d;;
    if result <? 0 then r ← failed result; mret (r, bytes) else mret (result, bytes)).

Definition write (fd : Z) (buf : list Z) : F Z :=
  with_fd fd (-1) (fun d =>
    result ← dfs_file_write d buf;
    fd_put d;;
    if result <? 0 then failed result else mret result).

(** [off_t] and [rt_off_t] are [long]; [d->size] is unsigned. *)
Definition lseek (fd offset whence : Z) : F Z :=
  with_fd fd (-1) (fun d =>
    x ← get_fd d;
    match (if whence =? DFS_SEEK_SET then Some offset
           else if whence =? DFS_SEEK_CUR then Some (s32 (offset + fd_pos x))
           else if whence =? DFS_SEEK_END then Some (s32 (offset + fd_size x))
           else None) with
    | None => failed (- DFS_STATUS_EINVAL)
    | Some offset =>
        if offset <? 0 then failed (- DFS_STATUS_EINVAL)
        else
          result ← dfs_file_lseek d offset;
          fd_put d;;
          if result <? 0 then failed result else mret offset
    end).

Definition rename (old new : list Z) : F Z :=
  result ← dfs_file_rename old new;
  if result <? 0 then failed result else mret 0.
Definition unlink (pathname : list Z) : F Z :=
  result ← dfs_file_unlink pathname;
  if result <? 0 then failed result else mret 0.
Definition rmdir := unlink.
Definition stat_file (file : list Z) : F (Z * option stat) :=
  '(result, buf) ← dfs_file_stat file;
  if result <? 0 then r ← failed result; mret (r, buf) else mret (result, buf).
Definition statfs_path (path : list Z) : F (Z * option statfs) :=
  '(result, buf) ← dfs_statfs path;
  if result <? 0 then r ← failed result; mret (r, buf) else mret (result, buf).

Definition fstat (fildes : Z) : F (Z * option stat) :=
  with_fd fildes (-1, None) (fun d =>
    x ← get_fd d;
    let mode := Z.lor DFS_S_IFREG DFS_S_IRW in
    let mode := if fd_type x =? FT_DIRECTORY
                then Z.lor (Z.land mode (Z.lnot DFS_S_IFREG)) (Z.lor DFS_S_IFDIR DFS_S_IX) else mode in
    fd_put d;;
    mret (DFS_STATUS_OK, Some (mk_stat RT_NULL mode (fd_size x) 0 512))).

(** A failure gives back one of the two references that were taken. *)
Definition mkdir (path : list Z) : F Z :=
  fd ← fd_new;
  if fd =? -1 then failed (- DFS_STATUS_ENOMEM)
  else
    p ← fd_get fd;
    result ← dfs_file_open p path (Z.lor DFS_O_DIRECTORY DFS_O_CREAT);
    p ← opt BadPointer p;
    if result <? 0 then fd_put p;; failed result
    else dfs_file_close p;; fd_put p;; mret 0.

(** ** Directory streams *)

Definition get_dir (t : ptr) : F DIR := d ← get; opt BadPointer (dirs d !! t).
Definition upd_dir (t : ptr) (f : DIR -> DIR) : F unit :=
  x ← get_dir t; modify (fun d => set_dirs (<[t := f x]> (dirs d)) d).
Definition DIR_BUF : nat := 512.
Definition DIR_SIZE : Z := 524.

Definition opendir (name : list Z) : F ptr :=
  fd ← fd_new;
  if fd =? -1 then dfs_set_errno (- DFS_STATUS_ENOMEM);; mret RT_NULL
  else
    p ← fd_get fd;
    result ← dfs_file_open p name (Z.lor DFS_O_RDONLY DFS_O_DIRECTORY);
    p ← opt BadPointer p;
    if 0 <=? result then
      t ← inK (kmalloc DIR_SIZE);
      (if t =? RT_NULL then dfs_file_close p;; fd_put p
       else modify (fun d => set_dirs (<[t := mk_dir fd (replicate DIR_BUF 0) 0 0]> (dirs d)) d));;
      fd_put p;;
      mret t
    else
      fd_put p;; fd_put p;;
      dfs_set_errno result;;
      mret RT_NULL.

(** The record length of the entry at [cur]: [d_reclen], two bytes behind its start *)
Definition d_reclen (x : DIR) : option Z :=
  lo ← dir_buf x !! Z.to_nat (dir_cur x + 2); hi ← dir_buf x !! Z.to_nat (dir_cur x + 3); Some (lo + Z.shiftl hi 8).

(** The entry that is returned, as its position in the buffer *)
Definition readdir (t : ptr) : F (option Z) :=
  x ← get_dir t;
  with_fd (dir_fd x) None (fun fd =>
    when (negb (dir_num x =? 0))
      (n ← opt BadPointer (d_reclen x);
       upd_dir t (fun x => mk_dir (dir_fd x) (dir_buf x) (dir_num x) (dir_cur x + n)));;
    x ← get_dir t;
    if (dir_num x =? 0) || (dir_num x <=? dir_cur x) then
      '(result, bytes) ← dfs_file_getdents fd (Z.of_nat DIR_BUF - 1);
      upd_dir t (fun x => mk_dir (dir_fd x) (take DIR_BUF bytes ++ drop (length bytes) (dir_buf x)) (dir_num x) (dir_cur x));;
      if result <=? 0 then fd_put fd;; dfs_set_errno result;; mret None
      else
        upd_dir t (fun x => mk_dir (dir_fd x) (dir_buf x) result 0);;
        fd_put fd;; mret (Some 0)
    else fd_put fd;; mret (Some (dir_cur x))).

Definition telldir (t : ptr) : F Z :=
  x ← get_dir t;
  with_fd (dir_fd x) 0 (fun fd => y ← get_fd fd; fd_put fd;; mret (s32 (fd_pos y - dir_num x + dir_cur x))).

Definition seekdir (t : ptr) (offset : Z) : F unit :=
  x ← get_dir t;
  with_fd (dir_fd x) tt (fun fd =>
    r ← dfs_file_lseek fd offset;
    when (0 <=? r) (upd_dir t (fun x => mk_dir (dir_fd x) (dir_buf x) 0 0));;
    fd_put fd).
Definition rewinddir (t : ptr) : F unit := seekdir t 0.

Definition closedir (t : ptr) : F Z :=
  x ← get_dir t;
  with_fd (dir_fd x) (-1) (fun fd =>
    result ← dfs_file_close fd;
    fd_put fd;; fd_put fd;;
    inK (kfree t);; modify (fun d => set_dirs (delete t (dirs d)) d);;
    if result <? 0 then failed result else mret 0).

(** ** The working directory *)

(** [strncpy(working_directory, fullpath, DFS_PATH_MAX)] *)
Definition dir_bytes (s : list Z) : list Z :=
  take (Z.to_nat DFS_PATH_MAX) (s ++ replicate (Z.to_nat DFS_PATH_MAX) 0).

Definition chdir (path : option (list Z)) : F Z :=
  match path with
  | None => dfs_lock;; dfs_unlock;; mret 0  (* the directory is printed *)
  | Some path =>
      if DFS_PATH_MAX <? Z.of_nat (length path) then failed (- DFS_STATUS_ENOTDIR)
      else
        fullpath ← dfs_normalize_path None path;
        if fullpath =? RT_NULL then failed (- DFS_STATUS_ENOTDIR)
        else
          dfs_lock;;
          text ← str_at fullpath;
          d ← opendir text;
          if d =? RT_NULL then rt_free fullpath;; dfs_unlock;; mret (-1)
          else
            closedir d;;
            modify (set_working_directory (dir_bytes text));;
            rt_free fullpath;;
            dfs_unlock;;
            mret 0
  end.

(** The first [size] bytes of the buffer *)
Definition getcwd (size : nat) : F (list Z) :=
  inK rt_enter_critical;;
  d ← get;
  w ← match cstring (working_directory d) with
      | Some w => mret (take size (w ++ replicate size 0))
      | None => opt BadPointer (if (size <=? length (working_directory d))%nat then Some (take size (working_directory d)) else None)
      end;
  inK rt_exit_critical;;
  mret w.
End posix.
