(* ===== verification/DfsTables.v ===== *)
(** * The lock, the heap and the tables of the virtual file system

    What the calls on the lock, on path names, on the table of descriptors and on the table
    of mounted file systems do, as long as the lock is free or held by the caller. *)
From stdpp Require Import base tactics numbers list gmap.
From S2P Require Import Prelude RtList KString SmallMem SmallMemCorrect Kernel Scheduler Object Timer Thread KHeap Ipc Mutex Device DfsPath Dfs.
Local Open Scope Z_scope.

Section tables.
Context `{KConfig} `{A : Allocator} `{!AllocatorLaws A} `{!DriverOps} `{!DfsConfig} {World : Type} `{!FsOps World}.
Local Abbreviation dfs := (dfs (World:=World)).

Lemma wp_dfs_inK {X} (c : K X) (Q : X -> dfs -> Prop) d :
  wp c (fun a k => Q a (set_dk k d)) (dk d) -> wp (inK c) Q d.
Proof. unfold wp, inK. by destruct (c (dk d)). Qed.

Lemma wp_inFs {X} (c : M World X) (Q : X -> dfs -> Prop) d :
  wp c (fun a w => Q a (set_dworld w d)) (dworld d) -> wp (inFs c) Q d.
Proof. unfold wp, inFs. by destruct (c (dworld d)). Qed.

(** ** The lock *)

(** The running thread [t] holds the lock [n] times, and nobody waits for it. *)
Definition lock_state (n : Z) (t : ptr) (th : rt_thread) (x : rt_mutex) : Prop :=
  mtx_hold x = n /\
  if n =? 0 then mtx_owner x = RT_NULL /\ mtx_value x = 1
  else mtx_owner x = t /\ mtx_value x = 0 /\ mtx_original_priority x = th_current_priority th.

Record locked (n : Z) (t : ptr) (k : kstate) : Prop := {
  lk_kinv : kinv ∅ k;
  lk_thread : exists th x, running k t th /\ mutexes k !! fslock = Some x /\ lock_state n t th x;
  lk_nobody : tlists k !!! LSuspend fslock = [];
  lk_ptr : fslock <> RT_NULL
}.

(** What the lock leaves alone *)
Definition same_kernel (k k' : kstate) : Prop :=
  kheap k' = kheap k /\ devices k' = devices k /\ rt_object_container k' = rt_object_container k.

#[local] Instance same_kernel_preorder : PreOrder same_kernel.
Proof. split; [done|]. intros k1 k2 k3 (? & ? & ?) (? & ? & ?). split_and!; congruence. Qed.

Lemma set_error_kinv t th e k : kinv ∅ k -> threads k !! t = Some th -> kinv ∅ (set_error t th e k).
Proof. intros Hk E. by eapply kinv_retouch. Qed.

Lemma wp_lock n t (d : dfs) (Q : unit -> dfs -> Prop) :
  locked n t (dk d) -> 0 <= n < 255 ->
  (forall k', locked (n + 1) t k' -> same_kernel (dk d) k' -> Q tt (set_dk k' d)) ->
  wp dfs_lock Q d.
Proof.
  intros [Hk (th & x & Hrun & E & Hh & Hx) Hno Hp] Hn HQ. pose proof Hrun as [Ec Et Hst Hnest Hnn].
  unfold dfs_lock. wp_step. apply wp_dfs_inK.
  unfold rt_mutex_take. wp_step. eapply in_thread_context; [done|]. wp_step. unfold nonnull. wp_step; [lia|].
  unfold rt_thread_self. do 2 wp_step. rewrite Ec. wp_step. eapply wp_upd_thread; [done|].
  fold (set_error t th RT_EOK (dk d)). set (k1 := set_error t th RT_EOK (dk d)).
  assert (kinv ∅ k1) as Hk1 by (by apply set_error_kinv).
  assert (mutexes k1 !! fslock = Some x) as E1 by done. wp_step. eapply wp_get_mutex; [done|].
  assert (threads k1 !! t = Some (set_th_error RT_EOK th)) as Et1 by apply lookup_insert_eq.
  assert (running k1 t (set_th_error RT_EOK th)) as Hrun1 by (by split).
  destruct (Z.eqb_spec (mtx_owner x) t) as [Eo|Eo].
  - destruct (Z.eqb_spec n 0) as [->|Hn0]; [by destruct Hx as [? ?]; congruence|]. destruct Hx as (_ & Ev & Ep).
    wp_step. eapply wp_upd_mutex; [done|]. wp_step. simpl. wp_step. apply HQ; [|done].
    split; [by apply (with_mutex_kinv ∅ fslock _ k1)| |done|done].
    exists (set_th_error RT_EOK th), (set_mtx_hold (u8 (mtx_hold x + 1)) x). split_and!; [by split|apply lookup_insert_eq|].
    unfold lock_state. simpl. rewrite (proj2 (Z.eqb_neq (n + 1) 0)), Hh by lia. rewrite (uwrap_small 8) by lia. done.
  - destruct (Z.eqb_spec n 0) as [->|Hn0]; [|by destruct Hx]. destruct Hx as [Eo' Ev]. rewrite Ev. change (0 <? 1) with true. cbv iota.
    wp_step. eapply wp_upd_mutex; [done|]. wp_step. eapply wp_upd_mutex; [apply lookup_insert_eq|].
    wp_step. eapply wp_get_thread; [exact Et1|]. wp_step. eapply wp_upd_mutex; [apply lookup_insert_eq|].
    wp_step. eapply wp_upd_mutex; [apply lookup_insert_eq|]. wp_step. simpl. wp_step.
    unfold set_mutexes. simpl. rewrite !insert_insert_eq. apply HQ; [|done].
    split; [| |done|done].
    + by apply (with_mutex_kinv ∅ fslock _ k1).
    + eexists (set_th_error RT_EOK th), _. split_and!; [by split|apply lookup_insert_eq|].
      unfold lock_state. simpl. rewrite Hh. done.
Qed.

Lemma wp_unlock n t (d : dfs) (Q : unit -> dfs -> Prop) :
  locked n t (dk d) -> 0 < n <= 255 ->
  (forall k', locked (n - 1) t k' -> same_kernel (dk d) k' -> Q tt (set_dk k' d)) ->
  wp dfs_unlock Q d.
Proof.
  intros [Hk (th & x & Hrun & E & Hh & Hx) Hno Hp] Hn HQ. pose proof Hrun as [Ec Et Hst Hnest Hnn].
  rewrite (proj2 (Z.eqb_neq n 0)) in Hx by lia. destruct Hx as (Eo & Ev & Ep).
  unfold dfs_unlock. wp_step. apply wp_dfs_inK.
  unfold rt_mutex_release. wp_step. eapply in_thread_context; [done|].
  unfold rt_thread_self. do 2 wp_step. rewrite Ec. wp_step. eapply wp_get_mutex; [done|].
  rewrite Eo, Z.eqb_refl. simpl (negb true). cbv zeta iota. wp_step. eapply wp_upd_mutex; [done|].
  rewrite Hh, (uwrap_small 8 (n - 1)) by lia.
  destruct (Z.eqb_spec (n - 1) 0) as [E0|E0].
  - wp_step. wp_step. eapply wp_get_thread; [exact Et|]. wp_step. rewrite Ep, Z.eqb_refl. simpl (when _ _). wp_step.
    wp_step. unfold tlist_isempty. wp_step. simpl. rewrite Hno. simpl.
    wp_step. eapply wp_upd_mutex; [apply lookup_insert_eq|]. wp_step. eapply wp_upd_mutex; [apply lookup_insert_eq|].
    wp_step. eapply wp_upd_mutex; [apply lookup_insert_eq|]. do 2 wp_step. simpl. do 3 wp_step.
    unfold set_mutexes. simpl. rewrite !insert_insert_eq. apply HQ; [|done].
    split; [by apply (with_mutex_kinv ∅ fslock _ (dk d))| |done|done].
    eexists th, _. split_and!; [by split|apply lookup_insert_eq|]. unfold lock_state. simpl. rewrite E0, Ev. done.
  - do 2 wp_step. simpl. do 3 wp_step. apply HQ; [|done].
    split; [by apply (with_mutex_kinv ∅ fslock _ (dk d))| |done|done].
    exists th, (set_mtx_hold (n - 1) x). split_and!; [by split|apply lookup_insert_eq|].
    unfold lock_state. simpl. by rewrite (proj2 (Z.eqb_neq (n - 1) 0)).
Qed.

(** ** The heap *)

(** The blocks of the file system are blocks it holds of the system heap. *)
Definition heap_inv (d : dfs) : Prop :=
  exists live, heap_ok (kheap (dk d)) live /\
    (forall p, is_Some (dstr d !! p) \/ is_Some (dirs d !! p) -> p <> RT_NULL /\ is_Some (live !! p)) /\
    (forall p, is_Some (dstr d !! p) -> dirs d !! p = None).

Definition ready (n : Z) (t : ptr) (d : dfs) : Prop := locked n t (dk d) /\ heap_inv d.

(** The kernel but for the lock and the heap, which is [h] afterwards *)
Definition heap_now (h : heap) (k k' : kstate) : Prop :=
  kheap k' = h /\ devices k' = devices k /\ rt_object_container k' = rt_object_container k.

Lemma locked_kheap n t h k : locked n t k -> locked n t (set_kheap h k).
Proof.
  intros [Hk (th & x & [? ? ? ? ?] & ? & ?) ? ?]. split; [by apply (kinv_eq ∅ k)|exists th, x; by split_and!|done|done].
Qed.

Lemma ready_lock n t (d : dfs) (Q : unit -> dfs -> Prop) :
  ready n t d -> 0 <= n < 255 ->
  (forall k', ready (n + 1) t (set_dk k' d) -> same_kernel (dk d) k' -> Q tt (set_dk k' d)) -> wp dfs_lock Q d.
Proof.
  intros [Hl (live & Hh & Hr)] Hn HQ. eapply wp_lock; [done|done|]. intros k' Hl' Hs. pose proof Hs as (E1 & E2 & E3).
  apply HQ; [|done]. split; [done|]. exists live. simpl. by rewrite E1.
Qed.

Lemma ready_unlock n t (d : dfs) (Q : unit -> dfs -> Prop) :
  ready n t d -> 0 < n <= 255 ->
  (forall k', ready (n - 1) t (set_dk k' d) -> same_kernel (dk d) k' -> Q tt (set_dk k' d)) -> wp dfs_unlock Q d.
Proof.
  intros [Hl (live & Hh & Hr)] Hn HQ. eapply wp_unlock; [done|done|]. intros k' Hl' Hs. pose proof Hs as (E1 & E2 & E3).
  apply HQ; [|done]. split; [done|]. exists live. simpl. by rewrite E1.
Qed.

(** A new block, or none *)
Lemma wp_rt_malloc n t size (d : dfs) (Q : ptr -> dfs -> Prop) :
  ready n t d -> 0 <= size <= 2 ^ 32 - 4 ->
  (forall k', (malloc size (kheap (dk d))).1 = RT_NULL -> ready n t (set_dk k' d) ->
     heap_now (malloc size (kheap (dk d))).2 (dk d) k' -> Q RT_NULL (set_dk k' d)) ->
  (forall p l k', p <> RT_NULL -> dstr d !! p = None -> dirs d !! p = None -> length l = Z.to_nat size ->
     ready n t (set_dstr (<[p := l]> (dstr d)) (set_dk k' d)) -> heap_now (malloc size (kheap (dk d))).2 (dk d) k' ->
     (malloc size (kheap (dk d))).1 = p -> Q p (set_dstr (<[p := l]> (dstr d)) (set_dk k' d))) ->
  wp (rt_malloc size) Q d.
Proof.
  intros [Hl (live & Hh & Hheld & Hdis)] Hsz HQ0 HQ1. unfold rt_malloc. wp_step. apply wp_dfs_inK. unfold kmalloc.
  do 2 wp_step. pose proof (malloc_law _ _ size Hh Hsz) as [_ Hm].
  destruct (malloc size (kheap (dk d))) as [p h]. simpl in Hm. do 2 wp_step. wp_step. wp_step.
  destruct Hm as [[-> Hok]|(Hp & _ & Hnew & Hok)].
  - simpl. do 2 wp_step. apply HQ0; [done| |done]. split; [by apply locked_kheap|]. exists live. simpl. by split_and!.
  - rewrite (proj2 (Z.eqb_neq p RT_NULL)) by done. simpl (when _ _). do 2 wp_step.
    assert (dstr d !! p = None) as E1.
    { destruct (dstr d !! p) eqn:E; [|done]. destruct (Hheld p) as [_ [? ?]]; [rewrite E; eauto|congruence]. }
    assert (dirs d !! p = None) as E2.
    { destruct (dirs d !! p) eqn:E; [|done]. destruct (Hheld p) as [_ [? ?]]; [rewrite E; eauto|congruence]. }
    apply HQ1; [done|done|done|by rewrite length_fmap, length_seq| |done|done].
    split; [by apply locked_kheap|]. exists (<[p := size]> live). simpl. split_and!; [done|..].
    + intros q Hq. destruct (decide (q = p)) as [->|Hne]; [split; [done|rewrite lookup_insert_eq; eauto]|].
      rewrite (lookup_insert_ne live) by done. rewrite lookup_insert_ne in Hq by done. by apply Hheld.
    + intros q Hq. destruct (decide (q = p)) as [->|Hne]; [done|]. rewrite lookup_insert_ne in Hq by done. by apply Hdis.
Qed.

Lemma wp_rt_free n t p l (d : dfs) (Q : unit -> dfs -> Prop) :
  ready n t d -> dstr d !! p = Some l ->
  (forall k', ready n t (set_dstr (delete p (dstr d)) (set_dk k' d)) -> heap_now (free p (kheap (dk d))) (dk d) k' ->
     Q tt (set_dstr (delete p (dstr d)) (set_dk k' d))) ->
  wp (rt_free p) Q d.
Proof.
  intros [Hl (live & Hh & Hheld & Hdis)] E HQ. destruct (Hheld p) as [Hp [m Em]]; [rewrite E; eauto|].
  unfold rt_free. rewrite (proj2 (Z.eqb_neq p RT_NULL)) by done. do 3 wp_step. eapply wp_opt; [exact E|].
  wp_step. apply wp_dfs_inK. unfold kfree. wp_step. wp_step. apply HQ; [|done].
  split; [by apply locked_kheap|]. destruct (free_law _ _ p m Hh Em) as [_ Hok].
  exists (delete p live). simpl. split_and!; [done|..].
  - intros q Hq. destruct (decide (q = p)) as [->|Hne].
    + rewrite lookup_delete_eq in Hq. destruct Hq as [[? ?]|[? Hq]]; [done|].
      rewrite Hdis in Hq; [done|]. rewrite E. eauto.
    + rewrite lookup_delete_ne by done. apply Hheld. by rewrite lookup_delete_ne in Hq.
  - intros q Hq. apply Hdis. destruct (decide (q = p)) as [->|Hne]; [rewrite E; eauto|]. by rewrite lookup_delete_ne in Hq.
Qed.

(** The block at [p] holds the C string [s]. *)
Definition text_in (b : gmap ptr (list Z)) (p : ptr) (s : list Z) : Prop := exists l, b !! p = Some l /\ cstring l = Some s.
Definition text_at (d : dfs) : ptr -> list Z -> Prop := text_in (dstr d).

Lemma wp_str_at (d : dfs) p s (Q : list Z -> dfs -> Prop) : text_at d p s -> Q s d -> wp (str_at p) Q d.
Proof.
  intros (l & E & Es) HQ. unfold str_at. do 3 wp_step. eapply wp_opt; [exact E|]. by eapply wp_opt.
Qed.

Lemma wp_inBlock {X} p l (c : M (list Z) X) (Q : X -> dfs -> Prop) d :
  dstr d !! p = Some l -> wp c (fun a l' => Q a (set_dstr (<[p := l']> (dstr d)) d)) l -> wp (inBlock p c) Q d.
Proof. intros E HQ. unfold wp, inBlock in *. rewrite E. by destruct (c l). Qed.

Lemma wp_put_str p l s (Q : unit -> dfs -> Prop) d :
  dstr d !! p = Some l -> (length s < length l)%nat ->
  Q tt (set_dstr (<[p := s ++ 0 :: drop (S (length s)) l]> (dstr d)) d) -> wp (put_str p s) Q d.
Proof.
  intros E Hs HQ. unfold put_str. eapply wp_inBlock; [exact E|]. do 3 wp_step.
  destruct (lookup_lt_is_Some_2 l (length s)) as [c Ec]; [lia|]. eapply wp_opt; [exact Ec|]. by wp_step.
Qed.

(** The contents of a block change. *)
Lemma ready_block n t p l l' (d : dfs) :
  ready n t (set_dstr (<[p := l]> (dstr d)) d) -> ready n t (set_dstr (<[p := l']> (dstr d)) d).
Proof.
  intros [Hl (live & Hh & Hheld & Hdis)]. split; [done|]. exists live. simpl in *. split_and!; [done|..].
  - intros q Hq. apply Hheld. destruct (decide (q = p)) as [->|Hne]; [left; rewrite lookup_insert_eq; eauto|].
    by rewrite lookup_insert_ne in *.
  - intros q Hq. apply Hdis. destruct (decide (q = p)) as [->|Hne]; [rewrite lookup_insert_eq; eauto|].
    by rewrite lookup_insert_ne in *.
Qed.

(** ** Path names *)

(** The text [dfs_normalize_path] starts from: an absolute path as it is, another one
    behind the working directory [w] *)
Definition full_text (w filename : list Z) : list Z :=
  match filename with c :: _ => if c =? SLASH then filename else dfs_join w filename | [] => dfs_join w [] end.

(** A path the code can work on: it fits a block, and does not end above the root. *)
Record path_ok (w filename : list Z) : Prop := {
  po_chars : Forall (fun c => c <> 0) (full_text w filename);
  po_size : Z.of_nat (length (full_text w filename)) + 1 <= 2 ^ 32 - 4;
  po_inside : resolve (full_text w filename) <> Some []
}.

(** The two ways a block with the text is made *)
Lemma wp_full_text n t w filename (d : dfs) (Q : ptr -> dfs -> Prop) :
  ready n t d -> Z.of_nat (length (full_text w filename)) + 1 <= 2 ^ 32 - 4 ->
  (forall k', (malloc (Z.of_nat (length (full_text w filename)) + 1) (kheap (dk d))).1 = RT_NULL ->
     ready n t (set_dk k' d) -> Q RT_NULL (set_dk k' d)) ->
  (forall p T k', p <> RT_NULL -> dstr d !! p = None -> dirs d !! p = None ->
     ready n t (set_dstr (<[p := full_text w filename ++ 0 :: T]> (dstr d)) (set_dk k' d)) ->
     heap_now (malloc (Z.of_nat (length (full_text w filename)) + 1) (kheap (dk d))).2 (dk d) k' ->
     (malloc (Z.of_nat (length (full_text w filename)) + 1) (kheap (dk d))).1 = p -> Q p (set_dstr (<[p := full_text w filename ++ 0 :: T]> (dstr d)) (set_dk k' d))) ->
  wp (if negb match filename with c :: _ => c =? SLASH | [] => false end then
        p ← rt_malloc (u32 (Z.of_nat (length w) + Z.of_nat (length filename) + 2));
        if p =? RT_NULL then mret RT_NULL else put_str p (dfs_join w filename);; mret p
      else rt_strdup filename) Q d.
Proof.
  intros Hr Hsz HQ0 HQ1.
  assert (forall text (d' : dfs) p l k', p <> RT_NULL -> dstr d !! p = None -> dirs d !! p = None ->
    text = full_text w filename -> length l = S (length text) ->
    heap_now (malloc (Z.of_nat (length (full_text w filename)) + 1) (kheap (dk d))).2 (dk d) k' ->
    (malloc (Z.of_nat (length (full_text w filename)) + 1) (kheap (dk d))).1 = p -> d' = set_dstr (<[p := l]> (dstr d)) (set_dk k' d) -> ready n t d' ->
    wp (if p =? RT_NULL then mret RT_NULL else put_str p text;; mret p) Q d') as Hput.
  { intros text d' p l k' Hp E1 E2 -> Hlen Hk Hat -> Hr'. rewrite (proj2 (Z.eqb_neq p RT_NULL)) by done. wp_step.
    eapply wp_put_str; [apply lookup_insert_eq|lia|]. wp_step. simpl. rewrite insert_insert_eq.
    apply HQ1; [done|done|done| |done|done]. eapply (ready_block n t p l _ (set_dk k' d)). exact Hr'. }
  assert (negb match filename with c :: _ => c =? SLASH | [] => false end = true -> full_text w filename = dfs_join w filename) as Hrel
    by (destruct filename as [|c filename]; simpl; [done|by destruct (c =? SLASH)]).
  assert (negb match filename with c :: _ => c =? SLASH | [] => false end = false -> full_text w filename = filename) as Habs
    by (destruct filename as [|c filename]; simpl; [done|by destruct (c =? SLASH)]).
  destruct (negb _).
  - specialize (Hrel eq_refl). rewrite Hrel in Hsz, Hput, HQ0.
    assert (Z.of_nat (length w) + Z.of_nat (length filename) + 2 = Z.of_nat (length (dfs_join w filename)) + 1) as ->
      by (unfold dfs_join; rewrite length_app; simpl; lia).
    rewrite (uwrap_small 32) by lia. wp_step. eapply (wp_rt_malloc n t); [done|lia|..].
    + intros k' Hno Hk Hd. simpl. wp_step. by apply HQ0.
    + intros p l k' Hp E1 E2 Hlen Hk Hd Hat. eapply Hput; try done. rewrite Hlen. lia.
  - specialize (Habs eq_refl). rewrite Habs in Hsz, Hput, HQ0. unfold rt_strdup. rewrite (uwrap_small 32) by lia.
    wp_step. eapply (wp_rt_malloc n t); [done|lia|..].
    + intros k' Hno Hk Hd. simpl. wp_step. by apply HQ0.
    + intros p l k' Hp E1 E2 Hlen Hk Hd Hat. eapply Hput; try done. rewrite Hlen. lia.
Qed.

(** [dfs_normalize_path]: no memory, a path that climbs over its start, or a new block with
    the text of where the path leads *)
Lemma wp_normalize_path n t w filename (d : dfs) (Q : ptr -> dfs -> Prop) :
  using_workdir = true -> cstring (working_directory d) = Some w -> ready n t d -> path_ok w filename ->
  (forall k', (malloc (Z.of_nat (length (full_text w filename)) + 1) (kheap (dk d))).1 = RT_NULL \/
     resolve (full_text w filename) = None -> ready n t (set_dk k' d) -> Q RT_NULL (set_dk k' d)) ->
  (forall p l k' st, p <> RT_NULL -> dstr d !! p = None -> dirs d !! p = None ->
     resolve (full_text w filename) = Some st -> cstring l = Some (render st) ->
     ready n t (set_dstr (<[p := l]> (dstr d)) (set_dk k' d)) ->
     heap_now (malloc (Z.of_nat (length (full_text w filename)) + 1) (kheap (dk d))).2 (dk d) k' ->
     (malloc (Z.of_nat (length (full_text w filename)) + 1) (kheap (dk d))).1 = p -> Q p (set_dstr (<[p := l]> (dstr d)) (set_dk k' d))) ->
  wp (dfs_normalize_path None filename) Q d.
Proof.
  intros Hw Ew Hr [Hnz Hsz Hin] HQ0 HQ1. unfold dfs_normalize_path. do 2 wp_step. rewrite Hw. wp_step. wp_step.
  eapply wp_opt; [exact Ew|]. wp_step. cbv zeta iota.
  wp_step. simpl (default [] (Some w)).
  eapply (wp_full_text n t); [done|done|..].
  - intros k' Hno Hk. rewrite Z.eqb_refl. wp_step. apply HQ0; [by left|done].
  - intros p T k' Hp E1 E2 Hk Hd Hat. rewrite (proj2 (Z.eqb_neq p RT_NULL)) by done. wp_step.
    eapply wp_inBlock; [apply lookup_insert_eq|].
    pose proof (normalize_block_spec (full_text w filename) T Hnz) as Hn. unfold normalized in Hn.
    destruct (resolve (full_text w filename)) as [[|s st]|] eqn:Er; [done|..].
    + destruct Hn as (l & El & Ec). eapply ok_wp; [exact El|]. simpl. wp_step. simpl. rewrite insert_insert_eq.
      eapply HQ1; [done|done|done|reflexivity|done| |done|done].
      eapply (ready_block n t p _ _ (set_dk k' d)). exact Hk.
    + destruct Hn as (l & El). eapply ok_wp; [exact El|]. simpl. wp_step. simpl. rewrite insert_insert_eq.
      eapply (wp_rt_free n t); [|apply lookup_insert_eq|].
      { eapply (ready_block n t p _ _ (set_dk k' d)). exact Hk. }
      intros k2 Hk2 Hd2. simpl in *. rewrite delete_insert_id in * by done. wp_step. apply (HQ0 k2); [by right|].
      destruct d. exact Hk2.
Qed.

(** C12: [dfs_normalize_path] on a path that stays inside the root, the code built with
    DFS_USING_WORKDIR: it returns RT_NULL exactly when the heap has no block for the
    text, and then changes no text; otherwise it returns a new block that holds the
    canonical text of the directory the path leads to, behind the working directory when
    it is relative.  No byte outside the block is touched, and the canonical text leads
    to the same directory again. *)
Theorem dfs_normalize_path_correct n t w filename st (d : dfs) :
  using_workdir = true -> cstring (working_directory d) = Some w -> ready n t d ->
  Forall (fun c => c <> 0) (full_text w filename) -> Z.of_nat (length (full_text w filename)) + 1 <= 2 ^ 32 - 4 ->
  inside (full_text w filename) st ->
  exists p d', dfs_normalize_path None filename d = Ok p d' /\ ready n t d' /\ inside (canonical st) st /\
    if decide ((malloc (Z.of_nat (length (full_text w filename)) + 1) (kheap (dk d))).1 = RT_NULL)
    then p = RT_NULL /\ dstr d' = dstr d
    else p <> RT_NULL /\ dstr d !! p = None /\
      exists l, dstr d' = <[p := l]> (dstr d) /\ cstring l = Some (canonical st).
Proof.
  intros Hw Ew Hr Hnz Hsz Hin. pose proof (inside_resolve _ _ Hin) as Er.
  assert (path_ok w filename) as Hp by (split; [done|done|rewrite Er; by destruct st]).
  assert (inside (canonical st) st) as Hc by (by eapply inside_canonical, inside_proper).
  assert (wp (dfs_normalize_path None filename) (fun p d' => ready n t d' /\
    if decide ((malloc (Z.of_nat (length (full_text w filename)) + 1) (kheap (dk d))).1 = RT_NULL)
    then p = RT_NULL /\ dstr d' = dstr d
    else p <> RT_NULL /\ dstr d !! p = None /\ exists l, dstr d' = <[p := l]> (dstr d) /\ cstring l = Some (canonical st)) d) as Hwp.
  { eapply (wp_normalize_path n t); [done|exact Ew|exact Hr|exact Hp|..].
    - intros k' Hno Hk. split; [exact Hk|]. destruct Hno as [Hno|Hno]; [|congruence]. by rewrite decide_True.
    - intros p l k' st' Hp0 E1 _ Er' El Hk _ Hat. split; [exact Hk|]. rewrite decide_False by (by rewrite Hat). rewrite Er in Er'. simplify_eq.
      split_and!; [done|done|]. by exists l. }
  destruct (wp_ok _ _ _ Hwp) as (p & d' & E & ? & ?). exists p, d'. by split_and!.
Qed.

(** ** Mounted file systems *)

(** The file system at entry [i] is mounted on the path [m]. *)
Definition mounted (d : dfs) (i : nat) (m : list Z) : Prop :=
  exists x, filesystem_table d !! i = Some x /\ fs_path x <> RT_NULL /\ fs_ops x <> RT_NULL /\ text_at d (fs_path x) m.

Definition mounts_ok (d : dfs) : Prop :=
  length (filesystem_table d) = DFS_FILESYSTEMS_MAX /\
  forall i x, filesystem_table d !! i = Some x -> fs_path x <> RT_NULL -> fs_ops x <> RT_NULL ->
    exists m, text_at d (fs_path x) m.

(** The file system a path belongs to: of the mount points that cover it, a longest one *)
Definition belongs (d : dfs) (path : list Z) (r : option nat) : Prop :=
  match r with
  | Some i => exists m, mounted d i m /\ covers m path /\
      forall j m', mounted d j m' -> covers m' path -> (length m' <= length m)%nat
  | None => forall j m', mounted d j m' -> ~ covers m' path
  end.

(** The same for the entries below [n], with the length of the mount point *)
Definition best (d : dfs) (path : list Z) (n : nat) (acc : option nat * Z) : Prop :=
  match acc.1 with
  | Some i => exists m, mounted d i m /\ covers m path /\ acc.2 = Z.of_nat (length m) /\
      forall j m', (j < n)%nat -> mounted d j m' -> covers m' path -> (length m' <= length m)%nat
  | None => acc.2 = 0 /\ forall j m', (j < n)%nat -> mounted d j m' -> ~ covers m' path
  end.

Lemma mounted_fun (d : dfs) i m m' : mounted d i m -> mounted d i m' -> m = m'.
Proof. intros (x & E & _ & _ & l & El & Ec) (x' & E' & _ & _ & l' & El' & Ec'). congruence. Qed.

Lemma best_skip (d : dfs) path n acc :
  best d path n acc -> (forall m, mounted d n m -> covers m path -> Z.of_nat (length m) < acc.2) ->
  best d path (S n) acc.
Proof.
  unfold best. destruct acc as [[i|] len]; simpl; intros Hb Hn.
  - destruct Hb as (m & Hm & Hc & -> & Hall). exists m. split_and!; try done. intros j m' Hj Hm' Hc'.
    destruct (decide (j = n)) as [->|]; [specialize (Hn m' Hm' Hc'); lia|]. apply (Hall j); [lia|done|done].
  - destruct Hb as [-> Hall]. split; [done|]. intros j m' Hj Hm' Hc'.
    destruct (decide (j = n)) as [->|]; [specialize (Hn m' Hm' Hc'); lia|]. apply (Hall j m'); [lia|done|done].
Qed.

Lemma best_take (d : dfs) path n acc m :
  best d path n acc -> mounted d n m -> covers m path -> acc.2 <= Z.of_nat (length m) ->
  best d path (S n) (Some n, Z.of_nat (length m)).
Proof.
  unfold best. simpl. intros Hb Hm Hc Hle. exists m. split_and!; try done. intros j m' Hj Hm' Hc'.
  destruct (decide (j = n)) as [->|]; [by rewrite (mounted_fun d n m m')|].
  destruct acc as [[i|] len]; simpl in *.
  - destruct Hb as (m0 & _ & _ & -> & Hall). specialize (Hall j m' ltac:(lia) Hm' Hc'). lia.
  - destruct Hb as [_ Hall]. by destruct (Hall j m' ltac:(lia) Hm').
Qed.

Lemma lookup_step_spec (d : dfs) path n acc :
  mounts_ok d -> (n < DFS_FILESYSTEMS_MAX)%nat -> best d path n acc ->
  wp (lookup_step path n acc) (fun acc' d' => d' = d /\ best d path (S n) acc') d.
Proof.
  intros [Hlen Htxt] Hn Hb. destruct (lookup_lt_is_Some_2 (filesystem_table d) n) as [x E]; [lia|].
  unfold lookup_step, get_fs. do 3 wp_step. eapply wp_opt; [exact E|].
  destruct (Z.eqb_spec (fs_path x) RT_NULL) as [E1|E1]; simpl.
  { wp_step. split; [done|]. apply best_skip; [done|]. intros m (x' & E' & ? & _). congruence. }
  destruct (Z.eqb_spec (fs_ops x) RT_NULL) as [E2|E2]; simpl.
  { wp_step. split; [done|]. apply best_skip; [done|]. intros m (x' & E' & _ & ? & _). congruence. }
  destruct (Htxt n x E E1 E2) as [m Hm]. wp_step. eapply wp_str_at; [exact Hm|]. cbv zeta.
  assert (mounted d n m) as Hmt by (by exists x).
  destruct (Z.ltb_spec (Z.of_nat (length m)) acc.2) as [Hlt|Hge]; simpl.
  { wp_step. split; [done|]. apply best_skip; [done|]. intros m' Hm'. by rewrite (mounted_fun d n m' m). }
  case_bool_decide as Et; simpl.
  2:{ wp_step. split; [done|]. apply best_skip; [done|]. intros m' Hm' [Hc _]. rewrite (mounted_fun d n m' m) in Hc by done. done. }
  destruct ((1 <? Z.of_nat (length m)) && (Z.of_nat (length m) <? Z.of_nat (length path)) &&
            negb (bool_decide (path !! length m = Some SLASH))) eqn:Ec.
  - apply andb_prop in Ec as [[Ha Hb']%andb_prop Hc%negb_true_iff]. apply bool_decide_eq_false in Hc.
    wp_step. split; [done|]. apply best_skip; [done|]. intros m' Hm' [_ Hcov].
    rewrite (mounted_fun d n m' m) in Hcov by done. exfalso. destruct Hcov as [?|[?|?]]; [lia|lia|done].
  - wp_step. split; [done|]. eapply best_take; [done|done| |done]. split; [done|].
    apply andb_false_iff in Ec as [[Ec|Ec]%andb_false_iff|Ec%negb_false_iff]; [left; lia|right; left; lia|].
    right. right. by apply bool_decide_eq_true in Ec.
Qed.

Lemma lookup_loop_spec (d : dfs) path k n acc :
  mounts_ok d -> (k + n = DFS_FILESYSTEMS_MAX)%nat -> best d path n acc ->
  wp (lookup_loop path k n acc) (fun acc' d' => d' = d /\ best d path DFS_FILESYSTEMS_MAX acc') d.
Proof.
  intros Hm. revert n acc. induction k as [|k IH]; intros n acc Hk Hb; simpl.
  - wp_step. split; [done|]. by replace DFS_FILESYSTEMS_MAX with n by lia.
  - wp_step. eapply wp_mono; [apply lookup_step_spec; [done|lia|done]|]. intros acc' d' [-> Hb']. apply IH; [lia|done].
Qed.

Lemma wp_lookup n t path (d : dfs) (Q : option nat -> dfs -> Prop) :
  ready n t d -> 0 <= n < 255 -> mounts_ok d ->
  (forall r k', ready n t (set_dk k' d) -> same_kernel (dk d) k' -> belongs d path r -> Q r (set_dk k' d)) ->
  wp (dfs_filesystem_lookup path) Q d.
Proof.
  intros Hr Hn Hm HQ. unfold dfs_filesystem_lookup. wp_step. eapply ready_lock; [done|done|]. intros k1 Hr1 Hd1.
  assert (mounts_ok (set_dk k1 d)) as Hm1 by (by destruct Hm).
  wp_step. eapply wp_mono; [apply lookup_loop_spec; [done|lia|]|].
  { split; [done|]. intros j m Hj. lia. }
  intros acc d' [-> Hb]. wp_step. eapply ready_unlock; [exact Hr1|lia|]. intros k2 Hr2 Hd2. wp_step.
  replace (n + 1 - 1) with n in Hr2 by lia. apply (HQ acc.1 k2); [exact Hr2|by etrans|].
  assert (forall j m', mounted d j m' -> (j < DFS_FILESYSTEMS_MAX)%nat) as Hbound.
  { intros j m' (x & E & _). apply lookup_lt_Some in E. rewrite (proj1 Hm) in E. done. }
  unfold best, belongs in *. destruct acc.1 as [i|].
  - destruct Hb as (m & H1' & H2' & _ & Hall). exists m. split_and!; [done|done|]. intros j m' Hm'. apply (Hall j); [eauto|done].
  - destruct Hb as [_ Hall]. intros j m' Hm'. apply (Hall j); [eauto|done].
Qed.

(** ** Descriptors *)

Lemma wp_get_fd i x (d : dfs) (Q : dfs_fd -> dfs -> Prop) :
  fd_table d !! i = Some x -> Q x d -> wp (get_fd (FdTable i)) Q d.
Proof. intros E HQ. unfold get_fd. do 2 wp_step. by eapply wp_opt. Qed.

Lemma wp_upd_fd i x f (d : dfs) (Q : unit -> dfs -> Prop) :
  fd_table d !! i = Some x -> Q tt (set_fd_table (<[i := f x]> (fd_table d)) d) -> wp (upd_fd (FdTable i) f) Q d.
Proof. intros E HQ. unfold upd_fd. wp_step. eapply wp_get_fd; [done|]. by wp_step. Qed.

Lemma find_fd_spec l n :
  (find_fd l n = (n + length l)%nat /\ Forall (fun x => 0 < fd_ref_count x) l) \/
  exists i x, find_fd l n = (n + i)%nat /\ l !! i = Some x /\ fd_ref_count x <= 0.
Proof.
  revert n. induction l as [|x l IH]; intros n; simpl; [left; split; [lia|done]|].
  destruct (Z.ltb_spec 0 (fd_ref_count x)).
  - destruct (IH (S n)) as [[-> Hf]|(i & y & -> & Hi & Hy)].
    + left. split; [lia|]. by apply Forall_cons.
    + right. exists (S i), y. split_and!; [lia|done|done].
  - right. exists 0%nat, x. split_and!; [lia|done|done].
Qed.

(** The table is full, or its first free entry is taken. *)
Lemma wp_fd_new n t (d : dfs) (Q : Z -> dfs -> Prop) :
  ready n t d -> 0 <= n < 255 -> length (fd_table d) = (fd_base + DFS_FD_MAX)%nat ->
  (forall k', ready n t (set_dk k' d) -> same_kernel (dk d) k' ->
     (forall i x, (fd_base <= i)%nat -> fd_table d !! i = Some x -> 0 < fd_ref_count x) -> Q (-1) (set_dk k' d)) ->
  (forall i x k', (fd_base <= i)%nat -> fd_table d !! i = Some x -> fd_ref_count x <= 0 ->
     ready n t (set_dk k' d) -> same_kernel (dk d) k' ->
     Q (Z.of_nat i) (set_fd_table (<[i := set_fd_magic DFS_FD_MAGIC (set_fd_ref 1 x)]> (fd_table d)) (set_dk k' d))) ->
  wp fd_new Q d.
Proof.
  intros Hr Hn Hlen HQ0 HQ1. unfold fd_new. wp_step. eapply ready_lock; [done|done|]. intros k1 Hr1 Hk1.
  do 2 wp_step. cbv zeta. simpl fd_table.
  destruct (find_fd_spec (drop fd_base (fd_table d)) fd_base) as [[-> Hf]|(i & x & -> & Hi & Hx)].
  - rewrite length_drop, Hlen. rewrite (proj2 (Nat.eqb_eq _ _)) by lia. wp_step.
    eapply ready_unlock; [exact Hr1|lia|]. intros k2 Hr2 Hk2. wp_step. replace (n + 1 - 1) with n in Hr2 by lia.
    apply (HQ0 k2); [exact Hr2|by etrans|]. intros i x Hi Ex.
    apply (Forall_lookup_1 _ _ (i - fd_base) x Hf). rewrite lookup_drop, <- Ex. f_equal. lia.
  - rewrite lookup_drop in Hi. pose proof (lookup_lt_Some _ _ _ Hi) as Hlt.
    rewrite (proj2 (Nat.eqb_neq _ _)) by lia. wp_step. eapply wp_upd_fd; [exact Hi|]. wp_step.
    eapply wp_upd_fd; [simpl; by apply list_lookup_insert_eq|]. simpl. rewrite list_insert_insert_eq. wp_step.
    eapply (ready_unlock (n + 1) t); [exact Hr1|lia|]. intros k2 Hr2 Hk2. wp_step. replace (n + 1 - 1) with n in Hr2 by lia.
    apply (HQ1 _ x k2); [lia|done|done|exact Hr2|by etrans].
Qed.

Lemma wp_fd_get n t i x (d : dfs) (Q : option fdp -> dfs -> Prop) :
  ready n t d -> 0 <= n < 255 -> (fd_base <= i < fd_base + DFS_FD_MAX)%nat -> fd_table d !! i = Some x ->
  fd_magic x = DFS_FD_MAGIC ->
  (forall k', ready n t (set_dk k' d) -> same_kernel (dk d) k' ->
     Q (Some (FdTable i)) (set_fd_table (<[i := set_fd_ref (fd_ref_count x + 1) x]> (fd_table d)) (set_dk k' d))) ->
  wp (fd_get (Z.of_nat i)) Q d.
Proof.
  intros Hr Hn Hi E Hm HQ. unfold fd_get.
  rewrite (proj2 (Z.ltb_ge _ _)), (proj2 (Z.leb_gt _ _)) by lia. simpl. wp_step.
  eapply ready_lock; [done|done|]. intros k1 Hr1 Hk1. wp_step. rewrite Nat2Z.id.
  eapply wp_get_fd; [exact E|]. rewrite Hm, Z.eqb_refl. simpl. wp_step. eapply wp_upd_fd; [exact E|].
  wp_step. eapply (ready_unlock (n + 1) t); [exact Hr1|lia|]. intros k2 Hr2 Hk2. wp_step.
  replace (n + 1 - 1) with n in Hr2 by lia. apply (HQ k2); [exact Hr2|by etrans].
Qed.

(** Not a descriptor: outside the table, or not open *)
Lemma wp_fd_get_bad n t fd (d : dfs) (Q : option fdp -> dfs -> Prop) :
  ready n t d -> 0 <= n < 255 -> length (fd_table d) = (fd_base + DFS_FD_MAX)%nat ->
  (forall i x, fd = Z.of_nat i -> (fd_base <= i)%nat -> fd_table d !! i = Some x -> fd_magic x <> DFS_FD_MAGIC) ->
  (forall k', ready n t (set_dk k' d) -> same_kernel (dk d) k' -> Q None (set_dk k' d)) ->
  wp (fd_get fd) Q d.
Proof.
  intros Hr Hn Hlen Hbad HQ. unfold fd_get.
  destruct (Z.ltb_spec fd (Z.of_nat fd_base)); [simpl; wp_step; replace d with (set_dk (dk d) d) by (by destruct d); by apply HQ; destruct d|].
  destruct (Z.leb_spec (Z.of_nat (fd_base + DFS_FD_MAX)) fd);
    [simpl; wp_step; replace d with (set_dk (dk d) d) by (by destruct d); by apply HQ; destruct d|].
  simpl. wp_step. eapply ready_lock; [done|done|]. intros k1 Hr1 Hk1. wp_step.
  destruct (lookup_lt_is_Some_2 (fd_table d) (Z.to_nat fd)) as [x E]; [lia|].
  eapply wp_get_fd; [exact E|]. rewrite (proj2 (Z.eqb_neq _ _)) by (eapply (Hbad (Z.to_nat fd)); [lia|lia|done]).
  simpl. wp_step. eapply (ready_unlock (n + 1) t); [exact Hr1|lia|]. intros k2 Hr2 Hk2. wp_step.
  replace (n + 1 - 1) with n in Hr2 by lia. apply (HQ k2); [exact Hr2|by etrans].
Qed.

(** The entry with one reference less; the last one clears it. *)
Definition released (x : dfs_fd) : dfs_fd :=
  if fd_ref_count x - 1 =? 0 then zero_fd else set_fd_ref (fd_ref_count x - 1) x.

Lemma wp_fd_put n t i x (d : dfs) (Q : unit -> dfs -> Prop) :
  ready n t d -> 0 <= n < 255 -> fd_table d !! i = Some x ->
  (forall k', ready n t (set_dk k' d) -> same_kernel (dk d) k' ->
     Q tt (set_fd_table (<[i := released x]> (fd_table d)) (set_dk k' d))) ->
  wp (fd_put (FdTable i)) Q d.
Proof.
  intros Hr Hn E HQ. unfold fd_put. pose proof (lookup_lt_Some _ _ _ E) as Hlt.
  wp_step. eapply ready_lock; [done|done|]. intros k1 Hr1 Hk1. wp_step.
  eapply wp_upd_fd; [exact E|]. simpl. wp_step. eapply wp_get_fd; [simpl; by apply list_lookup_insert_eq|]. wp_step.
  apply wp_when; intros Hz; simpl in Hz.
  - eapply wp_upd_fd; [simpl; by apply list_lookup_insert_eq|]. simpl. rewrite list_insert_insert_eq.
    eapply (ready_unlock (n + 1) t); [exact Hr1|lia|]. intros k2 Hr2 Hk2.
    replace (n + 1 - 1) with n in Hr2 by lia. specialize (HQ k2). unfold released in HQ. rewrite Hz in HQ.
    apply HQ; [exact Hr2|by etrans].
  - eapply (ready_unlock (n + 1) t); [exact Hr1|lia|]. intros k2 Hr2 Hk2.
    replace (n + 1 - 1) with n in Hr2 by lia. specialize (HQ k2). unfold released in HQ. rewrite Hz in HQ.
    apply HQ; [exact Hr2|by etrans].
Qed.
End tables.
