(* ===== verification/DfsOpen.v ===== *)
(** * Open files

    The table of descriptors as a finite map from descriptors to open files, and what the
    calls that open, close and use a descriptor make of it. *)
From stdpp Require Import base tactics numbers list gmap.
From S2P Require Import Prelude RtList KString SmallMem SmallMemCorrect Kernel Scheduler Object Timer Thread KHeap Ipc Mutex Device DfsPath Dfs DfsFile DfsPosix DfsTables.
Local Open Scope Z_scope.

(** An open file: its file system, its path there, and the part of the file system *)
Record file := mk_file { f_fs : nat; f_name : list Z; f_type : Z; f_part : fd_part }.
Definition set_f_part (v : fd_part) (f : file) : file := mk_file (f_fs f) (f_name f) (f_type f) v.

(** A free entry, as [rt_memset] and the calls of [fd_put] behind it leave it *)
Definition cleared (x : dfs_fd) : Prop := exists r, r <= 0 /\ x = set_fd_ref r zero_fd.

(** The entry of the table that has just been written *)
Local Ltac fd_entry := simpl; apply list_lookup_insert_eq; by rewrite ?length_insert.

Section open.
Context `{KConfig} `{A : Allocator} `{!AllocatorLaws A} `{!DriverOps} `{!DfsConfig} {World : Type} `{!FsOps World}.
Local Abbreviation dfs := (dfs (World:=World)).

Record describes (b : gmap ptr (list Z)) (x : dfs_fd) (f : file) : Prop := {
  ds_magic : fd_magic x = DFS_FD_MAGIC;
  ds_ref : 1 <= fd_ref_count x;
  ds_fs : fd_fs x = Some (f_fs f);
  ds_type : fd_type x = f_type f;
  ds_part : part_of x = f_part f;
  ds_name : text_in b (fd_path x) (f_name f)
}.

(** [T]: the open files; [w]: the working directory; the lock is held [n] times. *)
Record vfs (n : Z) (t : ptr) (d : dfs) (w : list Z) (T : gmap nat file) : Prop := {
  v_ready : ready n t d;
  v_mounts : mounts_ok d;
  v_canonical : forall i m, mounted d i m -> exists a, Forall proper a /\ m = canonical a;
  v_workdir : cstring (working_directory d) = Some w;
  v_length : length (fd_table d) = (fd_base + DFS_FD_MAX)%nat;
  v_open : forall i f, T !! i = Some f -> (fd_base <= i)%nat /\ (exists m, mounted d (f_fs f) m) /\
    exists x, fd_table d !! i = Some x /\ describes (dstr d) x f;
  v_closed : forall i x, (fd_base <= i)%nat -> T !! i = None -> fd_table d !! i = Some x -> cleared x;
  v_apart : forall i j x y, is_Some (T !! i) -> is_Some (T !! j) -> i <> j ->
    fd_table d !! i = Some x -> fd_table d !! j = Some y -> fd_path x <> fd_path y;
  v_mount_apart : forall i x j y, is_Some (T !! i) -> fd_table d !! i = Some x ->
    filesystem_table d !! j = Some y -> fs_path y <> RT_NULL -> fs_ops y <> RT_NULL -> fs_path y <> fd_path x
}.

(** The two allocations of a successful [dfs_file_open]: the second one is not checked by
    the code. *)
Definition memory_for (d : dfs) (text : list Z) : Prop := forall n : nat, (n <= length text)%nat ->
  (malloc (Z.of_nat n + 1) (malloc (Z.of_nat (length text) + 1) (kheap (dk d))).2).1 <> RT_NULL.

(** The functions of the mounted file systems return, for names that may be opened. *)
Definition open_returns (may : nat -> list Z -> Prop) (d : dfs) : Prop := forall j y op name x,
  may j name -> filesystem_table d !! j = Some y -> fs_ops y <> RT_NULL -> op_open (fs_ops y) = Some op -> fd_fs x = Some j ->
  exists r v w', op y name x (dworld d) = Ok (r, v) w'.

(** Why a file system does not open [name]: it has no function for it, or that function
    returns the error [r]. *)
Definition refused (y : dfs_filesystem) (name : list Z) (x : dfs_fd) (r : Z) (wd w' : World) : Prop :=
  match op_open (fs_ops y) with
  | None => w' = wd
  | Some op => exists v, op y name x wd = Ok (r, v) w'
  end.

(** What the descriptor [i] becomes: a file of the file system [j] *)
Definition opened_fd (j : nat) (q : ptr) (flags : Z) (v : fd_part) (x : dfs_fd) : dfs_fd :=
  let dir := negb (Z.land flags DFS_O_DIRECTORY =? 0) in
  mk_fd (fd_magic x) (if dir then FT_DIRECTORY else FT_REGULAR) q (fd_ref_count x) (Some j)
    (if dir then Z.lor (Z.lor (pt_flags v) DFS_F_OPEN) DFS_F_DIRECTORY else Z.lor (pt_flags v) DFS_F_OPEN)
    (pt_size v) (pt_pos v) (pt_data v).

(** ** [dfs_file_open] *)

Lemma wp_dfs_subdir m text (d : dfs) (Q : option (list Z) -> dfs -> Prop) :
  covers m text ->
  (forall r, default [SLASH] r = below_text m text -> Q r d) -> wp (dfs_subdir m text) Q d.
Proof.
  intros [Ht _] HQ. unfold dfs_subdir. unfold below_text in HQ.
  destruct (Nat.eqb_spec (length m) (length text)) as [El|El]; [wp_step; by apply HQ|].
  assert (length m < length text)%nat as Hlt.
  { assert (length (take (length m) text) = length m) as E by (by rewrite Ht). rewrite length_take in E. lia. }
  destruct (lookup_lt_is_Some_2 text (length m) Hlt) as [c Ec].
  wp_step. eapply wp_opt; [by rewrite lookup_app_l|]. wp_step. apply HQ. simpl. rewrite Ec.
  destruct (Z.eqb_spec c SLASH) as [->|Hc]; simpl; [done|].
  rewrite bool_decide_eq_false_2 by congruence. simpl. by destruct (length m =? 0)%nat.
Qed.

(** The path a file system is given *)
Definition fs_name (y : dfs_filesystem) (m text : list Z) : list Z :=
  if Z.land (op_flags (fs_ops y)) DFS_FS_FLAG_FULLPATH =? 0 then below_text m text else text.

Lemma wp_call_fd i x j y op r v w' (d : dfs) (Q : Z -> dfs -> Prop) :
  fd_table d !! i = Some x -> fd_fs x = Some j -> filesystem_table d !! j = Some y ->
  op y x (dworld d) = Ok (r, v) w' ->
  Q r (set_fd_table (<[i := set_part v x]> (fd_table d)) (set_dworld w' d)) ->
  wp (call_fd (FdTable i) op) Q d.
Proof.
  intros E Ej Ey Eop HQ. unfold call_fd, fs_of, get_fs. do 2 wp_step. eapply wp_get_fd; [exact E|]. wp_step.
  eapply wp_opt; [exact Ej|]. do 2 wp_step. eapply wp_opt; [exact Ey|]. wp_step. eapply wp_get_fd; [exact E|].
  wp_step. apply wp_inFs. eapply ok_wp; [exact Eop|]. cbv beta iota. wp_step. eapply wp_upd_fd; [exact E|]. by wp_step.
Qed.

(** The call of the file system and what follows it *)
Lemma wp_open_call n t may i x j y q name flags (d : dfs) (Q : Z -> dfs -> Prop) :
  ready n t d -> fd_table d !! i = Some x -> fd_fs x = Some j -> fd_type x = FT_REGULAR -> fd_path x = q ->
  filesystem_table d !! j = Some y -> fs_ops y <> RT_NULL -> text_at d q name -> may j name -> open_returns may d ->
  (forall r k' w', r < 0 -> refused y name x r (dworld d) w' -> ready n t (set_dstr (delete q (dstr d)) (set_dk k' d)) ->
     Q r (set_fd_table (<[i := zero_fd]> (fd_table d)) (set_dstr (delete q (dstr d)) (set_dworld w' (set_dk k' d))))) ->
  (forall op r v w', op_open (fs_ops y) = Some op -> op y name x (dworld d) = Ok (r, v) w' -> 0 <= r ->
     Q 0 (set_fd_table (<[i := opened_fd j q flags v x]> (fd_table d)) (set_dworld w' d))) ->
  wp (match op_open (fs_ops y) with
      | None =>
          x ← get_fd (FdTable i); rt_free (fd_path x);; upd_fd (FdTable i) (fun _ => zero_fd);;
          mret (- DFS_STATUS_ENOSYS)
      | Some op =>
          x ← get_fd (FdTable i);
          name ← str_at (fd_path x);
          result ← call_fd (FdTable i) (fun fs x => op fs name x);
          if result <? 0 then
            x ← get_fd (FdTable i); rt_free (fd_path x);; upd_fd (FdTable i) (fun _ => zero_fd);;
            mret result
          else
            upd_fd (FdTable i) (fun x => set_fd_flags (Z.lor (fd_flags x) DFS_F_OPEN) x);;
            when (negb (Z.land flags DFS_O_DIRECTORY =? 0))
              (upd_fd (FdTable i) (set_fd_type FT_DIRECTORY);;
               upd_fd (FdTable i) (fun x => set_fd_flags (Z.lor (fd_flags x) DFS_F_DIRECTORY) x));;
            mret 0
      end) Q d.
Proof.
  intros Hr E Ej Ety Eq Ey Hops Hname Hmay Hret HQ0 HQ1. pose proof Hname as (l & El & _).
  pose proof (lookup_lt_Some _ _ _ E) as Hlt. subst q.
  destruct (op_open (fs_ops y)) as [op|] eqn:Eop.
  - wp_step. eapply wp_get_fd; [exact E|]. wp_step. eapply wp_str_at; [exact Hname|]. wp_step.
    destruct (Hret j y op name x Hmay Ey Hops Eop Ej) as (r & v & w' & Er).
    eapply wp_call_fd; [exact E|exact Ej|exact Ey|exact Er|].
    destruct (Z.ltb_spec r 0) as [Hneg|Hpos].
    + wp_step. eapply wp_get_fd; [fd_entry|]. wp_step.
      eapply (wp_rt_free n t); [exact Hr|exact El|]. intros k' Hr' _. wp_step.
      eapply wp_upd_fd; [fd_entry|]. wp_step. simpl. rewrite list_insert_insert_eq.
      apply (HQ0 r k' w'); [done| |exact Hr']. unfold refused. rewrite Eop. by exists v.
    + wp_step. eapply wp_upd_fd; [fd_entry|]. simpl. rewrite list_insert_insert_eq.
      specialize (HQ1 op r v w' eq_refl Er Hpos). unfold opened_fd in HQ1. wp_step.
      destruct (negb (Z.land flags DFS_O_DIRECTORY =? 0)); simpl.
      * wp_step. eapply wp_upd_fd; [fd_entry|].
        eapply wp_upd_fd; [fd_entry|]. wp_step. simpl. rewrite !list_insert_insert_eq.
        rewrite <- Ej in HQ1. exact HQ1.
      * do 2 wp_step. rewrite <- Ej, <- Ety in HQ1. exact HQ1.
  - wp_step. eapply wp_get_fd; [exact E|]. wp_step. eapply (wp_rt_free n t); [exact Hr|exact El|]. intros k' Hr' _.
    wp_step. eapply wp_upd_fd; [exact E|]. wp_step.
    apply (HQ0 (- DFS_STATUS_ENOSYS) k' (dworld d)); [done|by unfold refused; rewrite Eop|exact Hr'].
Qed.

(** The descriptor as the file system gets it *)
Definition view_fd (j : nat) (q : ptr) (flags : Z) (x : dfs_fd) : dfs_fd :=
  mk_fd (fd_magic x) FT_REGULAR q (fd_ref_count x) (Some j) (u32 flags) 0 0 (fd_data x).

(** The path of the descriptor: a new block with the path below the mount point, or the
    full path itself *)
Lemma wp_open_path n t i x y m q0 l0 text (d : dfs) (Q : unit -> dfs -> Prop) :
  ready n t (set_dstr (<[q0 := l0]> (dstr d)) d) -> dstr d !! q0 = None -> dirs d !! q0 = None -> q0 <> RT_NULL ->
  fd_table d !! i = Some x -> text_at d (fs_path y) m -> covers m text -> cstring l0 = Some text ->
  Z.of_nat (length text) + 1 <= 2 ^ 32 - 4 -> (0 < length text)%nat ->
  (forall n : nat, (n <= length text)%nat -> (malloc (Z.of_nat n + 1) (kheap (dk d))).1 <> RT_NULL) ->
  (forall k' q l, q <> RT_NULL -> dstr d !! q = None -> dirs d !! q = None -> cstring l = Some (fs_name y m text) ->
     ready n t (set_dstr (<[q := l]> (dstr d)) (set_dk k' d)) ->
     Q tt (set_fd_table (<[i := set_fd_path q x]> (fd_table d)) (set_dstr (<[q := l]> (dstr d)) (set_dk k' d)))) ->
  Forall (fun c => c <> 0) text ->
  wp (if Z.land (op_flags (fs_ops y)) DFS_FS_FLAG_FULLPATH =? 0 then
        sub ← below (fs_ops y) y text;
        q ← rt_strdup sub;
        upd_fd (FdTable i) (set_fd_path q);;
        rt_free q0
      else upd_fd (FdTable i) (set_fd_path q0)) Q (set_dstr (<[q0 := l0]> (dstr d)) d).
Proof.
  intros Hr En En' Hq0 Ex Hm Hc El0 Hsz Hpos Hmem HQ Hnz. unfold fs_name in HQ.
  destruct (Z.eqb_spec (Z.land (op_flags (fs_ops y)) DFS_FS_FLAG_FULLPATH) 0) as [Ef|Ef].
  - wp_step. unfold below. rewrite Ef. simpl (0 =? 0). cbv iota. wp_step.
    eapply wp_str_at.
    { destruct Hm as (lm & Elm & Ecm). exists lm. split; [|exact Ecm]. simpl. rewrite lookup_insert_ne; [done|]. congruence. }
    wp_step. eapply wp_dfs_subdir; [exact Hc|]. intros r Er. wp_step. rewrite Er.
    set (sub := below_text m text) in *.
    assert (length sub <= length text)%nat as Hsub.
    { subst sub. unfold below_text. repeat case_match; simpl; rewrite ?length_drop; lia. }
    assert (Forall (fun c => c <> 0) sub) as Hsz0.
    { subst sub. unfold below_text. repeat case_match; [by apply Forall_singleton|by apply Forall_drop..]. }
    wp_step. unfold rt_strdup. rewrite (uwrap_small 32) by lia. wp_step.
    eapply (wp_rt_malloc n t); [exact Hr|lia|..].
    { intros k' E. by destruct (Hmem (length sub) Hsub). }
    intros q l k' Hq E1 E2 Hlen Hr1 _ _. simpl in E1, E2. rewrite (proj2 (Z.eqb_neq q RT_NULL)) by done.
    assert (q <> q0) as Hne by (intros ->; by rewrite lookup_insert_eq in E1). rewrite lookup_insert_ne in E1 by done.
    wp_step. eapply wp_put_str; [apply lookup_insert_eq|lia|]. do 2 wp_step. simpl. rewrite insert_insert_eq.
    eapply wp_upd_fd; [exact Ex|]. simpl.
    set (l1 := sub ++ 0 :: drop (S (length sub)) l).
    eapply (wp_rt_free n t); [|simpl; rewrite lookup_insert_ne by done; apply lookup_insert_eq|].
    { exact (ready_block n t q _ l1 (set_dstr (<[q0 := l0]> (dstr d)) (set_dk k' d)) Hr1). }
    intros k2 Hr2 _. simpl in *. rewrite delete_insert_ne, delete_insert_id in * by done.
    apply (HQ k2 q l1); [done|done|done|by apply cstring_app|exact Hr2].
  - eapply wp_upd_fd; [exact Ex|]. simpl. replace (set_dstr (<[q0 := l0]> (dstr d)) d) with
      (set_dstr (<[q0 := l0]> (dstr d)) (set_dk (dk d) d)) by (by destruct d).
    apply HQ; [done|done|done|done|]. by destruct d.
Qed.

(** A path that is opened: what is known of the file system it belongs to *)
Record found (d : dfs) (w path : list Z) (st : list (list Z)) (j : nat) (y : dfs_filesystem) (m : list Z) : Prop := {
  fn_resolve : resolve (full_text w path) = Some st;
  fn_belongs : belongs d (render st) (Some j);
  fn_entry : filesystem_table d !! j = Some y;
  fn_mounted : mounted d j m;
  fn_covers : covers m (render st);
  fn_best : forall j' m', mounted d j' m' -> covers m' (render st) -> (length m' <= length m)%nat
}.

Lemma wp_dfs_file_open n t may w i x path flags (d : dfs) (Q : Z -> dfs -> Prop) :
  using_workdir = true -> ready n t d -> 0 <= n < 255 -> mounts_ok d -> cstring (working_directory d) = Some w ->
  path_ok w path -> memory_for d (full_text w path) -> open_returns may d -> fd_table d !! i = Some x ->
  (forall st j y m, found d w path st j y m -> may j (fs_name y m (render st))) ->
  (forall r k', r < 0 -> (malloc (Z.of_nat (length (full_text w path)) + 1) (kheap (dk d))).1 = RT_NULL \/
     resolve (full_text w path) = None \/
     (exists st, resolve (full_text w path) = Some st /\ belongs d (render st) None) -> ready n t (set_dk k' d) -> Q r (set_dk k' d)) ->
  (forall r k' w' st j y m q, r < 0 -> found d w path st j y m ->
     refused y (fs_name y m (render st)) (view_fd j q flags x) r (dworld d) w' -> ready n t (set_dk k' d) ->
     Q r (set_fd_table (<[i := zero_fd]> (fd_table d)) (set_dworld w' (set_dk k' d)))) ->
  (forall k' q l st j y m op r v w', q <> RT_NULL -> dstr d !! q = None -> dirs d !! q = None ->
     found d w path st j y m -> cstring l = Some (fs_name y m (render st)) ->
     op_open (fs_ops y) = Some op -> op y (fs_name y m (render st)) (view_fd j q flags x) (dworld d) = Ok (r, v) w' -> 0 <= r ->
     ready n t (set_dstr (<[q := l]> (dstr d)) (set_dk k' d)) ->
     Q 0 (set_fd_table (<[i := opened_fd j q flags v x]> (fd_table d))
            (set_dstr (<[q := l]> (dstr d)) (set_dworld w' (set_dk k' d))))) ->
  wp (dfs_file_open (Some (FdTable i)) path flags) Q d.
Proof.
  intros Hwd Hr Hn Hm Ew Hp Hmem Hret Ex Hmay HQ0 HQ1 HQ2. pose proof Hp as [Hnz Hsz Hin].
  unfold dfs_file_open. wp_step. eapply (wp_normalize_path n t w); [done|done|done|done|..].
  { intros k' Hno Hk. rewrite Z.eqb_refl. wp_step. apply HQ0; [done|tauto|done]. }
  intros q0 l0 k1 st Hq0 E1 E2 Est El0 Hr1 (Eh1 & _) _. rewrite (proj2 (Z.eqb_neq q0 RT_NULL)) by done.
  destruct (render_text _ _ Est) as [Hrz Hrl]; [congruence|done|].
  wp_step. eapply wp_str_at; [by exists l0; split; [apply lookup_insert_eq|]|]. wp_step.
  set (d1 := set_dstr (<[q0 := l0]> (dstr d)) (set_dk k1 d)) in *.
  assert (forall p s, text_at d p s -> text_at d1 p s) as Htext.
  { intros p s (l & E & Ec). exists l. split; [|done]. simpl. rewrite lookup_insert_ne; [done|congruence]. }
  assert (mounts_ok d1) as Hm1.
  { destruct Hm as [Hl Ht]. split; [done|]. intros i' x' E Hx1 Hx2. destruct (Ht i' x' E Hx1 Hx2) as [m0 Hm0]. eauto. }
  eapply (wp_lookup n t); [exact Hr1|done|done|]. intros r k2 Hr2 (Eh2 & _) Hb.
  destruct r as [j|].
  2:{ wp_step. eapply (wp_rt_free n t); [exact Hr2|apply lookup_insert_eq|]. intros k3 Hr3 _. simpl in *.
      rewrite delete_insert_id in * by done. wp_step.
      replace (set_dstr (dstr d) (set_dk k3 d)) with (set_dk k3 d) in * by (by destruct d).
      apply HQ0; [done| |done]. right. right. exists st. split; [done|]. intros j' m' Hj Hcv. apply (Hb j' m'); [|done].
      destruct Hj as (y' & Ey' & Hy1 & Hy2 & Hy3). exists y'. split_and!; eauto. }
  assert (forall i m, mounted d1 i m -> mounted d i m) as Hmt.
  { intros i' m' (y' & Ey' & Hy1 & Hy2 & Hy3). exists y'. split_and!; try done.
    destruct (proj2 Hm i' y' Ey' Hy1 Hy2) as [m0 Hm0]. destruct (Htext _ _ Hm0) as (l & E & Ec).
    destruct Hy3 as (l' & E' & Ec'). by replace m' with m0 by congruence. }
  destruct Hb as (m & Hmj & Hcov & Hbest). pose proof (Hmt _ _ Hmj) as Hmj'.
  assert (forall j' m', mounted d j' m' -> mounted d1 j' m') as Hmt'.
  { intros j' m' (y' & Ey' & Hy1 & Hy2 & Hy3). exists y'. split_and!; eauto. }
  pose proof Hmj' as (y & Ey & Hy1 & Hy2 & Hy3).
  assert (found d w path st j y m) as Hf.
  { split; try done; [|by eauto]. exists m. split_and!; [done|done|]. by eauto. }
  pose proof (lookup_lt_Some _ _ _ Ex) as Hlt.
  do 5 (wp_step; eapply wp_upd_fd; [first [exact Ex|fd_entry]|]; simpl; rewrite ?list_insert_insert_eq).
  unfold get_fs. do 3 wp_step. eapply wp_opt; [exact Ey|]. unfold get_ops. wp_step.
  eapply wp_opt; [by rewrite (proj2 (Z.eqb_neq _ _) Hy2)|]. wp_step.
  set (x1 := set_fd_pos 0 _). set (D := set_fd_table (<[i := x1]> (fd_table d)) (set_dk k2 d)).
  eapply (wp_open_path n t i x1 y m q0 l0 (render st) D); try done.
  - by apply list_lookup_insert_eq.
  - lia.
  - lia.
  - intros k Hk. simpl. rewrite Eh2. simpl. rewrite Eh1. apply Hmem. lia.
  - intros k3 q l Hq E3 E4 El Hr3. simpl in E3, E4. simpl. rewrite list_insert_insert_eq.
    eapply (wp_open_call n t may i _ j y q (fs_name y m (render st))); simpl.
    + exact Hr3.
    + by apply list_lookup_insert_eq.
    + done.
    + done.
    + done.
    + exact Ey.
    + exact Hy2.
    + exists l. split; [apply lookup_insert_eq|done].
    + exact (Hmay st j y m Hf).
    + exact Hret.
    + intros r k4 w' Hneg Hre Hr4. rewrite list_insert_insert_eq, delete_insert_id in * by done.
      specialize (HQ1 r k4 w' st j y m q Hneg Hf Hre). destruct d. apply HQ1. exact Hr4.
    + intros op r v w' Eop Er Hpos. rewrite list_insert_insert_eq.
      exact (HQ2 k3 q l st j y m op r v w' Hq E3 E4 Hf El Eop Er Hpos Hr3).
Qed.

(** ** The table after a call *)

Lemma vfs_kernel n t (d : dfs) w T k w' n' :
  vfs n t d w T -> ready n' t (set_dk k d) -> vfs n' t (set_dworld w' (set_dk k d)) w T.
Proof. intros [] Hr. by split. Qed.

(** A free entry stays free. *)
Lemma vfs_clear n t (d : dfs) w T i x :
  vfs n t d w T -> T !! i = None -> cleared x -> vfs n t (set_fd_table (<[i := x]> (fd_table d)) d) w T.
Proof.
  intros [V1 V2 V3 V4 V5 V6 V7 V8 V9] Hi Hx.
  assert (forall j y, <[i := x]> (fd_table d) !! j = Some y -> is_Some (T !! j) -> fd_table d !! j = Some y) as Hne.
  { intros j y E [f Ef]. by rewrite list_lookup_insert_ne in E by congruence. }
  split; try done; simpl.
  - by rewrite length_insert.
  - intros j f Ef. destruct (V6 j f Ef) as (Hj & Hm & y & Ey & Hd). split_and!; [done|done|].
    exists y. split; [|by destruct Hd]. by rewrite list_lookup_insert_ne by congruence.
  - intros j y Hj Ej Ey. destruct (decide (j = i)) as [->|Hji]; [|rewrite list_lookup_insert_ne in Ey by done; eauto].
    pose proof (lookup_lt_Some _ _ _ Ey) as Hlt. rewrite length_insert in Hlt.
    rewrite list_lookup_insert_eq in Ey by done. by simplify_eq.
  - intros j1 j2 y1 y2 H1' H2' Hj E1 E2. eapply (V8 j1 j2); eauto.
  - intros j1 y1 j2 y2 H1' E1 E2. eapply (V9 j1); eauto.
Qed.

(** An open file with a new part *)
Lemma vfs_update n t (d : dfs) w T i f v x :
  vfs n t d w T -> T !! i = Some f -> fd_table d !! i = Some x -> forall r, 1 <= r ->
  vfs n t (set_fd_table (<[i := set_fd_ref r (set_part v x)]> (fd_table d)) d) w (<[i := set_f_part v f]> T).
Proof.
  intros [V1 V2 V3 V4 V5 V6 V7 V8 V9] Hi Ex r Hr. pose proof (lookup_lt_Some _ _ _ Ex) as Hlt.
  set (x' := set_fd_ref r (set_part v x)).
  assert (forall j, is_Some (<[i := set_f_part v f]> T !! j) -> is_Some (T !! j)) as HT.
  { intros j. destruct (decide (j = i)) as [->|]; [rewrite Hi; eauto|by rewrite lookup_insert_ne]. }
  assert (forall j y, <[i := x']> (fd_table d) !! j = Some y -> exists y', fd_table d !! j = Some y' /\ fd_path y = fd_path y') as Hp.
  { intros j y E. destruct (decide (j = i)) as [->|Hj]; [|rewrite list_lookup_insert_ne in E by done; eauto].
    rewrite list_lookup_insert_eq in E by done. simplify_eq. eauto. }
  split; try done; simpl.
  - by rewrite length_insert.
  - intros j g Eg. destruct (decide (j = i)) as [->|Hj].
    + rewrite lookup_insert_eq in Eg. simplify_eq. destruct (V6 i f Hi) as (Hb & Hm & y & Ey & [D1 D2 D3 D4 D5 D6]).
      simplify_eq. split_and!; [done|done|]. exists x'. split; [by apply list_lookup_insert_eq|]. split; try done. by destruct v.
    + rewrite lookup_insert_ne in Eg by done. destruct (V6 j g Eg) as (Hb & Hm & y & Ey & []). split_and!; [done|done|].
      exists y. split; [by rewrite list_lookup_insert_ne|by split].
  - intros j y Hj Ej Ey. destruct (decide (j = i)) as [->|Hji]; [by rewrite lookup_insert_eq in Ej|].
    rewrite lookup_insert_ne in Ej by done. rewrite list_lookup_insert_ne in Ey by done. eauto.
  - intros j1 j2 y1 y2 H1' H2' Hj E1 E2. destruct (Hp _ _ E1) as (z1 & F1 & ->). destruct (Hp _ _ E2) as (z2 & F2 & ->).
    eapply (V8 j1 j2); eauto.
  - intros j1 y1 j2 y2 H1' E1 E2. destruct (Hp _ _ E1) as (z1 & F1 & ->). eapply (V9 j1); eauto.
Qed.

(** A new open file *)
Lemma vfs_add n t (d : dfs) w T i x q l f k w' :
  vfs n t d w T -> T !! i = None -> (fd_base <= i)%nat -> (i < length (fd_table d))%nat ->
  dstr d !! q = None -> q <> RT_NULL -> cstring l = Some (f_name f) ->
  ready n t (set_dstr (<[q := l]> (dstr d)) (set_dk k d)) -> (exists m, mounted d (f_fs f) m) ->
  fd_magic x = DFS_FD_MAGIC -> 1 <= fd_ref_count x -> fd_fs x = Some (f_fs f) -> fd_type x = f_type f ->
  part_of x = f_part f -> fd_path x = q ->
  vfs n t (set_fd_table (<[i := x]> (fd_table d)) (set_dstr (<[q := l]> (dstr d)) (set_dworld w' (set_dk k d)))) w (<[i := f]> T) /\
  forall j m, mounted (set_fd_table (<[i := x]> (fd_table d)) (set_dstr (<[q := l]> (dstr d)) (set_dworld w' (set_dk k d)))) j m <->
    mounted d j m.
Proof.
  intros [V1 V2 V3 V4 V5 V6 V7 V8 V9] Hi Hb Hlt Eq Hq El Hr Hm X1 X2 X3 X4 X5 X6.
  set (d' := set_fd_table (<[i := x]> (fd_table d)) _).
  assert (forall p s, text_at d p s -> text_at d' p s) as Ht.
  { intros p s (l' & E & Ec). exists l'. split; [|done]. simpl. rewrite lookup_insert_ne; [done|congruence]. }
  assert (forall j y, filesystem_table d !! j = Some y -> fs_path y <> RT_NULL -> fs_ops y <> RT_NULL -> fs_path y <> q) as Hfs.
  { intros j y Ey Y1 Y2 Eyq. destruct (proj2 V2 j y Ey Y1 Y2) as (m & l' & E & _). congruence. }
  assert (forall j m, mounted d' j m <-> mounted d j m) as Hmt.
  { intros j m. split; intros (y & Ey & Y1 & Y2 & Y3); exists y; split_and!; eauto.
    destruct Y3 as (l' & E & Ec). exists l'. split; [|done]. simpl in E.
    by rewrite lookup_insert_ne in E by (by apply not_eq_sym, (Hfs j)). }
  assert (forall j y, j <> i -> is_Some (T !! j) -> fd_table d !! j = Some y -> fd_path y <> q) as Hfd.
  { intros j y Hj [g Eg] Ey Eyq. destruct (V6 j g Eg) as (_ & _ & y' & Ey' & [_ _ _ _ _ (l' & E & _)]). congruence. }
  split; [|exact Hmt]. split; simpl.
  - exact Hr.
  - destruct V2 as [M1 M2]. split; [done|]. intros j y Ey Y1 Y2. destruct (M2 j y Ey Y1 Y2) as [m ?]. eauto.
  - intros j m Hmj. apply (V3 j). by apply Hmt.
  - done.
  - by rewrite length_insert.
  - intros j g Eg. destruct (decide (j = i)) as [->|Hj].
    + rewrite lookup_insert_eq in Eg. simplify_eq. destruct Hm as [m Hm]. split_and!; [done|exists m; by apply Hmt|]. exists x.
      split; [by apply list_lookup_insert_eq|]. split; try done. exists l. split; [apply lookup_insert_eq|done].
    + rewrite lookup_insert_ne in Eg by done. destruct (V6 j g Eg) as (Hb' & [m Hm'] & y & Ey & []).
      split_and!; [done|exists m; by apply Hmt|]. exists y. rewrite list_lookup_insert_ne by done.
      split; [done|]. split; try done. by apply Ht.
  - intros j y Hj Ej Ey. destruct (decide (j = i)) as [->|Hji]; [by rewrite lookup_insert_eq in Ej|].
    rewrite lookup_insert_ne in Ej by done. rewrite list_lookup_insert_ne in Ey by done. eauto.
  - intros j1 j2 y1 y2 H1' H2' Hj E1 E2.
    destruct (decide (j1 = i)) as [->|Hj1].
    { rewrite list_lookup_insert_eq in E1 by done. rewrite list_lookup_insert_ne in E2 by done. simplify_eq.
      rewrite lookup_insert_ne in H2' by done. by apply not_eq_sym, (Hfd j2). }
    destruct (decide (j2 = i)) as [->|Hj2].
    { rewrite list_lookup_insert_eq in E2 by done. rewrite list_lookup_insert_ne in E1 by done. simplify_eq.
      rewrite lookup_insert_ne in H1' by done. by apply (Hfd j1). }
    rewrite list_lookup_insert_ne in E1, E2 by done. rewrite lookup_insert_ne in H1', H2' by done. by eapply (V8 j1 j2).
  - intros j1 y1 j2 y2 H1' E1 E2. destruct (decide (j1 = i)) as [->|Hj1].
    + rewrite list_lookup_insert_eq in E1 by done. simplify_eq. intros. by apply (Hfs j2).
    + rewrite list_lookup_insert_ne in E1 by done. rewrite lookup_insert_ne in H1' by done. by eapply (V9 j1).
Qed.

(** A file is closed: its path is given back. *)
Lemma vfs_remove n t (d : dfs) w T i f x x' k w' :
  vfs n t d w T -> T !! i = Some f -> fd_table d !! i = Some x -> cleared x' ->
  ready n t (set_dstr (delete (fd_path x) (dstr d)) (set_dk k d)) ->
  vfs n t (set_fd_table (<[i := x']> (fd_table d)) (set_dstr (delete (fd_path x) (dstr d)) (set_dworld w' (set_dk k d)))) w (delete i T) /\
  forall j m, mounted (set_fd_table (<[i := x']> (fd_table d)) (set_dstr (delete (fd_path x) (dstr d)) (set_dworld w' (set_dk k d)))) j m <->
    mounted d j m.
Proof.
  intros [V1 V2 V3 V4 V5 V6 V7 V8 V9] Hi Ex Hx' Hr. pose proof (lookup_lt_Some _ _ _ Ex) as Hlt.
  assert (forall j, is_Some (delete i T !! j) -> j <> i /\ is_Some (T !! j)) as HT.
  { intros j. destruct (decide (j = i)) as [->|]; [rewrite lookup_delete_eq; by intros []|by rewrite lookup_delete_ne]. }
  assert (forall p s, p <> fd_path x -> text_at d p s -> text_in (delete (fd_path x) (dstr d)) p s) as Ht.
  { intros p s Hp (l & E & Ec). exists l. by rewrite lookup_delete_ne. }
  set (d' := set_fd_table (<[i := x']> (fd_table d)) _).
  assert (forall j m, mounted d' j m <-> mounted d j m) as Hmt.
  { intros j m. split; intros (y & Ey & Y1 & Y2 & Y3); exists y; split_and!; try done.
    - destruct Y3 as (l & E & Ec). exists l. split; [|done]. simpl in E. by apply lookup_delete_Some in E as [_ E].
    - apply Ht; [|done]. eapply (V9 i); eauto. }
  split; [|exact Hmt]. split; simpl.
  - exact Hr.
  - destruct V2 as [M1 M2]. split; [done|]. intros j y Ey Y1 Y2. destruct (M2 j y Ey Y1 Y2) as [m ?]. exists m.
    apply Ht; [|done]. eapply (V9 i); eauto.
  - intros j m Hm. apply (V3 j). by apply Hmt.
  - done.
  - by rewrite length_insert.
  - intros j g Eg. destruct (HT j ltac:(eauto)) as [Hj _]. rewrite lookup_delete_ne in Eg by done.
    destruct (V6 j g Eg) as (Hb & [m Hm] & y & Ey & []). split_and!; [done|exists m; by apply Hmt|].
    exists y. rewrite list_lookup_insert_ne by done. split; [done|]. split; try done. apply Ht; [|done].
    eapply (V8 j i); eauto.
  - intros j y Hj Ej Ey. destruct (decide (j = i)) as [->|Hji].
    + rewrite list_lookup_insert_eq in Ey by done. by simplify_eq.
    + rewrite lookup_delete_ne in Ej by done. rewrite list_lookup_insert_ne in Ey by done. eauto.
  - intros j1 j2 y1 y2 H1' H2' Hj E1 E2. apply HT in H1' as [? ?], H2' as [? ?].
    rewrite list_lookup_insert_ne in E1, E2 by done. by eapply (V8 j1 j2).
  - intros j1 y1 j2 y2 H1' E1. apply HT in H1' as [? ?]. rewrite list_lookup_insert_ne in E1 by done. by eapply (V9 j1).
Qed.

Lemma released_cleared r : r <= 0 -> cleared (released (set_fd_ref r zero_fd)).
Proof.
  intros Hr. unfold released. simpl. rewrite (proj2 (Z.eqb_neq _ _)) by lia. exists (r - 1). split; [lia|done].
Qed.

(** [rt_set_errno] and the return of -1 *)
Lemma wp_set_errno n t e (d : dfs) (Q : unit -> dfs -> Prop) :
  ready n t d -> (forall k', ready n t (set_dk k' d) -> Q tt (set_dk k' d)) -> wp (dfs_set_errno e) Q d.
Proof.
  intros [[Hk (th & x & Hrun & E & Hl) Hno Hp] Hh] HQ. pose proof Hrun as [Ec Et Hst Hnest Hnn].
  unfold dfs_set_errno. apply wp_dfs_inK. unfold rt_set_errno. do 2 wp_step.
  rewrite Hnest, Ec, (proj2 (Z.eqb_neq t RT_NULL)) by done. simpl. eapply wp_upd_thread; [exact Et|].
  apply HQ. split; [|exact Hh]. split; [by apply (set_error_kinv t th)| |done|done].
  exists (set_th_error e th), x. split_and!; [|done|exact Hl]. split; try done. apply lookup_insert_eq.
Qed.

Lemma wp_failed n t e (d : dfs) (Q : Z -> dfs -> Prop) :
  ready n t d -> (forall k', ready n t (set_dk k' d) -> Q (-1) (set_dk k' d)) -> wp (failed e) Q d.
Proof. intros Hr HQ. unfold failed. wp_step. eapply wp_set_errno; [done|]. intros k' Hk. wp_step. by apply HQ. Qed.
End open.
