(* ===== verification/DfsCalls.v ===== *)
(** * Calls on descriptors, against the interface of a file system

    What a file system promises to the calls, as laws over an invariant of its state and of
    the open files, and the calls [open], [close], [read], [write] and [lseek] of
    dfs_posix.c proved from the laws: they never fault, and they change the open files as
    operations on a finite map. *)
From stdpp Require Import base tactics numbers list gmap.
From S2P Require Import Prelude RtList KString SmallMem SmallMemCorrect Kernel Scheduler Object Timer Thread KHeap Ipc Mutex Device DfsPath Dfs DfsFile DfsPosix DfsTables DfsOpen.
Local Open Scope Z_scope.

Definition with_flags (fl : Z) (v : fd_part) : fd_part := mk_part fl (pt_size v) (pt_pos v) (pt_data v).
Definition with_pos (p : Z) (v : fd_part) : fd_part := mk_part (pt_flags v) (pt_size v) p (pt_data v).

(** A descriptor of the open file [f], as the functions of its file system see it *)
Record fd_for (x : dfs_fd) (f : file) : Prop := {
  ff_fs : fd_fs x = Some (f_fs f);
  ff_type : fd_type x = f_type f;
  ff_part : part_of x = f_part f
}.

(** [fs_inv w T]: the state [w] of the file systems fits the open files [T].  [fs_good j y]:
    entry [j] of the table of mounted file systems is [y].  What a file system does not cope
    with is in [may_open], for a name on entry [j] while the files [T] are open, and in
    [may_write], for a buffer at a position. *)
Class FsLaws {World : Type} `{!FsOps World} := {
  fs_inv : World -> gmap nat file -> Prop;
  fs_good : nat -> dfs_filesystem -> Prop;
  may_open : gmap nat file -> nat -> list Z -> Prop;
  may_write : fd_part -> list Z -> Prop;
  open_law w T i j y op name x :
    fs_inv w T -> T !! i = None -> fs_good j y -> may_open T j name -> op_open (fs_ops y) = Some op -> fd_fs x = Some j ->
    exists r v w', op y name x w = Ok (r, v) w' /\
      (r < 0 /\ fs_inv w' T \/ 0 <= r /\ forall ty fl, fs_inv w' (<[i := mk_file j name ty (with_flags fl v)]> T));
  close_law w T i f y x :
    fs_inv w T -> T !! i = Some f -> fs_good (f_fs f) y -> fd_for x f ->
    match op_close (fs_ops y) with
    | None => fs_inv w (delete i T)
    | Some op => exists r v w', op y x w = Ok (r, v) w' /\
        (0 <= r /\ fs_inv w' (delete i T) \/ r < 0 /\ fs_inv w' (<[i := set_f_part v f]> T))
    end;
  read_law w T i f y op x len :
    fs_inv w T -> T !! i = Some f -> fs_good (f_fs f) y -> op_read (fs_ops y) = Some op -> fd_for x f ->
    exists r v bytes w', op y x len w = Ok (r, v, bytes) w' /\
      fs_inv w' (<[i := set_f_part (if r <? 0 then with_flags (Z.lor (pt_flags v) DFS_F_EOF) v else v) f]> T);
  write_law w T i f y op x buf :
    fs_inv w T -> T !! i = Some f -> fs_good (f_fs f) y -> op_write (fs_ops y) = Some op -> fd_for x f ->
    may_write (f_part f) buf -> exists r v w', op y x buf w = Ok (r, v) w' /\ fs_inv w' (<[i := set_f_part v f]> T);
  lseek_law w T i f y op x offset :
    fs_inv w T -> T !! i = Some f -> fs_good (f_fs f) y -> op_lseek (fs_ops y) = Some op -> fd_for x f -> 0 <= offset ->
    exists r v w', op y x offset w = Ok (r, v) w' /\
      fs_inv w' (<[i := set_f_part (if r <? 0 then v else with_pos r v) f]> T)
}.

Section calls.
Context `{KConfig} `{A : Allocator} `{!AllocatorLaws A} `{!DriverOps} `{!DfsConfig} {World : Type} `{!FsOps World} `{!FsLaws}.
Local Abbreviation dfs := (dfs (World:=World)).

(** The system between two calls of thread [t] *)
Record vfs_inv (t : ptr) (d : dfs) (w : list Z) (T : gmap nat file) : Prop := {
  vi_vfs : vfs 0 t d w T;
  vi_world : fs_inv (dworld d) T;
  vi_good : forall j y, filesystem_table d !! j = Some y -> fs_ops y <> RT_NULL -> fs_good j y
}.

(** The mounted file systems and the working directory are as they were. *)
Definition same_mounts (d d' : dfs) : Prop :=
  filesystem_table d' = filesystem_table d /\ (forall j m, mounted d' j m <-> mounted d j m) /\
  working_directory d' = working_directory d.

(** The file system of an open file *)
Lemma open_entry t (d : dfs) w T i f :
  vfs_inv t d w T -> T !! i = Some f -> exists y x, filesystem_table d !! f_fs f = Some y /\ fs_ops y <> RT_NULL /\
    fs_good (f_fs f) y /\ (fd_base <= i < fd_base + DFS_FD_MAX)%nat /\ fd_table d !! i = Some x /\ describes (dstr d) x f.
Proof.
  intros [V W G] Ef. destruct (v_open _ _ _ _ _ V i f Ef) as (Hb & (m & y & Ey & _ & Hops & _) & x & Ex & Hd).
  pose proof (lookup_lt_Some _ _ _ Ex) as Hlt. rewrite (v_length _ _ _ _ _ V) in Hlt. exists y, x. split_and!; eauto; lia.
Qed.

(** ** A call on a descriptor *)

Lemma wp_with_fd {X} t (d : dfs) w T i f x (bad : X) (c : fdp -> M dfs X) (Q : X -> dfs -> Prop) :
  vfs 0 t d w T -> T !! i = Some f -> fd_table d !! i = Some x -> (i < fd_base + DFS_FD_MAX)%nat ->
  (forall k, ready 0 t (set_dk k d) ->
     wp (c (FdTable i)) Q (set_fd_table (<[i := set_fd_ref (fd_ref_count x + 1) x]> (fd_table d)) (set_dk k d))) ->
  wp (with_fd (Z.of_nat i) bad c) Q d.
Proof.
  intros V Ef Ex Hi HQ. destruct (v_open _ _ _ _ _ V i f Ef) as (Hb & _ & x' & Ex' & []). simplify_eq.
  unfold with_fd. wp_step. eapply (wp_fd_get 0 t i x); [apply V|lia|lia|done|done|]. intros k Hk _. by apply HQ.
Qed.

Lemma wp_with_bad {X} t (d : dfs) w T fd (bad : X) (c : fdp -> M dfs X) (Q : X -> dfs -> Prop) :
  vfs 0 t d w T -> (forall i, fd = Z.of_nat i -> T !! i = None) ->
  (forall k, ready 0 t (set_dk k d) -> Q bad (set_dk k d)) ->
  wp (with_fd fd bad c) Q d.
Proof.
  intros V Hbad HQ. unfold with_fd. wp_step. eapply (wp_fd_get_bad 0 t); [apply V|lia|apply V|..].
  { intros i x Ei Hi Ex. destruct (v_closed _ _ _ _ _ V i x Hi (Hbad i Ei) Ex) as (r & _ & ->). done. }
  intros k Hk _. wp_step. eapply (wp_set_errno 0 t); [exact Hk|]. intros k' Hk'. wp_step. by apply HQ.
Qed.

(** The end of a call: the reference is given back and a failure becomes -1. *)
Lemma wp_finish {X} t (d : dfs) i x r (a : X) (g : Z -> X) (Q : X -> dfs -> Prop) :
  ready 0 t d -> fd_table d !! i = Some x -> 2 <= fd_ref_count x ->
  (forall k, ready 0 t (set_dk k d) ->
     Q (if r <? 0 then g (-1) else a)
       (set_fd_table (<[i := set_fd_ref (fd_ref_count x - 1) x]> (fd_table d)) (set_dk k d))) ->
  wp (fd_put (FdTable i);; if r <? 0 then e ← failed r; mret (g e) else mret a) Q d.
Proof.
  intros Hr Ex Href HQ. wp_step. eapply (wp_fd_put 0 t); [exact Hr|lia|exact Ex|]. intros k Hk _.
  unfold released. rewrite (proj2 (Z.eqb_neq _ _)) by lia. destruct (r <? 0).
  - wp_step. eapply (wp_failed 0 t); [exact Hk|]. intros k' Hk'. wp_step. apply (HQ k'). exact Hk'.
  - wp_step. apply (HQ k). exact Hk.
Qed.

(** The table when a file system has changed its part of an open file *)
Lemma vfs_inv_update t (d : dfs) w T i f x v r k w' :
  vfs_inv t d w T -> T !! i = Some f -> fd_table d !! i = Some x -> 1 <= r -> ready 0 t (set_dk k d) ->
  fs_inv w' (<[i := set_f_part v f]> T) ->
  vfs_inv t (set_fd_table (<[i := set_fd_ref r (set_part v x)]> (fd_table d)) (set_dworld w' (set_dk k d))) w
    (<[i := set_f_part v f]> T) /\
  same_mounts d (set_fd_table (<[i := set_fd_ref r (set_part v x)]> (fd_table d)) (set_dworld w' (set_dk k d))).
Proof.
  intros [V W G] Ef Ex Hr Hk Hw. split; [|done]. split; [|done|done].
  apply (vfs_kernel 0 t (set_fd_table (<[i := set_fd_ref r (set_part v x)]> (fd_table d)) d)); [|exact Hk].
  by apply vfs_update.
Qed.

Lemma set_f_part_id f : set_f_part (f_part f) f = f.
Proof. by destruct f. Qed.

(** What a call on an open file does: its file system has no such function and nothing
    changes, or the function is called and its part of the file is as it says. *)
Definition used (t : ptr) (d : dfs) (w : list Z) (T : gmap nat file) (i : nat) (f : file) (d' : dfs) (v : fd_part) : Prop :=
  vfs_inv t d' w (<[i := set_f_part v f]> T) /\ same_mounts d d'.

Lemma used_same t (d : dfs) w T i f x k r :
  vfs_inv t d w T -> T !! i = Some f -> fd_table d !! i = Some x -> describes (dstr d) x f -> 1 <= r -> ready 0 t (set_dk k d) ->
  used t d w T i f (set_fd_table (<[i := set_fd_ref r x]> (fd_table d)) (set_dk k d)) (f_part f).
Proof.
  intros Hv Ef Ex [_ _ _ _ Ep _] Hr Hk. unfold used. assert (set_fd_ref r x = set_fd_ref r (set_part (f_part f) x)) as ->
    by (rewrite <- Ep; by destruct x).
  apply (vfs_inv_update t d w T i f x (f_part f) r k (dworld d)); try done.
  rewrite set_f_part_id, insert_id by done. apply Hv.
Qed.

(** ** Functions of the file system *)

Lemma wp_fs_ops {X} i x j y (c : ptr -> M dfs X) (d : dfs) (Q : X -> dfs -> Prop) :
  fd_table d !! i = Some x -> fd_fs x = Some j -> filesystem_table d !! j = Some y -> fs_ops y <> RT_NULL ->
  wp (c (fs_ops y)) Q d -> wp (fs ← fs_of (FdTable i); ops ← get_ops fs; c ops) Q d.
Proof.
  intros Ex Ej Ey Hops HQ. unfold fs_of, get_fs, get_ops. do 2 wp_step. eapply wp_get_fd; [exact Ex|]. wp_step.
  eapply wp_opt; [exact Ej|]. do 2 wp_step. eapply wp_opt; [exact Ey|]. wp_step.
  eapply wp_opt; [by rewrite (proj2 (Z.eqb_neq _ _) Hops)|exact HQ].
Qed.

Lemma wp_call_buf i x j y op r v bytes w' (d : dfs) (Q : Z * list Z -> dfs -> Prop) :
  fd_table d !! i = Some x -> fd_fs x = Some j -> filesystem_table d !! j = Some y ->
  op y x (dworld d) = Ok (r, v, bytes) w' ->
  Q (r, bytes) (set_fd_table (<[i := set_part v x]> (fd_table d)) (set_dworld w' d)) ->
  wp (call_buf (FdTable i) op) Q d.
Proof.
  intros E Ej Ey Eop HQ. unfold call_buf, fs_of, get_fs. do 2 wp_step. eapply wp_get_fd; [exact E|]. wp_step.
  eapply wp_opt; [exact Ej|]. do 2 wp_step. eapply wp_opt; [exact Ey|]. wp_step. eapply wp_get_fd; [exact E|].
  wp_step. apply wp_inFs. eapply ok_wp; [exact Eop|]. cbv beta iota. wp_step. eapply wp_upd_fd; [exact E|]. by wp_step.
Qed.

(** An open file in use: its entry has one more reference while the call works on it. *)
Section use.
Context (t : ptr) (d : dfs) (w : list Z) (T : gmap nat file) (i : nat) (f : file) (y : dfs_filesystem).
Context (Hv : vfs_inv t d w T) (Ef : T !! i = Some f) (Ey : filesystem_table d !! f_fs f = Some y).

Lemma wp_use {X} (bad : X) (c : fdp -> M dfs X) (Q : X -> dfs -> Prop) :
  (forall x k, fd_table d !! i = Some x -> (i < length (fd_table d))%nat -> describes (dstr d) x f ->
     fs_ops y <> RT_NULL -> fs_good (f_fs f) y -> fd_for (set_fd_ref (fd_ref_count x + 1) x) f -> ready 0 t (set_dk k d) ->
     wp (c (FdTable i)) Q (set_fd_table (<[i := set_fd_ref (fd_ref_count x + 1) x]> (fd_table d)) (set_dk k d))) ->
  wp (with_fd (Z.of_nat i) bad c) Q d.
Proof.
  intros HQ. destruct (open_entry t d w T i f Hv Ef) as (y' & x & Ey' & Hops & Hg & Hi & Ex & Hd). simplify_eq.
  pose proof (lookup_lt_Some _ _ _ Ex) as Hlt. eapply wp_with_fd; [apply Hv|exact Ef|exact Ex|lia|]. intros k Hk.
  apply HQ; try done. by destruct Hd.
Qed.

(** The call has changed its part of the file to [v] ... *)
Lemma wp_use_done {X} x k w' v r (a : X) (g : Z -> X) (Q : X -> dfs -> Prop) :
  fd_table d !! i = Some x -> describes (dstr d) x f -> ready 0 t (set_dk k d) -> fs_inv w' (<[i := set_f_part v f]> T) ->
  (forall d', used t d w T i f d' v -> dworld d' = w' -> Q (if r <? 0 then g (-1) else a) d') ->
  wp (fd_put (FdTable i);; if r <? 0 then e ← failed r; mret (g e) else mret a) Q
    (set_fd_table (<[i := set_part v (set_fd_ref (fd_ref_count x + 1) x)]> (fd_table d)) (set_dworld w' (set_dk k d))).
Proof.
  intros Ex [_ Href _ _ _ _] Hk Hw HQ. pose proof (lookup_lt_Some _ _ _ Ex) as Hlt.
  eapply (wp_finish t); [exact Hk|simpl; by apply list_lookup_insert_eq|simpl; lia|]. intros k' Hk'. simpl.
  rewrite list_insert_insert_eq. apply HQ; [|done].
  exact (vfs_inv_update t d w T i f x v (fd_ref_count x + 1 - 1) k' w' Hv Ef Ex ltac:(lia) Hk' Hw).
Qed.

(** ... or nothing. *)
Lemma wp_use_none {X} x k r (a : X) (g : Z -> X) (Q : X -> dfs -> Prop) :
  fd_table d !! i = Some x -> describes (dstr d) x f -> ready 0 t (set_dk k d) ->
  (forall d', used t d w T i f d' (f_part f) -> dworld d' = dworld d -> Q (if r <? 0 then g (-1) else a) d') ->
  wp (fd_put (FdTable i);; if r <? 0 then e ← failed r; mret (g e) else mret a) Q
    (set_fd_table (<[i := set_fd_ref (fd_ref_count x + 1) x]> (fd_table d)) (set_dk k d)).
Proof.
  intros Ex Hd Hk HQ. pose proof Hd as [_ Href _ _ _ _]. pose proof (lookup_lt_Some _ _ _ Ex) as Hlt.
  eapply (wp_finish t); [exact Hk|simpl; by apply list_lookup_insert_eq|simpl; lia|]. intros k' Hk'. simpl.
  rewrite list_insert_insert_eq. apply HQ; [|done].
  exact (used_same t d w T i f x k' (fd_ref_count x + 1 - 1) Hv Ef Ex Hd ltac:(lia) Hk').
Qed.

Definition read_result (len : Z) (r : Z) (bytes : list Z) (v : fd_part) (d' : dfs) : Prop :=
  match op_read (fs_ops y) with
  | None => r = -1 /\ bytes = [] /\ v = f_part f
  | Some op => exists x r0 v0, fd_for x f /\ op y x len (dworld d) = Ok (r0, v0, bytes) (dworld d') /\
      (if r0 <? 0 then r = -1 /\ v = with_flags (Z.lor (pt_flags v0) DFS_F_EOF) v0 else r = r0 /\ v = v0)
  end.

Lemma read_spec len :
  wp (read (Z.of_nat i) len) (fun '(r, bytes) d' => exists v, used t d w T i f d' v /\ read_result len r bytes v d') d.
Proof.
  unfold read. apply wp_use. intros x k Ex Hlt Hd Hops Hg Hff Hk. pose proof Hd as [_ _ Ej _ _ _].
  wp_step. unfold dfs_file_read. eapply wp_fs_ops; [simpl; by apply list_lookup_insert_eq|exact Ej|exact Ey|exact Hops|].
  unfold read_result. destruct (op_read (fs_ops y)) as [op|] eqn:Eop.
  - destruct (read_law (dworld d) T i f y op _ len (vi_world _ _ _ _ Hv) Ef Hg Eop Hff) as (r & v & bytes & w' & Er & Hw).
    wp_step. eapply wp_call_buf; [simpl; by apply list_lookup_insert_eq|exact Ej|exact Ey|exact Er|]. simpl.
    rewrite list_insert_insert_eq. wp_step. apply wp_when; intros Hneg; rewrite Hneg in Hw.
    + eapply wp_upd_fd; [simpl; by apply list_lookup_insert_eq|]. simpl. rewrite list_insert_insert_eq. wp_step.
      apply (wp_use_done x k w' (with_flags (Z.lor (pt_flags v) DFS_F_EOF) v) r (r, bytes) (fun e => (e, bytes)) _ Ex Hd Hk Hw).
      intros d' Hu Ew. rewrite Hneg. eexists. split; [exact Hu|]. eexists _, r, v. by rewrite Hneg, Ew.
    + wp_step. apply (wp_use_done x k w' v r (r, bytes) (fun e => (e, bytes)) _ Ex Hd Hk Hw).
      intros d' Hu Ew. rewrite Hneg. eexists. split; [exact Hu|]. eexists _, r, v. by rewrite Hneg, Ew.
  - wp_step. apply (wp_use_none x k (- DFS_STATUS_ENOSYS) (- DFS_STATUS_ENOSYS, []) (fun e => (e, [])) _ Ex Hd Hk).
    intros d' Hu _. exists (f_part f). done.
Qed.

Lemma wp_plain p r (a : Z) (d' : dfs) (Q : Z -> dfs -> Prop) :
  wp (fd_put p;; if r <? 0 then e ← failed r; mret e else mret a) Q d' ->
  wp (fd_put p;; if r <? 0 then failed r else mret a) Q d'.
Proof.
  unfold wp, mbind, M_bind. destruct (fd_put p d') as [[] d''|]; [|done]. destruct (r <? 0); [|done].
  by destruct (failed r d'').
Qed.

Definition write_result (buf : list Z) (r : Z) (v : fd_part) (d' : dfs) : Prop :=
  match op_write (fs_ops y) with
  | None => r = -1 /\ v = f_part f
  | Some op => exists x r0, fd_for x f /\ op y x buf (dworld d) = Ok (r0, v) (dworld d') /\ r = if r0 <? 0 then -1 else r0
  end.

Lemma write_spec buf :
  may_write (f_part f) buf ->
  wp (write (Z.of_nat i) buf) (fun r d' => exists v, used t d w T i f d' v /\ write_result buf r v d') d.
Proof.
  intros Hmay. unfold write. apply wp_use. intros x k Ex Hlt Hd Hops Hg Hff Hk. pose proof Hd as [_ _ Ej _ _ _].
  wp_step. unfold dfs_file_write. eapply wp_fs_ops; [simpl; by apply list_lookup_insert_eq|exact Ej|exact Ey|exact Hops|].
  unfold write_result. destruct (op_write (fs_ops y)) as [op|] eqn:Eop.
  - destruct (write_law (dworld d) T i f y op _ buf (vi_world _ _ _ _ Hv) Ef Hg Eop Hff Hmay) as (r & v & w' & Er & Hw).
    eapply wp_call_fd; [simpl; by apply list_lookup_insert_eq|exact Ej|exact Ey|exact Er|]. simpl.
    rewrite list_insert_insert_eq. apply wp_plain.
    apply (wp_use_done x k w' v r r (fun e => e) _ Ex Hd Hk Hw).
    intros d' Hu Ew. exists v. split; [exact Hu|]. eexists _, r. by rewrite Ew.
  - wp_step. apply wp_plain. apply (wp_use_none x k (- DFS_STATUS_ENOSYS) (- DFS_STATUS_ENOSYS) (fun e => e) _ Ex Hd Hk).
    intros d' Hu _. exists (f_part f). done.
Qed.

(** The position [lseek] computes *)
Definition seek_target (offset whence : Z) : option Z :=
  if whence =? DFS_SEEK_SET then Some offset
  else if whence =? DFS_SEEK_CUR then Some (s32 (offset + pt_pos (f_part f)))
  else if whence =? DFS_SEEK_END then Some (s32 (offset + pt_size (f_part f)))
  else None.

Definition lseek_result (offset whence r : Z) (v : fd_part) (d' : dfs) : Prop :=
  match seek_target offset whence with
  | None => r = -1 /\ v = f_part f
  | Some target =>
      if target <? 0 then r = -1 /\ v = f_part f
      else
        match op_lseek (fs_ops y) with
        | None => r = -1 /\ v = f_part f
        | Some op => exists x r0 v0, fd_for x f /\ op y x target (dworld d) = Ok (r0, v0) (dworld d') /\
            if r0 <? 0 then r = -1 /\ v = v0 else r = target /\ v = with_pos r0 v0
        end
  end.

(** A call that fails before its reference is given back *)
Lemma wp_use_kept x k e (Q : Z -> dfs -> Prop) :
  fd_table d !! i = Some x -> describes (dstr d) x f -> ready 0 t (set_dk k d) ->
  (forall d', used t d w T i f d' (f_part f) -> Q (-1) d') ->
  wp (failed e) Q (set_fd_table (<[i := set_fd_ref (fd_ref_count x + 1) x]> (fd_table d)) (set_dk k d)).
Proof.
  intros Ex Hd Hk HQ. eapply (wp_failed 0 t); [exact Hk|]. intros k' Hk'. apply HQ. pose proof Hd as [_ Href _ _ _ _].
  exact (used_same t d w T i f x k' (fd_ref_count x + 1) Hv Ef Ex Hd ltac:(lia) Hk').
Qed.

Lemma lseek_spec offset whence :
  wp (lseek (Z.of_nat i) offset whence) (fun r d' => exists v, used t d w T i f d' v /\ lseek_result offset whence r v d') d.
Proof.
  unfold lseek. apply wp_use. intros x k Ex Hlt Hd Hops Hg Hff Hk. pose proof Hd as [_ _ Ej _ Ep _].
  wp_step. eapply wp_get_fd; [simpl; by apply list_lookup_insert_eq|].
  change (fd_pos (set_fd_ref (fd_ref_count x + 1) x)) with (pt_pos (part_of x)).
  change (fd_size (set_fd_ref (fd_ref_count x + 1) x)) with (pt_size (part_of x)). rewrite Ep.
  unfold lseek_result. fold (seek_target offset whence). destruct (seek_target offset whence) as [target|].
  2:{ apply (wp_use_kept x k _ _ Ex Hd Hk). intros d' Hu. by exists (f_part f). }
  destruct (Z.ltb_spec target 0) as [|Hpos].
  { apply (wp_use_kept x k _ _ Ex Hd Hk). intros d' Hu. by exists (f_part f). }
  wp_step. unfold dfs_file_lseek. wp_step. eapply wp_get_fd; [simpl; by apply list_lookup_insert_eq|]. simpl. rewrite Ej.
  eapply wp_fs_ops; [simpl; by apply list_lookup_insert_eq|exact Ej|exact Ey|exact Hops|].
  destruct (op_lseek (fs_ops y)) as [op|] eqn:Eop.
  - destruct (lseek_law (dworld d) T i f y op _ target (vi_world _ _ _ _ Hv) Ef Hg Eop Hff Hpos) as (r & v & w' & Er & Hw).
    wp_step. eapply wp_call_fd; [simpl; by apply list_lookup_insert_eq|exact Ej|exact Ey|exact Er|]. simpl.
    rewrite list_insert_insert_eq. wp_step. apply wp_when; intros Hr.
    + assert (r <? 0 = false) as Hneg by lia. rewrite Hneg in Hw.
      eapply wp_upd_fd; [simpl; by apply list_lookup_insert_eq|]. simpl. rewrite list_insert_insert_eq. wp_step. apply wp_plain.
      apply (wp_use_done x k w' (with_pos r v) r target (fun e => e) _ Ex Hd Hk Hw).
      intros d' Hu Ew. eexists. split; [exact Hu|]. eexists _, r, v. by rewrite Hneg, Ew.
    + assert (r <? 0 = true) as Hneg by lia. rewrite Hneg in Hw. wp_step. apply wp_plain.
      apply (wp_use_done x k w' v r target (fun e => e) _ Ex Hd Hk Hw).
      intros d' Hu Ew. eexists. split; [exact Hu|]. eexists _, r, v. by rewrite Hneg, Ew.
  - wp_step. apply wp_plain. apply (wp_use_none x k (- DFS_STATUS_ENOSYS) target (fun e => e) _ Ex Hd Hk).
    intros d' Hu _. exists (f_part f). done.
Qed.

(** The entry is cleared and its path given back; both references are dropped. *)
Lemma wp_close_done x v r k w' (Q : Z -> dfs -> Prop) :
  fd_table d !! i = Some x -> describes (dstr d) x f -> ready 0 t (set_dk k d) -> 0 <= r ->
  fs_inv w' (delete i T) ->
  (forall d', vfs_inv t d' w (delete i T) -> same_mounts d d' -> dworld d' = w' -> dstr d' = delete (fd_path x) (dstr d) -> Q 0 d') ->
  wp (result ← (if r <? 0 then mret r
                else y ← get_fd (FdTable i); rt_free (fd_path y);; upd_fd (FdTable i) (fun _ => zero_fd);; mret r);
      fd_put (FdTable i);;
      if result <? 0 then failed result else fd_put (FdTable i);; mret 0) Q
    (set_fd_table (<[i := set_part v (set_fd_ref (fd_ref_count x + 1) x)]> (fd_table d)) (set_dworld w' (set_dk k d))).
Proof.
  intros Ex Hd Hk Hr Hw HQ. pose proof (lookup_lt_Some _ _ _ Ex) as Hlt. pose proof Hd as [_ _ _ _ _ (l & El & _)].
  rewrite (proj2 (Z.ltb_ge r 0)) by done. do 2 wp_step. eapply wp_get_fd; [simpl; by apply list_lookup_insert_eq|]. wp_step.
  eapply (wp_rt_free 0 t); [exact Hk|exact El|]. intros k1 Hk1 _. wp_step.
  eapply wp_upd_fd; [simpl; by apply list_lookup_insert_eq|]. simpl. rewrite list_insert_insert_eq. wp_step.
  wp_step. eapply (wp_fd_put 0 t); [exact Hk1|lia|simpl; by apply list_lookup_insert_eq|]. intros k2 Hk2 _. simpl.
  rewrite list_insert_insert_eq, (proj2 (Z.ltb_ge r 0)) by done.
  wp_step. eapply (wp_fd_put 0 t); [exact Hk2|lia|simpl; by apply list_lookup_insert_eq|]. intros k3 Hk3 _. simpl.
  rewrite list_insert_insert_eq. wp_step.
  destruct (vfs_remove 0 t d w T i f x (set_fd_ref (-2) zero_fd) k3 w' (vi_vfs _ _ _ _ Hv) Ef Ex
    ltac:(exists (-2); split; [lia|done]) Hk3) as [Hrem Hmt].
  apply HQ; [|by split_and!|done|done]. split; [exact Hrem|exact Hw|apply Hv].
Qed.

(** What [close] does: the file is closed, or its file system refuses. *)
Definition close_result (r : Z) (d' : dfs) : Prop :=
  (r = 0 /\ vfs_inv t d' w (delete i T) /\ same_mounts d d' /\
     exists x, fd_table d !! i = Some x /\ dstr d' = delete (fd_path x) (dstr d)) \/
  (r = -1 /\ exists v, used t d w T i f d' v).

Lemma close_spec : wp (close (Z.of_nat i)) close_result d.
Proof.
  unfold close. apply wp_use. intros x k Ex Hlt Hd Hops Hg Hff Hk. pose proof Hd as [_ _ Ej _ Ep _].
  pose proof (close_law (dworld d) T i f y _ (vi_world _ _ _ _ Hv) Ef Hg Hff) as Hlaw.
  unfold dfs_file_close. wp_step. eapply wp_fs_ops; [simpl; by apply list_lookup_insert_eq|exact Ej|exact Ey|exact Hops|].
  destruct (op_close (fs_ops y)) as [op|] eqn:Eop.
  - destruct Hlaw as (r & v & w' & Er & Hcase).
    wp_step. eapply wp_call_fd; [simpl; by apply list_lookup_insert_eq|exact Ej|exact Ey|exact Er|]. simpl.
    rewrite list_insert_insert_eq. destruct Hcase as [[Hr Hw]|[Hr Hw]].
    + apply wp_bind_inv. apply (wp_close_done x v r k w' _ Ex Hd Hk Hr Hw). intros d' Hv' Hm _ Hs. left. split_and!; eauto.
    + rewrite (proj2 (Z.ltb_lt r 0)) by done. wp_step. pose proof (proj2 (Z.ltb_lt r 0) Hr) as Hneg.
      assert (forall d', used t d w T i f d' v -> dworld d' = w' -> close_result (if r <? 0 then -1 else 0) d') as HQ
        by (intros d' Hu _; rewrite Hneg; right; eauto).
      pose proof (wp_plain _ _ _ _ _ (wp_use_done x k w' v r 0 (fun e => e) _ Ex Hd Hk Hw HQ)) as Hp.
      rewrite Hneg in Hp |- *. exact Hp.
  - do 2 wp_step. apply wp_bind_inv.
    pose proof (wp_close_done x (f_part f) 0 k (dworld d) close_result Ex Hd Hk ltac:(lia) Hlaw) as Hp.
    assert (set_part (f_part f) (set_fd_ref (fd_ref_count x + 1) x) = set_fd_ref (fd_ref_count x + 1) x) as Epart
      by (rewrite <- Ep; by destruct x).
    rewrite Epart in Hp. apply Hp. intros d' Hv' Hm _ Hs. left. split_and!; eauto.
Qed.
End use.

(** ** [open] *)

(** The file system a directory [st] belongs to is mounted on [a], the deepest of the
    directories above it with a mounted file system; [b] is the rest. *)
Record deepest (d : dfs) (st : list (list Z)) (j : nat) (a b : list (list Z)) : Prop := {
  dp_split : st = b ++ a;
  dp_mounted : mounted d j (canonical a);
  dp_deepest : forall j' a', Forall proper a' -> mounted d j' (canonical a') -> a' `suffix_of` st -> a' `suffix_of` a
}.

Lemma suffix_shorter (a b st : list (list Z)) :
  a `suffix_of` st -> b `suffix_of` st -> (length a <= length b)%nat -> a `suffix_of` b.
Proof.
  intros [x ->] [y E] Hl. assert (length x + length a = length y + length b)%nat as Hlen
    by (by rewrite <- !length_app, E).
  exists (drop (length y) x). rewrite <- (take_drop (length y) x), <- app_assoc in E.
  apply app_inj_1 in E as [_ E]; [done|]. rewrite length_take. lia.
Qed.

Lemma canonical_length a b : Forall proper a -> Forall proper b -> a `suffix_of` b ->
  (length (canonical b) <= length (canonical a))%nat -> a = b.
Proof.
  intros Ha Hb [x ->] Hl. apply Forall_app in Hb as [Hx _]. destruct (decide (x = [])) as [->|Hx0]; [done|]. exfalso.
  destruct (canonical_second x Hx Hx0) as (c & z & Ez & _).
  destruct (decide (a = [])) as [->|Ha0]; [rewrite app_nil_r, Ez in Hl; simpl in Hl; lia|].
  rewrite canonical_app, length_app, Ez in Hl by done. simpl in Hl. lia.
Qed.

(** The name the file system [y] gets for a file [b] below its mount point *)
Definition file_name (y : dfs_filesystem) (b st : list (list Z)) : list Z :=
  if Z.land (op_flags (fs_ops y)) DFS_FS_FLAG_FULLPATH =? 0 then canonical b else canonical st.

Lemma found_deepest t (d : dfs) w T path st j y m :
  vfs 0 t d w T -> Forall proper st -> found d w path (st ++ [[]]) j y m ->
  exists a b, deepest d st j a b /\ fs_name y m (render (st ++ [[]])) = file_name y b st.
Proof.
  intros V Hst [_ _ _ Hm Hc Hbest]. fold (canonical st) in *. destruct (v_canonical _ _ _ _ _ V j m Hm) as (a & Ha & ->).
  pose proof (proj1 (covers_canonical a st Ha Hst) Hc) as [b ->]. pose proof Hst as [Hb _]%Forall_app. exists a, b. split.
  - split; [done|done|]. intros j' a' Ha' Hm' Hs.
    pose proof (Hbest j' _ Hm' (proj2 (covers_canonical a' _ Ha' Hst) Hs)) as Hl.
    destruct (decide (length a' <= length a)%nat) as [Hle|Hgt]; [eapply suffix_shorter; [exact Hs|by exists b|done]|].
    assert (a `suffix_of` a') as Haa by (eapply suffix_shorter; [by exists b|exact Hs|lia]).
    by rewrite (canonical_length a a' Ha Ha' Haa Hl).
  - unfold fs_name, file_name. destruct (_ =? 0); [by apply below_canonical|done].
Qed.

(** A path that can be opened: it leads to the directory or file [st], and its text and the
    path below the mount point fit the heap, and its file system may open it. *)
Record openable (d : dfs) (w : list Z) (T : gmap nat file) (path : list Z) (st : list (list Z)) : Prop := {
  ob_chars : Forall (fun c => c <> 0) (full_text w path);
  ob_size : Z.of_nat (length (full_text w path)) + 1 <= 2 ^ 32 - 4;
  ob_inside : inside (full_text w path) st;
  ob_memory : memory_for d (full_text w path);
  ob_may : forall j a b y, deepest d st j a b -> filesystem_table d !! j = Some y -> may_open T j (file_name y b st)
}.

Lemma openable_path d w T path st : openable d w T path st -> path_ok w path.
Proof. intros [? ? Hi _ _]. split; [done|done|]. rewrite (inside_resolve _ _ Hi). by destruct st. Qed.

(** Why [open] fails: every descriptor is in use, the heap has no block for the text of the
    path, no file system is mounted above it, or the one mounted deepest above it has no
    function to open files, or that function was called with the path below the mount
    point and returned an error. *)
Definition open_fails (d : dfs) (w : list Z) (T : gmap nat file) (path : list Z) (st : list (list Z)) (flags : Z) (d' : dfs) : Prop :=
  (forall i, (fd_base <= i < fd_base + DFS_FD_MAX)%nat -> is_Some (T !! i)) \/
  (malloc (Z.of_nat (length (full_text w path)) + 1) (kheap (dk d))).1 = RT_NULL \/
  (forall j a, Forall proper a -> mounted d j (canonical a) -> ~ a `suffix_of` st) \/
  exists j a b y, deepest d st j a b /\ filesystem_table d !! j = Some y /\
    match op_open (fs_ops y) with
    | None => dworld d' = dworld d
    | Some op => exists x r0 v, fd_flags x = u32 flags /\ fd_fs x = Some j /\ r0 < 0 /\
        op y (file_name y b st) x (dworld d) = Ok (r0, v) (dworld d')
    end.

(** What [open] does: it fails and leaves no trace, or the first free descriptor refers to
    the file, opened by the file system the path belongs to under the path below its mount
    point. *)
Definition open_result (t : ptr) (d : dfs) (w : list Z) (T : gmap nat file) (path : list Z) (st : list (list Z)) (flags r : Z) (d' : dfs) : Prop :=
  same_mounts d d' /\
  ((r = -1 /\ vfs_inv t d' w T /\ dstr d' = dstr d /\ open_fails d w T path st flags d') \/
   exists i j a b y op x r0 v fl ty q l, r = Z.of_nat i /\ (fd_base <= i)%nat /\ T !! i = None /\ deepest d st j a b /\
     filesystem_table d !! j = Some y /\ op_open (fs_ops y) = Some op /\ fd_flags x = u32 flags /\ fd_fs x = Some j /\
     let name := file_name y b st in
     op y name x (dworld d) = Ok (r0, v) (dworld d') /\ 0 <= r0 /\
     vfs_inv t d' w (<[i := mk_file j name ty (with_flags fl v)]> T) /\
     ty = (if Z.land flags DFS_O_DIRECTORY =? 0 then FT_REGULAR else FT_DIRECTORY) /\
     dstr d !! q = None /\ dstr d' = <[q := l]> (dstr d) /\ exists x', fd_table d' !! i = Some x' /\ fd_path x' = q).

Lemma open_spec t (d : dfs) w T path flags st :
  using_workdir = true -> vfs_inv t d w T -> openable d w T path st ->
  wp (open path flags) (open_result t d w T path st flags) d.
Proof.
  intros Hwd Hv Hob. pose proof Hv as [V W G]. pose proof (openable_path _ _ _ _ _ Hob) as Hp. pose proof Hob as [Hnz Hsz Hin Hmem Hmay].
  unfold open. wp_step. eapply (wp_fd_new 0 t); [apply V|lia|apply V|..].
  { intros k Hk _ Hfull. simpl (-1 <? 0). cbv iota. eapply (wp_failed 0 t); [exact Hk|]. intros k' Hk'. split; [done|]. left.
    split_and!; [done| |done|].
    - split; [|done|done]. exact (vfs_kernel 0 t d w T k' (dworld d) 0 V Hk').
    - left. intros i Hi. rewrite <- (v_length _ _ _ _ _ V) in Hi. destruct (lookup_lt_is_Some_2 (fd_table d) i ltac:(lia)) as [x Ex].
      specialize (Hfull i x ltac:(lia) Ex). destruct (T !! i) as [f|] eqn:Ef; [eauto|exfalso].
      destruct (v_closed _ _ _ _ _ V i x ltac:(lia) Ef Ex) as (r & Hr & ->). simpl in Hfull. lia. }
  intros i x k1 Hi Ex Hx Hk1 (Eh1 & _). pose proof (lookup_lt_Some _ _ _ Ex) as Hlt.
  assert (T !! i = None) as Ei.
  { destruct (T !! i) as [f|] eqn:Ef; [|done]. destruct (v_open _ _ _ _ _ V i f Ef) as (_ & _ & x' & Ex' & []). simplify_eq. lia. }
  rewrite (proj2 (Z.ltb_ge _ 0)) by lia. wp_step.
  eapply (wp_fd_get 0 t); [exact Hk1|lia|rewrite <- (v_length _ _ _ _ _ V); lia|simpl; by apply list_lookup_insert_eq|done|].
  intros k2 Hk2 (Eh2 & _). simpl. rewrite list_insert_insert_eq. wp_step.
  set (x2 := set_fd_ref (1 + 1) _). set (d2 := set_fd_table _ _).
  assert (fd_table d2 !! i = Some x2) as Ex2 by (by apply list_lookup_insert_eq).
  assert (forall k k' d0 x0, d0 = set_fd_table (<[i := x0]> (fd_table d)) (set_dworld k' (set_dk k d)) -> cleared x0 ->
    ready 0 t (set_dk k d) -> fs_inv k' T -> vfs_inv t d0 w T /\ same_mounts d d0) as Hfail.
  { intros k k' d0 x0 -> Hc Hk Hw. split; [|done]. split; [|done|done].
    apply (vfs_kernel 0 t (set_fd_table (<[i := x0]> (fd_table d)) d)); [by apply vfs_clear|exact Hk]. }
  assert (forall d0 r x0, fd_table d0 !! i = Some x0 -> ready 0 t d0 -> r < 0 -> forall Q : Z -> dfs -> Prop,
    (forall k, ready 0 t (set_dk k d0) -> Q (-1) (set_fd_table (<[i := released (released x0)]> (fd_table d0)) (set_dk k d0))) ->
    wp (p ← opt BadPointer (Some (FdTable i)); if r <? 0 then fd_put p;; fd_put p;; failed r else fd_put p;; mret (Z.of_nat i)) Q d0) as Hput.
  { clear -AllocatorLaws0. intros d0 r x0 E Hr Hneg Q HQ. wp_step. wp_step; [done|]. rewrite (proj2 (Z.ltb_lt r 0)) by done.
    pose proof (lookup_lt_Some _ _ _ E) as Hlt. wp_step. eapply (wp_fd_put 0 t); [exact Hr|lia|exact E|]. intros k Hk _.
    wp_step. eapply (wp_fd_put 0 t); [exact Hk|lia|simpl; by apply list_lookup_insert_eq|]. intros k' Hk' _. simpl.
    rewrite list_insert_insert_eq. eapply (wp_failed 0 t); [exact Hk'|]. intros k3 Hk3. exact (HQ k3 Hk3). }
  eapply (wp_dfs_file_open 0 t (may_open T) w i x2); [done|exact Hk2|lia|apply V|apply V|done| | |exact Ex2|..].
  - intros n Hn. simpl. rewrite Eh2. simpl. rewrite Eh1. by apply Hmem.
  - intros j y op name x0 Hm0 Ey Hops Eop Ej.
    destruct (open_law (dworld d) T i j y op name x0 W Ei (G j y Ey Hops) Hm0 Eop Ej) as (r & v & w' & Er & _). eauto.
  - intros st' j y m Hf. assert (st' = st ++ [[]]) as ->.
    { destruct Hf as [Hre _ _ _ _ _]. rewrite (inside_resolve _ _ Hin) in Hre. by simplify_eq. }
    assert (found d w path (st ++ [[]]) j y m) as Hf' by (by destruct Hf).
    destruct (found_deepest t d w T path st j y m V (inside_proper _ _ Hnz Hin) Hf') as (a & b & Hdp & ->).
    eapply Hmay; [exact Hdp|by destruct Hf'].
  - intros r k Hneg Hwhy Hk. eapply Hput; [exact Ex2|exact Hk|done|]. intros k' Hk'. simpl. rewrite list_insert_insert_eq.
    destruct (Hfail k' (dworld d) _ zero_fd eq_refl ltac:(by exists 0) Hk' W) as [F1 F2]. split; [exact F2|]. left.
    split_and!; [done|done|done|]. destruct Hwhy as [Hno|[Hno|(st' & Hst' & Hno)]].
    + right. left. simpl in Hno. rewrite Eh2 in Hno. simpl in Hno. by rewrite Eh1 in Hno.
    + rewrite (inside_resolve _ _ Hin) in Hno. done.
    + right. right. left. rewrite (inside_resolve _ _ Hin) in Hst'. injection Hst' as <-. fold (canonical st) in Hno.
      intros j a Ha Hm Hs. apply (Hno j (canonical a)); [by destruct Hm as (y & ?); exists y|].
      apply covers_canonical; [done|by eapply inside_proper|done].
  - intros r k w' st' j y m q Hneg Hf Hre Hk. eapply Hput; [simpl; apply list_lookup_insert_eq; by rewrite length_insert|exact Hk|done|].
    intros k' Hk'. simpl. rewrite !list_insert_insert_eq.
    assert (st' = st ++ [[]]) as ->.
    { destruct Hf as [Hr0 _ _ _ _ _]. rewrite (inside_resolve _ _ Hin) in Hr0. by simplify_eq. }
    assert (found d w path (st ++ [[]]) j y m) as Hf' by (by destruct Hf).
    destruct (found_deepest t d w T path st j y m V (inside_proper _ _ Hnz Hin) Hf') as (a & b & Hdp & Ename).
    assert (filesystem_table d !! j = Some y) as Ey by (by destruct Hf').
    assert (fs_ops y <> RT_NULL) as Hops by (destruct Hf' as [_ _ _ (y' & Ey' & _ & ? & _) _ _]; congruence).
    unfold refused in Hre. rewrite Ename in Hre.
    assert (fs_inv w' T) as Hw.
    { destruct (op_open (fs_ops y)) as [op|] eqn:Eop; [|by rewrite Hre]. destruct Hre as [v Er].
      destruct (open_law (dworld d) T i j y op (file_name y b st) (view_fd j q flags x2) W Ei (G j y Ey Hops) (Hmay j a b y Hdp Ey) Eop eq_refl) as (r' & v' & w2 & Er' & Hc).
      simpl in Er. rewrite Er in Er'. simplify_eq. destruct Hc as [[_ Hc]|[? _]]; [exact Hc|lia]. }
    destruct (Hfail k' w' _ (set_fd_ref (-2) zero_fd) eq_refl ltac:(by exists (-2)) Hk' Hw) as [F1 F2]. split; [exact F2|]. left.
    split_and!; [done|done|done|]. right. right. right. exists j, a, b, y. split_and!; [done|done|].
    destruct (op_open (fs_ops y)) as [op|]; [|exact Hre]. destruct Hre as [v Er]. by exists (view_fd j q flags x2), r, v.
  - intros k q l st' j y m op r v w' Hq E1 E2 Hf El Eop Er Hr Hk.
    assert (st' = st ++ [[]]) as ->.
    { destruct Hf as [Hre _ _ _ _ _]. rewrite (inside_resolve _ _ Hin) in Hre. by simplify_eq. }
    assert (found d w path (st ++ [[]]) j y m) as Hf' by (by destruct Hf).
    destruct (found_deepest t d w T path st j y m V (inside_proper _ _ Hnz Hin) Hf') as (a & b & Hdp & Ename).
    set (name := file_name y b st) in *. rewrite Ename in El, Er.
    set (x3 := opened_fd j q flags v x2).
    do 2 wp_step. change (0 <? 0) with false. cbv iota. wp_step.
    eapply (wp_fd_put 0 t _ x3); [exact Hk|lia|simpl; apply list_lookup_insert_eq; by rewrite length_insert|].
    intros k' Hk' _. wp_step. simpl. rewrite !list_insert_insert_eq.
    set (ty := if Z.land flags DFS_O_DIRECTORY =? 0 then FT_REGULAR else FT_DIRECTORY).
    destruct (open_law (dworld d) T i j y op name (view_fd j q flags x2) W Ei) as (r' & v' & w2 & Er' & Hlaw); [|eapply Hmay; [exact Hdp|by destruct Hf']|done|done|].
    { apply G; [by destruct Hf'|]. destruct Hf' as [_ _ Ey (y' & Ey' & _ & ? & _) _ _]. congruence. }
    simpl in Er. rewrite Er in Er'. injection Er' as <- <- <-. destruct Hlaw as [[? _]|[_ Hlaw]]; [lia|].
    set (f := mk_file j name ty (with_flags (fd_flags x3) v)).
    destruct (vfs_add 0 t d w T i (released x3) q l f k' w' V Ei Hi Hlt E1 Hq El Hk') as [Hadd Hmt]; try done.
    { exists m. by destruct Hf'. }
    { simpl. unfold ty. by destruct (Z.land flags DFS_O_DIRECTORY =? 0). }
    split; [by split_and!|]. right. exists i, j, a, b, y, op, (view_fd j q flags x2), r, v, (fd_flags x3), ty, q, l.
    cbv zeta. split_and!; try done; [by destruct Hf'|]. exists (released x3). split; [by apply list_lookup_insert_eq|done].
Qed.

(** ** The calls as operations on the open files *)

Inductive fcall :=
| COpen (path : list Z) (flags : Z)
| CClose (fd : Z)
| CRead (fd len : Z)
| CWrite (fd : Z) (buf : list Z)
| CLseek (fd offset whence : Z).

(** The result, and the bytes that are read *)
Definition exec (c : fcall) : M dfs (Z * list Z) :=
  match c with
  | COpen path flags => r ← open path flags; mret (r, [])
  | CClose fd => r ← close fd; mret (r, [])
  | CRead fd len => read fd len
  | CWrite fd buf => r ← write fd buf; mret (r, [])
  | CLseek fd offset whence => r ← lseek fd offset whence; mret (r, [])
  end.

(** The file a descriptor refers to *)
Definition at_fd (T : gmap nat file) (fd : Z) : option (nat * file) :=
  if fd <? 0 then None else f ← T !! Z.to_nat fd; Some (Z.to_nat fd, f).

(** A call on a descriptor: refused without a file, and otherwise [P] *)
Definition on_file (T : gmap nat file) (fd r : Z) (T' : gmap nat file) (P : nat -> file -> Prop) : Prop :=
  match at_fd T fd with
  | None => r = -1 /\ T' = T
  | Some (i, f) => P i f
  end.

(** A call changes the open files from [T] to [T'] and returns [r] and [bytes]. *)
Definition file_step (d : dfs) (w : list Z) (T : gmap nat file) (c : fcall) (r : Z) (bytes : list Z) (d' : dfs) (T' : gmap nat file) : Prop :=
  match c with
  | COpen path flags => exists st, inside (full_text w path) st /\
      ((r = -1 /\ T' = T /\ open_fails d w T path st flags d') \/
       exists i j a b y op x r0 v fl, r = Z.of_nat i /\ (fd_base <= i)%nat /\ T !! i = None /\ deepest d st j a b /\
         filesystem_table d !! j = Some y /\ op_open (fs_ops y) = Some op /\ fd_flags x = u32 flags /\ fd_fs x = Some j /\
         let name := file_name y b st in
         op y name x (dworld d) = Ok (r0, v) (dworld d') /\ 0 <= r0 /\
         T' = <[i := mk_file j name (if Z.land flags DFS_O_DIRECTORY =? 0 then FT_REGULAR else FT_DIRECTORY) (with_flags fl v)]> T)
  | CClose fd => on_file T fd r T' (fun i f =>
      (r = 0 /\ T' = delete i T) \/ (r = -1 /\ exists v, T' = <[i := set_f_part v f]> T))
  | CRead fd len => on_file T fd r T' (fun i f => exists y v, filesystem_table d !! f_fs f = Some y /\
      T' = <[i := set_f_part v f]> T /\ read_result d f y len r bytes v d')
  | CWrite fd buf => on_file T fd r T' (fun i f => exists y v, filesystem_table d !! f_fs f = Some y /\
      T' = <[i := set_f_part v f]> T /\ write_result d f y buf r v d')
  | CLseek fd offset whence => on_file T fd r T' (fun i f => exists y v, filesystem_table d !! f_fs f = Some y /\
      T' = <[i := set_f_part v f]> T /\ lseek_result d f y offset whence r v d')
  end.

(** What the caller of [open] and [write] has to see to; every other call can be made at any
    time. *)
Definition allowed (d : dfs) (w : list Z) (T : gmap nat file) (c : fcall) : Prop :=
  match c with
  | COpen path _ => exists st, openable d w T path st
  | CWrite fd buf => forall i f, at_fd T fd = Some (i, f) -> may_write (f_part f) buf
  | _ => True
  end.

Lemma at_fd_cases (T : gmap nat file) fd :
  (at_fd T fd = None /\ forall i, fd = Z.of_nat i -> T !! i = None) \/
  exists i f, at_fd T fd = Some (i, f) /\ fd = Z.of_nat i /\ T !! i = Some f.
Proof.
  unfold at_fd. destruct (Z.ltb_spec fd 0); [left; split; [done|intros; lia]|].
  destruct (T !! Z.to_nat fd) as [f|] eqn:E; simpl.
  - right. exists (Z.to_nat fd), f. split_and!; [done|lia|done].
  - left. split; [done|]. intros i ->. by rewrite Nat2Z.id in E.
Qed.

(** A call with a descriptor of no file fails and changes nothing. *)
Lemma bad_fd_spec {X} t (d : dfs) w T fd (bad : X) (c : fdp -> M dfs X) :
  vfs_inv t d w T -> (forall i, fd = Z.of_nat i -> T !! i = None) ->
  wp (with_fd fd bad c) (fun r d' => r = bad /\ vfs_inv t d' w T /\ same_mounts d d') d.
Proof.
  intros [V W G] Hbad. eapply wp_with_bad; [exact V|done|]. intros k Hk. split_and!; try done.
  split; [|done|done]. exact (vfs_kernel 0 t d w T k (dworld d) 0 V Hk).
Qed.

(** A call on a descriptor, from what it does with and without a file *)
Lemma on_file_spec t (d : dfs) w T fd (c : M dfs (Z * list Z)) (P : nat -> file -> Z -> list Z -> dfs -> gmap nat file -> Prop) :
  vfs_inv t d w T ->
  ((forall i, fd = Z.of_nat i -> T !! i = None) ->
     wp c (fun r d' => r.1 = -1 /\ vfs_inv t d' w T /\ same_mounts d d') d) ->
  (forall i f y, T !! i = Some f -> fd = Z.of_nat i -> at_fd T fd = Some (i, f) -> filesystem_table d !! f_fs f = Some y ->
     wp c (fun r d' => exists T', vfs_inv t d' w T' /\ same_mounts d d' /\ P i f r.1 r.2 d' T') d) ->
  wp c (fun r d' => exists T', vfs_inv t d' w T' /\ same_mounts d d' /\
    on_file T fd r.1 T' (fun i f => P i f r.1 r.2 d' T')) d.
Proof.
  intros Hv Hbad Hok. unfold on_file. destruct (at_fd_cases T fd) as [[-> Hn]|(i & f & Ea & -> & Ef)].
  - eapply wp_mono; [by apply Hbad|]. intros r d' (-> & Hv' & Hm). eauto.
  - rewrite Ea. destruct (open_entry t d w T i f Hv Ef) as (y & x & Ey & _). by eapply Hok.
Qed.

Lemma exec_spec t (d : dfs) w T c :
  using_workdir = true -> vfs_inv t d w T -> allowed d w T c ->
  wp (exec c) (fun r d' => exists T', vfs_inv t d' w T' /\ same_mounts d d' /\ file_step d w T c r.1 r.2 d' T') d.
Proof.
  intros Hwd Hv Hc. destruct c as [path flags|fd|fd len|fd buf|fd offset whence]; simpl.
  - destruct Hc as [st Hob]. wp_step. eapply wp_mono; [by apply (open_spec t d w T path flags st)|].
    intros r d' (Hm & Hcase). wp_step. simpl.
    destruct Hcase as [(-> & Hv' & _ & Hwhy)|(i & j & a & b & y & op & x & r0 & v & fl & ty & q & l & Hr)].
    + exists T. split_and!; [done|done|]. exists st. split; [apply Hob|]. by left.
    + cbv zeta in Hr. destruct Hr as (? & ? & ? & ? & ? & ? & ? & ? & ? & ? & Hv' & -> & _).
      eexists. split_and!; [exact Hv'|done|]. exists st. split; [apply Hob|]. right.
      exists i, j, a, b, y, op, x, r0, v, fl. by split_and!.
  - apply (on_file_spec t d w T fd _ (fun i f r _ d' T' => (r = 0 /\ T' = delete i T) \/ (r = -1 /\ exists v, T' = <[i := set_f_part v f]> T))); [done|..].
    + intros Hbad. wp_step. eapply wp_mono; [by apply (bad_fd_spec t d w T)|]. intros r d' (-> & ?). by wp_step.
    + intros i f y Ef -> Ea Ey. wp_step. eapply wp_mono; [by apply (close_spec t d w T i f y)|]. intros r d' Hr. wp_step.
      destruct Hr as [(-> & Hv' & Hm & _)|(-> & v & Hv' & Hm)]; eexists; (split_and!; [exact Hv'|done|]); eauto.
  - apply (on_file_spec t d w T fd _ (fun i f r bytes d' T' => exists y v, filesystem_table d !! f_fs f = Some y /\
      T' = <[i := set_f_part v f]> T /\ read_result d f y len r bytes v d')); [done|..].
    + intros Hbad. eapply wp_mono; [by apply (bad_fd_spec t d w T)|]. intros r d' (-> & ?). done.
    + intros i f y Ef -> Ea Ey. eapply wp_mono; [by apply (read_spec t d w T i f y)|]. intros [r bytes] d' (v & [Hv' Hm] & Hr).
      eexists. split_and!; [exact Hv'|done|]. by exists y, v.
  - apply (on_file_spec t d w T fd _ (fun i f r _ d' T' => exists y v, filesystem_table d !! f_fs f = Some y /\
      T' = <[i := set_f_part v f]> T /\ write_result d f y buf r v d')); [done|..].
    + intros Hbad. wp_step. eapply wp_mono; [by apply (bad_fd_spec t d w T)|]. intros r d' (-> & ?). by wp_step.
    + intros i f y Ef -> Ea Ey. wp_step. eapply wp_mono; [apply (write_spec t d w T i f y); [done..|exact (Hc i f Ea)]|]. intros r d' (v & [Hv' Hm] & Hr).
      wp_step. eexists. split_and!; [exact Hv'|done|]. by exists y, v.
  - apply (on_file_spec t d w T fd _ (fun i f r _ d' T' => exists y v, filesystem_table d !! f_fs f = Some y /\
      T' = <[i := set_f_part v f]> T /\ lseek_result d f y offset whence r v d')); [done|..].
    + intros Hbad. wp_step. eapply wp_mono; [by apply (bad_fd_spec t d w T)|]. intros r d' (-> & ?). by wp_step.
    + intros i f y Ef -> Ea Ey. wp_step. eapply wp_mono; [by apply (lseek_spec t d w T i f y)|]. intros r d' (v & [Hv' Hm] & Hr).
      wp_step. eexists. split_and!; [exact Hv'|done|]. by exists y, v.
Qed.

(** ** Properties *)


(** C13: A file that is opened and closed again leaves the descriptors and the blocks of the
    heap as they were. *)
Theorem open_close_roundtrip t (d : dfs) w T path flags st :
  using_workdir = true -> vfs_inv t d w T -> openable d w T path st ->
  exists r d', open path flags d = Ok r d' /\ (r = -1 /\ dstr d' = dstr d \/
    exists r' d'', close r d' = Ok r' d'' /\
      (r' = 0 -> vfs_inv t d'' w T /\ dstr d'' = dstr d /\ same_mounts d d'')).
Proof.
  intros Hwd Hv Hob. destruct (wp_ok _ _ _ (open_spec t d w T path flags st Hwd Hv Hob)) as (r & d' & E & Hm & Hcase).
  exists r, d'. split; [done|].
  destruct Hcase as [(-> & _ & Hs & _)|(i & j & a & b & y & op & x & r0 & v & fl & ty & q & l & -> & Hr)]; [by left|]. right.
  cbv zeta in Hr. destruct Hr as (Hi & Ei & Hdp & Ey & _ & _ & _ & _ & _ & Hv' & _ & Hq & Hs & x0 & Ex0 & Hx0).
  set (T' := <[i := _]> T) in Hv'. assert (T' !! i = Some _) as Ef by apply lookup_insert_eq.
  destruct (wp_ok _ _ _ (close_spec t d' w T' i _ y Hv' Ef ltac:(by rewrite (proj1 Hm)))) as (r' & d'' & E' & Hc).
  exists r', d''. split; [done|]. intros ->. destruct Hc as [(_ & Hv2 & Hm2 & x' & Ex' & Hs2)|[? _]]; [|done].
  unfold T' in Hv2. rewrite delete_insert_id in Hv2 by done. split_and!; [done|..].
  - rewrite Hs2, Hs. assert (fd_path x' = q) as ->; [|by apply delete_insert_id].
    congruence.
  - destruct Hm as (? & Hm & ?), Hm2 as (? & Hm2 & ?). split_and!; [congruence| |congruence]. intros j' m'. by rewrite Hm2, Hm.
Qed.
End calls.
