(* ===== verification/DfsWitness.v ===== *)
(** * The virtual file system: concrete runs

    A kernel with one thread on the small memory manager, a file system of one file in
    memory, mounted on "/" and on "/sd". *)
From stdpp Require Import base tactics numbers list gmap.
From S2P Require Import Prelude RtList KString SmallMem SmallMemCorrect Kernel Scheduler Object Timer Thread KHeap Ipc Mutex Board Device DfsPath Dfs DfsFile DfsPosix DfsTables DfsOpen DfsCalls.
Local Open Scope Z_scope.

Module DfsWitness.
#[local] Existing Instance stm32_config.
#[local] Instance demo_allocator : Allocator := mem_allocator HeapDemo.junk (fun _ _ => 0).
#[local] Instance demo_laws : AllocatorLaws demo_allocator := mem_allocator_laws HeapDemo.junk (fun _ _ => 0).
#[local] Instance no_driver : DriverOps := {|
  call_init := fun _ _ => mret RT_EOK;
  call_open := fun _ _ _ => mret RT_EOK;
  call_close := fun _ _ => mret RT_EOK;
  call_read := fun _ _ _ _ n => mret n;
  call_write := fun _ _ _ _ n => mret n;
  call_control := fun _ _ _ _ => mret RT_EOK
|}.
#[local] Instance demo_dfs : DfsConfig := {|
  DFS_FD_MAX := 4; DFS_FILESYSTEMS_MAX := 2; using_stdio := false; using_workdir := true; fslock := 0x20001000
|}.

(** ** A file system of one file: every name opens it *)

Definition world : Type := list Z.
Definition view (x : dfs_fd) (pos : Z) (w : world) : fd_part := mk_part (fd_flags x) (Z.of_nat (length w)) pos (fd_data x).
#[local] Instance one_file : FsOps world := {|
  op_name := fun _ => [111; 110; 101];
  op_flags := fun _ => 0;
  op_mount := fun _ => Some (fun y _ _ => mret (0, fs_data y));
  op_unmount := fun _ => None;
  op_mkfs := fun _ => None;
  op_statfs := fun _ => None;
  op_open := fun _ => Some (fun _ _ x => w ← get; mret (0, view x 0 w));
  op_close := fun _ => Some (fun _ x => mret (0, part_of x));
  op_ioctl := fun _ => None;
  op_read := fun _ => Some (fun _ x len =>
    w ← get;
    let bytes := take (Z.to_nat len) (drop (Z.to_nat (fd_pos x)) w) in
    mret (Z.of_nat (length bytes), view x (fd_pos x + Z.of_nat (length bytes)) w, bytes));
  op_write := fun _ => Some (fun _ x buf =>
    modify (fun w => take (Z.to_nat (fd_pos x)) w ++ buf ++ drop (Z.to_nat (fd_pos x) + length buf) w);;
    w ← get;
    mret (Z.of_nat (length buf), view x (fd_pos x + Z.of_nat (length buf)) w));
  op_flush := fun _ => None;
  op_lseek := fun _ => Some (fun _ x offset => mret (offset, part_of x));
  op_getdents := fun _ => None;
  op_unlink := fun _ => None;
  op_stat := fun _ => None;
  op_rename := fun _ => None
|}.

(** A position is never negative. *)
Definition positions (T : gmap nat file) : Prop := map_Forall (fun _ f => 0 <= pt_pos (f_part f)) T.

Lemma positions_insert T i f : positions T -> 0 <= pt_pos (f_part f) -> positions (<[i := f]> T).
Proof. intros. by apply map_Forall_insert_2. Qed.

#[local] Instance one_file_laws : FsLaws.
Proof.
  refine {| fs_inv := fun _ T => positions T; fs_good := fun _ _ => True; may_open := fun _ _ _ => True; may_write := fun _ _ => True |}.
  - intros w T i j y op name x HT _ _ _ [= <-] _. eexists 0, _, w. split; [done|]. right. split; [done|].
    intros ty fl. by apply positions_insert.
  - intros w T i f y x HT Ef _ _. eexists 0, _, w. split; [done|]. left. split; [done|]. by apply map_Forall_delete.
  - intros w T i f y op x len HT Ef _ [= <-] [_ _ Ep]. do 4 eexists. split; [done|].
    rewrite (proj2 (Z.ltb_ge _ _)) by lia. apply positions_insert; [done|]. simpl.
    pose proof (HT i f Ef) as Hp. simpl in Hp. rewrite <- Ep in Hp. simpl in Hp. lia.
  - intros w T i f y op x buf HT Ef _ [= <-] [_ _ Ep] _. do 3 eexists. split; [done|].
    apply positions_insert; [done|]. simpl. pose proof (HT i f Ef) as Hp. simpl in Hp. rewrite <- Ep in Hp. simpl in Hp. lia.
  - intros w T i f y op x offset HT Ef _ [= <-] [_ _ Ep] Hpos. do 3 eexists. split; [done|].
    rewrite (proj2 (Z.ltb_ge _ _)) by lia. by apply positions_insert.
Defined.

(** ** The system *)

Definition idle : ptr := 0x20000100.
Definition tmain : ptr := 0x20000200.
Definition exit_addr : Z := 0x08000100.
Definition application : K unit :=
  rt_thread_init exit_addr tmain [109] (tmain + 1) 0 (tmain + 0x10000) 512 10 5;; rt_thread_startup tmain;; mret tt.
Definition k0 : kstate :=
  run (rtthread_startup exit_addr application idle 0x08000200 (idle + 0x10000) 256) (reset_state HeapDemo.s0).
Definition type_one : ptr := 0x08001000.
Definition sd : list Z := [SLASH; 115; 100].
Definition d0 : dfs (World := world) :=
  run (dfs_init;; dfs_register type_one;; dfs_mount None [SLASH] [111; 110; 101] 0 0;; dfs_mount None sd [111; 110; 101] 0 0)
    (mk_dfs k0 [] ∅ ∅ [] [] [] [] zero_fd).
Definition w0 : list Z := [SLASH].

Example d0_run : result (dfs_init;; dfs_register type_one;; dfs_mount None [SLASH] [111; 110; 101] 0 0;; dfs_mount None sd [111; 110; 101] 0 0)
    (mk_dfs k0 [] ∅ ∅ [] [] [] [] zero_fd) = Some 0.
Proof. vm_compute. reflexivity. Qed.

(** The blocks that are held after calls of malloc (a size) and free (an address) *)
Fixpoint replay (l : list (Z + ptr)) (h : heap) (live : gmap Z Z) : heap * gmap Z Z :=
  match l with
  | [] => (h, live)
  | inl n :: l' => let '(p, h') := malloc n h in replay l' h' (if p =? RT_NULL then live else <[p := n]> live)
  | inr p :: l' => if live !! p then replay l' (free p h) (delete p live) else replay l' h live
  end.

Lemma replay_ok l : forall h live, heap_ok h live -> Forall (fun x => match x with inl n => 0 <= n <= 2 ^ 32 - 4 | _ => True end) l ->
  heap_ok (replay l h live).1 (replay l h live).2.
Proof.
  induction l as [|[n|p] l IH]; intros h live Hh Hl; [done|apply Forall_cons in Hl as [Hn Hl]..]; cbn [replay].
  - pose proof (malloc_law h live n Hh Hn) as [_ Hm]. destruct (malloc n h) as [p h']. simpl fst in Hm. simpl snd in Hm.
    destruct Hm as [[-> Hm]|(Hp & _ & _ & Hm)]; [by apply IH|]. rewrite (proj2 (Z.eqb_neq _ _)) by done. by apply IH.
  - destruct (live !! p) as [n|] eqn:E; [|by apply IH]. destruct (free_law h live p n Hh E) as [_ Hf]. by apply IH.
Qed.

Definition calls0 : list (Z + ptr) := [inl 2; inl 4; inl 4; inl 4; inr 4156; inr 4180].

Definition blocks0 : gmap ptr (list Z) := <[4108 := [SLASH; 0]]> {[4132 := sd ++ [0]]}.
Lemma d0_blocks : dstr d0 = blocks0.
Proof. vm_compute. reflexivity. Qed.
Lemma d0_mounts : filesystem_table d0 = [mk_fs RT_NULL 4108 type_one 0; mk_fs RT_NULL 4132 type_one 0].
Proof. vm_compute. reflexivity. Qed.
Lemma d0_fds : fd_table d0 = replicate 4 zero_fd.
Proof. vm_compute. reflexivity. Qed.

Lemma block0 p : is_Some (blocks0 !! p) -> p = 4108 \/ p = 4132.
Proof. unfold blocks0. intros [l E]. apply lookup_insert_Some in E as [[<- _]|[_ E]]; [by left|]. apply lookup_singleton_Some in E as [<- _]. by right. Qed.

Lemma d0_heap : heap_inv d0.
Proof.
  exists (replay calls0 HeapDemo.s0 ∅).2. split_and!.
  - replace (kheap (dk d0)) with (replay calls0 HeapDemo.s0 ∅).1 by (vm_compute; reflexivity).
    apply replay_ok; [|by repeat constructor].
    exists HeapDemo.l0. split; [apply HeapDemo.s0_inv|]. intros p n E. by rewrite lookup_empty in E.
  - rewrite d0_blocks. change (dirs d0) with (∅ : gmap ptr DIR). intros p [Hp|[x E]]; [|by rewrite lookup_empty in E].
    destruct (block0 p Hp) as [->| ->]; (split; [done|apply (bool_decide_unpack _); vm_compute; exact I]).
  - intros p _. replace (dirs d0) with (∅ : gmap ptr DIR) by (vm_compute; reflexivity). apply lookup_empty.
Qed.

Definition main_thread : rt_thread := default (junk_rt_thread tmain) (threads (dk d0) !! tmain).
Definition lock0 : rt_mutex := default (mk_mutex (mk_object [] 0 0) 0 0 0 RT_NULL) (mutexes (dk d0) !! fslock).
Lemma d0_ready : DfsTables.ready 0 tmain d0.
Proof.
  split; [|exact d0_heap]. split; [apply kinv_check_sound; vm_compute; reflexivity| |vm_compute; reflexivity|done].
  exists main_thread, lock0. split_and!; [split; by vm_compute|vm_compute; reflexivity|split; by vm_compute].
Qed.

Lemma d0_mounted i m : mounted d0 i m <-> (i = 0%nat /\ m = [SLASH]) \/ (i = 1%nat /\ m = sd).
Proof.
  unfold mounted, text_at, text_in. rewrite d0_mounts, d0_blocks. split.
  - intros (x & Ex & _ & _ & l & El & Es). destruct i as [|[|i]]; [injection Ex as <-..|done].
    + vm_compute in El. injection El as <-. injection Es as <-. by left.
    + vm_compute in El. injection El as <-. injection Es as <-. by right.
  - intros [[-> ->]|[-> ->]]; eexists; (split_and!; [reflexivity|done|done|]); eexists; by split.
Qed.

Lemma d0_vfs : vfs_inv tmain d0 w0 ∅.
Proof.
  split; [|apply map_Forall_empty|intros; exact I]. split.
  - exact d0_ready.
  - split; [by rewrite d0_mounts|]. intros i x Ex _ _. assert (i = 0%nat \/ i = 1%nat) as Hi.
    { rewrite d0_mounts in Ex. destruct i as [|[|i]]; [auto..|done]. }
    assert (exists m, mounted d0 i m) as (m & y & Ey & _ & _ & Hm) by (destruct Hi as [-> | ->]; eexists; apply d0_mounted; eauto).
    rewrite Ex in Ey. injection Ey as <-. exists m. exact Hm.
  - intros i m [[-> ->]|[-> ->]]%d0_mounted; [by exists []|]. exists [[115; 100]]. split; [|done].
    apply Forall_singleton. split_and!; [by repeat constructor|done..].
  - by vm_compute.
  - by rewrite d0_fds.
  - intros i f E. rewrite lookup_empty in E. discriminate E.
  - intros i x _ _ E. rewrite d0_fds in E. apply lookup_replicate in E as [-> _]. exists 0. split; [lia|reflexivity].
  - intros i j x y [f E]. rewrite lookup_empty in E. discriminate E.
  - intros i x j y [f E]. rewrite lookup_empty in E. discriminate E.
Qed.

(** ** Witnesses *)

(** "/sd/../sd/a" is the file "/a" of the second file system. *)
Definition path1 : list Z := sd ++ [SLASH; DOT; DOT] ++ sd ++ [SLASH; 97].

Lemma path1_openable : openable d0 w0 ∅ path1 [[97]; [115; 100]].
Proof.
  split; [by repeat constructor|by vm_compute| | |].
  - eexists. split; [reflexivity|]. by vm_compute.
  - intros n Hn. change (length (full_text w0 path1)) with 11%nat in *.
    do 12 (destruct n as [|n]; [by vm_compute|]). lia.
  - intros j a b y _ _. exact I.
Qed.


Lemma open_close_witness :
  exists r d', open path1 DFS_O_CREAT d0 = Ok r d' /\ (r = -1 /\ dstr d' = dstr d0 \/
    exists r' d'', close r d' = Ok r' d'' /\
      (r' = 0 -> vfs_inv tmain d'' w0 ∅ /\ dstr d'' = dstr d0 /\ same_mounts d0 d'')).
Proof. apply (open_close_roundtrip tmain d0 w0 ∅ path1 DFS_O_CREAT [[97]; [115; 100]]); [reflexivity|exact d0_vfs|exact path1_openable]. Defined.

Lemma normalize_path_witness :
  exists p d', dfs_normalize_path None path1 d0 = Ok p d' /\ DfsTables.ready 0 tmain d' /\ inside (canonical [[97]; [115; 100]]) [[97]; [115; 100]] /\
    if decide ((malloc (Z.of_nat (length (full_text w0 path1)) + 1) (kheap (dk d0))).1 = RT_NULL)
    then p = RT_NULL /\ dstr d' = dstr d0
    else p <> RT_NULL /\ dstr d0 !! p = None /\
      exists l, dstr d' = <[p := l]> (dstr d0) /\ cstring l = Some (canonical [[97]; [115; 100]]).
Proof.
  apply (dfs_normalize_path_correct 0 tmain w0 path1 [[97]; [115; 100]] d0);
    [reflexivity|by vm_compute|exact d0_ready|by repeat constructor|by vm_compute|].
  eexists. split; [reflexivity|]. by vm_compute.
Defined.

(** ** Runs *)

(** What is written is read back. *)
Example write_read_run :
  result (fd ← open path1 DFS_O_CREAT; write fd [1; 2; 3];; lseek fd 1 DFS_SEEK_SET;; read fd 8) d0 = Some (2, [2; 3]).
Proof. vm_compute. reflexivity. Qed.

(** A path that leaves the root: the byte before the block is read ... *)
Definition fault_of {X} (m : M (dfs (World := world)) X) : option fault := match m d0 with Ok _ _ => None | Fault f => Some f end.
Example normalize_above_root : fault_of (dfs_normalize_path None [SLASH; DOT; DOT]) = Some BadPointer.
Proof. vm_compute. reflexivity. Qed.

(** ... or the absolute path becomes a relative one. *)
Example normalize_relative :
  result (p ← dfs_normalize_path None [SLASH; DOT; DOT; SLASH; 97]; str_at p) d0 = Some [97].
Proof. vm_compute. reflexivity. Qed.

(** Without a mounted file system [mkdir] fails and keeps its descriptor: after as many
    calls as there are descriptors nothing can be opened, whatever is mounted then. *)
Definition bare : dfs (World := world) := run (dfs_init;; dfs_register type_one) (mk_dfs k0 [] ∅ ∅ [] [] [] [] zero_fd).
Definition mkdir_a : M (dfs (World := world)) Z := mkdir [SLASH; 97].
Example mkdir_leaks :
  result (mkdir_a;; mkdir_a;; mkdir_a;; mkdir_a;; dfs_mount None [SLASH] [111; 110; 101] 0 0;; open [SLASH; 97] DFS_O_CREAT) bare
    = Some (-1) /\
  result (dfs_mount None [SLASH] [111; 110; 101] 0 0;; open [SLASH; 97] DFS_O_CREAT) bare = Some 0.
Proof. split; vm_compute; reflexivity. Qed.

(** [lseek] with a negative offset keeps a reference: the descriptor is in use after [close]. *)
Example lseek_leaks :
  result (fd ← open path1 DFS_O_CREAT; r ← lseek fd (-1) DFS_SEEK_SET; d ← get; mret (r, fd_ref_count <$> fd_table d)) d0
    = Some (-1, [2; 0; 0; 0]).
Proof. vm_compute. reflexivity. Qed.

(** A type that is not registered while the table has a free entry *)
Example mount_unknown_type :
  match dfs_mount None [SLASH] [120] 0 0 bare with Ok _ _ => None | Fault f => Some f end = Some BadPointer.
Proof. vm_compute. reflexivity. Qed.

(** The mount point is compared as it was written: "//" is the root a second time. *)
Example mount_twice :
  result (dfs_mount None [SLASH] [111; 110; 101] 0 0;; dfs_mount None [SLASH; SLASH] [111; 110; 101] 0 0) bare = Some 0.
Proof. vm_compute. reflexivity. Qed.

(** [rename] without a file system *)
Example rename_unmounted :
  match rename [SLASH; 97] [SLASH; 98] bare with Ok _ _ => None | Fault f => Some f end = Some BadPointer.
Proof. vm_compute. reflexivity. Qed.
End DfsWitness.
