(* ===== verification/RamPool.v ===== *)
(** * Blocks of a memory heap with their contents

    What a client of a memory heap relies on: the blocks it holds, each with the bytes it
    has put there, under allocating, freeing, resizing and writing. *)
From stdpp Require Import base tactics numbers list gmap.
From S2P Require Import Prelude Memory KString MemHeap MemHeapLayout MemHeapCorrect MemHeapResize.
Local Open Scope Z_scope.

(** [p]: the heap object; [start], [n]: its area; [B]: the blocks and their first bytes *)
Definition held (s : mhstate) (m : rt_memheap) l (q : Z) (bs : list Z) : Prop :=
  exists k, Z.of_nat (length bs) <= k /\ mh_block m l q k /\ read_bytes (mh_bytes s) q (length bs) = Some bs.
Definition pool (p start n : Z) (s : mhstate) (B : gmap Z (list Z)) : Prop :=
  exists m l fl, mh_inv s p m l fl /\ mh_data s m /\ mh_start_addr m = start /\ mh_pool_size m = n /\
    map_Forall (held s m l) B.

(** [l] written at position [i] of [bs] *)
Definition splice (i : nat) (l bs : list Z) : list Z := take i bs ++ l ++ drop (i + length l) bs.

Lemma length_splice i l bs : (i + length l <= length bs)%nat -> length (splice i l bs) = length bs.
Proof. intros. unfold splice. rewrite !length_app, length_take, length_drop. lia. Qed.

Section pool.
Context (junk : Z -> rt_memheap_item) (p start n : Z).
Implicit Types (s : mhstate) (B : gmap Z (list Z)).

Lemma pool_range s B q bs : pool p start n s B -> B !! q = Some bs ->
  q <> RT_NULL /\ start + 24 <= q /\ q + Z.of_nat (length bs) <= start + n - 24 /\ start + n < 2 ^ 32 /\ 0 < start /\
  Forall (fun b => 0 <= b < 256) bs.
Proof.
  intros (m & l & fl & Hi & Hd & <- & <- & HB) E. destruct (HB q bs E) as (k & Hk & Hb & Hr).
  pose proof (mh_block_range _ _ _ _ _ _ _ Hi Hb). pose proof (mi_area _ _ _ _ _ Hi) as []. unfold RT_NULL.
  split_and!; try lia. eapply read_bytes_ok; [apply Hd|exact Hr].
Qed.

Lemma held_bytes s s' m l q bs : mh_bytes s' = mh_bytes s -> held s m l q bs -> held s' m l q bs.
Proof. intros E (k & ? & ? & ?). exists k. by rewrite E. Qed.

(** The first bytes of a block that is mapped *)
Lemma read_mapped (mb : mem) q (k : nat) : mapped mb q (Z.of_nat k) -> exists bs, length bs = k /\ read_bytes mb q k = Some bs.
Proof.
  revert q. induction k as [|k IH]; intros q Hm; [by exists []|]. destruct (Hm q ltac:(lia)) as [b Eb].
  destruct (IH (q + 1)) as (bs & Hl & E). { intros a Ha. apply Hm. lia. }
  exists (b :: bs). split; [simpl; lia|]. simpl. by rewrite Eb, E.
Qed.

Lemma block_bytes s m l fl q j (k : nat) :
  mh_inv s p m l fl -> mh_data s m -> mh_block m l q j -> Z.of_nat k <= j ->
  exists bs, length bs = k /\ read_bytes (mh_bytes s) q k = Some bs.
Proof.
  intros Hi [Hd _] Hb Hk. apply read_mapped. intros a Ha. apply Hd.
  pose proof (mh_block_range _ _ _ _ _ _ _ Hi Hb). lia.
Qed.

Lemma pool_alloc s B size :
  pool p start n s B -> 0 <= size <= 2 ^ 32 - 4 ->
  exists r s', rt_memheap_alloc junk p size s = Ok r s' /\
    (r = RT_NULL /\ pool p start n s' B \/
     r <> RT_NULL /\ B !! r = None /\ exists bs, length bs = Z.to_nat size /\ pool p start n s' (<[r := bs]> B)).
Proof.
  intros (m & l & fl & Hi & Hd & E1 & E2 & HB) Hsz.
  destruct (alloc_blocks junk s p m l fl size Hi Hsz) as (r & s' & m' & l' & fl' & E & Hi' & [S1 S2] & Eb & Hc).
  assert (mh_data s' m') as Hd' by (destruct Hd; split; by rewrite ?S1, ?S2, Eb).
  exists r, s'. split; [done|]. destruct Hc as [(-> & -> & -> & -> & _)|(k & Hk & _ & Hr & Hblk & Hap)].
  - left. split; [done|]. by exists m, l, fl.
  - right. assert (B !! r = None) as HBr.
    { destruct (B !! r) as [bs|] eqn:Er; [|done]. destruct (HB r bs Er) as (j & ? & Hb & _).
      pose proof (mh_block_range _ _ _ _ _ _ _ Hi Hb). destruct (Hap r j Hb); lia. }
    assert (mh_block m' l' r k) as Hbr by (apply Hblk; by right).
    destruct (block_bytes s' m' l' fl' r k (Z.to_nat size) Hi' Hd' Hbr ltac:(lia)) as (bs & Hl & Hbs).
    split_and!; [done|done|]. exists bs. split; [done|]. exists m', l', fl'. split_and!; try done; try congruence.
    apply map_Forall_insert_2.
    + exists k. split_and!; [lia|done|by rewrite Hl].
    + intros q bs' Eq. destruct (HB q bs' Eq) as (j & ? & ? & ?). exists j. rewrite Eb. split_and!; [done|apply Hblk; by left|done].
Qed.

Lemma pool_free s B q bs :
  pool p start n s B -> B !! q = Some bs ->
  exists s', rt_memheap_free q s = Ok tt s' /\ pool p start n s' (delete q B).
Proof.
  intros (m & l & fl & Hi & Hd & E1 & E2 & HB) Eq. destruct (HB q bs Eq) as (k & _ & Hb & _).
  destruct (free_blocks s p m l fl q k Hi Hb) as (s' & m' & l' & fl' & E & Hi' & [S1 S2] & Eb & _ & Hblk).
  exists s'. split; [done|]. exists m', l', fl'. split_and!; [done|destruct Hd; split; by rewrite ?S1, ?S2, Eb|congruence|congruence|].
  intros r bs' [Hne Er]%lookup_delete_Some. destruct (HB r bs' Er) as (j & ? & ? & ?). exists j. rewrite Eb.
  split_and!; [done|apply Hblk; by split|done].
Qed.

(** Less may be said of a block. *)
Lemma pool_cut s B q bs (k : nat) : pool p start n s B -> B !! q = Some bs -> pool p start n s (<[q := take k bs]> B).
Proof.
  intros (m & l & fl & Hi & Hd & E1 & E2 & HB) Eq. exists m, l, fl. split_and!; try done.
  apply map_Forall_insert_2; [|done]. destruct (HB q bs Eq) as (j & ? & ? & Hr). exists j. rewrite length_take.
  split_and!; [lia|done|]. erewrite (read_bytes_take _ _ _ _ (k `min` length bs)); [|exact Hr|lia].
  f_equal. destruct (decide (k <= length bs)%nat); [by rewrite Nat.min_l by lia|rewrite Nat.min_r, !take_ge by lia; done].
Qed.

Lemma pool_realloc s B q bs (size : nat) :
  pool p start n s B -> B !! q = Some bs -> 0 < Z.of_nat size <= 2 ^ 32 - 16 -> (length bs <= size)%nat ->
  exists r s', rt_memheap_realloc junk p q (Z.of_nat size) s = Ok r s' /\
    (r = RT_NULL /\ pool p start n s' B \/
     r <> RT_NULL /\ delete q B !! r = None /\
     exists bs', length bs' = size /\ take (length bs) bs' = bs /\ pool p start n s' (<[r := bs']> (delete q B))).
Proof.
  intros (m & l & fl & Hi & Hd & E1 & E2 & HB) Eq Hsz Hle. destruct (HB q bs Eq) as (k & Hk & Hb & Hrd).
  destruct (realloc_blocks junk s p m l fl q k _ Hi Hd Hb Hsz) as (r & s' & E & m' & l' & fl' & Hi' & [S1 S2] & Hd' & Hc).
  exists r, s'. split; [done|]. destruct Hc as [(-> & -> & -> & ->)|(j & Hj & Hdata & Hblk & Hoth & Hfresh)].
  - left. split; [done|]. by exists m, l, fl.
  - right. assert (mh_block m' l' r j) as Hbr by (apply Hblk; by right).
    pose proof (mh_block_range _ _ _ _ _ _ _ Hi' Hbr) as Hrr. pose proof (mi_area _ _ _ _ _ Hi') as [].
    assert (forall x bs', delete q B !! x = Some bs' -> exists i, Z.of_nat (length bs') <= i /\ mh_block m' l' x i /\ mh_block m l x i /\ x <> q) as Hkeep.
    { intros x bs' [Hne Ex]%lookup_delete_Some. destruct (HB x bs' Ex) as (i & ? & ? & _). exists i.
      split_and!; [done|apply Hblk; by left|done|done]. }
    assert (delete q B !! r = None) as Hnew.
    { destruct (delete q B !! r) as [bs'|] eqn:Er; [|done]. destruct (Hkeep r bs' Er) as (i & _ & _ & Hbi & Hne).
      destruct Hfresh as [?|Hf]; [done|by destruct (Hf i)]. }
    destruct (block_bytes s' m' l' fl' r j size Hi' Hd' Hbr ltac:(lia)) as (bs' & Hl & Hbs').
    split_and!; [unfold RT_NULL; lia|done|]. exists bs'. split_and!; [done|..].
    + apply list_eq_same_length with (n := length bs); [done|rewrite length_take; lia|].
      intros i x y Hi0 Hx Hy. apply lookup_take_Some in Hx as [Hx _].
      rewrite <- (read_bytes_lookup _ _ _ _ i Hbs') in Hx by lia. rewrite Hdata in Hx by lia.
      rewrite (read_bytes_lookup _ _ _ _ i Hrd) in Hx by lia. congruence.
    + exists m', l', fl'. split_and!; try done; try congruence. apply map_Forall_insert_2.
      * exists j. rewrite Hl. by split_and!.
      * intros x bs2 Ex. destruct (Hkeep x bs2 Ex) as (i & Hi0 & Hbi & Hbi0 & Hne). exists i. split_and!; [done|done|].
        apply lookup_delete_Some in Ex as [_ Ex]. destruct (HB x bs2 Ex) as (_ & _ & _ & Hr2).
        apply read_bytes_intro. intros a b Hab. pose proof (lookup_lt_Some _ _ _ Hab).
        rewrite (Hoth x i) by (done || lia). by rewrite (read_bytes_lookup _ _ _ _ a Hr2) by lia.
Qed.

Lemma pool_realloc_null s B (size : nat) :
  pool p start n s B -> 0 < Z.of_nat size <= 2 ^ 32 - 16 ->
  exists r s', rt_memheap_realloc junk p RT_NULL (Z.of_nat size) s = Ok r s' /\
    (r = RT_NULL /\ pool p start n s' B \/
     r <> RT_NULL /\ B !! r = None /\ exists bs, length bs = size /\ pool p start n s' (<[r := bs]> B)).
Proof.
  intros Hp Hsz. unfold rt_memheap_realloc. rewrite (proj2 (Z.eqb_neq _ _)) by lia. rewrite Z.eqb_refl.
  destruct (mh_request_range (Z.of_nat size) ltac:(lia)) as (R1 & R2 & R3).
  destruct (pool_alloc s B (mh_request (Z.of_nat size)) Hp) as (r & s' & E & Hc).
  { Z.to_euclidean_division_equations; lia. }
  exists r, s'. split; [done|]. destruct Hc as [?|(Hr & HB & bs & Hl & Hp')]; [by left|]. right. split_and!; [done|done|].
  exists (take size bs). split; [rewrite length_take; lia|].
  apply (pool_cut _ _ r bs size) in Hp'; [|apply lookup_insert_eq]. by rewrite insert_insert_eq in Hp'.
Qed.

Lemma pool_write s B q bs (i : nat) l :
  pool p start n s B -> B !! q = Some bs -> (i + length l <= length bs)%nat -> Forall (fun b => 0 <= b < 256) l ->
  pool p start n (set_mh_bytes (write_bytes (mh_bytes s) (q + Z.of_nat i) l) s) (<[q := splice i l bs]> B).
Proof.
  intros (m & ly & fl & Hi & [Hd1 Hd2] & E1 & E2 & HB) Eq Hle Hl. destruct (HB q bs Eq) as (k & Hk & Hb & Hr).
  exists m, ly, fl. split_and!; [by apply mh_inv_bytes| |done|done|].
  { split; simpl; [by apply mapped_write_bytes|by apply write_bytes_ok]. }
  intros r bs' Er. destruct (decide (r = q)) as [->|Hne].
  - rewrite lookup_insert_eq in Er. injection Er as <-. exists k. rewrite length_splice by done. split_and!; [done|done|]. simpl.
    rewrite <- (length_splice i l bs) by done. apply read_bytes_intro. intros a b Hab.
    pose proof (lookup_lt_Some _ _ _ Hab) as Hlt. rewrite length_splice in Hlt by done.
    rewrite lookup_write_bytes. unfold splice in Hab. case_decide as Ha.
    + rewrite lookup_app_r, length_take, Nat.min_l, lookup_app_l in Hab by (rewrite ?length_take; lia).
      rewrite <- Hab. f_equal. lia.
    + rewrite (read_bytes_lookup _ _ _ _ a Hr) by lia. destruct (decide (a < i)%nat).
      * rewrite lookup_app_l, lookup_take_lt in Hab by (rewrite ?length_take; lia). done.
      * rewrite lookup_app_r, length_take, Nat.min_l, lookup_app_r, lookup_drop in Hab by (rewrite ?length_take; lia).
        rewrite <- Hab. f_equal. lia.
  - rewrite lookup_insert_ne in Er by done. destruct (HB r bs' Er) as (j & Hj & Hb' & Hr'). exists j. split_and!; [done|done|].
    apply read_bytes_intro. intros a b Hab. pose proof (lookup_lt_Some _ _ _ Hab). simpl. rewrite lookup_write_bytes.
    destruct (mh_block_apart _ _ _ _ _ _ _ _ _ Hi Hb Hb') as [[? _]|Hap]; [congruence|].
    rewrite decide_False by lia. by rewrite (read_bytes_lookup _ _ _ _ a Hr') by lia.
Qed.

Lemma pool_objects s B v : pool p start n s B -> pool p start n (set_mh_objects v s) B.
Proof. intros (m & l & fl & [] & Hd & ? & ? & HB). exists m, l, fl. by split_and!. Qed.
End pool.

(** A new heap: nothing is held. *)
Lemma pool_init junk p start size s :
  mh_place p start size -> mapped (mh_bytes s) start (RT_ALIGN_DOWN size 4) -> mem_ok (mh_bytes s) ->
  exists s', rt_memheap_init junk p start size s = Ok RT_EOK s' /\ pool p start (RT_ALIGN_DOWN size 4) s' ∅.
Proof.
  intros Hp Hm Hok.
  assert (wp (rt_memheap_init junk p start size) (fun r s' => r = RT_EOK /\ pool p start (RT_ALIGN_DOWN size 4) s' ∅) s) as Hw.
  { apply rt_memheap_init_spec; [done|]. intros s' m Hi E1 E2 Eb. split; [done|]. eexists m, _, _. split_and!; [exact Hi| |done|done|].
    - split; rewrite ?E1, ?E2, Eb; done.
    - apply map_Forall_empty. }
  destruct (wp_ok _ _ _ Hw) as (r & s' & E & -> & Hp'). eauto.
Qed.
