(* ===== verification/Ramfs.v ===== *)
(** * The RAM file system (components/dfs/filesystems/ramfs/dfs_ramfs.c)

    All files are in one directory, a list of entries behind the root entry.  Entries and
    the data of the files are blocks of a memory heap of the file system's own.  The fields of
    the entries are kept apart from the bytes of the heap. *)
From stdpp Require Import base tactics numbers list gmap.
From S2P Require Import Prelude RtList Memory KString MemHeap Kernel DfsPath Dfs.
Local Open Scope Z_scope.

Definition RAMFS_NAME_MAX : nat := 32.
Definition RAMFS_MAGIC : Z := 0x0A0A0A0A.

(** [struct ramfs_dirent] but for its list node *)
Record ramfs_dirent := mk_dirent { de_name : list Z; de_data : ptr; de_size : Z }.
Definition set_de_name v e := mk_dirent v (de_data e) (de_size e).
Definition set_de_data v e := mk_dirent (de_name e) v (de_size e).
Definition set_de_size v e := mk_dirent (de_name e) (de_data e) v.

(** [struct dfs_ramfs]: the magic number, the heap object and the root entry *)
Definition SIZEOF_DIRENT : Z := 48.
Definition SIZEOF_RAMFS : Z := 152.
Definition ramfs_memheap (ramfs : ptr) : ptr := ramfs + 4.
Definition ramfs_root (ramfs : ptr) : ptr := ramfs + 104.

(** The state of the RAM file systems: their heaps, magic numbers, entries, and the list
    behind each root entry.  [ram_errno] is what [rt_set_errno] was last given. *)
Record ramworld := mk_ramworld {
  ram_heap : mhstate;
  ram_magic : gmap ptr Z;
  ram_dirents : gmap ptr ramfs_dirent;
  ram_lists : gmap ptr (list ptr);
  ram_errno : Z
}.
Definition set_ram_heap v w := mk_ramworld v (ram_magic w) (ram_dirents w) (ram_lists w) (ram_errno w).
Definition set_ram_magic v w := mk_ramworld (ram_heap w) v (ram_dirents w) (ram_lists w) (ram_errno w).
Definition set_ram_dirents v w := mk_ramworld (ram_heap w) (ram_magic w) v (ram_lists w) (ram_errno w).
Definition set_ram_lists v w := mk_ramworld (ram_heap w) (ram_magic w) (ram_dirents w) v (ram_errno w).
Definition set_ram_errno v w := mk_ramworld (ram_heap w) (ram_magic w) (ram_dirents w) (ram_lists w) v.

Abbreviation RW := (M ramworld).

Definition inHeap {A} (c : MH A) : RW A := fun w =>
  match c (ram_heap w) with Ok a h => Ok a (set_ram_heap h w) | Fault f => Fault f end.
Definition get_dirent (p : ptr) : RW ramfs_dirent := w ← get; opt BadPointer (ram_dirents w !! p).
Definition upd_dirent (p : ptr) (f : ramfs_dirent -> ramfs_dirent) : RW unit :=
  e ← get_dirent p; modify (fun w => set_ram_dirents (<[p := f e]> (ram_dirents w)) w).

(** [memcpy] from the heap to a caller's buffer, and back *)
Definition copy_out (p : ptr) (n : nat) : RW (list Z) := inHeap (s ← get; opt BadPointer (read_bytes (mh_bytes s) p n)).
Definition copy_in (p : ptr) (l : list Z) : RW unit :=
  inHeap (s ← get; opt BadPointer (read_bytes (mh_bytes s) p (length l));;
          modify (fun s => set_mh_bytes (write_bytes (mh_bytes s) p l) s)).

Section ramfs.
Context `{KConfig}.
(** What memory happens to hold where a heap header is written for the first time, and in
    the buffer of a directory stream *)
Context (junk : Z -> rt_memheap_item) (stale : nat -> Z).

Definition dfs_ramfs_mount (fs : dfs_filesystem) (rwflag data : Z) : RW (Z * Z) :=
  if data =? RT_NULL then mret (- DFS_STATUS_EIO, fs_data fs) else mret (DFS_STATUS_OK, data).
Definition dfs_ramfs_unmount (fs : dfs_filesystem) : RW (Z * Z) := mret (DFS_STATUS_OK, RT_NULL).

Definition dfs_ramfs_statfs (fs : dfs_filesystem) : RW (Z * statfs) :=
  RT_ASSERT (negb (fs_data fs =? RT_NULL));;
  m ← inHeap (get_mh (ramfs_memheap (fs_data fs)));
  mret (DFS_STATUS_OK, mk_statfs 512 (mh_pool_size m / 512) (mh_available_size m / 512)).

Definition dfs_ramfs_ioctl (fs : dfs_filesystem) (x : dfs_fd) (cmd args : Z) : RW (Z * fd_part) :=
  mret (- DFS_STATUS_EIO, part_of x).

(** [while ( *subpath == '/' && *subpath) subpath ++;] *)
Fixpoint skip_separators (path : list Z) : list Z :=
  match path with c :: path' => if c =? SLASH then skip_separators path' else path | [] => [] end.

(** [rt_strcmp(dirent->name, subpath) == 0]; [None]: the comparison leaves the array. *)
Fixpoint name_eq (name subpath : list Z) : option bool :=
  match name, subpath with
  | [], _ => None
  | b :: _, [] => Some (b =? 0)
  | b :: name', c :: subpath' => if b =? c then name_eq name' subpath' else Some false
  end.

Fixpoint find_dirent (l : list ptr) (subpath : list Z) : RW ptr :=
  match l with
  | [] => mret RT_NULL
  | dirent :: l' =>
      e ← get_dirent dirent;
      eq ← opt BadPointer (name_eq (de_name e) subpath);
      if eq : bool then mret dirent else find_dirent l' subpath
  end.

(** The size that is stored through the third argument is not used by any caller. *)
Definition dfs_ramfs_lookup (ramfs : ptr) (path : list Z) : RW ptr :=
  match skip_separators path with
  | [] => mret (ramfs_root ramfs)
  | subpath => w ← get; find_dirent (ram_lists w !!! ramfs_root ramfs) subpath
  end.

Definition dfs_ramfs_read (fs : dfs_filesystem) (file : dfs_fd) (count : Z) : RW (Z * fd_part * list Z) :=
  let dirent := fd_data file in
  RT_ASSERT (negb (dirent =? RT_NULL));;
  let rest := u32 (fd_size file - fd_pos file) in
  let length := if u32 count <? rest then u32 count else rest in
  bytes ← (if 0 <? length then e ← get_dirent dirent; copy_out (de_data e + fd_pos file) (Z.to_nat length) else mret []);
  mret (s32 length, mk_part (fd_flags file) (fd_size file) (s32 (fd_pos file + length)) (fd_data file), bytes).

Definition dfs_ramfs_write (fs : dfs_filesystem) (fd : dfs_fd) (buf : list Z) : RW (Z * fd_part) :=
  RT_ASSERT (negb (fs_data fs =? RT_NULL));;
  let dirent := fd_data fd in
  RT_ASSERT (negb (dirent =? RT_NULL));;
  let count := u32 (Z.of_nat (length buf)) in
  grown ←
    (if fd_size fd <? u32 (count + fd_pos fd) then
       e ← get_dirent dirent;
       ptr ← inHeap (rt_memheap_realloc junk (ramfs_memheap (fs_data fs)) (de_data e) (u32 (fd_pos fd + count)));
       if ptr =? RT_NULL then modify (set_ram_errno (- RT_ENOMEM));; mret None
       else
         upd_dirent dirent (set_de_data ptr);;
         upd_dirent dirent (set_de_size (u32 (fd_pos fd + count)));;
         mret (Some (u32 (fd_pos fd + count)))
     else mret (Some (fd_size fd)));
  match grown with
  | None => mret (0, part_of fd)
  | Some size =>
      when (0 <? count) (e ← get_dirent dirent; copy_in (de_data e + fd_pos fd) (take (Z.to_nat count) buf));;
      mret (s32 count, mk_part (fd_flags fd) size (s32 (fd_pos fd + count)) (fd_data fd))
  end.

Definition dfs_ramfs_lseek (fs : dfs_filesystem) (file : dfs_fd) (offset : Z) : RW (Z * fd_part) :=
  if offset <=? s32 (fd_size file)
  then mret (s32 offset, mk_part (fd_flags file) (fd_size file) offset (fd_data file))
  else mret (- DFS_STATUS_EIO, part_of file).

Definition dfs_ramfs_close (fs : dfs_filesystem) (file : dfs_fd) : RW (Z * fd_part) :=
  mret (DFS_STATUS_OK, mk_part (fd_flags file) (fd_size file) (fd_pos file) RT_NULL).

(** A new entry in front of the list; [RT_NULL] without memory *)
Definition create_dirent (ramfs : ptr) (path : list Z) : RW ptr :=
  dirent ← inHeap (rt_memheap_alloc junk (ramfs_memheap ramfs) SIZEOF_DIRENT);
  if dirent =? RT_NULL then mret RT_NULL
  else
    let name := strncpy_bytes RAMFS_NAME_MAX (skip_separators path) in
    modify (fun w => set_ram_dirents (<[dirent := mk_dirent name RT_NULL 0]> (ram_dirents w)) w);;
    modify (fun w => set_ram_lists (Abs.insert_front (ramfs_root ramfs) dirent (ram_lists w)) w);;
    mret dirent.

Definition truncate_dirent (dirent : ptr) : RW unit :=
  upd_dirent dirent (set_de_size 0);;
  e ← get_dirent dirent;
  when (negb (de_data e =? RT_NULL)) (inHeap (rt_memheap_free (de_data e));; upd_dirent dirent (set_de_data RT_NULL)).

(** The entry an [open] leads to, or an error *)
Definition open_dirent (ramfs : ptr) (path : list Z) (flags : Z) : RW (Z + ptr) :=
  let flag f := negb (Z.land flags f =? 0) in
  if flag DFS_O_DIRECTORY then
    if flag DFS_O_CREAT then mret (inl (- DFS_STATUS_ENOSPC))
    else
      dirent ← dfs_ramfs_lookup ramfs path;
      if dirent =? RT_NULL then mret (inl (- DFS_STATUS_ENOENT))
      else if (dirent =? ramfs_root ramfs) && negb (flag DFS_O_DIRECTORY) then mret (inl (- DFS_STATUS_ENOENT))
      else mret (inr dirent)
  else
    dirent ← dfs_ramfs_lookup ramfs path;
    if dirent =? ramfs_root ramfs then mret (inl (- DFS_STATUS_ENOENT))
    else
      dirent ← (if dirent =? RT_NULL then
                  if flag DFS_O_CREAT || flag DFS_O_WRONLY then
                    dirent ← create_dirent ramfs path;
                    mret (if dirent =? RT_NULL then inl (- DFS_STATUS_ENOMEM) else inr dirent)
                  else mret (inl (- DFS_STATUS_ENOENT))
                else mret (inr dirent));
      match dirent with
      | inl e => mret (inl e)
      | inr dirent => when (flag DFS_O_TRUNC) (truncate_dirent dirent);; mret (inr dirent)
      end.

Definition dfs_ramfs_open (fs : dfs_filesystem) (path : list Z) (file : dfs_fd) : RW (Z * fd_part) :=
  RT_ASSERT (negb (fs_data fs =? RT_NULL));;
  r ← open_dirent (fs_data fs) path (fd_flags file);
  match r with
  | inl e => mret (e, part_of file)
  | inr dirent =>
      e ← get_dirent dirent;
      let pos := if negb (Z.land (fd_flags file) DFS_O_APPEND =? 0) then s32 (de_size e) else 0 in
      mret (DFS_STATUS_OK, mk_part (fd_flags file) (de_size e) pos dirent)
  end.

Definition dfs_ramfs_stat (fs : dfs_filesystem) (path : list Z) : RW (Z * option stat) :=
  dirent ← dfs_ramfs_lookup (fs_data fs) path;
  if dirent =? RT_NULL then mret (- DFS_STATUS_ENOENT, None)
  else e ← get_dirent dirent; mret (DFS_STATUS_OK, Some (mk_stat RT_NULL (Z.lor DFS_S_IFREG DFS_S_IRW) (de_size e) 0 512)).

(** One [struct dirent]: type, length of the name, size of the record in two bytes, name *)
Definition SIZEOF_STRUCT_DIRENT : Z := 260.
Definition dirent_record (e : ramfs_dirent) : list Z :=
  [1; Z.of_nat RT_NAME_MAX; 4; 1] ++ strncpy_bytes RAMFS_NAME_MAX (default (de_name e) (cstring (de_name e))) ++
  (stale <$> seq 36 224).

Fixpoint getdents_loop (l : list ptr) (index end_ count pos : Z) (acc : list Z) : RW (Z * Z * list Z) :=
  match l with
  | [] => mret (count, pos, acc)
  | dirent :: l' =>
      if index <? end_ then
        if u32 pos <=? index then
          e ← get_dirent dirent;
          getdents_loop l' (index + 1) end_ (count + 1) (pos + 1) (acc ++ dirent_record e)
        else getdents_loop l' (index + 1) end_ count pos acc
      else mret (count, pos, acc)
  end.

Definition dfs_ramfs_getdents (fs : dfs_filesystem) (file : dfs_fd) (count : Z) : RW (Z * fd_part * list Z) :=
  let root := ramfs_root (fs_data fs) in
  if negb (fd_data file =? root) then mret (- DFS_STATUS_EINVAL, part_of file, [])
  else
    let count := u32 count / SIZEOF_STRUCT_DIRENT in
    if count =? 0 then mret (- DFS_STATUS_EINVAL, part_of file, [])
    else
      w ← get;
      '(count, pos, bytes) ← getdents_loop (ram_lists w !!! root) 0 (u32 (fd_pos file + count)) 0 (fd_pos file) [];
      mret (s32 (count * SIZEOF_STRUCT_DIRENT), mk_part (fd_flags file) (fd_size file) pos (fd_data file), bytes).

(** The list operation on the root entry itself would take the head out of its ring. *)
Definition dfs_ramfs_unlink (fs : dfs_filesystem) (path : list Z) : RW Z :=
  RT_ASSERT (negb (fs_data fs =? RT_NULL));;
  dirent ← dfs_ramfs_lookup (fs_data fs) path;
  if dirent =? RT_NULL then mret (- DFS_STATUS_ENOENT)
  else if dirent =? ramfs_root (fs_data fs) then throw BadList
  else
    modify (fun w => set_ram_lists (Abs.remove dirent (ram_lists w)) w);;
    e ← get_dirent dirent;
    when (negb (de_data e =? RT_NULL)) (inHeap (rt_memheap_free (de_data e)));;
    inHeap (rt_memheap_free dirent);;
    modify (fun w => set_ram_dirents (delete dirent (ram_dirents w)) w);;
    mret DFS_STATUS_OK.

Definition dfs_ramfs_rename (fs : dfs_filesystem) (oldpath newpath : option (list Z)) : RW Z :=
  RT_ASSERT (negb (fs_data fs =? RT_NULL));;
  newpath ← opt BadPointer newpath;
  dirent ← dfs_ramfs_lookup (fs_data fs) newpath;
  if negb (dirent =? RT_NULL) then mret (- DFS_STATUS_EEXIST)
  else
    oldpath ← opt BadPointer oldpath;
    dirent ← dfs_ramfs_lookup (fs_data fs) oldpath;
    if dirent =? RT_NULL then mret (- DFS_STATUS_ENOENT)
    else upd_dirent dirent (set_de_name (strncpy_bytes RAMFS_NAME_MAX newpath));; mret DFS_STATUS_OK.

(** The file system in the area of [size] bytes at [pool]; the heap object is taken out of
    the object container again. *)
Definition dfs_ramfs_create (pool size : Z) : RW ptr :=
  let size := RT_ALIGN_DOWN size 4 in
  let size := RT_ALIGN_DOWN (u32 (size - SIZEOF_RAMFS)) 4 in
  result ← inHeap (rt_memheap_init junk (ramfs_memheap pool) (pool + SIZEOF_RAMFS) size);
  if negb (result =? RT_EOK) then mret RT_NULL
  else
    inHeap (modify (fun s => set_mh_objects (list_del (ramfs_memheap pool) (mh_objects s)) s));;
    modify (fun w => set_ram_magic (<[pool := RAMFS_MAGIC]> (ram_magic w)) w);;
    modify (fun w => set_ram_dirents (<[ramfs_root pool := mk_dirent (strncpy_bytes RAMFS_NAME_MAX [DOT]) RT_NULL 0]> (ram_dirents w)) w);;
    modify (fun w => set_ram_lists (<[ramfs_root pool := []]> (ram_lists w)) w);;
    mret pool.

(** The table [_ramfs] *)
Definition ramfs_name : list Z := [114; 97; 109].
Definition ramfs_ops : FsOps ramworld := {|
  op_name := fun _ => ramfs_name;
  op_flags := fun _ => 0;
  op_mount := fun _ => Some dfs_ramfs_mount;
  op_unmount := fun _ => Some dfs_ramfs_unmount;
  op_mkfs := fun _ => None;
  op_statfs := fun _ => Some dfs_ramfs_statfs;
  op_open := fun _ => Some dfs_ramfs_open;
  op_close := fun _ => Some dfs_ramfs_close;
  op_ioctl := fun _ => Some dfs_ramfs_ioctl;
  op_read := fun _ => Some dfs_ramfs_read;
  op_write := fun _ => Some dfs_ramfs_write;
  op_flush := fun _ => None;
  op_lseek := fun _ => Some dfs_ramfs_lseek;
  op_getdents := fun _ => Some dfs_ramfs_getdents;
  op_unlink := fun _ => Some dfs_ramfs_unlink;
  op_stat := fun _ => Some dfs_ramfs_stat;
  op_rename := fun _ => Some dfs_ramfs_rename
|}.
End ramfs.
