(* ===== verification/RamfsCorrect.v ===== *)
(** * The RAM file system as a map from names to contents

    The entries and data blocks of the file system represent a finite map from names to byte
    strings, the root being the file with the empty name.  Each operation on it is an operation
    on the map. *)
From stdpp Require Import base tactics numbers list gmap.
From S2P Require Import Prelude RtList Memory KString SmallMem MemHeap MemHeapLayout MemHeapCorrect MemHeapResize Kernel Scheduler Object Timer Thread Ipc Mutex Device DfsPath Dfs DfsFile DfsPosix DfsTables DfsOpen DfsCalls RamPool Ramfs.
Local Open Scope Z_scope.

(** What a block is for: an entry or the data of the file of that name *)
Inductive use := UEntry (nm : list Z) | UData (nm : list Z).

(** A name that can be stored with its terminator *)
Definition name_fits (nm : list Z) : Prop := (length nm < RAMFS_NAME_MAX)%nat /\ Forall (fun c => c <> 0) nm.

Section correct.
Context (junk : Z -> rt_memheap_item) (stale : nat -> Z).
(** The file system at [R]; its heap has [n] bytes. *)
Context (R n : Z).
Let start := R + SIZEOF_RAMFS.
Let root := ramfs_root R.

(** The file [nm] with contents [c] at entry [d] *)
Record file_at (w : ramworld) (B : gmap Z (list Z)) (G : gmap Z use) (nm : list Z) (d : ptr) (c : list Z) (e : ramfs_dirent) : Prop := {
  fa_dirent : ram_dirents w !! d = Some e;
  fa_size : de_size e = Z.of_nat (length c);
  fa_data : de_data e = RT_NULL /\ c = [] \/ G !! de_data e = Some (UData nm) /\ B !! de_data e = Some c;
  fa_entry : nm = [] \/ G !! d = Some (UEntry nm) /\ name_fits nm /\ de_name e = strncpy_bytes RAMFS_NAME_MAX nm
}.

Record core (w : ramworld) (B : gmap Z (list Z)) (G : gmap Z use) (E : gmap (list Z) ptr) (F : gmap (list Z) (list Z)) : Prop := {
  co_pool : pool (ramfs_memheap R) start n (ram_heap w) B;
  co_place : 0 < R /\ n < 2 ^ 31;
  co_used : forall q u, G !! q = Some u -> is_Some (B !! q);
  co_root : E !! [] = Some root;
  co_list : forall d, d ∈ ram_lists w !!! root <-> exists nm, nm <> [] /\ E !! nm = Some d;
  co_file : forall nm d, E !! nm = Some d -> exists c e, F !! nm = Some c /\ file_at w B G nm d c e;
  co_names : forall nm c, F !! nm = Some c -> is_Some (E !! nm)
}.

Lemma core_block w B G E F q u : core w B G E F -> G !! q = Some u -> q <> RT_NULL /\ q <> root.
Proof.
  intros C Hq. destruct (co_used _ _ _ _ _ C q u Hq) as [bs Hb].
  pose proof (pool_range _ _ _ _ _ _ _ (co_pool _ _ _ _ _ C) Hb) as (? & ? & _). split; [done|].
  unfold root, ramfs_root, start, SIZEOF_RAMFS in *. lia.
Qed.

Lemma core_entry w B G E F nm d : core w B G E F -> E !! nm = Some d -> d <> RT_NULL /\ (d = root <-> nm = []).
Proof.
  intros C Hd. destruct (co_file _ _ _ _ _ C nm d Hd) as (c & e & _ & [_ _ _ [->|[Hg _]]]).
  - rewrite (co_root _ _ _ _ _ C) in Hd. injection Hd as <-. split; [|done].
    destruct (co_place _ _ _ _ _ C). unfold root, ramfs_root, RT_NULL. lia.
  - destruct (core_block _ _ _ _ _ _ _ C Hg) as [? Hr]. split; [done|]. split; [done|]. intros ->.
    rewrite (co_root _ _ _ _ _ C) in Hd. congruence.
Qed.

Lemma core_inj w B G E F nm nm' d : core w B G E F -> E !! nm = Some d -> E !! nm' = Some d -> nm = nm'.
Proof.
  intros C H1 H2. destruct (core_entry _ _ _ _ _ _ _ C H1) as [_ R1], (core_entry _ _ _ _ _ _ _ C H2) as [_ R2].
  destruct (co_file _ _ _ _ _ C nm d H1) as (? & ? & _ & [_ _ _ [->|[G1 _]]]).
  - symmetry. by apply R2, R1.
  - destruct (co_file _ _ _ _ _ C nm' d H2) as (? & ? & _ & [_ _ _ [->|[G2 _]]]); [by apply R1, R2|congruence].
Qed.

(** ** Finding an entry *)

Lemma name_eq_spec (k : nat) nm nm' :
  (length nm' < k)%nat -> Forall (fun c => c <> 0) nm -> Forall (fun c => c <> 0) nm' ->
  name_eq (strncpy_bytes k nm') nm = Some (bool_decide (nm' = nm)).
Proof.
  unfold strncpy_bytes. revert k nm. induction nm' as [|b nm' IH]; intros k nm Hk H1 H2.
  - destruct k as [|k]; [simpl in Hk; lia|]. destruct nm as [|c nm]; [done|]. simpl.
    apply Forall_cons in H1 as [Hc _]. by destruct c.
  - destruct k as [|k]; [simpl in Hk; lia|]. simpl. apply Forall_cons in H2 as [Hb H2].
    destruct nm as [|c nm]; [by rewrite (proj2 (Z.eqb_neq b 0))|]. apply Forall_cons in H1 as [Hc H1].
    destruct (Z.eqb_spec b c) as [->|Hne]; [|by rewrite bool_decide_eq_false_2 by congruence].
    assert (take k (nm' ++ 0 :: replicate k 0) = take k (nm' ++ replicate k 0)) as ->.
    { change (0 :: replicate k 0) with (replicate (S k) 0). rewrite !take_app, !take_replicate. do 2 f_equal. lia. }
    rewrite IH by (done || simpl in *; lia). f_equal. apply bool_decide_ext. split; congruence.
Qed.

Lemma find_dirent_spec w B G E F nm :
  core w B G E F -> nm <> [] -> Forall (fun c => c <> 0) nm ->
  find_dirent (ram_lists w !!! root) nm w = Ok (default RT_NULL (E !! nm)) w.
Proof.
  intros C Hnm H0.
  assert (forall l, (forall d, d ∈ l -> exists nm, nm <> [] /\ E !! nm = Some d) ->
    exists r, find_dirent l nm w = Ok r w /\ (r = RT_NULL /\ (forall d, E !! nm = Some d -> d ∉ l) \/ E !! nm = Some r)) as Hfind.
  { induction l as [|d l IH]; intros Hl; [exists RT_NULL; split; [done|]; left; split; [done|]; intros; apply not_elem_of_nil|].
    destruct (Hl d ltac:(left)) as (nm' & Hnm' & Ed). destruct (co_file _ _ _ _ _ C nm' d Ed) as (c & e & _ & [Ee _ _ Hent]).
    destruct Hent as [?|(_ & [Hf1 Hf2] & En)]; [done|]. simpl. unfold get_dirent, mbind, M_bind, get, opt. rewrite Ee. simpl.
    rewrite En, name_eq_spec by done. simpl. case_bool_decide as Heq; [subst nm'; exists d; by split; [|right]|].
    destruct IH as (r & Er & Hr); [intros d' Hd'; apply Hl; by right|]. exists r. split; [exact Er|].
    destruct Hr as [[-> Hr]|Hr]; [left; split; [done|]|by right]. intros d' Ed' [->|?]%elem_of_cons; [|by eapply Hr].
    by apply Heq, (core_inj _ _ _ _ _ _ _ d C). }
  destruct (Hfind (ram_lists w !!! root)) as (r & Er & Hr).
  { intros d Hd. by apply (co_list _ _ _ _ _ C). }
  rewrite Er. f_equal. destruct Hr as [[-> Hr]| ->]; [|done]. destruct (E !! nm) as [d|] eqn:Ed; [|done].
  exfalso. apply (Hr d eq_refl). apply (co_list _ _ _ _ _ C). eauto.
Qed.

Lemma lookup_spec w B G E F path :
  core w B G E F -> Forall (fun c => c <> 0) (skip_separators path) ->
  dfs_ramfs_lookup R path w = Ok (default RT_NULL (E !! skip_separators path)) w.
Proof.
  intros C H0. unfold dfs_ramfs_lookup. destruct (skip_separators path) as [|c nm] eqn:Es.
  - by rewrite (co_root _ _ _ _ _ C).
  - unfold mbind, M_bind, get. rewrite <- Es in *. apply (find_dirent_spec _ B G E F); [done|by rewrite Es|done].
Qed.

(** ** Changes of the representation *)

(** The file [nm] gets the contents [c'] and the entry [e']; the blocks of other uses stay. *)
Lemma core_update w B G E F nm d c e s' B' G' c' e' :
  core w B G E F -> E !! nm = Some d -> file_at w B G nm d c e -> pool (ramfs_memheap R) start n s' B' ->
  (forall q u, u <> UData nm -> G !! q = Some u -> G' !! q = Some u /\ B' !! q = B !! q) ->
  (forall q u, G' !! q = Some u -> is_Some (B' !! q)) ->
  de_name e' = de_name e -> de_size e' = Z.of_nat (length c') ->
  (de_data e' = RT_NULL /\ c' = [] \/ G' !! de_data e' = Some (UData nm) /\ B' !! de_data e' = Some c') ->
  core (set_ram_dirents (<[d := e']> (ram_dirents w)) (set_ram_heap s' w)) B' G' E (<[nm := c']> F).
Proof.
  intros C Ed [Ee _ _ Hent] Hp Hkeep Hused En Esz Hdata. pose proof C as [C1 C2 C3 C4 C5 C6 C7]. split; try done.
  - intros nm' d' Ed'. destruct (decide (nm' = nm)) as [->|Hne].
    + simplify_eq. exists c', e'. split; [apply lookup_insert_eq|]. split; [apply lookup_insert_eq|done|done|].
      destruct Hent as [?|(Hg & Hf & Hn)]; [by left|right]. split_and!; [by apply Hkeep|done|congruence].
    + assert (d' <> d) as Hdd by (intros ->; by apply Hne, (core_inj _ _ _ _ _ _ _ d C)).
      destruct (C6 nm' d' Ed') as (c1 & e1 & Hc1 & [F1 F2 F3 F4]). exists c1, e1. rewrite lookup_insert_ne by done. split; [done|].
      split; simpl; [by rewrite lookup_insert_ne|done| |].
      * destruct F3 as [?|[Hg Hb]]; [by left|right]. destruct (Hkeep (de_data e1) (UData nm') ltac:(congruence) Hg) as [-> ->]. done.
      * destruct F4 as [?|(Hg & ?)]; [by left|right]. split; [|done]. by apply (Hkeep d' (UEntry nm') ltac:(done) Hg).
  - intros nm' c1. rewrite lookup_insert. case_decide; [subst; intros _; eauto|eauto].
Qed.

Lemma core_create w B G E F nm d bs s' :
  core w B G E F -> E !! nm = None -> nm <> [] -> name_fits nm -> B !! d = None ->
  pool (ramfs_memheap R) start n s' (<[d := bs]> B) ->
  core (set_ram_lists (Abs.insert_front root d (ram_lists w))
          (set_ram_dirents (<[d := mk_dirent (strncpy_bytes RAMFS_NAME_MAX nm) RT_NULL 0]> (ram_dirents w)) (set_ram_heap s' w)))
       (<[d := bs]> B) (<[d := UEntry nm]> G) (<[nm := d]> E) (<[nm := []]> F).
Proof.
  intros C Enm Hnm Hf Hd Hp. pose proof C as [C1 C2 C3 C4 C5 C6 C7].
  assert (G !! d = None) as Hg.
  { destruct (G !! d) as [u|] eqn:Eg; [|done]. destruct (C3 d u Eg) as [? ?]. congruence. }
  assert (forall nm' d', E !! nm' = Some d' -> d' <> d) as Hfresh.
  { intros nm' d' Ed' ->. destruct (C6 nm' d Ed') as (c & e & _ & [_ _ _ [->|[? _]]]); [|congruence].
    assert (d = root) as -> by congruence.
    destruct (pool_range _ _ _ _ _ root bs Hp) as (_ & Hr & _); [apply lookup_insert_eq|].
    unfold root, ramfs_root, start, SIZEOF_RAMFS in Hr. lia. }
  split; try done.
  - intros q u. rewrite !lookup_insert. case_decide; [eauto|apply C3].
  - by rewrite lookup_insert_ne.
  - intros d'. simpl. unfold Abs.insert_front. rewrite lookup_total_insert_eq, elem_of_cons, C5. split.
    + intros [->|(nm' & ? & Ed')]; [exists nm; by rewrite lookup_insert_eq|]. exists nm'. split; [done|].
      rewrite lookup_insert_ne; [done|congruence].
    + intros (nm' & ? & Ed'). rewrite lookup_insert in Ed'. case_decide; [left; congruence|right; eauto].
  - intros nm' d'. rewrite !lookup_insert. case_decide as Hnm'; [subst nm'; intros [= <-]|intros Ed'].
    + eexists [], _. split; [done|]. split; [apply lookup_insert_eq|done|by left|right].
      split_and!; [apply lookup_insert_eq|done|done].
    + destruct (C6 nm' d' Ed') as (c & e & Hc & [F1 F2 F3 F4]). exists c, e. split; [done|].
      split; simpl; [rewrite lookup_insert_ne; [done|by apply not_eq_sym, (Hfresh nm')]|done| |].
      * destruct F3 as [?|[H1 H2]]; [by left|right]. rewrite !lookup_insert_ne by congruence. done.
      * destruct F4 as [?|[H1 ?]]; [by left|right]. rewrite lookup_insert_ne by congruence. done.
  - intros nm' c. rewrite !lookup_insert. case_decide; [eauto|apply C7].
Qed.

(** ** Open files *)

Record opened (E : gmap (list Z) ptr) (F : gmap (list Z) (list Z)) (T : gmap nat file) : Prop := {
  op_file : forall i f, T !! i = Some f -> exists c, E !! skip_separators (f_name f) = Some (pt_data (f_part f)) /\
    F !! skip_separators (f_name f) = Some c /\ pt_size (f_part f) = Z.of_nat (length c) /\ 0 <= pt_pos (f_part f) <= pt_size (f_part f);
  op_apart : forall i j f g, T !! i = Some f -> T !! j = Some g -> i <> j -> skip_separators (f_name f) <> skip_separators (g.(f_name))
}.

(** The RAM file system holds the files [F] while the files [T] are open. *)
Definition ram_state (w : ramworld) (F : gmap (list Z) (list Z)) (T : gmap nat file) : Prop :=
  exists B G E, core w B G E F /\ opened E F T.

(** One open file and its contents change. *)
Lemma opened_update E F T i f v c' :
  opened E F T -> T !! i = Some f -> pt_data v = pt_data (f_part f) -> pt_size v = Z.of_nat (length c') -> 0 <= pt_pos v <= pt_size v ->
  opened E (<[skip_separators (f_name f) := c']> F) (<[i := set_f_part v f]> T).
Proof.
  intros [O1 O2] Ef Hd Hs Hp. split.
  - intros j g. rewrite lookup_insert. case_decide as Hj; [subst j; intros [= <-]|intros Eg].
    + exists c'. simpl. rewrite lookup_insert_eq, Hd. destruct (O1 i f Ef) as (c & ? & _). done.
    + destruct (O1 j g Eg) as (c & ? & ? & ? & ? & ?). exists c. split_and!; try done.
      rewrite lookup_insert_ne; [done|]. by eapply (O2 i j).
  - intros j k g h. rewrite !lookup_insert. repeat case_decide; intros; simplify_eq/=; eauto.
Qed.

Lemma opened_delete E F T i : opened E F T -> opened E F (delete i T).
Proof.
  intros [O1 O2]. split.
  - intros j g [_ Eg]%lookup_delete_Some. eauto.
  - intros j k g h [_ Eg]%lookup_delete_Some [_ Eh]%lookup_delete_Some. eauto.
Qed.

(** A file that is not open gets new contents. *)
Lemma opened_other E E' F T nm c :
  opened E F T -> (forall i f, T !! i = Some f -> skip_separators (f_name f) <> nm) ->
  (forall nm', nm' <> nm -> E' !! nm' = E !! nm') -> opened E' (<[nm := c]> F) T.
Proof.
  intros [O1 O2] Hne HE. split; [|done]. intros j g Eg. destruct (O1 j g Eg) as (c1 & ? & ? & ?). exists c1.
  rewrite HE, lookup_insert_ne by (by eapply not_eq_sym, Hne || by eapply Hne). done.
Qed.

Lemma opened_add E F T i f c :
  opened E F T -> T !! i = None -> (forall j g, T !! j = Some g -> skip_separators (f_name g) <> skip_separators (f_name f)) ->
  E !! skip_separators (f_name f) = Some (pt_data (f_part f)) -> F !! skip_separators (f_name f) = Some c ->
  pt_size (f_part f) = Z.of_nat (length c) -> 0 <= pt_pos (f_part f) <= pt_size (f_part f) -> opened E F (<[i := f]> T).
Proof.
  intros [O1 O2] Hi Hne HE HF Hs Hp. split.
  - intros j g. rewrite lookup_insert. case_decide; [intros [= <-]; eauto|eauto].
  - intros j k g h. rewrite !lookup_insert. repeat case_decide; intros; simplify_eq/=; eauto.
    apply not_eq_sym. eauto.
Qed.

(** The data block of a file is made longer, or there is no memory. *)
Lemma grow_block w B G E F nm d c e (size : nat) :
  core w B G E F -> file_at w B G nm d c e -> (length c < size)%nat -> Z.of_nat size < 2 ^ 31 ->
  exists q s', rt_memheap_realloc junk (ramfs_memheap R) (de_data e) (Z.of_nat size) (ram_heap w) = Ok q s' /\
    (q = RT_NULL /\ pool (ramfs_memheap R) start n s' B \/
     q <> RT_NULL /\ delete (de_data e) B !! q = None /\ exists bs, length bs = size /\ take (length c) bs = c /\
       pool (ramfs_memheap R) start n s' (<[q := bs]> (delete (de_data e) B))).
Proof.
  intros C [_ _ Hdata _] Hlt Hsz. pose proof (co_pool _ _ _ _ _ C) as Hp. destruct Hdata as [[-> ->]|[_ Hb]].
  - destruct (pool_realloc_null junk _ _ _ _ B size Hp ltac:(lia)) as (q & s' & E1 & Hc). exists q, s'. split; [done|].
    assert (B !! RT_NULL = None) as Hn.
    { destruct (B !! RT_NULL) eqn:Eb; [|done]. by destruct (pool_range _ _ _ _ _ _ _ Hp Eb). }
    rewrite (delete_id B RT_NULL Hn). destruct Hc as [?|(? & ? & bs & ? & ?)]; [by left|right]. split_and!; [done|done|].
    exists bs. by split_and!.
  - exact (pool_realloc junk _ _ _ _ B _ c size Hp Hb ltac:(lia) ltac:(lia)).
Qed.

Lemma wp_inHeap {X} (c : MH X) (Q : X -> ramworld -> Prop) w :
  wp c (fun a s => Q a (set_ram_heap s w)) (ram_heap w) -> wp (inHeap c) Q w.
Proof. unfold wp, inHeap. by destruct (c (ram_heap w)). Qed.

Lemma wp_upd_dirent d e f w (Q : unit -> ramworld -> Prop) :
  ram_dirents w !! d = Some e -> Q tt (set_ram_dirents (<[d := f e]> (ram_dirents w)) w) -> wp (upd_dirent d f) Q w.
Proof. intros E HQ. unfold upd_dirent, get_dirent. do 3 wp_step. eapply wp_opt; [exact E|]. by wp_step. Qed.

(** Bytes are copied into a block. *)
Lemma wp_copy_in s B q bs (k : nat) l (Q : unit -> ramworld -> Prop) w1 :
  pool (ramfs_memheap R) start n s B -> B !! q = Some bs -> (k + length l <= length bs)%nat -> Forall (fun b => 0 <= b < 256) l ->
  ram_heap w1 = s ->
  (forall s', pool (ramfs_memheap R) start n s' (<[q := splice k l bs]> B) -> Q tt (set_ram_heap s' w1)) ->
  wp (copy_in (q + Z.of_nat k) l) Q w1.
Proof.
  intros Hp Hb Hk Hl <- HQ. pose proof Hp as (m & ly & fl & _ & _ & _ & _ & HB). destruct (HB q bs Hb) as (j & _ & _ & Hr).
  pose proof (read_bytes_drop _ _ _ _ k Hr ltac:(lia)) as Hr2.
  pose proof (read_bytes_take _ _ _ _ (length l) Hr2 ltac:(lia)) as Hr3.
  unfold wp, copy_in, inHeap, mbind, M_bind, get, opt. rewrite Hr3. simpl. apply HQ. by apply pool_write.
Qed.

Lemma splice_grown (k : nat) l bs c : (k <= length c)%nat -> (length c <= k + length l)%nat -> length bs = (k + length l)%nat ->
  take (length c) bs = c -> splice k l bs = splice k l c.
Proof.
  intros H1 H2 H3 H4. unfold splice. rewrite !drop_ge by lia. f_equal. rewrite <- H4, take_take. f_equal. lia.
Qed.

Lemma length_splice_grown (k : nat) l c : (k <= length c)%nat -> (length c <= k + length l)%nat -> length (splice k l c) = (k + length l)%nat.
Proof. intros. unfold splice. rewrite !length_app, length_take, length_drop. lia. Qed.


(** The heap after a failure *)
Lemma core_heap w B G E F s' e' :
  core w B G E F -> pool (ramfs_memheap R) start n s' B -> core (set_ram_errno e' (set_ram_heap s' w)) B G E F.
Proof.
  intros [C1 C2 C3 C4 C5 C6 C7] Hp. split; try done. intros nm d Ed. destruct (C6 nm d Ed) as (c & e & ? & []). exists c, e.
  by split.
Qed.

(** The entry with its longer data block *)
Lemma core_grown w B G E F nm d c e q s' bs e1 :
  core w B G E F -> E !! nm = Some d -> file_at w B G nm d c e -> delete (de_data e) B !! q = None ->
  pool (ramfs_memheap R) start n s' (<[q := bs]> (delete (de_data e) B)) ->
  de_name e1 = de_name e -> de_data e1 = q -> de_size e1 = Z.of_nat (length bs) ->
  let w1 := set_ram_dirents (<[d := e1]> (ram_dirents w)) (set_ram_heap s' w) in
  let B1 := <[q := bs]> (delete (de_data e) B) in let G1 := <[q := UData nm]> (delete (de_data e) G) in
  core w1 B1 G1 E (<[nm := bs]> F) /\ file_at w1 B1 G1 nm d bs e1.
Proof.
  intros C Ed Hfa Hnew Hp En Eq Es w1 B1 G1.
  assert (forall q' u, u <> UData nm -> G !! q' = Some u -> q' <> de_data e /\ q' <> q) as Hne.
  { intros q' u Hu Hq'. assert (q' <> de_data e) as Hd.
    { intros ->. destruct Hfa as [_ _ [[E0 _]|[Hg _]] _]; [|congruence].
      destruct (core_block _ _ _ _ _ _ _ C Hq') as [? _]. congruence. }
    split; [done|]. intros ->. rewrite lookup_delete_ne in Hnew by done. destruct (co_used _ _ _ _ _ C q u Hq'). congruence. }
  assert (core w1 B1 G1 E (<[nm := bs]> F)) as C1.
  { apply (core_update w B G E F nm d c e); try done.
    - intros q' u Hu Hq'. destruct (Hne q' u Hu Hq'). unfold G1, B1. by rewrite !lookup_insert_ne, !lookup_delete_ne by done.
    - intros q' u. unfold G1, B1. rewrite !lookup_insert. case_decide; [eauto|]. intros [? Hq']%lookup_delete_Some.
      rewrite lookup_delete_ne by done. by apply (co_used _ _ _ _ _ C q' u).
    - right. unfold G1, B1. by rewrite Eq, !lookup_insert_eq. }
  split; [done|]. destruct (co_file _ _ _ _ _ C1 nm d Ed) as (c1 & e' & Ec1 & Hfa'). rewrite lookup_insert_eq in Ec1. injection Ec1 as <-.
  pose proof (fa_dirent _ _ _ _ _ _ _ Hfa') as Ee'. simpl in Ee'. rewrite lookup_insert_eq in Ee'. by injection Ee' as <-.
Qed.

(** Bytes are written within a file. *)
Lemma wp_fill w B G E F nm d c e (k : nat) buf (Q : unit -> ramworld -> Prop) :
  core w B G E F -> E !! nm = Some d -> F !! nm = Some c -> file_at w B G nm d c e -> (k + length buf <= length c)%nat ->
  Forall (fun b => 0 <= b < 256) buf ->
  (forall w' B', core w' B' G E (<[nm := splice k buf c]> F) -> Q tt w') ->
  wp (when (0 <? Z.of_nat (length buf)) (e ← get_dirent d; copy_in (de_data e + Z.of_nat k) buf)) Q w.
Proof.
  intros C Ed Fc Hfa Hk Hbuf HQ. pose proof Hfa as [Ee Esz Hdata Hent].
  destruct (Z.ltb_spec 0 (Z.of_nat (length buf))) as [Hpos|Hzero]; simpl.
  - destruct Hdata as [[_ ->]|[Hg Hb]]; [simpl in *; lia|]. unfold get_dirent. do 3 wp_step. eapply wp_opt; [exact Ee|].
    eapply (wp_copy_in (ram_heap w) B (de_data e) c k buf); [apply C|done|lia|done|done|]. intros s' Hp'.
    apply (HQ _ (<[de_data e := splice k buf c]> B)).
    pose proof (core_update w B G E F nm d c e s' _ G (splice k buf c) e C Ed Hfa Hp') as Hup.
    rewrite (insert_id (ram_dirents w) d e Ee) in Hup. replace (set_ram_heap s' w) with (set_ram_dirents (ram_dirents w) (set_ram_heap s' w)) by (by destruct w).
    apply Hup; [|..|done| |].
    + intros q u Hu Hq. split; [done|]. apply lookup_insert_ne. congruence.
    + intros q u Hq. rewrite lookup_insert. case_decide; [eauto|]. by apply (co_used _ _ _ _ _ C q u).
    + by rewrite length_splice.
    + right. by rewrite lookup_insert_eq.
  - wp_step. apply (HQ w B). assert (buf = []) as -> by (apply nil_length_inv; lia).
    assert (splice k [] c = c) as -> by (unfold splice; simpl; rewrite Nat.add_0_r; apply take_drop). by rewrite insert_id.
Qed.

Lemma wp_truncate w B G E F nm d (Q : unit -> ramworld -> Prop) :
  core w B G E F -> E !! nm = Some d -> (forall w' B' G', core w' B' G' E (<[nm := []]> F) -> Q tt w') -> wp (truncate_dirent d) Q w.
Proof.
  intros C Ed HQ. destruct (co_file _ _ _ _ _ C nm d Ed) as (c & e & _ & Hfa). pose proof Hfa as [Ee _ Hdata _].
  unfold truncate_dirent. wp_step. eapply wp_upd_dirent; [exact Ee|]. wp_step. unfold get_dirent. do 2 wp_step.
  eapply wp_opt; [apply lookup_insert_eq|]. simpl. destruct (Z.eqb_spec (de_data e) RT_NULL) as [E0|E0]; simpl.
  - wp_step. eapply (HQ _ B G). replace w with (set_ram_heap (ram_heap w) w) at 2 by (by destruct w).
    apply (core_update w B G E F nm d c e); try done; [apply C|apply C|by left].
  - destruct Hdata as [[? _]|[Hg Hb]]; [done|]. wp_step. apply wp_inHeap. simpl.
    destruct (pool_free _ _ _ _ _ _ _ (co_pool _ _ _ _ _ C) Hb) as (s' & Es & Hp'). eapply ok_wp; [exact Es|].
    eapply wp_upd_dirent; [apply lookup_insert_eq|]. simpl. rewrite insert_insert_eq.
    eapply (HQ _ (delete (de_data e) B) (delete (de_data e) G)).
    apply (core_update w B G E F nm d c e); try done; [| |by left].
    + intros q u Hu Hq. rewrite !lookup_delete_ne by congruence. done.
    + intros q u [? Hq]%lookup_delete_Some. rewrite lookup_delete_ne by done. by apply (co_used _ _ _ _ _ C q u).
Qed.

Lemma wp_create w B G E F path (Q : ptr -> ramworld -> Prop) :
  let nm := skip_separators path in
  core w B G E F -> E !! nm = None -> nm <> [] -> name_fits nm ->
  (forall w', core w' B G E F -> Q RT_NULL w') ->
  (forall d w' B' G', d <> RT_NULL -> core w' B' G' (<[nm := d]> E) (<[nm := []]> F) -> Q d w') ->
  wp (create_dirent junk R path) Q w.
Proof.
  intros nm C Hn Hnm Hf HQ0 HQ1. unfold create_dirent.
  destruct (pool_alloc junk _ _ _ _ B SIZEOF_DIRENT (co_pool _ _ _ _ _ C) ltac:(unfold SIZEOF_DIRENT; lia)) as (d & s' & Er & Hc).
  wp_step. apply wp_inHeap. eapply ok_wp; [exact Er|]. destruct Hc as [[-> Hp]|(Hd & HB & bs & _ & Hp)].
  - simpl. wp_step. apply HQ0. exact (core_heap w B G E F s' (ram_errno w) C Hp).
  - rewrite (proj2 (Z.eqb_neq d RT_NULL)) by done. do 5 wp_step. eapply HQ1; [done|].
    exact (core_create w B G E F nm d bs s' C Hn Hnm Hf HB Hp).
Qed.

(** A file is removed with its blocks. *)
Lemma core_remove w B G E F nm d c e s' B' :
  core w B G E F -> nm <> [] -> E !! nm = Some d -> file_at w B G nm d c e ->
  pool (ramfs_memheap R) start n s' B' ->
  (forall q, q <> d -> q <> de_data e -> B' !! q = B !! q) ->
  core (set_ram_dirents (delete d (ram_dirents w)) (set_ram_heap s' (set_ram_lists (Abs.remove d (ram_lists w)) w)))
    B' (delete (de_data e) (delete d G)) (delete nm E) (delete nm F).
Proof.
  intros C Hnm Ed Hfa Hp HB. pose proof C as [C1 C2 C3 C4 C5 C6 C7]. pose proof Hfa as [_ _ Hdata Hent].
  destruct Hent as [?|(Hgd & _)]; [done|].
  assert (forall q u, G !! q = Some u -> u <> UEntry nm -> u <> UData nm -> q <> d /\ q <> de_data e) as Hne.
  { intros q u Hq Hu1 Hu2. split; [congruence|]. intros ->. destruct Hdata as [[E0 _]|[? _]]; [|congruence].
    destruct (core_block _ _ _ _ _ _ _ C Hq). congruence. }
  split; try done.
  - intros q u [Hq1 [Hq2 Hq]%lookup_delete_Some]%lookup_delete_Some. rewrite HB by done. by apply (C3 q u).
  - by rewrite lookup_delete_ne.
  - intros d'. simpl. rewrite Abs.lookup_remove, elem_of_list_del, C5. split.
    + intros [Hd (nm' & ? & Ed')]. exists nm'. split; [done|]. rewrite lookup_delete_ne; [done|congruence].
    + intros (nm' & ? & [Hne' Ed']%lookup_delete_Some). split; [|eauto]. intros ->. by apply Hne', (core_inj _ _ _ _ _ _ _ d C).
  - intros nm' d' [Hne' Ed']%lookup_delete_Some. destruct (C6 nm' d' Ed') as (c' & e' & Fc' & [F1 F2 F3 F4]). exists c', e'.
    split; [by rewrite lookup_delete_ne|].
    assert (d' <> d) as Hdd by (intros ->; by apply Hne', (core_inj _ _ _ _ _ _ _ d C)).
    split; [simpl; by rewrite lookup_delete_ne|done| |].
    + destruct F3 as [?|[Hg Hb]]; [by left|right]. destruct (Hne _ _ Hg ltac:(done) ltac:(congruence)) as [? ?].
      rewrite !lookup_delete_ne, HB by done. done.
    + destruct F4 as [?|(Hg & ?)]; [by left|right]. destruct (Hne _ _ Hg ltac:(congruence) ltac:(done)) as [? ?].
      by rewrite !lookup_delete_ne by done.
  - intros nm' c' [Hne' Fc']%lookup_delete_Some. rewrite lookup_delete_ne by done. eauto.
Qed.

(** ** The operations *)

Section ops.
Context `{KConfig} (w : ramworld) (F : gmap (list Z) (list Z)) (T : gmap nat file) (y : dfs_filesystem).
Context (Hw : ram_state w F T) (Hy : fs_data y = R).

Lemma ramfs_nonnull : fs_data y <> RT_NULL.
Proof. destruct Hw as (B & G & E & C & _). destruct (co_place _ _ _ _ _ C). rewrite Hy. unfold RT_NULL. lia. Qed.

Section on_file.
Context (i : nat) (f : file) (x : dfs_fd) (Ef : T !! i = Some f) (Hx : fd_for x f).
Let nm := skip_separators (f_name f).

Lemma open_part : fd_flags x = pt_flags (f_part f) /\ fd_size x = pt_size (f_part f) /\ fd_pos x = pt_pos (f_part f) /\
  fd_data x = pt_data (f_part f).
Proof. destruct Hx as [_ _ E]. by rewrite <- E. Qed.

(** Contents, size and data of the file *)
Lemma open_file : exists B G E c d e, core w B G E F /\ opened E F T /\ F !! nm = Some c /\ E !! nm = Some d /\
  pt_data (f_part f) = d /\ d <> RT_NULL /\ file_at w B G nm d c e /\
  pt_size (f_part f) = Z.of_nat (length c) /\ Z.of_nat (length c) < 2 ^ 31 /\ 0 <= pt_pos (f_part f) <= Z.of_nat (length c).
Proof.
  destruct Hw as (B & G & E & C & O). destruct (op_file _ _ _ O i f Ef) as (c & Ed & Fc & Hs & Hp).
  destruct (co_file _ _ _ _ _ C _ _ Ed) as (c' & e & Fc' & Hfa). unfold nm. rewrite Fc in Fc'. injection Fc' as <-.
  exists B, G, E, c, (pt_data (f_part f)), e. rewrite Hs in Hp. split_and!; try done; try lia.
  - by apply (core_entry _ _ _ _ _ _ _ C Ed).
  - destruct Hfa as [_ _ [[_ ->]|[_ Hb]] _]; [done|]. destruct (co_place _ _ _ _ _ C).
    pose proof (pool_range _ _ _ _ _ _ _ (co_pool _ _ _ _ _ C) Hb). unfold start, SIZEOF_RAMFS in *. lia.
Qed.

(** Reading: the bytes behind the position, as many as there are *)
Definition read_part (bytes : list Z) : fd_part :=
  mk_part (pt_flags (f_part f)) (pt_size (f_part f)) (pt_pos (f_part f) + Z.of_nat (length bytes)) (pt_data (f_part f)).

Lemma ram_read count c :
  F !! nm = Some c ->
  wp (dfs_ramfs_read y x count) (fun '(r, v, bytes) w' =>
    bytes = take (Z.to_nat (u32 count)) (drop (Z.to_nat (pt_pos (f_part f))) c) /\ r = Z.of_nat (length bytes) /\
    v = read_part bytes /\ w' = w /\ ram_state w F (<[i := set_f_part v f]> T)) w.
Proof.
  intros Fc. destruct open_file as (B & G & E & c' & d & e & C & O & Fc' & Ed & Epd & Hd & Hfa & Hs & Hlt & Hp).
  rewrite Fc in Fc'. injection Fc' as <-. destruct open_part as (X1 & X2 & X3 & X4).
  pose proof (uwrap_range 32 count ltac:(lia)) as Hu. unfold dfs_ramfs_read. rewrite X1, X2, X3, X4, Epd, Hs.
  set (pos := pt_pos (f_part f)) in *. wp_step. apply wp_assert; [by apply negb_true_iff, Z.eqb_neq|].
  rewrite (uwrap_small 32 (Z.of_nat (length c) - pos)) by lia.
  set (len := if _ <? _ then _ else _). set (bytes := take (Z.to_nat (u32 count)) (drop (Z.to_nat pos) c)).
  assert (len = Z.of_nat (length bytes)) as El.
  { unfold len, bytes. rewrite length_take, length_drop. destruct (Z.ltb_spec (u32 count) (Z.of_nat (length c) - pos)); lia. }
  assert (0 <= len <= Z.of_nat (length c) - pos) as Hlen by (unfold len; case_match; lia).
  assert (wp (if 0 <? len then e ← get_dirent d; copy_out (de_data e + pos) (Z.to_nat len) else mret [])
    (fun b w' => b = bytes /\ w' = w) w) as Hcopy.
  { destruct (Z.ltb_spec 0 len).
    - destruct Hfa as [Ee _ [[_ ->]|[_ Hb]] _]; [simpl in *; lia|]. unfold get_dirent, copy_out. do 3 wp_step.
      eapply wp_opt; [exact Ee|]. destruct (co_pool _ _ _ _ _ C) as (m & l & fl & _ & _ & _ & _ & HB).
      destruct (HB _ _ Hb) as (j & _ & _ & Hr). unfold wp, inHeap, mbind, M_bind, get, opt.
      pose proof (read_bytes_drop _ _ _ _ (Z.to_nat pos) Hr ltac:(lia)) as Hr2. rewrite Z2Nat.id in Hr2 by lia.
      rewrite (read_bytes_take _ _ _ _ (Z.to_nat len) Hr2) by lia. simpl. split; [|by destruct w].
      unfold bytes. rewrite El, Nat2Z.id. unfold bytes. rewrite length_take, length_drop.
      destruct (decide (Z.to_nat (u32 count) <= length c - Z.to_nat pos)%nat);
        [by rewrite Nat.min_l by lia|rewrite Nat.min_r by lia; rewrite !take_ge by (rewrite length_drop; lia); done].
    - wp_step. split; [|done]. symmetry. apply nil_length_inv. lia. }
  wp_step. eapply wp_mono; [exact Hcopy|]. intros b w' [-> ->]. wp_step. rewrite !swrap_small by lia.
  rewrite El. split_and!; try done.
  - unfold read_part. by rewrite Hs, Epd.
  - exists B, G, E. split; [done|]. pose proof (opened_update E F T i f (mk_part (pt_flags (f_part f)) (Z.of_nat (length c)) (pos + Z.of_nat (length bytes)) d) c O Ef) as Hup.
    rewrite insert_id in Hup by done. apply Hup; simpl; [done|done|lia].
Qed.

Lemma ram_lseek offset c :
  F !! nm = Some c -> 0 <= offset ->
  wp (dfs_ramfs_lseek y x offset) (fun '(r, v) w' => w' = w /\
    (Z.of_nat (length c) < offset /\ r < 0 /\ v = f_part f \/ offset <= Z.of_nat (length c) /\ r = offset /\ v = with_pos offset (f_part f)) /\
    ram_state w F (<[i := set_f_part v f]> T)) w.
Proof.
  intros Fc Ho. destruct open_file as (B & G & E & c' & d & e & C & O & Fc' & Ed & Epd & Hd & Hfa & Hs & Hlt & Hp).
  rewrite Fc in Fc'. injection Fc' as <-. destruct open_part as (X1 & X2 & X3 & X4). destruct Hx as [_ _ Epart].
  unfold dfs_ramfs_lseek. rewrite X1, X2, X4, Hs. rewrite (swrap_small 32) by lia.
  assert (forall v, pt_data v = d -> pt_size v = Z.of_nat (length c) -> 0 <= pt_pos v <= pt_size v -> ram_state w F (<[i := set_f_part v f]> T)) as Hst.
  { intros v V1 V2 V3. exists B, G, E. split; [done|].
    pose proof (opened_update E F T i f v c O Ef) as Hup. rewrite insert_id in Hup by done. by apply Hup; [congruence|..]. }
  destruct (Z.leb_spec offset (Z.of_nat (length c))) as [Hle|Hgt]; wp_step; (split_and!; [done| |apply Hst]).
  - right. split_and!; [done|by rewrite swrap_small by lia|]. unfold with_pos. by rewrite Hs.
  - done.
  - done.
  - simpl. lia.
  - left. by split_and!.
  - by rewrite Epart.
  - by rewrite Epart.
  - rewrite Epart, Hs. done.
Qed.

Lemma ram_close : wp (dfs_ramfs_close y x) (fun '(r, _) w' => r = 0 /\ w' = w /\ ram_state w F (delete i T)) w.
Proof.
  unfold dfs_ramfs_close. wp_step. split_and!; [done|done|]. destruct Hw as (B & G & E & C & O).
  exists B, G, E. split; [done|]. by apply opened_delete.
Qed.

(** Writing: the bytes replace those at the position and make the file longer when they
    reach over its end; without memory nothing is written. *)
Definition write_part (buf c' : list Z) : fd_part :=
  mk_part (pt_flags (f_part f)) (Z.of_nat (length c')) (pt_pos (f_part f) + Z.of_nat (length buf)) (pt_data (f_part f)).

(** The heap has no block of [size] bytes for the data of the entry [d]. *)
Definition no_memory (w : ramworld) (d : ptr) (size : Z) : Prop :=
  exists e s', ram_dirents w !! d = Some e /\
    rt_memheap_realloc junk (ramfs_memheap R) (de_data e) size (ram_heap w) = Ok RT_NULL s'.

Lemma ram_write buf c :
  F !! nm = Some c -> pt_pos (f_part f) + Z.of_nat (length buf) < 2 ^ 31 -> Forall (fun b => 0 <= b < 256) buf ->
  let c' := splice (Z.to_nat (pt_pos (f_part f))) buf c in
  wp (dfs_ramfs_write junk y x buf) (fun '(r, v) w' =>
    (r = 0 /\ v = f_part f /\ ram_state w' F (<[i := set_f_part v f]> T) /\
     Z.of_nat (length c) < pt_pos (f_part f) + Z.of_nat (length buf) /\
     no_memory w (pt_data (f_part f)) (pt_pos (f_part f) + Z.of_nat (length buf))) \/
    (r = Z.of_nat (length buf) /\ v = write_part buf c' /\ ram_state w' (<[nm := c']> F) (<[i := set_f_part v f]> T))) w.
Proof.
  intros Fc Hb31 Hbuf c'. destruct open_file as (B & G & E & c0 & d & e & C & O & Fc' & Ed & Epd & Hd & Hfa & Hs & Hlt & Hp).
  rewrite Fc in Fc'. injection Fc' as <-. destruct open_part as (X1 & X2 & X3 & X4). destruct Hx as [_ _ Epart].
  pose proof Hfa as [Ee Esz Hdata Hent]. unfold dfs_ramfs_write. rewrite X1, X2, X3, X4, Epd, Hs, Epart.
  set (pos := pt_pos (f_part f)) in *. set (k := Z.to_nat pos). rewrite !(uwrap_small 32) by (rewrite ?(uwrap_small 32) by lia; lia).
  wp_step. apply wp_assert; [by apply negb_true_iff, Z.eqb_neq, ramfs_nonnull|].
  wp_step. apply wp_assert; [by apply negb_true_iff, Z.eqb_neq|]. rewrite Hy.
  assert (Z.of_nat k = pos) as Ek by lia. rewrite Nat2Z.id, (take_ge buf) by done.
  assert (forall w' B' G', core w' B' G' E (<[nm := c']> F) -> 0 <= pos + Z.of_nat (length buf) <= Z.of_nat (length c') ->
    ram_state w' (<[nm := c']> F) (<[i := set_f_part (write_part buf c') f]> T)) as Hdone.
  { intros w' B' G' C' Hle. exists B', G', E. split; [done|]. by apply opened_update. }
  destruct (Z.ltb_spec (Z.of_nat (length c)) (Z.of_nat (length buf) + pos)) as [Hgrow|Hin].
  - assert (length c' = k + length buf)%nat as Hl by (apply length_splice_grown; lia).
    replace (pos + Z.of_nat (length buf)) with (Z.of_nat (k + length buf)) by lia.
    destruct (grow_block w B G E F nm d c e (k + length buf) C Hfa ltac:(lia) ltac:(lia)) as (q & s' & Er & Hc).
    do 2 wp_step. unfold get_dirent at 1. do 2 wp_step. eapply wp_opt; [exact Ee|]. wp_step. apply wp_inHeap. eapply ok_wp; [exact Er|].
    destruct Hc as [[-> Hp']|(Hq & Hnew & bs & Hlbs & Hbs & Hp')].
    + simpl. do 3 wp_step. left. fold pos. replace (pos + Z.of_nat (length buf)) with (Z.of_nat (k + length buf)) by lia.
      split_and!; [done|done| |lia|by exists e, s']. rewrite set_f_part_id, insert_id by done. exists B, G, E.
      split; [|done]. exact (core_heap w B G E F s' _ C Hp').
    + rewrite (proj2 (Z.eqb_neq q RT_NULL)) by done. wp_step. eapply wp_upd_dirent; [exact Ee|]. wp_step.
      eapply wp_upd_dirent; [apply lookup_insert_eq|]. wp_step. simpl. rewrite insert_insert_eq. wp_step.
      set (e1 := set_de_size _ _). set (w1 := set_ram_dirents _ _).
      destruct (core_grown w B G E F nm d c e q s' bs e1 C Ed Hfa Hnew Hp') as [C1 Hfa1]; [done|done|by rewrite Hlbs|]. fold w1 in C1, Hfa1.
      rewrite <- Ek. eapply (wp_fill w1 _ _ E (<[nm := bs]> F) nm d bs e1 k buf); [exact C1|exact Ed|apply lookup_insert_eq|exact Hfa1|lia|done|].
      intros w' B' C'. wp_step. right. rewrite insert_insert_eq, (splice_grown k buf bs c) in C' by (done || lia). fold c' in C'.
      rewrite !swrap_small by lia. assert (mk_part (pt_flags (f_part f)) (Z.of_nat (k + length buf)) (Z.of_nat (k + length buf)) d = write_part buf c') as ->
        by (unfold write_part; rewrite Hl, Epd; f_equal; lia).
      split_and!; [done|done|]. eapply Hdone; [exact C'|lia].
  - assert (length c' = length c) as Hl by (apply length_splice; lia). wp_step. wp_step. wp_step. rewrite <- Ek.
    eapply (wp_fill w B G E F nm d c e k buf); try done; [lia|]. intros w' B' C'. wp_step. right.
    rewrite !swrap_small by lia. assert (mk_part (pt_flags (f_part f)) (Z.of_nat (length c)) (Z.of_nat k + Z.of_nat (length buf)) d = write_part buf c') as ->
      by (unfold write_part; by rewrite Hl, Epd, Ek).
    split_and!; [done|done|]. apply (Hdone w' B' G C'). lia.
Qed.
End on_file.

Section on_name.
Context (i j : nat) (name : list Z) (x : dfs_fd).
Context (Hi : T !! i = None).
Let nm := skip_separators name.
Context (Hfits : name_fits nm) (Hnot : forall k g, T !! k = Some g -> skip_separators (f_name g) <> nm).

(** The contents of the file that is opened *)
Definition open_contents (flags : Z) : list Z :=
  if negb (Z.land flags DFS_O_TRUNC =? 0) && (Z.land flags DFS_O_DIRECTORY =? 0) then [] else default [] (F !! nm).

Definition open_post (flags : Z) (r : Z + ptr) (w' : ramworld) : Prop :=
  match r with
  | inl e => e < 0 /\ ram_state w' F T
  | inr d => exists B G E, core w' B G E (<[nm := open_contents flags]> F) /\ opened E (<[nm := open_contents flags]> F) T /\ E !! nm = Some d
  end.

(** The last step on a file that is not a directory *)
Lemma ram_open_file flags E0 B G E d c w1 :
  opened E0 F T -> (forall nm', nm' <> nm -> E !! nm' = E0 !! nm') -> Z.land flags DFS_O_DIRECTORY = 0 ->
  core w1 B G E (<[nm := c]> F) -> E !! nm = Some d -> c = default [] (F !! nm) ->
  wp (when (negb (Z.land flags DFS_O_TRUNC =? 0)) (truncate_dirent d);; mret (inr d)) (open_post flags) w1.
Proof.
  intros O HE Hdir C Ed Ec. unfold open_post, open_contents. rewrite Hdir. simpl. rewrite andb_true_r. wp_step.
  destruct (negb (Z.land flags DFS_O_TRUNC =? 0)); simpl.
  - eapply (wp_truncate w1 B G E _ nm d); [exact C|done|]. intros w' B' G' C'. wp_step. rewrite insert_insert_eq in C'.
    exists B', G', E. split_and!; [done|by eapply opened_other|done].
  - do 2 wp_step. rewrite <- Ec. exists B, G, E. split_and!; [done|by eapply opened_other|done].
Qed.

Lemma ram_open_dirent flags : wp (open_dirent junk R name flags) (open_post flags) w.
Proof.
  destruct Hw as (B & G & E & C & O). destruct Hfits as [_ Hnz]. pose proof (lookup_spec w B G E F name C Hnz) as Hl. fold nm in Hl.
  assert (forall r, r < 0 -> wp (mret (inl r)) (open_post flags) w) as Hfail.
  { intros r Hr. wp_step. split; [done|]. by exists B, G, E. }
  assert (root <> RT_NULL) as Hroot by (destruct (co_place _ _ _ _ _ C); unfold root, ramfs_root, RT_NULL; lia).
  assert (forall d, E !! nm = Some d -> exists c, F !! nm = Some c /\ d <> RT_NULL /\ (d = root -> nm = [])) as Hfile.
  { intros d Ed. destruct (co_file _ _ _ _ _ C nm d Ed) as (c & e & Fc & _). exists c. destruct (core_entry _ _ _ _ _ _ _ C Ed) as [? Hr].
    split_and!; [done|done|]. by apply Hr. }
  unfold open_dirent. cbv zeta. destruct (Z.eqb_spec (Z.land flags DFS_O_DIRECTORY) 0) as [Hdir|Hdir]; simpl negb; cbv iota.
  - wp_step. eapply ok_wp; [exact Hl|]. fold root. destruct (E !! nm) as [d|] eqn:Ed; simpl default.
    + destruct (Hfile d eq_refl) as (c & Fc & Hd & Hr). destruct (Z.eqb_spec d root); [by apply Hfail|].
      rewrite (proj2 (Z.eqb_neq d RT_NULL)) by done. do 2 wp_step.
      eapply (ram_open_file flags E B G E d c); try done; [by rewrite insert_id|by rewrite Fc].
    + rewrite (proj2 (Z.eqb_neq RT_NULL root)) by done. rewrite Z.eqb_refl.
      assert (F !! nm = None) as Fn.
      { destruct (F !! nm) as [c|] eqn:Fc; [|done]. destruct (co_names _ _ _ _ _ C nm c Fc). congruence. }
      assert (nm <> []) as Hnm by (intros E0; rewrite E0, (co_root _ _ _ _ _ C) in Ed; done).
      wp_step. destruct (_ || _).
      * wp_step. eapply (wp_create w B G E F name); fold nm; [exact C|done|done|done|..].
        -- intros w' C'. rewrite Z.eqb_refl. do 2 wp_step. split; [done|]. by exists B, G, E.
        -- intros d w' B' G' Hd C'. rewrite (proj2 (Z.eqb_neq d RT_NULL)) by done. wp_step.
           eapply (ram_open_file flags E B' G' (<[nm := d]> E) d []); [done| |done|exact C'|apply lookup_insert_eq|by rewrite Fn].
           intros nm' Hne. by rewrite lookup_insert_ne.
      * wp_step. by apply Hfail.
  - destruct (negb _); [by apply Hfail|]. wp_step. eapply ok_wp; [exact Hl|]. fold root. destruct (E !! nm) as [d|] eqn:Ed; simpl default.
    + destruct (Hfile d eq_refl) as (c & Fc & Hd & _). rewrite (proj2 (Z.eqb_neq d RT_NULL)), andb_false_r by done. wp_step.
      exists B, G, E. unfold open_contents. rewrite (proj2 (Z.eqb_neq _ _) Hdir), andb_false_r, Fc. simpl. by rewrite insert_id.
    + rewrite Z.eqb_refl. by apply Hfail.
Qed.

(** The part of a file that has been opened *)
Definition open_part_of (d : ptr) (c : list Z) : fd_part :=
  mk_part (fd_flags x) (Z.of_nat (length c)) (if negb (Z.land (fd_flags x) DFS_O_APPEND =? 0) then Z.of_nat (length c) else 0) d.

Lemma ram_open :
  let c := open_contents (fd_flags x) in
  wp (dfs_ramfs_open junk y name x) (fun '(r, v) w' =>
    (r < 0 /\ ram_state w' F T) \/
    (r = 0 /\ (exists d, v = open_part_of d c) /\
     forall ty fl, ram_state w' (<[nm := c]> F) (<[i := mk_file j name ty (with_flags fl v)]> T))) w.
Proof.
  intros c. unfold dfs_ramfs_open. wp_step. apply wp_assert; [by apply negb_true_iff, Z.eqb_neq, ramfs_nonnull|]. rewrite Hy.
  wp_step. eapply wp_mono; [apply ram_open_dirent|]. intros [e|d] w' Hpost; simpl in Hpost.
  - wp_step. by left.
  - destruct Hpost as (B & G & E & C & O & Ed). fold c in C, O. destruct (co_file _ _ _ _ _ C nm d Ed) as (c' & e & Ec & Hfa).
    rewrite lookup_insert_eq in Ec. injection Ec as <-. pose proof Hfa as [Ee Es Hdata _]. wp_step. unfold get_dirent. do 2 wp_step.
    eapply wp_opt; [exact Ee|]. wp_step. right. rewrite Es.
    assert (Z.of_nat (length c) < 2 ^ 31) as Hlt.
    { destruct Hdata as [[_ ->]|[_ Hb]]; [done|]. destruct (co_place _ _ _ _ _ C).
      pose proof (pool_range _ _ _ _ _ _ _ (co_pool _ _ _ _ _ C) Hb). unfold start, SIZEOF_RAMFS in *. lia. }
    rewrite (swrap_small 32) by lia. split_and!; [done|by exists d|]. intros ty fl. exists B, G, E. split; [done|].
    apply (opened_add E _ T i _ c); simpl; try done; [apply lookup_insert_eq|]. case_match; lia.
Qed.
End on_name.
End ops.

(** Removing a file that is not open *)
Lemma ram_unlink `{KConfig} w F T y path :
  let nm := skip_separators path in
  ram_state w F T -> fs_data y = R -> nm <> [] -> Forall (fun c => c <> 0) nm ->
  (forall k g, T !! k = Some g -> skip_separators (f_name g) <> nm) ->
  wp (dfs_ramfs_unlink y path) (fun r w' => match F !! nm with
    | None => r = - DFS_STATUS_ENOENT /\ w' = w
    | Some _ => r = 0 /\ ram_state w' (delete nm F) T
    end) w.
Proof.
  intros nm Hw Hy Hnm Hnz Hnot. pose proof (ramfs_nonnull w F T y Hw Hy) as Hn. rewrite Hy in Hn.
  destruct Hw as (B & G & E & C & O). unfold dfs_ramfs_unlink. rewrite Hy. wp_step. apply wp_assert; [by apply negb_true_iff, Z.eqb_neq|].
  wp_step. eapply ok_wp; [exact (lookup_spec w B G E F path C Hnz)|]. fold nm root. destruct (E !! nm) as [d|] eqn:Ed; simpl default.
  2:{ rewrite Z.eqb_refl. wp_step. destruct (F !! nm) as [c|] eqn:Fc; [|done]. destruct (co_names _ _ _ _ _ C nm c Fc). congruence. }
  destruct (core_entry _ _ _ _ _ _ _ C Ed) as [Hd Hr]. destruct (co_file _ _ _ _ _ C nm d Ed) as (c & e & Fc & Hfa). rewrite Fc.
  rewrite (proj2 (Z.eqb_neq d RT_NULL)), (proj2 (Z.eqb_neq d root)) by (done || by rewrite Hr). do 2 wp_step.
  pose proof Hfa as [Ee _ Hdata Hent]. destruct Hent as [?|(Hgd & _)]; [done|]. destruct (co_used _ _ _ _ _ C d _ Hgd) as [bs Hbd].
  unfold get_dirent. do 3 wp_step. eapply wp_opt; [exact Ee|]. wp_step.
  assert (forall s' B', pool (ramfs_memheap R) start n s' B' -> (forall q, q <> d -> q <> de_data e -> B' !! q = B !! q) ->
    ram_state (set_ram_dirents (delete d (ram_dirents w)) (set_ram_heap s' (set_ram_lists (Abs.remove d (ram_lists w)) w))) (delete nm F) T) as Hdone.
  { intros s' B' Hp HB. exists B', (delete (de_data e) (delete d G)), (delete nm E). split; [by apply (core_remove w B G E F nm d c e)|].
    destruct O as [O1 O2]. split; [|done]. intros k g Eg. rewrite !lookup_delete_ne by (by eapply not_eq_sym, Hnot). eauto. }
  destruct (Z.eqb_spec (de_data e) RT_NULL) as [E0|E0]; simpl.
  - wp_step. wp_step. apply wp_inHeap.
    destruct (pool_free _ _ _ _ _ _ _ (co_pool _ _ _ _ _ C) Hbd) as (s' & Es & Hp). eapply ok_wp; [exact Es|]. do 3 wp_step.
    split; [done|]. apply (Hdone s' _ Hp). intros q Hq _. by rewrite lookup_delete_ne.
  - destruct Hdata as [[? _]|[Hg Hb]]; [done|]. apply wp_inHeap.
    destruct (pool_free _ _ _ _ _ _ _ (co_pool _ _ _ _ _ C) Hb) as (s1 & Es1 & Hp1). eapply ok_wp; [exact Es1|]. wp_step. apply wp_inHeap.
    destruct (pool_free _ _ _ _ _ d bs Hp1) as (s2 & Es2 & Hp2); [rewrite lookup_delete_ne by congruence; done|].
    eapply ok_wp; [exact Es2|]. do 3 wp_step. split; [done|]. apply (Hdone s2 _ Hp2).
    intros q Hq1 Hq2. by rewrite !lookup_delete_ne.
Qed.

(** ** The file system as an instance of the interface *)

Definition ram_may_open (T : gmap nat file) (_ : nat) (name : list Z) : Prop :=
  name_fits (skip_separators name) /\ forall k g, T !! k = Some g -> skip_separators (f_name g) <> skip_separators name.
Definition ram_may_write (v : fd_part) (buf : list Z) : Prop :=
  pt_pos v + Z.of_nat (length buf) < 2 ^ 31 /\ Forall (fun b => 0 <= b < 256) buf.

Lemma state_contents w F T i f : ram_state w F T -> T !! i = Some f -> exists c, F !! skip_separators (f_name f) = Some c.
Proof. intros (B & G & E & _ & [O _]) Ef. destruct (O i f Ef) as (c & _ & ? & _). eauto. Qed.

Definition ramfs_laws `{KConfig} : @FsLaws ramworld (ramfs_ops junk stale).
Proof.
  refine {| fs_inv := fun (w : ramworld) T => exists F, ram_state w F T; fs_good := fun _ y => fs_data y = R;
            may_open := ram_may_open; may_write := ram_may_write |}.
  - intros w T i j y op name x [F Hw] Hi Hy [Hf Hn] [= <-] _.
    destruct (wp_ok _ _ _ (ram_open w F T y Hw Hy i j name x Hi Hf Hn)) as ([r v] & w' & Er & Hc). exists r, v, w'. split; [done|].
    destruct Hc as [[? ?]|(-> & _ & Hst)]; [left; eauto|right]. split; [done|]. intros ty fl. eauto.
  - intros w T i f y x [F Hw] Ef Hy Hx.
    destruct (wp_ok _ _ _ (ram_close w F T y Hw i x)) as ([r v] & w' & Er & -> & -> & Hst). exists 0, v, w. split; [done|].
    left. split; [done|]. eauto.
  - intros w T i f y op x len [F Hw] Ef Hy [= <-] Hx. destruct (state_contents _ _ _ _ _ Hw Ef) as [c Fc].
    destruct (wp_ok _ _ _ (ram_read w F T y Hw i f x Ef Hx len c Fc)) as ([[r v] bytes] & w' & Er & _ & -> & _ & -> & Hst).
    exists (Z.of_nat (length bytes)), v, bytes, w. split; [done|]. rewrite (proj2 (Z.ltb_ge _ _)) by lia. eauto.
  - intros w T i f y op x buf [F Hw] Ef Hy [= <-] Hx [Hm Hb]. destruct (state_contents _ _ _ _ _ Hw Ef) as [c Fc].
    destruct (wp_ok _ _ _ (ram_write w F T y Hw Hy i f x Ef Hx buf c Fc Hm Hb)) as ([r v] & w' & Er & Hc).
    exists r, v, w'. split; [done|]. destruct Hc as [(_ & _ & Hst & _)|(_ & _ & Hst)]; eauto.
  - intros w T i f y op x offset [F Hw] Ef Hy [= <-] Hx Ho. destruct (state_contents _ _ _ _ _ Hw Ef) as [c Fc].
    destruct (wp_ok _ _ _ (ram_lseek w F T y Hw i f x Ef Hx offset c Fc Ho)) as ([r v] & w' & Er & -> & Hc & Hst).
    exists r, v, w. split; [done|]. exists F. destruct Hc as [(_ & Hr & ->)|(_ & -> & ->)].
    + by rewrite (proj2 (Z.ltb_lt _ _)).
    + by rewrite (proj2 (Z.ltb_ge _ _)).
Defined.
End correct.

(** A new file system: the root alone *)
Lemma ram_create junk R size w :
  0 < R -> R mod 4 = 0 -> SIZEOF_RAMFS + 60 <= RT_ALIGN_DOWN size 4 -> R + RT_ALIGN_DOWN size 4 < 2 ^ 31 ->
  mapped (mh_bytes (ram_heap w)) R (RT_ALIGN_DOWN size 4) -> mem_ok (mh_bytes (ram_heap w)) ->
  wp (dfs_ramfs_create junk R size) (fun p w' => p = R /\ ram_state R (RT_ALIGN_DOWN size 4 - SIZEOF_RAMFS) w' {[ [] := [] ]} ∅) w.
Proof.
  unfold SIZEOF_RAMFS. intros HR Ha Hsz Hend Hm Hok. unfold dfs_ramfs_create, SIZEOF_RAMFS. cbv zeta.
  set (sz := RT_ALIGN_DOWN size 4) in *. rewrite (uwrap_small 32) by lia.
  assert (sz mod 4 = 0) as Hs4 by (unfold sz; rewrite RT_ALIGN_DOWN_4; Z.to_euclidean_division_equations; lia).
  assert (RT_ALIGN_DOWN (sz - 152) 4 = sz - 152) as -> by (rewrite RT_ALIGN_DOWN_4; Z.to_euclidean_division_equations; lia).
  assert (RT_ALIGN_DOWN (sz - 152) 4 = sz - 152) as Eal by (rewrite RT_ALIGN_DOWN_4; Z.to_euclidean_division_equations; lia).
  destruct (pool_init junk (ramfs_memheap R) (R + 152) (sz - 152) (ram_heap w)) as (s' & Es & Hp).
  - split; rewrite ?Eal; unfold ramfs_memheap, free_header, RT_NULL; try lia. Z.to_euclidean_division_equations; lia.
  - rewrite Eal. intros a Haa. apply Hm. lia.
  - done.
  - wp_step. apply wp_inHeap. eapply ok_wp; [exact Es|]. change (RT_EOK =? RT_EOK) with true. simpl negb. cbv iota.
    wp_step. apply wp_inHeap. do 8 wp_step. split; [done|]. rewrite Eal in Hp.
    exists ∅, ∅, {[ [] := ramfs_root R ]}. split; [split|split].
    + simpl. apply pool_objects. exact Hp.
    + unfold SIZEOF_RAMFS. lia.
    + intros q u E. by rewrite lookup_empty in E.
    + apply lookup_singleton_eq.
    + intros d. simpl. rewrite lookup_total_insert_eq. split; [intros Hd; by apply not_elem_of_nil in Hd|].
      intros (nm & Hnm & [? _]%lookup_singleton_Some). congruence.
    + intros nm d [<- <-]%lookup_singleton_Some. eexists [], _. split; [apply lookup_singleton_eq|].
      split; [apply lookup_insert_eq|done|by left|by left].
    + intros nm c [<- _]%lookup_singleton_Some. rewrite lookup_singleton_eq. eauto.
    + intros i f E. by rewrite lookup_empty in E.
    + intros i j f g E. by rewrite lookup_empty in E.
Qed.
