(* ===== verification/RamfsVfs.v ===== *)
(** * Files of a RAM file system through the POSIX calls

    The calls of the virtual file system on a mounted RAM file system, down to the blocks of
    its memory heap. *)
From stdpp Require Import base tactics numbers list gmap.
From S2P Require Import Prelude RtList Memory KString SmallMem SmallMemCorrect MemHeap MemHeapLayout MemHeapCorrect MemHeapResize Kernel Scheduler Object Timer Thread KHeap Ipc Mutex Device DfsPath Dfs DfsFile DfsPosix DfsTables DfsOpen DfsCalls RamPool Ramfs RamfsCorrect.
Local Open Scope Z_scope.

Section vfs.
Context `{KConfig} `{A : Allocator} `{!AllocatorLaws A} `{!DriverOps} `{!DfsConfig}.
Context (junk : Z -> rt_memheap_item) (stale : nat -> Z) (R n : Z).
#[local] Instance ops : FsOps ramworld := ramfs_ops junk stale.
#[local] Instance laws : FsLaws := ramfs_laws junk stale R n.
Local Abbreviation dfs := (dfs (World:=ramworld)).

(** [_ramfs] is the address of the table. *)
Definition dfs_ramfs_init (_ramfs : ptr) : M dfs Z := dfs_register _ramfs;; mret 0.

(** A call that has returned meets its specification. *)
Lemma wp_run {S X} (c : M S X) (Q : X -> S -> Prop) s a s' : wp c Q s -> c s = Ok a s' -> Q a s'.
Proof. intros Hw E. unfold wp in Hw. by rewrite E in Hw. Qed.

Lemma land_u32_append x : Z.land (u32 x) DFS_O_APPEND = Z.land x DFS_O_APPEND.
Proof. unfold uwrap. rewrite <- Z.land_ones by lia. by rewrite <- Z.land_assoc. Qed.

Section open_file.
Context (t : ptr) (w : list Z) (T : gmap nat file) (i : nat) (f : file).
Let nm := skip_separators (f_name f).

(** The descriptor [i] refers to a file with contents [c] *)
Record reading (d : dfs) (T : gmap nat file) (v : fd_part) (F : gmap (list Z) (list Z)) (c : list Z) : Prop := {
  rd_inv : vfs_inv t d w T;
  rd_file : T !! i = Some (set_f_part v f);
  rd_state : ram_state R n (dworld d) F T;
  rd_contents : F !! nm = Some c
}.

Lemma reading_write d T1 v F c buf :
  reading d T1 v F c -> pt_pos v + Z.of_nat (length buf) < 2 ^ 31 -> Forall (fun b => 0 <= b < 256) buf ->
  exists r d', write (Z.of_nat i) buf d = Ok r d' /\
    (r = 0 /\ no_memory junk R (dworld d) (pt_data v) (pt_pos v + Z.of_nat (length buf)) \/ r = Z.of_nat (length buf) /\
     exists T' v' F', reading d' T' v' F' (splice (Z.to_nat (pt_pos v)) buf c)).
Proof.
  intros [Hv Ef Hst Fc] Hm Hb. destruct (open_entry t d w T1 i _ Hv Ef) as (y & x & Ey & _ & Hg & _).
  destruct (wp_ok _ _ _ (write_spec t d w T1 i _ y Hv Ef Ey buf ltac:(by split))) as (r & d' & E & v' & [Hv' Hmt] & Hres).
  exists r, d'. split; [done|]. destruct Hres as (x' & r0 & Hx & Er & ->).
  pose proof (wp_run _ _ _ _ _ (ram_write junk R n (dworld d) F T1 y Hst Hg i _ x' Ef Hx buf c Fc Hm Hb) Er) as Hpost. simpl in Hpost.
  destruct Hpost as [(-> & _ & _ & _ & Hno)|(-> & Ev & Hst')]; [by left|right]. rewrite (proj2 (Z.ltb_ge _ _)) by lia. split; [done|].
  eexists _, v', _. split; [exact Hv'|apply lookup_insert_eq|exact Hst'|apply lookup_insert_eq].
Qed.

Lemma reading_rewind d T1 v F c :
  reading d T1 v F c ->
  exists d' T' v', lseek (Z.of_nat i) 0 DFS_SEEK_SET d = Ok 0 d' /\ reading d' T' v' F c /\ pt_pos v' = 0.
Proof.
  intros [Hv Ef Hst Fc]. destruct (open_entry t d w T1 i _ Hv Ef) as (y & x & Ey & _ & Hg & _).
  destruct (wp_ok _ _ _ (lseek_spec t d w T1 i _ y Hv Ef Ey 0 DFS_SEEK_SET)) as (r & d' & E & v' & [Hv' Hmt] & Hres).
  unfold lseek_result in Hres. simpl in Hres. destruct Hres as (x' & r0 & v0 & Hx & Er & Hc).
  pose proof (wp_run _ _ _ _ _ (ram_lseek R n (dworld d) F T1 y Hst i _ x' Ef Hx 0 c Fc ltac:(lia)) Er) as (Ew & Hpost & Hst').
  destruct Hpost as [[? _]|(_ & -> & ->)]; [lia|]. simpl in Hc. destruct Hc as [-> ->]. rewrite <- Ew in Hst'.
  eexists d', _, _. split; [exact E|]. split; [split; [exact Hv'|apply lookup_insert_eq|exact Hst'|done]|done].
Qed.

Lemma reading_read d T1 v F c (k : nat) :
  reading d T1 v F c -> pt_pos v = 0 -> (k <= length c)%nat -> Z.of_nat k < 2 ^ 31 ->
  exists d', read (Z.of_nat i) (Z.of_nat k) d = Ok (Z.of_nat k, take k c) d'.
Proof.
  intros [Hv Ef Hst Fc] Hp Hk Hk31. destruct (open_entry t d w T1 i _ Hv Ef) as (y & x & Ey & _ & Hg & _).
  destruct (wp_ok _ _ _ (read_spec t d w T1 i _ y Hv Ef Ey (Z.of_nat k))) as ([r bytes] & d' & E & v' & _ & Hres).
  destruct Hres as (x' & r0 & v0 & Hx & Er & Hc).
  pose proof (wp_run _ _ _ _ _ (ram_read R n (dworld d) F T1 y Hst i _ x' Ef Hx (Z.of_nat k) c Fc) Er) as (Eb & Er0 & _).
  simpl in Eb. rewrite Hp, (uwrap_small 32), Nat2Z.id, drop_0 in Eb by lia. rewrite Er0, (proj2 (Z.ltb_ge _ _)) in Hc by lia.
  destruct Hc as [-> _]. exists d'. rewrite E, Eb, length_take, Nat.min_l by lia. done.
Qed.
End open_file.

(** C14: What is written to a file is read back, through every layer: the file is opened at any
    path of the RAM file system, the bytes are written, the position is set back, and the
    read returns them.  The write is refused only where the heap of the file system has no
    block for the longer file. *)
Theorem ramfs_write_read t (d : dfs) w T path flags st fd d1 buf :
  using_workdir = true -> vfs_inv t d w T -> openable d w T path st -> Z.land flags DFS_O_APPEND = 0 ->
  Z.of_nat (length buf) < 2 ^ 31 -> Forall (fun b => 0 <= b < 256) buf ->
  open path flags d = Ok fd d1 -> 0 <= fd ->
  exists r d2, write fd buf d1 = Ok r d2 /\
    (r = 0 /\ (exists e, no_memory junk R (dworld d1) e (Z.of_nat (length buf))) \/
     r = Z.of_nat (length buf) /\ exists d3 d4, lseek fd 0 DFS_SEEK_SET d2 = Ok 0 d3 /\ read fd r d3 = Ok (r, buf) d4).
Proof.
  intros Hwd Hv Hob Hap Hlen Hbuf Eo Hfd.
  pose proof (wp_run _ _ _ _ _ (open_spec t d w T path flags st Hwd Hv Hob) Eo) as [_ Hcase].
  destruct Hcase as [(-> & _)|(i & j & a & b & y & op & x & r0 & v & fl & ty & q & l & -> & Hr)]; [lia|].
  cbv zeta in Hr. destruct Hr as (_ & Ei & Hdp & Ey & Eop & Efl & Ej & Er & Hr0 & Hv' & _).
  assert (fs_data y = R) as Hy.
  { destruct Hdp as [_ (y' & Ey' & _ & Hops & _) _]. apply (vi_good _ _ _ _ Hv j y Ey). congruence. }
  destruct (ob_may _ _ _ _ _ Hob j a b y Hdp Ey) as [Hfits Hnot]. destruct (vi_world _ _ _ _ Hv) as [F Hst]. injection Eop as <-.
  pose proof (wp_run _ _ _ _ _ (ram_open junk R n (dworld d) F T y Hst Hy i j (file_name y b st) x Ei Hfits Hnot) Er) as Hpost.
  destruct Hpost as [[? _]|(_ & (e & Ev) & Hst1)]; [lia|].
  set (name := file_name y b st) in *. set (f := mk_file j name ty (with_flags fl v)) in *. set (c := open_contents F name (fd_flags x)) in *.
  assert (pt_pos (f_part f) = 0) as Hp0.
  { simpl. rewrite Ev. simpl. by rewrite Efl, land_u32_append, Hap. }
  assert (reading t w i f d1 (<[i := f]> T) (f_part f) (<[skip_separators name := c]> F) c) as Hrd.
  { split; [exact Hv'|by rewrite set_f_part_id, lookup_insert_eq|apply Hst1|apply lookup_insert_eq]. }
  destruct (reading_write t w i f d1 _ _ _ _ buf Hrd ltac:(lia) Hbuf) as (r & d2 & E2 & Hc2). exists r, d2. split; [done|].
  destruct Hc2 as [[-> Hno]|(-> & T2 & v2 & F2 & Hrd2)]; [left; rewrite Hp0 in Hno; split; [done|by eexists]|right]. split; [done|]. rewrite Hp0 in Hrd2. simpl in Hrd2.
  destruct (reading_rewind t w i f d2 _ _ _ _ Hrd2) as (d3 & T3 & v3 & E3 & Hrd3 & Hp3).
  destruct (reading_read t w i f d3 _ _ _ _ (length buf) Hrd3 Hp3) as (d4 & E4); [unfold splice; simpl; rewrite length_app; lia|lia|].
  exists d3, d4. split; [done|]. rewrite E4. unfold splice. simpl. by rewrite take_app_length.
Qed.
End vfs.
