(* ===== verification/RamfsWitness.v ===== *)
(** * The RAM file system: concrete runs

    The kernel of the runs of the virtual file system with a RAM file system of one kilobyte
    on "/". *)
From stdpp Require Import base tactics numbers list gmap.
From S2P Require Import Prelude RtList Memory KString SmallMem SmallMemCorrect MemHeap MemHeapLayout MemHeapCorrect MemHeapResize Kernel Scheduler Object Timer Thread KHeap Ipc Mutex Board Device DfsPath Dfs DfsFile DfsPosix DfsTables DfsOpen DfsCalls DfsWitness RamPool Ramfs RamfsCorrect RamfsVfs.
Local Open Scope Z_scope.

Module RamfsWitness.
Import DfsWitness.DfsWitness.
#[local] Existing Instance stm32_config.
#[local] Existing Instance demo_allocator.
#[local] Existing Instance demo_laws.
#[local] Existing Instance no_driver.
#[local] Existing Instance demo_dfs.

Definition junk (a : Z) : rt_memheap_item := mk_item a a a a a a.
Definition stale (k : nat) : Z := Z.of_nat k mod 256.
Definition area : Z := 0x20010000.
Definition size : Z := 1026.
#[local] Instance ram_ops : FsOps ramworld := ramfs_ops junk stale.
#[local] Instance ram_laws : FsLaws := ramfs_laws junk stale area 872.

Definition blank : ramworld := mk_ramworld (mk_mhstate ∅ [] ∅ (write_bytes ∅ area (replicate 1024 0))) ∅ ∅ ∅ 0.
Definition w1 : ramworld := run (dfs_ramfs_create junk area size) blank.

Lemma blank_mapped : mapped (mh_bytes (ram_heap blank)) area 1024.
Proof.
  intros a Ha. unfold blank. cbn [ram_heap mh_bytes].
  rewrite lookup_write_bytes, length_replicate, decide_True, lookup_replicate_2 by lia. eauto.
Qed.

Lemma blank_bytes : mem_ok (mh_bytes (ram_heap blank)).
Proof.
  intros a b. unfold blank. cbn [ram_heap mh_bytes]. rewrite lookup_write_bytes. case_decide; [|by rewrite lookup_empty].
  intros [-> _]%lookup_replicate. lia.
Qed.

Lemma w1_state : ram_state area 872 w1 {[ [] := [] ]} ∅.
Proof.
  assert (dfs_ramfs_create junk area size blank = Ok area w1) as E by (unfold w1; apply (run_result (dfs_ramfs_create junk area size) blank area); vm_compute; reflexivity).
  pose proof (wp_run _ _ _ _ _ (ram_create junk area size blank ltac:(done) ltac:(done) ltac:(done) ltac:(done) blank_mapped blank_bytes) E) as [_ Hs].
  exact Hs.
Qed.

Definition type_ram : ptr := 0x08002000.
Definition start0 : dfs (World := ramworld) := mk_dfs k0 w1 ∅ ∅ [] [] [] [] zero_fd.
Definition startup : M (dfs (World := ramworld)) Z := dfs_init;; dfs_ramfs_init junk stale type_ram;; dfs_mount None [SLASH] ramfs_name 0 area.
Definition r0 : dfs (World := ramworld) := run startup start0.

Example r0_run : result startup start0 = Some 0.
Proof. vm_compute. reflexivity. Qed.

Lemma r0_blocks : dstr r0 = {[4108 := [SLASH; 0]]}.
Proof. vm_compute. reflexivity. Qed.
Lemma r0_mounts : filesystem_table r0 = [mk_fs RT_NULL 4108 type_ram area; zero_fs].
Proof. vm_compute. reflexivity. Qed.
Lemma r0_fds : fd_table r0 = replicate 4 zero_fd.
Proof. vm_compute. reflexivity. Qed.
Lemma r0_world : dworld r0 = w1.
Proof. vm_compute. reflexivity. Qed.

Lemma r0_heap : heap_inv r0.
Proof.
  exists (replay [inl 2] HeapDemo.s0 ∅).2. split_and!.
  - replace (kheap (dk r0)) with (replay [inl 2] HeapDemo.s0 ∅).1 by (vm_compute; reflexivity).
    apply replay_ok; [|by repeat constructor].
    exists HeapDemo.l0. split; [apply HeapDemo.s0_inv|]. intros p n E. by rewrite lookup_empty in E.
  - rewrite r0_blocks. replace (dirs r0) with (∅ : gmap ptr DIR) by (vm_compute; reflexivity).
    intros p [Hp|[x E]]; [|by rewrite lookup_empty in E].
    destruct Hp as [l E]. apply lookup_singleton_Some in E as [<- _].
    split; [done|apply (bool_decide_unpack _); vm_compute; exact I].
  - intros p _. replace (dirs r0) with (∅ : gmap ptr DIR) by (vm_compute; reflexivity). apply lookup_empty.
Qed.

Definition main_thread1 : rt_thread := default (junk_rt_thread tmain) (threads (dk r0) !! tmain).
Definition lock1 : rt_mutex := default (mk_mutex (mk_object [] 0 0) 0 0 0 RT_NULL) (mutexes (dk r0) !! fslock).
Lemma r0_ready : DfsTables.ready 0 tmain r0.
Proof.
  split; [|exact r0_heap]. split; [apply kinv_check_sound; vm_compute; reflexivity| |vm_compute; reflexivity|done].
  exists main_thread1, lock1. split_and!; [split; by vm_compute|vm_compute; reflexivity|split; by vm_compute].
Qed.

Lemma r0_mounted i m : mounted r0 i m <-> i = 0%nat /\ m = [SLASH].
Proof.
  unfold mounted, text_at, text_in. rewrite r0_mounts, r0_blocks. split.
  - intros (x & Ex & Hp & Ho & l & El & Es). destruct i as [|[|i]]; [injection Ex as <-..|done]; [|done].
    vm_compute in El. injection El as <-. injection Es as <-. done.
  - intros [-> ->]; eexists; (split_and!; [reflexivity|done|done|]); eexists; by split.
Qed.

Lemma r0_vfs : vfs_inv tmain r0 w0 ∅.
Proof.
  split.
  2: { rewrite r0_world. exists {[ [] := [] ]}. exact w1_state. }
  2: { intros j y Ey Hops. rewrite r0_mounts in Ey. destruct j as [|[|j]]; [injection Ey as <-; reflexivity| |discriminate Ey].
       injection Ey as <-. by destruct Hops. }
  split.
  - exact r0_ready.
  - split; [by rewrite r0_mounts|]. intros i x Ex H1' H2'. assert (i = 0%nat) as ->.
    { rewrite r0_mounts in Ex. destruct i as [|[|i]]; [auto| |done]. injection Ex as <-. by destruct H1'. }
    assert (mounted r0 0 [SLASH]) as (y & Ey & _ & _ & Hm) by (apply r0_mounted; split; reflexivity).
    rewrite Ex in Ey. injection Ey as <-. exists [SLASH]. exact Hm.
  - intros i m [-> ->]%r0_mounted. by exists [].
  - by vm_compute.
  - by rewrite r0_fds.
  - intros i f E. rewrite lookup_empty in E. discriminate E.
  - intros i x _ _ E. rewrite r0_fds in E. apply lookup_replicate in E as [-> _]. exists 0. split; [lia|reflexivity].
  - intros i j x y [f E]. rewrite lookup_empty in E. discriminate E.
  - intros i x j y [f E]. rewrite lookup_empty in E. discriminate E.
Qed.

(** "/a" *)
Definition path2 : list Z := [SLASH; 97].
Definition create_flags : Z := DFS_O_CREAT.
Definition r1 : dfs (World := ramworld) := run (open path2 create_flags) r0.

Lemma path2_openable : openable r0 w0 ∅ path2 [[97]].
Proof.
  split; [by repeat constructor|by vm_compute| | |].
  - eexists. split; [reflexivity|]. by vm_compute.
  - intros n Hn. change (length (full_text w0 path2)) with 2%nat in *.
    do 3 (destruct n as [|n]; [by vm_compute|]). lia.
  - intros j a b y [Hsp Hm _] Ey. split; [|intros k g E; rewrite lookup_empty in E; discriminate E].
    apply r0_mounted in Hm as [-> Ha]. rewrite r0_mounts in Ey. injection Ey as <-.
    assert (a = [] /\ b = [[97]]) as [-> ->].
    { destruct b as [|x b]; [simpl in Hsp; subst a; discriminate Ha|]. simpl in Hsp. injection Hsp as <- Hsp.
      symmetry in Hsp. apply app_nil in Hsp as [-> ->]. done. }
    split; [vm_compute; lia|by repeat constructor].
Qed.

Lemma r1_opened : open path2 create_flags r0 = Ok 0 r1.
Proof. unfold r1. apply (run_result (open path2 create_flags) r0 0). vm_compute. reflexivity. Qed.

Lemma write_read_witness :
  exists r d2, write 0 [1; 2; 3] r1 = Ok r d2 /\
    (r = 0 /\ (exists e, no_memory junk area (dworld r1) e 3) \/
     r = 3 /\ exists d3 d4, lseek 0 0 DFS_SEEK_SET d2 = Ok 0 d3 /\ read 0 r d3 = Ok (r, [1; 2; 3]) d4).
Proof.
  apply (ramfs_write_read junk stale area 872 tmain r0 w0 ∅ path2 create_flags [[97]] 0 r1 [1; 2; 3]);
    [reflexivity|exact r0_vfs|exact path2_openable|reflexivity|reflexivity| |exact r1_opened|lia].
  repeat constructor; lia.
Defined.

(** ** Runs *)

(** The write does not fail here, and the next file is another one. *)
Example two_files :
  result (fd ← open path2 create_flags; write fd [1; 2; 3];;
          fd' ← open [SLASH; 98] create_flags; write fd' [4; 5];;
          lseek fd 0 DFS_SEEK_SET;; lseek fd' 0 DFS_SEEK_SET;;
          x ← read fd 8; y ← read fd' 8; mret (x, y)) r0 = Some ((3, [1; 2; 3]), (2, [4; 5])).
Proof. vm_compute. reflexivity. Qed.

(** A file of more than the area cannot be written. *)
Example area_full :
  result (fd ← open path2 create_flags; write fd (replicate 900 7)) r0 = Some 0.
Proof. vm_compute. reflexivity. Qed.

(** A file that has been renamed cannot be opened: the new name is stored with the separator
    in front, which a lookup skips. *)
Example rename_loses :
  result (fd ← open path2 create_flags; close fd;; r ← rename path2 [SLASH; 98];
          fd' ← open [SLASH; 98] 0; mret (r, fd')) r0 = Some (0, -1).
Proof. vm_compute. reflexivity. Qed.

(** Two descriptors of one file: the second write, through the descriptor that still has
    the old size, makes the file shorter again, and the entry is left with that size. *)
Example stale_size :
  result (fd ← open path2 create_flags; fd' ← open path2 0;
          write fd [1; 2; 3; 4];; write fd' [9];; fd'' ← open path2 0; read fd'' 8) r0 = Some (1, [9]).
Proof. vm_compute. reflexivity. Qed.
End RamfsWitness.
